(* ===== verification/_CoqProject ===== *)
-Q . S2P
Prelude.v
Text.v
CoreTypes.v
Agent.v
Abac.v
AuthContext.v
AbacMiddleware.v
FlagCore.v
FlagEval.v
FlagClient.v
Pool.v
ByteStream.v
AnthropicStream.v
OpenAiStream.v
VertexStream.v
ProxyStream.v
LlmStreams.v
StreamedMessage.v
ProviderRequests.v
LlmClients.v
SourceMap.v
Derp.v
Tools.v
Analytics.v
Identity.v
IdentitySpec.v
IdentityProofs.v
Effects.v
Sql.v
Columns.v
Samples.v
ThreadModel.v
ThreadStore.v
ThreadServer.v
ThreadSync.v
ThreadSyncProofs.v
ThreadConvergence.v
ThreadCases.v
CrashModel.v
CrashGroups.v
CrashRepo.v
CrashCapture.v
CrashProcessor.v
CrashRoutes.v
CrashInvariant.v
CrashRequests.v
CrashServer.v
CrashTypes.v
CrashIsolation.v
CrashCases.v
JobModel.v
JobStore.v
JobScheduler.v
JobRuns.v
JobHistory.v
JobHealth.v
CronModel.v
CronRepo.v
CronRoutes.v
CronInvariant.v
CronServer.v
CronTenants.v
CronDetection.v
CronCases.v
JobServer.v
JobDetection.v
JobCases.v
SessModel.v
SessRepo.v
SessRoutes.v
SessInvariant.v
SessServer.v
SessAggregation.v
SessHealth.v
SessProjects.v
SessCases.v
WgModel.v
WgServer.v
WgProofs.v
WgCases.v
