(* ===== verification/Prelude.v ===== *)
(** * A verification library for Loom

    Loom is an AI coding agent with its server: a terminal client that runs a
    conversation with a language model and lets the model use tools on the
    user's files, and a server with accounts and access control, proxies to the
    model providers, feature flags, crash reports, cron monitoring, product
    analytics, app sessions, background jobs and a WireGuard tunnel with DERP relays.
    The workspace has one Rust crate per part under [src/crates].  This library
    translates the decision-making code of these crates into Rocq functions and proves
    what makes it correct.

    ** How code is translated

    - A struct is a [Record], an enum an [Inductive] with the source's
      constructors, a function or method one [Definition] or [Fixpoint] with the
      source's name; where two crates use a name twice it is prefixed by the
      type's name.  [&mut self] is state passing.
    - [Result] is [result] of this file, a panic is [Panic] of [run]; both are
      monads.  Integers are [Z] (or [nat] for sizes and indices of vectors) and
      arithmetic that can leave its width goes through [arith], which panics in
      a build with overflow checks and wraps in one without.  Theorems about
      such code hold for both profiles, or say for which.
    - Strings are Rocq's byte strings, [HashMap]s are [gmap]s, [Vec]s are lists.
      The order in which a [HashMap] is iterated is an argument.
    - The clock, random identifiers and the answers of databases, of the network
      and of the file system are arguments.  A mutex is modelled by the atomic
      steps between its acquisitions where operations can interleave.
    - Code of other packages is a class: [SerdeJson] (CoreTypes), [JsonValue]
      (FlagCore), [Murmur3] (FlagEval), [DerpJson] (Derp), [FileSystem]
      (Tools), [JsonObject] (Analytics), [JsonRead] and [HashOrder] (ByteStream),
      the JSON classes of the stream and client files, [AxumSse] (ProxyStream),
      [ThreadJson], [ThreadTexts], [ServerTexts], [Backend] and [Deployment] (threads),
      [OrderBy] (Sql), [JsonColumn] and [Stamps] (Columns), [CrashTexts] and
      [CrashBackend] (crash reports), [CronBackend] (cron monitoring), [JobBackend]
      (background jobs), [SessBackend] (app sessions) and [WgBackend] (the overlay network).
      Their laws are documented behaviour;
      the witnesses of the theorems use concrete instances.
    - Log statements and metrics are dropped.

    ** Files

    - Prelude: this file.  Results, panics, machine integers, the string and
      list functions of the standard library the sources call, with their
      lemmas, and the tactics and hint databases of the library.  Text adds
      searching, splitting, UTF-8, trimming and server-sent events.
    - CoreTypes, Agent: [loom-common-core].  CoreTypes has the data model
      (message.rs, tool.rs, llm.rs, error.rs, config.rs, state.rs).  Agent has
      the state machine of agent.rs: [handle_event] takes the agent's state and
      an event to the next state and the action to perform, and [step] and
      [steps] are its runs.  Shown: the invariant of reachable states and that
      every event is handled (C1), one tool round from the model's answer to the
      next request (C2), what is sent and when (C3), the number of retries is
      bounded and reached (C4, C5), the history only grows.
    - Abac, AuthContext, AbacMiddleware: [loom-server-auth] (abac, types.rs,
      middleware.rs) and abac_middleware.rs of [loom-server].  The policies and
      the decision function; the request's credentials; the two route layers,
      the construction of the subject from the repositories and the handlers'
      check.  Shown: the engine decides a declarative relation (C6), isolates
      organizations (C7), is monotone in roles and keeps the read-only roles
      read-only; the session cookie round trip; the exact decision of the
      capability layer; failed queries never add rights (C8).
    - FlagCore, FlagEval, FlagClient: [loom-flags-core], evaluation.rs of
      [loom-server-flags], cache.rs, sse.rs and client.rs of [loom-flags].  Flag
      keys, the functional specification of evaluation (C9), rollouts that only
      widen, kill switches, the weighted choice, the client's cache follows
      the update stream (C10) and honours kill switches without the server.
    - Pool: pool.rs of [loom-server-llm-anthropic], accounts behind two locks
      with failover and cooldown.  The invariant of sequential use, whose only panic is a
      cooldown beyond the end of the clock (C11), fairness of round robin, selection, cooldown after a quota error.
    - ByteStream, AnthropicStream, OpenAiStream, VertexStream, ProxyStream,
      LlmStreams: stream.rs of the providers' crates and of
      [loom-server-llm-proxy], and the relay of llm_proxy.rs of [loom-server].
      ByteStream has the interface of a stream, the loop that consumes it and
      the theory of framed streams (class [FramedStream], of which each parser
      is an instance); each parser has a file; LlmStreams has what holds of all.
      Shown: chunk boundaries do not matter (C19), every stream ends and closes
      with its last event (C20), what the server relays is what the client
      receives.
    - StreamedMessage: the loop of main.rs of [loom-cli] that receives an answer,
      and a message from the provider's blocks to the conversation through
      parser, relay, client and agent, when no chunk cuts a character (C21).
    - ProviderRequests: types.rs of the providers' crates.  The history in a
      request (C22), streamed and whole answers agree.
    - LlmClients: retry.rs of [loom-common-http] and client.rs of the providers'
      crates and of the proxy: which answers make a client repeat its request,
      and how often (C23).
    - ThreadModel, ThreadStore, ThreadServer, ThreadSync, ThreadSyncProofs,
      ThreadConvergence, ThreadCases: stored conversations.  ThreadModel has the data
      of [loom-common-thread] (model.rs, the queue of pending_sync.rs) and a small
      state and error monad with its proof rules; ThreadStore the client's files
      (store.rs, pending_sync.rs) on a disk whose calls may fail; ThreadServer the
      repository of [loom-server-db] (thread.rs) and the handlers of [loom-server]
      (routes/threads.rs), where the answers of the full-text index are arguments;
      ThreadSync the client and the syncing store (sync.rs) with
      its background tasks.  Shown: a save is atomic; other users' requests leave a
      thread alone (C24); private threads are in no request, in any interleaving (C25);
      work done one call at a time while requests fail reaches the server with the next
      retry (C26).
      ThreadCases has concrete runs.
    - SourceMap: [loom-crash-symbolicate].  The VLQ decoder inverts an encoder
      (C12), the two binary searches find the mapping in force, end-to-end
      symbolication (C13), source context.
    - Derp: protocol.rs and client.rs of [loom-wgtunnel-derp].  Streams of
      frames round trip (C14); a read of arbitrary bytes takes one bounded frame
      or fails.
    - Tools: [loom-cli-tools].  Edits are all or nothing, a failure being reported before
      the write but for two cases (C15); accepted paths stay in the workspace (C16).
    - Analytics, Identity, IdentitySpec, IdentityProofs: [loom-analytics-core],
      repository.rs, identity_resolution.rs and the handlers of
      [loom-server-analytics].  Analytics has the records, the repository trait
      as a class, its laws on abstract tables and the SQLite implementation, an
      instance with the schema's constraints and statements that may fail, which
      keeps the laws.  Identity is the service and its handlers over any
      repository, IdentitySpec the abstract owners of distinct ids and
      IdentityProofs the proofs, done against the laws and instantiated at
      SQLite.  Shown: requests implement the union of identity classes and keep
      the invariant whatever statement fails (C17), persons are the classes of
      linked ids (C18), the outcome of a merge, events stay with their ids.
    - Effects, Sql, Columns, Samples: what the modelled repositories and
      handlers share.  Effects is the monad of fallible code on a state, with weakest
      preconditions and preservation, and [Async], code between its suspension points, with
      a rely-guarantee predicate [safe] and the interleavings of any number of requests; Sql has tables as lists of rows and statements
      that may fail; Columns the encodings of columns, how a request ends and
      its clock; Samples has instances of the classes for concrete runs.
    - CrashModel, CrashGroups, CrashRepo, CrashCapture, CrashProcessor, CrashRoutes
      (and the proofs CrashInvariant, CrashRequests, CrashServer,
      CrashTypes, CrashIsolation): crash reports.  The data of
      [loom-crash-core], fingerprints, the repository of [loom-server-crash], the
      processor that symbolicates with SourceMap, and every handler of routes/crash.
      Shown: issues agree with their events after any sequence of requests, one after the
      other, with any statement failing (C27; captures that overlap lose counts,
      [concurrent_captures_lose_count]), projects of other organizations cannot be reached
      (C28), stored values keep their types (C29), equal fingerprints are equal
      groups.  CrashCases has concrete runs.
    - CronModel, CronRepo, CronRoutes (and CronInvariant, CronServer, CronTenants,
      CronDetection): cron monitoring.  [loom-crons-core],
      [loom-server-crons], the handlers of routes/crons and the two detectors.
      Shown: the counters of a monitor cover its check-ins (C30), a ping of success or
      failure is recorded with what it says and the monitor is not reported missed before
      its next time and margin (C31),
      strangers leave an organization's monitors alone.  CronCases has concrete
      runs.
    - SessModel, SessRepo, SessRoutes (and SessInvariant, SessServer,
      SessAggregation, SessHealth, SessProjects): app sessions and release health.
      [loom-sessions-core], [loom-server-sessions], routes/app_sessions.rs and the two
      jobs on sessions.  [sess_step] is the server as a transition system; it shares
      projects, keys and memberships with the crash server, whose promise
      ([projects_follow]) SessProjects proves.  Shown: the tables are consistent in
      every reachable state (C36), a run of the aggregation stores the counts of the
      hour whatever the order of rows and groups (C37), and the reported health of a
      release is that of its stored sessions of the hours that are over (C38).  The clock is between 1970 and 2262,
      where [chrono] rounds to hours, and there are fewer than 2^31 sessions.  SessCases
      has concrete runs.
    - WgModel, WgServer (and WgProofs): the coordination server of the overlay network.
      [loom-server-wgtunnel], wgtunnel.rs of [loom-server-db], derp_map.rs and ip.rs of
      [loom-wgtunnel-common] and routes/wgtunnel.  WgModel has addresses with the printer and
      the parser of the standard library, which are inverse on the overlay's addresses, and the
      repository; WgServer the address allocator, the services, the peer channels and the
      handlers as [Async] code, where every statement and every use of a counter or a channel is
      a step.  [wg_step] interleaves requests with failing statements, deleted users and
      restarts.  Shown: addresses are unique and sessions refer to registered devices and
      weavers in every interleaving (C39), and a request for a tunnel gives both ends the
      same address and each other's keys (C40).  The ids of weavers (UUIDs of version 7) are
      assumed to differ from those of sessions (version 4).  A peer channel has the
      latest events sent while it had receivers, as many as its capacity.  WgCases has concrete
      runs.
    - JobModel, JobStore, JobScheduler, JobServer (and JobRuns, JobHistory, JobHealth,
      JobDetection): background jobs.  [loom-server-jobs], job.rs of
      [loom-server-db], admin_jobs.rs and the check of health.rs.  A run is the
      function [run_job_with_retry] and also a task between its suspension points;
      [JobStep] lists interleave tasks, timers and requests.  Shown: the history of runs
      is true in every interleaving (C32), a run follows the policy for attempts, retries
      and records, as a call and as a task (C33), and ends, scheduled runs of a job do not overlap, the reported health is
      that of the latest runs (C34), and the scheduled detector of cron monitoring
      reports the late monitors and them only (C35).  JobCases has concrete runs.

    Components meet in these places: Agent uses CoreTypes, AbacMiddleware calls
    the engine of Abac with the context of AuthContext, FlagEval and FlagClient
    share FlagCore, Identity reaches its storage through the class
    [AnalyticsRepository] only, StreamedMessage composes the Anthropic parser,
    the relay, the proxy parser and the agent, the errors of LlmClients are the ones
    Pool reads, ThreadSync uses the retry loop of LlmClients and talks to the
    handlers of ThreadServer, and these see the users of AuthContext.
    CrashProcessor resolves frames with SourceMap, and JobServer registers the
    detectors of CronRoutes as jobs of JobScheduler; SessRoutes reads the projects and keys
    of CrashRepo, and its aggregation and clean-up are such jobs too.

    ** Bounds and fuel

    Where the source's recursion is not structural the definition has fuel, and
    the theorems that say a result is produced are proved with the fuel the
    definition itself passes: [split_all] and the other scanners of Text take
    the length of their input, [partition_search] the length of the slice (each
    round halves the range), [recv_all] one unit more than the number of frames
    that can be read, the loops over a stream's buffer its length (each event
    shortens it), [retry] the number of attempts; [task_steps] is enough for all
    attempts of a background task and its record; [run_attempts] has one unit for
    each attempt, and [run_follows_policy] shows that none is missing.  [delivers] quantifies over
    all fuel from some number of polls on.  The VLQ theorems are about fields below 2^30,
    which have at most seven digits; more digits are shifted out of [i32], which
    [long_number_not_rejected] shows.

    ** Behaviour that is not as documented

    Some lemmas record where the code departs from its documentation or its
    purpose: [documented_pattern_narrower], [less_than_accepts_greater],
    [late_activation_lost], [interleaved_add_panics], [stale_index_marks],
    [long_cooldown_panics], [admins_cannot_delete_org],
    [long_number_not_rejected], [oversized_packet_refused],
    [edit_escapes_workspace], [unprintable_path_written], [self_identify_fails],
    [interrupted_merge_splits], [concurrent_resolve_duplicates],
    [null_properties_stick], [split_character_lost], [openai_text_drops_calls],
    [openai_drops_later_deltas], [vertex_drops_later_parts],
    [anthropic_cut_off_silently], [openai_drops_calls], [vertex_drops_calls],
    [vertex_drops_unnamed], [openai_server_errors_final],
    [invalid_key_not_recognized], [late_upload_wins], [retry_uploads_private],
    [conflict_answered_500], [deleted_thread_cannot_return], [orphan_upload_stays],
    [cli_forgets_failures], [list_cut_before_sorting], [search_index_drifts], and the lemmas of CrashCases,
    CronCases, JobCases, SessCases and WgCases after their witnesses, with [cancel_is_final] of JobRuns.

    ** Not modelled

    Most routes and SQL statements, HTTP, Kubernetes, git, terminal rendering and
    cryptography are input and output or other packages' code.  Of the
    program's own logic these parts are left out: the SCIM filter language and patches, the
    queue and filters of audit events, branch protection, login sessions and tokens, routing and
    path selection of the WireGuard data plane, whose decisions depend on sockets and timers, and
    the editing state of the terminal widgets.  The HTTP transports of the crash and cron
    SDKs are left out.  The delay between retries of the LLM clients
    is not modelled either: it is computed in floating point with a random factor. *)
From stdpp Require Import base gmap sets list strings fin_maps.
From Stdlib Require Import ZArith Lia Ascii.

(** * Results, panics and machine integers *)

(** Rust's [Result<A, E>]. *)
Inductive result (E A : Type) : Type :=
| Ok (a : A)
| Err (e : E).
Arguments Ok {E A} a.
Arguments Err {E A} e.

#[export] Instance result_ret E : MRet (result E) := fun A a => Ok a.
#[export] Instance result_bind E : MBind (result E) := fun A B f m =>
  match m with Ok a => f a | Err e => Err e end.

#[export] Instance result_eq_dec E A `{EqDecision E} `{EqDecision A} :
  EqDecision (result E A).
Proof. solve_decision. Defined.

(** [Option::ok_or]. *)
Definition ok_or {E A} (e : E) (o : option A) : result E A :=
  match o with Some a => Ok a | None => Err e end.

(** A computation that either finishes or unwinds with a panic. *)
Inductive run (A : Type) : Type :=
| Done (a : A)
| Panic.
Arguments Done {A} a.
Arguments Panic {A}.

#[export] Instance run_ret : MRet run := fun A a => Done a.
#[export] Instance run_bind : MBind run := fun A B f m =>
  match m with Done a => f a | Panic => Panic end.

#[export] Instance run_eq_dec A `{EqDecision A} : EqDecision (run A).
Proof. solve_decision. Defined.

Local Open Scope Z_scope.

(** Machine integers are [Z] values inside the range of their type. *)
Definition u8_ok (z : Z) : Prop := 0 <= z < 2 ^ 8.
Definition u32_ok (z : Z) : Prop := 0 <= z < 2 ^ 32.
Definition i32_ok (z : Z) : Prop := - 2 ^ 31 <= z < 2 ^ 31.
Definition u64_ok (z : Z) : Prop := 0 <= z < 2 ^ 64.

Definition wrap_u8 (z : Z) : Z := z mod 2 ^ 8.
Definition wrap_u32 (z : Z) : Z := z mod 2 ^ 32.
Definition wrap_u64 (z : Z) : Z := z mod 2 ^ 64.
Definition wrap_i32 (z : Z) : Z := (z + 2 ^ 31) mod 2 ^ 32 - 2 ^ 31.
Definition wrap_i64 (z : Z) : Z := (z + 2 ^ 63) mod 2 ^ 64 - 2 ^ 63.

(** The value of [a op b] at a width, when the exact result is [z]: the result
    itself when it fits; otherwise the build profile decides.  With overflow
    checks (profile [dev]) the program panics, without them (profile
    [release]) it wraps. *)
Definition arith (overflow_checks : bool) (wrap : Z -> Z) (z : Z) : run Z :=
  if wrap z =? z then Done z
  else if overflow_checks then Panic else Done (wrap z).

Definition add_u32 oc a b := arith oc wrap_u32 (a + b).
Definition add_i32 oc a b := arith oc wrap_i32 (a + b).
Definition add_u64 oc a b := arith oc wrap_u64 (a + b).

(** ** Arithmetic lemmas *)

Lemma wrap_u32_id z : u32_ok z -> wrap_u32 z = z.
Proof. unfold u32_ok, wrap_u32. intros. by apply Z.mod_small. Qed.

Lemma wrap_u32_ok z : u32_ok (wrap_u32 z).
Proof. unfold u32_ok, wrap_u32. apply Z.mod_pos_bound. lia. Qed.

Lemma wrap_i32_id z : i32_ok z -> wrap_i32 z = z.
Proof.
  unfold i32_ok, wrap_i32. intros. rewrite Z.mod_small; lia.
Qed.

Lemma wrap_i32_ok z : i32_ok (wrap_i32 z).
Proof.
  unfold i32_ok, wrap_i32.
  pose proof (Z.mod_pos_bound (z + 2 ^ 31) (2 ^ 32) ltac:(lia)). lia.
Qed.

Lemma arith_fits oc wrap z : wrap z = z -> arith oc wrap z = Done z.
Proof. unfold arith. intros ->. by rewrite Z.eqb_refl. Qed.

Lemma arith_release_total wrap z : arith false wrap z = Done (wrap z).
Proof. unfold arith. by destruct (Z.eqb_spec (wrap z) z) as [->|]. Qed.

Lemma arith_checked_exact wrap z v : arith true wrap z = Done v -> v = z.
Proof. unfold arith. destruct (wrap z =? z); congruence. Qed.

Lemma add_u32_fits oc a b : u32_ok (a + b) -> add_u32 oc a b = Done (a + b).
Proof. intros. by apply arith_fits, wrap_u32_id. Qed.

Lemma add_i32_fits oc a b : i32_ok (a + b) -> add_i32 oc a b = Done (a + b).
Proof. intros. by apply arith_fits, wrap_i32_id. Qed.

Lemma wrap_u64_id z : u64_ok z -> wrap_u64 z = z.
Proof. unfold u64_ok, wrap_u64. intros. by apply Z.mod_small. Qed.

(** [as i64] and back, [as i32] and back. *)
Lemma wrap_u64_i64 z : u64_ok z -> wrap_u64 (wrap_i64 z) = z.
Proof.
  unfold u64_ok, wrap_u64, wrap_i64. intros Hz.
  destruct (Z_lt_dec z (2 ^ 63)).
  - rewrite (Z.mod_small (z + 2 ^ 63)) by lia. rewrite Z.mod_small; lia.
  - rewrite <- (Z_mod_plus_full (z + 2 ^ 63) (-1) (2 ^ 64)), (Z.mod_small (_ + _)) by lia.
    rewrite <- (Z_mod_plus_full _ 1 (2 ^ 64)), Z.mod_small; lia.
Qed.

Lemma wrap_u32_i32 z : u32_ok z -> wrap_u32 (wrap_i32 z) = z.
Proof.
  unfold u32_ok, wrap_u32, wrap_i32. intros Hz.
  destruct (Z_lt_dec z (2 ^ 31)).
  - rewrite (Z.mod_small (z + 2 ^ 31)) by lia. rewrite Z.mod_small; lia.
  - rewrite <- (Z_mod_plus_full (z + 2 ^ 31) (-1) (2 ^ 32)), (Z.mod_small (_ + _)) by lia.
    rewrite <- (Z_mod_plus_full _ 1 (2 ^ 32)), Z.mod_small; lia.
Qed.

Lemma add_u64_fits oc a b : u64_ok (a + b) -> add_u64 oc a b = Done (a + b).
Proof. intros. by apply arith_fits, wrap_u64_id. Qed.

Lemma add_u32_ok oc a b v : add_u32 oc a b = Done v -> u32_ok v.
Proof.
  unfold add_u32, arith.
  pose proof (wrap_u32_ok (a + b)) as H.
  destruct (Z.eqb_spec (wrap_u32 (a + b)) (a + b)), oc; intros [= <-]; congruence.
Qed.

Lemma add_i32_ok oc a b v : add_i32 oc a b = Done v -> i32_ok v.
Proof.
  unfold add_i32, arith.
  pose proof (wrap_i32_ok (a + b)) as H.
  destruct (Z.eqb_spec (wrap_i32 (a + b)) (a + b)), oc; intros [= <-]; congruence.
Qed.

Local Close Scope Z_scope.

(** * Lists *)

(** [iter().position(p)]: the index of the first element satisfying [p]. *)
Fixpoint position {A} (p : A -> bool) (l : list A) : option nat :=
  match l with
  | [] => None
  | x :: l => if p x then Some 0 else S <$> position p l
  end.

(** [Vec::remove(i)] for an index in range. *)
Definition remove_at {A} (i : nat) (l : list A) : list A :=
  take i l ++ drop (S i) l.

Section Lists.
Context {A B : Type}.
Implicit Types (l : list A) (p : A -> bool).

Lemma position_Some p l i :
  position p l = Some i <->
  exists x, l !! i = Some x /\ p x = true /\
    forall j y, j < i -> l !! j = Some y -> p y = false.
Proof.
  revert i. induction l as [|x l IH]; intros i; simpl.
  - split; [done|]. intros (y & Hy & _). done.
  - destruct (p x) eqn:Hp.
    + split.
      * intros [= <-]. exists x. repeat split; [done|]. lia.
      * intros (y & Hy & Hpy & Hmin). destruct i as [|i]; [done|].
        specialize (Hmin 0 x ltac:(lia) eq_refl). congruence.
    + rewrite fmap_Some. split.
      * intros (j & (y & Hy & Hpy & Hmin)%IH & ->). exists y.
        repeat split; [done..|]. intros [|k] z Hk Hz; [naive_solver|].
        eapply Hmin; [|done]. lia.
      * intros (y & Hy & Hpy & Hmin). destruct i as [|i]; [simplify_eq/=; congruence|].
        exists i. split; [|done]. apply IH. exists y.
        repeat split; [done..|]. intros j z Hj Hz.
        apply (Hmin (S j) z); [lia|done].
Qed.

Lemma position_None p l : position p l = None <-> Forall (fun x => p x = false) l.
Proof.
  induction l as [|x l IH]; simpl.
  - split; [constructor|done].
  - rewrite Forall_cons. destruct (p x); [naive_solver|].
    rewrite fmap_None. naive_solver.
Qed.

Lemma position_lt p l i : position p l = Some i -> i < length l.
Proof. intros (x & Hx & _)%position_Some. by eapply lookup_lt_Some. Qed.

Lemma find_Some_lookup p l x :
  List.find p l = Some x <-> exists i, position p l = Some i /\ l !! i = Some x.
Proof.
  induction l as [|y l IH]; simpl.
  - naive_solver.
  - destruct (p y).
    + split; [|naive_solver]. intros [= ->]. by exists 0.
    + rewrite IH. split.
      * intros (i & Hi & Hx). exists (S i). by rewrite Hi.
      * intros (i & (j & Hj & ->)%fmap_Some & Hx). by exists j.
Qed.

Lemma length_remove_at i l : i < length l -> length (remove_at i l) = length l - 1.
Proof. intros. unfold remove_at. rewrite length_app, length_take, length_drop. lia. Qed.

Lemma remove_at_lookup_lt i j l : j < i -> remove_at i l !! j = l !! j.
Proof.
  intros. unfold remove_at. destruct (decide (j < length l)).
  - rewrite lookup_app_l by (rewrite length_take; lia). by rewrite lookup_take_lt.
  - rewrite !lookup_ge_None_2; [done|lia|].
    rewrite length_app, length_take, length_drop. lia.
Qed.

Lemma remove_at_lookup_ge i j l :
  i <= j -> i < length l -> remove_at i l !! j = l !! (S j).
Proof.
  intros. unfold remove_at.
  rewrite lookup_app_r by (rewrite length_take; lia).
  rewrite length_take, lookup_drop. f_equal. lia.
Qed.

Lemma fmap_remove_at (f : A -> B) i l : f <$> remove_at i l = remove_at i (f <$> l).
Proof. unfold remove_at. by rewrite fmap_app, fmap_take, fmap_drop. Qed.

Lemma forallb_spec p l : forallb p l = true <-> Forall (fun x => p x = true) l.
Proof. rewrite forallb_forall, List.Forall_forall. done. Qed.

Lemma existsb_spec p l : existsb p l = true <-> Exists (fun x => p x = true) l.
Proof. rewrite existsb_exists, List.Exists_exists. done. Qed.

End Lists.

(** * Strings

    A Rust [str] is its UTF-8 byte sequence, one [ascii] per byte, so [len()]
    is [String.length] and byte-wise prefix, suffix and substring tests are the
    ones of the standard library. *)
Definition starts_with (s t : string) : bool := String.prefix t s.

Fixpoint ends_with (s t : string) : bool :=
  bool_decide (s = t) ||
  match s with
  | EmptyString => false
  | String _ s' => ends_with s' t
  end.

Fixpoint str_contains (s t : string) : bool :=
  String.prefix t s ||
  match s with
  | EmptyString => false
  | String _ s' => str_contains s' t
  end.

Definition byte_of (c : ascii) : Z := Z.of_N (N_of_ascii c).

Definition is_ascii_lowercase (c : ascii) : bool :=
  (97 <=? byte_of c)%Z && (byte_of c <=? 122)%Z.
Definition is_ascii_uppercase (c : ascii) : bool :=
  (65 <=? byte_of c)%Z && (byte_of c <=? 90)%Z.
Definition is_ascii_digit (c : ascii) : bool :=
  (48 <=? byte_of c)%Z && (byte_of c <=? 57)%Z.

Definition ascii_lower (c : ascii) : ascii :=
  if is_ascii_uppercase c then ascii_of_N (N_of_ascii c + 32) else c.

(** [str::to_ascii_lowercase]. *)
Fixpoint to_ascii_lowercase (s : string) : string :=
  match s with
  | EmptyString => EmptyString
  | String c s => String (ascii_lower c) (to_ascii_lowercase s)
  end.

Definition is_ascii (c : ascii) : bool := (byte_of c <? 128)%Z.

Definition ascii_upper (c : ascii) : ascii :=
  if is_ascii_lowercase c then ascii_of_N (N_of_ascii c - 32) else c.

(** [str::to_ascii_uppercase]. *)
Fixpoint to_ascii_uppercase (s : string) : string :=
  match s with
  | EmptyString => EmptyString
  | String c s => String (ascii_upper c) (to_ascii_uppercase s)
  end.

(** [str::eq_ignore_ascii_case]. *)
Definition eq_ignore_ascii_case (a b : string) : bool :=
  bool_decide (to_ascii_lowercase a = to_ascii_lowercase b).

(** [chars().all(p)] for predicates that reject every non-ASCII character. *)
Fixpoint str_all (p : ascii -> bool) (s : string) : bool :=
  match s with
  | EmptyString => true
  | String c s => p c && str_all p s
  end.

(** [str::split(sep)] for a one-byte separator: always at least one piece. *)
Fixpoint split_on (sep : ascii) (s : string) : list string :=
  match s with
  | EmptyString => [EmptyString]
  | String c s =>
      if bool_decide (c = sep) then EmptyString :: split_on sep s
      else match split_on sep s with
           | piece :: rest => String c piece :: rest
           | [] => [String c EmptyString]
           end
  end.

(** [str::strip_prefix]. *)
Fixpoint strip_prefix (t s : string) : option string :=
  match t, s with
  | EmptyString, _ => Some s
  | String c t, String d s => if bool_decide (c = d) then strip_prefix t s else None
  | String _ _, EmptyString => None
  end.

(** [str::split_once] for a one-byte separator. *)
Fixpoint split_once (sep : ascii) (s : string) : option (string * string) :=
  match s with
  | EmptyString => None
  | String c s =>
      if bool_decide (c = sep) then Some (EmptyString, s)
      else '(a, b) ← split_once sep s; Some (String c a, b)
  end.

(** [str::trim] on ASCII text without control characters but tab. *)
Definition is_blank (c : ascii) : bool :=
  bool_decide (c = " "%char) || bool_decide (c = "009"%char).

Fixpoint trim_start (s : string) : string :=
  match s with
  | EmptyString => EmptyString
  | String c s' => if is_blank c then trim_start s' else s
  end.

Fixpoint trim_end (s : string) : string :=
  match s with
  | EmptyString => EmptyString
  | String c s =>
      match trim_end s with
      | EmptyString => if is_blank c then EmptyString else String c EmptyString
      | t => String c t
      end
  end.

Definition trim_ascii (s : string) : string := trim_end (trim_start s).

(** [Iterator::find_map]. *)
Fixpoint find_map {A B} (f : A -> option B) (l : list A) : option B :=
  match l with
  | [] => None
  | x :: l => match f x with Some y => Some y | None => find_map f l end
  end.

Lemma prefix_spec t s : String.prefix t s = true <-> exists r, s = (t +:+ r)%string.
Proof.
  revert s. induction t as [|c t IH]; intros s.
  - split; [by exists s|by destruct s].
  - destruct s as [|d s]; [split; [done|by intros [r ?]]|].
    cbn [String.prefix String.append].
    destruct (ascii_dec c d) as [->|Hne].
    + rewrite IH. split; [intros [r ->]|intros [r [= ->]]]; by exists r.
    + split; [done|]. intros [r [= ]]. congruence.
Qed.

Lemma starts_with_spec s t : starts_with s t = true <-> exists r, s = (t +:+ r)%string.
Proof. apply prefix_spec. Qed.

Lemma ends_with_spec s t : ends_with s t = true <-> exists r, s = (r +:+ t)%string.
Proof.
  induction s as [|c s IH]; simpl.
  - rewrite orb_false_r, bool_decide_eq_true. split.
    + intros <-. by exists EmptyString.
    + intros [[|? r] Hr]; [done|discriminate].
  - rewrite orb_true_iff, bool_decide_eq_true, IH. split.
    + intros [<-|[r ->]]; [by exists EmptyString|by exists (String c r)].
    + intros [[|d r] Hr]; [by left|]. right. exists r. by injection Hr.
Qed.

Lemma str_contains_spec s t :
  str_contains s t = true <-> exists l r, s = (l +:+ t +:+ r)%string.
Proof.
  induction s as [|c s IH]; cbn [str_contains];
    rewrite orb_true_iff, prefix_spec.
  - split.
    + intros [[r Hr]|?]; [|done]. by exists EmptyString, r.
    + intros ([|??] & r & Hr); [left; eauto|discriminate].
  - rewrite IH. split.
    + intros [[r Hr]|(l & r & ->)]; [by exists EmptyString, r|].
      by exists (String c l), r.
    + intros ([|d l] & r & Hr); [left; eauto|]. right.
      exists l, r. by injection Hr.
Qed.

Lemma split_on_cons sep s : exists p ps, split_on sep s = p :: ps.
Proof.
  induction s as [|c s IH]; simpl; [eauto|].
  case_bool_decide; [eauto|]. destruct IH as (p & ps & ->). eauto.
Qed.

(** Joining with the separator undoes [split]. *)
Fixpoint join_with (sep : ascii) (l : list string) : string :=
  match l with
  | [] => EmptyString
  | [p] => p
  | p :: l => (p +:+ String sep (join_with sep l))%string
  end.

Lemma join_split_on sep s : join_with sep (split_on sep s) = s.
Proof.
  induction s as [|c s IH]; [done|]. cbn [split_on].
  destruct (split_on_cons sep s) as (p & ps & Hs). rewrite Hs in *.
  case_bool_decide as Hc.
  - rewrite Hc. transitivity (String sep (join_with sep (p :: ps))); [done|by f_equal].
  - transitivity (String c (join_with sep (p :: ps))); [by destruct ps|by f_equal].
Qed.

Lemma append_nil t : (EmptyString +:+ t)%string = t.
Proof. done. Qed.

Lemma append_cons c s t : (String c s +:+ t)%string = String c (s +:+ t)%string.
Proof. done. Qed.

Lemma string_app_assoc s t u : ((s +:+ t) +:+ u)%string = (s +:+ (t +:+ u))%string.
Proof. induction s as [|c s IH]; [done|]. by rewrite !append_cons, IH. Qed.

Lemma str_all_append p s t : str_all p (s +:+ t)%string = str_all p s && str_all p t.
Proof.
  induction s as [|c s IH]; [done|]. rewrite append_cons. cbn [str_all].
  by rewrite IH, andb_assoc.
Qed.

Lemma str_all_join_with p sep l :
  p sep = true -> Forall (fun s => str_all p s = true) l -> str_all p (join_with sep l) = true.
Proof.
  intros Hsep. induction l as [|s [|t l] IH]; intros Hl; [done|..]; apply Forall_cons in Hl as [Hs Hl].
  - done.
  - change (join_with sep (s :: t :: l)) with (s +:+ String sep (join_with sep (t :: l)))%string.
    rewrite str_all_append. cbn [str_all]. by rewrite Hs, Hsep, IH.
Qed.

(** Splitting recovers joined pieces that do not hold the separator. *)
Lemma split_on_app sep p s :
  str_all (fun x => bool_decide (x <> sep)) p = true ->
  split_on sep (p +:+ String sep s)%string = p :: split_on sep s.
Proof.
  induction p as [|c p IH]; intros Hp.
  - rewrite append_nil.
    cbn [split_on]. by rewrite bool_decide_eq_true_2.
  - cbn in Hp. apply andb_true_iff in Hp as [Hc%bool_decide_eq_true Hp].
    rewrite append_cons.
    cbn [split_on]. rewrite bool_decide_eq_false_2 by done. by rewrite IH.
Qed.

Lemma split_on_none sep p :
  str_all (fun x => bool_decide (x <> sep)) p = true -> split_on sep p = [p].
Proof.
  induction p as [|c p IH]; intros Hp; [done|].
  cbn in Hp. apply andb_true_iff in Hp as [Hc%bool_decide_eq_true Hp].
  cbn [split_on]. rewrite bool_decide_eq_false_2 by done. by rewrite IH.
Qed.

Lemma split_on_join_with sep l :
  l <> [] -> Forall (fun p => str_all (fun x => bool_decide (x <> sep)) p = true) l ->
  split_on sep (join_with sep l) = l.
Proof.
  induction l as [|p [|q l] IH]; [done|..]; intros _ Hl; apply Forall_cons in Hl as [Hp Hl].
  - by apply split_on_none.
  - cbn [join_with]. rewrite split_on_app by done. f_equal. by apply IH.
Qed.

Lemma split_once_app sep a b :
  str_all (fun x => bool_decide (x <> sep)) a = true ->
  split_once sep (a +:+ String sep b)%string = Some (a, b).
Proof.
  induction a as [|c a IH]; intros Ha.
  - rewrite append_nil.
    cbn [split_once]. by rewrite bool_decide_eq_true_2.
  - cbn in Ha. apply andb_true_iff in Ha as [Hc%bool_decide_eq_true Ha].
    rewrite append_cons.
    cbn [split_once]. rewrite bool_decide_eq_false_2 by done. by rewrite IH.
Qed.

Lemma trim_start_app l s : str_all is_blank l = true -> trim_start (l +:+ s)%string = trim_start s.
Proof.
  induction l as [|c l IH]; intros Hl; [done|]. cbn in Hl. apply andb_true_iff in Hl as [Hc Hl].
  rewrite append_cons. cbn [trim_start].
  rewrite Hc. by apply IH.
Qed.

Lemma trim_start_blank c s : trim_start (String c s) = String c s -> is_blank c = false.
Proof.
  cbn [trim_start]. destruct (is_blank c); [|done]. intros H. exfalso.
  assert (forall t, String.length (trim_start t) <= String.length t) as Hlen.
  { intros t. induction t as [|d t IH]; [done|]. cbn. destruct (is_blank d); cbn; lia. }
  specialize (Hlen s). rewrite H in Hlen. cbn in Hlen. lia.
Qed.

(** [trim] stops at a name that starts with no blank, also at an empty one
    followed by a separator that is not blank. *)
Lemma trim_start_app_id n sep v r :
  trim_start n = n -> is_blank sep = false ->
  trim_start ((n +:+ String sep v) +:+ r)%string = ((n +:+ String sep v) +:+ r)%string.
Proof.
  intros Hn Hsep. destruct n as [|c n].
  - rewrite append_nil, append_cons. cbn [trim_start]. by rewrite Hsep.
  - apply trim_start_blank in Hn. rewrite !append_cons. cbn [trim_start]. by rewrite Hn.
Qed.

Lemma trim_end_blanks r : str_all is_blank r = true -> trim_end r = EmptyString.
Proof.
  induction r as [|c r IH]; [done|]. intros Hr. cbn in Hr. apply andb_true_iff in Hr as [Hc Hr].
  cbn [trim_end]. by rewrite IH, Hc.
Qed.

Lemma trim_end_app s r : str_all is_blank r = true -> trim_end (s +:+ r)%string = trim_end s.
Proof.
  intros Hr. induction s as [|c s IH]; [by apply trim_end_blanks|].
  rewrite append_cons. cbn [trim_end]. by rewrite IH.
Qed.

Lemma trim_end_snoc n sep v :
  trim_end v = v -> is_blank sep = false ->
  trim_end (n +:+ String sep v)%string = (n +:+ String sep v)%string.
Proof.
  intros Hv Hsep. induction n as [|c n IH].
  - rewrite append_nil. cbn [trim_end]. rewrite Hv. destruct v; [by rewrite Hsep|done].
  - rewrite append_cons.
    cbn [trim_end]. rewrite IH. by destruct n.
Qed.

Lemma string_app_nil_r s : (s +:+ "")%string = s.
Proof. induction s as [|c s IH]; [done|]. by transitivity (String c (s +:+ "")%string); [|f_equal]. Qed.

(** * Automation *)

Create HintDb loom discriminated.
#[export] Hint Resolve wrap_u32_ok wrap_i32_ok position_lt : loom.
#[export] Hint Rewrite @length_remove_at @length_insert @length_app @length_take
  @length_drop @length_fmap using lia : loom.

(** Turn the boolean connectives of hypotheses into propositions. *)
Ltac bool_hyps :=
  repeat match goal with
  | H : (_ && _)%bool = true |- _ => apply andb_true_iff in H; destruct H
  | H : (_ || _)%bool = false |- _ => apply orb_false_iff in H; destruct H
  | H : negb _ = true |- _ => apply negb_true_iff in H
  | H : negb _ = false |- _ => apply negb_false_iff in H
  | H : bool_decide _ = true |- _ => apply bool_decide_eq_true in H
  | H : bool_decide _ = false |- _ => apply bool_decide_eq_false in H
  | H : Z.ltb _ _ = true |- _ => apply Z.ltb_lt in H
  | H : Z.ltb _ _ = false |- _ => apply Z.ltb_ge in H
  | H : Z.leb _ _ = true |- _ => apply Z.leb_le in H
  | H : Z.leb _ _ = false |- _ => apply Z.leb_gt in H
  | H : Z.eqb _ _ = true |- _ => apply Z.eqb_eq in H
  | H : Z.eqb _ _ = false |- _ => apply Z.eqb_neq in H
  end.

(** Case analysis on the innermost scrutinee of a [match] or [if] in the goal. *)
Ltac split_match :=
  match goal with
  | |- context [match ?x with _ => _ end] =>
      lazymatch x with
      | context [match _ with _ => _ end] => fail
      | _ => let E := fresh "E" in destruct x eqn:E
      end
  end.

(** The same on the hypotheses. *)
Ltac split_match_in H :=
  match type of H with
  | context [match ?x with _ => _ end] =>
      lazymatch x with
      | context [match _ with _ => _ end] => fail
      | _ => let E := fresh "E" in destruct x eqn:E
      end
  end.
