(* ===== verification/Text.v ===== *)
(** Text as the sources handle it beyond single bytes: searching and splitting
    by a pattern, lines, UTF-8 validation and lossy decoding of byte chunks, and
    trimming of Unicode white space. *)
From stdpp Require Import base list strings pretty.
From Stdlib Require Import ZArith Ascii.
From S2P Require Import Prelude.

(** * Searching and splitting *)

(** The text around the first occurrence of [pat]. *)
Fixpoint split_first (pat s : string) : option (string * string) :=
  match strip_prefix pat s with
  | Some rest => Some (EmptyString, rest)
  | None =>
      match s with
      | EmptyString => None
      | String c s => '(a, b) ← split_first pat s; Some (String c a, b)
      end
  end.

(** [str::split(pat)] for a non-empty pattern: the pieces between occurrences
    that do not overlap, from the left.  Every occurrence shortens the text, so
    its length is enough fuel. *)
Fixpoint split_all (fuel : nat) (pat s : string) : list string :=
  match fuel with
  | O => [s]
  | S fuel =>
      match split_first pat s with
      | Some (a, b) => a :: split_all fuel pat b
      | None => [s]
      end
  end.

Definition pieces (pat s : string) : list string := split_all (String.length s) pat s.

(** [str::lines]: a line ends with a line feed, of which a carriage return in
    front is part; the text after the last line feed is a line if it is not empty. *)
Fixpoint strip_cr (s : string) : string :=
  match s with
  | EmptyString => EmptyString
  | String c EmptyString => if bool_decide (c = "013"%char) then EmptyString else s
  | String c s => String c (strip_cr s)
  end.

Fixpoint end_lines (pieces : list string) : list string :=
  match pieces with
  | [] => []
  | [p] => if bool_decide (p = EmptyString) then [] else [p]
  | p :: pieces => strip_cr p :: end_lines pieces
  end.

Definition str_lines (s : string) : list string := end_lines (split_on "010"%char s).

Lemma strip_prefix_spec t s r : strip_prefix t s = Some r <-> s = (t +:+ r)%string.
Proof.
  revert s. induction t as [|c t IH]; intros s.
  - rewrite append_nil. destruct s; cbn [strip_prefix]; split; congruence.
  - rewrite append_cons. destruct s as [|d s]; cbn [strip_prefix]; [done|].
    case_bool_decide as Hc; [subst d; rewrite IH; split; congruence|split; congruence].
Qed.

(** [a] is what stands in front of the first occurrence. *)
Definition first_at (pat s a b : string) : Prop :=
  s = a +:+ pat +:+ b /\
  forall a' b', s = a' +:+ pat +:+ b' -> String.length a <= String.length a'.

Lemma split_first_spec pat s a b : split_first pat s = Some (a, b) -> first_at pat s a b.
Proof.
  revert a b. induction s as [|c s IH]; intros a b; cbn [split_first];
    destruct (strip_prefix pat _) as [rest|] eqn:E.
  - intros [= <- <-]. apply strip_prefix_spec in E. split; [done|]. cbn. lia.
  - done.
  - intros [= <- <-]. apply strip_prefix_spec in E. split; [done|]. cbn. lia.
  - destruct (split_first pat s) as [[a1 b1]|]; [|done]. intros [= <- <-].
    destruct (IH a1 b1 eq_refl) as [-> Hmin]. split; [done|].
    intros [|d a'] b' Hs.
    + rewrite append_nil in Hs. apply strip_prefix_spec in Hs. congruence.
    + rewrite append_cons in Hs. injection Hs as _ Hs. apply Hmin in Hs. cbn. lia.
Qed.

Lemma split_first_None pat s : split_first pat s = None <-> str_contains s pat = false.
Proof.
  rewrite <-not_true_iff_false, str_contains_spec. split.
  - intros H (l & r & ->). revert H. induction l as [|c l IH]; cbn [split_first].
    + rewrite append_nil. destruct (strip_prefix pat (pat +:+ r)) eqn:E.
      * destruct (pat +:+ r); cbn [split_first]; by rewrite E.
      * pose proof (proj2 (strip_prefix_spec pat (pat +:+ r) r) eq_refl). congruence.
    + rewrite append_cons. cbn [split_first]. destruct (strip_prefix _ _); [done|].
      destruct (split_first pat (l +:+ pat +:+ r)) as [[]|]; [done|auto].
  - intros Hno. destruct (split_first pat s) as [[a b]|] eqn:E; [|done].
    destruct Hno. apply split_first_spec in E as [-> _]. eauto.
Qed.

(** The pieces [replace] works on: occurrences are taken from the left and do
    not overlap. *)
Inductive greedy_pieces (pat : string) : string -> list string -> Prop :=
| gp_last s : str_contains s pat = false -> greedy_pieces pat s [s]
| gp_cons s a b ps :
    first_at pat s a b -> greedy_pieces pat b ps -> greedy_pieces pat s (a :: ps).

Lemma string_length_append s t : String.length (s +:+ t) = String.length s + String.length t.
Proof.
  induction s as [|c s IH]; [done|]. rewrite append_cons. cbn [String.length]. rewrite IH. lia.
Qed.

Lemma split_all_greedy fuel pat s :
  pat <> "" -> String.length s <= fuel -> greedy_pieces pat s (split_all fuel pat s).
Proof.
  intros Hpat. assert (0 < String.length pat) by (destruct pat; [done|cbn; lia]).
  revert s. induction fuel as [|fuel IH]; intros s Hs.
  - destruct s; [|cbn in Hs; lia]. constructor. apply split_first_None. destruct pat; done.
  - cbn [split_all]. destruct (split_first pat s) as [[a b]|] eqn:E.
    + apply split_first_spec in E. econstructor; [exact E|]. apply IH.
      destruct E as [-> _]. rewrite !string_length_append in Hs. lia.
    + constructor. by apply split_first_None.
Qed.

Lemma pieces_greedy pat s : pat <> "" -> greedy_pieces pat s (pieces pat s).
Proof. intros. by apply split_all_greedy. Qed.


Lemma strip_prefix_app t s r u : strip_prefix t s = Some r -> strip_prefix t (s +:+ u) = Some (r +:+ u).
Proof.
  rewrite !strip_prefix_spec. intros ->. by rewrite string_app_assoc.
Qed.

Lemma strip_prefix_None_app t s u : String.length t <= String.length s ->
  strip_prefix t s = None -> strip_prefix t (s +:+ u) = None.
Proof.
  revert s. induction t as [|c t IH]; intros [|d s]; cbn [String.length]; try lia; try done.
  intros Hl. rewrite append_cons. cbn [strip_prefix].
  destruct (bool_decide (c = d)); [|done]. apply IH. lia.
Qed.

(** More text does not move the first occurrence. *)
Lemma split_first_app pat s a b u :
  split_first pat s = Some (a, b) -> split_first pat (s +:+ u) = Some (a, b +:+ u).
Proof.
  revert a b. induction s as [|c s IH]; intros a b; cbn [split_first].
  - destruct (strip_prefix pat "") as [r|] eqn:E; [|done]. intros [= <- <-].
    rewrite append_nil. destruct pat; [|done]. injection E as <-. by destruct u.
  - destruct (strip_prefix pat (String c s)) as [r|] eqn:E.
    + intros [= <- <-]. apply strip_prefix_app with (u := u) in E.
      rewrite append_cons in *. cbn [split_first]. by rewrite E.
    + destruct (split_first pat s) as [[a' b']|] eqn:F; [|done]. intros [= <- <-].
      rewrite append_cons. cbn [split_first]. rewrite <- append_cons, strip_prefix_None_app;
        [by rewrite (IH a' b' eq_refl)| |done].
      apply split_first_spec in F as [-> _]. cbn [String.length].
      rewrite !string_length_append. lia.
Qed.

Lemma split_all_fuel pat s fuel : pat <> "" -> String.length s <= fuel ->
  split_all fuel pat s = pieces pat s.
Proof.
  intros Hp. assert (0 < String.length pat) by (destruct pat; [done|cbn; lia]).
  assert (H1 : forall f1 f2 s, String.length s <= f1 -> String.length s <= f2 ->
    split_all f1 pat s = split_all f2 pat s).
  { induction f1 as [|f1 IH]; intros [|f2] s' H1 H2; [done|..].
    1,2: destruct s'; [|cbn in *; lia]; destruct pat; done.
    cbn [split_all]. destruct (split_first pat s') as [[a b]|] eqn:E; [|done]. f_equal.
    apply split_first_spec in E as [-> _]. rewrite !string_length_append in *.
    apply IH; lia. }
  intros. unfold pieces. by apply H1.
Qed.

Lemma pieces_step pat s : pat <> "" -> pieces pat s =
  match split_first pat s with Some (a, b) => a :: pieces pat b | None => [s] end.
Proof.
  intros Hp. rewrite <- (split_all_fuel pat s (S (String.length s))) by (done || lia).
  cbn [split_all]. destruct (split_first pat s) as [[a b]|] eqn:E; [|done].
  f_equal. apply split_all_fuel; [done|]. apply split_first_spec in E as [-> _].
  rewrite !string_length_append. lia.
Qed.

(** Splitting a longer text goes on from the last piece. *)
Lemma pieces_app pat s u ps r : pat <> "" ->
  pieces pat s = ps ++ [r] -> pieces pat (s +:+ u) = ps ++ pieces pat (r +:+ u).
Proof.
  intros Hp. revert s. induction ps as [|p ps IH]; intros s; rewrite (pieces_step pat s) by done;
    destruct (split_first pat s) as [[a b]|] eqn:E; cbn.
  - intros [= _ H]. by destruct (pieces pat b) eqn:F; [|]; rewrite pieces_step in F by done;
      destruct (split_first pat b) as [[]|].
  - by intros [= ->].
  - intros [= -> H]. rewrite (pieces_step pat (s +:+ u)) by done.
    rewrite (split_first_app pat s p b u E). f_equal. by apply IH.
  - intros [= -> H]. by destruct ps.
Qed.

(** * UTF-8 *)

Fixpoint str_take (n : nat) (s : string) : string :=
  match n, s with
  | S n, String c s => String c (str_take n s)
  | _, _ => EmptyString
  end.
Fixpoint str_drop (n : nat) (s : string) : string :=
  match n, s with
  | S n, String _ s => str_drop n s
  | _, _ => s
  end.

Local Open Scope Z_scope.

Definition between (l u : Z) (c : ascii) : bool := (l <=? byte_of c) && (byte_of c <=? u).

Definition is_cont : ascii -> bool := between 128 191.

(** The second byte after the leading byte [b] of a sequence of 3 or 4 bytes. *)
Definition second_ok (b c : ascii) : bool :=
  (between 224 224 b && between 160 191 c) || (between 225 236 b && is_cont c)
  || (between 237 237 b && between 128 159 c) || (between 238 239 b && is_cont c)
  || (between 240 240 b && between 144 191 c) || (between 241 243 b && is_cont c)
  || (between 244 244 b && between 128 143 c).

(** Whether the text starts with a character, and how many bytes the character
    or else the maximal invalid start has. *)
Definition utf8_head (s : string) : bool * nat :=
  match s with
  | EmptyString => (true, 0%nat)
  | String b s =>
      if between 0 127 b then (true, 1%nat)
      else if between 194 223 b then
        match s with
        | String c _ => if is_cont c then (true, 2%nat) else (false, 1%nat)
        | EmptyString => (false, 1%nat)
        end
      else if between 224 244 b then
        match s with
        | String c s =>
            if second_ok b c then
              match s with
              | String d s =>
                  if is_cont d then
                    if between 224 239 b then (true, 3%nat)
                    else match s with
                         | String e _ => if is_cont e then (true, 4%nat) else (false, 3%nat)
                         | EmptyString => (false, 3%nat)
                         end
                  else (false, 2%nat)
              | EmptyString => (false, 2%nat)
              end
            else (false, 1%nat)
        | EmptyString => (false, 1%nat)
        end
      else (false, 1%nat)
  end.

Local Close Scope Z_scope.

(** [str::is_char_boundary]. *)
Definition is_char_boundary (s : string) (i : nat) : bool :=
  match String.get i s with
  | Some c => negb (is_cont c) || (i =? 0)%nat
  | None => (i =? String.length s)%nat
  end.

(** [&s[..i]]. *)
Definition slice_to (s : string) (i : nat) : run string :=
  if is_char_boundary s i then Done (str_take i s) else Panic.

(** [std::str::from_utf8(bytes).is_ok()]. *)
Fixpoint valid_utf8_fuel (fuel : nat) (s : string) : bool :=
  match fuel, s with
  | _, EmptyString => true
  | O, _ => false
  | S fuel, _ =>
      let '(ok, n) := utf8_head s in ok && valid_utf8_fuel fuel (str_drop n s)
  end.
Definition valid_utf8 (s : string) : bool := valid_utf8_fuel (String.length s) s.

(** [std::str::from_utf8]: the text, or the [Display] text of the [Utf8Error].
    The sequence is incomplete when the text ends inside a character. *)
Fixpoint from_utf8_at (fuel : nat) (i : nat) (s : string) : result string unit :=
  match fuel, s with
  | _, EmptyString => Ok ()
  | O, _ => Ok ()
  | S fuel, String b _ =>
      let '(ok, n) := utf8_head s in
      if ok then from_utf8_at fuel (i + n) (str_drop n s)
      else if bool_decide (n = String.length s) && between 194 244 b then
        Err ("incomplete utf-8 byte sequence from index " +:+ pretty (Z.of_nat i))
      else
        Err ("invalid utf-8 sequence of " +:+ pretty (Z.of_nat n) +:+ " bytes from index "
             +:+ pretty (Z.of_nat i))
  end.
Definition from_utf8 (s : string) : result string string :=
  match from_utf8_at (String.length s) 0 s with Ok _ => Ok s | Err e => Err e end.

(** U+FFFD. *)
Definition replacement : string := String "239" (String "191" (String "189" "")).

(** [String::from_utf8_lossy]: every maximal invalid start becomes U+FFFD. *)
Fixpoint lossy_fuel (fuel : nat) (s : string) : string :=
  match fuel, s with
  | _, EmptyString => EmptyString
  | O, _ => EmptyString
  | S fuel, _ =>
      let '(ok, n) := utf8_head s in
      (if ok then str_take n s else replacement) +:+ lossy_fuel fuel (str_drop n s)
  end.
Definition from_utf8_lossy (s : string) : string := lossy_fuel (String.length s) s.

Lemma str_take_drop n s : str_take n s +:+ str_drop n s = s.
Proof.
  revert s. induction n as [|n IH]; intros [|c s]; [done..|].
  cbn [str_take str_drop]. by rewrite append_cons, IH.
Qed.

Lemma from_utf8_lossy_valid s : valid_utf8 s = true -> from_utf8_lossy s = s.
Proof.
  unfold valid_utf8, from_utf8_lossy. generalize (String.length s) as fuel. intros fuel.
  revert s. induction fuel as [|fuel IH]; intros [|c s]; [done..|].
  cbn [valid_utf8_fuel lossy_fuel]. destruct (utf8_head (String c s)) as [[] n]; [|done].
  intros H. rewrite IH by done. apply str_take_drop.
Qed.

Lemma utf8_head_pos c s : (0 < (utf8_head (String c s)).2)%nat.
Proof.
  unfold utf8_head. repeat first [case_match; [cbn; lia|] | case_match]; cbn; lia.
Qed.

Lemma str_drop_length n s : String.length (str_drop n s) = String.length s - n.
Proof.
  revert s. induction n as [|n IH]; intros [|c s]; cbn [str_drop String.length]; try lia.
  apply IH.
Qed.

Lemma from_utf8_valid s : from_utf8 s = Ok s <-> valid_utf8 s = true.
Proof.
  unfold from_utf8, valid_utf8.
  assert (H : forall fuel i s, String.length s <= fuel ->
    (from_utf8_at fuel i s = Ok () <-> valid_utf8_fuel fuel s = true)).
  { induction fuel as [|fuel IH]; intros i [|c s'] Hl; [done|cbn in Hl; lia|done|].
    cbn [from_utf8_at valid_utf8_fuel]. pose proof (utf8_head_pos c s').
    destruct (utf8_head (String c s')) as [[] n]; cbn [snd] in *.
    - rewrite IH; [done|]. rewrite str_drop_length. cbn [String.length] in *. lia.
    - cbn [andb]. destruct (_ && _); split; congruence. }
  rewrite <- (H _ 0%nat s) by done. destruct (from_utf8_at _ 0 s) as [[]|]; split; congruence.
Qed.

(** * Unicode white space *)

(** The bytes of the white space character in front, [0] if there is none. *)
Definition ws_head (s : string) : nat :=
  match s with
  | String b s =>
      if between 9 13 b || between 32 32 b then 1
      else match s with
           | String c s =>
               if between 194 194 b && (between 133 133 c || between 160 160 c) then 2
               else match s with
                    | String d _ =>
                        if (between 225 225 b && between 154 154 c && between 128 128 d)
                           || (between 226 226 b && between 128 128 c
                               && (between 128 138 d || between 168 169 d || between 175 175 d))
                           || (between 226 226 b && between 129 129 c && between 159 159 d)
                           || (between 227 227 b && between 128 128 c && between 128 128 d)
                        then 3 else 0
                    | EmptyString => 0
                    end
           | EmptyString => 0
           end
  | EmptyString => 0
  end.

Fixpoint trim_start_fuel (fuel : nat) (s : string) : string :=
  match fuel, ws_head s with
  | S fuel, S n => trim_start_fuel fuel (str_drop (S n) s)
  | _, _ => s
  end.
(** [str::trim_start] and [str::trim_end]. *)
Definition str_trim_start (s : string) : string := trim_start_fuel (String.length s) s.
Fixpoint str_trim_end (s : string) : string :=
  match s with
  | EmptyString => EmptyString
  | String c s' =>
      if bool_decide (str_trim_start s = EmptyString) then EmptyString
      else String c (str_trim_end s')
  end.
Definition str_trim (s : string) : string := str_trim_end (str_trim_start s).

(** [str::trim_start_matches] and [str::trim_end_matches] with a character. *)
Fixpoint trim_start_matches (c : ascii) (s : string) : string :=
  match s with
  | EmptyString => EmptyString
  | String a s' => if bool_decide (a = c) then trim_start_matches c s' else s
  end.
Fixpoint trim_end_matches (c : ascii) (s : string) : string :=
  match s with
  | EmptyString => EmptyString
  | String a s =>
      let s := trim_end_matches c s in
      if bool_decide (a = c /\ s = EmptyString) then EmptyString else String a s
  end.

(** Text in braces loses nothing when it is trimmed. *)
Lemma ws_head_brace s n : ws_head (s +:+ "}") = n ->
  exists s', str_drop n (s +:+ "}") = s' +:+ "}".
Proof.
  intros <-. destruct s as [|b [|c [|d s]]].
  - by exists "".
  - assert (H : ws_head (String b "" +:+ "}") = 0 \/ ws_head (String b "" +:+ "}") = 1).
    { rewrite append_cons, append_nil. cbn [ws_head].
      destruct (between 9 13 b || between 32 32 b); [auto|]. by rewrite andb_false_r; auto. }
    destruct H as [->| ->]; [by exists (String b "")|by exists ""].
  - assert (H : ws_head (String b (String c "") +:+ "}") <= 2).
    { rewrite !append_cons, append_nil. cbn [ws_head].
      destruct (between 9 13 b || between 32 32 b); [lia|].
      destruct (between 194 194 b && _); [lia|].
      change (between 128 128 "}") with false. change (between 128 138 "}") with false.
      change (between 168 169 "}") with false. change (between 175 175 "}") with false.
      change (between 159 159 "}") with false. rewrite !andb_false_r. cbn. lia. }
    destruct (ws_head _) as [|[|[|]]]; [by exists (String b (String c ""))|by exists (String c "")|
      by exists ""|lia].
  - assert (H : ws_head (String b (String c (String d s)) +:+ "}") <= 3).
    { rewrite !append_cons. unfold ws_head.
      destruct (between 9 13 b || between 32 32 b); [lia|].
      destruct (between 194 194 b && _); [lia|]. destruct (_ || _); lia. }
    rewrite !append_cons in *. destruct (ws_head _) as [|[|[|[|]]]]; [..|lia].
    + by exists (String b (String c (String d s))).
    + by exists (String c (String d s)).
    + by exists (String d s).
    + by exists s.
Qed.

Lemma trim_start_brace fuel s : trim_start_fuel fuel (s +:+ "}") <> "".
Proof.
  revert s. induction fuel as [|fuel IH]; intros s; cbn [trim_start_fuel].
  - by destruct s.
  - destruct (ws_head (s +:+ "}")) as [|n] eqn:E; [by destruct s|].
    destruct (ws_head_brace s _ E) as [s' ->]. apply IH.
Qed.

Lemma trim_end_brace s : str_trim_end (s +:+ "}") = s +:+ "}".
Proof.
  induction s as [|c s IH]; [done|]. rewrite append_cons. cbn [str_trim_end]. rewrite IH.
  rewrite bool_decide_eq_false_2; [done|]. rewrite <- append_cons. apply trim_start_brace.
Qed.

Lemma str_trim_braces k : str_trim (" {" +:+ k +:+ "}") = "{" +:+ k +:+ "}".
Proof.
  unfold str_trim. rewrite !append_cons, !append_nil.
  assert (H : forall t, str_trim_start (String " " (String "{" t)) = String "{" t)
    by (intros [|c [|d t]]; reflexivity).
  rewrite H, <- append_cons. apply trim_end_brace.
Qed.

Lemma str_trim_object k : str_trim ("{" +:+ k +:+ "}") = "{" +:+ k +:+ "}".
Proof.
  unfold str_trim. rewrite (append_cons "{"), append_nil.
  assert (H : forall t, str_trim_start (String "{" t) = String "{" t)
    by (intros [|c [|d t]]; reflexivity).
  rewrite H, <- append_cons. apply trim_end_brace.
Qed.

(** ** Lines *)

Definition no_newline (s : string) : bool :=
  str_all (fun c => bool_decide (c <> "010"%char)) s.

Lemma split_first_skip p pat c s : c <> p ->
  split_first (String p pat) (String c s) =
    ('(a, b) ← split_first (String p pat) s; Some (String c a, b)).
Proof.
  intros Hc. cbn [split_first strip_prefix]. by rewrite bool_decide_eq_false_2.
Qed.

Lemma split_first_skip_all p pat s t :
  str_all (fun c => bool_decide (c <> p)) s = true ->
  split_first (String p pat) (s +:+ t) =
    ('(a, b) ← split_first (String p pat) t; Some (s +:+ a, b)).
Proof.
  induction s as [|c s IH]; intros H.
  - rewrite append_nil. by destruct (split_first _ t) as [[]|].
  - cbn [str_all] in H. apply andb_true_iff in H as [Hc H].
    apply bool_decide_eq_true in Hc.
    rewrite append_cons, split_first_skip, IH by done. by destruct (split_first _ t) as [[]|].
Qed.

(** A text without line feeds in front of a line feed is the first piece. *)
Lemma split_first_here pat t : split_first pat (pat +:+ t) = Some (EmptyString, t).
Proof.
  assert (H : strip_prefix pat (pat +:+ t) = Some t) by by apply strip_prefix_spec.
  destruct (pat +:+ t); cbn [split_first]; by rewrite H.
Qed.

(** One line is one line. *)
Lemma str_lines_one s : no_newline s = true -> s <> EmptyString -> str_lines s = [s].
Proof.
  intros H Hs. unfold str_lines. rewrite split_on_none by done.
  cbn [end_lines]. by rewrite bool_decide_eq_false_2.
Qed.

Lemma str_lines_cons l s : no_newline l = true ->
  str_lines (l +:+ String "010" s) = strip_cr l :: str_lines s.
Proof.
  intros H. unfold str_lines. rewrite split_on_app by done.
  destruct (split_on_cons "010" s) as (p & ps & ->). done.
Qed.

(** ** Server-sent events *)

(** Text without line feeds and carriage returns. *)
Definition single_line (s : string) : bool :=
  str_all (fun c => bool_decide (c <> "010"%char) && bool_decide (c <> "013"%char)) s.

(** A named event with one line of data on the wire. *)
Definition sse_event (name data : string) : string :=
  "event: " +:+ name +:+ String "010" ("data: " +:+ data +:+ String "010" (String "010" "")).

(** The event without the empty line that ends it. *)
Definition sse_block (name data : string) : string :=
  "event: " +:+ name +:+ String "010" ("data: " +:+ data).

Lemma single_line_no_newline s : single_line s = true -> no_newline s = true.
Proof.
  unfold single_line, no_newline. induction s as [|c s IH]; [done|]. cbn [str_all].
  intros [[H1 _]%andb_true_iff H2]%andb_true_iff. by rewrite H1, IH.
Qed.

Lemma no_newline_app s t : no_newline (s +:+ t) = no_newline s && no_newline t.
Proof. apply str_all_append. Qed.

Lemma strip_cr_line s : single_line s = true -> strip_cr s = s.
Proof.
  unfold single_line. induction s as [|c [|d s] IH]; [done|..]; cbn [str_all].
  - intros [[_ H%bool_decide_eq_true]%andb_true_iff _]%andb_true_iff. cbn [strip_cr].
    by rewrite bool_decide_eq_false_2.
  - intros [_ H]%andb_true_iff. apply IH in H. change (strip_cr (String c (String d s)))
      with (String c (strip_cr (String d s))). by rewrite H.
Qed.

Lemma sse_block_lines name data : single_line name = true -> single_line data = true ->
  str_lines (sse_block name data) = ["event: " +:+ name; "data: " +:+ data].
Proof.
  intros Hname Hd%single_line_no_newline. pose proof (single_line_no_newline _ Hname) as Hn.
  assert (Hcr : strip_cr ("event: " +:+ name) = "event: " +:+ name)
    by (apply strip_cr_line; unfold single_line; rewrite str_all_append; by apply andb_true_iff).
  unfold sse_block. rewrite <- (string_app_assoc "event: "), str_lines_cons, Hcr by by rewrite no_newline_app, Hn.
  by rewrite str_lines_one by (done || by rewrite no_newline_app, Hd).
Qed.

Lemma split_first_sse_event name data t :
  single_line name = true -> single_line data = true ->
  split_first (String "010" (String "010" "")) (sse_event name data +:+ t) =
    Some (sse_block name data, t).
Proof.
  intros Hn%single_line_no_newline Hd%single_line_no_newline. unfold sse_event, sse_block.
  set (nl := String "010" (String "010" "")).
  replace ((_ +:+ _) +:+ t) with
    (("event: " +:+ name) +:+ String "010" (("data: " +:+ data) +:+ (nl +:+ t))).
  2: { by rewrite !string_app_assoc, (append_cons "010" _ t), !string_app_assoc. }
  pose proof (split_first_skip_all "010" (String "010" "")) as Hskip. fold nl in Hskip.
  rewrite Hskip by (rewrite str_all_append; apply andb_true_iff; done).
  assert (split_first nl (String "010" (("data: " +:+ data) +:+ (nl +:+ t))) =
    ('(a, b) ← split_first nl (("data: " +:+ data) +:+ (nl +:+ t)); Some (String "010" a, b)))
    as ->.
  { rewrite string_app_assoc. generalize (data +:+ (nl +:+ t)). intros u. done. }
  rewrite Hskip by (rewrite str_all_append; apply andb_true_iff; done).
  rewrite split_first_here. cbn. by rewrite string_app_nil_r, string_app_assoc.
Qed.
