(* ===== verification/CoreTypes.v ===== *)
(** The data model of [crates/loom-common-core]: messages, tools, LLM requests
    and responses, errors with their [Display] text, the agent's configuration
    and its states and events. *)
From stdpp Require Import base list strings pretty.
From Stdlib Require Import ZArith SpecFloat.
From S2P Require Import Prelude.

(** [uuid::Uuid]: 128 bits. *)
Definition Uuid := N.
(** [std::time::Instant]: nanoseconds of the monotonic clock. *)
Definition Instant := Z.
(** [f32]: the standard library's binary floating-point data. *)
Definition f32 := spec_float.

(** What the sources use of [serde_json] here: its values and the fallible
    [serde_json::to_string]. *)
Class SerdeJson := {
  Json : Type;
  json_to_string : Json -> option string;
}.

Section CoreTypes.
Context `{SJ : SerdeJson}.

(** ** message.rs *)
Inductive Role := System | User | Assistant | Tool.

Record ToolCall := mkToolCall {
  id : string;
  tc_tool_name : string;
  arguments_json : Json;
}.

Record Message := mkMessage {
  role : Role;
  content : string;
  tool_call_id : option string;
  name : option string;
  tool_calls : list ToolCall;
}.

Definition Message_system (c : string) : Message := mkMessage System c None None [].
Definition Message_user (c : string) : Message := mkMessage User c None None [].
Definition Message_assistant (c : string) : Message := mkMessage Assistant c None None [].
Definition Message_assistant_with_tool_calls (c : string) (tcs : list ToolCall) : Message :=
  mkMessage Assistant c None None tcs.
Definition Message_tool (call_id tname c : string) : Message :=
  mkMessage Tool c (Some call_id) (Some tname) [].

(** ** tool.rs *)
Record ToolDefinition := mkToolDefinition {
  td_name : string;
  description : string;
  input_schema : Json;
}.

(** ** error.rs *)
Inductive LlmError :=
| LlmError_Http (s : string)
| LlmError_Api (s : string)
| LlmError_Timeout
| LlmError_InvalidResponse (s : string)
| LlmError_RateLimited (retry_after_secs : option Z).

Inductive ToolError :=
| ToolError_NotFound (s : string)
| ToolError_InvalidArguments (s : string)
| ToolError_Io (s : string)
| ToolError_Timeout
| ToolError_Internal (s : string)
| ToolError_TargetNotFound (s : string)
| ToolError_PathOutsideWorkspace (p : string)
| ToolError_FileNotFound (p : string)
| ToolError_Serialization (s : string).

(** [std::io::Error] is carried by its [Display] text. *)
Inductive AgentError :=
| AgentError_Llm (e : LlmError)
| AgentError_Tool (e : ToolError)
| AgentError_InvalidState (s : string)
| AgentError_Io (e : string)
| AgentError_Timeout (s : string)
| AgentError_Internal (s : string).

(** The [Debug] text of an [Option<u64>]. *)
Definition debug_option_u64 (o : option Z) : string :=
  match o with
  | None => "None"
  | Some n => "Some(" +:+ pretty n +:+ ")"
  end.

Definition LlmError_to_string (e : LlmError) : string :=
  match e with
  | LlmError_Http s => "HTTP error: " +:+ s
  | LlmError_Api s => "API error: " +:+ s
  | LlmError_Timeout => "Request timed out"
  | LlmError_InvalidResponse s => "Invalid response: " +:+ s
  | LlmError_RateLimited r =>
      "Rate limited: retry after " +:+ debug_option_u64 r +:+ " seconds"
  end.

Definition ToolError_to_string (e : ToolError) : string :=
  match e with
  | ToolError_NotFound s => "Tool not found: " +:+ s
  | ToolError_InvalidArguments s => "Invalid arguments: " +:+ s
  | ToolError_Io s => "IO error: " +:+ s
  | ToolError_Timeout => "Tool execution timed out"
  | ToolError_Internal s => "Internal error: " +:+ s
  | ToolError_TargetNotFound s => "Target not found: " +:+ s
  | ToolError_PathOutsideWorkspace p => "Path outside workspace: " +:+ p
  | ToolError_FileNotFound p => "File not found: " +:+ p
  | ToolError_Serialization s => "Serialization error: " +:+ s
  end.

Definition AgentError_to_string (e : AgentError) : string :=
  match e with
  | AgentError_Llm e => "LLM error: " +:+ LlmError_to_string e
  | AgentError_Tool e => "Tool error: " +:+ ToolError_to_string e
  | AgentError_InvalidState s => "Invalid state: " +:+ s
  | AgentError_Io e => "IO error: " +:+ e
  | AgentError_Timeout s => "Operation timed out: " +:+ s
  | AgentError_Internal s => "Internal error: " +:+ s
  end.

(** ** config.rs; durations in seconds *)
Record AgentConfig := mkAgentConfig {
  model_name : string;
  max_retries : Z;
  tool_timeout : Z;
  llm_timeout : Z;
  max_tokens : Z;
  temperature : option f32;
}.

Definition AgentConfig_default : AgentConfig :=
  mkAgentConfig "claude-opus-4-20250514" 3 30 120 4096 None.

(** ** llm.rs *)
Record LlmRequest := mkLlmRequest {
  model : string;
  messages : list Message;
  tools : list ToolDefinition;
  req_max_tokens : option Z;
  req_temperature : option f32;
}.

Definition LlmRequest_new (m : string) : LlmRequest := mkLlmRequest m [] [] None None.
Definition with_model (r : LlmRequest) (m : string) : LlmRequest :=
  mkLlmRequest m (messages r) (tools r) (req_max_tokens r) (req_temperature r).
Definition with_messages (r : LlmRequest) (ms : list Message) : LlmRequest :=
  mkLlmRequest (model r) ms (tools r) (req_max_tokens r) (req_temperature r).
Definition with_tools (r : LlmRequest) (ts : list ToolDefinition) : LlmRequest :=
  mkLlmRequest (model r) (messages r) ts (req_max_tokens r) (req_temperature r).
Definition with_max_tokens (r : LlmRequest) (n : Z) : LlmRequest :=
  mkLlmRequest (model r) (messages r) (tools r) (Some n) (req_temperature r).
Definition with_temperature (r : LlmRequest) (t : f32) : LlmRequest :=
  mkLlmRequest (model r) (messages r) (tools r) (req_max_tokens r) (Some t).

Record Usage := mkUsage { input_tokens : Z; output_tokens : Z }.

Record LlmResponse := mkLlmResponse {
  message : Message;
  resp_tool_calls : list ToolCall;
  usage : option Usage;
  finish_reason : option string;
}.

Inductive LlmEvent :=
| TextDelta (content : string)
| ToolCallDelta (call_id tool_name arguments_fragment : string)
| Completed (response : LlmResponse)
| Error (e : LlmError).

(** ** state.rs *)
Record ToolProgress := mkToolProgress {
  fraction : option f32;
  progress_message : option string;
  units_processed : option Z;
}.

Inductive ToolExecutionOutcome :=
| Outcome_Success (call_id : string) (output : Json)
| Outcome_Error (call_id : string) (error : ToolError).

Inductive ToolExecutionStatus :=
| Status_Pending (call_id tool_name : string) (requested_at : Instant)
| Status_Running (call_id tool_name : string) (started_at last_update_at : Instant)
    (progress : option ToolProgress)
| Status_Completed (call_id tool_name : string) (started_at completed_at : Instant)
    (outcome : ToolExecutionOutcome).

Definition exec_call_id (e : ToolExecutionStatus) : string :=
  match e with
  | Status_Pending c _ _ => c
  | Status_Running c _ _ _ _ => c
  | Status_Completed c _ _ _ _ => c
  end.

Definition exec_tool_name (e : ToolExecutionStatus) : string :=
  match e with
  | Status_Pending _ t _ => t
  | Status_Running _ t _ _ _ => t
  | Status_Completed _ t _ _ _ => t
  end.

Definition is_completed (e : ToolExecutionStatus) : bool :=
  match e with Status_Completed _ _ _ _ _ => true | _ => false end.

Record ToolProgressEvent := mkToolProgressEvent {
  pe_call_id : string;
  pe_progress : ToolProgress;
}.

Record ConversationContext := mkConversation {
  conv_id : Uuid;
  conv_messages : list Message;
}.

(** [ConversationContext::new], the random identifier being an argument. *)
Definition ConversationContext_new (fresh : Uuid) : ConversationContext :=
  mkConversation fresh [].
Definition ConversationContext_with_id (u : Uuid) : ConversationContext :=
  mkConversation u [].

Inductive AgentEvent :=
| UserInput (m : Message)
| LlmEvt (e : LlmEvent)
| ToolProgressed (e : ToolProgressEvent)
| ToolCompleted (call_id : string) (outcome : ToolExecutionOutcome)
| PostToolsHookCompleted (action_taken : bool)
| RetryTimeoutFired
| ShutdownRequested.

Inductive ErrorOrigin := Origin_Llm | Origin_Tool | Origin_Io.

(** Declared in agent.rs. *)
Record CompletedToolInfo := mkCompletedToolInfo {
  cti_tool_name : string;
  succeeded : bool;
}.

Inductive AgentState :=
| WaitingForUserInput (conversation : ConversationContext)
| CallingLlm (conversation : ConversationContext) (retries : Z)
| ProcessingLlmResponse (conversation : ConversationContext) (response : LlmResponse)
| ExecutingTools (conversation : ConversationContext)
    (executions : list ToolExecutionStatus)
| PostToolsHook (conversation : ConversationContext) (pending_llm_request : LlmRequest)
    (completed_tools : list CompletedToolInfo)
| ErrorState (conversation : ConversationContext) (error : AgentError) (retries : Z)
    (origin : ErrorOrigin)
| ShuttingDown.

Definition state_name (s : AgentState) : string :=
  match s with
  | WaitingForUserInput _ => "WaitingForUserInput"
  | CallingLlm _ _ => "CallingLlm"
  | ProcessingLlmResponse _ _ => "ProcessingLlmResponse"
  | ExecutingTools _ _ => "ExecutingTools"
  | PostToolsHook _ _ _ => "PostToolsHook"
  | ErrorState _ _ _ _ => "Error"
  | ShuttingDown => "ShuttingDown"
  end.

End CoreTypes.

#[export] Instance Role_eq_dec : EqDecision Role.
Proof. solve_decision. Defined.
#[export] Instance ErrorOrigin_eq_dec : EqDecision ErrorOrigin.
Proof. solve_decision. Defined.
#[export] Instance LlmError_eq_dec : EqDecision LlmError.
Proof. solve_decision. Defined.
#[export] Instance ToolError_eq_dec : EqDecision ToolError.
Proof. solve_decision. Defined.
#[export] Instance AgentError_eq_dec : EqDecision AgentError.
Proof. solve_decision. Defined.
