(* ===== verification/Agent.v ===== *)
(** The conversational agent's state machine,
    [crates/loom-common-core/src/agent.rs]: [handle_event] maps a state and an
    event to the next state and the action the caller performs. *)
From stdpp Require Import base list strings relations.
From Stdlib Require Import ZArith Lia.
From S2P Require Import Prelude CoreTypes.

Section Agent.
Context `{SJ : SerdeJson}.
(** Whether the build has overflow checks. *)
Context (overflow_checks : bool).

Inductive AgentAction :=
| SendLlmRequest (r : LlmRequest)
| ExecuteTools (calls : list ToolCall)
| RunPostToolsHook (completed_tools : list CompletedToolInfo)
| WaitForInput
| DisplayMessage (s : string)
| DisplayError (s : string)
| Shutdown.

(** The [llm] handle of the source's struct is never used by its methods (it is
    marked [dead_code]) and has no field here. *)
Record Agent := mkAgent {
  state : AgentState;
  config : AgentConfig;
  agent_tools : list ToolDefinition;
}.

Definition set_state (a : Agent) (s : AgentState) : Agent :=
  mkAgent s (config a) (agent_tools a).

Definition outcome_succeeded (o : ToolExecutionOutcome) : bool :=
  match o with Outcome_Success _ _ => true | Outcome_Error _ _ => false end.

Definition has_mutating_tools (executions : list ToolExecutionStatus) : bool :=
  existsb (fun exec =>
    match exec with
    | Status_Completed _ tool_name _ _ outcome =>
        existsb (fun t => bool_decide (t = tool_name)) ["edit_file"; "bash"]
        && outcome_succeeded outcome
    | _ => false
    end) executions.

Definition extract_completed_tools (executions : list ToolExecutionStatus)
    : list CompletedToolInfo :=
  omap (fun exec =>
    match exec with
    | Status_Completed _ tool_name _ _ outcome =>
        Some (mkCompletedToolInfo tool_name (outcome_succeeded outcome))
    | _ => None
    end) executions.

Definition Agent_new (fresh : Uuid) (cfg : AgentConfig) (ts : list ToolDefinition)
    : Agent :=
  mkAgent (WaitingForUserInput (ConversationContext_new fresh)) cfg ts.

(** [conversation()]; [ShuttingDown] has none and the accessor panics. *)
Definition state_conversation (s : AgentState) : run ConversationContext :=
  match s with
  | WaitingForUserInput c => Done c
  | CallingLlm c _ => Done c
  | ProcessingLlmResponse c _ => Done c
  | ExecutingTools c _ => Done c
  | PostToolsHook c _ _ => Done c
  | ErrorState c _ _ _ => Done c
  | ShuttingDown => Panic
  end.
Definition conversation (a : Agent) : run ConversationContext :=
  state_conversation (state a).

Definition push_message (c : ConversationContext) (m : Message) : ConversationContext :=
  mkConversation (conv_id c) (conv_messages c ++ [m]).
Definition extend_messages (c : ConversationContext) (ms : list Message)
    : ConversationContext :=
  mkConversation (conv_id c) (conv_messages c ++ ms).

(** [get_conversation_mut] followed by a write of the conversation. *)
Definition with_conversation (s : AgentState)
    (f : ConversationContext -> ConversationContext) : run AgentState :=
  match s with
  | WaitingForUserInput c => Done (WaitingForUserInput (f c))
  | CallingLlm c r => Done (CallingLlm (f c) r)
  | ProcessingLlmResponse c r => Done (ProcessingLlmResponse (f c) r)
  | ExecutingTools c e => Done (ExecutingTools (f c) e)
  | PostToolsHook c p t => Done (PostToolsHook (f c) p t)
  | ErrorState c e r o => Done (ErrorState (f c) e r o)
  | ShuttingDown => Panic
  end.

Definition append_message (a : Agent) (m : Message) : run Agent :=
  s ← with_conversation (state a) (fun c => push_message c m);
  Done (set_state a s).

(** The request the source builds from a list of messages. *)
Definition request_of (a : Agent) (ms : list Message) : LlmRequest :=
  mkLlmRequest (model_name (config a)) ms (agent_tools a)
    (Some (max_tokens (config a))) (temperature (config a)).

Definition build_llm_request (a : Agent) : run LlmRequest :=
  c ← conversation a; Done (request_of a (conv_messages c)).

(** [now i] is the [i]-th clock reading taken while one event is handled. *)
Definition pending_executions (now : nat -> Instant) (calls : list ToolCall)
    : list ToolExecutionStatus :=
  imap (fun i tc => Status_Pending (id tc) (tc_tool_name tc) (now i)) calls.

Definition process_llm_response (now : nat -> Instant) (a : Agent) : Agent * AgentAction :=
  match state a with
  | ProcessingLlmResponse conv response =>
      match resp_tool_calls response with
      | [] => (set_state a (WaitingForUserInput conv), WaitForInput)
      | _ =>
          let executions := pending_executions now (resp_tool_calls response) in
          (set_state a (ExecutingTools conv executions),
           ExecuteTools (resp_tool_calls response))
      end
  | _ => (a, WaitForInput)
  end.

(** The loop over [executions.iter_mut()] on a [ToolCompleted] event. *)
Definition complete_executions (now : nat -> Instant) (call_id : string)
    (outcome : ToolExecutionOutcome) (executions : list ToolExecutionStatus)
    : list ToolExecutionStatus :=
  imap (fun i exec =>
    if bool_decide (exec_call_id exec = call_id) then
      Status_Completed call_id (exec_tool_name exec) (now (2 * i)) (now (2 * i + 1)) outcome
    else exec) executions.

Definition outcome_content (o : ToolExecutionOutcome) : string :=
  match o with
  | Outcome_Success _ output =>
      match json_to_string output with Some s => s | None => "{}" end
  | Outcome_Error _ error => "Error: " +:+ ToolError_to_string error
  end.

(** The loop that collects [tool_messages]. *)
Definition tool_messages (executions : list ToolExecutionStatus) : list Message :=
  omap (fun exec =>
    match exec with
    | Status_Completed call_id _ _ _ outcome =>
        Some (mkMessage Tool (outcome_content outcome) (Some call_id) None [])
    | _ => None
    end) executions.

Definition handle_event (now : nat -> Instant) (a : Agent) (event : AgentEvent)
    : run (Agent * result AgentError AgentAction) :=
  match state a, event with
  | WaitingForUserInput conv, UserInput msg =>
      let conv' := push_message conv msg in
      Done (set_state a (CallingLlm conv' 0),
            Ok (SendLlmRequest (request_of a (conv_messages conv'))))
  | CallingLlm _ _, LlmEvt (TextDelta c) => Done (a, Ok (DisplayMessage c))
  | CallingLlm _ _, LlmEvt (ToolCallDelta _ _ _) => Done (a, Ok WaitForInput)
  | CallingLlm conv _, LlmEvt (Completed response) =>
      let conv' := push_message conv (message response) in
      let '(a', act) :=
        process_llm_response now (set_state a (ProcessingLlmResponse conv' response)) in
      Done (a', Ok act)
  | CallingLlm conv retries, LlmEvt (Error e) =>
      new_retries ← add_u32 overflow_checks retries 1;
      if (new_retries <? max_retries (config a))%Z then
        Done (set_state a (ErrorState conv (AgentError_Llm e) new_retries Origin_Llm),
              Ok WaitForInput)
      else
        Done (set_state a (WaitingForUserInput conv),
              Ok (DisplayError (AgentError_to_string (AgentError_Llm e))))
  | ErrorState conv _ retries Origin_Llm, RetryTimeoutFired =>
      Done (set_state a (CallingLlm conv retries),
            Ok (SendLlmRequest (request_of a (conv_messages conv))))
  | ExecutingTools conv executions, ToolCompleted call_id outcome =>
      let executions' := complete_executions now call_id outcome executions in
      if forallb is_completed executions' then
        let conv' := extend_messages conv (tool_messages executions') in
        let request := request_of a (conv_messages conv') in
        if has_mutating_tools executions' then
          let completed_tools := extract_completed_tools executions' in
          Done (set_state a (PostToolsHook conv' request completed_tools),
                Ok (RunPostToolsHook completed_tools))
        else
          Done (set_state a (CallingLlm conv' 0), Ok (SendLlmRequest request))
      else
        Done (set_state a (ExecutingTools conv executions'), Ok WaitForInput)
  | PostToolsHook conv pending_llm_request _, PostToolsHookCompleted _ =>
      Done (set_state a (CallingLlm conv 0), Ok (SendLlmRequest pending_llm_request))
  | _, ShutdownRequested => Done (set_state a ShuttingDown, Ok Shutdown)
  | _, _ => Done (a, Ok WaitForInput)
  end.

(** * The transitions as a step relation *)

(** The (state, event) pairs no arm of the [match] mentions. *)
Definition ignored (s : AgentState) (event : AgentEvent) : bool :=
  match s, event with
  | _, ShutdownRequested => false
  | WaitingForUserInput _, UserInput _ => false
  | CallingLlm _ _, LlmEvt _ => false
  | ErrorState _ _ _ Origin_Llm, RetryTimeoutFired => false
  | ExecutingTools _ _, ToolCompleted _ _ => false
  | PostToolsHook _ _ _, PostToolsHookCompleted _ => false
  | _, _ => true
  end.

Section Steps.
Context (now : nat -> Instant) (a : Agent).

Inductive agent_step : AgentState -> AgentEvent -> AgentAction -> AgentState -> Prop :=
| step_user c m :
    agent_step (WaitingForUserInput c) (UserInput m)
      (SendLlmRequest (request_of a (conv_messages (push_message c m))))
      (CallingLlm (push_message c m) 0)
| step_text c r t :
    agent_step (CallingLlm c r) (LlmEvt (TextDelta t)) (DisplayMessage t) (CallingLlm c r)
| step_tool_delta c r x y z :
    agent_step (CallingLlm c r) (LlmEvt (ToolCallDelta x y z)) WaitForInput (CallingLlm c r)
| step_answer c r resp :
    resp_tool_calls resp = [] ->
    agent_step (CallingLlm c r) (LlmEvt (Completed resp)) WaitForInput
      (WaitingForUserInput (push_message c (message resp)))
| step_call_tools c r resp :
    resp_tool_calls resp <> [] ->
    agent_step (CallingLlm c r) (LlmEvt (Completed resp))
      (ExecuteTools (resp_tool_calls resp))
      (ExecutingTools (push_message c (message resp))
         (pending_executions now (resp_tool_calls resp)))
| step_llm_error c r e n :
    add_u32 overflow_checks r 1 = Done n ->
    (n < max_retries (config a))%Z ->
    agent_step (CallingLlm c r) (LlmEvt (Error e)) WaitForInput
      (ErrorState c (AgentError_Llm e) n Origin_Llm)
| step_give_up c r e n :
    add_u32 overflow_checks r 1 = Done n ->
    (max_retries (config a) <= n)%Z ->
    agent_step (CallingLlm c r) (LlmEvt (Error e))
      (DisplayError (AgentError_to_string (AgentError_Llm e)))
      (WaitingForUserInput c)
| step_retry c e r :
    agent_step (ErrorState c e r Origin_Llm) RetryTimeoutFired
      (SendLlmRequest (request_of a (conv_messages c))) (CallingLlm c r)
| step_tool_partial c es cid o :
    forallb is_completed (complete_executions now cid o es) = false ->
    agent_step (ExecutingTools c es) (ToolCompleted cid o) WaitForInput
      (ExecutingTools c (complete_executions now cid o es))
| step_tools_done c es cid o c' :
    forallb is_completed (complete_executions now cid o es) = true ->
    has_mutating_tools (complete_executions now cid o es) = false ->
    c' = extend_messages c (tool_messages (complete_executions now cid o es)) ->
    agent_step (ExecutingTools c es) (ToolCompleted cid o)
      (SendLlmRequest (request_of a (conv_messages c'))) (CallingLlm c' 0)
| step_tools_hook c es cid o c' :
    forallb is_completed (complete_executions now cid o es) = true ->
    has_mutating_tools (complete_executions now cid o es) = true ->
    c' = extend_messages c (tool_messages (complete_executions now cid o es)) ->
    agent_step (ExecutingTools c es) (ToolCompleted cid o)
      (RunPostToolsHook (extract_completed_tools (complete_executions now cid o es)))
      (PostToolsHook c' (request_of a (conv_messages c'))
         (extract_completed_tools (complete_executions now cid o es)))
| step_hook_done c req cts b :
    agent_step (PostToolsHook c req cts) (PostToolsHookCompleted b)
      (SendLlmRequest req) (CallingLlm c 0)
| step_shutdown s : agent_step s ShutdownRequested Shutdown ShuttingDown
| step_ignored s ev : ignored s ev = true -> agent_step s ev WaitForInput s.

End Steps.

Lemma set_state_state a : set_state a (state a) = a.
Proof. by destruct a. Qed.

(** [handle_event] is exactly the step relation: each result it returns is a
    step, it never returns [Err], and every step is what it computes. *)
Lemma handle_event_sound now a ev a' r :
  handle_event now a ev = Done (a', r) ->
  exists act, r = Ok act /\ a' = set_state a (state a') /\
    agent_step now a (state a) ev act (state a').
Proof.
  destruct a as [s cfg ts]. unfold handle_event, process_llm_response.
  destruct s as [c|c k|c resp|c es|c req cts|c e k []|], ev as [m|[t|x y z|resp'|e']|p|cid o|b| |];
    cbn; intros H; try (injection H as <- <-; eexists; repeat split; by constructor).
  - destruct (resp_tool_calls resp') as [|tc tcs] eqn:Htc;
      injection H as <- <-; eexists; repeat split.
    + by constructor.
    + rewrite <-Htc. cbn. apply step_call_tools. by rewrite Htc.
  - destruct (add_u32 _ _ _) as [n|] eqn:Hn; cbn in H; [|done].
    destruct (Z.ltb_spec n (max_retries cfg)); injection H as <- <-;
      eexists; repeat split; econstructor; eauto.
  - destruct (forallb _ _) eqn:Hall; [destruct (has_mutating_tools _) eqn:Hm|];
      injection H as <- <-; eexists; (repeat split); cbn [state set_state].
    + by eapply step_tools_hook.
    + by eapply (step_tools_done _ _ _ _ _ _ (extend_messages c _)).
    + by eapply step_tool_partial.
Qed.

Lemma handle_event_complete now a ev act s' :
  agent_step now a (state a) ev act s' ->
  handle_event now a ev = Done (set_state a s', Ok act).
Proof.
  intros H. remember (state a) as s eqn:Hs. unfold handle_event. rewrite <-Hs.
  destruct H as [| | |c r resp Hnil|c r resp Hne|c r e n Hn Hlt|c r e n Hn Hle| |
                 ? ? ? ? Hall|? ? ? ? ? Hall Hm ->|? ? ? ? ? Hall Hm ->| | |s ev Hig];
    rewrite ?Hs, ?set_state_state; cbn; try done.
  - unfold process_llm_response. cbn. by rewrite Hnil.
  - unfold process_llm_response. cbn. by destruct (resp_tool_calls resp).
  - rewrite Hn. cbn. by apply Z.ltb_lt in Hlt as ->.
  - rewrite Hn. cbn. by apply Z.ltb_ge in Hle as ->.
  - by rewrite Hall.
  - by rewrite Hall, Hm.
  - by rewrite Hall, Hm.
  - by destruct (state a) as [| | | | |? ? ? []|].
  - rewrite Hs in Hig.
    by destruct (state a) as [| | | | |? ? ? []|], ev as [|[]| | | | |].
Qed.

(** * Executions and the state invariant *)

(** A sequence of handled events with the actions returned. *)
Inductive execution : Agent -> list (AgentEvent * AgentAction) -> Agent -> Prop :=
| execution_nil a : execution a [] a
| execution_cons now a ev act a' tr a'' :
    handle_event now a ev = Done (a', Ok act) ->
    execution a' tr a'' ->
    execution a ((ev, act) :: tr) a''.

Definition mutating_success (t : CompletedToolInfo) : Prop :=
  (cti_tool_name t = "edit_file" \/ cti_tool_name t = "bash") /\ succeeded t = true.

(** What holds of the agent between two events. *)
Definition agent_wf (a : Agent) : Prop :=
  match state a with
  | WaitingForUserInput _ | ShuttingDown => True
  | CallingLlm _ r => (0 <= r)%Z /\ (r = 0 \/ r < max_retries (config a))%Z
  | ProcessingLlmResponse _ _ => False
  | ExecutingTools _ es => Exists (fun e => is_completed e = false) es
  | PostToolsHook c req cts =>
      req = request_of a (conv_messages c) /\ Exists mutating_success cts
  | ErrorState _ e r o =>
      o = Origin_Llm /\ (exists le, e = AgentError_Llm le) /\
      (1 <= r < max_retries (config a))%Z
  end.

Lemma all_completed_false es :
  forallb is_completed es = false <-> Exists (fun e => is_completed e = false) es.
Proof.
  induction es as [|e es IH]; cbn.
  - split; [done|inversion 1].
  - by rewrite Exists_cons, andb_false_iff, IH.
Qed.

Lemma has_mutating_extract es :
  has_mutating_tools es = true <-> Exists mutating_success (extract_completed_tools es).
Proof.
  unfold has_mutating_tools, extract_completed_tools.
  rewrite existsb_spec, !Exists_exists. split.
  - intros (e & He & Hm). destruct e as [| |cid t t1 t2 o]; [done..|].
    bool_hyps. exists (mkCompletedToolInfo t (outcome_succeeded o)). split.
    + apply list_elem_of_omap. eauto.
    + split; [|done]. cbn in *. repeat case_bool_decide; naive_solver.
  - intros (i & (e & He & Hi)%list_elem_of_omap & Hn & Hs).
    destruct e as [| |cid t t1 t2 o]; [done..|]. simplify_eq/=.
    exists (Status_Completed cid t t1 t2 o). split; [done|].
    rewrite Hs, andb_true_r. destruct Hn as [-> | ->]; done.
Qed.

Lemma retries_fit a r :
  u32_ok (max_retries (config a)) ->
  (0 <= r)%Z /\ (r = 0 \/ r < max_retries (config a))%Z ->
  add_u32 overflow_checks r 1 = Done (r + 1)%Z.
Proof. intros Hm Hr. apply add_u32_fits. unfold u32_ok in *. lia. Qed.

Lemma agent_step_wf now a ev act s' :
  u32_ok (max_retries (config a)) ->
  agent_wf a -> agent_step now a (state a) ev act s' -> agent_wf (set_state a s').
Proof.
  intros Hmax Hwf Hstep. unfold agent_wf in *. cbn [state set_state config].
  remember (state a) as s eqn:Hs.
  destruct Hstep as [| | | |? ? ? Hne|? ? ? ? Hn|? ? ? ? Hn| | | |? ? ? ? ? ? Hm ->| | |]; try done; try lia.
  - destruct (resp_tool_calls resp) as [|tc tcs]; [done|]. by left.
  - rewrite (retries_fit a) in Hn by done. injection Hn as <-.
    repeat split; [eauto|lia..].
  - by apply all_completed_false.
  - split; [done|]. by apply has_mutating_extract.
Qed.

Lemma handle_event_wf now a ev a' act :
  u32_ok (max_retries (config a)) -> agent_wf a ->
  handle_event now a ev = Done (a', Ok act) ->
  agent_wf a' /\ config a' = config a /\ agent_tools a' = agent_tools a.
Proof.
  intros Hmax Hwf (? & [= <-] & Ha' & Hstep)%handle_event_sound.
  rewrite Ha'. split; [|done]. by eapply agent_step_wf.
Qed.

Lemma execution_wf a tr a' :
  u32_ok (max_retries (config a)) -> agent_wf a -> execution a tr a' ->
  agent_wf a' /\ config a' = config a /\ agent_tools a' = agent_tools a.
Proof.
  intros Hmax Hwf Hex. induction Hex as [|now a ev act a' tr a'' Hh Hex IH]; [done|].
  destruct (handle_event_wf _ _ _ _ _ Hmax Hwf Hh) as (Hwf' & Hc & Ht).
  rewrite <-Hc, <-Ht. apply IH; [by rewrite Hc|done].
Qed.

(** Every event is handled: no panic and no [Err]. *)
Lemma handle_event_total now a ev :
  u32_ok (max_retries (config a)) -> agent_wf a ->
  exists a' act, handle_event now a ev = Done (a', Ok act).
Proof.
  intros Hmax Hwf.
  destruct (handle_event now a ev) as [[a' r]|] eqn:H.
  - destruct (handle_event_sound _ _ _ _ _ H) as (act & -> & _). eauto.
  - exfalso. unfold handle_event, agent_wf in *.
    destruct (state a) as [c|c k|c resp|c es|c req cts|c e k []|],
      ev as [m|[t|x y z|resp'|e']|p|cid o|b| |]; try done.
    + by destruct (process_llm_response _ _).
    + rewrite (retries_fit a) in H by done. cbn in H. by case_match.
    + cbn in H. by repeat case_match.
Qed.

Lemma Agent_new_wf fresh cfg ts : agent_wf (Agent_new fresh cfg ts).
Proof. done. Qed.

(** * A round of tool calls *)

(** What the machine reads of an execution entry. *)
Definition exec_view (e : ToolExecutionStatus)
    : string * string * option ToolExecutionOutcome :=
  match e with
  | Status_Completed c t _ _ o => (c, t, Some o)
  | _ => (exec_call_id e, exec_tool_name e, None)
  end.

Definition tool_result (call_id : string) (o : ToolExecutionOutcome) : Message :=
  mkMessage Tool (outcome_content o) (Some call_id) None [].

(** The last outcome reported for a call in a sequence of events. *)
Fixpoint latest (evs : list AgentEvent) (cid : string) : option ToolExecutionOutcome :=
  match evs with
  | [] => None
  | ToolCompleted c o :: evs =>
      match latest evs cid with
      | Some o' => Some o'
      | None => if bool_decide (c = cid) then Some o else None
      end
  | _ :: evs => latest evs cid
  end.

Definition update_view (evs : list AgentEvent)
    (v : string * string * option ToolExecutionOutcome) :=
  let '(c, t, o) := v in
  (c, t, match latest evs c with Some o' => Some o' | None => o end).

Definition view_done (v : string * string * option ToolExecutionOutcome) : bool :=
  match v.2 with Some _ => true | None => false end.

Lemma is_completed_view e : is_completed e = view_done (exec_view e).
Proof. by destruct e. Qed.

Lemma all_completed_views es :
  forallb is_completed es = forallb view_done (exec_view <$> es).
Proof. induction es as [|e es IH]; cbn; [done|]. by rewrite is_completed_view, IH. Qed.

Lemma tool_messages_views es :
  tool_messages es = omap (fun v => tool_result v.1.1 <$> v.2) (exec_view <$> es).
Proof. induction es as [|[] es IH]; cbn; by rewrite <-?IH. Qed.

Lemma extract_views es :
  extract_completed_tools es =
  omap (fun v => (fun o => mkCompletedToolInfo v.1.2 (outcome_succeeded o)) <$> v.2)
    (exec_view <$> es).
Proof. induction es as [|[] es IH]; cbn; by rewrite <-?IH. Qed.

Lemma latest_app evs1 evs2 cid :
  latest (evs1 ++ evs2) cid =
  match latest evs2 cid with Some o => Some o | None => latest evs1 cid end.
Proof.
  induction evs1 as [|ev evs1 IH]; cbn; [by destruct (latest evs2 cid)|].
  destruct ev; try done. rewrite IH. by destruct (latest evs2 cid).
Qed.

Lemma update_view_cons ev evs v :
  update_view (ev :: evs) v = update_view evs (update_view [ev] v).
Proof.
  destruct v as [[c t] o]. cbn. destruct ev; try done.
  cbn. by destruct (latest evs c); try case_bool_decide.
Qed.

Lemma update_view_done evs v : view_done v = true -> view_done (update_view evs v) = true.
Proof. destruct v as [[c t] [o|]]; [|done]. cbn. by destruct (latest evs c). Qed.

Lemma update_views_done evs vs :
  forallb view_done vs = true -> forallb view_done (update_view evs <$> vs) = true.
Proof.
  rewrite !forallb_spec. intros H. apply Forall_fmap.
  eapply Forall_impl; [done|]. intros. by apply update_view_done.
Qed.

Lemma complete_executions_views now cid o es :
  exec_view <$> complete_executions now cid o es =
  update_view [ToolCompleted cid o] <$> (exec_view <$> es).
Proof.
  apply list_eq. intros i. unfold complete_executions.
  rewrite !list_lookup_fmap, list_lookup_imap.
  destruct (es !! i) as [e|]; [|done]. cbn.
  destruct e; cbn; case_bool_decide; subst; case_bool_decide; simplify_eq; done.
Qed.

Lemma pending_views now calls :
  exec_view <$> pending_executions now calls =
  (fun tc => (id tc, tc_tool_name tc, None)) <$> calls.
Proof.
  apply list_eq. intros i. unfold pending_executions.
  rewrite !list_lookup_fmap, list_lookup_imap. by destruct (calls !! i).
Qed.

Lemma update_view_other ev v :
  (forall cid o, ev <> ToolCompleted cid o) -> update_view [ev] v = v.
Proof. intros H. destruct v as [[c t] o], ev; try done. by edestruct H. Qed.

Lemma execution_app a tr1 tr2 a'' :
  execution a (tr1 ++ tr2) a'' <->
  exists a', execution a tr1 a' /\ execution a' tr2 a''.
Proof.
  revert a. induction tr1 as [|[ev act] tr1 IH]; intros a; cbn.
  - split; [intros H; exists a; split; [constructor|done]|].
    intros (a' & H1 & H2). by inversion H1; subst.
  - split.
    + inversion 1 as [|now ? ? ? b ? ? Hh Hex]; subst.
      apply IH in Hex as (a' & H1 & H2). exists a'. split; [|done]. by econstructor.
    + intros (a' & H1 & H2). inversion H1 as [|now ? ? ? b ? ? Hh Hex]; subst.
      econstructor; [done|]. apply IH. eauto.
Qed.

Lemma update_views_cons ev evs (vs : list (string * string * option ToolExecutionOutcome)) :
  update_view (ev :: evs) <$> vs = update_view evs <$> (update_view [ev] <$> vs).
Proof.
  rewrite <-list_fmap_compose. apply list_fmap_ext. intros i v _. apply update_view_cons.
Qed.

Lemma update_views_nil (vs : list (string * string * option ToolExecutionOutcome)) :
  update_view [] <$> vs = vs.
Proof. induction vs as [|[[c t] o] vs IH]; cbn; [done|]. by f_equal. Qed.

Lemma update_views_other ev (vs : list (string * string * option ToolExecutionOutcome)) :
  (forall cid o, ev <> ToolCompleted cid o) -> update_view [ev] <$> vs = vs.
Proof.
  intros H. induction vs as [|v vs IH]; cbn [fmap list_fmap]; [done|].
  by rewrite update_view_other, IH.
Qed.

(** One event other than the completion of the last open call. *)
Lemma executing_step now a c es ev act a' :
  state a = ExecutingTools c es -> handle_event now a ev = Done (a', Ok act) ->
  ev <> ShutdownRequested ->
  forallb view_done (update_view [ev] <$> (exec_view <$> es)) = false ->
  exists es', a' = set_state a (ExecutingTools c es') /\ act = WaitForInput /\
    exec_view <$> es' = update_view [ev] <$> (exec_view <$> es).
Proof.
  intros Hs (? & [= <-] & -> & Hstep)%handle_event_sound Hev Hpend.
  rewrite Hs in Hstep.
  inversion Hstep as [| | | | | | | |? ? ? ? Hall| ? ? ? ? ? Hall| ? ? ? ? ? Hall | | |? ? Hig];
    subst; try done;
    rewrite ?all_completed_views, ?complete_executions_views in *; try congruence.
  - eexists. rewrite complete_executions_views. done.
  - exists es. repeat split. symmetry. apply update_views_other. by intros cid o ->.
Qed.

(** While a call of the round is unanswered the agent keeps waiting in
    [ExecutingTools], whatever other events arrive. *)
Lemma executing_waits a c es tr a' :
  state a = ExecutingTools c es -> execution a tr a' ->
  Forall (fun ev => ev <> ShutdownRequested) tr.*1 ->
  forallb view_done (update_view tr.*1 <$> (exec_view <$> es)) = false ->
  exists es', a' = set_state a (ExecutingTools c es') /\
    exec_view <$> es' = update_view tr.*1 <$> (exec_view <$> es) /\
    Forall (fun x => x.2 = WaitForInput) tr.
Proof.
  intros Hs Hex. revert es c Hs.
  induction Hex as [a|now a ev act a' tr a'' Hh Hex IH]; intros es c Hs Hno Hpend.
  { exists es. rewrite update_views_nil, <-Hs, set_state_state. done. }
  cbn [fmap list_fmap fst] in *. apply Forall_cons in Hno as [Hev Hno].
  rewrite update_views_cons in *.
  destruct (executing_step now a c es ev act a') as (es1 & -> & -> & Hv1); try done.
  { apply not_true_iff_false. intros Hall%(update_views_done tr.*1). congruence. }
  destruct (IH es1 c) as (es' & -> & Hv' & Hw); [done..|by rewrite Hv1|].
  exists es'. rewrite Hv', Hv1. repeat split. by constructor.
Qed.

(** The round of [calls] is answered by the events. *)
Definition resolved (calls : list ToolCall) (evs : list AgentEvent) : bool :=
  forallb (fun tc => match latest evs (id tc) with Some _ => true | None => false end) calls.

Definition round_messages (calls : list ToolCall) (evs : list AgentEvent) : list Message :=
  omap (fun tc => tool_result (id tc) <$> latest evs (id tc)) calls.

Definition round_tools (calls : list ToolCall) (evs : list AgentEvent)
    : list CompletedToolInfo :=
  omap (fun tc => (fun o => mkCompletedToolInfo (tc_tool_name tc) (outcome_succeeded o))
    <$> latest evs (id tc)) calls.

Definition call_view (evs : list AgentEvent) (tc : ToolCall) :=
  (id tc, tc_tool_name tc, latest evs (id tc)).

Lemma round_views now calls evs :
  update_view evs <$> (exec_view <$> pending_executions now calls) = call_view evs <$> calls.
Proof.
  rewrite pending_views, <-list_fmap_compose. apply list_fmap_ext.
  intros i tc _. cbn. unfold call_view. by destruct (latest evs (id tc)).
Qed.

Lemma resolved_views calls evs :
  forallb view_done (call_view evs <$> calls) = resolved calls evs.
Proof. induction calls as [|tc calls IH]; cbn; [done|]. by rewrite IH. Qed.

Lemma round_messages_views calls evs :
  omap (fun v => tool_result v.1.1 <$> v.2) (call_view evs <$> calls) =
  round_messages calls evs.
Proof.
  induction calls as [|tc calls IH]; cbn; [done|].
  unfold round_messages in *. by rewrite IH.
Qed.

Lemma round_tools_views calls evs :
  omap (fun v => (fun o => mkCompletedToolInfo v.1.2 (outcome_succeeded o)) <$> v.2)
    (call_view evs <$> calls) = round_tools calls evs.
Proof.
  induction calls as [|tc calls IH]; cbn; [done|].
  unfold round_tools in *. by rewrite IH.
Qed.

Lemma round_messages_ids calls evs :
  resolved calls evs = true ->
  tool_call_id <$> round_messages calls evs = (fun tc => Some (id tc)) <$> calls.
Proof.
  unfold resolved, round_messages.
  induction calls as [|tc calls IH]; cbn; [done|].
  destruct (latest evs (id tc)); cbn; [|done]. intros. by rewrite IH.
Qed.

(** * Conversation history and retries *)

Definition grows (s s' : AgentState) : Prop :=
  forall c', state_conversation s' = Done c' ->
  exists c, state_conversation s = Done c /\ conv_id c' = conv_id c /\
    conv_messages c `prefix_of` conv_messages c'.

#[local] Instance grows_preorder : PreOrder grows.
Proof.
  split.
  - intros s c ?. by exists c.
  - intros s1 s2 s3 H12 H23 c3 H3.
    destruct (H23 c3 H3) as (c2 & H2 & Hid2 & Hp2).
    destruct (H12 c2 H2) as (c1 & H1 & Hid1 & Hp1).
    exists c1. repeat split; [done|congruence|by etrans].
Qed.

Lemma agent_step_grows now a s ev act s' : agent_step now a s ev act s' -> grows s s'.
Proof.
  destruct 1; subst; try reflexivity; intros c' [= <-]; eexists; (split; [done|]);
    (split; [done|]); cbn; by (reflexivity || apply prefix_app_r).
Qed.

Lemma execution_grows a tr a' : execution a tr a' -> grows (state a) (state a').
Proof.
  induction 1 as [|now a ev act a' tr a'' Hh Hex IH]; [reflexivity|].
  apply handle_event_sound in Hh as (? & [= <-] & _ & Hstep%agent_step_grows).
  by etrans.
Qed.

(** Events after which the retry counter may start again. *)
Definition fresh_start (ev : AgentEvent) : bool :=
  match ev with UserInput _ | LlmEvt (Completed _) => true | _ => false end.

Definition is_request (x : AgentEvent * AgentAction) : bool :=
  match x.2 with SendLlmRequest _ => true | _ => false end.

Definition requests_sent (tr : list (AgentEvent * AgentAction)) : Z :=
  Z.of_nat (length (List.filter is_request tr)).

(** The requests the current LLM call may still send. *)
Definition retry_budget (a : Agent) : option Z :=
  match state a with
  | WaitingForUserInput _ | ShuttingDown => Some 0%Z
  | CallingLlm _ r => Some (Z.max 0 (max_retries (config a) - 1 - r))
  | ErrorState _ _ r _ => Some (Z.max 0 (max_retries (config a) - r))
  | _ => None
  end.

Lemma agent_step_budget now a ev act s' b :
  u32_ok (max_retries (config a)) -> agent_wf a ->
  agent_step now a (state a) ev act s' -> fresh_start ev = false ->
  retry_budget a = Some b ->
  exists b', retry_budget (set_state a s') = Some b' /\
    (requests_sent [(ev, act)] + b' <= b)%Z.
Proof.
  intros Hmax Hwf Hstep Hev Hb. unfold retry_budget, agent_wf in *.
  cbn [state set_state config]. remember (state a) as s eqn:Hs.
  destruct Hstep as [| | | | |? ? ? ? Hn|? ? ? ? Hn| | | | | |s|s ev Hig]; try done;
    try (rewrite (retries_fit a) in Hn by done; injection Hn as <-);
    simplify_eq; eexists; (split; [done|]); unfold requests_sent; cbn; lia || idtac.
  destruct (state a); simplify_eq; lia.
Qed.

Lemma execution_budget a tr a' b :
  u32_ok (max_retries (config a)) -> agent_wf a -> execution a tr a' ->
  Forall (fun ev => fresh_start ev = false) tr.*1 ->
  retry_budget a = Some b -> (requests_sent tr <= b)%Z.
Proof.
  intros Hmax Hwf Hex. revert b.
  induction Hex as [a|now a ev act a' tr a'' Hh Hex IH]; intros b Hev Hb.
  { unfold retry_budget in Hb. unfold requests_sent. cbn.
    destruct (state a); simplify_eq; lia. }
  cbn in Hev. apply Forall_cons in Hev as [Hev Hrest].
  destruct (handle_event_wf _ _ _ _ _ Hmax Hwf Hh) as (Hwf' & Hc & _).
  apply handle_event_sound in Hh as (? & [= <-] & Ha' & Hstep).
  destruct (agent_step_budget _ _ _ _ _ _ Hmax Hwf Hstep Hev Hb) as (b' & Hb' & Hle).
  rewrite <-Ha' in Hb'.
  specialize (IH ltac:(by rewrite Hc) Hwf' b' Hrest Hb').
  unfold requests_sent in *. cbn in *. destruct (is_request _); cbn in *; lia.
Qed.

(** The first and the last step of a round. *)
Lemma round_starts now a conv r resp act a' :
  state a = CallingLlm conv r -> resp_tool_calls resp <> [] ->
  handle_event now a (LlmEvt (Completed resp)) = Done (a', Ok act) ->
  act = ExecuteTools (resp_tool_calls resp) /\
  a' = set_state a (ExecutingTools (push_message conv (message resp))
                      (pending_executions now (resp_tool_calls resp))).
Proof.
  intros Hs Hne. unfold handle_event, process_llm_response. rewrite Hs. cbn.
  destruct (resp_tool_calls resp) eqn:Hc; [done|]. intros [= <- <-]. done.
Qed.

Lemma call_views_snoc cid o (calls : list ToolCall) evs :
  update_view [ToolCompleted cid o] <$> (call_view evs <$> calls) =
  call_view (evs ++ [ToolCompleted cid o]) <$> calls.
Proof.
  rewrite <-list_fmap_compose. apply list_fmap_ext. intros i tc _.
  unfold call_view. cbn -[latest]. rewrite latest_app.
  by destruct (latest [_] (id tc)).
Qed.

Lemma latest_snoc_other evs ev cid :
  (forall c o, ev <> ToolCompleted c o) -> latest (evs ++ [ev]) cid = latest evs cid.
Proof. intros H. rewrite latest_app. destruct ev; try done. by edestruct H. Qed.

Lemma resolved_snoc_other calls evs ev :
  (forall c o, ev <> ToolCompleted c o) ->
  resolved calls (evs ++ [ev]) = resolved calls evs.
Proof.
  intros H. induction calls as [|tc calls IH]; [done|].
  unfold resolved in *. cbn [forallb]. by rewrite IH, latest_snoc_other.
Qed.

Lemma round_ends now a c es (calls : list ToolCall) evs ev act a' :
  state a = ExecutingTools c es ->
  exec_view <$> es = call_view evs <$> calls ->
  resolved calls evs = false -> resolved calls (evs ++ [ev]) = true ->
  handle_event now a ev = Done (a', Ok act) ->
  let c' := extend_messages c (round_messages calls (evs ++ [ev])) in
  let request := request_of a (conv_messages c') in
  let tools := round_tools calls (evs ++ [ev]) in
  (Exists mutating_success tools /\ act = RunPostToolsHook tools /\
   state a' = PostToolsHook c' request tools) \/
  (~ Exists mutating_success tools /\ act = SendLlmRequest request /\
   state a' = CallingLlm c' 0).
Proof.
  intros Hs Hv Hpend Hres Hh c' request tls.
  assert (exists cid o, ev = ToolCompleted cid o) as (cid & o & ->).
  { destruct ev; try (rewrite resolved_snoc_other in Hres by done; congruence). eauto. }
  unfold handle_event in Hh. rewrite Hs in Hh. cbn -[complete_executions] in Hh.
  set (es' := complete_executions now cid o es) in *.
  assert (exec_view <$> es' = call_view (evs ++ [ToolCompleted cid o]) <$> calls) as Hv'.
  { unfold es'. by rewrite complete_executions_views, Hv, call_views_snoc. }
  assert (tool_messages es' = round_messages calls (evs ++ [ToolCompleted cid o])) as Htm
    by (rewrite tool_messages_views, Hv'; apply round_messages_views).
  assert (extract_completed_tools es' = tls) as Htl
    by (rewrite extract_views, Hv'; apply round_tools_views).
  rewrite all_completed_views, Hv', resolved_views, Hres, Htm, Htl in Hh.
  destruct (has_mutating_tools es') eqn:Hm; injection Hh as <- <-.
  - left. apply has_mutating_extract in Hm. by rewrite Htl in Hm.
  - right. split; [|done]. rewrite <-Htl, <-has_mutating_extract. congruence.
Qed.

(** * Properties *)

(** C1. From a new agent, whatever events have been handled: the transient
    [ProcessingLlmResponse] state is never left standing, an [Error] state always
    has origin [Llm] and a retry count below [max_retries], [ExecutingTools]
    always has an unanswered call, [PostToolsHook] holds the request of its own
    conversation; and the next event, any event, is handled without a panic
    (the [u32] counter never overflows) and without an [Err]. *)
Theorem agent_never_stuck fresh cfg ts tr a :
  u32_ok (max_retries cfg) ->
  execution (Agent_new fresh cfg ts) tr a ->
  agent_wf a /\
  forall now ev, exists a' act, handle_event now a ev = Done (a', Ok act).
Proof.
  intros Hmax Hex.
  destruct (execution_wf (Agent_new fresh cfg ts) tr a) as (Hwf & Hc & _); [done..|].
  split; [done|]. intros. apply handle_event_total; [by rewrite Hc|done].
Qed.

(** C2. A round of tool calls: after a response with tool calls, the agent waits
    for exactly the events that answer every call, ignoring any other event but
    a shutdown; at the event that answers the last open call it appends one
    [Tool] message per call, in the order the model requested them and whatever
    order the tools finished in, and then runs the post-tools hook when a
    mutating tool succeeded, or asks the LLM again with the full conversation. *)
Theorem tool_round_completes a conv r resp act0 tr ev act a' :
  state a = CallingLlm conv r ->
  execution a ((LlmEvt (Completed resp), act0) :: tr ++ [(ev, act)]) a' ->
  Forall (fun e => e <> ShutdownRequested) (tr.*1 ++ [ev]) ->
  resolved (resp_tool_calls resp) tr.*1 = false ->
  resolved (resp_tool_calls resp) (tr.*1 ++ [ev]) = true ->
  let calls := resp_tool_calls resp in
  let evs := tr.*1 ++ [ev] in
  let conv' := extend_messages (push_message conv (message resp)) (round_messages calls evs) in
  act0 = ExecuteTools calls /\
  Forall (fun x => x.2 = WaitForInput) tr /\
  tool_call_id <$> round_messages calls evs = (fun tc => Some (id tc)) <$> calls /\
  let request := request_of a (conv_messages conv') in
  ((Exists mutating_success (round_tools calls evs) /\
    act = RunPostToolsHook (round_tools calls evs) /\
    state a' = PostToolsHook conv' request (round_tools calls evs)) \/
   (~ Exists mutating_success (round_tools calls evs) /\
    act = SendLlmRequest request /\ state a' = CallingLlm conv' 0)).
Proof.
  intros Hs Hex Hno Hpend Hres calls evs conv'.
  inversion Hex as [|now ? ? ? a1 ? ? Hh Hex1]; subst.
  destruct (round_starts _ _ _ _ _ _ _ Hs ltac:(by intros Hn; rewrite Hn in Hpend) Hh)
    as [-> ->].
  apply execution_app in Hex1 as (a2 & Hex2 & Hlast).
  apply Forall_app in Hno as [Hno _].
  eapply executing_waits in Hex2 as (es & Ha2 & Hv & Hw); [|reflexivity|done|].
  2: { by rewrite round_views, resolved_views. }
  rewrite round_views in Hv. subst a2.
  inversion Hlast as [|now2 ? ? ? a3 ? ? Hh2 Hnil2]; subst. inversion Hnil2; subst.
  split; [done|]. split; [done|]. split; [by apply round_messages_ids|].
  refine (round_ends now2 _ (push_message conv (message resp)) es calls _ _ _ _ _ Hv Hpend Hres Hh2).
  done.
Qed.

(** C3. A request is sent exactly when the agent enters [CallingLlm], and it
    carries precisely the conversation the new state holds: it is the request
    [build_llm_request] builds there, so the model always sees the whole
    history. *)
Theorem request_carries_conversation fresh cfg ts tr a now ev act a' :
  u32_ok (max_retries cfg) ->
  execution (Agent_new fresh cfg ts) tr a ->
  handle_event now a ev = Done (a', Ok act) ->
  (forall req, act = SendLlmRequest req -> build_llm_request a' = Done req) /\
  ((exists req, act = SendLlmRequest req) <->
   (state_name (state a') = "CallingLlm" /\ state_name (state a) <> "CallingLlm")).
Proof.
  intros Hmax Hex Hh.
  destruct (execution_wf (Agent_new fresh cfg ts) tr a) as (Hwf & Hc & _); [done..|].
  apply handle_event_sound in Hh as (? & [= <-] & Ha' & Hstep).
  unfold agent_wf in Hwf. unfold build_llm_request, conversation. rewrite Ha'.
  cbn [state set_state]. generalize dependent (state a'). intros s' _ Hstep.
  remember (state a) as s eqn:Hs.
  destruct Hstep; subst; cbn [state_name];
    (split; [intros ? [= <-]|split; [intros [? [= <-]]|intros [Hn Hne]]]);
    cbn; try done; eauto.
  - by destruct Hwf as [-> _].
Qed.

(** History is never lost or rewritten: as long as the agent has not shut
    down, its conversation keeps its identity and every handled event can only
    append messages to it. *)
Theorem history_only_grows a tr a' c' :
  execution a tr a' -> conversation a' = Done c' ->
  exists c, conversation a = Done c /\ conv_id c' = conv_id c /\
    conv_messages c `prefix_of` conv_messages c'.
Proof. intros Hex%execution_grows Hc. by apply Hex. Qed.

(** C4. Retries are bounded: after a request has been sent, as long as the
    model does not answer and the user does not write again, the agent sends at
    most [max_retries - 1] further requests, whatever events arrive and however
    they interleave. *)
Theorem retries_bounded fresh cfg ts tr0 a c tr a' :
  u32_ok (max_retries cfg) ->
  execution (Agent_new fresh cfg ts) tr0 a ->
  state a = CallingLlm c 0 ->
  execution a tr a' ->
  Forall (fun ev => fresh_start ev = false) tr.*1 ->
  (requests_sent tr <= Z.max 0 (max_retries cfg - 1))%Z.
Proof.
  intros Hmax Hex0 Hs Hex Hev.
  destruct (execution_wf (Agent_new fresh cfg ts) tr0 a) as (Hwf & Hc & _); [done..|].
  eapply execution_budget; [by rewrite Hc|done..|].
  unfold retry_budget. rewrite Hs, Hc. cbn. do 2 f_equal. lia.
Qed.

(** The events of [n] failed attempts, each followed by the retry timer. *)
Fixpoint failing_rounds (n : nat) (e : LlmError) : list AgentEvent :=
  match n with
  | O => []
  | S n => LlmEvt (Error e) :: RetryTimeoutFired :: failing_rounds n e
  end.

Lemma failing_rounds_execution n a c r e :
  u32_ok (max_retries (config a)) ->
  state a = CallingLlm c r -> (0 <= r)%Z ->
  (r + Z.of_nat n < max_retries (config a))%Z ->
  exists tr, execution a tr (set_state a (CallingLlm c (r + Z.of_nat n))) /\
    tr.*1 = failing_rounds n e.
Proof.
  revert a r. induction n as [|n IH]; intros a r Hmax Hs Hr Hlt.
  { exists []. split; [|done]. rewrite Z.add_0_r, <-Hs, set_state_state. constructor. }
  pose (a1 := set_state a (CallingLlm c (r + 1))).
  destruct (IH a1 (r + 1)%Z) as (tr & Hex & Htr); [done|done|lia|cbn; lia|].
  replace (r + 1 + Z.of_nat n)%Z with (r + Z.of_nat (S n))%Z in Hex by lia.
  eexists (_ :: _ :: tr). split.
  - eapply (execution_cons (fun _ => 0%Z)).
    { apply handle_event_complete. rewrite Hs.
      eapply step_llm_error; [apply (retries_fit a); [done|lia]|lia]. }
    eapply (execution_cons (fun _ => 0%Z)); [by apply handle_event_complete, step_retry|].
    exact Hex.
  - cbn. by rewrite Htr.
Qed.

(** C5. The agent gives up after exactly [max_retries] failed attempts in a row:
    [max_retries - 1] failures are each followed by a retry when the timer
    fires, and the next one returns to [WaitingForUserInput] with the unchanged
    conversation, displaying the error. *)
Theorem gives_up_after_max_retries a c e :
  u32_ok (max_retries (config a)) -> (1 <= max_retries (config a))%Z ->
  state a = CallingLlm c 0 ->
  let n := Z.to_nat (max_retries (config a) - 1) in
  exists tr, execution a
      (tr ++ [(LlmEvt (Error e), DisplayError (AgentError_to_string (AgentError_Llm e)))])
      (set_state a (WaitingForUserInput c)) /\
    tr.*1 = failing_rounds n e.
Proof.
  intros Hmax Hge Hs n.
  destruct (failing_rounds_execution n a c 0 e) as (tr & Hex & Htr); [done..|lia|].
  exists tr. split; [|done]. apply execution_app. eexists. split; [done|].
  pose (a1 := set_state a (CallingLlm c (0 + Z.of_nat n))).
  assert (add_u32 overflow_checks (0 + Z.of_nat n) 1 = Done (max_retries (config a))).
  { rewrite (retries_fit a) by (done || lia). f_equal. lia. }
  eapply (execution_cons (fun _ => 0%Z)); [|apply execution_nil].
  apply (handle_event_complete _ a1). by eapply step_give_up.
Qed.

End Agent.

(** * Concrete runs *)

(** An executable driver with a clock that stands still. *)
Fixpoint run_events `{SJ : SerdeJson} (oc : bool) (a : Agent) (evs : list AgentEvent)
    : option (list (AgentEvent * AgentAction) * Agent) :=
  match evs with
  | [] => Some ([], a)
  | ev :: evs =>
      match handle_event oc (fun _ => 0%Z) a ev with
      | Done (a', Ok act) =>
          match run_events oc a' evs with
          | Some (tr, a'') => Some ((ev, act) :: tr, a'')
          | None => None
          end
      | _ => None
      end
  end.

Lemma run_events_execution `{SJ : SerdeJson} oc a evs tr a' :
  run_events oc a evs = Some (tr, a') -> execution oc a tr a'.
Proof.
  revert a tr. induction evs as [|ev evs IH]; cbn; intros a tr H.
  - simplify_eq. constructor.
  - destruct (handle_event _ _ _ _) as [[a1 [act|]]|] eqn:Hh; [|done..].
    destruct (run_events oc a1 evs) as [[tr1 a2]|] eqn:Hr; [|done].
    simplify_eq. econstructor; [done|by apply IH].
Qed.

(** JSON values that are already text. *)
#[local] Instance text_json : SerdeJson := {| Json := string; json_to_string := Some |}.

Definition demo_agent : Agent := Agent_new 7%N AgentConfig_default [].
Definition demo_calls : list ToolCall :=
  [mkToolCall "c1" "read_file" "{}"; mkToolCall "c2" "edit_file" "{}"].
Definition demo_response : LlmResponse :=
  mkLlmResponse (Message_assistant_with_tool_calls "working" demo_calls) demo_calls None None.
Definition demo_calling : Agent :=
  mkAgent (CallingLlm (mkConversation 7%N [Message_user "hi"]) 0) AgentConfig_default [].

Lemma agent_never_stuck_witness :
  exists a, agent_wf a /\ state_name (state a) = "CallingLlm" /\
    exists a' act, handle_event true (fun _ => 0%Z) a (LlmEvt (Error LlmError_Timeout))
      = Done (a', Ok act).
Proof.
  destruct (agent_never_stuck true 7%N AgentConfig_default [] _ demo_calling
    ltac:(vm_compute; split; congruence)
    (run_events_execution true demo_agent [UserInput (Message_user "hi")] _ _
      ltac:(vm_compute; reflexivity))) as [Hwf Hnext].
  exists demo_calling. split; [exact Hwf|]. split; [reflexivity|]. apply Hnext.
Defined.

Definition demo_evs : list AgentEvent :=
  [ToolCompleted "c2" (Outcome_Success "c2" "done"); UserInput (Message_user "wait")].

Definition demo_last : AgentEvent := ToolCompleted "c1" (Outcome_Success "c1" "text").

Lemma tool_round_completes_witness :
  let evs := demo_evs ++ [demo_last] in
  round_messages demo_calls evs =
    [tool_result "c1" (Outcome_Success "c1" "text");
     tool_result "c2" (Outcome_Success "c2" "done")] /\
  exists a', option_map snd (run_events true demo_calling
      (LlmEvt (Completed demo_response) :: evs)) = Some a' /\
    state_name (state a') = "PostToolsHook".
Proof.
  split; [reflexivity|]. eexists. split; [vm_compute; reflexivity|].
  destruct (tool_round_completes true demo_calling _ _ demo_response
    (ExecuteTools demo_calls) (zip demo_evs [WaitForInput; WaitForInput]) demo_last
    _ _ eq_refl
    (run_events_execution true demo_calling
      (LlmEvt (Completed demo_response) :: demo_evs ++ [demo_last]) _ _
      ltac:(vm_compute; reflexivity))
    ltac:(repeat constructor; discriminate)
    eq_refl eq_refl) as (_ & _ & _ & [(_ & _ & Hs)|(Hno & _ & _)]).
  - exact (f_equal state_name Hs).
  - exfalso. apply Hno. right. left. split; [by left|done].
Defined.

Lemma request_carries_conversation_witness :
  exists a' act, handle_event true (fun _ => 0%Z) demo_agent (UserInput (Message_user "hi"))
      = Done (a', Ok act) /\
    ((exists req, act = SendLlmRequest req) <->
      (state_name (state a') = "CallingLlm" /\ state_name (state demo_agent) <> "CallingLlm")).
Proof.
  eexists _, _. split; [reflexivity|].
  refine (proj2 (request_carries_conversation true 7%N AgentConfig_default [] [] demo_agent
    (fun _ => 0%Z) (UserInput (Message_user "hi")) _ _ _ (execution_nil _ _) eq_refl)).
  vm_compute; split; congruence.
Defined.

Lemma history_only_grows_witness :
  exists c, conversation demo_agent = Done c /\ conv_messages c = [].
Proof.
  destruct (history_only_grows true demo_agent _ demo_calling _
    (run_events_execution true demo_agent [UserInput (Message_user "hi")] _ _
      ltac:(vm_compute; reflexivity)) eq_refl) as (c & Hc & _ & Hp).
  exists c. split; [exact Hc|]. injection Hc as <-. reflexivity.
Defined.

Lemma retries_bounded_witness :
  exists tr a', execution true demo_calling tr a' /\ requests_sent tr = 2%Z /\
    (requests_sent tr <= Z.max 0 (3 - 1))%Z.
Proof.
  eexists _, _. split.
  - apply (run_events_execution true demo_calling
      (failing_rounds 2 LlmError_Timeout ++ [LlmEvt (Error LlmError_Timeout)])).
    vm_compute. reflexivity.
  - split; [reflexivity|].
    refine (retries_bounded true 7%N AgentConfig_default []
      _ demo_calling _ _ (mkAgent (WaitingForUserInput (mkConversation 7%N [Message_user "hi"]))
        AgentConfig_default []) _
      (run_events_execution true demo_agent [UserInput (Message_user "hi")] _ _
        ltac:(vm_compute; reflexivity))
      eq_refl (run_events_execution true demo_calling
        (failing_rounds 2 LlmError_Timeout ++ [LlmEvt (Error LlmError_Timeout)]) _ _
        ltac:(vm_compute; reflexivity)) _).
    + vm_compute; split; congruence.
    + repeat constructor.
Defined.

Lemma gives_up_after_max_retries_witness :
  exists tr, execution true demo_calling
      (tr ++ [(LlmEvt (Error LlmError_Timeout), DisplayError "LLM error: Request timed out")])
      (set_state demo_calling (WaitingForUserInput (mkConversation 7%N [Message_user "hi"]))) /\
    length tr = 4.
Proof.
  destruct (gives_up_after_max_retries true demo_calling _ LlmError_Timeout
    ltac:(vm_compute; split; congruence) ltac:(vm_compute; congruence) eq_refl)
    as (tr & Hex & Htr).
  exists tr. split; [exact Hex|]. apply (f_equal length) in Htr.
  rewrite length_fmap in Htr. exact Htr.
Defined.
