(* ===== verification/Abac.v ===== *)
(** Attribute-based access control, [crates/loom-server-auth/src/abac]: the
    subject and resource attributes (types.rs), the policies (policies/*.rs) and
    the decision function [is_allowed] (engine.rs). *)
From stdpp Require Import base list strings sets.
From S2P Require Import Prelude CoreTypes.

(** ** crates/loom-server-auth/src/types.rs *)
Definition UserId := Uuid.
Definition OrgId := Uuid.
Definition TeamId := Uuid.

Inductive GlobalRole := SystemAdmin | Support | Auditor.
Inductive OrgRole := Org_Owner | Org_Admin | Org_Member.
Inductive TeamRole := Maintainer | Team_Member.
Inductive Visibility := Private | VisTeam | VisOrganization | Public.

#[export] Instance GlobalRole_eq_dec : EqDecision GlobalRole.
Proof. solve_decision. Defined.
#[export] Instance OrgRole_eq_dec : EqDecision OrgRole.
Proof. solve_decision. Defined.
#[export] Instance TeamRole_eq_dec : EqDecision TeamRole.
Proof. solve_decision. Defined.
#[export] Instance Visibility_eq_dec : EqDecision Visibility.
Proof. solve_decision. Defined.

Definition OrgRole_has_permission_of (self other : OrgRole) : bool :=
  match self, other with
  | Org_Owner, _ => true
  | Org_Admin, Org_Admin | Org_Admin, Org_Member => true
  | Org_Member, Org_Member => true
  | _, _ => false
  end.

Definition TeamRole_has_permission_of (self other : TeamRole) : bool :=
  match self, other with
  | Maintainer, _ => true
  | Team_Member, Team_Member => true
  | _, _ => false
  end.

(** ** abac/types.rs *)
Record OrgMembershipAttr := mkOrgMembership {
  om_org_id : OrgId;
  om_role : OrgRole;
}.

Record TeamMembershipAttr := mkTeamMembership {
  tm_team_id : TeamId;
  tm_org_id : OrgId;
  tm_role : TeamRole;
}.

Record SubjectAttrs := mkSubject {
  user_id : UserId;
  org_memberships : list OrgMembershipAttr;
  team_memberships : list TeamMembershipAttr;
  global_roles : list GlobalRole;
}.

Inductive ResourceType :=
  Thread | Workspace | ToolResource | Organization | TeamResource | UserResource
| ApiKey | Llm | Weaver.

Inductive Action :=
  Read | Write | Delete | Share | UseTool | UseLlm | ManageOrg | ManageApiKeys
| ManageTeam | Impersonate.

#[export] Instance ResourceType_eq_dec : EqDecision ResourceType.
Proof. solve_decision. Defined.
#[export] Instance Action_eq_dec : EqDecision Action.
Proof. solve_decision. Defined.

Record ResourceAttrs := mkResource {
  resource_type : ResourceType;
  owner_user_id : option UserId;
  org_id : option OrgId;
  team_id : option TeamId;
  visibility : Visibility;
  is_shared_with_support : bool;
}.

Definition SubjectAttrs_new (u : UserId) : SubjectAttrs := mkSubject u [] [] [].

Definition has_global_role (s : SubjectAttrs) (r : GlobalRole) : bool :=
  existsb (fun x => bool_decide (x = r)) (global_roles s).
Definition is_system_admin (s : SubjectAttrs) : bool := has_global_role s SystemAdmin.
Definition is_support (s : SubjectAttrs) : bool := has_global_role s Support.
Definition is_auditor (s : SubjectAttrs) : bool := has_global_role s Auditor.

Definition org_role (s : SubjectAttrs) (o : OrgId) : option OrgRole :=
  om_role <$> List.find (fun m => bool_decide (om_org_id m = o)) (org_memberships s).
Definition is_org_member (s : SubjectAttrs) (o : OrgId) : bool :=
  match org_role s o with Some _ => true | None => false end.
Definition is_org_admin (s : SubjectAttrs) (o : OrgId) : bool :=
  match org_role s o with Some Org_Owner | Some Org_Admin => true | _ => false end.
Definition is_org_owner (s : SubjectAttrs) (o : OrgId) : bool :=
  match org_role s o with Some Org_Owner => true | _ => false end.

Definition team_role (s : SubjectAttrs) (t : TeamId) : option TeamRole :=
  tm_role <$> List.find (fun m => bool_decide (tm_team_id m = t)) (team_memberships s).
Definition is_team_member (s : SubjectAttrs) (t : TeamId) : bool :=
  match team_role s t with Some _ => true | None => false end.
Definition is_team_maintainer (s : SubjectAttrs) (t : TeamId) : bool :=
  match team_role s t with Some Maintainer => true | _ => false end.
Definition team_org_id (s : SubjectAttrs) (t : TeamId) : option OrgId :=
  tm_org_id <$> List.find (fun m => bool_decide (tm_team_id m = t)) (team_memberships s).

Definition ResourceAttrs_thread (owner : UserId) : ResourceAttrs :=
  mkResource Thread (Some owner) None None Private false.
Definition ResourceAttrs_organization (o : OrgId) : ResourceAttrs :=
  mkResource Organization None (Some o) None Private false.
Definition ResourceAttrs_team (t : TeamId) (o : OrgId) : ResourceAttrs :=
  mkResource TeamResource None (Some o) (Some t) Private false.
Definition ResourceAttrs_llm (o : OrgId) : ResourceAttrs :=
  mkResource Llm None (Some o) None Private false.
Definition ResourceAttrs_tool (o : OrgId) : ResourceAttrs :=
  mkResource ToolResource None (Some o) None Private false.
Definition ResourceAttrs_weaver (owner : UserId) : ResourceAttrs :=
  mkResource Weaver (Some owner) None None Private false.

Definition with_org (r : ResourceAttrs) (o : OrgId) : ResourceAttrs :=
  mkResource (resource_type r) (owner_user_id r) (Some o) (team_id r) (visibility r)
    (is_shared_with_support r).
Definition with_team (r : ResourceAttrs) (t : TeamId) : ResourceAttrs :=
  mkResource (resource_type r) (owner_user_id r) (org_id r) (Some t) (visibility r)
    (is_shared_with_support r).
Definition with_visibility (r : ResourceAttrs) (v : Visibility) : ResourceAttrs :=
  mkResource (resource_type r) (owner_user_id r) (org_id r) (team_id r) v
    (is_shared_with_support r).
Definition with_support_access (r : ResourceAttrs) (b : bool) : ResourceAttrs :=
  mkResource (resource_type r) (owner_user_id r) (org_id r) (team_id r) (visibility r) b.

(** [resource.owner_user_id.map(|id| id == subject.user_id).unwrap_or(false)] *)
Definition owned_by (s : SubjectAttrs) (r : ResourceAttrs) : bool :=
  match owner_user_id r with
  | Some o => bool_decide (o = user_id s)
  | None => false
  end.

(** ** policies/thread.rs *)
Definition thread_can_read (s : SubjectAttrs) (r : ResourceAttrs) : bool :=
  if is_shared_with_support r && is_support s then true
  else match visibility r with
       | Public => true
       | VisOrganization => match org_id r with Some o => is_org_member s o | None => false end
       | VisTeam => match team_id r with Some t => is_team_member s t | None => false end
       | Private => false
       end.

Definition thread_can_write (s : SubjectAttrs) (r : ResourceAttrs) : bool :=
  match org_id r with Some o => is_org_admin s o | None => false end.

Definition evaluate_thread (s : SubjectAttrs) (a : Action) (r : ResourceAttrs) : bool :=
  if owned_by s r then true
  else match a with
       | Read => thread_can_read s r
       | Write | Delete => thread_can_write s r
       | _ => false
       end.

(** ** policies/org.rs *)
Definition evaluate_org (s : SubjectAttrs) (a : Action) (r : ResourceAttrs) : bool :=
  match org_id r with
  | None => false
  | Some o =>
      match a with
      | Read => is_org_member s o
      | Delete => is_org_owner s o
      | ManageOrg | ManageApiKeys | Write => is_org_admin s o
      | _ => false
      end
  end.

Definition evaluate_api_key (s : SubjectAttrs) (a : Action) (r : ResourceAttrs) : bool :=
  match org_id r with
  | None => false
  | Some o =>
      match a with
      | Read | ManageApiKeys | Write | Delete => is_org_admin s o
      | _ => false
      end
  end.

Definition evaluate_team (s : SubjectAttrs) (a : Action) (r : ResourceAttrs) : bool :=
  match org_id r with
  | None => false
  | Some o =>
      match a with
      | Read =>
          if is_org_member s o then true
          else match team_id r with Some t => is_team_member s t | None => false end
      | ManageTeam | Write | Delete =>
          if is_org_admin s o then true
          else match team_id r with Some t => is_team_maintainer s t | None => false end
      | _ => false
      end
  end.

(** ** policies/llm.rs *)
Definition evaluate_llm (s : SubjectAttrs) (a : Action) (r : ResourceAttrs) : bool :=
  match org_id r with
  | None => false
  | Some o => match a with UseLlm | Read => is_org_member s o | _ => false end
  end.

Definition evaluate_tool (s : SubjectAttrs) (a : Action) (r : ResourceAttrs) : bool :=
  match org_id r with
  | None => false
  | Some o => match a with UseTool | Read => is_org_member s o | _ => false end
  end.

(** ** policies/weaver.rs *)
Definition evaluate_weaver (s : SubjectAttrs) (a : Action) (r : ResourceAttrs) : bool :=
  if is_system_admin s then true
  else if owned_by s r then true
  else is_support s && bool_decide (a = Read).

(** ** engine.rs *)
Definition check_global_roles (s : SubjectAttrs) (a : Action) (_ : ResourceAttrs) : bool :=
  if is_system_admin s then true
  else if is_auditor s then bool_decide (a = Read)
  else false.

Definition evaluate_workspace (s : SubjectAttrs) (a : Action) (r : ResourceAttrs) : bool :=
  if owned_by s r then true
  else match a with
       | Read => match org_id r with Some o => is_org_member s o | None => false end
       | Write | Delete => match org_id r with Some o => is_org_admin s o | None => false end
       | _ => false
       end.

Definition evaluate_user (s : SubjectAttrs) (a : Action) (r : ResourceAttrs) : bool :=
  match a with
  | Read => true
  | Write | Delete => owned_by s r
  | Impersonate => is_system_admin s
  | _ => false
  end.

Definition is_allowed (s : SubjectAttrs) (a : Action) (r : ResourceAttrs) : bool :=
  if check_global_roles s a r then true
  else match resource_type r with
       | Thread => evaluate_thread s a r
       | Organization => evaluate_org s a r
       | TeamResource => evaluate_team s a r
       | ApiKey => evaluate_api_key s a r
       | Llm => evaluate_llm s a r
       | ToolResource => evaluate_tool s a r
       | Workspace => evaluate_workspace s a r
       | UserResource => evaluate_user s a r
       | Weaver => evaluate_weaver s a r
       end.

(** * The permission rules, declaratively *)

(** What a subject can be to a resource. *)
Definition org_at_least (s : SubjectAttrs) (r : ResourceAttrs) (min : OrgRole) : Prop :=
  exists o role, org_id r = Some o /\ org_role s o = Some role /\
    OrgRole_has_permission_of role min = true.

Definition team_at_least (s : SubjectAttrs) (r : ResourceAttrs) (min : TeamRole) : Prop :=
  exists t role, team_id r = Some t /\ team_role s t = Some role /\
    TeamRole_has_permission_of role min = true.

(** One rule per line of the access rules: nothing else is granted. *)
Inductive grants (s : SubjectAttrs) (r : ResourceAttrs) : Action -> Prop :=
| grant_system_admin a : SystemAdmin ∈ global_roles s -> grants s r a
| grant_auditor : Auditor ∈ global_roles s -> grants s r Read
| grant_owner a :
    owner_user_id r = Some (user_id s) ->
    resource_type r ∈ [Thread; Workspace; Weaver] -> grants s r a
| grant_self a :
    resource_type r = UserResource -> owner_user_id r = Some (user_id s) ->
    a ∈ [Write; Delete] -> grants s r a
| grant_user_profile : resource_type r = UserResource -> grants s r Read
| grant_public_thread : resource_type r = Thread -> visibility r = Public -> grants s r Read
| grant_org_thread :
    resource_type r = Thread -> visibility r = VisOrganization ->
    org_at_least s r Org_Member -> grants s r Read
| grant_team_thread :
    resource_type r = Thread -> visibility r = VisTeam ->
    team_at_least s r Team_Member -> grants s r Read
| grant_support_thread :
    resource_type r = Thread -> is_shared_with_support r = true ->
    Support ∈ global_roles s -> grants s r Read
| grant_support_weaver :
    resource_type r = Weaver -> Support ∈ global_roles s -> grants s r Read
| grant_org_member a :
    org_at_least s r Org_Member ->
    (resource_type r, a) ∈ [(Workspace, Read); (Organization, Read); (TeamResource, Read);
      (Llm, UseLlm); (Llm, Read); (ToolResource, UseTool); (ToolResource, Read)] ->
    grants s r a
| grant_org_admin a :
    org_at_least s r Org_Admin ->
    (resource_type r, a) ∈ [(Thread, Write); (Thread, Delete); (Workspace, Write);
      (Workspace, Delete); (Organization, ManageOrg); (Organization, ManageApiKeys);
      (Organization, Write); (ApiKey, Read); (ApiKey, ManageApiKeys); (ApiKey, Write);
      (ApiKey, Delete); (TeamResource, ManageTeam); (TeamResource, Write);
      (TeamResource, Delete)] ->
    grants s r a
| grant_org_owner :
    org_at_least s r Org_Owner -> resource_type r = Organization -> grants s r Delete
| grant_team_member :
    resource_type r = TeamResource -> is_Some (org_id r) ->
    team_at_least s r Team_Member -> grants s r Read
| grant_team_maintainer a :
    resource_type r = TeamResource -> is_Some (org_id r) ->
    team_at_least s r Maintainer -> a ∈ [ManageTeam; Write; Delete] -> grants s r a.

Lemma has_global_role_spec s g : has_global_role s g = true <-> g ∈ global_roles s.
Proof.
  unfold has_global_role. rewrite existsb_spec, Exists_exists. split.
  - intros (x & Hx & ->%bool_decide_eq_true). done.
  - intros H. exists g. split; [done|]. by apply bool_decide_eq_true.
Qed.

Lemma owned_by_spec s r : owned_by s r = true <-> owner_user_id r = Some (user_id s).
Proof.
  unfold owned_by. destruct (owner_user_id r); [rewrite bool_decide_eq_true|]; naive_solver.
Qed.

(** The three tests on the organization role, read through [org_id]. *)
Lemma org_at_least_spec s r min :
  org_at_least s r min <->
  match org_id r with
  | Some o => match min with
              | Org_Member => is_org_member s o
              | Org_Admin => is_org_admin s o
              | Org_Owner => is_org_owner s o
              end
  | None => false
  end = true.
Proof.
  unfold org_at_least, is_org_member, is_org_admin, is_org_owner.
  destruct (org_id r) as [o|]; [|naive_solver].
  split.
  - intros (o' & role & [= <-] & -> & H). by destruct min, role.
  - destruct (org_role s o) as [role|] eqn:E; [|by destruct min].
    intros H. exists o, role. by destruct min, role.
Qed.

Lemma team_at_least_spec s r min :
  team_at_least s r min <->
  match team_id r with
  | Some t => match min with
              | Team_Member => is_team_member s t
              | Maintainer => is_team_maintainer s t
              end
  | None => false
  end = true.
Proof.
  unfold team_at_least, is_team_member, is_team_maintainer.
  destruct (team_id r) as [t|]; [|naive_solver].
  split.
  - intros (t' & role & [= <-] & -> & H). by destruct min, role.
  - destruct (team_role s t) as [role|] eqn:E; [|by destruct min].
    intros H. exists t, role. by destruct min, role.
Qed.

(** Membership in a closed list, by evaluation. *)
Ltac in_list := refine (bool_decide_eq_true_1 _ _); reflexivity.

(** Apply a rule that needs a role in the resource's organization. *)
Ltac grant_by_org rule Ht Ho :=
  eapply rule;
  [apply org_at_least_spec; rewrite Ho; assumption|first [rewrite Ht; in_list|exact Ht]].

Ltac grant_by_team rule Ht Ho Htm :=
  eapply rule;
  [exact Ht|rewrite Ho; eauto|apply team_at_least_spec; rewrite Htm; assumption|..];
  try in_list.

Lemma evaluate_thread_grants s a r :
  resource_type r = Thread -> evaluate_thread s a r = true -> grants s r a.
Proof.
  intros Ht. unfold evaluate_thread, thread_can_read, thread_can_write.
  destruct (owned_by s r) eqn:Hown.
  { intros _. apply grant_owner; [by apply owned_by_spec|rewrite Ht; in_list]. }
  destruct a; try done.
  - destruct (is_shared_with_support r && is_support s) eqn:Hs.
    + intros _. bool_hyps. apply grant_support_thread; [done..|]. by apply has_global_role_spec.
    + destruct (visibility r) eqn:Hv; [done| | |intros _; by apply grant_public_thread].
      * intros. apply grant_team_thread; [done..|]. by apply team_at_least_spec.
      * intros. apply grant_org_thread; [done..|]. by apply org_at_least_spec.
  - destruct (org_id r) as [o|] eqn:Ho; [|done]. intros. grant_by_org grant_org_admin Ht Ho.
  - destruct (org_id r) as [o|] eqn:Ho; [|done]. intros. grant_by_org grant_org_admin Ht Ho.
Qed.

Lemma evaluate_workspace_grants s a r :
  resource_type r = Workspace -> evaluate_workspace s a r = true -> grants s r a.
Proof.
  intros Ht. unfold evaluate_workspace. destruct (owned_by s r) eqn:Hown.
  { intros _. apply grant_owner; [by apply owned_by_spec|rewrite Ht; in_list]. }
  destruct (org_id r) as [o|] eqn:Ho; [|by destruct a].
  destruct a; try done; intros;
    [grant_by_org grant_org_member Ht Ho|grant_by_org grant_org_admin Ht Ho..].
Qed.

Lemma evaluate_team_grants s a r :
  resource_type r = TeamResource -> evaluate_team s a r = true -> grants s r a.
Proof.
  intros Ht. unfold evaluate_team. destruct (org_id r) as [o|] eqn:Ho; [|done].
  destruct a; try done.
  - destruct (is_org_member s o) eqn:Hm; [intros _; grant_by_org grant_org_member Ht Ho|].
    destruct (team_id r) eqn:Htm; [|done]. intros. grant_by_team grant_team_member Ht Ho Htm.
  - destruct (is_org_admin s o) eqn:Hm; [intros _; grant_by_org grant_org_admin Ht Ho|].
    destruct (team_id r) eqn:Htm; [|done]. intros. grant_by_team grant_team_maintainer Ht Ho Htm.
  - destruct (is_org_admin s o) eqn:Hm; [intros _; grant_by_org grant_org_admin Ht Ho|].
    destruct (team_id r) eqn:Htm; [|done]. intros. grant_by_team grant_team_maintainer Ht Ho Htm.
  - destruct (is_org_admin s o) eqn:Hm; [intros _; grant_by_org grant_org_admin Ht Ho|].
    destruct (team_id r) eqn:Htm; [|done]. intros. grant_by_team grant_team_maintainer Ht Ho Htm.
Qed.

(** The resource types whose policy only looks at the organization role. *)
Lemma evaluate_org_scoped_grants s a r :
  match resource_type r with
  | Organization => evaluate_org s a r
  | ApiKey => evaluate_api_key s a r
  | Llm => evaluate_llm s a r
  | ToolResource => evaluate_tool s a r
  | _ => false
  end = true -> grants s r a.
Proof.
  unfold evaluate_org, evaluate_api_key, evaluate_llm, evaluate_tool.
  destruct (resource_type r) eqn:Ht; try done;
    (destruct (org_id r) as [o|] eqn:Ho; [|done]); destruct a; try done; intros;
    first [grant_by_org grant_org_member Ht Ho|grant_by_org grant_org_admin Ht Ho
          |grant_by_org grant_org_owner Ht Ho].
Qed.

Lemma is_allowed_sound s a r : is_allowed s a r = true -> grants s r a.
Proof.
  unfold is_allowed, check_global_roles.
  destruct (is_system_admin s) eqn:Hadm.
  { intros _. by apply grant_system_admin, has_global_role_spec. }
  destruct (is_auditor s && bool_decide (a = Read)) eqn:Haud.
  { bool_hyps. subst. intros _. by apply grant_auditor, has_global_role_spec. }
  replace (if is_auditor s then bool_decide (a = Read) else false) with false
    by (by destruct (is_auditor s)).
  pose proof (evaluate_org_scoped_grants s a r) as Horg.
  destruct (resource_type r) eqn:Ht; auto using evaluate_thread_grants,
    evaluate_workspace_grants, evaluate_team_grants.
  - unfold evaluate_user. rewrite Hadm.
    destruct a; try done; intros;
      first [by apply grant_user_profile
            |apply grant_self; [done|by apply owned_by_spec|in_list]].
  - unfold evaluate_weaver. rewrite Hadm. destruct (owned_by s r) eqn:Hown.
    { intros _. apply grant_owner; [by apply owned_by_spec|rewrite Ht; in_list]. }
    intros. bool_hyps. subst. by apply grant_support_weaver, has_global_role_spec.
Qed.

(** Case analysis on membership in a closed list. *)
Ltac elem_cases H :=
  repeat (apply elem_of_cons in H as [H|H]); [..|by apply not_elem_of_nil in H].

Lemma is_allowed_complete s a r : grants s r a -> is_allowed s a r = true.
Proof.
  intros Hg. unfold is_allowed.
  destruct (check_global_roles s a r) eqn:Hroles; [done|].
  destruct Hg as [a Hadm|Haud|a Hown Ht|a Ht Hown Ha|Ht|Ht Hv|Ht Hv Ho|Ht Hv Htm|Ht Hsh Hs
    |Ht Hs|a Ho Ha|a Ho Ha|Ho Ht|Ht [o Hso] Htm|a Ht [o Hso] Htm Ha];
    rewrite ?org_at_least_spec, ?team_at_least_spec in *.
  - apply has_global_role_spec in Hadm. unfold check_global_roles, is_system_admin in Hroles.
    by rewrite Hadm in Hroles.
  - apply has_global_role_spec in Haud. unfold check_global_roles, is_auditor in Hroles.
    rewrite Haud in Hroles. by destruct (is_system_admin s).
  - apply owned_by_spec in Hown. elem_cases Ht; rewrite Ht;
      unfold evaluate_thread, evaluate_workspace, evaluate_weaver; rewrite Hown;
      by destruct (is_system_admin s).
  - apply owned_by_spec in Hown. elem_cases Ha; subst; by rewrite Ht.
  - by rewrite Ht.
  - rewrite Ht. unfold evaluate_thread, thread_can_read. rewrite Hv. by repeat case_match.
  - rewrite Ht. unfold evaluate_thread, thread_can_read. rewrite Hv. by repeat case_match.
  - rewrite Ht. unfold evaluate_thread, thread_can_read. rewrite Hv. by repeat case_match.
  - apply has_global_role_spec in Hs. rewrite Ht.
    unfold evaluate_thread, thread_can_read, is_support. rewrite Hsh, Hs. by repeat case_match.
  - apply has_global_role_spec in Hs. rewrite Ht.
    unfold evaluate_weaver, is_support. rewrite Hs. by repeat case_match.
  - destruct (org_id r) as [o|] eqn:Hso; [|done]. elem_cases Ha; injection Ha as -> ->;
      unfold evaluate_workspace, evaluate_org, evaluate_team, evaluate_llm, evaluate_tool;
      rewrite Hso, Ho; by repeat case_match.
  - destruct (org_id r) as [o|] eqn:Hso; [|done]. elem_cases Ha; injection Ha as -> ->;
      unfold evaluate_thread, thread_can_write, evaluate_workspace, evaluate_org,
        evaluate_api_key, evaluate_team;
      rewrite Hso, Ho; by repeat case_match.
  - destruct (org_id r) as [o|] eqn:Hso; [|done]. rewrite Ht. unfold evaluate_org.
    by rewrite Hso, Ho.
  - rewrite Ht. unfold evaluate_team. rewrite Hso. by repeat case_match.
  - rewrite Ht. unfold evaluate_team. rewrite Hso. elem_cases Ha; subst; by repeat case_match.
Qed.

Lemma is_allowed_spec s a r : is_allowed s a r = true <-> grants s r a.
Proof. split; [apply is_allowed_sound|apply is_allowed_complete]. Qed.

(** * Ordering subjects by privilege *)

Record subject_le (s s' : SubjectAttrs) : Prop := {
  le_user : user_id s' = user_id s;
  le_roles : global_roles s ⊆ global_roles s';
  le_org : forall o role, org_role s o = Some role ->
    exists role', org_role s' o = Some role' /\ OrgRole_has_permission_of role' role = true;
  le_team : forall t role, team_role s t = Some role ->
    exists role', team_role s' t = Some role' /\ TeamRole_has_permission_of role' role = true;
}.

Lemma OrgRole_perm_trans a b c :
  OrgRole_has_permission_of a b = true -> OrgRole_has_permission_of b c = true ->
  OrgRole_has_permission_of a c = true.
Proof. by destruct a, b, c. Qed.

Lemma TeamRole_perm_trans a b c :
  TeamRole_has_permission_of a b = true -> TeamRole_has_permission_of b c = true ->
  TeamRole_has_permission_of a c = true.
Proof. by destruct a, b, c. Qed.

#[export] Instance subject_le_preorder : PreOrder subject_le.
Proof.
  split.
  - intros s. split; [done|done|..]; intros x role Hx; exists role; by destruct role.
  - intros s1 s2 s3 [Hu1 Hr1 Ho1 Ht1] [Hu2 Hr2 Ho2 Ht2]. split.
    + congruence.
    + by etrans.
    + intros o role (r2 & H2 & Hp2)%Ho1. destruct (Ho2 _ _ H2) as (r3 & H3 & Hp3).
      exists r3. split; [done|]. by eapply OrgRole_perm_trans.
    + intros t role (r2 & H2 & Hp2)%Ht1. destruct (Ht2 _ _ H2) as (r3 & H3 & Hp3).
      exists r3. split; [done|]. by eapply TeamRole_perm_trans.
Qed.

Lemma org_at_least_mono s s' r min :
  subject_le s s' -> org_at_least s r min -> org_at_least s' r min.
Proof.
  intros Hle (o & role & Ho & Hr & Hp).
  destruct (le_org _ _ Hle _ _ Hr) as (role' & Hr' & Hp').
  exists o, role'. eauto using OrgRole_perm_trans.
Qed.

Lemma team_at_least_mono s s' r min :
  subject_le s s' -> team_at_least s r min -> team_at_least s' r min.
Proof.
  intros Hle (t & role & Ht & Hr & Hp).
  destruct (le_team _ _ Hle _ _ Hr) as (role' & Hr' & Hp').
  exists t, role'. eauto using TeamRole_perm_trans.
Qed.

#[export] Instance grants_mono :
  Proper (subject_le ==> eq ==> eq ==> impl) grants.
Proof.
  intros s s' Hle r _ <- a _ <- Hg.
  pose proof (fun min => org_at_least_mono s s' r min Hle) as Ho.
  pose proof (fun min => team_at_least_mono s s' r min Hle) as Ht.
  destruct Hle as [Hu Hr _ _]. destruct Hg.
  - by apply grant_system_admin, Hr.
  - by apply grant_auditor, Hr.
  - apply grant_owner; [by rewrite Hu|done].
  - apply grant_self; [done|by rewrite Hu|done].
  - by apply grant_user_profile.
  - by apply grant_public_thread.
  - apply grant_org_thread; auto.
  - apply grant_team_thread; auto.
  - apply grant_support_thread; auto.
  - apply grant_support_weaver; auto.
  - apply grant_org_member; auto.
  - apply grant_org_admin; auto.
  - apply grant_org_owner; auto.
  - apply grant_team_member; auto.
  - apply grant_team_maintainer; auto.
Qed.

Lemma grants_le s s' r a : subject_le s s' -> grants s r a -> grants s' r a.
Proof. intros Hle Hg. by rewrite Hle in Hg. Qed.

(** * Properties *)

(** C6. The engine grants exactly the access rules: [is_allowed] holds if and
    only if one of the rules of [grants] applies (global roles, ownership,
    visibility, support sharing, organization and team roles per resource type);
    everything else is denied.  The rules are those of the code: only owners, not admins,
    delete an organization, and auditors read every resource. *)
Theorem is_allowed_iff_granted s a r : is_allowed s a r = true <-> grants s r a.
Proof. apply is_allowed_spec. Qed.

(** An admin who is not an owner may not delete the organization. *)
Lemma admins_cannot_delete_org s r o : resource_type r = Organization -> org_id r = Some o ->
  global_roles s = [] -> org_role s o = Some Org_Admin -> is_allowed s Delete r = false.
Proof.
  intros Ht Ho Hg Hr. unfold is_allowed, check_global_roles, is_system_admin, is_auditor, has_global_role.
  rewrite Ht, Hg. cbn. unfold evaluate_org, is_org_owner. by rewrite Ho, Hr.
Qed.

(** More privilege never loses access: for the same user, adding global
    roles, adding memberships or raising a role in an organization or team never
    turns an allowed action into a denied one. *)
Theorem is_allowed_monotone s s' a r :
  subject_le s s' -> is_allowed s a r = true -> is_allowed s' a r = true.
Proof.
  intros Hle Ha%is_allowed_sound. by eapply is_allowed_complete, grants_le.
Qed.

(** C7. Tenant isolation: a subject without global roles who neither owns the
    resource nor belongs to its organization or team can only read a user
    profile or a public thread. *)
Theorem outsider_isolated s a r :
  global_roles s = [] -> owner_user_id r <> Some (user_id s) ->
  (forall o, org_id r = Some o -> org_role s o = None) ->
  (forall t, team_id r = Some t -> team_role s t = None) ->
  is_allowed s a r =
    bool_decide (a = Read) &&
    (bool_decide (resource_type r = UserResource) ||
     bool_decide (resource_type r = Thread) && bool_decide (visibility r = Public)).
Proof.
  intros Hg Hown Horg Hteam. apply eq_true_iff_eq.
  rewrite andb_true_iff, orb_true_iff, andb_true_iff, !bool_decide_eq_true.
  assert (forall min, ~ org_at_least s r min) as Hno.
  { intros min (o & role & Ho & Hr & _). by rewrite Horg in Hr. }
  assert (forall min, ~ team_at_least s r min) as Hnt.
  { intros min (t & role & Ht & Hr & _). by rewrite Hteam in Hr. }
  split.
  - intros Ha%is_allowed_sound. destruct Ha; try (by rewrite Hg in *; set_solver);
      try (exfalso; eapply Hno; eassumption); try (exfalso; eapply Hnt; eassumption);
      try done; auto.
  - intros [-> [Ht|[Ht Hv]]]; apply is_allowed_complete;
      [by apply grant_user_profile|by apply grant_public_thread].
Qed.

Definition with_role (g : GlobalRole) (s : SubjectAttrs) : SubjectAttrs :=
  mkSubject (user_id s) (org_memberships s) (team_memberships s) (g :: global_roles s).

(** The auditor and support roles are read-only: giving either role to any
    subject changes the decision of no action but [Read]; an auditor reads
    everything, and support gains reads only on weavers and on threads shared
    with support. *)
Theorem auditor_support_read_only s a r :
  (a <> Read -> is_allowed (with_role Auditor s) a r = is_allowed s a r /\
                is_allowed (with_role Support s) a r = is_allowed s a r) /\
  is_allowed (with_role Auditor s) Read r = true /\
  (is_allowed (with_role Support s) Read r = true <->
   is_allowed s Read r = true \/ resource_type r = Weaver \/
   (resource_type r = Thread /\ is_shared_with_support r = true)).
Proof.
  assert (forall g, subject_le s (with_role g s)) as Hle.
  { intros g. split; [done|set_solver|..]; intros x role Hx; exists role;
      (split; [exact Hx|by destruct role]). }
  assert (forall g b, grants (with_role g s) r b -> g <> SystemAdmin ->
    grants s r b \/ b = Read /\ (g = Auditor \/ g = Support /\ (resource_type r = Weaver \/
      resource_type r = Thread /\ is_shared_with_support r = true))) as Hinv.
  { intros g b Hb Hg. destruct Hb; try (by left; eauto using grants);
      cbn in *; set_unfold; naive_solver eauto using grants. }
  repeat split.
  - apply eq_true_iff_eq. rewrite !is_allowed_spec. split.
    + intros [?|[? _]]%Hinv; done.
    + apply grants_le, Hle.
  - apply eq_true_iff_eq. rewrite !is_allowed_spec. split.
    + intros [?|[? _]]%Hinv; done.
    + apply grants_le, Hle.
  - apply is_allowed_complete, grant_auditor. set_solver.
  - rewrite !is_allowed_spec. intros Hb%Hinv; [|done]. naive_solver.
  - rewrite !is_allowed_spec. intros [?|[?|[??]]].
    + by eapply grants_le; [apply Hle|].
    + apply grant_support_weaver; [done|set_solver].
    + apply grant_support_thread; [done..|set_solver].
Qed.

(** ** Witnesses *)

Definition demo_member : SubjectAttrs := mkSubject 1%N [mkOrgMembership 10%N Org_Member] [] [].
Definition demo_owner : SubjectAttrs :=
  mkSubject 1%N [mkOrgMembership 10%N Org_Owner] [] [Support].

Lemma is_allowed_monotone_witness :
  is_allowed demo_owner Read (ResourceAttrs_organization 10%N) = true.
Proof.
  refine (is_allowed_monotone demo_member demo_owner Read _ _ _); [|reflexivity].
  split; [reflexivity|set_solver|..].
  - intros o role H. unfold org_role in *. cbn in *.
    case_bool_decide; simplify_eq/=. by exists Org_Owner.
  - done.
Defined.

Lemma outsider_isolated_witness :
  is_allowed (SubjectAttrs_new 2%N) Read (with_visibility (ResourceAttrs_thread 1%N) Public) = true /\
  is_allowed (SubjectAttrs_new 2%N) Read (ResourceAttrs_thread 1%N) = false.
Proof.
  split.
  - refine (outsider_isolated (SubjectAttrs_new 2%N) Read _ _ _ _ _); done.
  - refine (outsider_isolated (SubjectAttrs_new 2%N) Read (ResourceAttrs_thread 1%N) _ _ _ _); done.
Defined.
