(* ===== verification/AuthContext.v ===== *)
(** Authentication context, [crates/loom-server-auth/src/middleware.rs]: the
    current user, the request's context, the configuration read from the
    environment and the extraction of credentials from the request headers. *)
From stdpp Require Import base list strings.
From Stdlib Require Import Ascii.
From S2P Require Import Prelude CoreTypes Abac.

(** [User] (user.rs); timestamps are numbers. *)
Record User := mkUser {
  u_id : UserId;
  display_name : string;
  username : option string;
  primary_email : option string;
  avatar_url : option string;
  email_visible : bool;
  u_is_system_admin : bool;
  u_is_support : bool;
  u_is_auditor : bool;
  u_created_at : Z;
  u_updated_at : Z;
  u_deleted_at : option Z;
  locale : option string;
}.

Record CurrentUser := mkCurrentUser {
  cu_user : User;
  session_id : option Uuid;
  api_key_id : option Uuid;
  impersonating_as : option UserId;
}.

Definition from_session (u : User) (sid : Uuid) : CurrentUser :=
  mkCurrentUser u (Some sid) None None.
Definition from_api_key (u : User) (kid : Uuid) : CurrentUser :=
  mkCurrentUser u None (Some kid) None.
Definition from_access_token (u : User) : CurrentUser := mkCurrentUser u None None None.
Definition with_impersonation (cu : CurrentUser) (target : UserId) : CurrentUser :=
  mkCurrentUser (cu_user cu) (session_id cu) (api_key_id cu) (Some target).
Definition is_impersonating (cu : CurrentUser) : bool :=
  match impersonating_as cu with Some _ => true | None => false end.
Definition effective_user_id (cu : CurrentUser) : UserId :=
  match impersonating_as cu with Some u => u | None => u_id (cu_user cu) end.
Definition actor_user_id (cu : CurrentUser) : UserId := u_id (cu_user cu).
Definition is_session_auth (cu : CurrentUser) : bool :=
  match session_id cu with Some _ => true | None => false end.
Definition is_api_key_auth (cu : CurrentUser) : bool :=
  match api_key_id cu with Some _ => true | None => false end.

Record AuthContext := mkAuthContext {
  is_authenticated : bool;
  current_user : option CurrentUser;
}.

Definition AuthContext_unauthenticated : AuthContext := mkAuthContext false None.
Definition AuthContext_authenticated (cu : CurrentUser) : AuthContext :=
  mkAuthContext true (Some cu).

Inductive AuthRequired := AuthRequiredError.
Definition require_user (ctx : AuthContext) : result AuthRequired CurrentUser :=
  ok_or AuthRequiredError (current_user ctx).

(** ** Configuration *)

Definition SESSION_COOKIE_NAME : string := "loom_session".

Record AuthConfig := mkAuthConfig {
  dev_mode : bool;
  session_cookie_name : string;
  signups_disabled : bool;
}.

Definition AuthConfig_default : AuthConfig := mkAuthConfig false SESSION_COOKIE_NAME false.

(** [AuthConfig::from_env] on the values of [LOOM_SERVER_AUTH_DEV_MODE] and
    [LOOM_SERVER_ENV].  The values compared to are ASCII letters; no other
    character lowercases to them in [str::to_lowercase] but the Kelvin sign,
    which is not in ["true"] or ["production"]. *)
Definition AuthConfig_from_env (dev_mode_var env_var : option string) : run AuthConfig :=
  let dev_mode :=
    match dev_mode_var with
    | Some v => bool_decide (v = "1") || bool_decide (to_ascii_lowercase v = "true")
    | None => false
    end in
  let loom_env := match env_var with Some v => v | None => "" end in
  if dev_mode && bool_decide (to_ascii_lowercase loom_env = "production") then Panic
  else Done (mkAuthConfig dev_mode SESSION_COOKIE_NAME false).

(** ** Credentials in the headers

    A header is the string [HeaderValue::to_str] gives: [None] when the header
    is absent or holds a byte outside visible ASCII and tab, so that [trim]
    removes spaces and tabs only. *)

Definition extract_session_cookie_with_name (cookie_header : option string)
    (cookie_name : string) : option string :=
  header ← cookie_header;
  find_map (fun cookie =>
    '(name, value) ← split_once "="%char (trim_ascii cookie);
    if bool_decide (name = cookie_name) then Some value else None)
    (split_on ";"%char header).

Definition extract_session_cookie (cookie_header : option string) : option string :=
  extract_session_cookie_with_name cookie_header SESSION_COOKIE_NAME.

Definition extract_bearer_token (auth_header : option string) : option string :=
  auth_str ← auth_header; strip_prefix "Bearer " auth_str.

Definition API_KEY_PREFIX : string := "lk_".
Definition ACCESS_TOKEN_PREFIX : string := "lt_".
Definition WS_TOKEN_PREFIX : string := "ws_".

Definition is_api_key_token (t : string) : bool := starts_with t API_KEY_PREFIX.
Definition is_access_token (t : string) : bool := starts_with t ACCESS_TOKEN_PREFIX.
Definition is_ws_token (t : string) : bool := starts_with t WS_TOKEN_PREFIX.

Inductive BearerTokenType := TokenApiKey | TokenAccessToken | TokenWsToken | TokenUnknown.

Definition identify_bearer_token (t : string) : BearerTokenType :=
  if is_api_key_token t then TokenApiKey
  else if is_access_token t then TokenAccessToken
  else if is_ws_token t then TokenWsToken
  else TokenUnknown.

(** * Properties *)

(** A cookie as a client writes it: blanks around [name=value]. *)
Record cookie := mkCookie {
  pad_left : string;
  cookie_name : string;
  cookie_value : string;
  pad_right : string;
}.

Definition cookie_text (c : cookie) : string :=
  pad_left c +:+ (cookie_name c +:+ String "="%char (cookie_value c)) +:+ pad_right c.

(** Well-formed: blank padding, no [;] anywhere, no [=] in the name, and neither
    a leading blank in the name nor a trailing one in the value. *)
Definition cookie_ok (c : cookie) : bool :=
  str_all is_blank (pad_left c) && str_all is_blank (pad_right c) &&
  str_all (fun x => bool_decide (x <> ";"%char)) (cookie_text c) &&
  str_all (fun x => bool_decide (x <> "="%char)) (cookie_name c) &&
  bool_decide (trim_start (cookie_name c) = cookie_name c) &&
  bool_decide (trim_end (cookie_value c) = cookie_value c).

Lemma split_cookie_text c :
  cookie_ok c = true ->
  split_once "="%char (trim_ascii (cookie_text c)) = Some (cookie_name c, cookie_value c).
Proof.
  unfold cookie_ok. intros. bool_hyps. unfold cookie_text, trim_ascii.
  rewrite trim_start_app, trim_start_app_id, trim_end_app, trim_end_snoc by done.
  by apply split_once_app.
Qed.

(** The session cookie is found where the client put it: in a [Cookie]
    header made of any well-formed cookies separated by semicolons, whatever the
    blanks around them, [extract_session_cookie_with_name] returns the value of
    the first cookie with that exact name, and nothing if there is none. *)
Theorem session_cookie_roundtrip (cs : list cookie) (name : string) :
  cs <> [] -> forallb cookie_ok cs = true ->
  extract_session_cookie_with_name (Some (join_with ";"%char (cookie_text <$> cs))) name =
  cookie_value <$> List.find (fun c => bool_decide (cookie_name c = name)) cs.
Proof.
  intros Hne Hok%forallb_spec. unfold extract_session_cookie_with_name. cbn [mbind option_bind].
  rewrite split_on_join_with.
  - clear Hne. induction Hok as [|c cs Hc Hok IH]; [done|]. cbn [fmap list_fmap find_map List.find].
    rewrite (split_cookie_text c Hc). cbn [mbind option_bind].
    case_bool_decide; [done|apply IH].
  - by destruct cs.
  - apply Forall_fmap. eapply Forall_impl; [exact Hok|]. unfold cookie_ok. intros c Hc.
    bool_hyps. done.
Qed.

Lemma session_cookie_roundtrip_witness :
  extract_session_cookie (Some "theme=dark; loom_session=abc=1 ;x=") = Some "abc=1".
Proof.
  exact (session_cookie_roundtrip
    [mkCookie "" "theme" "dark" ""; mkCookie " " "loom_session" "abc=1" " "; mkCookie "" "x" "" ""]
    SESSION_COOKIE_NAME ltac:(done) ltac:(vm_compute; reflexivity)).
Defined.
