(* ===== verification/AbacMiddleware.v ===== *)
(** Route and handler authorization, [crates/loom-server/src/abac_middleware.rs]:
    the two route layers, the construction of subject attributes from the
    database, the resource builders and [check_authorization]. *)
From stdpp Require Import base list strings sets.
From S2P Require Import Prelude CoreTypes Abac AuthContext.

(** ** Subject attributes *)

Definition push_global_roles (u : User) : list GlobalRole :=
  (if u_is_system_admin u then [SystemAdmin] else []) ++
  (if u_is_support u then [Support] else []) ++
  (if u_is_auditor u then [Auditor] else []).

Definition build_subject_attrs_sync (cu : CurrentUser) : SubjectAttrs :=
  mkSubject (u_id (cu_user cu)) [] [] (push_global_roles (cu_user cu)).

(** What the organization and team repositories answer; a database error is
    [None].  Of an [Organization] the code reads the id, of a [Team] the id and
    the organization. *)
Record Repositories := mkRepositories {
  list_orgs_for_user : UserId -> option (list OrgId);
  get_membership : OrgId -> UserId -> option (option OrgMembershipAttr);
  get_teams_for_user : UserId -> option (list (TeamId * OrgId * TeamRole));
}.

(** The loop over the listed organizations. *)
Definition collect_memberships (db : Repositories) (u : UserId) (orgs : list OrgId)
    : list OrgMembershipAttr :=
  omap (fun o => match get_membership db o u with
                 | Some (Some m) => Some (mkOrgMembership (om_org_id m) (om_role m))
                 | _ => None
                 end) orgs.

Definition build_subject_attrs (cu : CurrentUser) (db : Repositories) : SubjectAttrs :=
  let u := u_id (cu_user cu) in
  mkSubject u
    (match list_orgs_for_user db u with
     | Some orgs => collect_memberships db u orgs
     | None => []
     end)
    (match get_teams_for_user db u with
     | Some teams => (fun '(t, o, role) => mkTeamMembership t o role) <$> teams
     | None => []
     end)
    (push_global_roles (cu_user cu)).

(** ** Route layers *)

(** [RequireCapabilityFuture] and [RequireRoleFuture]: the response made by the
    layer, or the call of the inner service. *)
Inductive RouteDecision :=
| Rejected (status : Z) (error message : string)
| Inner.

Definition unauthorized_response : RouteDecision :=
  Rejected 401 "unauthorized" "Authentication required".
Definition forbidden_response : RouteDecision :=
  Rejected 403 "forbidden" "Insufficient permissions".

Definition context_of (ext : option AuthContext) : AuthContext :=
  match ext with Some ctx => ctx | None => AuthContext_unauthenticated end.

(** [RequireCapabilityService::call] on the request's [AuthContext] extension. *)
Definition require_capability_call (action : Action) (rt : ResourceType)
    (ext : option AuthContext) : RouteDecision :=
  match current_user (context_of ext) with
  | None => unauthorized_response
  | Some cu =>
      let subject := build_subject_attrs_sync cu in
      let resource := mkResource rt None None None Private false in
      if negb (is_allowed subject action resource) then forbidden_response else Inner
  end.

Record RequireRole := mkRequireRole {
  require_admin : bool;
  require_support : bool;
  require_auditor : bool;
}.

Definition RequireRole_new : RequireRole := mkRequireRole false false false.
Definition RequireRole_admin : RequireRole := mkRequireRole true false false.
Definition RequireRole_support : RequireRole := mkRequireRole false true false.
Definition RequireRole_auditor : RequireRole := mkRequireRole false false true.
Definition RequireRole_admin_or_support : RequireRole := mkRequireRole true true false.
Definition RequireRole_admin_or_auditor : RequireRole := mkRequireRole true false true.

Definition require_role_call (rr : RequireRole) (ext : option AuthContext) : RouteDecision :=
  match current_user (context_of ext) with
  | None => unauthorized_response
  | Some cu =>
      let u := cu_user cu in
      let role_satisfied :=
        (require_admin rr && u_is_system_admin u)
        || (require_support rr && u_is_support u)
        || (require_auditor rr && u_is_auditor u)
        || (negb (require_admin rr) && negb (require_support rr) && negb (require_auditor rr)) in
      if negb role_satisfied then forbidden_response else Inner
  end.

(** ** Resource builders and the handler-level check *)

Definition org_resource (o : OrgId) (v : Visibility) : ResourceAttrs :=
  mkResource Organization None (Some o) None v false.
Definition team_resource (t : TeamId) (o : OrgId) : ResourceAttrs :=
  mkResource TeamResource None (Some o) (Some t) Private false.
Definition thread_resource (owner : UserId) (v : Visibility) (o : option OrgId) : ResourceAttrs :=
  mkResource Thread (Some owner) o None v false.
Definition user_resource (u : UserId) : ResourceAttrs :=
  mkResource UserResource (Some u) None None Private false.

Record AuthorizationError := mkAuthorizationError { ae_error : string; ae_message : string }.
Definition AuthorizationError_forbidden (msg : string) : AuthorizationError :=
  mkAuthorizationError "forbidden" msg.

Definition check_authorization (s : SubjectAttrs) (a : Action) (r : ResourceAttrs)
    : result AuthorizationError unit :=
  if is_allowed s a r then Ok tt
  else Err (AuthorizationError_forbidden "Insufficient permissions").

(** * Properties *)

Lemma push_global_roles_spec u g :
  g ∈ push_global_roles u <->
  match g with
  | SystemAdmin => u_is_system_admin u
  | Support => u_is_support u
  | Auditor => u_is_auditor u
  end = true.
Proof.
  unfold push_global_roles.
  destruct (u_is_system_admin u), (u_is_support u), (u_is_auditor u), g; set_solver.
Qed.

(** Without organization and team, role rules never apply. *)
Lemma grants_detached s rt a :
  grants s (mkResource rt None None None Private false) a <->
  SystemAdmin ∈ global_roles s \/
  (a = Read /\ (Auditor ∈ global_roles s \/ rt = UserResource \/
                (rt = Weaver /\ Support ∈ global_roles s))).
Proof.
  split.
  - intros Hg. remember (mkResource rt None None None Private false) as r eqn:Hr.
    assert (forall min, ~ org_at_least s r min) as Ho.
    { intros min (o & ? & H & _). by rewrite Hr in H. }
    assert (forall min, ~ team_at_least s r min) as Ht.
    { intros min (o & ? & H & _). by rewrite Hr in H. }
    destruct Hg; try (by subst; auto 6); try (by exfalso; eapply Ho); try (by exfalso; eapply Ht).
  - intros [?|[-> [?|[->|[-> ?]]]]].
    + by apply grant_system_admin.
    + by apply grant_auditor.
    + by apply grant_user_profile.
    + by apply grant_support_weaver.
Qed.

(** What the capability layer lets through: a request without an
    authenticated user is answered 401; any other request reaches the inner
    service exactly when the user is a system administrator, or the layer asks
    for [Read] and the user is an auditor, or the resource type is users, or it
    is weavers and the user has the support role; every other request is
    answered 403.  Organization and team roles play no part in the decision. *)
Theorem require_capability_spec action rt ext :
  match current_user (context_of ext) with
  | None => require_capability_call action rt ext = unauthorized_response
  | Some cu =>
      let u := cu_user cu in
      require_capability_call action rt ext =
      if u_is_system_admin u ||
         bool_decide (action = Read) &&
           (u_is_auditor u || bool_decide (rt = UserResource) ||
            bool_decide (rt = Weaver) && u_is_support u)
      then Inner else forbidden_response
  end.
Proof.
  unfold require_capability_call.
  destruct (current_user (context_of ext)) as [cu|]; [|done]. cbn zeta.
  match goal with |- context [negb ?x] => set (allowed := x) end.
  match goal with |- _ = (if ?x then _ else _) => enough (allowed = x) as ->; [by destruct x|] end.
  apply eq_true_iff_eq. unfold allowed.
  rewrite is_allowed_spec, grants_detached. cbn [build_subject_attrs_sync global_roles].
  rewrite !push_global_roles_spec, orb_true_iff, andb_true_iff, !orb_true_iff, andb_true_iff,
    !bool_decide_eq_true. tauto.
Qed.

(** ** Database failures *)

(** [db] answers as [db'] does, except that some queries fail. *)
Record more_failures (db db' : Repositories) : Prop := {
  mf_orgs : forall u, list_orgs_for_user db u = None \/
    list_orgs_for_user db u = list_orgs_for_user db' u;
  mf_membership : forall o u, get_membership db o u = None \/
    get_membership db o u = get_membership db' o u;
  mf_teams : forall u, get_teams_for_user db u = None \/
    get_teams_for_user db u = get_teams_for_user db' u;
}.

(** A membership row is for the organization it was asked for
    ([SELECT ... WHERE org_id = ? AND user_id = ?]). *)
Definition membership_rows_match (db : Repositories) : Prop :=
  forall o u m, get_membership db o u = Some (Some m) -> om_org_id m = o.

(** The role the subject gets in an organization. *)
Lemma collect_memberships_role db u orgs s o role :
  membership_rows_match db -> org_memberships s = collect_memberships db u orgs ->
  org_role s o = Some role <->
  o ∈ orgs /\ exists m, get_membership db o u = Some (Some m) /\ om_role m = role.
Proof.
  unfold org_role. intros Hrows ->. induction orgs as [|o' orgs IH]; [set_solver|].
  rewrite elem_of_cons. unfold collect_memberships in *. cbn [omap list_omap].
  destruct (get_membership db o' u) as [[m|]|] eqn:Hm.
  - pose proof (Hrows _ _ _ Hm) as Ho. cbn [List.find om_org_id]. rewrite Ho.
    case_bool_decide as Heq; [rewrite Heq in Hm|].
    + cbn [fmap option_fmap option_map om_role]. split.
      * intros [= <-]. split; [by left|]. by exists m.
      * intros (_ & m' & Hm' & <-). congruence.
    + rewrite IH. naive_solver.
  - rewrite IH. split; [naive_solver|]. intros ([->|?] & m & ? & ?); [congruence|eauto].
  - rewrite IH. split; [naive_solver|]. intros ([->|?] & m & ? & ?); [congruence|eauto].
Qed.

Lemma more_failures_subject_le cu db db' :
  membership_rows_match db' -> more_failures db db' ->
  subject_le (build_subject_attrs cu db) (build_subject_attrs cu db').
Proof.
  intros Hrows' [Horgs Hmem Hteams].
  assert (membership_rows_match db) as Hrows.
  { intros o u m Hm. destruct (Hmem o u) as [E|E]; [congruence|]. apply (Hrows' o u). congruence. }
  set (u := u_id (cu_user cu)). split; [done|done|..].
  - intros o role Hr. destruct (Horgs u) as [E|E].
    { unfold org_role, build_subject_attrs in Hr. cbn in Hr. unfold u in E. by rewrite E in Hr. }
    destruct (list_orgs_for_user db u) as [orgs|] eqn:Hl.
    2:{ unfold org_role, build_subject_attrs in Hr. cbn in Hr. unfold u in Hl. by rewrite Hl in Hr. }
    rewrite (collect_memberships_role db u orgs) in Hr; [|done|cbn; unfold u in Hl; by rewrite Hl].
    destruct Hr as (Hin & m & Hm & <-). exists (om_role m). split; [|by destruct (om_role m)].
    apply (collect_memberships_role db' u orgs); [done|cbn; unfold u in E; by rewrite <-E|].
    destruct (Hmem o u); [congruence|]. split; [done|]. exists m. split; congruence.
  - intros t role Hr. exists role. split; [|by destruct role].
    unfold team_role, build_subject_attrs in *. cbn in *. fold u in Hr |- *.
    destruct (Hteams u) as [E|E]; [by rewrite E in Hr|by rewrite <-E].
Qed.

(** C8. Authorization fails closed: if some repository queries fail while the
    subject's attributes are built, every action the handler check then accepts
    is one it accepts when all queries succeed, and a refused request is
    answered with the same error. *)
Theorem failed_queries_never_grant cu db db' a r :
  membership_rows_match db' -> more_failures db db' ->
  check_authorization (build_subject_attrs cu db) a r =
    check_authorization (build_subject_attrs cu db') a r \/
  check_authorization (build_subject_attrs cu db) a r =
    Err (AuthorizationError_forbidden "Insufficient permissions").
Proof.
  intros Hrows Hmf. pose proof (more_failures_subject_le cu db db' Hrows Hmf) as Hle.
  unfold check_authorization.
  destruct (is_allowed (build_subject_attrs cu db) a r) eqn:E; [|by right]. left.
  apply is_allowed_sound in E. rewrite Hle in E. by rewrite (is_allowed_complete _ _ _ E).
Qed.

(** ** Witnesses *)

Definition demo_user : CurrentUser := from_access_token
  (mkUser 1%N "Ada" None None None false false false false 0 0 None None).
Definition demo_db : Repositories := {|
  list_orgs_for_user := fun _ => Some [10%N];
  get_membership := fun o _ =>
    Some (if bool_decide (o = 10%N) then Some (mkOrgMembership 10%N Org_Admin) else None);
  get_teams_for_user := fun _ => Some [(7%N, 10%N, Maintainer)];
|}.
Definition failing_db : Repositories := {|
  list_orgs_for_user := fun _ => Some [10%N];
  get_membership := fun _ _ => None;
  get_teams_for_user := fun _ => Some [(7%N, 10%N, Maintainer)];
|}.

Lemma failed_queries_never_grant_witness :
  check_authorization (build_subject_attrs demo_user demo_db) Write
    (org_resource 10%N Private) = Ok tt /\
  (check_authorization (build_subject_attrs demo_user failing_db) Write
     (org_resource 10%N Private) =
   check_authorization (build_subject_attrs demo_user demo_db) Write (org_resource 10%N Private) \/
   check_authorization (build_subject_attrs demo_user failing_db) Write
     (org_resource 10%N Private) =
   Err (AuthorizationError_forbidden "Insufficient permissions")).
Proof.
  split; [reflexivity|]. apply failed_queries_never_grant.
  - intros o u m. cbn. case_bool_decide; [|done]. intros [= <-]. done.
  - split; cbn; auto.
Defined.
