(* ===== verification/FlagCore.v ===== *)
(** Feature flags, [crates/loom-flags-core]: flags and variants (flag.rs),
    rollout strategies and their operators (strategy.rs), kill switches
    (kill_switch.rs), environments (environment.rs), evaluation contexts and
    results (evaluation.rs) and the events of the update stream (sse.rs).
    Timestamps are numbers; [Utc::now()] is an argument. *)
From stdpp Require Import base list strings gmap.
From Stdlib Require Import ZArith Ascii SpecFloat.
From S2P Require Import Prelude CoreTypes.

Local Open Scope Z_scope.

(** [chrono::DateTime<Utc>]. *)
Definition DateTime := Z.

(** [f64]: 53 bits of precision, exponents below 1024. *)
Definition f64 := spec_float.
Definition f64_lt (a b : f64) : bool := SFltb a b.
Definition f64_le (a b : f64) : bool := SFleb a b.
(** [usize as f64]. *)
Definition f64_of_usize (n : Z) : f64 := binary_normalize 53 1024 n 0 false.

(** What the flag code uses of [serde_json::Value]: equality and the accessors
    [as_str], [as_array] and [as_f64]. *)
Class JsonValue := {
  json :: SerdeJson;
  json_eqb : Json -> Json -> bool;
  json_as_str : Json -> option string;
  json_as_array : Json -> option (list Json);
  json_as_f64 : Json -> option f64;
}.

Section FlagCore.
Context `{JV : JsonValue}.

(** ** flag.rs *)
Definition FlagId := Uuid.
Definition FlagConfigId := Uuid.
Definition FlagOrgId := Uuid.
Definition FlagUserId := Uuid.
Definition EnvironmentId := Uuid.
Definition StrategyId := Uuid.
Definition KillSwitchId := Uuid.

Inductive VariantValue :=
| VBoolean (b : bool)
| VString (s : string)
| VJson (j : Json).

Definition as_bool (v : VariantValue) : option bool :=
  match v with VBoolean b => Some b | _ => None end.
Definition as_str (v : VariantValue) : option string :=
  match v with VString s => Some s | _ => None end.
Definition as_json (v : VariantValue) : option Json :=
  match v with VJson j => Some j | _ => None end.

Record Variant := mkVariant {
  v_name : string;
  v_value : VariantValue;
  weight : Z;
}.

Record FlagPrerequisite := mkPrerequisite {
  pre_flag_key : string;
  required_variant : string;
}.

Record Flag := mkFlag {
  flag_id : FlagId;
  flag_org_id : option FlagOrgId;
  flag_key : string;
  flag_name : string;
  flag_description : option string;
  tags : list string;
  maintainer_user_id : option FlagUserId;
  variants : list Variant;
  default_variant : string;
  prerequisites : list FlagPrerequisite;
  exposure_tracking_enabled : bool;
  flag_created_at : DateTime;
  flag_updated_at : DateTime;
  archived_at : option DateTime;
}.

Record FlagConfig := mkFlagConfig {
  fc_id : FlagConfigId;
  fc_flag_id : FlagId;
  fc_environment_id : EnvironmentId;
  enabled : bool;
  fc_strategy_id : option StrategyId;
  fc_created_at : DateTime;
  fc_updated_at : DateTime;
}.

Definition is_key_char (c : ascii) : bool :=
  is_ascii_lowercase c || is_ascii_digit c || bool_decide (c = "_"%char).

(** The loop of [Flag::validate_key] over the characters after the first; the
    characters it accepts are ASCII, so it can be read byte by byte. *)
Fixpoint validate_key_chars (prev_was_dot : bool) (s : string) : bool :=
  match s with
  | EmptyString => negb prev_was_dot
  | String c s =>
      if bool_decide (c = "."%char) then
        if prev_was_dot then false else validate_key_chars true s
      else if is_key_char c then validate_key_chars false s
      else false
  end.

Definition Flag_validate_key (key : string) : bool :=
  if (String.length key <? 3)%nat || (100 <? String.length key)%nat then false
  else if starts_with key "." || ends_with key "." then false
  else match key with
       | String c rest => if is_ascii_lowercase c then validate_key_chars false rest else false
       | EmptyString => false
       end.

Definition is_archived (f : Flag) : bool :=
  match archived_at f with Some _ => true | None => false end.
Definition get_variant (f : Flag) (name : string) : option Variant :=
  List.find (fun v => bool_decide (v_name v = name)) (variants f).
Definition get_default_variant (f : Flag) : option Variant := get_variant f (default_variant f).

(** ** strategy.rs *)
Inductive AttributeOperator :=
  Equals | NotEquals | Contains | StartsWith | EndsWith | GreaterThan | LessThan
| GreaterThanOrEquals | LessThanOrEquals | In | NotIn.

Definition compare_values (actual expected : Json) (cmp : f64 -> f64 -> bool) : bool :=
  match json_as_f64 actual, json_as_f64 expected with
  | Some a, Some b => cmp a b
  | _, _ =>
      match json_as_str actual, json_as_str expected with
      | Some a, Some b =>
          cmp (f64_of_usize (Z.of_nat (String.length a))) (f64_of_usize (Z.of_nat (String.length b)))
          || match String.compare a b with Gt => true | _ => false end
      | _, _ => false
      end
  end.

(** [slice.contains(v)]. *)
Definition array_contains (arr : list Json) (v : Json) : bool := existsb (json_eqb v) arr.

Definition AttributeOperator_evaluate (op : AttributeOperator) (actual expected : Json) : bool :=
  match op with
  | Equals => json_eqb actual expected
  | NotEquals => negb (json_eqb actual expected)
  | Contains =>
      match json_as_str actual, json_as_str expected with
      | Some a, Some e => str_contains a e
      | _, _ => match json_as_array actual with
                | Some arr => array_contains arr expected
                | None => false
                end
      end
  | StartsWith =>
      match json_as_str actual, json_as_str expected with
      | Some a, Some e => starts_with a e
      | _, _ => false
      end
  | EndsWith =>
      match json_as_str actual, json_as_str expected with
      | Some a, Some e => ends_with a e
      | _, _ => false
      end
  | GreaterThan => compare_values actual expected (fun a b => f64_lt b a)
  | LessThan => compare_values actual expected (fun a b => f64_lt a b)
  | GreaterThanOrEquals => compare_values actual expected (fun a b => f64_le b a)
  | LessThanOrEquals => compare_values actual expected (fun a b => f64_le a b)
  | In =>
      match json_as_array expected with
      | Some arr => array_contains arr actual
      | None => false
      end
  | NotIn =>
      match json_as_array expected with
      | Some arr => negb (array_contains arr actual)
      | None => true
      end
  end.

Inductive GeoField := Country | Region | City.
Inductive GeoOperator := Geo_In | Geo_NotIn.

Definition GeoOperator_evaluate (op : GeoOperator) (actual : string) (values : list string) : bool :=
  let is_in := existsb (fun v => eq_ignore_ascii_case v actual) values in
  match op with Geo_In => is_in | Geo_NotIn => negb is_in end.

Inductive Condition :=
| Cond_Attribute (attribute : string) (operator : AttributeOperator) (value : Json)
| Cond_Geographic (field : GeoField) (operator : GeoOperator) (values : list string)
| Cond_Environment (environments : list string).

Inductive PercentageKey :=
  Key_UserId | Key_OrgId | Key_SessionId | Key_Custom (key : string).

(** [PercentageKey::get_value]. *)
Definition percentage_key_value (k : PercentageKey) (user_id org_id session_id : option string)
    (attributes : gmap string Json) : option string :=
  match k with
  | Key_UserId => user_id
  | Key_OrgId => org_id
  | Key_SessionId => session_id
  | Key_Custom key => v ← attributes !! key; json_as_str v
  end.

Record ScheduleStep := mkScheduleStep {
  step_percentage : Z;
  start_at : DateTime;
}.

(** [Schedule::evaluate]. *)
Definition Schedule_evaluate (steps : list ScheduleStep) (now : DateTime) : Z :=
  fold_left (fun current step => if start_at step <=? now then step_percentage step else current)
    steps 0.

Record Strategy := mkStrategy {
  st_id : StrategyId;
  st_org_id : option FlagOrgId;
  st_name : string;
  st_description : option string;
  conditions : list Condition;
  percentage : option Z;
  percentage_key : PercentageKey;
  schedule : option (list ScheduleStep);
  st_created_at : DateTime;
  st_updated_at : DateTime;
}.

(** ** kill_switch.rs *)
Record KillSwitch := mkKillSwitch {
  ks_id : KillSwitchId;
  ks_org_id : option FlagOrgId;
  ks_key : string;
  ks_name : string;
  ks_description : option string;
  linked_flag_keys : list string;
  is_active : bool;
  activated_at : option DateTime;
  activated_by : option FlagUserId;
  activation_reason : option string;
  ks_created_at : DateTime;
  ks_updated_at : DateTime;
}.

Definition KillSwitch_validate_key (key : string) : bool :=
  if (String.length key <? 3)%nat || (100 <? String.length key)%nat then false
  else match key with
       | String c rest => if is_ascii_lowercase c then str_all is_key_char rest else false
       | EmptyString => false
       end.

Definition affects_flag (ks : KillSwitch) (key : string) : bool :=
  is_active ks && existsb (fun k => bool_decide (k = key)) (linked_flag_keys ks).

(** [KillSwitch::activate]; the clock is read twice. *)
Definition activate (ks : KillSwitch) (by_user : FlagUserId) (reason : string)
    (now now' : DateTime) : KillSwitch :=
  mkKillSwitch (ks_id ks) (ks_org_id ks) (ks_key ks) (ks_name ks) (ks_description ks)
    (linked_flag_keys ks) true (Some now) (Some by_user) (Some reason) (ks_created_at ks) now'.

Definition deactivate (ks : KillSwitch) (now : DateTime) : KillSwitch :=
  mkKillSwitch (ks_id ks) (ks_org_id ks) (ks_key ks) (ks_name ks) (ks_description ks)
    (linked_flag_keys ks) false None None None (ks_created_at ks) now.

(** ** environment.rs *)
Definition validate_name (name : string) : bool :=
  if (String.length name <? 2)%nat || (50 <? String.length name)%nat then false
  else match name with
       | String c rest => if is_ascii_lowercase c then str_all is_key_char rest else false
       | EmptyString => false
       end.

(** ** evaluation.rs *)
Record GeoContext := mkGeo {
  country : option string;
  region : option string;
  city : option string;
}.

Record EvaluationContext := mkContext {
  cx_user_id : option string;
  cx_org_id : option string;
  cx_session_id : option string;
  environment : string;
  attributes : gmap string Json;
  geo : option GeoContext;
}.

Inductive EvaluationReason :=
| Reason_Default
| Reason_Strategy (strategy_id : StrategyId)
| Reason_KillSwitch (kill_switch_id : KillSwitchId)
| Reason_Prerequisite (missing_flag : string)
| Reason_Disabled
| Reason_Error (message : string).

Definition is_error (r : EvaluationReason) : bool :=
  match r with Reason_Error _ => true | _ => false end.

Record EvaluationResult := mkEvaluationResult {
  er_flag_key : string;
  variant : string;
  value : VariantValue;
  reason : EvaluationReason;
}.

Definition EvaluationResult_not_found (key : string) : EvaluationResult :=
  mkEvaluationResult key "" (VBoolean false) (Reason_Error "Flag not found").

(** [BulkEvaluationResult::get], [get_bool] and [get_string]. *)
Definition bulk_get (results : list EvaluationResult) (key : string) : option EvaluationResult :=
  List.find (fun r => bool_decide (er_flag_key r = key)) results.
Definition bulk_get_bool (results : list EvaluationResult) (key : string) (dflt : bool) : bool :=
  default dflt (r ← bulk_get results key; as_bool (value r)).
Definition bulk_get_string (results : list EvaluationResult) (key dflt : string) : string :=
  default dflt (r ← bulk_get results key; as_str (value r)).

(** ** sse.rs *)
Record FlagState := mkFlagState {
  fs_key : string;
  fs_id : FlagId;
  fs_enabled : bool;
  fs_default_variant : string;
  fs_default_value : VariantValue;
  fs_archived : bool;
}.

Definition from_flag_and_config (f : Flag) (config : option FlagConfig) : FlagState :=
  let default_value :=
    match List.find (fun v => bool_decide (v_name v = default_variant f)) (variants f) with
    | Some v => v_value v
    | None => VBoolean false
    end in
  mkFlagState (flag_key f) (flag_id f)
    (match config with Some c => enabled c | None => false end)
    (default_variant f) default_value
    (match archived_at f with Some _ => true | None => false end).

Record KillSwitchState := mkKillSwitchState {
  kss_key : string;
  kss_id : KillSwitchId;
  kss_is_active : bool;
  kss_linked_flag_keys : list string;
  kss_activation_reason : option string;
}.

Definition KillSwitchState_from (ks : KillSwitch) : KillSwitchState :=
  mkKillSwitchState (ks_key ks) (ks_id ks) (is_active ks) (linked_flag_keys ks)
    (activation_reason ks).

Inductive FlagStreamEvent :=
| Ev_Init (flags : list FlagState) (kill_switches : list KillSwitchState) (timestamp : DateTime)
| Ev_FlagUpdated (key environment : string) (enabled : bool) (default_variant : string)
    (default_value : VariantValue) (timestamp : DateTime)
| Ev_FlagArchived (key : string) (timestamp : DateTime)
| Ev_FlagRestored (key environment : string) (enabled : bool) (timestamp : DateTime)
| Ev_KillSwitchActivated (key : string) (linked : list string) (reason : string)
    (timestamp : DateTime)
| Ev_KillSwitchDeactivated (key : string) (linked : list string) (timestamp : DateTime)
| Ev_Heartbeat (timestamp : DateTime).

Definition event_type (e : FlagStreamEvent) : string :=
  match e with
  | Ev_Init _ _ _ => "init"
  | Ev_FlagUpdated _ _ _ _ _ _ => "flag.updated"
  | Ev_FlagArchived _ _ => "flag.archived"
  | Ev_FlagRestored _ _ _ _ => "flag.restored"
  | Ev_KillSwitchActivated _ _ _ _ => "killswitch.activated"
  | Ev_KillSwitchDeactivated _ _ _ => "killswitch.deactivated"
  | Ev_Heartbeat _ => "heartbeat"
  end.

End FlagCore.

(** * Keys *)

(** A segment of a key: not empty, lowercase letters, digits and underscores. *)
Definition segment_ok (s : string) : bool :=
  negb (bool_decide (s = "")) && str_all is_key_char s.

Lemma dot_not_key_char : is_key_char "."%char = false.
Proof. reflexivity. Qed.

Lemma lowercase_key_char c : is_ascii_lowercase c = true -> is_key_char c = true.
Proof. unfold is_key_char. by intros ->. Qed.

Lemma key_char_not_dot c : is_key_char c = true -> c <> "."%char.
Proof. intros Hc ->. by rewrite dot_not_key_char in Hc. Qed.

(** What the loop accepts, on the segments between dots. *)
Lemma validate_key_chars_spec pd s :
  validate_key_chars pd s =
  match split_on "."%char s with
  | p :: ps => (negb pd || negb (bool_decide (p = ""))) && str_all is_key_char p &&
               forallb segment_ok ps
  | [] => false
  end.
Proof.
  revert pd. induction s as [|c s IH]; intros pd; [by destruct pd|].
  cbn [validate_key_chars split_on]. destruct (split_on_cons "."%char s) as (p & ps & Hs).
  case_bool_decide as Hc.
  - destruct pd; [done|]. rewrite IH, Hs. cbn [negb orb str_all forallb].
    unfold segment_ok at 2. by rewrite !andb_true_l.
  - rewrite Hs in IH |- *. cbn [str_all]. rewrite (bool_decide_eq_false_2 (String c p = "")) by done.
    destruct (is_key_char c) eqn:Hk; [|by rewrite andb_false_r].
    rewrite IH. cbn [negb orb]. by rewrite orb_true_r, !andb_true_l.
Qed.

Lemma validate_key_chars_trailing pd r : validate_key_chars pd (r +:+ ".")%string = false.
Proof.
  revert pd. induction r as [|c r IH]; intros pd.
  - by destruct pd.
  - rewrite append_cons. cbn [validate_key_chars]. rewrite !IH. by repeat case_match.
Qed.

(** The first and last character tests add nothing to the loop. *)
Lemma validate_key_edges c rest :
  is_ascii_lowercase c = true -> validate_key_chars false rest = true ->
  starts_with (String c rest) "." || ends_with (String c rest) "." = false.
Proof.
  intros Hc Hrest. pose proof (key_char_not_dot c (lowercase_key_char c Hc)) as Hdot.
  apply orb_false_iff. split; apply not_true_iff_false.
  - rewrite starts_with_spec. intros [r Hr]. injection Hr. done.
  - rewrite ends_with_spec. intros [[|d r] Hr]; [by injection Hr|].
    rewrite append_cons in Hr. injection Hr as <- ->. by rewrite validate_key_chars_trailing in Hrest.
Qed.

(** Which flag keys are valid: three to one hundred bytes, a lowercase
    letter first, and non-empty segments of lowercase letters, digits and
    underscores between single dots; in particular no key starts or ends with
    a dot or has two in a row. *)
Theorem validate_key_spec key :
  Flag_validate_key key = true <->
  (3 <= String.length key <= 100)%nat /\
  (exists c rest, key = String c rest /\ is_ascii_lowercase c = true) /\
  Forall (fun s => segment_ok s = true) (split_on "."%char key).
Proof.
  unfold Flag_validate_key.
  destruct ((String.length key <? 3)%nat || (100 <? String.length key)%nat) eqn:Hlen.
  { split; [done|]. intros (Hl & _). apply orb_true_iff in Hlen as [?%Nat.ltb_lt|?%Nat.ltb_lt]; lia. }
  apply orb_false_iff in Hlen as [Hl1%Nat.ltb_ge Hl2%Nat.ltb_ge].
  destruct key as [|c rest]; [naive_solver|].
  assert (Hsplit : is_ascii_lowercase c = true ->
    validate_key_chars false rest = true <->
    Forall (fun s => segment_ok s = true) (split_on "."%char (String c rest))).
  { intros Hc%lowercase_key_char. rewrite validate_key_chars_spec. cbn [split_on].
    rewrite bool_decide_eq_false_2 by (by apply key_char_not_dot).
    destruct (split_on_cons "."%char rest) as (p & ps & ->).
    rewrite Forall_cons, <-forallb_spec, !andb_true_iff. unfold segment_ok at 2.
    rewrite (bool_decide_eq_false_2 (String c p = "")) by done. cbn [str_all].
    rewrite Hc. cbn [negb orb andb]. tauto. }
  destruct (is_ascii_lowercase c) eqn:Hc.
  - rewrite <-Hsplit by done. destruct (validate_key_chars false rest) eqn:Hv.
    + rewrite (validate_key_edges c rest Hc Hv). split; [|done]. intros _.
      split; [done|]. split; [by exists c, rest|done].
    + split; [by case_match|naive_solver].
  - split; [by case_match|]. intros (_ & (c' & r' & [= <- <-] & ?) & _). congruence.
Qed.

(** The pattern given in the documentation also wants a letter at the start of
    every segment; the code does not check it. *)
Definition documented_segment (s : string) : bool :=
  match s with
  | String c rest => is_ascii_lowercase c && str_all is_key_char rest
  | EmptyString => false
  end.

Lemma documented_pattern_narrower :
  Flag_validate_key "flow.2nd_step" = true /\
  forallb documented_segment (split_on "."%char "flow.2nd_step") = false.
Proof. split; reflexivity. Qed.

(** * Schedules *)

(** The step in force: the last one, in list order, that has started. *)
Lemma Schedule_evaluate_snoc steps step now :
  Schedule_evaluate (steps ++ [step]) now =
  if start_at step <=? now then step_percentage step else Schedule_evaluate steps now.
Proof. unfold Schedule_evaluate. by rewrite fold_left_app. Qed.

(** A rollout plan that only widens: later steps start later and give more. *)
Definition widening (steps : list ScheduleStep) : Prop :=
  forall i j a b, (i <= j)%nat -> steps !! i = Some a -> steps !! j = Some b ->
    start_at a <= start_at b /\ 0 <= step_percentage a <= step_percentage b.

Lemma widening_app steps step :
  widening (steps ++ [step]) ->
  widening steps /\ 0 <= step_percentage step /\
  Forall (fun a => start_at a <= start_at step /\ step_percentage a <= step_percentage step) steps.
Proof.
  intros H. split; [|split].
  - intros i j a b Hij Ha Hb. apply (H i j); [done|by apply lookup_app_l_Some..].
  - destruct (H (length steps) (length steps) step step) as [_ ?]; [done|..];
      [by rewrite lookup_app_r, Nat.sub_diag by done..|lia].
  - apply Forall_lookup. intros i a Ha.
    destruct (H i (length steps) a step) as [? ?];
      [apply lookup_lt_Some in Ha; lia|by apply lookup_app_l_Some
      |by rewrite lookup_app_r, Nat.sub_diag by done|lia].
Qed.

Lemma Schedule_evaluate_bound steps now bound :
  0 <= bound -> Forall (fun a => step_percentage a <= bound) steps ->
  Schedule_evaluate steps now <= bound.
Proof.
  intros Hb. induction steps as [|step steps IH] using rev_ind; [done|].
  rewrite Schedule_evaluate_snoc, Forall_app, Forall_singleton. intros [??].
  case_match; auto.
Qed.

Lemma Schedule_evaluate_monotone steps now now' :
  widening steps -> now <= now' -> Schedule_evaluate steps now <= Schedule_evaluate steps now'.
Proof.
  intros Hw Hle. induction steps as [|step steps IH] using rev_ind; [done|].
  apply widening_app in Hw as (Hw & Hp & Hall). rewrite !Schedule_evaluate_snoc.
  destruct (Z.leb_spec (start_at step) now), (Z.leb_spec (start_at step) now');
    [lia|lia| |by apply IH].
  apply Schedule_evaluate_bound; [done|]. eapply Forall_impl; [exact Hall|]. naive_solver.
Qed.

(** * Ordering on strings *)

(** The fallback for two strings accepts every pair with the first one greater
    in byte order, whichever operator was asked for: [LessThan] and
    [LessThanOrEquals] hold although the value is greater. *)
Lemma less_than_accepts_greater `{JV : JsonValue} x y a b :
  json_as_f64 x = None -> json_as_str x = Some a -> json_as_str y = Some b ->
  String.compare a b = Gt ->
  AttributeOperator_evaluate LessThan x y = true /\
  AttributeOperator_evaluate LessThanOrEquals x y = true.
Proof.
  intros Hx Ha Hb Hgt. cbn. unfold compare_values. rewrite Hx, Ha, Hb, Hgt.
  by rewrite !orb_true_r.
Qed.
