(* ===== verification/FlagEval.v ===== *)
(** Server-side flag evaluation, [crates/loom-server-flags/src/evaluation.rs]. *)
From stdpp Require Import base list strings gmap.
From Stdlib Require Import ZArith Ascii.
From S2P Require Import Prelude CoreTypes FlagCore.

Local Open Scope Z_scope.

(** The hash of the [murmur3] crate, with what the code relies on: the result
    is a 32-bit unsigned number.  [None] is a read error. *)
Class Murmur3 := {
  murmur3_32 : string -> Z -> option Z;
  murmur3_32_range : forall s seed h, murmur3_32 s seed = Some h -> u32_ok h;
}.

Section FlagEval.
Context `{JV : JsonValue} `{MM : Murmur3}.

(** [murmur3_32(&mut Cursor::new(input.as_bytes()), 0).unwrap_or(0)]. *)
Definition hash_of (input : string) : Z := default 0 (murmur3_32 input 0).

Definition get_default_value (f : Flag) : VariantValue :=
  match get_default_variant f with Some v => v_value v | None => VBoolean false end.

Definition geo_field (g : GeoContext) (field : GeoField) : option string :=
  match field with Country => country g | Region => region g | City => city g end.

Definition evaluate_condition (c : Condition) (cx : EvaluationContext) : bool :=
  match c with
  | Cond_Attribute attribute operator value =>
      match attributes cx !! attribute with
      | Some actual => AttributeOperator_evaluate operator actual value
      | None => false
      end
  | Cond_Geographic field operator values =>
      match geo cx with
      | None => false
      | Some g => match geo_field g field with
                  | Some actual => GeoOperator_evaluate operator actual values
                  | None => false
                  end
      end
  | Cond_Environment environments =>
      existsb (fun e => bool_decide (e = environment cx)) environments
  end.

Definition evaluate_conditions (cs : list Condition) (cx : EvaluationContext) : bool :=
  forallb (fun c => evaluate_condition c cx) cs.

Definition evaluate_percentage (key flag_key : string) (percentage : Z) : bool :=
  let bucket := hash_of (flag_key +:+ "." +:+ key) mod 100 in
  bucket <? percentage.

(** [iter().map(|v| v.weight).sum::<u32>()]. *)
Fixpoint sum_u32 (oc : bool) (acc : Z) (ws : list Z) : run Z :=
  match ws with
  | [] => Done acc
  | w :: ws => acc' ← add_u32 oc acc w; sum_u32 oc acc' ws
  end.

(** The loop that walks the cumulative weights. *)
Fixpoint pick_variant (oc : bool) (bucket cumulative : Z) (vs : list Variant)
    : run (option Variant) :=
  match vs with
  | [] => Done None
  | v :: vs =>
      cumulative' ← add_u32 oc cumulative (weight v);
      if bucket <? cumulative' then Done (Some v) else pick_variant oc bucket cumulative' vs
  end.

Definition non_default (f : Flag) : list Variant :=
  List.filter (fun v => negb (bool_decide (v_name v = default_variant f))) (variants f).

(** [user_id.or(org_id).or(session_id)]. *)
Definition selection_key (cx : EvaluationContext) : option string :=
  match cx_user_id cx with
  | Some u => Some u
  | None => match cx_org_id cx with Some o => Some o | None => cx_session_id cx end
  end.

Definition select_variant (oc : bool) (f : Flag) (cx : EvaluationContext)
    : run (option Variant) :=
  match non_default f with
  | [v] => Done (Some v)
  | _ =>
      match selection_key cx with
      | None => Done None
      | Some key =>
          let hash := hash_of (flag_key f +:+ "." +:+ key +:+ ".variant") in
          total_weight ← sum_u32 oc 0 (weight <$> variants f);
          if total_weight =? 0 then Done (get_default_variant f)
          else
            picked ← pick_variant oc (hash mod total_weight) 0 (variants f);
            Done (match picked with Some v => Some v | None => get_default_variant f end)
      end
  end.

Definition default_result (f : Flag) (r : EvaluationReason) : EvaluationResult :=
  mkEvaluationResult (flag_key f) (default_variant f) (get_default_value f) r.

(** The first prerequisite that is not met. *)
Definition prerequisite_met (results : list (string * string)) (p : FlagPrerequisite) : bool :=
  match List.find (fun kv => bool_decide (kv.1 = pre_flag_key p)) results with
  | Some (_, v) => bool_decide (v = required_variant p)
  | None => false
  end.

Definition effective_percentage (s : Strategy) (now : DateTime) : Z :=
  match schedule s with
  | Some steps => Schedule_evaluate steps now
  | None => default 100 (percentage s)
  end.

Definition strategy_key (s : Strategy) (cx : EvaluationContext) : option string :=
  percentage_key_value (percentage_key s) (cx_user_id cx) (cx_org_id cx) (cx_session_id cx)
    (attributes cx).

(** The percentage gate: [true] when the evaluation goes on. *)
Definition in_rollout (f : Flag) (s : Strategy) (cx : EvaluationContext) (now : DateTime) : bool :=
  let p := effective_percentage s now in
  if p <? 100 then
    match strategy_key s cx with
    | Some key => evaluate_percentage key (flag_key f) p
    | None => true
    end
  else true.

Definition evaluate_flag (oc : bool) (f : Flag) (config : option FlagConfig)
    (strategy : option Strategy) (active_kill_switches : list KillSwitch)
    (prerequisite_results : list (string * string)) (cx : EvaluationContext) (now : DateTime)
    : run EvaluationResult :=
  if is_archived f then Done (default_result f (Reason_Error "Flag is archived")) else
  match config with
  | None => Done (default_result f (Reason_Error "No configuration for this environment"))
  | Some config =>
      if negb (enabled config) then Done (default_result f Reason_Disabled) else
      match List.find (fun ks => affects_flag ks (flag_key f)) active_kill_switches with
      | Some ks => Done (default_result f (Reason_KillSwitch (ks_id ks)))
      | None =>
          match List.find (fun p => negb (prerequisite_met prerequisite_results p))
                  (prerequisites f) with
          | Some p => Done (default_result f (Reason_Prerequisite (pre_flag_key p)))
          | None =>
              match strategy with
              | None => Done (default_result f Reason_Default)
              | Some s =>
                  if negb (evaluate_conditions (conditions s) cx) then
                    Done (default_result f Reason_Default)
                  else if negb (in_rollout f s cx now) then
                    Done (default_result f Reason_Default)
                  else
                    selected ← select_variant oc f cx;
                    Done match selected with
                         | Some v => mkEvaluationResult (flag_key f) (v_name v) (v_value v)
                                       (Reason_Strategy (st_id s))
                         | None => default_result f Reason_Default
                         end
              end
          end
      end
  end.

(** * Weights *)

Fixpoint total (vs : list Variant) : Z :=
  match vs with [] => 0 | v :: vs => weight v + total vs end.

(** Weights are [u32] values and their sum fits as well. *)
Definition weights_fit (vs : list Variant) : Prop :=
  Forall (fun v => 0 <= weight v) vs /\ total vs < 2 ^ 32.

Lemma total_nonneg vs : Forall (fun v => 0 <= weight v) vs -> 0 <= total vs.
Proof. induction 1; cbn; lia. Qed.

Lemma total_app vs ws : total (vs ++ ws) = total vs + total ws.
Proof. induction vs as [|v vs IH]; cbn; [done|]. rewrite IH. lia. Qed.

Lemma sum_u32_fits oc acc vs :
  0 <= acc -> Forall (fun v => 0 <= weight v) vs -> acc + total vs < 2 ^ 32 ->
  sum_u32 oc acc (weight <$> vs) = Done (acc + total vs).
Proof.
  intros Hacc Hvs. revert acc Hacc.
  induction Hvs as [|v vs Hv Hvs IH]; intros acc Hacc Hsum; cbn in *.
  - by rewrite Z.add_0_r.
  - pose proof (total_nonneg vs Hvs).
    rewrite add_u32_fits by (unfold u32_ok; lia). cbn. rewrite IH by lia. f_equal. lia.
Qed.

(** Buckets are cut into intervals as long as the weights, in variant order. *)
Lemma pick_variant_interval oc b c vs1 v vs2 :
  0 <= c -> Forall (fun v => 0 <= weight v) (vs1 ++ v :: vs2) ->
  c + total (vs1 ++ v :: vs2) < 2 ^ 32 ->
  c + total vs1 <= b < c + total vs1 + weight v ->
  pick_variant oc b c (vs1 ++ v :: vs2) = Done (Some v).
Proof.
  revert c. induction vs1 as [|v1 vs1 IH]; intros c Hc Hpos Hfit Hb; cbn in *;
    apply Forall_cons in Hpos as [Hw Hpos].
  - pose proof (total_nonneg _ Hpos). rewrite add_u32_fits by (unfold u32_ok; lia). cbn.
    by rewrite (proj2 (Z.ltb_lt _ _)) by lia.
  - pose proof (total_nonneg _ Hpos).
    assert (0 <= total vs1) by (apply total_nonneg; by apply Forall_app in Hpos as [? _]).
    rewrite add_u32_fits by (unfold u32_ok; lia). cbn.
    rewrite (proj2 (Z.ltb_ge _ _)) by lia. apply IH; [lia|done|lia|lia].
Qed.

(** Every bucket below the total falls into one of the intervals. *)
Lemma bucket_interval b vs :
  Forall (fun v => 0 <= weight v) vs -> 0 <= b < total vs ->
  exists vs1 v vs2, vs = vs1 ++ v :: vs2 /\ total vs1 <= b < total vs1 + weight v.
Proof.
  intros Hpos. revert b. induction Hpos as [|v vs Hv Hpos IH]; intros b Hb; cbn in *; [lia|].
  destruct (Z.lt_ge_cases b (weight v)).
  - exists [], v, vs. cbn. split; [done|lia].
  - destruct (IH (b - weight v) ltac:(lia)) as (vs1 & v' & vs2 & -> & Hb').
    exists (v :: vs1), v', vs2. cbn. split; [done|lia].
Qed.

Lemma pick_variant_total oc b vs :
  weights_fit vs -> 0 <= b < total vs ->
  exists v, pick_variant oc b 0 vs = Done (Some v) /\ v ∈ vs.
Proof.
  intros [Hpos Hfit] Hb. destruct (bucket_interval b vs Hpos Hb) as (vs1 & v & vs2 & -> & Hi).
  exists v. split; [|set_solver]. by apply pick_variant_interval; rewrite ?Z.add_0_l.
Qed.

Lemma pick_variant_profile oc oc' b vs :
  weights_fit vs -> 0 <= b < total vs ->
  pick_variant oc b 0 vs = pick_variant oc' b 0 vs.
Proof.
  intros [Hpos Hfit] Hb. destruct (bucket_interval b vs Hpos Hb) as (vs1 & v & vs2 & -> & Hi).
  by rewrite !(pick_variant_interval _ b 0 vs1 v vs2) by (done || lia).
Qed.

Lemma get_default_variant_elem f v : get_default_variant f = Some v -> v ∈ variants f.
Proof.
  intros (i & _ & Hi)%find_Some_lookup. by apply list_elem_of_lookup_2 in Hi.
Qed.

Lemma hash_of_range s : u32_ok (hash_of s).
Proof.
  unfold hash_of. destruct (murmur3_32 s 0) eqn:E; cbn.
  - by eapply murmur3_32_range.
  - unfold u32_ok. lia.
Qed.

(** Selection never panics, does not depend on the profile and stays within the
    variants of the flag. *)
Lemma select_variant_total f cx :
  weights_fit (variants f) ->
  exists o, (forall oc, select_variant oc f cx = Done o) /\
            (forall v, o = Some v -> v ∈ variants f).
Proof.
  intros Hfit. unfold select_variant.
  destruct (decide (length (non_default f) = 1%nat)) as [Hone|Hmany].
  { destruct (non_default f) as [|v [|]] eqn:E; try done. exists (Some v).
    split; [done|]. intros ? [= <-].
    assert (v ∈ non_default f) as Hv by (rewrite E; set_solver).
    apply list_elem_of_In, filter_In in Hv as [Hv _]. by apply list_elem_of_In. }
  assert (Hgen : exists o,
    (forall oc, match selection_key cx with
      | None => Done None
      | Some key =>
          let hash := hash_of (flag_key f +:+ "." +:+ key +:+ ".variant") in
          total_weight ← sum_u32 oc 0 (weight <$> variants f);
          if total_weight =? 0 then Done (get_default_variant f)
          else
            picked ← pick_variant oc (hash mod total_weight) 0 (variants f);
            Done (match picked with Some v => Some v | None => get_default_variant f end)
      end = Done o) /\ (forall v, o = Some v -> v ∈ variants f)).
  { destruct (selection_key cx) as [key|]; [|by exists None].
    set (h := hash_of _). destruct (Hfit) as [Hpos Hsum].
    destruct (Z.eqb_spec (total (variants f)) 0) as [Hz|Hz].
    - exists (get_default_variant f). split; [|apply get_default_variant_elem].
      intros oc. cbn zeta. rewrite sum_u32_fits by (done || lia). cbn.
      by rewrite Hz.
    - pose proof (total_nonneg _ Hpos).
      destruct (pick_variant_total true (h mod total (variants f)) (variants f) Hfit)
        as (v & Hv & Hin); [apply Z.mod_pos_bound; lia|].
      exists (Some v). split; [|by intros ? [= <-]].
      intros oc. cbn zeta. rewrite sum_u32_fits by (done || lia).
      rewrite Z.add_0_l. cbn. rewrite (proj2 (Z.eqb_neq _ _) Hz).
      rewrite (pick_variant_profile oc true) by (done || (apply Z.mod_pos_bound; lia)).
      by rewrite Hv. }
  destruct (non_default f) as [|v [|]]; [exact Hgen|done|exact Hgen].
Qed.

(** * The gates in front of a strategy *)

Record gates_pass (f : Flag) (config : option FlagConfig) (s : Strategy)
    (kss : list KillSwitch) (pre : list (string * string)) (cx : EvaluationContext)
    (now : DateTime) : Prop := {
  gate_live : archived_at f = None;
  gate_enabled : exists c, config = Some c /\ enabled c = true;
  gate_not_killed : Forall (fun ks => affects_flag ks (flag_key f) = false) kss;
  gate_prerequisites : Forall (fun p => prerequisite_met pre p = true) (prerequisites f);
  gate_conditions : Forall (fun c => evaluate_condition c cx = true) (conditions s);
  gate_rollout : in_rollout f s cx now = true;
}.

Lemma find_none_Forall {A} (p : A -> bool) l :
  List.find p l = None <-> Forall (fun x => p x = false) l.
Proof.
  induction l as [|x l IH]; [done|]. cbn. rewrite Forall_cons.
  destruct (p x); [naive_solver|]. rewrite IH. naive_solver.
Qed.

(** Either every gate is open and the strategy's variant is served, or the
    default variant is, with a reason that is not a strategy. *)
Lemma evaluate_flag_cases f config strategy kss pre cx now :
  (exists s, strategy = Some s /\ gates_pass f config s kss pre cx now /\ forall oc,
     evaluate_flag oc f config strategy kss pre cx now =
       selected ← select_variant oc f cx;
       Done match selected with
            | Some v => mkEvaluationResult (flag_key f) (v_name v) (v_value v)
                          (Reason_Strategy (st_id s))
            | None => default_result f Reason_Default
            end) \/
  ((forall s, strategy = Some s -> ~ gates_pass f config s kss pre cx now) /\
   exists r, (forall sid, r <> Reason_Strategy sid) /\ forall oc,
     evaluate_flag oc f config strategy kss pre cx now = Done (default_result f r)).
Proof.
  unfold evaluate_flag, is_archived.
  destruct (archived_at f) eqn:Harch.
  { right. split; [|eexists; split; [|reflexivity]; done]. intros s _ []. congruence. }
  destruct config as [c|].
  2:{ right. split; [|eexists; split; [|reflexivity]; done]. intros s _ [_ (c & ? & _)]. congruence. }
  destruct (enabled c) eqn:Hen; cbn [negb].
  2:{ right. split; [|eexists; split; [|reflexivity]; done]. intros s _ [_ (c' & ? & ?)]. congruence. }
  destruct (List.find _ kss) as [ks|] eqn:Hks.
  { right. split; [|eexists; split; [|reflexivity]; done]. intros s _ [_ _ Hk].
    apply find_none_Forall in Hk. congruence. }
  destruct (List.find _ (prerequisites f)) as [p|] eqn:Hp.
  { right. split; [|eexists; split; [|reflexivity]; done]. intros s _ [_ _ _ Hpre].
    assert (List.find (fun p => negb (prerequisite_met pre p)) (prerequisites f) = None).
    { apply find_none_Forall. eapply Forall_impl; [exact Hpre|]. cbn. by intros ? ->. }
    congruence. }
  destruct strategy as [s|]; [|right; split; [done|eexists; split; [|reflexivity]; done]].
  destruct (evaluate_conditions (conditions s) cx) eqn:Hc; cbn [negb].
  2:{ right. split; [|eexists; split; [|reflexivity]; done]. intros s' [= <-] [_ _ _ _ Hall]. apply forallb_spec in Hall.
      unfold evaluate_conditions in Hc. congruence. }
  destruct (in_rollout f s cx now) eqn:Hr; cbn [negb].
  2:{ right. split; [|eexists; split; [|reflexivity]; done]. intros s' [= <-] []. congruence. }
  left. exists s. split; [done|]. split; [|done]. split; [done|by exists c|..].
  - by apply find_none_Forall.
  - apply find_none_Forall in Hp. eapply Forall_impl; [exact Hp|]. cbn.
    by intros ? ?%negb_false_iff.
  - by apply forallb_spec.
  - done.
Qed.

Lemma in_rollout_monotone f s cx now now' :
  effective_percentage s now <= effective_percentage s now' ->
  in_rollout f s cx now = true -> in_rollout f s cx now' = true.
Proof.
  unfold in_rollout, evaluate_percentage. intros Hp.
  destruct (Z.ltb_spec (effective_percentage s now') 100); [|done].
  rewrite (proj2 (Z.ltb_lt _ _)) by lia.
  destruct (strategy_key s cx); [|done]. rewrite !Z.ltb_lt. lia.
Qed.

(** The variant a bucket selects, by name. *)
Definition picks (oc : bool) (vs : list Variant) (name : string) (b : Z) : bool :=
  match pick_variant oc b 0 vs with
  | Done (Some v) => bool_decide (v_name v = name)
  | _ => false
  end.

Lemma picks_interval oc vs1 v vs2 b :
  weights_fit (vs1 ++ v :: vs2) -> NoDup (v_name <$> vs1 ++ v :: vs2) ->
  0 <= b < total (vs1 ++ v :: vs2) ->
  picks oc (vs1 ++ v :: vs2) (v_name v) b = (total vs1 <=? b) && (b <? total vs1 + weight v).
Proof.
  intros [Hpos Hfit] Hnd Hb. unfold picks.
  destruct (bucket_interval b _ Hpos Hb) as (us1 & u & us2 & E & Hi). rewrite E in Hfit, Hpos, Hnd |- *.
  rewrite (pick_variant_interval oc b 0 us1 u us2) by (done || lia).
  destruct (decide (length us1 = length vs1)) as [Hl|Hl].
  - symmetry in E. apply app_inj_1 in E as [-> [= -> ->]]; [|done].
    rewrite bool_decide_eq_true_2 by done. symmetry. apply andb_true_iff.
    rewrite Z.leb_le, Z.ltb_lt. lia.
  - rewrite bool_decide_eq_false_2.
    2:{ intros Hn. apply Hl. eapply NoDup_lookup; [exact Hnd|..].
        - rewrite list_lookup_fmap, lookup_app_r, Nat.sub_diag by done. reflexivity.
        - rewrite <-E, list_lookup_fmap, lookup_app_r, Nat.sub_diag by done. cbn. by rewrite Hn. }
    symmetry. apply not_true_iff_false. rewrite andb_true_iff, Z.leb_le, Z.ltb_lt. intros Hv.
    rewrite <-E in Hfit, Hpos.
    assert (Hp : pick_variant oc b 0 (vs1 ++ v :: vs2) = Done (Some v)).
    { apply pick_variant_interval; [lia|done|lia|lia]. }
    rewrite E in Hp, Hfit, Hpos.
    rewrite (pick_variant_interval oc b 0 us1 u us2) in Hp; [|lia|done|lia|lia].
    injection Hp as <-. apply Hl. eapply NoDup_lookup; [exact Hnd|..].
    + rewrite list_lookup_fmap, lookup_app_r, Nat.sub_diag by done. reflexivity.
    + rewrite <-E, list_lookup_fmap, lookup_app_r, Nat.sub_diag by done. reflexivity.
Qed.

Lemma filter_seqZ_interval (p : Z -> bool) n a w :
  0 <= a -> 0 <= w -> a + w <= n ->
  (forall b, 0 <= b < n -> p b = (a <=? b) && (b <? a + w)) ->
  List.filter p (seqZ 0 n) = seqZ a w.
Proof.
  intros Ha Hw Hn Hp.
  assert (Hsub : forall m l, 0 <= m -> m + l <= n ->
    (forall b, m <= b < m + l -> p b = false) -> List.filter p (seqZ m l) = []).
  { intros m l Hm Hl Hf. destruct (List.filter p (seqZ m l)) as [|b bs] eqn:E; [done|].
    assert (List.In b (List.filter p (seqZ m l))) as [Hb Hpb]%filter_In by (rewrite E; by left).
    apply list_elem_of_In, elem_of_seqZ in Hb. rewrite Hf in Hpb; [done|lia]. }
  replace n with (a + (w + (n - a - w))) by lia.
  rewrite seqZ_app, seqZ_app, !List.filter_app by lia.
  rewrite (Hsub 0 a), (Hsub (0 + a + w) (n - a - w)); [|lia|lia| |lia|lia|].
  2:{ intros b Hb. rewrite Hp by lia. apply andb_false_iff. right. apply Z.ltb_ge. lia. }
  2:{ intros b Hb. rewrite Hp by lia. apply andb_false_iff. left. apply Z.leb_gt. lia. }
  rewrite app_nil_r, app_nil_l, Z.add_0_l.
  apply forallb_filter_id, forallb_spec, Forall_forall. intros b Hb%elem_of_seqZ.
  rewrite Hp by lia. apply andb_true_iff. rewrite Z.leb_le, Z.ltb_lt. lia.
Qed.

(** * Properties *)

(** C9. A flag is evaluated correctly on every branch: when the weights of its
    variants are unsigned and sum below 2^32, evaluation returns the same result
    in both build profiles, without a panic.  Either every gate is open (not
    archived, enabled in the environment, no active kill switch linked to it,
    all prerequisites at their variant, all conditions of the strategy met,
    inside the rollout) and the selected variant of the flag is served with the
    strategy as reason; or the default variant and its value are served with
    another reason, which with all gates open happens only when no variant could
    be selected. *)
Theorem evaluate_flag_correct f config strategy kss pre cx now :
  weights_fit (variants f) ->
  exists r, (forall oc, evaluate_flag oc f config strategy kss pre cx now = Done r) /\
    ((exists s v, strategy = Some s /\ gates_pass f config s kss pre cx now /\
        (forall oc, select_variant oc f cx = Done (Some v)) /\ v ∈ variants f /\
        r = mkEvaluationResult (flag_key f) (v_name v) (v_value v) (Reason_Strategy (st_id s))) \/
     (r = default_result f (reason r) /\ (forall sid, reason r <> Reason_Strategy sid) /\
      forall s, strategy = Some s -> gates_pass f config s kss pre cx now ->
        forall oc, select_variant oc f cx = Done None)).
Proof.
  intros Hfit. destruct (select_variant_total f cx Hfit) as (o & Ho & Hin).
  destruct (evaluate_flag_cases f config strategy kss pre cx now)
    as [(s & Hs & Hg & He)|(Hg & r & Hr & He)].
  - eexists. split; [intros oc; rewrite He, Ho; reflexivity|]. destruct o as [v|].
    + left. exists s, v. auto 6.
    + right. split; [done|]. split; [done|]. auto.
  - exists (default_result f r). split; [done|].
    right. split; [done|]. split; [done|]. intros s Hs Hgs. by destruct (Hg s).
Qed.

(** A kill switch is an emergency stop: once a switch linked to a flag is
    activated, every evaluation of the flag that sees it serves the default
    variant, whatever the strategy, the prerequisites, the weights, the time and
    the other switches; if the flag is live and enabled the reason names an
    active switch linked to it. *)
Theorem kill_switch_forces_default oc f config strategy kss1 ks kss2 pre cx now user why t t' :
  flag_key f ∈ linked_flag_keys ks ->
  let kss := kss1 ++ activate ks user why t t' :: kss2 in
  exists r, evaluate_flag oc f config strategy kss pre cx now = Done (default_result f r) /\
    (is_archived f = false -> forall c, config = Some c -> enabled c = true ->
     exists ks', ks' ∈ kss /\ affects_flag ks' (flag_key f) = true /\
       r = Reason_KillSwitch (ks_id ks')).
Proof.
  intros Hlinked kss.
  assert (affects_flag (activate ks user why t t') (flag_key f) = true) as Hact.
  { unfold affects_flag. cbn. apply existsb_spec, Exists_exists. exists (flag_key f).
    by rewrite bool_decide_eq_true_2. }
  unfold evaluate_flag. destruct (is_archived f); [by eexists|].
  destruct config as [c|]; [|by eexists].
  destruct (enabled c) eqn:Hen; cbn [negb]; [|eexists; split; [done|]; intros _ ? [= <-]; congruence].
  destruct (List.find _ kss) as [ks'|] eqn:Hfind.
  - eexists. split; [done|]. intros _ _ _ _. exists ks'.
    apply List.find_some in Hfind as [Hin Haff]. by apply list_elem_of_In in Hin.
  - exfalso. apply find_none_Forall in Hfind. unfold kss in Hfind.
    apply Forall_app in Hfind as [_ [Hks _]%Forall_cons]. congruence.
Qed.

(** A scheduled rollout only widens: with a schedule whose later steps
    start later and give at least as much, whoever is served by the strategy at
    some time is served the same result at every later time. *)
Theorem scheduled_rollout_only_widens oc f config s steps kss pre cx now now' r sid :
  schedule s = Some steps -> widening steps -> now <= now' ->
  evaluate_flag oc f config (Some s) kss pre cx now = Done r ->
  reason r = Reason_Strategy sid ->
  evaluate_flag oc f config (Some s) kss pre cx now' = Done r.
Proof.
  intros Hsch Hwide Hle Hev Hreason.
  destruct (evaluate_flag_cases f config (Some s) kss pre cx now)
    as [(s1 & [= <-] & [G1 G2 G3 G4 G5 G6] & E1)|(_ & r1 & Hr1 & E1)].
  2:{ rewrite E1 in Hev. injection Hev as <-. by destruct (Hr1 sid). }
  destruct (evaluate_flag_cases f config (Some s) kss pre cx now')
    as [(s2 & [= <-] & _ & E2)|(Hno & _)]; [by rewrite E2, <-(E1 oc)|].
  destruct (Hno s eq_refl). split; [done..|].
  eapply in_rollout_monotone; [|exact G6]. unfold effective_percentage. rewrite Hsch.
  by apply Schedule_evaluate_monotone.
Qed.

(** Experiments are split by weight: for a flag whose variants have
    distinct names and weights that sum below 2^32, exactly [weight v] of the
    [total] buckets select the variant [v]. *)
Theorem weighted_split_exact oc vs1 v vs2 :
  let vs := vs1 ++ v :: vs2 in
  weights_fit vs -> NoDup (v_name <$> vs) ->
  Z.of_nat (length (List.filter (picks oc vs (v_name v)) (seqZ 0 (total vs)))) = weight v.
Proof.
  intros vs Hfit Hnd. pose proof Hfit as [[Hpos1 [Hw Hpos2]%Forall_cons]%Forall_app _].
  pose proof (total_nonneg _ Hpos1). pose proof (total_nonneg _ Hpos2).
  assert (total vs = total vs1 + (weight v + total vs2)) as Ht by (unfold vs; by rewrite total_app).
  rewrite (filter_seqZ_interval _ _ (total vs1) (weight v)); [|lia..|].
  - rewrite length_seqZ. lia.
  - intros b Hb. by apply picks_interval.
Qed.

End FlagEval.

(** ** Witnesses *)

(** JSON strings only, and a hash that is the length of its input. *)
#[local] Instance demo_serde : SerdeJson := {| Json := string; json_to_string := Some |}.
#[local] Instance demo_json : JsonValue := {|
  json_eqb := String.eqb;
  json_as_str := Some;
  json_as_array := fun _ => None;
  json_as_f64 := fun _ => None;
|}.

Lemma length_hash_range (s : string) (seed h : Z) :
  Some (Z.of_nat (String.length s) mod 2 ^ 32) = Some h -> u32_ok h.
Proof. intros [= <-]. apply wrap_u32_ok. Qed.

#[local] Instance demo_murmur : Murmur3 := {|
  murmur3_32 := fun s _ => Some (Z.of_nat (String.length s) mod 2 ^ 32);
  murmur3_32_range := length_hash_range;
|}.

Definition demo_variants : list Variant :=
  [mkVariant "off" (VBoolean false) 30; mkVariant "a" (VBoolean true) 50;
   mkVariant "b" (VString "b") 20].
Definition demo_flag : Flag :=
  mkFlag 1%N None "checkout.new_flow" "New flow" None [] None demo_variants "off"
    [mkPrerequisite "base" "on"] false 0 0 None.
Definition demo_config : FlagConfig := mkFlagConfig 2%N 1%N 3%N true (Some 4%N) 0 0.
Definition demo_schedule : list ScheduleStep := [mkScheduleStep 25 100; mkScheduleStep 60 200].
Definition demo_strategy : Strategy :=
  mkStrategy 4%N None "rollout" None
    [Cond_Environment ["prod"]; Cond_Attribute "plan" Equals "pro"] None Key_UserId
    (Some demo_schedule) 0 0.
Definition demo_context : EvaluationContext :=
  mkContext (Some "user-1") None None "prod" {[ "plan" := "pro" : Json ]} None.
Definition demo_switch : KillSwitch :=
  mkKillSwitch 9%N None "stop" "Stop" None ["checkout.new_flow"] false None None None 0 0.

Lemma demo_weights_fit : weights_fit demo_variants.
Proof. split; [repeat constructor; cbn; lia|cbn; lia]. Qed.

Lemma demo_widening : widening demo_schedule.
Proof.
  intros [|[|i]] [|[|j]] a b Hij Ha Hb; cbn in Ha, Hb; simplify_eq; cbn; lia.
Qed.

Lemma evaluate_flag_correct_witness :
  exists r, evaluate_flag true demo_flag (Some demo_config) (Some demo_strategy) []
      [("base", "on")] demo_context 250 = Done r /\
    reason r = Reason_Strategy 4%N.
Proof.
  destruct (evaluate_flag_correct demo_flag (Some demo_config) (Some demo_strategy) []
    [("base", "on")] demo_context 250 demo_weights_fit) as (r & Hr & _).
  exists r. specialize (Hr true). split; [exact Hr|].
  vm_compute in Hr. injection Hr as <-. reflexivity.
Defined.

Lemma kill_switch_forces_default_witness :
  exists r, evaluate_flag false demo_flag (Some demo_config) (Some demo_strategy)
    [activate demo_switch 5%N "incident" 10 11] [("base", "on")] demo_context 250 =
    Done (default_result demo_flag r).
Proof.
  destruct (kill_switch_forces_default false demo_flag (Some demo_config) (Some demo_strategy)
    [] demo_switch [] [("base", "on")] demo_context 250 5%N "incident" 10 11)
    as (r & Hr & _); [cbn; set_solver|]. by exists r.
Defined.

Lemma scheduled_rollout_only_widens_witness :
  exists r, evaluate_flag true demo_flag (Some demo_config) (Some demo_strategy) []
    [("base", "on")] demo_context 1000 = Done r /\ reason r = Reason_Strategy 4%N.
Proof.
  destruct (evaluate_flag true demo_flag (Some demo_config) (Some demo_strategy) []
    [("base", "on")] demo_context 150) as [r|] eqn:E.
  - exists r. split.
    + refine (scheduled_rollout_only_widens true demo_flag (Some demo_config) demo_strategy
        demo_schedule [] [("base", "on")] demo_context 150 1000 r 4%N eq_refl demo_widening _ E _);
        [lia|]. vm_compute in E. injection E as <-. reflexivity.
    + vm_compute in E. injection E as <-. reflexivity.
  - vm_compute in E. discriminate.
Defined.

Lemma weighted_split_exact_witness :
  Z.of_nat (length (List.filter (picks true demo_variants "a") (seqZ 0 100))) = 50.
Proof.
  refine (weighted_split_exact true [mkVariant "off" (VBoolean false) 30]
    (mkVariant "a" (VBoolean true) 50) [mkVariant "b" (VString "b") 20] demo_weights_fit _).
  apply NoDup_ListNoDup. repeat constructor; cbn; intuition congruence.
Defined.
