(* ===== verification/FlagClient.v ===== *)
(** The flags SDK, [crates/loom-flags]: the local cache (cache.rs), the
    application of stream events to it (sse.rs, [process_event]) and evaluation
    with the cache as fallback (client.rs).  The lock makes every cache method
    one atomic step on [CacheInner]; [Utc::now()] is an argument. *)
From stdpp Require Import base list strings gmap.
From Stdlib Require Import ZArith.
From S2P Require Import Prelude CoreTypes FlagCore.

Section FlagClient.
Context `{JV : JsonValue}.

(** ** cache.rs *)
Record CacheInner := mkCache {
  flags : gmap string FlagState;
  kill_switches : gmap string KillSwitchState;
  last_updated : option DateTime;
  initialized : bool;
}.

Definition FlagCache_new : CacheInner := mkCache ∅ ∅ None false.

Definition insert_flags (fs : list FlagState) : gmap string FlagState :=
  fold_left (fun m f => <[fs_key f := f]> m) fs ∅.
Definition insert_kill_switches (kss : list KillSwitchState) : gmap string KillSwitchState :=
  fold_left (fun m ks => <[kss_key ks := ks]> m) kss ∅.

Definition initialize (fs : list FlagState) (kss : list KillSwitchState) (now : DateTime)
    (_ : CacheInner) : CacheInner :=
  mkCache (insert_flags fs) (insert_kill_switches kss) (Some now) true.

Definition get_flag (c : CacheInner) (key : string) : option FlagState := flags c !! key.
Definition get_kill_switch (c : CacheInner) (key : string) : option KillSwitchState :=
  kill_switches c !! key.

Definition update_flag (f : FlagState) (now : DateTime) (c : CacheInner) : CacheInner :=
  mkCache (<[fs_key f := f]> (flags c)) (kill_switches c) (Some now) (initialized c).

(** [if let Some(flag) = inner.flags.get_mut(key) { ... }] and the same for kill
    switches, with the update of [last_updated]. *)
Definition modify_flag (key : string) (g : FlagState -> FlagState) (now : DateTime)
    (c : CacheInner) : CacheInner :=
  mkCache (alter g key (flags c)) (kill_switches c) (Some now) (initialized c).
Definition modify_kill_switch (key : string) (g : KillSwitchState -> KillSwitchState)
    (now : DateTime) (c : CacheInner) : CacheInner :=
  mkCache (flags c) (alter g key (kill_switches c)) (Some now) (initialized c).

Definition set_archived (f : FlagState) : FlagState :=
  mkFlagState (fs_key f) (fs_id f) (fs_enabled f) (fs_default_variant f) (fs_default_value f) true.
Definition set_restored (e : bool) (f : FlagState) : FlagState :=
  mkFlagState (fs_key f) (fs_id f) e (fs_default_variant f) (fs_default_value f) false.
Definition set_enabled (e : bool) (f : FlagState) : FlagState :=
  mkFlagState (fs_key f) (fs_id f) e (fs_default_variant f) (fs_default_value f) (fs_archived f).
Definition set_active (reason : string) (ks : KillSwitchState) : KillSwitchState :=
  mkKillSwitchState (kss_key ks) (kss_id ks) true (kss_linked_flag_keys ks) (Some reason).
Definition set_inactive (ks : KillSwitchState) : KillSwitchState :=
  mkKillSwitchState (kss_key ks) (kss_id ks) false (kss_linked_flag_keys ks) None.

Definition archive_flag (key : string) := modify_flag key set_archived.
Definition restore_flag (key : string) (e : bool) := modify_flag key (set_restored e).
Definition update_flag_enabled (key : string) (e : bool) := modify_flag key (set_enabled e).
Definition activate_kill_switch (key reason : string) := modify_kill_switch key (set_active reason).
Definition deactivate_kill_switch (key : string) := modify_kill_switch key set_inactive.

Definition clear (_ : CacheInner) : CacheInner := mkCache ∅ ∅ None false.

(** [is_flag_killed] walks [kill_switches.values()], whose order is not
    specified: [order] is the order of this walk. *)
Definition iteration_of (c : CacheInner) (order : list KillSwitchState) : Prop :=
  order ≡ₚ (map_to_list (kill_switches c)).*2.

Definition kills (key : string) (ks : KillSwitchState) : bool :=
  kss_is_active ks && existsb (fun k => bool_decide (k = key)) (kss_linked_flag_keys ks).

Definition is_flag_killed (order : list KillSwitchState) (key : string) : option string :=
  kss_key <$> List.find (kills key) order.

(** ** error.rs *)
Inductive FlagsError :=
| InvalidSdkKey
| InvalidBaseUrl
| ConnectionFailed (e : string)
| RequestFailed (e : string)
| ParseFailed (e : string)
| ServerError (status : Z) (message : string)
| FlagNotFound (key : string)
| SseConnectionFailed (e : string)
| SseStreamError (e : string)
| OfflineNoCache
| AuthenticationFailed
| RateLimited (retry_after_secs : option Z)
| InitializationTimeout
| ClientClosed
| InvalidValueType (expected actual : string).

Definition should_use_cache (e : FlagsError) : bool :=
  match e with
  | ConnectionFailed _ | RequestFailed _ => true
  | ServerError status _ => (500 <=? status)%Z && (status <=? 599)%Z
  | RateLimited _ => true
  | _ => false
  end.

(** ** sse.rs: [process_event] on a parsed event; [None] stands for text
    [serde_json] rejects.  Every branch but the heartbeat reads the clock once. *)
Definition apply_event (e : FlagStreamEvent) (now : DateTime) (c : CacheInner) : CacheInner :=
  match e with
  | Ev_Init fs kss _ => initialize fs kss now c
  | Ev_FlagUpdated key _ e _ _ _ => update_flag_enabled key e now c
  | Ev_FlagArchived key _ => archive_flag key now c
  | Ev_FlagRestored key _ e _ => restore_flag key e now c
  | Ev_KillSwitchActivated key _ reason _ => activate_kill_switch key reason now c
  | Ev_KillSwitchDeactivated key _ _ => deactivate_kill_switch key now c
  | Ev_Heartbeat _ => c
  end.

Definition process_event (parse : string -> result string FlagStreamEvent) (data : string)
    (now : DateTime) (c : CacheInner) : CacheInner * result FlagsError unit :=
  if bool_decide (data = "") then (c, Ok tt)
  else match parse data with
       | Err e => (c, Err (ParseFailed e))
       | Ok ev => (apply_event ev now c, Ok tt)
       end.

(** ** client.rs

    The stream task may change the cache between two reads, so every read has
    its own cache argument. *)
Definition evaluate_flag_cached (c c' : CacheInner) (key : string)
    : result FlagsError EvaluationResult :=
  if negb (initialized c) then Err OfflineNoCache
  else match get_flag c' key with
       | None => Err (FlagNotFound key)
       | Some f =>
           if fs_archived f || negb (fs_enabled f) then
             Ok (mkEvaluationResult key (fs_default_variant f) (fs_default_value f) Reason_Disabled)
           else
             Ok (mkEvaluationResult key (fs_default_variant f) (fs_default_value f) Reason_Default)
       end.

(** [evaluate_flag]: [order] is the walk of [is_flag_killed] over the cache,
    [c1], [c2] and [c3] the cache at the later reads, [server] the answer of the
    server, [fresh] the id [KillSwitchId::new()] draws.  The second component
    tells whether the exposure is tracked. *)
Definition client_evaluate_flag (offline_mode : bool) (order : list KillSwitchState)
    (c1 c2 c3 : CacheInner) (server : result FlagsError EvaluationResult)
    (fresh : KillSwitchId) (key : string) : result FlagsError EvaluationResult * bool :=
  let from_server :=
    match server with
    | Ok r => (Ok r, true)
    | Err e =>
        if should_use_cache e && offline_mode then
          match evaluate_flag_cached c2 c3 key with
          | Ok r => (Ok r, true)
          | Err e => (Err e, false)
          end
        else (Err e, false)
    end in
  match is_flag_killed order key with
  | Some _ =>
      match get_flag c1 key with
      | Some f =>
          (Ok (mkEvaluationResult key (fs_default_variant f) (fs_default_value f)
                 (Reason_KillSwitch fresh)), true)
      | None => from_server
      end
  | None => from_server
  end.

(** [get_bool] and [get_string]. *)
Definition client_get_bool (closed : bool) (r : result FlagsError EvaluationResult) (dflt : bool)
    : result FlagsError bool :=
  if closed then Err ClientClosed
  else r ← r; Ok (default dflt (as_bool (value r))).
Definition client_get_string (closed : bool) (r : result FlagsError EvaluationResult)
    (dflt : string) : result FlagsError string :=
  if closed then Err ClientClosed
  else r ← r; Ok (default dflt (as_str (value r))).

(** * What the cache holds after a stream of events *)

Definition is_init (e : FlagStreamEvent) : bool :=
  match e with Ev_Init _ _ _ => true | _ => false end.

Definition apply_events (evs : list (FlagStreamEvent * DateTime)) (c : CacheInner) : CacheInner :=
  fold_left (fun c ev => apply_event ev.1 ev.2 c) evs c.

Lemma lookup_alter_if {A} (m : gmap string A) k k' (g : A -> A) :
  alter g k m !! k' = (fun x => if bool_decide (k = k') then g x else x) <$> m !! k'.
Proof.
  destruct (decide (k = k')) as [->|Hne].
  - rewrite lookup_alter_eq, bool_decide_eq_true_2 by done. done.
  - rewrite lookup_alter_ne, bool_decide_eq_false_2 by done. by destruct (m !! k').
Qed.

Lemma option_fmap_id' {A} (o : option A) : (fun x => x) <$> o = o.
Proof. by destruct o. Qed.

(** ** The specification

    What an event says of one flag or switch, and the last word of a stream on it. *)
Definition enabled_by (key : string) (e : FlagStreamEvent) : option bool :=
  match e with
  | Ev_FlagUpdated k _ b _ _ _ | Ev_FlagRestored k _ b _ => if bool_decide (k = key) then Some b else None
  | _ => None
  end.
Definition archived_by (key : string) (e : FlagStreamEvent) : option bool :=
  match e with
  | Ev_FlagArchived k _ => if bool_decide (k = key) then Some true else None
  | Ev_FlagRestored k _ _ _ => if bool_decide (k = key) then Some false else None
  | _ => None
  end.
(** The reason of an activation, [None] for a deactivation. *)
Definition switched_by (key : string) (e : FlagStreamEvent) : option (option string) :=
  match e with
  | Ev_KillSwitchActivated k _ reason _ => if bool_decide (k = key) then Some (Some reason) else None
  | Ev_KillSwitchDeactivated k _ _ => if bool_decide (k = key) then Some None else None
  | _ => None
  end.

Definition last_word {A} (f : FlagStreamEvent -> option A) (evs : list (FlagStreamEvent * DateTime)) : option A :=
  last (omap (fun ev => f ev.1) evs).

(** The flag [f] after the events. *)
Definition flag_after (evs : list (FlagStreamEvent * DateTime)) (key : string) (f : FlagState) : FlagState := {|
  fs_key := fs_key f;
  fs_id := fs_id f;
  fs_enabled := default (fs_enabled f) (last_word (enabled_by key) evs);
  fs_default_variant := fs_default_variant f;
  fs_default_value := fs_default_value f;
  fs_archived := default (fs_archived f) (last_word (archived_by key) evs);
|}.

(** The switch [ks] after the events. *)
Definition switch_after (evs : list (FlagStreamEvent * DateTime)) (key : string) (ks : KillSwitchState)
    : KillSwitchState := {|
  kss_key := kss_key ks;
  kss_id := kss_id ks;
  kss_is_active := match last_word (switched_by key) evs with
                   | Some (Some _) => true
                   | Some None => false
                   | None => kss_is_active ks
                   end;
  kss_linked_flag_keys := kss_linked_flag_keys ks;
  kss_activation_reason := default (kss_activation_reason ks) (last_word (switched_by key) evs);
|}.

Lemma last_word_cons {A} (f : FlagStreamEvent -> option A) ev evs :
  last_word f (ev :: evs) = match last_word f evs with Some a => Some a | None => f ev.1 end.
Proof.
  unfold last_word. cbn. destruct (f ev.1) as [a|]; [|by destruct (last _)].
  by rewrite last_cons.
Qed.

(** An event is applied before the rest. *)
Lemma apply_event_flags e now c key evs : is_init e = false ->
  flag_after ((e, now) :: evs) key <$> flags c !! key = flag_after evs key <$> flags (apply_event e now c) !! key.
Proof.
  intros He. unfold flag_after at 1. destruct (flags c !! key) as [f|] eqn:Hf.
  2:{ destruct e; try done; cbn; by rewrite ?lookup_alter_if, Hf. }
  destruct e; try done; cbn; rewrite ?lookup_alter_if, Hf; cbn; unfold flag_after; rewrite !last_word_cons; cbn;
    try (case_bool_decide; cbn); destruct (last_word _ evs), (last_word _ evs); done.
Qed.

Lemma apply_event_switches e now c key evs : is_init e = false ->
  switch_after ((e, now) :: evs) key <$> kill_switches c !! key
  = switch_after evs key <$> kill_switches (apply_event e now c) !! key.
Proof.
  intros He. unfold switch_after at 1. destruct (kill_switches c !! key) as [ks|] eqn:Hks.
  2:{ destruct e; try done; cbn; by rewrite ?lookup_alter_if, Hks. }
  destruct e; try done; cbn; rewrite ?lookup_alter_if, Hks; cbn; unfold switch_after; rewrite !last_word_cons; cbn;
    try (case_bool_decide; cbn); destruct (last_word _ evs); done.
Qed.

(** The walk finds a switch exactly when an active one is linked to the key. *)
Lemma is_flag_killed_spec c order key :
  iteration_of c order ->
  is_Some (is_flag_killed order key) <->
  exists k ks, kill_switches c !! k = Some ks /\ kills key ks = true.
Proof.
  intros Hord. unfold is_flag_killed. rewrite fmap_is_Some. split.
  - intros [ks Hks]. apply List.find_some in Hks as [Hin%list_elem_of_In Hk].
    rewrite Hord in Hin. apply list_elem_of_fmap in Hin as ([k ks'] & -> & Hin).
    exists k, ks'. by rewrite elem_of_map_to_list in Hin.
  - intros (k & ks & Hks & Hk). destruct (List.find (kills key) order) eqn:E; [done|].
    assert (ks ∈ order) as Hin.
    { rewrite Hord. apply list_elem_of_fmap. exists (k, ks). by rewrite elem_of_map_to_list. }
    apply list_elem_of_In in Hin. by rewrite (List.find_none _ _ E _ Hin) in Hk.
Qed.

Lemma after_nothing c key :
  flag_after [] key <$> flags c !! key = flags c !! key
  /\ switch_after [] key <$> kill_switches c !! key = kill_switches c !! key.
Proof. split; [destruct (flags c !! key) as [[]|]|destruct (kill_switches c !! key) as [[]|]]; done. Qed.

Lemma find_snoc {A} (q : A -> bool) l a :
  List.find q (l ++ [a]) = match List.find q l with Some x => Some x | None => if q a then Some a else None end.
Proof. induction l as [|x l IH]; [done|]. cbn. by destruct (q x). Qed.

Lemma fold_insert_last {A} (g : A -> string) (l : list A) (m : gmap string A) key :
  fold_left (fun m a => <[g a := a]> m) l m !! key
  = match List.find (fun a => bool_decide (g a = key)) (rev l) with Some a => Some a | None => m !! key end.
Proof.
  revert m. induction l as [|a l IH]; intros m; [done|]. cbn [fold_left rev]. rewrite IH, find_snoc.
  destruct (List.find _ (rev l)); [done|]. case_bool_decide as E; [by rewrite E, lookup_insert_eq|].
  by rewrite lookup_insert_ne.
Qed.

Lemma initialized_stays evs c : initialized c = true -> initialized (apply_events evs c) = true.
Proof.
  revert c. induction evs as [|[e now] evs IH]; intros c Hc; [done|]. cbn. apply IH. by destruct e.
Qed.

Lemma follows_since evs c key :
  forallb (fun ev => negb (is_init ev.1)) evs = true ->
  flags (apply_events evs c) !! key = flag_after evs key <$> flags c !! key /\
  kill_switches (apply_events evs c) !! key = switch_after evs key <$> kill_switches c !! key.
Proof.
  revert c. induction evs as [|[e now] evs IH]; intros c Hev.
  - destruct (after_nothing c key) as [-> ->]. done.
  - cbn [forallb] in Hev. apply andb_true_iff in Hev as [He%negb_true_iff Hev]. cbn [fst] in He.
    rewrite (apply_event_flags e now c key evs He), (apply_event_switches e now c key evs He).
    by apply IH.
Qed.

(** * Properties *)

(** C10. The cache is what the stream said last: after any events since the last
    [init], a flag of the cache keeps its identity and defaults, is enabled as the last
    update or restoration of its key says, and archived if the last archiving or
    restoration of its key was an archiving; a kill switch is active, with its reason, if
    its last event was an activation, and inactive without one after a deactivation; what no
    event mentions is as before and an unknown key stays unknown.  An [init] forgets
    everything before it: the entries are the last ones it lists for their keys. *)
Theorem cache_follows_stream evs c key :
  forallb (fun ev => negb (is_init ev.1)) evs = true ->
  flags (apply_events evs c) !! key = flag_after evs key <$> flags c !! key /\
  kill_switches (apply_events evs c) !! key = switch_after evs key <$> kill_switches c !! key /\
  forall before fs kss t now,
    let c' := apply_events (before ++ (Ev_Init fs kss t, now) :: evs) c in
    initialized c' = true /\
    flags c' !! key = flag_after evs key <$> List.find (fun f => bool_decide (fs_key f = key)) (rev fs) /\
    kill_switches c' !! key
      = switch_after evs key <$> List.find (fun ks => bool_decide (kss_key ks = key)) (rev kss).
Proof.
  intros Hev. destruct (follows_since evs c key Hev) as [H1 H2]. split; [done|]. split; [done|].
  intros before fs kss t now c'. set (c0 := apply_event (Ev_Init fs kss t) now (apply_events before c)).
  assert (E : c' = apply_events evs c0) by (unfold c', apply_events; by rewrite fold_left_app).
  destruct (follows_since evs c0 key Hev) as [H3 H4]. rewrite E. split; [by apply initialized_stays|].
  rewrite H3, H4. unfold c0. cbn. unfold insert_flags, insert_kill_switches. rewrite !fold_insert_last.
  rewrite !lookup_empty. split; f_equal; by destruct (List.find _ _).
Qed.

(** A kill switch works locally: once the activation of a switch the cache
    knows has been applied, every flag it is linked to and that the cache knows
    evaluates to its cached default, whatever the iteration order of the map and
    without asking the server. *)
Theorem local_kill_switch c k ks key linked why t now order c1 c2 c3 f server offline fresh :
  kill_switches c !! k = Some ks -> key ∈ kss_linked_flag_keys ks ->
  iteration_of (apply_event (Ev_KillSwitchActivated k linked why t) now c) order ->
  get_flag c1 key = Some f ->
  client_evaluate_flag offline order c1 c2 c3 server fresh key =
  (Ok (mkEvaluationResult key (fs_default_variant f) (fs_default_value f)
         (Reason_KillSwitch fresh)), true).
Proof.
  intros Hks Hkey Hord Hf. unfold client_evaluate_flag. rewrite Hf.
  assert (is_Some (is_flag_killed order key)) as [k' ->]; [|done].
  apply (is_flag_killed_spec _ _ _ Hord). exists k, (set_active why ks). split.
  - cbn. by rewrite lookup_alter_eq, Hks.
  - unfold kills. cbn. apply existsb_spec, Exists_exists. exists key.
    split; [done|by apply bool_decide_eq_true_2].
Qed.

(** The server's [init] lists the active switches only, so one activated later
    is not in the cache and its activation changes no entry. *)
Lemma late_activation_lost c k linked why t now :
  kill_switches c !! k = None ->
  kill_switches (apply_event (Ev_KillSwitchActivated k linked why t) now c) = kill_switches c.
Proof.
  intros Hk. apply map_eq. intros k'. cbn. destruct (decide (k = k')) as [<-|Hne].
  - by rewrite lookup_alter_eq, Hk.
  - by rewrite lookup_alter_ne.
Qed.

End FlagClient.

(** ** Witnesses *)

Local Open Scope Z_scope.

#[local] Instance demo_serde : SerdeJson := {| Json := string; json_to_string := Some |}.
#[local] Instance demo_json : JsonValue := {|
  json_eqb := String.eqb;
  json_as_str := Some;
  json_as_array := fun _ => None;
  json_as_f64 := fun _ => None;
|}.

Definition demo_state : FlagState := mkFlagState "a.b" 1%N true "off" (VBoolean false) false.
Definition demo_switch_state : KillSwitchState := mkKillSwitchState "stop" 2%N false ["a.b"] None.
Definition demo_cache : CacheInner := initialize [demo_state] [demo_switch_state] 5 FlagCache_new.

Definition demo_events : list (FlagStreamEvent * DateTime) :=
  [(Ev_FlagArchived "a.b" 1, 1); (Ev_KillSwitchActivated "stop" ["a.b"] "incident" 2, 2);
   (Ev_FlagRestored "a.b" "prod" false 3, 3)].

Lemma cache_follows_stream_witness :
  flags (apply_events demo_events demo_cache) !! "a.b"
    = Some (mkFlagState "a.b" 1%N false "off" (VBoolean false) false) /\
  kill_switches (apply_events demo_events demo_cache) !! "stop"
    = Some (mkKillSwitchState "stop" 2%N true ["a.b"] (Some "incident")).
Proof.
  rewrite (proj1 (cache_follows_stream demo_events demo_cache "a.b" eq_refl)).
  rewrite (proj1 (proj2 (cache_follows_stream demo_events demo_cache "stop" eq_refl))).
  split; reflexivity.
Defined.

Lemma local_kill_switch_witness :
  client_evaluate_flag true [set_active "incident" demo_switch_state] demo_cache demo_cache
    demo_cache (Err OfflineNoCache) 7%N "a.b" =
  (Ok (mkEvaluationResult "a.b" "off" (VBoolean false) (Reason_KillSwitch 7%N)), true).
Proof.
  refine (local_kill_switch demo_cache "stop" demo_switch_state "a.b" ["a.b"] "incident" 9 9
    [set_active "incident" demo_switch_state] demo_cache demo_cache demo_cache demo_state _ true
    7%N _ _ _ _); [reflexivity|cbn; set_solver| |reflexivity].
  unfold iteration_of. vm_compute. reflexivity.
Defined.
