(* ===== verification/Pool.v ===== *)
(** The Anthropic account pool, [crates/loom-server-llm-anthropic/src/pool.rs]:
    accounts with failover, cooldown and two selection strategies.  The accounts
    live under one lock and their runtimes under another, so [add_account] and
    [remove_account] are two atomic steps each; both the steps and the whole
    operations are modelled.  Clock readings, answers of the upstream client and
    of the credential store are arguments. *)
From stdpp Require Import base list strings.
From Stdlib Require Import ZArith.
From S2P Require Import Prelude CoreTypes.

(** ** client.rs: classification of error messages *)
Definition is_quota_message (msg : string) : bool :=
  let lower := to_ascii_lowercase msg in
  str_contains lower "5-hour" || str_contains lower "5 hour"
  || str_contains lower "rolling window" || str_contains lower "usage limit for your plan"
  || str_contains lower "subscription usage limit".

Definition is_permanent_auth_message (msg : string) : bool :=
  let lower := to_ascii_lowercase msg in
  str_contains lower "401" || str_contains lower "403" || str_contains lower "unauthorized"
  || str_contains lower "forbidden" || str_contains lower "invalid api key"
  || str_contains lower "invalid authentication" || str_contains lower "authentication failed"
  || str_contains lower "invalid token" || str_contains lower "expired token".

(** ** Data *)
Inductive AccountStatus :=
| Available
| CoolingDown (until : Instant)
| Disabled.

#[export] Instance AccountStatus_eq_dec : EqDecision AccountStatus.
Proof. solve_decision. Defined.

Inductive AccountSelectionStrategy := RoundRobin | FirstAvailable.

(** Durations are nanoseconds. *)
Record AnthropicPoolConfig := mkPoolConfig {
  cooldown : Z;
  strategy : AccountSelectionStrategy;
}.

Definition AnthropicPoolConfig_default : AnthropicPoolConfig :=
  mkPoolConfig (2 * 60 * 60 * 1000000000) RoundRobin.

Inductive AccountHealthStatus := Health_Available | Health_CoolingDown | Health_Disabled.

Record AccountHealthInfo := mkHealthInfo {
  hi_id : string;
  hi_status : AccountHealthStatus;
  hi_cooldown_remaining_secs : option Z;
  hi_last_error : option string;
}.

Record PoolStatus := mkPoolStatus {
  accounts_total : nat;
  accounts_available : nat;
  accounts_cooling : nat;
  accounts_disabled : nat;
  ps_accounts : list AccountHealthInfo;
}.

Record AccountRuntime := mkRuntime {
  status : AccountStatus;
  last_error : option string;
}.

Definition AccountRuntime_default : AccountRuntime := mkRuntime Available None.

(** [accounts] (an entry is its id; the clients are arguments of the calls),
    and [PoolState]. *)
Record AnthropicPool := mkPool {
  accounts : list string;
  runtimes : list AccountRuntime;
  next_index : nat;
}.

Definition AnthropicPool_empty : AnthropicPool := mkPool [] [] 0.

(** What the credential store holds for a provider, and whether a client could
    be made from it. *)
Inductive StoredCredential :=
| Stored_OAuth (client_ok : bool)
| Stored_ApiKey
| Stored_None
| Stored_Error.

Definition loadable (c : StoredCredential) : bool :=
  match c with Stored_OAuth ok => ok | _ => false end.

Definition AnthropicPool_new (provider_ids : list string) (load : string -> StoredCredential)
    : result LlmError AnthropicPool :=
  let accounts := List.filter (fun p => loadable (load p)) provider_ids in
  match accounts with
  | [] => Err (LlmError_Api "No valid OAuth accounts could be loaded for the pool")
  | _ => Ok (mkPool accounts ((fun _ => AccountRuntime_default) <$> accounts) 0)
  end.

(** ** Atomic steps *)
Definition push_account (id : string) (p : AnthropicPool) : AnthropicPool :=
  mkPool (accounts p ++ [id]) (runtimes p) (next_index p).
Definition push_runtime (p : AnthropicPool) : AnthropicPool :=
  mkPool (accounts p) (runtimes p ++ [AccountRuntime_default]) (next_index p).

(** [accounts.remove(index)] panics out of range. *)
Definition remove_entry (index : nat) (p : AnthropicPool) : run AnthropicPool :=
  if (index <? length (accounts p))%nat
  then Done (mkPool (remove_at index (accounts p)) (runtimes p) (next_index p))
  else Panic.

Definition remove_runtime (index : nat) (p : AnthropicPool) : AnthropicPool :=
  let rts := if (index <? length (runtimes p))%nat then remove_at index (runtimes p)
             else runtimes p in
  let next := if (length rts <=? next_index p)%nat && negb (length rts =? 0)%nat then 0%nat
              else next_index p in
  mkPool (accounts p) rts next.

(** The sweep at the start of [select_account_index]. *)
Definition refresh_runtime (now : Instant) (rt : AccountRuntime) : AccountRuntime :=
  match status rt with
  | CoolingDown until => if (until <=? now)%Z then mkRuntime Available None else rt
  | _ => rt
  end.

(** [for i in 0..n]: indexing [runtimes] panics out of range. *)
Fixpoint round_robin_scan (n start : nat) (rts : list AccountRuntime) (ixs : list nat)
    : run (option nat) :=
  match ixs with
  | [] => Done None
  | i :: ixs =>
      let idx := ((start + i) mod n)%nat in
      match rts !! idx with
      | None => Panic
      | Some rt => if bool_decide (status rt = Available) then Done (Some idx)
                   else round_robin_scan n start rts ixs
      end
  end.

Definition is_available (rt : AccountRuntime) : bool := bool_decide (status rt = Available).

(** [debug] is whether the debug log line, which indexes [accounts], is
    evaluated. *)
Definition select_account_index (debug : bool) (strat : AccountSelectionStrategy) (now : Instant)
    (p : AnthropicPool) : run (AnthropicPool * option nat) :=
  let n := length (accounts p) in
  let rts := refresh_runtime now <$> runtimes p in
  match strat with
  | RoundRobin =>
      found ← round_robin_scan n (next_index p) rts (seq 0 n);
      match found with
      | Some idx => Done (mkPool (accounts p) rts ((idx + 1) mod n)%nat, Some idx)
      | None => Done (mkPool (accounts p) rts (next_index p), None)
      end
  | FirstAvailable =>
      match position is_available rts with
      | Some idx =>
          if debug && negb (idx <? n)%nat then Panic
          else Done (mkPool (accounts p) rts (next_index p), Some idx)
      | None => Done (mkPool (accounts p) rts (next_index p), None)
      end
  end.

(** [state.runtimes[index]] is assigned; out of range it panics. *)
Definition set_runtime (index : nat) (rt : AccountRuntime) (p : AnthropicPool)
    : run AnthropicPool :=
  if (index <? length (runtimes p))%nat
  then Done (mkPool (accounts p) (<[index := rt]> (runtimes p)) (next_index p))
  else Panic.

(** [Instant + Duration]: the clock has 64-bit signed seconds, and a sum beyond its end
    panics. *)
Definition INSTANT_END : Instant := (2 ^ 63 * 1000000000)%Z.
Definition instant_add (t : Instant) (d : Z) : run Instant :=
  if (t + d <? INSTANT_END)%Z then Done (t + d)%Z else Panic.

Definition mark_cooling (cfg : AnthropicPoolConfig) (index : nat) (msg : string) (now : Instant)
    (p : AnthropicPool) : run AnthropicPool :=
  until ← instant_add now (cooldown cfg);
  set_runtime index (mkRuntime (CoolingDown until) (Some msg)) p.
Definition mark_disabled (index : nat) (msg : string) : AnthropicPool -> run AnthropicPool :=
  set_runtime index (mkRuntime Disabled (Some msg)).

(** The step of the refresh task after a failed token refresh. *)
Definition mark_refresh_failed (index : nat) (e : string) (p : AnthropicPool) : AnthropicPool :=
  if (index <? length (runtimes p))%nat
  then mkPool (accounts p)
         (<[index := mkRuntime Disabled (Some ("Token refresh failed: " +:+ e))]> (runtimes p))
         (next_index p)
  else p.

(** ** Whole operations *)

(** [save] and [client] are the answers of the store and of the client
    constructor. *)
Definition add_account (id : string) (save : result string unit) (client : result LlmError unit)
    (p : AnthropicPool) : AnthropicPool * result LlmError unit :=
  match save with
  | Err e => (p, Err (LlmError_Api ("Failed to persist credentials: " +:+ e)))
  | Ok _ => match client with
            | Err e => (p, Err e)
            | Ok _ => (push_runtime (push_account id p), Ok tt)
            end
  end.

Definition account_position (id : string) (p : AnthropicPool) : option nat :=
  position (fun a => bool_decide (a = id)) (accounts p).

Definition remove_account (id : string) (delete : result string unit) (p : AnthropicPool)
    : run (AnthropicPool * result LlmError unit) :=
  match account_position id p with
  | None => Done (p, Err (LlmError_Api ("Account not found: " +:+ id)))
  | Some index =>
      p ← remove_entry index p;
      let p := remove_runtime index p in
      match delete with
      | Err e => Done (p, Err (LlmError_Api ("Failed to delete credentials: " +:+ e)))
      | Ok _ => Done (p, Ok tt)
      end
  end.

Definition load_from_file (store : result string (list (string * StoredCredential)))
    (p : AnthropicPool) : AnthropicPool * result LlmError nat :=
  match store with
  | Err e => (p, Err (LlmError_Api ("Failed to read credential file: " +:+ e)))
  | Ok entries =>
      let '(p, count) :=
        fold_left (fun '(p, count) '(id, c) =>
          if loadable c then (push_runtime (push_account id p), S count) else (p, count))
          entries (p, 0%nat) in
      (p, Ok count)
  end.

Definition account_ids (p : AnthropicPool) : list string := accounts p.

Definition health_of (now : Instant) (s : AccountStatus) : AccountHealthStatus * option Z :=
  match s with
  | Available => (Health_Available, None)
  | CoolingDown until =>
      (Health_CoolingDown, Some (if (now <? until)%Z then (until - now) / 1000000000 else 0)%Z)
  | Disabled => (Health_Disabled, None)
  end.

Definition health_info (now : Instant) (id : string) (rt : AccountRuntime) : AccountHealthInfo :=
  let '(h, remaining) := health_of now (status rt) in
  mkHealthInfo id h remaining (last_error rt).

Definition count_status (f : AccountStatus -> bool) (rts : list AccountRuntime) : nat :=
  length (List.filter (fun rt => f (status rt)) rts).
Definition st_available (s : AccountStatus) : bool :=
  match s with Available => true | _ => false end.
Definition st_cooling (s : AccountStatus) : bool :=
  match s with CoolingDown _ => true | _ => false end.
Definition st_disabled (s : AccountStatus) : bool :=
  match s with Disabled => true | _ => false end.

Definition pool_status (now : Instant) (p : AnthropicPool) : PoolStatus :=
  let listed := zip (accounts p) (runtimes p) in
  mkPoolStatus (length (accounts p))
    (count_status st_available listed.*2) (count_status st_cooling listed.*2)
    (count_status st_disabled listed.*2)
    ((fun '(id, rt) => health_info now id rt) <$> listed).

(** What [complete] does with the error of the upstream client, after the
    selection of [index] at [t0]; [now] is the later clock reading. *)
Definition handle_client_error (cfg : AnthropicPoolConfig) (index : nat) (e : LlmError)
    (now : Instant) (p : AnthropicPool) : run AnthropicPool :=
  let msg := LlmError_to_string e in
  if is_quota_message msg then mark_cooling cfg index msg now p
  else if is_permanent_auth_message msg then mark_disabled index msg p
  else Done p.

(** [complete] and [complete_streaming] differ in the client method they call. *)
Definition complete {R} (debug : bool) (cfg : AnthropicPoolConfig) (t0 now : Instant)
    (client : string -> result LlmError R) (p : AnthropicPool)
    : run (AnthropicPool * result LlmError R) :=
  '(p, selected) ← select_account_index debug (strategy cfg) t0 p;
  match selected with
  | None => Done (p, Err (LlmError_RateLimited None))
  | Some index =>
      match accounts p !! index with
      | None => Done (p, Err (LlmError_Api "Account index out of bounds"))
      | Some id =>
          match client id with
          | Ok r => Done (p, Ok r)
          | Err e => p ← handle_client_error cfg index e now p; Done (p, Err e)
          end
      end
  end.

(** * Invariant *)

Record pool_wf (p : AnthropicPool) : Prop := {
  wf_lengths : length (runtimes p) = length (accounts p);
  wf_next : next_index p = 0%nat \/ (next_index p < length (accounts p))%nat;
}.

(** Ready at [now]: available, or cooling down with the time over. *)
Definition usable (now : Instant) (rt : AccountRuntime) : bool :=
  is_available (refresh_runtime now rt).

Definition usable_at (now : Instant) (p : AnthropicPool) (idx : nat) : Prop :=
  exists rt, runtimes p !! idx = Some rt /\ usable now rt = true.

(** The offsets from [start] that are available. *)
Definition offset_available (n start : nat) (rts : list AccountRuntime) (i : nat) : bool :=
  match rts !! ((start + i) mod n)%nat with Some rt => is_available rt | None => false end.

Lemma round_robin_scan_spec n start rts ixs :
  (0 < n)%nat -> length rts = n ->
  round_robin_scan n start rts ixs =
  Done ((fun i => (start + i) mod n)%nat <$> List.find (offset_available n start rts) ixs).
Proof.
  intros Hn Hlen. induction ixs as [|i ixs IH]; [done|]. cbn [round_robin_scan List.find].
  unfold offset_available at 1.
  destruct (rts !! ((start + i) mod n)%nat) as [rt|] eqn:E.
  - unfold is_available. case_bool_decide; [done|apply IH].
  - apply lookup_ge_None in E. pose proof (Nat.mod_upper_bound (start + i) n). lia.
Qed.

Lemma find_seq_spec f n i :
  List.find f (seq 0 n) = Some i <->
  (i < n)%nat /\ f i = true /\ forall k, (k < i)%nat -> f k = false.
Proof.
  rewrite find_Some_lookup. split.
  - intros (k & Hpos & Hk). apply lookup_seq in Hk as [-> Hk].
    apply position_Some in Hpos as (x & Hx & Hf & Hmin). apply lookup_seq in Hx as [-> _].
    repeat split; [done|done|]. intros k' Hk'. apply (Hmin k'); [done|].
    apply lookup_seq. lia.
  - intros (Hi & Hf & Hmin). exists i. assert (seq 0 n !! i = Some i) by (apply lookup_seq; lia).
    split; [|done]. apply position_Some. exists i. repeat split; [done..|].
    intros j y Hj [-> ?]%lookup_seq. auto.
Qed.

Lemma find_seq_none f n : List.find f (seq 0 n) = None -> forall k, (k < n)%nat -> f k = false.
Proof.
  intros H k Hk. apply (List.find_none _ _ H). apply in_seq. lia.
Qed.

Lemma offset_reaches n s j : (s < n)%nat -> (j < n)%nat -> exists d, (d < n)%nat /\ ((s + d) mod n = j)%nat.
Proof.
  intros Hs Hj. destruct (decide (s <= j)%nat).
  - exists (j - s)%nat. split; [lia|]. rewrite Nat.mod_small; lia.
  - exists (j + n - s)%nat. split; [lia|].
    replace (s + (j + n - s))%nat with (j + 1 * n)%nat by lia.
    rewrite Nat.Div0.mod_add. by apply Nat.mod_small.
Qed.

Lemma usable_refreshed now p idx :
  usable_at now p idx <->
  exists rt, (refresh_runtime now <$> runtimes p) !! idx = Some rt /\ is_available rt = true.
Proof.
  unfold usable_at, usable. rewrite list_lookup_fmap. split.
  - intros (rt & -> & H). by eexists.
  - intros (rt & (rt' & -> & ->)%fmap_Some & H). by eexists.
Qed.

(** Round robin finds the first usable account in cyclic order. *)
Lemma select_round_robin debug now p :
  pool_wf p ->
  let n := length (accounts p) in
  let rts := refresh_runtime now <$> runtimes p in
  (exists i, (i < n)%nat /\ usable_at now p ((next_index p + i) mod n)%nat /\
     (forall k, (k < i)%nat -> ~ usable_at now p ((next_index p + k) mod n)%nat) /\
     select_account_index debug RoundRobin now p =
       Done (mkPool (accounts p) rts (((next_index p + i) mod n + 1) mod n)%nat,
             Some ((next_index p + i) mod n)%nat)) \/
  ((forall idx, ~ usable_at now p idx) /\
   select_account_index debug RoundRobin now p =
     Done (mkPool (accounts p) rts (next_index p), None)).
Proof.
  intros [Hlen Hnext] n rts. unfold select_account_index. fold n rts.
  assert (length rts = n) as Hrts by (unfold rts; by rewrite length_fmap).
  assert (Husable : forall i, (0 < n)%nat -> offset_available n (next_index p) rts i = true <->
    usable_at now p ((next_index p + i) mod n)%nat).
  { intros i Hn. rewrite usable_refreshed. fold rts. unfold offset_available.
    destruct (rts !! _); naive_solver. }
  destruct (decide (n = 0%nat)) as [Hz|Hn].
  { right. rewrite Hz. split; [|done]. intros idx (rt & Hrt%lookup_lt_Some & _). lia. }
  rewrite round_robin_scan_spec by lia.
  destruct (List.find _ (seq 0 n)) as [i|] eqn:E; cbn.
  - left. apply find_seq_spec in E as (Hi & Hf & Hmin). exists i.
    split; [done|]. split; [apply Husable; [lia|done]|]. split; [|done].
    intros k Hk Hu%Husable; [|lia]. rewrite Hmin in Hu; done.
  - right. split; [|done]. intros idx Hu.
    assert (idx < n)%nat by (destruct Hu as (rt & Hrt%lookup_lt_Some & _); lia).
    destruct (offset_reaches n (next_index p) idx) as (d & Hd & Hidx); [lia|done|].
    rewrite <-Hidx in Hu. apply Husable in Hu; [|lia]. by rewrite (find_seq_none _ _ E) in Hu.
Qed.

Lemma select_first_available debug now p :
  pool_wf p ->
  let rts := refresh_runtime now <$> runtimes p in
  (exists idx, usable_at now p idx /\ (forall k, (k < idx)%nat -> ~ usable_at now p k) /\
     select_account_index debug FirstAvailable now p =
       Done (mkPool (accounts p) rts (next_index p), Some idx)) \/
  ((forall idx, ~ usable_at now p idx) /\
   select_account_index debug FirstAvailable now p =
     Done (mkPool (accounts p) rts (next_index p), None)).
Proof.
  intros [Hlen Hnext] rts. unfold select_account_index. fold rts.
  destruct (position is_available rts) as [idx|] eqn:E.
  - left. exists idx. assert (idx < length (accounts p))%nat as Hlt.
    { apply position_lt in E. unfold rts in E. rewrite length_fmap in E. lia. }
    apply position_Some in E as (rt & Hrt & Hav & Hmin).
    split; [by apply usable_refreshed; eexists|]. split.
    + intros k Hk (rt' & Hrt' & Hav')%usable_refreshed. by rewrite (Hmin k rt') in Hav'.
    + rewrite (proj2 (Nat.ltb_lt _ _) Hlt), andb_false_r. done.
  - right. split; [|done]. intros idx (rt & Hrt & Hav)%usable_refreshed.
    apply position_None in E. rewrite Forall_lookup in E. by rewrite (E _ _ Hrt) in Hav.
Qed.

Lemma select_correct debug strat now p :
  pool_wf p ->
  let n := length (accounts p) in
  exists p' r, select_account_index debug strat now p = Done (p', r) /\ pool_wf p' /\
    accounts p' = accounts p /\ runtimes p' = refresh_runtime now <$> runtimes p /\
    match r, strat with
    | None, _ => forall idx, ~ usable_at now p idx
    | Some idx, FirstAvailable =>
        usable_at now p idx /\ next_index p' = next_index p /\
        forall k, (k < idx)%nat -> ~ usable_at now p k
    | Some idx, RoundRobin =>
        usable_at now p idx /\ next_index p' = ((idx + 1) mod n)%nat /\
        exists i, (i < n)%nat /\ idx = ((next_index p + i) mod n)%nat /\
          forall k, (k < i)%nat -> ~ usable_at now p ((next_index p + k) mod n)%nat
    end.
Proof.
  intros Hwf n.
  assert (Hsame : forall next, next = next_index p \/ (next < n)%nat ->
    pool_wf (mkPool (accounts p) (refresh_runtime now <$> runtimes p) next)).
  { intros next Hnext. destruct Hwf as [Hl Hn]. split; cbn; [by rewrite length_fmap|].
    fold n in Hn |- *. lia. }
  destruct strat.
  - destruct (select_round_robin debug now p Hwf) as [(i & Hi & Hu & Hmin & E)|(Hno & E)].
    + eexists _, _. split; [exact E|]. split; [|eauto 10].
      apply Hsame. right. apply Nat.mod_upper_bound. lia.
    + eexists _, _. split; [exact E|]. split; [apply Hsame; by left|done].
  - destruct (select_first_available debug now p Hwf) as [(i & Hu & Hmin & E)|(Hno & E)].
    + eexists _, _. split; [exact E|]. split; [apply Hsame; by left|done].
    + eexists _, _. split; [exact E|]. split; [apply Hsame; by left|done].
Qed.

(** ** Every operation keeps the invariant *)

Lemma push_wf id p : pool_wf p -> pool_wf (push_runtime (push_account id p)).
Proof.
  intros [Hl Hn]. split; cbn; rewrite !length_app; cbn; [lia|]. destruct Hn; [by left|right; lia].
Qed.

Lemma load_entries_wf entries p count :
  pool_wf p ->
  pool_wf (fold_left (fun '(p, count) '(id, c) =>
    if loadable c then (push_runtime (push_account id p), S count) else (p, count))
    entries (p, count)).1.
Proof.
  revert p count. induction entries as [|[id c] entries IH]; intros p count Hwf; [done|].
  cbn. destruct (loadable c); apply IH; [by apply push_wf|done].
Qed.

Lemma load_from_file_wf store p : pool_wf p -> pool_wf (load_from_file store p).1.
Proof.
  intros Hwf. destruct store as [entries|e]; [|done]. cbn.
  pose proof (load_entries_wf entries p 0 Hwf). by destruct (fold_left _ _ _).
Qed.

Lemma set_runtime_wf index rt p :
  pool_wf p -> (index < length (accounts p))%nat ->
  exists p', set_runtime index rt p = Done p' /\ pool_wf p' /\ accounts p' = accounts p /\
    runtimes p' = <[index := rt]> (runtimes p).
Proof.
  intros [Hl Hn] Hi. unfold set_runtime. rewrite (proj2 (Nat.ltb_lt _ _)) by lia.
  eexists. split; [done|]. split; [|done]. split; cbn; [by rewrite length_insert|done].
Qed.

Lemma remove_wf index p :
  pool_wf p -> (index < length (accounts p))%nat ->
  exists p', remove_entry index p = Done p' /\ pool_wf (remove_runtime index p') /\
    accounts (remove_runtime index p') = remove_at index (accounts p) /\
    runtimes (remove_runtime index p') = remove_at index (runtimes p).
Proof.
  intros [Hl Hn] Hi. unfold remove_entry. rewrite (proj2 (Nat.ltb_lt _ _) Hi).
  eexists. split; [done|]. unfold remove_runtime.
  cbn [accounts runtimes next_index].
  rewrite (proj2 (Nat.ltb_lt _ _)) by lia. split; [|done].
  split; cbn [accounts runtimes next_index].
  - rewrite !length_remove_at by lia. lia.
  - rewrite !length_remove_at by lia.
    destruct (Nat.leb_spec (length (runtimes p) - 1) (next_index p)),
      (Nat.eqb_spec (length (runtimes p) - 1) 0); cbn; lia.
Qed.

(** The cooldown ends while the clock runs. *)
Definition cooldown_fits (cfg : AnthropicPoolConfig) (now : Instant) : Prop :=
  (now + cooldown cfg < INSTANT_END)%Z.

Lemma mark_cooling_fits cfg index msg now p : cooldown_fits cfg now ->
  mark_cooling cfg index msg now p
  = set_runtime index (mkRuntime (CoolingDown (now + cooldown cfg)%Z) (Some msg)) p.
Proof. intros H. unfold mark_cooling, instant_add. by rewrite (proj2 (Z.ltb_lt _ _) H). Qed.

Lemma mark_cooling_late cfg index msg now p : ~ cooldown_fits cfg now ->
  mark_cooling cfg index msg now p = Panic.
Proof. intros H. unfold mark_cooling, instant_add. by rewrite (proj2 (Z.ltb_ge _ _) (proj1 (Z.nlt_ge _ _) H)). Qed.

Lemma handle_client_error_wf cfg index e now p : cooldown_fits cfg now ->
  pool_wf p -> (index < length (accounts p))%nat ->
  exists p', handle_client_error cfg index e now p = Done p' /\ pool_wf p'.
Proof.
  intros Hc Hwf Hi. unfold handle_client_error. rewrite mark_cooling_fits by done.
  destruct (is_quota_message _); [|destruct (is_permanent_auth_message _); [|by eexists]].
  - destruct (set_runtime_wf index (mkRuntime (CoolingDown (now + cooldown cfg)%Z)
      (Some (LlmError_to_string e))) p Hwf Hi) as (p' & H & ? & _). by exists p'.
  - destruct (set_runtime_wf index (mkRuntime Disabled (Some (LlmError_to_string e))) p Hwf Hi)
      as (p' & H & ? & _). by exists p'.
Qed.

Lemma usable_at_lt now p idx : pool_wf p -> usable_at now p idx -> (idx < length (accounts p))%nat.
Proof. intros [Hl _] (rt & Hrt%lookup_lt_Some & _). lia. Qed.

Lemma select_usable debug strat now p p' idx :
  pool_wf p -> select_account_index debug strat now p = Done (p', Some idx) ->
  pool_wf p' /\ accounts p' = accounts p /\ runtimes p' = refresh_runtime now <$> runtimes p /\
  usable_at now p idx /\ (idx < length (accounts p))%nat.
Proof.
  intros Hwf Hs. destruct (select_correct debug strat now p Hwf) as (q & r & E & Hq & Ha & Hr & Hu).
  rewrite E in Hs. injection Hs as -> ->.
  assert (Hidx : usable_at now p idx) by (destruct strat; by destruct Hu).
  pose proof (usable_at_lt now p idx Hwf Hidx). done.
Qed.

Lemma complete_wf {R} debug cfg t0 now (client : string -> result LlmError R) p : cooldown_fits cfg now ->
  pool_wf p -> exists p' r, complete debug cfg t0 now client p = Done (p', r) /\ pool_wf p'.
Proof.
  intros Hfit Hwf. unfold complete.
  destruct (select_correct debug (strategy cfg) t0 p Hwf) as (q & r & E & Hq & Ha & _ & _).
  rewrite E. cbn. destruct r as [idx|]; [|eauto].
  destruct (select_usable _ _ _ _ _ _ Hwf E) as (_ & _ & _ & _ & Hlt).
  destruct (accounts q !! idx) as [id|] eqn:Hid; [|eauto].
  destruct (client id) as [r|e]; [eauto|].
  destruct (handle_client_error_wf cfg idx e now q Hfit Hq) as (p' & -> & ?); [by rewrite Ha|]. cbn. eauto.
Qed.

(** A completion that returns. *)
Lemma complete_keeps_wf {R} debug cfg t0 now (client : string -> result LlmError R) p p' r :
  pool_wf p -> complete debug cfg t0 now client p = Done (p', r) -> pool_wf p'.
Proof.
  intros Hwf Hc. destruct (decide (now + cooldown cfg < INSTANT_END)%Z) as [Hfit|Hlate].
  - destruct (complete_wf debug cfg t0 now client p Hfit Hwf) as (q & r' & E & ?). congruence.
  - unfold complete in Hc. destruct (select_correct debug (strategy cfg) t0 p Hwf) as (q & s & E & Hq & Ha & _ & _).
    rewrite E in Hc. cbn in Hc. destruct s as [idx|]; [|by injection Hc as <- _].
    destruct (select_usable _ _ _ _ _ _ Hwf E) as (_ & _ & _ & _ & Hlt).
    destruct (accounts q !! idx) as [id|]; [|by injection Hc as <- _].
    destruct (client id) as [x|e]; [by injection Hc as <- _|]. unfold handle_client_error in Hc.
    rewrite mark_cooling_late in Hc by done. destruct (is_quota_message _); [done|].
    destruct (is_permanent_auth_message _); [|by injection Hc as <- _].
    destruct (set_runtime_wf idx (mkRuntime Disabled (Some (LlmError_to_string e))) q Hq) as (p2 & H & ? & _);
      [by rewrite Ha|]. unfold mark_disabled in Hc. rewrite H in Hc. by injection Hc as <- _.
Qed.

(** Beyond the end of the clock. *)
Lemma complete_panics {R} debug cfg t0 now (client : string -> result LlmError R) p :
  pool_wf p -> ~ cooldown_fits cfg now ->
  complete debug cfg t0 now client p = Panic <->
  exists q idx id e, select_account_index debug (strategy cfg) t0 p = Done (q, Some idx) /\
    accounts p !! idx = Some id /\ client id = Err e /\ is_quota_message (LlmError_to_string e) = true.
Proof.
  intros Hwf Hlate. unfold complete.
  destruct (select_correct debug (strategy cfg) t0 p Hwf) as (q & s & E & Hq & Ha & _ & _). rewrite E. cbn.
  destruct s as [idx|]; [|split; [done|by intros (? & ? & ? & ? & [=] & _)]].
  destruct (select_usable _ _ _ _ _ _ Hwf E) as (_ & _ & _ & _ & Hlt). rewrite Ha.
  destruct (accounts p !! idx) as [id|] eqn:Hid; [|split; [done|intros (? & ? & ? & ? & [= <- <-] & ? & _); congruence]].
  destruct (client id) as [x|e] eqn:Hcl; [split; [done|intros (? & ? & ? & ? & [= <- <-] & ? & ? & _); congruence]|].
  unfold handle_client_error. rewrite mark_cooling_late by done. destruct (is_quota_message _) eqn:Hm.
  - split; [|done]. intros _. by exists q, idx, id, e.
  - split; [|intros (? & ? & ? & ? & [= <- <-] & ? & ? & ?); congruence].
    destruct (is_permanent_auth_message _); [|done].
    destruct (set_runtime_wf idx (mkRuntime Disabled (Some (LlmError_to_string e))) q Hq) as (p2 & H & _);
      [by rewrite Ha|]. unfold mark_disabled. by rewrite H.
Qed.

(** A pool as operations called one after the other leave it. *)
Inductive pool_reachable (cfg : AnthropicPoolConfig) : AnthropicPool -> Prop :=
| reach_empty : pool_reachable cfg AnthropicPool_empty
| reach_new ids load p : AnthropicPool_new ids load = Ok p -> pool_reachable cfg p
| reach_add id save client p :
    pool_reachable cfg p -> pool_reachable cfg (add_account id save client p).1
| reach_load store p : pool_reachable cfg p -> pool_reachable cfg (load_from_file store p).1
| reach_remove id delete p p' r :
    pool_reachable cfg p -> remove_account id delete p = Done (p', r) -> pool_reachable cfg p'
| reach_complete R debug t0 now (client : string -> result LlmError R) p p' r :
    pool_reachable cfg p -> complete debug cfg t0 now client p = Done (p', r) ->
    pool_reachable cfg p'
| reach_refresh index e p : pool_reachable cfg p -> pool_reachable cfg (mark_refresh_failed index e p).

Lemma remove_account_wf id delete p :
  pool_wf p -> exists p' r, remove_account id delete p = Done (p', r) /\ pool_wf p'.
Proof.
  intros Hwf. unfold remove_account. destruct (account_position id p) as [index|] eqn:E; [|eauto].
  apply position_lt in E. destruct (remove_wf index p Hwf E) as (p' & -> & ? & _). cbn.
  destruct delete; eauto.
Qed.

Lemma reachable_wf cfg p : pool_reachable cfg p -> pool_wf p.
Proof.
  induction 1 as [|ids load p Hnew|id save client p _ IH|store p _ IH|id delete p p' r _ IH Hrm
    |R debug t0 now client p p' r _ IH Hc|index e p _ IH].
  - split; [done|by left].
  - unfold AnthropicPool_new in Hnew. destruct (List.filter _ ids) as [|a l]; [done|].
    injection Hnew as <-. split; cbn; [by rewrite length_fmap|by left].
  - unfold add_account. destruct save; [|done]. destruct client; [by apply push_wf|done].
  - by apply load_from_file_wf.
  - destruct (remove_account_wf id delete p IH) as (q & r' & E & ?). congruence.
  - by apply (complete_keeps_wf debug cfg t0 now client p p' r).
  - unfold mark_refresh_failed. case_match; [|done]. destruct IH as [Hl Hn].
    split; cbn; [by rewrite length_insert|done].
Qed.

(** ** Fairness of round robin *)

(** Traffic on a pool: selections, and marks left by the error handling of
    earlier requests. *)
Inductive PoolUse :=
| Use_select (now : Instant)
| Use_mark (index : nat) (rt : AccountRuntime).

Fixpoint run_uses (debug : bool) (p : AnthropicPool) (us : list PoolUse)
    : run (AnthropicPool * list nat) :=
  match us with
  | [] => Done (p, [])
  | Use_select now :: us =>
      '(p, r) ← select_account_index debug RoundRobin now p;
      '(p, chosen) ← run_uses debug p us;
      Done (p, match r with Some idx => idx :: chosen | None => chosen end)
  | Use_mark index rt :: us =>
      p ← set_runtime index rt p; run_uses debug p us
  end.

Definition selections (us : list PoolUse) : nat :=
  length (List.filter (fun u => match u with Use_select _ => true | _ => false end) us).

(** Marks hit existing accounts other than [j]. *)
Definition spares (n j : nat) (u : PoolUse) : Prop :=
  match u with Use_mark index _ => (index < n)%nat /\ index <> j | Use_select _ => True end.

Definition available_at (p : AnthropicPool) (j : nat) : Prop :=
  exists rt, runtimes p !! j = Some rt /\ status rt = Available.

Lemma available_usable now p j : available_at p j -> usable_at now p j.
Proof.
  intros (rt & Hrt & Hs). exists rt. split; [done|].
  unfold usable, refresh_runtime, is_available. rewrite Hs. by rewrite bool_decide_eq_true_2.
Qed.

Lemma available_refresh now p p' j :
  runtimes p' = refresh_runtime now <$> runtimes p -> available_at p j -> available_at p' j.
Proof.
  intros Hr (rt & Hrt & Hs). exists rt. rewrite Hr, list_lookup_fmap, Hrt. cbn.
  unfold refresh_runtime. by rewrite Hs.
Qed.

(** One selection: the available account [j], [d] places ahead, is chosen or
    comes nearer. *)
Lemma select_approaches debug now p j d :
  let n := length (accounts p) in
  pool_wf p -> available_at p j -> ((next_index p + d) mod n = j)%nat ->
  exists p' idx, select_account_index debug RoundRobin now p = Done (p', Some idx) /\
    pool_wf p' /\ accounts p' = accounts p /\ available_at p' j /\
    (idx = j \/ exists d', (d' < d)%nat /\ ((next_index p' + d') mod n = j)%nat).
Proof.
  intros n Hwf Hj Hd.
  destruct (select_correct debug RoundRobin now p Hwf) as (p' & r & E & Hwf' & Ha & Hr & Hspec).
  pose proof (available_usable now p j Hj) as Hju.
  destruct r as [idx|]; [|by destruct (Hspec j)].
  destruct Hspec as (_ & Hnext & i & Hi & Hidx & Hmin). fold n in Hnext, Hi, Hidx, Hmin.
  exists p', idx. do 3 (split; [done|]). split; [by eapply available_refresh|].
  assert (i <= d)%nat as Hle.
  { destruct (decide (i <= d)%nat); [done|]. destruct (Hmin d ltac:(lia)). by rewrite Hd. }
  destruct (decide (i = d)) as [->|Hne]; [left; congruence|]. right.
  exists (d - i - 1)%nat. split; [lia|]. rewrite Hnext, Hidx, Nat.Div0.add_mod_idemp_l.
  rewrite <-Nat.add_assoc, Nat.Div0.add_mod_idemp_l. rewrite <-Hd. f_equal. lia.
Qed.

(** Marks and selections keep a well-formed pool running. *)
Lemma run_uses_total debug us p j :
  pool_wf p -> Forall (spares (length (accounts p)) j) us ->
  exists p' chosen, run_uses debug p us = Done (p', chosen).
Proof.
  revert p. induction us as [|[now|index rt] us IH]; intros p Hwf Hus; [by eexists _, _|..];
    apply Forall_cons in Hus as [Hu Hus]; cbn [run_uses].
  - destruct (select_correct debug RoundRobin now p Hwf) as (p' & r & -> & Hwf' & Ha & _). cbn.
    rewrite <-Ha in Hus. destruct (IH p' Hwf' Hus) as (p2 & chosen & ->). cbn. eauto.
  - destruct Hu as [Hi _]. destruct (set_runtime_wf index rt p Hwf Hi) as (p' & -> & Hwf' & Ha & _).
    cbn. rewrite <-Ha in Hus. by apply IH.
Qed.

Lemma run_uses_reaches debug us p j d :
  pool_wf p -> available_at p j -> ((next_index p + d) mod length (accounts p) = j)%nat ->
  Forall (spares (length (accounts p)) j) us -> (d < selections us)%nat ->
  exists p' chosen, run_uses debug p us = Done (p', chosen) /\ j ∈ chosen.
Proof.
  revert p d. induction us as [|[now|index rt] us IH]; intros p d Hwf Hj Hd Hus Hlt;
    [cbn in Hlt; lia|..]; apply Forall_cons in Hus as [Hu Hus]; cbn [run_uses].
  - destruct (select_approaches debug now p j d Hwf Hj Hd)
      as (p' & idx & -> & Hwf' & Ha & Hj' & Hor). cbn. rewrite <-Ha in Hus, Hor.
    destruct Hor as [->|(d' & Hd' & Hnear)].
    + destruct (run_uses_total debug us p' j Hwf' Hus) as (p2 & chosen & ->). cbn.
      eexists _, _. split; [done|]. by left.
    + destruct (IH p' d' Hwf' Hj' Hnear Hus) as (p2 & chosen & -> & Hin).
      { unfold selections in *. cbn in Hlt. lia. }
      cbn. eexists _, _. split; [done|]. by right.
  - destruct Hu as [Hi Hne].
    destruct (set_runtime_wf index rt p Hwf Hi) as (p' & Hset & Hwf' & Ha & Hr).
    assert (next_index p' = next_index p) as Hn'.
    { unfold set_runtime in Hset. case_match; [|done]. by injection Hset as <-. }
    rewrite Hset. cbn. apply (IH p' d); [done| |by rewrite Ha, Hn'|by rewrite Ha|].
    + destruct Hj as (rt' & Hrt' & ?). exists rt'. by rewrite Hr, list_lookup_insert_ne.
    + unfold selections in *. cbn in Hlt. lia.
Qed.

(** * Properties *)

(** C11. The pool's operations, called one after the other, do not panic as long as the
    cooldown ends before the clock does: in every pool they can produce each account has
    its runtime and the round-robin position is valid, selection and removal return, and a
    completion returns when its time plus the cooldown is an instant of the clock.  Beyond
    it a completion panics exactly when the account it chose answers with a quota error. *)
Theorem pool_operations_never_panic {R} cfg p debug strat t0 now
    (client : string -> result LlmError R) id delete :
  pool_reachable cfg p ->
  pool_wf p /\
  (exists q r, select_account_index debug strat now p = Done (q, r) /\ pool_wf q) /\
  ((now + cooldown cfg < INSTANT_END)%Z ->
   exists q r, complete debug cfg t0 now client p = Done (q, r) /\ pool_wf q) /\
  ((INSTANT_END <= now + cooldown cfg)%Z ->
   complete debug cfg t0 now client p = Panic <->
   exists q idx id e, select_account_index debug (strategy cfg) t0 p = Done (q, Some idx) /\
     accounts p !! idx = Some id /\ client id = Err e /\ is_quota_message (LlmError_to_string e) = true) /\
  (exists q r, remove_account id delete p = Done (q, r) /\ pool_wf q).
Proof.
  intros Hwf%reachable_wf. split; [done|]. split; [|split; [|split]].
  - destruct (select_correct debug strat now p Hwf) as (q & r & E & Hq & _). eauto.
  - intros Hfit. by apply complete_wf.
  - intros Hlate. apply complete_panics; [done|]. unfold cooldown_fits. lia.
  - by apply remove_account_wf.
Qed.

(** Selection picks a usable account or finds that there is none: an
    account is usable when it is available or its cooldown is over; accounts
    whose cooldown is over become available in the same step and nothing else
    changes.  Round robin takes the first usable account in cyclic order from
    [next_index] and moves on behind it, first-available the one with the
    lowest index; [None] is returned only when no account is usable. *)
Theorem select_account_correct debug strat now p :
  pool_wf p ->
  let n := length (accounts p) in
  exists p' r, select_account_index debug strat now p = Done (p', r) /\ pool_wf p' /\
    accounts p' = accounts p /\ runtimes p' = refresh_runtime now <$> runtimes p /\
    match r, strat with
    | None, _ => forall idx, ~ usable_at now p idx
    | Some idx, FirstAvailable =>
        usable_at now p idx /\ next_index p' = next_index p /\
        forall k, (k < idx)%nat -> ~ usable_at now p k
    | Some idx, RoundRobin =>
        usable_at now p idx /\ next_index p' = ((idx + 1) mod n)%nat /\
        exists i, (i < n)%nat /\ idx = ((next_index p + i) mod n)%nat /\
          forall k, (k < i)%nat -> ~ usable_at now p ((next_index p + k) mod n)%nat
    end.
Proof. apply select_correct. Qed.

(** Round robin is fair: as long as an account stays available, it is
    chosen at least once in any traffic with as many selections as the pool has
    accounts, whatever the clock readings and however the other accounts are
    marked in between. *)
Theorem round_robin_fair debug us p j :
  pool_wf p -> available_at p j -> Forall (spares (length (accounts p)) j) us ->
  (length (accounts p) <= selections us)%nat ->
  exists p' chosen, run_uses debug p us = Done (p', chosen) /\ j ∈ chosen.
Proof.
  intros Hwf Hj Hus Hn.
  assert (j < length (accounts p))%nat.
  { destruct Hj as (rt & Hrt%lookup_lt_Some & _). destruct Hwf. lia. }
  destruct (offset_reaches (length (accounts p)) (next_index p) j) as (d & Hd & Hreach);
    [destruct Hwf as [? [->|?]]; lia|done|].
  apply (run_uses_reaches debug us p j d); [done..|lia].
Qed.

(** Failover: when a completion fails with a quota error, the account that
    was used is put on cooldown from the time of the failure and keeps the
    message, no other account changes, and no selection before the end of the
    cooldown returns it, under either strategy. *)
Theorem quota_error_benches_account {R} debug cfg t0 now
    (client : string -> result LlmError R) p p' e :
  pool_wf p -> complete debug cfg t0 now client p = Done (p', Err e) ->
  is_quota_message (LlmError_to_string e) = true ->
  exists idx id, accounts p !! idx = Some id /\ client id = Err e /\ usable_at t0 p idx /\
    accounts p' = accounts p /\
    runtimes p' = <[idx := mkRuntime (CoolingDown (now + cooldown cfg)%Z)
                             (Some (LlmError_to_string e))]> (refresh_runtime t0 <$> runtimes p) /\
    forall debug' strat t q i, (t < now + cooldown cfg)%Z ->
      select_account_index debug' strat t p' = Done (q, Some i) -> i <> idx.
Proof.
  intros Hwf Hc Hq. unfold complete in Hc.
  destruct (select_account_index debug (strategy cfg) t0 p) as [[p1 [idx|]]|] eqn:E; [| |done];
    cbn in Hc; [|injection Hc as _ <-; done].
  destruct (select_usable _ _ _ _ _ _ Hwf E) as (Hwf1 & Ha & Hr & Hu & Hlt).
  destruct (accounts p1 !! idx) as [id|] eqn:Hid; [|injection Hc as _ <-; done].
  destruct (client id) as [r|e'] eqn:Hcl; [done|].
  destruct (handle_client_error cfg idx e' now p1) as [p2|] eqn:Hh; [|done].
  cbn in Hc. injection Hc as -> ->. unfold handle_client_error in Hh. rewrite Hq in Hh.
  destruct (set_runtime_wf idx (mkRuntime (CoolingDown (now + cooldown cfg)%Z)
    (Some (LlmError_to_string e))) p1 Hwf1) as (p3 & Hset & Hwf3 & Ha3 & Hr3); [by rewrite Ha|].
  unfold mark_cooling, instant_add in Hh. destruct (_ <? _)%Z; [|done]. cbn in Hh.
  rewrite Hset in Hh. injection Hh as ->.
  exists idx, id. rewrite <-Hr, Ha3, Ha. split; [congruence|]. do 4 (split; [done|]).
  intros debug' strat t q i Ht Hsel ->.
  destruct (select_usable _ _ _ _ _ _ Hwf3 Hsel) as (_ & _ & _ & (rt & Hrt & Hus) & _).
  rewrite Hr3, list_lookup_insert_eq in Hrt by (rewrite Hr, length_fmap; destruct Hwf; lia).
  injection Hrt as <-. revert Hus. unfold usable, refresh_runtime, is_available. cbn [status].
  rewrite (proj2 (Z.leb_gt _ _)) by lia. done.
Qed.

(** ** Interleavings the locks allow

    The entry and the runtime of an account are pushed under different locks: a
    selection between the two steps indexes past the runtimes. *)
Lemma interleaved_add_panics debug id now :
  select_account_index debug RoundRobin now (push_account id AnthropicPool_empty) = Panic /\
  pool_wf (push_runtime (push_account id AnthropicPool_empty)).
Proof. split; [reflexivity|]. apply push_wf. split; [done|by left]. Qed.

(** An error is marked by index after the account list has been released: when
    an account in front is removed meanwhile, the mark hits the wrong account,
    or panics if the failed account was the last one. *)
Lemma stale_index_marks cfg msg now : cooldown_fits cfg now ->
  let p := mkPool ["a"; "b"; "c"] (replicate 3 AccountRuntime_default) 2 in
  exists q, remove_account "a" (Ok tt) p = Done (q, Ok tt) /\ accounts q = ["b"; "c"] /\
    (exists q', mark_cooling cfg 1 msg now q = Done q' /\
       runtimes q' = [AccountRuntime_default; mkRuntime (CoolingDown (now + cooldown cfg)%Z) (Some msg)]) /\
    mark_cooling cfg 2 msg now q = Panic.
Proof.
  intros Hfit. eexists. split; [reflexivity|]. split; [done|]. rewrite !mark_cooling_fits by done.
  split; [|done]. by eexists.
Qed.

(** The configured cooldown is any [u64] of seconds: a quota error then panics while the
    runtimes are locked. *)
Lemma long_cooldown_panics index msg p :
  mark_cooling (mkPoolConfig ((2 ^ 64 - 1) * 1000000000)%Z RoundRobin) index msg 0%Z p = Panic.
Proof. apply mark_cooling_late. unfold cooldown_fits, INSTANT_END. cbn. lia. Qed.

(** ** Witnesses *)

Local Open Scope Z_scope.

Definition demo_pool_config : AnthropicPoolConfig := mkPoolConfig 100 RoundRobin.
Definition demo_pool : AnthropicPool :=
  mkPool ["a"; "b"; "c"]
    [AccountRuntime_default; mkRuntime (CoolingDown 50) (Some "5-hour limit"); AccountRuntime_default]
    1%nat.

Lemma demo_pool_wf : pool_wf demo_pool.
Proof. split; [done|]. right. cbn. lia. Qed.

Definition demo_client (id : string) : result LlmError unit :=
  if bool_decide (id = "c") then Err (LlmError_Api "5-hour limit reached") else Ok tt.

Lemma pool_operations_never_panic_witness :
  let p := (add_account "a" (Ok tt) (Ok tt) AnthropicPool_empty).1 in
  pool_wf p /\ exists q r, complete true demo_pool_config 0 0 demo_client p = Done (q, r) /\ pool_wf q.
Proof.
  destruct (pool_operations_never_panic demo_pool_config
    (add_account "a" (Ok tt) (Ok tt) AnthropicPool_empty).1 true RoundRobin 0 0 demo_client "a"
    (Ok tt) (reach_add demo_pool_config "a" (Ok tt) (Ok tt) AnthropicPool_empty
      (reach_empty demo_pool_config))) as (Hwf & _ & Hc & _).
  split; [exact Hwf|]. apply Hc. reflexivity.
Defined.

Lemma select_account_correct_witness :
  exists p' r, select_account_index true RoundRobin 10 demo_pool = Done (p', r) /\ r = Some 2%nat.
Proof.
  destruct (select_account_correct true RoundRobin 10 demo_pool demo_pool_wf)
    as (p' & r & E & _). exists p', r. split; [exact E|].
  vm_compute in E. injection E as <- <-. reflexivity.
Defined.

Lemma round_robin_fair_witness :
  exists p' chosen, run_uses false demo_pool
    [Use_select 1; Use_mark 2%nat (mkRuntime Disabled None); Use_select 2; Use_select 60]
    = Done (p', chosen) /\ 0%nat ∈ chosen.
Proof.
  apply (round_robin_fair false _ demo_pool 0%nat demo_pool_wf).
  - by exists AccountRuntime_default.
  - repeat constructor; cbn; lia.
  - cbn. lia.
Defined.

Lemma quota_error_benches_account_witness :
  exists p', complete true demo_pool_config 10 20 demo_client demo_pool =
      Done (p', Err (LlmError_Api "5-hour limit reached")) /\
    exists idx, runtimes p' = <[idx := mkRuntime (CoolingDown 120)
      (Some "API error: 5-hour limit reached")]> (refresh_runtime 10 <$> runtimes demo_pool).
Proof.
  eexists. split; [vm_compute; reflexivity|].
  destruct (quota_error_benches_account true demo_pool_config 10 20 demo_client demo_pool _
    (LlmError_Api "5-hour limit reached") demo_pool_wf ltac:(vm_compute; reflexivity)
    ltac:(vm_compute; reflexivity)) as (idx & _ & _ & _ & _ & _ & Hr & _).
  exists idx. exact Hr.
Defined.
