(* ===== verification/ByteStream.v ===== *)
(** Streams of events read from chunks of bytes: the interface of
    [futures::Stream], the loop that consumes a stream to its end, and what the
    three parsers of server-sent events have in common.  A parser is described
    by its frames; the events it delivers are those of the frames of the whole
    text, however the network has cut the text into chunks. *)
From stdpp Require Import base gmap list strings.
From Stdlib Require Import ZArith Lia Ascii.
From S2P Require Import Prelude Text CoreTypes.

(** * Streams *)

(** [std::task::Poll]. *)
Inductive Poll (A : Type) :=
| Pending
| Ready (a : A).
Arguments Pending {A}.
Arguments Ready {A} a.

(** What a poll of the response body answers: nothing yet, bytes, or an error
    with its [Display] text.  A body is the list of its answers; at the end of
    the list it has ended. *)
Inductive Polled :=
| P_Pending
| P_Chunk (bytes : string)
| P_Broken (e : string).

(** The text of a body that brings valid UTF-8 in every chunk and does not break. *)
Fixpoint body_text (inner : list Polled) : option string :=
  match inner with
  | [] => Some EmptyString
  | P_Pending :: inner => body_text inner
  | P_Chunk b :: inner =>
      if valid_utf8 b then text ← body_text inner; Some (b +:+ text) else None
  | P_Broken _ :: _ => None
  end.

(** [futures::Stream] with items [LlmEvent]. *)
Class Stream `{SJ : SerdeJson} (T : Type) := {
  poll_next : T -> Poll (option LlmEvent) * T;
}.

(** [while let Some(event) = stream.next().await], which polls again after
    [Pending]; [None] when [fuel] polls were not enough. *)
Fixpoint drive `{SJ : SerdeJson} {T} `{!Stream T} (fuel : nat) (s : T)
    : option (list LlmEvent) :=
  match fuel with
  | O => None
  | S fuel =>
      match poll_next s with
      | (Pending, s) => drive fuel s
      | (Ready None, _) => Some []
      | (Ready (Some e), s) => es ← drive fuel s; Some (e :: es)
      end
  end.

(** The consumer's loop ends, with exactly these events. *)
Definition delivers `{SJ : SerdeJson} {T} `{!Stream T} (s : T) (es : list LlmEvent) : Prop :=
  exists n, forall fuel, n <= fuel -> drive fuel s = Some es.

Section Delivers.
Context `{SJ : SerdeJson} {T : Type} `{!Stream T}.

Lemma delivers_unique (s : T) es es' : delivers s es -> delivers s es' -> es = es'.
Proof.
  intros [n Hn] [m Hm]. specialize (Hn (n + m) ltac:(lia)). specialize (Hm (n + m) ltac:(lia)).
  congruence.
Qed.

Lemma delivers_pending (s s' : T) es :
  poll_next s = (Pending, s') -> delivers s' es -> delivers s es.
Proof.
  intros E [n Hn]. exists (S n). intros [|fuel] Hf; [lia|]. cbn [drive]. rewrite E.
  apply Hn. lia.
Qed.

Lemma delivers_event (s s' : T) e es :
  poll_next s = (Ready (Some e), s') -> delivers s' es -> delivers s (e :: es).
Proof.
  intros E [n Hn]. exists (S n). intros [|fuel] Hf; [lia|]. cbn [drive].
  by rewrite E, Hn by lia.
Qed.

Lemma delivers_end (s s' : T) : poll_next s = (Ready None, s') -> delivers s [].
Proof.
  intros E. exists 1. intros [|fuel] Hf; [lia|]. cbn [drive]. by rewrite E.
Qed.

Lemma drive_delivers fuel (s : T) es : drive fuel s = Some es -> delivers s es.
Proof.
  revert s es. induction fuel as [|fuel IH]; intros s es; cbn [drive]; [done|].
  destruct (poll_next s) as [[|[e|]] s'] eqn:E.
  - intros H. eapply delivers_pending; eauto.
  - destruct (drive fuel s') as [es'|] eqn:F; [|done]. intros [= <-].
    eapply delivers_event; eauto.
  - intros [= <-]. eapply delivers_end; eauto.
Qed.

End Delivers.

(** * Arguments of tool calls *)

(** What the parsers use of [serde_json] values. *)
Class JsonRead `{SJ : SerdeJson} := {
  json_from_str : string -> option Json;
  json_is_null : Json -> bool;
  json_empty_object : Json;
}.

(** The arguments of a call from their collected text: text that is not JSON and
    [null] count as an empty object. *)
Definition tool_arguments `{JsonRead} (text : string) : Json :=
  let arguments := default json_empty_object (json_from_str text) in
  if json_is_null arguments then json_empty_object else arguments.

(** The order in which a [HashMap] iterates over its values is not specified. *)
Class HashOrder (K A : Type) `{Countable K} := {
  hash_values : gmap K A -> list A;
  hash_values_perm m : hash_values m ≡ₚ (map_to_list m).*2;
}.

(** * Framed streams *)

(** What a parser does with the text between two delimiters, with a chunk, with
    a broken body and at the end; [fin] says that it has finished. *)
Record Framing `{SJ : SerdeJson} (St : Type) := mkFraming {
  delim : string;
  handle : St -> string -> option LlmEvent * St;
  fin : St -> bool;
  decode : string -> result LlmError string;
  fatal : bool;
  at_end : St -> option LlmEvent;
}.
Arguments mkFraming {SJ St}.
Arguments delim {SJ St}. Arguments handle {SJ St}. Arguments fin {SJ St}.
Arguments decode {SJ St}. Arguments fatal {SJ St}. Arguments at_end {SJ St}.

(** ** The events of a text *)

Section Reference.
Context `{SJ : SerdeJson} {St : Type} (F : Framing St).

Definition complete_frames (text : string) : list string := removelast (pieces (delim F) text).
Definition rest_of (text : string) : string := List.last (pieces (delim F) text) EmptyString.

(** The events of a list of frames, up to the frame that finishes the stream. *)
Fixpoint frame_events (st : St) (frames : list string) : list LlmEvent * St :=
  match frames with
  | [] => ([], st)
  | f :: frames =>
      if fin F st then ([], st)
      else
        let '(o, st) := handle F st f in
        let '(es, st) := frame_events st frames in (option_list o ++ es, st)
  end.

(** What arrives, without the waiting: decoded text and failures. *)
Definition arrived (inner : list Polled) : list (string + LlmError) :=
  omap (fun p =>
    match p with
    | P_Pending => None
    | P_Chunk b => Some (match decode F b with Ok t => inl t | Err e => inr e end)
    | P_Broken e => Some (inr (LlmError_Http e))
    end) inner.

(** The events of what arrives: those of the complete frames received so far,
    then those of what follows the text left over. *)
Fixpoint reference (st : St) (text : string) (l : list (string + LlmError)) : list LlmEvent :=
  let '(es, st) := frame_events st (complete_frames text) in
  es ++
  if fin F st then []
  else
    match l with
    | [] => option_list (at_end F st)
    | inl t :: l => reference st (rest_of text +:+ t) l
    | inr e :: l => Error e :: (if fatal F then [] else reference st (rest_of text) l)
    end.

(** The events of a text that is there completely. *)
Definition text_events (st : St) (text : string) : list LlmEvent := reference st text [].

(** Neighbouring texts joined. *)
Fixpoint joined (l : list (string + LlmError)) : list (string + LlmError) :=
  match l with
  | [] => []
  | inl t :: l =>
      match joined l with
      | inl u :: l => inl (t +:+ u) :: l
      | l => inl t :: l
      end
  | inr e :: l => inr e :: joined l
  end.

(** ** The polling loop *)

Fixpoint drain (fuel : nat) (buffer : string) (st : St) : option LlmEvent * string * St :=
  match fuel with
  | O => (None, buffer, st)
  | S fuel =>
      match split_first (delim F) buffer with
      | None => (None, buffer, st)
      | Some (frame, buffer) =>
          match handle F st frame with
          | (Some e, st) => (Some e, buffer, st)
          | (None, st) => drain fuel buffer st
          end
      end
  end.

Fixpoint poll_frames (inner : list Polled) (buffer : string) (st : St)
    : Poll (option LlmEvent) * (list Polled * string * St * bool) :=
  let '(o, buffer, st) := drain (String.length buffer) buffer st in
  match o with
  | Some e => (Ready (Some e), (inner, buffer, st, fin F st))
  | None =>
      match inner with
      | [] => (Ready (at_end F st), ([], buffer, st, true))
      | P_Pending :: inner => (Pending, (inner, buffer, st, false))
      | P_Chunk b :: inner =>
          match decode F b with
          | Ok t => poll_frames inner (buffer +:+ t) st
          | Err e => (Ready (Some (Error e)), (inner, buffer, st, fatal F))
          end
      | P_Broken e :: inner =>
          (Ready (Some (Error (LlmError_Http e))), (inner, buffer, st, fatal F))
      end
  end.

End Reference.

(** A stream is framed when its polls are those of the loop above.  [stopped]
    is the stream's own finished flag, with which every poll answers [None]. *)
Class FramedStream `{SJ : SerdeJson} {St} (F : Framing St) (T : Type) `{!Stream T} := {
  body : T -> list Polled * string * St;
  stopped : T -> bool;
  delim_nonempty : delim F <> EmptyString;
  fin_event st f : fin F st = false -> (handle F st f).1 = None ->
    fin F (handle F st f).2 = false;
  poll_stopped s : stopped s = true -> exists s', poll_next s = (Ready None, s') /\ stopped s' = true;
  poll_running s : stopped s = false ->
    let '(inner, buffer, st) := body s in
    fin F st = false /\
    let '(r, (inner', buffer', st', stop)) := poll_frames F inner buffer st in
    (poll_next s).1 = r /\
    match r with
    | Ready None => True
    | _ => stopped (poll_next s).2 = stop /\
           (stop = false -> body (poll_next s).2 = (inner', buffer', st'))
    end;
}.

Section Framed.
Context `{SJ : SerdeJson} {St : Type} (F : Framing St).
Context (Hdelim : delim F <> EmptyString).
Context (Hfin : forall st f, fin F st = false -> (handle F st f).1 = None ->
  fin F (handle F st f).2 = false).

Lemma pieces_nonempty text : pieces (delim F) text <> [].
Proof. rewrite pieces_step by done. by destruct (split_first _ _) as [[]|]. Qed.

Lemma frames_step text : complete_frames F text =
  match split_first (delim F) text with
  | Some (f, text) => f :: complete_frames F text | None => [] end.
Proof.
  unfold complete_frames. rewrite pieces_step at 1 by done.
  destruct (split_first _ _) as [[f t]|]; [|done].
  pose proof (pieces_nonempty t). by destruct (pieces (delim F) t).
Qed.

Lemma rest_step text : rest_of F text =
  match split_first (delim F) text with Some (_, text) => rest_of F text | None => text end.
Proof.
  unfold rest_of. rewrite pieces_step at 1 by done.
  destruct (split_first _ _) as [[f t]|]; [|done].
  pose proof (pieces_nonempty t). by destruct (pieces (delim F) t).
Qed.

Lemma pieces_split text : pieces (delim F) text = complete_frames F text ++ [rest_of F text].
Proof. unfold complete_frames, rest_of. apply app_removelast_last, pieces_nonempty. Qed.

(** The frames of a longer text. *)
Lemma frames_app text u :
  complete_frames F (text +:+ u) =
    complete_frames F text ++ complete_frames F (rest_of F text +:+ u) /\
  rest_of F (text +:+ u) = rest_of F (rest_of F text +:+ u).
Proof.
  pose proof (pieces_app _ _ u _ _ Hdelim (pieces_split text)) as H.
  rewrite !pieces_split, app_assoc in H. by apply app_inj_tail in H as [-> ->].
Qed.

Lemma rest_of_rest text : split_first (delim F) text = None ->
  complete_frames F text = [] /\ rest_of F text = text.
Proof. intros E. by rewrite frames_step, rest_step, E. Qed.

Lemma frame_events_fin st fs : fin F st = true -> frame_events F st fs = ([], st).
Proof. destruct fs; cbn [frame_events]; [done|]. by intros ->. Qed.

Lemma frame_events_app st fs1 fs2 : frame_events F st (fs1 ++ fs2) =
  let '(es1, st1) := frame_events F st fs1 in
  let '(es2, st2) := frame_events F st1 fs2 in (es1 ++ es2, st2).
Proof.
  revert st. induction fs1 as [|f fs1 IH]; intros st; cbn [frame_events app].
  - by destruct (frame_events F st fs2).
  - destruct (fin F st) eqn:E; [by rewrite frame_events_fin|].
    destruct (handle F st f) as [o st1]. rewrite IH. destruct (frame_events F st1 fs1) as [es1 st2].
    destruct (frame_events F st2 fs2) as [es2 st3]. by rewrite app_assoc.
Qed.

(** Text that is there already and text that arrives are the same. *)
Lemma reference_arrives st text u l :
  reference F st (text +:+ u) l = reference F st text (inl u :: l).
Proof.
  destruct (frames_app text u) as [Hf Hr].
  destruct l as [|[v|e] l]; cbn [reference]; rewrite Hf, ?Hr, frame_events_app;
    destruct (frame_events F st (complete_frames F text)) as [es1 st1];
    destruct (fin F st1) eqn:E1.
  1,3,5: rewrite frame_events_fin by done; by rewrite E1, !app_nil_r.
  all: destruct (frame_events F st1 _) as [es2 st2]; by rewrite app_assoc.
Qed.

(** Whether two texts arrive together or one after the other makes no difference. *)
Lemma reference_join st text t u l :
  reference F st text (inl t :: inl u :: l) = reference F st text (inl (t +:+ u) :: l).
Proof. by rewrite <- !reference_arrives, string_app_assoc. Qed.

Lemma reference_congr st text x l l' :
  (forall st text, reference F st text l = reference F st text l') ->
  reference F st text (x :: l) = reference F st text (x :: l').
Proof.
  intros H. destruct x; cbn [reference]; destruct (frame_events F st _) as [es st'];
    by rewrite !H.
Qed.

Lemma reference_joined st text l : reference F st text l = reference F st text (joined l).
Proof.
  revert st text. induction l as [|[t|e] l IH]; intros st text; cbn [joined]; [done|..].
  - rewrite (reference_congr _ _ _ _ _ IH). destruct (joined l) as [|[u|e] l']; [done| |done].
    apply reference_join.
  - apply reference_congr, IH.
Qed.

Lemma arrived_cons p inner : arrived F (p :: inner) =
  match p with
  | P_Pending => arrived F inner
  | P_Chunk b => match decode F b with Ok t => inl t | Err e => inr e end :: arrived F inner
  | P_Broken e => inr (LlmError_Http e) :: arrived F inner
  end.
Proof. by destruct p. Qed.

(** The whole text at once. *)
Lemma reference_text st text inner t :
  body_text inner = Some t -> (forall b, valid_utf8 b = true -> decode F b = Ok b) ->
  reference F st text (arrived F inner) = text_events F st (text +:+ t).
Proof.
  intros Hb Hdec. revert text t Hb. induction inner as [|[|b|e] inner IH]; intros text t;
    cbn [body_text].
  - intros [= <-]. by rewrite string_app_nil_r.
  - apply IH.
  - destruct (valid_utf8 b) eqn:Eb; [|done]. destruct (body_text inner) as [t'|]; [|done].
    intros [= <-]. rewrite arrived_cons, Hdec by done.
    by rewrite <- reference_arrives, IH with (t := t'), string_app_assoc.
  - done.
Qed.

(** ** Events that close a stream *)

(** No event follows one with [p]. *)
Fixpoint only_last (p : LlmEvent -> bool) (es : list LlmEvent) : Prop :=
  match es with
  | [] => True
  | e :: es => (p e = true -> es = []) /\ only_last p es
  end.

Lemma only_last_open p es es' :
  Forall (fun e => p e = false) es -> only_last p es' -> only_last p (es ++ es').
Proof. intros H H'. induction H as [|e es He Hes IH]; [done|]. cbn. split; [congruence|done]. Qed.

Section Closing.
Context (p : LlmEvent -> bool).
Context (Hclose : forall st f e st', handle F st f = (Some e, st') -> p e = true -> fin F st' = true).
Context (Hfatal : forall e, p (Error e) = true -> fatal F = true).

Lemma frame_events_closing st fs es st' : frame_events F st fs = (es, st') ->
  only_last p es /\ (fin F st' = true \/ Forall (fun e => p e = false) es).
Proof.
  revert st es. induction fs as [|f fs IH]; intros st es; cbn [frame_events].
  - intros [= <- <-]. by split; [|right].
  - destruct (fin F st) eqn:E; [intros [= <- <-]; by split; [|right]|].
    destruct (handle F st f) as [[e|] st1] eqn:Eh;
      destruct (frame_events F st1 fs) as [es1 st2] eqn:Ef; intros [= <- <-].
    + pose proof (Hclose st f e st1 Eh) as Hc. destruct (p e) eqn:Ep.
      * rewrite frame_events_fin in Ef by auto. injection Ef as <- <-. cbn. split; [done|auto].
      * destruct (IH _ _ Ef) as [H1 H2]. cbn. split; [split; [congruence|done]|].
        destruct H2; [auto|]. right. by constructor.
    + apply (IH _ _ Ef).
Qed.

Lemma reference_closing st text l : only_last p (reference F st text l).
Proof.
  revert st text. induction l as [|[t|e] l IH]; intros st text; cbn [reference];
    destruct (frame_events F st (complete_frames F text)) as [es st'] eqn:E;
    destruct (frame_events_closing _ _ _ _ E) as [H1 H2];
    (destruct (fin F st') eqn:Ef; [by rewrite app_nil_r|]);
    (destruct H2 as [?|H2]; [done|]); apply only_last_open; try done.
  - destruct (at_end F st'); [|done]. cbn. done.
  - cbn. destruct (fatal F) eqn:Efa; [done|]. split; [|apply IH].
    intros Hp%Hfatal. congruence.
Qed.

End Closing.

(** ** One poll *)

Lemma drain_spec fuel buf st o buf' st' :
  String.length buf <= fuel -> fin F st = false ->
  drain F fuel buf st = (o, buf', st') ->
  match o with
  | None =>
      frame_events F st (complete_frames F buf) = ([], st') /\ rest_of F buf = buf' /\
      fin F st' = false
  | Some e =>
      String.length buf' < String.length buf /\ rest_of F buf = rest_of F buf' /\
      frame_events F st (complete_frames F buf) =
        let '(es, st2) := frame_events F st' (complete_frames F buf') in (e :: es, st2)
  end.
Proof.
  assert (Hlen : 0 < String.length (delim F)) by (destruct (delim F); [done|cbn; lia]).
  revert buf st. induction fuel as [|fuel IH]; intros buf st Hl Hst.
  - destruct buf; [|cbn in Hl; lia]. cbn [drain]. intros [= <- <- <-].
    assert (E : split_first (delim F) "" = None) by (destruct (delim F); done).
    destruct (rest_of_rest _ E) as [-> ->]. done.
  - cbn [drain]. rewrite frames_step, rest_step.
    destruct (split_first (delim F) buf) as [[f buf1]|] eqn:E; [|by intros [= <- <- <-]].
    apply split_first_spec in E as [Hb _]. rewrite Hb, !string_length_append in Hl.
    pose proof (Hfin st f Hst) as Hn. cbn [frame_events]. rewrite Hst.
    destruct (handle F st f) as [[e|] st1] eqn:Eh.
    + intros [= <- <- <-]. rewrite Hb, !string_length_append. split_and!; [lia|done|].
      by destruct (frame_events F st1 _).
    + intros Hd. specialize (IH buf1 st1 ltac:(lia) (Hn eq_refl) Hd).
      destruct o as [e|].
      * destruct IH as (H1 & H2 & H3). rewrite Hb, !string_length_append. split_and!; [lia|done|].
        rewrite H3. by destruct (frame_events F st' _).
      * destruct IH as (H1 & H2 & H3). by rewrite H1.
Qed.

(** The text left over has no complete frame. *)
Lemma rest_of_idem text : complete_frames F (rest_of F text) = [] /\
  rest_of F (rest_of F text) = rest_of F text.
Proof.
  destruct (frames_app text "") as [H1 H2]. rewrite !string_app_nil_r in H1, H2.
  split; [|done]. apply (app_inv_head (complete_frames F text)). by rewrite app_nil_r.
Qed.

(** Frames without events can be left out. *)
Lemma reference_drained st text st' l :
  frame_events F st (complete_frames F text) = ([], st') ->
  reference F st text l = reference F st' (rest_of F text) l.
Proof.
  intros He. destruct (rest_of_idem text) as [H1 H2].
  destruct l as [|[t|e] l]; cbn [reference]; by rewrite He, H1, ?H2.
Qed.

(** The first event comes first. *)
Lemma reference_first st text e st' text' l :
  rest_of F text = rest_of F text' ->
  frame_events F st (complete_frames F text) =
    (let '(es, st2) := frame_events F st' (complete_frames F text') in (e :: es, st2)) ->
  reference F st text l = e :: (if fin F st' then [] else reference F st' text' l).
Proof.
  intros Hr He. destruct (fin F st') eqn:E.
  - rewrite (frame_events_fin st') in He by done. destruct l as [|[]]; cbn [reference]; by rewrite He, E.
  - destruct l as [|[t|e'] l]; cbn [reference]; rewrite He, ?Hr;
      by destruct (frame_events F st' (complete_frames F text')).
Qed.

Lemma reference_arrived st text x l :
  fin F st = false -> complete_frames F text = [] -> rest_of F text = text ->
  reference F st text (x :: l) =
    match x with
    | inl t => reference F st (text +:+ t) l
    | inr e => Error e :: (if fatal F then [] else reference F st text l)
    end.
Proof. intros Hf Hc Hr. destruct x; cbn [reference]; by rewrite Hc, Hr; cbn; rewrite Hf. Qed.

(** What one poll answers, against the events still to come. *)
Lemma poll_frames_spec inner buf st r inner' buf' st' stop :
  fin F st = false ->
  poll_frames F inner buf st = (r, (inner', buf', st', stop)) ->
  let todo := reference F st buf (arrived F inner) in
  match r with
  | Pending =>
      stop = false /\ todo = reference F st' buf' (arrived F inner') /\
      length inner' < length inner
  | Ready None => todo = []
  | Ready (Some e) =>
      todo = e :: (if stop then [] else reference F st' buf' (arrived F inner')) /\
      (stop = false -> length inner' < length inner \/
        length inner' = length inner /\ String.length buf' < String.length buf)
  end.
Proof.
  revert buf st. induction inner as [|p inner IH]; intros buf st Hst; cbn [poll_frames];
    destruct (drain F (String.length buf) buf st) as [[[e|] buf1] st1] eqn:Ed;
    apply drain_spec in Ed; try done.
  1,3: destruct Ed as (Hl & Hr & He); intros [= <- <- <- <- <-]; split; [|auto];
    by apply reference_first.
  all: destruct Ed as (He & <- & Hf); destruct (rest_of_idem buf) as [H1 H2];
    pose proof (reference_drained st buf st1) as Hskip.
  - intros [= <- <- <- <- <-]. rewrite Hskip by done. cbn [arrived omap list_omap reference].
    rewrite H1. cbn. rewrite Hf. by destruct (at_end F st1).
  - rewrite arrived_cons. destruct p as [|b|e].
    + intros [= <- <- <- <- <-]. split_and!; [done|by apply Hskip|cbn; lia].
    + rewrite Hskip, reference_arrived by done. destruct (decode F b) as [t|e].
      * intros Hp. specialize (IH _ st1 Hf Hp). cbn [length]. destruct r as [|[e|]]; [| |done].
        -- destruct IH as (? & ? & ?). split_and!; [done..|lia].
        -- destruct IH as [-> H]. split; [done|]. intros Hs. destruct (H Hs); lia.
      * intros [= <- <- <- <- <-]. split; [done|cbn; lia].
    + intros [= <- <- <- <- <-]. rewrite Hskip, reference_arrived by done. split; [done|cbn; lia].
Qed.

End Framed.

Section Delivery.
Context `{SJ : SerdeJson} {St : Type} {F : Framing St} {T : Type} `{!Stream T} `{!FramedStream F T}.

Lemma stopped_delivers (s : T) : stopped s = true -> delivers s [].
Proof. intros (s' & H & _)%poll_stopped. by eapply delivers_end. Qed.

(** The loop that consumes a framed stream ends, and its events are those of
    what arrives. *)
Lemma framed_delivers (s : T) inner buf st :
  stopped s = false -> body s = (inner, buf, st) ->
  delivers s (reference F st buf (arrived F inner)).
Proof.
  remember (length inner) as n eqn:Hn. revert s inner buf st Hn.
  induction n as [n IHn] using lt_wf_ind. intros s inner buf st Hn.
  remember (String.length buf) as m eqn:Hm. revert s inner buf st Hn Hm.
  induction m as [m IHm] using lt_wf_ind. intros s inner buf st Hn Hm Hs Hb.
  pose proof (poll_running s Hs) as H. rewrite Hb in H. destruct H as [Hst H].
  destruct (poll_frames F inner buf st) as [r [[[inner' buf'] st'] stop]] eqn:Ep.
  destruct H as [Hr H].
  pose proof (poll_frames_spec F delim_nonempty fin_event _ _ _ _ _ _ _ _ Hst Ep) as Hspec.
  cbn zeta in Hspec. destruct (poll_next s) as [r' s'] eqn:E. cbn [fst snd] in *. subst r'.
  destruct r as [|[e|]].
  - destruct Hspec as (-> & -> & Hl). destruct H as [Hs' Hb'].
    eapply delivers_pending; [exact E|].
    apply (IHn (length inner') ltac:(lia)); [done|done|by apply Hb'].
  - destruct Hspec as [-> Hm']. destruct H as [Hs' Hb'].
    eapply delivers_event; [exact E|]. destruct stop; [by apply stopped_delivers|].
    specialize (Hb' eq_refl). destruct (Hm' eq_refl) as [Hlt|[Heq Hlt]].
    + by apply (IHn (length inner') ltac:(lia)).
    + apply (IHm (String.length buf') ltac:(lia)); congruence.
  - rewrite Hspec. by eapply delivers_end.
Qed.

Lemma framed_delivers_text (s : T) inner st text :
  stopped s = false -> body s = (inner, "", st) -> body_text inner = Some text ->
  (forall b, valid_utf8 b = true -> decode F b = Ok b) -> delivers s (text_events F st text).
Proof.
  intros Hs Hb Ht Hd. rewrite <- (append_nil text), <- (reference_text F delim_nonempty st "" inner text)
    by done. by apply framed_delivers.
Qed.

End Delivery.
