(* ===== verification/AnthropicStream.v ===== *)
(** The parser of Anthropic's server-sent events,
    [crates/loom-server-llm-anthropic/src/stream.rs]: events are separated by an
    empty line, their JSON is read from the last [data:] line, and the blocks of
    a message are collected until the message stops. *)
From stdpp Require Import base gmap list strings.
From Stdlib Require Import ZArith Lia Ascii.
From S2P Require Import Prelude Text CoreTypes ByteStream.

Module Anthropic.

(** * Data *)

Record MessageStartUsage := mkStartUsage { su_input_tokens : Z }.
Record MessageStartData := mkStartData {
  start_id : string;
  start_model : string;
  start_usage : option MessageStartUsage;
}.
Record MessageDeltaUsage := mkDeltaUsage { du_output_tokens : Z }.
Record MessageDeltaData := mkDeltaData { stop_reason : option string }.
Record StreamErrorData := mkErrorData { error_type : string; error_message : string }.

Inductive ContentBlock :=
| Block_Text (text : string)
| Block_ToolUse (id name : string).

Inductive ContentDelta :=
| Delta_Text (text : string)
| Delta_InputJson (partial_json : string).

Inductive StreamEvent :=
| MessageStart (message : MessageStartData)
| ContentBlockStart (index : Z) (content_block : ContentBlock)
| ContentBlockDelta (index : Z) (delta : ContentDelta)
| ContentBlockStop (index : Z)
| MessageDelta (delta : MessageDeltaData) (usage : option MessageDeltaUsage)
| MessageStop
| Ping
| StreamError (error : StreamErrorData).

(** [serde_json::from_str::<StreamEvent>]; its error is only logged. *)
Class AnthropicJson `{JR : JsonRead} := {
  stream_event_from_str : string -> option StreamEvent;
}.

Record ToolCallBuilder := mkBuilder {
  b_id : string;
  b_name : string;
  b_arguments_json : string;
}.

Section Stream.
Context `{AJ : AnthropicJson}.

Record StreamState := mkState {
  open_calls : gmap Z ToolCallBuilder;
  accumulated_content : string;
  accumulated_tool_calls : list ToolCall;
  st_stop_reason : option string;
  st_input_tokens : Z;
  st_output_tokens : Z;
}.

Definition StreamState_default : StreamState := mkState ∅ "" [] None 0 0.

Definition set_open_calls (f : gmap Z ToolCallBuilder -> gmap Z ToolCallBuilder)
    (s : StreamState) : StreamState :=
  mkState (f (open_calls s)) (accumulated_content s) (accumulated_tool_calls s)
    (st_stop_reason s) (st_input_tokens s) (st_output_tokens s).
Definition push_content (text : string) (s : StreamState) : StreamState :=
  mkState (open_calls s) (accumulated_content s +:+ text) (accumulated_tool_calls s)
    (st_stop_reason s) (st_input_tokens s) (st_output_tokens s).
Definition push_tool_call (tc : ToolCall) (s : StreamState) : StreamState :=
  mkState (open_calls s) (accumulated_content s) (accumulated_tool_calls s ++ [tc])
    (st_stop_reason s) (st_input_tokens s) (st_output_tokens s).
Definition set_stop_reason (r : option string) (s : StreamState) : StreamState :=
  mkState (open_calls s) (accumulated_content s) (accumulated_tool_calls s)
    r (st_input_tokens s) (st_output_tokens s).
Definition set_input_tokens (n : Z) (s : StreamState) : StreamState :=
  mkState (open_calls s) (accumulated_content s) (accumulated_tool_calls s)
    (st_stop_reason s) n (st_output_tokens s).
Definition set_output_tokens (n : Z) (s : StreamState) : StreamState :=
  mkState (open_calls s) (accumulated_content s) (accumulated_tool_calls s)
    (st_stop_reason s) (st_input_tokens s) n.

(** * Operations *)

Definition process_stream_event (event : StreamEvent) (state : StreamState)
    : result LlmError (option LlmEvent) * StreamState :=
  match event with
  | MessageStart message =>
      (Ok None,
       match start_usage message with
       | Some usage => set_input_tokens (su_input_tokens usage) state
       | None => state
       end)
  | ContentBlockStart index content_block =>
      match content_block with
      | Block_Text text =>
          if bool_decide (text = EmptyString) then (Ok None, state)
          else (Ok (Some (TextDelta text)), push_content text state)
      | Block_ToolUse id name =>
          (Ok None, set_open_calls <[index := mkBuilder id name ""]> state)
      end
  | ContentBlockDelta index delta =>
      match delta with
      | Delta_Text text => (Ok (Some (TextDelta text)), push_content text state)
      | Delta_InputJson partial_json =>
          match open_calls state !! index with
          | Some builder =>
              (Ok (Some (ToolCallDelta (b_id builder) (b_name builder) partial_json)),
               set_open_calls
                 <[index := mkBuilder (b_id builder) (b_name builder)
                              (b_arguments_json builder +:+ partial_json)]> state)
          | None => (Ok None, state)
          end
      end
  | ContentBlockStop index =>
      match open_calls state !! index with
      | Some builder =>
          (Ok None,
           push_tool_call
             (mkToolCall (b_id builder) (b_name builder)
                (tool_arguments (b_arguments_json builder)))
             (set_open_calls (delete index) state))
      | None => (Ok None, state)
      end
  | MessageDelta delta usage =>
      let state :=
        match stop_reason delta with
        | Some reason => set_stop_reason (Some reason) state
        | None => state
        end in
      (Ok None,
       match usage with
       | Some u => set_output_tokens (du_output_tokens u) state
       | None => state
       end)
  | MessageStop =>
      (Ok (Some (Completed
         (mkLlmResponse (Message_assistant (accumulated_content state))
            (accumulated_tool_calls state)
            (Some (mkUsage (st_input_tokens state) (st_output_tokens state)))
            (st_stop_reason state)))),
       mkState (open_calls state) "" [] None (st_input_tokens state) (st_output_tokens state))
  | Ping => (Ok None, state)
  | StreamError error => (Err (LlmError_Api (error_message error)), state)
  end.

(** The value of the last [data: ] line. *)
Definition sse_data (event_text : string) : option string :=
  fold_left (fun data line =>
    match strip_prefix "data: " line with
    | Some value => Some (str_trim value)
    | None => data
    end) (str_lines event_text) None.

(** [try_parse_event] after it has taken [event_text] from the buffer. *)
Definition parse_event_text (event_text : string) (state : StreamState)
    : result LlmError (option LlmEvent) * StreamState :=
  match sse_data event_text with
  | None => (Ok None, state)
  | Some data_str =>
      match stream_event_from_str data_str with
      | None => (Ok None, state)
      | Some stream_event => process_stream_event stream_event state
      end
  end.

Definition empty_line : string := String "010" (String "010" EmptyString).

Definition try_parse_event (buffer : string) (state : StreamState)
    : option (result LlmError (option LlmEvent)) * (string * StreamState) :=
  match split_first empty_line buffer with
  | None => (None, (buffer, state))
  | Some (event_text, buffer) =>
      let '(r, state) := parse_event_text event_text state in (Some r, (buffer, state))
  end.

Record SseStream := mkSse {
  inner : list Polled;
  buffer : string;
  state : StreamState;
  finished : bool;
}.

Definition SseStream_new (inner : list Polled) : SseStream :=
  mkSse inner "" StreamState_default false.

Definition is_terminal (e : LlmEvent) : bool :=
  match e with Completed _ | Error _ => true | _ => false end.

(** The iterations of the loop of [poll_next] that find a complete event in the
    buffer, with the event and whether it finishes the stream; each shortens the
    buffer, so its length is enough fuel. *)
Fixpoint buffered_event (fuel : nat) (buffer : string) (state : StreamState)
    : option (LlmEvent * bool) * (string * StreamState) :=
  match fuel with
  | O => (None, (buffer, state))
  | S fuel =>
      match try_parse_event buffer state with
      | (None, rest) => (None, rest)
      | (Some (Ok (Some llm_event)), rest) => (Some (llm_event, is_terminal llm_event), rest)
      | (Some (Ok None), (buffer, state)) => buffered_event fuel buffer state
      | (Some (Err e), rest) => (Some (Error e, true), rest)
      end
  end.

(** The loop of [poll_next]; an iteration that finds no event polls the body. *)
Fixpoint poll_loop (inner : list Polled) (buffer : string) (state : StreamState)
    : Poll (option LlmEvent) * SseStream :=
  match buffered_event (String.length buffer) buffer state with
  | (Some (event, stop), (buffer, state)) =>
      (Ready (Some event), mkSse inner buffer state stop)
  | (None, (buffer, state)) =>
      match inner with
      | P_Chunk bytes :: inner => poll_loop inner (buffer +:+ from_utf8_lossy bytes) state
      | P_Broken e :: inner =>
          (Ready (Some (Error (LlmError_Http e))), mkSse inner buffer state true)
      | [] => (Ready None, mkSse [] buffer state true)
      | P_Pending :: inner => (Pending, mkSse inner buffer state false)
      end
  end.

Definition SseStream_poll_next (this : SseStream) : Poll (option LlmEvent) * SseStream :=
  if finished this then (Ready None, this)
  else poll_loop (inner this) (buffer this) (state this).

#[global] Instance SseStream_stream : Stream SseStream := {| poll_next := SseStream_poll_next |}.

Definition parse_sse_stream (stream : list Polled) : SseStream := SseStream_new stream.

(** * The parser as a framed stream *)

Definition frame_step (st : StreamState * bool) (event_text : string)
    : option LlmEvent * (StreamState * bool) :=
  match parse_event_text event_text (fst st) with
  | (Ok (Some e), s) => (Some e, (s, is_terminal e))
  | (Ok None, s) => (None, (s, snd st))
  | (Err e, s) => (Some (Error e), (s, true))
  end.

Definition framing : Framing (StreamState * bool) :=
  mkFraming empty_line frame_step snd (fun b => Ok (from_utf8_lossy b)) true (fun _ => None).

Lemma anthropic_buffered_event_drain fuel buffer state :
  let '(o, (b, s)) := buffered_event fuel buffer state in
  drain framing fuel buffer (state, false) =
    match o with
    | Some (e, stop) => (Some e, b, (s, stop))
    | None => (None, b, (s, false))
    end.
Proof.
  revert buffer state. induction fuel as [|fuel IH]; intros buf st; [done|].
  cbn [buffered_event drain framing handle delim]. unfold try_parse_event, frame_step.
  destruct (split_first empty_line buf) as [[text rest]|]; [|done]. cbn [fst].
  destruct (parse_event_text text st) as [[[e|]|e] st']; [done| |done]. apply IH.
Qed.

Lemma anthropic_poll_loop_frames polls buf st0 :
  let '(r, s) := poll_loop polls buf st0 in
  let '(r', (i, b, (st, fl), stop)) := poll_frames framing polls buf (st0, false) in
  r = r' /\ (r' = Ready None \/ finished s = stop /\
    (inner s, buffer s, state s) = (i, b, st) /\
    (stop = false -> fl = false)).
Proof.
  revert buf st0. induction polls as [|p polls IH]; intros buf st;
    cbn [poll_loop poll_frames]; pose proof (anthropic_buffered_event_drain (String.length buf) buf st) as H;
    destruct (buffered_event (String.length buf) buf st) as [[[e stop]|] [b s]]; rewrite H; clear H;
    [tauto|tauto|tauto|].
  destruct p as [|c|e]; [tauto| |cbn; tauto]. cbn [framing decode]. apply IH.
Qed.

#[global] Instance SseStream_framed : FramedStream framing SseStream.
Proof.
  refine (Build_FramedStream _ _ framing SseStream _
    (fun s => (inner s, buffer s, (state s, finished s))) finished _ _ _ _).
  - done.
  - intros [st []] f; [done|]. cbn [framing fin handle snd]. unfold frame_step.
    by destruct (parse_event_text f _) as [[[e|]|e] st'].
  - intros s Hs. exists s. cbn. unfold SseStream_poll_next. by rewrite Hs.
  - intros s Hs. cbn [framing fin snd]. split; [done|]. rewrite Hs.
    cbn [poll_next SseStream_stream]. unfold SseStream_poll_next. rewrite Hs.
    pose proof (anthropic_poll_loop_frames (inner s) (buffer s) (state s)) as H.
    destruct (poll_loop (inner s) (buffer s) (state s)) as [r s'].
    destruct (poll_frames framing (inner s) (buffer s) (state s, false))
      as [r' [[[i b] [st fl]] stop]].
    destruct H as [-> [->|(Hf & Hb & Hfl)]]; [done|]. cbn [fst snd].
    split; [done|]. destruct r' as [|[e|]]; [| |done].
    all: split; [done|]; intros E; rewrite Hf, E; rewrite (Hfl E); congruence.
Defined.

End Stream.
End Anthropic.
