(* ===== verification/OpenAiStream.v ===== *)
(** The parser of OpenAI's server-sent events,
    [crates/loom-server-llm-openai/src/stream.rs], with the streaming types of
    [types.rs]: the stream is read line by line and the deltas of all chunks are
    collected until the [[DONE]] marker or the end of the body. *)
From stdpp Require Import base gmap list strings.
From Stdlib Require Import ZArith Lia Ascii.
From S2P Require Import Prelude Text CoreTypes ByteStream.

Module OpenAI.

(** * Data *)

Record OpenAIUsage := mkOpenAIUsage {
  prompt_tokens : Z;
  completion_tokens : Z;
  total_tokens : Z;
}.
Record OpenAIFunctionDelta := mkFunctionDelta {
  fd_name : option string;
  fd_arguments : option string;
}.
Record OpenAIToolCallDelta := mkToolCallDelta {
  tcd_index : Z;
  tcd_id : option string;
  call_type : option string;
  function : option OpenAIFunctionDelta;
}.
Record OpenAIDelta := mkDelta {
  delta_role : option string;
  delta_content : option string;
  delta_tool_calls : option (list OpenAIToolCallDelta);
}.
Record OpenAIStreamChoice := mkChoice {
  choice_index : Z;
  delta : OpenAIDelta;
  choice_finish_reason : option string;
}.
Record OpenAIStreamChunk := mkChunk {
  chunk_id : string;
  object : string;
  created : Z;
  chunk_model : string;
  choices : list OpenAIStreamChoice;
  chunk_usage : option OpenAIUsage;
}.
Record OpenAIErrorDetail := mkErrorDetail {
  detail_message : string;
  detail_type : option string;
  code : option string;
}.
Record OpenAIError := mkOpenAIError { error : OpenAIErrorDetail }.

Record AccumulatedToolCall := mkAccumulated {
  acc_id : string;
  acc_name : string;
  acc_arguments : string;
}.
Definition AccumulatedToolCall_default : AccumulatedToolCall := mkAccumulated "" "" "".

(** [serde_json::from_str] at the two types; the errors are only logged. *)
Class OpenAIJson `{JR : JsonRead} := {
  chunk_from_str : string -> option OpenAIStreamChunk;
  openai_error_from_str : string -> option OpenAIError;
}.

Section Stream.
Context `{OJ : OpenAIJson} `{HO : !HashOrder Z AccumulatedToolCall}.

(** The fields the parser passes by reference to [try_parse_next_event]. *)
Record Collected := mkCollected {
  accumulated_content : string;
  accumulated_tool_calls : gmap Z AccumulatedToolCall;
  finished : bool;
  usage : option Usage;
  finish_reason : option string;
}.

Record OpenAIStream := mkOpenAIStream {
  inner : list Polled;
  buffer : string;
  collected : Collected;
}.

Definition OpenAIStream_new (inner : list Polled) : OpenAIStream :=
  mkOpenAIStream inner "" (mkCollected "" ∅ false None None).

Definition push_content (text : string) (c : Collected) : Collected :=
  mkCollected (accumulated_content c +:+ text) (accumulated_tool_calls c) (finished c) (usage c)
    (finish_reason c).
Definition set_tool_calls (m : gmap Z AccumulatedToolCall) (c : Collected) : Collected :=
  mkCollected (accumulated_content c) m (finished c) (usage c) (finish_reason c).
Definition set_finished (c : Collected) : Collected :=
  mkCollected (accumulated_content c) (accumulated_tool_calls c) true (usage c) (finish_reason c).
Definition set_usage (u : Usage) (c : Collected) : Collected :=
  mkCollected (accumulated_content c) (accumulated_tool_calls c) (finished c) (Some u)
    (finish_reason c).
Definition set_finish_reason (r : string) (c : Collected) : Collected :=
  mkCollected (accumulated_content c) (accumulated_tool_calls c) (finished c) (usage c) (Some r).

(** * Operations *)

Definition build_final_response (c : Collected) : LlmResponse :=
  mkLlmResponse (Message_assistant (accumulated_content c))
    ((fun tc => mkToolCall (acc_id tc) (acc_name tc) (tool_arguments (acc_arguments tc))) <$>
       filter (fun tc => acc_id tc <> EmptyString) (hash_values (accumulated_tool_calls c)))
    (usage c) (finish_reason c).

(** One delta of a tool call; a delta with arguments makes an event. *)
Definition apply_tool_delta (d : OpenAIToolCallDelta) (m : gmap Z AccumulatedToolCall)
    : option LlmEvent * gmap Z AccumulatedToolCall :=
  let acc := default AccumulatedToolCall_default (m !! tcd_index d) in
  let acc := mkAccumulated (default (acc_id acc) (tcd_id d)) (acc_name acc) (acc_arguments acc) in
  match function d with
  | None => (None, <[tcd_index d := acc]> m)
  | Some func =>
      let acc :=
        mkAccumulated (acc_id acc) (default (acc_name acc) (fd_name func)) (acc_arguments acc) in
      match fd_arguments func with
      | None => (None, <[tcd_index d := acc]> m)
      | Some args =>
          (Some (ToolCallDelta (acc_id acc) (acc_name acc) args),
           <[tcd_index d := mkAccumulated (acc_id acc) (acc_name acc) (acc_arguments acc +:+ args)]> m)
      end
  end.

(** [for tc_delta in tool_calls], which an event leaves. *)
Fixpoint tool_deltas (ds : list OpenAIToolCallDelta) (m : gmap Z AccumulatedToolCall)
    : option LlmEvent * gmap Z AccumulatedToolCall :=
  match ds with
  | [] => (None, m)
  | d :: ds =>
      match apply_tool_delta d m with
      | (Some e, m) => (Some e, m)
      | (None, m) => tool_deltas ds m
      end
  end.

(** [for choice in chunk.choices], which an event leaves too. *)
Fixpoint choices_loop (cs : list OpenAIStreamChoice) (c : Collected)
    : option LlmEvent * Collected :=
  match cs with
  | [] => (None, c)
  | choice :: cs =>
      let c :=
        match choice_finish_reason choice with
        | Some fr => set_finish_reason fr c
        | None => c
        end in
      let text := default EmptyString (delta_content (delta choice)) in
      if bool_decide (text <> EmptyString) then (Some (TextDelta text), push_content text c)
      else
        match tool_deltas (default [] (delta_tool_calls (delta choice))) (accumulated_tool_calls c)
        with
        | (Some e, m) => (Some e, set_tool_calls m c)
        | (None, m) => choices_loop cs (set_tool_calls m c)
        end
  end.

(** The body of [try_parse_next_event]'s loop for one line. *)
Definition process_line (line : string) (c : Collected) : option LlmEvent * Collected :=
  if bool_decide (line = EmptyString) then (None, c)
  else if starts_with line ":" then (None, c)
  else
    match strip_prefix "data: " line with
    | None => (None, c)
    | Some data =>
        let data := str_trim data in
        if bool_decide (data = "[DONE]") then
          (Some (Completed (build_final_response (set_finished c))), set_finished c)
        else
          match chunk_from_str data with
          | Some chunk =>
              choices_loop (choices chunk)
                match chunk_usage chunk with
                | Some u => set_usage (mkUsage (prompt_tokens u) (completion_tokens u)) c
                | None => c
                end
          | None =>
              match openai_error_from_str data with
              | Some error_response =>
                  (Some (Error (LlmError_Api (detail_message (error error_response)))), c)
              | None => (None, c)
              end
          end
    end.

Definition newline : string := String "010" EmptyString.

(** [while let Some(line_end) = buffer.find('\n')]; each line shortens the
    buffer, so its length is enough fuel. *)
Fixpoint try_parse_next_event (fuel : nat) (buffer : string) (c : Collected)
    : option LlmEvent * (string * Collected) :=
  match fuel with
  | O => (None, (buffer, c))
  | S fuel =>
      match split_first newline buffer with
      | None => (None, (buffer, c))
      | Some (line, buffer) =>
          match process_line (trim_end_matches "013" line) c with
          | (Some e, c) => (Some e, (buffer, c))
          | (None, c) => try_parse_next_event fuel buffer c
          end
      end
  end.

Fixpoint poll_loop (inner : list Polled) (buffer : string) (c : Collected)
    : Poll (option LlmEvent) * OpenAIStream :=
  match try_parse_next_event (String.length buffer) buffer c with
  | (Some event, (buffer, c)) => (Ready (Some event), mkOpenAIStream inner buffer c)
  | (None, (buffer, c)) =>
      match inner with
      | P_Chunk bytes :: inner =>
          match from_utf8 bytes with
          | Ok s => poll_loop inner (buffer +:+ s) c
          | Err e =>
              (Ready (Some (Error (LlmError_InvalidResponse ("Invalid UTF-8: " +:+ e)))),
               mkOpenAIStream inner buffer c)
          end
      | P_Broken e :: inner =>
          (Ready (Some (Error (LlmError_Http e))), mkOpenAIStream inner buffer c)
      | [] =>
          let c := set_finished c in
          (if bool_decide (accumulated_content c <> EmptyString \/ accumulated_tool_calls c <> ∅)
           then Ready (Some (Completed (build_final_response c)))
           else Ready None,
           mkOpenAIStream [] buffer c)
      | P_Pending :: inner => (Pending, mkOpenAIStream inner buffer c)
      end
  end.

Definition OpenAIStream_poll_next (this : OpenAIStream) : Poll (option LlmEvent) * OpenAIStream :=
  if finished (collected this) then (Ready None, this)
  else poll_loop (inner this) (buffer this) (collected this).

#[global] Instance OpenAIStream_stream : Stream OpenAIStream :=
  {| poll_next := OpenAIStream_poll_next |}.

(** * The parser as a framed stream *)

Definition framing : Framing Collected :=
  mkFraming newline (fun c line => process_line (trim_end_matches "013" line) c) finished
    (fun b =>
       match from_utf8 b with
       | Ok s => Ok s
       | Err e => Err (LlmError_InvalidResponse ("Invalid UTF-8: " +:+ e))
       end) false
    (fun c =>
       if bool_decide (accumulated_content c <> EmptyString \/ accumulated_tool_calls c <> ∅)
       then Some (Completed (build_final_response c)) else None).

Lemma choices_loop_finished cs c : finished (choices_loop cs c).2 = finished c.
Proof.
  revert c. induction cs as [|choice cs IH]; intros c; [done|]. cbn [choices_loop].
  destruct (bool_decide _); [by destruct (choice_finish_reason choice)|].
  destruct (tool_deltas _ _) as [[e|] m];
    [|rewrite IH]; by destruct (choice_finish_reason choice).
Qed.

Lemma openai_process_line_finished line c :
  (process_line line c).1 = None -> finished (process_line line c).2 = finished c.
Proof.
  unfold process_line. destruct (bool_decide _); [done|]. destruct (starts_with line ":"); [done|].
  destruct (strip_prefix _ _) as [data|]; [|done]. destruct (bool_decide _); [done|].
  destruct (chunk_from_str _) as [chunk|].
  - rewrite choices_loop_finished. by destruct (chunk_usage chunk).
  - by destruct (openai_error_from_str _).
Qed.

Lemma openai_try_parse_drain fuel buf c :
  drain framing fuel buf c =
    let '(o, (b, c)) := try_parse_next_event fuel buf c in (o, b, c).
Proof.
  revert buf c. induction fuel as [|fuel IH]; intros buf c; [done|].
  cbn [drain try_parse_next_event framing delim handle].
  destruct (split_first newline buf) as [[line rest]|]; [|done].
  destruct (process_line (trim_end_matches "013" line) c) as [[e|] c']; [done|apply IH].
Qed.

Lemma openai_poll_loop_frames polls buf c : finished c = false ->
  let '(r, s) := poll_loop polls buf c in
  let '(r', (i, b, st, stop)) := poll_frames framing polls buf c in
  r = r' /\ (r' = Ready None \/ finished (collected s) = stop /\
    (stop = false -> (inner s, buffer s, collected s) = (i, b, st))).
Proof.
  revert buf c. induction polls as [|p polls IH]; intros buf c Hc;
    cbn [poll_loop poll_frames]; rewrite openai_try_parse_drain;
    pose proof (drain_spec framing) as Hd; unfold newline in Hd;
    specialize (Hd ltac:(done) ltac:(intros ????; cbn in *; rewrite openai_process_line_finished; done)
      (String.length buf) buf c);
    rewrite openai_try_parse_drain in Hd;
    destruct (try_parse_next_event (String.length buf) buf c) as [[e|] [b s]];
    [tauto| |tauto|].
  - cbn [framing at_end set_finished accumulated_content accumulated_tool_calls].
    destruct (bool_decide _); [|auto]. split; [done|]. right. by split.
  - destruct (Hd _ _ _ ltac:(done) Hc eq_refl) as (_ & _ & Hs). cbn [framing fin] in Hs.
    destruct p as [|bytes|e]; [auto| |auto]. cbn [framing decode].
    destruct (from_utf8 bytes) as [t|e]; [by apply IH|auto].
Qed.

#[global] Instance OpenAIStream_framed : FramedStream framing OpenAIStream.
Proof.
  refine (Build_FramedStream _ _ framing OpenAIStream _
    (fun s => (inner s, buffer s, collected s)) (fun s => finished (collected s)) _ _ _ _).
  - done.
  - intros c line Hc H. cbn in *. by rewrite openai_process_line_finished.
  - intros s Hs. exists s. cbn. unfold OpenAIStream_poll_next. by rewrite Hs.
  - intros s Hs. split; [done|]. cbn [poll_next OpenAIStream_stream].
    unfold OpenAIStream_poll_next. rewrite Hs.
    pose proof (openai_poll_loop_frames (inner s) (buffer s) (collected s) Hs) as H.
    destruct (poll_loop (inner s) (buffer s) (collected s)) as [r s'].
    destruct (poll_frames framing (inner s) (buffer s) (collected s)) as [r' [[[i b] st] stop]].
    destruct H as [-> [->|[Hf Hb]]]; [done|]. by destruct r' as [|[e|]].
Defined.

End Stream.
End OpenAI.
