(* ===== verification/VertexStream.v ===== *)
(** The parser of Vertex AI's streamed responses,
    [crates/loom-server-llm-vertex/src/stream.rs], with the response types of
    [types.rs]: every line of the body is one JSON object, possibly wrapped in
    the brackets and commas of an array. *)
From stdpp Require Import base gmap list strings pretty.
From Stdlib Require Import ZArith Lia Ascii.
From S2P Require Import Prelude Text CoreTypes ByteStream.

Module Vertex.

(** * Data *)

Section Types.
Context `{SJ : SerdeJson}.

Record VertexFunctionCall := mkFunctionCall { fc_name : string; args : Json }.
Record VertexFunctionResponse := mkFunctionResponse { fr_name : string; response : Json }.

Inductive VertexPart :=
| Part_Text (text : string)
| Part_FunctionCall (function_call : VertexFunctionCall)
| Part_FunctionResponse (function_response : VertexFunctionResponse).

Record VertexContent := mkContent { content_role : option string; parts : list VertexPart }.

Record VertexCandidate := mkCandidate {
  cand_content : VertexContent;
  cand_finish_reason : option string;
}.

Record VertexUsageMetadata := mkUsageMetadata {
  prompt_token_count : Z;
  candidates_token_count : option Z;
  total_token_count : option Z;
}.

Record VertexResponse := mkVertexResponse {
  candidates : list VertexCandidate;
  usage_metadata : option VertexUsageMetadata;
}.

Record VertexErrorDetail := mkErrorDetail {
  err_message : string;
  status : option string;
  code : option Z;
}.
Record VertexError := mkVertexError { error : VertexErrorDetail }.

Definition usage_of (u : VertexUsageMetadata) : Usage :=
  mkUsage (prompt_token_count u) (default 0%Z (candidates_token_count u)).

End Types.

(** [serde_json::from_str] at the two types; the errors are dropped. *)
Class VertexJson `{JR : JsonRead} := {
  response_from_str : string -> option VertexResponse;
  vertex_error_from_str : string -> option VertexError;
}.

Record AccumulatedToolCall := mkAccumulated {
  acc_call_id : string;
  acc_name : string;
  acc_arguments : string;
}.

Section Stream.
Context `{VJ : VertexJson} `{HO : !HashOrder string AccumulatedToolCall}.

(** The fields the parser passes by reference to [try_parse_next_event]. *)
Record Collected := mkCollected {
  accumulated_content : string;
  tool_calls : gmap string AccumulatedToolCall;
  tool_call_counter : nat;
  usage : option Usage;
  finish_reason : option string;
  finished : bool;
}.

Record VertexStream := mkVertexStream {
  inner : list Polled;
  buffer : string;
  collected : Collected;
}.

Definition VertexStream_new (inner : list Polled) : VertexStream :=
  mkVertexStream inner "" (mkCollected "" ∅ 0 None None false).

Definition push_content (text : string) (c : Collected) : Collected :=
  mkCollected (accumulated_content c +:+ text) (tool_calls c) (tool_call_counter c) (usage c)
    (finish_reason c) (finished c).
Definition set_usage (u : Usage) (c : Collected) : Collected :=
  mkCollected (accumulated_content c) (tool_calls c) (tool_call_counter c) (Some u)
    (finish_reason c) (finished c).
Definition set_finish_reason (r : string) (c : Collected) : Collected :=
  mkCollected (accumulated_content c) (tool_calls c) (tool_call_counter c) (usage c) (Some r)
    (finished c).
Definition set_finished (c : Collected) : Collected :=
  mkCollected (accumulated_content c) (tool_calls c) (tool_call_counter c) (usage c)
    (finish_reason c) true.

(** * Operations *)

Definition build_final_response (c : Collected) : LlmResponse :=
  mkLlmResponse (Message_assistant (accumulated_content c))
    ((fun tc => mkToolCall (acc_call_id tc) (acc_name tc) (tool_arguments (acc_arguments tc))) <$>
       filter (fun tc => acc_name tc <> EmptyString) (hash_values (tool_calls c)))
    (usage c) (finish_reason c).

Definition call_id_of (n : nat) : string := "vertex_call_" +:+ pretty n.

(** The arm of a function call: a new identifier from the counter, the
    arguments appended to its entry. *)
Definition collect_call (fc : VertexFunctionCall) (c : Collected) : LlmEvent * Collected :=
  let call_id := call_id_of (tool_call_counter c) in
  let acc := default (mkAccumulated call_id (fc_name fc) "") (tool_calls c !! call_id) in
  let fragment := default EmptyString (json_to_string (args fc)) in
  (ToolCallDelta call_id (fc_name fc) fragment,
   mkCollected (accumulated_content c)
     (<[call_id := mkAccumulated (acc_call_id acc) (acc_name acc)
                     (acc_arguments acc +:+ fragment)]> (tool_calls c))
     (S (tool_call_counter c)) (usage c) (finish_reason c) (finished c)).

(** [for part in &candidate.content.parts], which an event leaves. *)
Fixpoint parts_loop (ps : list VertexPart) (c : Collected) : option LlmEvent * Collected :=
  match ps with
  | [] => (None, c)
  | Part_Text text :: ps =>
      if bool_decide (text <> EmptyString) then (Some (TextDelta text), push_content text c)
      else parts_loop ps c
  | Part_FunctionCall fc :: _ => let '(e, c) := collect_call fc c in (Some e, c)
  | Part_FunctionResponse _ :: ps => parts_loop ps c
  end.

Definition is_terminal_reason (fr : string) : bool :=
  bool_decide (fr = "STOP") || bool_decide (fr = "MAX_TOKENS") || bool_decide (fr = "SAFETY").

Definition process_candidate (candidate : VertexCandidate) (c : Collected)
    : option LlmEvent * Collected :=
  let '(is_terminal, c) :=
    match cand_finish_reason candidate with
    | Some fr => (is_terminal_reason fr, set_finish_reason fr c)
    | None => (false, c)
    end in
  match parts_loop (parts (cand_content candidate)) c with
  | (Some e, c) => (Some e, c)
  | (None, c) =>
      if is_terminal then
        (Some (Completed (build_final_response (set_finished c))), set_finished c)
      else (None, c)
  end.

(** The JSON of a line. *)
Definition json_of_line (line : string) : string :=
  str_trim (trim_end_matches "]" (trim_start_matches "," (trim_start_matches "[" line))).

(** The body of [try_parse_next_event]'s loop for one line. *)
Definition process_line (line : string) (c : Collected) : option LlmEvent * Collected :=
  let line := str_trim line in
  if bool_decide (line = EmptyString) then (None, c)
  else
    let json_str := json_of_line line in
    if bool_decide (json_str = EmptyString) then (None, c)
    else
      match response_from_str json_str with
      | Some chunk =>
          let c :=
            match usage_metadata chunk with
            | Some u => set_usage (usage_of u) c
            | None => c
            end in
          match candidates chunk with
          | candidate :: _ => process_candidate candidate c
          | [] => (None, c)
          end
      | None =>
          match vertex_error_from_str json_str with
          | Some err => (Some (Error (LlmError_Api (err_message (error err)))), set_finished c)
          | None => (None, c)
          end
      end.

Definition newline : string := String "010" EmptyString.

Fixpoint try_parse_next_event (fuel : nat) (buffer : string) (c : Collected)
    : option LlmEvent * (string * Collected) :=
  match fuel with
  | O => (None, (buffer, c))
  | S fuel =>
      match split_first newline buffer with
      | None => (None, (buffer, c))
      | Some (line, buffer) =>
          match process_line line c with
          | (Some e, c) => (Some e, (buffer, c))
          | (None, c) => try_parse_next_event fuel buffer c
          end
      end
  end.

Fixpoint poll_loop (inner : list Polled) (buffer : string) (c : Collected)
    : Poll (option LlmEvent) * VertexStream :=
  match try_parse_next_event (String.length buffer) buffer c with
  | (Some event, (buffer, c)) => (Ready (Some event), mkVertexStream inner buffer c)
  | (None, (buffer, c)) =>
      match inner with
      | P_Chunk bytes :: inner =>
          match from_utf8 bytes with
          | Ok s => poll_loop inner (buffer +:+ s) c
          | Err e =>
              (Ready (Some (Error (LlmError_InvalidResponse ("Invalid UTF-8: " +:+ e)))),
               mkVertexStream inner buffer (set_finished c))
          end
      | P_Broken e :: inner =>
          (Ready (Some (Error (LlmError_Http e))), mkVertexStream inner buffer (set_finished c))
      | [] =>
          let c := set_finished c in
          (if bool_decide (accumulated_content c <> EmptyString \/ tool_calls c <> ∅)
           then Ready (Some (Completed (build_final_response c)))
           else Ready None,
           mkVertexStream [] buffer c)
      | P_Pending :: inner => (Pending, mkVertexStream inner buffer c)
      end
  end.

Definition VertexStream_poll_next (this : VertexStream) : Poll (option LlmEvent) * VertexStream :=
  if finished (collected this) then (Ready None, this)
  else poll_loop (inner this) (buffer this) (collected this).

#[global] Instance VertexStream_stream : Stream VertexStream :=
  {| poll_next := VertexStream_poll_next |}.

(** * The parser as a framed stream *)

Definition framing : Framing Collected :=
  mkFraming newline (fun c line => process_line line c) finished
    (fun b =>
       match from_utf8 b with
       | Ok s => Ok s
       | Err e => Err (LlmError_InvalidResponse ("Invalid UTF-8: " +:+ e))
       end) true
    (fun c =>
       if bool_decide (accumulated_content c <> EmptyString \/ tool_calls c <> ∅)
       then Some (Completed (build_final_response c)) else None).

Lemma parts_loop_finished ps c : finished (parts_loop ps c).2 = finished c.
Proof.
  revert c. induction ps as [|[t|fc|fr] ps IH]; intros c; cbn [parts_loop]; [done| |done|apply IH].
  by destruct (bool_decide _).
Qed.

Lemma process_candidate_finished cand c :
  (process_candidate cand c).1 = None -> finished (process_candidate cand c).2 = finished c.
Proof.
  unfold process_candidate. destruct (cand_finish_reason cand) as [fr|];
    match goal with |- context[parts_loop ?ps ?c] => pose proof (parts_loop_finished ps c) as H;
      destruct (parts_loop ps c) as [[e|] c'] end; cbn in *; [done| |done|done].
  by destruct (is_terminal_reason fr).
Qed.

Lemma vertex_process_line_finished line c :
  (process_line line c).1 = None -> finished (process_line line c).2 = finished c.
Proof.
  unfold process_line. destruct (bool_decide _); [done|]. destruct (bool_decide _); [done|].
  destruct (response_from_str _) as [chunk|].
  - destruct (candidates chunk) as [|cand cs]; [by destruct (usage_metadata chunk)|].
    intros H. rewrite process_candidate_finished by done. by destruct (usage_metadata chunk).
  - by destruct (vertex_error_from_str _).
Qed.

Lemma vertex_try_parse_drain fuel buf c :
  drain framing fuel buf c =
    let '(o, (b, c)) := try_parse_next_event fuel buf c in (o, b, c).
Proof.
  revert buf c. induction fuel as [|fuel IH]; intros buf c; [done|].
  cbn [drain try_parse_next_event framing delim handle].
  destruct (split_first newline buf) as [[line rest]|]; [|done].
  destruct (process_line line c) as [[e|] c']; [done|apply IH].
Qed.

Lemma vertex_poll_loop_frames polls buf c : finished c = false ->
  let '(r, s) := poll_loop polls buf c in
  let '(r', (i, b, st, stop)) := poll_frames framing polls buf c in
  r = r' /\ (r' = Ready None \/ finished (collected s) = stop /\
    (stop = false -> (inner s, buffer s, collected s) = (i, b, st))).
Proof.
  revert buf c. induction polls as [|p polls IH]; intros buf c Hc;
    cbn [poll_loop poll_frames]; rewrite vertex_try_parse_drain;
    pose proof (drain_spec framing ltac:(done)
      ltac:(intros ????; cbn in *; rewrite vertex_process_line_finished; done)
      (String.length buf) buf c) as Hd;
    rewrite vertex_try_parse_drain in Hd;
    destruct (try_parse_next_event (String.length buf) buf c) as [[e|] [b s]];
    [tauto| |tauto|].
  - cbn [framing at_end set_finished accumulated_content tool_calls].
    destruct (bool_decide _); [|auto]. split; [done|]. right. by split.
  - destruct (Hd _ _ _ ltac:(done) Hc eq_refl) as (_ & _ & Hs). cbn [framing fin] in Hs.
    destruct p as [|bytes|e]; [auto| |by (split; [done|right])]. cbn [framing decode].
    destruct (from_utf8 bytes) as [t|e]; [by apply IH|by (split; [done|right])].
Qed.

#[global] Instance VertexStream_framed : FramedStream framing VertexStream.
Proof.
  refine (Build_FramedStream _ _ framing VertexStream _
    (fun s => (inner s, buffer s, collected s)) (fun s => finished (collected s)) _ _ _ _).
  - done.
  - intros c line Hc H. cbn in *. by rewrite vertex_process_line_finished.
  - intros s Hs. exists s. cbn. unfold VertexStream_poll_next. by rewrite Hs.
  - intros s Hs. split; [done|]. cbn [poll_next VertexStream_stream].
    unfold VertexStream_poll_next. rewrite Hs.
    pose proof (vertex_poll_loop_frames (inner s) (buffer s) (collected s) Hs) as H.
    destruct (poll_loop (inner s) (buffer s) (collected s)) as [r s'].
    destruct (poll_frames framing (inner s) (buffer s) (collected s)) as [r' [[[i b] st] stop]].
    destruct H as [-> [->|[Hf Hb]]]; [done|]. by destruct r' as [|[e|]].
Defined.

End Stream.
End Vertex.
