(* ===== verification/ProxyStream.v ===== *)
(** How LLM events travel from the server to the client: the relay
    [create_sse_response] of [crates/loom-server/src/llm_proxy.rs] and the parser
    [crates/loom-server-llm-proxy/src/stream.rs] with its wire types, and the
    questions of [loom-common-core/src/server_query.rs] that may be among them. *)
From stdpp Require Import base list strings.
From Stdlib Require Import ZArith Lia Ascii.
From S2P Require Import Prelude Text CoreTypes ByteStream.

Module Proxy.

Section Types.
Context `{SJ : SerdeJson}.

(** * Data *)

Inductive ServerQueryKind :=
| Query_ReadFile (path : string)
| Query_ExecuteCommand (command : string) (args : list string) (timeout_secs : Z)
| Query_RequestUserInput (prompt input_type : string) (options : option (list string))
| Query_GetEnvironment (keys : list string)
| Query_GetWorkspaceContext
| Query_Custom (name : string) (payload : Json).

Record ServerQuery := mkServerQuery {
  query_id : string;
  kind : ServerQueryKind;
  sent_at : string;
  timeout_secs : Z;
  metadata : Json;
}.

Record LlmProxyResponse := mkProxyResponse {
  pr_message : Message;
  pr_tool_calls : list ToolCall;
  pr_usage : option Usage;
  pr_finish_reason : option string;
}.

Inductive LlmStreamEvent :=
| Stream_TextDelta (content : string)
| Stream_ToolCallDelta (call_id tool_name arguments_fragment : string)
| Stream_ServerQuery (query : ServerQuery)
| Stream_Completed (response : LlmProxyResponse)
| Stream_Error (message : string).

Definition LlmResponse_from (proxy : LlmProxyResponse) : LlmResponse :=
  mkLlmResponse (pr_message proxy) (pr_tool_calls proxy) (pr_usage proxy) (pr_finish_reason proxy).
Definition LlmProxyResponse_from (response : LlmResponse) : LlmProxyResponse :=
  mkProxyResponse (message response) (resp_tool_calls response) (usage response)
    (finish_reason response).

End Types.

(** [serde_json] at the wire type: [from_str] with the [Display] text of its
    error, and the fallible [to_string].  [json_exact] are the values that are
    read back as they were written (numbers with a fraction may lose a bit). *)
Class ProxyJson `{SJ : SerdeJson} := {
  stream_event_from_str : string -> result string LlmStreamEvent;
  stream_event_to_string : LlmStreamEvent -> option string;
  json_exact : Json -> Prop;
}.

Definition exact_calls `{PJ : ProxyJson} (calls : list ToolCall) : Prop :=
  Forall (fun tc => json_exact (arguments_json tc)) calls.
Definition exact_event `{PJ : ProxyJson} (e : LlmStreamEvent) : Prop :=
  match e with
  | Stream_TextDelta _ | Stream_ToolCallDelta _ _ _ | Stream_Error _ => True
  | Stream_Completed r => exact_calls (pr_tool_calls r) /\ exact_calls (tool_calls (pr_message r))
  | Stream_ServerQuery q =>
      json_exact (metadata q) /\
      match kind q with Query_Custom _ payload => json_exact payload | _ => True end
  end.

(** What is relied on: JSON is read back, a tagged event is an object, and
    compact JSON has no control characters. *)
Class ProxyJsonLaws `{PJ : ProxyJson} := {
  to_from_string e j : exact_event e -> stream_event_to_string e = Some j ->
    stream_event_from_str j = Ok e;
  to_string_object e j : stream_event_to_string e = Some j ->
    exists k, j = "{" +:+ k +:+ "}";
  to_string_line e j : stream_event_to_string e = Some j -> single_line j = true;
}.

(** [axum::response::sse::Event] and its form on the wire. *)
Class AxumSse := {
  Event : Type;
  Event_default : Event;
  event : string -> Event -> Event;
  data : string -> Event -> Event;
  wire : Event -> string;
}.
Class AxumSseLaws `{AX : AxumSse} := {
  wire_named_data n d : single_line n = true -> single_line d = true ->
    wire (data d (event n Event_default)) = sse_event n d;
}.

Section Proxy.
Context `{PJ : ProxyJson}.

(** * The client's parser *)

Record ProxyLlmStream := mkProxyStream { inner : list Polled; buffer : string }.

Definition ProxyLlmStream_new (inner : list Polled) : ProxyLlmStream := mkProxyStream inner "".

Definition convert_stream_event (e : LlmStreamEvent) : LlmEvent :=
  match e with
  | Stream_TextDelta content => TextDelta content
  | Stream_ToolCallDelta call_id tool_name fragment => ToolCallDelta call_id tool_name fragment
  | Stream_ServerQuery query =>
      Error (LlmError_Api
        ("server_query events should be handled at client layer: " +:+ query_id query))
  | Stream_Completed response => Completed (LlmResponse_from response)
  | Stream_Error message => Error (LlmError_Api message)
  end.

(** The values of the last [event:] and [data:] lines. *)
Definition block_fields (block : string) : option string * option string :=
  fold_left (fun '(event_type, data) line =>
    match strip_prefix "event:" line with
    | Some value => (Some (str_trim value), data)
    | None =>
        match strip_prefix "data:" line with
        | Some value => (event_type, Some (str_trim value))
        | None => (event_type, data)
        end
    end) (str_lines block) (None, None).

Definition parse_event_block (block : string) : option LlmEvent :=
  match block_fields block with
  | (Some event_type, Some data) =>
      if bool_decide (event_type <> "llm") then None
      else
        Some match stream_event_from_str data with
             | Ok stream_event => convert_stream_event stream_event
             | Err e =>
                 Error (LlmError_InvalidResponse ("failed to parse SSE event: " +:+ e))
             end
  | _ => None
  end.

Definition empty_line : string := String "010" (String "010" EmptyString).

(** [while let Some(end_idx) = buffer.find("\n\n")]. *)
Fixpoint buffered_event (fuel : nat) (buffer : string) : option LlmEvent * string :=
  match fuel with
  | O => (None, buffer)
  | S fuel =>
      match split_first empty_line buffer with
      | None => (None, buffer)
      | Some (event_block, buffer) =>
          match parse_event_block event_block with
          | Some event => (Some event, buffer)
          | None => buffered_event fuel buffer
          end
      end
  end.

Fixpoint poll_loop (inner : list Polled) (buffer : string)
    : Poll (option LlmEvent) * ProxyLlmStream :=
  match buffered_event (String.length buffer) buffer with
  | (Some event, buffer) => (Ready (Some event), mkProxyStream inner buffer)
  | (None, buffer) =>
      match inner with
      | P_Chunk bytes :: inner =>
          match from_utf8 bytes with
          | Ok text => poll_loop inner (buffer +:+ text)
          | Err _ =>
              (Ready (Some (Error (LlmError_InvalidResponse "received non-UTF8 data"))),
               mkProxyStream inner buffer)
          end
      | P_Broken e :: inner =>
          (Ready (Some (Error (LlmError_Http e))), mkProxyStream inner buffer)
      | [] => (Ready None, mkProxyStream [] buffer)
      | P_Pending :: inner => (Pending, mkProxyStream inner buffer)
      end
  end.

Definition ProxyLlmStream_poll_next (this : ProxyLlmStream)
    : Poll (option LlmEvent) * ProxyLlmStream :=
  poll_loop (inner this) (buffer this).

#[global] Instance ProxyLlmStream_stream : Stream ProxyLlmStream :=
  {| poll_next := ProxyLlmStream_poll_next |}.

(** ** The parser as a framed stream *)

Definition framing : Framing unit :=
  mkFraming empty_line (fun _ block => (parse_event_block block, ())) (fun _ => false)
    (fun b =>
       match from_utf8 b with
       | Ok s => Ok s
       | Err _ => Err (LlmError_InvalidResponse "received non-UTF8 data")
       end) false (fun _ => None).

Lemma proxy_buffered_event_drain fuel buf u :
  drain framing fuel buf u = let '(o, b) := buffered_event fuel buf in (o, b, ()).
Proof.
  destruct u. revert buf. induction fuel as [|fuel IH]; intros buf; [done|].
  cbn [drain buffered_event framing delim handle].
  destruct (split_first empty_line buf) as [[block rest]|]; [|done].
  destruct (parse_event_block block) as [e|]; [done|apply IH].
Qed.

Lemma proxy_poll_loop_frames polls buf :
  let '(r, s) := poll_loop polls buf in
  let '(r', (i, b, _, stop)) := poll_frames framing polls buf () in
  r = r' /\ (r' = Ready None \/ stop = false /\ (inner s, buffer s) = (i, b)).
Proof.
  revert buf. induction polls as [|p polls IH]; intros buf; cbn [poll_loop poll_frames];
    rewrite proxy_buffered_event_drain; destruct (buffered_event (String.length buf) buf) as [[e|] b];
    [by auto..|].
  destruct p as [|bytes|e]; [by auto| |by auto]. cbn [framing decode].
  destruct (from_utf8 bytes) as [t|e]; [apply IH|by auto].
Qed.

#[global] Instance ProxyLlmStream_framed : FramedStream framing ProxyLlmStream.
Proof.
  refine (Build_FramedStream _ _ framing ProxyLlmStream _
    (fun s => (inner s, buffer s, ())) (fun _ => false) _ _ _ _); [done..|].
  intros s _. split; [done|]. cbn [poll_next ProxyLlmStream_stream].
  unfold ProxyLlmStream_poll_next. pose proof (proxy_poll_loop_frames (inner s) (buffer s)) as H.
  destruct (poll_loop (inner s) (buffer s)) as [r s'].
  destruct (poll_frames framing (inner s) (buffer s) ()) as [r' [[[i b] []] stop]].
  destruct H as [-> [->|[-> Hb]]]; [done|]. destruct r' as [|[e|]]; [| |done];
    (split; [done|split; [done|]]; intros _; cbn [snd]; congruence).
Defined.

End Proxy.

(** * The server's relay *)

Section Relay.
Context `{PJ : ProxyJson} `{AX : AxumSse}.
(** The names in the audit log. *)
Context (provider model_name : string).

Inductive AuditRecord :=
| Audit_LlmRequestCompleted (provider model : string) (tool_call_count : nat)
| Audit_LlmRequestFailed (provider model error : string).

Definition stream_event_of (e : LlmEvent) : LlmStreamEvent :=
  match e with
  | TextDelta content => Stream_TextDelta content
  | ToolCallDelta call_id tool_name fragment => Stream_ToolCallDelta call_id tool_name fragment
  | Completed response => Stream_Completed (LlmProxyResponse_from response)
  | Error err => Stream_Error (LlmError_to_string err)
  end.

Definition audit_of (e : LlmEvent) : list AuditRecord :=
  match e with
  | Completed response =>
      [Audit_LlmRequestCompleted provider model_name (length (resp_tool_calls response))]
  | Error err => [Audit_LlmRequestFailed provider model_name (LlmError_to_string err)]
  | _ => []
  end.

(** The task [create_sse_response] spawns, over the events of its stream.
    [answers] says of each send whether the receiver is still there (it is, after
    the end of the list); the events sent and the audit log are returned. *)
Fixpoint relay (answers : list bool) (stream : list LlmEvent) : list Event * list AuditRecord :=
  match stream with
  | [] => ([], [])
  | e :: stream =>
      match stream_event_to_string (stream_event_of e) with
      | None => let '(sent, logged) := relay answers stream in (sent, audit_of e ++ logged)
      | Some json =>
          match answers with
          | false :: _ => ([], audit_of e)
          | _ =>
              let '(sent, logged) := relay (tail answers) stream in
              (data json (event "llm" Event_default) :: sent, audit_of e ++ logged)
          end
      end
  end.

(** The body of the response: the events on the wire one after the other. *)
Definition sse_body (answers : list bool) (stream : list LlmEvent) : string :=
  fold_right (fun e s => wire e +:+ s) EmptyString (relay answers stream).1.

End Relay.
End Proxy.
