(* ===== verification/LlmStreams.v ===== *)
(** What the streams of LLM events guarantee: the four parsers read the text of
    a body independently of its chunks and always come to an end, and the events
    the server relays are the events the client's parser delivers. *)
From stdpp Require Import base gmap list strings.
From Stdlib Require Import ZArith Lia Ascii.
From S2P Require Import Prelude Text CoreTypes ByteStream AnthropicStream OpenAiStream.
From S2P Require Import VertexStream ProxyStream.
Import Anthropic(AnthropicJson) OpenAI(OpenAIJson) Vertex(VertexJson) Proxy(ProxyJson).

(** * All parsers *)

Section Parsers.
Context `{JR : JsonRead} `{AJ : !AnthropicJson} `{OJ : !OpenAIJson} `{VJ : !VertexJson}
  `{PJ : !ProxyJson} `{HO : !HashOrder Z OpenAI.AccumulatedToolCall}
  `{HV : !HashOrder string Vertex.AccumulatedToolCall}.

Definition anthropic_start : Anthropic.StreamState * bool := (Anthropic.StreamState_default, false).
Definition openai_start : OpenAI.Collected := OpenAI.collected (OpenAI.OpenAIStream_new []).
Definition vertex_start : Vertex.Collected := Vertex.collected (Vertex.VertexStream_new []).

(** What every body makes each parser deliver. *)
Lemma anthropic_delivers inner : delivers (Anthropic.parse_sse_stream inner)
  (reference Anthropic.framing anthropic_start "" (arrived Anthropic.framing inner)).
Proof. by apply framed_delivers. Qed.

Lemma openai_delivers inner : delivers (OpenAI.OpenAIStream_new inner)
  (reference OpenAI.framing openai_start "" (arrived OpenAI.framing inner)).
Proof. by apply framed_delivers. Qed.

Lemma vertex_delivers inner : delivers (Vertex.VertexStream_new inner)
  (reference Vertex.framing vertex_start "" (arrived Vertex.framing inner)).
Proof. by apply framed_delivers. Qed.

Lemma proxy_delivers inner : delivers (Proxy.ProxyLlmStream_new inner)
  (reference Proxy.framing () "" (arrived Proxy.framing inner)).
Proof. by apply framed_delivers. Qed.

(** ** The closing events *)

Definition is_completed_event (e : LlmEvent) : bool :=
  match e with Completed _ => true | _ => false end.

Lemma anthropic_closing st f e st' : handle Anthropic.framing st f = (Some e, st') ->
  Anthropic.is_terminal e = true -> fin Anthropic.framing st' = true.
Proof.
  cbn. unfold Anthropic.frame_step.
  destruct (Anthropic.parse_event_text f st.1) as [[[e'|]|e'] s]; intros [= <- <-]; done.
Qed.

Lemma openai_deltas_open cs c e c' : OpenAI.choices_loop cs c = (Some e, c') ->
  Anthropic.is_terminal e = false.
Proof.
  assert (Hd : forall ds m e m', OpenAI.tool_deltas ds m = (Some e, m') ->
    Anthropic.is_terminal e = false).
  { induction ds as [|d ds IH]; intros m e' m'; cbn [OpenAI.tool_deltas]; [done|].
    unfold OpenAI.apply_tool_delta. destruct (OpenAI.function d) as [func|]; [|apply IH].
    destruct (OpenAI.fd_arguments func); [by intros [= <- <-]|apply IH]. }
  revert c. induction cs as [|ch cs IH]; intros c; cbn [OpenAI.choices_loop]; [done|].
  destruct (bool_decide _); [by intros [= <- <-]|].
  destruct (OpenAI.tool_deltas _ _) as [[e'|] m] eqn:Et; [|apply IH].
  intros [= <- <-]. by eapply Hd.
Qed.

Lemma openai_closing st f e st' : handle OpenAI.framing st f = (Some e, st') ->
  is_completed_event e = true -> fin OpenAI.framing st' = true.
Proof.
  cbn. unfold OpenAI.process_line. destruct (bool_decide _); [done|].
  destruct (starts_with _ _); [done|]. destruct (strip_prefix _ _) as [d|]; [|done].
  destruct (bool_decide _); [by intros [= <- <-]|]. destruct (OpenAI.chunk_from_str _) as [ch|].
  - intros H%openai_deltas_open. by destruct e.
  - destruct (OpenAI.openai_error_from_str _); [|done]. by intros [= <- <-].
Qed.

Lemma vertex_closing st f e st' : handle Vertex.framing st f = (Some e, st') ->
  Anthropic.is_terminal e = true -> fin Vertex.framing st' = true.
Proof.
  assert (Hp : forall ps c e c', Vertex.parts_loop ps c = (Some e, c') ->
    Anthropic.is_terminal e = false).
  { induction ps as [|[t|fc|fr] ps IH]; intros c e' c'; cbn [Vertex.parts_loop]; [done|..].
    - destruct (bool_decide _); [by intros [= <- <-]|apply IH].
    - by intros [= <- <-].
    - apply IH. }
  cbn. unfold Vertex.process_line. destruct (bool_decide _); [done|].
  destruct (bool_decide _); [done|]. destruct (Vertex.response_from_str _) as [ch|].
  - destruct (Vertex.candidates ch) as [|cand cs]; [done|]. unfold Vertex.process_candidate.
    destruct (Vertex.cand_finish_reason cand) as [fr|];
      match goal with |- context[Vertex.parts_loop ?ps ?c] =>
        destruct (Vertex.parts_loop ps c) as [[e'|] c'] eqn:Ep end;
      try (intros [= <- <-]; apply Hp in Ep; congruence).
    destruct (Vertex.is_terminal_reason fr); [|done]. by intros [= <- <-].
  - destruct (Vertex.vertex_error_from_str _); [|done]. by intros [= <- <-].
Qed.

(** C19. However the network cuts a body into chunks of valid UTF-8, and however
    often a poll finds nothing, each of the four parsers delivers exactly the
    events of the frames of the whole text (and its closing event, if the end of
    the body makes one), and the loop that consumes it ends. *)
Theorem streams_parse_whole_text inner text :
  body_text inner = Some text ->
  delivers (Anthropic.parse_sse_stream inner)
    (text_events Anthropic.framing anthropic_start text) /\
  delivers (OpenAI.OpenAIStream_new inner) (text_events OpenAI.framing openai_start text) /\
  delivers (Vertex.VertexStream_new inner) (text_events Vertex.framing vertex_start text) /\
  delivers (Proxy.ProxyLlmStream_new inner) (text_events Proxy.framing () text).
Proof.
  intros Hb. split_and!; apply (framed_delivers_text _ inner); try done; intros b Hv; cbn.
  - by rewrite from_utf8_lossy_valid.
  - by rewrite (proj2 (from_utf8_valid b) Hv).
  - by rewrite (proj2 (from_utf8_valid b) Hv).
  - by rewrite (proj2 (from_utf8_valid b) Hv).
Qed.

(** C20. Whatever a body does (break, bring invalid UTF-8, end early), the loop
    that consumes each parser ends with one list of events; with the Anthropic
    and Vertex parsers nothing follows a [Completed] or [Error] event, with the
    OpenAI parser nothing follows [Completed]. *)
Theorem streams_end inner :
  (exists es, delivers (Anthropic.parse_sse_stream inner) es /\ only_last Anthropic.is_terminal es /\
    forall es', delivers (Anthropic.parse_sse_stream inner) es' -> es' = es) /\
  (exists es, delivers (OpenAI.OpenAIStream_new inner) es /\ only_last is_completed_event es /\
    forall es', delivers (OpenAI.OpenAIStream_new inner) es' -> es' = es) /\
  (exists es, delivers (Vertex.VertexStream_new inner) es /\ only_last Anthropic.is_terminal es /\
    forall es', delivers (Vertex.VertexStream_new inner) es' -> es' = es) /\
  (exists es, delivers (Proxy.ProxyLlmStream_new inner) es /\
    forall es', delivers (Proxy.ProxyLlmStream_new inner) es' -> es' = es).
Proof.
  split_and!.
  - eexists. split_and!; [apply anthropic_delivers| |].
    + apply reference_closing; [apply anthropic_closing|done].
    + intros es' H. exact (delivers_unique _ _ _ H (anthropic_delivers inner)).
  - eexists. split_and!; [apply openai_delivers| |].
    + apply reference_closing; [apply openai_closing|done].
    + intros es' H. exact (delivers_unique _ _ _ H (openai_delivers inner)).
  - eexists. split_and!; [apply vertex_delivers| |].
    + apply reference_closing; [apply vertex_closing|done].
    + intros es' H. exact (delivers_unique _ _ _ H (vertex_delivers inner)).
  - eexists. split_and!; [apply proxy_delivers|].
    intros es' H. exact (delivers_unique _ _ _ H (proxy_delivers inner)).
Qed.

End Parsers.

(** * What the parsers lose *)

(** Bytes of one character in two chunks: decoded one by one they become two
    replacement characters, or two errors in the middle of the stream. *)
Definition e_acute : string := String "195" (String "169" "").

Lemma split_character_lost :
  valid_utf8 e_acute = true /\
  from_utf8_lossy (str_take 1 e_acute) +:+ from_utf8_lossy (str_drop 1 e_acute) =
    replacement +:+ replacement /\
  from_utf8 (str_take 1 e_acute) = Err "incomplete utf-8 byte sequence from index 0" /\
  from_utf8 (str_drop 1 e_acute) = Err "invalid utf-8 sequence of 1 bytes from index 0".
Proof. done. Qed.

(** A choice with text and tool calls leaves the tool calls uncollected, and of
    several deltas with arguments only the first is collected. *)
Lemma openai_text_drops_calls `{OJ : OpenAIJson} `{HO : !HashOrder Z OpenAI.AccumulatedToolCall}
    i role text ds fr cs c :
  text <> EmptyString ->
  OpenAI.accumulated_tool_calls (OpenAI.choices_loop
    (OpenAI.mkChoice i (OpenAI.mkDelta role (Some text) (Some ds)) fr :: cs) c).2 =
  OpenAI.accumulated_tool_calls c.
Proof.
  intros H. cbn [OpenAI.choices_loop OpenAI.delta OpenAI.delta_content default].
  rewrite bool_decide_eq_true_2 by done. by destruct fr.
Qed.

Lemma openai_drops_later_deltas `{OJ : OpenAIJson} d ds m e m' :
  OpenAI.apply_tool_delta d m = (Some e, m') -> OpenAI.tool_deltas (d :: ds) m = (Some e, m').
Proof. intros H. cbn [OpenAI.tool_deltas]. by rewrite H. Qed.

(** Of the parts of a Vertex chunk everything after the first text or call is lost. *)
Lemma vertex_drops_later_parts `{VJ : VertexJson} p ps c e c' :
  Vertex.parts_loop [p] c = (Some e, c') -> Vertex.parts_loop (p :: ps) c = (Some e, c').
Proof.
  destruct p as [t|fc|fr]; cbn [Vertex.parts_loop]; [|done|done]. by destruct (bool_decide _).
Qed.

(** An Anthropic body that ends before the message stops ends the stream without
    a response and without an error. *)
Lemma anthropic_cut_off_silently `{AJ : AnthropicJson} inner text st :
  body_text inner = Some text ->
  frame_events Anthropic.framing anthropic_start (complete_frames Anthropic.framing text) = ([], st) ->
  delivers (Anthropic.parse_sse_stream inner) [].
Proof.
  intros Hb Hf. replace [] with (text_events Anthropic.framing anthropic_start text).
  - apply (framed_delivers_text _ inner); try done. intros b Hv. cbn. by rewrite from_utf8_lossy_valid.
  - unfold text_events. cbn [reference]. rewrite Hf. by destruct (fin _ _).
Qed.

(** * The relay *)

(** Named events, one after the other, on the wire. *)
Fixpoint sse_text (l : list (string * string)) : string :=
  match l with
  | [] => EmptyString
  | (name, data) :: l => sse_event name data +:+ sse_text l
  end.

Definition sse_lines (l : list (string * string)) : Prop :=
  Forall (fun '(name, data) => single_line name = true /\ single_line data = true) l.

Lemma sse_text_frames `{SJ : SerdeJson} {St} (F : Framing St) l :
  delim F = String "010" (String "010" "") -> sse_lines l ->
  complete_frames F (sse_text l) = (fun '(name, data) => sse_block name data) <$> l.
Proof.
  intros Hd Hl. induction Hl as [|[name data] l [Hn Hda] Hl IH].
  - rewrite frames_step by by rewrite Hd. by rewrite Hd.
  - cbn [sse_text fmap list_fmap]. rewrite frames_step by by rewrite Hd.
    by rewrite Hd, split_first_sse_event, IH.
Qed.

Section Relay.
Context `{PJ : ProxyJson} `{PL : !Proxy.ProxyJsonLaws} `{AX : Proxy.AxumSse} `{AL : !Proxy.AxumSseLaws}.
Context (provider model_name : string).

(** An event as the client sees it: errors come as [Api] errors with the text
    of the server's error. *)
Definition as_seen (e : LlmEvent) : LlmEvent :=
  match e with
  | Error err => Error (LlmError_Api (LlmError_to_string err))
  | e => e
  end.

Definition serializes (e : LlmEvent) : bool :=
  bool_decide (is_Some (Proxy.stream_event_to_string (Proxy.stream_event_of e))).

Lemma as_seen_wire e : Proxy.convert_stream_event (Proxy.stream_event_of e) = as_seen e.
Proof. by destruct e as [| |[]|]. Qed.

(** The relay sends a prefix of the events that serialize, all of them while
    the client is there; the body is their text. *)
Lemma relay_spec answers es :
  exists sent jsons,
    sent `prefix_of` filter (fun e => serializes e = true) es /\
    (false ∉ answers -> sent = filter (fun e => serializes e = true) es /\
       (Proxy.relay provider model_name answers es).2 = es ≫= Proxy.audit_of provider model_name) /\
    Forall2 (fun e j => Proxy.stream_event_to_string (Proxy.stream_event_of e) = Some j) sent jsons /\
    Proxy.sse_body provider model_name answers es = sse_text ((fun j => ("llm", j)) <$> jsons).
Proof.
  unfold Proxy.sse_body. revert answers. induction es as [|e es IH]; intros answers.
  { exists [], []. done. }
  cbn [Proxy.relay]. rewrite filter_cons.
  destruct (Proxy.stream_event_to_string (Proxy.stream_event_of e)) as [j|] eqn:Ej.
  - rewrite decide_True by (unfold serializes; rewrite Ej; by apply bool_decide_eq_true_2).
    assert (Hw : Proxy.wire (Proxy.data j (Proxy.event "llm" Proxy.Event_default)) = sse_event "llm" j)
      by (apply Proxy.wire_named_data; [done|by eapply Proxy.to_string_line]).
    destruct (decide (head answers = Some false)) as [Ha|Ha].
    + destruct answers as [|[] answers]; try done. exists [], []. split_and!; try done.
      * apply prefix_nil.
      * intros []. by left.
    + destruct (IH (tail answers)) as (sent & jsons & Hp & Hall & Hj & Hb).
      exists (e :: sent), (j :: jsons).
      assert (HR : (match answers with false :: _ => ([], Proxy.audit_of provider model_name e) | _ =>
        let '(sent, logged) := Proxy.relay provider model_name (tail answers) es in
        (Proxy.data j (Proxy.event "llm" Proxy.Event_default) :: sent,
         Proxy.audit_of provider model_name e ++ logged) end) =
        (Proxy.data j (Proxy.event "llm" Proxy.Event_default) ::
           (Proxy.relay provider model_name (tail answers) es).1,
         Proxy.audit_of provider model_name e ++ (Proxy.relay provider model_name (tail answers) es).2)).
      { destruct answers as [|[] answers]; [..|done];
          by destruct (Proxy.relay provider model_name _ es). }
      rewrite HR. cbn [fst snd]. split_and!.
      * by apply prefix_cons.
      * intros Hc. destruct Hall as [-> ->]; [|done].
        intros Hin. apply Hc. destruct answers; [done|]. by right.
      * by constructor.
      * cbn [fold_right fmap list_fmap sse_text]. by rewrite Hw, Hb.
  - rewrite decide_False by (unfold serializes; rewrite Ej; by rewrite bool_decide_eq_false_2 by by intros []).
    destruct (IH answers) as (sent & jsons & Hp & Hall & Hj & Hb). exists sent, jsons.
    destruct (Proxy.relay provider model_name answers es) as [evs logs]. cbn [fst snd] in *.
    split_and!; try done. intros Hc. by destruct (Hall Hc) as [-> ->].
Qed.

(** The parser on one relayed event. *)
Lemma parse_relayed e j : Proxy.stream_event_to_string e = Some j -> Proxy.exact_event e ->
  Proxy.parse_event_block (sse_block "llm" j) = Some (Proxy.convert_stream_event e).
Proof.
  intros Hj He. pose proof (Proxy.to_string_line _ _ Hj) as Hl.
  destruct (Proxy.to_string_object _ _ Hj) as [k Hk].
  unfold Proxy.parse_event_block, Proxy.block_fields. rewrite sse_block_lines by done.
  cbn [fold_left].
  replace (strip_prefix "event:" ("event: " +:+ "llm")) with (Some " llm") by done.
  assert (H1 : strip_prefix "event:" ("data: " +:+ j) = None) by done.
  assert (H2 : strip_prefix "data:" ("data: " +:+ j) = Some (" " +:+ j))
    by (by apply strip_prefix_spec).
  rewrite H1, H2. replace (str_trim " llm") with "llm" by done.
  replace (str_trim (" " +:+ j)) with j
    by (rewrite Hk; exact (eq_sym (str_trim_braces k))).
  cbn. by rewrite (Proxy.to_from_string e j).
Qed.

(** What a connected parser makes of a relayed body. *)
Lemma relay_delivers answers es inner :
  Forall (fun e => Proxy.exact_event (Proxy.stream_event_of e)) es ->
  body_text inner = Some (Proxy.sse_body provider model_name answers es) ->
  exists sent,
    delivers (Proxy.ProxyLlmStream_new inner) (as_seen <$> sent) /\
    sent `prefix_of` filter (fun e => serializes e = true) es /\
    (false ∉ answers -> sent = filter (fun e => serializes e = true) es /\
       (Proxy.relay provider model_name answers es).2 = es ≫= Proxy.audit_of provider model_name).
Proof.
  intros Hex Hb. destruct (relay_spec answers es) as (sent & jsons & Hp & Hall & Hj & Hs).
  exists sent. split; [|done]. rewrite Hs in Hb.
  replace (as_seen <$> sent) with
    (text_events Proxy.framing () (sse_text ((fun j => ("llm", j)) <$> jsons))).
  { apply (framed_delivers_text _ inner); try done. intros b Hv. cbn.
    by rewrite (proj2 (from_utf8_valid b) Hv). }
  assert (Hex' : Forall (fun e => Proxy.exact_event (Proxy.stream_event_of e)) sent).
  { apply Forall_forall. intros e He. rewrite Forall_forall in Hex. apply Hex.
    eapply (list_elem_of_filter _ _ e), elem_of_prefix; [exact He|exact Hp]. }
  unfold text_events. cbn [reference]. rewrite sse_text_frames; [|done|].
  2: { apply Forall_fmap. clear -Hj PL. induction Hj as [|e j es js Hj Hjs IH]; constructor; [|done].
       split; [done|by eapply Proxy.to_string_line]. }
  assert (HE : frame_events Proxy.framing () ((fun '(name, data) => sse_block name data) <$>
    ((fun j => ("llm", j)) <$> jsons)) = (as_seen <$> sent, ())).
  { clear Hs Hb Hp Hall. induction Hj as [|e j es' js Hj Hjs IH]; [done|].
    inversion Hex' as [|? ? He Hes]; subst. cbn [fmap list_fmap frame_events Proxy.framing fin handle].
    rewrite (parse_relayed _ _ Hj He), as_seen_wire. cbn [Proxy.framing] in IH.
    by rewrite IH. }
  rewrite HE. cbn. by rewrite app_nil_r.
Qed.

(** The events the client's parser delivers are the events the server
    relayed, in order, whatever the chunks: nothing is lost or added while the
    client is connected (events that do not serialize are skipped), a completed
    response arrives unchanged and an error with its text; and exactly the
    completed and failed requests are logged. *)
Theorem relayed_events_arrive answers es inner :
  Forall (fun e => Proxy.exact_event (Proxy.stream_event_of e)) es ->
  body_text inner = Some (Proxy.sse_body provider model_name answers es) ->
  exists sent,
    delivers (Proxy.ProxyLlmStream_new inner) (as_seen <$> sent) /\
    sent `prefix_of` filter (fun e => serializes e = true) es /\
    (false ∉ answers -> sent = filter (fun e => serializes e = true) es /\
       (Proxy.relay provider model_name answers es).2 = es ≫= Proxy.audit_of provider model_name).
Proof. apply relay_delivers. Qed.

End Relay.

(** * A concrete encoding *)

Definition demo_serde : SerdeJson := {| Json := string; json_to_string := Some |}.
Definition demo_read : @JsonRead demo_serde :=
  @Build_JsonRead demo_serde
    (fun s => if bool_decide (s = EmptyString) then None else Some s)
    (fun s => bool_decide (s = "null" :> string)) "{}".

(** The names of the events of one message: a text block and a tool call. *)
Definition demo_events : list (string * Anthropic.StreamEvent) :=
  [("{start}", Anthropic.MessageStart
      (Anthropic.mkStartData "m" "claude" (Some (Anthropic.mkStartUsage 5))));
   ("{text}", Anthropic.ContentBlockStart 0 (Anthropic.Block_Text ""));
   ("{hi}", Anthropic.ContentBlockDelta 0 (Anthropic.Delta_Text "hi"));
   ("{ping}", Anthropic.Ping);
   ("{stop0}", Anthropic.ContentBlockStop 0);
   ("{tool}", Anthropic.ContentBlockStart 1 (Anthropic.Block_ToolUse "c1" "read_file"));
   ("{arg}", Anthropic.ContentBlockDelta 1 (Anthropic.Delta_InputJson "x"));
   ("{stop1}", Anthropic.ContentBlockStop 1);
   ("{delta}", Anthropic.MessageDelta (Anthropic.mkDeltaData (Some "tool_use"))
      (Some (Anthropic.mkDeltaUsage 7)));
   ("{end}", Anthropic.MessageStop)].

Definition named {A} (l : list (string * A)) (s : string) : option A :=
  snd <$> find (fun p => bool_decide (p.1 = s)) l.

Definition demo_anthropic : @AnthropicJson demo_serde demo_read :=
  {| Anthropic.stream_event_from_str := named demo_events |}.
Definition demo_openai : @OpenAIJson demo_serde demo_read := {|
  OpenAI.chunk_from_str := named [("{hi}", OpenAI.mkChunk "1" "chunk" 0 "gpt"
    [OpenAI.mkChoice 0 (OpenAI.mkDelta None (Some "hi") None) None] None)];
  OpenAI.openai_error_from_str := fun _ => None;
|}.
Definition demo_vertex : @VertexJson demo_serde demo_read := {|
  Vertex.response_from_str := named [("{hi}", Vertex.mkVertexResponse
    [Vertex.mkCandidate (Vertex.mkContent None [Vertex.Part_Text "hi"]) None] None)];
  Vertex.vertex_error_from_str := fun _ => None;
|}.

Definition demo_calls : list (ToolCall (SJ := demo_serde)) :=
  [mkToolCall (SJ := demo_serde) "c1" "read_file" "x"].
Definition demo_answer : LlmResponse (SJ := demo_serde) :=
  mkLlmResponse (Message_assistant "hi") demo_calls (Some (mkUsage 5 7)) (Some "tool_use").

Definition demo_wire : list (string * Proxy.LlmStreamEvent (SJ := demo_serde)) :=
  [("{hi}", Proxy.Stream_TextDelta "hi");
   ("{arg}", Proxy.Stream_ToolCallDelta "c1" "read_file" "x");
   ("{done}", Proxy.Stream_Completed (Proxy.LlmProxyResponse_from demo_answer));
   ("{err}", Proxy.Stream_Error "API error: no")].

(** The name of an event of [demo_wire]; the other events do not serialize. *)
Definition demo_to_string (e : Proxy.LlmStreamEvent (SJ := demo_serde)) : option string :=
  match e with
  | Proxy.Stream_TextDelta t => if bool_decide (t = "hi") then Some "{hi}" else None
  | Proxy.Stream_ToolCallDelta i n f =>
      if bool_decide ((i, n, f) = ("c1", "read_file", "x")) then Some "{arg}" else None
  | Proxy.Stream_Completed (Proxy.mkProxyResponse (mkMessage Assistant c None None [])
      [mkToolCall i n j] (Some (mkUsage 5 7)) (Some f)) =>
      if bool_decide ((c, i, n, j, f) = ("hi", "c1", "read_file", "x", "tool_use"))
      then Some "{done}" else None
  | Proxy.Stream_Error m => if bool_decide (m = "API error: no") then Some "{err}" else None
  | _ => None
  end.

Definition demo_proxy : @ProxyJson demo_serde := {|
  Proxy.stream_event_from_str := fun s => ok_or "no such event" (named demo_wire s);
  Proxy.stream_event_to_string := demo_to_string;
  Proxy.json_exact := fun _ => True;
|}.

Lemma demo_to_string_named e j : demo_to_string e = Some j -> (j, e) ∈ demo_wire.
Proof.
  unfold demo_wire.
  destruct e as [t|i n f| |[m tcs u fr]|m]; cbn [demo_to_string].
  - case_bool_decide as H; [|done]. intros [= <-]. subst. set_solver.
  - case_bool_decide as H; [|done]. injection H as -> -> ->. intros [= <-]. set_solver.
  - done.
  - destruct m as [[] c [] [] []]; try done. destruct tcs as [|[i n a] []]; try done.
    destruct u as [[[|[[[]|[]|]|[]|]|] [|[[[]|[]|]|[[]|[]|]|]|]]|]; try done.
    destruct fr as [f|]; [|done]. case_bool_decide as H; [|done].
    injection H as -> -> -> -> ->. intros [= <-]. unfold demo_answer, demo_calls. set_solver.
  - case_bool_decide as H; [|done]. intros [= <-]. subst. set_solver.
Qed.

Lemma demo_proxy_laws : @Proxy.ProxyJsonLaws demo_serde demo_proxy.
Proof.
  split.
  - intros e j _ H%demo_to_string_named. unfold demo_wire in H.
    rewrite !elem_of_cons, elem_of_nil in H.
    destruct H as [[= -> ->]|[[= -> ->]|[[= -> ->]|[[= -> ->]|[]]]]]; reflexivity.
  - intros e j H%demo_to_string_named. unfold demo_wire in H.
    rewrite !elem_of_cons, elem_of_nil in H.
    destruct H as [[= -> _]|[[= -> _]|[[= -> _]|[[= -> _]|[]]]]];
      [by exists "hi"|by exists "arg"|by exists "done"|by exists "err"].
  - intros e j H%demo_to_string_named. unfold demo_wire in H.
    rewrite !elem_of_cons, elem_of_nil in H.
    destruct H as [[= -> _]|[[= -> _]|[[= -> _]|[[= -> _]|[]]]]]; reflexivity.
Qed.

Definition demo_axum : Proxy.AxumSse := {|
  Proxy.Event := string * string;
  Proxy.Event_default := ("message", "");
  Proxy.event := fun n e => (n, e.2);
  Proxy.data := fun d e => (e.1, d);
  Proxy.wire := fun e => sse_event e.1 e.2;
|}.
Lemma demo_axum_laws : @Proxy.AxumSseLaws demo_axum.
Proof. by split. Qed.

Definition demo_order {K A} `{Countable K} : HashOrder K A :=
  {| hash_values := fun m => (map_to_list m).*2; hash_values_perm m := Permutation_refl _ |}.

Definition demo_line : string := "data: {hi}" +:+ String "010" (String "010" "").
(** The line in two chunks, the second after a poll that finds nothing. *)
Definition demo_chunks : list Polled :=
  [P_Chunk (str_take 8 demo_line); P_Pending; P_Chunk (str_drop 8 demo_line)].

Lemma streams_parse_whole_text_witness :
  body_text demo_chunks = Some demo_line /\
  delivers (T := OpenAI.OpenAIStream)
    (Stream0 := @OpenAI.OpenAIStream_stream demo_serde demo_read demo_openai demo_order)
    (OpenAI.OpenAIStream_new demo_chunks)
    (text_events (@OpenAI.framing demo_serde demo_read demo_openai demo_order) openai_start demo_line).
Proof.
  split; [vm_compute; reflexivity|].
  exact (proj1 (proj2 (@streams_parse_whole_text demo_serde demo_read demo_anthropic demo_openai
    demo_vertex demo_proxy demo_order demo_order demo_chunks demo_line
    ltac:(vm_compute; reflexivity)))).
Defined.

Definition demo_sent : list (LlmEvent (SJ := demo_serde)) :=
  [TextDelta "hi"; TextDelta "unknown"; Error (LlmError_Api "no")].
Definition demo_body : string :=
  @Proxy.sse_body demo_serde demo_proxy demo_axum "anthropic" "claude" [] demo_sent.
Definition demo_downstream : list Polled :=
  [P_Pending; P_Chunk (str_take 13 demo_body); P_Chunk (str_drop 13 demo_body)].

Lemma relayed_events_arrive_witness :
  exists sent,
    delivers (T := Proxy.ProxyLlmStream)
      (Stream0 := @Proxy.ProxyLlmStream_stream demo_serde demo_proxy)
      (Proxy.ProxyLlmStream_new demo_downstream) (as_seen <$> sent) /\
    sent = filter (fun e => @serializes demo_serde demo_proxy e = true) demo_sent.
Proof.
  destruct (@relayed_events_arrive demo_serde demo_proxy demo_proxy_laws demo_axum demo_axum_laws
    "anthropic" "claude" [] demo_sent demo_downstream) as (sent & Hd & _ & Hs).
  - repeat constructor.
  - vm_compute. reflexivity.
  - exists sent. split; [exact Hd|]. apply Hs. apply not_elem_of_nil.
Defined.
