(* ===== verification/StreamedMessage.v ===== *)
(** A streamed answer from the provider to the conversation: what the blocks of a
    message make the Anthropic parser deliver, what the relay and the client's
    parser pass on, and what the command line client
    ([crates/loom-cli/src/main.rs]) and the agent make of it. *)
From stdpp Require Import base gmap list strings.
From Stdlib Require Import ZArith Lia Ascii.
From S2P Require Import Prelude Text CoreTypes Agent ByteStream AnthropicStream ProxyStream.
From S2P Require Import LlmStreams.
Import Anthropic.

(** * The client's loop *)

Section Client.
Context `{SJ : SerdeJson}.

(** The arms of [while let Some(event) = stream.next().await], on
    [assistant_content] and [tool_calls]; printing and logging are left out. *)
Definition on_stream_event (acc : string * list ToolCall) (e : LlmEvent)
    : string * list ToolCall :=
  let '(assistant_content, tool_calls) := acc in
  match e with
  | TextDelta content => (assistant_content +:+ content, tool_calls)
  | ToolCallDelta _ _ _ => acc
  | Completed response =>
      ((if bool_decide (content (message response) <> EmptyString)
        then content (message response) else assistant_content),
       resp_tool_calls response)
  | Error _ => acc
  end.

(** The message the loop's results are pushed as. *)
Definition received_message (es : list LlmEvent) : Message :=
  let '(assistant_content, tool_calls) := fold_left on_stream_event es (EmptyString, []) in
  Message_assistant_with_tool_calls assistant_content tool_calls.

End Client.

(** * Messages of the provider *)

Fixpoint str_concat (l : list string) : string :=
  match l with [] => EmptyString | s :: l => s +:+ str_concat l end.

(** A block of a message, with the fragments it is streamed in. *)
Inductive Block :=
| TextBlock (first : string) (fragments : list string)
| ToolBlock (id name : string) (fragments : list string).

Definition block_events (index : Z) (b : Block) : list StreamEvent :=
  match b with
  | TextBlock first fragments =>
      ContentBlockStart index (Block_Text first) ::
      ((fun t => ContentBlockDelta index (Delta_Text t)) <$> fragments) ++
      [ContentBlockStop index]
  | ToolBlock id name fragments =>
      ContentBlockStart index (Block_ToolUse id name) ::
      ((fun t => ContentBlockDelta index (Delta_InputJson t)) <$> fragments) ++
      [ContentBlockStop index]
  end.

Fixpoint blocks_events (index : Z) (bs : list Block) : list StreamEvent :=
  match bs with
  | [] => []
  | b :: bs => block_events index b ++ blocks_events (index + 1) bs
  end.

Definition message_events (start : MessageStartData) (bs : list Block)
    (d : MessageDeltaData) (u : option MessageDeltaUsage) : list StreamEvent :=
  MessageStart start :: blocks_events 0 bs ++ [MessageDelta d u; MessageStop].

Definition not_ping (ev : StreamEvent) : Prop := ev <> Ping.
#[export] Instance not_ping_dec ev : Decision (not_ping ev).
Proof. destruct ev; first [by left | right; by intros []]. Defined.

Definition block_text (b : Block) : string :=
  match b with TextBlock t fs => t +:+ str_concat fs | ToolBlock _ _ _ => EmptyString end.
Definition message_text (bs : list Block) : string := str_concat (block_text <$> bs).

Section Message.
Context `{AJ : AnthropicJson}.

Definition block_calls (b : Block) : list ToolCall :=
  match b with
  | TextBlock _ _ => []
  | ToolBlock id name fs => [mkToolCall id name (tool_arguments (str_concat fs))]
  end.
Definition message_calls (bs : list Block) : list ToolCall := bs ≫= block_calls.

Definition block_deltas (b : Block) : list LlmEvent :=
  match b with
  | TextBlock t fs =>
      (if bool_decide (t = EmptyString) then [] else [TextDelta t]) ++ (TextDelta <$> fs)
  | ToolBlock id name fs => ToolCallDelta id name <$> fs
  end.

Definition message_response (start : MessageStartData) (bs : list Block)
    (d : MessageDeltaData) (u : option MessageDeltaUsage) : LlmResponse :=
  mkLlmResponse (Message_assistant (message_text bs)) (message_calls bs)
    (Some (mkUsage (default 0%Z (su_input_tokens <$> start_usage start))
                   (default 0%Z (du_output_tokens <$> u))))
    (stop_reason d).

(** What a message makes the parser deliver. *)
Definition message_deliveries start bs d u : list LlmEvent :=
  (bs ≫= block_deltas) ++ [Completed (message_response start bs d u)].

(** ** The parser on events *)

Fixpoint process_events (st : StreamState) (evs : list StreamEvent)
    : list LlmEvent * (StreamState * bool) :=
  match evs with
  | [] => ([], (st, false))
  | ev :: evs =>
      match process_stream_event ev st with
      | (Ok (Some e), st) =>
          if is_terminal e then ([e], (st, true))
          else let '(es, r) := process_events st evs in (e :: es, r)
      | (Ok None, st) => process_events st evs
      | (Err e, st) => ([Error e], (st, true))
      end
  end.

Lemma process_events_app st evs1 evs2 es1 st1 :
  process_events st evs1 = (es1, (st1, false)) ->
  process_events st (evs1 ++ evs2) =
    let '(es2, r) := process_events st1 evs2 in (es1 ++ es2, r).
Proof.
  revert st es1. induction evs1 as [|ev evs1 IH]; intros st es1; cbn [process_events app].
  - intros [= <- <-]. by destruct (process_events st evs2).
  - destruct (process_stream_event ev st) as [[[e|]|e] st2]; [| |done].
    + destruct (is_terminal e); [done|].
      destruct (process_events st2 evs1) as [es' [st' b']] eqn:E. intros [= <- -> ->].
      rewrite (IH _ _ E). by destruct (process_events st1 evs2).
    + apply IH.
Qed.

(** Pings make no difference. *)
Lemma process_events_pings st evs :
  process_events st evs = process_events st (filter not_ping evs).
Proof.
  revert st. induction evs as [|ev evs IH]; intros st; [done|]. rewrite filter_cons.
  destruct (decide (not_ping ev)) as [Hp|Hp].
  - cbn [process_events]. destruct (process_stream_event ev st) as [[[e|]|e] st']; [|apply IH|done].
    destruct (is_terminal e); [done|]. by rewrite IH.
  - assert (ev = Ping) as -> by (destruct ev; try (destruct Hp; done); done). apply IH.
Qed.

Definition with_content (st : StreamState) (text : string) (calls : list ToolCall) : StreamState :=
  mkState ∅ (accumulated_content st +:+ text) (accumulated_tool_calls st ++ calls)
    (st_stop_reason st) (st_input_tokens st) (st_output_tokens st).

Lemma text_fragments st i fs rest :
  process_events st (((fun t => ContentBlockDelta i (Delta_Text t)) <$> fs) ++ rest) =
    let '(es, r) := process_events (push_content (str_concat fs) st) rest in
    ((TextDelta <$> fs) ++ es, r).
Proof.
  revert st. induction fs as [|f fs IH]; intros st; cbn [fmap list_fmap app str_concat].
  - assert (push_content "" st = st) as ->
      by (destruct st; unfold push_content; cbn; by rewrite string_app_nil_r).
    by destruct (process_events st rest).
  - cbn [process_events process_stream_event is_terminal]. rewrite IH.
    assert (push_content (str_concat fs) (push_content f st) =
      push_content (f +:+ str_concat fs) st) as ->
      by (unfold push_content; cbn; by rewrite string_app_assoc).
    by destruct (process_events _ rest).
Qed.

Lemma tool_fragments st i id name args fs rest :
  open_calls st !! i = Some (mkBuilder id name args) ->
  process_events st (((fun t => ContentBlockDelta i (Delta_InputJson t)) <$> fs) ++ rest) =
    let '(es, r) :=
      process_events (set_open_calls <[i := mkBuilder id name (args +:+ str_concat fs)]> st) rest in
    ((ToolCallDelta id name <$> fs) ++ es, r).
Proof.
  revert st args. induction fs as [|f fs IH]; intros st args Hi; cbn [fmap list_fmap app str_concat].
  - rewrite string_app_nil_r. unfold set_open_calls. rewrite insert_id by done.
    destruct st. by destruct (process_events _ rest).
  - cbn [process_events process_stream_event]. rewrite Hi.
    cbn [is_terminal b_id b_name b_arguments_json]. rewrite (IH _ (args +:+ f)).
    + unfold set_open_calls at 1. cbn [open_calls set_open_calls accumulated_content
        accumulated_tool_calls st_stop_reason st_input_tokens st_output_tokens].
      rewrite insert_insert_eq, string_app_assoc.
      unfold set_open_calls. by destruct (process_events _ rest).
    + cbn. by rewrite lookup_insert_eq.
Qed.

Lemma block_processed st i b :
  open_calls st = ∅ ->
  process_events st (block_events i b) =
    (block_deltas b, (with_content st (block_text b) (block_calls b), false)).
Proof.
  intros Ho. destruct b as [t fs|id name fs]; cbn [block_events process_events process_stream_event].
  - assert (Hstop : forall st, open_calls st = ∅ ->
      process_events st [ContentBlockStop i] = ([], (st, false))).
    { intros st' H. cbn. by rewrite H, lookup_empty. }
    cbn [block_deltas block_text block_calls]. unfold with_content. rewrite app_nil_r.
    destruct (bool_decide (t = "")) eqn:Et.
    + apply bool_decide_eq_true in Et. subst t. rewrite text_fragments, Hstop by done.
      destruct st; cbn in *; subst. by rewrite app_nil_r.
    + rewrite text_fragments, Hstop by done. cbn [is_terminal].
      destruct st; cbn in *; subst. unfold push_content. cbn. by rewrite app_nil_r, string_app_assoc.
  - rewrite (tool_fragments _ i id name "") by (cbn; by rewrite lookup_insert_eq).
    cbn [process_events process_stream_event set_open_calls open_calls].
    rewrite insert_insert_eq, lookup_insert_eq. cbn [b_id b_name b_arguments_json].
    unfold push_tool_call, set_open_calls, with_content. cbn.
    by rewrite !delete_insert_eq, Ho, delete_empty, app_nil_r, string_app_nil_r, append_nil.
Qed.

Lemma with_content_nil st : open_calls st = ∅ -> with_content st "" [] = st.
Proof.
  intros H. destruct st. unfold with_content. cbn in *. by rewrite string_app_nil_r, app_nil_r, H.
Qed.

Lemma blocks_processed st i bs :
  open_calls st = ∅ ->
  process_events st (blocks_events i bs) =
    (bs ≫= block_deltas, (with_content st (message_text bs) (message_calls bs), false)).
Proof.
  revert st i. induction bs as [|b bs IH]; intros st i Ho; cbn [blocks_events].
  - cbn. by rewrite with_content_nil.
  - rewrite (process_events_app _ _ _ _ _ (block_processed st i b Ho)), IH by done.
    unfold with_content. cbn. by rewrite string_app_assoc, <- app_assoc.
Qed.

Lemma message_processed start bs d u :
  exists st, process_events StreamState_default (message_events start bs d u) =
    (message_deliveries start bs d u, (st, true)).
Proof.
  unfold message_events. cbn [process_events process_stream_event].
  set (st0 := match start_usage start with Some _ => _ | None => _ end).
  assert (Ho : open_calls st0 = ∅) by (subst st0; by destruct (start_usage start)).
  rewrite (process_events_app _ _ _ _ _ (blocks_processed st0 0 bs Ho)).
  cbn [process_events process_stream_event is_terminal].
  unfold message_deliveries, message_response, with_content. subst st0.
  destruct (start_usage start), (stop_reason d), u; eexists; cbn; by rewrite ?append_nil.
Qed.

(** ** The parser on text *)

(** The event a named event on the wire stands for. *)
Definition encodes (nd : string * string) (ev : StreamEvent) : Prop :=
  stream_event_from_str nd.2 = Some ev /\ single_line nd.1 = true /\ single_line nd.2 = true /\
  exists k, nd.2 = "{" +:+ k +:+ "}".

Lemma sse_data_block name data k :
  single_line name = true -> single_line data = true -> data = "{" +:+ k +:+ "}" ->
  sse_data (sse_block name data) = Some data.
Proof.
  intros Hn Hd Hk. unfold sse_data. rewrite sse_block_lines by done. cbn [fold_left].
  assert (H1 : strip_prefix "data: " ("event: " +:+ name) = None) by done.
  assert (H2 : strip_prefix "data: " ("data: " +:+ data) = Some data) by by apply strip_prefix_spec.
  by rewrite H1, H2, Hk, str_trim_object.
Qed.

Lemma frame_events_encoded st named evs :
  Forall2 encodes named evs ->
  frame_events framing (st, false) ((fun '(name, data) => sse_block name data) <$> named) =
    process_events st evs.
Proof.
  intros H. revert st. induction H as [|[name data] ev named evs (Hs & Hn & Hd & k & Hk) H IH];
    intros st; [done|]. cbn [fst snd] in *.
  cbn [fmap list_fmap frame_events framing fin snd handle process_events].
  unfold frame_step, parse_event_text. cbn [fst]. rewrite (sse_data_block name data k), Hs by done.
  destruct (process_stream_event ev st) as [[[e|]|e] st']; cbn [snd].
  - destruct (is_terminal e) eqn:Et.
    + by rewrite frame_events_fin.
    + rewrite <- IH. by destruct (frame_events _ _ _).
  - rewrite <- IH. by destruct (frame_events _ _ _).
  - by rewrite frame_events_fin.
Qed.

Lemma encoded_lines named evs : Forall2 encodes named evs -> sse_lines named.
Proof.
  intros H. induction H as [|[name data] ev named evs (? & ? & ? & ?) H IH]; constructor; [done|done].
Qed.

Lemma message_delivered start bs d u named evs inner :
  Forall2 encodes named evs -> filter not_ping evs = message_events start bs d u ->
  body_text inner = Some (sse_text named) ->
  delivers (parse_sse_stream inner) (message_deliveries start bs d u).
Proof.
  intros Hn He Hb.
  replace (message_deliveries start bs d u) with (text_events framing anthropic_start (sse_text named)).
  { apply (framed_delivers_text _ inner); try done. intros b Hv. cbn. by rewrite from_utf8_lossy_valid. }
  unfold text_events. cbn [reference].
  rewrite sse_text_frames by (done || by eapply encoded_lines).
  unfold anthropic_start. rewrite (frame_events_encoded _ _ _ Hn), process_events_pings, He.
  destruct (message_processed start bs d u) as [st ->]. cbn. by rewrite app_nil_r.
Qed.

(** ** The consumers *)

Lemma on_text_fragments fs rest acc : fold_left on_stream_event ((TextDelta <$> fs) ++ rest) acc =
  fold_left on_stream_event rest (acc.1 +:+ str_concat fs, acc.2).
Proof.
  revert acc. induction fs as [|f fs IH]; intros [c t]; cbn [fmap list_fmap app str_concat].
  - by rewrite string_app_nil_r.
  - cbn [fold_left on_stream_event]. rewrite IH. cbn [fst snd]. by rewrite string_app_assoc.
Qed.

Lemma on_tool_fragments i n fs rest acc :
  fold_left on_stream_event ((ToolCallDelta i n <$> fs) ++ rest) acc = fold_left on_stream_event rest acc.
Proof. revert acc. induction fs as [|f fs IH]; intros [c t]; [done|]. apply IH. Qed.

Lemma on_block b rest acc : fold_left on_stream_event (block_deltas b ++ rest) acc =
  fold_left on_stream_event rest (acc.1 +:+ block_text b, acc.2).
Proof.
  destruct acc as [c l], b as [t fs|i n fs]; cbn [block_deltas block_text fst snd].
  - destruct (bool_decide (t = "")) eqn:Et.
    + apply bool_decide_eq_true in Et. subst t. apply (on_text_fragments fs rest (c, l)).
    + rewrite <- app_assoc. cbn [app fold_left on_stream_event].
      rewrite on_text_fragments. cbn [fst snd]. by rewrite string_app_assoc.
  - by rewrite on_tool_fragments, string_app_nil_r.
Qed.

Lemma on_blocks bs rest acc : fold_left on_stream_event ((bs ≫= block_deltas) ++ rest) acc =
  fold_left on_stream_event rest (acc.1 +:+ message_text bs, acc.2).
Proof.
  revert acc. induction bs as [|b bs IH]; intros acc; unfold message_text; cbn [fmap list_fmap str_concat].
  - rewrite string_app_nil_r. by destruct acc.
  - cbn [mbind list_bind]. rewrite <- app_assoc, on_block, IH. cbn [fst snd].
    by rewrite string_app_assoc.
Qed.

Lemma message_received start bs d u :
  received_message (message_deliveries start bs d u) =
    Message_assistant_with_tool_calls (message_text bs) (message_calls bs).
Proof.
  unfold received_message, message_deliveries. rewrite on_blocks. cbn [fst snd].
  rewrite append_nil. cbn [fold_left on_stream_event message_response message content
    Message_assistant resp_tool_calls].
  by destruct (bool_decide _).
Qed.

Definition quiet (e : LlmEvent) : Prop :=
  match e with TextDelta _ | ToolCallDelta _ _ _ => True | _ => False end.

Lemma deltas_quiet bs : Forall quiet (bs ≫= block_deltas).
Proof.
  apply Forall_bind, Forall_forall. intros [t fs|i n fs] _; cbn [block_deltas].
  - apply Forall_app. split; [by destruct (bool_decide _); repeat constructor|].
    apply Forall_fmap, Forall_true; by intros ?.
  - apply Forall_fmap, Forall_true; by intros ?.
Qed.

(** While deltas come the agent waits; with the completed response it pushes the
    message and turns to the tools. *)
Lemma agent_receives oc now a conv r es resp :
  Agent.state a = CallingLlm conv r -> Forall quiet es ->
  exists tr a', execution oc a tr a' /\ tr.*1 = LlmEvt <$> (es ++ [Completed resp]) /\
    Agent.state a' =
      match resp_tool_calls resp with
      | [] => WaitingForUserInput (push_message conv (message resp))
      | calls => ExecutingTools (push_message conv (message resp)) (pending_executions now calls)
      end.
Proof.
  intros Hs H. induction H as [|e es He H IH].
  - eexists [(LlmEvt (Completed resp), _)], _. split_and!; [|done|].
    + eapply execution_cons with (now := now); [|constructor].
      apply handle_event_complete with (s' := match resp_tool_calls resp with
        | [] => WaitingForUserInput (push_message conv (message resp))
        | calls => ExecutingTools (push_message conv (message resp)) (pending_executions now calls)
        end) (act := match resp_tool_calls resp with [] => WaitForInput | calls => ExecuteTools calls end).
      rewrite Hs. destruct (resp_tool_calls resp) as [|c cs] eqn:E; [by constructor|].
      rewrite <- E. apply step_call_tools. by rewrite E.
    + done.
  - destruct IH as (tr & a' & Hx & Ht & Ha). destruct e as [t|x y z| |]; [| |done|done].
    + exists ((LlmEvt (TextDelta t), DisplayMessage t) :: tr), a'.
      split_and!; [|cbn; by rewrite Ht|done]. eapply execution_cons with (now := now); [|exact Hx].
      rewrite <- (set_state_state a) at 2. apply handle_event_complete. rewrite Hs. constructor.
    + exists ((LlmEvt (ToolCallDelta x y z), WaitForInput) :: tr), a'.
      split_and!; [|cbn; by rewrite Ht|done]. eapply execution_cons with (now := now); [|exact Hx].
      rewrite <- (set_state_state a) at 2. apply handle_event_complete. rewrite Hs. constructor.
Qed.

End Message.

(** * From the provider to the conversation *)

Section EndToEnd.
Context `{AJ : AnthropicJson} `{PJ : !Proxy.ProxyJson} `{PL : !Proxy.ProxyJsonLaws}
  `{AX : Proxy.AxumSse} `{AL : !Proxy.AxumSseLaws}.

Lemma filter_all {A} (P : A -> Prop) `{forall x, Decision (P x)} l : Forall P l -> filter P l = l.
Proof.
  intros Hl. induction Hl as [|x l Hx Hl IH]; [done|]. by rewrite filter_cons_True, IH.
Qed.

Lemma quiet_seen es resp : Forall quiet es -> as_seen <$> (es ++ [Completed resp]) = es ++ [Completed resp].
Proof.
  intros H. induction H as [|e es He H IH]; [done|]. cbn [app fmap list_fmap].
  change (list_fmap _ _ as_seen (es ++ [Completed resp])) with (as_seen <$> (es ++ [Completed resp])).
  rewrite IH. by destruct e.
Qed.

(** C21. A message the provider streams as blocks, with pings anywhere, arrives
    whole, provided that no chunk of either connection cuts a character (each is UTF-8 on
    its own) and that its events have numbers and values that JSON carries exactly: the
    server's parser delivers its deltas and one response with the concatenated text and one
    tool call per tool block, with the arguments parsed from its concatenated fragments; the
    relay and the client's parser pass exactly these events on, wherever else the
    connections are cut into chunks; and the client appends the assistant message with that
    text and those calls, as the agent appends the text and executes the calls. *)
Theorem streamed_message_arrives provider model_name start bs d u named evs upstream downstream
    oc now a conv r :
  Forall2 encodes named evs -> filter not_ping evs = message_events start bs d u ->
  body_text upstream = Some (sse_text named) ->
  Forall (fun e => serializes e = true /\ Proxy.exact_event (Proxy.stream_event_of e))
    (message_deliveries start bs d u) ->
  body_text downstream =
    Some (Proxy.sse_body provider model_name [] (message_deliveries start bs d u)) ->
  Agent.state a = CallingLlm conv r ->
  delivers (parse_sse_stream upstream) (message_deliveries start bs d u) /\
  delivers (Proxy.ProxyLlmStream_new downstream) (message_deliveries start bs d u) /\
  received_message (message_deliveries start bs d u) =
    Message_assistant_with_tool_calls (message_text bs) (message_calls bs) /\
  exists tr a', execution oc a tr a' /\ tr.*1 = LlmEvt <$> message_deliveries start bs d u /\
    Agent.state a' =
      match message_calls bs with
      | [] => WaitingForUserInput (push_message conv (Message_assistant (message_text bs)))
      | calls => ExecutingTools (push_message conv (Message_assistant (message_text bs)))
                   (pending_executions now calls)
      end.
Proof.
  intros Hn He Hup Hs Hdown Ha. apply Forall_and in Hs as [Hser Hex]. split_and!.
  - by eapply message_delivered.
  - destruct (relay_delivers provider model_name _ _ _ Hex Hdown) as (sent & Hd & _ & Hall).
    destruct Hall as [-> _]; [by intros []%not_elem_of_nil|].
    rewrite filter_all in Hd by done. unfold message_deliveries in *.
    by rewrite quiet_seen in Hd by apply deltas_quiet.
  - apply message_received.
  - exact (agent_receives oc now a conv r _ (message_response start bs d u) Ha (deltas_quiet bs)).
Qed.

End EndToEnd.

(** * A message with a text block and a tool call *)

Definition demo_named : list (string * string) := (fun '(j, _) => ("e", j)) <$> demo_events.
Definition demo_start : MessageStartData := mkStartData "m" "claude" (Some (mkStartUsage 5)).
Definition demo_blocks : list Block := [TextBlock "" ["hi"]; ToolBlock "c1" "read_file" ["x"]].
Definition demo_upstream : list Polled :=
  [P_Chunk (str_take 31 (sse_text demo_named)); P_Pending; P_Chunk (str_drop 31 (sse_text demo_named))].
Definition demo_answered : list Polled :=
  [P_Chunk (@Proxy.sse_body demo_serde demo_proxy demo_axum "anthropic" "claude" []
     (@message_deliveries demo_serde demo_read demo_start demo_blocks
        (mkDeltaData (Some "tool_use")) (Some (mkDeltaUsage 7))))].
Definition demo_waiting : @Agent demo_serde :=
  mkAgent (CallingLlm (mkConversation 7%N [Message_user "hello"]) 0) AgentConfig_default [].

Lemma demo_encodes : Forall2 (@encodes demo_serde demo_read demo_anthropic) demo_named (snd <$> demo_events).
Proof.
  unfold demo_named, demo_events. cbn [fmap list_fmap snd].
  repeat (apply Forall2_cons_2; [split_and!; [reflexivity..|]|]); [..|constructor];
    match goal with |- exists k, snd (_, ?s) = _ =>
      exists (str_take (String.length s - 2) (str_drop 1 s)); reflexivity end.
Qed.

Lemma streamed_message_arrives_witness :
  @received_message demo_serde (@message_deliveries demo_serde demo_read demo_start demo_blocks
     (mkDeltaData (Some "tool_use")) (Some (mkDeltaUsage 7))) =
    @Message_assistant_with_tool_calls demo_serde "hi" demo_calls.
Proof.
  refine (proj1 (proj2 (proj2 (@streamed_message_arrives demo_serde demo_read demo_anthropic
    demo_proxy demo_proxy_laws demo_axum demo_axum_laws "anthropic" "claude" demo_start demo_blocks
    (mkDeltaData (Some "tool_use")) (Some (mkDeltaUsage 7)) demo_named (snd <$> demo_events)
    demo_upstream demo_answered true (fun _ => 0%Z) demo_waiting
    (mkConversation 7%N [Message_user "hello"]) 0%Z _ _ _ _ _ _)))).
  - exact demo_encodes.
  - reflexivity.
  - vm_compute. reflexivity.
  - repeat (apply Forall_cons_2; [split; [reflexivity|repeat constructor]|]). constructor.
  - vm_compute. reflexivity.
  - reflexivity.
Defined.
