(* ===== verification/ProviderRequests.v ===== *)
(** What goes to a provider and what comes back in one piece: the conversions of
    [types.rs] in [crates/loom-server-llm-anthropic], [loom-server-llm-openai]
    (the same code as [loom-server-llm-zai]) and [loom-server-llm-vertex]. *)
From stdpp Require Import base gmap list strings pretty.
From Stdlib Require Import ZArith Lia Ascii.
From S2P Require Import Prelude Text CoreTypes ByteStream AnthropicStream OpenAiStream.
From S2P Require Import VertexStream LlmStreams StreamedMessage.

(** * Anthropic *)

Module AnthropicTypes.
Section Types.
Context `{SJ : SerdeJson}.

Record AnthropicToolUse := mkToolUse { use_id : string; use_name : string; input : Json }.
Record AnthropicToolResult := mkToolResult {
  tool_use_id : string;
  result_content : string;
  is_error : option bool;
}.
Inductive AnthropicContent :=
| Content_Text (text : string)
| Content_ToolUse (u : AnthropicToolUse)
| Content_ToolResult (r : AnthropicToolResult).
Inductive AnthropicMessageContent :=
| MC_Text (text : string)
| MC_Blocks (blocks : list AnthropicContent).
Record AnthropicMessage := mkAnthropicMessage {
  am_role : string;
  am_content : AnthropicMessageContent;
}.
Record AnthropicTool := mkAnthropicTool {
  at_name : string;
  at_description : string;
  at_input_schema : Json;
}.
Record AnthropicRequest := mkAnthropicRequest {
  ar_model : string;
  ar_messages : list AnthropicMessage;
  ar_max_tokens : Z;
  system : option string;
  ar_temperature : option f32;
  ar_tools : option (list AnthropicTool);
  stream : option bool;
}.

Inductive AnthropicResponseContent :=
| RC_Text (text : string)
| RC_ToolUse (id name : string) (input : Json).
Record AnthropicUsage := mkAnthropicUsage { au_input_tokens : Z; au_output_tokens : Z }.
Record AnthropicResponse := mkAnthropicResponse {
  resp_id : string;
  response_type : string;
  resp_role : string;
  resp_content : list AnthropicResponseContent;
  resp_model : string;
  resp_stop_reason : option string;
  resp_usage : AnthropicUsage;
}.

(** The message pushed for [msg], if any. *)
Definition anthropic_message (msg : Message) : option AnthropicMessage :=
  match role msg with
  | System => None
  | User => Some (mkAnthropicMessage "user" (MC_Text (content msg)))
  | Assistant =>
      match tool_calls msg with
      | [] => Some (mkAnthropicMessage "assistant" (MC_Text (content msg)))
      | calls =>
          Some (mkAnthropicMessage "assistant" (MC_Blocks
            ((if bool_decide (content msg = EmptyString) then [] else [Content_Text (content msg)]) ++
             ((fun tc => Content_ToolUse (mkToolUse (id tc) (tc_tool_name tc) (arguments_json tc)))
                <$> calls))))
      end
  | Tool =>
      tool_call_id ← tool_call_id msg;
      Some (mkAnthropicMessage "user"
        (MC_Blocks [Content_ToolResult (mkToolResult tool_call_id (content msg) None)]))
  end.

(** The loop over the messages: the last system message wins. *)
Definition push_anthropic (acc : option string * list AnthropicMessage) (msg : Message)
    : option string * list AnthropicMessage :=
  (match role msg with System => Some (content msg) | _ => acc.1 end,
   acc.2 ++ option_list (anthropic_message msg)).

Definition AnthropicRequest_from (req : LlmRequest) : AnthropicRequest :=
  let '(system, messages) := fold_left push_anthropic (messages req) (None, []) in
  mkAnthropicRequest (model req) messages (default 4096%Z (req_max_tokens req)) system
    (req_temperature req)
    (match tools req with
     | [] => None
     | ts => Some ((fun t => mkAnthropicTool (td_name t) (description t) (input_schema t)) <$> ts)
     end) None.

Definition OAUTH_REQUIRED_SYSTEM_PROMPT_PREFIX : string :=
  "You are Claude Code, Anthropic's official CLI for Claude.".

Definition with_oauth_system_prompt (r : AnthropicRequest) : AnthropicRequest :=
  mkAnthropicRequest (ar_model r) (ar_messages r) (ar_max_tokens r)
    (Some match system r with
          | Some existing =>
              if starts_with existing OAUTH_REQUIRED_SYSTEM_PROMPT_PREFIX then existing
              else OAUTH_REQUIRED_SYSTEM_PROMPT_PREFIX +:+ " " +:+ existing
          | None => OAUTH_REQUIRED_SYSTEM_PROMPT_PREFIX
          end) (ar_temperature r) (ar_tools r) (stream r).

Definition set_stream (b : bool) (r : AnthropicRequest) : AnthropicRequest :=
  mkAnthropicRequest (ar_model r) (ar_messages r) (ar_max_tokens r) (system r) (ar_temperature r)
    (ar_tools r) (Some b).

(** [TryFrom<AnthropicResponse>]: text is concatenated, tool uses are collected. *)
Definition push_block (acc : string * list ToolCall) (b : AnthropicResponseContent)
    : string * list ToolCall :=
  match b with
  | RC_Text text => (acc.1 +:+ text, acc.2)
  | RC_ToolUse id name input => (acc.1, acc.2 ++ [mkToolCall id name input])
  end.

Definition LlmResponse_try_from (resp : AnthropicResponse) : result LlmError LlmResponse :=
  let '(content, tool_calls) := fold_left push_block (resp_content resp) (EmptyString, []) in
  Ok (mkLlmResponse (Message_assistant content) tool_calls
        (Some (mkUsage (au_input_tokens (resp_usage resp)) (au_output_tokens (resp_usage resp))))
        (resp_stop_reason resp)).

End Types.
End AnthropicTypes.

(** * OpenAI *)

Module OpenAITypes.
Section Types.
Context `{SJ : SerdeJson}.

Record OpenAIFunctionCall := mkFunctionCall { oc_name : string; oc_arguments : string }.
Record OpenAIToolCall := mkOpenAIToolCall {
  oc_id : string;
  oc_type : string;
  oc_function : OpenAIFunctionCall;
}.
Record OpenAIMessage := mkOpenAIMessage {
  om_role : string;
  om_content : option string;
  om_name : option string;
  om_tool_call_id : option string;
  om_tool_calls : option (list OpenAIToolCall);
}.
Record OpenAIFunction := mkFunction {
  of_name : string;
  of_description : string;
  parameters : Json;
}.
Record OpenAITool := mkOpenAITool { tool_type : string; ot_function : OpenAIFunction }.
Record OpenAIRequest := mkOpenAIRequest {
  or_model : string;
  or_messages : list OpenAIMessage;
  or_max_tokens : option Z;
  or_temperature : option f32;
  or_tools : list OpenAITool;
  tool_choice : option string;
  or_stream : bool;
}.
Record OpenAIChoice := mkOpenAIChoice {
  oc_index : Z;
  oc_message : OpenAIMessage;
  oc_finish_reason : option string;
}.
Record OpenAIResponse := mkOpenAIResponse {
  or_id : string;
  or_object : string;
  or_created : Z;
  or_resp_model : string;
  or_choices : list OpenAIChoice;
  or_usage : option OpenAI.OpenAIUsage;
}.

Definition role_name (r : Role) : string :=
  match r with
  | System => "system"
  | User => "user"
  | Assistant => "assistant"
  | Tool => "tool"
  end.

Definition OpenAIMessage_from (msg : Message) : OpenAIMessage :=
  mkOpenAIMessage (role_name (role msg))
    (if bool_decide (content msg = EmptyString) then None else Some (content msg))
    (name msg) (tool_call_id msg) None.

Definition OpenAITool_from (t : ToolDefinition) : OpenAITool :=
  mkOpenAITool "function" (mkFunction (td_name t) (description t) (input_schema t)).

Definition from_llm_request (request : LlmRequest) (stream : bool) : OpenAIRequest :=
  mkOpenAIRequest (model request) (OpenAIMessage_from <$> messages request)
    (req_max_tokens request) (req_temperature request) (OpenAITool_from <$> tools request)
    (match tools request with [] => None | _ => Some "auto" end) stream.

End Types.

(** [serde_json::Value::Null]. *)
Class JsonNull `{SJ : SerdeJson} := { json_null : Json }.

Section Response.
Context `{JR : JsonRead} `{JN : !JsonNull}.

Definition ToolCall_from (tc : OpenAIToolCall) : ToolCall :=
  mkToolCall (oc_id tc) (oc_name (oc_function tc))
    (default json_null (json_from_str (oc_arguments (oc_function tc)))).

(** [From<OpenAIResponse>]: the first choice counts. *)
Definition LlmResponse_from_openai (response : OpenAIResponse) : LlmResponse :=
  let '(content, tool_calls, finish_reason) :=
    match head (or_choices response) with
    | Some c =>
        (default EmptyString (om_content (oc_message c)),
         match om_tool_calls (oc_message c) with
         | Some tcs => ToolCall_from <$> tcs
         | None => []
         end, oc_finish_reason c)
    | None => (EmptyString, [], None)
    end in
  mkLlmResponse (Message_assistant content) tool_calls
    (option_map (fun u => mkUsage (OpenAI.prompt_tokens u) (OpenAI.completion_tokens u))
       (or_usage response))
    finish_reason.

End Response.
End OpenAITypes.

(** * Vertex *)

Module VertexTypes.
Import Vertex.

Section Types.
Context `{JR : JsonRead}.
(** [serde_json::Value::String]. *)
Context (json_string : string -> Json).

Record VertexFunctionDeclaration := mkDeclaration {
  vd_name : string;
  vd_description : string;
  vd_parameters : Json;
}.
Record VertexTool := mkVertexTool { function_declarations : list VertexFunctionDeclaration }.
Record VertexGenerationConfig := mkGenerationConfig {
  max_output_tokens : option Z;
  vg_temperature : option f32;
}.
Record VertexRequest := mkVertexRequest {
  contents : list VertexContent;
  system_instruction : option VertexContent;
  vr_tools : list VertexTool;
  generation_config : option VertexGenerationConfig;
}.

(** The content pushed for [msg], if any. *)
Definition vertex_content (msg : Message) : option VertexContent :=
  match role msg with
  | System => None
  | User => Some (mkContent (Some "user") [Part_Text (content msg)])
  | Assistant => Some (mkContent (Some "model") [Part_Text (content msg)])
  | Tool =>
      tool_name ← name msg;
      Some (mkContent (Some "user") [Part_FunctionResponse
        (mkFunctionResponse tool_name
           (default (json_string (content msg)) (json_from_str (content msg))))])
  end.

(** The loop over the messages: the first system message wins. *)
Definition push_vertex (acc : option VertexContent * list VertexContent) (msg : Message)
    : option VertexContent * list VertexContent :=
  (match role msg, acc.1 with
   | System, None => Some (mkContent None [Part_Text (content msg)])
   | _, si => si
   end, acc.2 ++ option_list (vertex_content msg)).

Definition VertexRequest_from (req : LlmRequest) : VertexRequest :=
  let '(system_instruction, contents) := fold_left push_vertex (messages req) (None, []) in
  mkVertexRequest contents system_instruction
    (match tools req with
     | [] => []
     | ts => [mkVertexTool
                ((fun t => mkDeclaration (td_name t) (description t) (input_schema t)) <$> ts)]
     end)
    (match req_max_tokens req, req_temperature req with
     | None, None => None
     | m, t => Some (mkGenerationConfig m t)
     end).

(** [TryFrom<VertexResponse>]: the first candidate counts; calls are numbered. *)
Definition push_part (acc : string * list ToolCall) (p : VertexPart) : string * list ToolCall :=
  match p with
  | Part_Text text => (acc.1 +:+ text, acc.2)
  | Part_FunctionCall fc =>
      (acc.1, acc.2 ++ [mkToolCall (call_id_of (length acc.2)) (fc_name fc) (args fc)])
  | Part_FunctionResponse _ => acc
  end.

Definition LlmResponse_try_from_vertex (resp : VertexResponse) : result LlmError LlmResponse :=
  match candidates resp with
  | [] => Err (LlmError_InvalidResponse "Vertex response had no candidates")
  | candidate :: _ =>
      let '(content, tool_calls) :=
        fold_left push_part (parts (cand_content candidate)) (EmptyString, []) in
      Ok (mkLlmResponse (Message_assistant content) tool_calls
            (usage_of <$> usage_metadata resp) (cand_finish_reason candidate))
  end.

End Types.
End VertexTypes.

(** * The conversation in a request *)

Section History.
Context `{SJ : SerdeJson}.
Import AnthropicTypes OpenAITypes.

(** Messages as the constructors of [Message] build them. *)
Definition constructed (msg : Message) : Prop :=
  match role msg with
  | System => msg = Message_system (content msg)
  | User => msg = Message_user (content msg)
  | Assistant => msg = Message_assistant_with_tool_calls (content msg) (tool_calls msg)
  | Tool => exists call_id, msg = mkMessage Tool (content msg) (Some call_id) (name msg) []
  end.

Definition not_system (msg : Message) : Prop := role msg <> System.
#[local] Instance not_system_dec msg : Decision (not_system msg).
Proof. unfold not_system. destruct (role msg); first [by left | by right; intros []]. Defined.

(** A message without the name of its tool. *)
Definition unnamed (msg : Message) : Message :=
  mkMessage (role msg) (content msg) (tool_call_id msg) None (tool_calls msg).
(** A message without its tool calls. *)
Definition without_calls (msg : Message) : Message :=
  mkMessage (role msg) (content msg) (tool_call_id msg) (name msg) [].

Definition call_of (c : AnthropicContent) : option ToolCall :=
  match c with
  | Content_ToolUse u => Some (mkToolCall (use_id u) (use_name u) (input u))
  | _ => None
  end.

(** The message an Anthropic message was made from. *)
Definition anthropic_read_back (m : AnthropicMessage) : Message :=
  match am_content m with
  | MC_Text text =>
      if bool_decide (am_role m = "user") then Message_user text else Message_assistant text
  | MC_Blocks [Content_ToolResult r] =>
      mkMessage Tool (result_content r) (Some (tool_use_id r)) None []
  | MC_Blocks (Content_Text text :: blocks) =>
      Message_assistant_with_tool_calls text (omap call_of blocks)
  | MC_Blocks blocks => Message_assistant_with_tool_calls "" (omap call_of blocks)
  end.

Definition role_of_name (s : string) : Role :=
  if bool_decide (s = "system") then System
  else if bool_decide (s = "user") then User
  else if bool_decide (s = "assistant") then Assistant else Tool.

Definition openai_read_back (m : OpenAIMessage) : Message :=
  mkMessage (role_of_name (om_role m)) (default EmptyString (om_content m)) (om_tool_call_id m)
    (om_name m) [].

Lemma push_anthropic_messages ms acc :
  (fold_left push_anthropic ms acc).2 = acc.2 ++ omap anthropic_message ms.
Proof.
  revert acc. induction ms as [|m ms IH]; intros acc; [by rewrite app_nil_r|].
  cbn [fold_left]. rewrite IH. cbn [push_anthropic snd]. rewrite <- app_assoc.
  cbn [omap list_omap]. by destruct (anthropic_message m).
Qed.

Lemma push_anthropic_system ms acc :
  (fold_left push_anthropic ms acc).1 =
    match last (filter (fun m => ~ not_system m) ms) with Some m => Some (content m) | None => acc.1 end.
Proof.
  revert acc. induction ms as [|m ms IH]; intros acc; [done|]. cbn [fold_left].
  rewrite IH, filter_cons. cbn [push_anthropic fst].
  destruct (decide (~ not_system m)) as [Hs|Hs].
  - assert (role m = System) as -> by (unfold not_system in Hs; destruct (role m); tauto || by destruct Hs).
    rewrite last_cons. by destruct (last _).
  - destruct (last _); [done|]. unfold not_system in Hs. by destruct (role m); try tauto.
Qed.

Lemma anthropic_message_read_back m : constructed m -> not_system m ->
  exists am, anthropic_message m = Some am /\ anthropic_read_back am = unnamed m.
Proof.
  unfold constructed, anthropic_message, not_system. destruct (role m) eqn:Hr; intros Hm Hs.
  - done.
  - eexists. split; [done|]. rewrite Hm. done.
  - destruct (tool_calls m) as [|tc tcs] eqn:Hc.
    + eexists. split; [done|]. by rewrite Hm.
    + eexists. split; [done|]. rewrite Hm. unfold anthropic_read_back. cbn [am_content].
      assert (Ho : forall l : list ToolCall, omap (M := list) call_of
        ((fun tc => Content_ToolUse (mkToolUse (id tc) (tc_tool_name tc) (arguments_json tc))) <$> l) = l).
      { induction l as [|[] l IH]; [done|]. cbn in *. by rewrite IH. }
      cbn [content Message_assistant_with_tool_calls]. case_bool_decide as E.
      * rewrite E. exact (f_equal (Message_assistant_with_tool_calls "") (Ho (tc :: tcs))).
      * cbn [app]. exact (f_equal (Message_assistant_with_tool_calls (content m)) (Ho (tc :: tcs))).
  - destruct Hm as [i Hm]. rewrite Hm. eexists. split; done.
Qed.

Lemma anthropic_history ms : Forall constructed ms ->
  anthropic_read_back <$> omap anthropic_message ms = unnamed <$> filter not_system ms.
Proof.
  intros H. induction H as [|m ms Hm H IH]; [done|]. rewrite filter_cons. cbn [omap list_omap].
  destruct (decide (not_system m)) as [Hs|Hs].
  - destruct (anthropic_message_read_back m Hm Hs) as (am & -> & Hr).
    rewrite !fmap_cons, Hr. f_equal. exact IH.
  - assert (anthropic_message m = None) as ->; [|exact IH].
    unfold not_system, anthropic_message in *. destruct (role m); tauto || by destruct Hs.
Qed.

Lemma openai_message_read_back m : openai_read_back (OpenAIMessage_from m) = without_calls m.
Proof.
  unfold openai_read_back, OpenAIMessage_from, without_calls. cbn.
  f_equal; [by destruct (role m)|]. case_bool_decide as E; [by rewrite E|done].
Qed.

(** C22. The conversation can be read back from a request, message by message and
    in order: from an Anthropic request with every tool call and tool result,
    less only the names of tools and all system messages but the last; from an
    OpenAI request all of it but the tool calls of assistant messages. *)
Theorem requests_carry_history req stream :
  Forall constructed (messages req) ->
  anthropic_read_back <$> ar_messages (AnthropicRequest_from req) =
    unnamed <$> filter not_system (messages req) /\
  system (AnthropicRequest_from req) =
    option_map content (last (filter (fun m => ~ not_system m) (messages req))) /\
  openai_read_back <$> or_messages (from_llm_request req stream) = without_calls <$> messages req.
Proof.
  intros H. split_and!.
  - unfold AnthropicRequest_from.
    pose proof (push_anthropic_messages (messages req) (None, [])) as Hm.
    destruct (fold_left _ _ _) as [sys ms]. cbn in *. rewrite Hm. by apply anthropic_history.
  - unfold AnthropicRequest_from.
    pose proof (push_anthropic_system (messages req) (None, [])) as Hm.
    destruct (fold_left _ _ _) as [sys ms]. cbn in *. rewrite Hm. by destruct (last _).
  - cbn. rewrite <- list_fmap_compose. apply list_fmap_ext. intros i m _.
    apply openai_message_read_back.
Qed.

(** The prompt prefix of OAuth requests: it is there afterwards, it is added at
    most once and nothing else changes. *)
Lemma oauth_prompt_once r :
  with_oauth_system_prompt (with_oauth_system_prompt r) = with_oauth_system_prompt r /\
  (exists s, system (with_oauth_system_prompt r) = Some s /\
    starts_with s OAUTH_REQUIRED_SYSTEM_PROMPT_PREFIX = true) /\
  ar_messages (with_oauth_system_prompt r) = ar_messages r.
Proof.
  assert (Hp : forall t, starts_with (OAUTH_REQUIRED_SYSTEM_PROMPT_PREFIX +:+ t)
    OAUTH_REQUIRED_SYSTEM_PROMPT_PREFIX = true) by (intros t; apply starts_with_spec; by exists t).
  assert (Hs : exists s, system (with_oauth_system_prompt r) = Some s /\
    starts_with s OAUTH_REQUIRED_SYSTEM_PROMPT_PREFIX = true).
  { unfold with_oauth_system_prompt. cbn [system]. destruct (system r) as [e|].
    - destruct (starts_with e _) eqn:E; eauto.
    - eexists. split; [done|]. rewrite <- (string_app_nil_r OAUTH_REQUIRED_SYSTEM_PROMPT_PREFIX) at 1.
      apply Hp. }
  split_and!; [|done|done]. destruct Hs as (s & Hs & Hpre).
  unfold with_oauth_system_prompt at 1. rewrite Hs, Hpre, <- Hs. by destruct r.
Qed.

(** An assistant message goes to OpenAI, and to Vertex, without its tool calls. *)
Lemma openai_drops_calls c calls :
  OpenAIMessage_from (Message_assistant_with_tool_calls c calls) =
  OpenAIMessage_from (Message_assistant c).
Proof. done. Qed.

Lemma vertex_drops_calls `{!JsonRead} js c calls :
  VertexTypes.vertex_content js (Message_assistant_with_tool_calls c calls) =
  VertexTypes.vertex_content js (Message_assistant c).
Proof. done. Qed.

(** Vertex gets no tool result whose message has no name, as those of the agent. *)
Lemma vertex_drops_unnamed `{!JsonRead} js call_id o :
  VertexTypes.vertex_content js (mkMessage Tool o (Some call_id) None []) = None.
Proof. done. Qed.

End History.

(** * Streamed and unstreamed answers *)

Section Whole.
Context `{AJ : Anthropic.AnthropicJson}.
Import AnthropicTypes.

(** The message of [StreamedMessage.message_events] as the provider sends it in
    one piece. *)
Definition whole_block (b : Block) : AnthropicResponseContent :=
  match b with
  | TextBlock _ _ => RC_Text (block_text b)
  | ToolBlock id name fragments => RC_ToolUse id name (tool_arguments (str_concat fragments))
  end.

Definition whole_message (start : Anthropic.MessageStartData) (bs : list Block)
    (d : Anthropic.MessageDeltaData) (u : option Anthropic.MessageDeltaUsage) : AnthropicResponse :=
  mkAnthropicResponse (Anthropic.start_id start) "message" "assistant" (whole_block <$> bs)
    (Anthropic.start_model start) (Anthropic.stop_reason d)
    (mkAnthropicUsage (default 0%Z (Anthropic.su_input_tokens <$> Anthropic.start_usage start))
       (default 0%Z (Anthropic.du_output_tokens <$> u))).

Lemma push_blocks bs acc : fold_left push_block (whole_block <$> bs) acc =
  (acc.1 +:+ message_text bs, acc.2 ++ message_calls bs).
Proof.
  revert acc. induction bs as [|b bs IH]; intros acc; unfold message_text;
    cbn [fmap list_fmap fold_left str_concat].
  - rewrite string_app_nil_r. cbn. rewrite app_nil_r. by destruct acc.
  - change (list_fmap _ _ whole_block bs) with (whole_block <$> bs). rewrite IH.
    destruct b as [t fs|i n fs]; cbn [whole_block push_block fst snd block_text].
    + by rewrite string_app_assoc.
    + rewrite append_nil, <- app_assoc. done.
Qed.

(** Whether Anthropic answers in one piece or in a stream makes no
    difference: the response converted from the whole message is the response the
    stream of its events completes with. *)
Theorem streaming_agrees start bs d u named evs inner :
  Forall2 encodes named evs -> filter not_ping evs = message_events start bs d u ->
  body_text inner = Some (sse_text named) ->
  exists es response,
    delivers (Anthropic.parse_sse_stream inner) (es ++ [Completed response]) /\
    Forall quiet es /\
    LlmResponse_try_from (whole_message start bs d u) = Ok response.
Proof.
  intros Hn He Hb. eexists _, (message_response start bs d u).
  split_and!; [by eapply message_delivered|apply deltas_quiet|].
  unfold LlmResponse_try_from. cbn [resp_content whole_message].
  by rewrite push_blocks, append_nil, app_nil_l.
Qed.

End Whole.

(** * Concrete requests *)

Definition demo_history : list (Message (SJ := demo_serde)) :=
  [Message_system "be brief"; Message_user "read it";
   Message_assistant_with_tool_calls "" demo_calls;
   mkMessage Tool "text" (Some "c1") (Some "read_file") []; Message_assistant "done"].
Definition demo_request : LlmRequest (SJ := demo_serde) :=
  with_messages (LlmRequest_new "claude") demo_history.

Lemma requests_carry_history_witness :
  anthropic_read_back <$> AnthropicTypes.ar_messages (AnthropicTypes.AnthropicRequest_from demo_request) =
    [Message_user "read it"; Message_assistant_with_tool_calls "" demo_calls;
     mkMessage Tool "text" (Some "c1") None []; Message_assistant "done"].
Proof.
  refine (eq_trans (proj1 (requests_carry_history demo_request true _)) eq_refl).
  repeat (apply Forall_cons_2; [try reflexivity; by eexists|]). constructor.
Defined.

Lemma streaming_agrees_witness :
  exists es response,
    delivers (T := Anthropic.SseStream)
      (Stream0 := @Anthropic.SseStream_stream demo_serde demo_read demo_anthropic)
      (Anthropic.parse_sse_stream demo_upstream) (es ++ [Completed response]) /\
    AnthropicTypes.LlmResponse_try_from
      (@whole_message demo_serde demo_read demo_start demo_blocks
         (Anthropic.mkDeltaData (Some "tool_use")) (Some (Anthropic.mkDeltaUsage 7))) = Ok response.
Proof.
  destruct (@streaming_agrees demo_serde demo_read demo_anthropic demo_start demo_blocks
    (Anthropic.mkDeltaData (Some "tool_use")) (Some (Anthropic.mkDeltaUsage 7)) demo_named
    (snd <$> demo_events) demo_upstream) as (es & response & Hd & _ & Hr).
  - exact demo_encodes.
  - reflexivity.
  - vm_compute. reflexivity.
  - exists es, response. split; [exact Hd|exact Hr].
Defined.
