(* ===== verification/LlmClients.v ===== *)
(** Requests over HTTP: the retry loop of [crates/loom-common-http/src/retry.rs]
    and the clients of Anthropic, OpenAI, Vertex and the proxy ([client.rs] in
    [crates/loom-server-llm-anthropic], [-openai], [-vertex] and [-proxy]).  The
    network is a sequence of answers; every request sent is recorded. *)
From stdpp Require Import base gmap list strings pretty.
From Stdlib Require Import ZArith Lia Ascii SpecFloat.
From S2P Require Import Prelude Text CoreTypes ByteStream AnthropicStream OpenAiStream.
From S2P Require Import VertexStream ProxyStream Pool LlmStreams StreamedMessage ProviderRequests.
Import AnthropicTypes OpenAITypes VertexTypes.

(** * Retry *)

(** [trait RetryableError]. *)
Class RetryableError (E : Type) := { is_retryable : E -> bool }.

(** Durations are nanoseconds. *)
Record RetryConfig := mkRetryConfig {
  max_attempts : Z;
  base_delay : Z;
  max_delay : Z;
  backoff_factor : spec_float;
  jitter : bool;
  retryable_statuses : list Z;
}.

Definition two : spec_float := S754_finite false 2 0.
Definition transient_statuses : list Z := [429; 408; 500; 502; 503; 504]%Z.

Definition RetryConfig_default : RetryConfig :=
  mkRetryConfig 3 (200 * 1000000) (5 * 1000000000) two true transient_statuses.

(** Calls on a changing world: [f] is the operation, [pause n] sleeps for the
    delay after failure [n] (from 0), which is computed in floating point with a
    random factor. *)
Section Retry.
Context {W T E : Type} `{RE : RetryableError E}.
Context (cfg : RetryConfig) (pause : nat -> W -> W) (f : W -> result E T * W).

(** The loop, with [attempt] failures so far; [None] when the fuel is used up. *)
Fixpoint retry_loop (fuel attempt : nat) (w : W) : option (result E T * W) :=
  match fuel with
  | O => None
  | S fuel =>
      match f w with
      | (Ok r, w) => Some (Ok r, w)
      | (Err err, w) =>
          let attempt := S attempt in
          if negb (is_retryable err) then Some (Err err, w)
          else if (max_attempts cfg <=? Z.of_nat attempt)%Z then Some (Err err, w)
          else retry_loop fuel attempt (pause (attempt - 1) w)
      end
  end.

(** The number of calls that is enough, and that are made at most. *)
Definition retry_bound : nat := Nat.max 1 (Z.to_nat (max_attempts cfg)).

Definition retry (w : W) : option (result E T * W) := retry_loop retry_bound 0 w.

(** The world before call [n], when the calls before it have failed. *)
Fixpoint world_at (n : nat) (w : W) : W :=
  match n with
  | O => w
  | S n => pause n (f (world_at n w)).2
  end.

Lemma retry_loop_spec fuel attempt w0 :
  retry_bound <= fuel + attempt -> attempt < retry_bound ->
  (forall k, k < attempt -> exists e, (f (world_at k w0)).1 = Err e /\ is_retryable e = true) ->
  exists n, n < retry_bound /\
    retry_loop fuel attempt (world_at attempt w0) = Some (f (world_at n w0)) /\
    (forall k, k < n -> exists e, (f (world_at k w0)).1 = Err e /\ is_retryable e = true) /\
    (forall e, (f (world_at n w0)).1 = Err e -> is_retryable e = true -> S n = retry_bound).
Proof.
  revert attempt. induction fuel as [|fuel IH]; intros attempt Hf Ha Hp; [lia|].
  cbn [retry_loop]. destruct (f (world_at attempt w0)) as [[r|e] w1] eqn:Ef.
  - exists attempt. rewrite Ef. split_and!; [done|done|done|]. by intros e [=].
  - destruct (is_retryable e) eqn:Er; cbn [negb].
    2: { exists attempt. rewrite Ef. split_and!; [done|done|done|]. intros e' [= <-]. congruence. }
    destruct (Z.leb_spec (max_attempts cfg) (Z.of_nat (S attempt))) as [Hm|Hm].
    + exists attempt. rewrite Ef. split_and!; [done|done|done|]. intros e' [= <-] _.
      unfold retry_bound in *. lia.
    + rewrite Nat.sub_succ, Nat.sub_0_r.
      assert (pause attempt w1 = world_at (S attempt) w0) as -> by (cbn; by rewrite Ef).
      apply IH; [lia|unfold retry_bound in *; lia|].
      intros k Hk. destruct (decide (k = attempt)) as [->|]; [rewrite Ef; eauto|apply Hp; lia].
Qed.

(** The operation is called at least once and at most [max_attempts] times, every
    call but the last has failed with a retryable error, and the last one's
    outcome is returned: a success, an error that is not retryable, or the
    attempts are used up. *)
Lemma retry_spec w0 : exists n, n < retry_bound /\
  retry w0 = Some (f (world_at n w0)) /\
  (forall k, k < n -> exists e, (f (world_at k w0)).1 = Err e /\ is_retryable e = true) /\
  (forall e, (f (world_at n w0)).1 = Err e -> is_retryable e = true -> S n = retry_bound).
Proof. apply (retry_loop_spec retry_bound 0 w0); unfold retry_bound; lia. Qed.

End Retry.

Lemma retry_ext {W T E} `{RE : RetryableError E} cfg pause (f g : W -> result E T * W) w :
  (forall w, f w = g w) -> retry cfg pause f w = retry cfg pause g w.
Proof.
  intros Hfg. unfold retry. generalize (retry_bound cfg) as fuel, 0 as attempt. intros fuel.
  revert w. induction fuel as [|fuel IH]; intros w attempt; [done|]. cbn [retry_loop].
  rewrite Hfg. destruct (g w) as [[r|e] w']; [done|]. by rewrite IH.
Qed.

(** * The network *)

(** What [send] answers: a failure with its [Display] text, or a response with
    its status, its [retry-after] header and its body or the error of reading it. *)
Inductive Answer :=
| A_Failed (is_timeout is_connect : bool) (text : string)
| A_Response (status : Z) (retry_after : option string) (response_body : result string string).

(** The requests sent so far; the next answer follows from their number. *)
Record Network (R : Type) := mkNetwork { answers : nat -> Answer; sent : list R }.
Arguments mkNetwork {R}. Arguments answers {R}. Arguments sent {R}.

Definition send {R} (r : R) (w : Network R) : Answer * Network R :=
  (answers w (length (sent w)), mkNetwork (answers w) (sent w ++ [r])).

Definition is_success (status : Z) : bool := (200 <=? status)%Z && (status <? 300)%Z.

(** [u64::from_str]. *)
Fixpoint decimal (acc : Z) (s : string) : option Z :=
  match s with
  | EmptyString => Some acc
  | String c s =>
      if is_ascii_digit c then
        let acc := (acc * 10 + (byte_of c - 48))%Z in
        if (acc <? 2 ^ 64)%Z then decimal acc s else None
      else None
  end.
Definition parse_u64 (s : string) : option Z :=
  let digits := match s with String "+" s => s | s => s end in
  if bool_decide (digits = EmptyString) then None else decimal 0 digits.

(** A response body as it is streamed: the chunks the network makes of it. *)
Definition bytes_stream (chunks : string -> list Polled) (b : result string string) : list Polled :=
  match b with Ok text => chunks text | Err e => [P_Broken e] end.

(** * The Anthropic client *)

Inductive ClientErrorKind := Transient | QuotaExceeded | Permanent.
#[export] Instance ClientErrorKind_eq_dec : EqDecision ClientErrorKind.
Proof. solve_decision. Defined.

Record ClientError := mkClientError {
  ce_message : string;
  retryable : bool;
  ce_kind : ClientErrorKind;
}.
#[export] Instance ClientError_retryable : RetryableError ClientError := {| is_retryable := retryable |}.

Definition LlmError_from (err : ClientError) : LlmError := LlmError_Http (ce_message err).

Definition is_transient_status (status : Z) : bool :=
  existsb (fun s => (status =? s)%Z) [408; 429; 500; 502; 503; 504]%Z.

Definition classify_error (status : Z) (message : string) : ClientErrorKind :=
  if (status =? 401)%Z || (status =? 403)%Z then Permanent
  else if (status =? 429)%Z && is_quota_message message then QuotaExceeded
  else if is_transient_status status then Transient
  else Permanent.

(** [serde_json::from_str] at the types of the client; the message of an
    [AnthropicError] is all that is used of it. *)
Class AnthropicClientJson `{SJ : SerdeJson} := {
  anthropic_error_from_str : string -> option string;
  anthropic_response_from_str : string -> result string AnthropicResponse;
}.

Section AnthropicClient.
Context `{CJ : AnthropicClientJson}.

Record AnthropicClient := mkAnthropicClient {
  ac_base_url : string;
  ac_is_oauth : bool;
  ac_retry_config : RetryConfig;
}.

Record AnthropicHttp := mkAnthropicHttp {
  ah_url : string;
  ah_headers : list (string * string);
  ah_body : AnthropicRequest;
}.

(** The headers [auth.apply_to_request] adds to the request after [n] others
    were sent (OAuth may refresh its token), or its error. *)
Context (apply_auth : nat -> result string (list (string * string))).

Definition messages_url (c : AnthropicClient) : string := ac_base_url c +:+ "/v1/messages".

Definition ANTHROPIC_VERSION : string := "2023-06-01".

(** What the answer to a request means: the body of a successful response, or
    the error with its classification. *)
Definition anthropic_answer (a : Answer) : result ClientError (result string string) :=
  match a with
  | A_Failed is_timeout is_connect text =>
      let retryable := is_timeout || is_connect in
      Err (mkClientError text retryable (if retryable then Transient else Permanent))
  | A_Response status _ body =>
      if is_success status then Ok body
      else
        let error_body := match body with Ok text => text | Err _ => EmptyString end in
        let message := default error_body (anthropic_error_from_str error_body) in
        let kind := classify_error status message in
        Err (mkClientError message (bool_decide (kind = Transient)) kind)
  end.

Definition send_request (c : AnthropicClient) (request : AnthropicRequest)
    (w : Network AnthropicHttp) : result ClientError (result string string) * Network AnthropicHttp :=
  match apply_auth (length (sent w)) with
  | Err e => (Err (mkClientError ("Auth error: " +:+ e) false Permanent), w)
  | Ok headers =>
      let '(a, w) :=
        send (mkAnthropicHttp (messages_url c)
                (("anthropic-version", ANTHROPIC_VERSION) :: ("content-type", "application/json")
                   :: headers) request) w in
      (anthropic_answer a, w)
  end.

Definition anthropic_request (c : AnthropicClient) (request : LlmRequest) (stream : bool)
    : AnthropicRequest :=
  let r := set_stream stream (AnthropicRequest_from request) in
  if ac_is_oauth c then with_oauth_system_prompt r else r.

(** Sleeping changes nothing of the network. *)
Definition asleep {W} (_ : nat) (w : W) : W := w.

Definition anthropic_exchange (c : AnthropicClient) (request : LlmRequest) (stream : bool)
    (w : Network AnthropicHttp)
    : option (result ClientError (result string string) * Network AnthropicHttp) :=
  retry (ac_retry_config c) asleep (send_request c (anthropic_request c request stream)) w.

(** The rest of [complete] after the retries. *)
Definition anthropic_finish (r : result ClientError (result string string))
    : result LlmError LlmResponse :=
  match r with
  | Err err => Err (LlmError_from err)
  | Ok (Err e) => Err (LlmError_Http e)
  | Ok (Ok response_body) =>
      match anthropic_response_from_str response_body with
      | Err e => Err (LlmError_InvalidResponse ("Failed to parse response: " +:+ e))
      | Ok response => LlmResponse_try_from response
      end
  end.

Definition anthropic_complete (c : AnthropicClient) (request : LlmRequest)
    (w : Network AnthropicHttp) : option (result LlmError LlmResponse * Network AnthropicHttp) :=
  '(r, w) ← anthropic_exchange c request false w; Some (anthropic_finish r, w).

Definition anthropic_complete_streaming (chunks : string -> list Polled) (c : AnthropicClient)
    (request : LlmRequest) (w : Network AnthropicHttp)
    : option (result LlmError Anthropic.SseStream * Network AnthropicHttp) :=
  '(r, w) ← anthropic_exchange c request true w;
  Some (match r with
        | Err err => Err (LlmError_from err)
        | Ok body => Ok (Anthropic.parse_sse_stream (bytes_stream chunks body))
        end, w).

(** ** What the retries do *)

(** An answer after which the request is sent again. *)
Definition transient_answer (a : Answer) : bool :=
  match a with
  | A_Failed is_timeout is_connect _ => is_timeout || is_connect
  | A_Response status _ body =>
      negb (is_success status) && is_transient_status status &&
      negb ((status =? 429)%Z &&
            is_quota_message
              (let t := match body with Ok text => text | Err _ => EmptyString end in
               default t (anthropic_error_from_str t)))
  end.

Lemma anthropic_answer_transient a :
  (exists e, anthropic_answer a = Err e /\ retryable e = true) <-> transient_answer a = true.
Proof.
  destruct a as [t c text|status ra body]; cbn [anthropic_answer transient_answer].
  - destruct (t || c); split; [done|by eexists|by intros (e & [= <-] & ?)|done].
  - destruct (is_success status); cbn [negb andb].
    { split; [by intros (e & [=] & ?)|done]. }
    set (m := default _ _). unfold classify_error.
    destruct (Z.eqb_spec status 401) as [->|H1]; [cbn; split; [by intros (e & [= <-] & ?)|done]|].
    destruct (Z.eqb_spec status 403) as [->|H2]; [cbn; split; [by intros (e & [= <-] & ?)|done]|].
    cbn [orb]. destruct ((status =? 429)%Z && is_quota_message m).
    { rewrite andb_false_r. split; [by intros (e & [= <-] & ?)|done]. }
    rewrite andb_true_r. destruct (is_transient_status status);
      split; [done|by eexists|by intros (e & [= <-] & ?)|done].
Qed.

End AnthropicClient.

(** * The OpenAI client *)

Class OpenAIClientJson `{SJ : SerdeJson} := {
  (** [response.json()] at the two types, with the [Display] text of its error. *)
  openai_response_json : string -> result string OpenAIResponse;
  openai_error_json : string -> option OpenAI.OpenAIError;
  (** [Display] of [StatusCode]. *)
  status_display : Z -> string;
}.

Section OpenAIClient.
Context `{JR : JsonRead} `{JN : !JsonNull} `{CJ : !OpenAIClientJson}.

Record OpenAIConfig := mkOpenAIConfig {
  oa_api_key : string;
  oa_base_url : string;
  oa_model : string;
  organization : option string;
}.
Definition OpenAIConfig_new (api_key : string) : OpenAIConfig :=
  mkOpenAIConfig api_key "https://api.openai.com/v1" "gpt-4o" None.

Record OpenAIClient := mkOpenAIClient {
  oa_config : OpenAIConfig;
  oa_retry_config : RetryConfig;
}.
Definition OpenAIClient_new (config : OpenAIConfig) : OpenAIClient :=
  mkOpenAIClient config
    (mkRetryConfig 3 (500 * 1000000) (30 * 1000000000) two true transient_statuses).

(** [OpenAIRequestError]. *)
Record OpenAIRequestError := mkRequestError { request_error : LlmError }.
#[export] Instance OpenAIRequestError_retryable : RetryableError OpenAIRequestError := {|
  is_retryable e :=
    match request_error e with
    | LlmError_Http _ | LlmError_Timeout | LlmError_RateLimited _ => true
    | _ => false
    end
|}.

Record OpenAIHttp := mkOpenAIHttp {
  oh_url : string;
  oh_headers : list (string * string);
  oh_body : OpenAIRequest;
}.

Definition build_request (c : OpenAIClient) (request : LlmRequest) (stream : bool) : OpenAIHttp :=
  mkOpenAIHttp (oa_base_url (oa_config c) +:+ "/chat/completions")
    ([("Content-Type", "application/json");
      ("Authorization", "Bearer " +:+ oa_api_key (oa_config c))] ++
     match organization (oa_config c) with
     | Some org => [("OpenAI-Organization", org)]
     | None => []
     end)
    (from_llm_request request stream).

Definition handle_error_response (status_code : Z) (retry_after : option string)
    (body : result string string) : LlmError :=
  if (status_code =? 401)%Z then LlmError_Api "Authentication failed"
  else if (status_code =? 429)%Z then LlmError_RateLimited (v ← retry_after; parse_u64 v)
  else
    match match body with Ok text => openai_error_json text | Err _ => None end with
    | Some error => LlmError_Api (OpenAI.detail_message (OpenAI.error error))
    | None => LlmError_Api ("HTTP " +:+ status_display status_code)
    end.

(** Both methods up to the use of a successful response. *)
Definition openai_answer (a : Answer) : result LlmError (result string string) :=
  match a with
  | A_Failed is_timeout _ text =>
      Err (if is_timeout then LlmError_Timeout else LlmError_Http text)
  | A_Response status retry_after body =>
      if is_success status then Ok body else Err (handle_error_response status retry_after body)
  end.

(** What [complete] makes of an answer. *)
Definition openai_interpret (a : Answer) : result OpenAIRequestError LlmResponse :=
  match openai_answer a with
  | Err e => Err (mkRequestError e)
  | Ok (Err e) => Err (mkRequestError (LlmError_InvalidResponse e))
  | Ok (Ok text) =>
      match openai_response_json text with
      | Err e => Err (mkRequestError (LlmError_InvalidResponse e))
      | Ok response => Ok (LlmResponse_from_openai response)
      end
  end.

Definition openai_attempt (c : OpenAIClient) (request : LlmRequest) (w : Network OpenAIHttp)
    : result OpenAIRequestError LlmResponse * Network OpenAIHttp :=
  let '(a, w) := send (build_request c request false) w in (openai_interpret a, w).

Definition openai_finish (r : result OpenAIRequestError LlmResponse) : result LlmError LlmResponse :=
  match r with Ok response => Ok response | Err e => Err (request_error e) end.

Definition openai_complete (c : OpenAIClient) (request : LlmRequest) (w : Network OpenAIHttp)
    : option (result LlmError LlmResponse * Network OpenAIHttp) :=
  '(r, w) ← retry (oa_retry_config c) asleep (openai_attempt c request) w;
  Some (openai_finish r, w).

(** An answer after which the request is sent again: any failure to get an
    answer, and the rate limit; no other status. *)
Definition openai_transient (a : Answer) : bool :=
  match a with
  | A_Failed _ _ _ => true
  | A_Response status _ _ => negb (is_success status) && (status =? 429)%Z
  end.

Lemma openai_interpret_transient a :
  (exists e, openai_interpret a = Err e /\ is_retryable e = true) <-> openai_transient a = true.
Proof.
  unfold openai_interpret. destruct a as [t c text|status ra body]; cbn [openai_answer openai_transient].
  - split; [done|]. intros _. eexists. split; [done|]. by destruct t.
  - destruct (is_success status); cbn [negb andb].
    + split; [|done]. destruct body as [text|e]; [destruct (openai_response_json text)|];
        by intros (e' & [= <-] & ?).
    + unfold handle_error_response. destruct (Z.eqb_spec status 401) as [->|H1].
      { split; [by intros (e' & [= <-] & ?)|done]. }
      destruct (Z.eqb_spec status 429) as [->|H2].
      { split; [done|]. intros _. by eexists. }
      split; [|done]. intros (e' & [= <-] & H). cbn in H.
      by destruct (match body with Ok text => openai_error_json text | Err _ => None end).
Qed.

Definition openai_complete_streaming (chunks : string -> list Polled) (c : OpenAIClient)
    (request : LlmRequest) (w : Network OpenAIHttp)
    : result LlmError OpenAI.OpenAIStream * Network OpenAIHttp :=
  let '(a, w) := send (build_request c request true) w in
  (match openai_answer a with
   | Err e => Err e
   | Ok body => Ok (OpenAI.OpenAIStream_new (bytes_stream chunks body))
   end, w).

End OpenAIClient.

(** * The Vertex client *)

Module VertexClient.

Record VertexConfig := mkVertexConfig {
  project_id : string;
  location : string;
  vc_model : string;
  vc_base_url : string;
}.
Definition VertexConfig_new (project_id location : string) : VertexConfig :=
  mkVertexConfig project_id location "gemini-1.5-pro"
    ("https://" +:+ location +:+ "-aiplatform.googleapis.com").

Record CachedToken := mkCachedToken { token : string; expires_at : Instant }.

Record VertexClientError := mkVertexClientError { message : string; retryable : bool }.
#[global] Instance VertexClientError_retryable : RetryableError VertexClientError :=
  {| is_retryable := retryable |}.
Definition vertex_LlmError_from (err : VertexClientError) : LlmError := LlmError_Http (message err).

Class VertexClientJson `{SJ : SerdeJson} := {
  vertex_error_message : string -> option string;
  vertex_response_from_str : string -> result string Vertex.VertexResponse;
}.

Section Client.
Context `{JR : JsonRead} `{CJ : !VertexClientJson}.
Context (json_string : string -> Json).
(** [gcp_auth]: setting up the provider and its tokens, by the number of the call. *)
Context (init_provider : nat -> result string unit) (new_token : nat -> result string string).

Record VertexHttp := mkVertexHttp { vh_url : string; vh_token : string; vh_body : VertexRequest }.

(** What the client and its world keep: the token cache, whether the provider
    is set up, the calls made of it so far, the clock and the network. *)
Record World := mkWorld {
  cached_token : option CachedToken;
  provider_ready : bool;
  provider_calls : nat;
  token_calls : nat;
  clock : nat -> Instant;
  clock_reads : nat;
  net : Network VertexHttp;
}.

Definition now (w : World) : Instant * World :=
  (clock w (clock_reads w),
   mkWorld (cached_token w) (provider_ready w) (provider_calls w) (token_calls w) (clock w)
     (S (clock_reads w)) (net w)).

Definition second : Z := 1000000000.

(** The token in the cache, if it is good for another minute. *)
Definition cached (w : World) : option string * World :=
  match cached_token w with
  | None => (None, w)
  | Some t =>
      let '(n, w) := now w in
      (if (n + 60 * second <? expires_at t)%Z then Some (token t) else None, w)
  end.

Definition ensure_provider (w : World) : result VertexClientError unit * World :=
  if provider_ready w then (Ok (), w)
  else
    let answer := init_provider (provider_calls w) in
    let w := mkWorld (cached_token w) (match answer with Ok _ => true | Err _ => false end)
               (S (provider_calls w)) (token_calls w) (clock w) (clock_reads w) (net w) in
    (match answer with
     | Ok _ => Ok ()
     | Err e => Err (mkVertexClientError ("GCP auth initialization failed: " +:+ e) false)
     end, w).

Definition fetch_token (w : World) : result VertexClientError string * World :=
  let answer := new_token (token_calls w) in
  let w := mkWorld (cached_token w) (provider_ready w) (provider_calls w) (S (token_calls w))
             (clock w) (clock_reads w) (net w) in
  match answer with
  | Err e => (Err (mkVertexClientError ("GCP token acquisition failed: " +:+ e) true), w)
  | Ok t =>
      let '(n, w) := now w in
      (Ok t,
       mkWorld (Some (mkCachedToken t (n + 3500 * second)%Z)) (provider_ready w) (provider_calls w)
         (token_calls w) (clock w) (clock_reads w) (net w))
  end.

Definition get_access_token (w : World) : result VertexClientError string * World :=
  match cached w with
  | (Some t, w) => (Ok t, w)
  | (None, w) =>
      match ensure_provider w with
      | (Err e, w) => (Err e, w)
      | (Ok _, w) => fetch_token w
      end
  end.

Definition generate_content_url (c : VertexConfig) (stream : bool) : string :=
  vc_base_url c +:+ "/v1/projects/" +:+ project_id c +:+ "/locations/" +:+ location c
    +:+ "/publishers/google/models/" +:+ vc_model c +:+ ":"
    +:+ (if stream then "streamGenerateContent" else "generateContent").

Definition vertex_answer (a : Answer) : result VertexClientError (result string string) :=
  match a with
  | A_Failed is_timeout is_connect text => Err (mkVertexClientError text (is_timeout || is_connect))
  | A_Response status _ body =>
      if is_success status then Ok body
      else
        let error_body := match body with Ok text => text | Err _ => EmptyString end in
        Err (mkVertexClientError (default error_body (vertex_error_message error_body))
               (is_transient_status status))
  end.

Definition vertex_send_request (c : VertexConfig) (request : VertexRequest) (stream : bool) (w : World)
    : result VertexClientError (result string string) * World :=
  match get_access_token w with
  | (Err e, w) => (Err e, w)
  | (Ok t, w) =>
      let '(a, net) := send (mkVertexHttp (generate_content_url c stream) t request) (net w) in
      (vertex_answer a,
       mkWorld (cached_token w) (provider_ready w) (provider_calls w) (token_calls w) (clock w)
         (clock_reads w) net)
  end.

(** [VertexClient::new]'s retry configuration. *)
Definition vertex_retry_config : RetryConfig :=
  mkRetryConfig 3 (500 * 1000000) (30 * 1000000000) two true transient_statuses.

Definition vertex_complete (cfg : RetryConfig) (c : VertexConfig) (request : LlmRequest) (w : World)
    : option (result LlmError LlmResponse * World) :=
  '(r, w) ← retry cfg asleep (vertex_send_request c (VertexRequest_from json_string request) false) w;
  Some (match r with
        | Err err => Err (vertex_LlmError_from err)
        | Ok (Err e) => Err (LlmError_Http e)
        | Ok (Ok response_body) =>
            match vertex_response_from_str response_body with
            | Err e => Err (LlmError_InvalidResponse ("Failed to parse response: " +:+ e))
            | Ok response => LlmResponse_try_from_vertex response
            end
        end, w).

(** The streaming request is not retried. *)
Definition vertex_complete_streaming (chunks : string -> list Polled) (c : VertexConfig)
    (request : LlmRequest) (w : World) : result LlmError Vertex.VertexStream * World :=
  let '(r, w) := vertex_send_request c (VertexRequest_from json_string request) true w in
  (match r with
   | Err err => Err (vertex_LlmError_from err)
   | Ok body => Ok (Vertex.VertexStream_new (bytes_stream chunks body))
   end, w).

(** The token of a request is the cached one, with more than a minute left, or
    a new one, which then is the cached one. *)
Lemma token_is_fresh w t w' :
  get_access_token w = (Ok t, w') ->
  (exists e, cached_token w = Some (mkCachedToken t e) /\
     (clock w (clock_reads w) + 60 * second < e)%Z /\ cached_token w' = cached_token w /\
     token_calls w' = token_calls w) \/
  (new_token (token_calls w) = Ok t /\ token_calls w' = S (token_calls w) /\
   exists e, cached_token w' = Some (mkCachedToken t e)).
Proof.
  unfold get_access_token, cached, ensure_provider, fetch_token, now.
  destruct (cached_token w) as [[t0 e0]|] eqn:Ec; cbn.
  - destruct (Z.ltb_spec (clock w (clock_reads w) + 60 * second) e0) as [Hlt|Hge].
    + intros [= <- <-]. left. by exists e0.
    + destruct (provider_ready w); cbn.
      * destruct (new_token (token_calls w)); [|done]. intros [= <- <-]. right. cbn. eauto.
      * destruct (init_provider _); [|done]. cbn. destruct (new_token (token_calls w)); [|done].
        intros [= <- <-]. right. cbn. eauto.
  - destruct (provider_ready w); cbn.
    + destruct (new_token (token_calls w)); [|done]. intros [= <- <-]. right. cbn. eauto.
    + destruct (init_provider _); [|done]. cbn. destruct (new_token (token_calls w)); [|done].
      intros [= <- <-]. right. cbn. eauto.
Qed.

End Client.
End VertexClient.

(** * The proxy client *)

Module ProxyClient.

Inductive LlmProvider := Provider_Anthropic | Provider_OpenAi | Provider_Vertex.
Definition LlmProvider_display (p : LlmProvider) : string :=
  match p with
  | Provider_Anthropic => "anthropic"
  | Provider_OpenAi => "openai"
  | Provider_Vertex => "vertex"
  end.

Record ProxyLlmClient := mkProxyClient {
  base_url : string;
  provider : LlmProvider;
  auth_token : option string;
}.
Definition ProxyLlmClient_new (base_url : string) (p : LlmProvider) : ProxyLlmClient :=
  mkProxyClient base_url p None.
Definition with_auth_token (t : string) (c : ProxyLlmClient) : ProxyLlmClient :=
  mkProxyClient (base_url c) (provider c) (Some t).

Definition complete_url (c : ProxyLlmClient) : string :=
  trim_end_matches "/" (base_url c) +:+ "/proxy/" +:+ LlmProvider_display (provider c) +:+ "/complete".
Definition stream_url (c : ProxyLlmClient) : string :=
  trim_end_matches "/" (base_url c) +:+ "/proxy/" +:+ LlmProvider_display (provider c) +:+ "/stream".

Class ProxyClientJson `{SJ : SerdeJson} := {
  proxy_response_json : string -> result string Proxy.LlmProxyResponse;
  status_text : Z -> string;
}.

Section Client.
Context `{CJ : ProxyClientJson}.

Record ProxyHttp := mkProxyHttp {
  ph_url : string;
  ph_bearer : option string;
  ph_body : LlmRequest;
}.

(** The checks both methods make of an answer. *)
Definition proxy_answer (a : Answer) : result LlmError (result string string) :=
  match a with
  | A_Failed _ _ text => Err (LlmError_Http text)
  | A_Response status _ body =>
      if is_success status then Ok body
      else if (status =? 429)%Z then Err (LlmError_RateLimited None)
      else
        let error_body := match body with Ok text => text | Err _ => EmptyString end in
        Err (LlmError_Api ("proxy returned status " +:+ status_text status +:+ ": " +:+ error_body))
  end.

Definition proxy_complete (c : ProxyLlmClient) (request : LlmRequest) (w : Network ProxyHttp)
    : result LlmError LlmResponse * Network ProxyHttp :=
  let '(a, w) := send (mkProxyHttp (complete_url c) (auth_token c) request) w in
  (match proxy_answer a with
   | Err e => Err e
   | Ok (Err e) => Err (LlmError_InvalidResponse ("failed to parse response: " +:+ e))
   | Ok (Ok text) =>
       match proxy_response_json text with
       | Err e => Err (LlmError_InvalidResponse ("failed to parse response: " +:+ e))
       | Ok response => Ok (Proxy.LlmResponse_from response)
       end
   end, w).

Definition proxy_complete_streaming (chunks : string -> list Polled) (c : ProxyLlmClient)
    (request : LlmRequest) (w : Network ProxyHttp)
    : result LlmError Proxy.ProxyLlmStream * Network ProxyHttp :=
  let '(a, w) := send (mkProxyHttp (stream_url c) (auth_token c) request) w in
  (match proxy_answer a with
   | Err e => Err e
   | Ok body => Ok (Proxy.ProxyLlmStream_new (bytes_stream chunks body))
   end, w).

End Client.
End ProxyClient.

(** * What the retries send *)

(** Every client's attempt prepares a request, which may fail for good, sends it
    and interprets the answer. *)
Section Exchange.
Context {R T E : Type} `{RE : RetryableError E}.
Context (cfg : RetryConfig) (prepare : nat -> result E R) (interpret : Answer -> result E T).
Context (Hprep : forall n e, prepare n = Err e -> is_retryable e = false).

Definition exchange (w : Network R) : result E T * Network R :=
  match prepare (length (sent w)) with
  | Err e => (Err e, w)
  | Ok r => let '(a, w) := send r w in (interpret a, w)
  end.

Definition again (a : Answer) : Prop := exists e, interpret a = Err e /\ is_retryable e = true.

(** The answer to the request after [k] more. *)
Definition answer_at (w : Network R) (k : nat) : Answer := answers w (length (sent w) + k).

Lemma exchange_world n w :
  (forall k, k < n -> exists e, (exchange (world_at asleep exchange k w)).1 = Err e /\
     is_retryable e = true) ->
  exists reqs, length reqs = n /\
    Forall (fun r => exists k, prepare k = Ok r) reqs /\
    world_at asleep exchange n w = mkNetwork (answers w) (sent w ++ reqs) /\
    forall k, k < n -> again (answer_at w k).
Proof.
  induction n as [|n IH]; intros H.
  - exists []. split_and!; [done|done| |lia]. cbn. rewrite app_nil_r. by destruct w.
  - destruct IH as (reqs & Hl & Hr & Hw & Ha); [intros k Hk; apply H; lia|].
    cbn [world_at]. unfold asleep at 1. rewrite Hw.
    destruct (H n ltac:(lia)) as (e & He & Hre). rewrite Hw in He.
    unfold exchange in *. cbn [sent] in *. rewrite length_app, Hl in *.
    destruct (prepare (length (sent w) + n)) as [r|e'] eqn:Ep; cbn in *.
    + exists (reqs ++ [r]). split_and!.
      * rewrite length_app. cbn. lia.
      * apply Forall_app. split; [done|]. repeat constructor. eauto.
      * by rewrite app_assoc.
      * rewrite length_app, Hl in He. intros k Hk. destruct (decide (k = n)) as [->|]; [|apply Ha; lia].
        exists e. done.
    + injection He as ->. apply Hprep in Ep. congruence.
Qed.

Lemma exchange_retried w :
  exists n reqs last,
    retry cfg asleep exchange w = Some (last, mkNetwork (answers w) (sent w ++ reqs)) /\
    n < retry_bound cfg /\ Forall (fun r => exists k, prepare k = Ok r) reqs /\
    (forall k, k < n -> again (answer_at w k)) /\
    match prepare (length (sent w) + n) with
    | Err e => length reqs = n /\ last = Err e
    | Ok _ => length reqs = S n /\ last = interpret (answer_at w n) /\
              (again (answer_at w n) -> S n = retry_bound cfg)
    end.
Proof.
  destruct (retry_spec cfg asleep exchange w) as (n & Hn & Hret & Hprev & Hlast).
  destruct (exchange_world n w Hprev) as (reqs & Hl & Hr & Hw & Ha).
  rewrite Hw in Hret, Hlast. unfold exchange in Hret at 2. unfold exchange in Hlast.
  cbn [sent] in *. rewrite length_app, Hl in *.
  destruct (prepare (length (sent w) + n)) as [r|e] eqn:Ep.
  - exists n, (reqs ++ [r]), (interpret (answer_at w n)).
    cbn [send answers sent] in *. rewrite length_app, Hl in *. rewrite app_assoc.
    split_and!; [done|done| |done|].
    + apply Forall_app. split; [done|]. repeat constructor. eauto.
    + rewrite Ep. split_and!; [cbn; lia|done|].
      intros (e & He & Hre). by apply (Hlast e).
  - exists n, reqs, (Err e). rewrite Ep. done.
Qed.

End Exchange.

(** * The clients' retries *)

Section Clients.
Context `{JR : JsonRead} `{JN : !JsonNull} `{AC : !AnthropicClientJson} `{OC : !OpenAIClientJson}.
Context (apply_auth : nat -> result string (list (string * string))).

Definition anthropic_prepare (c : AnthropicClient) (r : AnthropicRequest) (n : nat)
    : result ClientError AnthropicHttp :=
  match apply_auth n with
  | Err e => Err (mkClientError ("Auth error: " +:+ e) false Permanent)
  | Ok headers =>
      Ok (mkAnthropicHttp (messages_url c)
            (("anthropic-version", ANTHROPIC_VERSION) :: ("content-type", "application/json")
               :: headers) r)
  end.

Lemma anthropic_exchange_retried c r w :
  exists n reqs last,
    retry (ac_retry_config c) asleep (send_request apply_auth c r) w =
      Some (last, mkNetwork (answers w) (sent w ++ reqs)) /\
    n < retry_bound (ac_retry_config c) /\
    Forall (fun h => ah_url h = messages_url c /\ ah_body h = r) reqs /\
    (forall k, k < n -> transient_answer (answer_at w k) = true) /\
    match apply_auth (length (sent w) + n) with
    | Err e => length reqs = n /\ last = Err (mkClientError ("Auth error: " +:+ e) false Permanent)
    | Ok _ => length reqs = S n /\ last = anthropic_answer (answer_at w n) /\
              (transient_answer (answer_at w n) = true -> S n = retry_bound (ac_retry_config c))
    end.
Proof.
  destruct (exchange_retried (ac_retry_config c) (anthropic_prepare c r) anthropic_answer)
    with (w := w) as (n & reqs & last & Hr & Hn & Hreqs & Hk & Hl).
  { intros k e. unfold anthropic_prepare. destruct (apply_auth k); [done|]. by intros [= <-]. }
  exists n, reqs, last. split_and!; [|done| | |].
  - rewrite <- Hr. apply retry_ext. intros w'. unfold send_request, exchange, anthropic_prepare.
    by destruct (apply_auth (length (sent w'))).
  - eapply Forall_impl; [exact Hreqs|]. intros h [k Hh]. unfold anthropic_prepare in Hh.
    destruct (apply_auth k); [|done]. by injection Hh as <-.
  - intros k Hlt. by apply anthropic_answer_transient, Hk.
  - unfold anthropic_prepare in Hl. destruct (apply_auth (length (sent w) + n)); [|done].
    destruct Hl as (? & ? & H). split_and!; [done..|]. intros Ht. by apply H, anthropic_answer_transient.
Qed.

Lemma openai_exchange_retried c request w :
  exists n, n < retry_bound (oa_retry_config c) /\
    retry (oa_retry_config c) asleep (openai_attempt c request) w =
      Some (openai_interpret (answer_at w n),
            mkNetwork (answers w) (sent w ++ replicate (S n) (build_request c request false))) /\
    (forall k, k < n -> openai_transient (answer_at w k) = true) /\
    (openai_transient (answer_at w n) = true -> S n = retry_bound (oa_retry_config c)).
Proof.
  destruct (exchange_retried (oa_retry_config c)
    (fun _ => Ok (build_request c request false)) openai_interpret ltac:(done) w)
    as (n & reqs & last & Hr & Hn & Hreqs & Hk & Hl & -> & Hlast).
  exists n. split_and!; [done| | |].
  - replace (replicate (S n) (build_request c request false)) with reqs; [exact Hr|].
    rewrite <- Hl. clear -Hreqs. induction Hreqs as [|r reqs [k [= <-]] H IH]; [done|].
    cbn [length replicate]. by rewrite <- IH.
  - intros k Hlt. by apply openai_interpret_transient, Hk.
  - intros Ht. by apply Hlast, openai_interpret_transient.
Qed.

(** C23. A completion sends its request again exactly while the answers are
    transient, at most [max_attempts] times in all and always the same request,
    and ends with what the last answer means: Anthropic's client repeats after
    timeouts, failed connections and the statuses 408, 429 (unless it is the
    quota), 500, 502, 503 and 504, OpenAI's after failed requests and 429. *)
Theorem clients_retry_transient c request w c' w' :
  (exists n reqs last,
     anthropic_complete apply_auth c request w =
       Some (anthropic_finish last, mkNetwork (answers w) (sent w ++ reqs)) /\
     n < retry_bound (ac_retry_config c) /\
     Forall (fun h => ah_url h = messages_url c /\ ah_body h = anthropic_request c request false) reqs /\
     (forall k, k < n -> transient_answer (answer_at w k) = true) /\
     match apply_auth (length (sent w) + n) with
     | Err e => length reqs = n /\ last = Err (mkClientError ("Auth error: " +:+ e) false Permanent)
     | Ok _ => length reqs = S n /\ last = anthropic_answer (answer_at w n) /\
               (transient_answer (answer_at w n) = true -> S n = retry_bound (ac_retry_config c))
     end) /\
  (exists n, n < retry_bound (oa_retry_config c') /\
     openai_complete c' request w' =
       Some (openai_finish (openai_interpret (answer_at w' n)),
             mkNetwork (answers w') (sent w' ++ replicate (S n) (build_request c' request false))) /\
     (forall k, k < n -> openai_transient (answer_at w' k) = true) /\
     (openai_transient (answer_at w' n) = true -> S n = retry_bound (oa_retry_config c'))).
Proof.
  split.
  - destruct (anthropic_exchange_retried c (anthropic_request c request false) w)
      as (n & reqs & last & Hr & Hrest). exists n, reqs, last. split; [|done].
    unfold anthropic_complete, anthropic_exchange. by rewrite Hr.
  - destruct (openai_exchange_retried c' request w') as (n & Hn & Hr & Hrest).
    exists n. split; [done|]. split; [|done]. unfold openai_complete. by rewrite Hr.
Qed.

(** The statuses of the configuration play no part: OpenAI's client does not
    repeat a request after a server error. *)
Lemma openai_server_errors_final status ra b :
  status ∈ [408; 500; 502; 503; 504]%Z -> openai_transient (A_Response status ra b) = false.
Proof.
  rewrite !elem_of_cons, elem_of_nil. by intros [->|[->|[->|[->|[->|[]]]]]].
Qed.

End Clients.

(** The pool decides by the text of the error, where its kind is lost: the key
    Anthropic answers is invalid is a permanent error for the client, not for
    the pool. *)
Lemma invalid_key_not_recognized :
  classify_error 401 "invalid x-api-key" = Permanent /\
  is_permanent_auth_message (LlmError_to_string (LlmError_from
    (mkClientError "invalid x-api-key" false Permanent))) = false /\
  is_quota_message (LlmError_to_string (LlmError_from
    (mkClientError "invalid x-api-key" false Permanent))) = false.
Proof. done. Qed.
