(* ===== verification/SourceMap.v ===== *)
(** Crash symbolication, [crates/loom-crash-symbolicate]: the Base64 VLQ decoder
    and the lookup in decoded mappings (vlq.rs), source maps and source context
    (sourcemap.rs).  [i32] and [u32] arithmetic is kept at its width in both
    build profiles. *)
From stdpp Require Import base list strings.
From Stdlib Require Import ZArith Ascii.
From S2P Require Import Prelude Text.

Local Open Scope Z_scope.

(** ** error.rs: library errors are their messages *)
Inductive SymbolicateError :=
| InvalidSourceMapJson (message : string)
| InvalidSourceMapVersion (v : Z)
| InvalidVlqChar (ch : ascii)
| InvalidSourceIndex (i : Z)
| InvalidNameIndex (i : Z)
| MissingField (name : string)
| NoMappingFound (line column : Z)
| SymbolicateIo (message : string).

(** ** vlq.rs *)
Definition BASE64_CHARS : list ascii :=
  String.list_ascii_of_string "ABCDEFGHIJKLMNOPQRSTUVWXYZabcdefghijklmnopqrstuvwxyz0123456789+/".

Definition decode_char (ch : ascii) : result SymbolicateError Z :=
  match position (fun c => bool_decide (c = ch)) BASE64_CHARS with
  | Some pos => Ok (Z.of_nat pos)
  | None => Err (InvalidVlqChar ch)
  end.

(** [a << shift] on [i32]: bits shifted out are lost; a shift of 32 or more
    panics, or is taken modulo 32 without overflow checks. *)
Definition shl_i32 (oc : bool) (a shift : Z) : run Z :=
  if (0 <=? shift) && (shift <? 32) then Done (wrap_i32 (Z.shiftl a shift))
  else if oc then Panic else Done (wrap_i32 (Z.shiftl a (shift mod 32))).

(** [-a] on [i32]. *)
Definition neg_i32 (oc : bool) (a : Z) : run Z := arith oc wrap_i32 (- a).

(** The loop over the bytes of a segment. *)
Fixpoint vlq_loop (oc : bool) (s : string) (values : list Z) (value shift : Z)
    : run (result SymbolicateError (list Z)) :=
  match s with
  | EmptyString => Done (Ok values)
  | String ch s =>
      match decode_char ch with
      | Err e => Done (Err e)
      | Ok digit =>
          let continuation := negb (Z.land digit 32 =? 0) in
          let digit_value := Z.land digit 31 in
          shifted ← shl_i32 oc digit_value shift;
          value ← add_i32 oc value shifted;
          shift ← add_i32 oc shift 5;
          if continuation then vlq_loop oc s values value shift
          else
            let negated := negb (Z.land value 1 =? 0) in
            let value := Z.shiftr value 1 in
            value ← (if negated then neg_i32 oc value else Done value);
            vlq_loop oc s (values ++ [value]) 0 0
      end
  end.

Definition decode_vlq_segment (oc : bool) (segment : string)
    : run (result SymbolicateError (list Z)) :=
  vlq_loop oc segment [] 0 0.

Record Mapping := mkMapping {
  generated_line : Z;
  generated_column : Z;
  source_index : Z;
  original_line : Z;
  original_column : Z;
  name_index : option Z;
}.

(** [slice::partition_point]: the binary search of the standard library. *)
Fixpoint partition_search {A} (fuel : nat) (pred : A -> bool) (l : list A) (base size : nat) : nat :=
  match fuel with
  | O => base
  | S fuel =>
      if (size <=? 1)%nat then base
      else
        let half := (size / 2)%nat in
        let mid := (base + half)%nat in
        let base := match l !! mid with
                    | Some x => if pred x then mid else base
                    | None => base
                    end in
        partition_search fuel pred l base (size - half)
  end.

Definition partition_point {A} (pred : A -> bool) (l : list A) : nat :=
  match l with
  | [] => 0%nat
  | _ =>
      let base := partition_search (length l) pred l 0 (length l) in
      match l !! base with
      | Some x => if pred x then S base else base
      | None => base
      end
  end.

(** [DecodedMappings::find]. *)
Definition find (mappings : list Mapping) (line column : Z) : option Mapping :=
  let line_start := partition_point (fun m => generated_line m <? line) mappings in
  let line_end := partition_point (fun m => generated_line m <=? line) mappings in
  if (line_end <=? line_start)%nat then None
  else
    let line_mappings := take (line_end - line_start) (drop line_start mappings) in
    let idx := partition_point (fun m => generated_column m <=? column) line_mappings in
    match idx with
    | O => None
    | S i => line_mappings !! i
    end.

(** The variables carried from segment to segment. *)
Record DecodeState := mkDecodeState {
  prev_source : Z;
  prev_original_line : Z;
  prev_original_column : Z;
  prev_name : Z;
}.

(** The source fields of a segment with four or more values. *)
Definition decode_source (oc : bool) (gen_line gen_col v1 v2 v3 : Z) (more : list Z)
    (st : DecodeState) : run (DecodeState * Mapping) :=
  src ← add_i32 oc (prev_source st) v1;
  ol ← add_i32 oc (prev_original_line st) v2;
  ocol ← add_i32 oc (prev_original_column st) v3;
  '(name, name_index) ←
    match more with
    | v4 :: _ => name ← add_i32 oc (prev_name st) v4; Done (name, Some (wrap_u32 name))
    | [] => Done (prev_name st, None)
    end;
  Done (mkDecodeState src ol ocol name,
        mkMapping gen_line (wrap_u32 gen_col) (wrap_u32 src) (wrap_u32 ol) (wrap_u32 ocol) name_index).

(** The loop over the segments of a line. *)
Fixpoint decode_segments (oc : bool) (gen_line : Z) (segments : list string) (gen_col : Z)
    (st : DecodeState) (acc : list Mapping)
    : run (result SymbolicateError (DecodeState * list Mapping)) :=
  match segments with
  | [] => Done (Ok (st, acc))
  | segment :: segments =>
      if bool_decide (segment = EmptyString) then decode_segments oc gen_line segments gen_col st acc
      else
        values ← decode_vlq_segment oc segment;
        match values with
        | Err e => Done (Err e)
        | Ok [] => decode_segments oc gen_line segments gen_col st acc
        | Ok (v0 :: rest) =>
            gen_col ← add_i32 oc gen_col v0;
            match rest with
            | v1 :: v2 :: v3 :: more =>
                '(st, mapping) ← decode_source oc gen_line gen_col v1 v2 v3 more st;
                decode_segments oc gen_line segments gen_col st (acc ++ [mapping])
            | _ => decode_segments oc gen_line segments gen_col st acc
            end
        end
  end.

(** The loop over the lines. *)
Fixpoint decode_lines (oc : bool) (lines : list string) (gen_line : Z) (st : DecodeState)
    (acc : list Mapping) : run (result SymbolicateError (list Mapping)) :=
  match lines with
  | [] => Done (Ok acc)
  | line :: lines =>
      decoded ← decode_segments oc gen_line (split_on ","%char line) 0 st acc;
      match decoded with
      | Err e => Done (Err e)
      | Ok (st, acc) =>
          gen_line ← add_u32 oc gen_line 1;
          decode_lines oc lines gen_line st acc
      end
  end.

Definition decode_vlq_mappings (oc : bool) (mappings : string)
    : run (result SymbolicateError (list Mapping)) :=
  decode_lines oc (split_on ";"%char mappings) 0 (mkDecodeState 0 0 0 0) [].

(** ** sourcemap.rs *)
Record RawSourceMap := mkRaw {
  raw_version : Z;
  raw_file : option string;
  raw_source_root : option string;
  raw_sources : list string;
  raw_sources_content : option (list (option string));
  raw_names : list string;
  raw_mappings : string;
}.

Record ParsedSourceMap := mkParsed {
  version : Z;
  file : option string;
  source_root : option string;
  sources : list string;
  sources_content : list (option string);
  names : list string;
  mappings : list Mapping;
}.

Record OriginalPosition := mkPosition {
  op_source : string;
  op_line : Z;
  op_column : Z;
  op_name : option string;
  op_source_content : option string;
}.

(** [ParsedSourceMap::from_bytes] on what [serde_json] makes of the bytes. *)
Definition from_bytes (oc : bool) (parsed : result string RawSourceMap)
    : run (result SymbolicateError ParsedSourceMap) :=
  match parsed with
  | Err e => Done (Err (InvalidSourceMapJson e))
  | Ok raw =>
      if negb (raw_version raw =? 3) then Done (Err (InvalidSourceMapVersion (raw_version raw)))
      else
        decoded ← decode_vlq_mappings oc (raw_mappings raw);
        Done match decoded with
             | Err e => Err e
             | Ok ms => Ok (mkParsed (raw_version raw) (raw_file raw) (raw_source_root raw)
                              (raw_sources raw) (default [] (raw_sources_content raw))
                              (raw_names raw) ms)
             end
  end.

(** [trim_end_matches('/')]. *)
Fixpoint trim_end_slash (s : string) : string :=
  match s with
  | EmptyString => EmptyString
  | String c s =>
      match trim_end_slash s with
      | EmptyString => if bool_decide (c = "/"%char) then EmptyString else String c EmptyString
      | t => String c t
      end
  end.

Definition resolve_source_path (sm : ParsedSourceMap) (source : string) : string :=
  match source_root sm with
  | Some root => if bool_decide (root = EmptyString) then source
                 else trim_end_slash root +:+ "/" +:+ source
  | None => source
  end.

(** Indexing by a [u32] converted to [usize]. *)
Definition get_u32 {A} (l : list A) (i : Z) : option A := l !! Z.to_nat i.

Definition lookup (oc : bool) (sm : ParsedSourceMap) (line column : Z)
    : run (result SymbolicateError (option OriginalPosition)) :=
  let line_0indexed := Z.max 0 (line - 1) in
  match find (mappings sm) line_0indexed column with
  | None => Done (Ok None)
  | Some m =>
      match get_u32 (sources sm) (source_index m) with
      | None => Done (Err (InvalidSourceIndex (source_index m)))
      | Some source =>
          let content := c ← get_u32 (sources_content sm) (source_index m); c in
          let name := idx ← name_index m; get_u32 (names sm) idx in
          display_line ← add_u32 oc (original_line m) 1;
          Done (Ok (Some (mkPosition (resolve_source_path sm source) display_line
                            (original_column m) name content)))
      end
  end.

Definition extract_context (oc : bool) (source_content : string) (line context_lines : Z)
    : run (list string * string * list string) :=
  let lines := str_lines source_content in
  let len := Z.of_nat (length lines) in
  let line_idx := Z.max 0 (line - 1) in
  match lines !! Z.to_nat line_idx with
  | None => Done ([], "", [])
  | Some context_line =>
      let pre_start := Z.max 0 (line_idx - context_lines) in
      let pre := take (Z.to_nat (line_idx - pre_start)) (drop (Z.to_nat pre_start) lines) in
      next ← add_u64 oc line_idx 1;
      last ← add_u64 oc next context_lines;
      let post_end := Z.min last len in
      if post_end <? next then Panic
      else Done (pre, context_line,
                 take (Z.to_nat (post_end - next)) (drop (Z.to_nat next) lines))
  end.

(** * Binary search *)

(** [pred] holds exactly on the first [k] elements. *)
Definition partitioned {A} (pred : A -> bool) (l : list A) (k : nat) : Prop :=
  (k <= length l)%nat /\ forall i x, l !! i = Some x -> pred x = (i <? k)%nat.

Lemma antitone_partitioned {A} (pred : A -> bool) (l : list A) :
  (forall i j a b, (i < j)%nat -> l !! i = Some a -> l !! j = Some b ->
     pred b = true -> pred a = true) ->
  exists k, partitioned pred l k.
Proof.
  induction l as [|x l IH]; intros Hl; [by exists 0%nat|].
  destruct IH as (k & Hk & Hpart).
  { intros i j a b Hij Ha Hb. apply (Hl (S i) (S j)); [lia|done..]. }
  destruct (pred x) eqn:Hx.
  - exists (S k). split; [cbn; lia|]. intros [|i] y Hy; cbn in Hy.
    + by injection Hy as <-.
    + rewrite (Hpart i y Hy). done.
  - exists 0%nat. split; [cbn; lia|]. intros [|i] y Hy.
    + by injection Hy as <-.
    + destruct (pred y) eqn:E; [|done]. by rewrite (Hl 0%nat (S i) x y ltac:(lia) eq_refl Hy E) in Hx.
Qed.

Lemma partition_search_spec {A} (pred : A -> bool) l k fuel base size :
  partitioned pred l k -> (size <= fuel)%nat -> (1 <= size)%nat -> (base + size <= length l)%nat ->
  base = 0%nat \/ (base < k)%nat -> (k <= base + size)%nat ->
  let r := partition_search fuel pred l base size in
  (r < length l)%nat /\ (r = 0%nat \/ (r < k)%nat) /\ (k <= r + 1)%nat.
Proof.
  intros [Hk Hp]. revert base size.
  induction fuel as [|fuel IH]; intros base size Hf Hs Hb Hlow Hhigh; cbn; [lia|].
  destruct (Nat.leb_spec size 1); [lia|].
  assert (1 <= size / 2 /\ size / 2 < size)%nat as [? ?].
  { split; [apply Nat.div_le_lower_bound; lia|apply Nat.div_lt; lia]. }
  pose proof (Nat.Div0.mul_div_le size 2) as Hhalf.
  destruct (lookup_lt_is_Some_2 l (base + size / 2)) as [x Hx]; [lia|].
  change (l !! (base + fst (Nat.divmod size 1 0 1))%nat) with (l !! (base + size / 2)%nat).
  rewrite Hx, (Hp _ _ Hx).
  change (fst (Nat.divmod size 1 0 1)) with (size / 2)%nat.
  destruct (Nat.ltb_spec (base + size / 2) k); apply IH; lia.
Qed.

Lemma partition_point_spec {A} (pred : A -> bool) l k :
  partitioned pred l k -> partition_point pred l = k.
Proof.
  intros Hpart. pose proof Hpart as [Hk Hp]. destruct l as [|y l']; [cbn in *; lia|].
  unfold partition_point. set (l := y :: l') in *.
  destruct (partition_search_spec pred l k (length l) 0 (length l) Hpart) as (Hr & Hlow & Hhigh);
    [done|cbn; lia|done|by left|done|].
  set (r := partition_search _ _ _ _ _) in *.
  destruct (lookup_lt_is_Some_2 l r Hr) as [x Hx]. rewrite Hx, (Hp _ _ Hx).
  destruct (Nat.ltb_spec r k); lia.
Qed.

(** * Lookup *)

(** Ordered by generated line, then generated column. *)
Definition mappings_sorted (ms : list Mapping) : Prop :=
  forall i j a b, (i < j)%nat -> ms !! i = Some a -> ms !! j = Some b ->
    generated_line a < generated_line b \/
    generated_line a = generated_line b /\ generated_column a <= generated_column b.

Lemma sorted_line_pred ms (p : Z -> bool) :
  mappings_sorted ms -> (forall a b, a <= b -> p b = true -> p a = true) ->
  exists k, partitioned (fun m => p (generated_line m)) ms k.
Proof.
  intros Hs Hp. apply antitone_partitioned. intros i j a b Hij Ha Hb.
  apply Hp. destruct (Hs i j a b Hij Ha Hb); lia.
Qed.

(** The mapping in force at a position: the last one of the line that does not
    start after the column. *)
Definition in_force (ms : list Mapping) (line column : Z) (m : Mapping) : Prop :=
  exists i, ms !! i = Some m /\ generated_line m = line /\ generated_column m <= column /\
    forall j m', (i < j)%nat -> ms !! j = Some m' -> generated_line m' = line ->
      column < generated_column m'.

Lemma find_correct ms line column m :
  mappings_sorted ms -> find ms line column = Some m <-> in_force ms line column m.
Proof.
  intros Hs. unfold find.
  destruct (sorted_line_pred ms (fun l => l <? line) Hs) as (s & Hps);
    [intros ??; rewrite !Z.ltb_lt; lia|].
  destruct (sorted_line_pred ms (fun l => l <=? line) Hs) as (e & Hpe);
    [intros ??; rewrite !Z.leb_le; lia|].
  rewrite (partition_point_spec _ _ _ Hps), (partition_point_spec _ _ _ Hpe).
  destruct Hps as [Hs1 Hs2], Hpe as [He1 He2].
  assert (Hline : forall i x, ms !! i = Some x -> generated_line x = line <-> (s <= i < e)%nat).
  { intros i x Hx. specialize (Hs2 i x Hx). specialize (He2 i x Hx). cbv beta in Hs2, He2.
    destruct (Z.ltb_spec (generated_line x) line), (Z.leb_spec (generated_line x) line),
      (Nat.ltb_spec i s), (Nat.ltb_spec i e); try done; lia. }
  destruct (Nat.leb_spec e s) as [Hes|Hes].
  { split; [done|]. intros (i & Hi & Hl & _). apply (Hline i m Hi) in Hl. lia. }
  set (lm := take (e - s) (drop s ms)).
  assert (Hlm : forall i x, lm !! i = Some x <-> ms !! (s + i)%nat = Some x /\ (i < e - s)%nat).
  { intros i x. unfold lm. rewrite lookup_take_Some, lookup_drop. done. }
  destruct (antitone_partitioned (fun m => generated_column m <=? column) lm) as (k & Hpk).
  { intros i j a b Hij [Ha Hi]%Hlm [Hb Hj]%Hlm. rewrite !Z.leb_le.
    pose proof (proj2 (Hline _ _ Ha) ltac:(lia)). pose proof (proj2 (Hline _ _ Hb) ltac:(lia)).
    destruct (Hs (s + i)%nat (s + j)%nat a b ltac:(lia) Ha Hb); lia. }
  rewrite (partition_point_spec _ _ _ Hpk). destruct Hpk as [Hk1 Hk2].
  assert (Hcol : forall i x, ms !! i = Some x -> generated_line x = line ->
    generated_column x <= column <-> (i - s < k)%nat).
  { intros i x Hx Hl. apply (Hline i x Hx) in Hl.
    assert (lm !! (i - s)%nat = Some x) as Hi.
    { apply Hlm. split; [|lia]. by replace (s + (i - s))%nat with i by lia. }
    rewrite <-Z.leb_le, (Hk2 _ _ Hi). apply Nat.ltb_lt. }
  destruct k as [|k].
  { split; [done|]. intros (i & Hi & Hl & Hc & _). apply (Hcol i m Hi Hl) in Hc. lia. }
  split.
  - intros [Hm Hlt]%Hlm. exists (s + k)%nat. split; [done|].
    assert (generated_line m = line) as Hl by (apply (Hline _ _ Hm); lia).
    split; [done|]. split; [apply (Hcol _ _ Hm Hl); lia|].
    intros j m' Hj Hm' Hl'. apply Z.nle_gt. intros Hc%(Hcol _ _ Hm' Hl'). lia.
  - intros (i & Hi & Hl & Hc & Hmax).
    pose proof (proj1 (Hline _ _ Hi) Hl) as Hr. apply (Hcol i m Hi Hl) in Hc.
    assert (i = s + k)%nat as ->; [|apply Hlm; split; [done|lia]].
    destruct (decide (i < s + k)%nat) as [Hlt|]; [|lia]. exfalso.
    assert (k < length lm)%nat as Hkl by lia.
    apply lookup_lt_is_Some_2 in Hkl as [m' [Hm' Hk']%Hlm].
    assert (generated_line m' = line) as Hl' by (apply (Hline _ _ Hm'); lia).
    specialize (Hmax (s + k)%nat m' Hlt Hm' Hl').
    pose proof (proj2 (Hcol _ _ Hm' Hl') ltac:(lia)). lia.
Qed.

(** * A reference encoder

    Source map version 3: the sign is the lowest bit, digits of five bits with
    the least significant first, 32 added to every digit but the last. *)
Definition vlq_sign (v : Z) : Z := if v <? 0 then 2 * (- v) + 1 else 2 * v.

Definition base64_char (d : Z) : ascii := default "A"%char (BASE64_CHARS !! Z.to_nat d).

Fixpoint vlq_digits (fuel : nat) (n : Z) : string :=
  match fuel with
  | O => EmptyString
  | S fuel =>
      if n <? 32 then String (base64_char n) EmptyString
      else String (base64_char (n mod 32 + 32)) (vlq_digits fuel (n / 32))
  end.

(** Seven digits hold 35 bits, more than any value below. *)
Definition encode_value (v : Z) : string := vlq_digits 7 (vlq_sign v).

Fixpoint encode_values (vs : list Z) : string :=
  match vs with
  | [] => EmptyString
  | v :: vs => encode_value v +:+ encode_values vs
  end.

(** A property of the 64 digits, by evaluation. *)
Lemma digits_forall (P : Z -> bool) :
  forallb P (seqZ 0 64) = true -> forall d, 0 <= d < 64 -> P d = true.
Proof.
  rewrite forallb_spec, Forall_forall. intros H d Hd. apply H, elem_of_seqZ. lia.
Qed.

Lemma decode_base64_char d : 0 <= d < 64 -> decode_char (base64_char d) = Ok d.
Proof.
  intros Hd.
  pose proof (digits_forall (fun d => match decode_char (base64_char d) with
    | Ok x => x =? d | Err _ => false end) ltac:(vm_compute; reflexivity) d Hd) as H.
  cbv beta in H. destruct (decode_char _); [|done]. f_equal. by apply Z.eqb_eq.
Qed.

Lemma digit_bits d :
  0 <= d < 64 -> Z.land d 31 = d mod 32 /\ (Z.land d 32 =? 0) = (d <? 32).
Proof.
  intros Hd.
  pose proof (digits_forall (fun d => (Z.land d 31 =? d mod 32) &&
    Bool.eqb (Z.land d 32 =? 0) (d <? 32)) ltac:(vm_compute; reflexivity) d Hd) as H.
  cbv beta in H. apply andb_true_iff in H as [H1%Z.eqb_eq H2%eqb_prop]. done.
Qed.

Lemma shl_i32_fits oc a shift :
  0 <= a -> 0 <= shift < 32 -> a * 2 ^ shift < 2 ^ 31 -> shl_i32 oc a shift = Done (a * 2 ^ shift).
Proof.
  intros Ha Hs Hfit. unfold shl_i32. rewrite (proj2 (Z.leb_le _ _)), (proj2 (Z.ltb_lt _ _)) by lia.
  cbn [andb]. rewrite Z.shiftl_mul_pow2 by lia. rewrite wrap_i32_id; [done|].
  unfold i32_ok. pose proof (Z.pow_nonneg 2 shift). nia.
Qed.

(** What the loop does with a complete number. *)
Definition finish_value (oc : bool) (value : Z) : run Z :=
  if negb (Z.land value 1 =? 0) then neg_i32 oc (Z.shiftr value 1) else Done (Z.shiftr value 1).

(** One digit of the loop, when nothing overflows. *)
Lemma vlq_loop_digit oc d rest values value shift :
  0 <= d < 64 -> 0 <= value -> 0 <= shift < 32 -> value + (d mod 32) * 2 ^ shift < 2 ^ 31 ->
  vlq_loop oc (String (base64_char d) rest) values value shift =
  if d <? 32 then
    v ← finish_value oc (value + (d mod 32) * 2 ^ shift); vlq_loop oc rest (values ++ [v]) 0 0
  else vlq_loop oc rest values (value + (d mod 32) * 2 ^ shift) (shift + 5).
Proof.
  intros Hd Hv Hs Hfit. pose proof (Z.mod_pos_bound d 32 ltac:(lia)) as Hm.
  pose proof (Z.pow_pos_nonneg 2 shift ltac:(lia) ltac:(lia)) as Hp.
  destruct (digit_bits d Hd) as [H31 H32].
  cbn [vlq_loop]. rewrite decode_base64_char, H31, H32 by done.
  rewrite shl_i32_fits by nia. cbn [mbind run_bind].
  rewrite add_i32_fits by (unfold i32_ok; nia). cbn [mbind run_bind].
  rewrite add_i32_fits by (unfold i32_ok; lia). cbn [mbind run_bind].
  by destruct (d <? 32).
Qed.

Lemma vlq_loop_digits oc fuel n rest values value shift :
  0 <= n -> n < 32 ^ Z.of_nat (S fuel) -> 0 <= value -> 0 <= shift <= 30 ->
  value + n * 2 ^ shift < 2 ^ 31 ->
  vlq_loop oc (vlq_digits (S fuel) n +:+ rest) values value shift =
  (v ← finish_value oc (value + n * 2 ^ shift); vlq_loop oc rest (values ++ [v]) 0 0).
Proof.
  revert n value shift. induction fuel as [|fuel IH]; intros n value shift Hn Hfuel Hv Hs Hfit;
    rewrite Nat2Z.inj_succ, Z.pow_succ_r in Hfuel by lia; cbn [vlq_digits];
    pose proof (Z.pow_pos_nonneg 2 shift ltac:(lia) ltac:(lia)) as Hp;
    destruct (Z.ltb_spec n 32) as [Hlt|Hge]; rewrite append_cons.
  1, 3: pose proof (Z.mod_small n 32 ltac:(lia)) as Hmod;
    rewrite append_nil, vlq_loop_digit; rewrite ?Hmod; [|lia|done|lia|done];
    by rewrite (proj2 (Z.ltb_lt _ _) Hlt).
  - cbn in Hfuel. lia.
  - pose proof (Z.mod_pos_bound n 32 ltac:(lia)) as Hm.
    pose proof (Z.div_mod n 32 ltac:(lia)) as Hdm.
    assert (Hmod : (n mod 32 + 32) mod 32 = n mod 32).
    { replace (n mod 32 + 32) with (n mod 32 + 1 * 32) by lia. rewrite Z.mod_add by lia.
      by apply Z.mod_small. }
    assert (shift + 5 < 31).
    { apply (Z.pow_lt_mono_r_iff 2); [lia|lia|]. rewrite Z.pow_add_r by lia. nia. }
    rewrite vlq_loop_digit; rewrite ?Hmod; [|lia|done|lia|nia].
    rewrite (proj2 (Z.ltb_ge _ _)) by lia.
    change (if n / 32 <? 32 then String (base64_char (n / 32)) ""
            else String (base64_char ((n / 32) mod 32 + 32)) (vlq_digits fuel (n / 32 / 32)))
      with (vlq_digits (S fuel) (n / 32)).
    rewrite IH; [|apply Z.div_pos; lia| |nia|lia|].
    + rewrite Z.pow_add_r by lia. do 2 f_equal. nia.
    + apply Z.div_lt_upper_bound; [lia|done].
    + rewrite Z.pow_add_r by lia. nia.
Qed.

Lemma finish_vlq_sign oc v : Z.abs v < 2 ^ 30 -> finish_value oc (vlq_sign v) = Done v.
Proof.
  intros Hv. unfold finish_value, vlq_sign.
  assert (Hland : forall a, Z.land a 1 = a mod 2).
  { intros a. exact (Z.land_ones a 1 ltac:(lia)). }
  rewrite Hland, Z.shiftr_div_pow2 by lia. change (2 ^ 1) with 2.
  destruct (Z.ltb_spec v 0).
  - replace (2 * - v + 1) with (1 + (- v) * 2) by lia.
    rewrite Z.mod_add, Z.div_add by lia. change (1 mod 2) with 1. change (1 / 2) with 0.
    cbn [Z.eqb negb]. unfold neg_i32. replace (- (0 + - v)) with v by lia.
    rewrite arith_fits; [done|]. apply wrap_i32_id. unfold i32_ok. lia.
  - replace (2 * v) with (0 + v * 2) by lia. rewrite Z.mod_add, Z.div_add by lia. done.
Qed.

Lemma vlq_loop_value oc v rest values :
  Z.abs v < 2 ^ 30 ->
  vlq_loop oc (encode_value v +:+ rest) values 0 0 = vlq_loop oc rest (values ++ [v]) 0 0.
Proof.
  intros Hv. assert (0 <= vlq_sign v < 2 ^ 31) by (unfold vlq_sign; case_match; lia).
  unfold encode_value. rewrite vlq_loop_digits; [|lia|cbn; lia|lia|lia|lia].
  rewrite Z.add_0_l, Z.mul_1_r, finish_vlq_sign by done. done.
Qed.

Lemma decode_encode_values oc vs :
  Forall (fun v => Z.abs v < 2 ^ 30) vs -> decode_vlq_segment oc (encode_values vs) = Done (Ok vs).
Proof.
  unfold decode_vlq_segment. change vs with ([] ++ vs) at 3. generalize (@nil Z) as acc.
  intros acc Hvs. revert acc. induction Hvs as [|v vs Hv Hvs IH]; intros acc.
  - cbn. by rewrite app_nil_r.
  - cbn [encode_values]. rewrite vlq_loop_value by done. rewrite IH. by rewrite <-app_assoc.
Qed.

(** ** Whole mapping strings *)

(** A segment with absolute positions: generated column and, where it has one,
    the source position (source, line, column) with an optional name. *)
Record Segment := mkSegment {
  seg_column : Z;
  seg_source : option (Z * Z * Z * option Z);
}.

Definition next_state (st : DecodeState) (seg : Segment) : DecodeState :=
  match seg_source seg with
  | None => st
  | Some (src, ol, ocol, name) =>
      mkDecodeState src ol ocol (match name with Some n => n | None => prev_name st end)
  end.

Definition segment_values (col : Z) (st : DecodeState) (seg : Segment) : list Z :=
  (seg_column seg - col) ::
  match seg_source seg with
  | None => []
  | Some (src, ol, ocol, name) =>
      [src - prev_source st; ol - prev_original_line st; ocol - prev_original_column st] ++
      match name with Some n => [n - prev_name st] | None => [] end
  end.

Fixpoint encode_segments (col : Z) (st : DecodeState) (segs : list Segment) : list string :=
  match segs with
  | [] => []
  | seg :: segs =>
      encode_values (segment_values col st seg) ::
      encode_segments (seg_column seg) (next_state st seg) segs
  end.

Fixpoint encode_lines (st : DecodeState) (lines : list (list Segment)) : list string :=
  match lines with
  | [] => []
  | segs :: lines =>
      join_with ","%char (encode_segments 0 st segs) :: encode_lines (foldl next_state st segs) lines
  end.

Definition encode_mappings (lines : list (list Segment)) : string :=
  join_with ";"%char (encode_lines (mkDecodeState 0 0 0 0) lines).

Definition segment_mapping (line : Z) (seg : Segment) : option Mapping :=
  '(src, ol, ocol, name) ← seg_source seg;
  Some (mkMapping line (seg_column seg) src ol ocol name).

Fixpoint mappings_of (line : Z) (lines : list (list Segment)) : list Mapping :=
  match lines with
  | [] => []
  | segs :: lines => omap (segment_mapping line) segs ++ mappings_of (line + 1) lines
  end.

Definition field_ok (z : Z) : Prop := 0 <= z < 2 ^ 30.

Definition segment_ok (seg : Segment) : Prop :=
  field_ok (seg_column seg) /\
  match seg_source seg with
  | None => True
  | Some (src, ol, ocol, name) =>
      field_ok src /\ field_ok ol /\ field_ok ocol /\
      match name with Some n => field_ok n | None => True end
  end.

Definition state_ok (st : DecodeState) : Prop :=
  field_ok (prev_source st) /\ field_ok (prev_original_line st) /\
  field_ok (prev_original_column st) /\ field_ok (prev_name st).

Lemma next_state_ok st seg : state_ok st -> segment_ok seg -> state_ok (next_state st seg).
Proof.
  intros (? & ? & ? & ?) [_ Hs]. unfold next_state.
  destruct (seg_source seg) as [[[[src ol] ocol] [n|]]|]; unfold state_ok; cbn; tauto.
Qed.

Lemma foldl_next_state_ok st segs :
  state_ok st -> Forall segment_ok segs -> state_ok (foldl next_state st segs).
Proof.
  intros Hst Hsegs. revert st Hst. induction Hsegs; intros st Hst; cbn; auto using next_state_ok.
Qed.

Lemma segment_values_small col st seg :
  field_ok col -> state_ok st -> segment_ok seg ->
  Forall (fun v => Z.abs v < 2 ^ 30) (segment_values col st seg).
Proof.
  unfold state_ok, segment_ok, field_ok, segment_values. intros Hcol Hst [Hc Hs].
  constructor; [lia|].
  destruct (seg_source seg) as [[[[src ol] ocol] [n|]]|]; repeat constructor; lia.
Qed.

Lemma encode_value_cons v : exists c s, encode_value v = String c s.
Proof. unfold encode_value. cbn [vlq_digits]. case_match; eauto. Qed.

Lemma encode_values_nonempty v vs : encode_values (v :: vs) <> EmptyString.
Proof. cbn [encode_values]. destruct (encode_value_cons v) as (c & s & ->). by rewrite append_cons. Qed.

Lemma add_delta oc a b : field_ok a -> field_ok b -> add_i32 oc a (b - a) = Done b.
Proof.
  unfold field_ok. intros Ha Hb. rewrite add_i32_fits by (unfold i32_ok; lia). f_equal. lia.
Qed.

Lemma wrap_field z : field_ok z -> wrap_u32 z = z.
Proof. unfold field_ok. intros. apply wrap_u32_id. unfold u32_ok. lia. Qed.

Lemma decode_source_ok oc line st seg src ol ocol name more :
  state_ok st -> segment_ok seg -> seg_source seg = Some (src, ol, ocol, name) ->
  more = match name with Some n => [n - prev_name st] | None => [] end ->
  decode_source oc line (seg_column seg) (src - prev_source st) (ol - prev_original_line st)
    (ocol - prev_original_column st) more st =
  Done (next_state st seg, mkMapping line (seg_column seg) src ol ocol name).
Proof.
  intros (H1 & H2 & H3 & H4) [Hc Hs] Hseg ->. rewrite Hseg in Hs.
  destruct Hs as (Hsrc & Hol & Hocol & Hn). unfold decode_source, next_state. rewrite Hseg.
  rewrite add_delta by done. cbn [mbind run_bind]. rewrite add_delta by done. cbn [mbind run_bind].
  rewrite add_delta by done. cbn [mbind run_bind].
  destruct name as [n|].
  - rewrite add_delta by done. cbn [mbind run_bind]. by rewrite !wrap_field.
  - cbn [mbind run_bind]. by rewrite !wrap_field.
Qed.

Lemma decode_encode_segments oc line segs col st acc :
  field_ok col -> state_ok st -> Forall segment_ok segs ->
  decode_segments oc line (encode_segments col st segs) col st acc =
  Done (Ok (foldl next_state st segs, acc ++ omap (segment_mapping line) segs)).
Proof.
  intros Hcol Hst Hsegs. revert col st acc Hcol Hst.
  induction Hsegs as [|seg segs Hseg Hsegs IH]; intros col st acc Hcol Hst.
  - cbn. by rewrite app_nil_r.
  - cbn [encode_segments decode_segments].
    rewrite bool_decide_eq_false_2 by apply encode_values_nonempty.
    rewrite decode_encode_values by (by apply segment_values_small). cbn [mbind run_bind].
    unfold segment_values at 1. rewrite add_delta by (done || by destruct Hseg). cbn [mbind run_bind].
    pose proof (next_state_ok st seg Hst Hseg) as Hst'.
    pose proof (proj1 Hseg) as Hcol'.
    destruct (seg_source seg) as [[[[src ol] ocol] name]|] eqn:Hsrc; cbn [app].
    + rewrite (decode_source_ok oc line st seg src ol ocol name) by done. cbn [mbind run_bind].
      rewrite IH by done. cbn [foldl omap list_omap]. unfold segment_mapping at 2. rewrite Hsrc.
      cbn [mbind option_bind]. by rewrite <-app_assoc.
    + assert (next_state st seg = st) as Hn by (unfold next_state; by rewrite Hsrc).
      assert (segment_mapping line seg = None) as Hm by (unfold segment_mapping; by rewrite Hsrc).
      rewrite Hn, IH by done. cbn [foldl omap list_omap]. by rewrite Hn, Hm.
Qed.

(** No digit is a separator. *)
Definition no_char (sep : ascii) (s : string) : Prop :=
  str_all (fun x => bool_decide (x <> sep)) s = true.

Lemma base64_char_plain d : base64_char d <> ","%char /\ base64_char d <> ";"%char.
Proof.
  unfold base64_char. destruct (BASE64_CHARS !! Z.to_nat d) as [c|] eqn:E; [|done].
  apply list_elem_of_lookup_2 in E.
  assert (forallb (fun c => bool_decide (c <> ","%char) && bool_decide (c <> ";"%char))
    BASE64_CHARS = true) as H by (vm_compute; reflexivity).
  rewrite forallb_spec, Forall_forall in H. specialize (H c E).
  apply andb_true_iff in H as [?%bool_decide_eq_true ?%bool_decide_eq_true]. done.
Qed.

Lemma encode_values_plain sep vs :
  sep = ","%char \/ sep = ";"%char -> no_char sep (encode_values vs).
Proof.
  intros Hsep. assert (forall d, bool_decide (base64_char d <> sep) = true) as Hd.
  { intros d. apply bool_decide_eq_true. pose proof (base64_char_plain d). naive_solver. }
  unfold no_char. induction vs as [|v vs IH]; [done|]. cbn [encode_values].
  rewrite str_all_append, IH, andb_true_r. unfold encode_value.
  generalize 7%nat as fuel. intros fuel. generalize (vlq_sign v) as n.
  induction fuel as [|fuel IHf]; intros n; [done|]. cbn [vlq_digits].
  case_match; cbn [str_all]; by rewrite Hd, ?IHf.
Qed.

Lemma encode_segments_plain sep col st segs :
  sep = ","%char \/ sep = ";"%char -> Forall (no_char sep) (encode_segments col st segs).
Proof.
  intros Hsep. revert col st. induction segs as [|seg segs IH]; intros col st; constructor; [|apply IH].
  by apply encode_values_plain.
Qed.

Lemma encode_lines_plain st lines : Forall (no_char ";"%char) (encode_lines st lines).
Proof.
  revert st. induction lines as [|segs lines IH]; intros st; constructor; [|apply IH].
  apply str_all_join_with; [done|]. apply encode_segments_plain. by right.
Qed.

(** An encoded line decodes to its segments, also when it has none. *)
Lemma decode_encode_line oc line segs st acc :
  state_ok st -> Forall segment_ok segs ->
  decode_segments oc line (split_on ","%char (join_with ","%char (encode_segments 0 st segs))) 0 st acc =
  Done (Ok (foldl next_state st segs, acc ++ omap (segment_mapping line) segs)).
Proof.
  intros Hst Hsegs. destruct segs as [|seg segs].
  - cbn. by rewrite app_nil_r.
  - rewrite split_on_join_with by (done || (apply encode_segments_plain; by left)).
    apply decode_encode_segments; [unfold field_ok; lia|done..].
Qed.

Lemma decode_encode_lines oc lines line st acc :
  0 <= line -> line + Z.of_nat (length lines) < 2 ^ 32 ->
  state_ok st -> Forall (Forall segment_ok) lines ->
  decode_lines oc (encode_lines st lines) line st acc = Done (Ok (acc ++ mappings_of line lines)).
Proof.
  intros H0 Hn Hst Hlines. revert line st acc H0 Hn Hst.
  induction Hlines as [|segs lines Hsegs Hlines IH]; intros line st acc H0 Hn Hst.
  - cbn. by rewrite app_nil_r.
  - cbn [encode_lines decode_lines mappings_of]. cbn [length] in Hn.
    rewrite decode_encode_line by done. cbn [mbind run_bind].
    rewrite add_u32_fits by (unfold u32_ok; lia). cbn [mbind run_bind].
    rewrite IH by (lia || by apply foldl_next_state_ok). by rewrite <-app_assoc.
Qed.

Lemma state_zero_ok : state_ok (mkDecodeState 0 0 0 0).
Proof. repeat split; cbn; lia. Qed.

Lemma decode_encode_mappings oc lines :
  Z.of_nat (length lines) < 2 ^ 32 -> Forall (Forall segment_ok) lines ->
  decode_vlq_mappings oc (encode_mappings lines) = Done (Ok (mappings_of 0 lines)).
Proof.
  intros Hn Hlines. unfold decode_vlq_mappings, encode_mappings. destruct lines as [|segs lines].
  - reflexivity.
  - rewrite split_on_join_with by (done || apply encode_lines_plain).
    apply decode_encode_lines; [lia|lia|apply state_zero_ok|done].
Qed.

(** Columns that do not decrease within a line give ordered mappings. *)
Definition columns_ordered (segs : list Segment) : Prop :=
  forall i j a b, (i < j)%nat -> segs !! i = Some a -> segs !! j = Some b ->
    seg_column a <= seg_column b.

Lemma omap_segment_ordered line segs :
  columns_ordered segs -> mappings_sorted (omap (segment_mapping line) segs) /\
  Forall (fun m => generated_line m = line /\
    exists i seg, segs !! i = Some seg /\ seg_column seg = generated_column m)
    (omap (segment_mapping line) segs).
Proof.
  induction segs as [|seg segs IH]; intros Hord; [done|].
  destruct IH as [Hs Hall].
  { intros i j a b Hij Ha Hb. apply (Hord (S i) (S j)); [lia|done..]. }
  assert (Hall' : Forall (fun m => generated_line m = line /\
    exists i seg', (seg :: segs) !! i = Some seg' /\ seg_column seg' = generated_column m)
    (omap (segment_mapping line) segs)).
  { eapply Forall_impl; [exact Hall|]. intros m [? (i & s & ? & ?)]. split; [done|].
    by exists (S i), s. }
  cbn [omap list_omap]. destruct (segment_mapping line seg) as [m|] eqn:Hm; [|done].
  assert (generated_line m = line /\ generated_column m = seg_column seg) as [Hl Hc].
  { unfold segment_mapping in Hm. destruct (seg_source seg) as [[[[? ?] ?] ?]|]; [|done].
    by injection Hm as <-. }
  split.
  - intros [|i] [|j] a b Hij Ha Hb; [lia| |lia|].
    + injection Ha as <-. rewrite Forall_lookup in Hall.
      destruct (Hall j b Hb) as [? (k & s & Hk & Hs')]. right.
      pose proof (Hord 0%nat (S k) seg s ltac:(lia) eq_refl Hk). split; congruence || lia.
    + apply (Hs i j); [lia|done..].
  - constructor; [|done]. split; [done|]. by exists 0%nat, seg.
Qed.

Lemma mappings_of_ordered line lines :
  Forall columns_ordered lines ->
  mappings_sorted (mappings_of line lines) /\
  Forall (fun m => line <= generated_line m) (mappings_of line lines).
Proof.
  intros Hl. revert line. induction Hl as [|segs lines Hsegs Hl IH]; intros line; [done|].
  cbn [mappings_of]. destruct (omap_segment_ordered line segs Hsegs) as [Hs1 Ha1].
  destruct (IH (line + 1)) as [Hs2 Ha2]. split.
  - intros i j a b Hij Ha Hb.
    apply lookup_app_Some in Ha as [Ha|[Hi Ha]], Hb as [Hb|[Hj Hb]].
    + by apply (Hs1 i j).
    + rewrite Forall_lookup in Ha1, Ha2. destruct (Ha1 _ _ Ha). specialize (Ha2 _ _ Hb).
      cbn in Ha2. lia.
    + apply lookup_lt_Some in Hb. lia.
    + apply (Hs2 (i - length (omap (segment_mapping line) segs))%nat
        (j - length (omap (segment_mapping line) segs))%nat); [lia|done..].
  - apply Forall_app. split; eapply Forall_impl; [exact Ha1| |exact Ha2|]; cbn; intros m; lia.
Qed.

(** ** Context lines *)

Lemma context_window {A} (l : list A) (i c : nat) x :
  l !! i = Some x ->
  let start := (i - c)%nat in
  let stop := Nat.min (i + 1 + c) (length l) in
  take (i - start) (drop start l) ++ x :: take (stop - (i + 1)) (drop (i + 1) l) =
  take (stop - start) (drop start l).
Proof.
  intros Hx start stop. pose proof (lookup_lt_Some _ _ _ Hx) as Hlt.
  assert (start <= i)%nat by (unfold start; lia). assert (i < stop)%nat by (unfold stop; lia).
  replace (stop - start)%nat with ((i - start) + S (stop - (i + 1)))%nat by lia.
  rewrite <-take_take_drop. f_equal.
  rewrite drop_drop. replace (start + (i - start))%nat with i by lia.
  rewrite (drop_S l x i Hx). cbn [take]. by replace (S i) with (i + 1)%nat by lia.
Qed.

Lemma extract_context_found oc text line context_lines x :
  1 <= line < 2 ^ 62 -> 0 <= context_lines < 2 ^ 62 ->
  let lines := str_lines text in
  lines !! Z.to_nat (line - 1) = Some x ->
  let i := Z.to_nat (line - 1) in
  let c := Z.to_nat context_lines in
  extract_context oc text line context_lines =
  Done (take (i - (i - c)) (drop (i - c) lines), x,
        take (Nat.min (i + 1 + c) (length lines) - (i + 1)) (drop (i + 1) lines)).
Proof.
  intros Hline Hctx lines Hx i c. unfold extract_context. fold lines.
  rewrite Z.max_r by lia. rewrite Hx. pose proof (lookup_lt_Some _ _ _ Hx) as Hlt.
  rewrite add_u64_fits by (unfold u64_ok; lia). cbn [mbind run_bind].
  rewrite add_u64_fits by (unfold u64_ok; lia). cbn [mbind run_bind].
  rewrite (proj2 (Z.ltb_ge _ _)) by lia.
  unfold i, c. do 2 f_equal; [f_equal|]; f_equal; try lia; f_equal; lia.
Qed.

(** * Properties *)

(** C12. Source maps decode to what was encoded: for lines of segments with
    fields below 2^30, the decoder returns, in both build profiles and without
    an error, exactly the segments that have a source position, in order, with
    their line number, columns, source and name, although every field is
    relative to an earlier segment. *)
Theorem vlq_mappings_roundtrip oc lines :
  Z.of_nat (length lines) < 2 ^ 32 -> Forall (Forall segment_ok) lines ->
  decode_vlq_mappings oc (encode_mappings lines) = Done (Ok (mappings_of 0 lines)).
Proof. apply decode_encode_mappings. Qed.

(** Lookup finds the mapping in force: on mappings ordered by line and
    column, the two binary searches return the last mapping of the line that
    starts at or before the column, and nothing exactly when there is none. *)
Theorem find_mapping_in_force ms line column :
  mappings_sorted ms ->
  (forall m, find ms line column = Some m <-> in_force ms line column m) /\
  (find ms line column = None <-> forall m, ~ in_force ms line column m).
Proof.
  intros Hs. split; [intros m; by apply find_correct|].
  destruct (find ms line column) as [m|] eqn:E.
  - split; [done|]. intros Hno. apply (find_correct ms line column m Hs) in E. by destruct (Hno m).
  - split; [|done]. intros _ m Hm. apply (find_correct ms line column m Hs) in Hm. congruence.
Qed.

(** C13. From bytes to an original position: a version 3 map whose mappings
    encode lines of ordered segments is accepted, and a stack-trace position
    (lines counted from 1) resolves to the source, line and column of the
    mapping in force, with the source root in front, or to nothing if no
    mapping is in force; an index outside the sources is an error. *)
Theorem symbolicate_position oc raw lines :
  raw_version raw = 3 -> raw_mappings raw = encode_mappings lines ->
  Z.of_nat (length lines) < 2 ^ 32 -> Forall (Forall segment_ok) lines ->
  Forall columns_ordered lines ->
  exists sm, from_bytes oc (Ok raw) = Done (Ok sm) /\
    forall line column, 1 <= line ->
      (forall m, in_force (mappings_of 0 lines) (line - 1) column m ->
         lookup oc sm line column =
         match raw_sources raw !! Z.to_nat (source_index m) with
         | None => Done (Err (InvalidSourceIndex (source_index m)))
         | Some source =>
             display_line ← add_u32 oc (original_line m) 1;
             Done (Ok (Some (mkPosition (resolve_source_path sm source) display_line
               (original_column m) (idx ← name_index m; get_u32 (raw_names raw) idx)
               (c ← get_u32 (default [] (raw_sources_content raw)) (source_index m); c))))
         end) /\
      ((forall m, ~ in_force (mappings_of 0 lines) (line - 1) column m) ->
         lookup oc sm line column = Done (Ok None)).
Proof.
  intros Hver Hraw Hn Hok Hord. unfold from_bytes. rewrite Hver, Hraw. cbn [Z.eqb negb Pos.eqb].
  rewrite decode_encode_mappings by done. cbn [mbind run_bind]. eexists. split; [done|].
  destruct (mappings_of_ordered 0 lines Hord) as [Hs _].
  intros line column Hline. unfold lookup. cbn [mappings sources sources_content names].
  rewrite Z.max_r by lia. split.
  - intros m Hm. apply (find_correct _ _ _ _ Hs) in Hm. rewrite Hm. unfold get_u32 at 1. done.
  - intros Hno. destruct (find _ _ _) as [m|] eqn:E; [|done].
    apply (find_correct _ _ _ _ Hs) in E. by destruct (Hno m).
Qed.

(** Context around a crash line is a window of the file: for a line that
    exists, [extract_context] returns that line between at most [context_lines]
    neighbours on each side, which together are consecutive lines of the file,
    cut only at its first and last line; a line past the end gives nothing. *)
Theorem extract_context_window oc text line context_lines :
  1 <= line < 2 ^ 62 -> 0 <= context_lines < 2 ^ 62 ->
  let lines := str_lines text in
  let i := Z.to_nat (line - 1) in
  let c := Z.to_nat context_lines in
  match lines !! i with
  | None => extract_context oc text line context_lines = Done ([], ""%string, [])
  | Some x =>
      exists pre post, extract_context oc text line context_lines = Done (pre, x, post) /\
        pre ++ x :: post =
          take (Nat.min (i + 1 + c) (length lines) - (i - c)) (drop (i - c) lines) /\
        length pre = Nat.min c i /\ length post = Nat.min c (length lines - (i + 1))
  end.
Proof.
  intros Hline Hctx lines i c. destruct (lines !! i) as [x|] eqn:Hx.
  - pose proof (lookup_lt_Some _ _ _ Hx) as Hlt.
    eexists _, _. split; [by apply extract_context_found|]. split; [by apply context_window|].
    fold lines i c. rewrite !length_take, !length_drop. lia.
  - unfold extract_context. fold lines. rewrite Z.max_r by lia. fold i. by rewrite Hx.
Qed.

(** ** Numbers that are too long

    An eighth digit is shifted by 35: the decoder panics with overflow checks
    and returns a wrong number without; no error is reported. *)
Lemma long_number_not_rejected :
  decode_vlq_segment true "gggggggC" = Panic /\
  decode_vlq_segment false "gggggggC" = Done (Ok [8]).
Proof. split; vm_compute; reflexivity. Qed.

(** ** Witnesses *)

Definition demo_lines : list (list Segment) :=
  [[mkSegment 0 (Some (0, 0, 0, None)); mkSegment 9 (Some (1, 4, 2, Some 0))]; [];
   [mkSegment 3 None; mkSegment 5 (Some (0, 2, 1, Some 1))]].
Definition demo_raw : RawSourceMap :=
  mkRaw 3 None (Some "src/"%string) ["a.ts"%string; "b.ts"%string] None
    ["f"%string; "g"%string] (encode_mappings demo_lines).

Lemma demo_lines_ok : Forall (Forall segment_ok) demo_lines.
Proof. repeat constructor; cbn; lia. Qed.

Lemma demo_lines_ordered : Forall columns_ordered demo_lines.
Proof.
  repeat constructor; intros [|[|i]] [|[|j]] a b Hij Ha Hb; cbn in Ha, Hb; simplify_eq; cbn; lia.
Qed.

Lemma vlq_mappings_roundtrip_witness :
  decode_vlq_mappings true "AAAA,SCIEA;;G,EDFDC" = Done (Ok (mappings_of 0 demo_lines)).
Proof. refine (vlq_mappings_roundtrip true demo_lines _ demo_lines_ok). cbn. lia. Defined.

Lemma find_mapping_in_force_witness :
  find (mappings_of 0 demo_lines) 0 12 = Some (mkMapping 0 9 1 4 2 (Some 0)).
Proof.
  destruct (mappings_of_ordered 0 demo_lines demo_lines_ordered) as [Hs _].
  apply (proj1 (find_mapping_in_force (mappings_of 0 demo_lines) 0 12 Hs)).
  exists 1%nat. split; [done|]. split; [done|]. split; [cbn; lia|].
  intros [|[|[|j]]] m' Hj Hm' Hl; cbn in Hm'; simplify_eq; cbn in Hl; lia.
Defined.

Lemma symbolicate_position_witness :
  exists sm, from_bytes false (Ok demo_raw) = Done (Ok sm) /\
    lookup false sm 1 12 = Done (Ok (Some (mkPosition "src/b.ts" 5 2 (Some "f"%string) None))).
Proof.
  destruct (symbolicate_position false demo_raw demo_lines eq_refl eq_refl ltac:(cbn; lia)
    demo_lines_ok demo_lines_ordered) as (sm & Hsm & _).
  exists sm. split; [exact Hsm|]. vm_compute in Hsm. injection Hsm as <-. vm_compute. reflexivity.
Defined.

Lemma extract_context_window_witness :
  exists pre post, extract_context true "a
b
c
d" 3 1 = Done (pre, "c"%string, post) /\ length pre = 1%nat /\ length post = 1%nat.
Proof.
  destruct (extract_context_window true "a
b
c
d" 3 1 ltac:(lia) ltac:(lia)) as (pre & post & H & _ & H1 & H2).
  by exists pre, post.
Defined.
