(* ===== verification/Derp.v ===== *)
(** The DERP relay protocol, [crates/loom-wgtunnel-derp]: frames and their wire
    format (protocol.rs), reading frames from a connection (client.rs).  Bytes
    are numbers below 256, a key is 32 of them. *)
From stdpp Require Import base list strings.
From Stdlib Require Import ZArith.
From S2P Require Import Prelude.

Local Open Scope Z_scope.

Definition byte := Z.
Definition bytes := list byte.
Definition Key := bytes.

(** ** error.rs: library errors are their messages *)
Definition MAX_FRAME_SIZE : Z := Z.shiftl 1 20.

Inductive DerpError :=
| Derp_Connection (e : string)
| Derp_Tls (e : string)
| InvalidFrameType (t : byte)
| FrameTooLarge (size max : Z)
| PayloadTooShort (t : byte)
| UnexpectedFrameType (expected : string) (actual : byte)
| Derp_Handshake (e : string)
| Derp_Json (e : string)
| ConnectionClosed
| Derp_Http (e : string)
| Derp_Io (e : string).

(** ** protocol.rs *)
Definition FRAME_TYPE_SERVER_KEY : byte := 1.
Definition FRAME_TYPE_SERVER_INFO : byte := 2.
Definition FRAME_TYPE_SEND_PACKET : byte := 3.
Definition FRAME_TYPE_RECV_PACKET : byte := 4.
Definition FRAME_TYPE_KEEP_ALIVE : byte := 5.
Definition FRAME_TYPE_NOTE_PREFERRED : byte := 6.
Definition FRAME_TYPE_PEER_GONE : byte := 7.
Definition FRAME_TYPE_PEER_PRESENT : byte := 8.
Definition FRAME_TYPE_WATCH_CONNS : byte := 9.
Definition FRAME_TYPE_CLOSE_PEER : byte := 10.
Definition FRAME_TYPE_CLIENT_INFO : byte := 11.

Record ServerInfoPayload := mkServerInfo { si_version : option Z }.
Record ClientInfoPayload := mkClientInfo { ci_version : Z; ci_mesh_key : option string }.
Definition ClientInfoPayload_default : ClientInfoPayload := mkClientInfo 2 None.

Inductive DerpFrame :=
| ServerKey (public_key : Key)
| ServerInfo (info : ServerInfoPayload)
| SendPacket (dst_key : Key) (data : bytes)
| RecvPacket (src_key : Key) (data : bytes)
| KeepAlive
| NotePreferred (preferred : bool)
| PeerGone (peer_key : Key)
| PeerPresent (peer_key : Key)
| WatchConns
| ClosePeer (peer_key : Key)
| ClientInfo (public_key : Key).

(** What the protocol uses of [serde_json]: the two payload encodings and the
    decoding of server information; [None] is a serialization error.  The law is
    the round trip of the derived implementations. *)
Class DerpJson := {
  server_info_to_vec : ServerInfoPayload -> option bytes;
  client_info_to_vec : ClientInfoPayload -> option bytes;
  server_info_from_slice : bytes -> result string ServerInfoPayload;
  server_info_roundtrip : forall i b,
    server_info_to_vec i = Some b -> server_info_from_slice b = Ok i;
}.

Section Derp.
Context `{DJ : DerpJson}.

Definition frame_type (f : DerpFrame) : byte :=
  match f with
  | ServerKey _ => FRAME_TYPE_SERVER_KEY
  | ServerInfo _ => FRAME_TYPE_SERVER_INFO
  | SendPacket _ _ => FRAME_TYPE_SEND_PACKET
  | RecvPacket _ _ => FRAME_TYPE_RECV_PACKET
  | KeepAlive => FRAME_TYPE_KEEP_ALIVE
  | NotePreferred _ => FRAME_TYPE_NOTE_PREFERRED
  | PeerGone _ => FRAME_TYPE_PEER_GONE
  | PeerPresent _ => FRAME_TYPE_PEER_PRESENT
  | WatchConns => FRAME_TYPE_WATCH_CONNS
  | ClosePeer _ => FRAME_TYPE_CLOSE_PEER
  | ClientInfo _ => FRAME_TYPE_CLIENT_INFO
  end.

Definition encode_payload (f : DerpFrame) : bytes :=
  match f with
  | ServerKey k => k
  | ServerInfo info => default [] (server_info_to_vec info)
  | SendPacket k data => k ++ data
  | RecvPacket k data => k ++ data
  | KeepAlive => []
  | NotePreferred b => [if b then 1 else 0]
  | PeerGone k => k
  | PeerPresent k => k
  | WatchConns => []
  | ClosePeer k => k
  | ClientInfo k => k ++ default [] (client_info_to_vec ClientInfoPayload_default)
  end.

(** [payload_len as u32], then three bytes, most significant first. *)
Definition encode_frame_header (t : byte) (payload_len : Z) : bytes :=
  let len := wrap_u32 payload_len in
  [t; Z.land (Z.shiftr len 16) 255; Z.land (Z.shiftr len 8) 255; Z.land len 255].

Definition encode (f : DerpFrame) : bytes :=
  let payload := encode_payload f in
  encode_frame_header (frame_type f) (Z.of_nat (length payload)) ++ payload.

(** The length in a header of four bytes. *)
Definition decode_frame_header (h0 h1 h2 h3 : byte) : byte * Z :=
  (h0, Z.lor (Z.lor (Z.shiftl h1 16) (Z.shiftl h2 8)) h3).

(** The length test and the copy of the first 32 bytes. *)
Definition with_key {A} (t : byte) (payload : bytes) (k : Key -> bytes -> A) : result DerpError A :=
  if (length payload <? 32)%nat then Err (PayloadTooShort t)
  else Ok (k (take 32 payload) (drop 32 payload)).

Definition decode_payload (t : byte) (payload : bytes) : result DerpError DerpFrame :=
  if t =? FRAME_TYPE_SERVER_KEY then with_key t payload (fun k _ => ServerKey k)
  else if t =? FRAME_TYPE_SERVER_INFO then
    match server_info_from_slice payload with
    | Ok info => Ok (ServerInfo info)
    | Err e => Err (Derp_Json e)
    end
  else if t =? FRAME_TYPE_SEND_PACKET then with_key t payload SendPacket
  else if t =? FRAME_TYPE_RECV_PACKET then with_key t payload RecvPacket
  else if t =? FRAME_TYPE_KEEP_ALIVE then Ok KeepAlive
  else if t =? FRAME_TYPE_NOTE_PREFERRED then
    match payload with
    | [] => Err (PayloadTooShort t)
    | b :: _ => Ok (NotePreferred (negb (b =? 0)))
    end
  else if t =? FRAME_TYPE_PEER_GONE then with_key t payload (fun k _ => PeerGone k)
  else if t =? FRAME_TYPE_PEER_PRESENT then with_key t payload (fun k _ => PeerPresent k)
  else if t =? FRAME_TYPE_WATCH_CONNS then Ok WatchConns
  else if t =? FRAME_TYPE_CLOSE_PEER then with_key t payload (fun k _ => ClosePeer k)
  else if t =? FRAME_TYPE_CLIENT_INFO then with_key t payload (fun k _ => ClientInfo k)
  else Err (InvalidFrameType t).

Definition decode (data : bytes) : result DerpError DerpFrame :=
  match data with
  | h0 :: h1 :: h2 :: h3 :: rest =>
      let '(t, payload_len) := decode_frame_header h0 h1 h2 h3 in
      if MAX_FRAME_SIZE <? payload_len then Err (FrameTooLarge payload_len MAX_FRAME_SIZE)
      else if Z.of_nat (length data) <? 4 + payload_len then Err (PayloadTooShort t)
      else decode_payload t (take (Z.to_nat payload_len) rest)
  | _ => Err (PayloadTooShort 0)
  end.

(** ** client.rs *)

(** [read_exact] on what is left of the stream; at its end the connection fails. *)
Definition read_exact (n : nat) (stream : bytes) : result DerpError (bytes * bytes) :=
  if (length stream <? n)%nat then Err (Derp_Connection "unexpected end of file")
  else Ok (take n stream, drop n stream).

Definition read_frame_from_stream (stream : bytes) : result DerpError (DerpFrame * bytes) :=
  '(header, stream) ← read_exact 4 stream;
  match header with
  | [h0; h1; h2; h3] =>
      let '(_, payload_len) := decode_frame_header h0 h1 h2 h3 in
      if MAX_FRAME_SIZE <? payload_len then Err (FrameTooLarge payload_len MAX_FRAME_SIZE)
      else
        '(payload, stream) ← (if 0 <? payload_len then read_exact (Z.to_nat payload_len) stream
                              else Ok ([], stream));
        frame ← decode (header ++ payload);
        Ok (frame, stream)
  | _ => Err (Derp_Connection "unexpected end of file")
  end.

Definition read_server_key (stream : bytes) : result DerpError (Key * bytes) :=
  '(frame, stream) ← read_frame_from_stream stream;
  match frame with
  | ServerKey k => Ok (k, stream)
  | other => Err (UnexpectedFrameType "ServerKey" (frame_type other))
  end.

Definition read_server_info (stream : bytes) : result DerpError (DerpFrame * bytes) :=
  '(frame, stream) ← read_frame_from_stream stream;
  match frame with
  | ServerInfo _ => Ok (frame, stream)
  | other => Err (UnexpectedFrameType "ServerInfo" (frame_type other))
  end.

(** [recv] called until the stream ends or fails. *)
Fixpoint recv_all (fuel : nat) (stream : bytes) : list DerpFrame :=
  match fuel with
  | O => []
  | S fuel =>
      match read_frame_from_stream stream with
      | Ok (f, stream) => f :: recv_all fuel stream
      | Err _ => []
      end
  end.

(** * Headers *)

Lemma byte_bit a i : 0 <= i -> Z.testbit (Z.land a 255) i = Z.testbit a i && (i <? 8).
Proof.
  intros Hi. rewrite Z.land_spec. f_equal. change 255 with (Z.ones 8).
  by rewrite Z.testbit_ones_nonneg by lia.
Qed.

(** Three bytes carry the length modulo 2^24. *)
Lemma header_length n :
  0 <= n ->
  Z.lor (Z.lor (Z.shiftl (Z.land (Z.shiftr n 16) 255) 16) (Z.shiftl (Z.land (Z.shiftr n 8) 255) 8))
    (Z.land n 255) = n mod 2 ^ 24.
Proof.
  intros Hn. apply Z.bits_inj'. intros i Hi.
  rewrite !Z.lor_spec, !Z.shiftl_spec, (byte_bit n i) by lia.
  destruct (Z.lt_ge_cases i 8); [|destruct (Z.lt_ge_cases i 16); [|destruct (Z.lt_ge_cases i 24)]].
  - rewrite (Z.testbit_neg_r _ (i - 16)), (Z.testbit_neg_r _ (i - 8)), Z.mod_pow2_bits_low by lia.
    rewrite (proj2 (Z.ltb_lt i 8)) by lia. by rewrite andb_true_r.
  - rewrite (Z.testbit_neg_r _ (i - 16)), Z.mod_pow2_bits_low, byte_bit, Z.shiftr_spec by lia.
    rewrite (proj2 (Z.ltb_lt (i - 8) 8)), (proj2 (Z.ltb_ge i 8)) by lia.
    rewrite andb_true_r, andb_false_r, orb_false_r. cbn [orb]. f_equal. lia.
  - rewrite Z.mod_pow2_bits_low, !byte_bit, !Z.shiftr_spec by lia.
    rewrite (proj2 (Z.ltb_lt (i - 16) 8)), (proj2 (Z.ltb_ge (i - 8) 8)), (proj2 (Z.ltb_ge i 8)) by lia.
    rewrite andb_true_r, !andb_false_r, !orb_false_r. f_equal. lia.
  - rewrite Z.mod_pow2_bits_high, !byte_bit by lia.
    rewrite (proj2 (Z.ltb_ge (i - 16) 8)), (proj2 (Z.ltb_ge (i - 8) 8)), (proj2 (Z.ltb_ge i 8)) by lia.
    by rewrite !andb_false_r.
Qed.

Lemma encode_header_cons t n :
  0 <= n < 2 ^ 24 ->
  exists h1 h2 h3, encode_frame_header t n = [t; h1; h2; h3] /\ decode_frame_header t h1 h2 h3 = (t, n).
Proof.
  intros Hn. eexists _, _, _. split; [done|]. unfold decode_frame_header.
  rewrite wrap_u32_id by (unfold u32_ok; lia). rewrite header_length, Z.mod_small by lia. done.
Qed.

(** * Frames *)

(** Keys have 32 bytes, the server information can be serialized, and the
    payload fits into a frame. *)
Record frame_ok (f : DerpFrame) : Prop := {
  fo_key : match f with
           | ServerKey k | SendPacket k _ | RecvPacket k _ | PeerGone k | PeerPresent k
           | ClosePeer k | ClientInfo k => length k = 32%nat
           | ServerInfo info => is_Some (server_info_to_vec info)
           | _ => True
           end;
  fo_size : Z.of_nat (length (encode_payload f)) <= MAX_FRAME_SIZE;
}.

Lemma with_key_app {A} t k data (g : Key -> bytes -> A) :
  length k = 32%nat -> with_key t (k ++ data) g = Ok (g k data).
Proof.
  intros Hk. unfold with_key. rewrite (proj2 (Nat.ltb_ge _ _)) by (rewrite length_app; lia).
  by rewrite take_app_length', drop_app_length' by done.
Qed.

Lemma with_key_exact {A} t k (g : Key -> bytes -> A) :
  length k = 32%nat -> with_key t k g = Ok (g k []).
Proof. intros Hk. rewrite <-(app_nil_r k) at 1. by apply with_key_app. Qed.

Lemma decode_encode_payload f :
  frame_ok f -> decode_payload (frame_type f) (encode_payload f) = Ok f.
Proof.
  intros [Hk _]. destruct f; cbn in Hk |- *; unfold decode_payload; cbn;
    rewrite ?with_key_app, ?with_key_exact by done; try done.
  - destruct Hk as [b Hb]. rewrite Hb. cbn. by rewrite (server_info_roundtrip _ _ Hb).
  - by destruct preferred.
Qed.

Lemma decode_encode_app f rest : frame_ok f -> decode (encode f ++ rest) = Ok f.
Proof.
  intros Hf. pose proof (fo_size f Hf) as Hsize. unfold MAX_FRAME_SIZE in Hsize.
  rewrite Z.shiftl_1_l in Hsize. unfold encode.
  destruct (encode_header_cons (frame_type f) (Z.of_nat (length (encode_payload f))))
    as (h1 & h2 & h3 & -> & Hd); [lia|].
  cbn [app decode]. rewrite Hd.
  rewrite (proj2 (Z.ltb_ge _ _)) by (unfold MAX_FRAME_SIZE; rewrite Z.shiftl_1_l; lia).
  rewrite (proj2 (Z.ltb_ge _ _)) by (cbn [length]; rewrite length_app; lia).
  rewrite Nat2Z.id, take_app_length. by apply decode_encode_payload.
Qed.

Lemma read_exact_app n a b : n = length a -> read_exact n (a ++ b) = Ok (a, b).
Proof.
  intros ->. unfold read_exact. rewrite (proj2 (Nat.ltb_ge _ _)) by (rewrite length_app; lia).
  by rewrite take_app_length, drop_app_length.
Qed.

Lemma read_encode f rest : frame_ok f -> read_frame_from_stream (encode f ++ rest) = Ok (f, rest).
Proof.
  intros Hf. pose proof (fo_size f Hf) as Hsize. pose proof (decode_encode_app f [] Hf) as Hdec.
  rewrite app_nil_r in Hdec. unfold encode in *. set (payload := encode_payload f) in *.
  assert (Z.of_nat (length payload) < 2 ^ 24).
  { unfold MAX_FRAME_SIZE in Hsize. rewrite Z.shiftl_1_l in Hsize. lia. }
  destruct (encode_header_cons (frame_type f) (Z.of_nat (length payload)))
    as (h1 & h2 & h3 & E & Hd); [lia|]. rewrite E in *.
  unfold read_frame_from_stream. rewrite <-app_assoc, read_exact_app by done.
  cbn [mbind result_bind]. rewrite Hd.
  rewrite (proj2 (Z.ltb_ge _ _)) by lia.
  destruct (Z.ltb_spec 0 (Z.of_nat (length payload))).
  - rewrite read_exact_app by lia. cbn [mbind result_bind]. by rewrite Hdec.
  - assert (payload = []) as Hnil by (apply nil_length_inv; lia). rewrite Hnil in *.
    cbn [mbind result_bind]. by rewrite Hdec.
Qed.

Lemma recv_all_encode fs fuel :
  Forall frame_ok fs -> (length fs < fuel)%nat -> recv_all fuel (concat (encode <$> fs)) = fs.
Proof.
  intros Hfs. revert fuel. induction Hfs as [|f fs Hf Hfs IH]; intros [|fuel] Hlen; cbn in Hlen;
    [lia|done|lia|].
  cbn [fmap list_fmap concat recv_all]. rewrite read_encode by done. f_equal. apply IH. lia.
Qed.

Lemma read_exact_spec n s a b :
  read_exact n s = Ok (a, b) -> s = a ++ b /\ length a = n.
Proof.
  unfold read_exact. destruct (Nat.ltb_spec (length s) n); [done|]. intros [= <- <-].
  rewrite take_drop, length_take. split; [done|lia].
Qed.

Lemma decode_header_bound h0 h1 h2 h3 :
  u8_ok h1 -> u8_ok h2 -> u8_ok h3 -> 0 <= (decode_frame_header h0 h1 h2 h3).2.
Proof.
  unfold u8_ok, decode_frame_header. intros. cbn [snd].
  apply Z.lor_nonneg. split; [|lia]. apply Z.lor_nonneg. split; apply Z.shiftl_nonneg; lia.
Qed.

(** * Properties *)

(** C14. Frames survive the wire: whatever frames a peer encodes one after the
    other (with 32-byte keys, serializable server information and payloads of at
    most 1 MiB), reading the byte stream returns exactly these frames in their
    order and stops at its end. *)
Theorem derp_stream_roundtrip fs fuel :
  Forall frame_ok fs -> (length fs < fuel)%nat -> recv_all fuel (concat (encode <$> fs)) = fs.
Proof. apply recv_all_encode. Qed.

(** Reading is safe on any input: from an arbitrary byte stream a read
    either fails with an error or takes exactly one frame off the front, the
    four header bytes and the payload they announce, never more than 1 MiB and
    never a byte of the frame behind it; what it took is what [decode] accepts. *)
Theorem derp_read_bounded stream f rest :
  Forall u8_ok stream -> read_frame_from_stream stream = Ok (f, rest) ->
  exists taken, stream = taken ++ rest /\ decode taken = Ok f /\
    4 <= Z.of_nat (length taken) <= 4 + MAX_FRAME_SIZE /\
    exists t h1 h2 h3 payload, taken = t :: h1 :: h2 :: h3 :: payload /\
      decode_frame_header t h1 h2 h3 = (t, Z.of_nat (length payload)).
Proof.
  intros Hbytes Hread. unfold read_frame_from_stream in Hread.
  destruct (read_exact 4 stream) as [[header s1]|] eqn:E1; [|done]. cbn [mbind result_bind] in Hread.
  apply read_exact_spec in E1 as [-> Hh].
  destruct header as [|h0 [|h1 [|h2 [|h3 [|]]]]]; try done.
  cbn [app] in Hbytes. rewrite !Forall_cons in Hbytes.
  destruct Hbytes as (_ & H1 & H2 & H3 & _).
  pose proof (decode_header_bound h0 h1 h2 h3 H1 H2 H3) as Hpos.
  destruct (decode_frame_header h0 h1 h2 h3) as [t len] eqn:Hd. cbn [snd] in Hpos.
  assert (t = h0) as -> by (by injection Hd as <-).
  destruct (Z.ltb_spec MAX_FRAME_SIZE len) as [|Hmax]; [done|].
  match type of Hread with (?m ≫= _) = _ => destruct m as [[payload s2]|] eqn:E2; [|done] end.
  cbn [mbind result_bind] in Hread.
  assert (s1 = payload ++ s2 /\ Z.of_nat (length payload) = len) as [-> Hlen].
  { destruct (Z.ltb_spec 0 len).
    - apply read_exact_spec in E2 as [-> E2]. split; [done|lia].
    - injection E2 as <- <-. split; [done|cbn; lia]. }
  destruct (decode ([h0; h1; h2; h3] ++ payload)) as [f'|] eqn:Hdec; [|done].
  injection Hread as -> ->. exists ([h0; h1; h2; h3] ++ payload).
  rewrite <-app_assoc. split; [done|]. split; [done|]. split; [cbn [app length]; lia|].
  exists h0, h1, h2, h3, payload. split; [done|]. by rewrite Hlen.
Qed.

(** Sending does not check the size: a packet of more than 1 MiB is encoded
    into a frame that every receiver refuses. *)
Lemma oversized_packet_refused k data :
  MAX_FRAME_SIZE < Z.of_nat (length (k ++ data)) < 2 ^ 24 ->
  decode (encode (SendPacket k data)) =
  Err (FrameTooLarge (Z.of_nat (length (k ++ data))) MAX_FRAME_SIZE).
Proof.
  intros Hsize. unfold encode. cbn [encode_payload].
  destruct (encode_header_cons (frame_type (SendPacket k data)) (Z.of_nat (length (k ++ data))))
    as (h1 & h2 & h3 & -> & Hd); [unfold MAX_FRAME_SIZE in Hsize; lia|].
  cbn [app decode]. rewrite Hd. by rewrite (proj2 (Z.ltb_lt _ _)) by lia.
Qed.

End Derp.

(** ** Witnesses *)

(** Server information without a version is the empty object. *)
#[local] Instance demo_derp_json : DerpJson.
Proof.
  refine {|
    server_info_to_vec := fun i => match si_version i with None => Some [123; 125] | Some _ => None end;
    client_info_to_vec := fun _ => Some [123; 125];
    server_info_from_slice := fun _ => Ok (mkServerInfo None);
  |}.
  intros [[v|]] b; [done|]. by intros [= <-].
Defined.

Definition demo_key : Key := replicate 32 7.

Lemma derp_stream_roundtrip_witness :
  recv_all 4 (concat (encode <$> [ServerInfo (mkServerInfo None); KeepAlive;
    SendPacket demo_key [1; 2; 3]])) =
  [ServerInfo (mkServerInfo None); KeepAlive; SendPacket demo_key [1; 2; 3]].
Proof.
  apply derp_stream_roundtrip; [|cbn; lia].
  repeat constructor; cbn; try done; by eexists.
Defined.

Lemma derp_read_bounded_witness :
  exists taken, [5; 0; 0; 0; 9] = taken ++ [9] /\ decode taken = Ok KeepAlive.
Proof.
  destruct (derp_read_bounded [5; 0; 0; 0; 9] KeepAlive [9]) as (taken & H1 & H2 & _).
  - repeat constructor; unfold u8_ok; lia.
  - reflexivity.
  - by exists taken.
Defined.
