(* ===== verification/Tools.v ===== *)
(** The agent's file tools, [crates/loom-cli-tools]: the workspace check and the
    edits of edit_file.rs, read_file.rs and list_files.rs.

    A path is the list of its components as [Path::components] gives them
    (repeated and trailing separators dropped).  The file system is a
    parameter; the answers of reads and writes are arguments. *)
From stdpp Require Import base list strings sets.
From Stdlib Require Import ZArith Ascii.
From S2P Require Import Prelude Text CoreTypes.

(** ** std::path *)
Inductive Component := RootDir | CurDir | ParentDir | Normal (name : string).

#[export] Instance Component_eq_dec : EqDecision Component.
Proof. solve_decision. Defined.

Definition Path := list Component.

Definition is_absolute (p : Path) : bool :=
  match p with RootDir :: _ => true | _ => false end.

(** An absolute path replaces the base; a leading [.] disappears. *)
Definition path_join (base p : Path) : Path :=
  match p with
  | RootDir :: _ => p
  | CurDir :: p' => base ++ p'
  | _ => base ++ p
  end.

(** [None] for the root and the empty path. *)
Definition path_parent (p : Path) : option Path :=
  match List.rev p with
  | [] | RootDir :: _ => None
  | _ :: rest => Some (List.rev rest)
  end.

Fixpoint path_starts_with (p prefix : Path) : bool :=
  match prefix, p with
  | [], _ => true
  | a :: prefix, b :: p => bool_decide (a = b) && path_starts_with p prefix
  | _ :: _, [] => false
  end.

Definition component_text (c : Component) : string :=
  match c with RootDir => "" | CurDir => "." | ParentDir => ".." | Normal s => s end.

Fixpoint join_text (cs : list Component) : string :=
  match cs with
  | [] => ""
  | [c] => component_text c
  | c :: cs => component_text c +:+ "/" +:+ join_text cs
  end.

(** The bytes of a path, which need not be UTF-8, and [Path::display]. *)
Definition path_text (p : Path) : string :=
  match p with [RootDir] => "/" | _ => join_text p end.
Definition display (p : Path) : string := from_utf8_lossy (path_text p).

(** ** The file system *)

(** An absolute path without [.] and [..]. *)
Definition is_canonical (p : Path) : bool :=
  match p with
  | RootDir :: rest => forallb (fun c => match c with Normal _ => true | _ => false end) rest
  | _ => false
  end.

(** [fs::canonicalize]: [None] when a component does not exist.  The result is
    canonical, and canonicalizing it again changes nothing. *)
Class FileSystem := {
  canonicalize : Path -> option Path;
  canonicalize_canonical : forall p q, canonicalize p = Some q -> is_canonical q = true;
  canonicalize_idem : forall p q, canonicalize p = Some q -> canonicalize q = Some q;
}.

Section Tools.
Context `{FS : FileSystem}.

Definition absolute_path (path workspace_root : Path) : Path :=
  if is_absolute path then path else path_join workspace_root path.

(** [ReadFileTool::validate_path] and [ListFilesTool::validate_path]. *)
Definition read_validate_path (path workspace_root : Path) : result ToolError Path :=
  let absolute := absolute_path path workspace_root in
  match canonicalize absolute with
  | None => Err (ToolError_FileNotFound (display absolute))
  | Some canonical =>
      match canonicalize workspace_root with
      | None => Err (ToolError_FileNotFound (display workspace_root))
      | Some workspace =>
          if negb (path_starts_with canonical workspace)
          then Err (ToolError_PathOutsideWorkspace (display canonical))
          else Ok canonical
      end
  end.

(** [EditFileTool::validate_path]. *)
Definition edit_validate_path (path workspace_root : Path) : result ToolError Path :=
  let absolute := absolute_path path workspace_root in
  match canonicalize absolute with
  | Some canonical =>
      match canonicalize workspace_root with
      | None => Err (ToolError_FileNotFound (display workspace_root))
      | Some workspace =>
          if negb (path_starts_with canonical workspace)
          then Err (ToolError_PathOutsideWorkspace (display canonical))
          else Ok canonical
      end
  | None =>
      match canonicalize workspace_root with
      | None => Err (ToolError_FileNotFound (display workspace_root))
      | Some workspace =>
          let normalized := if is_absolute absolute then absolute
                            else path_join workspace absolute in
          let outside :=
            match path_parent normalized with
            | Some parent =>
                match canonicalize parent with
                | Some parent_canonical => negb (path_starts_with parent_canonical workspace)
                | None => false
                end
            | None => false
            end in
          if outside then Err (ToolError_PathOutsideWorkspace (display normalized))
          else Ok normalized
      end
  end.

(** ** edit_file.rs: edits *)
Record SnippetEdit := mkEdit {
  old_str : string;
  new_str : string;
  replace_all : option bool;
}.

(** [str::replacen(pat, new, 1)]. *)
Definition replacen_1 (pat new s : string) : string :=
  match split_first pat s with
  | Some (a, b) => a +:+ new +:+ b
  | None => s
  end.

Fixpoint join_str (sep : string) (l : list string) : string :=
  match l with
  | [] => EmptyString
  | [p] => p
  | p :: l => p +:+ sep +:+ join_str sep l
  end.

(** [str::replace] and [str::matches(pat).count()]. *)
Definition str_replace (pat new s : string) : string := join_str new (pieces pat s).
Definition matches_count (pat s : string) : nat := length (pieces pat s) - 1.

(** The loop over the edits: content and number of edits applied. *)
Fixpoint apply_edits (file_path : Path) (edits : list SnippetEdit) (content : string)
    (edits_applied : nat) : result ToolError (string * nat) :=
  match edits with
  | [] => Ok (content, edits_applied)
  | e :: edits =>
      if bool_decide (old_str e = "") then
        apply_edits file_path edits (content +:+ new_str e) (edits_applied + 1)
      else if negb (str_contains content (old_str e)) then
        Err (ToolError_TargetNotFound
          ("target '" +:+ old_str e +:+ "' not found in " +:+ display file_path))
      else if default false (replace_all e) then
        apply_edits file_path edits (str_replace (old_str e) (new_str e) content)
          (edits_applied + matches_count (old_str e) content)
      else
        apply_edits file_path edits (replacen_1 (old_str e) (new_str e) content)
          (edits_applied + 1)
  end.

Record EditFileResult := mkEditResult {
  er_path : Path;
  er_edits_applied : nat;
  original_bytes : nat;
  new_bytes : nat;
}.

(** [serde_json::to_value] of the result; a path is serialized as text. *)
Definition edit_result_to_value (r : EditFileResult) : result ToolError EditFileResult :=
  if valid_utf8 (path_text (er_path r)) then Ok r
  else Err (ToolError_Serialization "path contains invalid UTF-8 characters").

(** What the file operations answer; an error is its message. *)
Record EditIo := mkEditIo {
  file_exists : bool;
  read_to_string : result string string;
  create_dir_all : result string unit;
  write_file : result string unit;
}.

(** [EditFileTool::invoke] on parsed arguments: the first component is the
    write that was attempted, if any. *)
Definition edit_file_invoke (path workspace_root : Path) (edits : list SnippetEdit) (io : EditIo)
    : option (Path * string) * result ToolError EditFileResult :=
  match edit_validate_path path workspace_root with
  | Err e => (None, Err e)
  | Ok file_path =>
      match (if file_exists io then read_to_string io else Ok "") with
      | Err e => (None, Err (ToolError_Io e))
      | Ok content =>
          match apply_edits file_path edits content 0 with
          | Err e => (None, Err e)
          | Ok (new_content, n) =>
              match (match path_parent file_path with
                     | Some _ => create_dir_all io
                     | None => Ok tt
                     end) with
              | Err e => (None, Err (ToolError_Io e))
              | Ok _ =>
                  (Some (file_path, new_content),
                   match write_file io with
                   | Err e => Err (ToolError_Io e)
                   | Ok _ => edit_result_to_value
                               (mkEditResult file_path n (String.length content)
                                  (String.length new_content))
                   end)
              end
          end
      end
  end.

Lemma greedy_nonempty pat s ps : greedy_pieces pat s ps -> ps <> [].
Proof. by destruct 1. Qed.

Lemma greedy_join pat s ps :
  pat <> "" -> greedy_pieces pat s ps ->
  join_str pat ps = s /\ Forall (fun p => str_contains p pat = false) ps.
Proof.
  intros Hpat. induction 1 as [s Hs|s a b ps Hfirst Hg [IHj IHf]].
  - split; [done|]. by constructor.
  - pose proof (greedy_nonempty _ _ _ Hg) as Hne. destruct Hfirst as [-> Hmin]. split.
    + destruct ps as [|q ps]; [done|].
      change (join_str pat (a :: q :: ps)) with (a +:+ pat +:+ join_str pat (q :: ps)).
      by rewrite IHj.
    + constructor; [|done]. apply not_true_iff_false. rewrite str_contains_spec.
      intros (l & r & ->).
      specialize (Hmin l (r +:+ pat +:+ b)). rewrite !string_length_append in Hmin.
      assert (0 < String.length pat) by (destruct pat; [done|cbn; lia]).
      enough (String.length l + (String.length pat + String.length r) <= String.length l) by lia.
      apply Hmin. by rewrite !string_app_assoc.
Qed.

(** * What an edit does *)
Inductive edit_rel (s : string) (e : SnippetEdit) : string -> nat -> Prop :=
| edit_append : old_str e = "" -> edit_rel s e (s +:+ new_str e) 1
| edit_first a b :
    old_str e <> "" -> replace_all e <> Some true -> first_at (old_str e) s a b ->
    edit_rel s e (a +:+ new_str e +:+ b) 1
| edit_all ps n :
    old_str e <> "" -> replace_all e = Some true -> greedy_pieces (old_str e) s ps ->
    length ps = S n -> 0 < n -> edit_rel s e (join_str (new_str e) ps) n.

Inductive edits_rel : string -> list SnippetEdit -> string -> nat -> Prop :=
| edits_nil s : edits_rel s [] s 0
| edits_cons s e s1 n1 es s2 n2 :
    edit_rel s e s1 n1 -> edits_rel s1 es s2 n2 -> edits_rel s (e :: es) s2 (n1 + n2).

Lemma greedy_found pat s ps :
  greedy_pieces pat s ps -> str_contains s pat = true -> 1 < length ps.
Proof.
  intros [s' Hno|s' a b ps' Hf Hg] Hc; [congruence|].
  destruct ps'; [by apply greedy_nonempty in Hg|]. cbn. lia.
Qed.

Lemma apply_edits_spec fp es s k :
  match apply_edits fp es s k with
  | Ok (s', k') => exists n, k' = k + n /\ edits_rel s es s' n
  | Err err => exists es1 e es2 s1 n1, es = es1 ++ e :: es2 /\ edits_rel s es1 s1 n1 /\
      old_str e <> "" /\ str_contains s1 (old_str e) = false /\
      err = ToolError_TargetNotFound
        ("target '" +:+ old_str e +:+ "' not found in " +:+ display fp)
  end.
Proof.
  revert s k. induction es as [|e es IH]; intros s k; cbn [apply_edits].
  { exists 0. split; [lia|constructor]. }
  assert (Hstep : forall s1 n1, edit_rel s e s1 n1 ->
    match apply_edits fp es s1 (k + n1) with
    | Ok (s', k') => exists n, k' = k + n /\ edits_rel s (e :: es) s' n
    | Err err => exists es1 e' es2 s2 n2, e :: es = es1 ++ e' :: es2 /\ edits_rel s es1 s2 n2 /\
        old_str e' <> "" /\ str_contains s2 (old_str e') = false /\
        err = ToolError_TargetNotFound
          ("target '" +:+ old_str e' +:+ "' not found in " +:+ display fp)
    end).
  { intros s1 n1 He. specialize (IH s1 (k + n1)).
    destruct (apply_edits fp es s1 (k + n1)) as [[s' k']|err].
    - destruct IH as (n & -> & Hn). exists (n1 + n). split; [lia|]. by econstructor.
    - destruct IH as (es1 & e' & es2 & s2 & n2 & -> & Hr & Hrest).
      exists (e :: es1), e', es2, s2, (n1 + n2). split; [done|]. split; [by econstructor|done]. }
  case_bool_decide as Hold; [by apply Hstep, edit_append|].
  destruct (str_contains s (old_str e)) eqn:Hc; cbn [negb].
  2:{ exists [], e, es, s, 0. split; [done|]. split; [constructor|done]. }
  destruct (default false (replace_all e)) eqn:Hall.
  - apply Hstep. pose proof (pieces_greedy (old_str e) s Hold) as Hg.
    pose proof (greedy_found _ _ _ Hg Hc). unfold str_replace, matches_count.
    apply edit_all; [done| |done|lia|lia]. by destruct (replace_all e) as [[]|].
  - apply Hstep. unfold replacen_1.
    destruct (split_first (old_str e) s) as [[a b]|] eqn:E.
    + apply edit_first; [done| |by apply split_first_spec].
      intros H. by rewrite H in Hall.
    + apply split_first_None in E. congruence.
Qed.

(** * The workspace check *)

Lemma absolute_path_absolute path root :
  is_absolute root = true -> is_absolute (absolute_path path root) = true.
Proof.
  intros Hr. unfold absolute_path. destruct (is_absolute path) eqn:E; [done|].
  destruct root as [|[] root]; try done. by destruct path as [|[] path].
Qed.

(** * Properties *)

(** The content the edits start from. *)
Definition initial_content (io : EditIo) : result string string :=
  if file_exists io then read_to_string io else Ok "".

(** C15. [edit_file] edits in order or not at all: when the tool succeeds it has
    written the old content (empty for a new file) changed by each edit in turn,
    where an edit with an empty target appends, one without [replace_all]
    replaces the leftmost occurrence only and one with [replace_all] every
    occurrence taken from the left without overlap, and the reported counts are
    the edits, the bytes before and the bytes after.  When it fails before the write,
    nothing was written: it fails on a refused path, on an I/O error, or on the first edit
    whose target is missing from the content that the edits before it produced.  It fails
    afterwards only if the write of the edited content itself failed, or if the write
    succeeded and the path cannot be reported because it is not UTF-8. *)
Theorem edit_file_all_or_nothing path root edits io :
  match edit_file_invoke path root edits io with
  | (written, Ok r) =>
      exists content content' n,
        initial_content io = Ok content /\ edits_rel content edits content' n /\
        written = Some (er_path r, content') /\ write_file io = Ok tt /\
        r = mkEditResult (er_path r) n (String.length content) (String.length content')
  | (Some (fp, content'), Err e) =>
      (exists content n, initial_content io = Ok content /\ edits_rel content edits content' n) /\
      ((exists m, write_file io = Err m /\ e = ToolError_Io m) \/
       (write_file io = Ok tt /\ valid_utf8 (path_text fp) = false /\
        e = ToolError_Serialization "path contains invalid UTF-8 characters"))
  | (None, Err e) =>
      edit_validate_path path root = Err e \/ (exists m, e = ToolError_Io m) \/
      exists fp content es1 e' es2 s1 n1,
        edit_validate_path path root = Ok fp /\ initial_content io = Ok content /\
        edits = es1 ++ e' :: es2 /\ edits_rel content es1 s1 n1 /\
        old_str e' <> "" /\ str_contains s1 (old_str e') = false /\
        e = ToolError_TargetNotFound
          ("target '" +:+ old_str e' +:+ "' not found in " +:+ display fp)
  end.
Proof.
  unfold edit_file_invoke. fold (initial_content io).
  destruct (edit_validate_path path root) as [fp|e]; [|by left].
  destruct (initial_content io) as [content|m]; [|right; left; by exists m].
  pose proof (apply_edits_spec fp edits content 0) as Hspec.
  destruct (apply_edits fp edits content 0) as [[content' k]|e].
  - destruct Hspec as (n & -> & Hrel). cbn [Nat.add].
    destruct (match path_parent fp with Some _ => create_dir_all io | None => Ok tt end) as [u|m];
      [|right; left; by exists m].
    destruct (write_file io) as [[]|m]; [|split; [by exists content, n|left; by exists m]].
    unfold edit_result_to_value. cbn [er_path]. destruct (valid_utf8 (path_text fp)) eqn:Hu.
    + exists content, content', n. done.
    + split; [by exists content, n|by right].
  - destruct Hspec as (es1 & e' & es2 & s1 & n1 & -> & Hrest). right. right.
    exists fp, content, es1, e', es2, s1, n1. tauto.
Qed.

(** C16. The tools stay inside the workspace, as far as they check: a path
    accepted for reading or listing is canonical and below the canonical
    workspace root.  A path accepted for editing (absolute workspace root) is
    canonical and below the root if it exists; if it does not exist, its parent
    resolves to a directory below the root, or the parent does not exist either
    and nothing was checked. *)
Theorem workspace_confined path root ws q :
  canonicalize root = Some ws ->
  (read_validate_path path root = Ok q ->
     canonicalize q = Some q /\ is_canonical q = true /\ path_starts_with q ws = true) /\
  (is_absolute root = true -> edit_validate_path path root = Ok q ->
     (canonicalize q = Some q /\ is_canonical q = true /\ path_starts_with q ws = true) \/
     (canonicalize q = None /\ q = absolute_path path root /\
      forall parent pc, path_parent q = Some parent -> canonicalize parent = Some pc ->
        path_starts_with pc ws = true)).
Proof.
  intros Hws. split.
  - unfold read_validate_path. rewrite Hws.
    destruct (canonicalize (absolute_path path root)) as [c|] eqn:Hc; [|done].
    destruct (path_starts_with c ws) eqn:Hin; [|done]. intros [= <-].
    eauto using canonicalize_canonical, canonicalize_idem.
  - intros Habs. unfold edit_validate_path. rewrite Hws, absolute_path_absolute by done.
    destruct (canonicalize (absolute_path path root)) as [c|] eqn:Hc.
    + destruct (path_starts_with c ws) eqn:Hin; [|done]. intros [= <-]. left.
      eauto using canonicalize_canonical, canonicalize_idem.
    + intros Hq. right.
      assert (q = absolute_path path root) as -> by (by repeat case_match; simplify_eq).
      split; [done|]. split; [done|]. intros parent pc Hp Hpc. rewrite Hp, Hpc in Hq.
      by destruct (path_starts_with pc ws).
Qed.

End Tools.

(** ** A way out of the workspace

    A file system with the directories [/] and [/ws] and a file [/ws/a]. *)
Definition demo_paths : list Path :=
  [[RootDir]; [RootDir; Normal "ws"]; [RootDir; Normal "ws"; Normal "a"]].
Definition demo_canonicalize (p : Path) : option Path :=
  List.find (fun q => bool_decide (q = p)) demo_paths.

Lemma demo_canonicalize_id p q : demo_canonicalize p = Some q -> q = p /\ q ∈ demo_paths.
Proof.
  intros [Hin Heq%bool_decide_eq_true]%List.find_some. apply list_elem_of_In in Hin. done.
Qed.

Lemma demo_canonicalize_canonical p q : demo_canonicalize p = Some q -> is_canonical q = true.
Proof.
  intros [_ Hq]%demo_canonicalize_id. unfold demo_paths in Hq. set_unfold. naive_solver.
Qed.

Lemma demo_canonicalize_idem p q : demo_canonicalize p = Some q -> demo_canonicalize q = Some q.
Proof. intros H. destruct (demo_canonicalize_id p q H) as [-> _]. done. Qed.

#[local] Instance demo_fs : FileSystem := {|
  canonicalize := demo_canonicalize;
  canonicalize_canonical := demo_canonicalize_canonical;
  canonicalize_idem := demo_canonicalize_idem;
|}.

Definition demo_root : Path := [RootDir; Normal "ws"].

(** When neither the file nor its directory exists, [edit_file] accepts a path
    that leaves the workspace, creates the directory and writes the file. *)
Lemma edit_escapes_workspace :
  edit_file_invoke [ParentDir; Normal "out"; Normal "new"] demo_root [mkEdit "" "x" None]
    (mkEditIo false (Ok "") (Ok tt) (Ok tt)) =
  (Some ([RootDir; Normal "ws"; ParentDir; Normal "out"; Normal "new"], "x"),
   Ok (mkEditResult [RootDir; Normal "ws"; ParentDir; Normal "out"; Normal "new"] 1 0 1)).
Proof. reflexivity. Qed.

(** A link in the workspace to a file whose name is not UTF-8: the edit is written, and the
    tool reports an error. *)
Definition odd_name : Component := Normal (String "255" "").
Definition link_canonicalize (p : Path) : option Path :=
  if bool_decide (p = [RootDir; Normal "ws"; Normal "link"]) then Some [RootDir; Normal "ws"; odd_name]
  else if bool_decide (p = [RootDir; Normal "ws"; odd_name]) then Some p
  else if bool_decide (p = demo_root) then Some p else None.

Lemma link_canonical p q : link_canonicalize p = Some q ->
  q = [RootDir; Normal "ws"; odd_name] \/ q = demo_root.
Proof. unfold link_canonicalize. repeat case_bool_decide; naive_solver. Qed.

Lemma unprintable_path_written :
  let fs := {| canonicalize := link_canonicalize;
               canonicalize_canonical := fun p q H => ltac:(destruct (link_canonical p q H) as [->| ->]; done);
               canonicalize_idem := fun p q H => ltac:(destruct (link_canonical p q H) as [->| ->]; done) |} in
  edit_file_invoke (FS := fs) [Normal "link"] demo_root [mkEdit "a" "b" None]
    (mkEditIo true (Ok "a") (Ok tt) (Ok tt)) =
  (Some ([RootDir; Normal "ws"; odd_name], "b"),
   Err (ToolError_Serialization "path contains invalid UTF-8 characters")).
Proof. reflexivity. Qed.

Lemma workspace_confined_witness :
  path_starts_with [RootDir; Normal "ws"; Normal "a"] demo_root = true.
Proof.
  refine (proj2 (proj2 (proj1 (workspace_confined [Normal "a"] demo_root demo_root
    [RootDir; Normal "ws"; Normal "a"] _) _))); reflexivity.
Defined.
