(* ===== verification/Analytics.v ===== *)
(** Product analytics, data and storage: persons, identities, events and merge
    records ([crates/loom-analytics-core]), the errors and the repository of
    [crates/loom-server-analytics] (error.rs, repository.rs).

    [AnalyticsRepository] is the source's trait, restricted to the methods of
    identity resolution and event capture; [RepositoryLaws] is what its clients
    rely on, stated on [Tables]; [Sqlite] is the SQLite implementation with the
    constraints of [migrations/032_analytics.sql] and statements that can fail,
    and [sqlite_laws] shows that it keeps the laws.

    Table cells hold values instead of their JSON or RFC 3339 text.  The
    [organizations] table is not modelled: a missing organization is one of the
    failures a statement can have. *)
From stdpp Require Import base list strings gmap sorting.
From Stdlib Require Import ZArith.
From S2P Require Import Prelude CoreTypes.

Definition DateTime := Z.
Definition PersonId := Uuid.
Definition OrgId := Uuid.

(** What the sources use of [serde_json::Value]: the constructor of objects,
    matched and rebuilt. *)
Class JsonObject := {
  jo_json :: SerdeJson;
  as_object : Json -> option (gmap string Json);
  of_object : gmap string Json -> Json;
  as_object_of_object : forall m, as_object (of_object m) = Some m;
}.

Section Analytics.
Context `{JO : JsonObject}.

(** ** person.rs *)
Record Person := mkPerson {
  p_id : PersonId;
  p_org_id : OrgId;
  properties : Json;
  p_created_at : DateTime;
  updated_at : DateTime;
  merged_into_id : option PersonId;
  merged_at : option DateTime;
}.

(** [now] and [id] are what [Utc::now] and [PersonId::new] return. *)
Definition Person_new (now : DateTime) (id : PersonId) (org : OrgId) : Person :=
  mkPerson id org (of_object ∅) now now None None.

Definition with_properties (props : Json) (p : Person) : Person :=
  mkPerson (p_id p) (p_org_id p) props (p_created_at p) (updated_at p)
    (merged_into_id p) (merged_at p).

Definition set_updated_at (now : DateTime) (p : Person) : Person :=
  mkPerson (p_id p) (p_org_id p) (properties p) (p_created_at p) now
    (merged_into_id p) (merged_at p).

Definition is_merged (p : Person) : bool := bool_decide (is_Some (merged_into_id p)).

(** [if let Value::Object(ref mut map) = self.properties { map := f(map) }]. *)
Definition update_object (f : gmap string Json -> gmap string Json) (v : Json) : Json :=
  match as_object v with Some m => of_object (f m) | None => v end.

Definition set_property (now : DateTime) (key : string) (value : Json) (p : Person) : Person :=
  set_updated_at now (with_properties (update_object (insert key value) (properties p)) p).

(** [for (key, value) in new { existing.insert(key, value); }] *)
Definition insert_all (new existing : gmap string Json) : gmap string Json :=
  map_fold (fun key value m => <[key := value]> m) existing new.

Definition set_properties (now : DateTime) (props : Json) (p : Person) : Person :=
  set_updated_at now
    (match as_object (properties p), as_object props with
     | Some existing, Some new => with_properties (of_object (insert_all new existing)) p
     | _, _ => p
     end).

(** [map.entry(key).or_insert(value)]. *)
Definition or_insert (key : string) (value : Json) (m : gmap string Json) : gmap string Json :=
  match m !! key with Some _ => m | None => <[key := value]> m end.

Definition set_property_once (now : DateTime) (key : string) (value : Json) (p : Person)
    : Person :=
  set_updated_at now (with_properties (update_object (or_insert key value) (properties p)) p).

Definition unset_property (now : DateTime) (key : string) (p : Person) : Person :=
  set_updated_at now (with_properties (update_object (delete key) (properties p)) p).

(** The two readings of the clock. *)
Definition merge_into (now now' : DateTime) (winner : PersonId) (p : Person) : Person :=
  mkPerson (p_id p) (p_org_id p) (properties p) (p_created_at p) now'
    (Some winner) (Some now).

(** ** identity.rs *)
Inductive IdentityType := Anonymous | Identified.

#[export] Instance IdentityType_eq_dec : EqDecision IdentityType.
Proof. solve_decision. Defined.

Definition IdentityType_as_str (t : IdentityType) : string :=
  match t with Anonymous => "anonymous" | Identified => "identified" end.

Definition IdentityType_from_str (s : string) : result string IdentityType :=
  if (s =? "anonymous")%string then Ok Anonymous
  else if (s =? "identified")%string then Ok Identified
  else Err ("invalid identity type: " +:+ s).

Record PersonIdentity := mkIdentity {
  i_id : Uuid;
  i_person_id : PersonId;
  i_distinct_id : string;
  identity_type : IdentityType;
  i_created_at : DateTime;
}.

(** [id] and [now] are what [PersonIdentityId::new] and [Utc::now] return. *)
Definition PersonIdentity_new (id : Uuid) (now : DateTime) (person : PersonId)
    (distinct : string) (t : IdentityType) : PersonIdentity :=
  mkIdentity id person distinct t now.

Definition is_identified (i : PersonIdentity) : bool :=
  bool_decide (identity_type i = Identified).
Definition is_anonymous (i : PersonIdentity) : bool :=
  bool_decide (identity_type i = Anonymous).

Definition MAX_DISTINCT_ID_LENGTH : nat := 200.

Definition validate_distinct_id (s : string) : bool :=
  negb (s =? "")%string && (String.length s <=? MAX_DISTINCT_ID_LENGTH)%nat.

Record PersonWithIdentities := mkPersonWithIdentities {
  person : Person;
  pwi_identities : list PersonIdentity;
}.

Definition has_identified_identity (p : PersonWithIdentities) : bool :=
  existsb (fun i => bool_decide (identity_type i = Identified)) (pwi_identities p).

(** ** identify.rs *)
Record IdentifyPayload := mkIdentifyPayload {
  ip_distinct_id : string;
  ip_user_id : string;
  ip_properties : Json;
}.

Record AliasPayload := mkAliasPayload {
  ap_distinct_id : string;
  ap_alias : string;
}.

Inductive MergeReason :=
| MR_Identify (distinct_id user_id : string)
| MR_Alias (distinct_id alias : string)
| MR_Manual (by_user_id : string).

Record PersonMerge := mkPersonMerge {
  m_id : Uuid;
  winner_id : PersonId;
  loser_id : PersonId;
  reason : MergeReason;
  m_merged_at : DateTime;
}.

(** ** event.rs *)
Record Event := mkEvent {
  e_id : Uuid;
  e_org_id : OrgId;
  e_person_id : option PersonId;
  e_distinct_id : string;
  event_name : string;
  e_properties : Json;
  timestamp : DateTime;
  ip_address : option string;
  user_agent : option string;
  lib : option string;
  lib_version : option string;
  e_created_at : DateTime;
}.

Definition Event_new (id : Uuid) (now : DateTime) (org : OrgId) (distinct name : string)
    : Event :=
  mkEvent id org None distinct name (of_object ∅) now None None None None now.

Definition with_person_id (p : option PersonId) (e : Event) : Event :=
  mkEvent (e_id e) (e_org_id e) p (e_distinct_id e) (event_name e) (e_properties e)
    (timestamp e) (ip_address e) (user_agent e) (lib e) (lib_version e) (e_created_at e).

(** ** error.rs of both crates; errors of libraries are their messages *)
Inductive AnalyticsError :=
| PersonNotFound (s : string)
| EventNotFound (s : string)
| ApiKeyNotFound
| ApiKeyRevoked
| InvalidApiKeyFormat
| InvalidDistinctId (s : string)
| InvalidEventName (s : string)
| PropertiesTooLarge (size max : nat)
| InsufficientPermissions (s : string)
| AE_Database (s : string)
| AE_Serialization (s : string)
| AE_Internal (s : string).

Inductive AnalyticsServerError :=
| Core (e : AnalyticsError)
| Database (e : string)
| Serialization (e : string)
| ApiKeyVerification
| Unauthorized (s : string)
| Forbidden (s : string)
| NotFound (s : string)
| Internal (s : string).

(** ** repository.rs: the trait *)

(** A repository method: the storage and what the method returns. *)
Definition RepoM (W A : Type) : Type := W -> W * result AnalyticsServerError A.

Class AnalyticsRepository (W : Type) := {
  create_person : Person -> RepoM W unit;
  get_person_by_id : PersonId -> RepoM W (option Person);
  get_person_with_identities : PersonId -> RepoM W (option PersonWithIdentities);
  update_person : Person -> RepoM W unit;
  create_identity : PersonIdentity -> RepoM W unit;
  get_identity_by_distinct_id : OrgId -> string -> RepoM W (option PersonIdentity);
  list_identities_for_person : PersonId -> RepoM W (list PersonIdentity);
  transfer_identities : PersonId -> PersonId -> RepoM W nat;
  insert_event : Event -> RepoM W unit;
  reassign_events : PersonId -> PersonId -> RepoM W nat;
  create_merge : PersonMerge -> RepoM W unit;
  (** The time is what [Utc::now] returns. *)
  update_api_key_last_used : DateTime -> Uuid -> RepoM W unit;
}.

(** ** What a repository promises *)

(** The contents of a repository. *)
Record Tables := mkTables {
  persons : gmap PersonId Person;
  identities : list PersonIdentity;
  events : list Event;
  merges : list PersonMerge;
}.

Definition set_persons (f : gmap PersonId Person -> gmap PersonId Person) (T : Tables) :=
  mkTables (f (persons T)) (identities T) (events T) (merges T).
Definition set_identities (f : list PersonIdentity -> list PersonIdentity) (T : Tables) :=
  mkTables (persons T) (f (identities T)) (events T) (merges T).
Definition set_events (f : list Event -> list Event) (T : Tables) :=
  mkTables (persons T) (identities T) (f (events T)) (merges T).
Definition set_merges (f : list PersonMerge -> list PersonMerge) (T : Tables) :=
  mkTables (persons T) (identities T) (events T) (f (merges T)).

(** [UPDATE analytics_persons SET properties, updated_at, merged_into_id,
    merged_at]: the columns the statement leaves alone are those of [old]. *)
Definition person_columns (new old : Person) : Person :=
  mkPerson (p_id old) (p_org_id old) (properties new) (p_created_at old) (updated_at new)
    (merged_into_id new) (merged_at new).

Definition move_identity (from to : PersonId) (i : PersonIdentity) : PersonIdentity :=
  if decide (i_person_id i = from)
  then mkIdentity (i_id i) to (i_distinct_id i) (identity_type i) (i_created_at i) else i.

Definition move_event (from to : PersonId) (e : Event) : Event :=
  if decide (e_person_id e = Some from) then with_person_id (Some to) e else e.

Definition identities_of (T : Tables) (p : PersonId) : list PersonIdentity :=
  filter (fun i => i_person_id i = p) (identities T).
Definition events_of (T : Tables) (p : PersonId) : list Event :=
  filter (fun e => e_person_id e = Some p) (events T).

Definition org_of (T : Tables) (p : PersonId) : option OrgId := p_org_id <$> persons T !! p.

(** Row [i] answers the query for [x] in organization [org]. *)
Definition answers (T : Tables) (org : OrgId) (x : string) (i : PersonIdentity) : Prop :=
  i_distinct_id i = x /\ org_of T (i_person_id i) = Some org.

(** Method [m] is the abstract operation with constraint [pre], effect [eff] and
    answer [post]: when it succeeds the constraint held, the effect is on the
    tables and the answer is right; when it fails the error is a database error
    and the tables are as before, and an available storage only fails when the
    constraint is violated. *)
Definition implements {W A} (view : W -> Tables) (available : W -> Prop) (m : RepoM W A)
    (pre : Tables -> Prop) (eff : Tables -> Tables) (post : Tables -> A -> Prop) : Prop :=
  forall w,
    match m w with
    | (w', Ok a) => pre (view w) /\ view w' = eff (view w) /\ post (view w) a
    | (w', Err e) => (exists msg, e = Database msg) /\ view w' = view w
                     /\ (available w -> ~ pre (view w))
    end /\ (available w -> available (m w).1).

Definition free_identity (i : PersonIdentity) (T : Tables) : Prop :=
  is_Some (persons T !! i_person_id i) /\
  Forall (fun j => i_id j <> i_id i /\
                   ~ (i_person_id j = i_person_id i /\ i_distinct_id j = i_distinct_id i))
    (identities T).

Class RepositoryLaws (W : Type) {R : AnalyticsRepository W} := {
  view : W -> Tables;
  available : W -> Prop;
  create_person_law p : implements view available (create_person p)
    (fun T => persons T !! p_id p = None)
    (set_persons (insert (p_id p) p)) (fun _ _ => True);
  get_person_by_id_law id : implements view available (get_person_by_id id)
    (fun _ => True) (fun T => T) (fun T a => a = persons T !! id);
  get_person_with_identities_law id :
    implements view available (get_person_with_identities id)
    (fun _ => True) (fun T => T)
    (fun T a => match a with
                | Some pi => persons T !! id = Some (person pi)
                             /\ pwi_identities pi ≡ₚ identities_of T id
                | None => persons T !! id = None
                end);
  update_person_law p : implements view available (update_person p)
    (fun T => is_Some (persons T !! p_id p) ->
              forall w, merged_into_id p = Some w -> is_Some (persons T !! w))
    (set_persons (alter (person_columns p) (p_id p))) (fun _ _ => True);
  create_identity_law i : implements view available (create_identity i)
    (free_identity i) (set_identities (fun l => l ++ [i])) (fun _ _ => True);
  get_identity_by_distinct_id_law org x :
    implements view available (get_identity_by_distinct_id org x)
    (fun _ => True) (fun T => T)
    (fun T a => match a with
                | Some i => i ∈ identities T /\ answers T org x i
                | None => Forall (fun i => ~ answers T org x i) (identities T)
                end);
  list_identities_for_person_law p :
    implements view available (list_identities_for_person p)
    (fun _ => True) (fun T => T) (fun T a => a ≡ₚ identities_of T p);
  transfer_identities_law from to : implements view available (transfer_identities from to)
    (fun T => (identities_of T from <> [] -> is_Some (persons T !! to)) /\
       NoDup ((fun i => (i_person_id i, i_distinct_id i)) <$>
              (move_identity from to <$> identities T)))
    (set_identities (fmap (move_identity from to)))
    (fun T n => n = length (identities_of T from));
  insert_event_law e : implements view available (insert_event e)
    (fun T => Forall (fun e' => e_id e' <> e_id e) (events T) /\
       forall p, e_person_id e = Some p -> is_Some (persons T !! p))
    (set_events (fun l => l ++ [e])) (fun _ _ => True);
  reassign_events_law from to : implements view available (reassign_events from to)
    (fun T => events_of T from <> [] -> is_Some (persons T !! to))
    (set_events (fmap (move_event from to)))
    (fun T n => n = length (events_of T from));
  create_merge_law m : implements view available (create_merge m)
    (fun T => Forall (fun m' => m_id m' <> m_id m) (merges T) /\
       is_Some (persons T !! winner_id m) /\ is_Some (persons T !! loser_id m))
    (set_merges (fun l => l ++ [m])) (fun _ _ => True);
  update_api_key_last_used_law now k :
    implements view available (update_api_key_last_used now k)
    (fun _ => True) (fun T => T) (fun _ _ => True);
}.

(** ** repository.rs: the SQLite implementation *)

(** The rows of the tables in insertion order (of [analytics_api_keys] the id
    and [last_used_at]), and for each statement still to come whether it fails
    (for example because the database is locked); statements past the end of the
    list do not. *)
Record Sqlite := mkSqlite {
  person_rows : list Person;
  identity_rows : list PersonIdentity;
  event_rows : list Event;
  merge_rows : list PersonMerge;
  key_rows : list (Uuid * option DateTime);
  faults : list bool;
}.

Definition set_faults (fs : list bool) (db : Sqlite) : Sqlite :=
  mkSqlite (person_rows db) (identity_rows db) (event_rows db) (merge_rows db)
    (key_rows db) fs.

(** One statement: [None] is a violated constraint. *)
Definition statement {A} (f : Sqlite -> option (Sqlite * A)) : RepoM Sqlite A := fun db =>
  match faults db with
  | true :: fs => (set_faults fs db, Err (Database "statement failed"))
  | fs =>
      let db := set_faults (drop 1 fs) db in
      match f db with
      | Some (db', a) => (db', Ok a)
      | None => (db, Err (Database "constraint failed"))
      end
  end.

Definition find_person (db : Sqlite) (id : PersonId) : option Person :=
  List.find (fun p => bool_decide (p_id p = id)) (person_rows db).

Definition sqlite_create_person (p : Person) : RepoM Sqlite unit :=
  statement (fun db =>
    guard (find_person db (p_id p) = None);;
    Some (mkSqlite (person_rows db ++ [p]) (identity_rows db) (event_rows db)
            (merge_rows db) (key_rows db) (faults db), tt)).

Definition sqlite_get_person_by_id (id : PersonId) : RepoM Sqlite (option Person) :=
  statement (fun db => Some (db, find_person db id)).

Definition by_created_at (i j : PersonIdentity) : Prop := (i_created_at i <= i_created_at j)%Z.
#[export] Instance by_created_at_dec : RelDecision by_created_at.
Proof. unfold by_created_at. solve_decision. Defined.

Definition sqlite_list_identities_for_person (p : PersonId)
    : RepoM Sqlite (list PersonIdentity) :=
  statement (fun db =>
    Some (db, merge_sort by_created_at
                (filter (fun i => i_person_id i = p) (identity_rows db)))).

Definition sqlite_get_person_with_identities (id : PersonId)
    : RepoM Sqlite (option PersonWithIdentities) := fun db =>
  match sqlite_get_person_by_id id db with
  | (db, Ok (Some p)) =>
      match sqlite_list_identities_for_person id db with
      | (db, Ok l) => (db, Ok (Some (mkPersonWithIdentities p l)))
      | (db, Err e) => (db, Err e)
      end
  | (db, Ok None) => (db, Ok None)
  | (db, Err e) => (db, Err e)
  end.

(** The foreign key of [merged_into_id] is checked when a row is updated. *)
Definition sqlite_update_person (p : Person) : RepoM Sqlite unit :=
  statement (fun db =>
    guard (is_Some (find_person db (p_id p)) ->
           is_Some (merged_into_id p ≫= find_person db) \/ merged_into_id p = None);;
    Some (mkSqlite
            ((fun old => if decide (p_id old = p_id p) then person_columns p old else old)
               <$> person_rows db)
            (identity_rows db) (event_rows db) (merge_rows db) (key_rows db) (faults db), tt)).

(** Primary key, [UNIQUE(person_id, distinct_id)] and the foreign key. *)
Definition sqlite_create_identity (i : PersonIdentity) : RepoM Sqlite unit :=
  statement (fun db =>
    guard (is_Some (find_person db (i_person_id i)));;
    guard (Forall (fun j => i_id j <> i_id i /\
             ~ (i_person_id j = i_person_id i /\ i_distinct_id j = i_distinct_id i))
             (identity_rows db));;
    Some (mkSqlite (person_rows db) (identity_rows db ++ [i]) (event_rows db)
            (merge_rows db) (key_rows db) (faults db), tt)).

(** The join with [analytics_persons]; [fetch_optional] takes the first row. *)
Definition sqlite_get_identity_by_distinct_id (org : OrgId) (x : string)
    : RepoM Sqlite (option PersonIdentity) :=
  statement (fun db =>
    Some (db, List.find (fun i =>
      bool_decide (i_distinct_id i = x /\
                   p_org_id <$> find_person db (i_person_id i) = Some org))
      (identity_rows db))).

Definition sqlite_transfer_identities (from to : PersonId) : RepoM Sqlite nat :=
  statement (fun db =>
    let moved := filter (fun i => i_person_id i = from) (identity_rows db) in
    let rows := move_identity from to <$> identity_rows db in
    guard (moved = [] \/ is_Some (find_person db to));;
    guard (NoDup ((fun i => (i_person_id i, i_distinct_id i)) <$> rows));;
    Some (mkSqlite (person_rows db) rows (event_rows db) (merge_rows db) (key_rows db) (faults db),
          length moved)).

Definition sqlite_insert_event (e : Event) : RepoM Sqlite unit :=
  statement (fun db =>
    guard (Forall (fun e' => e_id e' <> e_id e) (event_rows db));;
    guard (e_person_id e = None \/ is_Some (e_person_id e ≫= find_person db));;
    Some (mkSqlite (person_rows db) (identity_rows db) (event_rows db ++ [e])
            (merge_rows db) (key_rows db) (faults db), tt)).

Definition sqlite_reassign_events (from to : PersonId) : RepoM Sqlite nat :=
  statement (fun db =>
    let n := length (filter (fun e => e_person_id e = Some from) (event_rows db)) in
    guard (n = 0 \/ is_Some (find_person db to));;
    Some (mkSqlite (person_rows db) (identity_rows db)
            (move_event from to <$> event_rows db) (merge_rows db) (key_rows db) (faults db), n)).

Definition sqlite_create_merge (m : PersonMerge) : RepoM Sqlite unit :=
  statement (fun db =>
    guard (Forall (fun m' => m_id m' <> m_id m) (merge_rows db));;
    guard (is_Some (find_person db (winner_id m)) /\ is_Some (find_person db (loser_id m)));;
    Some (mkSqlite (person_rows db) (identity_rows db) (event_rows db)
            (merge_rows db ++ [m]) (key_rows db) (faults db), tt)).

Definition sqlite_update_api_key_last_used (now : DateTime) (k : Uuid) : RepoM Sqlite unit :=
  statement (fun db =>
    Some (mkSqlite (person_rows db) (identity_rows db) (event_rows db) (merge_rows db)
            ((fun row => if decide (row.1 = k) then (k, Some now) else row) <$> key_rows db)
            (faults db), tt)).

#[export] Instance sqlite_repository : AnalyticsRepository Sqlite := {
  create_person := sqlite_create_person;
  get_person_by_id := sqlite_get_person_by_id;
  get_person_with_identities := sqlite_get_person_with_identities;
  update_person := sqlite_update_person;
  create_identity := sqlite_create_identity;
  get_identity_by_distinct_id := sqlite_get_identity_by_distinct_id;
  list_identities_for_person := sqlite_list_identities_for_person;
  transfer_identities := sqlite_transfer_identities;
  insert_event := sqlite_insert_event;
  reassign_events := sqlite_reassign_events;
  create_merge := sqlite_create_merge;
  update_api_key_last_used := sqlite_update_api_key_last_used;
}.

(** ** The SQLite implementation keeps the laws *)

Definition sqlite_view (db : Sqlite) : Tables :=
  mkTables (list_to_map ((fun p => (p_id p, p)) <$> person_rows db))
    (identity_rows db) (event_rows db) (merge_rows db).

Definition sqlite_available (db : Sqlite) : Prop := Forall (fun b => b = false) (faults db).

Lemma guard_then {A} (P : Prop) `{Decision P} (k : option A) :
  (guard P;; k) = if decide P then k else None.
Proof. by case_guard; destruct (decide P). Qed.

Lemma list_to_map_find (rows : list Person) (id : PersonId) :
  (list_to_map ((fun p => (p_id p, p)) <$> rows) : gmap PersonId Person) !! id
  = List.find (fun p => bool_decide (p_id p = id)) rows.
Proof.
  induction rows as [|p rows IH]; simpl; [by rewrite lookup_empty|].
  case_bool_decide as E; [by rewrite E, lookup_insert_eq|by rewrite lookup_insert_ne].
Qed.

Lemma find_person_view db id : find_person db id = persons (sqlite_view db) !! id.
Proof. symmetry. apply list_to_map_find. Qed.

Lemma statement_implements {A} (f : Sqlite -> option (Sqlite * A)) pre eff post :
  (forall db, match f db with
              | Some (db', a) => pre (sqlite_view db) /\ sqlite_view db' = eff (sqlite_view db)
                                 /\ post (sqlite_view db) a /\ faults db' = faults db
              | None => ~ pre (sqlite_view db)
              end) ->
  implements sqlite_view sqlite_available (statement f) pre eff post.
Proof.
  intros Hf db. unfold statement, sqlite_available.
  pose proof (Hf (set_faults (drop 1 (faults db)) db)) as H.
  destruct (faults db) as [|[] fs] eqn:E; cbn [drop] in *.
  2: { cbn. split_and!; [by eexists|done|intros Hs|intros Hs]; inversion Hs; done. }
  all: destruct (f _) as [[db' a]|]; cbn [fst];
    [destruct H as (Hpre & Hv & Hp & ->); split; [done|]|split; [by eauto|]];
    cbn; intros Hs; try done; by apply Forall_inv_tail in Hs.
Qed.

Lemma create_person_ok p : implements sqlite_view sqlite_available (sqlite_create_person p)
  (fun T => persons T !! p_id p = None)
  (set_persons (insert (p_id p) p)) (fun _ _ => True).
Proof.
  apply statement_implements. intros db. case_guard as E; cbn; rewrite find_person_view in E;
    [|done]. split_and!; try done.
  unfold sqlite_view, set_persons; cbn. f_equal.
  rewrite fmap_app, list_to_map_app. cbn.
  rewrite <- insert_union_r by exact E. by rewrite (right_id_L ∅ (∪)).
Qed.

Lemma get_person_by_id_ok id :
  implements sqlite_view sqlite_available (sqlite_get_person_by_id id)
  (fun _ => True) (fun T => T) (fun T a => a = persons T !! id).
Proof.
  apply statement_implements. intros db. split_and!; [done..| |done]. apply find_person_view.
Qed.

Lemma list_identities_ok p :
  implements sqlite_view sqlite_available (sqlite_list_identities_for_person p)
  (fun _ => True) (fun T => T) (fun T a => a ≡ₚ identities_of T p).
Proof.
  apply statement_implements. intros db. split_and!; [done..| |done].
  apply merge_sort_Permutation.
Qed.

Lemma get_person_with_identities_ok id :
  implements sqlite_view sqlite_available (sqlite_get_person_with_identities id)
  (fun _ => True) (fun T => T)
  (fun T a => match a with
              | Some pi => persons T !! id = Some (person pi)
                           /\ pwi_identities pi ≡ₚ identities_of T id
              | None => persons T !! id = None
              end).
Proof.
  intros db. unfold sqlite_get_person_with_identities.
  pose proof (get_person_by_id_ok id db) as H1.
  destruct (sqlite_get_person_by_id id db) as [db1 [[p|]|e]]; cbn [fst] in H1 |- *;
    [|by intuition|by intuition].
  pose proof (list_identities_ok id db1) as H2.
  destruct (sqlite_list_identities_for_person id db1) as [db2 [l|e]]; cbn [fst] in H2 |- *;
    destruct H1 as [(_ & Hv & Hp) Ha1], H2 as [H2 Ha2].
  - destruct H2 as (_ & Hv2 & Hl). rewrite Hv in Hl.
    split_and!; [done|congruence|done|done|by auto].
  - destruct H2 as (He & Hv2 & Hn). split_and!; [done|congruence|by auto..].
Qed.

Lemma update_rows p (rows : list Person) :
  (list_to_map ((fun q => (p_id q, q)) <$>
     ((fun old => if decide (p_id old = p_id p) then person_columns p old else old) <$> rows))
     : gmap PersonId Person)
  = alter (person_columns p) (p_id p) (list_to_map ((fun q => (p_id q, q)) <$> rows)).
Proof.
  apply map_eq. intros id. rewrite lookup_alter, !list_to_map_find.
  induction rows as [|q rows IH]; [by destruct (decide (p_id p = id))|].
  cbn [fmap list_fmap List.find].
  destruct (decide (p_id q = p_id p)) as [E|N]; cbn [person_columns p_id]; rewrite ?E in *.
  - rewrite (bool_decide_true (p_id p = p_id p)) by done.
    by destruct (decide (p_id p = id)); [rewrite bool_decide_true by done
      |rewrite bool_decide_false by done].
  - rewrite (bool_decide_false (p_id q = p_id p)) by done.
    destruct (decide (p_id p = id)) as [<-|]; [|by rewrite IH].
    by rewrite bool_decide_false by done.
Qed.

Lemma update_person_ok p : implements sqlite_view sqlite_available (sqlite_update_person p)
  (fun T => is_Some (persons T !! p_id p) ->
            forall w, merged_into_id p = Some w -> is_Some (persons T !! w))
  (set_persons (alter (person_columns p) (p_id p))) (fun _ _ => True).
Proof.
  apply statement_implements. intros db. rewrite guard_then.
  destruct (decide _) as [E|E]; rewrite find_person_view in E.
  - split_and!; [|by unfold sqlite_view, set_persons; cbn; by rewrite update_rows|done..].
    intros Hs w Hw. specialize (E Hs). rewrite Hw in E. cbn [mbind option_bind] in E.
    rewrite find_person_view in E. by destruct E.
  - intros Hc. apply E. intros Hs. destruct (merged_into_id p) as [w|]; [left|by right].
    cbn [mbind option_bind]. rewrite find_person_view. by apply Hc.
Qed.

Lemma create_identity_ok i : implements sqlite_view sqlite_available (sqlite_create_identity i)
  (free_identity i) (set_identities (fun l => l ++ [i])) (fun _ _ => True).
Proof.
  apply statement_implements. intros db. unfold free_identity. rewrite !guard_then.
  destruct (decide _) as [E|E]; rewrite find_person_view in E; [|tauto].
  destruct (decide _) as [F|F]; [by split_and!|tauto].
Qed.

Lemma get_identity_ok org x :
  implements sqlite_view sqlite_available (sqlite_get_identity_by_distinct_id org x)
  (fun _ => True) (fun T => T)
  (fun T a => match a with
              | Some i => i ∈ identities T /\ answers T org x i
              | None => Forall (fun i => ~ answers T org x i) (identities T)
              end).
Proof.
  apply statement_implements. intros db. split_and!; [done..| |done].
  destruct (List.find _ _) as [i|] eqn:E.
  - apply List.find_some in E as [Hin Hb]. apply bool_decide_eq_true in Hb.
    rewrite find_person_view in Hb. split; [by apply list_elem_of_In|done].
  - apply Forall_forall. intros i Hi Ha.
    assert (E' := List.find_none _ _ E i). cbn beta in E'.
    rewrite bool_decide_eq_false, find_person_view in E'.
    apply E'; [by apply list_elem_of_In|done].
Qed.

Lemma transfer_identities_ok from to :
  implements sqlite_view sqlite_available (sqlite_transfer_identities from to)
  (fun T => (identities_of T from <> [] -> is_Some (persons T !! to)) /\
     NoDup ((fun i => (i_person_id i, i_distinct_id i)) <$>
            (move_identity from to <$> identities T)))
  (set_identities (fmap (move_identity from to)))
  (fun T n => n = length (identities_of T from)).
Proof.
  apply statement_implements. intros db. cbn zeta. rewrite !guard_then.
  destruct (decide _) as [E|E]; rewrite find_person_view in E.
  - destruct (decide _) as [F|F]; [|by intros [_ ?]].
    split_and!; try done. intros N. by destruct E.
  - intros [Hc _]. apply E.
    destruct (decide (filter (fun i => i_person_id i = from) (identity_rows db) = []));
      [by left|right; by apply Hc].
Qed.

Lemma insert_event_ok e : implements sqlite_view sqlite_available (sqlite_insert_event e)
  (fun T => Forall (fun e' => e_id e' <> e_id e) (events T) /\
     forall p, e_person_id e = Some p -> is_Some (persons T !! p))
  (set_events (fun l => l ++ [e])) (fun _ _ => True).
Proof.
  apply statement_implements. intros db. rewrite !guard_then.
  destruct (decide _) as [E|E]; [|by intros []].
  destruct (decide _) as [F|F].
  - split_and!; try done. intros p Hp. rewrite Hp in F. cbn [mbind option_bind] in F.
    rewrite find_person_view in F. by destruct F.
  - intros [_ Hc]. apply F. destruct (e_person_id e) as [p|]; [right|by left].
    cbn [mbind option_bind]. rewrite find_person_view. by apply Hc.
Qed.

Lemma reassign_events_ok from to :
  implements sqlite_view sqlite_available (sqlite_reassign_events from to)
  (fun T => events_of T from <> [] -> is_Some (persons T !! to))
  (set_events (fmap (move_event from to)))
  (fun T n => n = length (events_of T from)).
Proof.
  apply statement_implements. intros db. cbn zeta. rewrite guard_then.
  destruct (decide _) as [E|E]; rewrite find_person_view in E.
  - split_and!; try done. intros N. destruct E as [E|]; [|done].
    by apply nil_length_inv in E.
  - intros Hc. apply E. destruct (nil_or_length_pos (events_of (sqlite_view db) from)) as [H|H].
    + left. exact (f_equal length H).
    + right. apply Hc. intros H0. by rewrite H0 in H.
Qed.

Lemma create_merge_ok m : implements sqlite_view sqlite_available (sqlite_create_merge m)
  (fun T => Forall (fun m' => m_id m' <> m_id m) (merges T) /\
     is_Some (persons T !! winner_id m) /\ is_Some (persons T !! loser_id m))
  (set_merges (fun l => l ++ [m])) (fun _ _ => True).
Proof.
  apply statement_implements. intros db. rewrite !guard_then.
  destruct (decide _) as [E|E]; [|by intros []].
  destruct (decide _) as [F|F]; rewrite !find_person_view in F; [|tauto].
  by destruct F; split_and!.
Qed.

Lemma update_api_key_ok now k :
  implements sqlite_view sqlite_available (sqlite_update_api_key_last_used now k)
  (fun _ => True) (fun T => T) (fun _ _ => True).
Proof. by apply statement_implements. Qed.

#[export] Instance sqlite_laws : RepositoryLaws Sqlite := {
  view := sqlite_view;
  available := sqlite_available;
  create_person_law := create_person_ok;
  get_person_by_id_law := get_person_by_id_ok;
  get_person_with_identities_law := get_person_with_identities_ok;
  update_person_law := update_person_ok;
  create_identity_law := create_identity_ok;
  get_identity_by_distinct_id_law := get_identity_ok;
  list_identities_for_person_law := list_identities_ok;
  transfer_identities_law := transfer_identities_ok;
  insert_event_law := insert_event_ok;
  reassign_events_law := reassign_events_ok;
  create_merge_law := create_merge_ok;
  update_api_key_last_used_law := update_api_key_ok;
}.

End Analytics.
