(* ===== verification/Identity.v ===== *)
(** Identity resolution, [crates/loom-server-analytics]: the service that links
    distinct ids to persons and merges persons (identity_resolution.rs) and the
    handlers that call it (handlers/identify.rs, handlers/capture.rs).

    The service is written against [AnalyticsRepository] and its theorems are
    proved from [RepositoryLaws].  [uuid_at n] and [time_at n] are the results
    of the n-th call of [Uuid::new_v4] or [Uuid::now_v7] and of [Utc::now]. *)
From stdpp Require Import base list strings gmap relations.
From Stdlib Require Import ZArith.
From S2P Require Import Prelude CoreTypes Analytics.

Record PersonMergeDetails := mkDetails {
  d_org_id : OrgId;
  d_winner_id : PersonId;
  d_loser_id : PersonId;
  d_reason : MergeReason;
  events_reassigned : nat;
  identities_transferred : nat;
}.

Section Service.
Context `{JO : JsonObject} {W : Type} {R : AnalyticsRepository W}.
Context (uuid_at : nat -> Uuid) (time_at : nat -> DateTime).
(** Whether a [MergeAuditHook] is configured; what it receives is in [audit]. *)
Context (audit_hook : bool).

(** ** The service's effects *)
Record Service := mkService {
  storage : W;
  uuids : nat;
  readings : nat;
  audit : list PersonMergeDetails;
}.

Definition SvcM (A : Type) : Type := Service -> Service * result AnalyticsServerError A.

#[export] Instance svc_ret : MRet SvcM := fun A a s => (s, Ok a).
#[export] Instance svc_bind : MBind SvcM := fun A B k m s =>
  match m s with
  | (s', Ok a) => k a s'
  | (s', Err e) => (s', Err e)
  end.

Definition call {A} (m : RepoM W A) : SvcM A := fun s =>
  match m (storage s) with
  | (w, r) => (mkService w (uuids s) (readings s) (audit s), r)
  end.
Definition new_uuid : SvcM Uuid := fun s =>
  (mkService (storage s) (S (uuids s)) (readings s) (audit s), Ok (uuid_at (uuids s))).
Definition utc_now : SvcM DateTime := fun s =>
  (mkService (storage s) (uuids s) (S (readings s)) (audit s), Ok (time_at (readings s))).
Definition on_merge (d : PersonMergeDetails) : SvcM unit := fun s =>
  (mkService (storage s) (uuids s) (readings s) (audit s ++ [d]), Ok tt).
Definition ok_or_internal {A} (msg : string) (o : option A) : SvcM A := fun s =>
  (s, match o with Some a => Ok a | None => Err (Internal msg) end).
(** The result of [m] as a value, for [match] and [if let Err]. *)
Definition attempt {A} (m : SvcM A) : SvcM (result AnalyticsServerError A) := fun s =>
  match m s with (s', r) => (s', Ok r) end.

Definition new_person (org : OrgId) : SvcM Person :=
  now ← utc_now; id ← new_uuid; mret (Person_new now id org).
Definition new_identity (p : PersonId) (x : string) (t : IdentityType) : SvcM PersonIdentity :=
  id ← new_uuid; now ← utc_now; mret (PersonIdentity_new id now p x t).
Definition anonymous := fun p x => new_identity p x Anonymous.
Definition identified := fun p x => new_identity p x Identified.
Definition set_person_properties (props : Json) (p : Person) : SvcM Person :=
  now ← utc_now; mret (set_properties now props p).

(** ** identity_resolution.rs *)

(** The end of [resolve_person_for_distinct_id]. *)
Definition create_anonymous_person (org : OrgId) (x : string) : SvcM PersonWithIdentities :=
  p ← new_person org;
  call (create_person p);;
  i ← anonymous (p_id p) x;
  call (create_identity i);;
  mret (mkPersonWithIdentities p [i]).

Definition resolve_person_for_distinct_id (org : OrgId) (x : string)
    : SvcM PersonWithIdentities :=
  found ← call (get_identity_by_distinct_id org x);
  match found with
  | Some identity =>
      owner ← call (get_person_with_identities (i_person_id identity));
      match owner with
      | Some pi =>
          if is_merged (person pi) then
            match merged_into_id (person pi) with
            | Some m =>
                winner ← call (get_person_with_identities m);
                match winner with
                | Some winner => mret winner
                | None => mret pi
                end
            | None => mret pi
            end
          else mret pi
      | None => create_anonymous_person org x
      end
  | None => create_anonymous_person org x
  end.

Definition determine_merge_winner (a b : PersonWithIdentities)
    : PersonWithIdentities * PersonWithIdentities :=
  match has_identified_identity a, has_identified_identity b with
  | true, false => (a, b)
  | false, true => (b, a)
  | _, _ => if (p_created_at (person a) <=? p_created_at (person b))%Z then (a, b) else (b, a)
  end.

(** [for (key, value) in loser_props { winner_props.entry(key).or_insert(value); }] *)
Definition or_insert_all (new existing : gmap string Json) : gmap string Json :=
  map_fold or_insert existing new.

Definition fill_properties (loser winner : Json) : Json :=
  match as_object winner, as_object loser with
  | Some w, Some l => of_object (or_insert_all l w)
  | _, _ => winner
  end.

Definition merge_persons (winner_id loser_id : PersonId) (reason : MergeReason)
    (additional : option Json) : SvcM PersonWithIdentities :=
  found ← call (get_person_by_id winner_id);
  winner ← ok_or_internal "Winner person not found" found;
  let org := p_org_id winner in
  found ← call (get_person_by_id loser_id);
  loser ← ok_or_internal "Loser person not found" found;
  let winner := with_properties (fill_properties (properties loser) (properties winner)) winner in
  winner ← match additional with
           | Some props => set_person_properties props winner
           | None => mret winner
           end;
  call (update_person winner);;
  events_reassigned ← call (reassign_events loser_id winner_id);
  identities_transferred ← call (transfer_identities loser_id winner_id);
  now ← utc_now;
  now' ← utc_now;
  call (update_person (merge_into now now' winner_id loser));;
  id ← new_uuid;
  now ← utc_now;
  call (create_merge (mkPersonMerge id winner_id loser_id reason now));;
  (if audit_hook
   then on_merge (mkDetails org winner_id loser_id reason events_reassigned
                    identities_transferred)
   else mret tt);;
  identities ← call (list_identities_for_person winner_id);
  mret (mkPersonWithIdentities winner identities).

Definition identify (org : OrgId) (payload : IdentifyPayload) : SvcM PersonWithIdentities :=
  current_identity ← call (get_identity_by_distinct_id org (ip_distinct_id payload));
  user_identity ← call (get_identity_by_distinct_id org (ip_user_id payload));
  match current_identity, user_identity with
  | None, None =>
      p ← new_person org;
      let p := with_properties (ip_properties payload) p in
      call (create_person p);;
      anon_identity ← anonymous (p_id p) (ip_distinct_id payload);
      call (create_identity anon_identity);;
      identified_identity ← identified (p_id p) (ip_user_id payload);
      call (create_identity identified_identity);;
      mret (mkPersonWithIdentities p [anon_identity; identified_identity])
  | Some current, None =>
      found ← call (get_person_by_id (i_person_id current));
      p ← ok_or_internal "Person not found for identity" found;
      p ← set_person_properties (ip_properties payload) p;
      call (update_person p);;
      identified_identity ← identified (p_id p) (ip_user_id payload);
      call (create_identity identified_identity);;
      identities ← call (list_identities_for_person (p_id p));
      mret (mkPersonWithIdentities p identities)
  | None, Some user =>
      found ← call (get_person_by_id (i_person_id user));
      p ← ok_or_internal "Person not found for identity" found;
      p ← set_person_properties (ip_properties payload) p;
      call (update_person p);;
      anon_identity ← anonymous (p_id p) (ip_distinct_id payload);
      call (create_identity anon_identity);;
      identities ← call (list_identities_for_person (p_id p));
      mret (mkPersonWithIdentities p identities)
  | Some current, Some user =>
      if decide (i_person_id current = i_person_id user) then
        found ← call (get_person_by_id (i_person_id current));
        p ← ok_or_internal "Person not found for identity" found;
        p ← set_person_properties (ip_properties payload) p;
        call (update_person p);;
        identities ← call (list_identities_for_person (p_id p));
        mret (mkPersonWithIdentities p identities)
      else
        found ← call (get_person_with_identities (i_person_id current));
        current_person ← ok_or_internal "Person not found for identity" found;
        found ← call (get_person_with_identities (i_person_id user));
        user_person ← ok_or_internal "Person not found for identity" found;
        let '(winner, loser) := determine_merge_winner current_person user_person in
        merge_persons (p_id (person winner)) (p_id (person loser))
          (MR_Identify (ip_distinct_id payload) (ip_user_id payload))
          (Some (ip_properties payload))
  end.

Definition alias (org : OrgId) (payload : AliasPayload) : SvcM PersonWithIdentities :=
  primary_identity ← call (get_identity_by_distinct_id org (ap_distinct_id payload));
  alias_identity ← call (get_identity_by_distinct_id org (ap_alias payload));
  match primary_identity, alias_identity with
  | None, None =>
      p ← new_person org;
      call (create_person p);;
      primary ← anonymous (p_id p) (ap_distinct_id payload);
      call (create_identity primary);;
      alias ← anonymous (p_id p) (ap_alias payload);
      call (create_identity alias);;
      mret (mkPersonWithIdentities p [primary; alias])
  | Some primary, None =>
      found ← call (get_person_by_id (i_person_id primary));
      p ← ok_or_internal "Person not found for identity" found;
      alias ← anonymous (p_id p) (ap_alias payload);
      call (create_identity alias);;
      identities ← call (list_identities_for_person (p_id p));
      mret (mkPersonWithIdentities p identities)
  | None, Some alias =>
      found ← call (get_person_by_id (i_person_id alias));
      p ← ok_or_internal "Person not found for identity" found;
      primary ← anonymous (p_id p) (ap_distinct_id payload);
      call (create_identity primary);;
      identities ← call (list_identities_for_person (p_id p));
      mret (mkPersonWithIdentities p identities)
  | Some primary, Some alias =>
      if decide (i_person_id primary = i_person_id alias) then
        found ← call (get_person_by_id (i_person_id primary));
        p ← ok_or_internal "Person not found for identity" found;
        identities ← call (list_identities_for_person (p_id p));
        mret (mkPersonWithIdentities p identities)
      else
        found ← call (get_person_with_identities (i_person_id primary));
        primary_person ← ok_or_internal "Person not found for identity" found;
        found ← call (get_person_with_identities (i_person_id alias));
        alias_person ← ok_or_internal "Person not found for identity" found;
        let '(winner, loser) := determine_merge_winner primary_person alias_person in
        merge_persons (p_id (person winner)) (p_id (person loser))
          (MR_Alias (ap_distinct_id payload) (ap_alias payload)) None
  end.

(** ** handlers/identify.rs and handlers/capture.rs *)

Definition MAX_USER_ID_LENGTH : nat := 200.
Definition MAX_PROPERTIES_SIZE : Z := 1024 * 1024.

Inductive Response :=
| Bad_Request (error message : string)
| Internal_Server_Error (message : string)
| Ok_Person (person_id : PersonId)
| Ok_Event (event_id : Uuid).

Definition check_distinct_id (s : string) : result string unit :=
  if (s =? "")%string then Err "Distinct ID cannot be empty"
  else if (MAX_DISTINCT_ID_LENGTH <? String.length s)%nat
  then Err "Distinct ID exceeds maximum length"
  else Ok tt.

Definition validate_user_id (s : string) : result string unit :=
  if (s =? "")%string then Err "User ID cannot be empty"
  else if (MAX_USER_ID_LENGTH <? String.length s)%nat
  then Err "User ID exceeds maximum length"
  else Ok tt.

Definition validate_properties (props : Json) : result string unit :=
  let serialized := default "" (json_to_string props) in
  if (MAX_PROPERTIES_SIZE <? Z.of_nat (String.length serialized))%Z
  then Err "Properties exceed maximum size"
  else Ok tt.

Inductive AnalyticsKeyType := Key_Write | Key_ReadWrite.

Record AnalyticsApiKeyContext := mkApiKeyContext {
  api_key_id : Uuid;
  k_org_id : OrgId;
  key_type : AnalyticsKeyType;
}.

(** The stamp of the key's use; its failure is only logged. *)
Definition touch_key (k : AnalyticsApiKeyContext) : SvcM unit :=
  now ← utc_now;
  attempt (call (update_api_key_last_used now (api_key_id k)));;
  mret tt.

Definition identify_impl (k : AnalyticsApiKeyContext) (payload : IdentifyPayload)
    : SvcM Response :=
  match check_distinct_id (ip_distinct_id payload), validate_user_id (ip_user_id payload),
        validate_properties (ip_properties payload) with
  | Err msg, _, _ => mret (Bad_Request "invalid_distinct_id" msg)
  | _, Err msg, _ => mret (Bad_Request "invalid_user_id" msg)
  | _, _, Err msg => mret (Bad_Request "invalid_properties" msg)
  | Ok _, Ok _, Ok _ =>
      r ← attempt (identify (k_org_id k) payload);
      match r with
      | Ok pi => touch_key k;; mret (Ok_Person (p_id (person pi)))
      | Err _ => mret (Internal_Server_Error "Failed to identify user")
      end
  end.

Definition alias_impl (k : AnalyticsApiKeyContext) (payload : AliasPayload) : SvcM Response :=
  match check_distinct_id (ap_distinct_id payload), check_distinct_id (ap_alias payload) with
  | Err msg, _ => mret (Bad_Request "invalid_distinct_id" msg)
  | _, Err msg => mret (Bad_Request "invalid_alias" msg)
  | Ok _, Ok _ =>
      r ← attempt (alias (k_org_id k) payload);
      match r with
      | Ok pi => touch_key k;; mret (Ok_Person (p_id (person pi)))
      | Err _ => mret (Internal_Server_Error "Failed to create alias")
      end
  end.

Record SetPropertiesRequest := mkSetProperties {
  sp_distinct_id : string;
  sp_properties : Json;
  set_once : bool;
}.

Definition set_properties_impl (k : AnalyticsApiKeyContext) (payload : SetPropertiesRequest)
    : SvcM Response :=
  match check_distinct_id (sp_distinct_id payload),
        validate_properties (sp_properties payload) with
  | Err msg, _ => mret (Bad_Request "invalid_distinct_id" msg)
  | _, Err msg => mret (Bad_Request "invalid_properties" msg)
  | Ok _, Ok _ =>
      r ← attempt (resolve_person_for_distinct_id (k_org_id k) (sp_distinct_id payload));
      match r with
      | Err _ => mret (Internal_Server_Error "Failed to resolve person")
      | Ok pi =>
          p ← (if set_once payload
               then mret (with_properties
                      (fill_properties (sp_properties payload) (properties (person pi)))
                      (person pi))
               else set_person_properties (sp_properties payload) (person pi));
          r ← attempt (call (update_person p));
          match r with
          | Err _ => mret (Internal_Server_Error "Failed to set properties")
          | Ok _ => touch_key k;; mret (Ok_Person (p_id p))
          end
      end
  end.

Record CaptureEventRequest := mkCapture {
  c_distinct_id : string;
  c_event : string;
  c_properties : Json;
  c_timestamp : option DateTime;
}.

(** What [extract_client_info] reads from the headers. *)
Record ClientInfo := mkClientInfo {
  ci_ip_address : option string;
  ci_user_agent : option string;
  ci_lib : option string;
  ci_lib_version : option string;
}.

Definition new_event (org : OrgId) (info : ClientInfo) (payload : CaptureEventRequest)
    : SvcM Event :=
  now ← utc_now;
  id ← new_uuid;
  let e := Event_new id now org (c_distinct_id payload) (c_event payload) in
  ts ← match c_timestamp payload with Some t => mret t | None => utc_now end;
  mret (mkEvent (e_id e) (e_org_id e) (e_person_id e) (e_distinct_id e) (event_name e)
          (c_properties payload) ts (ci_ip_address info) (ci_user_agent info) (ci_lib info)
          (ci_lib_version info) (e_created_at e)).

(** [capture_event_impl] after the validation of the payload. *)
Definition capture_event (k : AnalyticsApiKeyContext) (info : ClientInfo)
    (payload : CaptureEventRequest) : SvcM Response :=
  event ← new_event (k_org_id k) info payload;
  r ← attempt (resolve_person_for_distinct_id (k_org_id k) (e_distinct_id event));
  let event := match r with
               | Ok pi => with_person_id (Some (p_id (person pi))) event
               | Err _ => event
               end in
  r ← attempt (call (insert_event event));
  match r with
  | Err _ => mret (Internal_Server_Error "Failed to capture event")
  | Ok _ => touch_key k;; mret (Ok_Event (e_id event))
  end.

End Service.
