(* ===== verification/IdentitySpec.v ===== *)
(** What identity resolution promises, on the contents of the repository: who
    owns a distinct id, the invariant of the tables, linking two ids, and how
    each repository operation changes ownership. *)
From stdpp Require Import base list strings gmap.
From Stdlib Require Import ZArith.
From S2P Require Import Prelude CoreTypes Analytics.

Section Spec.
Context `{JO : JsonObject}.
(** The results of the calls of [Uuid::new_v4], in order. *)
Context (uuid_at : nat -> Uuid).
(** * Specification *)

#[export] Instance answers_dec T org x i : Decision (answers T org x i).
Proof. unfold answers. apply _. Defined.

(** Who owns a distinct id in an organization. *)
Definition Owners := OrgId -> string -> option PersonId.
Definition owner (T : Tables) : Owners := fun org x =>
  i_person_id <$> List.find (fun i => bool_decide (answers T org x i)) (identities T).

(** Persons are stored under their id; identities belong to persons that exist
    and were not merged away; within an organization a distinct id has one
    identity. *)
Record Inv (T : Tables) : Prop := {
  inv_key : forall k p, persons T !! k = Some p -> p_id p = k;
  inv_home : forall i, i ∈ identities T ->
    exists p, persons T !! i_person_id i = Some p /\ merged_into_id p = None;
  inv_unique :
    NoDup ((fun i => (org_of T (i_person_id i), i_distinct_id i)) <$> identities T);
}.

(** The uuids from the [n]-th on are not in use. *)
Definition Fresh (T : Tables) (n : nat) : Prop := forall k, n <= k ->
  persons T !! uuid_at k = None /\
  (forall i, i ∈ identities T -> i_id i <> uuid_at k) /\
  (forall m, m ∈ merges T -> m_id m <> uuid_at k).

(** Every attributed event belongs to the person who owns its distinct id. *)
Definition Attributed (T : Tables) : Prop := forall e p, e ∈ events T ->
  e_person_id e = Some p -> owner T (e_org_id e) (e_distinct_id e) = Some p.

Definition redirect (l w p : PersonId) : PersonId := if decide (p = l) then w else p.

(** [d] and [u] belong to [w], what belonged to [l] belongs to [w] and nothing
    else changes. *)
Definition linked (org : OrgId) (d u : string) (w l : PersonId) (a a' : Owners) : Prop :=
  forall o x, a' o x =
    if decide (o = org /\ (x = d \/ x = u)) then Some w else redirect l w <$> a o x.

(** Which person [w] survives and which [l] is given up ([l = w] for none). *)
Definition chosen (T : Tables) (org : OrgId) (d u : string) (w l : PersonId) : Prop :=
  match owner T org d, owner T org u with
  | None, None => persons T !! w = None /\ l = w
  | Some a, None | None, Some a => w = a /\ l = a
  | Some a, Some b => w = a /\ l = b \/ w = b /\ l = a
  end.

(** Result [r] is person [w] as stored, with all its identities. *)
Definition returns (T : Tables) (w : PersonId) (r : PersonWithIdentities) : Prop :=
  persons T !! w = Some (person r) /\ pwi_identities r ≡ₚ identities_of T w.

(** * Tables *)

Lemma owner_Some T org x p : owner T org x = Some p ->
  exists i, i ∈ identities T /\ answers T org x i /\ i_person_id i = p.
Proof.
  unfold owner. intros (i & Hi & ->)%fmap_Some. apply List.find_some in Hi as [Hi Hb].
  apply bool_decide_eq_true in Hb. exists i. by rewrite list_elem_of_In.
Qed.

Lemma owner_None T org x : owner T org x = None <->
  Forall (fun i => ~ answers T org x i) (identities T).
Proof.
  unfold owner. rewrite fmap_None, Forall_forall. split.
  - intros H i Hi Ha. apply list_elem_of_In in Hi.
    pose proof (List.find_none _ _ H i Hi) as Hb. by apply bool_decide_eq_false in Hb.
  - intros H. destruct (List.find _ _) as [i|] eqn:E; [|done].
    apply List.find_some in E as [Hi Hb]. apply bool_decide_eq_true in Hb.
    by destruct (H i); [apply list_elem_of_In|].
Qed.

Lemma NoDup_fmap_elem {A B} (f : A -> B) (l : list A) a b :
  NoDup (f <$> l) -> a ∈ l -> b ∈ l -> f a = f b -> a = b.
Proof.
  intros Hn [i Hi]%list_elem_of_lookup [j Hj]%list_elem_of_lookup He.
  assert (i = j) as ->; [|congruence].
  eapply NoDup_lookup; [done| |]; rewrite list_lookup_fmap.
  - by rewrite Hi.
  - by rewrite Hj, He.
Qed.

(** With the invariant, the row the repository finds is the owner's. *)
Lemma answers_owner T org x i :
  Inv T -> i ∈ identities T -> answers T org x i -> owner T org x = Some (i_person_id i).
Proof.
  intros HI Hi [Hx Ho]. destruct (owner T org x) as [p|] eqn:E.
  - apply owner_Some in E as (j & Hj & [Hx' Ho'] & <-). do 2 f_equal.
    eapply (NoDup_fmap_elem _ _ _ _ (inv_unique _ HI)); [done..|]. congruence.
  - apply owner_None in E. rewrite Forall_forall in E. by destruct (E i).
Qed.

Lemma owner_person T org x p : Inv T -> owner T org x = Some p ->
  exists P, persons T !! p = Some P /\ p_id P = p /\ p_org_id P = org
            /\ merged_into_id P = None.
Proof.
  intros HI (i & Hi & [_ Ho] & <-)%owner_Some.
  destruct (inv_home _ HI i Hi) as (P & HP & Hm). exists P. unfold org_of in Ho.
  rewrite HP in Ho. injection Ho as Ho. by rewrite (inv_key _ HI _ _ HP).
Qed.

Lemma find_ext {A} (f g : A -> bool) (l : list A) :
  (forall x, x ∈ l -> f x = g x) -> List.find f l = List.find g l.
Proof.
  induction l as [|x l IH]; intros H; [done|]. cbn [List.find].
  rewrite (H x) by left. destruct (g x); [done|]. apply IH. intros y Hy. apply H. by right.
Qed.

Lemma find_fmap {A B} (f : B -> bool) (g : A -> B) (l : list A) :
  List.find f (g <$> l) = g <$> List.find (fun x => f (g x)) l.
Proof. induction l as [|x l IH]; [done|]. cbn. by destruct (f (g x)). Qed.

(** Changes of persons that keep the home of every identity. *)
Lemma owner_keep T T' :
  identities T' = identities T ->
  (forall i, i ∈ identities T -> org_of T' (i_person_id i) = org_of T (i_person_id i)) ->
  forall org x, owner T' org x = owner T org x.
Proof.
  intros Hi Ho org x. unfold owner. rewrite Hi. f_equal. apply find_ext. intros i Hin.
  apply bool_decide_ext. unfold answers. by rewrite Ho.
Qed.

Lemma Inv_keep T T' :
  Inv T -> identities T' = identities T ->
  (forall k p, persons T' !! k = Some p -> p_id p = k) ->
  (forall i P, i ∈ identities T -> persons T !! i_person_id i = Some P ->
     exists P', persons T' !! i_person_id i = Some P' /\ p_org_id P' = p_org_id P
                /\ (merged_into_id P = None -> merged_into_id P' = None)) ->
  Inv T' /\ forall org x, owner T' org x = owner T org x.
Proof.
  intros HI Hi Hk Hp.
  assert (Ho : forall i, i ∈ identities T ->
    org_of T' (i_person_id i) = org_of T (i_person_id i)).
  { intros i Hin. destruct (inv_home _ HI i Hin) as (P & HP & Hm).
    destruct (Hp i P Hin HP) as (P' & HP' & HoP & _).
    unfold org_of. rewrite HP, HP'. cbn. by rewrite HoP. }
  split; [|by apply owner_keep]. split; [done| |].
  - rewrite Hi. intros i Hin. destruct (inv_home _ HI i Hin) as (P & HP & Hm).
    destruct (Hp i P Hin HP) as (P' & HP' & _ & Hm'). eauto.
  - rewrite Hi. pose proof (inv_unique _ HI) as Hn.
    erewrite (list_fmap_ext _ _ (identities T)); [exact Hn|].
    intros n i Hl. cbn beta. by rewrite Ho by (by eapply list_elem_of_lookup_2).
Qed.

(** The tables agree on persons and identities. *)
Lemma Inv_same T T' : Inv T -> persons T' = persons T -> identities T' = identities T ->
  Inv T' /\ forall org x, owner T' org x = owner T org x.
Proof.
  intros HI Hp Hi. apply Inv_keep; [done|done| |].
  - rewrite Hp. apply (inv_key _ HI).
  - rewrite Hp. eauto.
Qed.

Lemma insert_person_keep T p : Inv T -> persons T !! p_id p = None ->
  let T' := set_persons (insert (p_id p) p) T in
  Inv T' /\ forall org x, owner T' org x = owner T org x.
Proof.
  intros HI Hf T'. apply Inv_keep; [done..| |].
  - intros k q. subst T'. cbn. intros [[<- <-]|[_ Hq]]%lookup_insert_Some; [done|].
    by apply (inv_key _ HI).
  - intros i P _ HP. exists P. subst T'. cbn.
    rewrite lookup_insert_ne; [done|congruence].
Qed.

Lemma update_person_keep T p : Inv T ->
  (merged_into_id p = None \/ identities_of T (p_id p) = []) ->
  let T' := set_persons (alter (person_columns p) (p_id p)) T in
  Inv T' /\ forall org x, owner T' org x = owner T org x.
Proof.
  intros HI Hm T'. apply Inv_keep; [done..| |].
  - intros k q. subst T'. cbn. intros [(<- & q' & Hq & ->)|[_ Hq]]%lookup_alter_Some;
      exact (inv_key _ HI _ _ Hq).
  - intros i P Hi HP. subst T'. cbn. destruct (decide (p_id p = i_person_id i)) as [E|N].
    + exists (person_columns p P). rewrite E, lookup_alter_eq, HP. split_and!; [done..|].
      intros _. destruct Hm as [|Hm]; [done|]. exfalso.
      assert (i ∈ identities_of T (p_id p)) as Hin by (by apply list_elem_of_filter).
      rewrite Hm in Hin. by apply elem_of_nil in Hin.
    + exists P. by rewrite lookup_alter_ne.
Qed.

Lemma owner_snoc T i org x :
  owner (set_identities (fun l => l ++ [i]) T) org x =
  match owner T org x with
  | Some p => Some p
  | None => if decide (answers T org x i) then Some (i_person_id i) else None
  end.
Proof.
  unfold owner. cbn [set_identities identities].
  assert (H : forall l, List.find (fun j => bool_decide (answers T org x j)) (l ++ [i])
    = match List.find (fun j => bool_decide (answers T org x j)) l with
      | Some j => Some j
      | None => if decide (answers T org x i) then Some i else None
      end).
  { induction l as [|j l IH]; cbn; [|by destruct (bool_decide _)].
    by rewrite bool_decide_decide; destruct (decide _). }
  change (fun j => bool_decide (answers (set_identities (fun l => l ++ [i]) T) org x j))
    with (fun j => bool_decide (answers T org x j)).
  rewrite H. destruct (List.find _ _); [done|]. by destruct (decide _).
Qed.

Lemma add_identity T i P : Inv T -> persons T !! i_person_id i = Some P ->
  merged_into_id P = None -> owner T (p_org_id P) (i_distinct_id i) = None ->
  let T' := set_identities (fun l => l ++ [i]) T in
  Inv T' /\ forall org x, owner T' org x =
    if decide (org = p_org_id P /\ x = i_distinct_id i) then Some (i_person_id i)
    else owner T org x.
Proof.
  intros HI HP Hm Ho T'. split.
  - split; [apply (inv_key _ HI)| |].
    + intros j [Hj|Hj]%elem_of_app; [by apply (inv_home _ HI)|].
      apply list_elem_of_singleton in Hj as ->. eauto.
    + subst T'. cbn. rewrite fmap_app. apply NoDup_app. split_and!;
        [apply (inv_unique _ HI)| |by apply NoDup_singleton].
      intros k (j & -> & Hj)%list_elem_of_fmap E%list_elem_of_singleton. injection E as E1 E2.
      apply owner_None in Ho. rewrite Forall_forall in Ho. apply (Ho j Hj). split; [done|].
      unfold org_of in E1 |- *. cbn in E1. by rewrite E1, HP.
  - intros org x. subst T'. rewrite owner_snoc.
    assert (Ha : answers T org x i <-> org = p_org_id P /\ x = i_distinct_id i).
    { unfold answers, org_of. rewrite HP. cbn. naive_solver. }
    destruct (decide (answers T org x i)) as [A|A], (decide _) as [B|B]; try tauto;
      destruct (owner T org x) eqn:E; try done.
    destruct B as [-> ->]. congruence.
Qed.

Lemma move_identity_key T l w i :
  org_of T l = org_of T w ->
  (org_of T (i_person_id (move_identity l w i)), i_distinct_id (move_identity l w i))
  = (org_of T (i_person_id i), i_distinct_id i).
Proof. intros E. unfold move_identity. destruct (decide _) as [->|]; cbn; by rewrite ?E. Qed.

Lemma move_identity_person l w i :
  i_person_id (move_identity l w i) = redirect l w (i_person_id i).
Proof. unfold move_identity, redirect. by destruct (decide _). Qed.

Lemma transfer T l w L P : Inv T ->
  persons T !! l = Some L -> persons T !! w = Some P -> p_org_id L = p_org_id P ->
  merged_into_id P = None ->
  let T' := set_identities (fmap (move_identity l w)) T in
  Inv T' /\ forall org x, owner T' org x = redirect l w <$> owner T org x.
Proof.
  intros HI HL HP Ho Hm T'.
  assert (E : org_of T l = org_of T w) by (unfold org_of; rewrite HL, HP; cbn; by rewrite Ho).
  split.
  - split; [apply (inv_key _ HI)| |].
    + intros i (j & -> & Hj)%list_elem_of_fmap. rewrite move_identity_person. unfold redirect.
      destruct (decide _); [eauto|by apply (inv_home _ HI)].
    + subst T'. cbn. rewrite <- list_fmap_compose.
      erewrite (list_fmap_ext _ _ (identities T)); [exact (inv_unique _ HI)|].
      intros n i _. exact (move_identity_key T l w i E).
  - intros org x. subst T'. unfold owner. cbn [set_identities identities].
    rewrite find_fmap, <- option_fmap_compose. rewrite <- (option_fmap_compose i_person_id).
    erewrite (find_ext _ (fun i => bool_decide (answers T org x i))).
    + apply option_fmap_ext. intros i. apply move_identity_person.
    + intros i _. apply bool_decide_ext. pose proof (move_identity_key T l w i E) as [= H1 H2].
      unfold answers. change (org_of (set_identities _ T)) with (org_of T).
      by rewrite H1, H2.
Qed.

End Spec.
