(* ===== verification/IdentityProofs.v ===== *)
(** Identity resolution, correctness: the service and its handlers against the
    promises of the repository, and the theorems for the SQLite repository. *)
From stdpp Require Import base list strings gmap relations.
From Stdlib Require Import ZArith.
From S2P Require Import Prelude CoreTypes Analytics Identity IdentitySpec.

Section Correctness.
Context `{JO : JsonObject} {W : Type} {R : AnalyticsRepository W}.
Context (uuid_at : nat -> Uuid) (time_at : nat -> DateTime) (audit_hook : bool).
Local Notation SvcM := (Identity.SvcM (W := W)).
Local Notation Service := (Identity.Service (W := W)).
Implicit Types s : Service.

Local Notation new_uuid := (Identity.new_uuid uuid_at).
Local Notation utc_now := (Identity.utc_now time_at).
Local Notation new_person := (Identity.new_person uuid_at time_at).
Local Notation new_identity := (Identity.new_identity uuid_at time_at).
Local Notation anonymous := (Identity.anonymous uuid_at time_at).
Local Notation identified := (Identity.identified uuid_at time_at).
Local Notation set_person_properties := (Identity.set_person_properties time_at).
Local Notation create_anonymous_person := (Identity.create_anonymous_person uuid_at time_at).
Local Notation resolve_person_for_distinct_id :=
  (Identity.resolve_person_for_distinct_id uuid_at time_at).
Local Notation merge_persons := (Identity.merge_persons uuid_at time_at audit_hook).
Local Notation identify := (Identity.identify uuid_at time_at audit_hook).
Local Notation alias := (Identity.alias uuid_at time_at audit_hook).
Local Notation touch_key := (Identity.touch_key time_at).
Local Notation identify_impl := (Identity.identify_impl uuid_at time_at audit_hook).
Local Notation alias_impl := (Identity.alias_impl uuid_at time_at audit_hook).
Local Notation set_properties_impl := (Identity.set_properties_impl uuid_at time_at).
Local Notation new_event := (Identity.new_event uuid_at time_at).
Local Notation capture_event := (Identity.capture_event uuid_at time_at).
Local Notation Fresh := (IdentitySpec.Fresh uuid_at).

(** * Reasoning about the service *)

Context {L : RepositoryLaws W} {uuid_inj : Inj (=) (=) uuid_at}.

Definition tables (s : Service) : Tables := view (storage s).

(** [m] ends in [Q] with an answer or in [E] with an error. *)
Definition wp {A} (m : SvcM A) (Q : Service -> A -> Prop)
    (E : Service -> AnalyticsServerError -> Prop) (s : Service) : Prop :=
  match m s with (s', Ok a) => Q s' a | (s', Err e) => E s' e end.

(** What is known of a state: its tables, the next uuid, the audit log, and that
    the storage is available if it was ([lv]) at the start. *)
Definition cfg (lv : Prop) (s : Service) (T : Tables) (n : nat)
    (au : list PersonMergeDetails) : Prop :=
  tables s = T /\ uuids s = n /\ audit s = au /\ (lv -> available (storage s)).

Lemma wp_bind {A B} (m : SvcM A) (k : A -> SvcM B) Q E s :
  wp m (fun s' a => wp (k a) Q E s') E s -> wp (m ≫= k) Q E s.
Proof. unfold wp, mbind, svc_bind. by destruct (m s) as [s' [a|e]]. Qed.

Lemma wp_ret {A} (a : A) Q E s : (Q s a : Prop) -> wp (mret a) Q E s.
Proof. done. Qed.

Lemma wp_mono {A} (m : SvcM A) (Q Q' : Service -> A -> Prop) (E E' : Service -> _ -> Prop) s :
  wp m Q E s -> (forall s' a, Q s' a -> Q' s' a) -> (forall s' e, E s' e -> E' s' e) ->
  wp m Q' E' s.
Proof. unfold wp. destruct (m s) as [s' [a|e]]; auto. Qed.

Lemma wp_call {A lv T n au s} {m : RepoM W A} {pre eff post} Q E :
  implements view available m pre eff post -> cfg lv s T n au ->
  (forall s' a, cfg lv s' (eff T) n au -> pre T -> post T a -> Q s' a) ->
  (forall s' msg, cfg lv s' T n au -> (lv -> ~ pre T) -> E s' (Database msg)) ->
  wp (call m) Q E s.
Proof.
  intros Hm (<- & <- & <- & Hl) HQ HE. unfold wp, call, tables in *.
  pose proof (Hm (storage s)) as [H Ha]. destruct (m (storage s)) as [w [a|e]].
  - destruct H as (Hpre & Hv & Hp). apply HQ; [|done..]. unfold cfg, tables. cbn.
    split_and!; auto.
  - destruct H as ((msg & ->) & Hv & Hn). apply HE; [|auto]. unfold cfg, tables. cbn.
    split_and!; auto.
Qed.

(** A call whose constraint holds only fails on an unavailable storage. *)
Lemma wp_call_ok {A lv T n au s} {m : RepoM W A} {pre eff post} Q E :
  implements view available m pre eff post -> cfg lv s T n au -> pre T ->
  (forall s' msg, cfg lv s' T n au -> ~ lv -> E s' (Database msg)) ->
  (forall s' a, cfg lv s' (eff T) n au -> post T a -> Q s' a) ->
  wp (call m) Q E s.
Proof. intros Hm Hs Hp HE HQ. eapply wp_call; eauto. intros. apply HE; tauto. Qed.

Lemma wp_uuid {lv T n au s} Q E :
  cfg lv s T n au -> (forall s', cfg lv s' T (S n) au -> Q s' (uuid_at n)) ->
  wp new_uuid Q E s.
Proof.
  intros (<- & <- & <- & Hl) H. unfold wp, Identity.new_uuid. apply H.
  unfold cfg, tables. cbn. auto.
Qed.

Lemma wp_now {lv T n au s} Q E :
  cfg lv s T n au -> (forall s' t, cfg lv s' T n au -> Q s' t) -> wp utc_now Q E s.
Proof.
  intros (<- & <- & <- & Hl) H. unfold wp, Identity.utc_now. apply H. unfold cfg, tables. cbn. auto.
Qed.

Lemma wp_on_merge {lv T n au s} d Q E :
  cfg lv s T n au -> (forall s', cfg lv s' T n (au ++ [d]) -> Q s' tt) -> wp (on_merge d) Q E s.
Proof.
  intros (<- & <- & <- & Hl) H. unfold wp, on_merge. apply H. unfold cfg, tables. cbn. auto.
Qed.

Lemma wp_found {A} msg (a : A) Q E s :
  (Q s a : Prop) -> wp (ok_or_internal msg (Some a)) Q E s.
Proof. done. Qed.

Lemma wp_attempt {A} (m : SvcM A) Q E s :
  wp m (fun s' a => Q s' (Ok a)) (fun s' e => Q s' (Err e)) s -> wp (attempt m) Q E s.
Proof. unfold wp, attempt. by destruct (m s) as [s' [a|e]]. Qed.

Lemma wp_new_person {lv T n au s} org Q E :
  cfg lv s T n au ->
  (forall s' t, cfg lv s' T (S n) au -> Q s' (Person_new t (uuid_at n) org)) ->
  wp (new_person org) Q E s.
Proof.
  intros Hs H. apply wp_bind, (wp_now _ _ Hs). intros s1 t Hs1.
  apply wp_bind, (wp_uuid _ _ Hs1). intros s2 Hs2. by apply wp_ret, H.
Qed.

Lemma wp_new_identity {lv T n au s} p x ty Q E :
  cfg lv s T n au ->
  (forall s' t, cfg lv s' T (S n) au -> Q s' (PersonIdentity_new (uuid_at n) t p x ty)) ->
  wp (new_identity p x ty) Q E s.
Proof.
  intros Hs H. apply wp_bind, (wp_uuid _ _ Hs). intros s1 Hs1.
  apply wp_bind, (wp_now _ _ Hs1). intros s2 t Hs2. by apply wp_ret, H.
Qed.

Lemma wp_set_properties {lv T n au s} props p Q E :
  cfg lv s T n au -> (forall s' t, cfg lv s' T n au -> Q s' (set_properties t props p)) ->
  wp (set_person_properties props p) Q E s.
Proof.
  intros Hs H. apply wp_bind, (wp_now _ _ Hs). intros s1 t Hs1. by apply wp_ret, H.
Qed.

(** ** Fresh uuids *)

Lemma Fresh_step T T' n n' : Fresh T n -> n <= n' ->
  (forall k, is_Some (persons T' !! k) ->
     is_Some (persons T !! k) \/ exists m, n <= m < n' /\ k = uuid_at m) ->
  (forall i, i ∈ identities T' ->
     (exists j, j ∈ identities T /\ i_id j = i_id i)
     \/ exists m, n <= m < n' /\ i_id i = uuid_at m) ->
  (forall i, i ∈ merges T' -> i ∈ merges T \/ exists m, n <= m < n' /\ m_id i = uuid_at m) ->
  Fresh T' n'.
Proof.
  intros HF Hn Hp Hi Hm k Hk. destruct (HF k ltac:(lia)) as (Fp & Fi & Fm).
  assert (Hnew : forall m, n <= m < n' -> uuid_at m <> uuid_at k)
    by (intros m Hlt E; apply uuid_inj in E; lia).
  split_and!.
  - apply eq_None_not_Some. intros [[p Hs]|(m & Hlt & E)]%Hp; [congruence|].
    by apply (Hnew m Hlt).
  - intros i Hin E. destruct (Hi i Hin) as [(j & Hj & Ej)|(m & Hlt & Em)].
    + apply (Fi j Hj). congruence.
    + apply (Hnew m Hlt). congruence.
  - intros i Hin E. destruct (Hm i Hin) as [Hj|(m & Hlt & Em)].
    + by apply (Fm i Hj).
    + apply (Hnew m Hlt). congruence.
Qed.

Lemma Fresh_le T n n' : Fresh T n -> n <= n' -> Fresh T n'.
Proof. intros HF Hn k Hk. apply HF. lia. Qed.

Lemma Fresh_insert_person T n n' p : Fresh T n -> n < n' -> p_id p = uuid_at n ->
  Fresh (set_persons (insert (p_id p) p) T) n'.
Proof.
  intros HF Hn Hp. eapply (Fresh_step T); [done|lia| |eauto..]. cbn. intros k.
  rewrite lookup_insert_is_Some'. intros [<-|]; [right; exists n; split; [lia|done]|by left].
Qed.

Lemma Fresh_add_identity T n n' i : Fresh T n -> n < n' -> i_id i = uuid_at n ->
  Fresh (set_identities (fun l => l ++ [i]) T) n'.
Proof.
  intros HF Hn Hi. eapply (Fresh_step T); [done|lia|eauto| |eauto]. cbn.
  intros j [Hj|Hj]%elem_of_app; [eauto|]. apply list_elem_of_singleton in Hj as ->.
  right. exists n. split; [lia|done].
Qed.

Lemma Fresh_add_merge T n n' m : Fresh T n -> n < n' -> m_id m = uuid_at n ->
  Fresh (set_merges (fun l => l ++ [m]) T) n'.
Proof.
  intros HF Hn Hi. eapply (Fresh_step T); [done|lia|eauto|eauto|]. cbn.
  intros j [Hj|Hj]%elem_of_app; [eauto|]. apply list_elem_of_singleton in Hj as ->.
  right. exists n. split; [lia|done].
Qed.

Lemma Fresh_update_person T n p : Fresh T n ->
  Fresh (set_persons (alter (person_columns p) (p_id p)) T) n.
Proof.
  intros HF. eapply (Fresh_step T); [done|lia| |eauto..]. cbn. intros k.
  rewrite lookup_alter_is_Some. by left.
Qed.

Lemma Fresh_transfer T n l w : Fresh T n ->
  Fresh (set_identities (fmap (move_identity l w)) T) n.
Proof.
  intros HF. eapply (Fresh_step T); [done|lia|eauto| |eauto]. cbn.
  intros i (j & -> & Hj)%list_elem_of_fmap. left. exists j. split; [done|].
  unfold move_identity. by destruct (decide _).
Qed.

Lemma Fresh_events T n f : Fresh T n -> Fresh (set_events f T) n.
Proof. done. Qed.

Lemma free_new_identity T n i P : Inv T -> Fresh T n -> i_id i = uuid_at n ->
  persons T !! i_person_id i = Some P -> owner T (p_org_id P) (i_distinct_id i) = None ->
  free_identity i T.
Proof.
  intros HI HF Hi HP Ho. split; [eauto|]. apply Forall_forall. intros j Hj. split.
  - rewrite Hi. by apply (HF n).
  - intros [Ep Ex]. apply owner_None in Ho. rewrite Forall_forall in Ho.
    apply (Ho j Hj). split; [done|]. unfold org_of. by rewrite Ep, HP.
Qed.

(** ** Parts of the operations *)

Lemma redirect_same w p : redirect w w p = p.
Proof. unfold redirect. by destruct (decide _). Qed.

Lemma move_event_same w e : move_event w w e = e.
Proof. unfold move_event. destruct (decide _) as [E|]; [|done]. destruct e; cbn in *. by subst. Qed.

Lemma move_events_same w (l : list Event) : move_event w w <$> l = l.
Proof. rewrite <- (list_fmap_id l) at 2. apply list_fmap_ext. intros. apply move_event_same. Qed.

Lemma linked_same org d u w a a' :
  (forall o x, a' o x = if decide (o = org /\ (x = d \/ x = u)) then Some w else a o x) ->
  linked org d u w w a a'.
Proof.
  intros H o x. rewrite H. destruct (decide _); [done|].
  rewrite <- (option_fmap_id (a o x)) at 1. apply option_fmap_ext. intros p.
  by rewrite redirect_same.
Qed.

(** The state after a failure: a sound state with owners [rel]ated to those of
    [T], after a database error that an available storage only has if [why]. *)
Definition failed (lv : Prop) (rel : Owners -> Prop) (why : Prop) (s : Service)
    (e : AnalyticsServerError) : Prop :=
  exists T n au, cfg lv s T n au /\ Inv T /\ Fresh T n /\ (exists msg, e = Database msg)
    /\ rel (owner T) /\ (lv -> why).

Lemma failed_here lv (rel : Owners -> Prop) (why : Prop) s T n au msg :
  cfg lv s T n au -> Inv T -> Fresh T n -> rel (owner T) -> (lv -> why) ->
  failed lv rel why s (Database msg).
Proof. intros. exists T, n, au. split_and!; eauto. Qed.

Lemma failed_mono lv (rel rel' : Owners -> Prop) (why why' : Prop) s e :
  failed lv rel why s e -> (forall a, rel a -> rel' a) -> (why -> why') ->
  failed lv rel' why' s e.
Proof. intros (T & n & au & ? & ? & ? & ? & ? & ?) Hr Hw. exists T, n, au. split_and!; auto. Qed.

Definition same_owners (a a' : Owners) : Prop := forall o x, a' o x = a o x.
(** [x] now belongs to [p]. *)
Definition given (org : OrgId) (x : string) (p : PersonId) (a a' : Owners) : Prop :=
  forall o y, a' o y = if decide (o = org /\ y = x) then Some p else a o y.

Definition attach (p : Person) (x : string) (ty : IdentityType) : SvcM PersonWithIdentities :=
  i ← new_identity (p_id p) x ty;
  call (create_identity i);;
  identities ← call (list_identities_for_person (p_id p));
  mret (mkPersonWithIdentities p identities).

Lemma wp_attach lv T n au s p x ty :
  cfg lv s T n au -> Inv T -> Fresh T n -> persons T !! p_id p = Some p ->
  merged_into_id p = None -> owner T (p_org_id p) x = None ->
  wp (attach p x ty)
    (fun s' r => exists T' n', cfg lv s' T' n' au /\ Inv T' /\ Fresh T' n'
       /\ given (p_org_id p) x (p_id p) (owner T) (owner T')
       /\ events T' = events T /\ returns T' (p_id p) r)
    (failed lv (fun a => same_owners (owner T) a \/ given (p_org_id p) x (p_id p) (owner T) a)
       False) s.
Proof.
  intros Hs HI HF Hp Hm Ho. unfold attach.
  eapply wp_bind, wp_new_identity; [exact Hs|]. intros s1 t Hs1.
  set (i := PersonIdentity_new _ _ _ _ _).
  eapply wp_bind, wp_call_ok; [apply create_identity_law|exact Hs1| | |].
  { by apply (free_new_identity T n i p). }
  { intros s2 msg Hs2 Hl. eapply failed_here; [exact Hs2|done| |by left|done].
    by apply (Fresh_le T n); [|lia]. }
  intros s2 [] Hs2 _. destruct (add_identity T i p HI Hp Hm Ho) as [HI2 HO2].
  assert (HF2 := Fresh_add_identity T n (S n) i HF ltac:(lia) eq_refl).
  eapply wp_bind, wp_call_ok; [apply list_identities_for_person_law|exact Hs2|done| |].
  { intros s3 msg Hs3 Hl. eapply failed_here; [exact Hs3|done|done|by right|done]. }
  intros s3 ids Hs3 Hids. apply wp_ret. eexists _, _. split_and!; [exact Hs3|done|done|done|done|].
  by split.
Qed.

(** Storing a changed version of an unmerged person. *)
Lemma wp_update lv T n au s p P Q E :
  cfg lv s T n au -> Inv T -> Fresh T n -> persons T !! p_id P = Some P ->
  merged_into_id P = None -> person_columns p P = p -> merged_into_id p = None ->
  (forall s' msg, cfg lv s' T n au -> ~ lv -> E s' (Database msg)) ->
  (forall s' T', cfg lv s' T' n au -> Inv T' -> Fresh T' n ->
     T' = set_persons (alter (person_columns p) (p_id P)) T ->
     persons T' !! p_id p = Some p -> same_owners (owner T) (owner T') -> Q s' tt) ->
  wp (call (update_person p)) Q E s.
Proof.
  intros Hs HI HF HP Hm Hc Hm' HE HQ.
  assert (Hid : p_id p = p_id P) by (by rewrite <- Hc).
  eapply wp_call_ok; [apply update_person_law|exact Hs| |exact HE|].
  { intros _ w Hw. congruence. }
  intros s1 [] Hs1 _. destruct (update_person_keep T p HI (or_introl Hm')) as [HI1 HO1].
  rewrite Hid in *. eapply HQ; [exact Hs1|done| |done| |done].
  - rewrite <- Hid. by apply Fresh_update_person.
  - rewrite ?Hid. cbn. rewrite lookup_alter_eq, HP. cbn. by rewrite Hc.
Qed.

Lemma set_properties_columns t props P :
  person_columns (set_properties t props P) P = set_properties t props P
  /\ merged_into_id (set_properties t props P) = merged_into_id P
  /\ p_id (set_properties t props P) = p_id P
  /\ p_org_id (set_properties t props P) = p_org_id P
  /\ p_created_at (set_properties t props P) = p_created_at P.
Proof.
  unfold set_properties, person_columns.
  by destruct (as_object (properties P)), (as_object props).
Qed.

Definition create_pair (p : Person) (d u : string) (ty : IdentityType)
    : SvcM PersonWithIdentities :=
  call (create_person p);;
  i ← new_identity (p_id p) d Anonymous;
  call (create_identity i);;
  j ← new_identity (p_id p) u ty;
  call (create_identity j);;
  mret (mkPersonWithIdentities p [i; j]).

Lemma identities_of_new T p : Inv T -> persons T !! p = None -> identities_of T p = [].
Proof.
  intros HI Hp.
  destruct (identities_of T p) as [|i l] eqn:E; [done|].
  assert (Hi : i ∈ identities_of T p) by (rewrite E; left).
  apply list_elem_of_filter in Hi as [<- Hi].
  destruct (inv_home _ HI i Hi) as (P & HP & _). congruence.
Qed.

(** A new person with its first identity. *)
Lemma wp_first_identity {A} lv T n au s p x (k : PersonIdentity -> SvcM A) Q E :
  cfg lv s T (S n) au -> Inv T -> Fresh T n -> p_id p = uuid_at n ->
  merged_into_id p = None -> owner T (p_org_id p) x = None ->
  (forall s' T' n' msg, cfg lv s' T' n' au -> Inv T' -> Fresh T' n' -> ~ lv ->
     same_owners (owner T) (owner T') -> events T' = events T -> E s' (Database msg)) ->
  (forall s' T' t, let i := PersonIdentity_new (uuid_at (S n)) t (p_id p) x Anonymous in
     cfg lv s' T' (S (S n)) au -> Inv T' -> Fresh T' (S (S n)) ->
     given (p_org_id p) x (p_id p) (owner T) (owner T') -> persons T !! p_id p = None ->
     persons T' !! p_id p = Some p -> identities_of T' (p_id p) = [i] ->
     i ∈ identities T' -> events T' = events T -> wp (k i) Q E s') ->
  wp (call (create_person p);; i ← new_identity (p_id p) x Anonymous;
      call (create_identity i);; k i) Q E s.
Proof.
  intros Hs HI HF Hid Hm Hx HE HQ.
  assert (Hnew : persons T !! p_id p = None) by (rewrite Hid; by apply (HF n)).
  eapply wp_bind, wp_call_ok; [apply create_person_law|exact Hs|done| |].
  { intros s1 msg Hs1 Hl. eapply HE; [exact Hs1|done| |done..].
    by apply (Fresh_le T n); [|lia]. }
  intros s1 [] Hs1 _. destruct (insert_person_keep T p HI Hnew) as [HI1 HO1].
  assert (HF1 := Fresh_insert_person T n (S n) p HF ltac:(lia) Hid).
  set (T1 := set_persons _ T) in *.
  assert (HP1 : persons T1 !! p_id p = Some p) by (cbn; by rewrite lookup_insert_eq).
  eapply wp_bind, wp_new_identity; [exact Hs1|]. intros s2 t Hs2.
  set (i := PersonIdentity_new _ _ _ x _).
  eapply wp_bind, wp_call_ok; [apply create_identity_law|exact Hs2| | |].
  { apply (free_new_identity T1 (S n) i p); try done. by rewrite HO1. }
  { intros s3 msg Hs3 Hl. eapply HE; [exact Hs3|done| |done..].
    by apply (Fresh_le T1 (S n)); [|lia]. }
  intros s3 [] Hs3 _. rewrite <- HO1 in Hx.
  destruct (add_identity T1 i p HI1 HP1 Hm Hx) as [HI2 HO2].
  assert (HF2 := Fresh_add_identity T1 (S n) (S (S n)) i HF1 ltac:(lia) eq_refl).
  eapply HQ; [exact Hs3|done|done| |done|done| | |done].
  - intros o y. by rewrite HO2, HO1.
  - pose proof (identities_of_new T (p_id p) HI Hnew) as H. unfold identities_of in *.
    subst T1. cbn [set_identities set_persons identities]. rewrite filter_app, H. cbn.
    by rewrite decide_True.
  - apply elem_of_app. right. by left.
Qed.

Lemma wp_create_pair lv T n au s p d u ty :
  cfg lv s T (S n) au -> Inv T -> Fresh T n -> p_id p = uuid_at n ->
  merged_into_id p = None ->
  owner T (p_org_id p) d = None -> owner T (p_org_id p) u = None ->
  wp (create_pair p d u ty)
    (fun s' r => exists T' n', cfg lv s' T' n' au /\ Inv T' /\ Fresh T' n' /\ d <> u
       /\ linked (p_org_id p) d u (p_id p) (p_id p) (owner T) (owner T')
       /\ persons T !! p_id p = None
       /\ events T' = events T /\ returns T' (p_id p) r)
    (failed lv (fun a => same_owners (owner T) a
        \/ persons T !! p_id p = None /\ given (p_org_id p) d (p_id p) (owner T) a)
       (d = u)) s.
Proof.
  intros Hs HI HF Hid Hm Hd Hu. eapply wp_first_identity; [exact Hs|done..| |].
  { intros s1 T1 n1 msg Hs1 HI1 HF1 Hl HO1 _.
    eapply failed_here; [exact Hs1|done|done|by left|done]. }
  intros s1 T1 t i Hs1 HI1 HF1 HG Hnew HP Hids Hin Hev.
  assert (Hu1 : d <> u -> owner T1 (p_org_id p) u = None).
  { intros N. rewrite HG. by rewrite decide_False by (intros [_ E]; congruence). }
  eapply wp_bind, wp_new_identity; [exact Hs1|]. intros s2 t' Hs2.
  set (j := PersonIdentity_new _ _ _ u _).
  eapply wp_bind, wp_call; [apply create_identity_law|exact Hs2| |].
  2: { intros s3 msg Hs3 Hl. eapply failed_here; [exact Hs3|done| |by right|].
       - by apply (Fresh_le T1 (S (S n))); [|lia].
       - intros Hlv. destruct (decide (d = u)) as [|N]; [done|]. destruct (Hl Hlv).
         by apply (free_new_identity T1 (S (S n)) j p); [..|apply Hu1]. }
  intros s3 [] Hs3 Hfree _.
  assert (N : d <> u).
  { intros ->. destruct Hfree as [_ Hf]. rewrite Forall_forall in Hf.
    by destruct (Hf i Hin) as [_ []]. }
  destruct (add_identity T1 j p HI1 HP Hm (Hu1 N)) as [HI2 HO2].
  assert (HF2 := Fresh_add_identity T1 (S (S n)) (S (S (S n))) j HF1 ltac:(lia) eq_refl).
  apply wp_ret. eexists _, _. split_and!; [exact Hs3|done..| |done|done|].
  - apply linked_same. intros o x. rewrite HO2, HG. cbn.
    destruct (decide (o = p_org_id p /\ x = u)) as [B|B];
      destruct (decide (o = p_org_id p /\ x = d)) as [C|C];
      destruct (decide (o = p_org_id p /\ (x = d \/ x = u))) as [D|D]; try done; tauto.
  - split; [done|]. unfold identities_of in *. cbn [set_identities identities].
    rewrite filter_app, Hids. cbn. by rewrite decide_True.
Qed.

(** ** Merging two persons *)

(** The winner's record after the merge, [t] the clock if properties come with it. *)
Definition merged_winner (winner loser : Person) (additional : option Json) (t : DateTime)
    : Person :=
  let base := with_properties (fill_properties (properties loser) (properties winner)) winner in
  match additional with Some props => set_properties t props base | None => base end.

(** The stages of the tables during a merge. *)
Definition merge_stage1 (w l : PersonId) (winner : Person) (T : Tables) : Tables :=
  set_events (fmap (move_event l w)) (set_persons (alter (person_columns winner) w) T).
Definition merge_stage2 (w l : PersonId) (loser : Person) (T : Tables) : Tables :=
  set_persons (alter (person_columns loser) l) (set_identities (fmap (move_identity l w)) T).

Lemma merged_winner_columns P Lo additional t :
  person_columns (merged_winner P Lo additional t) P = merged_winner P Lo additional t
  /\ merged_into_id (merged_winner P Lo additional t) = merged_into_id P
  /\ p_id (merged_winner P Lo additional t) = p_id P
  /\ p_org_id (merged_winner P Lo additional t) = p_org_id P.
Proof.
  unfold merged_winner. destruct additional as [props|]; [|done].
  set (base := with_properties _ P).
  by destruct (set_properties_columns t props base) as (H1 & H2 & H3 & H4 & H5).
Qed.

Lemma person_unique T : Inv T ->
  NoDup ((fun i => (i_person_id i, i_distinct_id i)) <$> identities T).
Proof.
  intros HI. apply (NoDup_fmap_1 (fun k => (org_of T k.1, k.2))).
  rewrite <- list_fmap_compose. exact (inv_unique _ HI).
Qed.

Lemma moved_away T l w : l <> w ->
  identities_of (set_identities (fmap (move_identity l w)) T) l = [].
Proof.
  intros N. unfold identities_of. cbn [set_identities identities].
  induction (identities T) as [|i rows IH]; [done|]. cbn [fmap list_fmap].
  rewrite filter_cons_False; [exact IH|]. rewrite move_identity_person. unfold redirect.
  destruct (decide _); congruence.
Qed.

Definition merge_details (org : OrgId) (w l : PersonId) (reason : MergeReason) (T : Tables)
    : list PersonMergeDetails :=
  if audit_hook
  then [mkDetails org w l reason (length (events_of T l)) (length (identities_of T l))] else [].

Section Merge.
Context (lv : Prop) (T : Tables) (w l : PersonId) (P Lo : Person).
Context (HI : Inv T) (HP : persons T !! w = Some P) (HL : persons T !! l = Some Lo).
Context (Horg : p_org_id Lo = p_org_id P) (HmP : merged_into_id P = None) (N : l <> w).

Lemma merge_stage1_sound W' n : person_columns W' P = W' -> merged_into_id W' = None ->
  Fresh T n -> let T1 := merge_stage1 w l W' T in
  Inv T1 /\ Fresh T1 n /\ same_owners (owner T) (owner T1)
  /\ persons T1 !! w = Some W' /\ persons T1 !! l = Some Lo.
Proof.
  intros Hc Hm HF T1.
  assert (Hid : p_id W' = w) by (rewrite <- Hc; exact (inv_key _ HI _ _ HP)).
  destruct (update_person_keep T W' HI (or_introl Hm)) as [HI1 HO1]. rewrite Hid in *.
  destruct (Inv_same _ T1 HI1 eq_refl eq_refl) as [HI2 HO2]. split_and!; [done| | | |].
  - subst T1. apply Fresh_events. rewrite <- Hid. by apply Fresh_update_person.
  - intros o x. by rewrite HO2, HO1.
  - cbn. rewrite lookup_alter_eq, HP. cbn. by rewrite Hc.
  - cbn. by rewrite lookup_alter_ne.
Qed.

Lemma merge_stage2_sound T1 n L' : Inv T1 -> Fresh T1 n -> p_id L' = l ->
  persons T1 !! l = Some Lo ->
  (exists W', persons T1 !! w = Some W' /\ p_org_id W' = p_org_id P /\ merged_into_id W' = None) ->
  let T2 := merge_stage2 w l L' T1 in
  let T2' := set_identities (fmap (move_identity l w)) T1 in
  (Inv T2 /\ Fresh T2 n /\ forall o x, owner T2 o x = redirect l w <$> owner T1 o x)
  /\ (Inv T2' /\ Fresh T2' n /\ forall o x, owner T2' o x = redirect l w <$> owner T1 o x).
Proof.
  intros HI1 HF1 Hl HL1 (W' & HW & HoW & HmW) T2 T2'.
  destruct (transfer T1 l w Lo W' HI1 HL1 HW ltac:(congruence) HmW) as [HI2 HO2].
  assert (HF2 : Fresh T2' n) by (by apply Fresh_transfer).
  destruct (update_person_keep T2' L' HI2) as [HI3 HO3].
  { right. rewrite Hl. by apply moved_away. }
  pose proof (Fresh_update_person T2' n L' HF2) as HF3. rewrite Hl in HI3, HO3, HF3.
  split_and!; [exact HI3|exact HF3| |exact HI2|exact HF2|exact HO2].
  intros o x. rewrite <- HO2. apply HO3.
Qed.

(** The end of [merge_persons], from the transfer of the identities on. *)
Definition finish_merge (org : OrgId) (winner loser : Person) (reason : MergeReason)
    (nev : nat) : SvcM PersonWithIdentities :=
  nid ← call (transfer_identities l w);
  now ← utc_now;
  now' ← utc_now;
  call (update_person (merge_into now now' w loser));;
  id ← new_uuid;
  now ← utc_now;
  call (create_merge (mkPersonMerge id w l reason now));;
  (if audit_hook then on_merge (mkDetails org w l reason nev nid) else mret tt);;
  identities ← call (list_identities_for_person w);
  mret (mkPersonWithIdentities winner identities).

Definition merge_rel (T1 : Tables) (a : Owners) : Prop :=
  same_owners (owner T1) a \/ forall o x, a o x = redirect l w <$> owner T1 o x.

Lemma merge_stage2_winner T1 L' W' : persons T1 !! w = Some W' ->
  persons (merge_stage2 w l L' T1) !! w = Some W'.
Proof. intros HW. cbn. by rewrite lookup_alter_ne. Qed.

Lemma wp_finish_merge T1 n au s org W' reason nev :
  cfg lv s T1 n au -> Inv T1 -> Fresh T1 n -> persons T1 !! w = Some W' ->
  p_org_id W' = p_org_id P -> merged_into_id W' = None -> persons T1 !! l = Some Lo ->
  wp (finish_merge org W' Lo reason nev)
    (fun s' r => exists t1 t2 t3,
       let T' := set_merges (fun ms => ms ++ [mkPersonMerge (uuid_at n) w l reason t3])
                   (merge_stage2 w l (merge_into t1 t2 w Lo) T1) in
       cfg lv s' T' (S n)
         (au ++ if audit_hook
                then [mkDetails org w l reason nev (length (identities_of T1 l))] else [])
       /\ Inv T' /\ Fresh T' (S n) /\ (forall o x, owner T' o x = redirect l w <$> owner T1 o x)
       /\ person r = W' /\ returns T' w r)
    (failed lv (merge_rel T1) False) s.
Proof.
  intros Hs HI1 HF1 HW HoW HmW HL1. unfold finish_merge.
  assert (Hlk : p_id Lo = l) by exact (inv_key _ HI1 _ _ HL1).
  assert (Hst := fun t1 t2 => merge_stage2_sound T1 n (merge_into t1 t2 w Lo) HI1 HF1 Hlk HL1
    (ex_intro _ W' (conj HW (conj HoW HmW)))). cbn zeta in Hst.
  destruct (Hst 0%Z 0%Z) as [_ (HI2 & HF2 & HO2)].
  eapply wp_bind, wp_call_ok; [apply transfer_identities_law|exact Hs| | |].
  { split; [by eauto|]. exact (person_unique _ HI2). }
  { intros s' msg Hs' Hl. eapply failed_here; [exact Hs'|done|done|by left|done]. }
  intros s1 nid Hs1 ->. eapply wp_bind, wp_now; [exact Hs1|]. intros s2 t1 Hs2.
  eapply wp_bind, wp_now; [exact Hs2|]. intros s3 t2 Hs3.
  destruct (Hst t1 t2) as [(HI3 & HF3 & HO3) _].
  eapply wp_bind, (wp_call_ok _ _ (update_person_law (merge_into t1 t2 w Lo)) Hs3).
  { intros _ x [= <-]. cbn. by rewrite HW. }
  { intros s' msg Hs' Hl. eapply failed_here; [exact Hs'|done|done|by right|done]. }
  intros s4 [] Hs4 _. cbn [merge_into p_id] in Hs4. rewrite Hlk in Hs4.
  change (cfg lv s4 (merge_stage2 w l (merge_into t1 t2 w Lo) T1) n au) in Hs4.
  pose proof (merge_stage2_winner T1 (merge_into t1 t2 w Lo) W' HW) as HW2.
  set (T2 := merge_stage2 w l _ T1) in *.
  eapply wp_bind, wp_uuid; [exact Hs4|]. intros s5 Hs5.
  eapply wp_bind, wp_now; [exact Hs5|]. intros s6 t3 Hs6.
  set (m := mkPersonMerge _ _ _ _ t3).
  eapply wp_bind, wp_call_ok; [apply create_merge_law|exact Hs6| | |].
  { split_and!; [apply Forall_forall; intros m' Hm'; by apply (HF3 n)|by eauto|].
    cbn. by rewrite lookup_alter_eq, HL1. }
  { intros s' msg Hs' Hl. eapply failed_here; [exact Hs'|done| |by right|done].
    by apply (Fresh_le T2 n); [|lia]. }
  intros s7 [] Hs7 _.
  destruct (Inv_same T2 (set_merges (fun ms => ms ++ [m]) T2) HI3 eq_refl eq_refl)
    as [HI4 HO4].
  assert (HF4 := Fresh_add_merge T2 n (S n) m HF3 ltac:(lia) eq_refl).
  apply wp_bind. eapply (wp_mono _ (fun s' _ => cfg lv s' (set_merges (fun ms => ms ++ [m]) T2)
    (S n) (au ++ if audit_hook then [mkDetails org w l reason nev (length (identities_of T1 l))]
                 else [])) _ (fun _ _ => False)); [| |done].
  { destruct audit_hook; [by eapply wp_on_merge; [exact Hs7|]|]. apply wp_ret.
    by rewrite app_nil_r. }
  intros s8 _ Hs8.
  eapply wp_bind, wp_call_ok; [apply list_identities_for_person_law|exact Hs8|done| |].
  { intros s' msg Hs' Hl. eapply failed_here; [exact Hs'|done|done| |done].
    right. intros o x. by rewrite HO4. }
  intros s9 ids Hs9 Hids. apply wp_ret. exists t1, t2, t3. cbn zeta. fold T2 m.
  split_and!; [exact Hs9|done|done| |done|by split]. intros o x. by rewrite HO4.
Qed.

Lemma wp_additional s n au additional :
  cfg lv s T n au ->
  wp (match additional with
      | Some props => set_person_properties props
           (with_properties (fill_properties (properties Lo) (properties P)) P)
      | None => mret (with_properties (fill_properties (properties Lo) (properties P)) P)
      end)
    (fun s' W' => cfg lv s' T n au /\ exists t, W' = merged_winner P Lo additional t)
    (fun _ _ => False) s.
Proof.
  intros Hs. destruct additional as [props|].
  - eapply wp_set_properties; [exact Hs|]. by eauto.
  - apply wp_ret. split; [done|]. by exists 0%Z.
Qed.

Lemma wp_merge_persons n au s reason additional :
  cfg lv s T n au -> Fresh T n ->
  wp (merge_persons w l reason additional)
    (fun s' r => exists t t1 t2 t3,
       let W' := merged_winner P Lo additional t in
       let T' := set_merges (fun ms => ms ++ [mkPersonMerge (uuid_at n) w l reason t3])
                   (merge_stage2 w l (merge_into t1 t2 w Lo) (merge_stage1 w l W' T)) in
       cfg lv s' T' (S n) (au ++ merge_details (p_org_id P) w l reason T)
       /\ Inv T' /\ Fresh T' (S n)
       /\ (forall o x, owner T' o x = redirect l w <$> owner T o x)
       /\ person r = W' /\ returns T' w r)
    (failed lv (merge_rel T) False) s.
Proof.
  intros Hs HF. unfold Identity.merge_persons.
  assert (HE0 : forall s' msg, cfg lv s' T n au -> ~ lv ->
    failed lv (merge_rel T) False s' (Database msg)).
  { intros s' msg Hc Hl. eapply failed_here; [exact Hc|done|done|by left|done]. }
  eapply wp_bind, wp_call_ok; [apply get_person_by_id_law|exact Hs|done|eauto|].
  intros s1 ? Hs1 ->. rewrite HP. apply wp_bind, wp_found. cbn zeta.
  eapply wp_bind, wp_call_ok; [apply get_person_by_id_law|exact Hs1|done|eauto|].
  intros s2 ? Hs2 ->. rewrite HL. apply wp_bind, wp_found. cbn zeta.
  eapply wp_bind, wp_mono; [apply (wp_additional s2 n au additional Hs2)| |done].
  intros s3 W' [Hs3 [t ->]]. set (W' := merged_winner P Lo additional t).
  destruct (merged_winner_columns P Lo additional t) as (Hc & Hm & Hid & HoW).
  fold W' in Hc, Hm, Hid, HoW. rewrite HmP in Hm.
  destruct (merge_stage1_sound W' n Hc Hm HF) as (HI1 & HF1 & HO1 & HW1 & HL1).
  rewrite (inv_key _ HI _ _ HP) in Hid.
  eapply wp_bind, (wp_call_ok _ _ (update_person_law W') Hs3); [intros _ ? ?; congruence|eauto|].
  intros s4 [] Hs4 _. rewrite Hid in Hs4.
  destruct (Inv_same _ (set_persons (alter (person_columns W') w) T) HI1 eq_refl eq_refl)
    as [HI1' HO1'].
  eapply wp_bind, wp_call_ok; [apply reassign_events_law|exact Hs4| | |].
  { intros _. exact (ex_intro _ _ HW1). }
  { intros s' msg Hs' Hl. eapply failed_here; [exact Hs'|done|done| |done].
    left. intros o x. by rewrite HO1', HO1. }
  intros s5 nev Hs5 ->.
  eapply wp_mono; [eapply (wp_finish_merge (merge_stage1 w l W' T) n au s5); eauto| |].
  - intros s6 r (t1 & t2 & t3 & H & HI2 & HF2 & HO2 & Hr). exists t, t1, t2, t3. cbn zeta.
    split_and!; [exact H|done|done| |by apply Hr..]. intros o x. by rewrite HO2, HO1.
  - intros s6 e He. eapply failed_mono; [exact He| |done].
    intros a [Ha|Ha]; [left|right]; intros o x; rewrite Ha; [done|by rewrite HO1].
Qed.
End Merge.

(** ** Linking two distinct ids *)

(** What a failed link can leave behind: nothing, a new person for [d], or the
    link. *)
Definition partly (T : Tables) (org : OrgId) (d u : string) (a : Owners) : Prop :=
  same_owners (owner T) a
  \/ (exists p, owner T org d = None /\ persons T !! p = None /\ given org d p (owner T) a)
  \/ (exists w l, chosen T org d u w l /\ linked org d u w l (owner T) a).

Definition link_post (lv : Prop) (T : Tables) (org : OrgId) (d u : string) (s : Service)
    (r : PersonWithIdentities) : Prop :=
  exists T' n' au' w l, cfg lv s T' n' au' /\ Inv T' /\ Fresh T' n'
    /\ linked org d u w l (owner T) (owner T') /\ chosen T org d u w l
    /\ events T' = move_event l w <$> events T /\ returns T' w r.

Definition link_fail (lv : Prop) (T : Tables) (org : OrgId) (d u : string) :
    Service -> AnalyticsServerError -> Prop :=
  failed lv (partly T org d u) (d = u /\ owner T org d = None).

Lemma link_post_here lv T org d u s r T' n' au' w l :
  cfg lv s T' n' au' -> Inv T' -> Fresh T' n' ->
  linked org d u w l (owner T) (owner T') -> chosen T org d u w l ->
  events T' = move_event l w <$> events T -> returns T' w r ->
  link_post lv T org d u s r.
Proof. intros. exists T', n', au', w, l. by split_and!. Qed.

Section Link.
Context (lv : Prop) (T : Tables) (org : OrgId) (d u : string).
Context (HI : Inv T).

Lemma unchanged_fails s n au msg :
  cfg lv s T n au -> Fresh T n -> ~ lv -> link_fail lv T org d u s (Database msg).
Proof. intros. eapply failed_here; [done..|by left|done]. Qed.

(** The two lookups at the start. *)
Lemma wp_lookups {A} n au s (k : option PersonIdentity -> option PersonIdentity -> SvcM A) Q E :
  cfg lv s T n au ->
  (forall s' msg, cfg lv s' T n au -> ~ lv -> E s' (Database msg)) ->
  (forall s' a b, cfg lv s' T n au ->
     i_person_id <$> a = owner T org d -> i_person_id <$> b = owner T org u ->
     wp (k a b) Q E s') ->
  wp (a ← call (get_identity_by_distinct_id org d);
      b ← call (get_identity_by_distinct_id org u); k a b) Q E s.
Proof.
  intros Hs HE Hk.
  assert (Hpost : forall x (a : option PersonIdentity), match a with
      | Some i => i ∈ identities T /\ answers T org x i
      | None => Forall (fun i => ~ answers T org x i) (identities T)
      end -> i_person_id <$> a = owner T org x).
  { intros x [i|]; cbn; [intros [Hi Ha]|intros Hn].
    - symmetry. by apply answers_owner.
    - symmetry. by apply owner_None. }
  eapply wp_bind, wp_call_ok; [apply get_identity_by_distinct_id_law|exact Hs|done|exact HE|].
  intros s1 a Hs1 Ha. eapply wp_bind, wp_call_ok;
    [apply get_identity_by_distinct_id_law|exact Hs1|done|exact HE|].
  intros s2 b Hs2 Hb. by apply Hk; [|apply Hpost..].
Qed.

Lemma wp_link_new n au s p ty :
  cfg lv s T (S n) au -> Fresh T n -> p_id p = uuid_at n -> merged_into_id p = None ->
  p_org_id p = org -> owner T org d = None -> owner T org u = None ->
  wp (create_pair p d u ty) (link_post lv T org d u) (link_fail lv T org d u) s.
Proof.
  intros Hs HF Hid Hm <- Hd Hu.
  eapply wp_mono; [by apply (wp_create_pair lv T n au s p d u ty)| |].
  - intros s' r (T' & n' & Hs' & HI' & HF' & _ & HO & Hnew & Hev & Hr).
    eapply link_post_here; [done..| | |done].
    + unfold chosen. by rewrite Hd, Hu.
    + by rewrite move_events_same.
  - intros s' e He. eapply failed_mono; [exact He| |done].
    intros a [Ha|[Hnew Ha]]; [by left|right; left]. eauto.
Qed.

(** One of the ids is known, [x] is the other one. *)
Lemma wp_link_attach T1 n au s p x ty :
  cfg lv s T1 n au -> Inv T1 -> Fresh T1 n -> same_owners (owner T) (owner T1) ->
  events T1 = events T ->
  persons T1 !! p_id p = Some p -> merged_into_id p = None -> p_org_id p = org ->
  (owner T org d = Some (p_id p) /\ owner T org u = None /\ x = u
   \/ owner T org d = None /\ owner T org u = Some (p_id p) /\ x = d) ->
  wp (attach p x ty) (link_post lv T org d u) (link_fail lv T org d u) s.
Proof.
  intros Hs HI1 HF HO Hev HP Hm <- Hcase.
  assert (Hch : chosen T (p_org_id p) d u (p_id p) (p_id p)).
  { unfold chosen. by destruct Hcase as [(-> & -> & _)|(-> & -> & _)]. }
  assert (Hlink : forall a, given (p_org_id p) x (p_id p) (owner T1) a ->
    linked (p_org_id p) d u (p_id p) (p_id p) (owner T) a).
  { intros a Ha. apply linked_same. intros o y. rewrite Ha, HO.
    destruct (decide (o = p_org_id p /\ y = x)) as [B|B];
      destruct (decide (o = p_org_id p /\ (y = d \/ y = u))) as [C|C]; try done.
    - destruct C. destruct Hcase as [(_ & _ & ->)|(_ & _ & ->)]; tauto.
    - destruct C as [-> C], Hcase as [(H & _ & ->)|(_ & H & ->)], C as [->| ->];
        try done; destruct B; done. }
  eapply wp_mono; [apply (wp_attach lv T1 n au s p x ty); try done| |].
  - rewrite HO. by destruct Hcase as [(_ & H & ->)|(H & _ & ->)].
  - intros s' r (T' & n' & Hs' & HI' & HF' & HG & Hev' & Hr).
    eapply link_post_here; [done..|by apply Hlink|done| |done].
    rewrite move_events_same. congruence.
  - intros s' e He. eapply failed_mono; [exact He| |done].
    intros a [Ha|Ha]; [left|right; right; eauto]. intros o y. by rewrite Ha, HO.
Qed.

(** Both ids belong to [p] already. *)
Lemma wp_link_same T1 n au s p :
  cfg lv s T1 n au -> Inv T1 -> Fresh T1 n -> same_owners (owner T) (owner T1) ->
  events T1 = events T ->
  persons T1 !! p_id p = Some p ->
  owner T org d = Some (p_id p) -> owner T org u = Some (p_id p) ->
  wp (ids ← call (list_identities_for_person (p_id p)); mret (mkPersonWithIdentities p ids))
    (link_post lv T org d u) (link_fail lv T org d u) s.
Proof.
  intros Hs HI1 HF HO Hev HP Hd Hu.
  eapply wp_bind, wp_call_ok; [apply list_identities_for_person_law|exact Hs|done| |].
  { intros s' msg Hs' Hl. eapply failed_here; [exact Hs'|done..| |done]. left. exact HO. }
  intros s1 ids Hs1 Hids. apply wp_ret.
  eapply (link_post_here _ _ _ _ _ _ _ _ _ _ (p_id p) (p_id p)); [exact Hs1|done|done| | | |].
  - apply linked_same. intros o x. rewrite HO. destruct (decide _) as [[-> [->| ->]]|]; done.
  - unfold chosen. rewrite Hd, Hu. by left.
  - by rewrite move_events_same.
  - by split.
Qed.

Lemma determine_merge_winner_cases a b :
  determine_merge_winner a b = (a, b) \/ determine_merge_winner a b = (b, a).
Proof.
  unfold determine_merge_winner. destruct (has_identified_identity a), (has_identified_identity b);
    auto; destruct (_ <=? _)%Z; auto.
Qed.

(** The ids belong to different persons. *)
Lemma wp_link_merge n au s w l P Lo reason additional :
  cfg lv s T n au -> Fresh T n ->
  persons T !! w = Some P -> persons T !! l = Some Lo -> p_org_id P = org ->
  p_org_id Lo = org -> merged_into_id P = None -> l <> w ->
  (owner T org d = Some w /\ owner T org u = Some l
   \/ owner T org d = Some l /\ owner T org u = Some w) ->
  wp (merge_persons w l reason additional) (link_post lv T org d u) (link_fail lv T org d u) s.
Proof.
  intros Hs HF HP HL HoP HoL Hm N Hcase.
  assert (Hch : chosen T org d u w l).
  { unfold chosen. destruct Hcase as [(-> & ->)|(-> & ->)]; auto. }
  assert (Hlink : forall a, (forall o x, a o x = redirect l w <$> owner T o x) ->
    linked org d u w l (owner T) a).
  { intros a Ha o x. rewrite Ha. destruct (decide _) as [[-> Hx]|]; [|done].
    assert (owner T org x = Some w \/ owner T org x = Some l) as [->| ->]
      by (destruct Hx as [->| ->]; tauto); cbn; unfold redirect; by destruct (decide _). }
  eapply wp_mono; [apply (wp_merge_persons lv T w l P Lo HI HP HL ltac:(congruence) Hm N
    n au s reason additional Hs HF)| |].
  - intros s' r (t & t1 & t2 & t3 & Hs' & HI' & HF' & HO & _ & Hr).
    eapply link_post_here; [exact Hs'|done|done|by apply Hlink|done|done|done].
  - intros s' e He. eapply failed_mono; [exact He| |done].
    intros a [Ha|Ha]; [by left|right; right; eauto].
Qed.

(** Loading the owner [p] of a known id. *)
Lemma wp_load {A} n au s p P (k : Person -> SvcM A) msg Q :
  cfg lv s T n au -> Fresh T n -> persons T !! p = Some P ->
  (forall s', cfg lv s' T n au -> wp (k P) Q (link_fail lv T org d u) s') ->
  wp (found ← call (get_person_by_id p); q ← ok_or_internal msg found; k q) Q
    (link_fail lv T org d u) s.
Proof.
  intros Hs HF HP Hk. eapply wp_bind, wp_call_ok; [apply get_person_by_id_law|exact Hs|done| |].
  { intros. by eapply unchanged_fails. }
  intros s1 ? Hs1 ->. rewrite HP. apply wp_bind, wp_found. by apply Hk.
Qed.

(** Loading the owner of [x], setting properties and storing it. *)
Lemma wp_load_update {A} n au s p x props (k : Person -> SvcM A) msg Q :
  cfg lv s T n au -> Fresh T n -> owner T org x = Some p ->
  (forall s' T' P', cfg lv s' T' n au -> Inv T' -> Fresh T' n ->
     same_owners (owner T) (owner T') -> events T' = events T ->
     persons T' !! p_id P' = Some P' -> merged_into_id P' = None -> p_org_id P' = org ->
     p_id P' = p -> wp (k P') Q (link_fail lv T org d u) s') ->
  wp (found ← call (get_person_by_id p); q ← ok_or_internal msg found;
      q ← set_person_properties props q; call (update_person q);; k q) Q
    (link_fail lv T org d u) s.
Proof.
  intros Hs HF Hx Hk. destruct (owner_person _ _ _ _ HI Hx) as (P & HP & Kp & Op & Mp).
  eapply wp_load; [done..|]. intros s1 Hs1.
  eapply wp_bind, wp_set_properties; [exact Hs1|]. intros s2 t Hs2.
  destruct (set_properties_columns t props P) as (Hc & Hm & Hid & Ho & _).
  eapply wp_bind, (wp_update lv T n au s2 _ P); eauto; [congruence..| |].
  { intros. by eapply unchanged_fails. }
  intros s3 T' Hs3 HI' HF' -> HP' HO'. eapply Hk; eauto; congruence.
Qed.

(** Loading both owners. *)
Lemma wp_load_both {A} n au s a b msg Q E
    (k : PersonWithIdentities -> PersonWithIdentities -> SvcM A) :
  cfg lv s T n au -> owner T org d = Some a -> owner T org u = Some b ->
  (forall s' msg, cfg lv s' T n au -> ~ lv -> E s' (Database msg)) ->
  (forall s' pa pb, cfg lv s' T n au -> returns T a pa -> returns T b pb ->
     wp (k pa pb) Q E s') ->
  wp (found ← call (get_person_with_identities a);
      pa ← ok_or_internal msg found;
      found ← call (get_person_with_identities b);
      pb ← ok_or_internal msg found;
      k pa pb) Q E s.
Proof.
  intros Hs Ha Hb HE Hk.
  destruct (owner_person _ _ _ _ HI Ha) as (P & HP & _).
  destruct (owner_person _ _ _ _ HI Hb) as (P' & HP' & _).
  eapply wp_bind, wp_call_ok; [apply get_person_with_identities_law|exact Hs|done|exact HE|].
  intros s1 [pa|] Hs1 Hpa; [|congruence]. apply wp_bind, wp_found.
  eapply wp_bind, wp_call_ok; [apply get_person_with_identities_law|exact Hs1|done|exact HE|].
  intros s2 [pb|] Hs2 Hpb; [|congruence]. apply wp_bind, wp_found. by apply Hk.
Qed.

Lemma wp_load_merge n au s a b reason additional msg :
  cfg lv s T n au -> Fresh T n -> owner T org d = Some a -> owner T org u = Some b -> a <> b ->
  wp (found ← call (get_person_with_identities a);
      pa ← ok_or_internal msg found;
      found ← call (get_person_with_identities b);
      pb ← ok_or_internal msg found;
      let '(winner, loser) := determine_merge_winner pa pb in
      merge_persons (p_id (person winner)) (p_id (person loser)) reason additional)
    (link_post lv T org d u) (link_fail lv T org d u) s.
Proof.
  intros Hs HF Hd Hu N. eapply wp_load_both; [done..|intros; by eapply unchanged_fails|].
  intros s1 pa pb Hs1 [Hpa _] [Hpb _].
  destruct (owner_person T org d a HI Hd) as (A' & HA & Ka & Oa & Ma).
  destruct (owner_person T org u b HI Hu) as (B' & HB & Kb & Ob & Mb).
  rewrite Hpa in HA. rewrite Hpb in HB. injection HA as HA. injection HB as HB. subst A' B'.
  destruct (determine_merge_winner_cases pa pb) as [->| ->]; rewrite Ka, Kb;
    eapply wp_link_merge; eauto.
Qed.
End Link.

Lemma wp_identify lv T n au s org payload :
  cfg lv s T n au -> Inv T -> Fresh T n ->
  wp (identify org payload)
    (link_post lv T org (ip_distinct_id payload) (ip_user_id payload))
    (link_fail lv T org (ip_distinct_id payload) (ip_user_id payload)) s.
Proof.
  intros Hs HI HF. eapply wp_lookups; [done..|intros; by eapply unchanged_fails|].
  intros s1 a b Hs1 Ha Hb.
  destruct a as [a|], b as [b|]; cbn in Ha, Hb; symmetry in Ha, Hb.
  - destruct (decide _) as [E|N].
    + eapply wp_load_update; [done..|]. intros s2 T' P Hs2 HI2 HF2 HO Hev HP Hm Ho Hid.
      eapply wp_link_same; eauto; congruence.
    + by eapply wp_load_merge; eauto.
  - eapply wp_load_update; [done..|]. intros s2 T' P Hs2 HI2 HF2 HO Hev HP Hm Ho Hid.
    eapply wp_link_attach; eauto. left. by rewrite Hid.
  - eapply wp_load_update; [done..|]. intros s2 T' P Hs2 HI2 HF2 HO Hev HP Hm Ho Hid.
    eapply wp_link_attach; eauto. right. by rewrite Hid.
  - eapply wp_bind, wp_new_person; [exact Hs1|]. intros s2 t Hs2.
    by eapply (wp_link_new lv T org _ _ HI n).
Qed.

Lemma wp_alias lv T n au s org payload :
  cfg lv s T n au -> Inv T -> Fresh T n ->
  wp (alias org payload)
    (link_post lv T org (ap_distinct_id payload) (ap_alias payload))
    (link_fail lv T org (ap_distinct_id payload) (ap_alias payload)) s.
Proof.
  intros Hs HI HF. eapply wp_lookups; [done..|intros; by eapply unchanged_fails|].
  intros s1 a b Hs1 Ha Hb.
  destruct a as [a|], b as [b|]; cbn in Ha, Hb; symmetry in Ha, Hb.
  - destruct (owner_person _ _ _ _ HI Ha) as (P & HP & Kp & Op & Mp).
    destruct (decide _) as [E|N].
    + eapply wp_load; [done..|]. intros s2 Hs2. eapply wp_link_same; eauto; congruence.
    + by eapply wp_load_merge; eauto.
  - destruct (owner_person _ _ _ _ HI Ha) as (P & HP & Kp & Op & Mp).
    eapply wp_load; [done..|]. intros s2 Hs2.
    eapply wp_link_attach; eauto; [done|congruence|]. left. by rewrite Kp.
  - destruct (owner_person _ _ _ _ HI Hb) as (P & HP & Kp & Op & Mp).
    eapply wp_load; [done..|]. intros s2 Hs2.
    eapply wp_link_attach; eauto; [done|congruence|]. right. by rewrite Kp.
  - eapply wp_bind, wp_new_person; [exact Hs1|]. intros s2 t Hs2.
    by eapply (wp_link_new lv T org _ _ HI n).
Qed.

Lemma wp_resolve lv T n au s org x :
  cfg lv s T n au -> Inv T -> Fresh T n ->
  wp (resolve_person_for_distinct_id org x)
    (fun s' r => exists T' n' w, cfg lv s' T' n' au /\ Inv T' /\ Fresh T' n'
       /\ given org x w (owner T) (owner T')
       /\ (owner T org x = Some w \/ owner T org x = None /\ persons T !! w = None)
       /\ events T' = events T /\ returns T' w r)
    (fun s' e => exists T' n', cfg lv s' T' n' au /\ Inv T' /\ Fresh T' n' /\ ~ lv
       /\ (exists msg, e = Database msg) /\ same_owners (owner T) (owner T')
       /\ events T' = events T) s.
Proof.
  intros Hs HI HF. unfold Identity.resolve_person_for_distinct_id.
  eapply wp_bind, wp_call_ok; [apply get_identity_by_distinct_id_law|exact Hs|done| |].
  { intros s' msg Hs' Hl. exists T, n. split_and!; [done..|by eexists|by intros ??|done]. }
  intros s1 [i|] Hs1 Hpost.
  - destruct Hpost as [Hi Ha]. pose proof (answers_owner _ _ _ _ HI Hi Ha) as Ho.
    destruct (owner_person _ _ _ _ HI Ho) as (P & HP & Kp & Op & Mp).
    eapply wp_bind, wp_call_ok; [apply get_person_with_identities_law|exact Hs1|done| |].
    { intros s' msg Hs' Hl. exists T, n. split_and!; [done..|by eexists|by intros ??|done]. }
    intros s2 [pi|] Hs2 Hpi; [|congruence]. destruct Hpi as [Hpi Hids].
    assert (P = person pi) as -> by congruence.
    unfold is_merged. rewrite Mp, bool_decide_false by (by intros [? [=]]).
    apply wp_ret. exists T, n, (i_person_id i). split_and!; try done; [|by left].
    intros o y. by destruct (decide _) as [[-> ->]|].
  - apply owner_None in Hpost. unfold Identity.create_anonymous_person.
    eapply wp_bind, wp_new_person; [exact Hs1|]. intros s2 t Hs2.
    eapply (wp_first_identity lv T n au); [exact Hs2|done..| |].
    { intros s' T' n' msg Hs' HI' HF' Hl HO Hev. exists T', n'.
      split_and!; [done..|by eexists|done|done]. }
    intros s3 T' t' j Hs3 HI' HF' HG Hnew HP Hids _ Hev. apply wp_ret.
    eexists _, _, _. split_and!; [exact Hs3|done|done|exact HG|by right|done|].
    split; [done|]. by rewrite Hids.
Qed.

(** ** Requests *)

Inductive Request :=
| Resolve (org : OrgId) (x : string)
| Identify (org : OrgId) (payload : IdentifyPayload)
| Alias (org : OrgId) (payload : AliasPayload).

Definition serve (q : Request) : SvcM PersonWithIdentities :=
  match q with
  | Resolve org x => resolve_person_for_distinct_id org x
  | Identify org payload => identify org payload
  | Alias org payload => alias org payload
  end.

(** The organization and the ids a request links; [resolve] only makes sure its
    id has an owner. *)
Definition request_org (q : Request) : OrgId :=
  match q with Resolve org _ | Identify org _ | Alias org _ => org end.
Definition request_ids (q : Request) : string * string :=
  match q with
  | Resolve _ x => (x, x)
  | Identify _ p => (ip_distinct_id p, ip_user_id p)
  | Alias _ p => (ap_distinct_id p, ap_alias p)
  end.
(** A new id linked with itself. *)
Definition self_link (T : Tables) (q : Request) : Prop :=
  match q with
  | Resolve _ _ => False
  | _ => (request_ids q).1 = (request_ids q).2 /\ owner T (request_org q) (request_ids q).1 = None
  end.

Definition sound (s : Service) : Prop := Inv (tables s) /\ Fresh (tables s) (uuids s).

Lemma given_linked org x w a a' : given org x w a a' -> linked org x x w w a a'.
Proof.
  intros H. apply linked_same. intros o y. rewrite H.
  destruct (decide (o = org /\ y = x)) as [A|A], (decide (o = org /\ (y = x \/ y = x))) as [B|B];
    try done; tauto.
Qed.

(** How a request that links [d] and [u] can end: with the link made and the
    owner returned, or with a database error, the link partly made and, if the
    storage was available, [why]. *)
Definition outcome (s : Service) (org : OrgId) (d u : string) (why : Prop)
    (out : Service * result AnalyticsServerError PersonWithIdentities) : Prop :=
  sound out.1 /\ (available (storage s) -> available (storage out.1)) /\
  match out.2 with
  | Ok r => exists w l,
      chosen (tables s) org d u w l
      /\ linked org d u w l (owner (tables s)) (owner (tables out.1))
      /\ events (tables out.1) = move_event l w <$> events (tables s)
      /\ returns (tables out.1) w r
  | Err e => (exists msg, e = Database msg)
      /\ partly (tables s) org d u (owner (tables out.1))
      /\ (available (storage s) -> why)
  end.

Lemma wp_outcome m s org d u why :
  wp m (link_post (available (storage s)) (tables s) org d u)
    (failed (available (storage s)) (partly (tables s) org d u) why) s ->
  outcome s org d u why (m s).
Proof.
  unfold wp, outcome. destruct (m s) as [s' [r|e]]; cbn.
  - intros (T' & n' & au' & w & l & (<- & <- & <- & Ha) & HI' & HF' & H1 & H2 & H3 & H4).
    split_and!; [done..|]. exists w, l. by split_and!.
  - intros (T' & n' & au' & (<- & <- & <- & Ha) & HI' & HF' & H1 & H2 & H3).
    by split_and!.
Qed.

Lemma serve_spec q s : sound s ->
  outcome s (request_org q) (request_ids q).1 (request_ids q).2 (self_link (tables s) q)
    (serve q s).
Proof.
  intros [HI HF]. apply wp_outcome.
  assert (Hs : cfg (available (storage s)) s (tables s) (uuids s) (audit s)) by done.
  destruct q as [org x|org payload|org payload]; cbn.
  - eapply wp_mono; [apply (wp_resolve _ _ _ _ _ _ _ Hs HI HF)| |].
    + intros s' r (T' & n' & w & Hs' & HI' & HF' & HG & Hw & Hev & Hr).
      eapply link_post_here; [done..|by apply given_linked| | |done].
      * unfold chosen. destruct Hw as [->|[-> Hw]]; auto.
      * by rewrite move_events_same.
    + intros s' e (T' & n' & Hs' & HI' & HF' & Hl & [msg ->] & HO & _).
      eapply failed_here; [exact Hs'|done|done|by left|done].
  - apply (wp_identify _ _ _ _ _ _ _ Hs HI HF).
  - apply (wp_alias _ _ _ _ _ _ _ Hs HI HF).
Qed.

(** A sequence of requests, one after the other, with their results. *)
Fixpoint serve_all (qs : list Request) (s : Service)
    : Service * list (result AnalyticsServerError PersonWithIdentities) :=
  match qs with
  | [] => (s, [])
  | q :: qs =>
      let out := serve q s in
      let rest := serve_all qs out.1 in
      (rest.1, out.2 :: rest.2)
  end.

(** [x] and [y] have the same owner. *)
Definition together (T : Tables) (org : OrgId) (x y : string) : Prop :=
  exists p, owner T org x = Some p /\ owner T org y = Some p.

Definition links (org : OrgId) (q : Request) (x y : string) : Prop :=
  request_org q = org /\ request_ids q = (x, y).

(** A request among [qs] links [x] and [y]; the same for a successful request. *)
Definition asked (org : OrgId) (qs : list Request) (x y : string) : Prop :=
  exists q, q ∈ qs /\ links org q x y.
Definition granted_link (org : OrgId) (qs : list Request)
    (rs : list (result AnalyticsServerError PersonWithIdentities)) (x y : string) : Prop :=
  exists i q r, qs !! i = Some q /\ rs !! i = Some (Ok r) /\ links org q x y.

Lemma chosen_redirect T org d u w l x p :
  chosen T org d u w l -> x = d \/ x = u -> owner T org x = Some p -> redirect l w p = w.
Proof.
  unfold chosen, redirect. intros H [->| ->] E; rewrite E in H;
    [destruct (owner T org u)|destruct (owner T org d)]; destruct (decide (p = l)); naive_solver.
Qed.

(** Known ids follow the redirection. *)
Lemma linked_known T org d u w l a' o x p :
  chosen T org d u w l -> linked org d u w l (owner T) a' -> owner T o x = Some p ->
  a' o x = Some (redirect l w p).
Proof.
  intros Hc Hl E. rewrite Hl. destruct (decide _) as [[-> Hx]|]; [|by rewrite E].
  f_equal. symmetry. by eapply chosen_redirect.
Qed.

Lemma owner_org T o x p : owner T o x = Some p -> org_of T p = Some o.
Proof. intros (i & _ & [_ Ho] & <-)%owner_Some. done. Qed.

Lemma rtsc_least {A} (Rl S : relation A) x y :
  Equivalence S -> (forall a b, Rl a b -> S a b) -> rtsc Rl x y -> S x y.
Proof.
  intros HS HR. induction 1 as [|a b c Hab _ IH]; [reflexivity|].
  transitivity b; [|done]. destruct Hab as [H|H]; [by apply HR|symmetry; by apply HR].
Qed.

(** What a request makes of the classes of an organization. *)
Definition step_rel (T : Tables) (org : OrgId) (d u : string) (o : OrgId) (x y : string) : Prop :=
  together T o x y \/ o = org /\ x = d /\ y = u.

Lemma joined_near T org d u w l a' x : Inv T ->
  chosen T org d u w l -> linked org d u w l (owner T) a' -> a' org x = Some w ->
  rtsc (step_rel T org d u org) x d.
Proof.
  intros HI Hc Hl Hx.
  assert (Hdu : rtsc (step_rel T org d u org) u d).
  { apply rtsc_rl. right. done. }
  rewrite Hl in Hx. destruct (decide _) as [[_ [->| ->]]|N]; [done|done|].
  apply fmap_Some in Hx as (p & Hp & Hw).
  assert (Hnear : p = w \/ p = l) by (unfold redirect in Hw; destruct (decide _); auto).
  assert (Hto : owner T org d = Some p \/ owner T org u = Some p).
  { unfold chosen in Hc. destruct (owner T org d) as [a|], (owner T org u) as [b|];
      [destruct Hc as [[-> ->]|[-> ->]], Hnear as [->| ->]; auto
      |destruct Hc as [-> ->], Hnear as [->| ->]; auto..|].
    destruct Hc as [Hn ->]. destruct (owner_person _ _ _ _ HI Hp) as (P & HP & _).
    destruct Hnear as [->| ->]; congruence. }
  destruct Hto as [Hd|Hu].
  - apply rtsc_lr. left. by exists p.
  - etrans; [|exact Hdu]. apply rtsc_lr. left. by exists p.
Qed.

(** Other organizations are not touched. *)
Lemma linked_other_org T org d u w l a' o x :
  chosen T org d u w l -> linked org d u w l (owner T) a' -> o <> org ->
  a' o x = owner T o x.
Proof.
  intros Hc Hl No. rewrite Hl, decide_False by tauto.
  destruct (owner T o x) as [p|] eqn:Ho; [|done]. cbn. f_equal. unfold redirect.
  destruct (decide (p = l)) as [->|]; [|done]. apply owner_org in Ho. unfold chosen in Hc.
  destruct (owner T org d) as [a|] eqn:E1, (owner T org u) as [b|] eqn:E2;
    try apply owner_org in E1; try apply owner_org in E2;
    [destruct Hc as [[-> ->]|[-> ->]]|destruct Hc as [-> ->]..|destruct Hc as [_ ->]];
    congruence.
Qed.

Lemma partly_sound T org d u T' o x y : Inv T -> partly T org d u (owner T') ->
  together T' o x y -> rtsc (step_rel T org d u o) x y.
Proof.
  intros HI Hp (p & Hx & Hy).
  assert (Hold : owner T o x = Some p -> owner T o y = Some p -> rtsc (step_rel T org d u o) x y)
    by (intros; apply rtsc_lr; left; by exists p).
  destruct Hp as [Hs|[(q & Hd & Hq & HG)|(w & l & Hc & Hl)]].
  - rewrite Hs in Hx, Hy. by apply Hold.
  - rewrite HG in Hx, Hy.
    assert (Hno : forall z, owner T o z = Some q -> False).
    { intros z Hz. destruct (owner_person _ _ _ _ HI Hz) as (P & HP & _). congruence. }
    destruct (decide _) as [[-> ->]|]; destruct (decide _) as [[Eo ->]|]; [done| | |by apply Hold];
      simplify_eq; by destruct (Hno _ ltac:(eassumption)).
  - destruct (decide (o = org)) as [->|No].
    2: { apply Hold; by rewrite <- (linked_other_org T org d u w l (owner T')). }
    destruct (decide (p = w)) as [->|N].
    { etrans; [by eapply joined_near|]. symmetry. by eapply joined_near. }
    assert (Hkeep : forall z, owner T' org z = Some p -> owner T org z = Some p).
    { intros z Hz. rewrite Hl in Hz. destruct (decide _); [congruence|].
      apply fmap_Some in Hz as (q & Hq & Ew). unfold redirect in Ew.
      destruct (decide _); congruence. }
    by apply Hold; apply Hkeep.
Qed.

Lemma outcome_partly s org d u why out :
  outcome s org d u why out -> partly (tables s) org d u (owner (tables out.1)).
Proof.
  intros (_ & _ & H). destruct (out.2) as [r|e]; [|by apply H].
  destruct H as (w & l & Hc & Hl & _). right. right. eauto.
Qed.

Lemma serve_all_sound qs s : sound s -> sound (serve_all qs s).1.
Proof.
  revert s. induction qs as [|q qs IH]; intros s Hs; [done|]. cbn. apply IH.
  apply (serve_spec q s Hs).
Qed.

Lemma serve_all_linked qs s org x y : sound s ->
  together (tables (serve_all qs s).1) org x y ->
  rtsc (fun x y => together (tables s) org x y \/ asked org qs x y) x y.
Proof.
  revert s x y. induction qs as [|q qs IH]; intros s x y Hs Ht.
  - apply rtsc_lr. by left.
  - cbn in Ht. pose proof (serve_spec q s Hs) as Hq.
    eapply rtsc_least; [apply rtsc_equivalence| |by apply (IH _ _ _ (proj1 Hq) Ht)].
    intros a b [Hab|(q' & Hq' & Hl)].
    + eapply rtsc_least; [apply rtsc_equivalence|
        |by eapply (partly_sound _ _ _ _ _ _ _ _ (proj1 Hs)), Hab; eapply outcome_partly].
      intros a' b' [H|(-> & -> & ->)]; apply rtsc_lr; [by left|right].
      exists q. split; [left|]. split; [done|]. by destruct (request_ids q).
    + apply rtsc_lr. right. exists q'. split; [by right|done].
Qed.

(** Known ids stay known and together. *)
Lemma partly_keeps T org d u T' o x y : Inv T -> partly T org d u (owner T') ->
  together T o x y -> together T' o x y.
Proof.
  intros HI Hp (p & Hx & Hy). destruct Hp as [Hs|[(q & Hd & Hq & HG)|(w & l & Hc & Hl)]].
  - exists p. by rewrite !Hs.
  - exists p. rewrite !HG. split.
    + destruct (decide _) as [[-> ->]|]; [congruence|done].
    + destruct (decide _) as [[-> ->]|]; [congruence|done].
  - exists (redirect l w p). by split; eapply linked_known.
Qed.

Lemma serve_all_keeps qs s org x y : sound s -> together (tables s) org x y ->
  together (tables (serve_all qs s).1) org x y.
Proof.
  revert s. induction qs as [|q qs IH]; intros s Hs Ht; [done|]. cbn.
  pose proof (serve_spec q s Hs) as Hq. apply IH; [apply Hq|].
  eapply partly_keeps; [apply Hs|by eapply outcome_partly|done].
Qed.

Lemma outcome_links s org d u why out r :
  outcome s org d u why out -> out.2 = Ok r -> together (tables out.1) org d u.
Proof.
  intros (_ & _ & H) E. rewrite E in H. destruct H as (w & l & Hc & Hl & _).
  exists w. rewrite !Hl. by rewrite !decide_True by auto.
Qed.

Lemma serve_all_granted qs s org x y : sound s ->
  granted_link org qs (serve_all qs s).2 x y ->
  together (tables (serve_all qs s).1) org x y.
Proof.
  revert s. induction qs as [|q qs IH]; intros s Hs (i & q' & r & Hi & Hr & Hl); [done|].
  cbn in Hr |- *. pose proof (serve_spec q s Hs) as Hq. destruct i as [|i]; cbn in Hi, Hr.
  - simplify_eq. apply serve_all_keeps; [apply Hq|]. destruct Hl as [<- E].
    pose proof (outcome_links _ _ _ _ _ _ r Hq ltac:(congruence)) as Ht. by rewrite E in Ht.
  - apply IH; [apply Hq|]. by exists i, q', r.
Qed.

Lemma together_equiv T org : Equivalence (fun x y => x = y \/ together T org x y).
Proof.
  split.
  - intros x. by left.
  - intros x y [->|(p & Hx & Hy)]; [by left|right]. by exists p.
  - intros x y z [->|(p & Hx & Hy)] [->|(q & Hy' & Hz)]; auto.
    + right. by exists q.
    + right. by exists p.
    + right. exists p. split; [done|]. congruence.
Qed.

(** No request links an id with itself. *)
Definition proper (q : Request) : Prop :=
  match q with Resolve _ _ => True | _ => (request_ids q).1 <> (request_ids q).2 end.

Lemma serve_all_ok qs s : sound s -> available (storage s) -> Forall proper qs ->
  Forall (fun r => exists pi, r = Ok pi) (serve_all qs s).2.
Proof.
  revert s. induction qs as [|q qs IH]; intros s Hs Ha Hp; [constructor|].
  apply Forall_cons in Hp as [Hp Hps]. pose proof (serve_spec q s Hs) as (Hs' & Ha' & H).
  cbn. constructor; [|by apply IH; [|apply Ha'|]].
  destruct (serve q s).2 as [pi|e]; [eauto|]. destruct H as (_ & _ & Hw).
  specialize (Hw Ha). by destruct q; [|destruct Hw..].
Qed.

(** ** Outcome of a merge *)

Lemma insert_all_union new existing : insert_all new existing = new ∪ existing.
Proof.
  unfold insert_all. induction new as [|k v m Hk Hf IH] using map_first_key_ind.
  - by rewrite map_fold_empty, (left_id_L ∅ (∪)).
  - rewrite map_fold_insert_first_key by done. by rewrite IH, insert_union_l.
Qed.

Lemma or_insert_all_union new existing : or_insert_all new existing = existing ∪ new.
Proof.
  unfold or_insert_all. induction new as [|k v m Hk Hf IH] using map_first_key_ind.
  - by rewrite map_fold_empty, (right_id_L ∅ (∪)).
  - rewrite map_fold_insert_first_key by done. rewrite IH. unfold or_insert.
    rewrite lookup_union, Hk, (right_id_L None (∪)). destruct (existing !! k) as [v'|] eqn:E.
    + apply map_eq. intros j. rewrite !lookup_union.
      destruct (decide (j = k)) as [->|]; [by rewrite E, Hk, lookup_insert_eq|].
      by rewrite lookup_insert_ne.
    + by rewrite insert_union_r.
Qed.

(** [p] has an identity from an [identify] call. *)
Definition has_login (T : Tables) (p : PersonId) : Prop :=
  exists i, i ∈ identities T /\ i_person_id i = p /\ identity_type i = Identified.

(** [A] is kept when it is merged with [B]: only [A] has logged in, or both or
    neither have and [A] is not younger. *)
Definition preferred (T : Tables) (A B : Person) : Prop :=
  has_login T (p_id A) /\ ~ has_login T (p_id B)
  \/ (has_login T (p_id A) <-> has_login T (p_id B)) /\ (p_created_at A <= p_created_at B)%Z.

Definition request_reason (q : Request) : MergeReason :=
  match q with
  | Alias _ p => MR_Alias (ap_distinct_id p) (ap_alias p)
  | _ => MR_Identify (request_ids q).1 (request_ids q).2
  end.
Definition request_properties (q : Request) : option Json :=
  match q with Identify _ p => Some (ip_properties p) | _ => None end.

(** [s'] is [s] with [l] merged into [w], and [r] is the new record of [w]. *)
Record merged (q : Request) (s s' : Service) (w l : Person) (r : Person) : Prop := {
  mg_winner : p_id r = p_id w /\ persons (tables s') !! p_id w = Some r;
  mg_properties : forall wp lp, as_object (properties w) = Some wp ->
    as_object (properties l) = Some lp ->
    as_object (properties r) =
      Some (default ∅ (request_properties q ≫= as_object) ∪ (wp ∪ lp));
  mg_loser : exists t t', persons (tables s') !! p_id l = Some (merge_into t t' (p_id w) l);
  mg_others : forall p, p <> p_id w -> p <> p_id l ->
    persons (tables s') !! p = persons (tables s) !! p;
  mg_moved : identities_of (tables s') (p_id l) = [] /\ events_of (tables s') (p_id l) = [];
  mg_record : exists id t, merges (tables s') =
    merges (tables s) ++ [mkPersonMerge id (p_id w) (p_id l) (request_reason q) t];
  mg_audit : audit s' = audit s ++
    if audit_hook
    then [mkDetails (request_org q) (p_id w) (p_id l) (request_reason q)
            (length (events_of (tables s) (p_id l)))
            (length (identities_of (tables s) (p_id l)))]
    else [];
}.

Lemma has_login_returned T p pi : returns T p pi ->
  has_identified_identity pi = true <-> has_login T p.
Proof.
  intros [_ Hp]. unfold has_identified_identity, has_login. rewrite existsb_exists. split.
  - intros (i & Hi & Hb). apply bool_decide_eq_true in Hb.
    apply list_elem_of_In in Hi. rewrite Hp in Hi. apply list_elem_of_filter in Hi as [<- Hi].
    by exists i.
  - intros (i & Hi & <- & Ht). exists i. split; [|by apply bool_decide_eq_true].
    apply list_elem_of_In. rewrite Hp. by apply list_elem_of_filter.
Qed.

Lemma determine_merge_winner_preferred T pa pb :
  returns T (p_id (person pa)) pa -> returns T (p_id (person pb)) pb ->
  determine_merge_winner pa pb = (pa, pb) /\ preferred T (person pa) (person pb)
  \/ determine_merge_winner pa pb = (pb, pa) /\ ~ preferred T (person pa) (person pb).
Proof.
  intros Ha%has_login_returned Hb%has_login_returned. unfold determine_merge_winner, preferred.
  rewrite <- Ha, <- Hb.
  destruct (has_identified_identity pa), (has_identified_identity pb);
    try (destruct (Z.leb_spec (p_created_at (person pa)) (p_created_at (person pb))));
    (left; split; [reflexivity|]; intuition congruence)
    || (right; split; [reflexivity|]; intuition (try congruence; try lia)).
Qed.

Lemma merged_winner_properties w l additional t wp lp :
  as_object (properties w) = Some wp -> as_object (properties l) = Some lp ->
  as_object (properties (merged_winner w l additional t)) =
    Some (default ∅ (additional ≫= as_object) ∪ (wp ∪ lp)).
Proof.
  intros Hw Hl. unfold merged_winner, fill_properties. rewrite Hw, Hl.
  destruct additional as [v|]; cbn -[as_object].
  - unfold set_properties. cbn [with_properties properties]. rewrite as_object_of_object.
    destruct (as_object v) as [np|] eqn:Ev; cbn; rewrite as_object_of_object.
    + by rewrite insert_all_union, or_insert_all_union.
    + by rewrite or_insert_all_union, (left_id_L ∅ (∪)).
  - by rewrite as_object_of_object, or_insert_all_union, (left_id_L ∅ (∪)).
Qed.

Lemma events_moved_away T l w : l <> w ->
  filter (fun e => e_person_id e = Some l) (move_event l w <$> events T) = [].
Proof.
  intros N. induction (events T) as [|e es IH]; [done|]. cbn [fmap list_fmap].
  rewrite filter_cons_False; [exact IH|]. unfold move_event.
  destruct (decide _) as [E|E]; cbn; congruence.
Qed.

Lemma wp_merge_outcome q s s0 w l :
  sound s -> cfg (available (storage s)) s0 (tables s) (uuids s) (audit s) ->
  persons (tables s) !! p_id w = Some w -> persons (tables s) !! p_id l = Some l ->
  p_org_id w = request_org q -> p_org_id l = request_org q -> merged_into_id w = None ->
  p_id l <> p_id w ->
  wp (merge_persons (p_id w) (p_id l) (request_reason q) (request_properties q))
    (fun s' r => merged q s s' w l (person r)) (fun _ _ => True) s0.
Proof.
  intros [HI HF] Hs Hw Hl Ow Ol Mw N.
  eapply wp_mono; [apply (wp_merge_persons _ _ _ _ _ _ HI Hw Hl ltac:(congruence) Mw N _ _ _
    (request_reason q) (request_properties q) Hs HF)| |done].
  intros s' r (t & t1 & t2 & t3 & (HT & _ & Hau & _) & _ & _ & _ & Hr & Hret). cbn zeta in *.
  destruct (merged_winner_columns w l (request_properties q) t) as (Hc & _ & Hid & _).
  split; rewrite ?HT, ?Hr in *.
  - split; [done|]. destruct Hret as [Hret _]. by rewrite Hr in Hret.
  - intros. by apply merged_winner_properties.
  - exists t1, t2. cbn. rewrite lookup_alter_eq, lookup_alter_ne, Hl by done. done.
  - intros p Np Nl. cbn. by rewrite !lookup_alter_ne by congruence.
  - split; [exact (moved_away (merge_stage1 (p_id w) (p_id l) _ (tables s)) _ _ N)
      |exact (events_moved_away (tables s) _ _ N)].
  - by exists (uuid_at (uuids s)), t3.
  - rewrite Hau, <- Ow. done.
Qed.

Lemma merge_outcome q s A B : sound s ->
  owner (tables s) (request_org q) (request_ids q).1 = Some (p_id A) ->
  owner (tables s) (request_org q) (request_ids q).2 = Some (p_id B) ->
  persons (tables s) !! p_id A = Some A -> persons (tables s) !! p_id B = Some B ->
  p_id A <> p_id B ->
  match serve q s with
  | (s', Ok r) => preferred (tables s) A B /\ merged q s s' A B (person r)
                  \/ ~ preferred (tables s) A B /\ merged q s s' B A (person r)
  | (_, Err _) => True
  end.
Proof.
  intros Hs Hd Hu HA HB N.
  assert (Hc : cfg (available (storage s)) s (tables s) (uuids s) (audit s)) by done.
  destruct (owner_person _ _ _ _ (proj1 Hs) Hd) as (A' & HA' & _ & OA & MA).
  destruct (owner_person _ _ _ _ (proj1 Hs) Hu) as (B' & HB' & _ & OB & MB).
  assert (A' = A) as -> by congruence. assert (B' = B) as -> by congruence.
  cut (wp (serve q) (fun s' r => preferred (tables s) A B /\ merged q s s' A B (person r)
    \/ ~ preferred (tables s) A B /\ merged q s s' B A (person r)) (fun _ _ => True) s).
  { unfold wp. by destruct (serve q s) as [? []]. }
  assert (Hmerge : forall s1 pa pb, cfg (available (storage s)) s1 (tables s) (uuids s) (audit s) ->
    returns (tables s) (p_id A) pa -> returns (tables s) (p_id B) pb ->
    wp (let '(winner, loser) := determine_merge_winner pa pb in
        merge_persons (p_id (person winner)) (p_id (person loser)) (request_reason q)
          (request_properties q))
      (fun s' r => preferred (tables s) A B /\ merged q s s' A B (person r)
        \/ ~ preferred (tables s) A B /\ merged q s s' B A (person r)) (fun _ _ => True) s1).
  { intros s1 pa pb Hs1 Hpa Hpb.
    assert (person pa = A) as EA by (destruct Hpa; congruence).
    assert (person pb = B) as EB by (destruct Hpb; congruence). subst A B.
    destruct (determine_merge_winner_preferred (tables s) pa pb Hpa Hpb) as [[-> Hp]|[-> Hp]];
      (eapply wp_mono; [by apply (wp_merge_outcome q s); eauto| |done]); auto. }
  destruct q as [org x|org payload|org payload]; cbn in Hd, Hu, Hmerge |- *; [congruence|..].
  all: eapply wp_lookups; [apply Hs|exact Hc|done|]; intros s1 [a|] [b|] Hs1 Ha Hb;
    cbn in Ha, Hb; rewrite Hd in Ha; rewrite Hu in Hb; simplify_eq;
    rewrite Ha, Hb, decide_False by done;
    by eapply wp_load_both; [apply Hs|exact Hs1|exact Hd|exact Hu|done|].
Qed.

(** ** Attribution of events *)

Inductive ApiCall :=
| Api_Identify (k : AnalyticsApiKeyContext) (payload : IdentifyPayload)
| Api_Alias (k : AnalyticsApiKeyContext) (payload : AliasPayload)
| Api_Set (k : AnalyticsApiKeyContext) (payload : SetPropertiesRequest)
| Api_Capture (k : AnalyticsApiKeyContext) (info : ClientInfo) (payload : CaptureEventRequest).

Definition handle (c : ApiCall) : SvcM Response :=
  match c with
  | Api_Identify k payload => identify_impl k payload
  | Api_Alias k payload => alias_impl k payload
  | Api_Set k payload => set_properties_impl k payload
  | Api_Capture k info payload => capture_event k info payload
  end.

Fixpoint handle_all (cs : list ApiCall) (s : Service)
    : Service * list (result AnalyticsServerError Response) :=
  match cs with
  | [] => (s, [])
  | c :: cs =>
      let out := handle c s in
      let rest := handle_all cs out.1 in
      (rest.1, out.2 :: rest.2)
  end.

(** The response is not a server error. *)
Definition answered (r : result AnalyticsServerError Response) : bool :=
  match r with
  | Ok (Internal_Server_Error _) | Err _ => false
  | Ok _ => true
  end.

Lemma Attributed_linked T T' org d u w l :
  chosen T org d u w l -> linked org d u w l (owner T) (owner T') ->
  events T' = move_event l w <$> events T -> Attributed T -> Attributed T'.
Proof.
  intros Hc Hl Hev HA e p. rewrite Hev. intros (e0 & -> & He0)%list_elem_of_fmap Hp.
  unfold move_event in *. destruct (decide (e_person_id e0 = Some l)) as [E|N]; cbn in *.
  - injection Hp as <-. rewrite (linked_known T org d u w l (owner T') _ _ l Hc Hl) by eauto.
    f_equal. unfold redirect. by rewrite decide_True.
  - rewrite (linked_known T org d u w l (owner T') _ _ p Hc Hl) by eauto.
    f_equal. unfold redirect. rewrite decide_False; [done|]. by intros ->.
Qed.

Lemma Attributed_same T T' : same_owners (owner T) (owner T') -> events T' = events T ->
  Attributed T -> Attributed T'.
Proof. intros HO Hev HA e p. rewrite Hev, HO. apply HA. Qed.

(** The state after a call, and [ok] if the response is [answered]. *)
Definition handled (lv : Prop) (ok : Tables -> Prop) (s : Service) (r : Response) : Prop :=
  exists T n au, cfg lv s T n au /\ Inv T /\ Fresh T n /\ (answered (Ok r) = true -> ok T).

Lemma wp_touch lv T n au s k (r : Response) (ok : Tables -> Prop) :
  cfg lv s T n au -> Inv T -> Fresh T n -> ok T ->
  wp (touch_key k;; mret r) (handled lv ok) (fun _ _ => False) s.
Proof.
  intros Hs HI HF Hok. apply wp_bind. unfold Identity.touch_key.
  eapply wp_bind, wp_now; [exact Hs|]. intros s1 t Hs1. apply wp_bind, wp_attempt.
  eapply wp_call_ok; [apply update_api_key_last_used_law|exact Hs1|done| |].
  - intros s2 msg Hs2 _. apply wp_ret, wp_ret. exists T, n, au. by split_and!.
  - intros s2 [] Hs2 _. apply wp_ret, wp_ret. exists T, n, au. by split_and!.
Qed.

Lemma handled_refused lv ok s msg : forall T n au, cfg lv s T n au -> Inv T -> Fresh T n ->
  handled lv ok s (Internal_Server_Error msg).
Proof. intros T n au Hs HI HF. exists T, n, au. by split_and!. Qed.

Lemma wp_link_handler lv T org d u m k msg s : Attributed T ->
  wp m (link_post lv T org d u) (link_fail lv T org d u) s ->
  wp (r ← attempt m;
      match r with
      | Ok pi => touch_key k;; mret (Ok_Person (p_id (person pi)))
      | Err _ => mret (Internal_Server_Error msg)
      end) (handled lv Attributed) (fun _ _ => False) s.
Proof.
  intros HA Hm. apply wp_bind, wp_attempt. eapply wp_mono; [exact Hm| |].
  - intros s' r (T' & n' & au' & w & l & Hs' & HI' & HF' & Hl & Hc & Hev & _).
    eapply wp_touch; [exact Hs'|done|done|]. by eapply Attributed_linked.
  - intros s' e (T' & n' & au' & Hs' & HI' & HF' & _). apply wp_ret. by eapply handled_refused.
Qed.

Lemma wp_refuse lv T n au s code msg : cfg lv s T n au -> Inv T -> Fresh T n -> Attributed T ->
  wp (mret (Bad_Request code msg)) (handled lv Attributed) (fun _ _ => False) s.
Proof. intros. apply wp_ret. exists T, n, au. by split_and!. Qed.

(** The owner of [x], after [resolve]. *)
Lemma wp_resolve_attributed lv T n au s org x : cfg lv s T n au -> Inv T -> Fresh T n ->
  Attributed T ->
  wp (resolve_person_for_distinct_id org x)
    (fun s' r => exists T' n', cfg lv s' T' n' au /\ Inv T' /\ Fresh T' n' /\ Attributed T'
       /\ owner T' org x = Some (p_id (person r))
       /\ persons T' !! p_id (person r) = Some (person r))
    (fun s' _ => exists T' n', cfg lv s' T' n' au /\ Inv T' /\ Fresh T' n' /\ Attributed T') s.
Proof.
  intros Hs HI HF HA. eapply wp_mono; [apply (wp_resolve _ _ _ _ _ _ _ Hs HI HF)| |].
  - intros s' r (T' & n' & w & Hs' & HI' & HF' & HG & Hw & Hev & [Hr _]).
    rewrite (inv_key _ HI' _ _ Hr). exists T', n'. split_and!; [done..| | |done].
    + eapply (Attributed_linked T T' org x x w w); [|by apply given_linked| |done].
      * unfold chosen. destruct Hw as [->|[-> Hw]]; auto.
      * by rewrite move_events_same.
    + rewrite HG. by rewrite decide_True.
  - intros s' e (T' & n' & Hs' & HI' & HF' & _ & _ & HO & Hev). exists T', n'.
    split_and!; [done..|]. by apply (Attributed_same T).
Qed.

Lemma wp_new_event lv T n au s org info payload Q E : cfg lv s T n au ->
  (forall s' e, cfg lv s' T (S n) au -> e_org_id e = org ->
     e_distinct_id e = c_distinct_id payload -> e_person_id e = None -> Q s' e) ->
  wp (new_event org info payload) Q E s.
Proof.
  intros Hs HQ. eapply wp_bind, wp_now; [exact Hs|]. intros s1 t Hs1.
  eapply wp_bind, wp_uuid; [exact Hs1|]. intros s2 Hs2. cbn zeta.
  eapply wp_bind. destruct (c_timestamp payload) as [ts|].
  - apply wp_ret, wp_ret. by apply HQ.
  - eapply wp_now; [exact Hs2|]. intros s3 ts Hs3. apply wp_ret. by apply HQ.
Qed.

(** Inserting an event that belongs to the owner of its id, or to nobody. *)
Lemma wp_insert_event lv T n au s k e : cfg lv s T n au -> Inv T -> Fresh T n -> Attributed T ->
  (forall p, e_person_id e = Some p -> owner T (e_org_id e) (e_distinct_id e) = Some p) ->
  wp (r ← attempt (call (insert_event e));
      match r with
      | Err _ => mret (Internal_Server_Error "Failed to capture event")
      | Ok _ => touch_key k;; mret (Ok_Event (e_id e))
      end) (handled lv Attributed) (fun _ _ => False) s.
Proof.
  intros Hs HI HF HA He. apply wp_bind, wp_attempt.
  eapply wp_call; [apply insert_event_law|exact Hs| |].
  - intros s1 [] Hs1 _ _.
    destruct (Inv_same T (set_events (fun l => l ++ [e]) T) HI eq_refl eq_refl) as [HI1 HO1].
    eapply wp_touch; [exact Hs1|done|by apply Fresh_events|].
    intros e' p. rewrite HO1. intros [H|H]%elem_of_app; [by apply HA|].
    apply list_elem_of_singleton in H as ->. apply He.
  - intros s1 msg Hs1 _. apply wp_ret. by eapply handled_refused.
Qed.

Lemma wp_capture lv T n au s k info payload : cfg lv s T n au -> Inv T -> Fresh T n ->
  Attributed T ->
  wp (capture_event k info payload) (handled lv Attributed) (fun _ _ => False) s.
Proof.
  intros Hs HI HF HA. eapply wp_bind, wp_new_event; [exact Hs|].
  intros s1 e Hs1 Eo Ex Ep. apply wp_bind, wp_attempt.
  assert (HF1 : Fresh T (S n)) by (apply (Fresh_le T n); [done|lia]).
  eapply wp_mono; [apply (wp_resolve_attributed _ _ _ _ _ _ _ Hs1 HI HF1 HA)| |].
  - intros s2 r (T' & n' & Hs2 & HI2 & HF2 & HA2 & Ho & _).
    eapply (wp_insert_event _ _ _ _ _ _ (with_person_id _ e)); [exact Hs2|done..|].
    cbn. intros p [= <-]. by rewrite Eo.
  - intros s2 er (T' & n' & Hs2 & HI2 & HF2 & HA2).
    eapply (wp_insert_event _ _ _ _ _ _ e); [exact Hs2|done..|]. congruence.
Qed.

Lemma fill_columns props (P : Person) :
  person_columns (with_properties props P) P = with_properties props P.
Proof. done. Qed.

Lemma wp_set_handler lv T n au s k payload : cfg lv s T n au -> Inv T -> Fresh T n ->
  Attributed T ->
  wp (set_properties_impl k payload) (handled lv Attributed) (fun _ _ => False) s.
Proof.
  intros Hs HI HF HA. unfold Identity.set_properties_impl.
  destruct (check_distinct_id _) as [[]|msg]; [|by eapply wp_refuse].
  destruct (validate_properties _) as [[]|msg]; [|by eapply wp_refuse].
  apply wp_bind, wp_attempt.
  eapply wp_mono; [apply (wp_resolve_attributed _ _ _ _ _ _ _ Hs HI HF HA)| |].
  2: { intros s2 er (T' & n' & Hs2 & HI2 & HF2 & HA2). apply wp_ret. by eapply handled_refused. }
  intros s2 r (T' & n' & Hs2 & HI2 & HF2 & HA2 & Ho & HP).
  destruct (owner_person _ _ _ _ HI2 Ho) as (P & HP' & _ & _ & Hm).
  assert (P = person r) as -> by congruence. apply wp_bind.
  eapply (wp_mono _ (fun s' p => cfg lv s' T' n' au /\ person_columns p (person r) = p
    /\ merged_into_id p = None) _ (fun _ _ => False)); [| |done].
  { destruct (set_once payload); [by apply wp_ret|].
    eapply wp_set_properties; [exact Hs2|]. intros s3 t Hs3.
    destruct (set_properties_columns t (sp_properties payload) (person r)) as (Hc & Hm' & _).
    split_and!; [done..|congruence]. }
  intros s3 p (Hs3 & Hc & Hm'). apply wp_bind, wp_attempt.
  eapply (wp_update lv T' n' au s3 p (person r)); try done.
  - intros s4 msg Hs4 _. apply wp_ret. by eapply handled_refused.
  - intros s4 T4 Hs4 HI4 HF4 -> _ HO4. eapply wp_touch; [exact Hs4|done|done|].
    by apply (Attributed_same T').
Qed.

Lemma wp_handle lv T n au s c : cfg lv s T n au -> Inv T -> Fresh T n -> Attributed T ->
  wp (handle c) (handled lv Attributed) (fun _ _ => False) s.
Proof.
  intros Hs HI HF HA. destruct c as [k payload|k payload|k payload|k info payload]; cbn.
  - unfold Identity.identify_impl.
    destruct (check_distinct_id _) as [[]|msg]; [|by eapply wp_refuse].
    destruct (validate_user_id _) as [[]|msg]; [|by eapply wp_refuse].
    destruct (validate_properties _) as [[]|msg]; [|by eapply wp_refuse].
    eapply wp_link_handler; [done|]. apply (wp_identify _ _ _ _ _ _ _ Hs HI HF).
  - unfold Identity.alias_impl.
    destruct (check_distinct_id _) as [[]|msg]; [|by eapply wp_refuse].
    destruct (check_distinct_id _) as [[]|msg]; [|by eapply wp_refuse].
    eapply wp_link_handler; [done|]. apply (wp_alias _ _ _ _ _ _ _ Hs HI HF).
  - by eapply wp_set_handler.
  - by eapply wp_capture.
Qed.

Lemma handle_all_attributed cs s : sound s -> Attributed (tables s) ->
  forallb answered (handle_all cs s).2 = true ->
  sound (handle_all cs s).1 /\ Attributed (tables (handle_all cs s).1).
Proof.
  revert s. induction cs as [|c cs IH]; intros s Hs HA; [done|]. cbn.
  intros [Hr Hrs]%andb_prop.
  assert (Hc : cfg (available (storage s)) s (tables s) (uuids s) (audit s)) by done.
  pose proof (wp_handle _ _ _ _ _ c Hc (proj1 Hs) (proj2 Hs) HA) as H. unfold wp in H.
  destruct (handle c s) as [s' [r|e]]; [|done]. cbn in *.
  destruct H as (T & n & au & (<- & <- & <- & _) & HI & HF & Ha).
  apply IH; [done|by apply Ha|done].
Qed.

End Correctness.

(** * The service on SQLite *)

Section OnSqlite.
Context `{JO : JsonObject}.
Context (uuid_at : nat -> Uuid) (time_at : nat -> DateTime) (audit_hook : bool).
Context {uuid_inj : Inj (=) (=) uuid_at}.
Implicit Types s : Service (W := Sqlite).

(** C17. Resolving, identifying and aliasing implement the union of identity
    classes.  From a sound state (identities belong to existing, unmerged
    persons, one per distinct id and organization) a request ends in a sound
    state.  When it succeeds, both ids belong to one person [w], everything that
    belonged to the other person [l] belongs to [w], no other id of any
    organization changes hands, events follow, and the answer is [w] as stored
    with all its identities.  When it fails, whichever statement failed, the
    error is a database error and the ids are as before, linked, or [d] alone
    got a new person; and if no statement fails by itself, requests only fail
    when they link an unknown id with itself. *)
Theorem requests_link_owners q s : sound uuid_at s ->
  outcome uuid_at s (request_org q) (request_ids q).1 (request_ids q).2
    (self_link (tables s) q) (serve uuid_at time_at audit_hook q s).
Proof. intros Hs. by apply serve_spec. Qed.

(** C18. Persons are the classes of linked ids.  After any sequence of requests,
    two ids of an organization have the same owner only if they are connected by
    common owners at the start and ids that requests asked to link, and they
    do have the same owner if they are connected by common owners at the start and
    requests that succeeded.  On a storage whose statements do not fail every
    request that does not link an id with itself succeeds, so that both
    relations are the same. *)
Theorem persons_are_link_classes qs s org : sound uuid_at s ->
  let out := serve_all uuid_at time_at audit_hook qs s in
  (forall x y, together (tables out.1) org x y ->
     rtsc (fun x y => together (tables s) org x y \/ asked org qs x y) x y) /\
  (forall x y, rtsc (fun x y => together (tables s) org x y
                                \/ granted_link org qs out.2 x y) x y ->
     x = y \/ together (tables out.1) org x y) /\
  (available (storage s) -> Forall proper qs -> Forall (fun r => exists pi, r = Ok pi) out.2).
Proof.
  intros Hs out. split_and!.
  - intros x y. by apply serve_all_linked.
  - intros x y. apply (rtsc_least _ (fun x y => x = y \/ together (tables out.1) org x y));
      [apply together_equiv|]. intros a b [H|H]; right.
    + by apply serve_all_keeps.
    + by apply serve_all_granted.
  - intros Ha Hp. by apply (serve_all_ok _ _ _ (L := sqlite_laws)).
Qed.

(** Merging keeps the right person and loses nothing.  When a successful
    request links ids of two different persons, the person with an identified
    identity is kept, or the older one if both or neither have one (the first on
    equal age).  Its properties become the request's, then its own, then the
    other's, key by key; the other person is marked as merged into it and keeps
    neither identities nor events; no third person changes; one merge record and,
    with an audit hook, one audit entry with the exact counts are written. *)
Theorem merge_keeps_preferred q s s' A B r : sound uuid_at s ->
  owner (tables s) (request_org q) (request_ids q).1 = Some (p_id A) ->
  owner (tables s) (request_org q) (request_ids q).2 = Some (p_id B) ->
  persons (tables s) !! p_id A = Some A -> persons (tables s) !! p_id B = Some B ->
  p_id A <> p_id B -> serve uuid_at time_at audit_hook q s = (s', Ok r) ->
  preferred (tables s) A B /\ merged audit_hook q s s' A B (person r)
  \/ ~ preferred (tables s) A B /\ merged audit_hook q s s' B A (person r).
Proof.
  intros Hs Hd Hu HA HB N E.
  pose proof (merge_outcome uuid_at time_at audit_hook q s A B Hs Hd Hu HA HB N) as H.
  by rewrite E in H.
Qed.

(** Events follow their ids.  If every attributed event belongs to the
    owner of its distinct id, this still holds after any sequence of API calls
    (identify, alias, set properties, capture) none of which was answered with
    a server error, and the state is sound. *)
Theorem events_follow_ids cs s : sound uuid_at s -> Attributed (tables s) ->
  forallb answered (handle_all uuid_at time_at audit_hook cs s).2 = true ->
  sound uuid_at (handle_all uuid_at time_at audit_hook cs s).1 /\
  Attributed (tables (handle_all uuid_at time_at audit_hook cs s).1).
Proof. intros. by apply handle_all_attributed. Qed.
End OnSqlite.

(** ** A concrete service *)

Inductive DemoJson :=
| DemoNull
| DemoNumber (n : nat)
| DemoObject (fields : list (string * DemoJson)).

#[local] Instance demo_serde : SerdeJson :=
  { Json := DemoJson; json_to_string := fun _ => Some "{}" }.
#[local] Instance demo_object : JsonObject := {
  jo_json := demo_serde;
  as_object := fun v => match v with DemoObject l => Some (list_to_map l) | _ => None end;
  of_object := fun m => DemoObject (map_to_list m);
  as_object_of_object := fun m => f_equal Some (list_to_map_to_list m);
}.

Definition demo_uuid (n : nat) : Uuid := N.of_nat n.
#[local] Instance demo_uuid_inj : Inj (=) (=) demo_uuid.
Proof. intros x y. apply Nat2N.inj. Qed.
Definition demo_time (n : nat) : DateTime := Z.of_nat n.

Definition demo_start (fs : list bool) : Service (W := Sqlite) :=
  mkService (mkSqlite [] [] [] [] [] fs) 0 0 [].

Lemma demo_start_sound fs : sound demo_uuid (demo_start fs).
Proof. split; [split|]; [done|by intros i Hi%elem_of_nil|constructor|]. intros k _. cbn. split_and!;
  [done|by intros i Hi%elem_of_nil..]. Qed.

Definition demo_props (n : nat) : DemoJson := DemoObject [("plan", DemoNumber n)].
Definition demo_alias (x y : string) : Request := Alias 7%N (mkAliasPayload x y).
Definition demo_identify (x y : string) : Request :=
  Identify 7%N (mkIdentifyPayload x y (demo_props 1)).

Lemma requests_link_owners_witness :
  outcome demo_uuid (demo_start [false; false; false; true]) 7%N "anon" "user"
    (self_link (tables (demo_start [])) (demo_identify "anon" "user"))
    (serve demo_uuid demo_time true (demo_identify "anon" "user")
       (demo_start [false; false; false; true])).
Proof.
  exact (requests_link_owners _ _ _ (demo_identify "anon" "user") _ (demo_start_sound _)).
Defined.

Definition demo_links : list Request :=
  [demo_alias "a" "b"; demo_alias "c" "d"; demo_alias "b" "d"].

Lemma persons_are_link_classes_witness :
  let out := serve_all demo_uuid demo_time true demo_links (demo_start []) in
  Forall (fun r => exists pi, r = Ok pi) out.2 /\
  forall x y, rtsc (fun x y => together (tables (demo_start [])) 7%N x y
                               \/ granted_link 7%N demo_links out.2 x y) x y ->
    x = y \/ together (tables out.1) 7%N x y.
Proof.
  destruct (persons_are_link_classes demo_uuid demo_time true demo_links (demo_start []) 7%N
    (demo_start_sound [])) as (_ & H & H').
  split; [|exact H]. apply H'; [constructor|]. repeat constructor; discriminate.
Defined.

(** Two persons with one identity each, the younger one identified. *)
Definition demo_a : Person := Person_new 1%Z 100%N 7%N.
Definition demo_b : Person := Person_new 2%Z 101%N 7%N.
Definition demo_two : Service (W := Sqlite) :=
  mkService (mkSqlite [demo_a; demo_b]
    [mkIdentity 110%N 100%N "a" Anonymous 1%Z; mkIdentity 111%N 101%N "b" Identified 2%Z]
    [] [] [] []) 200 0 [].

Lemma demo_two_persons k p : persons (tables demo_two) !! k = Some p ->
  k = 100%N /\ p = demo_a \/ k = 101%N /\ p = demo_b.
Proof.
  cbn. intros [[<- <-]|[_ [[<- <-]|[_ H]]%lookup_insert_Some]]%lookup_insert_Some;
    [auto..|by rewrite lookup_empty in H].
Qed.

Lemma demo_two_sound : sound demo_uuid demo_two.
Proof.
  split; [split|].
  - intros k p [[-> ->]|[-> ->]]%demo_two_persons; reflexivity.
  - intros i [->|[->|[]%elem_of_nil]%elem_of_cons]%elem_of_cons;
      [exists demo_a|exists demo_b]; split; reflexivity.
  - cbn. apply NoDup_cons. split; [|apply NoDup_singleton].
    intros H%list_elem_of_singleton. discriminate H.
  - intros k Hk. unfold demo_uuid. split_and!.
    + apply eq_None_not_Some. intros [p [[H _]|[H _]]%demo_two_persons]; cbn in Hk; lia.
    + intros i [->|[->|[]%elem_of_nil]%elem_of_cons]%elem_of_cons; cbn in *; lia.
    + by intros m H%elem_of_nil.
Qed.

Lemma merge_keeps_preferred_witness : exists s' r,
  serve demo_uuid demo_time true (demo_alias "a" "b") demo_two = (s', Ok r) /\
  (preferred (tables demo_two) demo_a demo_b
     /\ merged true (demo_alias "a" "b") demo_two s' demo_a demo_b (person r)
   \/ ~ preferred (tables demo_two) demo_a demo_b
     /\ merged true (demo_alias "a" "b") demo_two s' demo_b demo_a (person r)).
Proof.
  pose proof (serve_spec demo_uuid demo_time true (demo_alias "a" "b") demo_two demo_two_sound)
    as (_ & _ & H).
  destruct (serve _ _ _ _ demo_two) as [s' [r|e]] eqn:E.
  - exists s', r. split; [reflexivity|].
    apply (merge_keeps_preferred demo_uuid demo_time true (demo_alias "a" "b") demo_two s'
      demo_a demo_b r demo_two_sound); [reflexivity..|discriminate|exact E].
  - destruct H as (_ & _ & H). destruct H as [H _]; [constructor|discriminate H].
Defined.

Definition demo_key : AnalyticsApiKeyContext := mkApiKeyContext 5%N 7%N Key_Write.
Definition demo_calls : list ApiCall :=
  [Api_Capture demo_key (mkClientInfo None None None None)
     (mkCapture "a" "opened" (demo_props 0) None);
   Api_Identify demo_key (mkIdentifyPayload "b" "user" (demo_props 1));
   Api_Alias demo_key (mkAliasPayload "a" "user")].

Lemma events_follow_ids_witness :
  sound demo_uuid (handle_all demo_uuid demo_time true demo_calls (demo_start [])).1 /\
  Attributed (tables (handle_all demo_uuid demo_time true demo_calls (demo_start [])).1).
Proof.
  apply (events_follow_ids demo_uuid demo_time true demo_calls (demo_start [])).
  - apply demo_start_sound.
  - intros e p He. by apply elem_of_nil in He.
  - vm_compute. reflexivity.
Defined.

(** ** Behaviour outside the theorems *)

(** Identifying a new id with itself violates [UNIQUE(person_id, distinct_id)]:
    the request fails after the person was created. *)
Lemma self_identify_fails :
  let out := serve demo_uuid demo_time true (demo_identify "x" "x") (demo_start []) in
  out.2 = Err (Database "constraint failed") /\ owner (tables out.1) 7%N "x" = Some 0%N.
Proof.
  split; [vm_cast_no_check (eq_refl (A := result AnalyticsServerError PersonWithIdentities)
    (Err (Database "constraint failed")))|vm_cast_no_check (eq_refl (Some 0%N))].
Qed.

(** A merge is not a transaction: when the transfer of the identities fails, the
    loser's events are with the winner already and its ids are not. *)
Definition demo_interrupted :
    Service (W := Sqlite) * result AnalyticsServerError PersonWithIdentities :=
  let s := (handle_all demo_uuid demo_time true (take 2 demo_calls) (demo_start [])).1 in
  let s := mkService (set_faults (replicate 10 false ++ [true]) (storage s))
             (uuids s) (readings s) (audit s) in
  serve demo_uuid demo_time true (demo_alias "a" "user") s.

Lemma interrupted_merge_splits :
  (if demo_interrupted.2 is Err _ then true else false) = true
  /\ (fun e => (e_distinct_id e, e_person_id e)) <$> events (tables demo_interrupted.1)
     = [("a", owner (tables demo_interrupted.1) 7%N "user")]
  /\ owner (tables demo_interrupted.1) 7%N "a" <> owner (tables demo_interrupted.1) 7%N "user".
Proof. split_and!; vm_compute; [reflexivity|reflexivity|discriminate]. Qed.

(** Two resolutions of a new id that both look it up before either inserts: both
    create a person and the id has two identities. *)
Lemma concurrent_resolve_duplicates :
  let find := call (get_identity_by_distinct_id 7%N "x") in
  let create := create_anonymous_person demo_uuid demo_time 7%N "x" in
  let out := (r ← find; r' ← find; create;; create;; mret (bool_decide (r = None /\ r' = None)))
               (demo_start []) in
  out.2 = Ok true
  /\ (fun i => (i_person_id i, i_distinct_id i)) <$> identities (tables out.1)
     = [(0%N, "x"); (2%N, "x")].
Proof. split; vm_compute; reflexivity. Qed.

(** A person created by an [identify] call without properties has [null] for
    them, and properties set later are dropped. *)
Lemma null_properties_stick :
  let calls := [Api_Identify demo_key (mkIdentifyPayload "a" "user" DemoNull);
                Api_Set demo_key (mkSetProperties "user" (demo_props 3) false)] in
  let out := handle_all demo_uuid demo_time true calls (demo_start []) in
  forallb answered out.2 = true
  /\ (fun p => if properties p is DemoNull then true else false)
       <$> person_rows (storage out.1) = [true].
Proof. split; vm_compute; reflexivity. Qed.
