(* ===== verification/Effects.v ===== *)
(** Fallible code on a state: the monad of the handlers, repositories and clients
    that are modelled over a store, with its weakest precondition rules; code that other
    code interleaves with, with rules for shared invariants; and the error of the
    repositories. *)
From stdpp Require Import base list strings relations.
From S2P Require Import Prelude.

(** * Fallible code on a state *)

(** Effects before an error stay. *)
Definition StM (S E A : Type) : Type := S -> result E A * S.

Definition ret {S E A} (a : A) : StM S E A := fun s => (Ok a, s).
Definition raise {S E A} (e : E) : StM S E A := fun s => (Err e, s).
Definition bind {S E A B} (m : StM S E A) (f : A -> StM S E B) : StM S E B := fun s =>
  match m s with
  | (Ok a, s) => f a s
  | (Err e, s) => (Err e, s)
  end.

Declare Scope st_scope.
Delimit Scope st_scope with st.
Notation "'let*' x := m 'in' f" := (bind m (fun x => f))
  (at level 200, x pattern, right associativity) : st_scope.
Open Scope st_scope.

(** [wp m Q s]: the outcome of [m] from [s] satisfies [Q]. *)
Definition wp {S E A} (m : StM S E A) (Q : result E A -> S -> Prop) (s : S) : Prop :=
  Q (m s).1 (m s).2.

Lemma stm_mono {S E A} (m : StM S E A) (Q Q' : result E A -> S -> Prop) s :
  wp m Q s -> (forall r s', Q r s' -> Q' r s') -> wp m Q' s.
Proof. unfold wp. auto. Qed.

Lemma stm_bind {S E A B} (m : StM S E A) (f : A -> StM S E B) Q s :
  wp m (fun r s' => match r with Ok a => wp (f a) Q s' | Err e => Q (Err e) s' end) s ->
  wp (bind m f) Q s.
Proof. unfold wp, bind. by destruct (m s) as [[a|e] s']. Qed.

Lemma bind_run {S E A B} (m : StM S E A) (f : A -> StM S E B) s a s' :
  m s = (Ok a, s') -> bind m f s = f a s'.
Proof. unfold bind. by intros ->. Qed.

Lemma stm_bind_ret {S E A B} (a : A) (f : A -> StM S E B) Q s :
  wp (f a) Q s -> wp (bind (ret a) f) Q s.
Proof. done. Qed.

(** [let _ = m.await], or a [match] on the outcome: the error is a value. *)
Definition attempt {S E E' A} (m : StM S E A) : StM S E' (result E A) := fun s =>
  let '(r, s) := m s in (Ok r, s).

(** [map_err]. *)
Definition map_err {S E E' A} (f : E -> E') (m : StM S E A) : StM S E' A := fun s =>
  match m s with
  | (Ok a, s) => (Ok a, s)
  | (Err e, s) => (Err (f e), s)
  end.

(** A result as a computation without effects. *)
Definition of_result {S E A} (r : result E A) : StM S E A := fun s => (r, s).

Lemma stm_attempt {S E E' A} (m : StM S E A) (Q : result E' (result E A) -> S -> Prop) s :
  wp m (fun r s' => Q (Ok r) s') s -> wp (attempt m) Q s.
Proof. unfold wp, attempt. by destruct (m s). Qed.

Lemma stm_map_err {S E E' A} (f : E -> E') (m : StM S E A) (Q : result E' A -> S -> Prop) s :
  wp m (fun r s' => Q (match r with Ok a => Ok a | Err e => Err (f e) end) s') s ->
  wp (map_err f m) Q s.
Proof. unfold wp, map_err. by destruct (m s) as [[a|e] s']. Qed.

Lemma stm_of_result {S E A} (r : result E A) (Q : result E A -> S -> Prop) s :
  Q r s -> wp (of_result r) Q s.
Proof. done. Qed.

(** A part of the state: [StM] over the part is [StM] over the whole. *)
Definition on_part {S P E A} (get : S -> P) (set : P -> S -> S) (m : StM P E A) : StM S E A :=
  fun s => let '(r, p) := m (get s) in (r, set p s).

Lemma stm_on_part {S P E A} (get : S -> P) (set : P -> S -> S) (m : StM P E A)
    (Q : result E A -> S -> Prop) s :
  wp m (fun r p => Q r (set p s)) (get s) -> wp (on_part get set m) Q s.
Proof. unfold wp, on_part. by destruct (m (get s)). Qed.

(** * Preservation *)

(** [m] takes states with [P] to states with [P], whatever its outcome. *)
Definition keeps {S E A} (P : S -> Prop) (m : StM S E A) : Prop := forall s, P s -> P (m s).2.

Section Keeps.
Context {S : Type} (P : S -> Prop).

Lemma keeps_ret {E A} (a : A) : keeps P (ret (E := E) a).
Proof. by intros s. Qed.
Lemma keeps_raise {E A} (e : E) : keeps P (raise (A := A) e).
Proof. by intros s. Qed.
Lemma keeps_of_result {E A} (r : result E A) : keeps P (of_result r).
Proof. by intros s. Qed.
Lemma keeps_bind {E A B} (m : StM S E A) (f : A -> StM S E B) :
  keeps P m -> (forall a, keeps P (f a)) -> keeps P (bind m f).
Proof.
  intros Hm Hf s Hs. specialize (Hm s Hs). unfold bind. destruct (m s) as [[a|e] s']; [|done].
  by apply Hf.
Qed.
Lemma keeps_attempt {E E' A} (m : StM S E A) : keeps P m -> keeps P (attempt (E' := E') m).
Proof. intros Hm s Hs. specialize (Hm s Hs). unfold attempt. by destruct (m s). Qed.
Lemma keeps_map_err {E E' A} (f : E -> E') (m : StM S E A) : keeps P m -> keeps P (map_err f m).
Proof. intros Hm s Hs. specialize (Hm s Hs). unfold map_err. by destruct (m s) as [[a|e] s']. Qed.
Lemma keeps_wp {E A} (m : StM S E A) : (forall s, P s -> wp m (fun _ => P) s) -> keeps P m.
Proof. intros H s Hs. exact (H s Hs). Qed.
End Keeps.

Lemma wp_keeps {S E A} (P : S -> Prop) (m : StM S E A) s : keeps P m -> P s -> wp m (fun _ => P) s.
Proof. intros H Hs. exact (H s Hs). Qed.

(** [m] goes from [P] to [Q] of its value, or fails within [P]. *)
Definition leads {S E A} (P : S -> Prop) (m : StM S E A) (Q : A -> S -> Prop) : Prop :=
  forall s, P s -> wp m (fun r s' => match r with Ok a => Q a s' | Err _ => P s' end) s.

Lemma keeps_leads {S E A B} (P : S -> Prop) (Q : A -> S -> Prop) (m : StM S E A)
    (f : A -> StM S E B) :
  leads P m Q -> (forall a s, Q a s -> P s) -> (forall a, keeps (Q a) (f a)) ->
  keeps P (bind m f).
Proof.
  intros Hm HQ Hf s Hs. specialize (Hm s Hs). unfold wp, bind in *.
  destruct (m s) as [[a|e] s']; cbn in *; [|done]. by apply (HQ a), Hf.
Qed.

Lemma leads_bind {S E A B} (P : S -> Prop) (Q : A -> S -> Prop) (R : B -> S -> Prop)
    (m : StM S E A) (f : A -> StM S E B) :
  leads P m Q -> (forall a s, Q a s -> P s) -> (forall a, leads (Q a) (f a) R) ->
  leads P (bind m f) R.
Proof.
  intros Hm HQ Hf s Hs. apply stm_bind. eapply stm_mono; [by apply Hm|].
  intros [a|e] s' H; [|done]. eapply stm_mono; [by apply Hf|]. intros [c|e] s'' H'; [done|].
  by apply (HQ a).
Qed.

Lemma leads_keeps {S E A} (P : S -> Prop) (m : StM S E A) :
  keeps P m -> leads P m (fun _ => P).
Proof. intros Hm s Hs. unfold wp. specialize (Hm s Hs). by destruct (m s).1. Qed.

Lemma leads_ret {S E A} (P : S -> Prop) (Q : A -> S -> Prop) (a : A) :
  (forall s, P s -> Q a s) -> leads P (ret (E := E) a) Q.
Proof. intros H s. apply H. Qed.

Lemma leads_raise {S E A} (P : S -> Prop) (Q : A -> S -> Prop) (e : E) : leads P (raise e) Q.
Proof. by intros s. Qed.

(** [m] goes from [P] to [Q], whatever its outcome. *)
Definition moves {S E A} (P Q : S -> Prop) (m : StM S E A) : Prop := forall s, P s -> Q (m s).2.

Lemma keeps_via {S E A B} (P : S -> Prop) (Q : A -> S -> Prop) (m : StM S E A) (f : A -> StM S E B) :
  leads P m Q -> (forall a, moves (Q a) P (f a)) -> keeps P (bind m f).
Proof.
  intros Hm Hf s Hs. specialize (Hm s Hs). unfold wp, bind in *.
  destruct (m s) as [[a|e] s']; cbn in *; [|done]. by apply (Hf a).
Qed.

Lemma moves_bind {S E A B} (P Q : S -> Prop) (m : StM S E A) (f : A -> StM S E B) :
  moves P Q m -> (forall a, keeps Q (f a)) -> moves P Q (bind m f).
Proof.
  intros Hm Hf s Hs. specialize (Hm s Hs). unfold bind. destruct (m s) as [[a|e] s']; [|done].
  by apply Hf.
Qed.

Lemma bind_moves {S E A B} (P Q : S -> Prop) (m : StM S E A) (f : A -> StM S E B) :
  keeps P m -> (forall s, P s -> Q s) -> (forall a, moves P Q (f a)) -> moves P Q (bind m f).
Proof.
  intros Hm HQ Hf s Hs. specialize (Hm s Hs). unfold bind. destruct (m s) as [[a|e] s']; [|by apply HQ].
  by apply Hf.
Qed.

Lemma moves_via {S E A B} (P Q : S -> Prop) (R : A -> S -> Prop) (m : StM S E A)
    (f : A -> StM S E B) :
  (forall s, P s -> wp m (fun r s' => match r with Ok a => R a s' | Err _ => Q s' end) s) ->
  (forall a, moves (R a) Q (f a)) -> moves P Q (bind m f).
Proof.
  intros Hm Hf s Hs. specialize (Hm s Hs). unfold wp, bind in *.
  destruct (m s) as [[a|e] s']; cbn in *; [|done]. by apply (Hf a).
Qed.

Lemma keeps_and {S E A} (P Q : S -> Prop) (m : StM S E A) :
  keeps P m -> keeps Q m -> keeps (fun s => P s /\ Q s) m.
Proof. intros HP HQ s [H1 H2]. split; [by apply HP|by apply HQ]. Qed.

Lemma keeps_assoc {S E A B C} (P : S -> Prop) (m : StM S E A) (f : A -> StM S E B) (g : B -> StM S E C) :
  keeps P (bind m (fun a => bind (f a) g)) -> keeps P (bind (bind m f) g).
Proof.
  intros H s Hs. specialize (H s Hs). unfold bind in *. by destruct (m s) as [[a|e] s'].
Qed.

Create HintDb keeps.
#[export] Hint Resolve keeps_ret keeps_raise keeps_of_result keeps_attempt keeps_map_err : keeps.

(** * Interleaved code *)

(** [async] code between its suspension points: it ends, or takes one atomic step on the
    shared state, a statement or the use of a lock, and goes on with its outcome. *)
Inductive Async (S A : Type) : Type :=
| A_Done (a : A)
| A_Step (X : Type) (f : S -> X * S) (k : X -> Async S A).
Arguments A_Done {S A} a.
Arguments A_Step {S A} X f k.

(** Fallible code, with the operations of [StM]. *)
Definition AsyncM (S E A : Type) : Type := Async S (result E A).

Definition aret {S E A} (a : A) : AsyncM S E A := A_Done (Ok a).
Definition araise {S E A} (e : E) : AsyncM S E A := A_Done (Err e).
Definition atomic {S E A} (m : StM S E A) : AsyncM S E A := A_Step (result E A) m A_Done.

Fixpoint async_map {S A B} (f : A -> Async S B) (m : Async S A) : Async S B :=
  match m with
  | A_Done a => f a
  | A_Step X g k => A_Step X g (fun x => async_map f (k x))
  end.

Definition abind {S E A B} (m : AsyncM S E A) (f : A -> AsyncM S E B) : AsyncM S E B :=
  async_map (fun r => match r with Ok a => f a | Err e => A_Done (Err e) end) m.

Definition amap_err {S E E' A} (f : E -> E') (m : AsyncM S E A) : AsyncM S E' A :=
  async_map (fun r => A_Done (match r with Ok a => Ok a | Err e => Err (f e) end)) m.

Notation "'await*' x := m 'in' f" := (abind m (fun x => f))
  (at level 200, x pattern, right associativity) : st_scope.

(** Without interruption. *)
Fixpoint run_async {S A} (m : Async S A) (s : S) : A * S :=
  match m with
  | A_Done a => (a, s)
  | A_Step X f k => let '(x, s) := f s in run_async (k x) s
  end.

Lemma run_async_map {S A B} (f : A -> Async S B) (m : Async S A) s :
  run_async (async_map f m) s = run_async (f (run_async m s).1) (run_async m s).2.
Proof. revert s. induction m as [a|X g k IH]; intros s; cbn; [done|]. destruct (g s) as [x s']. apply IH. Qed.

Lemma run_abind {S E A B} (m : AsyncM S E A) (f : A -> AsyncM S E B) s :
  run_async (abind m f) s
  = match run_async m s with (Ok a, s') => run_async (f a) s' | (Err e, s') => (Err e, s') end.
Proof. unfold abind. rewrite run_async_map. by destruct (run_async m s) as [[a|e] s']. Qed.

(** ** Rely and guarantee *)

Section Safe.
Context {S : Type} (I : S -> Prop) (ext : S -> S -> Prop) `{!PreOrder ext}.

(** From a state that extends [w], every step of the code keeps the invariant and extends
    the state, whatever others do in between; [Q] holds at its end. *)
Fixpoint safe {A} (Q : A -> S -> Prop) (m : Async S A) (w : S) : Prop :=
  match m with
  | A_Done a => Q a w
  | A_Step X f k => forall w1, ext w w1 -> I w1 ->
      I (f w1).2 /\ ext w1 (f w1).2 /\ safe Q (k (f w1).1) (f w1).2
  end.

Lemma safe_map {A B} (Q : A -> S -> Prop) (R : B -> S -> Prop) (f : A -> Async S B) m w :
  safe Q m w -> (forall a w1, ext w w1 -> Q a w1 -> safe R (f a) w1) -> safe R (async_map f m) w.
Proof.
  revert w. induction m as [a|X g k IH]; cbn; intros w Hm Hf; [by apply Hf|].
  intros w1 He Hi. destruct (Hm w1 He Hi) as (H1 & H2 & H3). split_and!; [done..|].
  apply IH; [done|]. intros a w2 He2. apply Hf. by etrans; [|etrans].
Qed.

Lemma safe_mono {A} (Q R : A -> S -> Prop) m w :
  safe Q m w -> (forall a w1, ext w w1 -> Q a w1 -> R a w1) -> safe R m w.
Proof.
  revert w. induction m as [a|X g k IH]; cbn; intros w Hm HR; [by apply HR|].
  intros w1 He Hi. destruct (Hm w1 He Hi) as (H1 & H2 & H3). split_and!; [done..|].
  apply IH; [done|]. intros a w2 He2. apply HR. by etrans; [|etrans].
Qed.

Lemma safe_later {A} (Q : A -> S -> Prop) m w w1 :
  (forall a w w1, ext w w1 -> Q a w -> Q a w1) -> ext w w1 -> safe Q m w -> safe Q m w1.
Proof. intros HQ He. destruct m as [a|X g k]; cbn; [by apply HQ|]. intros H w2 He2. apply H. by etrans. Qed.

(** [Q] of a value, nothing of an error. *)
Definition on_ok {E A} (Q : A -> S -> Prop) (r : result E A) (w : S) : Prop :=
  match r with Ok a => Q a w | Err _ => True end.

Lemma safe_bind {E A B} (Q : A -> S -> Prop) (R : B -> S -> Prop) (m : AsyncM S E A) (f : A -> AsyncM S E B) w :
  safe (on_ok Q) m w -> (forall a w1, ext w w1 -> Q a w1 -> safe (on_ok R) (f a) w1) ->
  safe (on_ok R) (abind m f) w.
Proof. intros Hm Hf. eapply safe_map; [exact Hm|]. intros [a|e] w1 He H; [by apply Hf|done]. Qed.

Lemma safe_map_err {E E' A} (Q : A -> S -> Prop) (f : E -> E') (m : AsyncM S E A) w :
  safe (on_ok Q) m w -> safe (on_ok Q) (amap_err f m) w.
Proof. intros Hm. eapply safe_map; [exact Hm|]. by intros [a|e] w1 He H. Qed.

Lemma safe_atomic {E A} (Q : A -> S -> Prop) (m : StM S E A) w :
  (forall w1, ext w w1 -> I w1 -> I (m w1).2 /\ ext w1 (m w1).2 /\ on_ok Q (m w1).1 (m w1).2) ->
  safe (on_ok Q) (atomic m) w.
Proof. intros H w1 He Hi. by apply H. Qed.

Lemma safe_run {A} (Q : A -> S -> Prop) (m : Async S A) w : I w -> safe Q m w ->
  I (run_async m w).2 /\ ext w (run_async m w).2 /\ Q (run_async m w).1 (run_async m w).2.
Proof.
  revert w. induction m as [a|X g k IH]; cbn; intros w Hi Hm; [done|].
  destruct (Hm w ltac:(done) Hi) as (H1 & H2 & H3). destruct (g w) as [x w1]. cbn in *.
  destruct (IH x w1 H1 H3) as (H4 & H5 & H6). split_and!; [done|by etrans|done].
Qed.

(** ** Any number of requests *)

(** The requests that are being handled: one takes a step, or is dropped, finished or
    not, with the connection of its client. *)
Inductive interleave {A} : S * list (Async S A) -> S * list (Async S A) -> Prop :=
| I_Advance s ms ns X f k :
    interleave (s, ms ++ A_Step X f k :: ns) ((f s).2, ms ++ k (f s).1 :: ns)
| I_Drop s ms m ns : interleave (s, ms ++ m :: ns) (s, ms ++ ns).

(** A request that nobody interrupts. *)
Lemma run_interleave {A} (m : Async S A) s ns : rtc interleave (s, m :: ns) ((run_async m s).2, ns).
Proof.
  revert s. induction m as [a|X f k IH]; intros s; cbn [run_async].
  - apply rtc_once. apply (I_Drop s [] (A_Done a) ns).
  - eapply rtc_l; [apply (I_Advance s [] ns X f k)|]. cbn. destruct (f s) as [x s']. apply IH.
Qed.

Definition all_safe {A} (c : S * list (Async S A)) : Prop :=
  I c.1 /\ Forall (fun m => exists w, ext w c.1 /\ safe (fun _ _ => True) m w) c.2.

Lemma interleave_safe {A} (c c' : S * list (Async S A)) : interleave c c' -> all_safe c -> all_safe c'.
Proof.
  destruct 1 as [s ms ns X f k|s ms m ns]; intros [Hi Hs]; cbn in *.
  - apply Forall_app in Hs as [H1 H2]. apply Forall_cons in H2 as [(w & He & Hw) H2].
    destruct (Hw s He Hi) as (H3 & H4 & H5). split; [done|]. cbn.
    assert (Hl : forall m : Async S A, (exists w, ext w s /\ safe (fun _ _ => True) m w) ->
      exists w, ext w (f s).2 /\ safe (fun _ _ => True) m w).
    { intros m (v & Hv & Hm). exists v. split; [by etrans|done]. }
    apply Forall_app. split; [by eapply Forall_impl; [exact H1|]|]. apply Forall_cons.
    split; [|by eapply Forall_impl; [exact H2|]]. by exists (f s).2.
  - split; [done|]. cbn in *. apply Forall_app in Hs as [H1 H2]. apply Forall_cons in H2 as [_ H2].
    by apply Forall_app.
Qed.
End Safe.

(** * Errors of the repositories *)

(** [DbError] of [crates/loom-server-db/src/error.rs]; the errors of packages are their
    texts. *)
Inductive DbError :=
| DE_Sqlx (e : string)
| DE_NotFound (s : string)
| DE_Conflict (s : string)
| DE_Internal (s : string)
| DE_Serialization (e : string).

Definition DbError_to_string (e : DbError) : string :=
  match e with
  | DE_Sqlx e => "Database error: " +:+ e
  | DE_NotFound s => "Not found: " +:+ s
  | DE_Conflict s => "Conflict: " +:+ s
  | DE_Internal s => "Internal: " +:+ s
  | DE_Serialization e => "Serialization error: " +:+ e
  end.
