(* ===== verification/Sql.v ===== *)
(** SQLite as the repositories use it: a table is the list of its rows in the order
    of their insertion, a statement reads and changes the tables or fails, and the
    connection has for each statement still to come whether it fails for a reason
    outside of the tables (a lock, a full disk).

    The lemmas relate tables of rows to the values that the rows encode. *)
From stdpp Require Import base list strings sorting.
From Stdlib Require Import ZArith Lia.
From S2P Require Import Prelude Effects.

(** * Rows *)

Section Rows.
Context {R : Type}.
Implicit Types (p q : R -> bool) (f : R -> R) (t : list R).

(** [fetch_optional] takes the first row. *)
Definition select_one p t : option R := List.find p t.
Definition select_where p t : list R := List.filter p t.
Definition count_where p t : nat := length (List.filter p t).
Definition update_where p f t : list R := map (fun r => if p r then f r else r) t.
Definition delete_where p t : list R := List.filter (fun r => negb (p r)) t.

(** [LIMIT] and [OFFSET]: a negative limit is none, a negative offset is zero. *)
Definition sql_limit (n : Z) t : list R := if (n <? 0)%Z then t else take (Z.to_nat n) t.
Definition sql_offset (n : Z) t : list R := drop (Z.to_nat n) t.

Lemma select_one_Some p t r : select_one p t = Some r -> r ∈ t /\ p r = true.
Proof. intros H%List.find_some. by rewrite list_elem_of_In. Qed.

Lemma select_one_None p t : select_one p t = None <-> Forall (fun r => p r = false) t.
Proof.
  split.
  - intros H. apply List.Forall_forall. intros r Hr. by eapply List.find_none.
  - induction 1 as [|r t Hr _ IH]; [done|]. cbn. by rewrite Hr.
Qed.

Lemma count_where_app p t u : count_where p (t ++ u) = count_where p t + count_where p u.
Proof. unfold count_where. by rewrite List.filter_app, length_app. Qed.

Lemma count_where_snoc p t r :
  count_where p (t ++ [r]) = count_where p t + if p r then 1 else 0.
Proof. rewrite count_where_app. unfold count_where at 2. cbn. by destruct (p r). Qed.

Lemma count_where_ext p q t : (forall r, r ∈ t -> p r = q r) -> count_where p t = count_where q t.
Proof.
  intros H. unfold count_where. f_equal. apply List.filter_ext_in. intros r Hr.
  apply H. by rewrite list_elem_of_In.
Qed.

Lemma count_where_None p t : select_one p t = None -> count_where p t = 0.
Proof.
  rewrite select_one_None. unfold count_where. induction 1 as [|r t Hr _ IH]; [done|].
  cbn. by rewrite Hr.
Qed.

Lemma count_where_le p q t : (forall r, r ∈ t -> p r = true -> q r = true) ->
  count_where p t <= count_where q t.
Proof.
  unfold count_where. induction t as [|r t IH]; [done|]. intros H. cbn.
  assert (Hr := H r ltac:(left)). assert (IH' := IH ltac:(intros; apply H; [by right|done])).
  destruct (p r); [rewrite Hr by done; cbn; lia|]. destruct (q r); cbn; lia.
Qed.

Lemma count_where_update p q f t :
  (forall r, r ∈ t -> p r = true -> q (f r) = q r) ->
  count_where q (update_where p f t) = count_where q t.
Proof.
  unfold count_where, update_where. induction t as [|r t IH]; [done|]. intros H. cbn.
  assert (IH' := IH ltac:(intros; apply H; [by right|done])).
  destruct (p r) eqn:Hp; [rewrite H by (try left; done)|]; destruct (q r); cbn; lia.
Qed.

Lemma count_where_delete p q t : count_where q (delete_where p t) <= count_where q t.
Proof.
  unfold count_where, delete_where. induction t as [|r t IH]; [done|]. cbn.
  destruct (p r), (q r) eqn:Hq; cbn; rewrite ?Hq; cbn; lia.
Qed.

Lemma elem_of_delete_where p t r : r ∈ delete_where p t <-> r ∈ t /\ p r = false.
Proof.
  unfold delete_where. rewrite !list_elem_of_In, List.filter_In.
  by destruct (p r); cbn; intuition.
Qed.

Lemma count_where_update_le p q f t :
  (forall r, r ∈ t -> p r = true -> q (f r) = true -> q r = true) ->
  count_where q (update_where p f t) <= count_where q t.
Proof.
  unfold count_where, update_where. induction t as [|r t IH]; [done|]. intros H. cbn.
  assert (IH' := IH ltac:(intros; eapply H; [by right|done|done])).
  assert (Hr := H r ltac:(left)).
  destruct (p r); destruct (q r) eqn:Hq; cbn; try lia.
  - destruct (q (f r)); cbn; lia.
  - destruct (q (f r)); [discriminate Hr; done|]. cbn. lia.
Qed.

Lemma update_where_fmap {B} (g : R -> B) p f t :
  (forall r, r ∈ t -> p r = true -> g (f r) = g r) -> g <$> update_where p f t = g <$> t.
Proof.
  unfold update_where. induction t as [|r t IH]; [done|]. intros H. cbn. f_equal.
  - destruct (p r) eqn:Hp; [|done]. apply H; [by left|done].
  - apply IH. intros. apply H; [by right|done].
Qed.

Lemma delete_where_NoDup {B} (g : R -> B) p t :
  NoDup (g <$> t) -> NoDup (g <$> delete_where p t).
Proof.
  unfold delete_where. induction t as [|r t IH]; [done|]. cbn. rewrite NoDup_cons.
  intros [Hr Ht]. destruct (p r); cbn; [by apply IH|]. apply NoDup_cons. split; [|by apply IH].
  intros (x & E & Hx)%list_elem_of_fmap. apply Hr, list_elem_of_fmap. exists x. split; [done|].
  by apply elem_of_delete_where in Hx as [? _].
Qed.

Lemma delete_where_Forall (P : R -> Prop) p t : Forall P t -> Forall P (delete_where p t).
Proof. rewrite !Forall_forall. intros H r [Hr _]%elem_of_delete_where. by apply H. Qed.

Lemma NoDup_key {B} (g : R -> B) t r r' : NoDup (g <$> t) -> r ∈ t -> r' ∈ t -> g r = g r' -> r = r'.
Proof.
  intros H (i & Hi)%list_elem_of_lookup (j & Hj)%list_elem_of_lookup E.
  assert (i = j); [|congruence]. apply (NoDup_lookup (g <$> t) i j (g r)); [done| |].
  - by rewrite list_lookup_fmap, Hi.
  - rewrite list_lookup_fmap, Hj, E. done.
Qed.

Lemma existsb_false p t r : existsb p t = false -> r ∈ t -> p r = false.
Proof.
  intros H Hr. apply not_true_iff_false. intros E. apply not_true_iff_false in H.
  apply H, List.existsb_exists. exists r. by rewrite <- list_elem_of_In.
Qed.

Lemma existsb_true p t : existsb p t = true -> exists r, r ∈ t /\ p r = true.
Proof. intros (r & Hr & E)%List.existsb_exists. exists r. by rewrite list_elem_of_In. Qed.

Lemma NoDup_fmap_snoc {K} (g : R -> K) t r : NoDup (g <$> t) ->
  (forall x, x ∈ t -> g x <> g r) -> NoDup (g <$> t ++ [r]).
Proof.
  intros Hl Hr. rewrite fmap_app. apply NoDup_app. split_and!; [done| |apply NoDup_singleton].
  intros x (y & -> & Hy)%list_elem_of_fmap Hx%list_elem_of_singleton. by apply (Hr y).
Qed.

Lemma Forall_snoc (P : R -> Prop) t r : Forall P t -> P r -> Forall P (t ++ [r]).
Proof. intros. apply Forall_app. split; [done|]. by constructor. Qed.

Lemma elem_of_update_where p f t r : r ∈ update_where p f t <->
  exists r0, r0 ∈ t /\ r = if p r0 then f r0 else r0.
Proof.
  unfold update_where. rewrite list_elem_of_In, List.in_map_iff.
  setoid_rewrite list_elem_of_In. naive_solver.
Qed.

Lemma elem_of_select_where p t r : r ∈ select_where p t <-> r ∈ t /\ p r = true.
Proof. unfold select_where. by rewrite !list_elem_of_In, List.filter_In. Qed.

Lemma update_where_id p f t : (forall r, r ∈ t -> p r = true -> f r = r) -> update_where p f t = t.
Proof.
  unfold update_where. induction t as [|r t IH]; [done|]. intros H. cbn. f_equal.
  - destruct (p r) eqn:Hp; [|done]. apply H; [by left|done].
  - apply IH. intros. apply H; [by right|done].
Qed.

Lemma delete_where_none p t : Forall (fun r => p r = false) t -> delete_where p t = t.
Proof. unfold delete_where. induction 1 as [|r t Hr _ IH]; [done|]. cbn. by rewrite Hr, IH. Qed.

(** Rows that [q] does not select may come, go and change. *)
Lemma select_where_snoc q t r : q r = false -> select_where q (t ++ [r]) = select_where q t.
Proof. intros H. unfold select_where. rewrite List.filter_app. cbn. by rewrite H, app_nil_r. Qed.

Lemma select_where_snoc_in q t r : q r = true -> select_where q (t ++ [r]) = select_where q t ++ [r].
Proof. intros H. unfold select_where. rewrite List.filter_app. cbn. by rewrite H. Qed.

Lemma select_where_delete p q t : (forall r, r ∈ t -> p r = true -> q r = false) ->
  select_where q (delete_where p t) = select_where q t.
Proof.
  unfold select_where, delete_where. induction t as [|r t IH]; [done|]. intros H. cbn.
  assert (IH' := IH ltac:(intros; apply H; [by right|done])).
  assert (Hr := H r ltac:(left)). destruct (p r); cbn; [by rewrite Hr|]. by rewrite IH'.
Qed.

Lemma select_where_update p q f t :
  (forall r, r ∈ t -> p r = true -> q r = false /\ q (f r) = false) ->
  select_where q (update_where p f t) = select_where q t.
Proof.
  unfold select_where, update_where. induction t as [|r t IH]; [done|]. intros H. cbn.
  assert (IH' := IH ltac:(intros; apply H; [by right|done])).
  assert (Hr := H r ltac:(left)). destruct (p r); [|by rewrite IH'].
  destruct Hr as [-> ->]; done.
Qed.

Lemma select_where_delete_comm p q t :
  select_where q (delete_where p t) = delete_where p (select_where q t).
Proof.
  unfold select_where, delete_where. induction t as [|r t IH]; [done|]. cbn.
  destruct (p r) eqn:Hp, (q r) eqn:Hq; cbn; rewrite ?Hp, ?Hq; cbn; by rewrite IH.
Qed.

Lemma select_where_update_same q f t : (forall r, q (f r) = q r) ->
  select_where q (update_where q f t) = f <$> select_where q t.
Proof.
  intros H. unfold select_where, update_where. induction t as [|r t IH]; [done|]. cbn.
  destruct (q r) eqn:Hq; cbn; [by rewrite H, Hq, IH|by rewrite Hq, IH].
Qed.

Lemma select_where_ext p q t : (forall r, r ∈ t -> p r = q r) -> select_where p t = select_where q t.
Proof.
  intros H. unfold select_where. apply List.filter_ext_in. intros r Hr. apply H.
  by rewrite list_elem_of_In.
Qed.

Lemma sql_limit_elem n t r : r ∈ sql_limit n t -> r ∈ t.
Proof.
  unfold sql_limit. destruct (n <? 0)%Z; [done|]. rewrite <- (take_drop (Z.to_nat n) t) at 2.
  rewrite elem_of_app. by left.
Qed.
End Rows.

#[global] Arguments select_one : simpl never.
#[global] Arguments select_where : simpl never.
#[global] Arguments count_where : simpl never.
#[global] Arguments update_where : simpl never.
#[global] Arguments delete_where : simpl never.
#[global] Arguments sql_limit : simpl never.
#[global] Arguments sql_offset : simpl never.

(** * Rows that encode values *)

Section Encoded.
Context {V R : Type} (enc : V -> R).
Implicit Types (vs : list V).

Lemma select_one_enc p vs : select_one p (enc <$> vs) = enc <$> select_one (fun v => p (enc v)) vs.
Proof. unfold select_one. induction vs as [|v vs IH]; [done|]. cbn. by destruct (p (enc v)). Qed.

Lemma select_where_enc p vs :
  select_where p (enc <$> vs) = enc <$> select_where (fun v => p (enc v)) vs.
Proof.
  unfold select_where. induction vs as [|v vs IH]; [done|]. cbn.
  destruct (p (enc v)); cbn; by rewrite IH.
Qed.

Lemma count_where_enc p vs : count_where p (enc <$> vs) = count_where (fun v => p (enc v)) vs.
Proof.
  unfold count_where. fold (select_where p (enc <$> vs)). rewrite select_where_enc.
  apply length_fmap.
Qed.

Lemma delete_where_enc p vs :
  delete_where p (enc <$> vs) = enc <$> delete_where (fun v => p (enc v)) vs.
Proof. apply (select_where_enc (fun r => negb (p r))). Qed.

Lemma update_where_enc p f g vs :
  (forall v, v ∈ vs -> p (enc v) = true -> f (enc v) = enc (g v)) ->
  update_where p f (enc <$> vs) = enc <$> update_where (fun v => p (enc v)) g vs.
Proof.
  unfold update_where. induction vs as [|v vs IH]; [done|]. intros H. cbn. f_equal.
  - destruct (p (enc v)) eqn:Hp; [|done]. apply H; [by left|done].
  - apply IH. intros. apply H; [by right|done].
Qed.
End Encoded.

(** * Order *)

(** [ORDER BY] on a text column: SQLite compares bytes and leaves the order of equal
    keys open. *)
Class OrderBy := {
  order_by : forall {R : Type}, bool -> (R -> string) -> list R -> list R;
  order_by_perm : forall {R : Type} desc (key : R -> string) l, order_by desc key l ≡ₚ l;
  order_by_sorted : forall {R : Type} desc (key : R -> string) l,
    StronglySorted (fun a b => String.leb (if desc : bool then key b else key a)
                                          (if desc then key a else key b) = true)
      (order_by desc key l);
}.

(** * Statements *)

Record Conn (T : Type) := mkConn {
  cn_tables : T;
  cn_faults : list bool;
}.
Arguments mkConn {T} _ _.
Arguments cn_tables {T} _.
Arguments cn_faults {T} _.

Definition SqlM (T E A : Type) : Type := StM (Conn T) E A.

Definition healthy {T} (c : Conn T) : Prop := cn_faults c = [].

(** One statement; [None] is a violated constraint, and [sqlx] makes the error. *)
Definition sql {T E A} (sqlx : string -> E) (f : T -> option (A * T)) : SqlM T E A := fun c =>
  match cn_faults c with
  | true :: fs => (Err (sqlx "statement failed"%string), mkConn (cn_tables c) fs)
  | fs =>
      let fs := drop 1 fs in
      match f (cn_tables c) with
      | Some (a, t) => (Ok a, mkConn t fs)
      | None => (Err (sqlx "constraint failed"%string), mkConn (cn_tables c) fs)
      end
  end.

(** A statement that only reads. *)
Definition sql_read {T E A} (sqlx : string -> E) (f : T -> A) : SqlM T E A :=
  sql sqlx (fun t => Some (f t, t)).

(** A statement without constraints to violate. *)
Definition sql_write {T E A} (sqlx : string -> E) (f : T -> A * T) : SqlM T E A :=
  sql sqlx (fun t => Some (f t)).

Section Rules.
Context {T E A : Type} (sqlx : string -> E).
Implicit Types (c : Conn T) (Q : result E A -> Conn T -> Prop).

Lemma wp_sql (f : T -> option (A * T)) Q c :
  (forall e c', cn_tables c' = cn_tables c ->
     (healthy c -> healthy c' /\ f (cn_tables c) = None) -> Q (Err e) c') ->
  (forall a c', f (cn_tables c) = Some (a, cn_tables c') ->
     (healthy c -> healthy c') -> Q (Ok a) c') ->
  wp (sql sqlx f) Q c.
Proof.
  intros He Ho. unfold wp, sql, healthy in *.
  destruct (cn_faults c) as [|[|] fs] eqn:Hf.
  - destruct (f (cn_tables c)) as [[a t]|] eqn:Hft; cbn; [by apply Ho|].
    by apply He.
  - cbn. apply He; [done|]. intros Hh. congruence.
  - destruct (f (cn_tables c)) as [[a t]|] eqn:Hft; cbn.
    + apply Ho; [done|]. intros Hh. congruence.
    + apply He; [done|]. intros Hh. congruence.
Qed.

Lemma wp_sql_read (f : T -> A) Q c :
  (forall e c', cn_tables c' = cn_tables c -> ~ healthy c -> Q (Err e) c') ->
  (forall c', cn_tables c' = cn_tables c -> (healthy c -> healthy c') ->
     Q (Ok (f (cn_tables c))) c') ->
  wp (sql_read sqlx f) Q c.
Proof.
  intros He Ho. apply wp_sql.
  - intros e c' Ht Hh. apply He; [done|]. intros H. by destruct (Hh H).
  - intros a c' [= <- Ht] Hh. by apply Ho.
Qed.

Lemma wp_sql_write (f : T -> A * T) Q c :
  (forall e c', cn_tables c' = cn_tables c -> ~ healthy c -> Q (Err e) c') ->
  (forall c', cn_tables c' = (f (cn_tables c)).2 -> (healthy c -> healthy c') ->
     Q (Ok (f (cn_tables c)).1) c') ->
  wp (sql_write sqlx f) Q c.
Proof.
  intros He Ho. apply wp_sql.
  - intros e c' Ht Hh. apply He; [done|]. intros H. by destruct (Hh H).
  - intros a c' [= H] Hh. specialize (Ho c'). rewrite H in Ho. cbn in Ho. by apply Ho.
Qed.
End Rules.

(** * Counting failures *)

(** The statements still to come that fail. *)
Definition faults_left {T} (c : Conn T) : nat := length (List.filter id (cn_faults c)).

Lemma wp_sql_faults {T E A} (sqlx : string -> E) (f : T -> option (A * T))
    (Q : result E A -> Conn T -> Prop) c :
  (forall e c', cn_tables c' = cn_tables c -> faults_left c = S (faults_left c') -> Q (Err e) c') ->
  (forall e c', cn_tables c' = cn_tables c -> faults_left c = faults_left c' ->
     f (cn_tables c) = None -> Q (Err e) c') ->
  (forall a c', f (cn_tables c) = Some (a, cn_tables c') -> faults_left c = faults_left c' ->
     Q (Ok a) c') ->
  wp (sql sqlx f) Q c.
Proof.
  unfold wp, sql, faults_left. intros Hf Hn Ho.
  destruct (cn_faults c) as [|[|] fs] eqn:Hc; [|by apply Hf|];
    (destruct (f (cn_tables c)) as [[a t]|]; [by apply Ho|by apply Hn]).
Qed.

(** A predicate of the tables that more failures do not harm. *)
Definition stable {T} (P : Conn T -> Prop) : Prop :=
  forall c c', cn_tables c' = cn_tables c -> faults_left c' <= faults_left c -> P c -> P c'.

Lemma keeps_sql_read {T E A} (sqlx : string -> E) (P : Conn T -> Prop) (f : T -> A) :
  stable P -> keeps P (sql_read sqlx f).
Proof.
  intros HP. apply keeps_wp. intros c Hc. apply wp_sql_faults.
  - intros e c' Ht Hf. apply (HP c); [done|lia|done].
  - intros e c' Ht Hf Hn. apply (HP c); [done|lia|done].
  - intros a c' [= _ Ht] Hf. apply (HP c); [done|lia|done].
Qed.
