(* ===== verification/Columns.v ===== *)
(** Columns of the database as the repositories encode them: JSON, UUIDs and RFC 3339
    times, with what is assumed of [serde_json], [uuid] and [chrono]; and what the handlers of
    requests share. *)
From stdpp Require Import base list strings pretty.
From Stdlib Require Import ZArith Lia Ascii.
From S2P Require Import Prelude CoreTypes Sql.

(** The JSON text of a column. *)
Class JsonColumn (A : Type) := {
  to_json : A -> string;
  from_json : string -> result string A;
  json_readable : forall a, exists b, from_json (to_json a) = Ok b;
}.

(** Values without floating-point numbers come back as they were. *)
Class ExactColumn (A : Type) `{JsonColumn A} :=
  from_to_json : forall a : A, from_json (to_json a) = Ok a.

(** The times whose RFC 3339 text has a year of four digits. *)
Definition calendar (t : Z) : Prop :=
  (-62167219200 * 10 ^ 9 <= t < 253402300800 * 10 ^ 9)%Z.

#[export] Instance calendar_dec t : Decision (calendar t).
Proof. unfold calendar. solve_decision. Defined.

(** Optional times and [u32]s. *)
Definition opt_calendar (o : option Z) : Prop := match o with Some t => calendar t | None => True end.
Definition opt_u32 (o : option Z) : Prop := match o with Some t => u32_ok t | None => True end.

Lemma opt_u32_i32 o : opt_u32 o -> wrap_u32 <$> (wrap_i32 <$> o) = o.
Proof. destruct o; cbn; [|done]. intros H. by rewrite wrap_u32_i32. Qed.

(** Texts of identifiers and times, and [ORDER BY] on them. *)
Class Stamps := {
  st_order :: OrderBy;
  uuid_text : Uuid -> string;
  uuid_parse : string -> result string Uuid;
  uuid_roundtrip u : uuid_parse (uuid_text u) = Ok u;
  to_rfc3339 : Z -> string;
  parse_from_rfc3339 : string -> option Z;
  rfc3339_roundtrip t : calendar t -> parse_from_rfc3339 (to_rfc3339 t) = Some t;
  rfc3339_order t u : calendar t -> calendar u ->
    String.ltb (to_rfc3339 t) (to_rfc3339 u) = (t <? u)%Z;
}.

Lemma uuid_text_inj `{Stamps} u v : uuid_text u = uuid_text v -> u = v.
Proof. intros E. assert (Hu := uuid_roundtrip u). rewrite E, uuid_roundtrip in Hu. congruence. Qed.

(** [o.map(f).transpose()]. *)
Definition transpose {E A B} (f : A -> result E B) (o : option A) : result E (option B) :=
  match o with
  | Some a => match f a with Ok b => Ok (Some b) | Err e => Err e end
  | None => Ok None
  end.

Lemma bind_Ok {E A B} (m : result E A) (f : A -> result E B) b :
  m ≫= f = Ok b -> exists a, m = Ok a /\ f a = Ok b.
Proof. destruct m; cbn; [|done]. intros H. by exists a. Qed.

(** [rows.into_iter().map(try_from).collect()]. *)
Fixpoint collect {E A B} (f : A -> result E B) (l : list A) : result E (list B) :=
  match l with
  | [] => Ok []
  | a :: l => b ← f a; bs ← collect f l; Ok (b :: bs)
  end.

Lemma collect_Ok {E A B} (f : A -> result E B) l bs :
  collect f l = Ok bs <-> Forall2 (fun a b => f a = Ok b) l bs.
Proof.
  split.
  - revert bs. induction l as [|a l IH]; intros bs H; cbn in H; [injection H as <-; constructor|].
    destruct (f a) as [b|] eqn:Hf; cbn in H; [|done].
    destruct (collect f l) as [bs'|]; cbn in H; [|done]. injection H as <-. constructor; auto.
  - induction 1 as [|a b l bs Ha _ IH]; cbn; [done|]. by rewrite Ha; cbn; rewrite IH.
Qed.

Lemma collect_fmap {E A B C} (f : A -> result E B) (g : C -> A) (h : C -> B) (l : list C) :
  (forall c, c ∈ l -> f (g c) = Ok (h c)) -> collect f (g <$> l) = Ok (h <$> l).
Proof.
  induction l as [|c l IH]; intros H; cbn; [done|]. rewrite H by left. cbn.
  rewrite IH; [done|]. intros c' Hc'. apply H. by right.
Qed.

(** * Numbers as text *)

Definition digit_value (c : ascii) : option Z :=
  if is_ascii_digit c then Some (byte_of c - 48)%Z else None.

Fixpoint parse_digits (acc : Z) (s : string) : option Z :=
  match s with
  | EmptyString => Some acc
  | String c s =>
      d ← digit_value c;
      if (acc * 10 + d <? 2 ^ 32)%Z then parse_digits (acc * 10 + d) s else None
  end.

(** [str::parse::<u32>]. *)
Definition parse_u32 (s : string) : option Z :=
  let s := match strip_prefix "+" s with Some r => r | None => s end in
  match s with
  | EmptyString => None
  | _ => parse_digits 0 s
  end.

Lemma digit_value_char (d : N) : (d < 10)%N -> digit_value (pretty_N_char d) = Some (Z.of_N d).
Proof. intros H. destruct d as [|p]; [done|]. do 4 (destruct p as [p|p|]; try done). Qed.

Lemma parse_digits_pretty (n : N) s : (Z.of_N n < 2 ^ 32)%Z -> (0 < n)%N ->
  parse_digits 0 (pretty_N_go n s) = parse_digits (Z.of_N n) s.
Proof.
  revert s. induction (N.lt_wf_0 n) as [n _ IH]. intros s Hn Hp.
  rewrite pretty_N_go_step by done.
  assert (Hm := N.mod_lt n 10 ltac:(done)). assert (Hd := N.div_mod n 10 ltac:(done)).
  assert (E : forall a, Z.of_N a = Z.of_N (n `div` 10) ->
    parse_digits (Z.of_N a) (String (pretty_N_char (n `mod` 10)) s) = parse_digits (Z.of_N n) s).
  { intros a Ha. cbn [parse_digits]. rewrite digit_value_char by done. cbn [mbind option_bind].
    rewrite Ha. replace (Z.of_N (n `div` 10) * 10 + Z.of_N (n `mod` 10))%Z with (Z.of_N n) by lia.
    by rewrite (proj2 (Z.ltb_lt _ _) Hn). }
  destruct (decide (n `div` 10 = 0)%N) as [H0|H0].
  - rewrite H0, pretty_N_go_0. apply (E 0%N). by rewrite H0.
  - rewrite IH; [by apply E|by apply N.div_lt| |by apply N.neq_0_lt_0].
    apply Z.le_lt_trans with (Z.of_N n); [|done]. apply N2Z.inj_le, N.Div0.div_le_upper_bound. lia.
Qed.

Lemma pretty_N_go_head (n : N) s : (0 < n)%N ->
  exists c r, pretty_N_go n s = String c r /\ is_ascii_digit c = true.
Proof.
  revert s. induction (N.lt_wf_0 n) as [n _ IH]. intros s Hp. rewrite pretty_N_go_step by done.
  destruct (decide (n `div` 10 = 0)%N) as [->|H0].
  - rewrite pretty_N_go_0. eexists _, _. split; [done|].
    assert (H := digit_value_char (n `mod` 10) ltac:(apply N.mod_lt; done)).
    unfold digit_value in H. by destruct (is_ascii_digit _).
  - apply IH; [by apply N.div_lt|by apply N.neq_0_lt_0].
Qed.

Lemma parse_u32_pretty (z : Z) : u32_ok z -> parse_u32 (pretty (Z.to_N z)) = Some z.
Proof.
  intros [H0 H1]. unfold pretty, pretty_N. case_decide as Hz.
  - assert (z = 0%Z) as -> by lia. done.
  - assert (Hn : (0 < Z.to_N z)%N) by lia.
    destruct (pretty_N_go_head (Z.to_N z) "" Hn) as (c & r & E & Hc).
    unfold parse_u32. rewrite E. cbn [strip_prefix].
    destruct (bool_decide_reflect ("+"%char = c)) as [<-|]; [done|]. rewrite <- E.
    rewrite parse_digits_pretty by lia. cbn. f_equal. lia.
Qed.

(** * Handlers

    What the request handlers of the server share: how they end without an answer, and
    the clock and fresh identifiers of a request. *)

(** How a handler ends without an answer. *)
Inductive Failure (E : Type) := Failed (e : E) | Panicked.
Arguments Failed {E} e.
Arguments Panicked {E}.

Record HttpError := mkHttpError { he_status : Z; he_error : string; he_message : string }.

Definition http (status : Z) (error message : string) : HttpError :=
  mkHttpError status error message.

(** A value of the details of an audit entry. *)
Inductive Detail := D_Text (s : string) | D_Number (n : Z) | D_Null.

(** The values of [Utc::now] and of new identifiers during a request, numbered by
    the call. *)
Record Env := mkEnv { env_now : nat -> Z; env_uuid : nat -> Uuid }.
