(* ===== verification/Samples.v ===== *)
(** Stand-ins for packages, for concrete runs: texts of numbers that keep their order,
    columns of countable values, and a sort. *)
From stdpp Require Import base gmap list strings countable sorting.
From Stdlib Require Import ZArith Lia Ascii.
From S2P Require Import Prelude Text CoreTypes Effects Sql Columns.
Local Open Scope Z_scope.

(** * Numbers of a fixed width *)

Definition bit (b : bool) : ascii := if b then "1"%char else "0"%char.

Fixpoint bits (n : nat) (z : Z) : string :=
  match n with
  | O => ""
  | S n => String (bit (2 ^ Z.of_nat n <=? z)) (bits n (z mod 2 ^ Z.of_nat n))
  end.

Fixpoint bits_value (s : string) : Z :=
  match s with
  | EmptyString => 0
  | String c s => (if Ascii.eqb c "1" then 2 ^ Z.of_nat (String.length s) else 0) + bits_value s
  end.

Lemma bits_length n z : String.length (bits n z) = n.
Proof. revert z. induction n as [|n IH]; intros z; cbn; [done|]. by rewrite IH. Qed.

Lemma bits_roundtrip n z : 0 <= z < 2 ^ Z.of_nat n -> bits_value (bits n z) = z.
Proof.
  revert z. induction n as [|n IH]; intros z Hz; cbn [bits bits_value].
  - cbn in *. lia.
  - assert (Hpos : 0 < 2 ^ Z.of_nat n) by (apply Z.pow_pos_nonneg; lia).
    replace (Z.of_nat (S n)) with (Z.succ (Z.of_nat n)) in Hz by lia.
    rewrite Z.pow_succ_r in Hz by lia.
    rewrite IH by (apply Z.mod_pos_bound; lia). rewrite bits_length.
    destruct (Z.leb_spec (2 ^ Z.of_nat n) z) as [H|H]; cbn.
    + rewrite <- (Z.mod_unique z (2 ^ Z.of_nat n) 1 (z - 2 ^ Z.of_nat n)); lia.
    + rewrite Z.mod_small; lia.
Qed.

Lemma ltb_cons c a b : String.ltb (String c a) (String c b) = String.ltb a b.
Proof.
  unfold String.ltb. cbn. unfold Ascii.compare. by rewrite N.compare_refl.
Qed.

Lemma bits_order n x y : 0 <= x < 2 ^ Z.of_nat n -> 0 <= y < 2 ^ Z.of_nat n ->
  String.ltb (bits n x) (bits n y) = (x <? y).
Proof.
  revert x y. induction n as [|n IH]; intros x y Hx Hy; cbn [bits].
  - cbn in *. symmetry. apply Z.ltb_ge. lia.
  - assert (Hpos : 0 < 2 ^ Z.of_nat n) by (apply Z.pow_pos_nonneg; lia).
    replace (Z.of_nat (S n)) with (Z.succ (Z.of_nat n)) in Hx, Hy by lia.
    rewrite Z.pow_succ_r in Hx, Hy by lia.
    assert (Hmod : forall z, 0 <= z < 2 * 2 ^ Z.of_nat n -> 2 ^ Z.of_nat n <= z ->
      z mod 2 ^ Z.of_nat n = z - 2 ^ Z.of_nat n).
    { intros z Hz Hz'. symmetry. apply (Z.mod_unique _ _ 1); lia. }
    destruct (Z.leb_spec (2 ^ Z.of_nat n) x), (Z.leb_spec (2 ^ Z.of_nat n) y); cbn [bit].
    + rewrite ltb_cons, IH by (apply Z.mod_pos_bound; lia). rewrite !Hmod by lia.
      destruct (Z.ltb_spec x y), (Z.ltb_spec (x - 2 ^ Z.of_nat n) (y - 2 ^ Z.of_nat n)); lia.
    + cbn. symmetry. apply Z.ltb_ge. lia.
    + cbn. symmetry. apply Z.ltb_lt. lia.
    + rewrite ltb_cons, IH by (apply Z.mod_pos_bound; lia). by rewrite !Z.mod_small by lia.
Qed.

(** * Countable values *)

Fixpoint pos_text (p : positive) : string :=
  match p with
  | xH => ""
  | xO p => String "0" (pos_text p)
  | xI p => String "1" (pos_text p)
  end.

Fixpoint text_pos (s : string) : positive :=
  match s with
  | EmptyString => xH
  | String c s => if Ascii.eqb c "1" then xI (text_pos s) else xO (text_pos s)
  end.

Lemma pos_text_roundtrip p : text_pos (pos_text p) = p.
Proof. induction p as [p IH|p IH|]; cbn; [by rewrite IH..|done]. Qed.

Definition text_of `{Countable A} (a : A) : string := pos_text (encode a).
Definition of_text `{Countable A} (s : string) : result string A :=
  match decode (text_pos s) with Some a => Ok a | None => Err "text" end.

Lemma of_text_of `{Countable A} (a : A) : of_text (text_of a) = Ok a.
Proof. unfold of_text, text_of. by rewrite pos_text_roundtrip, decode_encode. Qed.

(** * Sorting *)

Section Sort.
Context {R : Type} (le : R -> R -> bool).
Context (total : forall a b, le a b = false -> le b a = true).
Context (trans : forall a b c, le a b = true -> le b c = true -> le a c = true).

Fixpoint insert_sorted_row (r : R) (l : list R) : list R :=
  match l with
  | [] => [r]
  | a :: l => if le r a then r :: a :: l else a :: insert_sorted_row r l
  end.

Definition sort_rows (l : list R) : list R := foldr insert_sorted_row [] l.

Lemma insert_sorted_perm r l : insert_sorted_row r l ≡ₚ r :: l.
Proof.
  induction l as [|a l IH]; cbn; [done|]. destruct (le r a); [done|]. rewrite IH.
  apply Permutation_swap.
Qed.

Lemma sort_rows_perm l : sort_rows l ≡ₚ l.
Proof. induction l as [|a l IH]; cbn; [done|]. by rewrite insert_sorted_perm, IH. Qed.

Lemma insert_sorted_sorted r l : StronglySorted (fun a b => le a b = true) l ->
  StronglySorted (fun a b => le a b = true) (insert_sorted_row r l).
Proof.
  induction 1 as [|a l Hl IH Ha]; cbn; [by repeat constructor|].
  destruct (le r a) eqn:E.
  - constructor; [by constructor|]. constructor; [done|].
    eapply Forall_impl; [exact Ha|]. intros b. by apply trans.
  - constructor; [done|]. rewrite insert_sorted_perm. constructor; [by apply total|done].
Qed.

Lemma sort_rows_sorted l : StronglySorted (fun a b => le a b = true) (sort_rows l).
Proof. induction l as [|a l IH]; cbn; [constructor|]. by apply insert_sorted_sorted. Qed.
End Sort.

Lemma ascii_compare_trans a b c :
  Ascii.compare a b <> Gt -> Ascii.compare b c <> Gt -> Ascii.compare a c <> Gt.
Proof. unfold Ascii.compare. rewrite !N.compare_le_iff. apply N.le_trans. Qed.

Lemma string_leb_compare a b : String.leb a b = true <-> String.compare a b <> Gt.
Proof. unfold String.leb. destruct (String.compare a b); split; done. Qed.

Lemma string_compare_trans a b c :
  String.compare a b <> Gt -> String.compare b c <> Gt -> String.compare a c <> Gt.
Proof.
  revert b c. induction a as [|x a IH]; intros [|y b] [|z c]; cbn; try done.
  destruct (Ascii.compare x y) eqn:E1; [|..|done]; destruct (Ascii.compare y z) eqn:E2; try done.
  - apply Ascii.compare_eq_iff in E1 as ->. rewrite E2. apply IH.
  - apply Ascii.compare_eq_iff in E1 as ->. by rewrite E2.
  - apply Ascii.compare_eq_iff in E2 as ->. by rewrite E1.
  - intros _ _. assert (Ascii.compare x z = Lt) as ->; [|done]. unfold Ascii.compare in *.
    rewrite N.compare_lt_iff in *. lia.
Qed.

Lemma string_leb_trans a b c :
  String.leb a b = true -> String.leb b c = true -> String.leb a c = true.
Proof. rewrite !string_leb_compare. apply string_compare_trans. Qed.

Lemma string_leb_total a b : String.leb a b = false -> String.leb b a = true.
Proof. unfold String.leb. rewrite (String.compare_antisym a b). by destruct (String.compare b a). Qed.

(** [ORDER BY] by insertion. *)
#[refine] Definition sample_order : OrderBy := {|
  order_by R desc key l :=
    sort_rows (fun a b => String.leb (if desc : bool then key b else key a)
                            (if desc then key a else key b)) l;
|}.
Proof.
  - intros R desc key l. apply sort_rows_perm.
  - intros R desc key l. apply sort_rows_sorted.
    + intros a b. destruct desc; apply string_leb_total.
    + intros a b c. destruct desc; [intros H1 H2; by eapply string_leb_trans|].
      intros H1 H2. by eapply string_leb_trans.
Defined.

(** * Columns *)

Section Columns.
Context `{Countable A} {B : Type} (f : B -> A) (g : A -> B) (E : forall b, g (f b) = b).
#[refine] Definition column_of : JsonColumn B := {|
  to_json b := text_of (f b);
  from_json s := match of_text s with Ok a => Ok (g a) | Err e => Err e end;
|}.
Proof. intros b. exists b. by rewrite of_text_of, E. Defined.
Lemma column_exact : @ExactColumn B column_of.
Proof. intros b. cbn. by rewrite of_text_of, E. Qed.
End Columns.

(** Times of the calendar start at zero. *)
Definition epoch : Z := 62167219200 * 10 ^ 9.

Definition time_text (t : Z) : string := bits 69 ((t + epoch) mod 2 ^ 69).
Definition time_of (s : string) : option Z :=
  if (String.length s =? 69)%nat then Some (bits_value s - epoch) else None.

Lemma calendar_bits t : calendar t -> 0 <= t + epoch < 2 ^ Z.of_nat 69.
Proof. unfold calendar, epoch. intros H. split; [lia|]. change (2 ^ Z.of_nat 69) with 590295810358705651712. lia. Qed.

Lemma time_text_inv t : calendar t -> time_of (time_text t) = Some t.
Proof.
  intros H%calendar_bits. unfold time_of, time_text. rewrite bits_length, Nat.eqb_refl.
  rewrite Z.mod_small by exact H. rewrite bits_roundtrip by exact H. f_equal. lia.
Qed.

Lemma time_text_order t u : calendar t -> calendar u ->
  String.ltb (time_text t) (time_text u) = (t <? u).
Proof.
  intros Ht%calendar_bits Hu%calendar_bits. unfold time_text.
  rewrite !Z.mod_small by (exact Ht || exact Hu). rewrite bits_order by (exact Ht || exact Hu).
  destruct (Z.ltb_spec t u), (Z.ltb_spec (t + epoch) (u + epoch)); lia.
Qed.

#[refine] Definition sample_stamps : Stamps := {|
  st_order := sample_order;
  uuid_text u := text_of u;
  uuid_parse s := of_text s;
  to_rfc3339 := time_text;
  parse_from_rfc3339 := time_of;
  rfc3339_roundtrip := time_text_inv;
  rfc3339_order := time_text_order;
|}.
Proof. intros u. apply of_text_of. Defined.
