(* ===== verification/ThreadModel.v ===== *)
(** Threads, the stored conversations, on the client's disk: model.rs, store.rs and
    pending_sync.rs of [crates/loom-common-thread] and the conversions of bridge.rs
    of [crates/loom-cli-acp].

    A directory is a map from file names to texts; each system call takes its
    outcome from a list, so that any of them may fail, and a write that fails may
    leave anything in its file. *)
From stdpp Require Import base gmap list strings.
From Stdlib Require Import ZArith Lia Ascii.
From S2P Require Import Prelude Text CoreTypes Effects.

(** * model.rs *)

(** What the sources use of [serde_json::Value]. *)
Class JsonNull := {
  jn_json :: SerdeJson;
  json_null : Json;
  is_null : Json -> bool;
  object_len : Json -> option nat;
  is_null_spec v : is_null v = true <-> v = json_null;
}.

(** [ThreadId] is its string. *)
Notation ThreadId := string (only parsing).

Inductive ThreadIdError := InvalidPrefix (s : string) | InvalidUuid (s : string).

(** [s.chars().take(n).collect()]. *)
Fixpoint take_chars (n : nat) (s : string) : string :=
  match n with
  | O => EmptyString
  | S n => let k := (utf8_head s).2 in str_take k s +:+ take_chars n (str_drop k s)
  end.

(** [ThreadId::parse]; [uuid_parse] is [uuid::Uuid::parse_str], with the text of
    its error. *)
Definition ThreadId_parse (uuid_parse : string -> result string Uuid)
    (s : string) : result ThreadIdError ThreadId :=
  if negb (starts_with s "T-") then Err (InvalidPrefix (take_chars 2 s))
  else
    match uuid_parse (str_drop 2 s) with
    | Ok _ => Ok s
    | Err e => Err (InvalidUuid e)
    end.

(** [ThreadId::new]; [uuid] is the text of a new UUID. *)
Definition ThreadId_new (uuid : string) : ThreadId := "T-" +:+ uuid.

Inductive MessageRole := MR_System | MR_User | MR_Assistant | MR_Tool.

Definition MessageRole_from (r : Role) : MessageRole :=
  match r with
  | System => MR_System
  | User => MR_User
  | Assistant => MR_Assistant
  | Tool => MR_Tool
  end.

Inductive ThreadVisibility := Organization | Private | Public.

#[export] Instance ThreadVisibility_eq_dec : EqDecision ThreadVisibility.
Proof. solve_decision. Defined.

Definition ThreadVisibility_as_str (v : ThreadVisibility) : string :=
  match v with
  | Organization => "organization"
  | Private => "private"
  | Public => "public"
  end.

(** Lower-casing outside ASCII never makes one of the four words: the only
    character that it maps into ASCII is the Kelvin sign, to a [k]. *)
Definition ThreadVisibility_from_str (s : string) : result string ThreadVisibility :=
  let l := to_ascii_lowercase s in
  if (l =? "organization")%string || (l =? "organisation")%string then Ok Organization
  else if (l =? "private")%string then Ok Private
  else if (l =? "public")%string then Ok Public
  else Err ("invalid visibility: " +:+ s).

Inductive AgentStateKind :=
| K_WaitingForUserInput | K_CallingLlm | K_ProcessingLlmResponse | K_ExecutingTools
| K_PostToolsHook | K_Error | K_ShuttingDown.

(** The column text of a kind, [AgentStateKindExt::as_str] of the repository. *)
Definition AgentStateKind_as_str (k : AgentStateKind) : string :=
  match k with
  | K_WaitingForUserInput => "waiting_for_user_input"
  | K_CallingLlm => "calling_llm"
  | K_ProcessingLlmResponse => "processing_llm_response"
  | K_ExecutingTools => "executing_tools"
  | K_PostToolsHook => "post_tools_hook"
  | K_Error => "error"
  | K_ShuttingDown => "shutting_down"
  end.

Section Model.
Context `{JN : JsonNull}.

Record ToolCallSnapshot := mkToolCallSnapshot {
  tcs_id : string;
  tcs_tool_name : string;
  tcs_arguments_json : Json;
}.

Record MessageSnapshot := mkMessageSnapshot {
  ms_role : MessageRole;
  ms_content : string;
  ms_tool_call_id : option string;
  ms_tool_name : option string;
  ms_tool_calls : option (list ToolCallSnapshot);
}.

Definition MessageSnapshot_from (msg : Message) : MessageSnapshot :=
  let calls := match tool_calls msg with
               | [] => None
               | _ => Some ((fun tc => mkToolCallSnapshot (id tc) (tc_tool_name tc)
                                        (arguments_json tc)) <$> tool_calls msg)
               end in
  mkMessageSnapshot (MessageRole_from (role msg)) (content msg) (tool_call_id msg)
    (name msg) calls.

Record ConversationSnapshot := mkConversationSnapshot { cs_messages : list MessageSnapshot }.

Record PendingToolCallSnapshot := mkPendingToolCallSnapshot {
  pts_call_id : string;
  pts_tool_name : string;
}.

Record AgentStateSnapshot := mkAgentStateSnapshot {
  ass_kind : AgentStateKind;
  ass_retries : Z;
  ass_last_error : option string;
  ass_pending_tool_calls : list PendingToolCallSnapshot;
}.

Definition AgentStateSnapshot_from (s : AgentState) : AgentStateSnapshot :=
  match s with
  | WaitingForUserInput _ => mkAgentStateSnapshot K_WaitingForUserInput 0 None []
  | CallingLlm _ retries => mkAgentStateSnapshot K_CallingLlm retries None []
  | ProcessingLlmResponse _ _ => mkAgentStateSnapshot K_ProcessingLlmResponse 0 None []
  | ExecutingTools _ executions =>
      mkAgentStateSnapshot K_ExecutingTools 0 None
        ((fun e => mkPendingToolCallSnapshot (exec_call_id e) (exec_tool_name e)) <$> executions)
  | PostToolsHook _ _ _ => mkAgentStateSnapshot K_PostToolsHook 0 None []
  | ErrorState _ error retries _ =>
      mkAgentStateSnapshot K_Error retries (Some (AgentError_to_string error)) []
  | ShuttingDown => mkAgentStateSnapshot K_ShuttingDown 0 None []
  end.

Record ThreadMetadata := mkThreadMetadata {
  md_title : option string;
  md_tags : list string;
  md_is_pinned : bool;
  md_extra : Json;
}.

Definition is_null_or_empty_object (v : Json) : bool :=
  is_null v || bool_decide (object_len v = Some 0).

Record Thread := mkThread {
  th_id : ThreadId;
  th_version : Z;
  th_created_at : string;
  th_updated_at : string;
  th_last_activity_at : string;
  th_workspace_root : option string;
  th_cwd : option string;
  th_loom_version : option string;
  th_git_branch : option string;
  th_git_remote_url : option string;
  th_git_initial_branch : option string;
  th_git_initial_commit_sha : option string;
  th_git_current_commit_sha : option string;
  th_git_start_dirty : option bool;
  th_git_end_dirty : option bool;
  th_git_commits : list string;
  th_provider : option string;
  th_model : option string;
  th_conversation : ConversationSnapshot;
  th_agent_state : AgentStateSnapshot;
  th_metadata : ThreadMetadata;
  th_visibility : ThreadVisibility;
  th_is_private : bool;
  th_is_shared_with_support : bool;
}.

(** [now] and [uuid] are what the clock and the generator return. *)
Definition Thread_new (now uuid : string) : Thread :=
  mkThread (ThreadId_new uuid) 1 now now now None None None None None None None None None None
    [] None None (mkConversationSnapshot [])
    (mkAgentStateSnapshot K_WaitingForUserInput 0 None [])
    (mkThreadMetadata None [] false json_null) Organization false false.

Definition set_times (version : Z) (updated last_activity : string) (t : Thread) : Thread :=
  mkThread (th_id t) version (th_created_at t) updated last_activity
    (th_workspace_root t) (th_cwd t) (th_loom_version t) (th_git_branch t)
    (th_git_remote_url t) (th_git_initial_branch t) (th_git_initial_commit_sha t)
    (th_git_current_commit_sha t) (th_git_start_dirty t) (th_git_end_dirty t)
    (th_git_commits t) (th_provider t) (th_model t) (th_conversation t) (th_agent_state t)
    (th_metadata t) (th_visibility t) (th_is_private t) (th_is_shared_with_support t).

Definition touch (overflow_checks : bool) (now : string) (t : Thread) : run Thread :=
  version ← add_u64 overflow_checks (th_version t) 1;
  Done (set_times version now now t).

Definition set_visibility (v : ThreadVisibility) (t : Thread) : Thread :=
  mkThread (th_id t) (th_version t) (th_created_at t) (th_updated_at t)
    (th_last_activity_at t) (th_workspace_root t) (th_cwd t) (th_loom_version t)
    (th_git_branch t) (th_git_remote_url t) (th_git_initial_branch t)
    (th_git_initial_commit_sha t) (th_git_current_commit_sha t) (th_git_start_dirty t)
    (th_git_end_dirty t) (th_git_commits t) (th_provider t) (th_model t) (th_conversation t)
    (th_agent_state t) (th_metadata t) v (th_is_private t) (th_is_shared_with_support t).

Record ThreadSummary := mkThreadSummary {
  sm_id : ThreadId;
  sm_version : Z;
  sm_created_at : string;
  sm_updated_at : string;
  sm_last_activity_at : string;
  sm_title : option string;
  sm_workspace_root : option string;
  sm_git_branch : option string;
  sm_git_remote_url : option string;
  sm_git_initial_commit_sha : option string;
  sm_git_current_commit_sha : option string;
  sm_provider : option string;
  sm_model : option string;
  sm_tags : list string;
  sm_message_count : Z;
  sm_is_pinned : bool;
  sm_visibility : ThreadVisibility;
}.

Definition ThreadSummary_from (t : Thread) : ThreadSummary :=
  mkThreadSummary (th_id t) (th_version t) (th_created_at t) (th_updated_at t)
    (th_last_activity_at t) (md_title (th_metadata t)) (th_workspace_root t)
    (th_git_branch t) (th_git_remote_url t) (th_git_initial_commit_sha t)
    (th_git_current_commit_sha t) (th_provider t) (th_model t) (md_tags (th_metadata t))
    (wrap_u32 (Z.of_nat (length (cs_messages (th_conversation t)))))
    (md_is_pinned (th_metadata t)) (th_visibility t).

(** ** bridge.rs: a session's messages from its thread *)

Definition loom_role_to_thread_role (r : Role) : MessageRole :=
  match r with
  | System => MR_System
  | User => MR_User
  | Assistant => MR_Assistant
  | Tool => MR_Tool
  end.
Definition thread_role_to_loom_role (r : MessageRole) : Role :=
  match r with
  | MR_System => System
  | MR_User => User
  | MR_Assistant => Assistant
  | MR_Tool => Tool
  end.

Definition tool_call_to_snapshot (c : ToolCall) : ToolCallSnapshot :=
  mkToolCallSnapshot (id c) (tc_tool_name c) (arguments_json c).
Definition snapshot_to_tool_call (s : ToolCallSnapshot) : ToolCall :=
  mkToolCall (tcs_id s) (tcs_tool_name s) (tcs_arguments_json s).

Definition snapshot_to_message (s : MessageSnapshot) : Message :=
  mkMessage (thread_role_to_loom_role (ms_role s)) (ms_content s) (ms_tool_call_id s)
    (ms_tool_name s)
    (match ms_tool_calls s with
     | Some tcs => snapshot_to_tool_call <$> tcs
     | None => []
     end).

Definition message_to_snapshot (m : Message) : MessageSnapshot :=
  mkMessageSnapshot (loom_role_to_thread_role (role m)) (content m) (tool_call_id m) (name m)
    (match tool_calls m with
     | [] => None
     | _ => Some (tool_call_to_snapshot <$> tool_calls m)
     end).

Definition thread_to_messages (t : Thread) : list Message :=
  snapshot_to_message <$> cs_messages (th_conversation t).

(** Both ways of storing a message keep all of it. *)
Lemma message_snapshot_roundtrip m :
  snapshot_to_message (MessageSnapshot_from m) = m /\
  snapshot_to_message (message_to_snapshot m) = m.
Proof.
  assert (forall l : list ToolCall, snapshot_to_tool_call <$> (tool_call_to_snapshot <$> l) = l)
    as Hl by (induction l as [|[] l IH]; [done|]; by rewrite !fmap_cons, IH).
  assert (MessageSnapshot_from m = message_to_snapshot m) as ->.
  { unfold MessageSnapshot_from, message_to_snapshot. by destruct (role m), (tool_calls m). }
  assert (snapshot_to_message (message_to_snapshot m) = m); [|done].
  destruct m as [r c i n tcs]. unfold snapshot_to_message, message_to_snapshot.
  cbn [role content tool_call_id name tool_calls ms_role ms_content ms_tool_call_id
       ms_tool_name ms_tool_calls].
  f_equal; [by destruct r|]. destruct tcs as [|tc tcs]; [done|]. exact (Hl (tc :: tcs)).
Qed.

(** * Texts *)

End Model.

(** The JSON texts of the stored documents: what [serde] and [serde_json] make of
    the derived implementations.  [json_exact] are the values that are read back
    as they were printed (floating-point numbers may not be). *)
Class ThreadJson := {
  tj_null :: JsonNull;
  text : Type;
  json_exact : Json -> Prop;
}.

Section Durable.
Context `{TJ : ThreadJson}.

Definition snapshot_exact (m : MessageSnapshot) : Prop :=
  match ms_tool_calls m with
  | Some tcs => Forall (fun tc => json_exact (tcs_arguments_json tc)) tcs
  | None => True
  end.

(** A thread survives its JSON text: its values do, and it has no empty object in
    [extra], which is not written and comes back as null. *)
Definition durable (t : Thread) : Prop :=
  Forall snapshot_exact (cs_messages (th_conversation t)) /\
  json_exact (md_extra (th_metadata t)) /\
  (is_null_or_empty_object (md_extra (th_metadata t)) = true ->
   md_extra (th_metadata t) = json_null).

Lemma durable_set_times v u l t : durable (set_times v u l t) <-> durable t.
Proof. done. Qed.
Lemma durable_set_visibility v t : durable (set_visibility v t) <-> durable t.
Proof. done. Qed.

End Durable.

(** ** pending_sync.rs: the queue *)

Inductive SyncOperation := Upsert | Delete.

#[export] Instance SyncOperation_eq_dec : EqDecision SyncOperation.
Proof. solve_decision. Defined.

Record PendingSyncEntry := mkPendingSyncEntry {
  pe_thread_id : ThreadId;
  pe_operation : SyncOperation;
  pe_failed_at : string;
  pe_retry_count : Z;
  pe_last_error : option string;
}.

Record PendingSyncQueue := mkPendingSyncQueue { entries : list PendingSyncEntry }.

Definition PendingSyncQueue_new : PendingSyncQueue := mkPendingSyncQueue [].

(** What an entry is about. *)
Definition entry_key (e : PendingSyncEntry) : ThreadId * SyncOperation :=
  (pe_thread_id e, pe_operation e).

(** [iter_mut().find(..)] and the changes to the entry found. *)
Fixpoint update_first (oc : bool) (k : ThreadId * SyncOperation) (now : string)
    (error : option string) (es : list PendingSyncEntry) : run (option (list PendingSyncEntry)) :=
  match es with
  | [] => Done None
  | e :: es =>
      if decide (entry_key e = k) then
        n ← add_u32 oc (pe_retry_count e) 1;
        Done (Some (mkPendingSyncEntry (pe_thread_id e) (pe_operation e) now n error :: es))
      else
        r ← update_first oc k now error es;
        Done (option_map (cons e) r)
  end.

Definition queue_add (oc : bool) (thread_id : ThreadId) (operation : SyncOperation)
    (now : string) (error : option string) (q : PendingSyncQueue) : run PendingSyncQueue :=
  r ← update_first oc (thread_id, operation) now error (entries q);
  Done (mkPendingSyncQueue
    (match r with
     | Some es => es
     | None => entries q ++ [mkPendingSyncEntry thread_id operation now 0 error]
     end)).

Definition queue_remove (thread_id : ThreadId) (operation : SyncOperation)
    (q : PendingSyncQueue) : PendingSyncQueue :=
  mkPendingSyncQueue (filter (fun e => entry_key e <> (thread_id, operation)) (entries q)).

Definition queue_is_empty (q : PendingSyncQueue) : bool := bool_decide (entries q = []).
Definition queue_len (q : PendingSyncQueue) : nat := length (entries q).

(** What is queued, in order. *)
Definition queued (q : PendingSyncQueue) : list (ThreadId * SyncOperation) :=
  entry_key <$> entries q.

Lemma update_first_Done oc k now error es r :
  update_first oc k now error es = Done r ->
  match r with
  | Some es' => entry_key <$> es' = entry_key <$> es /\ k ∈ entry_key <$> es
  | None => k ∉ entry_key <$> es
  end.
Proof.
  revert r. induction es as [|e es IH]; intros r; cbn [update_first].
  { intros [= <-]. apply not_elem_of_nil. }
  destruct (decide (entry_key e = k)) as [<-|Hne].
  - destruct (add_u32 oc (pe_retry_count e) 1) as [n|]; cbn; [|done]. intros [= <-].
    split; [done|]. by left.
  - destruct (update_first oc k now error es) as [[es'|]|]; cbn; [| |done]; intros [= <-].
    + destruct (IH _ eq_refl) as [Hk Hin]. cbn. split; [by f_equal|by right].
    + specialize (IH _ eq_refl). cbn. rewrite not_elem_of_cons. split; [|done].
      intros ->. done.
Qed.

(** Adding keeps what is queued and queues the operation; a panic (the counter of
    its entry at its maximum) happens only when it is queued already. *)
Lemma queue_add_spec oc id op now error q :
  match queue_add oc id op now error q with
  | Done q' => (id, op) ∈ queued q' /\ (forall k, k ∈ queued q' <-> k = (id, op) \/ k ∈ queued q)
               /\ (NoDup (queued q) -> NoDup (queued q'))
  | Panic => (id, op) ∈ queued q
  end.
Proof.
  unfold queue_add, queued.
  destruct (update_first oc (id, op) now error (entries q)) as [r|] eqn:Hu; cbn.
  - apply update_first_Done in Hu. destruct r as [es|].
    + destruct Hu as [-> Hin]. split_and!; [done| |done]. intros k. split; [by right|].
      by intros [->|].
    + cbn. rewrite fmap_app. cbn. split_and!.
      * apply elem_of_app. right. by left.
      * intros k. rewrite elem_of_app, list_elem_of_singleton. tauto.
      * intros Hd. apply NoDup_app. split_and!; [done| |apply NoDup_singleton].
        intros k Hk ->%list_elem_of_singleton. done.
  - revert Hu. induction (entries q) as [|e es IH]; cbn [update_first]; [done|].
    destruct (decide (entry_key e = (id, op))) as [<-|Hne]; [by left|].
    destruct (update_first oc (id, op) now error es) as [[]|]; cbn; [done|done|].
    intros _. right. by apply IH.
Qed.

Lemma queue_remove_spec id op q :
  (forall k, k ∈ queued (queue_remove id op q) <-> k <> (id, op) /\ k ∈ queued q) /\
  (NoDup (queued q) -> NoDup (queued (queue_remove id op q))).
Proof.
  unfold queue_remove, queued. cbn. split.
  - intros k. rewrite !list_elem_of_fmap. setoid_rewrite list_elem_of_filter.
    split.
    + intros (e & -> & Hne & Hin). eauto.
    + intros (Hne & e & -> & Hin). eauto.
  - induction (entries q) as [|e es IH]; [done|].
    intros [Hn Hd]%NoDup_cons. destruct (decide (entry_key e <> (id, op))) as [Hne|He].
    + rewrite filter_cons_True, fmap_cons by done. apply NoDup_cons. split; [|by apply IH].
      intros (e' & He' & [_ Hin]%list_elem_of_filter)%list_elem_of_fmap. apply Hn.
      apply list_elem_of_fmap. eauto.
    + rewrite filter_cons_False by done. by apply IH.
Qed.
