(* ===== verification/ThreadStore.v ===== *)
(** The client's files: [LocalThreadStore] (store.rs) and [PendingSyncStore]
    (pending_sync.rs) of [crates/loom-common-thread].

    File names are relative to the store's directory.  Thread ids are used as file
    names as they are; the ids of [ThreadId::new] have no separators. *)
From stdpp Require Import base gmap list strings sorting.
From Stdlib Require Import ZArith Lia Ascii.
From S2P Require Import Prelude Text CoreTypes Effects ThreadModel.

(** What [serde_json] makes of the derived implementations of [Thread] and of
    [PendingSyncQueue]: errors are their [Display] texts. *)
Class ThreadTexts := {
  tt_json :: ThreadJson;
  print_thread : Thread -> text;
  parse_thread : text -> result string Thread;
  print_queue : PendingSyncQueue -> text;
  parse_queue : text -> result string PendingSyncQueue;
  parse_print_thread t : durable t -> parse_thread (print_thread t) = Ok t;
  parse_print_id t t' : parse_thread (print_thread t) = Ok t' -> th_id t' = th_id t;
  parse_print_queue q : parse_queue (print_queue q) = Ok q;
}.

(** ** error.rs *)
Inductive ThreadSyncError :=
| SE_Network (is_timeout is_connect : bool) (s : string)
| SE_Server (status : Z) (message : string)
| SE_Conflict
| SE_InvalidUrl (s : string)
| SE_Timeout
| SE_UnexpectedStatus (status : Z).

Inductive ThreadStoreError :=
| ST_Io (e : string)
| ST_Serialization (e : string)
| ST_NotFound (id : string)
| ST_Sync (e : ThreadSyncError).

Section Store.
Context `{TT : ThreadTexts}.

(** * The disk *)

(** How a system call ends; a write that fails may leave a text in the file. *)
Inductive IoOutcome :=
| Io_Ok
| Io_Fails (e : string) (partial : option text).

Record Disk := mkDisk {
  present : bool;
  files : gmap string text;
  outcomes : nat -> IoOutcome;
  calls : nat;
}.

Definition DiskM : Type -> Type := StM Disk ThreadStoreError.

(** [Result::map_err] into [ThreadStoreError::Serialization]. *)
Definition serde {A} (r : result string A) : DiskM A :=
  match r with Ok a => ret a | Err e => raise (ST_Serialization e) end.

Definition set_files (b : bool) (fs : gmap string text) (d : Disk) : Disk :=
  mkDisk b fs (outcomes d) (calls d).

(** One system call: [f] is what it does when the operating system carries it out,
    [broken] what a failure leaves. *)
Definition syscall {A} (f : Disk -> result string A * Disk)
    (broken : option text -> Disk -> Disk) : DiskM A := fun d =>
  let d' := mkDisk (present d) (files d) (outcomes d) (S (calls d)) in
  match outcomes d (calls d) with
  | Io_Ok => match f d' with
             | (Ok a, d'') => (Ok a, d'')
             | (Err e, d'') => (Err (ST_Io e), d'')
             end
  | Io_Fails e p => (Err (ST_Io e), broken p d')
  end.

Definition no_entity : string := "No such file or directory (os error 2)".

Definition create_dir_all : DiskM unit :=
  syscall (fun d => (Ok tt, set_files true (files d) d)) (fun _ d => d).

Definition fs_write (name : string) (t : text) : DiskM unit :=
  syscall (fun d => if present d then (Ok tt, set_files true (<[name := t]> (files d)) d)
                    else (Err no_entity, d))
    (fun p d => match p with
                | Some t => if present d then set_files true (<[name := t]> (files d)) d else d
                | None => d
                end).

Definition fs_rename (from to : string) : DiskM unit :=
  syscall (fun d => match files d !! from with
                    | Some t => (Ok tt, set_files (present d) (<[to := t]> (delete from (files d))) d)
                    | None => (Err no_entity, d)
                    end) (fun _ d => d).

Definition read_to_string (name : string) : DiskM text :=
  syscall (fun d => match files d !! name with
                    | Some t => (Ok t, d)
                    | None => (Err no_entity, d)
                    end) (fun _ d => d).

Definition remove_file (name : string) : DiskM unit :=
  syscall (fun d => match files d !! name with
                    | Some _ => (Ok tt, set_files (present d) (delete name (files d)) d)
                    | None => (Err no_entity, d)
                    end) (fun _ d => d).

(** [Path::exists]. *)
Definition exists_file (name : string) (d : Disk) : bool :=
  match files d !! name with Some _ => true | None => false end.

(** * store.rs *)

Definition thread_path (id : ThreadId) : string := id +:+ ".json".
Definition thread_tmp_path (id : ThreadId) : string := id +:+ ".json.tmp".

Definition local_load (id : ThreadId) : DiskM (option Thread) := fun d =>
  if negb (exists_file (thread_path id) d) then (Ok None, d)
  else
    (let* contents := read_to_string (thread_path id) in
     let* t := serde (parse_thread contents) in
     ret (Some t)) d.

Definition local_save (t : Thread) : DiskM unit :=
  let* _ := create_dir_all in
  let* _ := fs_write (thread_tmp_path (th_id t)) (print_thread t) in
  fs_rename (thread_tmp_path (th_id t)) (thread_path (th_id t)).

Definition local_delete (id : ThreadId) : DiskM unit := fun d =>
  if negb (exists_file (thread_path id) d) then (Err (ST_NotFound id), d)
  else remove_file (thread_path id) d.

(** ** Listing *)

(** [slice::sort_by] is stable; [le a b] is that [a] does not come after [b]. *)
Fixpoint sort_insert {A} (le : A -> A -> bool) (x : A) (l : list A) : list A :=
  match l with
  | [] => [x]
  | y :: l => if le x y then x :: y :: l else y :: sort_insert le x l
  end.
Definition sort_by {A} (le : A -> A -> bool) (l : list A) : list A :=
  foldr (sort_insert le) [] l.

(** The most recent activity first; [String]s are compared by their bytes. *)
Definition by_activity (a b : ThreadSummary) : bool :=
  String.leb (sm_last_activity_at b) (sm_last_activity_at a).

(** [path.extension() == Some("json")]: the name ends in [.json] and something
    stands before it. *)
Definition has_json_extension (name : string) : bool :=
  ends_with name ".json" && negb (String.eqb name ".json").

(** The loop over the directory's entries; [next_entry] is a system call as well. *)
Fixpoint list_loop (limit : Z) (names : list string) (summaries : list ThreadSummary)
    : DiskM (list ThreadSummary) :=
  let* _ := syscall (fun d => (Ok tt, d)) (fun _ d => d) in
  match names with
  | [] => ret summaries
  | name :: names =>
      if (limit <=? Z.of_nat (length summaries))%Z then ret summaries
      else if negb (has_json_extension name) then list_loop limit names summaries
      else if ends_with name ".tmp" then list_loop limit names summaries
      else fun d =>
        match read_to_string name d with
        | (Ok contents, d) =>
            match parse_thread contents with
            | Ok t => list_loop limit names (summaries ++ [ThreadSummary_from t]) d
            | Err _ => list_loop limit names summaries d
            end
        | (Err _, d) => list_loop limit names summaries d
        end
  end.

(** [names] are the entries in the order in which the system returns them. *)
Definition local_list (names : list string) (limit : Z) : DiskM (list ThreadSummary) := fun d =>
  if negb (present d) then (Ok [], d)
  else
    (let* _ := syscall (fun d => (Ok tt, d)) (fun _ d => d) in
     let* summaries := list_loop limit names [] in
     ret (sort_by by_activity summaries)) d.

(** ** Searching; [to_lowercase] is [str::to_lowercase] *)

Definition contains_lower (to_lowercase : string -> string) (query : string)
    (o : option string) : bool :=
  match o with Some s => str_contains (to_lowercase s) query | None => false end.

Definition matches_query (to_lowercase : string -> string) (t : Thread) (query : string) : bool :=
  contains_lower to_lowercase query (md_title (th_metadata t))
  || contains_lower to_lowercase query (th_git_branch t)
  || contains_lower to_lowercase query (th_git_remote_url t)
  || existsb (fun sha => starts_with (to_lowercase sha) query) (th_git_commits t)
  || existsb (fun tag => str_contains (to_lowercase tag) query) (md_tags (th_metadata t))
  || existsb (fun m => str_contains (to_lowercase (ms_content m)) query)
       (cs_messages (th_conversation t)).

Fixpoint search_loop (to_lowercase : string -> string) (query : string)
    (all : list ThreadSummary) (matches : list ThreadSummary) : DiskM (list ThreadSummary) :=
  match all with
  | [] => ret matches
  | s :: all =>
      let* o := local_load (sm_id s) in
      match o with
      | Some t => if matches_query to_lowercase t query
                  then search_loop to_lowercase query all (matches ++ [ThreadSummary_from t])
                  else search_loop to_lowercase query all matches
      | None => search_loop to_lowercase query all matches
      end
  end.

Definition local_search (to_lowercase : string -> string) (names : list string)
    (query : string) (limit : nat) : DiskM (list ThreadSummary) :=
  let* all_threads := local_list names 1000 in
  let* matches := search_loop to_lowercase (to_lowercase query) all_threads [] in
  ret (take limit (sort_by by_activity matches)).

(** * pending_sync.rs *)

Definition pending_path : string := "pending.json".
Definition pending_tmp_path : string := "pending.json.tmp".

Definition pending_load : DiskM PendingSyncQueue := fun d =>
  if negb (exists_file pending_path d) then (Ok PendingSyncQueue_new, d)
  else
    (let* contents := read_to_string pending_path in
     serde (parse_queue contents)) d.

Definition pending_save (q : PendingSyncQueue) : DiskM unit :=
  let* _ := create_dir_all in
  let* _ := fs_write pending_tmp_path (print_queue q) in
  fs_rename pending_tmp_path pending_path.

(** [now] is the time of the entry; a panic leaves the disk as it was after
    loading. *)
Definition add_pending (oc : bool) (now : string) (thread_id : ThreadId)
    (operation : SyncOperation) (error : option string) (d : Disk)
    : run (result ThreadStoreError unit) * Disk :=
  let '(loaded, d) := pending_load d in
  let queue := match loaded with Ok q => q | Err _ => PendingSyncQueue_new end in
  match queue_add oc thread_id operation now error queue with
  | Done queue => let '(r, d) := pending_save queue d in (Done r, d)
  | Panic => (Panic, d)
  end.

Definition remove_pending (thread_id : ThreadId) (operation : SyncOperation) : DiskM unit :=
  let* queue := pending_load in
  let before := queue_len queue in
  let queue := queue_remove thread_id operation queue in
  if queue_len queue <? before then pending_save queue else ret tt.

Definition pending_clear : DiskM unit := fun d =>
  if exists_file pending_path d then remove_file pending_path d else (Ok tt, d).

(** * What the operations do to the files *)

(** No system call fails. *)
Definition healthy (d : Disk) : Prop := forall n, outcomes d n = Io_Ok.

(** A file with another name than those in [names] is as before. *)
Definition same_files (names : list string) (d d' : Disk) : Prop :=
  outcomes d' = outcomes d /\ forall n, n ∉ names -> files d' !! n = files d !! n.

Lemma same_files_refl l d : same_files l d d.
Proof. done. Qed.

Lemma same_files_trans l d1 d2 d3 :
  same_files l d1 d2 -> same_files l d2 d3 -> same_files l d1 d3.
Proof.
  intros [Ho1 H1] [Ho2 H2]. split; [congruence|]. intros n Hn. by rewrite H2, H1.
Qed.

Lemma same_files_healthy l d d' : same_files l d d' -> healthy d -> healthy d'.
Proof. intros [Ho _] H n. rewrite Ho. apply H. Qed.

Lemma same_files_mono l l' d d' : l ⊆ l' -> same_files l d d' -> same_files l' d d'.
Proof. intros Hl [Ho H]. split; [done|]. set_solver. Qed.

Lemma create_dir_all_spec d :
  same_files [] d (create_dir_all d).2 /\
  ((create_dir_all d).1 = Ok tt -> present (create_dir_all d).2 = true) /\
  (healthy d -> (create_dir_all d).1 = Ok tt).
Proof.
  unfold create_dir_all, syscall, healthy. destruct (outcomes d (calls d)) eqn:E; cbn.
  - done.
  - split_and!; [done|done|]. intros H. by rewrite H in E.
Qed.

Lemma fs_write_spec name t d :
  same_files [name] d (fs_write name t d).2 /\
  ((fs_write name t d).1 = Ok tt -> files (fs_write name t d).2 !! name = Some t) /\
  (healthy d -> present d = true -> (fs_write name t d).1 = Ok tt).
Proof.
  assert (forall t' m n, n ∉ [name] -> <[name := t']> m !! n = (m : gmap string text) !! n) as Hi.
  { intros t' m n Hn. apply lookup_insert_ne. set_solver. }
  unfold fs_write, syscall, healthy. destruct (outcomes d (calls d)) as [|e [p|]] eqn:E; cbn.
  - destruct (present d); cbn; [|done]. split_and!; [split; [done|apply Hi]| |done].
    intros _. apply lookup_insert_eq.
  - split_and!; [|done|intros H; by rewrite H in E].
    destruct (present d); cbn; [|done]. split; [done|apply Hi].
  - split_and!; [done|done|]. intros H. by rewrite H in E.
Qed.

Lemma fs_rename_spec from to d t : from <> to -> files d !! from = Some t ->
  match fs_rename from to d with
  | (Ok _, d') => same_files [from; to] d d' /\ files d' !! to = Some t /\ files d' !! from = None
  | (Err _, d') => same_files [] d d' /\ ~ healthy d
  end.
Proof.
  intros Hne Ht. unfold fs_rename, syscall, healthy.
  destruct (outcomes d (calls d)) as [|e p] eqn:E; cbn.
  - rewrite Ht. split_and!; [split; [done|]| |]; cbn.
    + intros n Hn. rewrite lookup_insert_ne, lookup_delete_ne; [done|set_solver..].
    + apply lookup_insert_eq.
    + rewrite lookup_insert_ne by done. apply lookup_delete_eq.
  - split; [done|]. intros H. by rewrite H in E.
Qed.

(** Writing a file through a temporary one: whatever fails, no other file is
    touched, and the file has its old text or, when the operation succeeds, the
    new one. *)
Definition replace_file (tmp name : string) (t : text) : DiskM unit :=
  let* _ := create_dir_all in
  let* _ := fs_write tmp t in
  fs_rename tmp name.

Lemma replace_file_spec tmp name t d : tmp <> name ->
  match replace_file tmp name t d with
  | (Ok _, d') => same_files [tmp; name] d d' /\ files d' !! name = Some t
  | (Err _, d') => same_files [tmp] d d' /\ ~ healthy d
  end.
Proof.
  intros Hne. unfold replace_file, bind.
  destruct (create_dir_all_spec d) as (Hs1 & Hp & Hh1).
  destruct (create_dir_all d) as [[[]|e1] d1]; cbn in *.
  2: { split; [by apply (same_files_mono []); [set_solver|]|]. intros H. by specialize (Hh1 H). }
  destruct (fs_write_spec tmp t d1) as (Hs2 & Hw & Hh2).
  destruct (fs_write tmp t d1) as [[[]|e2] d2]; cbn in *.
  2: { split; [eapply same_files_trans; [|done]; by apply (same_files_mono []); [set_solver|]|].
       intros H. specialize (Hh2 (same_files_healthy _ _ _ Hs1 H) (Hp eq_refl)). done. }
  pose proof (fs_rename_spec tmp name d2 t Hne (Hw eq_refl)) as H3.
  assert (same_files [tmp] d d2) as Hs12.
  { eapply same_files_trans; [|done]. by apply (same_files_mono []); [set_solver|]. }
  destruct (fs_rename tmp name d2) as [[[]|e3] d3].
  - destruct H3 as (Hs3 & Hn & _). split; [|done].
    eapply same_files_trans; [|done]. by apply (same_files_mono [tmp]); [set_solver|].
  - destruct H3 as [Hs3 Hnh]. split.
    + eapply same_files_trans; [done|]. by apply (same_files_mono []); [set_solver|].
    + intros H. apply Hnh. by apply (same_files_healthy _ _ _ Hs12).
Qed.

Lemma read_to_string_spec name d :
  same_files [] d (read_to_string name d).2 /\
  (forall t, (read_to_string name d).1 = Ok t -> files d !! name = Some t) /\
  (healthy d -> forall t, files d !! name = Some t -> (read_to_string name d).1 = Ok t).
Proof.
  unfold read_to_string, syscall, healthy. destruct (outcomes d (calls d)) eqn:E; cbn.
  - destruct (files d !! name); cbn; split_and!; try done; congruence.
  - split_and!; [done|done|]. intros H. by rewrite H in E.
Qed.

Lemma remove_file_spec name d :
  match remove_file name d with
  | (Ok _, d') => same_files [name] d d' /\ files d' !! name = None
  | (Err _, d') => same_files [] d d' /\ (healthy d -> files d !! name = None)
  end.
Proof.
  unfold remove_file, syscall, healthy. destruct (outcomes d (calls d)) eqn:E; cbn.
  - destruct (files d !! name); cbn; [|done]. split; [split; [done|]|apply lookup_delete_eq].
    intros n Hn. apply lookup_delete_ne. set_solver.
  - split; [done|]. intros H. by rewrite H in E.
Qed.

(** ** Names *)

Lemma string_app_inj_tail a b s t :
  String.length s = String.length t -> a +:+ s = b +:+ t -> a = b /\ s = t.
Proof.
  intros Hl. revert b. induction a as [|c a IH]; intros [|c' b]; cbn; intros Heq.
  - done.
  - rewrite append_nil in Heq. subst s. rewrite append_cons in Hl. cbn in Hl.
    rewrite string_length_append in Hl. lia.
  - rewrite append_nil in Heq. subst t. rewrite append_cons in Hl. cbn in Hl.
    rewrite string_length_append in Hl. lia.
  - rewrite !append_cons in Heq. injection Heq as -> Heq. by destruct (IH _ Heq) as [-> ->].
Qed.

Lemma thread_path_inj id id' : thread_path id = thread_path id' -> id = id'.
Proof. intros H. by apply (string_app_inj_tail _ _ _ _ eq_refl) in H as [? _]. Qed.

Lemma thread_path_not_tmp id id' : thread_path id <> thread_tmp_path id'.
Proof.
  unfold thread_path, thread_tmp_path. intros H.
  change ".json" with ("." +:+ "json") in H at 1. change ".json.tmp" with (".json" +:+ ".tmp") in H.
  rewrite <- !string_app_assoc in H.
  by destruct (string_app_inj_tail _ _ "json" ".tmp" eq_refl H) as [_ ?].
Qed.

(** ** store.rs *)

(** What is stored for an id. *)
Definition stored (d : Disk) (id : ThreadId) : option text := files d !! thread_path id.

(** A save that succeeds stores the thread; one that fails, or is interrupted
    between its system calls, leaves every stored thread as it was. *)
Theorem local_save_atomic t d :
  match local_save t d with
  | (Ok _, d') => stored d' (th_id t) = Some (print_thread t) /\
                  (forall id, id <> th_id t -> stored d' id = stored d id)
  | (Err _, d') => (forall id, stored d' id = stored d id) /\ ~ healthy d
  end /\ outcomes (local_save t d).2 = outcomes d.
Proof.
  pose proof (replace_file_spec (thread_tmp_path (th_id t)) (thread_path (th_id t))
    (print_thread t) d (not_eq_sym (thread_path_not_tmp _ _))) as H.
  fold (local_save t) in H. change (replace_file _ _ _) with (local_save t) in H.
  unfold stored. destruct (local_save t d) as [[[]|e] d'].
  - destruct H as [[Ho Hs] Hn]. split; [|done]. split; [done|].
    intros id Hid. apply Hs. rewrite !not_elem_of_cons. split_and!.
    + apply thread_path_not_tmp.
    + intros ?%thread_path_inj. done.
    + apply not_elem_of_nil.
  - destruct H as [[Ho Hs] Hn]. split; [|done]. split; [|done].
    intros id. apply Hs. rewrite list_elem_of_singleton. apply thread_path_not_tmp.
Qed.

Lemma local_load_spec id d :
  same_files [] d (local_load id d).2 /\
  (forall t, (local_load id d).1 = Ok (Some t) ->
     exists x, stored d id = Some x /\ parse_thread x = Ok t) /\
  (stored d id = None -> (local_load id d).1 = Ok None) /\
  (healthy d -> forall t, durable t -> stored d id = Some (print_thread t) ->
     (local_load id d).1 = Ok (Some t)).
Proof.
  unfold local_load, exists_file, stored, bind, serde.
  destruct (files d !! thread_path id) as [x|] eqn:Hx; cbn [negb].
  2: { split_and!; [done|done|done|]. by intros _ t _ [=]. }
  destruct (read_to_string_spec (thread_path id) d) as (Hs & Hr & Hh).
  destruct (read_to_string (thread_path id) d) as [[y|e] d1]; cbn in *.
  - specialize (Hr y eq_refl). rewrite Hx in Hr. injection Hr as <-.
    destruct (parse_thread x) as [t|e] eqn:Hp; cbn; split_and!; try done.
    + intros t' [= <-]. eauto.
    + intros _ t' Hd [= ->]. rewrite parse_print_thread in Hp by done. congruence.
    + intros _ t' Hd [= ->]. by rewrite parse_print_thread in Hp by done.
  - split_and!; [done|done|done|]. intros H t _ [= ->]. by specialize (Hh H _ Hx).
Qed.

Lemma local_delete_spec id d :
  match local_delete id d with
  | (Ok _, d') => is_Some (stored d id) /\ stored d' id = None /\
                  forall id', id' <> id -> stored d' id' = stored d id'
  | (Err _, d') => (forall id', stored d' id' = stored d id') /\
                   (healthy d -> stored d id = None)
  end /\ outcomes (local_delete id d).2 = outcomes d.
Proof.
  unfold local_delete, exists_file, stored.
  destruct (files d !! thread_path id) as [x|] eqn:Hx; cbn [negb]; [|done].
  pose proof (remove_file_spec (thread_path id) d) as H.
  destruct (remove_file (thread_path id) d) as [[[]|e] d'].
  - destruct H as [[Ho Hs] Hn]. split_and!; [done|done| |done].
    intros id' Hid. apply Hs. rewrite list_elem_of_singleton. by intros ?%thread_path_inj.
  - destruct H as [[Ho Hs] Hn]. split; [|done]. split.
    + intros id'. apply Hs, not_elem_of_nil.
    + intros Hh. specialize (Hn Hh). congruence.
Qed.

(** ** pending_sync.rs *)

(** The queue on the disk. *)
Definition holds (d : Disk) (q : PendingSyncQueue) : Prop :=
  match files d !! pending_path with
  | Some x => x = print_queue q
  | None => q = PendingSyncQueue_new
  end.

Lemma pending_load_spec d :
  same_files [] d (pending_load d).2 /\
  (forall q q', holds d q -> (pending_load d).1 = Ok q' -> q' = q) /\
  (healthy d -> forall q, holds d q -> (pending_load d).1 = Ok q).
Proof.
  unfold pending_load, exists_file, holds, bind, serde.
  destruct (files d !! pending_path) as [x|] eqn:Hx; cbn [negb].
  2: { split_and!; [done| |]; [by intros q q' -> [= <-]|by intros _ q ->]. }
  destruct (read_to_string_spec pending_path d) as (Hs & Hr & Hh).
  destruct (read_to_string pending_path d) as [[y|e] d1]; cbn in *.
  - specialize (Hr y eq_refl). rewrite Hx in Hr. injection Hr as <-.
    split_and!.
    + by destruct (parse_queue x).
    + intros q q' ->. rewrite parse_print_queue. by intros [= <-].
    + intros _ q ->. by rewrite parse_print_queue.
  - split_and!; [done|done|]. intros H q _. by specialize (Hh H _ Hx).
Qed.

Lemma pending_save_spec q d :
  outcomes (pending_save q d).2 = outcomes d /\
  match pending_save q d with
  | (Ok _, d') => holds d' q
  | (Err _, d') => (forall q', holds d' q' <-> holds d q') /\ ~ healthy d
  end.
Proof.
  pose proof (replace_file_spec pending_tmp_path pending_path (print_queue q) d ltac:(done)) as H.
  change (replace_file _ _ _) with (pending_save q) in H. unfold holds.
  destruct (pending_save q d) as [[[]|e] d'].
  - destruct H as [[Ho Hs] Hn]. split; [done|]. by rewrite Hn.
  - destruct H as [[Ho Hs] Hn]. split; [done|]. split; [|done]. intros q'.
    by rewrite (Hs pending_path) by by rewrite list_elem_of_singleton.
Qed.

(** On a working disk: what is queued after adding and removing. *)
Lemma add_pending_spec oc now id op error d q : healthy d -> holds d q ->
  exists q', holds (add_pending oc now id op error d).2 q' /\
    healthy (add_pending oc now id op error d).2 /\
    (forall k, k ∈ queued q' <-> k = (id, op) \/ k ∈ queued q) /\
    (NoDup (queued q) -> NoDup (queued q')).
Proof.
  intros Hd Hq. unfold add_pending.
  destruct (pending_load_spec d) as (Hs & _ & Hl).
  specialize (Hl Hd q Hq). destruct (pending_load d) as [r d1]; cbn in Hl, Hs. subst r.
  assert (healthy d1) as Hd1 by by eapply same_files_healthy.
  assert (holds d1 q) as Hq1.
  { unfold holds in *. destruct Hs as [_ Hs]. by rewrite Hs by apply not_elem_of_nil. }
  pose proof (queue_add_spec oc id op now error q) as Ha.
  destruct (queue_add oc id op now error q) as [q'|].
  - destruct Ha as (_ & Hk & Hn). exists q'.
    destruct (pending_save_spec q' d1) as [Ho Hsv].
    destruct (pending_save q' d1) as [[[]|e] d2]; cbn in *.
    + split_and!; [done| |done|done]. intros n. rewrite Ho. apply Hd1.
    + by destruct Hsv.
  - exists q. cbn. split_and!; [done|done| |done]. intros k. split; [by right|]. by intros [->|].
Qed.

Lemma remove_pending_spec id op d q : healthy d -> holds d q ->
  exists q', holds (remove_pending id op d).2 q' /\ healthy (remove_pending id op d).2 /\
    (forall k, k ∈ queued q' <-> k <> (id, op) /\ k ∈ queued q) /\
    (NoDup (queued q) -> NoDup (queued q')).
Proof.
  intros Hd Hq. unfold remove_pending, bind.
  destruct (pending_load_spec d) as (Hs & _ & Hl).
  specialize (Hl Hd q Hq). destruct (pending_load d) as [r d1]; cbn in Hl, Hs. subst r.
  assert (healthy d1) as Hd1 by by eapply same_files_healthy.
  assert (holds d1 q) as Hq1.
  { unfold holds in *. destruct Hs as [_ Hs]. by rewrite Hs by apply not_elem_of_nil. }
  destruct (queue_remove_spec id op q) as [Hk Hn].
  destruct (Nat.ltb_spec (queue_len (queue_remove id op q)) (queue_len q)) as [Hlt|Hge].
  - exists (queue_remove id op q).
    destruct (pending_save_spec (queue_remove id op q) d1) as [Ho Hsv].
    destruct (pending_save (queue_remove id op q) d1) as [[[]|e] d2]; cbn in *.
    + split_and!; [done| |done|done]. intros n. rewrite Ho. apply Hd1.
    + by destruct Hsv.
  - exists q. cbn. split_and!; [done|done| |done].
    unfold queue_len, queue_remove in Hge. cbn in Hge.
    intros k. split; [|by intros [_ ?]]. intros Hin. split; [|done]. intros ->.
    unfold queued in Hin. apply list_elem_of_fmap in Hin as (e & He & Hin).
    pose proof (length_filter_lt (fun e => entry_key e <> (id, op)) (entries q) e Hin) as Hc.
    specialize (Hc ltac:(cbn; intros Hx; by apply Hx)). lia.
Qed.

(** On any disk: what is queued afterwards was queued before or is added. *)
Lemma pending_load_holds d q : holds d q ->
  holds (pending_load d).2 q /\ forall q', (pending_load d).1 = Ok q' -> q' = q.
Proof.
  intros Hq. destruct (pending_load_spec d) as ([_ Hs] & Hl & _). split; [|eauto].
  unfold holds in *. by rewrite Hs by apply not_elem_of_nil.
Qed.

Lemma pending_save_holds q q0 d : holds d q0 ->
  holds (pending_save q d).2 q \/ holds (pending_save q d).2 q0.
Proof.
  intros Hq. destruct (pending_save_spec q d) as [_ H].
  destruct (pending_save q d) as [[[]|e] d']; [by left|right]. by apply H.
Qed.

Lemma add_pending_holds oc now id op error d q : holds d q ->
  exists q', holds (add_pending oc now id op error d).2 q' /\
    forall k, k ∈ queued q' -> k = (id, op) \/ k ∈ queued q.
Proof.
  intros Hq. unfold add_pending. destruct (pending_load_holds d q Hq) as [Hq1 Hl].
  destruct (pending_load d) as [r d1]. cbn [fst snd] in *.
  set (q0 := match r with Ok q => q | Err _ => PendingSyncQueue_new end).
  assert (forall k, k ∈ queued q0 -> k ∈ queued q) as Hsub.
  { subst q0. destruct r as [q'|]; [by rewrite (Hl _ eq_refl)|]. by intros k ?%not_elem_of_nil. }
  pose proof (queue_add_spec oc id op now error q0) as Ha.
  destruct (queue_add oc id op now error q0) as [q'|]; [|exists q; split; [done|by right]].
  destruct Ha as (_ & Hk & _). destruct (pending_save_holds q' q d1 Hq1) as [H|H];
    destruct (pending_save q' d1) as [? d2].
  - exists q'. split; [done|]. intros k [->|?]%Hk; [by left|right; by apply Hsub].
  - exists q. split; [done|by right].
Qed.

Lemma remove_pending_holds id op d q : holds d q ->
  exists q', holds (remove_pending id op d).2 q' /\ forall k, k ∈ queued q' -> k ∈ queued q.
Proof.
  intros Hq. unfold remove_pending, bind. destruct (pending_load_holds d q Hq) as [Hq1 Hl].
  destruct (pending_load d) as [[q'|e] d1]; cbn [fst snd] in *; [|by exists q].
  rewrite (Hl _ eq_refl) in *. destruct (_ <? _); [|by exists q].
  destruct (pending_save_holds (queue_remove id op q) q d1 Hq1) as [H|H]; [|by exists q].
  exists (queue_remove id op q). split; [done|]. intros k ?%queue_remove_spec. tauto.
Qed.

(** ** Sorting *)

Lemma sort_insert_perm {A} (le : A -> A -> bool) x l : sort_insert le x l ≡ₚ x :: l.
Proof.
  induction l as [|y l IH]; cbn; [done|]. destruct (le x y); [done|].
  rewrite IH. apply Permutation_swap.
Qed.

Lemma sort_by_perm {A} (le : A -> A -> bool) (l : list A) : sort_by le l ≡ₚ l.
Proof. induction l as [|x l IH]; cbn; [done|]. by rewrite sort_insert_perm, IH. Qed.

(** Sorting by the last activity puts no thread before a more recent one that
    follows it. *)
Lemma sort_by_sorted {A} (le : A -> A -> bool) (l : list A) :
  (forall x y, le x y = true \/ le y x = true) ->
  Sorted (fun x y => le x y = true) (sort_by le l).
Proof.
  intros Htot. induction l as [|x l IH]; cbn; [constructor|].
  assert (forall y l, HdRel (fun x y => le x y = true) y l -> le y x = true ->
    HdRel (fun x y => le x y = true) y (sort_insert le x l)) as Hhead.
  { intros y [|z l'] Hh Hyx; cbn; [by constructor|]. destruct (le x z); [by constructor|].
    constructor. by inversion Hh. }
  change (Sorted (fun x y => le x y = true) (sort_insert le x (sort_by le l))).
  induction IH as [|y l' Hs IHs Hhd]; cbn; [by repeat constructor|].
  destruct (le x y) eqn:E; constructor; [by constructor|by constructor|done|].
  apply Hhead; [done|]. destruct (Htot x y); congruence.
Qed.

Lemma by_activity_total a b : by_activity a b = true \/ by_activity b a = true.
Proof. apply String.leb_total. Qed.

End Store.
