(* ===== verification/ThreadServer.v ===== *)
(** The server's side of threads: [ThreadRepository] of
    [crates/loom-server-db/src/thread.rs] over the tables of
    [crates/loom-server/migrations], and the handlers of
    [crates/loom-server/src/routes/threads.rs] with the status of their errors
    (error.rs).

    A statement of the database may fail. The columns [org_id] and [team_id], which
    this code does not touch, are left out, and the full-text index is not a part of
    the state: what it answers to a search comes with the request and may be
    anything, as its rows drift from those of [threads]
    ([ThreadCases.search_index_drifts]). *)
From stdpp Require Import base gmap list strings pretty.
From Stdlib Require Import ZArith Lia Ascii SpecFloat.
From S2P Require Import Prelude Text CoreTypes Abac AuthContext LlmClients Effects ThreadModel ThreadStore.

(** The variants that the handlers of threads return; the database's own error
    arrives in [DbError]. *)
Inductive ServerError :=
| SV_DbError (e : DbError)
| SV_NotFound (id : string)
| SV_Conflict (expected actual : Z)
| SV_BadRequest (msg : string).

Record ErrorResponse := mkErrorResponse {
  er_error : string;
  er_message : string;
  er_server_version : option Z;
  er_client_version : option Z;
}.

(** [IntoResponse for ServerError]. *)
Definition ServerError_response (e : ServerError) : Z * ErrorResponse :=
  match e with
  | SV_DbError _ =>
      (500%Z, mkErrorResponse "database_error" "A database error occurred" None None)
  | SV_NotFound id =>
      (404%Z, mkErrorResponse "not_found" ("Thread not found: " +:+ id) None None)
  | SV_Conflict expected actual =>
      (409%Z, mkErrorResponse "conflict"
         ("Version conflict: expected " +:+ pretty expected +:+ ", got " +:+ pretty actual)
         (Some expected) (Some actual))
  | SV_BadRequest msg => (400%Z, mkErrorResponse "bad_request" msg None None)
  end.

(** The JSON texts of the columns and of the error body. *)
Class ServerTexts := {
  st_texts :: ThreadTexts;
  print_tags : list string -> text;
  parse_tags : text -> result string (list string);
  print_agent_state : AgentStateSnapshot -> text;
  print_conversation : ConversationSnapshot -> text;
  print_metadata : ThreadMetadata -> text;
  print_error : ErrorResponse -> string;
  parse_print_tags l : parse_tags (print_tags l) = Ok l;
}.

Section Server.
Context `{ST : ServerTexts}.

(** * The tables *)

(** A row of [threads]; integers as SQLite stores them. *)
Record ThreadRow := mkThreadRow {
  r_id : string;
  r_version : Z;
  r_created_at : string;
  r_updated_at : string;
  r_last_activity_at : string;
  r_workspace_root : option string;
  r_cwd : option string;
  r_loom_version : option string;
  r_provider : option string;
  r_model : option string;
  r_git_branch : option string;
  r_git_remote_url : option string;
  r_repo_id : option Z;
  r_git_initial_branch : option string;
  r_git_initial_commit_sha : option string;
  r_git_current_commit_sha : option string;
  r_git_start_dirty : option Z;
  r_git_end_dirty : option Z;
  r_title : option string;
  r_tags : text;
  r_is_pinned : Z;
  r_message_count : Z;
  r_agent_state_kind : string;
  r_agent_state : text;
  r_conversation : text;
  r_metadata : text;
  r_full_json : text;
  r_visibility : string;
  r_is_shared_with_support : Z;
  r_owner_user_id : option string;
  r_deleted_at : option string;
}.

Record RepoRow := mkRepoRow { repo_id : Z; repo_slug : string; repo_created_at : string }.

Record CommitRow := mkCommitRow {
  c_thread_id : string;
  c_repo_id : Z;
  c_commit_sha : string;
  c_branch : option string;
  c_is_dirty : Z;
  c_observed_at : string;
  c_is_initial : Z;
  c_is_final : Z;
}.

(** [db_faults] has for each statement still to come whether it fails; statements
    past its end do not. *)
Record Db := mkDb {
  threads : gmap string ThreadRow;
  repos : list RepoRow;
  commits : list CommitRow;
  db_faults : list bool;
}.

Definition DbM : Type -> Type := StM Db DbError.

Definition set_threads (f : gmap string ThreadRow -> gmap string ThreadRow) (d : Db) : Db :=
  mkDb (f (threads d)) (repos d) (commits d) (db_faults d).

(** One statement; [None] is a violated constraint. *)
Definition run_statement {A} (f : Db -> option (A * Db)) : DbM A := fun d =>
  match db_faults d with
  | true :: fs => (Err (DE_Sqlx "statement failed"), mkDb (threads d) (repos d) (commits d) fs)
  | fs =>
      let d := mkDb (threads d) (repos d) (commits d) (drop 1 fs) in
      match f d with
      | Some (a, d') => (Ok a, d')
      | None => (Err (DE_Sqlx "constraint failed"), d)
      end
  end.

(** [as i64], [as i32] and back. *)
Definition as_i64 (z : Z) : Z := ((z + 2 ^ 63) mod 2 ^ 64 - 2 ^ 63)%Z.
Definition int_of_bool (b : bool) : Z := if b then 1%Z else 0%Z.

Definition is_live (r : ThreadRow) : bool :=
  match r_deleted_at r with None => true | Some _ => false end.

Definition live_row (d : Db) (id : string) : option ThreadRow :=
  match threads d !! id with
  | Some r => if is_live r then Some r else None
  | None => None
  end.

(** * thread.rs *)

(** [INSERT OR IGNORE]; [AUTOINCREMENT] numbers the rows. *)
Definition get_or_create_repo_id (now slug : string) : DbM (option Z) :=
  let* _ := run_statement (fun d =>
    Some (tt, if existsb (fun r => String.eqb (repo_slug r) slug) (repos d) then d
              else mkDb (threads d)
                     (repos d ++ [mkRepoRow (Z.of_nat (S (length (repos d)))) slug now])
                     (commits d) (db_faults d))) in
  run_statement (fun d =>
    Some (repo_id <$> List.find (fun r => String.eqb (repo_slug r) slug) (repos d), d)).

Definition sha_is (sha : string) (o : option string) : bool := bool_decide (Some sha = o).

Fixpoint record_commits_loop (t : Thread) (rid : Z) (shas : list string) : DbM unit :=
  match shas with
  | [] => ret tt
  | sha :: shas =>
      let* _ := run_statement (fun d =>
        Some (tt,
          if existsb (fun c => String.eqb (c_thread_id c) (th_id t)
                               && String.eqb (c_commit_sha c) sha) (commits d) then d
          else mkDb (threads d) (repos d)
                 (commits d ++ [mkCommitRow (th_id t) rid sha (th_git_branch t)
                    (int_of_bool (default false (th_git_end_dirty t))) (th_updated_at t)
                    (int_of_bool (sha_is sha (th_git_initial_commit_sha t)))
                    (int_of_bool (sha_is sha (th_git_current_commit_sha t)))])
                 (db_faults d))) in
      record_commits_loop t rid shas
  end.

Definition record_thread_commits (t : Thread) (rid : Z) : DbM unit :=
  record_commits_loop t rid (th_git_commits t).

Definition repo_of (now : string) (t : Thread) : DbM (option Z) :=
  match th_git_remote_url t with
  | Some slug => get_or_create_repo_id now slug
  | None => ret None
  end.

(** The columns bound from the thread, the others being arguments. *)
Definition row_of (t : Thread) (rid : option Z) (created : string)
    (owner deleted : option string) : ThreadRow :=
  mkThreadRow (th_id t) (as_i64 (th_version t)) created (th_updated_at t)
    (th_last_activity_at t) (th_workspace_root t) (th_cwd t) (th_loom_version t)
    (th_provider t) (th_model t) (th_git_branch t) (th_git_remote_url t) rid
    (th_git_initial_branch t) (th_git_initial_commit_sha t) (th_git_current_commit_sha t)
    (int_of_bool <$> th_git_start_dirty t) (int_of_bool <$> th_git_end_dirty t)
    (md_title (th_metadata t)) (print_tags (md_tags (th_metadata t)))
    (int_of_bool (md_is_pinned (th_metadata t)))
    (wrap_i32 (Z.of_nat (length (cs_messages (th_conversation t)))))
    (AgentStateKind_as_str (ass_kind (th_agent_state t))) (print_agent_state (th_agent_state t))
    (print_conversation (th_conversation t)) (print_metadata (th_metadata t))
    (print_thread t) (ThreadVisibility_as_str (th_visibility t))
    (int_of_bool (th_is_shared_with_support t)) owner deleted.

(** [INSERT]: the primary key is also taken by a deleted row. *)
Definition insert_row (t : Thread) (rid : option Z) (m : gmap string ThreadRow)
    : option (gmap string ThreadRow) :=
  match m !! th_id t with
  | Some _ => None
  | None => Some (<[th_id t := row_of t rid (th_created_at t) None None]> m)
  end.

(** [UPDATE ... WHERE id = ?] sets every column but [created_at] and the ones that
    the statement does not name. *)
Definition update_row (t : Thread) (rid : option Z) (m : gmap string ThreadRow)
    : option (gmap string ThreadRow) :=
  Some (alter (fun r => row_of t rid (r_created_at r) (r_owner_user_id r) (r_deleted_at r))
          (th_id t) m).

(** What inserting and updating have in common, around the statement. *)
Definition write_thread (row : Thread -> option Z -> gmap string ThreadRow ->
    option (gmap string ThreadRow)) (now : string) (t : Thread) : DbM unit :=
  let* rid := repo_of now t in
  let* _ := run_statement (fun d =>
    match row t rid (threads d) with
    | Some m => Some (tt, set_threads (fun _ => m) d)
    | None => None
    end) in
  match rid with Some rid => record_thread_commits t rid | None => ret tt end.

Definition thread_insert : string -> Thread -> DbM unit := write_thread insert_row.
Definition thread_update : string -> Thread -> DbM unit := write_thread update_row.

Definition thread_get (id : string) : DbM (option Thread) :=
  let* row := run_statement (fun d => Some (live_row d id, d)) in
  match row with
  | Some row =>
      match parse_thread (r_full_json row) with
      | Ok t => ret (Some t)
      | Err e => raise (DE_Serialization e)
      end
  | None => ret None
  end.

Definition conflict_text (expected found : Z) : string :=
  "expected version " +:+ pretty expected +:+ ", found " +:+ pretty found.

Definition repo_upsert (now : string) (t : Thread) (expected_version : option Z) : DbM Thread :=
  let* existing := thread_get (th_id t) in
  let* _ :=
    match existing with
    | Some existing_thread =>
        match expected_version with
        | Some expected =>
            if negb (th_version existing_thread =? expected)%Z
            then raise (DE_Conflict (conflict_text expected (th_version existing_thread)))
            else thread_update now t
        | None => thread_update now t
        end
    | None => thread_insert now t
    end in
  let* o := thread_get (th_id t) in
  match o with
  | Some t => ret t
  | None => raise (DE_Internal "Thread not found after upsert")
  end.

Definition set_deleted (now : string) (r : ThreadRow) : ThreadRow :=
  mkThreadRow (r_id r) (r_version r) (r_created_at r) (r_updated_at r) (r_last_activity_at r)
    (r_workspace_root r) (r_cwd r) (r_loom_version r) (r_provider r) (r_model r)
    (r_git_branch r) (r_git_remote_url r) (r_repo_id r) (r_git_initial_branch r)
    (r_git_initial_commit_sha r) (r_git_current_commit_sha r) (r_git_start_dirty r)
    (r_git_end_dirty r) (r_title r) (r_tags r) (r_is_pinned r) (r_message_count r)
    (r_agent_state_kind r) (r_agent_state r) (r_conversation r) (r_metadata r)
    (r_full_json r) (r_visibility r) (r_is_shared_with_support r) (r_owner_user_id r) (Some now).

Definition set_owner (owner : string) (r : ThreadRow) : ThreadRow :=
  mkThreadRow (r_id r) (r_version r) (r_created_at r) (r_updated_at r) (r_last_activity_at r)
    (r_workspace_root r) (r_cwd r) (r_loom_version r) (r_provider r) (r_model r)
    (r_git_branch r) (r_git_remote_url r) (r_repo_id r) (r_git_initial_branch r)
    (r_git_initial_commit_sha r) (r_git_current_commit_sha r) (r_git_start_dirty r)
    (r_git_end_dirty r) (r_title r) (r_tags r) (r_is_pinned r) (r_message_count r)
    (r_agent_state_kind r) (r_agent_state r) (r_conversation r) (r_metadata r)
    (r_full_json r) (r_visibility r) (r_is_shared_with_support r) (Some owner) (r_deleted_at r).

Definition set_shared (shared : bool) (r : ThreadRow) : ThreadRow :=
  mkThreadRow (r_id r) (r_version r) (r_created_at r) (r_updated_at r) (r_last_activity_at r)
    (r_workspace_root r) (r_cwd r) (r_loom_version r) (r_provider r) (r_model r)
    (r_git_branch r) (r_git_remote_url r) (r_repo_id r) (r_git_initial_branch r)
    (r_git_initial_commit_sha r) (r_git_current_commit_sha r) (r_git_start_dirty r)
    (r_git_end_dirty r) (r_title r) (r_tags r) (r_is_pinned r) (r_message_count r)
    (r_agent_state_kind r) (r_agent_state r) (r_conversation r) (r_metadata r)
    (r_full_json r) (r_visibility r) (int_of_bool shared) (r_owner_user_id r) (r_deleted_at r).

(** [UPDATE threads SET .. WHERE id = ? AND deleted_at IS NULL] and whether a row
    was affected. *)
Definition update_live (id : string) (f : ThreadRow -> ThreadRow) : DbM bool :=
  run_statement (fun d =>
    match live_row d id with
    | Some _ => Some (true, set_threads (alter f id) d)
    | None => Some (false, d)
    end).

Definition repo_delete (now id : string) : DbM bool := update_live id (set_deleted now).

Definition get_thread_owner_user_id (id : string) : DbM (option string) :=
  run_statement (fun d => Some (live_row d id ≫= r_owner_user_id, d)).

Definition set_owner_user_id (id owner : string) : DbM bool := update_live id (set_owner owner).

Definition set_shared_with_support (id : string) (shared : bool) : DbM bool :=
  update_live id (set_shared shared).

(** ** Listing *)

End Server.

(** What the routes use of other packages: [ORDER BY last_activity_at DESC] (rows
    with the same time come in any order) and [ORDER BY score], the text of a UUID, the authentication of
    a token ([RequireAuth]), and the status with which axum rejects a body that does
    not parse. *)
Class Backend := {
  be_texts :: ServerTexts;
  order_by_activity : list ThreadRow -> list ThreadRow;
  order_by_activity_perm l : order_by_activity l ≡ₚ l;
  order_by_score : list (ThreadRow * spec_float) -> list (ThreadRow * spec_float);
  order_by_score_perm l : order_by_score l ≡ₚ l;
  uuid_to_string : Uuid -> string;
  authenticate : option string -> option CurrentUser;
  json_rejection : text -> Z;
}.

Section Routes.
Context `{BE : Backend}.

Definition row_summary (r : ThreadRow) : ThreadSummary :=
  mkThreadSummary (r_id r) (r_version r mod 2 ^ 64) (r_created_at r) (r_updated_at r)
    (r_last_activity_at r) (r_title r) (r_workspace_root r) (r_git_branch r)
    (r_git_remote_url r) (r_git_initial_commit_sha r) (r_git_current_commit_sha r)
    (r_provider r) (r_model r)
    (match parse_tags (r_tags r) with Ok l => l | Err _ => [] end)
    (wrap_u32 (r_message_count r)) (negb (r_is_pinned r =? 0)%Z)
    (match ThreadVisibility_from_str (r_visibility r) with Ok v => v | Err _ => Private end).

(** [LIMIT ? OFFSET ?] on [u32]s cast to [i32]: SQLite takes a negative limit for
    none and a negative offset for zero. *)
Definition limit_offset {A} (limit offset : Z) (l : list A) : list A :=
  let l := drop (Z.to_nat (wrap_i32 offset)) l in
  if (wrap_i32 limit <? 0)%Z then l else take (Z.to_nat (wrap_i32 limit)) l.

(** The rows of an owner ([None] for all), in a workspace or in all of them. *)
Definition row_matches (owner workspace : option string) (r : ThreadRow) : bool :=
  is_live r
  && match owner with Some o => bool_decide (r_owner_user_id r = Some o) | None => true end
  && match workspace with Some w => bool_decide (r_workspace_root r = Some w) | None => true end.

Definition matching (owner workspace : option string) (d : Db) : list ThreadRow :=
  List.filter (row_matches owner workspace) ((map_to_list (threads d)).*2).

Definition list_rows (owner workspace : option string) (limit offset : Z)
    : DbM (list ThreadSummary) :=
  run_statement (fun d =>
    Some (row_summary <$> limit_offset limit offset (order_by_activity (matching owner workspace d)), d)).

Definition repo_list (workspace : option string) := list_rows None workspace.
Definition list_for_owner (owner : string) (workspace : option string) :=
  list_rows (Some owner) workspace.

Definition count_rows (owner workspace : option string) : DbM Z :=
  run_statement (fun d => Some (Z.of_nat (length (matching owner workspace d)), d)).
Definition repo_count (workspace : option string) := count_rows None workspace.
Definition count_for_owner (owner : string) (workspace : option string) :=
  count_rows (Some owner) workspace.

(** ** Searching *)

Record ThreadSearchHit := mkThreadSearchHit { hit_summary : ThreadSummary; hit_score : spec_float }.

(** [char::is_ascii_hexdigit]. *)
Definition is_ascii_hexdigit (c : ascii) : bool :=
  is_ascii_digit c || ((97 <=? N_of_ascii (ascii_lower c)) && (N_of_ascii (ascii_lower c) <=? 102))%N.

Definition is_sha_like (query : string) : bool :=
  (7 <=? String.length query) && (String.length query <=? 40) && str_all is_ascii_hexdigit query.

(** [LIKE 'prefix%'] on a column, without regard to the case of ASCII letters; the
    prefix has no wildcard. *)
Definition like_prefix (prefix : string) (column : option string) : bool :=
  match column with
  | Some s => starts_with (to_ascii_lowercase s) (to_ascii_lowercase prefix)
  | None => false
  end.

Definition sha_matches (prefix : string) (r : ThreadRow) : bool :=
  like_prefix prefix (r_git_current_commit_sha r) || like_prefix prefix (r_git_initial_commit_sha r).

(** The score [1.0]. *)
Definition score_one : spec_float := binary_normalize 53 1024 1 0 false.

Definition search_by_commit_prefix_for_owner (owner prefix : string) (workspace : option string)
    (limit offset : Z) : DbM (list ThreadSearchHit) :=
  run_statement (fun d =>
    Some ((fun r => mkThreadSearchHit (row_summary r) score_one) <$>
            limit_offset limit offset
              (order_by_activity (List.filter (sha_matches prefix) (matching (Some owner) workspace d))),
          d)).

(** Quotation marks become blanks, and the query is put between quotation marks. *)
Fixpoint unquote (query : string) : string :=
  match query with
  | EmptyString => EmptyString
  | String c s => String (if bool_decide (c = "034"%char) then " "%char else c) (unquote s)
  end.
Definition fts_phrase (query : string) : string :=
  String "034" (unquote query +:+ String "034" EmptyString).

(** [thread_fts MATCH ?]: the score that the full-text index gives the row it has
    joined to a thread, if that row matches. *)
Definition FtsIndex : Type := string -> ThreadRow -> option spec_float.

Definition fts_matching (fts : FtsIndex) (phrase : string) (rows : list ThreadRow)
    : list (ThreadRow * spec_float) :=
  omap (fun r => (fun score => (r, score)) <$> fts phrase r) rows.

Definition search_fts_for_owner (fts : FtsIndex) (owner query : string) (workspace : option string)
    (limit offset : Z) : DbM (list ThreadSearchHit) :=
  run_statement (fun d =>
    Some ((fun h => mkThreadSearchHit (row_summary h.1) (SFopp h.2)) <$>
            limit_offset limit offset
              (order_by_score (fts_matching fts (fts_phrase query) (matching (Some owner) workspace d))),
          d)).

Definition search_for_owner (fts : FtsIndex) (owner query : string) (workspace : option string)
    (limit offset : Z) : DbM (list ThreadSearchHit) :=
  let query := str_trim query in
  if is_sha_like query
  then search_by_commit_prefix_for_owner owner query workspace limit offset
  else search_fts_for_owner fts owner query workspace limit offset.

(** * routes/threads.rs *)

Inductive AuditEventType := ThreadCreated | ThreadDeleted | ThreadVisibilityChanged.

(** What is logged about a thread: the type, the resource and the user. *)
Record AuditEntry := mkAuditEntry {
  au_type : AuditEventType;
  au_thread : string;
  au_user : string;
}.

Record AppState := mkAppState { db : Db; audit : list AuditEntry }.

Definition ServerM : Type -> Type := StM AppState ServerError.

(** A call of the repository; its error becomes [ServerError::DbError]. *)
Definition repo {A} (m : DbM A) : ServerM A := fun s =>
  match m (db s) with
  | (Ok a, d) => (Ok a, mkAppState d (audit s))
  | (Err e, d) => (Err (SV_DbError e), mkAppState d (audit s))
  end.

Definition audit_log (e : AuditEntry) : ServerM unit := fun s =>
  (Ok tt, mkAppState (db s) (audit s ++ [e])).

(** [user.id.to_string()]. *)
Definition user_id_of (cu : CurrentUser) : string := uuid_to_string (u_id (cu_user cu)).

Definition is_admin (cu : CurrentUser) : bool := u_is_system_admin (cu_user cu).

(** [thread.updated_at = now]. *)
Definition with_updated_at (now : string) (t : Thread) : Thread :=
  set_times (th_version t) now (th_last_activity_at t) t.

(** The readings of the clock during a request are numbered. *)
Definition upsert_thread (now : nat -> string) (cu : CurrentUser) (id : string)
    (if_match : option string) (thread : Thread) : ServerM Thread :=
  let user_id := user_id_of cu in
  if negb (String.eqb (th_id thread) id) then
    raise (SV_BadRequest ("Thread ID in body (" +:+ th_id thread +:+
      ") does not match path (" +:+ id +:+ ")"))
  else
    let* existing_owner := repo (get_thread_owner_user_id id) in
    if match existing_owner with
       | Some owner_id => negb (String.eqb owner_id user_id) && negb (is_admin cu)
       | None => false
       end
    then raise (SV_NotFound id)
    else
      let expected_version := s ← if_match; parse_u64 s in
      let thread := with_updated_at (now 0) thread in
      let* stored := repo (repo_upsert (now 1) thread expected_version) in
      let* _ := match existing_owner with
                | None => let* _ := repo (set_owner_user_id id user_id) in ret tt
                | Some _ => ret tt
                end in
      let* _ := audit_log (mkAuditEntry ThreadCreated id user_id) in
      ret stored.

(** The check at the start of the other handlers. *)
Definition check_owner (cu : CurrentUser) (id : string) : ServerM unit :=
  let* owner_id := repo (get_thread_owner_user_id id) in
  match owner_id with
  | Some owner => if String.eqb owner (user_id_of cu) || is_admin cu then ret tt
                  else raise (SV_NotFound id)
  | None => raise (SV_NotFound id)
  end.

Definition found {A} (id : string) (o : option A) : ServerM A :=
  match o with Some a => ret a | None => raise (SV_NotFound id) end.

Definition get_thread (cu : CurrentUser) (id : string) : ServerM Thread :=
  let* _ := check_owner cu id in
  let* o := repo (thread_get id) in
  found id o.

Record ListResponse := mkListResponse {
  lr_threads : list ThreadSummary;
  lr_total : Z;
  lr_limit : Z;
  lr_offset : Z;
}.

Definition list_threads (cu : CurrentUser) (workspace : option string) (limit offset : Z)
    : ServerM ListResponse :=
  let* threads := repo (list_for_owner (user_id_of cu) workspace limit offset) in
  let* total := repo (count_for_owner (user_id_of cu) workspace) in
  ret (mkListResponse threads total limit offset).

Record SearchResponse := mkSearchResponse {
  sr_hits : list ThreadSearchHit;
  sr_limit : Z;
  sr_offset : Z;
}.

Definition search_threads (fts : FtsIndex) (cu : CurrentUser) (q : string) (workspace : option string)
    (limit offset : Z) : ServerM SearchResponse :=
  let query := str_trim q in
  if bool_decide (query = EmptyString) then raise (SV_BadRequest "Empty search query")
  else
    let* hits := repo (search_for_owner fts (user_id_of cu) query workspace limit offset) in
    ret (mkSearchResponse hits limit offset).

Definition delete_thread (now : nat -> string) (cu : CurrentUser) (id : string) : ServerM unit :=
  let* _ := check_owner cu id in
  let* deleted := repo (repo_delete (now 0) id) in
  if deleted then audit_log (mkAuditEntry ThreadDeleted id (user_id_of cu))
  else raise (SV_NotFound id).

(** The handler may panic on the version; [oc] is whether overflow is checked. *)
Definition update_thread_visibility (oc : bool) (now : nat -> string) (cu : CurrentUser) (id : string)
    (if_match : option string) (v : ThreadVisibility) : StM AppState ServerError (run Thread) :=
  let* _ := check_owner cu id in
  let expected_version := s ← if_match; parse_u64 s in
  let* o := repo (thread_get id) in
  let* thread := found id o in
  if match expected_version with
     | Some expected => negb (th_version thread =? expected)%Z
     | None => false
     end
  then raise (SV_Conflict (th_version thread) (default 0%Z expected_version))
  else
    match add_u64 oc (th_version thread) 1 with
    | Panic => ret Panic
    | Done version =>
        let thread := set_times version (now 0) (th_last_activity_at thread)
                        (set_visibility v thread) in
        let* stored := repo (repo_upsert (now 1) thread None) in
        let* _ := audit_log (mkAuditEntry ThreadVisibilityChanged id (user_id_of cu)) in
        ret (Done stored)
    end.

(** ** Requests *)

(** The six routes; a search comes with what the index answers at that moment. *)
Inductive ThreadRequest :=
| R_Put (id : string) (if_match : option string) (body : text)
| R_Get (id : string)
| R_Delete (id : string)
| R_List (workspace : option string) (limit offset : Z)
| R_Search (fts : FtsIndex) (q : string) (workspace : option string) (limit offset : Z)
| R_Visibility (id : string) (if_match : option string) (v : ThreadVisibility).

Inductive Body :=
| B_Thread (t : text)
| B_List (r : ListResponse)
| B_Search (r : SearchResponse)
| B_Text (s : string).

Record ThreadResponse := mkThreadResponse { rs_status : Z; rs_body : Body }.

Definition respond {A} (ok : A -> ThreadResponse) (r : result ServerError A) : ThreadResponse :=
  match r with
  | Ok a => ok a
  | Err e => mkThreadResponse (ServerError_response e).1 (B_Text (print_error (ServerError_response e).2))
  end.

(** The rejection of [RequireAuth]. *)
Definition unauthenticated : ThreadResponse :=
  mkThreadResponse 401
    (B_Text (print_error (mkErrorResponse "unauthorized" "Authentication required" None None))).

(** A request is answered, or its handler panics and the connection is closed. *)
Definition serve_request (oc : bool) (now : nat -> string) (token : option string)
    (r : ThreadRequest) (s : AppState) : option ThreadResponse * AppState :=
  match authenticate token with
  | None => (Some unauthenticated, s)
  | Some cu =>
      match r with
      | R_Put id if_match body =>
          match parse_thread body with
          | Ok t =>
              let '(r, s) := upsert_thread now cu id if_match t s in
              (Some (respond (fun t => mkThreadResponse 200 (B_Thread (print_thread t))) r), s)
          | Err e => (Some (mkThreadResponse (json_rejection body) (B_Text e)), s)
          end
      | R_Get id =>
          let '(r, s) := get_thread cu id s in
          (Some (respond (fun t => mkThreadResponse 200 (B_Thread (print_thread t))) r), s)
      | R_Delete id =>
          let '(r, s) := delete_thread now cu id s in
          (Some (respond (fun _ => mkThreadResponse 204 (B_Text "")) r), s)
      | R_List workspace limit offset =>
          let '(r, s) := list_threads cu workspace limit offset s in
          (Some (respond (fun l => mkThreadResponse 200 (B_List l)) r), s)
      | R_Search fts q workspace limit offset =>
          let '(r, s) := search_threads fts cu q workspace limit offset s in
          (Some (respond (fun l => mkThreadResponse 200 (B_Search l)) r), s)
      | R_Visibility id if_match v =>
          match update_thread_visibility oc now cu id if_match v s with
          | (Ok Panic, s) => (None, s)
          | (Ok (Done t), s) => (Some (mkThreadResponse 200 (B_Thread (print_thread t))), s)
          | (Err e, s) => (Some (respond (fun _ : unit => mkThreadResponse 200 (B_Text "")) (Err e)), s)
          end
      end
  end.

(** * What the repository does *)

Definition set_faults (fs : list bool) (d : Db) : Db :=
  mkDb (threads d) (repos d) (commits d) fs.

Definition db_healthy (d : Db) : Prop := db_faults d = [].

Lemma wp_statement {A} (f : Db -> option (A * Db)) (Q : result DbError A -> Db -> Prop) d :
  (forall fs e, (db_healthy d -> fs = [] /\ f (set_faults [] d) = None) ->
     Q (Err e) (set_faults fs d)) ->
  (forall fs a d', (db_healthy d -> fs = []) -> f (set_faults fs d) = Some (a, d') -> Q (Ok a) d') ->
  wp (run_statement f) Q d.
Proof.
  intros He Ho. unfold wp, run_statement, db_healthy in *.
  destruct (db_faults d) as [|[] fs] eqn:E.
  - change (drop 1 []) with (@nil bool). fold (set_faults [] d).
    destruct (f (set_faults [] d)) as [[a d']|] eqn:Ef; [by apply (Ho [])|by apply He].
  - by apply He.
  - rewrite skipn_cons. change (drop 0 fs) with fs. fold (set_faults fs d).
    destruct (f (set_faults fs d)) as [[a d']|] eqn:Ef; [by apply (Ho fs)|by apply He].
Qed.

(** The threads are untouched, and nothing fails in a healthy database. *)
Definition quiet {A} (d : Db) (r : result DbError A) (d' : Db) : Prop :=
  threads d' = threads d /\ (db_healthy d -> db_healthy d' /\ exists a, r = Ok a).

Lemma wp_get_or_create_repo_id now slug d : wp (get_or_create_repo_id now slug) (quiet d) d.
Proof.
  apply stm_bind, wp_statement.
  - intros fs e H. split; [done|]. intros Hh. by destruct (H Hh).
  - intros fs a d1 H [= <- <-]. apply wp_statement.
    + intros fs' e H'. split; [by destruct (existsb _ _)|]. intros Hh.
      destruct H' as [_ [=]]. rewrite (H Hh). by destruct (existsb _ _).
    + intros fs' o d2 H' [= <- <-]. split; [by destruct (existsb _ _)|]. intros Hh.
      rewrite (H Hh) in *. split; [apply H'; by destruct (existsb _ _)|by eexists].
Qed.

Lemma wp_repo_of now t d : wp (repo_of now t) (quiet d) d.
Proof.
  unfold repo_of. destruct (th_git_remote_url t); [apply wp_get_or_create_repo_id|].
  split; [done|]. intros Hh. split; [done|by eexists].
Qed.

Lemma quiet_trans {A B} d d1 d2 (a : A) (r : result DbError B) :
  quiet d (Ok a) d1 -> quiet d1 r d2 -> quiet d r d2.
Proof. intros [H1 H1'] [H2 H2']. split; [congruence|]. intros Hh. apply H2', H1', Hh. Qed.

Lemma wp_record_commits t rid d : wp (record_thread_commits t rid) (quiet d) d.
Proof.
  unfold record_thread_commits. generalize (th_git_commits t). intros shas. revert d.
  induction shas as [|sha shas IH]; intros d; cbn [record_commits_loop].
  { split; [done|]. intros Hh. split; [done|by eexists]. }
  apply stm_bind, wp_statement.
  - intros fs e H. split; [done|]. intros Hh. by destruct (H Hh).
  - intros fs a d1 H [= <- <-]. eapply stm_mono; [apply IH|]. intros r d2.
    apply (quiet_trans _ _ _ tt). split; [by destruct (existsb _ _)|]. intros Hh.
    rewrite (H Hh). split; [by destruct (existsb _ _)|by eexists].
Qed.

(** The commits of a thread in a repository, if it has one. *)
Lemma wp_record_opt t rid d :
  wp (match rid with Some rid => record_thread_commits t rid | None => ret tt end) (quiet d) d.
Proof.
  destruct rid; [apply wp_record_commits|]. split; [done|]. intros Hh. split; [done|by eexists].
Qed.

(** What is read for an id: nothing, or the document of its live row. *)
Definition read_doc (d : Db) (id : string) : option (result string Thread) :=
  (fun row => parse_thread (r_full_json row)) <$> live_row d id.

Lemma wp_thread_get id d : wp (thread_get id) (fun r d' =>
  threads d' = threads d /\
  (forall o, r = Ok o -> match o with
                         | Some t => read_doc d id = Some (Ok t)
                         | None => live_row d id = None
                         end) /\
  (db_healthy d -> db_healthy d' /\
     ((forall e, read_doc d id <> Some (Err e)) -> exists o, r = Ok o))) d.
Proof.
  apply stm_bind, wp_statement.
  - intros fs e H. split_and!; [done|done|]. intros Hh. by destruct (H Hh).
  - intros fs a d1 H [= <- <-]. unfold read_doc.
    change (live_row (set_faults fs d) id) with (live_row d id).
    destruct (live_row d id) as [row|]; cbn.
    + destruct (parse_thread (r_full_json row)) as [t|e]; unfold wp; cbn.
      * split_and!; [done|by intros o [= <-]|]. intros Hh. split; [by apply H|by eexists].
      * split_and!; [done|done|]. intros Hh. split; [by apply H|]. intros He. by destruct (He e).
    + unfold wp; cbn. split_and!; [done|by intros o [= <-]|]. intros Hh.
      split; [by apply H|by eexists].
Qed.

(** Only the row of [id] may differ. *)
Definition frame (id : string) (d d' : Db) : Prop :=
  forall id', id' <> id -> threads d' !! id' = threads d !! id'.

Definition owner_of (d : Db) (id : string) : option string := live_row d id ≫= r_owner_user_id.

(** The row that an upsert of [t] writes. *)
Definition written (d : Db) (t : Thread) (o : option ThreadRow) : Prop :=
  exists rid created, o = Some (row_of t rid created (owner_of d (th_id t)) None).

(** The effect of writing [t]: another row is never touched, the row of [t] is as
    before or as written, and it is written on success.  A healthy database does
    the writing when [pre] holds. *)
Definition wrote (pre : Prop) (d : Db) (t : Thread) (r : result DbError unit) (d' : Db) : Prop :=
  frame (th_id t) d d' /\
  (threads d' !! th_id t = threads d !! th_id t \/ written d t (threads d' !! th_id t)) /\
  (r = Ok tt -> written d t (threads d' !! th_id t)) /\
  (db_healthy d -> db_healthy d' /\ (pre -> r = Ok tt)).

Lemma wrote_nothing (pre : Prop) d t e d' : threads d' = threads d ->
  (db_healthy d -> db_healthy d' /\ ~ pre) -> wrote pre d t (Err e) d'.
Proof.
  intros Ht Hh. split_and!; [intros ??; by rewrite Ht|left; by rewrite Ht|done|].
  intros H. by destruct (Hh H).
Qed.

Lemma wp_write_thread row now t d (pre : Prop) :
  (forall rid m, row t rid (threads d) = Some m ->
     written d t (m !! th_id t) /\ forall id, id <> th_id t -> m !! id = threads d !! id) ->
  (pre -> forall rid, row t rid (threads d) <> None) ->
  wp (write_thread row now t) (wrote pre d t) d.
Proof.
  intros Hnew Hpre. apply stm_bind. eapply stm_mono; [apply wp_repo_of|]. intros r d1 [Ht1 Hh1].
  destruct r as [rid|e].
  2: { apply wrote_nothing; [done|]. intros Hh. by destruct (Hh1 Hh) as [_ [? [=]]]. }
  apply stm_bind, wp_statement.
  - intros fs e H. apply wrote_nothing; [done|]. intros Hh.
    destruct (H (proj1 (Hh1 Hh))) as [-> Hn]. split; [done|]. intros Hp. cbn in Hn.
    rewrite Ht1 in Hn. specialize (Hpre Hp rid). by destruct (row t rid (threads d)).
  - intros fs a d2 H. cbn. rewrite Ht1. destruct (row t rid (threads d)) as [m|] eqn:Em; [|done].
    intros [= <- <-]. destruct (Hnew _ _ Em) as [Hw Hfr].
    eapply stm_mono; [apply wp_record_opt|]. intros r d3 [Ht3 Hh3]. cbn in Ht3.
    split_and!; rewrite ?Ht3.
    + intros id Hid. rewrite Ht3. by apply Hfr.
    + by right.
    + done.
    + intros Hh. destruct (Hh3 (H (proj1 (Hh1 Hh)))) as [? [[] ->]]. done.
Qed.

(** An insertion needs that the id is new, also among the deleted threads. *)
Lemma wp_thread_insert now t d : live_row d (th_id t) = None ->
  wp (thread_insert now t) (wrote (threads d !! th_id t = None) d t) d.
Proof.
  intros Hl. apply wp_write_thread; unfold insert_row.
  - intros rid m. destruct (threads d !! th_id t) eqn:E; [done|]. intros [= <-]. split.
    + rewrite lookup_insert_eq. exists rid, (th_created_at t). unfold owner_of. by rewrite Hl.
    + intros id Hid. by rewrite lookup_insert_ne.
  - intros Hn rid. by rewrite Hn.
Qed.

Lemma live_row_Some d id row :
  live_row d id = Some row <-> threads d !! id = Some row /\ r_deleted_at row = None.
Proof.
  unfold live_row, is_live. destruct (threads d !! id) as [r|]; [|naive_solver].
  destruct (r_deleted_at r) eqn:E; naive_solver.
Qed.

Lemma wp_thread_update now t d row : live_row d (th_id t) = Some row ->
  wp (thread_update now t) (wrote True d t) d.
Proof.
  intros Hl. pose proof Hl as [Hr Hd]%live_row_Some. apply wp_write_thread; unfold update_row.
  - intros rid m [= <-]. split.
    + rewrite lookup_alter_eq, Hr. cbn. exists rid, (r_created_at row).
      unfold owner_of. rewrite Hl. cbn. by rewrite Hd.
    + intros id Hid. by rewrite lookup_alter_ne.
  - done.
Qed.

(** What an upsert of [t] needs in a healthy database: its version is not compared,
    the thread has not been deleted, and the documents parse. *)
Definition upsertable (expected : option Z) (d : Db) (t : Thread) : Prop :=
  expected = None /\ (forall e, read_doc d (th_id t) <> Some (Err e)) /\
  (live_row d (th_id t) = None -> threads d !! th_id t = None) /\
  exists t', parse_thread (print_thread t) = Ok t'.

(** An upsert answers with the document as it is read back. *)
Definition upserted (expected : option Z) (d : Db) (t : Thread) (r : result DbError Thread)
    (d' : Db) : Prop :=
  frame (th_id t) d d' /\
  (threads d' !! th_id t = threads d !! th_id t \/ written d t (threads d' !! th_id t)) /\
  (forall t', r = Ok t' -> written d t (threads d' !! th_id t) /\
     parse_thread (print_thread t) = Ok t') /\
  (db_healthy d -> db_healthy d' /\ (upsertable expected d t -> exists t', r = Ok t')).

(** The second reading, after the writing. *)
Lemma wp_read_back expected (pre : Prop) t d d2 r : wrote pre d t r d2 ->
  (upsertable expected d t -> pre) ->
  match r with
  | Ok _ => wp (let* o := thread_get (th_id t) in
                match o with
                | Some t => ret t
                | None => raise (DE_Internal "Thread not found after upsert")
                end) (upserted expected d t) d2
  | Err e => upserted expected d t (Err e) d2
  end.
Proof.
  intros (Hf & Hw & Hok & Hh) Hpre. destruct r as [[]|e].
  2: { split_and!; [done|done|done|]. intros H. destruct (Hh H) as [? Hp].
       split; [done|]. intros Hu. by specialize (Hp (Hpre Hu)). }
  destruct (Hok eq_refl) as (rid & created & Hrow).
  assert (live_row d2 (th_id t) = Some (row_of t rid created (owner_of d (th_id t)) None)) as Hl2
    by by apply live_row_Some.
  apply stm_bind. eapply stm_mono; [apply wp_thread_get|]. intros r d3 (Ht3 & Hr3 & Hh3).
  assert (frame (th_id t) d d3) as Hf3 by (intros ??; rewrite Ht3; by apply Hf).
  assert (written d t (threads d3 !! th_id t)) as Hw3 by (rewrite Ht3; by apply Hok).
  unfold read_doc in Hr3, Hh3. rewrite Hl2 in Hr3, Hh3. cbn in Hr3, Hh3.
  destruct r as [[t'|]|e]; unfold wp; cbn.
  - specialize (Hr3 _ eq_refl). injection Hr3 as Hp.
    split_and!; [done|by right|by intros t'' [= <-]|].
    intros H. destruct (Hh3 (proj1 (Hh H))). split; [done|by eexists].
  - by specialize (Hr3 _ eq_refl).
  - split_and!; [done|by right|done|]. intros H. destruct (Hh3 (proj1 (Hh H))) as [? Hp3].
    split; [done|]. intros (_ & _ & _ & t' & Hp). destruct Hp3 as [? [=]]. congruence.
Qed.

Lemma wp_repo_upsert now t expected d :
  wp (repo_upsert now t expected) (upserted expected d t) d.
Proof.
  apply stm_bind. eapply stm_mono; [apply wp_thread_get|]. intros r d1 (Ht1 & Hr1 & Hh1).
  assert (live_row d1 (th_id t) = live_row d (th_id t)) as Hl1 by (unfold live_row; by rewrite Ht1).
  assert (forall pre r d2, (db_healthy d -> db_healthy d1) ->
    wrote pre d1 t r d2 -> wrote pre d t r d2) as Hback.
  { intros pre r2 d2 Hd1. unfold wrote, written, frame, owner_of. rewrite Hl1, Ht1. tauto. }
  destruct r as [existing|e].
  2: { split_and!; [intros ??; by rewrite Ht1|left; by rewrite Ht1|done|].
       intros Hh. destruct (Hh1 Hh) as [? Hp]. split; [done|]. intros (_ & Hd & _).
       by destruct (Hp Hd) as [? [=]]. }
  assert (db_healthy d -> db_healthy d1) as Hd1 by (intros H; by apply Hh1).
  specialize (Hr1 _ eq_refl). apply stm_bind. destruct existing as [t0|].
  - assert (wp (thread_update now t) (wrote True d t) d1) as Hu.
    { unfold read_doc in Hr1. destruct (live_row d (th_id t)) as [row|] eqn:Hl; [|done].
      eapply stm_mono; [by apply (wp_thread_update now t d1 row)|]. eauto. }
    destruct expected as [v|].
    + destruct (th_version t0 =? v)%Z; cbn [negb].
      * eapply stm_mono; [exact Hu|]. intros r d2 H. by apply (wp_read_back _ True).
      * unfold wp; cbn. split_and!; [intros ??; by rewrite Ht1|left; by rewrite Ht1|done|].
        intros Hh. split; [by apply Hd1|]. by intros [[=] _].
    + eapply stm_mono; [exact Hu|]. intros r d2 H. by apply (wp_read_back _ True).
  - eapply stm_mono; [apply (wp_thread_insert now t d1); by rewrite Hl1|].
    intros r d2 H. apply Hback in H; [|done]. apply (wp_read_back expected _ _ _ _ _ H).
    rewrite Ht1. intros (_ & _ & Hn & _). by apply Hn.
Qed.

Lemma wp_update_live id f d : wp (update_live id f) (fun r d' =>
  (r = Ok true /\ is_Some (live_row d id) /\ threads d' = alter f id (threads d) \/
   r <> Ok true /\ threads d' = threads d) /\
  (r = Ok false -> live_row d id = None) /\
  (db_healthy d -> db_healthy d' /\ r = Ok (bool_decide (is_Some (live_row d id))))) d.
Proof.
  apply wp_statement.
  - intros fs e H. split_and!; [by right|done|]. intros Hh. destruct (H Hh) as [_ Hn]. cbn in Hn.
    change (live_row (set_faults [] d) id) with (live_row d id) in Hn.
    by destruct (live_row d id).
  - intros fs a d' H. change (live_row (set_faults fs d) id) with (live_row d id).
    destruct (live_row d id) as [row|]; intros [= <- <-].
    + split_and!; [by left|done|]. intros Hh. split; [by apply H|by rewrite bool_decide_true].
    + split_and!; [by right|done|]. intros Hh. split; [by apply H|].
      rewrite bool_decide_false; [done|]. by intros [? [=]].
Qed.

Lemma wp_get_owner id d : wp (get_thread_owner_user_id id) (fun r d' =>
  threads d' = threads d /\ (forall o, r = Ok o -> o = owner_of d id) /\
  (db_healthy d -> db_healthy d' /\ exists o, r = Ok o)) d.
Proof.
  apply wp_statement.
  - intros fs e H. split_and!; [done|done|]. intros Hh. by destruct (H Hh).
  - intros fs a d' H [= <- <-]. split_and!; [done|by intros o [= <-]|].
    intros Hh. split; [by apply H|by eexists].
Qed.

(** * What the handlers do *)

Lemma wp_repo {A} (m : DbM A) (Q : result ServerError A -> AppState -> Prop) s :
  wp m (fun r d' => Q (match r with Ok a => Ok a | Err e => Err (SV_DbError e) end)
                      (mkAppState d' (audit s))) (db s) ->
  wp (repo m) Q s.
Proof. unfold wp, repo. by destruct (m (db s)) as [[a|e] d']. Qed.

Lemma live_row_threads d d' : threads d' = threads d -> forall id, live_row d' id = live_row d id.
Proof. intros H id. unfold live_row. by rewrite H. Qed.
Lemma owner_of_threads d d' : threads d' = threads d -> forall id, owner_of d' id = owner_of d id.
Proof. intros H id. unfold owner_of. by rewrite (live_row_threads _ _ H). Qed.
Lemma read_doc_threads d d' : threads d' = threads d -> forall id, read_doc d' id = read_doc d id.
Proof. intros H id. unfold read_doc. by rewrite (live_row_threads _ _ H). Qed.

(** The thread belongs to somebody else. *)
Definition denied (cu : CurrentUser) (d : Db) (id : string) : Prop :=
  exists o, owner_of d id = Some o /\ o <> user_id_of cu /\ is_admin cu = false.

(** The owner after an upsert. *)
Definition owner_after (cu : CurrentUser) (d : Db) (id : string) : string :=
  default (user_id_of cu) (owner_of d id).

(** The outcome of storing [t], the thread of the request with its new time: only
    its row may change, and only for its owner or when it has none. *)
Definition put_outcome (cu : CurrentUser) (if_match : option string) (s : AppState) (t : Thread)
    (r : result ServerError Thread) (s' : AppState) : Prop :=
  let id := th_id t in
  frame id (db s) (db s') /\
  (threads (db s') !! id = threads (db s) !! id \/
   ~ denied cu (db s) id /\ exists rid created o,
     (o = owner_of (db s) id \/ o = Some (owner_after cu (db s) id)) /\
     threads (db s') !! id = Some (row_of t rid created o None)) /\
  (forall t', r = Ok t' -> ~ denied cu (db s) id /\ parse_thread (print_thread t) = Ok t' /\
     exists rid created, threads (db s') !! id =
       Some (row_of t rid created (Some (owner_after cu (db s) id)) None)) /\
  (db_healthy (db s) -> db_healthy (db s') /\
     (~ denied cu (db s) id -> if_match = None -> upsertable None (db s) t ->
      exists t', r = Ok t')).

Lemma put_refused cu if_match s t e s' : threads (db s') = threads (db s) ->
  (db_healthy (db s) -> db_healthy (db s') /\ denied cu (db s) (th_id t)) ->
  put_outcome cu if_match s t (Err e) s'.
Proof.
  intros Ht Hh. split_and!; [intros ??; by rewrite Ht|left; by rewrite Ht|done|].
  intros H. destruct (Hh H). split; [done|]. tauto.
Qed.

(** The guard of the handler. *)
Lemma denied_guard cu d id : denied cu d id <->
  match owner_of d id with
  | Some owner_id => negb (String.eqb owner_id (user_id_of cu)) && negb (is_admin cu)
  | None => false
  end = true.
Proof.
  unfold denied. destruct (owner_of d id) as [o|]; [|naive_solver].
  rewrite andb_true_iff, !negb_true_iff, String.eqb_neq. naive_solver.
Qed.

(** The end of the handler, when the row is written: a new thread gets its owner. *)
Lemma wp_put_owner cu if_match s t t' d2 au rid created :
  ~ denied cu (db s) (th_id t) -> parse_thread (print_thread t) = Ok t' ->
  frame (th_id t) (db s) d2 -> (db_healthy (db s) -> db_healthy d2) ->
  threads d2 !! th_id t = Some (row_of t rid created (owner_of (db s) (th_id t)) None) ->
  wp (let* _ := match owner_of (db s) (th_id t) with
                | None => let* _ := repo (set_owner_user_id (th_id t) (user_id_of cu)) in ret tt
                | Some _ => ret tt
                end in
      let* _ := audit_log (mkAuditEntry ThreadCreated (th_id t) (user_id_of cu)) in
      ret t') (put_outcome cu if_match s t) (mkAppState d2 au).
Proof.
  intros Hnd Hp Hf Hh Hrow. unfold put_outcome, owner_after.
  destruct (owner_of (db s) (th_id t)) as [o|] eqn:Ho.
  { unfold wp; cbn. split_and!; [done|right; split; [done|]; by do 3 eexists; eauto| |].
    - intros t'' [= <-]. eauto.
    - intros H. split; [by apply Hh|by eexists]. }
  apply stm_bind, stm_bind, wp_repo. cbn [db]. eapply stm_mono; [apply wp_update_live|].
  assert (live_row d2 (th_id t) = Some (row_of t rid created None None)) as Hl
    by by apply live_row_Some.
  intros r d3 (Hset & Hno & Hh3). rewrite Hl in Hno. cbn [audit]. destruct r as [[]|e].
  - destruct Hset as [(_ & _ & Hs)|[[] _]]; [|done].
    assert (threads d3 !! th_id t = Some (row_of t rid created (Some (user_id_of cu)) None)) as Hr3
      by by rewrite Hs, lookup_alter_eq, Hrow.
    unfold wp; cbn. split_and!.
    + intros id' H. cbn. rewrite Hs, lookup_alter_ne by done. by apply Hf.
    + right. split; [done|]. do 3 eexists. eauto.
    + intros t'' [= <-]. eauto.
    + intros H. split; [by apply Hh3, Hh|by eexists].
  - by specialize (Hno eq_refl).
  - destruct Hset as [[[=] _]|[_ Hs]]. cbn. split_and!.
    + intros id' H. cbn. rewrite Hs. by apply Hf.
    + right. split; [done|]. rewrite Hs. do 3 eexists. eauto.
    + done.
    + intros H. by destruct (Hh3 (Hh H)) as [_ [=]].
Qed.

Lemma upsert_wrong_id now cu id if_match t s : th_id t <> id ->
  exists e, upsert_thread now cu id if_match t s = (Err e, s).
Proof.
  intros Hid%String.eqb_neq. unfold upsert_thread. rewrite Hid. by eexists.
Qed.

Lemma wp_upsert_thread now cu if_match t s :
  wp (upsert_thread now cu (th_id t) if_match t)
    (put_outcome cu if_match s (with_updated_at (now 0) t)) s.
Proof.
  unfold upsert_thread. rewrite String.eqb_refl. cbn [negb].
  set (t1 := with_updated_at (now 0) t). change (th_id t) with (th_id t1).
  apply stm_bind, wp_repo. eapply stm_mono; [apply wp_get_owner|].
  intros r d1 (Ht1 & Hr1 & Hh1). destruct r as [existing|e].
  2: { apply put_refused; [done|]. intros Hh. by destruct (Hh1 Hh) as [_ [? [=]]]. }
  rewrite (Hr1 _ eq_refl). pose proof (denied_guard cu (db s) (th_id t1)) as Hden.
  destruct (match owner_of (db s) (th_id t1) with
            | Some owner_id => negb (String.eqb owner_id (user_id_of cu)) && negb (is_admin cu)
            | None => false
            end).
  { apply put_refused; [done|]. intros Hh. split; [by apply Hh1|by apply Hden]. }
  assert (~ denied cu (db s) (th_id t1)) as Hnd by by intros ?%Hden.
  apply stm_bind, wp_repo. cbn [db].
  eapply stm_mono; [apply (wp_repo_upsert (now 1) t1)|]. intros r d2 (Hf2 & Hw2 & Hok2 & Hh2).
  assert (frame (th_id t1) (db s) d2) as Hf.
  { intros id' H. rewrite Hf2 by done. by rewrite Ht1. }
  assert (forall o, written d1 t1 o -> exists rid created,
    o = Some (row_of t1 rid created (owner_of (db s) (th_id t1)) None)) as Hwr.
  { intros o (rid & created & ->). rewrite (owner_of_threads _ _ Ht1). eauto. }
  assert (db_healthy (db s) -> db_healthy d2) as Hhd by (intros H; by apply Hh2, Hh1).
  destruct r as [stored|e].
  - destruct (Hok2 _ eq_refl) as [(rid & created & Hrow)%Hwr Hparse].
    by apply (wp_put_owner _ _ _ _ _ _ _ rid created).
  - split_and!; [done| |done|].
    + cbn. rewrite <- Ht1. destruct Hw2 as [?|(rid & created & ?)%Hwr]; [by left|right].
      split; [done|]. do 3 eexists. eauto.
    + intros Hh. split; [by apply Hhd|]. intros _ -> Hup.
      destruct (proj2 (Hh2 (proj1 (Hh1 Hh)))) as [? [=]]. revert Hup. unfold upsertable.
      by rewrite (read_doc_threads _ _ Ht1), (live_row_threads _ _ Ht1), Ht1.
Qed.

Lemma wp_check_owner cu id s : wp (check_owner cu id) (fun r s' =>
  threads (db s') = threads (db s) /\
  (r = Ok tt -> ~ denied cu (db s) id /\ is_Some (owner_of (db s) id)) /\
  (forall x, r = Err (SV_NotFound x) -> denied cu (db s) id \/ owner_of (db s) id = None) /\
  (db_healthy (db s) -> db_healthy (db s') /\
     (owner_of (db s) id = Some (user_id_of cu) -> r = Ok tt) /\
     (owner_of (db s) id = None -> r = Err (SV_NotFound id)))) s.
Proof.
  apply stm_bind, wp_repo. eapply stm_mono; [apply wp_get_owner|]. intros r d1 (Ht & Hr & Hh).
  destruct r as [o|e].
  2: { cbn. split_and!; [done|done|done|]. intros H. by destruct (Hh H) as [_ [? [=]]]. }
  specialize (Hr _ eq_refl). subst o. unfold denied.
  destruct (owner_of (db s) id) as [o|] eqn:Ho.
  2: { unfold wp; cbn. split_and!; [done|done|by right|]. intros H. by apply Hh in H as [? _]. }
  destruct (String.eqb_spec o (user_id_of cu)) as [->|Hne]; cbn [orb].
  { unfold wp; cbn. split_and!; [done| |done|].
    - intros _. split; [|done]. intros (o & [= <-] & H & _). done.
    - intros H. by apply Hh in H as [? _]. }
  destruct (is_admin cu) eqn:Ha; unfold wp; cbn.
  - split_and!; [done| |done|].
    + intros _. split; [|done]. by intros (o' & _ & _ & [=]).
    + intros H. apply Hh in H as [? _]. split_and!; [done|done|done].
  - split_and!; [done|done| |].
    + intros x _. left. eauto.
    + intros H. apply Hh in H as [? _]. split_and!; [done| |done]. by intros [= ->].
Qed.

Lemma wp_get_thread cu id s : wp (get_thread cu id) (fun r s' =>
  threads (db s') = threads (db s) /\
  (forall t, r = Ok t -> ~ denied cu (db s) id /\ read_doc (db s) id = Some (Ok t)) /\
  (db_healthy (db s) -> db_healthy (db s') /\
     (forall t, owner_of (db s) id = Some (user_id_of cu) -> read_doc (db s) id = Some (Ok t) ->
        r = Ok t) /\
     (owner_of (db s) id = None -> r = Err (SV_NotFound id)))) s.
Proof.
  apply stm_bind. eapply stm_mono; [apply wp_check_owner|]. intros r s1 (Ht1 & Hok1 & _ & Hh1).
  destruct r as [[]|e].
  2: { split_and!; [done|done|]. intros H. destruct (Hh1 H) as (? & Hme & Hno).
       split_and!; [done|by intros t ?%Hme|]. intros Hn. by injection (Hno Hn) as ->. }
  destruct (Hok1 eq_refl) as [Hnd [o Ho]].
  apply stm_bind, wp_repo. eapply stm_mono; [apply wp_thread_get|]. intros r d2 (Ht2 & Hr2 & Hh2).
  rewrite (read_doc_threads _ _ Ht1) in Hr2, Hh2.
  rewrite (live_row_threads _ _ Ht1) in Hr2. cbn [db audit].
  destruct r as [[t|]|e]; unfold wp; cbn; rewrite ?Ht2.
  - specialize (Hr2 _ eq_refl). cbn in Hr2.
    split_and!; [done|by intros t' [= <-]|]. intros H. destruct (Hh1 H) as [Hs1 _].
    destruct (Hh2 Hs1) as [? _]. split_and!; [done| |by rewrite Ho]. intros t' _. congruence.
  - specialize (Hr2 _ eq_refl). cbn in Hr2. unfold owner_of in Ho. by rewrite Hr2 in Ho.
  - split_and!; [done|done|]. intros H. destruct (Hh1 H) as [Hs1 _].
    destruct (Hh2 Hs1) as [? Hp]. split_and!; [done| |by rewrite Ho].
    intros t _ Hd. destruct Hp as [? [=]]. intros e'. by rewrite Hd.
Qed.

Lemma wp_delete_thread now cu id s : wp (delete_thread now cu id) (fun r s' =>
  frame id (db s) (db s') /\
  (threads (db s') !! id = threads (db s) !! id \/
   exists row, live_row (db s) id = Some row /\
     threads (db s') !! id = Some (set_deleted (now 0) row)) /\
  (denied cu (db s) id -> threads (db s') !! id = threads (db s) !! id /\ r <> Ok tt) /\
  (r = Ok tt -> owner_of (db s') id = None) /\
  (forall x, r = Err (SV_NotFound x) -> denied cu (db s) id \/ owner_of (db s') id = None) /\
  (db_healthy (db s) -> db_healthy (db s') /\
     (owner_of (db s) id = Some (user_id_of cu) -> r = Ok tt) /\
     (owner_of (db s) id = None -> r = Err (SV_NotFound id)))) s.
Proof.
  apply stm_bind. eapply stm_mono; [apply wp_check_owner|]. intros r s1 (Ht1 & Hok1 & Hno1 & Hh1).
  destruct r as [[]|e].
  2: { split_and!; [intros ??; by rewrite Ht1|left; by rewrite Ht1|by rewrite Ht1|done| |].
       - rewrite (owner_of_threads _ _ Ht1). exact Hno1.
       - intros H. by destruct (Hh1 H) as (? & ? & ?). }
  destruct (Hok1 eq_refl) as [Hnd [o Ho]].
  apply stm_bind, wp_repo. eapply stm_mono; [apply wp_update_live|]. intros r d2 (Hset & Hf & Hh2).
  rewrite !(live_row_threads _ _ Ht1), Ht1 in *. cbn [db audit].
  assert (exists row, live_row (db s) id = Some row) as [row Hrow].
  { unfold owner_of in Ho. destruct (live_row (db s) id); [eauto|done]. }
  destruct r as [[]|e].
  - destruct Hset as [(_ & _ & Hs)|[[] _]]; [|done]. unfold wp; cbn.
    apply live_row_Some in Hrow as [Hr Hd].
    assert (threads d2 !! id = Some (set_deleted (now 0) row)) as Hr2
      by by rewrite Hs, lookup_alter_eq, Hr.
    split_and!.
    + intros id' H. cbn. by rewrite Hs, lookup_alter_ne.
    + right. exists row. by rewrite live_row_Some.
    + done.
    + intros _. unfold owner_of, live_row. by rewrite Hr2.
    + done.
    + intros H. destruct (Hh1 H) as [Hs1 _]. destruct (Hh2 Hs1). split_and!; [done|done|].
      by rewrite Ho.
  - by rewrite (Hf eq_refl) in Hrow.
  - destruct Hset as [[[=] _]|[_ Hs]]. cbn.
    split_and!; [intros ??; cbn; by rewrite Hs|left; by rewrite Hs|by rewrite Hs|done|done|].
    intros H. destruct (Hh1 H) as [Hs1 _]. by destruct (Hh2 Hs1) as [_ [=]].
Qed.

(** A row is filed under the id of its document. *)
Definition row_ok (id : string) (r : ThreadRow) : Prop :=
  r_id r = id /\ forall t, parse_thread (r_full_json r) = Ok t -> th_id t = id.

Definition table_ok (d : Db) : Prop := map_Forall row_ok (threads d).

Lemma row_of_ok t rid created owner deleted :
  row_ok (th_id t) (row_of t rid created owner deleted).
Proof. split; [done|]. intros t'. apply parse_print_id. Qed.

Lemma read_doc_id d id t : table_ok d -> read_doc d id = Some (Ok t) -> th_id t = id.
Proof.
  intros Hok. unfold read_doc. destruct (live_row d id) as [row|] eqn:Hl; cbn; [|done].
  intros [= Hp]. apply live_row_Some in Hl as [Hl _]. by apply (Hok _ _ Hl).
Qed.

Lemma wp_visibility oc now cu id if_match v s : table_ok (db s) ->
  wp (update_thread_visibility oc now cu id if_match v) (fun r s' =>
    frame id (db s) (db s') /\
    (threads (db s') !! id = threads (db s) !! id \/
     exists t rid created, th_id t = id /\
       threads (db s') !! id = Some (row_of t rid created (owner_of (db s) id) None)) /\
    (denied cu (db s) id ->
       threads (db s') !! id = threads (db s) !! id /\ forall x, r <> Ok x) /\
    (forall t, r = Ok (Done t) -> th_id t = id)) s.
Proof.
  intros Hok. apply stm_bind. eapply stm_mono; [apply wp_check_owner|].
  intros r s1 (Ht1 & Hok1 & _). destruct r as [[]|e].
  2: { split_and!; [intros ??; by rewrite Ht1|left; by rewrite Ht1|by rewrite Ht1|done]. }
  destruct (Hok1 eq_refl) as [Hnd _].
  apply stm_bind, wp_repo. eapply stm_mono; [apply wp_thread_get|]. intros r d2 (Ht2 & Hr2 & _).
  rewrite Ht1 in Ht2. rewrite (read_doc_threads _ _ Ht1) in Hr2. cbn [db audit].
  destruct r as [o|e].
  2: { split_and!; [intros ??; cbn; by rewrite Ht2|left; by rewrite Ht2|done|done]. }
  specialize (Hr2 _ eq_refl). destruct o as [t|]; cbn [found].
  2: { unfold wp; cbn. split_and!; [intros ??; cbn; by rewrite Ht2|left; by rewrite Ht2|done|done]. }
  pose proof (read_doc_id _ _ _ Hok Hr2) as Hid. apply stm_bind_ret.
  match goal with |- wp (if ?b then _ else _) _ _ => destruct b end.
  { unfold wp; cbn. split_and!; [intros ??; cbn; by rewrite Ht2|left; by rewrite Ht2|done|done]. }
  destruct (add_u64 oc (th_version t) 1) as [version|].
  2: { unfold wp; cbn. split_and!; [intros ??; cbn; by rewrite Ht2|left; by rewrite Ht2|done|done]. }
  apply stm_bind, wp_repo. cbn [db].
  match goal with |- wp (repo_upsert _ ?x _) _ _ => set (t1 := x) end.
  assert (th_id t1 = id) as Hid1 by done.
  eapply stm_mono; [apply wp_repo_upsert|]. intros r d3 (Hf & Hw & Hu & _). rewrite Hid1, Ht2 in *.
  assert (frame id (db s) d3) as Hf3 by (intros id' H; rewrite Hf by done; by rewrite Ht2).
  assert (threads d3 !! id = threads (db s) !! id \/
     exists t rid created, th_id t = id /\
       threads d3 !! id = Some (row_of t rid created (owner_of (db s) id) None)) as Hrow.
  { destruct Hw as [?|(rid & created & Hr)]; [by left|right]. rewrite Hid1 in Hr.
    rewrite (owner_of_threads _ _ Ht2) in Hr. eauto. }
  destruct r as [t'|e].
  - unfold wp; cbn. split_and!; [done|done|done|]. intros t'' [= <-].
    destruct (Hu _ eq_refl) as [_ Hp]. by rewrite (parse_print_id _ _ Hp).
  - cbn. by split_and!.
Qed.

Lemma table_ok_frame id d d' : table_ok d -> frame id d d' ->
  (forall row, threads d' !! id = Some row -> row_ok id row) -> table_ok d'.
Proof.
  intros Hok Hf Hrow id' row Hr. destruct (decide (id' = id)) as [->|Hne]; [by apply Hrow|].
  rewrite Hf in Hr by done. by apply Hok.
Qed.

Lemma set_deleted_ok now id row : row_ok id row -> row_ok id (set_deleted now row).
Proof. done. Qed.

(** * The summaries of a list are those of the documents *)

Lemma wrap_u32_of_i32 z : wrap_u32 (wrap_i32 z) = wrap_u32 z.
Proof.
  unfold wrap_u32, wrap_i32. rewrite Zminus_mod_idemp_l. f_equal. lia.
Qed.

Lemma as_i64_u64 z : u64_ok z -> (as_i64 z mod 2 ^ 64 = z)%Z.
Proof.
  unfold u64_ok, as_i64. intros Hz. rewrite Zminus_mod_idemp_l.
  replace (z + 2 ^ 63 - 2 ^ 63)%Z with z by lia. by apply Z.mod_small.
Qed.

Lemma visibility_roundtrip v :
  ThreadVisibility_from_str (ThreadVisibility_as_str v) = Ok v.
Proof. by destruct v. Qed.

(** The summary made from the columns is the summary of the thread that was
    written, but for [created_at], which an update does not write. *)
Lemma row_summary_of t rid created owner deleted :
  u64_ok (th_version t) -> created = th_created_at t ->
  row_summary (row_of t rid created owner deleted) = ThreadSummary_from t.
Proof.
  intros Hv ->. unfold row_summary, row_of, ThreadSummary_from.
  cbn -[wrap_u32 wrap_i32 Z.pow Z.modulo as_i64].
  rewrite parse_print_tags, visibility_roundtrip, as_i64_u64, wrap_u32_of_i32 by done.
  by destruct (md_is_pinned (th_metadata t)).
Qed.

(** * Requests *)

(** The document or the summary of the thread is in the response. *)
Definition reveals (id : string) (r : ThreadResponse) : Prop :=
  match rs_body r with
  | B_Thread x => exists t, parse_thread x = Ok t /\ th_id t = id
  | B_List l => id ∈ sm_id <$> lr_threads l
  | B_Search l => id ∈ (fun h => sm_id (hit_summary h)) <$> sr_hits l
  | B_Text _ => False
  end.

(** A request with the clock's readings and the token it carries. *)
Record Call := mkCall { c_now : nat -> string; c_token : option string; c_request : ThreadRequest }.

Fixpoint serve_requests (oc : bool) (calls : list Call) (s : AppState)
    : list (option ThreadResponse) * AppState :=
  match calls with
  | [] => ([], s)
  | c :: calls =>
      let '(r, s) := serve_request oc (c_now c) (c_token c) (c_request c) s in
      let '(rs, s) := serve_requests oc calls s in
      (r :: rs, s)
  end.

(** Another person than [o], without the rights of an administrator. *)
Definition foreign (o : string) (c : Call) : Prop :=
  match authenticate (c_token c) with
  | Some cu => user_id_of cu <> o /\ is_admin cu = false
  | None => True
  end.

Lemma limit_offset_in {A} limit offset (l : list A) x : x ∈ limit_offset limit offset l -> x ∈ l.
Proof.
  unfold limit_offset. set (n := Z.to_nat (wrap_i32 offset)). intros H.
  rewrite <- (take_drop n l). apply elem_of_app. right.
  destruct (_ <? 0)%Z; [done|]. apply elem_of_take in H as (i & Hi & _).
  by apply list_elem_of_lookup_2 in Hi.
Qed.

(** What a query for an owner finds belongs to him. *)
Lemma matching_own owner ws d row : row ∈ matching (Some owner) ws d ->
  exists k, threads d !! k = Some row /\ r_owner_user_id row = Some owner.
Proof.
  unfold matching. rewrite list_elem_of_In, List.filter_In, <- list_elem_of_In. intros [Hr Hm].
  apply list_elem_of_fmap in Hr as ([k row'] & -> & Hk%elem_of_map_to_list).
  apply andb_true_iff in Hm as [Hm _]. apply andb_true_iff in Hm as [_ Hm].
  apply bool_decide_eq_true in Hm. eauto.
Qed.

Lemma wp_list_threads cu ws limit offset s : wp (list_threads cu ws limit offset) (fun r s' =>
  threads (db s') = threads (db s) /\
  forall l, r = Ok l -> forall id, id ∈ sm_id <$> lr_threads l ->
    exists k row, threads (db s) !! k = Some row /\ r_id row = id /\
      r_owner_user_id row = Some (user_id_of cu)) s.
Proof.
  apply stm_bind, wp_repo, wp_statement; [by intros|].
  intros fs summaries d1 _ [= <- <-]. apply stm_bind, wp_repo, wp_statement; [by intros|].
  intros fs' n d2 _ [= <- <-]. unfold wp; cbn. split; [done|]. intros l [= <-] id. cbn.
  intros (sm & -> & Hin)%list_elem_of_fmap. apply list_elem_of_fmap in Hin as (row & -> & Hin).
  apply limit_offset_in in Hin. rewrite order_by_activity_perm in Hin.
  apply matching_own in Hin as (k & Hk & Hown). eauto.
Qed.

Lemma wp_search_threads fts cu q ws limit offset s :
  wp (search_threads fts cu q ws limit offset) (fun r s' =>
    threads (db s') = threads (db s) /\
    forall l, r = Ok l -> forall id, id ∈ (fun h => sm_id (hit_summary h)) <$> sr_hits l ->
      exists k row, threads (db s) !! k = Some row /\ r_id row = id /\
        r_owner_user_id row = Some (user_id_of cu)) s.
Proof.
  unfold search_threads. destruct (bool_decide _); [by unfold wp; cbn|].
  unfold search_for_owner. destruct (is_sha_like _);
    (apply stm_bind, wp_repo, wp_statement; [by intros|]; intros fs hits d1 _ [= <- <-];
     unfold wp; cbn; split; [done|]; intros l [= <-] id; cbn;
     intros (h & -> & Hin)%list_elem_of_fmap).
  - apply list_elem_of_fmap in Hin as (row & -> & Hin). apply limit_offset_in in Hin.
    rewrite order_by_activity_perm, list_elem_of_In, List.filter_In, <- list_elem_of_In in Hin.
    destruct Hin as [Hin _]. apply matching_own in Hin as (k & Hk & Hown). eauto.
  - apply list_elem_of_fmap in Hin as ([row score] & -> & Hin). apply limit_offset_in in Hin.
    rewrite order_by_score_perm in Hin. apply list_elem_of_omap in Hin as (row' & Hin & Hs).
    destruct (fts _ row'); [|done]. injection Hs as -> _.
    apply matching_own in Hin as (k & Hk & Hown). eauto.
Qed.

(** The row is kept and the response shows nothing of it. *)
Definition unharmed (id : string) (row : ThreadRow) (r : option ThreadResponse) (s' : AppState) : Prop :=
  table_ok (db s') /\ threads (db s') !! id = Some row /\
  match r with Some r => ~ reveals id r | None => True end.

Section OneRequest.
Context (cu : CurrentUser) (s : AppState) (id : string) (row : ThreadRow).
Context (Hok : table_ok (db s)) (Hl : live_row (db s) id = Some row) (Hd : denied cu (db s) id).

Lemma kept_row : threads (db s) !! id = Some row.
Proof. by apply live_row_Some in Hl as [? _]. Qed.

Lemma other_document id' t : id' <> id -> th_id t = id' ->
  ~ reveals id (mkThreadResponse 200 (B_Thread (print_thread t))).
Proof. intros Hid Ht (t' & Hp & Ht'). apply parse_print_id in Hp. congruence. Qed.

(** A change to the row of [id'] only, and to none of somebody else. *)
Lemma unharmed_change id' s' : frame id' (db s) (db s') ->
  (forall row', threads (db s') !! id' = Some row' -> row_ok id' row') ->
  (denied cu (db s) id' -> threads (db s') !! id' = threads (db s) !! id') ->
  table_ok (db s') /\ threads (db s') !! id = Some row.
Proof.
  intros Hf Hr Hdn. split; [by apply (table_ok_frame id' (db s))|].
  destruct (decide (id = id')) as [<-|Hni]; [by rewrite Hdn, kept_row|by rewrite Hf, kept_row].
Qed.

Lemma foreign_put now im t id' :
  let '(r, s') := upsert_thread now cu id' im t s in
  unharmed id row
    (Some (respond (fun t => mkThreadResponse 200 (B_Thread (print_thread t))) r)) s'.
Proof.
  destruct (decide (th_id t = id')) as [<-|Hid].
  2: { destruct (upsert_wrong_id now cu id' im t s Hid) as [e ->].
       split_and!; [done|apply kept_row|cbn; tauto]. }
  pose proof (wp_upsert_thread now cu im t s) as H. unfold wp in H.
  destruct (upsert_thread now cu (th_id t) im t s) as [r s'].
  destruct H as (Hf & Hr & Hres & _). cbn [fst snd] in *.
  change (th_id (with_updated_at (now 0) t)) with (th_id t) in *.
  destruct (unharmed_change (th_id t) s') as [Hok' Hrow']; [done| | |split_and!; [done|done|]].
  - intros row' Hr'. destruct Hr as [Hr|(_ & rid & created & o' & _ & Hr)]; rewrite Hr in Hr'.
    + by apply Hok.
    + injection Hr' as <-. apply (row_of_ok (with_updated_at _ t)).
  - intros Hdn. destruct Hr as [->|[Hnd _]]; [done|tauto].
  - destruct r as [t'|e]; cbn; [|tauto]. destruct (Hres _ eq_refl) as (Hnd & Hp & _).
    apply (other_document (th_id t)); [by intros Hx; rewrite Hx in Hnd|].
    by rewrite (parse_print_id _ _ Hp).
Qed.

Lemma foreign_get id' :
  let '(r, s') := get_thread cu id' s in
  unharmed id row
    (Some (respond (fun t => mkThreadResponse 200 (B_Thread (print_thread t))) r)) s'.
Proof.
  pose proof (wp_get_thread cu id' s) as H. unfold wp in H.
  destruct (get_thread cu id' s) as [r s']. destruct H as (Ht & Hres & _). cbn [fst snd] in *.
  split_and!; [unfold table_ok; by rewrite Ht|by rewrite Ht, kept_row|].
  destruct r as [t|e]; cbn; [|tauto]. destruct (Hres _ eq_refl) as [Hnd Hdoc].
  apply (other_document id'); [by intros ->|]. by apply (read_doc_id (db s)).
Qed.

Lemma foreign_delete now id' :
  let '(r, s') := delete_thread now cu id' s in
  unharmed id row (Some (respond (fun _ => mkThreadResponse 204 (B_Text "")) r)) s'.
Proof.
  pose proof (wp_delete_thread now cu id' s) as H. unfold wp in H.
  destruct (delete_thread now cu id' s) as [r s'].
  destruct H as (Hf & Hr & Hdn & _). cbn [fst snd] in *.
  destruct (unharmed_change id' s') as [Hok' Hrow']; [done| |intros Hx; by apply (Hdn Hx)|].
  - intros row' Hr'.
    destruct Hr as [Hr|(row1 & [Hr1 _]%live_row_Some & Hr)]; rewrite Hr in Hr'.
    + by apply Hok.
    + injection Hr' as <-. by apply set_deleted_ok, Hok.
  - split_and!; [done|done|]. destruct r as [[]|e]; cbn; tauto.
Qed.

Lemma own_rows_only k row' : threads (db s) !! k = Some row' -> r_id row' = id ->
  r_owner_user_id row' = Some (user_id_of cu) -> False.
Proof.
  intros Hk Hkid Hown. destruct (Hok _ _ Hk) as [Hrid _]. assert (k = id) as -> by congruence.
  destruct Hd as (o & Ho & Hne & _). unfold owner_of in Ho. rewrite Hl in Ho. cbn in Ho.
  rewrite kept_row in Hk. congruence.
Qed.

Lemma foreign_list ws limit offset :
  let '(r, s') := list_threads cu ws limit offset s in
  unharmed id row (Some (respond (fun l => mkThreadResponse 200 (B_List l)) r)) s'.
Proof.
  pose proof (wp_list_threads cu ws limit offset s) as H. unfold wp in H.
  destruct (list_threads cu ws limit offset s) as [r s']. destruct H as [Ht Hres].
  cbn [fst snd] in *. split_and!; [unfold table_ok; by rewrite Ht|by rewrite Ht, kept_row|].
  destruct r as [l|e]; cbn; [|tauto]. unfold reveals; cbn. intros Hin.
  destruct (Hres _ eq_refl _ Hin) as (k & row' & Hk & Hkid & Hown). by eapply own_rows_only.
Qed.

Lemma foreign_search fts q ws limit offset :
  let '(r, s') := search_threads fts cu q ws limit offset s in
  unharmed id row (Some (respond (fun l => mkThreadResponse 200 (B_Search l)) r)) s'.
Proof.
  pose proof (wp_search_threads fts cu q ws limit offset s) as H. unfold wp in H.
  destruct (search_threads fts cu q ws limit offset s) as [r s']. destruct H as [Ht Hres].
  cbn [fst snd] in *. split_and!; [unfold table_ok; by rewrite Ht|by rewrite Ht, kept_row|].
  destruct r as [l|e]; cbn; [|tauto]. unfold reveals; cbn. intros Hin.
  destruct (Hres _ eq_refl _ Hin) as (k & row' & Hk & Hkid & Hown). by eapply own_rows_only.
Qed.

Lemma foreign_visibility oc now im v id' :
  let '(r, s') := update_thread_visibility oc now cu id' im v s in
  unharmed id row
    (match r with
     | Ok (Done t) => Some (mkThreadResponse 200 (B_Thread (print_thread t)))
     | Ok Panic => None
     | Err e => Some (respond (fun _ : unit => mkThreadResponse 200 (B_Text "")) (Err e))
     end) s'.
Proof.
  pose proof (wp_visibility oc now cu id' im v s Hok) as H. unfold wp in H.
  destruct (update_thread_visibility oc now cu id' im v s) as [r s'].
  destruct H as (Hf & Hr & Hdn & Hres). cbn [fst snd] in *.
  destruct (unharmed_change id' s') as [Hok' Hrow']; [done| |intros Hx; by apply (Hdn Hx)|].
  - intros row' Hr'.
    destruct Hr as [Hr|(t & rid & created & <- & Hr)]; rewrite Hr in Hr'.
    + by apply Hok.
    + injection Hr' as <-. apply row_of_ok.
  - destruct r as [[t|]|e]; split_and!; try done; cbn; [|tauto].
    apply (other_document id'); [|by apply Hres]. intros ->.
    destruct (Hdn Hd) as [_ Hx]. by apply (Hx (Done t)).
Qed.

End OneRequest.

(** One request of somebody else keeps the row and shows nothing of it. *)
Lemma serve_foreign oc c s id row o :
  table_ok (db s) -> live_row (db s) id = Some row -> r_owner_user_id row = Some o ->
  foreign o c ->
  let '(r, s') := serve_request oc (c_now c) (c_token c) (c_request c) s in unharmed id row r s'.
Proof.
  intros Hok Hl Ho Hc. unfold foreign in Hc. unfold serve_request.
  assert (forall r, (exists x, rs_body r = B_Text x) ->
    unharmed id row (Some r) s) as Hno.
  { intros r Hr. split_and!; [done|by apply (kept_row s)|]. unfold reveals.
    destruct Hr as [x ->]. tauto. }
  destruct (authenticate (c_token c)) as [cu|]; [|apply Hno; by eexists].
  destruct Hc as [Hne Ha].
  assert (denied cu (db s) id) as Hd by (exists o; unfold owner_of; rewrite Hl; eauto).
  destruct (c_request c) as [id' im body|id'|id'|ws limit offset|fts q ws limit offset|id' im v].
  - destruct (parse_thread body) as [t|e]; [|apply Hno; by eexists].
    pose proof (foreign_put cu s id row Hok Hl Hd (c_now c) im t id') as H.
    revert H. by destruct (upsert_thread _ _ _ _ _ _).
  - pose proof (foreign_get cu s id row Hok Hl Hd id') as H. revert H. by destruct (get_thread _ _ _).
  - pose proof (foreign_delete cu s id row Hok Hl Hd (c_now c) id') as H.
    revert H. by destruct (delete_thread _ _ _ _).
  - pose proof (foreign_list cu s id row Hok Hl Hd ws limit offset) as H.
    revert H. by destruct (list_threads _ _ _ _ _).
  - pose proof (foreign_search cu s id row Hok Hl Hd fts q ws limit offset) as H.
    revert H. by destruct (search_threads _ _ _ _ _ _ _).
  - pose proof (foreign_visibility cu s id row Hok Hl Hd oc (c_now c) im v id') as H.
    revert H. by destruct (update_thread_visibility _ _ _ _ _ _ _) as [[[]|] ?].
Qed.

(** C24. Whatever other users, none of them a system administrator, request of the
    six handlers of threads (storing, reading, deleting, listing, searching, changing
    the visibility), one request after the other, whichever statements of the
    database fail and whatever the full-text index answers, a thread that belongs to
    a user stays as it is: they can neither change nor delete it, and neither its
    document nor its summary is in any answer they get, whatever its visibility. *)
Theorem foreign_requests_harmless oc calls s id row o :
  table_ok (db s) -> live_row (db s) id = Some row -> r_owner_user_id row = Some o ->
  Forall (foreign o) calls ->
  threads (db (serve_requests oc calls s).2) !! id = Some row /\
  Forall (fun r => match r with Some r => ~ reveals id r | None => True end)
    (serve_requests oc calls s).1.
Proof.
  intros Hok Hl Ho Hc. revert s Hok Hl. induction Hc as [|c calls Hc _ IH]; intros s Hok Hl.
  { cbn. split; [|constructor]. by apply live_row_Some in Hl as [? _]. }
  cbn. pose proof (serve_foreign oc c s id row o Hok Hl Ho Hc) as H.
  destruct (serve_request oc (c_now c) (c_token c) (c_request c) s) as [r s1].
  destruct H as (Hok1 & Hr1 & Hrev). specialize (IH s1 Hok1).
  destruct (serve_requests oc calls s1) as [rs s2]. destruct IH as [IH1 IH2].
  { apply live_row_Some. apply live_row_Some in Hl as [_ Hd]. done. }
  split; [done|by constructor].
Qed.

End Routes.
