(* ===== verification/ThreadSync.v ===== *)
(** Synchronization of threads, sync.rs of [crates/loom-common-thread]: the client
    of the server's routes and [SyncingThreadStore], which keeps threads on the disk
    and uploads them in the background, with a queue of what has failed.

    The server at the other end is the one of ThreadServer; the network may lose a
    request or its answer.  A call of the store and each step of a background task
    (one request, one change of the queue) is an action, and the actions of the
    tasks come in any order. *)
From stdpp Require Import base gmap list strings pretty.
From Stdlib Require Import ZArith Lia Ascii.
From S2P Require Import Prelude Text CoreTypes Abac AuthContext LlmClients.
From S2P Require Import Effects ThreadModel ThreadStore ThreadServer.

(** [RetryableError for ThreadSyncError]. *)
Definition retryable_status (status : Z) : bool :=
  existsb (Z.eqb status) [429; 408; 502; 503; 504]%Z.

#[export] Instance ThreadSyncError_retryable : RetryableError ThreadSyncError := {|
  is_retryable e :=
    match e with
    | SE_Network is_timeout is_connect _ => is_timeout || is_connect
    | SE_Server status _ => retryable_status status
    | SE_Conflict => false
    | SE_InvalidUrl _ => false
    | SE_Timeout => true
    | SE_UnexpectedStatus status => retryable_status status
    end |}.

(** [Display for ThreadSyncError]; [status_text] is that of [StatusCode]. *)
Definition ThreadSyncError_to_string (status_text : Z -> string) (e : ThreadSyncError) : string :=
  match e with
  | SE_Network _ _ s => "network error: " +:+ s
  | SE_Server status message => "server error: " +:+ status_text status +:+ " - " +:+ message
  | SE_Conflict => "conflict: thread was modified on server"
  | SE_InvalidUrl s => "invalid URL: " +:+ s
  | SE_Timeout => "request timeout"
  | SE_UnexpectedStatus status => "unexpected status: " +:+ status_text status
  end.

(** What the client uses of other packages: [base_url.join(..)] with the text of its
    error and the [Display] of a status; and whether the build checks overflow. *)
Class Deployment := {
  dp_backend :: Backend;
  url_join : string -> result string string;
  status_text : Z -> string;
  overflow_checks : bool;
}.

Section Sync.
Context `{DP : Deployment}.

(** * The network *)

(** What happens to a request: it is served, with the readings of the server's
    clock; it is served and the answer is lost; or it is lost. *)
Inductive Delivery :=
| Delivered (now : nat -> string)
| Unanswered (now : nat -> string) (is_timeout is_connect : bool) (s : string)
| Lost (is_timeout is_connect : bool) (s : string).

Record NetWorld := mkNetWorld {
  server : AppState;
  net : nat -> Delivery;
  requests : list (option string * ThreadRequest);
}.

Definition connection_closed : ThreadSyncError :=
  SE_Network false false "connection closed before message completed".

Definition transmit (token : option string) (r : ThreadRequest) (w : NetWorld)
    : result ThreadSyncError ThreadResponse * NetWorld :=
  let logged := requests w ++ [(token, r)] in
  match net w (length (requests w)) with
  | Delivered now =>
      let '(answer, s) := serve_request overflow_checks now token r (server w) in
      (match answer with Some resp => Ok resp | None => Err connection_closed end,
       mkNetWorld s (net w) logged)
  | Unanswered now is_timeout is_connect e =>
      let '(_, s) := serve_request overflow_checks now token r (server w) in
      (Err (SE_Network is_timeout is_connect e), mkNetWorld s (net w) logged)
  | Lost is_timeout is_connect e =>
      (Err (SE_Network is_timeout is_connect e), mkNetWorld (server w) (net w) logged)
  end.

(** * ThreadSyncClient *)

Record ThreadSyncClient := mkThreadSyncClient {
  retry_config : RetryConfig;
  auth_token : option string;
}.

Definition ThreadSyncClient_new : ThreadSyncClient := mkThreadSyncClient RetryConfig_default None.
Definition sync_with_auth_token (token : string) (c : ThreadSyncClient) : ThreadSyncClient :=
  mkThreadSyncClient (retry_config c) (Some token).
Definition with_retry_config (cfg : RetryConfig) (c : ThreadSyncClient) : ThreadSyncClient :=
  mkThreadSyncClient cfg (auth_token c).

Definition thread_url (id : ThreadId) : result ThreadSyncError string :=
  match url_join ("threads/" +:+ id) with
  | Ok u => Ok u
  | Err e => Err (SE_InvalidUrl e)
  end.

(** [response.text().await.unwrap_or_default()], the body having arrived. *)
Definition response_text (b : Body) : string :=
  match b with B_Text s => s | _ => EmptyString end.

Definition is_server_error (status : Z) : bool := (500 <=? status)%Z && (status <? 600)%Z.

Definition other_status (resp : ThreadResponse) : ThreadSyncError :=
  if is_server_error (rs_status resp) then SE_Server (rs_status resp) (response_text (rs_body resp))
  else SE_UnexpectedStatus (rs_status resp).

Definition upsert_answer (resp : ThreadResponse) : result ThreadSyncError unit :=
  if existsb (Z.eqb (rs_status resp)) [200; 201; 204]%Z then Ok tt
  else if (rs_status resp =? 409)%Z then Err SE_Conflict
  else Err (other_status resp).

Definition get_answer (resp : ThreadResponse) : result ThreadSyncError (option Thread) :=
  if (rs_status resp =? 200)%Z then
    match rs_body resp with
    | B_Thread x => match parse_thread x with
                    | Ok t => Ok (Some t)
                    | Err e => Err (SE_Network false false e)
                    end
    | _ => Err (SE_Network false false "error decoding response body")
    end
  else if (rs_status resp =? 404)%Z then Ok None
  else Err (other_status resp).

Definition delete_answer (resp : ThreadResponse) : result ThreadSyncError unit :=
  if existsb (Z.eqb (rs_status resp)) [200; 204]%Z then Ok tt
  else if (rs_status resp =? 404)%Z then Ok tt
  else Err (other_status resp).

(** [retry] around sending; the pauses change nothing.  It always returns
    ([retry_spec]), so that the other branch is not taken. *)
Definition retrying_send (c : ThreadSyncClient) (r : ThreadRequest) (w : NetWorld)
    : result ThreadSyncError ThreadResponse * NetWorld :=
  match retry (retry_config c) (fun _ w => w) (transmit (auth_token c) r) w with
  | Some o => o
  | None => (Err SE_Timeout, w)
  end.

(** The common shape of the client's methods: URL, sending, answer. *)
Definition client_call {A} (c : ThreadSyncClient) (id : ThreadId) (r : ThreadRequest)
    (answer : ThreadResponse -> result ThreadSyncError A) (w : NetWorld) : result ThreadSyncError A * NetWorld :=
  match thread_url id with
  | Err e => (Err e, w)
  | Ok _ =>
      match retrying_send c r w with
      | (Ok resp, w) => (answer resp, w)
      | (Err e, w) => (Err e, w)
      end
  end.

Definition client_upsert_thread (c : ThreadSyncClient) (t : Thread) :=
  client_call c (th_id t) (R_Put (th_id t) None (print_thread t)) upsert_answer.
Definition client_get_thread (c : ThreadSyncClient) (id : ThreadId) :=
  client_call c id (R_Get id) get_answer.
Definition client_delete_thread (c : ThreadSyncClient) (id : ThreadId) :=
  client_call c id (R_Delete id) delete_answer.

(** * SyncingThreadStore *)

Record SyncingThreadStore := mkSyncingThreadStore {
  sync_client : option ThreadSyncClient;
  pending_store : bool;
}.

Definition SyncingThreadStore_new (c : option ThreadSyncClient) : SyncingThreadStore :=
  mkSyncingThreadStore c false.
Definition local_only : SyncingThreadStore := SyncingThreadStore_new None.
Definition with_sync (c : ThreadSyncClient) : SyncingThreadStore := SyncingThreadStore_new (Some c).
Definition with_pending_store (st : SyncingThreadStore) : SyncingThreadStore :=
  mkSyncingThreadStore (sync_client st) true.

(** What a spawned task uploads. *)
Inductive Job :=
| J_Upsert (t : Thread)
| J_Delete (id : ThreadId).

Definition job_id (j : Job) : ThreadId :=
  match j with J_Upsert t => th_id t | J_Delete id => id end.
Definition job_operation (j : Job) : SyncOperation :=
  match j with J_Upsert _ => Upsert | J_Delete _ => Delete end.
Definition job_request (j : Job) : ThreadRequest :=
  match j with
  | J_Upsert t => R_Put (th_id t) None (print_thread t)
  | J_Delete id => R_Delete id
  end.
Definition job_answer (j : Job) : ThreadResponse -> result ThreadSyncError unit :=
  match j with J_Upsert _ => upsert_answer | J_Delete _ => delete_answer end.

(** A task is before a request, with the number of failed ones, or before its
    change of the queue. *)
Inductive Task :=
| T_Send (c : ThreadSyncClient) (j : Job) (failed : nat)
| T_Record (j : Job) (outcome : result ThreadSyncError unit).

(** The files of the two stores, the world, the running tasks and the entries that a
    running [retry_pending] has still to go through. *)
Record Sys := mkSys {
  local : Disk;
  pending : Disk;
  world : NetWorld;
  tasks : list Task;
  retrying : list PendingSyncEntry;
}.

Definition set_local (d : Disk) (s : Sys) : Sys :=
  mkSys d (pending s) (world s) (tasks s) (retrying s).
Definition set_pending (d : Disk) (s : Sys) : Sys :=
  mkSys (local s) d (world s) (tasks s) (retrying s).
Definition set_world (w : NetWorld) (s : Sys) : Sys :=
  mkSys (local s) (pending s) w (tasks s) (retrying s).
Definition set_tasks (ts : list Task) (s : Sys) : Sys :=
  mkSys (local s) (pending s) (world s) ts (retrying s).
Definition set_retrying (es : list PendingSyncEntry) (s : Sys) : Sys :=
  mkSys (local s) (pending s) (world s) (tasks s) es.

(** [tokio::spawn]. *)
Definition spawn (t : Task) (s : Sys) : Sys := set_tasks (tasks s ++ [t]) s.

Section Store.
Context (st : SyncingThreadStore).

Definition spawn_job (j : Job) (s : Sys) : Sys :=
  match sync_client st with
  | Some c => spawn (T_Send c j 0) s
  | None => s
  end.

Definition store_load (id : ThreadId) (s : Sys) : result ThreadStoreError (option Thread) * Sys :=
  let '(r, d) := local_load id (local s) in (r, set_local d s).

Definition store_list (names : list string) (limit : Z) (s : Sys)
    : result ThreadStoreError (list ThreadSummary) * Sys :=
  let '(r, d) := local_list names limit (local s) in (r, set_local d s).

Definition store_save (t : Thread) (s : Sys) : result ThreadStoreError unit * Sys :=
  match local_save t (local s) with
  | (Err e, d) => (Err e, set_local d s)
  | (Ok _, d) =>
      let s := set_local d s in
      if th_is_private t then (Ok tt, s) else (Ok tt, spawn_job (J_Upsert t) s)
  end.

Definition save_and_sync (t : Thread) (s : Sys) : result ThreadStoreError unit * Sys :=
  match local_save t (local s) with
  | (Err e, d) => (Err e, set_local d s)
  | (Ok _, d) =>
      let s := set_local d s in
      if th_is_private t then (Ok tt, s)
      else
        match sync_client st with
        | Some c =>
            match client_upsert_thread c t (world s) with
            | (Ok _, w) => (Ok tt, set_world w s)
            | (Err e, w) => (Err (ST_Sync e), set_world w s)
            end
        | None => (Ok tt, s)
        end
  end.

Definition store_delete (id : ThreadId) (s : Sys) : result ThreadStoreError unit * Sys :=
  match store_load id s with
  | (Err e, s) => (Err e, s)
  | (Ok thread, s) =>
      match local_delete id (local s) with
      | (Err e, d) => (Err e, set_local d s)
      | (Ok _, d) =>
          let s := set_local d s in
          if match thread with Some t => th_is_private t | None => false end then (Ok tt, s)
          else (Ok tt, spawn_job (J_Delete id) s)
      end
  end.

(** ** The tasks *)

(** [add_pending] or [remove_pending] after the request, under the lock, the result
    being ignored; [now] is the time of the entry. *)
Definition record_outcome (now : string) (j : Job) (outcome : result ThreadSyncError unit)
    (s : Sys) : Sys :=
  if pending_store st then
    match outcome with
    | Ok _ => set_pending (remove_pending (job_id j) (job_operation j) (pending s)).2 s
    | Err e => set_pending (add_pending overflow_checks now (job_id j) (job_operation j)
                 (Some (ThreadSyncError_to_string status_text e)) (pending s)).2 s
    end
  else s.

(** A step of a task and what is left of it. *)
Definition task_step (now : string) (t : Task) (s : Sys) : option Task * Sys :=
  match t with
  | T_Send c j failed =>
      match thread_url (job_id j) with
      | Err e => (Some (T_Record j (Err e)), s)
      | Ok _ =>
          match transmit (auth_token c) (job_request j) (world s) with
          | (Ok resp, w) => (Some (T_Record j (job_answer j resp)), set_world w s)
          | (Err e, w) =>
              if negb (is_retryable e) || (max_attempts (retry_config c) <=? Z.of_nat (S failed))%Z
              then (Some (T_Record j (Err e)), set_world w s)
              else (Some (T_Send c j (S failed)), set_world w s)
          end
      end
  | T_Record j outcome => (None, record_outcome now j outcome s)
  end.

Definition run_task (i : nat) (now : string) (s : Sys) : Sys :=
  match tasks s !! i with
  | Some t =>
      let '(t', s) := task_step now t s in
      set_tasks (take i (tasks s) ++ from_option (fun t => [t]) [] t' ++ drop (S i) (tasks s)) s
  | None => s
  end.

(** ** retry_pending *)

(** One entry: whether it has succeeded, or the error that ends the loop. *)
Definition retry_entry (c : ThreadSyncClient) (e : PendingSyncEntry) (s : Sys)
    : result ThreadStoreError bool * Sys :=
  let id := pe_thread_id e in
  let finish (op : SyncOperation) (r : result ThreadSyncError unit * NetWorld) (s : Sys) :=
    match r with
    | (Ok _, w) => (Ok true, set_pending (remove_pending id op (pending s)).2 (set_world w s))
    | (Err _, w) => (Ok false, set_world w s)
    end in
  match pe_operation e with
  | Upsert =>
      match store_load id s with
      | (Err e, s) => (Err e, s)
      | (Ok (Some t), s) => finish Upsert (client_upsert_thread c t (world s)) s
      | (Ok None, s) => (Ok false, s)
      end
  | Delete => finish Delete (client_delete_thread c id (world s)) s
  end.

Fixpoint retry_entries (c : ThreadSyncClient) (es : list PendingSyncEntry) (n : nat) (s : Sys)
    : result ThreadStoreError nat * Sys :=
  match es with
  | [] => (Ok n, s)
  | e :: es =>
      match retry_entry c e s with
      | (Err e, s) => (Err e, s)
      | (Ok b, s) => retry_entries c es (if b then S n else n) s
      end
  end.

Definition retry_pending (s : Sys) : result ThreadStoreError nat * Sys :=
  match sync_client st, pending_store st with
  | Some c, true =>
      match pending_load (pending s) with
      | (Err e, d) => (Err e, set_pending d s)
      | (Ok queue, d) => retry_entries c (entries queue) 0 (set_pending d s)
      end
  | _, _ => (Ok 0, s)
  end.

Definition pending_count (s : Sys) : nat * Sys :=
  if pending_store st then
    let '(r, d) := pending_load (pending s) in
    (match r with Ok q => queue_len q | Err _ => 0 end, set_pending d s)
  else (0, s).

(** * Actions *)

Inductive StoreAction :=
| A_Save (t : Thread)
| A_SaveAndSync (t : Thread)
| A_Delete (id : ThreadId)
| A_Retry                          (** [retry_pending] reads the queue *)
| A_RetryEntry                     (** and goes through its next entry *)
| A_Task (i : nat) (now : string). (** a step of task [i] *)

Definition act (a : StoreAction) (s : Sys) : Sys :=
  match a with
  | A_Save t => (store_save t s).2
  | A_SaveAndSync t => (save_and_sync t s).2
  | A_Delete id => (store_delete id s).2
  | A_Retry =>
      match sync_client st, pending_store st with
      | Some _, true =>
          match pending_load (pending s) with
          | (Ok queue, d) => set_retrying (entries queue) (set_pending d s)
          | (Err _, d) => set_pending d s
          end
      | _, _ => s
      end
  | A_RetryEntry =>
      match sync_client st, retrying s with
      | Some c, e :: es =>
          match retry_entry c e s with
          | (Ok _, s) => set_retrying es s
          | (Err _, s) => set_retrying [] s
          end
      | _, _ => s
      end
  | A_Task i now => run_task i now s
  end.

Definition acts (l : list StoreAction) (s : Sys) : Sys := fold_left (fun s a => act a s) l s.

End Store.
End Sync.
