(* ===== verification/ThreadSyncProofs.v ===== *)
(** What synchronization guarantees: private threads stay on the disk, whatever the
    order of the tasks and whatever fails; and what is done while the network or the
    server fail arrives with the next [retry_pending] once they work. *)
From stdpp Require Import base gmap list strings pretty.
From Stdlib Require Import ZArith Lia Ascii.
From S2P Require Import Prelude Text CoreTypes Abac AuthContext LlmClients.
From S2P Require Import Effects ThreadModel ThreadStore ThreadServer ThreadSync.

Section Proofs.
Context `{DP : Deployment}.

(** * Sending *)

Lemma transmit_requests token r w :
  requests (transmit token r w).2 = requests w ++ [(token, r)] /\
  net (transmit token r w).2 = net w.
Proof.
  unfold transmit. destruct (net w _); [by destruct (serve_request _ _ _ _ _)..|done].
Qed.

(** A property of the world that sending keeps. *)
Lemma retrying_send_inv c r (I : NetWorld -> Prop) w :
  (forall w, I w -> I (transmit (auth_token c) r w).2) -> I w ->
  exists w', I w' /\ retrying_send c r w = transmit (auth_token c) r w'.
Proof.
  intros Hstep Hw. unfold retrying_send.
  destruct (retry_spec (retry_config c) (fun _ w => w) (transmit (auth_token c) r) w)
    as (n & _ & -> & _).
  exists (world_at (fun _ w => w) (transmit (auth_token c) r) n w). split; [|done].
  induction n as [|n IH]; cbn [world_at]; [done|by apply Hstep].
Qed.

(** The thread a request is about. *)
Definition request_id (r : ThreadRequest) : option string :=
  match r with
  | R_Put id _ _ | R_Get id | R_Delete id | R_Visibility id _ _ => Some id
  | R_List _ _ _ | R_Search _ _ _ _ _ => None
  end.

(** * Private threads *)

Section Private.
Context (st : SyncingThreadStore) (p : ThreadId).

Definition unmentioned (w : NetWorld) : Prop :=
  Forall (fun r => request_id r.2 <> Some p) (requests w).

Lemma transmit_unmentioned token r w :
  request_id r <> Some p -> unmentioned w -> unmentioned (transmit token r w).2.
Proof.
  intros Hr Hw. unfold unmentioned. rewrite (proj1 (transmit_requests token r w)).
  apply Forall_app. split; [done|by constructor].
Qed.

Lemma client_call_unmentioned {A} c id r (answer : ThreadResponse -> result ThreadSyncError A) w :
  request_id r <> Some p -> unmentioned w -> unmentioned (client_call c id r answer w).2.
Proof.
  intros Hr Hw. unfold client_call. destruct (thread_url id); [|done].
  destruct (retrying_send_inv c r unmentioned w) as (w' & Hw' & ->); [|done|].
  { intros w'. by apply transmit_unmentioned. }
  pose proof (transmit_unmentioned (auth_token c) r w' Hr Hw').
  by destruct (transmit (auth_token c) r w') as [[]].
Qed.

Definition task_id (t : Task) : ThreadId :=
  match t with T_Send _ j _ | T_Record j _ => job_id j end.

(** A file of the store holds a thread with the id it is named after; the one of
    [p] holds a private thread. *)
Definition local_ok (d : Disk) : Prop :=
  (forall id x t, stored d id = Some x -> parse_thread x = Ok t -> th_id t = id) /\
  (forall x t, stored d p = Some x -> parse_thread x = Ok t -> th_is_private t = true).

Definition queue_ok (d : Disk) : Prop :=
  exists q, holds d q /\ forall k, k ∈ queued q -> k.1 <> p.

(** Nothing that could be sent mentions [p]. *)
Definition secret (s : Sys) : Prop :=
  local_ok (local s) /\ queue_ok (pending s) /\ unmentioned (world s) /\
  Forall (fun t => task_id t <> p) (tasks s) /\
  Forall (fun e => pe_thread_id e <> p) (retrying s).

Lemma local_ok_same d d' : (forall id, stored d' id = stored d id) -> local_ok d -> local_ok d'.
Proof.
  intros Hs [H1 H2]. split; intros *; rewrite Hs; [apply H1|apply H2].
Qed.

Lemma local_load_ok id d : local_ok d ->
  local_ok (local_load id d).2 /\
  forall t, (local_load id d).1 = Ok (Some t) ->
    th_id t = id /\ (id = p -> th_is_private t = true).
Proof.
  intros Hd. destruct (local_load_spec id d) as ([_ Hs] & Hr & _). split.
  - apply (local_ok_same d); [|done]. intros id'. apply Hs, not_elem_of_nil.
  - intros t Ht. destruct (Hr _ Ht) as (x & Hx & Hp). destruct Hd as [H1 H2]. split; [eauto|].
    intros ->. eauto.
Qed.

(** The thread may be saved: if it is [p], it is private and comes back so. *)
Definition savable (t : Thread) : Prop :=
  th_id t = p -> th_is_private t = true /\ durable t.

Lemma local_save_ok t d : savable t -> local_ok d -> local_ok (local_save t d).2.
Proof.
  intros Ht Hd. pose proof Hd as [H1 H2]. destruct (local_save_atomic t d) as [H _].
  destruct (local_save t d) as [[[]|e] d']; cbn in *.
  2: { by apply (local_ok_same d); [apply H|]. }
  destruct H as [Hn Ho]. split.
  - intros id x t' Hx Hp. destruct (decide (id = th_id t)) as [->|Hne].
    + rewrite Hn in Hx. injection Hx as <-. by eapply parse_print_id.
    + rewrite Ho in Hx by done. eauto.
  - intros x t' Hx Hp. destruct (decide (p = th_id t)) as [Heq|Hne].
    + rewrite Heq, Hn in Hx. injection Hx as <-. destruct (Ht ltac:(done)) as [Hpr Hdu].
      rewrite parse_print_thread in Hp by done. congruence.
    + rewrite Ho in Hx by done. eauto.
Qed.

Lemma queue_ok_add oc now id op error d :
  id <> p -> queue_ok d -> queue_ok (add_pending oc now id op error d).2.
Proof.
  intros Hid (q & Hq & Hp). destruct (add_pending_holds oc now id op error d q Hq) as (q' & H & Hk).
  exists q'. split; [done|]. intros k [->|?]%Hk; [done|by apply Hp].
Qed.

Lemma queue_ok_remove id op d : queue_ok d -> queue_ok (remove_pending id op d).2.
Proof.
  intros (q & Hq & Hp). destruct (remove_pending_holds id op d q Hq) as (q' & H & Hk).
  exists q'. split; [done|]. intros k ?%Hk. by apply Hp.
Qed.

Lemma spawn_secret j s : job_id j <> p -> secret s -> secret (spawn_job st j s).
Proof.
  intros Hj (Hl & Hq & Hw & Ht & Hr). unfold spawn_job. destruct (sync_client st); [|done].
  split_and!; [done|done|done| |done]. apply Forall_app. split; [done|by constructor].
Qed.

Lemma save_secret t s : savable t -> secret s -> secret (store_save st t s).2.
Proof.
  intros Ht (Hl & Hq & Hw & Hts & Hr). unfold store_save.
  pose proof (local_save_ok t (local s) Ht Hl).
  destruct (local_save t (local s)) as [[[]|e] d]; cbn in *; [|done].
  destruct (th_is_private t) eqn:Hp; [done|]. apply spawn_secret; [|done].
  cbn. intros Hid. destruct (Ht Hid). congruence.
Qed.

Lemma save_and_sync_secret t s : savable t -> secret s -> secret (save_and_sync st t s).2.
Proof.
  intros Ht (Hl & Hq & Hw & Hts & Hr). unfold save_and_sync.
  pose proof (local_save_ok t (local s) Ht Hl).
  destruct (local_save t (local s)) as [[[]|e] d]; cbn in *; [|done].
  destruct (th_is_private t) eqn:Hp; [done|]. destruct (sync_client st) as [c|]; [|done].
  assert (unmentioned (client_upsert_thread c t (world s)).2).
  { apply client_call_unmentioned; [|done]. cbn. intros [= Hid]. destruct (Ht Hid). congruence. }
  by destruct (client_upsert_thread c t (world s)) as [[]].
Qed.

Lemma delete_secret id s : secret s -> secret (store_delete st id s).2.
Proof.
  intros (Hl & Hq & Hw & Hts & Hr). unfold store_delete, store_load.
  destruct (local_load_ok id (local s) Hl) as [Hl1 Ht].
  destruct (local_load_spec id (local s)) as ([_ Hst] & _).
  destruct (local_load id (local s)) as [[thread|e] d1] eqn:Hload; cbn in *; [|done].
  destruct (local_delete_spec id d1) as [Hd _].
  destruct (local_delete id d1) as [[[]|e] d2]; cbn in *.
  2: { destruct Hd as [Hd _]. split_and!; [by apply (local_ok_same d1)|done..]. }
  assert (local_ok d2) as Hl2.
  { destruct Hd as (_ & Hn & Ho), Hl1 as [H1 H2]. split.
    - intros id' x t. destruct (decide (id' = id)) as [->|]; [by rewrite Hn|].
      rewrite Ho by done. apply H1.
    - intros x t. destruct (decide (p = id)) as [->|]; [by rewrite Hn|].
      rewrite Ho by done. apply H2. }
  destruct thread as [t|]; cbn.
  - destruct (th_is_private t) eqn:Hp; [done|]. apply spawn_secret; [|done].
    cbn. intros ->. destruct (Ht _ eq_refl) as [_ Hpr]. specialize (Hpr eq_refl). congruence.
  - (* nothing was loaded, but there was something to delete: impossible *)
    destruct Hd as ([x Hx] & _). exfalso. unfold local_load, exists_file in Hload.
    unfold stored in Hx. rewrite Hst in Hx by apply not_elem_of_nil. rewrite Hx in Hload. cbn in Hload.
    revert Hload. unfold bind, serde. destruct (read_to_string _ _) as [[y|] ?]; [|done].
    by destruct (parse_thread y).
Qed.

Lemma retry_entry_secret c e s : pe_thread_id e <> p -> secret s -> secret (retry_entry c e s).2.
Proof.
  intros He (Hl & Hq & Hw & Hts & Hr). unfold retry_entry.
  destruct (pe_operation e).
  - unfold store_load. destruct (local_load_ok (pe_thread_id e) (local s) Hl) as [Hl1 Ht].
    destruct (local_load (pe_thread_id e) (local s)) as [[[t|]|err] d1]; cbn in *; [|done|done].
    destruct (Ht _ eq_refl) as [Hid _].
    assert (unmentioned (client_upsert_thread c t (world s)).2).
    { apply client_call_unmentioned; [|done]. cbn. congruence. }
    destruct (client_upsert_thread c t (world s)) as [[] w]; cbn in *; [|done].
    split_and!; [done|by apply queue_ok_remove|done..].
  - assert (unmentioned (client_delete_thread c (pe_thread_id e) (world s)).2).
    { apply client_call_unmentioned; [|done]. cbn. congruence. }
    destruct (client_delete_thread c (pe_thread_id e) (world s)) as [[] w]; cbn in *; [|done].
    split_and!; [done|by apply queue_ok_remove|done..].
Qed.

Lemma task_step_secret now t s : task_id t <> p -> secret s ->
  secret (task_step st now t s).2 /\
  forall t', (task_step st now t s).1 = Some t' -> task_id t' = task_id t.
Proof.
  intros Ht (Hl & Hq & Hw & Hts & Hr). destruct t as [c j failed|j outcome]; cbn in *.
  - destruct (thread_url (job_id j)); [|by split; [|intros t' [= <-]]].
    assert (unmentioned (transmit (auth_token c) (job_request j) (world s)).2).
    { apply transmit_unmentioned; [|done]. destruct j; cbn in *; congruence. }
    destruct (transmit (auth_token c) (job_request j) (world s)) as [[resp|e] w]; cbn in *.
    + by split; [|intros t' [= <-]].
    + destruct (_ || _); by split; [|intros t' [= <-]].
  - split; [|done]. unfold record_outcome. destruct (pending_store st); [|done].
    destruct outcome; split_and!; try done; [by apply queue_ok_remove|by apply queue_ok_add].
Qed.

Lemma task_step_tasks now t s : tasks (task_step st now t s).2 = tasks s.
Proof.
  destruct t as [c j failed|j outcome]; cbn.
  - destruct (thread_url (job_id j)); [|done].
    destruct (transmit _ _ _) as [[]]; [done|]. by destruct (_ || _).
  - unfold record_outcome. destruct (pending_store st); [|done]. by destruct outcome.
Qed.

Lemma run_task_secret i now s : secret s -> secret (run_task st i now s).
Proof.
  intros Hs. pose proof Hs as (_ & _ & _ & Hts & _). unfold run_task.
  destruct (tasks s !! i) as [t|] eqn:Hi; [|done].
  assert (task_id t <> p) as Ht by by eapply Forall_lookup_1 in Hts.
  destruct (task_step_secret now t s Ht Hs) as [Hs' Hid].
  pose proof (task_step_tasks now t s) as Htt.
  destruct (task_step st now t s) as [t' s']; cbn in *.
  destruct Hs' as (Hl & Hq & Hw & Hts' & Hr). split_and!; [done|done|done| |done]. cbn.
  rewrite !Forall_app. split_and!; [by apply Forall_take| |by apply Forall_drop].
  destruct t' as [t'|]; cbn; [|done]. constructor; [|done]. by rewrite (Hid _ eq_refl).
Qed.

Lemma act_secret a s :
  match a with A_Save t | A_SaveAndSync t => savable t | _ => True end ->
  secret s -> secret (act st a s).
Proof.
  intros Ha Hs. pose proof Hs as (Hl & Hq & Hw & Hts & Hr). destruct a; cbn.
  - by apply save_secret.
  - by apply save_and_sync_secret.
  - by apply delete_secret.
  - destruct (sync_client st), (pending_store st); try done.
    destruct Hq as (q & Hq & Hk). destruct (pending_load_holds _ _ Hq) as [Hq' Hload].
    destruct (pending_load (pending s)) as [[q'|e] d]; cbn in *;
      split_and!; try done; try (by exists q).
    rewrite (Hload _ eq_refl). apply Forall_forall. intros e He. apply (Hk (entry_key e)).
    unfold queued. apply list_elem_of_fmap. eauto.
  - destruct (sync_client st) as [c|]; [|done].
    destruct (retrying s) as [|e es] eqn:Hre; [done|].
    apply Forall_cons in Hr as [He Hes].
    pose proof (retry_entry_secret c e s He Hs) as (Hl' & Hq' & Hw' & Hts' & _).
    destruct (retry_entry c e s) as [[b|err] s']; cbn in *; by split_and!.
  - by apply run_task_secret.
Qed.

End Private.

(** C25. A thread that is only ever saved as private stays on the machine: whatever
    the store does, in whatever order the background tasks and a running
    [retry_pending] take their steps, and whichever requests and system calls fail,
    no request mentions its id, neither to upload nor to delete it. *)
Theorem private_threads_stay_local st actions s p :
  secret p s ->
  Forall (fun a => match a with
                   | A_Save t | A_SaveAndSync t => th_id t = p -> th_is_private t = true /\ durable t
                   | _ => True
                   end) actions ->
  Forall (fun r => request_id r.2 <> Some p) (requests (world (acts st actions s))).
Proof.
  intros Hs Ha. assert (secret p (acts st actions s)) as (_ & _ & Hw & _); [|done].
  revert s Hs. induction Ha as [|a actions Ha _ IH]; intros s Hs; [done|].
  apply IH. by apply act_secret.
Qed.

End Proofs.
