(* ===== verification/ThreadConvergence.v ===== *)
(** Saving and deleting while the network and the server's database fail, and the
    [retry_pending] that brings the server up to date. *)
From stdpp Require Import base gmap list strings pretty.
From Stdlib Require Import ZArith Lia Ascii.
From S2P Require Import Prelude Text CoreTypes Abac AuthContext LlmClients.
From S2P Require Import Effects ThreadModel ThreadStore ThreadServer ThreadSync ThreadSyncProofs.

Section Convergence.
Context `{DP : Deployment}.
Context (st : SyncingThreadStore) (c : ThreadSyncClient) (cu : CurrentUser).
Context (Hclient : sync_client st = Some c) (Hpending : pending_store st = true).
Context (Hauth : authenticate (auth_token c) = Some cu).
Context (Hurl : forall id, exists u, url_join ("threads/" +:+ id) = Ok u).

(** * One upload *)

(** A row of the user's, or of nobody, with a document that can be read. *)
Definition own (d : Db) (id : string) : Prop := forall row, threads d !! id = Some row ->
  (r_owner_user_id row = None \/ r_owner_user_id row = Some (user_id_of cu)) /\
  exists t, durable t /\ r_full_json row = print_thread t.

Definition undeleted (d : Db) (id : string) : Prop := forall row,
  threads d !! id = Some row -> r_deleted_at row = None.

(** The user's row holds [t], but for the time of the update. *)
Definition uploaded (d : Db) (id : string) (t : Thread) : Prop := exists row now,
  live_row d id = Some row /\ r_owner_user_id row = Some (user_id_of cu) /\
  r_full_json row = print_thread (with_updated_at now t).

Lemma own_not_denied d id : own d id -> ~ denied cu d id.
Proof.
  intros Hown (o & Ho & Hne & _). unfold owner_of in Ho.
  destruct (live_row d id) as [row|] eqn:Hl; [|done]. cbn in Ho.
  apply live_row_Some in Hl as [Hr _]. destruct (Hown _ Hr) as [[?|?] _]; congruence.
Qed.

Lemma own_readable d id e : own d id -> read_doc d id <> Some (Err e).
Proof.
  intros Hown. unfold read_doc. destruct (live_row d id) as [row|] eqn:Hl; [|done]. cbn.
  apply live_row_Some in Hl as [Hr _]. destruct (Hown _ Hr) as (_ & t & Hd & ->).
  by rewrite parse_print_thread.
Qed.

Lemma own_owner_after d id : own d id -> owner_after cu d id = user_id_of cu.
Proof.
  intros Hown. unfold owner_after, owner_of. destruct (live_row d id) as [row|] eqn:Hl; [|done].
  apply live_row_Some in Hl as [Hr _]. cbn. by destruct (Hown _ Hr) as [[->| ->] _].
Qed.

Lemma own_owner_of d id : own d id -> owner_of d id = None \/ owner_of d id = Some (user_id_of cu).
Proof.
  intros Hown. unfold owner_of. destruct (live_row d id) as [row|] eqn:Hl; [|by left].
  apply live_row_Some in Hl as [Hr _]. cbn. by apply Hown.
Qed.

(** What a job needs of the row, and what it brings about. *)
Definition job_pre (j : Job) (d : Db) : Prop :=
  own d (job_id j) /\
  match j with J_Upsert t => durable t /\ undeleted d (th_id t) | J_Delete _ => True end.

Definition job_post (j : Job) (d : Db) : Prop :=
  match j with J_Upsert t => uploaded d (th_id t) t | J_Delete id => owner_of d id = None end.

Lemma error_not_accepted {A} (ok : A -> ThreadResponse) e :
  upsert_answer (respond ok (Err e)) <> Ok tt /\
  (delete_answer (respond ok (Err e)) = Ok tt -> exists id, e = SV_NotFound id).
Proof. destruct e; split; cbn; first [done|by eauto]. Qed.

Lemma serve_upsert now t s : authenticate (auth_token c) = Some cu ->
  durable t ->
  let '(r, s') := serve_request overflow_checks now (auth_token c) (R_Put (th_id t) None (print_thread t)) s in
  frame (th_id t) (db s) (db s') /\ (db_healthy (db s) -> db_healthy (db s')) /\
  (own (db s) (th_id t) -> undeleted (db s) (th_id t) ->
   own (db s') (th_id t) /\ undeleted (db s') (th_id t) /\
   (forall resp, r = Some resp -> upsert_answer resp = Ok tt -> uploaded (db s') (th_id t) t) /\
   (db_healthy (db s) -> exists resp, r = Some resp /\ upsert_answer resp = Ok tt)).
Proof.
  intros Ha Hdu. unfold serve_request. rewrite Ha, parse_print_thread by done.
  pose proof (wp_upsert_thread now cu None t s) as H. unfold wp in H.
  destruct (upsert_thread now cu (th_id t) None t s) as [r s'].
  destruct H as (Hf & Hr & Hres & Hh). cbn [fst snd] in *.
  set (t1 := with_updated_at (now 0) t) in *. change (th_id t1) with (th_id t) in *.
  assert (durable t1) as Hdu1 by done.
  split_and!; [done|intros H; by apply Hh|]. intros Hown Hund.
  rewrite (own_owner_after _ _ Hown) in *. split_and!.
  - intros row Hrow. destruct Hr as [Hr|(_ & rid & created & o & Ho & Hr)].
    + rewrite Hr in Hrow. by apply Hown.
    + rewrite Hrow in Hr. injection Hr as ->. cbn. split; [|eauto].
      destruct Ho as [->| ->]; [|by right]. by apply own_owner_of.
  - intros row Hrow. destruct Hr as [Hr|(_ & rid & created & o & Ho & Hr)].
    + rewrite Hr in Hrow. by apply Hund.
    + rewrite Hrow in Hr. by injection Hr as ->.
  - intros resp [= <-]. destruct r as [t'|e]; [|by intros ?%error_not_accepted].
    intros _. destruct (Hres _ eq_refl) as (_ & _ & rid & created & Hrow).
    eexists _, (now 0). split; [by apply live_row_Some|done].
  - intros H. destruct (proj2 (Hh H)) as [t' ->]; [by apply own_not_denied|done| |].
    + split_and!; [done|intros e; by apply own_readable| |].
      * change (th_id t1) with (th_id t). unfold live_row, is_live. intros Hl.
        destruct (threads (db s) !! th_id t) as [row|] eqn:Hrow; [|done].
        by rewrite (Hund _ Hrow) in Hl.
      * exists t1. by apply parse_print_thread.
    + eexists. split; [done|done].
Qed.

Lemma serve_delete now id s : authenticate (auth_token c) = Some cu ->
  let '(r, s') := serve_request overflow_checks now (auth_token c) (R_Delete id) s in
  frame id (db s) (db s') /\ (db_healthy (db s) -> db_healthy (db s')) /\
  (own (db s) id ->
   own (db s') id /\
   (forall resp, r = Some resp -> delete_answer resp = Ok tt -> owner_of (db s') id = None) /\
   (db_healthy (db s) -> exists resp, r = Some resp /\ delete_answer resp = Ok tt)).
Proof.
  intros Ha. unfold serve_request. rewrite Ha.
  pose proof (wp_delete_thread now cu id s) as H. unfold wp in H.
  destruct (delete_thread now cu id s) as [r s'].
  destruct H as (Hf & Hr & _ & Hok & Hno & Hh). cbn [fst snd] in *.
  split_and!; [done|intros H; by apply Hh|]. intros Hown. split_and!.
  - intros row Hrow. destruct Hr as [Hr|(row1 & [Hr1 _]%live_row_Some & Hr)]; rewrite Hr in Hrow.
    + by apply Hown.
    + injection Hrow as <-. cbn. by apply Hown.
  - intros resp [= <-]. destruct r as [[]|e]; [by intros _; apply Hok|].
    intros [x ->]%error_not_accepted. destruct (Hno _ eq_refl); [|done].
    by destruct (own_not_denied _ _ Hown).
  - intros H. destruct (Hh H) as (_ & Hme & Hnone).
    destruct (own_owner_of _ _ Hown) as [Ho|Ho]; [rewrite (Hnone Ho)|rewrite (Hme Ho)]; by eexists.
Qed.

(** A request of a job, whatever the network does with it. *)
Lemma transmit_job j w :
  match j with J_Upsert t => durable t | J_Delete _ => True end ->
  let '(r, w') := transmit (auth_token c) (job_request j) w in
  let d := db (server w) in let d' := db (server w') in
  frame (job_id j) d d' /\ (db_healthy d -> db_healthy d') /\
  net w' = net w /\ length (requests w') = S (length (requests w)) /\
  (job_pre j d -> job_pre j d' /\
     (forall resp, r = Ok resp -> job_answer j resp = Ok tt -> job_post j d') /\
     (db_healthy d -> (exists now, net w (length (requests w)) = Delivered now) ->
      exists resp, r = Ok resp /\ job_answer j resp = Ok tt)).
Proof.
  intros Hdu. destruct (transmit_requests (auth_token c) (job_request j) w) as [Hlen Hnet].
  assert (forall now s, let '(r, s') := serve_request overflow_checks now (auth_token c) (job_request j) s in
    frame (job_id j) (db s) (db s') /\ (db_healthy (db s) -> db_healthy (db s')) /\
    (job_pre j (db s) -> job_pre j (db s') /\
     (forall resp, r = Some resp -> job_answer j resp = Ok tt -> job_post j (db s')) /\
     (db_healthy (db s) -> exists resp, r = Some resp /\ job_answer j resp = Ok tt))) as Hserve.
  { intros now s. unfold job_pre. destruct j as [t|id]; cbn [job_request job_id job_answer job_post].
    - pose proof (serve_upsert now t s Hauth Hdu) as H.
      destruct (serve_request _ _ _ _ _) as [r s']. destruct H as (? & ? & H).
      split_and!; [done|done|]. intros (Ho & _ & Hu). destruct (H Ho Hu) as (? & ? & ? & ?). done.
    - pose proof (serve_delete now id s Hauth) as H.
      destruct (serve_request _ _ _ _ _) as [r s']. destruct H as (? & ? & H).
      split_and!; [done|done|]. intros (Ho & _). destruct (H Ho) as (? & ? & ?). done. }
  assert (length (requests (transmit (auth_token c) (job_request j) w).2) =
          S (length (requests w))) as Hl by (rewrite Hlen, length_app; cbn; lia).
  clear Hlen. revert Hnet Hl. unfold transmit.
  destruct (net w (length (requests w))) as [now|now a b e|a b e].
  - specialize (Hserve now (server w)). destruct (serve_request _ _ _ _ _) as [answer s']. cbn.
    destruct Hserve as (Hf & Hh & Hj). intros Hnet Hl. split_and!; [done..|]. intros Hp.
    destruct (Hj Hp) as (Hp' & Hpost & Hok). split_and!; [done| |].
    + intros resp. destruct answer as [resp'|]; [|done]. intros [= <-]. by apply Hpost.
    + intros H _. destruct (Hok H) as (resp & -> & ?). eauto.
  - specialize (Hserve now (server w)). destruct (serve_request _ _ _ _ _) as [answer s']. cbn.
    destruct Hserve as (Hf & Hh & Hj). intros Hnet Hl. split_and!; [done..|]. intros Hp.
    destruct (Hj Hp) as (Hp' & _). split_and!; [done|done|]. by intros _ [? [=]].
  - cbn. intros Hnet Hl. split_and!; [done..|]. intros Hp. split_and!; [done|done|].
    by intros _ [? [=]].
Qed.

(** From here on no request is lost. *)
Definition net_works (w : NetWorld) : Prop := forall n,
  length (requests w) <= n -> exists now, net w n = Delivered now.

(** A job of the client, with its retries. *)
Definition client_job (j : Job) (w : NetWorld) : result ThreadSyncError unit * NetWorld :=
  client_call c (job_id j) (job_request j) (job_answer j) w.

Lemma client_job_spec j w :
  match j with J_Upsert t => durable t | J_Delete _ => True end ->
  let '(r, w') := client_job j w in
  let d := db (server w) in let d' := db (server w') in
  frame (job_id j) d d' /\ (db_healthy d -> db_healthy d') /\ (net_works w -> net_works w') /\
  (job_pre j d -> job_pre j d' /\ (r = Ok tt -> job_post j d') /\
     (db_healthy d -> net_works w -> r = Ok tt)).
Proof.
  intros Hdu. unfold client_job, client_call, thread_url.
  destruct (Hurl (job_id j)) as [u ->].
  set (I := fun w' => frame (job_id j) (db (server w)) (db (server w')) /\
    (db_healthy (db (server w)) -> db_healthy (db (server w'))) /\
    (net_works w -> net_works w') /\
    (job_pre j (db (server w)) -> job_pre j (db (server w')))).
  assert (forall w', I w' -> I (transmit (auth_token c) (job_request j) w').2) as Hstep.
  { intros w' (Hf & Hh & Hn & Hp). pose proof (transmit_job j w' Hdu) as H.
    destruct (transmit (auth_token c) (job_request j) w') as [r w2].
    destruct H as (Hf2 & Hh2 & Hn2 & Hl2 & Hj). split_and!.
    - intros id Hid. cbn. by rewrite Hf2, Hf.
    - cbn. auto.
    - intros H n Hn'. cbn in *. rewrite Hn2. apply (Hn H). lia.
    - intros H. by apply Hj, Hp. }
  destruct (retrying_send_inv c (job_request j) I w Hstep) as (w' & HI & ->).
  { by split_and!. }
  destruct HI as (Hf & Hh & Hn & Hp).
  pose proof (Hstep w' (conj Hf (conj Hh (conj Hn Hp)))) as (Hf2 & Hh2 & Hn2 & Hp2).
  pose proof (transmit_job j w' Hdu) as Hj.
  destruct (transmit (auth_token c) (job_request j) w') as [[resp|e] w2]; cbn in *;
    destruct Hj as (_ & _ & _ & _ & Hj); split_and!; try done.
  - intros Hpre. destruct (Hj (Hp Hpre)) as (Hp' & Hpost & Hok). split_and!; [done|by apply Hpost|].
    intros H1 H2. destruct (Hok (Hh H1)) as (resp' & [= <-] & ?); [|done]. by apply (Hn H2).
  - intros Hpre. destruct (Hj (Hp Hpre)) as (Hp' & Hpost & Hok). split_and!; [done|done|].
    intros H1 H2. destruct (Hok (Hh H1)) as (resp' & [=] & ?). by apply (Hn H2).
Qed.

(** * One call of the store, with its task run to the end *)

(** [n] steps of the first task. *)
Definition settle (now : string) (n : nat) (s : Sys) : Sys := Nat.iter n (run_task st 0 now) s.

Lemma settle_idle now n s : tasks s = [] -> settle now n s = s.
Proof.
  intros Ht. induction n as [|n IH]; [done|].
  change (run_task st 0 now (settle now n s) = s). rewrite IH.
  unfold run_task. by rewrite Ht.
Qed.

Lemma settle_succ now n s : settle now (S n) s = settle now n (run_task st 0 now s).
Proof. unfold settle. by rewrite Nat.iter_succ_r. Qed.

Lemma settle_record now n j outcome s : tasks s = [T_Record j outcome] ->
  settle now (S n) s = set_tasks [] (record_outcome st now j outcome s).
Proof.
  intros Ht. rewrite settle_succ. unfold run_task. rewrite Ht. cbn [lookup list_lookup task_step].
  assert (tasks (record_outcome st now j outcome s) = tasks s) as Htr.
  { unfold record_outcome. destruct (pending_store st); [|done]. by destruct outcome. }
  rewrite Htr, Ht. cbn. by apply settle_idle.
Qed.

(** The task sends as [retry] does. *)
Lemma settle_send now j s fuel failed x w : (exists u, thread_url (job_id j) = Ok u) ->
  tasks s = [T_Send c j failed] ->
  retry_loop (retry_config c) (fun _ w => w) (transmit (auth_token c) (job_request j))
    fuel failed (world s) = Some (x, w) ->
  forall n, fuel < n ->
  settle now n s = set_tasks [] (record_outcome st now j
    (match x with Ok resp => job_answer j resp | Err e => Err e end)
    (set_tasks [] (set_world w s))).
Proof.
  intros [u Hu]. revert s failed. induction fuel as [|fuel IH]; intros s failed Ht; [done|].
  cbn [retry_loop]. intros Hl n Hn. destruct n as [|n]; [lia|]. rewrite settle_succ.
  unfold run_task. rewrite Ht. cbn [lookup list_lookup task_step]. rewrite Hu.
  destruct (transmit (auth_token c) (job_request j) (world s)) as [[resp|e] w1].
  - injection Hl as <- <-. destruct n as [|n]; [lia|].
    rewrite settle_record with (j := j) (outcome := job_answer j resp); cbn; rewrite ?Ht; [|done].
    by destruct (pending_store st) eqn:?; unfold record_outcome; rewrite ?Heqb;
      destruct (job_answer j resp).
  - destruct (is_retryable e); cbn [negb orb] in *;
      [destruct (max_attempts (retry_config c) <=? Z.of_nat (S failed))%Z|].
    2: { set (s1 := set_tasks _ _).
         assert (tasks s1 = [T_Send c j (S failed)]) as Ht1 by (cbn; by rewrite Ht).
         rewrite (IH s1 (S failed) Ht1 Hl n ltac:(lia)). cbn.
         unfold record_outcome. by destruct (pending_store st), x as [resp|]. }
    all: injection Hl as <- <-; destruct n as [|n]; [lia|];
      rewrite settle_record with (j := j) (outcome := Err e); cbn; rewrite ?Ht; [|done];
      unfold record_outcome; by destruct (pending_store st).
Qed.

(** Enough steps for all attempts of a task and its record. *)
Definition task_steps : nat := S (retry_bound (retry_config c)).

Lemma settle_job now j s : tasks s = [T_Send c j 0] ->
  settle now task_steps s =
  let '(r, w) := client_job j (world s) in
  set_tasks [] (record_outcome st now j r (set_tasks [] (set_world w s))).
Proof.
  intros Ht. unfold client_job, client_call, retrying_send.
  assert (exists u, thread_url (job_id j) = Ok u) as [u Hu].
  { unfold thread_url. destruct (Hurl (job_id j)) as [u ->]. by eexists. }
  rewrite Hu.
  destruct (retry_spec (retry_config c) (fun _ w => w)
    (transmit (auth_token c) (job_request j)) (world s)) as (k & _ & Hr & _).
  rewrite Hr.
  destruct (transmit (auth_token c) (job_request j) _) as [x w] eqn:Hx in Hr |- *.
  erewrite (settle_send now j s _ 0 x w); [|by eexists|done|exact Hr|unfold task_steps; lia].
  by destruct x.
Qed.

(** What a user does. *)
Inductive Op := O_Save (t : Thread) | O_Delete (id : ThreadId).

(** The call, and its background task until it ends; [now] is the client's time. *)
Definition run_op (s : Sys) (o : Op * string) : Sys :=
  match o.1 with
  | O_Save t => settle o.2 task_steps (act st (A_Save t) s)
  | O_Delete id => settle o.2 task_steps (act st (A_Delete id) s)
  end.

Definition run_ops (ops : list (Op * string)) (s : Sys) : Sys := fold_left run_op ops s.

(** The threads that are there after the operations. *)
Definition op_effect (m : gmap string Thread) (o : Op * string) : gmap string Thread :=
  match o.1 with
  | O_Save t => <[th_id t := t]> m
  | O_Delete id => delete id m
  end.
Definition current (ops : list (Op * string)) : gmap string Thread := fold_left op_effect ops ∅.

(** The saved threads survive their text, and no thread is saved after it has been
    deleted. *)
Fixpoint orderly (gone : gset string) (ops : list (Op * string)) : Prop :=
  match ops with
  | [] => True
  | (O_Save t, _) :: ops => durable t /\ th_id t ∉ gone /\ orderly gone ops
  | (O_Delete id, _) :: ops => orderly ({[id]} ∪ gone) ops
  end.

(** * The invariant of work with failing requests *)

Section Tracked.
(** The threads that are not private. *)
Context (tracked : string -> Prop).

(** What is known of the server and of the queue about one of them. *)
Definition pursued (m : gmap string Thread) (gone : gset string) (d : Db)
    (q : PendingSyncQueue) (id : string) : Prop :=
  own d id /\
  match m !! id with
  | Some t => th_is_private t = false /\ undeleted d id /\ (id, Delete) ∉ queued q /\
              (uploaded d id t \/ (id, Upsert) ∈ queued q)
  | None => owner_of d id = None \/ (id, Delete) ∈ queued q
  end /\
  (id ∈ gone -> m !! id = None) /\
  (id ∉ gone -> m !! id = None -> threads d !! id = None /\ (id, Delete) ∉ queued q).

(** The files hold the threads. *)
Definition on_disk (m : gmap string Thread) (d : Disk) : Prop :=
  healthy d /\ (forall id, stored d id = print_thread <$> m !! id) /\
  (forall id t, m !! id = Some t -> durable t /\ th_id t = id).

Definition working (m : gmap string Thread) (gone : gset string) (s : Sys) : Prop :=
  on_disk m (local s) /\ healthy (pending s) /\ tasks s = [] /\
  exists q, holds (pending s) q /\
    forall id, tracked id -> pursued m gone (db (server (world s))) q id.

(** Only the row and the queue's entries of [id] matter for it. *)
Lemma pursued_other m m' gone gone' d d' q q' id :
  threads d' !! id = threads d !! id -> m' !! id = m !! id -> (id ∈ gone' <-> id ∈ gone) ->
  (forall op, (id, op) ∈ queued q' <-> (id, op) ∈ queued q) ->
  pursued m gone d q id -> pursued m' gone' d' q' id.
Proof.
  intros Hr Hm Hg Hq. unfold pursued, own, undeleted, uploaded, owner_of, live_row.
  rewrite Hr, Hm, !Hg. by destruct (m !! id); rewrite !Hq.
Qed.

Lemma disk_save m t d : on_disk m d -> durable t ->
  exists d', local_save t d = (Ok tt, d') /\ on_disk (<[th_id t := t]> m) d'.
Proof.
  intros (Hh & Hs & Hm) Hdu. destruct (local_save_atomic t d) as [H Ho].
  destruct (local_save t d) as [[[]|e] d']; cbn in Ho; [|by destruct H].
  exists d'. destruct H as [Hn Hold]. split; [done|]. split_and!.
  - intros n. rewrite Ho. apply Hh.
  - intros id. destruct (decide (id = th_id t)) as [->|Hne].
    + by rewrite Hn, lookup_insert_eq.
    + by rewrite Hold, lookup_insert_ne.
  - intros id t'. destruct (decide (id = th_id t)) as [->|Hne].
    + rewrite lookup_insert_eq. by intros [= <-].
    + rewrite lookup_insert_ne by done. apply Hm.
Qed.

Lemma disk_load m id d : on_disk m d ->
  exists d', local_load id d = (Ok (m !! id), d') /\ on_disk m d'.
Proof.
  intros (Hh & Hs & Hm). destruct (local_load_spec id d) as (Hsame & _ & Hnone & Hsome).
  destruct (local_load id d) as [r d'] eqn:E. cbn in *. exists d'. split.
  - f_equal. destruct (m !! id) as [t|] eqn:Hid.
    + apply Hsome; [done|by apply (Hm id)|]. by rewrite Hs, Hid.
    + apply Hnone. by rewrite Hs, Hid.
  - split_and!; [by eapply same_files_healthy| |done]. intros id'. rewrite <- Hs.
    destruct Hsame as [_ Hf]. apply Hf, not_elem_of_nil.
Qed.

Lemma disk_delete m id d : on_disk m d ->
  match m !! id with
  | Some _ => exists d', local_delete id d = (Ok tt, d') /\ on_disk (delete id m) d'
  | None => exists e, local_delete id d = (Err e, d)
  end.
Proof.
  intros (Hh & Hs & Hm). destruct (m !! id) as [t|] eqn:Hid.
  - destruct (local_delete_spec id d) as [H Ho].
    destruct (local_delete id d) as [[[]|e] d']; cbn in Ho.
    2: { destruct H as [_ H]. specialize (H Hh). by rewrite Hs, Hid in H. }
    exists d'. destruct H as (_ & Hn & Hold). split; [done|]. split_and!.
    + intros n. rewrite Ho. apply Hh.
    + intros id'. destruct (decide (id' = id)) as [->|Hne].
      * by rewrite Hn, lookup_delete_eq.
      * by rewrite Hold, lookup_delete_ne.
    + intros id' t' [_ ?]%lookup_delete_Some. by apply Hm.
  - exists (ST_NotFound id). unfold local_delete, exists_file.
    specialize (Hs id). rewrite Hid in Hs. unfold stored in Hs. by rewrite Hs.
Qed.

(** The queue after the outcome is recorded. *)
Lemma record_spec now j r s q : healthy (pending s) -> holds (pending s) q ->
  let s' := record_outcome st now j r s in
  local s' = local s /\ world s' = world s /\ healthy (pending s') /\
  exists q', holds (pending s') q' /\
    (forall k, k <> (job_id j, job_operation j) -> (k ∈ queued q' <-> k ∈ queued q)) /\
    match r with
    | Ok _ => (job_id j, job_operation j) ∉ queued q'
    | Err _ => (job_id j, job_operation j) ∈ queued q'
    end.
Proof.
  intros Hh Hq. unfold record_outcome. rewrite Hpending. destruct r as [[]|e]; cbn.
  - destruct (remove_pending_spec (job_id j) (job_operation j) (pending s) q Hh Hq)
      as (q' & H1 & H2 & Hk & _). split_and!; [done|done|done|]. exists q'.
    split_and!; [done| |].
    + intros k Hne. rewrite Hk. tauto.
    + rewrite Hk. tauto.
  - match goal with |- context [add_pending ?oc ?n ?i ?o ?e ?d] =>
      destruct (add_pending_spec oc n i o e d q Hh Hq) as (q' & H1 & H2 & Hk & _) end.
    split_and!; [done|done|done|]. exists q'. split_and!; [done| |].
    + intros k Hne. rewrite Hk. tauto.
    + rewrite Hk. by left.
Qed.

(** A job that ends keeps the invariant: it is done or it is queued. *)
Lemma job_working now j s m gone q :
  match j with J_Upsert t => durable t | J_Delete _ => True end ->
  on_disk m (local s) -> healthy (pending s) -> holds (pending s) q ->
  tasks s = [T_Send c j 0] ->
  (forall id, tracked id -> id <> job_id j -> pursued m gone (db (server (world s))) q id) ->
  (tracked (job_id j) -> job_pre j (db (server (world s))) /\
     (forall d q', job_pre j d ->
       (job_post j d /\ (job_id j, job_operation j) ∉ queued q' \/
        (job_id j, job_operation j) ∈ queued q') ->
       (forall k, k <> (job_id j, job_operation j) -> (k ∈ queued q' <-> k ∈ queued q)) ->
       pursued m gone d q' (job_id j))) ->
  working m gone (settle now task_steps s).
Proof.
  intros Hdu Hdisk Hh Hq Ht Hother Hown. rewrite (settle_job now j s Ht).
  pose proof (client_job_spec j (world s) Hdu) as Hjob.
  destruct (client_job j (world s)) as [r w]. destruct Hjob as (Hf & _ & _ & Hjob).
  destruct (record_spec now j r (set_tasks [] (set_world w s)) q Hh Hq)
    as (Hl & Hw & Hh' & q' & Hq' & Hk & Hres).
  split_and!; [|done|done|].
  - cbn. by rewrite Hl.
  - exists q'. split; [done|]. cbn. rewrite Hw. cbn. intros id Hid.
    destruct (decide (id = job_id j)) as [->|Hne].
    + destruct (Hown Hid) as [Hpre Hdone]. destruct (Hjob Hpre) as (Hpre' & Hpost & _).
      apply Hdone; [done| |done]. destruct r as [[]|e]; [left|by right]. auto.
    + apply (pursued_other m m gone gone (db (server (world s))) _ q); [by apply Hf|done|done| |auto].
      intros op. apply Hk. congruence.
Qed.

Lemma save_working m gone s t now : working m gone s -> durable t -> th_id t ∉ gone ->
  (tracked (th_id t) -> th_is_private t = false) ->
  working (<[th_id t := t]> m) gone (run_op s (O_Save t, now)).
Proof.
  intros (Hdisk & Hh & Ht & q & Hq & Hp) Hdu Hg Hpub.
  destruct (disk_save m t (local s) Hdisk Hdu) as (d & Hsave & Hdisk').
  assert (forall id, tracked id -> id <> th_id t ->
    pursued (<[th_id t := t]> m) gone (db (server (world s))) q id) as Hother.
  { intros id Hid Hne. apply (pursued_other m _ gone _ (db (server (world s))) _ q); [done| |done|done|auto].
    by rewrite lookup_insert_ne. }
  unfold run_op, act, store_save. cbn [fst snd]. rewrite Hsave.
  destruct (th_is_private t) eqn:Hpr.
  - rewrite settle_idle by done. split_and!; [done|done|done|]. exists q. split; [done|].
    intros id Hid. apply Hother; [done|]. intros ->. by specialize (Hpub Hid).
  - unfold spawn_job. rewrite Hclient. cbn [snd].
    apply (job_working now (J_Upsert t) _ _ _ q); [done|done|done|done| |done|].
    + cbn. by rewrite Ht.
    + cbn [job_id job_operation]. intros Hid. destruct (Hp _ Hid) as (Hown & Hm & _ & Hfresh).
      assert (undeleted (db (server (world s))) (th_id t) /\ (th_id t, Delete) ∉ queued q) as [Hu Hnd].
      { destruct (m !! th_id t) as [t0|] eqn:E; [tauto|].
        destruct (Hfresh Hg eq_refl) as [Hrow ?]. split; [|done]. intros row. by rewrite Hrow. }
      split; [done|]. intros d' q' (Hown' & _ & Hu') Hpost Hk. split_and!; [done| | |].
      * rewrite lookup_insert_eq. split_and!; [auto|done|by rewrite Hk|tauto].
      * by intros ?.
      * by rewrite lookup_insert_eq.
Qed.

Lemma delete_working m gone s id now : working m gone s ->
  working (delete id m) ({[id]} ∪ gone) (run_op s (O_Delete id, now)).
Proof.
  intros (Hdisk & Hh & Ht & q & Hq & Hp).
  destruct (disk_load m id (local s) Hdisk) as (d1 & Hload & Hdisk1).
  pose proof (disk_delete m id d1 Hdisk1) as Hdel.
  assert (forall id', tracked id' -> id' <> id ->
    pursued (delete id m) ({[id]} ∪ gone) (db (server (world s))) q id') as Hother.
  { intros id' Hid Hne.
    apply (pursued_other m _ gone _ (db (server (world s))) _ q); [done| |set_solver|done|auto].
    by rewrite lookup_delete_ne. }
  unfold run_op, act, store_delete, store_load. cbn [fst snd]. rewrite Hload. cbn [local set_local].
  destruct (m !! id) as [t|] eqn:Hid.
  - destruct Hdel as (d2 & -> & Hdisk2). destruct (th_is_private t) eqn:Hpr.
    + rewrite settle_idle by done. split_and!; [done|done|done|]. exists q. split; [done|].
      intros id' Hid'. apply Hother; [done|]. intros ->. destruct (Hp _ Hid') as (_ & H & _).
      rewrite Hid in H. destruct H as [H _]. congruence.
    + unfold spawn_job. rewrite Hclient. cbn [snd].
      apply (job_working now (J_Delete id) _ _ _ q); [done|done|done|done| |done|].
      * cbn. by rewrite Ht.
      * cbn [job_id job_operation]. intros Hid'. destruct (Hp _ Hid') as (Hown & _).
        split; [done|]. intros d' q' (Hown' & _) Hpost _. unfold pursued.
        rewrite lookup_delete_eq. split_and!; [done|tauto|done|]. set_solver.
  - destruct Hdel as (e & ->). cbn [snd]. rewrite settle_idle by done.
    rewrite delete_id by done. split_and!; [done|done|done|]. exists q. split; [done|].
    intros id' Hid'. destruct (decide (id' = id)) as [->|Hne].
    + destruct (Hp _ Hid') as (? & Hm & ? & _). split_and!; [done|done|done|]. set_solver.
    + specialize (Hother _ Hid' Hne). by rewrite delete_id in Hother.
Qed.

Lemma ops_working ops m gone s : working m gone s -> orderly gone ops ->
  Forall (fun o => match o.1 with
                   | O_Save t => tracked (th_id t) -> th_is_private t = false
                   | O_Delete _ => True
                   end) ops ->
  exists gone', working (fold_left op_effect ops m) gone' (run_ops ops s).
Proof.
  revert m gone s. induction ops as [|[[t|id] now] ops IH]; intros m gone s Hw Ho Hp; [by exists gone|..];
    apply Forall_cons in Hp as [Hp Hps]; cbn in *.
  - destruct Ho as (Hdu & Hg & Ho). eapply IH; [|exact Ho|done]. by apply save_working.
  - eapply IH; [|exact Ho|done]. by apply delete_working.
Qed.

(** * The retry *)

(** The network and the database work. *)
Definition ready (m : gmap string Thread) (s : Sys) : Prop :=
  on_disk m (local s) /\ db_healthy (db (server (world s))) /\ net_works (world s) /\
  forall id, tracked id -> own (db (server (world s))) id /\
    (is_Some (m !! id) -> undeleted (db (server (world s))) id).

(** The server agrees with the client about the thread. *)
Definition agreed (m : gmap string Thread) (d : Db) (id : string) : Prop :=
  match m !! id with
  | Some t => uploaded d id t
  | None => owner_of d id = None
  end.

Lemma agreed_frame m d d' id : threads d' !! id = threads d !! id ->
  agreed m d id -> agreed m d' id.
Proof. intros H. unfold agreed, uploaded, owner_of, live_row. by rewrite H. Qed.

Lemma job_ready m s j : ready m s ->
  match j with J_Upsert t => durable t | J_Delete _ => True end ->
  (tracked (job_id j) -> job_pre j (db (server (world s))) /\
     forall d, job_post j d -> agreed m d (job_id j)) ->
  let '(r, w) := client_job j (world s) in
  ready m (set_world w s) /\
  (forall id, tracked id -> id = job_id j \/ agreed m (db (server (world s))) id ->
     agreed m (db (server w)) id).
Proof.
  intros (Hdisk & Hh & Hn & Hrows) Hdu Hj. pose proof (client_job_spec j (world s) Hdu) as H.
  destruct (client_job j (world s)) as [r w]. destruct H as (Hf & Hh' & Hn' & Hjob).
  assert (tracked (job_id j) -> own (db (server w)) (job_id j) /\
    (is_Some (m !! job_id j) -> undeleted (db (server w)) (job_id j)) /\
    agreed m (db (server w)) (job_id j)) as Hid.
  { intros Hid. destruct (Hj Hid) as [Hpre Hpost]. destruct (Hjob Hpre) as (Hpre' & Hok & Hr).
    specialize (Hpost _ (Hok (Hr Hh Hn))). split_and!; [apply Hpre'| |done].
    intros [t Ht] row Hrow. unfold agreed in Hpost. rewrite Ht in Hpost.
    destruct Hpost as (row' & now & [Hl Hd]%live_row_Some & _). congruence. }
  split; [split_and!; [done|by apply Hh'|by apply Hn'|]|].
  - intros id Ht. cbn. destruct (decide (id = job_id j)) as [->|Hne]; [by destruct (Hid Ht) as (? & ? & _)|].
    unfold own, undeleted. rewrite Hf by done. by apply Hrows.
  - intros id Ht Ha. destruct (decide (id = job_id j)) as [->|Hne]; [by apply Hid|].
    destruct Ha as [?|Ha]; [done|]. eapply agreed_frame; [|done]. by apply Hf.
Qed.

(** The operation that brings the server to agree. *)
Definition needed (m : gmap string Thread) (id : string) : SyncOperation :=
  match m !! id with Some _ => Upsert | None => Delete end.

Lemma set_pending_ready m d s : ready m s -> ready m (set_pending d s).
Proof. done. Qed.

Lemma retry_entry_agrees m s e : ready m s ->
  (tracked (pe_thread_id e) -> pe_operation e = Delete -> m !! pe_thread_id e = None) ->
  exists b s', retry_entry c e s = (Ok b, s') /\ ready m s' /\
    forall id, tracked id -> entry_key e = (id, needed m id) \/ agreed m (db (server (world s))) id ->
      agreed m (db (server (world s'))) id.
Proof.
  intros Hr Hdel. unfold retry_entry, entry_key, needed.
  destruct (pe_operation e) eqn:Hop.
  - unfold store_load. pose proof Hr as (Hdisk & Hh & Hn & Hrows).
    destruct (disk_load m (pe_thread_id e) (local s) Hdisk) as (d1 & -> & Hdisk1).
    set (s1 := set_local d1 s). assert (ready m s1) as Hr1 by done.
    destruct (m !! pe_thread_id e) as [t|] eqn:Hm.
    2: { eexists _, _. split; [done|]. split; [done|]. intros id Hid [H|H]; [|done].
         injection H as <-. rewrite Hm in *. done. }
    destruct Hdisk as (_ & _ & Hmm). destruct (Hmm _ _ Hm) as [Hdu Hid].
    pose proof (job_ready m s1 (J_Upsert t) Hr1 Hdu) as Hj.
    change (client_job (J_Upsert t)) with (client_upsert_thread c t) in Hj.
    destruct (client_upsert_thread c t (world s1)) as [r w]. cbn [job_id] in Hj. rewrite Hid in Hj.
    destruct Hj as [Hr2 Hag].
    { intros Ht. destruct (Hrows _ Ht) as [Hown Hund]. split.
      - split; cbn; rewrite Hid; [done|split; [done|by apply Hund]].
      - intros d. unfold agreed, job_post. by rewrite Hm, Hid. }
    destruct r as [[]|err]; eexists _, _; (split; [done|]); (split; [done|]);
      intros id Ht H; apply Hag; try done; (destruct H as [H|]; [left; congruence|by right]).
  - pose proof (job_ready m s (J_Delete (pe_thread_id e)) Hr I) as Hj.
    change (client_job (J_Delete (pe_thread_id e))) with (client_delete_thread c (pe_thread_id e)) in Hj.
    destruct (client_delete_thread c (pe_thread_id e) (world s)) as [r w]. cbn [job_id] in Hj.
    destruct Hj as [Hr2 Hag].
    { intros Ht. destruct Hr as (_ & _ & _ & Hrows). destruct (Hrows _ Ht) as [Hown _].
      split; [done|]. intros d. unfold agreed, job_post. by rewrite (Hdel Ht eq_refl). }
    destruct r as [[]|err]; eexists _, _; (split; [done|]); (split; [done|]);
      intros id Ht H; apply Hag; try done; (destruct H as [H|]; [left; congruence|by right]).
Qed.

Lemma retry_entries_agree m es n s : ready m s ->
  Forall (fun e => tracked (pe_thread_id e) -> pe_operation e = Delete -> m !! pe_thread_id e = None) es ->
  exists n' s', retry_entries c es n s = (Ok n', s') /\ ready m s' /\
    forall id, tracked id -> (id, needed m id) ∈ entry_key <$> es \/ agreed m (db (server (world s))) id ->
      agreed m (db (server (world s'))) id.
Proof.
  intros Hr Hes. revert n s Hr. induction Hes as [|e es He _ IH]; intros n s Hr; cbn [retry_entries].
  { eexists _, _. split; [done|]. split; [done|]. intros id Hid [H|H]; [|done].
    by apply not_elem_of_nil in H. }
  destruct (retry_entry_agrees m s e Hr He) as (b & s1 & -> & Hr1 & Hag1).
  destruct (IH (if b then S n else n) s1 Hr1) as (n' & s' & -> & Hr' & Hag').
  eexists _, _. split; [done|]. split; [done|]. intros id Hid H. apply Hag'; [done|].
  destruct H as [[H|H]%elem_of_cons|H]; [right; apply Hag1; auto|by left|right; apply Hag1; auto].
Qed.

End Tracked.
(** * The theorem *)

(** Nothing is stored, queued or running. *)
Definition fresh (s : Sys) : Prop :=
  healthy (local s) /\ (forall id, stored (local s) id = None) /\
  healthy (pending s) /\ files (pending s) !! pending_path = None /\ tasks s = [].

(** A thread of this client's that is not private: the server does not know its id
    beforehand. *)
Definition shared_thread (s : Sys) (ops : list (Op * string)) (id : string) : Prop :=
  threads (db (server (world s))) !! id = None /\
  Forall (fun o => match o.1 with
                   | O_Save t => th_id t = id -> th_is_private t = false
                   | O_Delete _ => True
                   end) ops.

Lemma fresh_working ops s : fresh s -> working (shared_thread s ops) ∅ ∅ s.
Proof.
  intros (Hh & Hs & Hp & Hf & Ht). split_and!; [|done|done|].
  - split_and!; [done|intros id; by rewrite Hs, lookup_empty|].
    intros id t. by rewrite lookup_empty.
  - exists PendingSyncQueue_new. split; [unfold holds; by rewrite Hf|].
    intros id [Hrow _]. unfold pursued, own, owner_of, live_row. rewrite Hrow, lookup_empty.
    split_and!; [done|by left|done|]. intros _ _. split; [done|]. apply not_elem_of_nil.
Qed.

(** C26. From a client with working disks, no stored threads and an empty queue: however many
    requests or answers are lost and however many statements of the server's database fail
    while threads are saved and deleted one call after the other, the background task of
    each ending before the next call, and no deleted thread being saved again, one
    [retry_pending] with a working network and database succeeds and brings the server up
    to date: the user reads from it the last saved version of every thread that is never
    private and whose id was new to the server (but for the time of the update), and no
    thread that was deleted. *)
Theorem offline_work_converges ops s :
  fresh s -> orderly ∅ ops ->
  net_works (world (run_ops ops s)) ->
  db_healthy (db (server (world (run_ops ops s)))) ->
  exists n s', retry_pending st (run_ops ops s) = (Ok n, s') /\
    forall id, shared_thread s ops id ->
      match current ops !! id with
      | Some t => exists now,
          (get_thread cu id (server (world s'))).1 = Ok (with_updated_at now t)
      | None => (get_thread cu id (server (world s'))).1 = Err (SV_NotFound id)
      end.
Proof.
  intros Hf Ho Hn Hd.
  destruct (ops_working (shared_thread s ops) ops ∅ ∅ s) as (gone & Hw);
    [by apply fresh_working|done| |].
  { apply Forall_forall. intros [[t|id] now] Hin; [|done]. intros [_ Hp]. cbn in *.
    rewrite Forall_forall in Hp. by apply (Hp _ Hin). }
  fold (current ops) in Hw. set (s1 := run_ops ops s) in *. set (m := current ops) in *.
  destruct Hw as (Hdisk & Hh & _ & q & Hq & Hp). unfold retry_pending.
  rewrite Hclient, Hpending.
  destruct (pending_load_spec (pending s1)) as (_ & _ & Hl). specialize (Hl Hh q Hq).
  destruct (pending_load (pending s1)) as [r d]. cbn in Hl. subst r.
  destruct (retry_entries_agree (shared_thread s ops) m (entries q) 0 (set_pending d s1))
    as (n & s' & -> & Hr & Hag).
  - split_and!; [done|done|done|]. intros id Hid. destruct (Hp id Hid) as (Hown & Hm & _).
    split; [done|]. intros [t Ht]. rewrite Ht in Hm. tauto.
  - apply Forall_forall. intros e He Ht Hop. destruct (Hp _ Ht) as (_ & Hm & _).
    destruct (m !! pe_thread_id e) as [t|]; [|done]. destruct Hm as (_ & _ & [] & _).
    unfold queued. apply list_elem_of_fmap. exists e. unfold entry_key. by rewrite Hop.
  - exists n, s'. split; [done|]. intros id Hid.
    assert (agreed m (db (server (world s'))) id) as Ha.
    { apply Hag; [done|]. destruct (Hp id Hid) as (_ & Hm & _). unfold agreed, needed, queued in *.
      destruct (m !! id) as [t|]; tauto. }
    destruct Hr as (Hdisk' & Hd' & _). pose proof (wp_get_thread cu id (server (world s'))) as Hg.
    unfold wp in Hg. destruct Hg as (_ & _ & Hg). destruct (Hg Hd') as (_ & Hme & Hno).
    unfold agreed in Ha. destruct (m !! id) as [t|] eqn:Hm; [|by apply Hno].
    destruct Ha as (row & now & Hrow & Hown & Hdoc). exists now. apply Hme.
    + unfold owner_of. by rewrite Hrow.
    + unfold read_doc. rewrite Hrow. cbn. rewrite Hdoc. f_equal. apply parse_print_thread.
      apply durable_set_times. destruct Hdisk' as (_ & _ & Hmm). by destruct (Hmm _ _ Hm).
Qed.

End Convergence.
