(* ===== verification/ThreadCases.v ===== *)
(** Threads on concrete inputs: an instance of the other packages' code, the
    theorems of ThreadServer, ThreadSyncProofs and ThreadConvergence applied to it,
    and runs in which threads do not behave as documented. *)
From stdpp Require Import base gmap list strings pretty.
From Stdlib Require Import ZArith Lia Ascii.
From S2P Require Import Prelude Text CoreTypes Abac AuthContext LlmClients.
From S2P Require Import Effects ThreadModel ThreadStore ThreadServer ThreadSync ThreadSyncProofs.
From S2P Require Import ThreadConvergence.

(** * An instance *)

Definition demo_serde : SerdeJson := {| Json := unit; json_to_string _ := Some "null" |}.

Definition demo_null : JsonNull.
Proof.
  refine {| jn_json := demo_serde; json_null := tt; is_null _ := true; object_len _ := None |}.
  by intros [].
Defined.

(** Texts are what they were printed from. *)
Inductive DemoText :=
| X_Thread (t : @Thread demo_null)
| X_Queue (q : PendingSyncQueue)
| X_Tags (l : list string)
| X_Other.

Definition demo_json : ThreadJson :=
  {| tj_null := demo_null; text := DemoText; json_exact _ := True |}.

Definition demo_texts : ThreadTexts.
Proof.
  refine {| tt_json := demo_json;
    print_thread := X_Thread;
    parse_thread x := match x with X_Thread t => Ok t | _ => Err "expected a thread" end;
    print_queue := X_Queue;
    parse_queue x := match x with X_Queue q => Ok q | _ => Err "expected a queue" end |}.
  - done.
  - by intros t t' [= <-].
  - done.
Defined.

Definition demo_server : ServerTexts.
Proof.
  refine {| st_texts := demo_texts;
    print_tags := X_Tags;
    parse_tags x := match x with X_Tags l => Ok l | _ => Err "expected tags" end;
    print_agent_state _ := X_Other; print_conversation _ := X_Other; print_metadata _ := X_Other;
    print_error := er_message |}.
  done.
Defined.

Definition demo_user (n : N) : CurrentUser :=
  from_access_token (mkUser n "user" None None None false false false false 0 0 None None).
Definition alice : CurrentUser := demo_user 1.
Definition bob : CurrentUser := demo_user 2.

Definition demo_authenticate (token : option string) : option CurrentUser :=
  match token with
  | Some s => if String.eqb s "alice" then Some alice
              else if String.eqb s "bob" then Some bob else None
  | None => None
  end.

Definition demo_backend : Backend.
Proof.
  refine {| be_texts := demo_server; order_by_activity l := l; order_by_score l := l;
    uuid_to_string n := if (n =? 1)%N then "1" else if (n =? 2)%N then "2" else "0";
    authenticate := demo_authenticate; json_rejection _ := 422%Z |}; done.
Defined.

#[local] Instance demo_deployment : Deployment :=
  {| dp_backend := demo_backend; url_join s := Ok s; status_text _ := "status";
     overflow_checks := true |}.

Definition demo_clock : nat -> string := fun _ => "2025-01-01T00:00:00Z".

Definition demo_thread (uuid title : string) (private : bool) (activity : string) : Thread :=
  mkThread (ThreadId_new uuid) 1 "c" "u" activity None None None None None None None None None None
    [] None None (mkConversationSnapshot []) (mkAgentStateSnapshot K_WaitingForUserInput 0 None [])
    (mkThreadMetadata (Some title) [] false tt) Organization private false.

Lemma demo_durable uuid title private activity : durable (demo_thread uuid title private activity).
Proof. split_and!; [by constructor|done|]. by cbn. Qed.

Definition empty_disk : Disk := mkDisk false ∅ (fun _ => Io_Ok) 0.
Definition empty_server : AppState := mkAppState (mkDb ∅ [] [] []) [].

(** The first [n] requests are lost. *)
Definition lossy (n : nat) : nat -> Delivery := fun k =>
  if k <? n then Lost false false "network unreachable" else Delivered demo_clock.

Definition demo_start (net : nat -> Delivery) : Sys :=
  mkSys empty_disk empty_disk (mkNetWorld empty_server net []) [] [].

Definition demo_client : ThreadSyncClient := sync_with_auth_token "alice" ThreadSyncClient_new.
Definition demo_store : SyncingThreadStore := with_pending_store (with_sync demo_client).

(** What the server has for an id, and what is queued. *)
Definition on_server (s : Sys) (id : string) : option (option string) :=
  match threads (db (server (world s))) !! id with
  | Some row => Some (r_title row)
  | None => None
  end.
Definition queue_of (s : Sys) : list (ThreadId * SyncOperation) :=
  match (pending_load (pending s)).1 with Ok q => queued q | Err _ => [] end.

(** * The theorems applied *)

Definition alice_thread : Thread := demo_thread "a" "plan" false "5".

Definition alice_server : AppState :=
  (upsert_thread demo_clock alice (th_id alice_thread) None alice_thread empty_server).2.

Definition alice_row : ThreadRow :=
  row_of (with_updated_at (demo_clock 0) alice_thread) None "c" (Some "1") None.

Lemma alice_rows : threads (db alice_server) = <["T-a" := alice_row]> ∅.
Proof. vm_compute. reflexivity. Qed.

Definition bob_calls : list Call :=
  [mkCall demo_clock (Some "bob") (R_Get "T-a");
   mkCall demo_clock (Some "bob") (R_Delete "T-a");
   mkCall demo_clock (Some "bob") (R_Put "T-a" None (X_Thread (demo_thread "a" "stolen" false "6")));
   mkCall demo_clock (Some "bob") (R_Visibility "T-a" None Public);
   mkCall demo_clock (Some "bob") (R_Search (fun _ _ => Some score_one) "plan" None 50 0);
   mkCall demo_clock (Some "bob") (R_Search (fun _ _ => None) "deadbeef" None 50 0);
   mkCall demo_clock (Some "bob") (R_List None 50 0);
   mkCall demo_clock None (R_List None 50 0)].

Lemma foreign_requests_harmless_witness :
  threads (db (serve_requests true bob_calls alice_server).2) !! "T-a" = Some alice_row /\
  Forall (fun r => match r with Some r => ~ reveals "T-a" r | None => True end)
    (serve_requests true bob_calls alice_server).1.
Proof.
  apply (foreign_requests_harmless true bob_calls alice_server "T-a" alice_row "1").
  - unfold table_ok. rewrite alice_rows. apply map_Forall_insert_2; [|apply map_Forall_empty].
    split; [reflexivity|]. by intros t [= <-].
  - apply live_row_Some. rewrite alice_rows. split; [apply lookup_insert_eq|reflexivity].
  - reflexivity.
  - repeat constructor; cbn; done.
Defined.

Definition diary : Thread := demo_thread "d" "diary" true "7".

Definition busy_actions : list StoreAction :=
  [A_Save diary; A_Save alice_thread; A_Task 0 "1"; A_Task 0 "1"; A_Retry; A_RetryEntry;
   A_SaveAndSync diary; A_Delete (th_id diary)].

Lemma private_threads_stay_local_witness :
  Forall (fun r => request_id r.2 <> Some (th_id diary))
    (requests (world (acts demo_store busy_actions (demo_start (lossy 1))))).
Proof.
  apply (private_threads_stay_local demo_store busy_actions (demo_start (lossy 1)) (th_id diary)).
  - split_and!; [done| |by constructor..]. exists PendingSyncQueue_new. split; [done|].
    intros k Hk. by apply not_elem_of_nil in Hk.
  - repeat constructor; cbn; try done; intros _; split; try done; apply demo_durable.
Defined.

Definition offline_ops : list (Op * string) :=
  [(O_Save alice_thread, "1"); (O_Save (demo_thread "b" "idea" false "6"), "2");
   (O_Save (demo_thread "a" "plan, revised" false "8"), "3"); (O_Delete "T-b", "4")].

Lemma offline_work_converges_witness :
  exists n s', retry_pending demo_store
      (run_ops demo_store demo_client offline_ops (demo_start (lossy 3))) = (Ok n, s') /\
    forall id, shared_thread (demo_start (lossy 3)) offline_ops id ->
      match current offline_ops !! id with
      | Some t => exists now,
          (get_thread alice id (server (world s'))).1 = Ok (with_updated_at now t)
      | None => (get_thread alice id (server (world s'))).1 = Err (SV_NotFound id)
      end.
Proof.
  apply (offline_work_converges demo_store demo_client alice); try reflexivity.
  - intros id. by eexists.
  - split_and!; done.
  - cbn [orderly offline_ops]. split_and!; first [exact I|apply demo_durable|apply not_elem_of_empty].
  - intros n Hn. exists demo_clock.
    change (lossy 3 n = Delivered demo_clock). vm_compute in Hn. unfold lossy.
    by rewrite (proj2 (Nat.ltb_ge n 3)) by lia.
Defined.

(** * Behaviour that is not as documented *)

Definition revised : Thread := demo_thread "a" "plan, revised" false "8".
Definition hidden : Thread := demo_thread "a" "now private" true "9".

(** Two saves whose tasks run in the other order: the server keeps the older
    version, and nothing is queued that would repair it. *)
Example late_upload_wins :
  let s := acts demo_store
    [A_Save alice_thread; A_Save revised; A_Task 1 "1"; A_Task 1 "1"; A_Task 0 "1"; A_Task 0 "1"]
    (demo_start (lossy 0)) in
  on_server s "T-a" = Some (Some "plan") /\ queue_of s = [] /\
  (local_load "T-a" (local s)).1 = Ok (Some revised).
Proof. vm_compute. auto. Qed.

(** A thread that becomes private while an upload of it is queued is uploaded, as
    private thread, by the retry. *)
Example retry_uploads_private :
  let s := acts demo_store
    [A_Save alice_thread; A_Task 0 "1"; A_Task 0 "1"; A_Save hidden; A_Retry; A_RetryEntry]
    (demo_start (lossy 1)) in
  on_server s "T-a" = Some (Some "now private").
Proof. vm_compute. reflexivity. Qed.

(** A version conflict is answered with 500, where the route documents 409. *)
Example conflict_answered_500 :
  let r := serve_request true demo_clock (Some "alice")
    (R_Put "T-a" (Some "7") (X_Thread revised)) alice_server in
  match r.1 with Some resp => rs_status resp = 500%Z | None => False end.
Proof. vm_compute. reflexivity. Qed.

(** A deleted thread cannot be stored again: the insertion meets the deleted row. *)
Example deleted_thread_cannot_return :
  let s := (delete_thread demo_clock alice "T-a" alice_server).2 in
  match (serve_request true demo_clock (Some "alice") (R_Put "T-a" None (X_Thread revised)) s).1 with
  | Some resp => rs_status resp = 500%Z
  | None => False
  end.
Proof. vm_compute. reflexivity. Qed.

(** The queued upload of a thread that has been deleted stays in the queue for
    ever: no retry can take it out. *)
Example orphan_upload_stays :
  let s := acts demo_store
    [A_Save alice_thread; A_Task 0 "1"; A_Task 0 "1"; A_Delete "T-a"; A_Task 0 "1"; A_Task 0 "1";
     A_Retry; A_RetryEntry] (demo_start (lossy 1)) in
  on_server s "T-a" = None /\ queue_of s = [("T-a", Upsert)].
Proof. vm_compute. auto. Qed.

(** The store the command line builds, [with_sync] alone, forgets what has failed:
    nothing is queued, and [retry_pending] does nothing. *)
Example cli_forgets_failures :
  let st := with_sync demo_client in
  let s := acts st [A_Save alice_thread; A_Task 0 "1"; A_Task 0 "1"] (demo_start (lossy 1)) in
  on_server s "T-a" = None /\ queue_of s = [] /\ (retry_pending st s).1 = Ok 0.
Proof. vm_compute. auto. Qed.

(** The list is cut to the limit before it is sorted: with a limit of 1 it has the
    first file of the directory, not the most recent thread. *)
Example list_cut_before_sorting :
  let d := (local_save revised (local_save (demo_thread "b" "older" false "1") empty_disk).2).2 in
  match (local_list ["T-b.json"; "T-a.json"] 1 d).1 with
  | Ok [s] => sm_title s = Some "older"
  | _ => False
  end.
Proof. vm_compute. reflexivity. Qed.

(** * Searching *)

(** The owner finds the thread, whichever way the query is read. *)
Example owner_finds_thread :
  let found q :=
    match (serve_request true demo_clock (Some "alice")
             (R_Search (fun _ _ => Some score_one) q None 50 0) alice_server).1 with
    | Some (mkThreadResponse 200 (B_Search l)) => (fun h => sm_id (hit_summary h)) <$> sr_hits l
    | _ => []
    end in
  found " plan " = ["T-a"] /\ found "deadbeef" = [] /\ found "  " = [].
Proof. vm_compute. auto. Qed.

(** The row ids of [threads] and of [thread_fts] with the thread of each: SQLite
    gives a new row the next number, and the triggers of 005_thread_fts.sql put the
    text of an updated thread in a new row of the index. *)
Record Rowids := mkRowids { thread_rows : list (Z * string); fts_rows : list (Z * string) }.

Definition next_rowid (rows : list (Z * string)) : Z := (1 + foldr Z.max 0 (rows.*1))%Z.
Definition numbered (id : string) (rows : list (Z * string)) : list (Z * string) :=
  rows ++ [(next_rowid rows, id)].

Definition thread_fts_ai (id : string) (r : Rowids) : Rowids :=
  mkRowids (numbered id (thread_rows r)) (numbered id (fts_rows r)).
Definition thread_fts_au (id : string) (r : Rowids) : Rowids :=
  mkRowids (thread_rows r)
    (numbered id (List.filter (fun x => negb (String.eqb x.2 id)) (fts_rows r))).

(** The thread whose text [search_fts_for_owner] compares with the query for the
    thread [id]: the one in the row of the index with the same row id. *)
Definition searched_text (r : Rowids) (id : string) : option string :=
  x ← List.find (fun x => String.eqb x.2 id) (thread_rows r);
  snd <$> List.find (fun y => (y.1 =? x.1)%Z) (fts_rows r).

(** Once a thread has been updated that is not the latest, its owner no longer finds
    it, and the next thread that anybody stores is found by the text of that one. *)
Example search_index_drifts :
  let r := thread_fts_au "a" (thread_fts_ai "b" (thread_fts_ai "a" (mkRowids [] []))) in
  searched_text r "a" = None /\
  searched_text (thread_fts_ai "c" r) "c" = Some "a".
Proof. vm_compute. auto. Qed.
