(* ===== verification/CrashModel.v ===== *)
(** Crash reports, the data of [crates/loom-crash-core]: stack traces, events, issues,
    projects, releases, symbol artifacts and keys, with the texts of their enumerations
    and the fingerprint by which events are grouped into issues.

    An identifier ([ProjectId], [IssueId], ...) is its UUID; a time is a number of
    nanoseconds. *)
From stdpp Require Import base gmap list strings.
From Stdlib Require Import ZArith Lia Ascii.
From S2P Require Import Prelude Text CoreTypes.

Notation Time := Z (only parsing).

Section CrashModel.
Context `{SJ : SerdeJson}.

(** * context.rs *)

Record Runtime := mkRuntime { rt_name : string; rt_version : option string }.

Record UserContext := mkUserContext {
  uc_id : option string;
  uc_email : option string;
  uc_username : option string;
  uc_ip_address : option string;
}.

Record DeviceContext := mkDeviceContext {
  dc_name : option string;
  dc_family : option string;
  dc_model : option string;
  dc_arch : option string;
}.

Record BrowserContext := mkBrowserContext { bc_name : option string; bc_version : option string }.
Record OsContext := mkOsContext { oc_name : option string; oc_version : option string }.

Record RequestContext := mkRequestContext {
  rc_url : option string;
  rc_method : option string;
  rc_headers : gmap string string;
  rc_query_string : option string;
}.

(** * event.rs and breadcrumb.rs *)

Inductive BreadcrumbLevel := BL_Debug | BL_Info | BL_Warning | BL_Error.

Definition BreadcrumbLevel_to_string (l : BreadcrumbLevel) : string :=
  match l with
  | BL_Debug => "debug" | BL_Info => "info" | BL_Warning => "warning" | BL_Error => "error"
  end.

(** [FromStr]; the error holds the text. *)
Definition BreadcrumbLevel_from_str (s : string) : option BreadcrumbLevel :=
  if String.eqb s "debug" then Some BL_Debug
  else if String.eqb s "info" then Some BL_Info
  else if String.eqb s "warning" then Some BL_Warning
  else if String.eqb s "error" then Some BL_Error
  else None.

Record Breadcrumb := mkBreadcrumb {
  bc_timestamp : Time;
  bc_category : string;
  bc_message : option string;
  bc_level : BreadcrumbLevel;
  bc_data : Json;
}.

Inductive Platform := JavaScript | Node | Rust.

Definition Platform_to_string (p : Platform) : string :=
  match p with JavaScript => "javascript" | Node => "node" | Rust => "rust" end.

Definition Platform_from_str (s : string) : option Platform :=
  if String.eqb s "javascript" then Some JavaScript
  else if String.eqb s "node" then Some Node
  else if String.eqb s "rust" then Some Rust
  else None.

Record Frame := mkFrame {
  f_function : option string;
  f_module : option string;
  f_filename : option string;
  f_abs_path : option string;
  f_lineno : option Z;
  f_colno : option Z;
  f_context_line : option string;
  f_pre_context : list string;
  f_post_context : list string;
  f_in_app : bool;
  f_instruction_addr : option string;
  f_symbol_addr : option string;
}.

#[export] Instance Frame_eq_dec : EqDecision Frame.
Proof. solve_decision. Defined.

(** [Stacktrace] has one field, its frames. *)
Record Stacktrace := mkStacktrace { frames : list Frame }.

Record CrashEvent := mkCrashEvent {
  ev_id : Uuid;
  ev_org_id : Uuid;
  ev_project_id : Uuid;
  ev_issue_id : option Uuid;
  ev_person_id : option Uuid;
  ev_distinct_id : string;
  ev_exception_type : string;
  ev_exception_value : string;
  ev_stacktrace : Stacktrace;
  ev_raw_stacktrace : option Stacktrace;
  ev_release : option string;
  ev_dist : option string;
  ev_environment : string;
  ev_platform : Platform;
  ev_runtime : option Runtime;
  ev_server_name : option string;
  ev_tags : gmap string string;
  ev_extra : Json;
  ev_user_context : option UserContext;
  ev_device_context : option DeviceContext;
  ev_browser_context : option BrowserContext;
  ev_os_context : option OsContext;
  ev_active_flags : gmap string string;
  ev_request : option RequestContext;
  ev_breadcrumbs : list Breadcrumb;
  ev_timestamp : Time;
  ev_received_at : Time;
}.

(** * issue.rs *)

Inductive IssueStatus := Unresolved | Resolved | Ignored | Regressed.
#[export] Instance IssueStatus_eq_dec : EqDecision IssueStatus.
Proof. solve_decision. Defined.

Definition IssueStatus_to_string (s : IssueStatus) : string :=
  match s with
  | Unresolved => "unresolved" | Resolved => "resolved"
  | Ignored => "ignored" | Regressed => "regressed"
  end.

Definition IssueStatus_from_str (s : string) : option IssueStatus :=
  if String.eqb s "unresolved" then Some Unresolved
  else if String.eqb s "resolved" then Some Resolved
  else if String.eqb s "ignored" then Some Ignored
  else if String.eqb s "regressed" then Some Regressed
  else None.

Inductive IssueLevel := IL_Error | IL_Warning | IL_Info.

Definition IssueLevel_to_string (l : IssueLevel) : string :=
  match l with IL_Error => "error" | IL_Warning => "warning" | IL_Info => "info" end.

Definition IssueLevel_from_str (s : string) : option IssueLevel :=
  if String.eqb s "error" then Some IL_Error
  else if String.eqb s "warning" then Some IL_Warning
  else if String.eqb s "info" then Some IL_Info
  else None.

Inductive IssuePriority := High | Medium | Low.

Definition IssuePriority_to_string (p : IssuePriority) : string :=
  match p with High => "high" | Medium => "medium" | Low => "low" end.

Definition IssuePriority_from_str (s : string) : option IssuePriority :=
  if String.eqb s "high" then Some High
  else if String.eqb s "medium" then Some Medium
  else if String.eqb s "low" then Some Low
  else None.

Record IssueMetadata := mkIssueMetadata {
  im_exception_type : string;
  im_exception_value : string;
  im_filename : option string;
  im_function : option string;
}.

Record Issue := mkIssue {
  is_id : Uuid;
  is_org_id : Uuid;
  is_project_id : Uuid;
  is_short_id : string;
  is_fingerprint : string;
  is_title : string;
  is_culprit : option string;
  is_metadata : IssueMetadata;
  is_status : IssueStatus;
  is_level : IssueLevel;
  is_priority : IssuePriority;
  is_event_count : Z;
  is_user_count : Z;
  is_first_seen : Time;
  is_last_seen : Time;
  is_resolved_at : option Time;
  is_resolved_by : option Uuid;
  is_resolved_in_release : option string;
  is_times_regressed : Z;
  is_last_regressed_at : option Time;
  is_regressed_in_release : option string;
  is_assigned_to : option Uuid;
  is_created_at : Time;
  is_updated_at : Time;
}.

(** * project.rs *)

Inductive FingerprintMatchType := FM_ExceptionType | FM_ExceptionMessage | FM_Module | FM_Function.

Record FingerprintRule := mkFingerprintRule {
  fr_match_type : FingerprintMatchType;
  fr_pattern : string;
  fr_fingerprint : list string;
}.

Record CrashProject := mkCrashProject {
  pj_id : Uuid;
  pj_org_id : Uuid;
  pj_name : string;
  pj_slug : string;
  pj_platform : Platform;
  pj_auto_resolve_age_days : option Z;
  pj_fingerprint_rules : list FingerprintRule;
  pj_created_at : Time;
  pj_updated_at : Time;
}.

Definition is_slug_char (c : ascii) : bool :=
  is_ascii_lowercase c || is_ascii_digit c || bool_decide (c = "-"%char)
  || bool_decide (c = "_"%char).

Definition validate_slug (slug : string) : bool :=
  if (String.length slug <? 3)%nat || (50 <? String.length slug)%nat then false
  else str_all is_slug_char slug
       && match slug with String c _ => is_ascii_lowercase c | EmptyString => false end.

Inductive CrashKeyType := CK_Capture | CK_Admin.
#[export] Instance CrashKeyType_eq_dec : EqDecision CrashKeyType.
Proof. solve_decision. Defined.

Definition CrashKeyType_to_string (k : CrashKeyType) : string :=
  match k with CK_Capture => "capture" | CK_Admin => "admin" end.

Definition CrashKeyType_from_str (s : string) : option CrashKeyType :=
  if String.eqb s "capture" then Some CK_Capture
  else if String.eqb s "admin" then Some CK_Admin
  else None.

Record CrashApiKey := mkCrashApiKey {
  ak_id : Uuid;
  ak_project_id : Uuid;
  ak_name : string;
  ak_key_type : CrashKeyType;
  ak_key_hash : string;
  ak_rate_limit_per_minute : option Z;
  ak_allowed_origins : list string;
  ak_created_by : Uuid;
  ak_created_at : Time;
  ak_last_used_at : option Time;
  ak_revoked_at : option Time;
}.

Definition is_revoked (k : CrashApiKey) : bool := bool_decide (is_Some (ak_revoked_at k)).

(** * release.rs *)

Record Release := mkRelease {
  rl_id : Uuid;
  rl_org_id : Uuid;
  rl_project_id : Uuid;
  rl_version : string;
  rl_short_version : option string;
  rl_url : option string;
  rl_crash_count : Z;
  rl_new_issue_count : Z;
  rl_regression_count : Z;
  rl_user_count : Z;
  rl_date_released : option Time;
  rl_first_event : option Time;
  rl_last_event : option Time;
  rl_created_at : Time;
}.

(** * symbol.rs *)

Inductive ArtifactType := AT_SourceMap | AT_MinifiedSource | AT_RustDebugInfo.
#[export] Instance ArtifactType_eq_dec : EqDecision ArtifactType.
Proof. solve_decision. Defined.

Definition ArtifactType_to_string (t : ArtifactType) : string :=
  match t with
  | AT_SourceMap => "source_map" | AT_MinifiedSource => "minified_source"
  | AT_RustDebugInfo => "rust_debug_info"
  end.

Definition ArtifactType_from_str (s : string) : option ArtifactType :=
  if String.eqb s "source_map" then Some AT_SourceMap
  else if String.eqb s "minified_source" then Some AT_MinifiedSource
  else if String.eqb s "rust_debug_info" then Some AT_RustDebugInfo
  else None.

(** The data are bytes. *)
Record SymbolArtifact := mkSymbolArtifact {
  ar_id : Uuid;
  ar_org_id : Uuid;
  ar_project_id : Uuid;
  ar_release : string;
  ar_dist : option string;
  ar_artifact_type : ArtifactType;
  ar_name : string;
  ar_data : string;
  ar_size_bytes : Z;
  ar_sha256 : string;
  ar_source_map_url : option string;
  ar_sources_content : bool;
  ar_uploaded_at : Time;
  ar_uploaded_by : Uuid;
  ar_last_accessed_at : option Time;
}.

(** * fingerprint.rs *)

(** [if let Some(s) = o { hasher.update(s.as_bytes()) }]. *)
Definition opt_bytes (o : option string) : string := default "" o.

Fixpoint app_frames_bytes (fs : list Frame) : string :=
  match fs with
  | [] => ""
  | f :: fs => opt_bytes (f_function f) +:+ "@" +:+ opt_bytes (f_module f) +:+ "|"
               +:+ app_frames_bytes fs
  end.

Fixpoint all_frames_bytes (fs : list Frame) : string :=
  match fs with
  | [] => ""
  | f :: fs => opt_bytes (f_function f) +:+ "|" +:+ all_frames_bytes fs
  end.

(** The bytes that [compute_fingerprint] feeds to the hasher. *)
Definition fingerprint_bytes (e : CrashEvent) : string :=
  let in_app_frames := take 5 (List.filter f_in_app (frames (ev_stacktrace e))) in
  ev_exception_type e +:+ "|" +:+ app_frames_bytes in_app_frames
  +:+ (if bool_decide (in_app_frames = [])
       then all_frames_bytes (take 5 (frames (ev_stacktrace e))) else "").

(** [sha256_hex] is the hexadecimal digest. *)
Definition compute_fingerprint (sha256_hex : string -> string) (e : CrashEvent) : string :=
  sha256_hex (fingerprint_bytes e).

Definition first_app_frame (e : CrashEvent) : option Frame :=
  List.find f_in_app (frames (ev_stacktrace e)).

Definition find_culprit (e : CrashEvent) : option string :=
  first_app_frame e ≫= f_function.

(** [&s[..max_len.saturating_sub(3)]] panics inside of a character. *)
Definition truncate (s : string) (max_len : nat) : run string :=
  if (String.length s <=? max_len)%nat then Done s
  else t ← slice_to s (max_len - 3); Done (t +:+ "...").

(** * Lemmas *)

Lemma BreadcrumbLevel_roundtrip l : BreadcrumbLevel_from_str (BreadcrumbLevel_to_string l) = Some l.
Proof. by destruct l. Qed.
Lemma Platform_roundtrip p : Platform_from_str (Platform_to_string p) = Some p.
Proof. by destruct p. Qed.
Lemma IssueStatus_roundtrip s : IssueStatus_from_str (IssueStatus_to_string s) = Some s.
Proof. by destruct s. Qed.
Lemma IssueLevel_roundtrip l : IssueLevel_from_str (IssueLevel_to_string l) = Some l.
Proof. by destruct l. Qed.
Lemma IssuePriority_roundtrip p : IssuePriority_from_str (IssuePriority_to_string p) = Some p.
Proof. by destruct p. Qed.
Lemma CrashKeyType_roundtrip k : CrashKeyType_from_str (CrashKeyType_to_string k) = Some k.
Proof. by destruct k. Qed.
Lemma ArtifactType_roundtrip t : ArtifactType_from_str (ArtifactType_to_string t) = Some t.
Proof. by destruct t. Qed.

End CrashModel.

#[export] Hint Rewrite @BreadcrumbLevel_roundtrip @Platform_roundtrip @IssueStatus_roundtrip
  @IssueLevel_roundtrip @IssuePriority_roundtrip @CrashKeyType_roundtrip
  @ArtifactType_roundtrip : crash_texts.
