(* ===== verification/CrashGroups.v ===== *)
(** Grouping: two events have the same fingerprint exactly if they have the same
    exception type and the same leading frames. *)
From stdpp Require Import base gmap list strings.
From Stdlib Require Import ZArith Lia Ascii.
From S2P Require Import Prelude Text CoreTypes CrashModel.

Section Groups.
Context `{SJ : SerdeJson}.

(** * The key of a group *)

Inductive GroupFrames :=
| InApp (frames : list (string * string))
| AnyFrames (functions : list string).

Definition frame_key (f : Frame) : string * string :=
  (opt_bytes (f_function f), opt_bytes (f_module f)).

(** The first five frames of the application by function and module or, if there are
    none, the first five frames by function. *)
Definition group_frames (st : Stacktrace) : GroupFrames :=
  match take 5 (List.filter f_in_app (frames st)) with
  | [] => AnyFrames (map (fun f => opt_bytes (f_function f)) (take 5 (frames st)))
  | fs => InApp (map frame_key fs)
  end.

Definition group_key (e : CrashEvent) : string * GroupFrames :=
  (ev_exception_type e, group_frames (ev_stacktrace e)).

(** Names without the separators of the hashed text. *)
Definition without (c : ascii) (s : string) : bool := str_all (fun d => negb (Ascii.eqb c d)) s.

Definition plain_frame (f : Frame) : bool :=
  without "|" (opt_bytes (f_function f)) && without "@" (opt_bytes (f_function f))
  && without "|" (opt_bytes (f_module f)).

Definition plain_event (e : CrashEvent) : bool :=
  without "|" (ev_exception_type e) && forallb plain_frame (frames (ev_stacktrace e)).

(** * Separators *)

Lemma separator_inj c a b x y : without c a = true -> without c b = true ->
  a +:+ String c x = b +:+ String c y -> a = b /\ x = y.
Proof.
  revert b. induction a as [|d a IH]; intros [|d' b]; cbn; rewrite ?append_nil, ?append_cons.
  - by intros _ _ [= ->].
  - intros _ [Hd _]%andb_true_iff [= -> _]. by rewrite Ascii.eqb_refl in Hd.
  - intros [Hd _]%andb_true_iff _ [= -> _]. by rewrite Ascii.eqb_refl in Hd.
  - intros [_ Ha]%andb_true_iff [_ Hb]%andb_true_iff [= -> H].
    by destruct (IH b Ha Hb H) as [-> ->].
Qed.

Lemma without_app c a b : without c (a +:+ b) = without c a && without c b.
Proof. apply str_all_append. Qed.

Lemma any_bytes_inj fs gs :
  forallb (fun f => without "|" (opt_bytes (f_function f))) fs = true ->
  forallb (fun f => without "|" (opt_bytes (f_function f))) gs = true ->
  all_frames_bytes fs = all_frames_bytes gs ->
  map (fun f => opt_bytes (f_function f)) fs = map (fun f => opt_bytes (f_function f)) gs.
Proof.
  revert gs. induction fs as [|f fs IH]; intros [|g gs]; cbn; [done| | |].
  - intros _ _ H. by destruct (opt_bytes (f_function g)).
  - intros _ _ H. by destruct (opt_bytes (f_function f)).
  - intros [Hf Hfs]%andb_true_iff [Hg Hgs]%andb_true_iff H.
    apply separator_inj in H as [-> H]; [|done..]. f_equal. by apply IH.
Qed.

Lemma app_bytes_inj fs gs : forallb plain_frame fs = true -> forallb plain_frame gs = true ->
  app_frames_bytes fs = app_frames_bytes gs -> map frame_key fs = map frame_key gs.
Proof.
  revert gs. induction fs as [|f fs IH]; intros [|g gs]; cbn; [done| | |].
  - intros _ _ H. by destruct (opt_bytes (f_function g)).
  - intros _ _ H. by destruct (opt_bytes (f_function f)).
  - intros [[[Hf1 Hf2]%andb_true_iff Hf3]%andb_true_iff Hfs]%andb_true_iff
      [[[Hg1 Hg2]%andb_true_iff Hg3]%andb_true_iff Hgs]%andb_true_iff H.
    apply separator_inj in H as [Hn H]; [|done..]. apply separator_inj in H as [Hm H]; [|done..].
    unfold frame_key. rewrite Hn, Hm. f_equal. by apply IH.
Qed.

(** Frames of the application write an [@] before the first [|], others do not. *)
Lemma app_any_bytes_ne f fs gs : forallb plain_frame (f :: fs) = true ->
  forallb plain_frame gs = true -> app_frames_bytes (f :: fs) <> all_frames_bytes gs.
Proof.
  intros Hf Hgs H. destruct gs as [|g gs].
  - cbn in H. by destruct (opt_bytes (f_function f)).
  - cbn in *. apply andb_true_iff in Hf as [[[Hf1 Hf2]%andb_true_iff Hf3]%andb_true_iff _].
    apply andb_true_iff in Hgs as [[[Hg1 Hg2]%andb_true_iff _]%andb_true_iff _].
    assert (H' : (opt_bytes (f_function f) +:+ "@" +:+ opt_bytes (f_module f))
                 +:+ String "|" (app_frames_bytes fs)
                 = opt_bytes (f_function g) +:+ String "|" (all_frames_bytes gs)).
    { rewrite !string_app_assoc. exact H. }
    apply separator_inj in H' as [H' _]; [| |done].
    + rewrite <- H', !without_app in Hg2. by rewrite andb_false_r in Hg2.
    + by rewrite !without_app, Hf1, Hf3.
Qed.

Lemma forallb_take {A} (f : A -> bool) n l : forallb f l = true -> forallb f (take n l) = true.
Proof.
  revert l. induction n as [|n IH]; intros [|a l]; cbn; [done..|].
  intros [-> H]%andb_true_iff. by apply IH.
Qed.

Lemma forallb_filter {A} (f g : A -> bool) l :
  forallb f l = true -> forallb f (List.filter g l) = true.
Proof.
  induction l as [|a l IH]; cbn; [done|]. intros [Ha H]%andb_true_iff.
  destruct (g a); cbn; [rewrite Ha|]; by apply IH.
Qed.

Lemma fingerprint_bytes_key e e' : plain_event e = true -> plain_event e' = true ->
  fingerprint_bytes e = fingerprint_bytes e' <-> group_key e = group_key e'.
Proof.
  intros [Ht Hf]%andb_true_iff [Ht' Hf']%andb_true_iff.
  unfold fingerprint_bytes, group_key, group_frames.
  set (fs := frames (ev_stacktrace e)) in *. set (gs := frames (ev_stacktrace e')) in *.
  pose proof (forallb_take _ 5 _ (forallb_filter _ f_in_app _ Hf)) as Hin.
  pose proof (forallb_take _ 5 _ (forallb_filter _ f_in_app _ Hf')) as Hin'.
  pose proof (forallb_take _ 5 _ Hf) as Hall. pose proof (forallb_take _ 5 _ Hf') as Hall'.
  assert (Hw : forall l, forallb plain_frame l = true ->
    forallb (fun f => without "|" (opt_bytes (f_function f))) l = true).
  { intros l. rewrite !List.forallb_forall. intros H f Hl. specialize (H f Hl).
    by apply andb_true_iff in H as [[H _]%andb_true_iff _]. }
  set (us := take 5 (List.filter f_in_app fs)) in *. set (js := take 5 (List.filter f_in_app gs)) in *.
  clearbody us js. split.
  - intros H. apply separator_inj in H as [-> H]; [|done..]. f_equal.
    destruct us as [|i us], js as [|j js]; rewrite ?bool_decide_true, ?bool_decide_false in H by done;
      rewrite ?string_app_nil_r in H.
    + f_equal. apply any_bytes_inj; [by apply Hw..|exact H].
    + symmetry in H. by apply app_any_bytes_ne in H.
    + by apply app_any_bytes_ne in H.
    + f_equal. by apply app_bytes_inj.
  - assert (Hany : forall l, all_frames_bytes l
      = fold_right (fun f s => f +:+ "|" +:+ s) "" (map (fun f => opt_bytes (f_function f)) l)).
    { induction l as [|f l IH]; [done|]. cbn [all_frames_bytes map fold_right]. by rewrite IH. }
    assert (Happ : forall l, app_frames_bytes l
      = fold_right (fun k s => k.1 +:+ "@" +:+ k.2 +:+ "|" +:+ s) "" (map frame_key l)).
    { induction l as [|f l IH]; [done|]. cbn [app_frames_bytes map fold_right]. by rewrite IH. }
    intros H. injection H as -> H. do 2 f_equal.
    destruct us as [|i us], js as [|j js]; rewrite ?bool_decide_true, ?bool_decide_false by done;
      try done; rewrite ?Happ, ?Hany.
    + injection H as H. by rewrite H.
    + assert (E : map frame_key (i :: us) = map frame_key (j :: js)).
      { exact (f_equal (fun g => match g with InApp l => l | AnyFrames _ => [] end) H). }
      by rewrite E.
Qed.

(** Two events whose names contain none of the separators have the same fingerprint
    exactly if they have the same exception type and the same first five frames of the
    application (function and module), or none and the same first five functions; as far
    as SHA-256 does not collide on the two hashed texts. *)
Theorem fingerprint_groups (sha256_hex : string -> string) (e e' : CrashEvent) :
  plain_event e = true -> plain_event e' = true ->
  (sha256_hex (fingerprint_bytes e) = sha256_hex (fingerprint_bytes e') ->
   fingerprint_bytes e = fingerprint_bytes e') ->
  compute_fingerprint sha256_hex e = compute_fingerprint sha256_hex e'
  <-> group_key e = group_key e'.
Proof.
  intros He He' Hsha. rewrite <- fingerprint_bytes_key by done. unfold compute_fingerprint.
  split; [done|]. by intros ->.
Qed.

End Groups.
