(* ===== verification/CrashRepo.v ===== *)
(** Storage of crash reports: repository.rs of [crates/loom-server-crash] over the
    tables of [crates/loom-server/migrations/033_crash_analytics.sql].

    A row holds what the statements bind: texts of UUIDs, RFC 3339 times, JSON and
    integers of SQLite's width; [try_from] reads it back.  The foreign keys of the
    migration are enforced, as sqlx does by default. *)
From stdpp Require Import base gmap list strings pretty.
From Stdlib Require Import ZArith Lia Ascii.
From S2P Require Import Prelude Text CoreTypes Effects Sql Columns CrashModel.

(** * Texts *)

(** What the crash server uses of [serde_json] and [sha2], and of
    [str::to_uppercase]. *)
Class CrashTexts := {
  ct_json :: SerdeJson;
  ct_stamps :: Stamps;
  sha256_hex : string -> string;
  to_uppercase : string -> string;
  to_uppercase_ascii s : str_all is_ascii s = true -> to_uppercase s = to_ascii_uppercase s;
  jc_rules :: JsonColumn (list FingerprintRule);
  je_rules :: ExactColumn (list FingerprintRule);
  jc_metadata :: JsonColumn IssueMetadata;
  je_metadata :: ExactColumn IssueMetadata;
  jc_stacktrace :: JsonColumn Stacktrace;
  je_stacktrace :: ExactColumn Stacktrace;
  jc_runtime :: JsonColumn Runtime;
  je_runtime :: ExactColumn Runtime;
  jc_map :: JsonColumn (gmap string string);
  je_map :: ExactColumn (gmap string string);
  jc_value :: JsonColumn Json;
  jc_user :: JsonColumn UserContext;
  je_user :: ExactColumn UserContext;
  jc_device :: JsonColumn DeviceContext;
  je_device :: ExactColumn DeviceContext;
  jc_browser :: JsonColumn BrowserContext;
  je_browser :: ExactColumn BrowserContext;
  jc_os :: JsonColumn OsContext;
  je_os :: ExactColumn OsContext;
  jc_request :: JsonColumn RequestContext;
  je_request :: ExactColumn RequestContext;
  jc_breadcrumbs :: JsonColumn (list Breadcrumb);
  jc_origins :: JsonColumn (list string);
  je_origins :: ExactColumn (list string);
}.

(** * error.rs *)

Inductive CrashServerError :=
| CE_ProjectNotFound (s : string)
| CE_IssueNotFound (s : string)
| CE_EventNotFound (s : string)
| CE_ApiKeyNotFound (s : string)
| CE_ApiKeyRevoked
| CE_InvalidApiKey
| CE_ApiKeyHash
| CE_Database (e : string)
| CE_Serialization (e : string)
| CE_InvalidUuid (e : string)
| CE_InvalidDateTime (s : string)
| CE_Parse (s : string)
| CE_Symbolication (s : string).

(** * Rows *)

Record ProjectRow := mkProjectRow {
  pr_id : string;
  pr_org_id : string;
  pr_name : string;
  pr_slug : string;
  pr_platform : string;
  pr_auto_resolve_age_days : option Z;
  pr_fingerprint_rules : string;
  pr_created_at : string;
  pr_updated_at : string;
}.

Record IssueRow := mkIssueRow {
  ir_id : string;
  ir_org_id : string;
  ir_project_id : string;
  ir_short_id : string;
  ir_fingerprint : string;
  ir_title : string;
  ir_culprit : option string;
  ir_metadata : string;
  ir_status : string;
  ir_level : string;
  ir_priority : string;
  ir_event_count : Z;
  ir_user_count : Z;
  ir_first_seen : string;
  ir_last_seen : string;
  ir_resolved_at : option string;
  ir_resolved_by : option string;
  ir_resolved_in_release : option string;
  ir_times_regressed : Z;
  ir_last_regressed_at : option string;
  ir_regressed_in_release : option string;
  ir_assigned_to : option string;
  ir_created_at : string;
  ir_updated_at : string;
}.

Record EventRow := mkEventRow {
  er_id : string;
  er_org_id : string;
  er_project_id : string;
  er_issue_id : option string;
  er_person_id : option string;
  er_distinct_id : string;
  er_exception_type : string;
  er_exception_value : string;
  er_stacktrace : string;
  er_raw_stacktrace : option string;
  er_release : option string;
  er_dist : option string;
  er_environment : string;
  er_platform : string;
  er_runtime : option string;
  er_server_name : option string;
  er_tags : string;
  er_extra : string;
  er_user_context : option string;
  er_device_context : option string;
  er_browser_context : option string;
  er_os_context : option string;
  er_active_flags : string;
  er_request : option string;
  er_breadcrumbs : string;
  er_timestamp : string;
  er_received_at : string;
}.

Record ReleaseRow := mkReleaseRow {
  rr_id : string;
  rr_org_id : string;
  rr_project_id : string;
  rr_version : string;
  rr_short_version : option string;
  rr_url : option string;
  rr_crash_count : Z;
  rr_new_issue_count : Z;
  rr_regression_count : Z;
  rr_user_count : Z;
  rr_date_released : option string;
  rr_first_event : option string;
  rr_last_event : option string;
  rr_created_at : string;
}.

Record ArtifactRow := mkArtifactRow {
  tr_id : string;
  tr_org_id : string;
  tr_project_id : string;
  tr_release : string;
  tr_dist : option string;
  tr_artifact_type : string;
  tr_name : string;
  tr_data : string;
  tr_size_bytes : Z;
  tr_sha256 : string;
  tr_source_map_url : option string;
  tr_sources_content : Z;
  tr_uploaded_at : string;
  tr_uploaded_by : string;
  tr_last_accessed_at : option string;
}.

Record ApiKeyRow := mkApiKeyRow {
  kr_id : string;
  kr_project_id : string;
  kr_name : string;
  kr_key_type : string;
  kr_key_hash : string;
  kr_rate_limit_per_minute : option Z;
  kr_allowed_origins : string;
  kr_created_by : string;
  kr_created_at : string;
  kr_last_used_at : option string;
  kr_revoked_at : option string;
}.

(** Of the tables of other components, the foreign keys need the identifiers and the
    handlers the memberships (organization and user). *)
Record CrashTables := mkCrashTables {
  t_organizations : list string;
  t_users : list string;
  t_memberships : list (string * string);
  t_projects : list ProjectRow;
  t_issues : list IssueRow;
  t_events : list EventRow;
  t_persons : list (string * string * string);
  t_releases : list ReleaseRow;
  t_artifacts : list ArtifactRow;
  t_api_keys : list ApiKeyRow;
}.

Definition put_projects (v : list ProjectRow) (t : CrashTables) : CrashTables :=
  mkCrashTables (t_organizations t) (t_users t) (t_memberships t) v (t_issues t) (t_events t)
    (t_persons t) (t_releases t) (t_artifacts t) (t_api_keys t).
Definition put_issues (v : list IssueRow) (t : CrashTables) : CrashTables :=
  mkCrashTables (t_organizations t) (t_users t) (t_memberships t) (t_projects t) v (t_events t)
    (t_persons t) (t_releases t) (t_artifacts t) (t_api_keys t).
Definition put_events (v : list EventRow) (t : CrashTables) : CrashTables :=
  mkCrashTables (t_organizations t) (t_users t) (t_memberships t) (t_projects t) (t_issues t) v
    (t_persons t) (t_releases t) (t_artifacts t) (t_api_keys t).
Definition put_persons (v : list (string * string * string)) (t : CrashTables) : CrashTables :=
  mkCrashTables (t_organizations t) (t_users t) (t_memberships t) (t_projects t) (t_issues t)
    (t_events t) v (t_releases t) (t_artifacts t) (t_api_keys t).
Definition put_releases (v : list ReleaseRow) (t : CrashTables) : CrashTables :=
  mkCrashTables (t_organizations t) (t_users t) (t_memberships t) (t_projects t) (t_issues t)
    (t_events t) (t_persons t) v (t_artifacts t) (t_api_keys t).
Definition put_artifacts (v : list ArtifactRow) (t : CrashTables) : CrashTables :=
  mkCrashTables (t_organizations t) (t_users t) (t_memberships t) (t_projects t) (t_issues t)
    (t_events t) (t_persons t) (t_releases t) v (t_api_keys t).
Definition put_api_keys (v : list ApiKeyRow) (t : CrashTables) : CrashTables :=
  mkCrashTables (t_organizations t) (t_users t) (t_memberships t) (t_projects t) (t_issues t)
    (t_events t) (t_persons t) (t_releases t) (t_artifacts t) v.

Definition RepoOp : Type -> Type := SqlM CrashTables CrashServerError.

Section Repo.
Context `{CT : CrashTexts}.

(** * Conversions *)

(** What the statements bind. *)
Definition project_row (p : CrashProject) : ProjectRow :=
  mkProjectRow (uuid_text (pj_id p)) (uuid_text (pj_org_id p)) (pj_name p) (pj_slug p)
    (Platform_to_string (pj_platform p)) (wrap_i32 <$> pj_auto_resolve_age_days p)
    (to_json (pj_fingerprint_rules p)) (to_rfc3339 (pj_created_at p))
    (to_rfc3339 (pj_updated_at p)).

Definition issue_row (i : Issue) : IssueRow :=
  mkIssueRow (uuid_text (is_id i)) (uuid_text (is_org_id i)) (uuid_text (is_project_id i))
    (is_short_id i) (is_fingerprint i) (is_title i) (is_culprit i) (to_json (is_metadata i))
    (IssueStatus_to_string (is_status i)) (IssueLevel_to_string (is_level i))
    (IssuePriority_to_string (is_priority i)) (wrap_i64 (is_event_count i))
    (wrap_i64 (is_user_count i)) (to_rfc3339 (is_first_seen i)) (to_rfc3339 (is_last_seen i))
    (to_rfc3339 <$> is_resolved_at i) (uuid_text <$> is_resolved_by i)
    (is_resolved_in_release i) (wrap_i32 (is_times_regressed i))
    (to_rfc3339 <$> is_last_regressed_at i) (is_regressed_in_release i)
    (uuid_text <$> is_assigned_to i) (to_rfc3339 (is_created_at i)) (to_rfc3339 (is_updated_at i)).

Definition event_row (e : CrashEvent) : EventRow :=
  mkEventRow (uuid_text (ev_id e)) (uuid_text (ev_org_id e)) (uuid_text (ev_project_id e))
    (uuid_text <$> ev_issue_id e) (uuid_text <$> ev_person_id e) (ev_distinct_id e)
    (ev_exception_type e) (ev_exception_value e) (to_json (ev_stacktrace e))
    (to_json <$> ev_raw_stacktrace e) (ev_release e) (ev_dist e) (ev_environment e)
    (Platform_to_string (ev_platform e)) (to_json <$> ev_runtime e) (ev_server_name e)
    (to_json (ev_tags e)) (to_json (ev_extra e)) (to_json <$> ev_user_context e)
    (to_json <$> ev_device_context e) (to_json <$> ev_browser_context e)
    (to_json <$> ev_os_context e) (to_json (ev_active_flags e)) (to_json <$> ev_request e)
    (to_json (ev_breadcrumbs e)) (to_rfc3339 (ev_timestamp e)) (to_rfc3339 (ev_received_at e)).

Definition release_row (r : Release) : ReleaseRow :=
  mkReleaseRow (uuid_text (rl_id r)) (uuid_text (rl_org_id r)) (uuid_text (rl_project_id r))
    (rl_version r) (rl_short_version r) (rl_url r) (wrap_i64 (rl_crash_count r))
    (wrap_i64 (rl_new_issue_count r)) (wrap_i64 (rl_regression_count r))
    (wrap_i64 (rl_user_count r)) (to_rfc3339 <$> rl_date_released r)
    (to_rfc3339 <$> rl_first_event r) (to_rfc3339 <$> rl_last_event r)
    (to_rfc3339 (rl_created_at r)).

Definition artifact_row (a : SymbolArtifact) : ArtifactRow :=
  mkArtifactRow (uuid_text (ar_id a)) (uuid_text (ar_org_id a)) (uuid_text (ar_project_id a))
    (ar_release a) (ar_dist a) (ArtifactType_to_string (ar_artifact_type a)) (ar_name a)
    (ar_data a) (wrap_i64 (ar_size_bytes a)) (ar_sha256 a) (ar_source_map_url a)
    (if ar_sources_content a then 1 else 0)%Z (to_rfc3339 (ar_uploaded_at a))
    (uuid_text (ar_uploaded_by a)) (to_rfc3339 <$> ar_last_accessed_at a).

Definition api_key_row (k : CrashApiKey) : ApiKeyRow :=
  mkApiKeyRow (uuid_text (ak_id k)) (uuid_text (ak_project_id k)) (ak_name k)
    (CrashKeyType_to_string (ak_key_type k)) (ak_key_hash k)
    (wrap_i32 <$> ak_rate_limit_per_minute k) (to_json (ak_allowed_origins k))
    (uuid_text (ak_created_by k)) (to_rfc3339 (ak_created_at k))
    (to_rfc3339 <$> ak_last_used_at k) (to_rfc3339 <$> ak_revoked_at k).

(** [row.id.parse()?] and [serde_json::from_str(..)?]. *)
Definition read_uuid (s : string) : result CrashServerError Uuid :=
  match uuid_parse s with Ok u => Ok u | Err e => Err (CE_InvalidUuid e) end.
Definition read_json {A} `{JsonColumn A} (s : string) : result CrashServerError A :=
  match from_json s with Ok a => Ok a | Err e => Err (CE_Serialization e) end.
Definition parse_datetime (s : string) : result CrashServerError Z :=
  ok_or (CE_InvalidDateTime s) (parse_from_rfc3339 s).
Definition read_enum {A} (from_str : string -> option A) (what s : string)
    : result CrashServerError A :=
  ok_or (CE_Parse ("invalid " +:+ what +:+ ": " +:+ s)) (from_str s).

Definition CrashProject_try_from (r : ProjectRow) : result CrashServerError CrashProject :=
  id ← read_uuid (pr_id r);
  org_id ← read_uuid (pr_org_id r);
  platform ← read_enum Platform_from_str "platform" (pr_platform r);
  rules ← read_json (pr_fingerprint_rules r);
  created_at ← parse_datetime (pr_created_at r);
  updated_at ← parse_datetime (pr_updated_at r);
  Ok (mkCrashProject id org_id (pr_name r) (pr_slug r) platform
        (wrap_u32 <$> pr_auto_resolve_age_days r) rules created_at updated_at).

Definition Issue_try_from (r : IssueRow) : result CrashServerError Issue :=
  id ← read_uuid (ir_id r);
  org_id ← read_uuid (ir_org_id r);
  project_id ← read_uuid (ir_project_id r);
  metadata ← read_json (ir_metadata r);
  status ← read_enum IssueStatus_from_str "status" (ir_status r);
  level ← read_enum IssueLevel_from_str "level" (ir_level r);
  priority ← read_enum IssuePriority_from_str "priority" (ir_priority r);
  first_seen ← parse_datetime (ir_first_seen r);
  last_seen ← parse_datetime (ir_last_seen r);
  resolved_at ← transpose parse_datetime (ir_resolved_at r);
  resolved_by ← transpose read_uuid (ir_resolved_by r);
  last_regressed_at ← transpose parse_datetime (ir_last_regressed_at r);
  assigned_to ← transpose read_uuid (ir_assigned_to r);
  created_at ← parse_datetime (ir_created_at r);
  updated_at ← parse_datetime (ir_updated_at r);
  Ok (mkIssue id org_id project_id (ir_short_id r) (ir_fingerprint r) (ir_title r)
        (ir_culprit r) metadata status level priority (wrap_u64 (ir_event_count r))
        (wrap_u64 (ir_user_count r)) first_seen last_seen resolved_at resolved_by
        (ir_resolved_in_release r) (wrap_u32 (ir_times_regressed r)) last_regressed_at
        (ir_regressed_in_release r) assigned_to created_at updated_at).

Definition CrashEvent_try_from (r : EventRow) : result CrashServerError CrashEvent :=
  id ← read_uuid (er_id r);
  org_id ← read_uuid (er_org_id r);
  project_id ← read_uuid (er_project_id r);
  issue_id ← transpose read_uuid (er_issue_id r);
  person_id ← transpose read_uuid (er_person_id r);
  stacktrace ← read_json (er_stacktrace r);
  raw_stacktrace ← transpose read_json (er_raw_stacktrace r);
  platform ← read_enum Platform_from_str "platform" (er_platform r);
  runtime ← transpose read_json (er_runtime r);
  tags ← read_json (er_tags r);
  extra ← read_json (er_extra r);
  user_context ← transpose read_json (er_user_context r);
  device_context ← transpose read_json (er_device_context r);
  browser_context ← transpose read_json (er_browser_context r);
  os_context ← transpose read_json (er_os_context r);
  active_flags ← read_json (er_active_flags r);
  request ← transpose read_json (er_request r);
  breadcrumbs ← read_json (er_breadcrumbs r);
  timestamp ← parse_datetime (er_timestamp r);
  received_at ← parse_datetime (er_received_at r);
  Ok (mkCrashEvent id org_id project_id issue_id person_id (er_distinct_id r)
        (er_exception_type r) (er_exception_value r) stacktrace raw_stacktrace (er_release r)
        (er_dist r) (er_environment r) platform runtime (er_server_name r) tags extra
        user_context device_context browser_context os_context active_flags request breadcrumbs
        timestamp received_at).

Definition Release_try_from (r : ReleaseRow) : result CrashServerError Release :=
  id ← read_uuid (rr_id r);
  org_id ← read_uuid (rr_org_id r);
  project_id ← read_uuid (rr_project_id r);
  date_released ← transpose parse_datetime (rr_date_released r);
  first_event ← transpose parse_datetime (rr_first_event r);
  last_event ← transpose parse_datetime (rr_last_event r);
  created_at ← parse_datetime (rr_created_at r);
  Ok (mkRelease id org_id project_id (rr_version r) (rr_short_version r) (rr_url r)
        (wrap_u64 (rr_crash_count r)) (wrap_u64 (rr_new_issue_count r))
        (wrap_u64 (rr_regression_count r)) (wrap_u64 (rr_user_count r)) date_released
        first_event last_event created_at).

Definition SymbolArtifact_try_from (r : ArtifactRow) : result CrashServerError SymbolArtifact :=
  id ← read_uuid (tr_id r);
  org_id ← read_uuid (tr_org_id r);
  project_id ← read_uuid (tr_project_id r);
  artifact_type ← read_enum ArtifactType_from_str "artifact type" (tr_artifact_type r);
  uploaded_at ← parse_datetime (tr_uploaded_at r);
  uploaded_by ← read_uuid (tr_uploaded_by r);
  last_accessed_at ← transpose parse_datetime (tr_last_accessed_at r);
  Ok (mkSymbolArtifact id org_id project_id (tr_release r) (tr_dist r) artifact_type (tr_name r)
        (tr_data r) (wrap_u64 (tr_size_bytes r)) (tr_sha256 r) (tr_source_map_url r)
        (negb (tr_sources_content r =? 0)%Z) uploaded_at uploaded_by last_accessed_at).

Definition CrashApiKey_try_from (r : ApiKeyRow) : result CrashServerError CrashApiKey :=
  id ← read_uuid (kr_id r);
  project_id ← read_uuid (kr_project_id r);
  key_type ← read_enum CrashKeyType_from_str "key type" (kr_key_type r);
  allowed_origins ← read_json (kr_allowed_origins r);
  created_by ← read_uuid (kr_created_by r);
  created_at ← parse_datetime (kr_created_at r);
  last_used_at ← transpose parse_datetime (kr_last_used_at r);
  revoked_at ← transpose parse_datetime (kr_revoked_at r);
  Ok (mkCrashApiKey id project_id (kr_name r) key_type (kr_key_hash r)
        (wrap_u32 <$> kr_rate_limit_per_minute r) allowed_origins created_by created_at
        last_used_at revoked_at).

(** * Statements *)

Definition query {A} (f : CrashTables -> A) : RepoOp A := sql_read CE_Database f.

(** [row.map(TryInto::try_into).transpose()]. *)
Definition fetch_optional {R A} (try_from : R -> result CrashServerError A)
    (f : CrashTables -> option R) : RepoOp (option A) :=
  let* row := query f in of_result (transpose try_from row).

Definition fetch_all {R A} (try_from : R -> result CrashServerError A)
    (f : CrashTables -> list R) : RepoOp (list A) :=
  let* rows := query f in of_result (collect try_from rows).

(** An [INSERT] or [UPDATE] that the constraint [ok] guards. *)
Definition modify (ok : CrashTables -> bool) (f : CrashTables -> CrashTables) : RepoOp unit :=
  sql CE_Database (fun t => if ok t then Some (tt, f t) else None).

Definition mem (s : string) (l : list string) : bool := existsb (String.eqb s) l.
Definition mem_opt (o : option string) (l : list string) : bool :=
  match o with Some s => mem s l | None => true end.

Definition project_is (id : string) (p : ProjectRow) : bool := String.eqb (pr_id p) id.
Definition issue_is (id : string) (i : IssueRow) : bool := String.eqb (ir_id i) id.
Definition event_is (id : string) (e : EventRow) : bool := String.eqb (er_id e) id.
Definition release_is (id : string) (r : ReleaseRow) : bool := String.eqb (rr_id r) id.
Definition artifact_is (id : string) (a : ArtifactRow) : bool := String.eqb (tr_id a) id.
Definition api_key_is (id : string) (k : ApiKeyRow) : bool := String.eqb (kr_id k) id.

Definition has_project (t : CrashTables) (id : string) : bool :=
  existsb (project_is id) (t_projects t).
Definition has_issue (t : CrashTables) (id : string) : bool := existsb (issue_is id) (t_issues t).

(** ** Projects *)

Definition repo_create_project (p : CrashProject) : RepoOp unit :=
  let r := project_row p in
  modify (fun t => mem (pr_org_id r) (t_organizations t)
                   && negb (existsb (fun q => project_is (pr_id r) q
                        || (String.eqb (pr_org_id q) (pr_org_id r)
                            && String.eqb (pr_slug q) (pr_slug r))) (t_projects t)))
    (fun t => put_projects (t_projects t ++ [r]) t).

Definition repo_get_project_by_id (id : Uuid) : RepoOp (option CrashProject) :=
  fetch_optional CrashProject_try_from
    (fun t => select_one (project_is (uuid_text id)) (t_projects t)).

Definition repo_get_project_by_slug (org_id : Uuid) (slug : string)
    : RepoOp (option CrashProject) :=
  fetch_optional CrashProject_try_from
    (fun t => select_one (fun p => String.eqb (pr_org_id p) (uuid_text org_id)
                                   && String.eqb (pr_slug p) slug) (t_projects t)).

Definition repo_list_projects (org_id : Uuid) : RepoOp (list CrashProject) :=
  fetch_all CrashProject_try_from
    (fun t => order_by false pr_name
                (select_where (fun p => String.eqb (pr_org_id p) (uuid_text org_id))
                   (t_projects t))).

Definition project_columns (p r : ProjectRow) : ProjectRow :=
  mkProjectRow (pr_id r) (pr_org_id r) (pr_name p) (pr_slug r) (pr_platform r)
    (pr_auto_resolve_age_days p) (pr_fingerprint_rules r) (pr_created_at r) (pr_updated_at p).

Definition repo_update_project (p : CrashProject) : RepoOp unit :=
  let r := project_row p in
  modify (fun _ => true)
    (fun t => put_projects (update_where (project_is (pr_id r)) (project_columns r)
                              (t_projects t)) t).

(** [ON DELETE SET NULL] of the events. *)
Definition clear_issue (e : EventRow) : EventRow :=
  mkEventRow (er_id e) (er_org_id e) (er_project_id e) None (er_person_id e) (er_distinct_id e)
    (er_exception_type e) (er_exception_value e) (er_stacktrace e) (er_raw_stacktrace e)
    (er_release e) (er_dist e) (er_environment e) (er_platform e) (er_runtime e)
    (er_server_name e) (er_tags e) (er_extra e) (er_user_context e) (er_device_context e)
    (er_browser_context e) (er_os_context e) (er_active_flags e) (er_request e)
    (er_breadcrumbs e) (er_timestamp e) (er_received_at e).

Definition opt_is (o : option string) (s : string) : bool :=
  match o with Some x => String.eqb x s | None => false end.

(** Deleting issues: their persons go with them, their events lose the reference. *)
Definition delete_issues (p : IssueRow -> bool) (t : CrashTables) : CrashTables :=
  let gone id := existsb (fun i => p i && String.eqb (ir_id i) id) (t_issues t) in
  put_issues (delete_where p (t_issues t))
    (put_persons (delete_where (fun '(i, _, _) => gone i) (t_persons t))
       (put_events (update_where (fun e => match er_issue_id e with
                                           | Some i => gone i
                                           | None => false
                                           end) clear_issue (t_events t)) t)).

(** [ON DELETE CASCADE] of everything that refers to the project. *)
Definition delete_projects (id : string) (t : CrashTables) : CrashTables :=
  let t := delete_issues (fun i => String.eqb (ir_project_id i) id) t in
  put_projects (delete_where (project_is id) (t_projects t))
    (put_events (delete_where (fun e => String.eqb (er_project_id e) id) (t_events t))
       (put_releases (delete_where (fun r => String.eqb (rr_project_id r) id) (t_releases t))
          (put_artifacts (delete_where (fun a => String.eqb (tr_project_id a) id)
                            (t_artifacts t))
             (put_api_keys (delete_where (fun k => String.eqb (kr_project_id k) id)
                              (t_api_keys t)) t)))).

Definition repo_delete_project (id : Uuid) : RepoOp bool :=
  sql_write CE_Database (fun t =>
    (has_project t (uuid_text id), delete_projects (uuid_text id) t)).

(** ** Issues *)

Definition repo_create_issue (i : Issue) : RepoOp unit :=
  let r := issue_row i in
  modify (fun t => mem (ir_org_id r) (t_organizations t) && has_project t (ir_project_id r)
                   && mem_opt (ir_resolved_by r) (t_users t)
                   && mem_opt (ir_assigned_to r) (t_users t)
                   && negb (existsb (fun j => issue_is (ir_id r) j
                        || (String.eqb (ir_project_id j) (ir_project_id r)
                            && String.eqb (ir_fingerprint j) (ir_fingerprint r))) (t_issues t)))
    (fun t => put_issues (t_issues t ++ [r]) t).

Definition repo_get_issue_by_id (id : Uuid) : RepoOp (option Issue) :=
  fetch_optional Issue_try_from (fun t => select_one (issue_is (uuid_text id)) (t_issues t)).

Definition with_fingerprint (project_id fingerprint : string) (i : IssueRow) : bool :=
  String.eqb (ir_project_id i) project_id && String.eqb (ir_fingerprint i) fingerprint.

Definition repo_get_issue_by_fingerprint (project_id : Uuid) (fingerprint : string)
    : RepoOp (option Issue) :=
  fetch_optional Issue_try_from
    (fun t => select_one (with_fingerprint (uuid_text project_id) fingerprint) (t_issues t)).

Definition of_project (id : string) (i : IssueRow) : bool := String.eqb (ir_project_id i) id.

(** [limit as i32]. *)
Definition repo_list_issues (project_id : Uuid) (limit : Z) : RepoOp (list Issue) :=
  fetch_all Issue_try_from
    (fun t => sql_limit (wrap_i32 limit)
                (order_by true ir_last_seen
                   (select_where (of_project (uuid_text project_id)) (t_issues t)))).

Definition repo_get_issue_count (project_id : Uuid) : RepoOp Z :=
  query (fun t => Z.of_nat (count_where (of_project (uuid_text project_id)) (t_issues t))).

(** The columns that [UPDATE crash_issues] names; the time is its own. *)
Definition issue_columns (now : Z) (i r : IssueRow) : IssueRow :=
  mkIssueRow (ir_id r) (ir_org_id r) (ir_project_id r) (ir_short_id r) (ir_fingerprint r)
    (ir_title i) (ir_culprit i) (ir_metadata i) (ir_status i) (ir_level i) (ir_priority i)
    (ir_event_count i) (ir_user_count i) (ir_first_seen r) (ir_last_seen i) (ir_resolved_at i)
    (ir_resolved_by i) (ir_resolved_in_release i) (ir_times_regressed i)
    (ir_last_regressed_at i) (ir_regressed_in_release i) (ir_assigned_to i) (ir_created_at r)
    (to_rfc3339 now).

Definition repo_update_issue (now : Z) (i : Issue) : RepoOp unit :=
  let r := issue_row i in
  modify (fun t => negb (has_issue t (ir_id r))
                   || (mem_opt (ir_resolved_by r) (t_users t)
                       && mem_opt (ir_assigned_to r) (t_users t)))
    (fun t => put_issues (update_where (issue_is (ir_id r)) (issue_columns now r)
                            (t_issues t)) t).

Definition repo_delete_issue (id : Uuid) : RepoOp bool :=
  sql_write CE_Database (fun t =>
    (has_issue t (uuid_text id), delete_issues (issue_is (uuid_text id)) t)).

(** ** Events *)

Definition repo_create_event (e : CrashEvent) : RepoOp unit :=
  let r := event_row e in
  modify (fun t => mem (er_org_id r) (t_organizations t) && has_project t (er_project_id r)
                   && match er_issue_id r with Some i => has_issue t i | None => true end
                   && negb (existsb (event_is (er_id r)) (t_events t)))
    (fun t => put_events (t_events t ++ [r]) t).

Definition repo_get_event_by_id (id : Uuid) : RepoOp (option CrashEvent) :=
  fetch_optional CrashEvent_try_from (fun t => select_one (event_is (uuid_text id)) (t_events t)).

Definition repo_list_events_for_issue (issue_id : Uuid) (limit : Z) : RepoOp (list CrashEvent) :=
  fetch_all CrashEvent_try_from
    (fun t => sql_limit (wrap_i32 limit)
                (order_by true er_timestamp
                   (select_where (fun e => opt_is (er_issue_id e) (uuid_text issue_id))
                      (t_events t)))).

Definition repo_list_events_for_project (project_id : Uuid) (limit offset : Z)
    : RepoOp (list CrashEvent) :=
  fetch_all CrashEvent_try_from
    (fun t => sql_limit (wrap_i32 limit) (sql_offset (wrap_i32 offset)
                (order_by true er_timestamp
                   (select_where (fun e => String.eqb (er_project_id e) (uuid_text project_id))
                      (t_events t))))).

Definition repo_delete_old_events (cutoff : Z) : RepoOp Z :=
  let old e := String.ltb (er_received_at e) (to_rfc3339 cutoff) in
  sql_write CE_Database (fun t =>
    (Z.of_nat (count_where old (t_events t)), put_events (delete_where old (t_events t)) t)).

(** ** Counters of issues *)

Definition bump_event_count (last_seen updated_at : Z) (r : IssueRow) : IssueRow :=
  mkIssueRow (ir_id r) (ir_org_id r) (ir_project_id r) (ir_short_id r) (ir_fingerprint r)
    (ir_title r) (ir_culprit r) (ir_metadata r) (ir_status r) (ir_level r) (ir_priority r)
    (ir_event_count r + 1)%Z (ir_user_count r) (ir_first_seen r) (to_rfc3339 last_seen)
    (ir_resolved_at r) (ir_resolved_by r) (ir_resolved_in_release r) (ir_times_regressed r)
    (ir_last_regressed_at r) (ir_regressed_in_release r) (ir_assigned_to r) (ir_created_at r)
    (to_rfc3339 updated_at).

Definition repo_increment_issue_event_count (now now' : Z) (id : Uuid) : RepoOp unit :=
  modify (fun _ => true)
    (fun t => put_issues (update_where (issue_is (uuid_text id)) (bump_event_count now now')
                            (t_issues t)) t).

Definition set_user_count (n updated_at : Z) (r : IssueRow) : IssueRow :=
  mkIssueRow (ir_id r) (ir_org_id r) (ir_project_id r) (ir_short_id r) (ir_fingerprint r)
    (ir_title r) (ir_culprit r) (ir_metadata r) (ir_status r) (ir_level r) (ir_priority r)
    (ir_event_count r) n (ir_first_seen r) (ir_last_seen r) (ir_resolved_at r)
    (ir_resolved_by r) (ir_resolved_in_release r) (ir_times_regressed r)
    (ir_last_regressed_at r) (ir_regressed_in_release r) (ir_assigned_to r) (ir_created_at r)
    (to_rfc3339 updated_at).

Definition person_of_issue (issue_id : string) (x : string * string * string) : bool :=
  String.eqb x.1.1 issue_id.
Definition person_is (issue_id person_id : string) (x : string * string * string) : bool :=
  String.eqb x.1.1 issue_id && String.eqb x.1.2 person_id.

(** [INSERT OR IGNORE], which ignores a duplicate but not a missing issue, and the
    count of the persons. *)
Definition repo_add_issue_person (now now' : Z) (issue_id person_id : Uuid) : RepoOp unit :=
  let i := uuid_text issue_id in
  let p := uuid_text person_id in
  let* _ := modify (fun t => existsb (person_is i p) (t_persons t) || has_issue t i)
    (fun t => if existsb (person_is i p) (t_persons t) then t
              else put_persons (t_persons t ++ [(i, p, to_rfc3339 now)]) t) in
  modify (fun _ => true)
    (fun t => put_issues (update_where (issue_is i)
                (set_user_count (Z.of_nat (count_where (person_of_issue i) (t_persons t))) now')
                (t_issues t)) t).

Definition repo_issue_has_person (issue_id person_id : Uuid) : RepoOp bool :=
  query (fun t => (0 <? count_where (person_is (uuid_text issue_id) (uuid_text person_id))
                          (t_persons t))%nat).

(** [&prefix[..4]] of a longer slug and the addition on [i32] may panic. *)
Definition repo_get_next_short_id (oc : bool) (project_id : Uuid) : RepoOp (run string) :=
  let* o := repo_get_project_by_id project_id in
  let* project := of_result (ok_or (CE_ProjectNotFound (uuid_text project_id)) o) in
  let* count := query (fun t =>
    Z.of_nat (count_where (of_project (uuid_text project_id)) (t_issues t))) in
  let prefix := to_uppercase (pj_slug project) in
  ret (prefix ← (if (4 <? String.length prefix)%nat then slice_to prefix 4 else Done prefix);
       next ← add_i32 oc count 1;
       Done (prefix +:+ "-" +:+ pretty next)).

(** ** Releases *)

Definition release_version_is (project_id version : string) (r : ReleaseRow) : bool :=
  String.eqb (rr_project_id r) project_id && String.eqb (rr_version r) version.

Definition repo_create_release (rel : Release) : RepoOp unit :=
  let r := release_row rel in
  modify (fun t => mem (rr_org_id r) (t_organizations t) && has_project t (rr_project_id r)
                   && negb (existsb (fun q => release_is (rr_id r) q
                        || release_version_is (rr_project_id r) (rr_version r) q)
                        (t_releases t)))
    (fun t => put_releases (t_releases t ++ [r]) t).

Definition repo_get_release_by_id (id : Uuid) : RepoOp (option Release) :=
  fetch_optional Release_try_from (fun t => select_one (release_is (uuid_text id)) (t_releases t)).

Definition repo_get_release_by_version (project_id : Uuid) (version : string)
    : RepoOp (option Release) :=
  fetch_optional Release_try_from
    (fun t => select_one (release_version_is (uuid_text project_id) version) (t_releases t)).

Definition repo_list_releases (project_id : Uuid) (limit : Z) : RepoOp (list Release) :=
  fetch_all Release_try_from
    (fun t => sql_limit (wrap_i32 limit)
                (order_by true rr_created_at
                   (select_where (fun r => String.eqb (rr_project_id r) (uuid_text project_id))
                      (t_releases t)))).

Definition release_columns (q r : ReleaseRow) : ReleaseRow :=
  mkReleaseRow (rr_id r) (rr_org_id r) (rr_project_id r) (rr_version r) (rr_short_version q)
    (rr_url q) (rr_crash_count q) (rr_new_issue_count q) (rr_regression_count q)
    (rr_user_count q) (rr_date_released q) (rr_first_event q) (rr_last_event q)
    (rr_created_at r).

Definition repo_update_release (rel : Release) : RepoOp unit :=
  let r := release_row rel in
  modify (fun _ => true)
    (fun t => put_releases (update_where (release_is (rr_id r)) (release_columns r)
                              (t_releases t)) t).

Definition new_release (id : Uuid) (now : Z) (project_id org_id : Uuid) (version : string)
    (short_version url : option string) (date_released : option Z) : Release :=
  mkRelease id org_id project_id version short_version url 0 0 0 0 date_released None None now.

Definition repo_get_or_create_release (id : Uuid) (now : Z) (project_id org_id : Uuid)
    (version : string) : RepoOp Release :=
  let* o := repo_get_release_by_version project_id version in
  match o with
  | Some release => ret release
  | None =>
      let release := new_release id now project_id org_id version None None None in
      let* _ := repo_create_release release in
      ret release
  end.

Definition bump_release (now : string) (is_new_issue is_regression : bool) (r : ReleaseRow)
    : ReleaseRow :=
  mkReleaseRow (rr_id r) (rr_org_id r) (rr_project_id r) (rr_version r) (rr_short_version r)
    (rr_url r) (rr_crash_count r + 1)%Z
    (if is_new_issue then rr_new_issue_count r + 1 else rr_new_issue_count r)%Z
    (if is_regression then rr_regression_count r + 1 else rr_regression_count r)%Z
    (rr_user_count r) (rr_date_released r) (Some (default now (rr_first_event r))) (Some now)
    (rr_created_at r).

Definition repo_increment_release_crash_count (now : Z) (project_id : Uuid) (version : string)
    (is_new_issue is_regression : bool) : RepoOp unit :=
  modify (fun _ => true)
    (fun t => put_releases
                (update_where (release_version_is (uuid_text project_id) version)
                   (bump_release (to_rfc3339 now) is_new_issue is_regression)
                   (t_releases t)) t).

(** ** Symbol artifacts *)

(** [UNIQUE(project_id, release, name, dist)] does not apply to a missing [dist]. *)
Definition repo_create_artifact (a : SymbolArtifact) : RepoOp unit :=
  let r := artifact_row a in
  modify (fun t => mem (tr_org_id r) (t_organizations t) && has_project t (tr_project_id r)
                   && mem (tr_uploaded_by r) (t_users t)
                   && negb (existsb (fun b => artifact_is (tr_id r) b
                        || (String.eqb (tr_project_id b) (tr_project_id r)
                            && String.eqb (tr_release b) (tr_release r)
                            && String.eqb (tr_name b) (tr_name r)
                            && match tr_dist r with
                               | Some d => opt_is (tr_dist b) d
                               | None => false
                               end)) (t_artifacts t)))
    (fun t => put_artifacts (t_artifacts t ++ [r]) t).

Definition repo_get_artifact_by_id (id : Uuid) : RepoOp (option SymbolArtifact) :=
  fetch_optional SymbolArtifact_try_from
    (fun t => select_one (artifact_is (uuid_text id)) (t_artifacts t)).

Definition repo_get_artifact_by_sha256 (project_id : Uuid) (sha256 : string)
    : RepoOp (option SymbolArtifact) :=
  fetch_optional SymbolArtifact_try_from
    (fun t => select_one (fun a => String.eqb (tr_project_id a) (uuid_text project_id)
                                   && String.eqb (tr_sha256 a) sha256) (t_artifacts t)).

Definition artifact_named (project_id release name : string) (dist : option string)
    (a : ArtifactRow) : bool :=
  String.eqb (tr_project_id a) project_id && String.eqb (tr_release a) release
  && String.eqb (tr_name a) name
  && match dist with
     | Some d => opt_is (tr_dist a) d
     | None => bool_decide (tr_dist a = None)
     end.

Definition repo_get_artifact_by_name (project_id : Uuid) (release name : string)
    (dist : option string) : RepoOp (option SymbolArtifact) :=
  fetch_optional SymbolArtifact_try_from
    (fun t => select_one (artifact_named (uuid_text project_id) release name dist)
                (t_artifacts t)).

Definition repo_list_artifacts (project_id : Uuid) (release : option string) (limit : Z)
    : RepoOp (list SymbolArtifact) :=
  fetch_all SymbolArtifact_try_from
    (fun t => sql_limit (wrap_i32 limit)
                (order_by true tr_uploaded_at
                   (select_where (fun a => String.eqb (tr_project_id a) (uuid_text project_id)
                        && match release with
                           | Some rel => String.eqb (tr_release a) rel
                           | None => true
                           end) (t_artifacts t)))).

Definition repo_delete_artifact (id : Uuid) : RepoOp bool :=
  sql_write CE_Database (fun t =>
    (existsb (artifact_is (uuid_text id)) (t_artifacts t),
     put_artifacts (delete_where (artifact_is (uuid_text id)) (t_artifacts t)) t)).

Definition artifact_old (cutoff : string) (a : ArtifactRow) : bool :=
  match tr_last_accessed_at a with
  | Some accessed => String.ltb accessed cutoff
  | None => String.ltb (tr_uploaded_at a) cutoff
  end.

Definition repo_delete_old_artifacts (cutoff : Z) : RepoOp Z :=
  sql_write CE_Database (fun t =>
    (Z.of_nat (count_where (artifact_old (to_rfc3339 cutoff)) (t_artifacts t)),
     put_artifacts (delete_where (artifact_old (to_rfc3339 cutoff)) (t_artifacts t)) t)).

Definition set_last_accessed (now : Z) (a : ArtifactRow) : ArtifactRow :=
  mkArtifactRow (tr_id a) (tr_org_id a) (tr_project_id a) (tr_release a) (tr_dist a)
    (tr_artifact_type a) (tr_name a) (tr_data a) (tr_size_bytes a) (tr_sha256 a)
    (tr_source_map_url a) (tr_sources_content a) (tr_uploaded_at a) (tr_uploaded_by a)
    (Some (to_rfc3339 now)).

Definition repo_update_artifact_last_accessed (now : Z) (id : Uuid) : RepoOp unit :=
  modify (fun _ => true)
    (fun t => put_artifacts (update_where (artifact_is (uuid_text id)) (set_last_accessed now)
                               (t_artifacts t)) t).

(** ** Keys *)

Definition repo_create_api_key (k : CrashApiKey) : RepoOp unit :=
  let r := api_key_row k in
  modify (fun t => has_project t (kr_project_id r) && mem (kr_created_by r) (t_users t)
                   && negb (existsb (api_key_is (kr_id r)) (t_api_keys t)))
    (fun t => put_api_keys (t_api_keys t ++ [r]) t).

Definition repo_get_api_key_by_id (id : Uuid) : RepoOp (option CrashApiKey) :=
  fetch_optional CrashApiKey_try_from
    (fun t => select_one (api_key_is (uuid_text id)) (t_api_keys t)).

Definition repo_get_api_key_by_hash (key_hash : string) : RepoOp (option CrashApiKey) :=
  fetch_optional CrashApiKey_try_from
    (fun t => select_one (fun k => String.eqb (kr_key_hash k) key_hash) (t_api_keys t)).

Definition repo_list_api_keys (project_id : Uuid) : RepoOp (list CrashApiKey) :=
  fetch_all CrashApiKey_try_from
    (fun t => order_by true kr_created_at
                (select_where (fun k => String.eqb (kr_project_id k) (uuid_text project_id))
                   (t_api_keys t))).

Definition set_key_times (last_used revoked : option string) (k : ApiKeyRow) : ApiKeyRow :=
  mkApiKeyRow (kr_id k) (kr_project_id k) (kr_name k) (kr_key_type k) (kr_key_hash k)
    (kr_rate_limit_per_minute k) (kr_allowed_origins k) (kr_created_by k) (kr_created_at k)
    last_used revoked.

Definition live_key (id : string) (k : ApiKeyRow) : bool :=
  api_key_is id k && bool_decide (kr_revoked_at k = None).

Definition repo_revoke_api_key (now : Z) (id : Uuid) : RepoOp bool :=
  sql_write CE_Database (fun t =>
    (existsb (live_key (uuid_text id)) (t_api_keys t),
     put_api_keys
       (update_where (live_key (uuid_text id))
          (fun k => set_key_times (kr_last_used_at k) (Some (to_rfc3339 now)) k)
          (t_api_keys t)) t)).

Definition repo_update_api_key_last_used (now : Z) (id : Uuid) : RepoOp unit :=
  modify (fun _ => true)
    (fun t => put_api_keys
                (update_where (api_key_is (uuid_text id))
                   (fun k => set_key_times (Some (to_rfc3339 now)) (kr_revoked_at k) k)
                   (t_api_keys t)) t).

(** [OrgRepository::get_membership] of [crates/loom-server-db]; the handlers only look
    whether there is one. *)
Definition repo_get_membership (org_id user_id : Uuid) : RepoOp bool :=
  query (fun t => existsb (fun m => String.eqb m.1 (uuid_text org_id)
                                    && String.eqb m.2 (uuid_text user_id)) (t_memberships t)).

End Repo.
