(* ===== verification/CrashCapture.v ===== *)
(** Capturing crashes: symbolicate.rs, api_key.rs and sse.rs of
    [crates/loom-server-crash], rust.rs of [crates/loom-crash-symbolicate], and common.rs
    and capture.rs of [crates/loom-server/src/routes/crash].

    A handler runs on the database, the channels of the broadcaster, the audit log and
    the tasks it has spawned; it answers, fails with a status or panics.  The clock and
    the new identifiers of a request are an [Env]; the caller is authenticated. *)
From stdpp Require Import base gmap list strings pretty.
From Stdlib Require Import ZArith Lia Ascii.
From S2P Require Import Prelude Text CoreTypes Effects Sql Columns SourceMap CrashModel CrashRepo.

(** * The server *)

(** What the handlers use of [argon2], [serde_json], [rustc_demangle] and of the
    translations; [overflow_checks] is the build profile. *)
Class CrashBackend := {
  cb_texts :: CrashTexts;
  overflow_checks : bool;
  argon2_verify : string -> string -> result unit bool;
  parse_source_map : string -> result string RawSourceMap;
  demangle : string -> string;
  translate : string -> string -> string;
}.

(** ** sse.rs *)
Inductive CrashStreamEvent :=
| CS_Init (project_id : Uuid) (issue_count : Z)
| CS_CrashNew (event_id issue_id : Uuid) (short_id title : string) (is_new_issue : bool)
| CS_IssueRegressed (issue_id : Uuid) (short_id title : string) (times_regressed : Z)
    (regressed_in_release : option string)
| CS_IssueResolved (issue_id : Uuid) (short_id : string)
| CS_IssueAssigned (issue_id : Uuid) (short_id : string) (assigned_to : option string)
| CS_Heartbeat (timestamp : string).

Definition crash_event_type (e : CrashStreamEvent) : string :=
  match e with
  | CS_Init _ _ => "init"
  | CS_CrashNew _ _ _ _ _ => "crash.new"
  | CS_IssueRegressed _ _ _ _ _ => "issue.regressed"
  | CS_IssueResolved _ _ => "issue.resolved"
  | CS_IssueAssigned _ _ _ => "issue.assigned"
  | CS_Heartbeat _ => "heartbeat"
  end.

(** [CrashBroadcaster]: the channels that exist, each with what was sent on it. *)
Definition Channels : Type := gmap Uuid (list CrashStreamEvent).

Definition subscribe (project_id : Uuid) (ch : Channels) : Channels :=
  match ch !! project_id with
  | Some _ => ch
  | None => <[project_id := []]> ch
  end.

Definition broadcast (project_id : Uuid) (e : CrashStreamEvent) (ch : Channels) : Channels :=
  match ch !! project_id with
  | Some sent => <[project_id := sent ++ [e]]> ch
  | None => ch
  end.

Definition new_crash_event (event_id : Uuid) (i : Issue) (is_new_issue : bool)
    : CrashStreamEvent :=
  CS_CrashNew event_id (is_id i) (is_short_id i) (is_title i) is_new_issue.
Definition regression_event (i : Issue) : CrashStreamEvent :=
  CS_IssueRegressed (is_id i) (is_short_id i) (is_title i) (is_times_regressed i)
    (is_regressed_in_release i).
Definition resolved_event (i : Issue) : CrashStreamEvent :=
  CS_IssueResolved (is_id i) (is_short_id i).

(** ** The state of the handlers *)

Record CrashAudit := mkCrashAudit {
  ca_event_type : string;
  ca_actor : Uuid;
  ca_resource_type : string;
  ca_resource_id : string;
  ca_details : list (string * Detail);
}.

(** [tokio::spawn]: updates that the request does not wait for. *)
Inductive CrashTask :=
| Task_KeyUsed (key_id : Uuid)
| Task_ArtifactAccessed (artifact_id : Uuid).

Record CrashWorld := mkCrashWorld {
  cw_conn : Conn CrashTables;
  cw_channels : Channels;
  cw_audit : list CrashAudit;
  cw_tasks : list CrashTask;
}.

Definition put_conn (c : Conn CrashTables) (w : CrashWorld) : CrashWorld :=
  mkCrashWorld c (cw_channels w) (cw_audit w) (cw_tasks w).

Definition HandlerM (E A : Type) : Type := StM CrashWorld (Failure E) A.

(** A call of the repository whose error [f] turns into the handler's. *)
Definition repo {E A} (f : CrashServerError -> E) (m : RepoOp A) : HandlerM E A :=
  map_err (fun e => Failed (f e)) (on_part cw_conn put_conn m).

(** A call whose error the handler inspects or ignores. *)
Definition try_repo {E A} (m : RepoOp A) : HandlerM E (result CrashServerError A) :=
  attempt (on_part cw_conn put_conn m).

Definition of_run {E A} (r : run A) : HandlerM E A :=
  match r with Done a => ret a | Panic => raise Panicked end.

Definition send {E} (project_id : Uuid) (e : CrashStreamEvent) : HandlerM E unit := fun w =>
  (Ok tt, mkCrashWorld (cw_conn w) (broadcast project_id e (cw_channels w)) (cw_audit w)
            (cw_tasks w)).

Definition log_audit {E} (a : CrashAudit) : HandlerM E unit := fun w =>
  (Ok tt, mkCrashWorld (cw_conn w) (cw_channels w) (cw_audit w ++ [a]) (cw_tasks w)).

Definition spawn {E} (t : CrashTask) : HandlerM E unit := fun w =>
  (Ok tt, mkCrashWorld (cw_conn w) (cw_channels w) (cw_audit w) (cw_tasks w ++ [t])).

Section Capture.
Context `{CB : CrashBackend}.

(** ** common.rs *)

Definition internal_error (locale : string) : HttpError :=
  http 500 "internal_error" (translate locale "server.api.error.internal").

Fixpoint replace_char (a b : ascii) (s : string) : string :=
  match s with
  | EmptyString => EmptyString
  | String c s => String (if bool_decide (c = a) then b else c) (replace_char a b s)
  end.

Definition not_found (resource : string) : HttpError :=
  http 404 (resource +:+ "_not_found") (replace_char "_" " " resource +:+ " not found").

Definition parse_id {E} (e : E) (s : string) : HandlerM E Uuid :=
  match uuid_parse s with Ok u => ret u | Err _ => raise (Failed e) end.

Definition parse_project_id (s : string) : HandlerM HttpError Uuid :=
  parse_id (http 400 "invalid_project_id" "Invalid project ID") s.

Definition verify_org_membership (org_id user_id : Uuid) (locale : string)
    : HandlerM HttpError unit :=
  let* member := repo (fun _ => internal_error locale) (repo_get_membership org_id user_id) in
  if member : bool then ret tt
  else raise (Failed (http 403 "forbidden" (translate locale "server.api.org.not_a_member"))).

(** ** rust.rs *)

(** [&s[..s.rfind(pat)?]]. *)
Fixpoint before_last (pat s : string) : option string :=
  match s with
  | EmptyString => None
  | String c rest =>
      match before_last pat rest with
      | Some p => Some (String c p)
      | None => if String.prefix pat s then Some EmptyString else None
      end
  end.

Definition symbolicate_rust_frame (f : Frame) : Frame :=
  match f_function f with
  | Some func =>
      let demangled := demangle func in
      if String.eqb demangled func then f
      else
        mkFrame (Some demangled)
          (match before_last "::" demangled with Some m => Some m | None => f_module f end)
          (f_filename f) (f_abs_path f) (f_lineno f) (f_colno f) (f_context_line f)
          (f_pre_context f) (f_post_context f) (f_in_app f) (f_instruction_addr f)
          (f_symbol_addr f)
  | None => f
  end.

(** ** symbolicate.rs *)

(** The artifact to use for a file: under its name with [.map], else under its own
    name; anything else is skipped. *)
Definition find_artifact {E} (project_id : Uuid) (release : string) (dist : option string)
    (filename : string) : HandlerM E (option SymbolArtifact) :=
  let source_map_name := if ends_with filename ".map" then filename else filename +:+ ".map" in
  let* r := try_repo (repo_get_artifact_by_name project_id release source_map_name dist) in
  match r with
  | Ok (Some a) => ret (if decide (ar_artifact_type a = AT_SourceMap) then Some a else None)
  | Ok None =>
      let* r := try_repo (repo_get_artifact_by_name project_id release filename dist) in
      match r with
      | Ok (Some a) => ret (if decide (ar_artifact_type a = AT_SourceMap) then Some a else None)
      | _ => ret None
      end
  | Err _ => ret None
  end.

(** The frame with its original position; [c] is the source context. *)
Definition original_frame (p : OriginalPosition) (c : option (list string * string * list string))
    (f : Frame) : Frame :=
  mkFrame (match op_name p with Some n => Some n | None => f_function f end)
    (f_module f) (Some (op_source p)) (f_abs_path f) (Some (op_line p)) (Some (op_column p))
    (match c with Some (_, line, _) => Some line | None => f_context_line f end)
    (match c with Some (pre, _, _) => pre | None => f_pre_context f end)
    (match c with Some (_, _, post) => post | None => f_post_context f end)
    (f_in_app f) (f_instruction_addr f) (f_symbol_addr f).

Definition symbolicate_js_frame {E} (project_id : Uuid) (release : string)
    (dist : option string) (f : Frame) : HandlerM E Frame :=
  match f_filename f, f_lineno f, f_colno f with
  | Some filename, Some lineno, Some colno =>
      let* artifact := find_artifact project_id release dist filename in
      match artifact with
      | None => ret f
      | Some artifact =>
          let* _ := spawn (Task_ArtifactAccessed (ar_id artifact)) in
          let* sm := of_run (from_bytes overflow_checks (parse_source_map (ar_data artifact))) in
          match sm with
          | Err _ => ret f
          | Ok sm =>
              let* pos := of_run (lookup overflow_checks sm lineno colno) in
              match pos with
              | Ok (Some original) =>
                  match op_source_content original with
                  | Some content =>
                      let* c := of_run (extract_context overflow_checks content
                                          (op_line original) 5) in
                      ret (original_frame original (Some c) f)
                  | None => ret (original_frame original None f)
                  end
              | _ => ret f
              end
          end
      end
  | _, _, _ => ret f
  end.

Fixpoint symbolicate_js_frames {E} (project_id : Uuid) (release : string)
    (dist : option string) (fs : list Frame) : HandlerM E (list Frame) :=
  match fs with
  | [] => ret []
  | f :: fs =>
      let* f := symbolicate_js_frame project_id release dist f in
      let* fs := symbolicate_js_frames project_id release dist fs in
      ret (f :: fs)
  end.

(** [SymbolicationService::symbolicate]; neither platform's code fails. *)
Definition symbolicate {E} (st : Stacktrace) (platform : Platform) (project_id : Uuid)
    (release : option string) (dist : option string) : HandlerM E Stacktrace :=
  match release with
  | None => ret st
  | Some release =>
      match platform with
      | JavaScript | Node =>
          let* fs := symbolicate_js_frames project_id release dist (frames st) in
          ret (mkStacktrace fs)
      | Rust => ret (mkStacktrace (map symbolicate_rust_frame (frames st)))
      end
  end.

Definition set_stacktrace (raw : option Stacktrace) (st : Stacktrace) (e : CrashEvent)
    : CrashEvent :=
  mkCrashEvent (ev_id e) (ev_org_id e) (ev_project_id e) (ev_issue_id e) (ev_person_id e)
    (ev_distinct_id e) (ev_exception_type e) (ev_exception_value e) st raw (ev_release e)
    (ev_dist e) (ev_environment e) (ev_platform e) (ev_runtime e) (ev_server_name e) (ev_tags e)
    (ev_extra e) (ev_user_context e) (ev_device_context e) (ev_browser_context e)
    (ev_os_context e) (ev_active_flags e) (ev_request e) (ev_breadcrumbs e) (ev_timestamp e)
    (ev_received_at e).

Definition symbolicate_event {E} (e : CrashEvent) (project_id : Uuid) : HandlerM E CrashEvent :=
  match ev_release e with
  | None => ret e
  | Some release =>
      let* st := symbolicate (ev_stacktrace e) (ev_platform e) project_id (Some release)
                   (ev_dist e) in
      ret (if decide (frames st = frames (ev_stacktrace e)) then e
           else set_stacktrace (Some (ev_stacktrace e)) st e)
  end.

(** ** capture.rs *)

Record CaptureFrame := mkCaptureFrame {
  cf_function : option string;
  cf_module : option string;
  cf_filename : option string;
  cf_abs_path : option string;
  cf_lineno : option Z;
  cf_colno : option Z;
  cf_in_app : bool;
}.

Record CaptureBreadcrumb := mkCaptureBreadcrumb {
  cbc_timestamp : option string;
  cbc_category : option string;
  cbc_message : option string;
  cbc_level : option string;
  cbc_data : Json;
}.

(** [stacktrace] is the list of its frames. *)
Record CaptureRequest := mkCaptureRequest {
  cr_project_id : string;
  cr_exception_type : string;
  cr_exception_value : string;
  cr_stacktrace : option (list CaptureFrame);
  cr_environment : option string;
  cr_platform : option string;
  cr_release : option string;
  cr_dist : option string;
  cr_distinct_id : option string;
  cr_person_id : option string;
  cr_server_name : option string;
  cr_tags : gmap string string;
  cr_extra : Json;
  cr_active_flags : gmap string string;
  cr_breadcrumbs : list CaptureBreadcrumb;
  cr_timestamp : option string;
}.

Record CaptureResponse := mkCaptureResponse {
  cp_event_id : string;
  cp_issue_id : string;
  cp_short_id : string;
  cp_is_new_issue : bool;
  cp_is_regression : bool;
}.

Definition frame_of (f : CaptureFrame) : Frame :=
  mkFrame (cf_function f) (cf_module f) (cf_filename f) (cf_abs_path f) (cf_lineno f)
    (cf_colno f) None [] [] (cf_in_app f) None None.

(** A time of the request, or the clock's. *)
Definition time_or (now : Z) (s : option string) : Z :=
  default now (s ≫= parse_from_rfc3339).

Definition breadcrumb_of (now : Z) (b : CaptureBreadcrumb) : Breadcrumb :=
  mkBreadcrumb (time_or now (cbc_timestamp b)) (default "" (cbc_category b)) (cbc_message b)
    (default BL_Info (cbc_level b ≫= BreadcrumbLevel_from_str)) (cbc_data b).

Definition uuid_ok (s : string) : option Uuid :=
  match uuid_parse s with Ok u => Some u | Err _ => None end.

(** Calls of the clock: 0 is the event's time, 1 its receipt, 10 + i the i-th
    breadcrumb's; identifiers: 0 is the event's, 1 the distinct id. *)
Definition convert_capture_request (env : Env) (body : CaptureRequest) (org_id project_id : Uuid)
    : CrashEvent :=
  let platform := default JavaScript (Platform_from_str (default "javascript" (cr_platform body))) in
  mkCrashEvent (env_uuid env 0) org_id project_id None (cr_person_id body ≫= uuid_ok)
    (default (uuid_text (env_uuid env 1)) (cr_distinct_id body)) (cr_exception_type body)
    (cr_exception_value body)
    (mkStacktrace (default [] ((fun st => map frame_of st) <$> cr_stacktrace body))) None
    (cr_release body) (cr_dist body) (default "production" (cr_environment body)) platform None
    (cr_server_name body) (cr_tags body) (cr_extra body) None None None None
    (cr_active_flags body) None
    (imap (fun i b => breadcrumb_of (env_now env (10 + i)) b) (cr_breadcrumbs body))
    (time_or (env_now env 0) (cr_timestamp body)) (env_now env 1).

Definition set_issue_id (id : Uuid) (e : CrashEvent) : CrashEvent :=
  mkCrashEvent (ev_id e) (ev_org_id e) (ev_project_id e) (Some id) (ev_person_id e)
    (ev_distinct_id e) (ev_exception_type e) (ev_exception_value e) (ev_stacktrace e)
    (ev_raw_stacktrace e) (ev_release e) (ev_dist e) (ev_environment e) (ev_platform e)
    (ev_runtime e) (ev_server_name e) (ev_tags e) (ev_extra e) (ev_user_context e)
    (ev_device_context e) (ev_browser_context e) (ev_os_context e) (ev_active_flags e)
    (ev_request e) (ev_breadcrumbs e) (ev_timestamp e) (ev_received_at e).

(** ** Changing an issue *)

Definition set_counts (events users : Z) (last_seen updated_at : Z) (i : Issue) : Issue :=
  mkIssue (is_id i) (is_org_id i) (is_project_id i) (is_short_id i) (is_fingerprint i)
    (is_title i) (is_culprit i) (is_metadata i) (is_status i) (is_level i) (is_priority i)
    events users (is_first_seen i) last_seen (is_resolved_at i) (is_resolved_by i)
    (is_resolved_in_release i) (is_times_regressed i) (is_last_regressed_at i)
    (is_regressed_in_release i) (is_assigned_to i) (is_created_at i) updated_at.

Definition set_regression (status : IssueStatus) (times at_ : Z) (release : option string)
    (i : Issue) : Issue :=
  mkIssue (is_id i) (is_org_id i) (is_project_id i) (is_short_id i) (is_fingerprint i)
    (is_title i) (is_culprit i) (is_metadata i) status (is_level i) (is_priority i)
    (is_event_count i) (is_user_count i) (is_first_seen i) (is_last_seen i) (is_resolved_at i)
    (is_resolved_by i) (is_resolved_in_release i) times (Some at_) release (is_assigned_to i)
    (is_created_at i) (is_updated_at i).

Definition is_resolved (i : Issue) : bool := bool_decide (is_status i = Resolved).

Definition issue_metadata_of (e : CrashEvent) : IssueMetadata :=
  mkIssueMetadata (ev_exception_type e) (ev_exception_value e)
    (first_app_frame e ≫= f_filename) (first_app_frame e ≫= f_function).

(** The issue of a first event. *)
Definition new_issue (id : Uuid) (org_id project_id : Uuid) (short_id fingerprint title : string)
    (culprit : option string) (e : CrashEvent) (created_at updated_at : Z) : Issue :=
  mkIssue id org_id project_id short_id fingerprint title culprit (issue_metadata_of e)
    Unresolved IL_Error Medium 1 (if ev_person_id e then 1 else 0)%Z (ev_timestamp e)
    (ev_timestamp e) None None None 0 None None None created_at updated_at.

(** [add_issue_person], whose failure is ignored. *)
Definition track_person {E} (now now' : Z) (issue_id : Uuid) (person : option Uuid)
    : HandlerM E unit :=
  match person with
  | Some pid =>
      let* _ := try_repo (repo_add_issue_person now now' issue_id pid) in ret tt
  | None => ret tt
  end.

(** [find_or_create_issue] and its copy in [process_single_capture], which differ in
    what they make of an error. *)
Definition find_or_create_issue {E} (fail : string -> CrashServerError -> E) (env : Env)
    (e : CrashEvent) (project_id : Uuid) (fingerprint : string)
    : HandlerM E (Issue * bool * bool) :=
  let* found := repo (fail "find issue") (repo_get_issue_by_fingerprint project_id fingerprint) in
  match found with
  | Some existing =>
      let is_regression := is_resolved existing in
      let* count := of_run (add_u64 overflow_checks (is_event_count existing) 1) in
      let seen := set_counts count (is_user_count existing) (ev_timestamp e)
                    (is_updated_at existing) existing in
      let* issue :=
        if is_regression then
          let* times := of_run (add_u32 overflow_checks (is_times_regressed existing) 1) in
          ret (set_regression Regressed times (env_now env 2) (ev_release e) seen)
        else ret seen in
      let* _ := repo (fail "update issue") (repo_update_issue (env_now env 3) issue) in
      let* _ := track_person (env_now env 4) (env_now env 5) (is_id issue) (ev_person_id e) in
      let* _ := if is_regression then send project_id (regression_event issue) else ret tt in
      ret (issue, false, is_regression)
  | None =>
      let* short_id := repo (fail "get short ID")
                         (repo_get_next_short_id overflow_checks project_id) in
      let* short_id := of_run short_id in
      let* value := of_run (truncate (ev_exception_value e) 100) in
      let title := ev_exception_type e +:+ ": " +:+ value in
      let issue := new_issue (env_uuid env 2) (ev_org_id e) project_id short_id fingerprint title
                     (find_culprit e) e (env_now env 6) (env_now env 7) in
      let* _ := repo (fail "create issue") (repo_create_issue issue) in
      let* _ := track_person (env_now env 4) (env_now env 5) (is_id issue) (ev_person_id e) in
      ret (issue, true, false)
  end.

Definition track_release {E} (env : Env) (e : CrashEvent) (project_id : Uuid)
    (is_new_issue is_regression : bool) : HandlerM E unit :=
  match ev_release e with
  | Some version =>
      let* _ := try_repo (repo_get_or_create_release (env_uuid env 3) (env_now env 8) project_id
                            (ev_org_id e) version) in
      let* _ := try_repo (repo_increment_release_crash_count (env_now env 9) project_id version
                            is_new_issue is_regression) in
      ret tt
  | None => ret tt
  end.

Definition response_of (e : CrashEvent) (i : Issue) (is_new_issue is_regression : bool)
    : CaptureResponse :=
  mkCaptureResponse (uuid_text (ev_id e)) (uuid_text (is_id i)) (is_short_id i) is_new_issue
    is_regression.

(** From the grouped event to the answer. *)
Definition record_event {E} (fail : string -> CrashServerError -> E) (env : Env)
    (e : CrashEvent) (project_id : Uuid) (issue : Issue) (is_new_issue is_regression : bool)
    : HandlerM E CaptureResponse :=
  let e := set_issue_id (is_id issue) e in
  let* _ := repo (fail "create event") (repo_create_event e) in
  let* _ := track_release env e project_id is_new_issue is_regression in
  let* _ := send project_id (new_crash_event (ev_id e) issue is_new_issue) in
  ret (response_of e issue is_new_issue is_regression).

Definition capture_crash (env : Env) (locale : string) (user_id : Uuid) (body : CaptureRequest)
    : HandlerM HttpError CaptureResponse :=
  let fail (_ : string) (_ : CrashServerError) := internal_error locale in
  let* project_id := parse_project_id (cr_project_id body) in
  let* o := repo (fail "get project") (repo_get_project_by_id project_id) in
  match o with
  | None => raise (Failed (http 404 "project_not_found" "Project not found"))
  | Some project =>
      let* _ := verify_org_membership (pj_org_id project) user_id locale in
      let e := convert_capture_request env body (pj_org_id project) project_id in
      let* e := symbolicate_event e project_id in
      let fingerprint := compute_fingerprint sha256_hex e in
      let* (issue, is_new_issue, is_regression) :=
        find_or_create_issue fail env e project_id fingerprint in
      record_event fail env e project_id issue is_new_issue is_regression
  end.

(** ** api_key.rs *)

Definition KEY_PREFIX_CAPTURE : string := "loom_crash_capture_".
Definition KEY_PREFIX_ADMIN : string := "loom_crash_admin_".

(** [argon2_verify] fails on a hash that does not parse. *)
Definition verify_api_key (key hash_or_key : string) : result CrashServerError bool :=
  if negb (starts_with hash_or_key "$argon2") then Ok (String.eqb key hash_or_key)
  else match argon2_verify key hash_or_key with
       | Ok b => Ok b
       | Err _ => Err CE_InvalidApiKey
       end.

(** ** Capture with a key *)

Definition server_error : HttpError := http 500 "internal_error" "Internal server error".

(** The first key that is not revoked and verifies. *)
Definition usable_key (raw_key : string) (k : CrashApiKey) : bool :=
  negb (is_revoked k)
  && match verify_api_key raw_key (ak_key_hash k) with Ok true => true | _ => false end.

Definition verify_project_api_key (project_id : Uuid) (raw_key : string)
    : HandlerM HttpError CrashApiKey :=
  let* keys := repo (fun _ => server_error) (repo_list_api_keys project_id) in
  match List.find (usable_key raw_key) keys with
  | Some key => let* _ := spawn (Task_KeyUsed (ak_id key)) in ret key
  | None => raise (Failed (http 401 "invalid_api_key" "Invalid or revoked API key"))
  end.

Definition sdk_culprit (e : CrashEvent) : option string :=
  (fun f => default "<anonymous>" (f_function f) +:+ " in " +:+ default "<unknown>" (f_filename f))
    <$> first_app_frame e.

(** The existing issue: a regression makes it unresolved again. *)
Definition sdk_existing_issue (env : Env) (e : CrashEvent) (existing : Issue)
    : HandlerM HttpError (Issue * bool * bool) :=
  let is_regression := is_resolved existing in
  let* regressed :=
    if is_regression then
      let* times := of_run (add_u32 overflow_checks (is_times_regressed existing) 1) in
      ret (set_regression Unresolved times (ev_timestamp e) (ev_release e) existing)
    else ret existing in
  let* count := of_run (add_u64 overflow_checks (is_event_count regressed) 1) in
  let seen := set_counts count (is_user_count regressed) (ev_timestamp e) (env_now env 2)
                regressed in
  let* issue :=
    match ev_person_id e with
    | Some pid =>
        let* has := try_repo (repo_issue_has_person (is_id seen) pid) in
        if match has with Ok b => b | Err _ => false end then ret seen
        else
          let* users := of_run (add_u64 overflow_checks (is_user_count seen) 1) in
          let* _ := try_repo (repo_add_issue_person (env_now env 4) (env_now env 5) (is_id seen)
                                pid) in
          ret (set_counts (is_event_count seen) users (is_last_seen seen) (is_updated_at seen)
                 seen)
    | None => ret seen
    end in
  let* _ := repo (fun _ => server_error) (repo_update_issue (env_now env 3) issue) in
  ret (issue, false, is_regression).

Definition sdk_new_issue (env : Env) (e : CrashEvent) (org_id project_id : Uuid)
    (fingerprint : string) : HandlerM HttpError (Issue * bool * bool) :=
  let* short_id := repo (fun _ => server_error)
                     (repo_get_next_short_id overflow_checks project_id) in
  let* short_id := of_run short_id in
  let title := ev_exception_type e +:+ ": " +:+ ev_exception_value e in
  let issue := new_issue (env_uuid env 2) org_id project_id short_id fingerprint title
                 (sdk_culprit e) e (env_now env 6) (env_now env 7) in
  let* _ := repo (fun _ => server_error) (repo_create_issue issue) in
  let* _ := track_person (env_now env 4) (env_now env 5) (is_id issue) (ev_person_id e) in
  ret (issue, true, false).

(** [key_header] is the header's value when it is a text. *)
Definition capture_crash_with_api_key (env : Env) (key_header : option string)
    (body : CaptureRequest) : HandlerM HttpError CaptureResponse :=
  match key_header with
  | None => raise (Failed (http 401 "missing_api_key" "Missing x-crash-api-key header"))
  | Some raw_key =>
      let* project_id := parse_project_id (cr_project_id body) in
      let* o := repo (fun _ => server_error) (repo_get_project_by_id project_id) in
      match o with
      | None => raise (Failed (http 404 "project_not_found" "Project not found"))
      | Some project =>
          let* key := verify_project_api_key project_id raw_key in
          if negb (bool_decide (ak_key_type key = CK_Capture))
             && negb (bool_decide (ak_key_type key = CK_Admin))
          then raise (Failed (http 403 "forbidden" "API key does not have capture permission"))
          else
            let e := convert_capture_request env body (pj_org_id project) project_id in
            let* e := symbolicate_event e project_id in
            let fingerprint := compute_fingerprint sha256_hex e in
            let* found := try_repo (repo_get_issue_by_fingerprint project_id fingerprint) in
            let* (issue, is_new_issue, is_regression) :=
              match found with
              | Ok (Some existing) => sdk_existing_issue env e existing
              | _ => sdk_new_issue env e (pj_org_id project) project_id fingerprint
              end in
            record_event (fun _ _ => server_error) env e project_id issue is_new_issue
              is_regression
      end
  end.

(** ** Batches *)

(** [Display]. *)
Definition CrashServerError_to_string (e : CrashServerError) : string :=
  match e with
  | CE_ProjectNotFound s => "project not found: " +:+ s
  | CE_IssueNotFound s => "issue not found: " +:+ s
  | CE_EventNotFound s => "event not found: " +:+ s
  | CE_ApiKeyNotFound s => "API key not found: " +:+ s
  | CE_ApiKeyRevoked => "API key revoked"
  | CE_InvalidApiKey => "invalid API key"
  | CE_ApiKeyHash => "failed to hash API key"
  | CE_Database s => "database error: " +:+ s
  | CE_Serialization s => "serialization error: " +:+ s
  | CE_InvalidUuid s => "invalid UUID: " +:+ s
  | CE_InvalidDateTime s => "invalid datetime: " +:+ s
  | CE_Parse s => "parse error: " +:+ s
  | CE_Symbolication s => "symbolication error: " +:+ s
  end.

(** [OrgRepository] fails with the [DbError] of the statement. *)
Definition org_error_to_string (e : CrashServerError) : string :=
  match e with
  | CE_Database s => "Database error: " +:+ s
  | e => CrashServerError_to_string e
  end.

Definition process_single_capture (env : Env) (locale : string) (user_id : Uuid)
    (body : CaptureRequest) : HandlerM string CaptureResponse :=
  let fail (what : string) (e : CrashServerError) :=
    "Failed to " +:+ what +:+ ": " +:+ CrashServerError_to_string e in
  let* project_id := parse_id "Invalid project ID" (cr_project_id body) in
  let* o := repo (fail "get project") (repo_get_project_by_id project_id) in
  match o with
  | None => raise (Failed "Project not found")
  | Some project =>
      let* member := repo (fun e => "Failed to check org membership: " +:+ org_error_to_string e)
                       (repo_get_membership (pj_org_id project) user_id) in
      if negb member then raise (Failed (translate locale "server.api.org.not_a_member"))
      else
        let e := convert_capture_request env body (pj_org_id project) project_id in
        let* e := symbolicate_event e project_id in
        let fingerprint := compute_fingerprint sha256_hex e in
        let* (issue, is_new_issue, is_regression) :=
          find_or_create_issue fail env e project_id fingerprint in
        record_event fail env e project_id issue is_new_issue is_regression
  end.

(** The result for one event of a batch: its index and the answer or the message. *)
Record BatchCaptureEventResult := mkBatchResult {
  br_index : nat;
  br_result : result string CaptureResponse;
}.

Record BatchCaptureResponse := mkBatchResponse {
  br_total : nat;
  br_success_count : nat;
  br_error_count : nat;
  br_results : list BatchCaptureEventResult;
}.

(** A panic of one event ends the request. *)
Definition catch_failed {A} (m : HandlerM string A) : HandlerM HttpError (result string A) := fun w =>
  match m w with
  | (Ok a, w) => (Ok (Ok a), w)
  | (Err (Failed msg), w) => (Ok (Err msg), w)
  | (Err Panicked, w) => (Err Panicked, w)
  end.

Fixpoint batch_loop (envs : nat -> Env) (locale : string) (user_id : Uuid) (index : nat)
    (events : list CaptureRequest) : HandlerM HttpError (list BatchCaptureEventResult) :=
  match events with
  | [] => ret []
  | event :: events =>
      let* r := catch_failed (process_single_capture (envs index) locale user_id event) in
      let* rs := batch_loop envs locale user_id (S index) events in
      ret (mkBatchResult index r :: rs)
  end.

Definition is_ok {E A} (r : result E A) : bool := match r with Ok _ => true | Err _ => false end.

Definition MAX_BATCH_SIZE : nat := 100.

Definition batch_capture_crash (envs : nat -> Env) (locale : string) (user_id : Uuid)
    (events : list CaptureRequest) : HandlerM HttpError BatchCaptureResponse :=
  if (MAX_BATCH_SIZE <? length events)%nat
  then raise (Failed (http 400 "batch_too_large"
                        ("Batch size exceeds maximum of " +:+ pretty MAX_BATCH_SIZE +:+ " events")))
  else
    let* results := batch_loop envs locale user_id 0 events in
    ret (mkBatchResponse (length results)
           (length (List.filter (fun r => is_ok (br_result r)) results))
           (length (List.filter (fun r => negb (is_ok (br_result r))) results)) results).

(** ** Spawned tasks *)

(** A task runs at some later time, and nothing looks at its outcome. *)
Definition run_crash_task (now : Z) (t : CrashTask) (w : CrashWorld) : CrashWorld :=
  put_conn (match t with
            | Task_KeyUsed id => (repo_update_api_key_last_used now id (cw_conn w)).2
            | Task_ArtifactAccessed id =>
                (repo_update_artifact_last_accessed now id (cw_conn w)).2
            end) w.

End Capture.
