(* ===== verification/CrashProcessor.v ===== *)
(** The symbolication processor: processor.rs of [crates/loom-crash-symbolicate], which
    looks source maps up through [ArtifactLookup] and caches the parsed ones.

    The cache is behind a mutex: a panic while it is locked poisons it, and every later
    lock panics. *)
From stdpp Require Import base gmap list strings.
From Stdlib Require Import ZArith Lia Ascii.
From S2P Require Import Prelude Text CoreTypes Effects Columns SourceMap CrashModel CrashRepo CrashCapture.

Section Processor.
Context `{CB : CrashBackend}.

Definition CONTEXT_LINES : Z := 5.

(** [ArtifactLookup]: release, dist and file name to the bytes of a source map. *)
Definition ArtifactLookup : Type := string -> option string -> string -> option string.

(** [InMemoryArtifacts], which ignores [dist]. *)
Definition InMemoryArtifacts : Type := gmap (string * string) string.

Definition artifacts_add (release filename data : string) (a : InMemoryArtifacts)
    : InMemoryArtifacts := <[(release, filename) := data]> a.

Definition in_memory_lookup (a : InMemoryArtifacts) : ArtifactLookup := fun release _ filename =>
  match a !! (release, filename) with
  | Some data => Some data
  | None => a !! (release, filename +:+ ".map")
  end.

(** [None] is a poisoned mutex. *)
Definition SourceMapCache : Type := option (gmap string ParsedSourceMap).

Definition ProcessorM (A : Type) : Type := StM SourceMapCache (Failure SymbolicateError) A.

Definition panic {A} : ProcessorM A := raise Panicked.

Definition run_or_panic {A} (r : run A) : ProcessorM A :=
  match r with Done a => ret a | Panic => panic end.

Definition cache_key (release filename : string) : string := release +:+ ":" +:+ filename.

(** The parsed source map under the lock; [None] if it does not parse. *)
Definition cached_source_map (key data : string) : ProcessorM (option ParsedSourceMap) := fun c =>
  match c with
  | None => (Err Panicked, None)
  | Some cache =>
      match cache !! key with
      | Some sm => (Ok (Some sm), Some cache)
      | None =>
          match from_bytes overflow_checks (parse_source_map data) with
          | Panic => (Err Panicked, None)
          | Done (Ok sm) => (Ok (Some sm), Some (<[key := sm]> cache))
          | Done (Err _) => (Ok None, Some cache)
          end
      end
  end.

(** The frame at the position that the map gives for it. *)
Definition frame_at (sm : ParsedSourceMap) (lineno colno : Z) (f : Frame)
    : run (result SymbolicateError Frame) :=
  pos ← lookup overflow_checks sm lineno colno;
  match pos with
  | Err e => Done (Err e)
  | Ok None => Done (Ok f)
  | Ok (Some original) =>
      match op_source_content original with
      | Some content =>
          c ← extract_context overflow_checks content (op_line original) CONTEXT_LINES;
          Done (Ok (original_frame original (Some c) f))
      | None => Done (Ok (original_frame original None f))
      end
  end.

Definition or_fail {A} (r : run (result SymbolicateError A)) : ProcessorM A :=
  match r with
  | Done (Ok a) => ret a
  | Done (Err e) => raise (Failed e)
  | Panic => panic
  end.

Definition processor_js_frame (artifacts : ArtifactLookup) (release : string)
    (dist : option string) (f : Frame) : ProcessorM Frame :=
  match f_filename f, f_lineno f, f_colno f with
  | Some filename, Some lineno, Some colno =>
      match artifacts release dist filename with
      | None => ret f
      | Some data =>
          let* sm := cached_source_map (cache_key release filename) data in
          match sm with
          | None => ret f
          | Some sm => or_fail (frame_at sm lineno colno f)
          end
      end
  | _, _, _ => ret f
  end.

Fixpoint processor_js_frames (artifacts : ArtifactLookup) (release : string)
    (dist : option string) (fs : list Frame) : ProcessorM (list Frame) :=
  match fs with
  | [] => ret []
  | f :: fs =>
      let* f := processor_js_frame artifacts release dist f in
      let* fs := processor_js_frames artifacts release dist fs in
      ret (f :: fs)
  end.

Definition processor_js (artifacts : ArtifactLookup) (st : Stacktrace) (release : string)
    (dist : option string) : ProcessorM Stacktrace :=
  let* fs := processor_js_frames artifacts release dist (frames st) in ret (mkStacktrace fs).

Definition processor_rust (st : Stacktrace) : ProcessorM Stacktrace :=
  ret (mkStacktrace (map symbolicate_rust_frame (frames st))).

Definition processor_symbolicate (artifacts : ArtifactLookup) (st : Stacktrace)
    (platform : Platform) (release dist : option string) : ProcessorM Stacktrace :=
  match platform with
  | JavaScript | Node =>
      match release with
      | Some rel => processor_js artifacts st rel dist
      | None => ret st
      end
  | Rust => processor_rust st
  end.

Definition is_rust_symbol (symbol : string) : bool :=
  starts_with symbol "_ZN" || starts_with symbol "_R".

(** * Without a cache *)

(** What the map of a file says about a frame. *)
Definition plain_js_frame (artifacts : ArtifactLookup) (release : string) (dist : option string)
    (f : Frame) : result (Failure SymbolicateError) Frame :=
  match f_filename f, f_lineno f, f_colno f with
  | Some filename, Some lineno, Some colno =>
      match artifacts release dist filename with
      | None => Ok f
      | Some data =>
          match from_bytes overflow_checks (parse_source_map data) with
          | Panic => Err Panicked
          | Done (Err _) => Ok f
          | Done (Ok sm) =>
              match frame_at sm lineno colno f with
              | Panic => Err Panicked
              | Done (Ok f) => Ok f
              | Done (Err e) => Err (Failed e)
              end
          end
      end
  | _, _, _ => Ok f
  end.

Fixpoint plain_js_frames (artifacts : ArtifactLookup) (release : string) (dist : option string)
    (fs : list Frame) : result (Failure SymbolicateError) (list Frame) :=
  match fs with
  | [] => Ok []
  | f :: fs =>
      f ← plain_js_frame artifacts release dist f;
      fs ← plain_js_frames artifacts release dist fs;
      Ok (f :: fs)
  end.

Definition plain_symbolicate (artifacts : ArtifactLookup) (st : Stacktrace)
    (platform : Platform) (release dist : option string)
    : result (Failure SymbolicateError) Stacktrace :=
  match platform with
  | JavaScript | Node =>
      match release with
      | Some rel => fs ← plain_js_frames artifacts rel dist (frames st); Ok (mkStacktrace fs)
      | None => Ok st
      end
  | Rust => Ok (mkStacktrace (map symbolicate_rust_frame (frames st)))
  end.

(** The cache holds what the files of its keys parse to. *)
Definition cache_ok (artifacts : ArtifactLookup) (cache : gmap string ParsedSourceMap) : Prop :=
  forall key sm, cache !! key = Some sm ->
    exists release dist filename data, key = cache_key release filename
      /\ artifacts release dist filename = Some data
      /\ from_bytes overflow_checks (parse_source_map data) = Done (Ok sm).

(** A key determines the data. *)
Definition keyed (artifacts : ArtifactLookup) : Prop :=
  forall r d f r' d' f' x x', cache_key r f = cache_key r' f' ->
    artifacts r d f = Some x -> artifacts r' d' f' = Some x' -> x = x'.

(** The answer is the one without a cache, unless the mutex is or becomes poisoned. *)
Definition transparent {A} (artifacts : ArtifactLookup) (m : ProcessorM A)
    (r : result (Failure SymbolicateError) A) : Prop :=
  forall cache, cache_ok artifacts cache ->
    match m (Some cache) with
    | (a, Some cache') => a = r /\ cache_ok artifacts cache'
    | (a, None) => a = Err Panicked /\ r = Err Panicked
    end.

Section Cache.
Context (artifacts : ArtifactLookup) (Hkeyed : keyed artifacts).

Lemma transparent_pure {A} (m : ProcessorM A) r :
  (forall c, m c = (r, c)) -> transparent artifacts m r.
Proof. intros Hm cache Hc. by rewrite Hm. Qed.

Lemma transparent_bind {A B} (m : ProcessorM A) r (f : A -> ProcessorM B) g :
  transparent artifacts m r -> (forall a, transparent artifacts (f a) (g a)) ->
  transparent artifacts (bind m f) (r ≫= g).
Proof.
  intros Hm Hf cache Hc. specialize (Hm cache Hc). unfold bind.
  destruct (m (Some cache)) as [[a|e] [cache'|]]; destruct Hm as [Ha Hr];
    try discriminate Ha; subst r; [by apply Hf|done|].
  injection Ha as ->. done.
Qed.

Lemma transparent_frame release dist f :
  transparent artifacts (processor_js_frame artifacts release dist f)
    (plain_js_frame artifacts release dist f).
Proof.
  unfold processor_js_frame, plain_js_frame.
  destruct (f_filename f) as [filename|], (f_lineno f) as [l|], (f_colno f) as [col|];
    try by apply transparent_pure.
  destruct (artifacts release dist filename) as [data|] eqn:Hd; [|by apply transparent_pure].
  intros cache Hc. unfold bind, cached_source_map.
  destruct (cache !! cache_key release filename) as [sm|] eqn:Hk.
  - destruct (Hc _ _ Hk) as (r' & d' & f' & x & Ekey & Hx & Hp).
    rewrite (Hkeyed _ _ _ _ _ _ _ _ (eq_sym Ekey) Hx Hd) in Hp. rewrite Hp.
    by destruct (frame_at sm l col f) as [[g|e]|].
  - destruct (from_bytes _ _) as [[sm|e]|] eqn:Hp; [|done..].
    assert (Hc' : cache_ok artifacts (<[cache_key release filename := sm]> cache)).
    { intros key sm' [[<- <-]|[_ H]]%lookup_insert_Some; [|by apply Hc].
      by exists release, dist, filename, data. }
    by destruct (frame_at sm l col f) as [[g|e]|].
Qed.

Lemma transparent_frames release dist fs :
  transparent artifacts (processor_js_frames artifacts release dist fs)
    (plain_js_frames artifacts release dist fs).
Proof.
  induction fs as [|f fs IH]; cbn [processor_js_frames plain_js_frames]; [by apply transparent_pure|].
  apply transparent_bind; [apply transparent_frame|]. intros g.
  apply transparent_bind; [apply IH|]. intros gs. by apply transparent_pure.
Qed.

Lemma transparent_symbolicate st platform release dist :
  transparent artifacts (processor_symbolicate artifacts st platform release dist)
    (plain_symbolicate artifacts st platform release dist).
Proof.
  unfold processor_symbolicate, plain_symbolicate.
  assert (Hjs : forall rel, transparent artifacts (processor_js artifacts st rel dist)
    (fs ← plain_js_frames artifacts rel dist (frames st); Ok (mkStacktrace fs))).
  { intros rel. apply transparent_bind; [apply transparent_frames|]. intros fs.
    by apply transparent_pure. }
  destruct platform; [destruct release; [apply Hjs|by apply transparent_pure]..|].
  by apply transparent_pure.
Qed.
End Cache.

(** * A processor over its lifetime *)

Record SymbolicateCall := mkSymbolicateCall {
  sc_stacktrace : Stacktrace;
  sc_platform : Platform;
  sc_release : option string;
  sc_dist : option string;
}.

Definition call (artifacts : ArtifactLookup) (x : SymbolicateCall) : ProcessorM Stacktrace :=
  processor_symbolicate artifacts (sc_stacktrace x) (sc_platform x) (sc_release x) (sc_dist x).

(** The answers of a new processor to calls one after the other. *)
Fixpoint calls (artifacts : ArtifactLookup) (xs : list SymbolicateCall) (c : SourceMapCache)
    : list (result (Failure SymbolicateError) Stacktrace) :=
  match xs with
  | [] => []
  | x :: xs => let '(r, c) := call artifacts x c in r :: calls artifacts xs c
  end.

Definition no_panic (artifacts : ArtifactLookup) (x : SymbolicateCall) : Prop :=
  plain_symbolicate artifacts (sc_stacktrace x) (sc_platform x) (sc_release x) (sc_dist x)
  <> Err Panicked.

(** The cache of the symbolication processor is invisible: whatever stack traces it is
    given one after the other, each answer is the one computed from the uploaded source
    maps without a cache, provided that the text release:filename determines the data and
    that no map makes the decoder panic. *)
Theorem symbolication_cache_transparent (artifacts : ArtifactLookup)
    (xs : list SymbolicateCall) :
  keyed artifacts -> Forall (no_panic artifacts) xs ->
  calls artifacts xs (Some ∅)
  = map (fun x => plain_symbolicate artifacts (sc_stacktrace x) (sc_platform x) (sc_release x)
                    (sc_dist x)) xs.
Proof.
  intros Hk Hxs. assert (Hc : cache_ok artifacts ∅) by (intros key sm H; by rewrite lookup_empty in H).
  revert Hc. generalize (∅ : gmap string ParsedSourceMap).
  induction Hxs as [|x xs Hx _ IH]; intros cache Hc; [done|]. cbn [calls map].
  pose proof (transparent_symbolicate artifacts Hk (sc_stacktrace x) (sc_platform x)
    (sc_release x) (sc_dist x) cache Hc) as Ht. unfold call.
  destruct (processor_symbolicate _ _ _ _ _ (Some cache)) as [a [cache'|]].
  - destruct Ht as [-> Hc']. by rewrite IH.
  - by destruct Ht as [_ Hr].
Qed.

End Processor.
