(* ===== verification/CrashRoutes.v ===== *)
(** The other routes of crash reports: issues.rs, projects.rs, releases.rs, artifacts.rs,
    events.rs, api_keys.rs and stream.rs of [crates/loom-server/src/routes/crash], and the
    clean-up jobs crash_event_cleanup.rs and symbol_artifact_cleanup.rs of
    [crates/loom-server/src/jobs].

    The caller is authenticated; [locale] is the language of its answers.  An answer is
    the stored value of which the source's response structs copy fields. *)
From stdpp Require Import base gmap list strings pretty.
From Stdlib Require Import ZArith Lia Ascii.
From S2P Require Import Prelude Text CoreTypes Effects Sql Columns SourceMap CrashModel CrashRepo CrashCapture.

Section Routes.
Context `{CB : CrashBackend}.

(** * issues.rs *)

Definition parse_issue_id (s : string) : HandlerM HttpError Uuid :=
  parse_id (http 400 "invalid_issue_id" "Invalid issue ID") s.

Definition get_project_with_auth (locale : string) (user_id project_id : Uuid)
    : HandlerM HttpError CrashProject :=
  let* o := repo (fun _ => internal_error locale) (repo_get_project_by_id project_id) in
  match o with
  | None => raise (Failed (not_found "project"))
  | Some project =>
      let* _ := verify_org_membership (pj_org_id project) user_id locale in
      ret project
  end.

Definition get_issue_for_project (locale : string) (project_id issue_id : Uuid)
    : HandlerM HttpError Issue :=
  let* o := repo (fun _ => internal_error locale) (repo_get_issue_by_id issue_id) in
  match o with
  | None => raise (Failed (not_found "issue"))
  | Some issue =>
      if negb (bool_decide (is_project_id issue = project_id))
      then raise (Failed (not_found "issue")) else ret issue
  end.

(** What every route on an issue starts with. *)
Definition authorized_issue (locale : string) (user_id : Uuid) (project_id issue_id : string)
    : HandlerM HttpError (Uuid * Uuid * Issue) :=
  let* project_id := parse_project_id project_id in
  let* issue_id := parse_issue_id issue_id in
  let* _ := get_project_with_auth locale user_id project_id in
  let* issue := get_issue_for_project locale project_id issue_id in
  ret (project_id, issue_id, issue).

Record IssueResponse := mkIssueResponse {
  irs_id : string;
  irs_project_id : string;
  irs_short_id : string;
  irs_title : string;
  irs_culprit : option string;
  irs_status : string;
  irs_level : string;
  irs_priority : string;
  irs_event_count : Z;
  irs_user_count : Z;
  irs_first_seen : string;
  irs_last_seen : string;
  irs_times_regressed : Z;
}.

Definition IssueResponse_from (i : Issue) : IssueResponse :=
  mkIssueResponse (uuid_text (is_id i)) (uuid_text (is_project_id i)) (is_short_id i)
    (is_title i) (is_culprit i) (IssueStatus_to_string (is_status i))
    (IssueLevel_to_string (is_level i)) (IssuePriority_to_string (is_priority i))
    (is_event_count i) (is_user_count i) (to_rfc3339 (is_first_seen i))
    (to_rfc3339 (is_last_seen i)) (is_times_regressed i).

Definition list_issues (locale : string) (user_id : Uuid) (project_id : string)
    : HandlerM HttpError (list IssueResponse) :=
  let* project_id := parse_project_id project_id in
  let* _ := get_project_with_auth locale user_id project_id in
  let* issues := repo (fun _ => internal_error locale) (repo_list_issues project_id 100) in
  ret (map IssueResponse_from issues).

(** The detailed answer has every field of the issue. *)
Definition get_issue (locale : string) (user_id : Uuid) (project_id issue_id : string)
    : HandlerM HttpError Issue :=
  let* (_, _, issue) := authorized_issue locale user_id project_id issue_id in
  ret issue.

Definition set_resolution (status : IssueStatus) (at_ : option Z) (by_ : option Uuid)
    (release : option string) (i : Issue) : Issue :=
  mkIssue (is_id i) (is_org_id i) (is_project_id i) (is_short_id i) (is_fingerprint i)
    (is_title i) (is_culprit i) (is_metadata i) status (is_level i) (is_priority i)
    (is_event_count i) (is_user_count i) (is_first_seen i) (is_last_seen i) at_ by_ release
    (is_times_regressed i) (is_last_regressed_at i) (is_regressed_in_release i)
    (is_assigned_to i) (is_created_at i) (is_updated_at i).

Definition set_assignee (who : option Uuid) (now : Z) (i : Issue) : Issue :=
  mkIssue (is_id i) (is_org_id i) (is_project_id i) (is_short_id i) (is_fingerprint i)
    (is_title i) (is_culprit i) (is_metadata i) (is_status i) (is_level i) (is_priority i)
    (is_event_count i) (is_user_count i) (is_first_seen i) (is_last_seen i) (is_resolved_at i)
    (is_resolved_by i) (is_resolved_in_release i) (is_times_regressed i)
    (is_last_regressed_at i) (is_regressed_in_release i) who (is_created_at i) now.

Definition detail_opt (o : option string) : Detail :=
  match o with Some s => D_Text s | None => D_Null end.

Definition issue_audit (event : string) (user_id project_id : Uuid) (i : Issue)
    (more : list (string * Detail)) : CrashAudit :=
  mkCrashAudit event user_id "crash_issue" (uuid_text (is_id i))
    ([("project_id", D_Text (uuid_text project_id)); ("short_id", D_Text (is_short_id i))]
     ++ more).

Definition resolve_issue (env : Env) (locale : string) (user_id : Uuid)
    (project_id issue_id : string) (resolved_in_release : option string)
    : HandlerM HttpError IssueResponse :=
  let* (project_id, _, issue) := authorized_issue locale user_id project_id issue_id in
  let issue := set_resolution Resolved (Some (env_now env 0)) (Some user_id)
                 resolved_in_release issue in
  let* _ := repo (fun _ => internal_error locale) (repo_update_issue (env_now env 1) issue) in
  let* _ := send project_id (resolved_event issue) in
  let* _ := log_audit (issue_audit "crash_issue_resolved" user_id project_id issue
              [("title", D_Text (is_title issue));
               ("resolved_in_release", detail_opt (is_resolved_in_release issue))]) in
  ret (IssueResponse_from issue).

Definition unresolve_issue (env : Env) (locale : string) (user_id : Uuid)
    (project_id issue_id : string) : HandlerM HttpError IssueResponse :=
  let* (project_id, _, issue) := authorized_issue locale user_id project_id issue_id in
  let issue := set_resolution Unresolved None None None issue in
  let* _ := repo (fun _ => internal_error locale) (repo_update_issue (env_now env 1) issue) in
  ret (IssueResponse_from issue).

Definition ignore_issue (env : Env) (locale : string) (user_id : Uuid)
    (project_id issue_id : string) : HandlerM HttpError IssueResponse :=
  let* (project_id, _, issue) := authorized_issue locale user_id project_id issue_id in
  let issue := set_resolution Ignored (is_resolved_at issue) (is_resolved_by issue)
                 (is_resolved_in_release issue) issue in
  let* _ := repo (fun _ => internal_error locale) (repo_update_issue (env_now env 1) issue) in
  let* _ := log_audit (issue_audit "crash_issue_ignored" user_id project_id issue
              [("title", D_Text (is_title issue))]) in
  ret (IssueResponse_from issue).

Definition assign_issue (env : Env) (locale : string) (user_id : Uuid)
    (project_id issue_id : string) (assignee : option string) : HandlerM HttpError Issue :=
  let* (project_id, _, issue) := authorized_issue locale user_id project_id issue_id in
  let* who :=
    match assignee with
    | Some uid =>
        let* u := parse_id (http 400 "invalid_user_id" "Invalid user ID") uid in ret (Some u)
    | None => ret None
    end in
  let issue := set_assignee who (env_now env 0) issue in
  let* _ := repo (fun _ => internal_error locale) (repo_update_issue (env_now env 1) issue) in
  let* _ := log_audit (issue_audit "crash_issue_assigned" user_id project_id issue
              [("assigned_to", detail_opt assignee)]) in
  ret issue.

Definition delete_issue (locale : string) (user_id : Uuid) (project_id issue_id : string)
    : HandlerM HttpError unit :=
  let* (project_id, issue_id, issue) := authorized_issue locale user_id project_id issue_id in
  let* deleted := repo (fun _ => internal_error locale) (repo_delete_issue issue_id) in
  if deleted : bool then
    log_audit (issue_audit "crash_issue_deleted" user_id project_id issue
                 [("title", D_Text (is_title issue))])
  else raise (Failed (not_found "issue")).

(** * projects.rs *)

Definition parse_org_id (s : string) : HandlerM HttpError Uuid :=
  parse_id (http 400 "invalid_org_id" "Invalid organization ID") s.

Definition list_projects (locale : string) (user_id : Uuid) (org_id : string)
    : HandlerM HttpError (list CrashProject) :=
  let* org_id := parse_org_id org_id in
  let* _ := verify_org_membership org_id user_id locale in
  repo (fun _ => internal_error locale) (repo_list_projects org_id).

Definition create_project (env : Env) (locale : string) (user_id : Uuid)
    (org_id name slug platform : string) : HandlerM HttpError CrashProject :=
  let* org_id := parse_org_id org_id in
  let* _ := verify_org_membership org_id user_id locale in
  if negb (validate_slug slug)
  then raise (Failed (http 400 "invalid_slug"
         "Slug must be 3-50 lowercase alphanumeric characters with hyphens/underscores"))
  else
    let platform := default JavaScript (Platform_from_str platform) in
    let now := env_now env 0 in
    let project := mkCrashProject (env_uuid env 0) org_id name slug platform None [] now now in
    let* _ := repo (fun _ => internal_error locale) (repo_create_project project) in
    let* _ := log_audit (mkCrashAudit "crash_project_created" user_id "crash_project"
                (uuid_text (pj_id project))
                [("org_id", D_Text (uuid_text org_id)); ("name", D_Text name);
                 ("slug", D_Text slug); ("platform", D_Text (Platform_to_string platform))]) in
    ret project.

Definition get_project (locale : string) (user_id : Uuid) (project_id : string)
    : HandlerM HttpError CrashProject :=
  let* project_id := parse_project_id project_id in
  get_project_with_auth locale user_id project_id.

Definition update_project (env : Env) (locale : string) (user_id : Uuid) (project_id : string)
    (name : option string) (auto_resolve_age_days : option Z) : HandlerM HttpError CrashProject :=
  let* project_id := parse_project_id project_id in
  let* project := get_project_with_auth locale user_id project_id in
  if match name with Some n => String.eqb n "" | None => false end
  then raise (Failed (http 400 "invalid_name" "Project name cannot be empty"))
  else
    let project := mkCrashProject (pj_id project) (pj_org_id project)
      (default (pj_name project) name) (pj_slug project) (pj_platform project)
      (match auto_resolve_age_days with
       | Some d => Some d
       | None => pj_auto_resolve_age_days project
       end) (pj_fingerprint_rules project) (pj_created_at project) (env_now env 0) in
    let* _ := repo (fun _ => internal_error locale) (repo_update_project project) in
    ret project.

Definition delete_project (locale : string) (user_id : Uuid) (project_id : string)
    : HandlerM HttpError unit :=
  let* project_id := parse_project_id project_id in
  let* project := get_project_with_auth locale user_id project_id in
  let* deleted := repo (fun _ => internal_error locale) (repo_delete_project project_id) in
  if deleted : bool then
    log_audit (mkCrashAudit "crash_project_deleted" user_id "crash_project"
                 (uuid_text (pj_id project))
                 [("org_id", D_Text (uuid_text (pj_org_id project)));
                  ("name", D_Text (pj_name project)); ("slug", D_Text (pj_slug project))])
  else raise (Failed (not_found "project")).

(** * releases.rs *)

Definition list_releases (locale : string) (user_id : Uuid) (project_id : string)
    : HandlerM HttpError (list Release) :=
  let* project_id := parse_project_id project_id in
  let* _ := get_project_with_auth locale user_id project_id in
  repo (fun _ => internal_error locale) (repo_list_releases project_id 100).

Definition create_release (env : Env) (locale : string) (user_id : Uuid) (project_id : string)
    (version : string) (short_version url date_released : option string)
    : HandlerM HttpError Release :=
  let* project_id := parse_project_id project_id in
  if String.eqb version "" || (200 <? String.length version)%nat
  then raise (Failed (http 400 "invalid_version" "Version must be 1-200 characters"))
  else
    let* project := get_project_with_auth locale user_id project_id in
    let* existing := repo (fun _ => internal_error locale)
                       (repo_get_release_by_version project_id version) in
    match existing with
    | Some _ =>
        raise (Failed (http 409 "release_exists"
                         ("Release " +:+ version +:+ " already exists")))
    | None =>
        let release := new_release (env_uuid env 0) (env_now env 0) project_id
                         (pj_org_id project) version short_version url
                         (date_released ≫= parse_from_rfc3339) in
        let* _ := repo (fun _ => internal_error locale) (repo_create_release release) in
        let* _ := log_audit (mkCrashAudit "crash_release_created" user_id "crash_release"
                    (uuid_text (rl_id release))
                    [("project_id", D_Text (uuid_text project_id));
                     ("version", D_Text (rl_version release))]) in
        ret release
    end.

Definition get_release (locale : string) (user_id : Uuid) (project_id version : string)
    : HandlerM HttpError Release :=
  let* project_id := parse_project_id project_id in
  let* _ := get_project_with_auth locale user_id project_id in
  let* o := repo (fun _ => internal_error locale)
              (repo_get_release_by_version project_id version) in
  match o with
  | Some release => ret release
  | None =>
      raise (Failed (http 404 "release_not_found" ("Release " +:+ version +:+ " not found")))
  end.

(** * artifacts.rs *)

Definition parse_artifact_id (s : string) : HandlerM HttpError Uuid :=
  parse_id (http 400 "invalid_artifact_id" "Invalid artifact ID") s.

(** A field of the form: [release], [dist], or a file if it has a file name. *)
Record FormField := mkFormField {
  ff_name : option string;
  ff_file_name : option string;
  ff_bytes : string;
}.

Record Form := mkForm {
  fm_release : option string;
  fm_dist : option string;
  fm_files : list (string * string);
}.

Definition read_field (f : FormField) (form : Form) : Form :=
  match ff_name f with
  | Some "release" => mkForm (Some (from_utf8_lossy (ff_bytes f))) (fm_dist form) (fm_files form)
  | Some "dist" =>
      let dist := from_utf8_lossy (ff_bytes f) in
      if String.eqb dist "" then form
      else mkForm (fm_release form) (Some dist) (fm_files form)
  | _ =>
      match ff_file_name f with
      | Some filename =>
          mkForm (fm_release form) (fm_dist form) (fm_files form ++ [(filename, ff_bytes f)])
      | None => form
      end
  end.

Definition artifact_type_of (filename : string) : ArtifactType :=
  if ends_with filename ".map" then AT_SourceMap else AT_MinifiedSource.

Definition has_sources_content (filename data : string) : bool :=
  bool_decide (artifact_type_of filename = AT_SourceMap)
  && str_contains (from_utf8_lossy data)
       (String (ascii_of_nat 34) ("sourcesContent" +:+ String (ascii_of_nat 34) "")).

Inductive UploadOutcome :=
| Uploaded (a : SymbolArtifact)
| Existing (a : SymbolArtifact)
| UploadError (filename error : string).

Definition upload_file (id : Uuid) (now : Z) (user_id org_id project_id : Uuid)
    (release : string) (dist : option string) (filename data : string)
    : HandlerM HttpError UploadOutcome :=
  let sha256 := sha256_hex data in
  let* found := try_repo (repo_get_artifact_by_sha256 project_id sha256) in
  match found with
  | Ok (Some existing) => ret (Existing existing)
  | Err e => ret (UploadError filename ("Failed to check for duplicates: "
                    +:+ CrashServerError_to_string e))
  | Ok None =>
      let artifact := mkSymbolArtifact id org_id project_id release dist
        (artifact_type_of filename) filename data (Z.of_nat (String.length data)) sha256 None
        (has_sources_content filename data) now user_id None in
      let* r := try_repo (repo_create_artifact artifact) in
      ret (match r with
           | Ok _ => Uploaded artifact
           | Err e => UploadError filename ("Failed to save: " +:+ CrashServerError_to_string e)
           end)
  end.

Fixpoint upload_files (env : Env) (i : nat) (user_id org_id project_id : Uuid)
    (release : string) (dist : option string) (files : list (string * string))
    : HandlerM HttpError (list UploadOutcome) :=
  match files with
  | [] => ret []
  | (filename, data) :: files =>
      let* o := upload_file (env_uuid env i) (env_now env i) user_id org_id project_id release
                  dist filename data in
      let* os := upload_files env (S i) user_id org_id project_id release dist files in
      ret (o :: os)
  end.

Definition is_uploaded (o : UploadOutcome) : bool :=
  match o with Uploaded _ => true | _ => false end.
Definition is_existing (o : UploadOutcome) : bool :=
  match o with Existing _ => true | _ => false end.
Definition is_upload_error (o : UploadOutcome) : bool :=
  match o with UploadError _ _ => true | _ => false end.

(** The outcomes in the order of the files; the answer lists the artifacts and the
    errors among them and counts each kind.  A form that cannot be read is refused
    before. *)
Definition upload_artifacts (env : Env) (locale : string) (user_id : Uuid) (project_id : string)
    (fields : list FormField) : HandlerM HttpError (list UploadOutcome) :=
  let* project_id := parse_project_id project_id in
  let* project := get_project_with_auth locale user_id project_id in
  let form := fold_left (fun form f => read_field f form) fields (mkForm None None []) in
  match fm_release form with
  | None => raise (Failed (http 400 "missing_release" "The 'release' field is required"))
  | Some release =>
      if String.eqb release "" || (200 <? String.length release)%nat
      then raise (Failed (http 400 "invalid_release" "Release must be 1-200 characters"))
      else
        let* outcomes := upload_files env 0 user_id (pj_org_id project) project_id release
                           (fm_dist form) (fm_files form) in
        let count p := Z.of_nat (length (List.filter p outcomes)) in
        let* _ :=
          if (0 <? count is_uploaded)%Z then
            log_audit (mkCrashAudit "crash_symbols_uploaded" user_id "crash_project"
                         (uuid_text project_id)
                         [("release", D_Text release);
                          ("total", D_Number (Z.of_nat (length (fm_files form))));
                          ("uploaded_count", D_Number (count is_uploaded));
                          ("existing_count", D_Number (count is_existing));
                          ("error_count", D_Number (count is_upload_error))])
          else ret tt in
        ret outcomes
  end.

Definition list_artifacts (locale : string) (user_id : Uuid) (project_id : string)
    (release : option string) (limit : Z) : HandlerM HttpError (list SymbolArtifact) :=
  let* project_id := parse_project_id project_id in
  let* _ := get_project_with_auth locale user_id project_id in
  repo (fun _ => internal_error locale)
    (repo_list_artifacts project_id release (Z.min limit 1000)).

Definition artifact_for_project (locale : string) (project_id artifact_id : Uuid)
    : HandlerM HttpError SymbolArtifact :=
  let* o := repo (fun _ => internal_error locale) (repo_get_artifact_by_id artifact_id) in
  match o with
  | None => raise (Failed (not_found "artifact"))
  | Some a =>
      if negb (bool_decide (ar_project_id a = project_id))
      then raise (Failed (not_found "artifact")) else ret a
  end.

Definition get_artifact (env : Env) (locale : string) (user_id : Uuid)
    (project_id artifact_id : string) : HandlerM HttpError SymbolArtifact :=
  let* project_id := parse_project_id project_id in
  let* artifact_id := parse_artifact_id artifact_id in
  let* _ := get_project_with_auth locale user_id project_id in
  let* a := artifact_for_project locale project_id artifact_id in
  let* _ := try_repo (repo_update_artifact_last_accessed (env_now env 0) artifact_id) in
  ret a.

Definition delete_artifact (locale : string) (user_id : Uuid) (project_id artifact_id : string)
    : HandlerM HttpError unit :=
  let* project_id := parse_project_id project_id in
  let* artifact_id := parse_artifact_id artifact_id in
  let* _ := get_project_with_auth locale user_id project_id in
  let* a := artifact_for_project locale project_id artifact_id in
  let* deleted := repo (fun _ => internal_error locale) (repo_delete_artifact artifact_id) in
  if deleted : bool then
    log_audit (mkCrashAudit "crash_symbols_deleted" user_id "crash_artifact"
                 (uuid_text (ar_id a))
                 [("project_id", D_Text (uuid_text project_id)); ("name", D_Text (ar_name a));
                  ("release", D_Text (ar_release a))])
  else raise (Failed (not_found "artifact")).

(** * events.rs *)

Definition parse_event_id (s : string) : HandlerM HttpError Uuid :=
  parse_id (http 400 "invalid_event_id" "Invalid event ID") s.

Definition list_events (locale : string) (user_id : Uuid) (project_id : string)
    (limit offset : Z) : HandlerM HttpError (list CrashEvent) :=
  let* project_id := parse_project_id project_id in
  let* _ := get_project_with_auth locale user_id project_id in
  repo (fun _ => internal_error locale)
    (repo_list_events_for_project project_id (Z.min limit 1000) offset).

Definition get_event (locale : string) (user_id : Uuid) (project_id event_id : string)
    : HandlerM HttpError CrashEvent :=
  let* project_id := parse_project_id project_id in
  let* event_id := parse_event_id event_id in
  let* _ := get_project_with_auth locale user_id project_id in
  let* o := repo (fun _ => internal_error locale) (repo_get_event_by_id event_id) in
  match o with
  | None => raise (Failed (not_found "event"))
  | Some e =>
      if negb (bool_decide (ev_project_id e = project_id))
      then raise (Failed (not_found "event")) else ret e
  end.

Definition list_issue_events (locale : string) (user_id : Uuid) (project_id issue_id : string)
    : HandlerM HttpError (list CrashEvent) :=
  let* (_, issue_id, _) := authorized_issue locale user_id project_id issue_id in
  repo (fun _ => internal_error locale) (repo_list_events_for_issue issue_id 100).

(** * api_keys.rs *)

Definition parse_api_key_id (s : string) : HandlerM HttpError Uuid :=
  parse_id (http 400 "invalid_key_id" "Invalid API key ID") s.

(** [random_hex] is what [generate_api_key] draws and [hash_api_key] the salted hash of
    the new key. *)
Definition create_api_key (hash_api_key : string -> result CrashServerError string)
    (random_hex : string) (env : Env) (locale : string) (user_id : Uuid)
    (project_id name key_type : string) (rate_limit_per_minute : option Z)
    (allowed_origins : list string) : HandlerM HttpError (CrashApiKey * string) :=
  let* project_id := parse_project_id project_id in
  let* _ := get_project_with_auth locale user_id project_id in
  match CrashKeyType_from_str key_type with
  | None =>
      raise (Failed (http 400 "invalid_key_type" "Key type must be 'capture' or 'admin'"))
  | Some key_type =>
      let prefix := match key_type with
                    | CK_Capture => KEY_PREFIX_CAPTURE
                    | CK_Admin => KEY_PREFIX_ADMIN
                    end in
      let raw_key := prefix +:+ random_hex in
      match hash_api_key raw_key with
      | Err _ => raise (Failed (internal_error locale))
      | Ok key_hash =>
          let api_key := mkCrashApiKey (env_uuid env 0) project_id name key_type key_hash
            rate_limit_per_minute allowed_origins user_id (env_now env 0) None None in
          let* _ := repo (fun _ => internal_error locale) (repo_create_api_key api_key) in
          ret (api_key, raw_key)
      end
  end.

Definition list_api_keys (locale : string) (user_id : Uuid) (project_id : string)
    : HandlerM HttpError (list CrashApiKey) :=
  let* project_id := parse_project_id project_id in
  let* _ := get_project_with_auth locale user_id project_id in
  repo (fun _ => internal_error locale) (repo_list_api_keys project_id).

Definition revoke_api_key (env : Env) (locale : string) (user_id : Uuid)
    (project_id key_id : string) : HandlerM HttpError unit :=
  let missing := http 404 "api_key_not_found" "API key not found" in
  let* project_id := parse_project_id project_id in
  let* key_id := parse_api_key_id key_id in
  let* _ := get_project_with_auth locale user_id project_id in
  let* o := repo (fun _ => internal_error locale) (repo_get_api_key_by_id key_id) in
  match o with
  | None => raise (Failed missing)
  | Some key =>
      if negb (bool_decide (ak_project_id key = project_id)) then raise (Failed missing)
      else
        let* revoked := repo (fun _ => internal_error locale)
                          (repo_revoke_api_key (env_now env 0) key_id) in
        if revoked : bool then ret tt
        else raise (Failed (http 404 "api_key_not_found" "API key not found or already revoked"))
  end.

(** * stream.rs *)

(** The first event of a stream, whose channel exists from here on. *)
Definition stream_crash (locale : string) (user_id : Uuid) (project_id : string)
    : HandlerM HttpError CrashStreamEvent :=
  let* project_id := parse_project_id project_id in
  let* _ := get_project_with_auth locale user_id project_id in
  let* issues := repo (fun _ => internal_error locale) (repo_list_issues project_id 1) in
  let* count := try_repo (repo_get_issue_count project_id) in
  let issue_count := match count with Ok n => n | Err _ => Z.of_nat (length issues) end in
  let* _ := (fun w => (Ok tt, mkCrashWorld (cw_conn w) (subscribe project_id (cw_channels w))
                                (cw_audit w) (cw_tasks w))) in
  ret (CS_Init project_id issue_count).

(** * Clean-up jobs *)

Definition DEFAULT_RETENTION_DAYS : Z := 90.

Definition days (n : Z) : Z := (n * 86400 * 10 ^ 9)%Z.

(** [run] of the two jobs, after the test whether they are cancelled. *)
Definition crash_event_cleanup (now retention_days : Z) : RepoOp Z :=
  repo_delete_old_events (now - days retention_days)%Z.
Definition symbol_artifact_cleanup (now retention_days : Z) : RepoOp Z :=
  repo_delete_old_artifacts (now - days retention_days)%Z.

End Routes.
