(* ===== verification/CrashInvariant.v ===== *)
(** The invariant of issues and their events: identifiers and fingerprints are unique,
    events refer to issues of their project, and the count of an issue covers its stored
    events.  It holds after every request, whatever statement of it fails.  First, rows of
    crash reports read back as the values that were written. *)
From stdpp Require Import base gmap list strings.
From Stdlib Require Import ZArith Lia Ascii.
From S2P Require Import Prelude Text CoreTypes Effects Sql Columns SourceMap CrashModel CrashRepo CrashCapture CrashRoutes.

Section Spec.
Context `{CB : CrashBackend}.

(** * Rows read back *)

Definition project_ok (p : CrashProject) : Prop :=
  opt_u32 (pj_auto_resolve_age_days p) /\ calendar (pj_created_at p) /\ calendar (pj_updated_at p).

Definition issue_widths (i : Issue) : Prop :=
  u64_ok (is_event_count i) /\ u64_ok (is_user_count i) /\ u32_ok (is_times_regressed i).

Definition issue_times (i : Issue) : Prop :=
  calendar (is_first_seen i) /\ calendar (is_last_seen i) /\ opt_calendar (is_resolved_at i)
  /\ opt_calendar (is_last_regressed_at i) /\ calendar (is_created_at i)
  /\ calendar (is_updated_at i).

Definition issue_ok (i : Issue) : Prop := issue_widths i /\ issue_times i.

Definition event_ok (e : CrashEvent) : Prop :=
  calendar (ev_timestamp e) /\ calendar (ev_received_at e).

Definition release_ok (r : Release) : Prop :=
  u64_ok (rl_crash_count r) /\ u64_ok (rl_new_issue_count r) /\ u64_ok (rl_regression_count r)
  /\ u64_ok (rl_user_count r) /\ opt_calendar (rl_date_released r)
  /\ opt_calendar (rl_first_event r) /\ opt_calendar (rl_last_event r)
  /\ calendar (rl_created_at r).

Definition artifact_ok (a : SymbolArtifact) : Prop :=
  u64_ok (ar_size_bytes a) /\ calendar (ar_uploaded_at a) /\ opt_calendar (ar_last_accessed_at a).

Definition api_key_ok (k : CrashApiKey) : Prop :=
  opt_u32 (ak_rate_limit_per_minute k) /\ calendar (ak_created_at k)
  /\ opt_calendar (ak_last_used_at k) /\ opt_calendar (ak_revoked_at k).

Lemma read_uuid_text u : read_uuid (uuid_text u) = Ok u.
Proof. unfold read_uuid. by rewrite uuid_roundtrip. Qed.
Lemma transpose_uuid o : transpose read_uuid (uuid_text <$> o) = Ok o.
Proof. destruct o; cbn; [by rewrite read_uuid_text|done]. Qed.
Lemma parse_datetime_text t : calendar t -> parse_datetime (to_rfc3339 t) = Ok t.
Proof. intros H. unfold parse_datetime. by rewrite rfc3339_roundtrip. Qed.
Lemma transpose_datetime o :
  opt_calendar o -> transpose parse_datetime (to_rfc3339 <$> o) = Ok o.
Proof. destruct o; cbn; [|done]. intros H. by rewrite parse_datetime_text. Qed.
Lemma read_json_ok {A} `{JsonColumn A} s (a : A) : from_json s = Ok a -> read_json s = Ok a.
Proof. unfold read_json. by intros ->. Qed.
Lemma read_json_text {A} `{ExactColumn A} (a : A) : read_json (to_json a) = Ok a.
Proof. unfold read_json. by rewrite from_to_json. Qed.
Lemma transpose_json {A} `{ExactColumn A} (o : option A) :
  transpose read_json (to_json <$> o) = Ok o.
Proof. destruct o; cbn; [by rewrite read_json_text|done]. Qed.

Ltac read_back :=
  repeat (first [rewrite read_uuid_text | rewrite transpose_uuid | rewrite parse_datetime_text by done
    | rewrite transpose_datetime by done | rewrite read_json_text | rewrite transpose_json
    | rewrite wrap_u64_i64 by done | rewrite wrap_u32_i32 by done | rewrite opt_u32_i32 by done
    | rewrite Platform_roundtrip | rewrite IssueStatus_roundtrip | rewrite IssueLevel_roundtrip
    | rewrite IssuePriority_roundtrip | rewrite CrashKeyType_roundtrip
    | rewrite ArtifactType_roundtrip ]; cbn [ok_or mbind result_bind]).

Lemma project_reads_back p : project_ok p -> CrashProject_try_from (project_row p) = Ok p.
Proof.
  intros (? & ? & ?). destruct p. unfold CrashProject_try_from, read_enum. cbn in *. by read_back.
Qed.

Lemma issue_reads_back i : issue_ok i -> Issue_try_from (issue_row i) = Ok i.
Proof.
  intros [(? & ? & ?) (? & ? & ? & ? & ? & ?)]. destruct i.
  unfold Issue_try_from, read_enum. cbn in *. by read_back.
Qed.

Lemma release_reads_back r : release_ok r -> Release_try_from (release_row r) = Ok r.
Proof.
  intros (? & ? & ? & ? & ? & ? & ? & ?). destruct r. unfold Release_try_from. cbn in *.
  by read_back.
Qed.

Lemma artifact_reads_back a : artifact_ok a -> SymbolArtifact_try_from (artifact_row a) = Ok a.
Proof.
  intros (? & ? & ?). destruct a as [???????????[] ???];
    unfold SymbolArtifact_try_from, read_enum; cbn in *; by read_back.
Qed.

Lemma api_key_reads_back k : api_key_ok k -> CrashApiKey_try_from (api_key_row k) = Ok k.
Proof.
  intros (? & ? & ? & ?). destruct k. unfold CrashApiKey_try_from, read_enum. cbn in *.
  by read_back.
Qed.

(** The free-form values of an event may come back with rounded numbers. *)
Definition set_values (extra : Json) (b : list Breadcrumb) (e : CrashEvent) : CrashEvent :=
  mkCrashEvent (ev_id e) (ev_org_id e) (ev_project_id e) (ev_issue_id e) (ev_person_id e)
    (ev_distinct_id e) (ev_exception_type e) (ev_exception_value e) (ev_stacktrace e)
    (ev_raw_stacktrace e) (ev_release e) (ev_dist e) (ev_environment e) (ev_platform e)
    (ev_runtime e) (ev_server_name e) (ev_tags e) extra (ev_user_context e)
    (ev_device_context e) (ev_browser_context e) (ev_os_context e) (ev_active_flags e)
    (ev_request e) b (ev_timestamp e) (ev_received_at e).

Lemma event_reads_back e : event_ok e ->
  exists extra b, CrashEvent_try_from (event_row e) = Ok (set_values extra b e).
Proof.
  intros (? & ?). destruct (json_readable (ev_extra e)) as [x Hx].
  destruct (json_readable (ev_breadcrumbs e)) as [b Hb]. exists x, b.
  destruct e. unfold CrashEvent_try_from, read_enum. cbn in *. read_back.
  rewrite (read_json_ok _ _ Hx). cbn [mbind result_bind]. read_back.
  rewrite (read_json_ok _ _ Hb). cbn [mbind result_bind]. by read_back.
Qed.

End Spec.


Section Invariant.
Context `{CB : CrashBackend}.
Local Open Scope Z_scope.

(** * On tables *)

Definition row_events (r : IssueRow) : Z := wrap_u64 (ir_event_count r).

Definition event_of (id : string) (e : EventRow) : bool := opt_is (er_issue_id e) id.

Definition stored_events (t : CrashTables) (id : string) : Z :=
  Z.of_nat (count_where (event_of id) (t_events t)).

Definition group_of (r : IssueRow) : string * string := (ir_project_id r, ir_fingerprint r).

(** The identifiers are texts of UUIDs. *)
Definition canonical (r : IssueRow) : Prop :=
  exists u p, ir_id r = uuid_text u /\ ir_project_id r = uuid_text p.

Definition resolution_known (r : IssueRow) : Prop :=
  ir_status r = "resolved"%string -> is_Some (ir_resolved_at r) /\ is_Some (ir_resolved_by r).

Definition refers_well (t : CrashTables) (e : EventRow) : Prop :=
  match er_issue_id e with
  | Some i => exists r, r ∈ t_issues t /\ ir_id r = i /\ ir_project_id r = er_project_id e
  | None => True
  end.

(** [b] bounds the counts. *)
Record crash_inv (b : Z) (t : CrashTables) : Prop := {
  ci_rows : Forall canonical (t_issues t);
  ci_ids : NoDup (ir_id <$> t_issues t);
  ci_groups : NoDup (group_of <$> t_issues t);
  ci_events : Forall (refers_well t) (t_events t);
  ci_counts : Forall (fun r => stored_events t (ir_id r) <= row_events r <= b) (t_issues t);
  ci_resolved : Forall resolution_known (t_issues t);
}.

(** The number of stored events and the count of an issue of the project are in [phi]. *)
Definition issue_at (phi : Z -> Z -> Prop) (t : CrashTables) (project issue : string) : Prop :=
  exists r, r ∈ t_issues t /\ ir_id r = issue /\ ir_project_id r = project
    /\ phi (stored_events t issue) (row_events r).

(** The issue has an event less than its count says. *)
Definition room : CrashTables -> string -> string -> Prop := issue_at (fun s c => s + 1 <= c).

Definition counted (n : Z) : CrashTables -> string -> string -> Prop :=
  issue_at (fun _ c => c = n).

Lemma crash_inv_same b t t' :
  t_issues t' = t_issues t -> t_events t' = t_events t -> crash_inv b t -> crash_inv b t'.
Proof.
  intros Hi He [H1 H2 H3 H4 H5 H6]. split; unfold refers_well, stored_events in *;
    by rewrite ?Hi, ?He.
Qed.

Lemma issue_at_same phi t t' p i :
  t_issues t' = t_issues t -> t_events t' = t_events t ->
  issue_at phi t p i -> issue_at phi t' p i.
Proof. unfold issue_at, stored_events. by intros -> ->. Qed.

Lemma crash_inv_weaken b b' t : b <= b' -> crash_inv b t -> crash_inv b' t.
Proof.
  intros Hb [H1 H2 H3 H4 H5 H6]. split; try done.
  eapply Forall_impl; [exact H5|]. cbn. lia.
Qed.

(** A change of issues that keeps what the other tables refer to. *)
Lemma crash_inv_update b b' t p f :
  b <= b' -> crash_inv b t ->
  (forall r, r ∈ t_issues t -> p r = true ->
     ir_id (f r) = ir_id r /\ ir_project_id (f r) = ir_project_id r
     /\ ir_fingerprint (f r) = ir_fingerprint r
     /\ stored_events t (ir_id r) <= row_events (f r) <= b' /\ resolution_known (f r)) ->
  crash_inv b' (put_issues (update_where p f (t_issues t)) t).
Proof.
  intros Hb [H1 H2 H3 H4 H5 H6] Hf. split; cbn.
  - rewrite Forall_forall in *. intros r (r0 & Hr0 & ->)%elem_of_update_where.
    destruct (p r0) eqn:Hp; [|by apply H1]. destruct (H1 r0 Hr0) as (u & q & ? & ?).
    exists u, q. by destruct (Hf r0 Hr0 Hp) as (-> & -> & _).
  - rewrite update_where_fmap; [done|]. intros r Hr Hp. by destruct (Hf r Hr Hp).
  - rewrite update_where_fmap; [done|]. intros r Hr Hp. unfold group_of.
    by destruct (Hf r Hr Hp) as (_ & -> & -> & _).
  - rewrite Forall_forall in *. intros e He. specialize (H4 e He). unfold refers_well in *.
    destruct (er_issue_id e) as [i|]; [|done]. destruct H4 as (r & Hr & Hi & Hp). cbn.
    exists (if p r then f r else r). split; [apply elem_of_update_where; by exists r|].
    destruct (p r) eqn:Hpr; [|done]. by destruct (Hf r Hr Hpr) as (-> & -> & _).
  - rewrite Forall_forall in *. intros r (r0 & Hr0 & ->)%elem_of_update_where.
    unfold stored_events. cbn. destruct (p r0) eqn:Hp.
    + destruct (Hf r0 Hr0 Hp) as (-> & _ & _ & Hc & _). exact Hc.
    + specialize (H5 r0 Hr0). unfold stored_events in H5. cbn in H5. lia.
  - rewrite Forall_forall in *. intros r (r0 & Hr0 & ->)%elem_of_update_where.
    destruct (p r0) eqn:Hp; [|by apply H6]. by destruct (Hf r0 Hr0 Hp) as (_ & _ & _ & _ & ?).
Qed.

Lemma crash_inv_new_issue b t r :
  canonical r -> 0 <= row_events r <= b -> resolution_known r ->
  Forall (fun q => ir_id q <> ir_id r /\ group_of q <> group_of r) (t_issues t) ->
  crash_inv b t -> stored_events t (ir_id r) = 0 /\ crash_inv b (put_issues (t_issues t ++ [r]) t).
Proof.
  intros Hc Hb Hr Hnew [H1 H2 H3 H4 H5 H6]. rewrite Forall_forall in Hnew.
  assert (H0 : stored_events t (ir_id r) = 0).
  { unfold stored_events. rewrite count_where_None; [done|]. apply select_one_None.
    rewrite Forall_forall in H4 |- *. intros e He. specialize (H4 e He).
    unfold refers_well, event_of in *.
    destruct (er_issue_id e) as [i|]; [|done]. cbn. apply String.eqb_neq. intros ->.
    destruct H4 as (q & Hq & Hi & _). by destruct (Hnew q Hq). }
  split; [done|]. split; cbn.
  - by apply Forall_app_2, Forall_singleton.
  - rewrite fmap_app. apply NoDup_app. split; [done|]. split; [|apply NoDup_singleton].
    intros x (q & -> & Hq)%list_elem_of_fmap E%list_elem_of_singleton.
    by destruct (Hnew q Hq).
  - rewrite fmap_app. apply NoDup_app. split; [done|]. split; [|apply NoDup_singleton].
    intros x (q & -> & Hq)%list_elem_of_fmap E%list_elem_of_singleton.
    by destruct (Hnew q Hq).
  - rewrite Forall_forall in *. intros e He. specialize (H4 e He). unfold refers_well in *.
    destruct (er_issue_id e) as [i|]; [|done]. destruct H4 as (q & Hq & ?). exists q.
    split; [|done]. cbn. rewrite elem_of_app. by left.
  - apply Forall_app_2; [exact H5|]. apply Forall_singleton.
    change (stored_events t (ir_id r) <= row_events r <= b). lia.
  - by apply Forall_app_2, Forall_singleton.
Qed.

Lemma crash_inv_new_event b t e :
  match er_issue_id e with Some i => room t (er_project_id e) i | None => True end ->
  crash_inv b t -> crash_inv b (put_events (t_events t ++ [e]) t).
Proof.
  intros Hat [H1 H2 H3 H4 H5 H6]. split; cbn; try done.
  - apply Forall_app_2; [done|]. apply Forall_singleton. unfold refers_well. cbn.
    destruct (er_issue_id e); [|done]. destruct Hat as (r & ? & ? & ? & _). by exists r.
  - rewrite Forall_forall in *. intros r Hr. specialize (H5 r Hr). unfold stored_events in *. cbn.
    rewrite count_where_snoc. unfold event_of at 2. unfold opt_is.
    destruct (er_issue_id e) as [i|]; [|lia]. destruct (String.eqb_spec i (ir_id r)) as [->|]; [|lia].
    destruct Hat as (q & Hq & Hid & _ & Hc). unfold stored_events in Hc.
    rewrite (NoDup_key ir_id (t_issues t) q r) in Hc by done. lia.
Qed.

Lemma crash_inv_delete_events b t p :
  crash_inv b t -> crash_inv b (put_events (delete_where p (t_events t)) t).
Proof.
  intros [H1 H2 H3 H4 H5 H6]. split; cbn; try done.
  - by apply delete_where_Forall.
  - eapply Forall_impl; [exact H5|]. intros r Hr. unfold stored_events in *. cbn.
    pose proof (count_where_delete p (event_of (ir_id r)) (t_events t)). lia.
Qed.

(** The events of deleted issues lose the reference, the others keep it. *)
Lemma delete_issues_refer p t e : refers_well t e ->
  refers_well (delete_issues p t)
    (if match er_issue_id e with
        | Some i => existsb (fun q => p q && String.eqb (ir_id q) i) (t_issues t)
        | None => false
        end then clear_issue e else e).
Proof.
  intros He. unfold refers_well in *.
  destruct (er_issue_id e) as [i|] eqn:Hi; [|by rewrite Hi].
  destruct (existsb _ (t_issues t)) eqn:Hgone; [done|]. rewrite Hi.
  destruct He as (r & Hr & Hid & Hp). exists r. split; [|done]. cbn.
  apply elem_of_delete_where. split; [done|]. apply not_true_iff_false. intros Hpr.
  apply not_true_iff_false in Hgone. apply Hgone, existsb_exists. exists r.
  rewrite <- list_elem_of_In, Hpr, Hid, String.eqb_refl. done.
Qed.

Lemma crash_inv_delete_issues b t p : crash_inv b t -> crash_inv b (delete_issues p t).
Proof.
  intros [H1 H2 H3 H4 H5 H6]. split; cbn.
  - by apply delete_where_Forall.
  - by apply delete_where_NoDup.
  - by apply delete_where_NoDup.
  - rewrite Forall_forall in *. intros e (e0 & He0 & ->)%elem_of_update_where.
    by apply delete_issues_refer, H4.
  - rewrite Forall_forall in *. intros r [Hr _]%elem_of_delete_where. specialize (H5 r Hr).
    unfold stored_events in *. cbn.
    pose proof (count_where_update_le (fun e => match er_issue_id e with
       | Some i => existsb (fun q => p q && String.eqb (ir_id q) i) (t_issues t)
       | None => false end) (event_of (ir_id r)) clear_issue (t_events t)
       ltac:(by intros e _ _ He)). lia.
  - by apply delete_where_Forall.
Qed.

(** * On statements *)

Lemma read_uuid_canonical u v : read_uuid (uuid_text u) = Ok v -> v = u.
Proof. rewrite read_uuid_text. congruence. Qed.

Lemma transpose_Some {A B} (f : A -> result CrashServerError B) o o' :
  transpose f o = Ok o' -> is_Some o' <-> is_Some o.
Proof.
  destruct o as [a|]; cbn; [destruct (f a)|]; intros [= <-]; split; intros [? ?]; eauto; done.
Qed.

Lemma IssueStatus_from_Some s st : IssueStatus_from_str s = Some st -> s = IssueStatus_to_string st.
Proof.
  unfold IssueStatus_from_str.
  repeat match goal with |- context [String.eqb s ?t] => destruct (String.eqb_spec s t) as [->|] end;
    intros [= <-]; done.
Qed.

(** What a row that was read tells about the value. *)
Lemma issue_read r i : Issue_try_from r = Ok i -> canonical r ->
  uuid_text (is_id i) = ir_id r /\ uuid_text (is_project_id i) = ir_project_id r
  /\ is_event_count i = row_events r /\ is_fingerprint i = ir_fingerprint r
  /\ IssueStatus_to_string (is_status i) = ir_status r
  /\ (is_Some (is_resolved_at i) <-> is_Some (ir_resolved_at r))
  /\ (is_Some (is_resolved_by i) <-> is_Some (ir_resolved_by r)).
Proof.
  intros H (u & p & Hu & Hp). unfold Issue_try_from in H.
  repeat (apply bind_Ok in H as (? & ? & H)). injection H as <-. cbn.
  rewrite Hu, Hp in *. rewrite !read_uuid_text in *. simplify_eq.
  split_and!; try done.
  - match goal with H : read_enum IssueStatus_from_str _ _ = Ok _ |- _ =>
      revert H; unfold read_enum; destruct (IssueStatus_from_str (ir_status r)) eqn:Hs end;
      [|done]. cbn. intros [= <-]. by apply IssueStatus_from_Some in Hs.
  - by eapply transpose_Some.
  - by eapply transpose_Some.
Qed.

Lemma wrap_u64_ok z : u64_ok (wrap_u64 z).
Proof. unfold u64_ok, wrap_u64. apply Z.mod_pos_bound. lia. Qed.

(** Writing an issue back. *)
Lemma crash_inv_write_back b b' t now r i' :
  crash_inv b t -> r ∈ t_issues t -> uuid_text (is_id i') = ir_id r ->
  b <= b' -> u64_ok (is_event_count i') ->
  stored_events t (ir_id r) <= is_event_count i' <= b' ->
  (is_status i' = Resolved -> is_Some (is_resolved_at i') /\ is_Some (is_resolved_by i')) ->
  crash_inv b' (put_issues (update_where (issue_is (ir_id (issue_row i')))
                              (issue_columns now (issue_row i')) (t_issues t)) t).
Proof.
  intros Hinv Hr Hid Hb Hw Hc Hres. apply (crash_inv_update b); [done..|].
  intros q Hq Hp. apply String.eqb_eq in Hp. cbn in Hp.
  assert (q = r) as ->.
  { apply (NoDup_key ir_id (t_issues t)); [apply (ci_ids b t Hinv)|done..|]. congruence. }
  repeat split; try done.
  - unfold row_events. cbn. rewrite wrap_u64_i64 by done. lia.
  - unfold row_events. cbn. rewrite wrap_u64_i64 by done. lia.
  - revert H. cbn. rewrite fmap_is_Some. intros H. apply Hres.
    by destruct (is_status i').
  - revert H. cbn. rewrite fmap_is_Some. intros H. apply Hres.
    by destruct (is_status i').
Qed.

(** A predicate that only looks at issues and events. *)
Definition of_issues (P : CrashTables -> Prop) : Prop := forall t t',
  t_issues t' = t_issues t -> t_events t' = t_events t -> P t -> P t'.

Definition op_keeps {A} (P : CrashTables -> Prop) (m : RepoOp A) : Prop :=
  keeps (fun c => P (cn_tables c)) m.

Section Ops.
Context (P : CrashTables -> Prop).

Lemma op_keeps_sql {A} (f : CrashTables -> option (A * CrashTables)) :
  (forall t a t', f t = Some (a, t') -> P t -> P t') -> op_keeps P (sql CE_Database f).
Proof.
  intros H c Hc. apply (wp_sql CE_Database f (fun _ c' => P (cn_tables c')) c).
  - by intros _ c' -> _.
  - intros a c' Hf _. by eapply H.
Qed.
Lemma op_keeps_ret {A} (a : A) : op_keeps P (ret a).
Proof. by intros c. Qed.
Lemma op_keeps_bind {A B} (m : RepoOp A) (f : A -> RepoOp B) :
  op_keeps P m -> (forall a, op_keeps P (f a)) -> op_keeps P (bind m f).
Proof. intros Hm Hf. by apply keeps_bind. Qed.
Lemma op_keeps_query {A} (f : CrashTables -> A) : op_keeps P (query f).
Proof. apply op_keeps_sql. by intros t a t' [= _ <-]. Qed.
Lemma op_keeps_fetch_optional {R A} (g : R -> result CrashServerError A) f :
  op_keeps P (fetch_optional g f).
Proof. apply keeps_bind; [apply op_keeps_query|]. intros o. apply keeps_of_result. Qed.
Lemma op_keeps_fetch_all {R A} (g : R -> result CrashServerError A) f : op_keeps P (fetch_all g f).
Proof. apply keeps_bind; [apply op_keeps_query|]. intros o. apply keeps_of_result. Qed.
Lemma op_keeps_modify ok f :
  (forall t, ok t = true -> P t -> P (f t)) -> op_keeps P (modify ok f).
Proof.
  intros H. apply op_keeps_sql. intros t a t'. destruct (ok t) eqn:Hok; [|done].
  intros [= _ <-]. by apply H.
Qed.
Lemma op_keeps_write {A} (f : CrashTables -> A * CrashTables) :
  (forall t, P t -> P (f t).2) -> op_keeps P (sql_write CE_Database f).
Proof. intros H. apply op_keeps_sql. intros t a t' [= Hf]. specialize (H t). by rewrite Hf in H. Qed.
End Ops.

(** Statements on other tables. *)
Ltac elsewhere := first [apply op_keeps_modify | apply op_keeps_write]; intros t;
  match goal with H : of_issues _ |- _ => first [intros _; apply H | apply H] end; done.

Section Elsewhere.
Context (P : CrashTables -> Prop) (HP : of_issues P).

Lemma keeps_create_project p : op_keeps P (repo_create_project p).
Proof. elsewhere. Qed.
Lemma keeps_update_project p : op_keeps P (repo_update_project p).
Proof. elsewhere. Qed.
Lemma keeps_create_release r : op_keeps P (repo_create_release r).
Proof. elsewhere. Qed.
Lemma keeps_get_or_create_release id now p o v : op_keeps P (repo_get_or_create_release id now p o v).
Proof.
  apply op_keeps_bind; [apply op_keeps_fetch_optional|]. intros [r|]; [apply op_keeps_ret|].
  apply op_keeps_bind; [apply keeps_create_release|]. intros _. apply op_keeps_ret.
Qed.
Lemma keeps_increment_release now p v n r :
  op_keeps P (repo_increment_release_crash_count now p v n r).
Proof. elsewhere. Qed.
Lemma keeps_create_artifact a : op_keeps P (repo_create_artifact a).
Proof. elsewhere. Qed.
Lemma keeps_delete_artifact id : op_keeps P (repo_delete_artifact id).
Proof. elsewhere. Qed.
Lemma keeps_delete_old_artifacts c : op_keeps P (repo_delete_old_artifacts c).
Proof. elsewhere. Qed.
Lemma keeps_artifact_accessed now id : op_keeps P (repo_update_artifact_last_accessed now id).
Proof. elsewhere. Qed.
Lemma keeps_create_api_key k : op_keeps P (repo_create_api_key k).
Proof. elsewhere. Qed.
Lemma keeps_revoke_api_key now id : op_keeps P (repo_revoke_api_key now id).
Proof. elsewhere. Qed.
Lemma keeps_api_key_used now id : op_keeps P (repo_update_api_key_last_used now id).
Proof. elsewhere. Qed.
Lemma keeps_next_short_id oc p : op_keeps P (repo_get_next_short_id oc p).
Proof.
  apply op_keeps_bind; [apply op_keeps_fetch_optional|]. intros o.
  apply op_keeps_bind; [apply keeps_of_result|]. intros j.
  apply op_keeps_bind; [apply op_keeps_query|]. intros n. apply op_keeps_ret.
Qed.
End Elsewhere.

Lemma of_issues_inv b : of_issues (crash_inv b).
Proof. intros t t'. apply crash_inv_same. Qed.
Lemma of_issues_at phi b p i : of_issues (fun t => crash_inv b t /\ issue_at phi t p i).
Proof. intros t t' Hi He [H Hr]. split; [by eapply crash_inv_same|by eapply issue_at_same]. Qed.

Lemma issue_at_update phi t p f pr i :
  (forall r, r ∈ t_issues t -> p r = true -> ir_id (f r) = ir_id r
     /\ ir_project_id (f r) = ir_project_id r /\ row_events (f r) = row_events r) ->
  issue_at phi t pr i -> issue_at phi (put_issues (update_where p f (t_issues t)) t) pr i.
Proof.
  intros Hf (r & Hr & Hi & Hp & Hc). exists (if p r then f r else r). cbn.
  split; [apply elem_of_update_where; by exists r|].
  unfold stored_events in *. cbn. destruct (p r) eqn:Hpr; [|done].
  by destruct (Hf r Hr Hpr) as (-> & -> & ->).
Qed.

Lemma keeps_add_issue_person phi b p i now now' id pid :
  op_keeps (fun t => crash_inv b t /\ issue_at phi t p i) (repo_add_issue_person now now' id pid).
Proof.
  apply op_keeps_bind.
  - apply op_keeps_modify. intros t _ H. destruct (existsb _ (t_persons t)); [done|].
    revert H. by apply of_issues_at.
  - intros _. apply op_keeps_modify. intros t _ [Hinv Hat]. split.
    + apply (crash_inv_update b); [done..|]. intros r Hr _. cbn.
      pose proof (ci_counts b t Hinv) as Hc. rewrite Forall_forall in Hc.
      pose proof (ci_resolved b t Hinv) as Hs. rewrite Forall_forall in Hs.
      repeat split; [apply (Hc r Hr)..|by apply (Hs r Hr)|by apply (Hs r Hr)].
    + by apply issue_at_update.
Qed.

Lemma keeps_delete_issue b id : op_keeps (crash_inv b) (repo_delete_issue id).
Proof. apply op_keeps_write. intros t. apply crash_inv_delete_issues. Qed.
Lemma keeps_delete_old_events b c : op_keeps (crash_inv b) (repo_delete_old_events c).
Proof. apply op_keeps_write. intros t. apply crash_inv_delete_events. Qed.
Lemma keeps_delete_project b id : op_keeps (crash_inv b) (repo_delete_project id).
Proof.
  apply op_keeps_write. intros t H. cbn. unfold delete_projects.
  apply (crash_inv_delete_issues b t (fun i => String.eqb (ir_project_id i) (uuid_text id))) in H.
  apply (crash_inv_delete_events b _ (fun e => String.eqb (er_project_id e) (uuid_text id))) in H.
  revert H. apply crash_inv_same; done.
Qed.

End Invariant.
