(* ===== verification/CrashRequests.v ===== *)
(** Requests to the crash server keep the invariant of CrashInvariant. *)
From stdpp Require Import base gmap list strings.
From Stdlib Require Import ZArith Lia Ascii.
From S2P Require Import Prelude Text CoreTypes Effects Sql Columns SourceMap CrashModel CrashRepo CrashCapture CrashRoutes CrashInvariant.

Section Handlers.
Context `{CB : CrashBackend}.
Local Open Scope Z_scope.

(** * Handlers *)

Definition tables_of (w : CrashWorld) : CrashTables := cn_tables (cw_conn w).
Definition on_tables (P : CrashTables -> Prop) (w : CrashWorld) : Prop := P (tables_of w).

Section Keeps.
Context (P : CrashTables -> Prop).

Lemma keeps_repo {E A} (f : CrashServerError -> E) (m : RepoOp A) :
  op_keeps P m -> keeps (on_tables P) (repo f m).
Proof.
  intros H w Hw. specialize (H (cw_conn w) Hw). unfold repo, map_err, on_part.
  by destruct (m (cw_conn w)) as [[a|e] c].
Qed.
Lemma keeps_try_repo {E A} (m : RepoOp A) :
  op_keeps P m -> keeps (on_tables P) (try_repo (E := E) m).
Proof.
  intros H w Hw. specialize (H (cw_conn w) Hw). unfold try_repo, attempt, on_part.
  by destruct (m (cw_conn w)) as [[a|e] c].
Qed.
Lemma keeps_of_run {E A} (r : run A) : keeps (on_tables P) (of_run (E := E) r).
Proof. destruct r; [apply keeps_ret|apply keeps_raise]. Qed.
Lemma keeps_send {E} p e : keeps (on_tables P) (send (E := E) p e).
Proof. by intros w. Qed.
Lemma keeps_log_audit {E} a : keeps (on_tables P) (log_audit (E := E) a).
Proof. by intros w. Qed.
Lemma keeps_spawn {E} t : keeps (on_tables P) (spawn (E := E) t).
Proof. by intros w. Qed.
Lemma keeps_parse_id {E} (e : E) s : keeps (on_tables P) (parse_id e s).
Proof. unfold parse_id. destruct (uuid_parse s); [apply keeps_ret|apply keeps_raise]. Qed.
Lemma keeps_fun {E} (g : CrashWorld -> CrashWorld) :
  (forall w, tables_of (g w) = tables_of w) ->
  keeps (on_tables P) (fun w => (Ok (E := E) tt, g w)).
Proof. intros H w. unfold on_tables. cbn. by rewrite H. Qed.
End Keeps.

End Handlers.

(** Goes through a handler statement by statement. *)
Ltac keeps_step :=
  match goal with
  | |- keeps _ (bind _ _) => apply keeps_bind; [|intros ?]
  | |- keeps _ (ret _) => apply keeps_ret
  | |- keeps _ (raise _) => apply keeps_raise
  | |- keeps _ (of_run _) => apply keeps_of_run
  | |- keeps _ (send _ _) => apply keeps_send
  | |- keeps _ (log_audit _) => apply keeps_log_audit
  | |- keeps _ (spawn _) => apply keeps_spawn
  | |- keeps _ (parse_id _ _) => apply keeps_parse_id
  | |- keeps _ (repo _ _) => apply keeps_repo
  | |- keeps _ (try_repo _) => apply keeps_try_repo
  | |- op_keeps _ _ => solve [eauto with keeps nocore]
  | |- op_keeps _ _ => first [apply op_keeps_fetch_optional | apply op_keeps_fetch_all
                             | apply op_keeps_query]
  | |- keeps _ (if ?b then _ else _) => destruct b
  | |- keeps _ (match ?x with _ => _ end) => destruct x
  | |- keeps _ (let _ := _ in _) => cbv zeta
  end.
Ltac keeps_tac := repeat (keeps_step || solve [eauto with keeps nocore]).

#[export] Hint Resolve keeps_create_project keeps_update_project keeps_create_release
  keeps_get_or_create_release keeps_increment_release keeps_create_artifact
  keeps_delete_artifact keeps_artifact_accessed keeps_create_api_key keeps_revoke_api_key
  keeps_next_short_id : keeps.

Section Requests.
Context `{CB : CrashBackend}.
Local Open Scope Z_scope.

(** Handlers that touch other tables only. *)
Section Elsewhere.
Context (P : CrashTables -> Prop) (HP : of_issues P).

Lemma keeps_verify_org_membership o u l : keeps (on_tables P) (verify_org_membership o u l).
Proof. unfold verify_org_membership. keeps_tac. Qed.
#[local] Hint Resolve keeps_verify_org_membership : keeps.

Lemma keeps_project_with_auth l u p : keeps (on_tables P) (get_project_with_auth l u p).
Proof. unfold get_project_with_auth. keeps_tac. Qed.
#[local] Hint Resolve keeps_project_with_auth : keeps.

Lemma keeps_authorized_issue l u p i : keeps (on_tables P) (authorized_issue l u p i).
Proof.
  unfold authorized_issue, get_issue_for_project, parse_project_id, parse_issue_id. keeps_tac.
Qed.
#[local] Hint Resolve keeps_authorized_issue : keeps.

Lemma keeps_symbolicate_event {E} e p : keeps (on_tables P) (symbolicate_event (E := E) e p).
Proof.
  assert (Hf : forall f r d, keeps (on_tables P) (symbolicate_js_frame (E := E) p r d f)).
  { intros f r d. unfold symbolicate_js_frame, find_artifact. keeps_tac. }
  assert (Hfs : forall fs r d, keeps (on_tables P) (symbolicate_js_frames (E := E) p r d fs)).
  { intros fs r d. induction fs as [|f fs IH]; cbn [symbolicate_js_frames]; keeps_tac. }
  unfold symbolicate_event, symbolicate. keeps_tac.
Qed.

Lemma keeps_track_release {E} env e p n r : keeps (on_tables P) (track_release (E := E) env e p n r).
Proof. unfold track_release. keeps_tac. Qed.

Lemma keeps_upload_files env i u o p r d fs :
  keeps (on_tables P) (upload_files env i u o p r d fs).
Proof.
  revert i. induction fs as [|[n x] fs IH]; intros i; cbn [upload_files]; [keeps_tac|].
  unfold upload_file. keeps_tac.
Qed.

End Elsewhere.

(** * Reading and writing back an issue *)

Lemma wp_crash_repo {E A} (f : CrashServerError -> E) (m : RepoOp A)
    (Q : result (Failure E) A -> CrashWorld -> Prop) w :
  wp m (fun r c => Q (match r with Ok a => Ok a | Err e => Err (Failed (f e)) end)
                     (put_conn c w)) (cw_conn w) -> wp (repo f m) Q w.
Proof. intros H. by apply stm_map_err, stm_on_part. Qed.

Lemma wp_try_repo {E A} (m : RepoOp A) (Q : result (Failure E) _ -> CrashWorld -> Prop) w :
  wp m (fun r c => Q (Ok r) (put_conn c w)) (cw_conn w) -> wp (try_repo m) Q w.
Proof. intros H. by apply stm_attempt, stm_on_part. Qed.

(** A row that is found and read. *)
Definition row_found {R A} (try_from : R -> result CrashServerError A) (o : option R) (a : option A)
    : Prop :=
  match o with
  | Some r => exists v, try_from r = Ok v /\ a = Some v
  | None => a = None
  end.

Lemma wp_fetch_optional {R A} (try_from : R -> result CrashServerError A) f
    (Q : result CrashServerError (option A) -> Conn CrashTables -> Prop) c :
  (forall e c', cn_tables c' = cn_tables c -> Q (Err e) c') ->
  (forall a c', cn_tables c' = cn_tables c -> row_found try_from (f (cn_tables c)) a -> Q (Ok a) c') ->
  wp (fetch_optional try_from f) Q c.
Proof.
  intros He Ho. apply stm_bind, wp_sql_read.
  - intros e c' Ht _. by apply He.
  - intros c' Ht _. apply stm_of_result. unfold transpose.
    destruct (f (cn_tables c)) as [r|] eqn:Hf.
    + destruct (try_from r) as [v|e] eqn:Hr; [|by apply He]. apply Ho; [done|]. by exists v.
    + by apply Ho.
Qed.

(** What the handlers know about an issue they have read. *)
Definition has_read (t : CrashTables) (r : IssueRow) (i : Issue) : Prop :=
  r ∈ t_issues t /\ Issue_try_from r = Ok i.

Lemma wp_get_issue {E} (f : CrashServerError -> E) (p : IssueRow -> bool)
    (Q : result (Failure E) (option Issue) -> CrashWorld -> Prop) w :
  (forall e w', tables_of w' = tables_of w -> Q (Err e) w') ->
  (forall w', tables_of w' = tables_of w -> select_one p (t_issues (tables_of w)) = None ->
     Q (Ok None) w') ->
  (forall r i w', tables_of w' = tables_of w -> has_read (tables_of w) r i -> p r = true ->
     Q (Ok (Some i)) w') ->
  wp (repo f (fetch_optional Issue_try_from (fun t => select_one p (t_issues t)))) Q w.
Proof.
  intros He Hn Hs. apply wp_crash_repo, wp_fetch_optional.
  - intros e c' Ht. apply He. exact Ht.
  - intros a c' Ht Hf. unfold row_found in Hf.
    destruct (select_one p (t_issues (cn_tables (cw_conn w)))) as [r|] eqn:Hr.
    + destruct Hf as (i & Hi & ->). apply select_one_Some in Hr as [Hr Hp].
      by apply (Hs r i).
    + subst a. by apply Hn.
Qed.

Lemma wp_authorized_issue l u p i (Q : result (Failure HttpError) (Uuid * Uuid * Issue) ->
    CrashWorld -> Prop) w :
  (forall e w', tables_of w' = tables_of w -> Q (Err e) w') ->
  (forall pid iid issue r w', tables_of w' = tables_of w -> has_read (tables_of w) r issue ->
     ir_id r = uuid_text iid -> is_project_id issue = pid -> Q (Ok (pid, iid, issue)) w') ->
  wp (authorized_issue l u p i) Q w.
Proof.
  intros He Ho. unfold authorized_issue.
  assert (Hkeep : forall {A} (m : HandlerM HttpError A), keeps (on_tables (eq (tables_of w))) m ->
    forall w' Q', tables_of w' = tables_of w -> (forall r w'', tables_of w'' = tables_of w ->
      Q' r w'') -> wp m Q' w').
  { intros A m Hm w' Q' Hw' HQ. apply (stm_mono _ (fun _ => on_tables (eq (tables_of w)))).
    - apply wp_keeps; [done|]. symmetry. exact Hw'.
    - intros r w'' Hw''. apply HQ. by symmetry. }
  apply stm_bind, Hkeep; [apply keeps_parse_id|done|]. intros [pid|e] w1 H1; [|by apply He].
  apply stm_bind, Hkeep; [apply keeps_parse_id|done|]. intros [iid|e] w2 H2; [|by apply He].
  apply stm_bind, Hkeep; [apply keeps_project_with_auth|done|].
  intros [prj|e] w3 H3; [|by apply He]. apply stm_bind. unfold get_issue_for_project.
  apply stm_bind, wp_get_issue.
  - intros e w' Hw'. apply He. etrans; [exact Hw'|exact H3].
  - intros w' Hw' _. apply He. etrans; [exact Hw'|exact H3].
  - intros r j w' Hw' Hr Hp. rewrite H3 in Hr. cbv beta iota.
    case_bool_decide as Hj; [|apply He; etrans; [exact Hw'|exact H3]].
    apply (Ho pid iid j r); try done; [etrans; [exact Hw'|exact H3]|]. by apply String.eqb_eq.
Qed.

(** Updates by the routes of issues keep the count. *)
Lemma wp_update_kept b l now t r i i' w :
  tables_of w = t -> crash_inv b t -> b < 2 ^ 64 -> has_read t r i ->
  is_id i' = is_id i -> is_event_count i' = is_event_count i ->
  (is_status i' = Resolved -> is_Some (is_resolved_at i') /\ is_Some (is_resolved_by i')) ->
  wp (repo (fun _ => internal_error l) (repo_update_issue now i'))
    (fun _ => on_tables (crash_inv b)) w.
Proof.
  intros <- Hinv Hb [Hr Hread] Hid Hc Hres. apply wp_crash_repo, wp_sql.
  - intros e c' Ht _. unfold on_tables, tables_of in *. cbn. by rewrite Ht.
  - intros a c'. destruct (_ || _); [|done]. intros [= _ Ht] _.
    unfold on_tables, tables_of in *. cbn. rewrite <- Ht.
    pose proof (ci_counts b _ Hinv) as Hcs. rewrite Forall_forall in Hcs. specialize (Hcs r Hr).
    cbv beta in Hcs. destruct (issue_read r i Hread) as (Hri & _ & He & _).
    { eapply Forall_forall; [apply (ci_rows b _ Hinv)|done]. }
    apply (crash_inv_write_back b b _ now r); try done.
    + by rewrite Hid.
    + rewrite Hc, He. apply wrap_u64_ok.
    + rewrite Hc, He. exact Hcs.
Qed.

Lemma resolved_kept b t r i : crash_inv b t -> has_read t r i -> is_status i = Resolved ->
  is_Some (is_resolved_at i) /\ is_Some (is_resolved_by i).
Proof.
  intros Hinv [Hr Hread] Hs. destruct (issue_read r i Hread) as (_ & _ & _ & _ & Ht & -> & ->).
  { eapply Forall_forall; [apply (ci_rows b t Hinv)|done]. }
  pose proof (ci_resolved b t Hinv) as H. rewrite Forall_forall in H. apply (H r Hr).
  by rewrite <- Ht, Hs.
Qed.

(** * Capturing *)

(** The answer of grouping: one event more than are stored fits. *)
Definition grouped {E} (b : Z) (p : Uuid) (r : result (Failure E) (Issue * bool * bool))
    (w : CrashWorld) : Prop :=
  match r with
  | Ok (i, _, _) =>
      crash_inv (b + 1) (tables_of w) /\ room (tables_of w) (uuid_text p) (uuid_text (is_id i))
  | Err _ => crash_inv (b + 1) (tables_of w)
  end.

Lemma grouped_Err {E} b p (x : Failure E) w :
  crash_inv b (tables_of w) -> grouped b p (Err x) w.
Proof. intros H. apply (crash_inv_weaken b); [lia|exact H]. Qed.

(** What a capture knows about the issue it has read. *)
Lemma counted_read b t r i : crash_inv b t -> has_read t r i ->
  counted (is_event_count i) t (ir_project_id r) (uuid_text (is_id i))
  /\ 0 <= is_event_count i <= b.
Proof.
  intros Hinv [Hr Htf]. destruct (issue_read r i Htf) as (Hri & _ & He & _).
  { eapply Forall_forall; [apply (ci_rows b t Hinv)|done]. }
  pose proof (ci_counts b t Hinv) as Hcs. rewrite Forall_forall in Hcs. specialize (Hcs r Hr).
  cbv beta in Hcs. rewrite He. pose proof (wrap_u64_ok (ir_event_count r)).
  split; [by exists r|]. unfold u64_ok, row_events in *. lia.
Qed.

Lemma room_write_back b t now i' p : crash_inv b t -> u64_ok (is_event_count i') ->
  counted (is_event_count i' - 1) t p (uuid_text (is_id i')) ->
  room (put_issues (update_where (issue_is (ir_id (issue_row i')))
                      (issue_columns now (issue_row i')) (t_issues t)) t) p (uuid_text (is_id i')).
Proof.
  intros Hinv Hw (r & Hr & Hid & Hp & Hc). exists (issue_columns now (issue_row i') r).
  split_and!; [|by rewrite <- Hid|done|].
  - apply elem_of_update_where. exists r. split; [done|]. unfold issue_is.
    by rewrite Hid, String.eqb_refl.
  - pose proof (ci_counts b t Hinv) as Hcs. rewrite Forall_forall in Hcs. specialize (Hcs r Hr).
    cbv beta in Hcs. rewrite <- Hid. unfold row_events, stored_events in *. cbn.
    rewrite wrap_u64_i64 by done. lia.
Qed.

(** The update of a capture, from a count that went up by one. *)
Lemma wp_update_counted {E} b (f : CrashServerError -> E) now p i' w :
  crash_inv b (tables_of w) -> 1 <= is_event_count i' <= b + 1 -> b + 1 < 2 ^ 64 ->
  counted (is_event_count i' - 1) (tables_of w) p (uuid_text (is_id i')) ->
  (is_status i' = Resolved -> is_Some (is_resolved_at i') /\ is_Some (is_resolved_by i')) ->
  wp (repo f (repo_update_issue now i')) (fun a w' => match a with
    | Ok _ => crash_inv (b + 1) (tables_of w') /\ room (tables_of w') p (uuid_text (is_id i'))
    | Err _ => crash_inv (b + 1) (tables_of w') end) w.
Proof.
  intros Hinv Hn Hb Hc Hres. assert (u64_ok (is_event_count i')) by (unfold u64_ok; lia).
  apply wp_crash_repo, wp_sql.
  - intros e c' Ht _. unfold tables_of in *. cbn. rewrite Ht. apply (crash_inv_weaken b); [lia|done].
  - intros a c'. destruct (_ || _); [|done]. intros [= _ Ht] _. unfold tables_of in *. cbn.
    rewrite <- Ht. split; [|by apply (room_write_back b)].
    destruct Hc as (r & Hr & Hid & _ & Hrow).
    pose proof (ci_counts b _ Hinv) as Hcs. rewrite Forall_forall in Hcs. specialize (Hcs r Hr).
    cbv beta in Hcs. apply (crash_inv_write_back b (b + 1) _ now r); try done; lia.
Qed.

Lemma keeps_track_person {E} phi b p i now now' id o :
  keeps (on_tables (fun t => crash_inv b t /\ issue_at phi t p i)) (track_person (E := E) now now' id o).
Proof.
  unfold track_person. destruct o as [pid|]; [|apply keeps_ret].
  apply keeps_bind; [apply keeps_try_repo, keeps_add_issue_person|]. intros _. apply keeps_ret.
Qed.

Lemma wp_create_issue {E} b (f : CrashServerError -> E) id o p s fp title c e t1 t2 w :
  crash_inv b (tables_of w) -> 0 <= b ->
  wp (repo f (repo_create_issue (new_issue id o p s fp title c e t1 t2))) (fun a w' => match a with
    | Ok _ => crash_inv (b + 1) (tables_of w')
              /\ room (tables_of w') (uuid_text p) (uuid_text id)
    | Err _ => crash_inv (b + 1) (tables_of w') end) w.
Proof.
  intros Hinv Hb. apply wp_crash_repo, wp_sql.
  - intros x c' Ht _. unfold tables_of in *. cbn. rewrite Ht. apply (crash_inv_weaken b); [lia|done].
  - intros a c'. destruct (_ && _) eqn:Hok; [|done]. intros [= _ Ht] _. unfold tables_of in *. cbn.
    rewrite <- Ht. set (r := issue_row _) in *.
    apply andb_true_iff in Hok as [_ Hnew]. apply negb_true_iff in Hnew.
    assert (Hev : row_events r = 1) by reflexivity.
    destruct (crash_inv_new_issue (b + 1) (cn_tables (cw_conn w)) r) as [H0 H1].
    + by exists id, p.
    + rewrite Hev. lia.
    + done.
    + apply List.Forall_forall. intros q Hq. rewrite <- not_true_iff_false, existsb_exists in Hnew.
      split; intros Heq; apply Hnew; exists q; (split; [done|]); apply orb_true_iff.
      * left. apply String.eqb_eq. exact Heq.
      * right. injection Heq as Hp Hf. cbn in Hp, Hf. cbn. by rewrite Hp, Hf, !String.eqb_refl.
    + apply (crash_inv_weaken b); [lia|done].
    + split; [done|]. exists r. cbn. split_and!; try done.
      * rewrite elem_of_app. right. by apply list_elem_of_singleton.
      * unfold stored_events in *. cbn in *. rewrite Hev. lia.
Qed.

Lemma wp_find_or_create {E} b (fail : string -> CrashServerError -> E) env e p fp w :
  crash_inv b (tables_of w) -> 0 <= b -> b + 1 < 2 ^ 64 ->
  wp (find_or_create_issue fail env e p fp) (grouped b p) w.
Proof.
  intros Hinv Hb0 Hb. unfold find_or_create_issue. apply stm_bind, wp_get_issue.
  - intros x w' Hw. apply grouped_Err. by rewrite Hw.
  - intros w1 H1 Hnone. apply stm_bind.
    eapply (stm_mono _ (fun _ => on_tables (crash_inv b))).
    { apply wp_keeps; [apply keeps_repo, keeps_next_short_id|]. unfold on_tables. by rewrite H1. }
    intros [sid|x] w2 H2; [|by apply grouped_Err].
    apply stm_bind. destruct sid as [sid|]; [|by apply grouped_Err].
    apply stm_bind_ret, stm_bind.
    destruct (truncate _ _) as [v|]; [|by apply grouped_Err].
    apply stm_bind_ret, stm_bind. eapply stm_mono; [apply wp_create_issue; done|].
    intros [[]|x] w3 H3; [|done]. apply stm_bind. eapply stm_mono.
    { apply wp_keeps; [apply keeps_track_person|exact H3]. }
    intros [[]|x] w4 H4; [done|apply H4].
  - intros r i w1 H1 Hread Hp. apply andb_true_iff in Hp as [Hp%String.eqb_eq _].
    destruct (counted_read b _ r i Hinv Hread) as [Hc Hn]. rewrite Hp in Hc.
    apply stm_bind. rewrite add_u64_fits by (unfold u64_ok; lia).
    apply stm_bind_ret, stm_bind.
    apply (stm_mono _ (fun a w' => tables_of w' = tables_of w /\ match a with
      | Ok i' => is_id i' = is_id i /\ is_event_count i' = is_event_count i + 1
                 /\ is_status i' <> Resolved
      | Err _ => True end)).
    { unfold is_resolved. case_bool_decide as Hs; [|done].
      apply stm_bind. by destruct (add_u32 _ _ _). }
    intros [i'|x] w2 [H2 Hi']; [|apply grouped_Err; by rewrite H2].
    destruct Hi' as (Hid & Hc' & Hs). apply stm_bind. rewrite <- H2 in Hinv, Hc.
    eapply stm_mono; [apply (wp_update_counted b _ _ (uuid_text p)); try done; [lia|]|].
    { rewrite Hid, Hc'. by replace (is_event_count i + 1 - 1) with (is_event_count i) by lia. }
    intros [[]|x] w3 H3; [|done]. apply stm_bind. eapply stm_mono.
    { apply wp_keeps; [apply keeps_track_person|exact H3]. }
    intros [[]|x] w4 H4; [|apply H4].
    by destruct (is_resolved i).
Qed.

(** ** With a key *)

Lemma wp_sdk_existing b env e p r i w :
  crash_inv b (tables_of w) -> b + 1 < 2 ^ 64 -> has_read (tables_of w) r i ->
  ir_project_id r = uuid_text p ->
  wp (sdk_existing_issue env e i) (grouped b p) w.
Proof.
  intros Hinv Hb Hread Hp. destruct (counted_read b _ r i Hinv Hread) as [Hc Hn]. rewrite Hp in Hc.
  unfold sdk_existing_issue. apply stm_bind.
  apply (stm_mono _ (fun a w' => tables_of w' = tables_of w /\ match a with
    | Ok i' => is_id i' = is_id i /\ is_event_count i' = is_event_count i
               /\ is_status i' <> Resolved
    | Err _ => True end)).
  { unfold is_resolved. case_bool_decide as Hs; [|done].
    apply stm_bind. by destruct (add_u32 _ _ _). }
  intros [j|x] w1 [H1 Hj]; [|apply grouped_Err; by rewrite H1].
  destruct Hj as (Hid & Hc1 & Hs). apply stm_bind.
  rewrite Hc1, add_u64_fits by (unfold u64_ok; lia). apply stm_bind_ret, stm_bind.
  set (seen := set_counts _ _ _ _ _).
  apply (stm_mono _ (fun a w' => (crash_inv b (tables_of w')
      /\ counted (is_event_count i) (tables_of w') (uuid_text p) (uuid_text (is_id i)))
    /\ match a with
    | Ok i' => is_id i' = is_id i /\ is_event_count i' = is_event_count i + 1
               /\ is_status i' <> Resolved
    | Err _ => True end)).
  { rewrite <- H1 in Hinv, Hc. destruct (ev_person_id e) as [pid|]; [|done].
    apply stm_bind. eapply stm_mono.
    { apply (wp_keeps (on_tables (fun t => crash_inv b t /\ counted (is_event_count i) t
               (uuid_text p) (uuid_text (is_id i))))); [apply keeps_try_repo, op_keeps_query|done]. }
    intros [[has|x]|x] w2 H2; [destruct has; [done|]| |done];
      (apply stm_bind; destruct (add_u64 _ _ _); [|done]; apply stm_bind_ret, stm_bind;
       eapply stm_mono; [apply wp_keeps; [apply keeps_try_repo, keeps_add_issue_person|exact H2]|];
       by intros [y|y] w3 H3). }
  intros [i'|x] w3 [[H3 Hc3] Hi']; [|by apply grouped_Err].
  destruct Hi' as (Hid' & Hc' & Hs'). apply stm_bind.
  eapply stm_mono; [apply (wp_update_counted b _ _ (uuid_text p)); try done; [lia|]|].
  { rewrite Hid', Hc'. by replace (is_event_count i + 1 - 1) with (is_event_count i) by lia. }
  by intros [[]|x] w4 H4.
Qed.

Lemma wp_sdk_new b env e o p fp w :
  crash_inv b (tables_of w) -> 0 <= b -> wp (sdk_new_issue env e o p fp) (grouped b p) w.
Proof.
  intros Hinv Hb. unfold sdk_new_issue. apply stm_bind.
  eapply (stm_mono _ (fun _ => on_tables (crash_inv b))).
  { apply wp_keeps; [apply keeps_repo, keeps_next_short_id|done]. }
  intros [sid|x] w2 H2; [|by apply grouped_Err].
  apply stm_bind. destruct sid as [sid|]; [|by apply grouped_Err].
  apply stm_bind_ret, stm_bind. eapply stm_mono; [apply wp_create_issue; done|].
  intros [[]|x] w3 H3; [|done]. apply stm_bind. eapply stm_mono.
  { apply wp_keeps; [apply keeps_track_person|exact H3]. }
  intros [[]|x] w4 H4; [done|apply H4].
Qed.

(** ** From the grouped event to the answer *)

Lemma wp_record_event {E} b (fail : string -> CrashServerError -> E) env e p i n g w :
  ev_project_id e = p -> crash_inv b (tables_of w) ->
  room (tables_of w) (uuid_text p) (uuid_text (is_id i)) ->
  wp (record_event fail env e p i n g) (fun _ => on_tables (crash_inv b)) w.
Proof.
  intros Hp Hinv Hroom. unfold record_event. apply stm_bind, wp_crash_repo, wp_sql.
  - intros x c' Ht _. unfold on_tables, tables_of in *. cbn. by rewrite Ht.
  - intros a c'. destruct (_ && _); [|done]. intros [= _ Ht] _.
    apply wp_keeps.
    + apply keeps_bind; [apply keeps_track_release, of_issues_inv|]. intros _.
      apply keeps_bind; [apply keeps_send|]. intros _. apply keeps_ret.
    + unfold on_tables, tables_of in *. cbn. rewrite <- Ht.
      apply crash_inv_new_event; [|done]. cbn. by rewrite Hp.
Qed.

(** Symbolication keeps the project of an event. *)
Lemma wp_symbolicated {E} P e p w : on_tables P w ->
  wp (symbolicate_event (E := E) e p) (fun a w' => on_tables P w' /\ match a with
    | Ok e' => ev_project_id e' = ev_project_id e | Err _ => True end) w.
Proof.
  intros Hw. unfold wp. split; [by apply (keeps_symbolicate_event P)|].
  unfold symbolicate_event. destruct (ev_release e) as [r|]; [|done]. unfold bind.
  destruct (symbolicate _ _ _ _ _ w) as [[st|x] w']; [|done]. cbn. by case_decide.
Qed.

Lemma wp_convert {E} P env body o p w : on_tables P w ->
  wp (symbolicate_event (E := E) (convert_capture_request env body o p) p)
    (fun a w' => on_tables P w' /\ match a with
       | Ok e' => ev_project_id e' = p | Err _ => True end) w.
Proof. apply wp_symbolicated. Qed.

Lemma wp_on_tables {E A} P (m : HandlerM E A) (Q : result (Failure E) A -> CrashWorld -> Prop) w :
  keeps (on_tables P) m -> on_tables P w -> (forall r w', P (tables_of w') -> Q r w') -> wp m Q w.
Proof. intros Hm Hw HQ. eapply stm_mono; [by apply wp_keeps|]. intros r w'. apply HQ. Qed.

(** Capturing one event: of a session, of a batch, with a key. *)
Section Captures.
Context (b : Z) (Hb0 : 0 <= b) (Hb : b + 1 < 2 ^ 64).

Lemma inv_weaken w : on_tables (crash_inv b) w -> on_tables (crash_inv (b + 1)) w.
Proof. intros H. apply (crash_inv_weaken b); [lia|exact H]. Qed.

Lemma wp_grouped_event {E} (fail : string -> CrashServerError -> E) env body o p w :
  crash_inv b (tables_of w) ->
  wp (let* e := symbolicate_event (convert_capture_request env body o p) p in
      let* (issue, is_new_issue, is_regression) :=
        find_or_create_issue fail env e p (compute_fingerprint sha256_hex e) in
      record_event fail env e p issue is_new_issue is_regression)
     (fun _ => on_tables (crash_inv (b + 1))) w.
Proof.
  intros Hinv. apply stm_bind. eapply stm_mono; [apply wp_convert; exact Hinv|].
  intros [e|x] w1 [H1 He]; [|by apply inv_weaken]. apply stm_bind.
  eapply stm_mono; [by apply (wp_find_or_create b)|].
  intros [[[i n] g]|x] w2 H2; [|done]. destruct H2. by apply wp_record_event.
Qed.

Lemma wp_capture_crash env l u body w : crash_inv b (tables_of w) ->
  wp (capture_crash env l u body) (fun _ => on_tables (crash_inv (b + 1))) w.
Proof.
  intros Hinv. unfold capture_crash, parse_project_id.
  apply stm_bind, (wp_on_tables (crash_inv b)); [apply keeps_parse_id|done|].
  intros [p|x] w1 H1; [|by apply inv_weaken].
  apply stm_bind, (wp_on_tables (crash_inv b)); [apply keeps_repo, op_keeps_fetch_optional|done|].
  intros [[prj|]|x] w2 H2; [|by apply inv_weaken..].
  apply stm_bind, (wp_on_tables (crash_inv b)); [apply keeps_verify_org_membership|done|].
  intros [[]|x] w3 H3; [|by apply inv_weaken]. by apply wp_grouped_event.
Qed.

Lemma wp_process_single env l u body w : crash_inv b (tables_of w) ->
  wp (process_single_capture env l u body) (fun _ => on_tables (crash_inv (b + 1))) w.
Proof.
  intros Hinv. unfold process_single_capture.
  apply stm_bind, (wp_on_tables (crash_inv b)); [apply keeps_parse_id|done|].
  intros [p|x] w1 H1; [|by apply inv_weaken].
  apply stm_bind, (wp_on_tables (crash_inv b)); [apply keeps_repo, op_keeps_fetch_optional|done|].
  intros [[prj|]|x] w2 H2; [|by apply inv_weaken..].
  apply stm_bind, (wp_on_tables (crash_inv b)); [apply keeps_repo, op_keeps_query|done|].
  intros [[]|x] w3 H3; [|by apply inv_weaken..]. by apply wp_grouped_event.
Qed.

Lemma wp_capture_with_key env k body w : crash_inv b (tables_of w) ->
  wp (capture_crash_with_api_key env k body) (fun _ => on_tables (crash_inv (b + 1))) w.
Proof.
  intros Hinv. unfold capture_crash_with_api_key, parse_project_id.
  destruct k as [key|]; [|by apply inv_weaken].
  apply stm_bind, (wp_on_tables (crash_inv b)); [apply keeps_parse_id|done|].
  intros [p|x] w1 H1; [|by apply inv_weaken].
  apply stm_bind, (wp_on_tables (crash_inv b)); [apply keeps_repo, op_keeps_fetch_optional|done|].
  intros [[prj|]|x] w2 H2; [|by apply inv_weaken..].
  apply stm_bind, (wp_on_tables (crash_inv b)); [unfold verify_project_api_key; keeps_tac|done|].
  intros [kk|x] w3 H3; [|by apply inv_weaken]. destruct (_ && _); [by apply inv_weaken|].
  apply stm_bind. eapply stm_mono; [apply wp_convert; exact H3|].
  intros [e|x] w4 [H4 He]; [|by apply inv_weaken]. apply stm_bind.
  apply wp_try_repo, wp_fetch_optional.
  - intros x c Hc. apply stm_bind. eapply stm_mono; [apply (wp_sdk_new b); [|done]|].
    { unfold tables_of. cbn. rewrite Hc. exact H4. }
    intros [[[i n] g]|y] w5 H5; [|done]. destruct H5. by apply wp_record_event.
  - intros o c Hc Hf. apply stm_bind.
    apply (stm_mono _ (grouped b p)).
    + assert (Hc' : tables_of (put_conn c w4) = tables_of w4) by exact Hc.
      unfold row_found in Hf. destruct (select_one _ _) as [r|] eqn:Hr in Hf.
      * destruct Hf as (i & Hi & ->). apply select_one_Some in Hr as [Hr Hp].
        apply andb_true_iff in Hp as [Hp%String.eqb_eq _].
        apply (wp_sdk_existing b _ _ p r); rewrite ?Hc'; done.
      * subst o. apply wp_sdk_new; [|done]. by rewrite Hc'.
    + intros [[[i n] g]|y] w5 H5; [|done]. destruct H5. by apply wp_record_event.
Qed.
End Captures.

(** ** Batches *)

Lemma wp_batch_loop envs l u events b k w :
  crash_inv b (tables_of w) -> 0 <= b -> b + Z.of_nat (length events) < 2 ^ 64 ->
  wp (batch_loop envs l u k events)
     (fun _ => on_tables (crash_inv (b + Z.of_nat (length events)))) w.
Proof.
  revert b k w. induction events as [|event events IH]; intros b k w Hinv Hb0 Hb.
  - cbn [batch_loop length]. unfold wp, on_tables. cbn. by rewrite Z.add_0_r.
  - cbn [batch_loop length] in *. replace (b + _) with (b + 1 + Z.of_nat (length events)) by lia.
    apply stm_bind, (stm_mono _ (fun _ => on_tables (crash_inv (b + 1)))).
    + assert (Hone := wp_process_single b Hb0 ltac:(lia) (envs k) l u event w Hinv).
      unfold wp, catch_failed in *.
      by destruct (process_single_capture _ _ _ _ w) as [[a|[msg|]] w'].
    + intros [a|x] w' H'; [|eapply crash_inv_weaken; [|exact H']; lia].
      apply stm_bind. eapply stm_mono; [apply IH; [exact H'|lia..]|]. by intros [rs|x] w'' H.
Qed.

Lemma wp_batch_capture envs l u events b w :
  crash_inv b (tables_of w) -> 0 <= b -> b + Z.of_nat (length events) < 2 ^ 64 ->
  wp (batch_capture_crash envs l u events)
     (fun _ => on_tables (crash_inv (b + Z.of_nat (length events)))) w.
Proof.
  intros Hinv Hb0 Hb. unfold batch_capture_crash. destruct (_ <? _)%nat.
  - apply (crash_inv_weaken b); [lia|done].
  - apply stm_bind. eapply stm_mono; [by apply wp_batch_loop|]. by intros [rs|x] w' H.
Qed.

(** * Routes of issues *)

Section IssueRoutes.
Context (b : Z) (Hb : b < 2 ^ 64).

(** What all of them are: the issue is read, changed and written back. *)
Lemma wp_issue_route {A} l u p i (k : Uuid * Uuid * Issue -> HandlerM HttpError A) w :
  crash_inv b (tables_of w) ->
  (forall pid iid issue r w', crash_inv b (tables_of w') -> has_read (tables_of w') r issue ->
     wp (k (pid, iid, issue)) (fun _ => on_tables (crash_inv b)) w') ->
  wp (bind (authorized_issue l u p i) k) (fun _ => on_tables (crash_inv b)) w.
Proof.
  intros Hinv Hk. apply stm_bind, wp_authorized_issue.
  - intros e w' Hw. unfold on_tables. by rewrite Hw.
  - intros pid iid issue r w' Hw Hread _ _. apply (Hk pid iid issue r w'); by rewrite Hw.
Qed.

Lemma wp_written_back {A} l now r i i' (k : HandlerM HttpError A) w :
  crash_inv b (tables_of w) -> has_read (tables_of w) r i ->
  is_id i' = is_id i -> is_event_count i' = is_event_count i ->
  (is_status i' = Resolved -> is_Some (is_resolved_at i') /\ is_Some (is_resolved_by i')) ->
  keeps (on_tables (crash_inv b)) k ->
  wp (let* _ := repo (fun _ => internal_error l) (repo_update_issue now i') in k)
     (fun _ => on_tables (crash_inv b)) w.
Proof.
  intros Hinv Hread Hid Hc Hs Hk. apply stm_bind.
  eapply stm_mono; [by apply (wp_update_kept b l now (tables_of w) r i)|].
  intros [[]|e] w' H; [|done]. by apply wp_keeps.
Qed.

Lemma keeps_resolve_issue env l u p i rel :
  keeps (on_tables (crash_inv b)) (resolve_issue env l u p i rel).
Proof.
  apply keeps_wp. intros w H. apply wp_issue_route; [done|]. intros pid iid j r w' Hinv Hread.
  cbv beta iota zeta. apply (wp_written_back _ _ r j); try done. keeps_tac.
Qed.

Lemma keeps_unresolve_issue env l u p i :
  keeps (on_tables (crash_inv b)) (unresolve_issue env l u p i).
Proof.
  apply keeps_wp. intros w H. apply wp_issue_route; [done|]. intros pid iid j r w' Hinv Hread.
  cbv beta iota zeta. apply (wp_written_back _ _ r j); try done. keeps_tac.
Qed.

Lemma keeps_ignore_issue env l u p i :
  keeps (on_tables (crash_inv b)) (ignore_issue env l u p i).
Proof.
  apply keeps_wp. intros w H. apply wp_issue_route; [done|]. intros pid iid j r w' Hinv Hread.
  cbv beta iota zeta. apply (wp_written_back _ _ r j); try done. keeps_tac.
Qed.

Lemma keeps_assign_issue env l u p i who :
  keeps (on_tables (crash_inv b)) (assign_issue env l u p i who).
Proof.
  apply keeps_wp. intros w H. apply wp_issue_route; [done|]. intros pid iid j r w' Hinv Hread.
  cbv beta iota zeta. apply stm_bind.
  apply (stm_mono _ (fun _ w'' => tables_of w'' = tables_of w')).
  { destruct who as [s|]; [|done]. unfold parse_id. by destruct (uuid_parse s). }
  intros [v|e] w2 H2; [|unfold on_tables; by rewrite H2].
  rewrite <- H2 in Hread, Hinv. apply (wp_written_back _ _ r j); try done.
  - cbn. by apply (resolved_kept b (tables_of w2) r).
  - keeps_tac.
Qed.

Lemma keeps_delete_issue_route l u p i :
  keeps (on_tables (crash_inv b)) (delete_issue l u p i).
Proof.
  unfold delete_issue. apply keeps_bind; [apply keeps_authorized_issue|]. intros [[pid iid] j].
  apply keeps_bind; [apply keeps_repo, keeps_delete_issue|]. intros d. destruct d; keeps_tac.
Qed.
End IssueRoutes.

End Requests.

#[export] Hint Resolve keeps_verify_org_membership keeps_project_with_auth
  keeps_authorized_issue keeps_upload_files keeps_delete_project of_issues_inv : keeps.
