(* ===== verification/CrashServer.v ===== *)
(** The crash server: its requests, background tasks and jobs, in any order and with any
    failures of the database, keep the invariant of issues. *)
From stdpp Require Import base gmap list strings.
From Stdlib Require Import ZArith Lia Ascii.
From S2P Require Import Prelude Text CoreTypes Effects Sql Columns SourceMap CrashModel CrashRepo CrashCapture CrashRoutes CrashInvariant CrashRequests.

Section Server.
Context `{CB : CrashBackend}.
Local Open Scope Z_scope.

(** * Requests *)

(** Below [/api/crash/projects/{project_id}]. *)
Inductive ProjectRequest :=
| GetProject
| UpdateProject (env : Env) (name : option string) (auto_resolve_age_days : option Z)
| DeleteProject
| ListIssues
| ResolveIssue (env : Env) (issue_id : string) (resolved_in_release : option string)
| UnresolveIssue (env : Env) (issue_id : string)
| IgnoreIssue (env : Env) (issue_id : string)
| AssignIssue (env : Env) (issue_id : string) (assignee : option string)
| GetIssue (issue_id : string)
| DeleteIssue (issue_id : string)
| ListIssueEvents (issue_id : string)
| ListEvents (limit offset : Z)
| GetEvent (event_id : string)
| StreamCrash
| ListReleases
| CreateRelease (env : Env) (version : string) (short_version url date_released : option string)
| GetRelease (version : string)
| ListArtifacts (release : option string) (limit : Z)
| UploadArtifacts (env : Env) (fields : list FormField)
| GetArtifact (env : Env) (artifact_id : string)
| DeleteArtifact (artifact_id : string)
| ListApiKeys
| CreateApiKey (hash_api_key : string -> result CrashServerError string) (random_hex : string)
    (env : Env) (name key_type : string) (rate_limit_per_minute : option Z)
    (allowed_origins : list string)
| RevokeApiKey (env : Env) (key_id : string).

(** Of a user who is signed in. *)
Inductive CrashRequest :=
| Capture (env : Env) (body : CaptureRequest)
| Batch (envs : nat -> Env) (events : list CaptureRequest)
| ListProjects (org_id : string)
| CreateProject (env : Env) (org_id name slug platform : string)
| OnProject (project_id : string) (r : ProjectRequest).

Definition dropped {E A} (m : HandlerM E A) : HandlerM E unit := let* _ := m in ret tt.

(** The routes, with their answers dropped. *)
Definition serve_project (l : string) (u : Uuid) (p : string) (r : ProjectRequest)
    : HandlerM HttpError unit :=
  match r with
  | GetProject => dropped (get_project l u p)
  | UpdateProject env n d => dropped (update_project env l u p n d)
  | DeleteProject => dropped (delete_project l u p)
  | ListIssues => dropped (list_issues l u p)
  | ResolveIssue env i rel => dropped (resolve_issue env l u p i rel)
  | UnresolveIssue env i => dropped (unresolve_issue env l u p i)
  | IgnoreIssue env i => dropped (ignore_issue env l u p i)
  | AssignIssue env i who => dropped (assign_issue env l u p i who)
  | GetIssue i => dropped (get_issue l u p i)
  | DeleteIssue i => dropped (delete_issue l u p i)
  | ListIssueEvents i => dropped (list_issue_events l u p i)
  | ListEvents limit offset => dropped (list_events l u p limit offset)
  | GetEvent e => dropped (get_event l u p e)
  | StreamCrash => dropped (stream_crash l u p)
  | ListReleases => dropped (list_releases l u p)
  | CreateRelease env v sv url d => dropped (create_release env l u p v sv url d)
  | GetRelease v => dropped (get_release l u p v)
  | ListArtifacts rel limit => dropped (list_artifacts l u p rel limit)
  | UploadArtifacts env fs => dropped (upload_artifacts env l u p fs)
  | GetArtifact env a => dropped (get_artifact env l u p a)
  | DeleteArtifact a => dropped (delete_artifact l u p a)
  | ListApiKeys => dropped (list_api_keys l u p)
  | CreateApiKey h x env n k r o => dropped (create_api_key h x env l u p n k r o)
  | RevokeApiKey env k => dropped (revoke_api_key env l u p k)
  end.

Definition serve_user (l : string) (u : Uuid) (r : CrashRequest) : HandlerM HttpError unit :=
  match r with
  | Capture env body => dropped (capture_crash env l u body)
  | Batch envs events => dropped (batch_capture_crash envs l u events)
  | ListProjects o => dropped (list_projects l u o)
  | CreateProject env o n s pf => dropped (create_project env l u o n s pf)
  | OnProject p r => serve_project l u p r
  end.

(** What happens to the server. *)
Inductive CrashStep :=
| ByUser (locale : string) (user_id : Uuid) (r : CrashRequest)
| BySdk (env : Env) (key_header : option string) (body : CaptureRequest)
| ByTask (now : Z) (t : CrashTask)
| EventCleanup (now retention_days : Z)
| ArtifactCleanup (now retention_days : Z)
| Database (faults : list bool).

(** [Database] says which of the next statements fail. *)
Definition crash_step (s : CrashStep) (w : CrashWorld) : CrashWorld :=
  match s with
  | ByUser l u r => (serve_user l u r w).2
  | BySdk env k body => (capture_crash_with_api_key env k body w).2
  | ByTask now t => run_crash_task now t w
  | EventCleanup now d => put_conn (crash_event_cleanup now d (cw_conn w)).2 w
  | ArtifactCleanup now d => put_conn (symbol_artifact_cleanup now d (cw_conn w)).2 w
  | Database fs => put_conn (mkConn (tables_of w) fs) w
  end.

Definition crash_steps (ss : list CrashStep) (w : CrashWorld) : CrashWorld :=
  fold_left (fun w s => crash_step s w) ss w.

(** The events that a step may add. *)
Definition weight (s : CrashStep) : Z :=
  match s with
  | ByUser _ _ (Capture _ _) | BySdk _ _ _ => 1
  | ByUser _ _ (Batch _ events) => Z.of_nat (length events)
  | _ => 0
  end.

Definition total_weight (ss : list CrashStep) : Z := fold_right (fun s n => weight s + n) 0 ss.

Lemma weight_nonneg s : 0 <= weight s.
Proof. destruct s as [? ? []| | | | |]; cbn; lia. Qed.

Lemma total_weight_nonneg ss : 0 <= total_weight ss.
Proof. induction ss as [|s ss IH]; cbn; [lia|]. fold (total_weight ss). pose proof (weight_nonneg s). lia. Qed.

(** * The invariant *)

Lemma keeps_dropped {E A} P (m : HandlerM E A) : keeps P m -> keeps P (dropped m).
Proof. intros H. apply keeps_bind; [done|]. intros a. apply keeps_ret. Qed.

Lemma keeps_serve_project b l u p r : b < 2 ^ 64 ->
  keeps (on_tables (crash_inv b)) (serve_project l u p r).
Proof.
  intros Hb. assert (HP := of_issues_inv b).
  destruct r; cbn [serve_project]; apply keeps_dropped;
    match goal with
    | |- keeps _ (resolve_issue _ _ _ _ _ _) => by apply keeps_resolve_issue
    | |- keeps _ (unresolve_issue _ _ _ _ _) => by apply keeps_unresolve_issue
    | |- keeps _ (ignore_issue _ _ _ _ _) => by apply keeps_ignore_issue
    | |- keeps _ (assign_issue _ _ _ _ _ _) => by apply keeps_assign_issue
    | |- keeps _ (delete_issue _ _ _ _) => apply keeps_delete_issue_route
    | |- _ => idtac
    end.
  - unfold get_project, parse_project_id. keeps_tac.
  - unfold update_project, parse_project_id. keeps_tac.
  - unfold delete_project, parse_project_id. keeps_tac.
  - unfold list_issues, parse_project_id. keeps_tac.
  - unfold get_issue. keeps_tac.
  - unfold list_issue_events. keeps_tac.
  - unfold list_events, parse_project_id. keeps_tac.
  - unfold get_event, parse_project_id, parse_event_id. keeps_tac.
  - unfold stream_crash, parse_project_id. keeps_tac. by apply keeps_fun.
  - unfold list_releases, parse_project_id. keeps_tac.
  - unfold create_release, parse_project_id. keeps_tac.
  - unfold get_release, parse_project_id. keeps_tac.
  - unfold list_artifacts, parse_project_id. keeps_tac.
  - unfold upload_artifacts, parse_project_id. keeps_tac.
  - unfold get_artifact, parse_project_id, parse_artifact_id, artifact_for_project. keeps_tac.
  - unfold delete_artifact, parse_project_id, parse_artifact_id, artifact_for_project. keeps_tac.
  - unfold list_api_keys, parse_project_id. keeps_tac.
  - unfold create_api_key, parse_project_id. keeps_tac.
  - unfold revoke_api_key, parse_project_id, parse_api_key_id. keeps_tac.
Qed.

Lemma crash_step_inv b s w : 0 <= b -> b + weight s < 2 ^ 64 ->
  crash_inv b (tables_of w) -> crash_inv (b + weight s) (tables_of (crash_step s w)).
Proof.
  intros Hb0 Hb Hinv. assert (HP := of_issues_inv b).
  destruct s as [l u r|env k body|now t|now d|now d|fs]; cbn [crash_step weight] in *.
  - assert (Hd : forall A (m : HandlerM HttpError A) n,
      wp m (fun _ => on_tables (crash_inv n)) w -> crash_inv n (tables_of (dropped m w).2)).
    { intros A m n Hm. unfold dropped, bind, wp in *. by destruct (m w) as [[a|x] w']. }
    destruct r as [env body|envs events|o|env o n s pf|p r]; cbn [serve_user].
    + by apply Hd, wp_capture_crash.
    + by apply Hd, wp_batch_capture.
    + rewrite Z.add_0_r. apply Hd, wp_keeps; [|done]. unfold list_projects, parse_org_id. keeps_tac.
    + rewrite Z.add_0_r. apply Hd, wp_keeps; [|done]. unfold create_project, parse_org_id. keeps_tac.
    + rewrite Z.add_0_r. apply keeps_serve_project; [lia|done].
  - by apply wp_capture_with_key.
  - rewrite Z.add_0_r. destruct t; [by apply (keeps_api_key_used _ HP)|].
    by apply (keeps_artifact_accessed _ HP).
  - rewrite Z.add_0_r. by apply keeps_delete_old_events.
  - rewrite Z.add_0_r. by apply (keeps_delete_old_artifacts _ HP).
  - by rewrite Z.add_0_r.
Qed.

(** C27. Whatever is requested of the crash server, one request after the other in whatever
    order, with whatever failures of single statements and panics of requests, from a
    database without issues and events: a stored event that has an issue has one of its own
    project (deleting an issue leaves its events without one), the count of an issue is at
    least the number of its stored events and at most the number of events sent, issues
    have unique identifiers and a project has one issue per fingerprint, and a resolved
    issue says when and by whom.  The handlers read and write the count in two statements,
    so that this is not true of captures that overlap. *)
Theorem issues_consistent (ss : list CrashStep) (w : CrashWorld) :
  t_issues (tables_of w) = [] -> t_events (tables_of w) = [] -> total_weight ss < 2 ^ 64 ->
  crash_inv (total_weight ss) (tables_of (crash_steps ss w)).
Proof.
  intros Hi He Hss. assert (Hinv : crash_inv 0 (tables_of w)).
  { split; rewrite ?Hi, ?He; constructor. }
  clear Hi He. rewrite <- (Z.add_0_l (total_weight ss)) in *.
  revert Hss Hinv. assert (H0 : 0 <= 0) by lia. revert H0. generalize 0 at 2 3 4 5 as b.
  revert w. induction ss as [|s ss IH]; intros w b Hb Hss Hinv; cbn [total_weight fold_right] in *.
  - by rewrite Z.add_0_r.
  - fold (total_weight ss) in *. pose proof (weight_nonneg s). pose proof (total_weight_nonneg ss).
    rewrite Z.add_assoc. apply IH; [lia..|]. apply crash_step_inv; [done|lia|done].
Qed.

End Server.
