(* ===== verification/CrashTypes.v ===== *)
(** Stored crash reports are well typed: every row reads back as a value, after every
    request whose times are in the calendar, so that no list fails on what is stored. *)
From stdpp Require Import base gmap list strings.
From Stdlib Require Import ZArith Lia Ascii.
From S2P Require Import Prelude Text CoreTypes Effects Sql Columns SourceMap CrashModel CrashRepo CrashCapture CrashRoutes CrashInvariant CrashRequests CrashServer.

Section Types.
Context `{CB : CrashBackend}.

(** * Rows *)

Definition reads {R A} (try_from : R -> result CrashServerError A) (r : R) : Prop :=
  exists a, try_from r = Ok a.

(** The times of an issue that updates write back. *)
Definition written_times (i : Issue) : Prop :=
  calendar (is_last_seen i) /\ opt_calendar (is_resolved_at i)
  /\ opt_calendar (is_last_regressed_at i).

Definition typed_issue (r : IssueRow) : Prop :=
  exists i, Issue_try_from r = Ok i /\ written_times i.

Record typed (t : CrashTables) : Prop := {
  ty_projects : Forall (reads CrashProject_try_from) (t_projects t);
  ty_issues : Forall typed_issue (t_issues t);
  ty_events : Forall (reads CrashEvent_try_from) (t_events t);
  ty_releases : Forall (reads Release_try_from) (t_releases t);
  ty_artifacts : Forall (reads SymbolArtifact_try_from) (t_artifacts t);
  ty_api_keys : Forall (reads CrashApiKey_try_from) (t_api_keys t);
}.

(** Opens the reads of a row in the hypotheses. *)
Ltac open_reads H := repeat (apply bind_Ok in H as (? & ? & H)).

(** Reads the columns of a row again. *)
Ltac read_again :=
  repeat (first [match goal with H : ?m = Ok _ |- context [?m] => rewrite H end
    | rewrite read_uuid_text | rewrite transpose_uuid | rewrite parse_datetime_text by done
    | rewrite transpose_datetime by done | rewrite read_json_text
    | rewrite Platform_roundtrip | rewrite IssueStatus_roundtrip | rewrite IssueLevel_roundtrip
    | rewrite IssuePriority_roundtrip | rewrite CrashKeyType_roundtrip
    | rewrite ArtifactType_roundtrip];
    cbn [ok_or mbind result_bind transpose]).

Lemma reads_project_columns p r : calendar (pj_updated_at p) ->
  reads CrashProject_try_from r -> reads CrashProject_try_from (project_columns (project_row p) r).
Proof.
  intros Hp [q H]. unfold CrashProject_try_from in H. open_reads H.
  eexists. unfold CrashProject_try_from, read_enum in *. cbn. by read_again.
Qed.

Lemma typed_issue_columns now i r : calendar now -> written_times i -> typed_issue r ->
  typed_issue (issue_columns now (issue_row i) r).
Proof.
  intros Hn Hi (j & H & _). unfold Issue_try_from in H. open_reads H.
  destruct Hi as (? & ? & ?).
  eexists. unfold Issue_try_from, read_enum in *. cbn. read_again.
  split; [reflexivity|]. by cbn.
Qed.

Lemma typed_issue_users n now r : calendar now -> typed_issue r ->
  typed_issue (set_user_count n now r).
Proof.
  intros Hn (j & H & Hj). unfold Issue_try_from in H. open_reads H. injection H as <-.
  eexists. unfold Issue_try_from, read_enum in *. cbn. read_again.
  split; [reflexivity|]. exact Hj.
Qed.

Lemma reads_event_cleared e :
  reads CrashEvent_try_from e -> reads CrashEvent_try_from (clear_issue e).
Proof.
  intros [q H]. unfold CrashEvent_try_from in H. open_reads H.
  eexists. unfold CrashEvent_try_from, read_enum in *. cbn. by read_again.
Qed.

Lemma reads_release_bumped now n g r : calendar now ->
  reads Release_try_from r -> reads Release_try_from (bump_release (to_rfc3339 now) n g r).
Proof.
  intros Hn [q H]. unfold Release_try_from in H. open_reads H.
  unfold reads, Release_try_from, bump_release. cbn.
  destruct (rr_first_event r) as [s|]; cbn in *; eexists; by read_again.
Qed.

Lemma reads_artifact_accessed now a : calendar now ->
  reads SymbolArtifact_try_from a -> reads SymbolArtifact_try_from (set_last_accessed now a).
Proof.
  intros Hn [q H]. unfold SymbolArtifact_try_from in H. open_reads H.
  eexists. unfold SymbolArtifact_try_from, read_enum in *. cbn. by read_again.
Qed.

Lemma reads_key_times u v k : reads (transpose parse_datetime) u -> reads (transpose parse_datetime) v ->
  reads CrashApiKey_try_from k -> reads CrashApiKey_try_from (set_key_times u v k).
Proof.
  intros [? Hu] [? Hv] [q H]. unfold CrashApiKey_try_from in H. open_reads H.
  eexists. unfold CrashApiKey_try_from, read_enum in *. cbn. by read_again.
Qed.

Lemma key_times_read k : reads CrashApiKey_try_from k ->
  reads (transpose parse_datetime) (kr_last_used_at k)
  /\ reads (transpose parse_datetime) (kr_revoked_at k).
Proof.
  intros [q H]. unfold CrashApiKey_try_from in H. open_reads H. by split; eexists.
Qed.

Lemma time_reads t : calendar t -> reads (transpose parse_datetime) (Some (to_rfc3339 t)).
Proof. intros H. eexists. cbn. by rewrite parse_datetime_text. Qed.

(** ** New rows *)

Lemma new_project_reads p : calendar (pj_created_at p) -> calendar (pj_updated_at p) ->
  reads CrashProject_try_from (project_row p).
Proof. intros. eexists. unfold CrashProject_try_from, read_enum. cbn. by read_again. Qed.

Lemma new_issue_reads i : issue_times i -> typed_issue (issue_row i).
Proof.
  intros (? & ? & ? & ? & ? & ?). eexists. unfold Issue_try_from, read_enum. cbn. read_again.
  split; [reflexivity|]. by cbn.
Qed.

Lemma new_event_reads e : calendar (ev_timestamp e) -> calendar (ev_received_at e) ->
  reads CrashEvent_try_from (event_row e).
Proof. intros H1 H2. destruct (event_reads_back e (conj H1 H2)) as (? & ? & H). by eexists. Qed.

Lemma new_release_reads r : opt_calendar (rl_date_released r) -> opt_calendar (rl_first_event r) ->
  opt_calendar (rl_last_event r) -> calendar (rl_created_at r) ->
  reads Release_try_from (release_row r).
Proof. intros. eexists. unfold Release_try_from. cbn. by read_again. Qed.

Lemma new_artifact_reads a : calendar (ar_uploaded_at a) -> opt_calendar (ar_last_accessed_at a) ->
  reads SymbolArtifact_try_from (artifact_row a).
Proof. intros. eexists. unfold SymbolArtifact_try_from, read_enum. cbn. by read_again. Qed.

Lemma new_key_reads k : calendar (ak_created_at k) -> opt_calendar (ak_last_used_at k) ->
  opt_calendar (ak_revoked_at k) -> reads CrashApiKey_try_from (api_key_row k).
Proof. intros. eexists. unfold CrashApiKey_try_from, read_enum. cbn. by read_again. Qed.

(** * Statements *)

Lemma Forall_updated {R} (P : R -> Prop) p f l : (forall r, P r -> P (f r)) ->
  Forall P l -> Forall P (update_where p f l).
Proof.
  rewrite !Forall_forall. intros Hf H r (r0 & Hr0 & ->)%elem_of_update_where.
  destruct (p r0); [apply Hf|]; by apply H.
Qed.

(** One table changes. *)
Ltac one_table := first [apply op_keeps_modify | apply op_keeps_write];
  intros t; repeat intros ?;
  match goal with H : typed _ |- _ => destruct H end; split; cbn; try done;
  first [apply Forall_updated; [|done] | by apply delete_where_Forall
        | apply Forall_app_2; [done|]; apply Forall_singleton].

Lemma typed_create_project p : calendar (pj_created_at p) -> calendar (pj_updated_at p) ->
  op_keeps typed (repo_create_project p).
Proof. intros. one_table. by apply new_project_reads. Qed.

Lemma typed_update_project p : calendar (pj_updated_at p) ->
  op_keeps typed (repo_update_project p).
Proof. intros. one_table. intros r. by apply reads_project_columns. Qed.

Lemma typed_delete_issues p t : typed t -> typed (delete_issues p t).
Proof.
  intros []. split; cbn; try done; [by apply delete_where_Forall|].
  apply Forall_updated; [|done]. apply reads_event_cleared.
Qed.

Lemma typed_delete_project id : op_keeps typed (repo_delete_project id).
Proof.
  apply op_keeps_write. intros t H. cbn. unfold delete_projects.
  apply (typed_delete_issues (fun i => String.eqb (ir_project_id i) (uuid_text id))) in H.
  destruct H. split; cbn in *; try done; by apply delete_where_Forall.
Qed.

Lemma typed_create_issue i : issue_times i -> op_keeps typed (repo_create_issue i).
Proof. intros. one_table. by apply new_issue_reads. Qed.

Lemma typed_update_issue now i : calendar now -> written_times i ->
  op_keeps typed (repo_update_issue now i).
Proof. intros. one_table. intros r. by apply typed_issue_columns. Qed.

Lemma typed_delete_issue id : op_keeps typed (repo_delete_issue id).
Proof. apply op_keeps_write. intros t. apply typed_delete_issues. Qed.

Lemma typed_create_event e : calendar (ev_timestamp e) -> calendar (ev_received_at e) ->
  op_keeps typed (repo_create_event e).
Proof. intros. one_table. by apply new_event_reads. Qed.

Lemma typed_delete_old_events c : op_keeps typed (repo_delete_old_events c).
Proof. one_table. Qed.

Lemma typed_add_person now now' id pid : calendar now' ->
  op_keeps typed (repo_add_issue_person now now' id pid).
Proof.
  intros Hn. apply op_keeps_bind; [|intros _].
  - apply op_keeps_modify. intros t _ Ht. destruct (existsb _ _); [done|]. by destruct Ht.
  - one_table. intros r. by apply typed_issue_users.
Qed.

Lemma typed_create_release r : opt_calendar (rl_date_released r) ->
  opt_calendar (rl_first_event r) -> opt_calendar (rl_last_event r) -> calendar (rl_created_at r) ->
  op_keeps typed (repo_create_release r).
Proof. intros. one_table. by apply new_release_reads. Qed.

Lemma typed_get_or_create_release id now p o v : calendar now ->
  op_keeps typed (repo_get_or_create_release id now p o v).
Proof.
  intros Hn. apply op_keeps_bind; [apply op_keeps_fetch_optional|].
  intros [r|]; [apply op_keeps_ret|].
  apply op_keeps_bind; [by apply typed_create_release|]. intros _. apply op_keeps_ret.
Qed.

Lemma typed_increment_release now p v n g : calendar now ->
  op_keeps typed (repo_increment_release_crash_count now p v n g).
Proof. intros. one_table. intros r. by apply reads_release_bumped. Qed.

Lemma typed_create_artifact a : calendar (ar_uploaded_at a) -> opt_calendar (ar_last_accessed_at a) ->
  op_keeps typed (repo_create_artifact a).
Proof. intros. one_table. by apply new_artifact_reads. Qed.

Lemma typed_delete_artifact id : op_keeps typed (repo_delete_artifact id).
Proof. one_table. Qed.
Lemma typed_delete_old_artifacts c : op_keeps typed (repo_delete_old_artifacts c).
Proof. one_table. Qed.

Lemma typed_artifact_accessed now id : calendar now ->
  op_keeps typed (repo_update_artifact_last_accessed now id).
Proof. intros. one_table. intros r. by apply reads_artifact_accessed. Qed.

Lemma typed_create_api_key k : calendar (ak_created_at k) -> opt_calendar (ak_last_used_at k) ->
  opt_calendar (ak_revoked_at k) -> op_keeps typed (repo_create_api_key k).
Proof. intros. one_table. by apply new_key_reads. Qed.

Lemma typed_revoke_api_key now id : calendar now -> op_keeps typed (repo_revoke_api_key now id).
Proof.
  intros. one_table. intros r Hr. destruct (key_times_read r Hr).
  apply reads_key_times; [done|by apply time_reads|done].
Qed.

Lemma typed_api_key_used now id : calendar now -> op_keeps typed (repo_update_api_key_last_used now id).
Proof.
  intros. one_table. intros r Hr. destruct (key_times_read r Hr).
  apply reads_key_times; [by apply time_reads|done|done].
Qed.

(** * Handlers *)

Lemma leads_typed_issue {E} (f : CrashServerError -> E) p :
  leads (on_tables typed)
    (repo f (fetch_optional Issue_try_from (fun t => select_one p (t_issues t))))
    (fun a w => on_tables typed w /\ match a with Some i => written_times i | None => True end).
Proof.
  intros w Hw. apply wp_get_issue; unfold on_tables in *.
  - by intros e w' ->.
  - intros w' -> _. done.
  - intros r i w' -> [Hr Hi] _. split; [done|].
    destruct (proj1 (Forall_forall _ _) (ty_issues _ Hw) r Hr) as (j & Hj & Hw').
    rewrite Hi in Hj. by injection Hj as <-.
Qed.

Definition env_times (env : Env) : Prop := forall k, calendar (env_now env k).

Definition body_times (b : CaptureRequest) : Prop :=
  opt_calendar (cr_timestamp b ≫= parse_from_rfc3339).

Definition event_times (e : CrashEvent) : Prop :=
  calendar (ev_timestamp e) /\ calendar (ev_received_at e).

(** Captured events are of the time of the request, or now. *)
Lemma leads_typed_event {E} env b o p : env_times env -> body_times b ->
  leads (on_tables typed) (symbolicate_event (E := E) (convert_capture_request env b o p) p)
    (fun e w => on_tables typed w /\ event_times e).
Proof.
  intros Henv Hb w Hw. set (e := convert_capture_request env b o p).
  assert (He : event_times e).
  { split; [|apply Henv]. cbn. unfold time_or. unfold body_times in Hb.
    destruct (cr_timestamp b ≫= parse_from_rfc3339); [done|apply Henv]. }
  assert (Hk := keeps_symbolicate_event (E := E) typed e p w Hw). revert Hk. unfold wp.
  unfold symbolicate_event. destruct (ev_release e) as [r|]; [|done]. unfold bind.
  destruct (symbolicate _ _ _ _ _ w) as [[st|x] w']; [|done]. cbn. intros Hk.
  split; [done|]. by case_decide.
Qed.

Lemma keeps_typed_person {E} now now' i who : calendar now' ->
  keeps (on_tables typed) (track_person (E := E) now now' i who).
Proof.
  intros Hn. unfold track_person. destruct who; [|apply keeps_ret].
  apply keeps_bind; [by apply keeps_try_repo, typed_add_person|intros _; apply keeps_ret].
Qed.

Lemma counted_times n u t t' i : written_times i -> calendar t -> written_times (set_counts n u t t' i).
Proof. by intros (? & ? & ?) ?. Qed.

Lemma regressed_times s n t r i : written_times i -> calendar t ->
  written_times (set_regression s n t r i).
Proof. by intros (? & ? & ?) ?. Qed.

Lemma new_issue_times id o p s fp title c e t t' : calendar (ev_timestamp e) -> calendar t ->
  calendar t' -> issue_times (new_issue id o p s fp title c e t t').
Proof. intros. by split_and!. Qed.

Lemma leads_regressed {E} (b : bool) (r : run Z) s t rel i :
  written_times i -> calendar t ->
  leads (on_tables typed)
    (if b then let* n := of_run (E := E) r in ret (set_regression s n t rel i) else ret i)
    (fun j w => on_tables typed w /\ written_times j).
Proof.
  intros Hi Ht. destruct b; [|by apply leads_ret].
  eapply leads_bind; [apply leads_keeps, keeps_of_run|done|]. intros n. apply leads_ret.
  intros w Hw. split; [done|by apply regressed_times].
Qed.

(** Facts about values read stay beside the invariant. *)
Lemma keeps_typed_with {E A} C (m : HandlerM E A) :
  (C -> keeps (on_tables typed) m) -> keeps (fun w => on_tables typed w /\ C) m.
Proof. intros Hm w [Hw HC]. split; [by apply Hm|done]. Qed.

Lemma keeps_typed_new {E} (f : CrashServerError -> E) env e p o sid fp title c :
  env_times env -> calendar (ev_timestamp e) ->
  let issue := new_issue (env_uuid env 2) o p sid fp title c e (env_now env 6) (env_now env 7) in
  keeps (on_tables typed)
    (let* _ := repo f (repo_create_issue issue) in
     let* _ := track_person (env_now env 4) (env_now env 5) (is_id issue) (ev_person_id e) in
     ret (issue, true, false)).
Proof.
  intros Henv He issue. apply keeps_bind; [by apply keeps_repo, typed_create_issue, new_issue_times|intros _].
  apply keeps_bind; [by apply keeps_typed_person|intros _; apply keeps_ret].
Qed.

Lemma keeps_typed_group {E} (fail : string -> CrashServerError -> E) env e p fp :
  env_times env -> event_times e ->
  keeps (on_tables typed) (find_or_create_issue fail env e p fp).
Proof.
  intros Henv [He _]. unfold find_or_create_issue.
  eapply keeps_leads; [apply leads_typed_issue|by intros a w [? _]|].
  intros [i|]; apply keeps_typed_with; intros Hi.
  - apply keeps_bind; [apply keeps_of_run|]. intros n.
    eapply keeps_leads; [apply leads_regressed; [by apply counted_times|apply Henv]
                        |by intros a w [? _]|].
    intros j. apply keeps_typed_with. intros Hj.
    apply keeps_bind; [by apply keeps_repo, typed_update_issue|intros _].
    apply keeps_bind; [by apply keeps_typed_person|intros _].
    apply keeps_bind; [destruct (is_resolved i); [apply keeps_send|apply keeps_ret]|intros _].
    apply keeps_ret.
  - apply keeps_bind; [apply keeps_repo, keeps_next_short_id|]. intros r.
    apply keeps_bind; [apply keeps_of_run|]. intros sid.
    apply keeps_bind; [apply keeps_of_run|]. intros v. by apply keeps_typed_new.
Qed.

Lemma keeps_typed_record {E} (fail : string -> CrashServerError -> E) env e p i n g :
  env_times env -> event_times e ->
  keeps (on_tables typed) (record_event fail env e p i n g).
Proof.
  intros Henv [H1 H2]. apply keeps_bind; [by apply keeps_repo, typed_create_event|intros _].
  apply keeps_bind; [|intros _; apply keeps_bind; [apply keeps_send|intros _; apply keeps_ret]].
  unfold track_release. destruct (ev_release _); [|apply keeps_ret].
  apply keeps_bind; [by apply keeps_try_repo, typed_get_or_create_release|intros _].
  apply keeps_bind; [by apply keeps_try_repo, typed_increment_release|intros _; apply keeps_ret].
Qed.

Lemma keeps_typed_capture {E} (fail : string -> CrashServerError -> E) env b o p :
  env_times env -> body_times b ->
  keeps (on_tables typed)
    (let* e := symbolicate_event (convert_capture_request env b o p) p in
     let* (issue, is_new_issue, is_regression) :=
       find_or_create_issue fail env e p (compute_fingerprint sha256_hex e) in
     record_event fail env e p issue is_new_issue is_regression).
Proof.
  intros Henv Hb. eapply keeps_leads; [by apply leads_typed_event|by intros a w [? _]|].
  intros e. apply keeps_typed_with. intros He. apply keeps_bind; [by apply keeps_typed_group|].
  intros [[i n] g]. by apply keeps_typed_record.
Qed.

Lemma keeps_typed_sdk_existing env e i : env_times env -> event_times e -> written_times i ->
  keeps (on_tables typed) (sdk_existing_issue env e i).
Proof.
  intros Henv [He _] Hi. unfold sdk_existing_issue.
  eapply keeps_leads; [by apply leads_regressed|by intros a w [? _]|].
  intros j. apply keeps_typed_with. intros Hj.
  apply keeps_bind; [apply keeps_of_run|]. intros n. set (seen := set_counts _ _ _ _ _).
  assert (Hs : written_times seen) by by apply counted_times. clearbody seen.
  apply (keeps_leads _ (fun j w => on_tables typed w /\ written_times j)); [|by intros a w [? _]|].
  - destruct (ev_person_id e) as [who|]; [|by apply leads_ret].
    eapply leads_bind; [apply leads_keeps, keeps_try_repo, op_keeps_query|done|]. intros r.
    destruct (match r with Ok b => b | Err _ => false end); [by apply leads_ret|].
    eapply leads_bind; [apply leads_keeps, keeps_of_run|done|]. intros users.
    eapply leads_bind; [apply leads_keeps, keeps_try_repo, typed_add_person, Henv|done|].
    intros x. apply leads_ret. intros w Hw. split; [done|]. apply counted_times; [done|apply Hs].
  - intros k. apply keeps_typed_with. intros Hk.
    apply keeps_bind; [by apply keeps_repo, typed_update_issue|intros _; apply keeps_ret].
Qed.

Lemma keeps_typed_sdk env key b : env_times env -> body_times b ->
  keeps (on_tables typed) (capture_crash_with_api_key env key b).
Proof.
  intros Henv Hb. unfold capture_crash_with_api_key, parse_project_id.
  destruct key as [raw|]; [|apply keeps_raise].
  apply keeps_bind; [apply keeps_parse_id|]. intros p.
  apply keeps_bind; [apply keeps_repo, op_keeps_fetch_optional|].
  intros [prj|]; [|apply keeps_raise].
  apply keeps_bind; [unfold verify_project_api_key; keeps_tac|]. intros key.
  destruct (_ && _); [apply keeps_raise|].
  eapply keeps_leads; [by apply leads_typed_event|by intros a w [? _]|].
  intros e. apply keeps_typed_with. intros He.
  apply (keeps_leads _ (fun r w => on_tables typed w /\ match r with
    | Ok (Some i) => written_times i | _ => True end)); [|by intros a w [? _]|].
  - intros w Hw. apply wp_try_repo. assert (H := leads_typed_issue (E := unit) (fun _ => tt)
      (with_fingerprint (uuid_text p) (compute_fingerprint sha256_hex e)) w Hw).
    unfold wp, repo, map_err, on_part in H. unfold wp, repo_get_issue_by_fingerprint.
    by destruct (fetch_optional _ _ (cw_conn w)) as [[[i|]|x] c].
  - intros r. apply keeps_typed_with. intros Hr.
    apply keeps_bind; [|intros [[i n] g]; by apply keeps_typed_record].
    assert (Hnew : keeps (on_tables typed)
      (sdk_new_issue env e (pj_org_id prj) p (compute_fingerprint sha256_hex e))).
    { apply keeps_bind; [apply keeps_repo, keeps_next_short_id|]. intros s.
      apply keeps_bind; [apply keeps_of_run|]. intros sid. apply keeps_typed_new; [done|apply He]. }
    destruct r as [[i|]|x]; [by apply keeps_typed_sdk_existing|done..].
Qed.

(** * Steps *)

(** The times a request brings are in the calendar. *)
Definition project_request_times (r : ProjectRequest) : Prop :=
  match r with
  | UpdateProject env _ _ | ResolveIssue env _ _ | UnresolveIssue env _ | IgnoreIssue env _
  | AssignIssue env _ _ | UploadArtifacts env _ | GetArtifact env _
  | CreateApiKey _ _ env _ _ _ _ | RevokeApiKey env _ => env_times env
  | CreateRelease env _ _ _ d => env_times env /\ opt_calendar (d ≫= parse_from_rfc3339)
  | _ => True
  end.

Definition step_times (s : CrashStep) : Prop :=
  match s with
  | ByUser _ _ (Capture env b) | BySdk env _ b => env_times env /\ body_times b
  | ByUser _ _ (Batch envs bs) => (forall k, env_times (envs k)) /\ Forall body_times bs
  | ByUser _ _ (CreateProject env _ _ _ _) => env_times env
  | ByUser _ _ (OnProject _ r) => project_request_times r
  | ByTask now _ => calendar now
  | _ => True
  end.

Lemma keeps_typed_on_issue {A} l u p i (k : Uuid * Uuid * Issue -> HandlerM HttpError A) :
  (forall x, written_times x.2 -> keeps (on_tables typed) (k x)) ->
  keeps (on_tables typed) (bind (authorized_issue l u p i) k).
Proof.
  intros Hk. apply (keeps_leads _ (fun x w => on_tables typed w /\ written_times x.2));
    [|by intros a w [? _]|intros x; apply keeps_typed_with; by apply Hk].
  unfold authorized_issue, parse_project_id, parse_issue_id.
  eapply leads_bind; [apply leads_keeps, keeps_parse_id|done|]. intros pid.
  eapply leads_bind; [apply leads_keeps, keeps_parse_id|done|]. intros iid.
  eapply leads_bind; [apply leads_keeps, keeps_project_with_auth|done|]. intros prj.
  apply (leads_bind _ (fun x w => on_tables typed w /\ written_times x));
    [|by intros a w [? _]|intros x; by apply leads_ret].
  eapply leads_bind; [apply leads_typed_issue|by intros a w [? _]|].
  intros [j|]; [|apply leads_raise]. destruct (negb _); [apply leads_raise|by apply leads_ret].
Qed.

Lemma keeps_typed_upload env i u o p r d fs : env_times env ->
  keeps (on_tables typed) (upload_files env i u o p r d fs).
Proof.
  intros Henv. revert i. induction fs as [|[n x] fs IH]; intros i; cbn [upload_files]; [apply keeps_ret|].
  apply keeps_bind; [|intros y; apply keeps_bind; [apply IH|intros z; apply keeps_ret]].
  unfold upload_file. apply keeps_bind; [apply keeps_try_repo, op_keeps_fetch_optional|].
  intros [[a|]|e]; [apply keeps_ret| |apply keeps_ret].
  apply keeps_bind; [|intros y; apply keeps_ret]. apply keeps_try_repo, typed_create_artifact; [apply Henv|done].
Qed.

#[local] Hint Resolve typed_update_issue typed_delete_issue typed_delete_project
  typed_delete_artifact keeps_typed_upload : keeps.
#[local] Hint Extern 5 (op_keeps typed (repo_update_project _)) =>
  apply typed_update_project; cbn; auto : keeps.
#[local] Hint Extern 5 (op_keeps typed (repo_update_artifact_last_accessed _ _)) =>
  apply typed_artifact_accessed; cbn; auto : keeps.
#[local] Hint Extern 5 (op_keeps typed (repo_revoke_api_key _ _)) =>
  apply typed_revoke_api_key; cbn; auto : keeps.
#[local] Hint Extern 5 (op_keeps typed (repo_create_api_key _)) =>
  apply typed_create_api_key; cbn; auto : keeps.
#[local] Hint Extern 5 (op_keeps typed (repo_create_release _)) =>
  apply typed_create_release; cbn; auto : keeps.

Lemma keeps_typed_project l u p r : project_request_times r ->
  keeps (on_tables typed) (serve_project l u p r).
Proof.
  destruct r; cbn [serve_project project_request_times]; intros Henv; apply keeps_dropped;
    try (unfold env_times in Henv).
  - unfold get_project, parse_project_id. keeps_tac.
  - unfold update_project, parse_project_id. keeps_tac.
  - unfold delete_project, parse_project_id. keeps_tac.
  - unfold list_issues, parse_project_id. keeps_tac.
  - apply keeps_typed_on_issue. intros [[pid iid] j] (? & ? & ?). cbv beta iota.
    apply keeps_bind; [apply keeps_repo, typed_update_issue; [|split_and!]; done || apply Henv|intros _]. keeps_tac.
  - apply keeps_typed_on_issue. intros [[pid iid] j] (? & ? & ?). cbv beta iota.
    apply keeps_bind; [by apply keeps_repo, typed_update_issue|intros _]. keeps_tac.
  - apply keeps_typed_on_issue. intros [[pid iid] j] (? & ? & ?). cbv beta iota.
    apply keeps_bind; [by apply keeps_repo, typed_update_issue|intros _]. keeps_tac.
  - apply keeps_typed_on_issue. intros [[pid iid] j] (? & ? & ?). cbv beta iota.
    apply keeps_bind; [destruct assignee; keeps_tac|]. intros who.
    apply keeps_bind; [by apply keeps_repo, typed_update_issue|intros _]. keeps_tac.
  - unfold get_issue. keeps_tac.
  - unfold delete_issue. keeps_tac.
  - unfold list_issue_events. keeps_tac.
  - unfold list_events, parse_project_id. keeps_tac.
  - unfold get_event, parse_project_id, parse_event_id. keeps_tac.
  - unfold stream_crash, parse_project_id. keeps_tac. by apply keeps_fun.
  - unfold list_releases, parse_project_id. keeps_tac.
  - destruct Henv as [Henv Hd]. unfold create_release, parse_project_id. keeps_tac.
  - unfold get_release, parse_project_id. keeps_tac.
  - unfold list_artifacts, parse_project_id. keeps_tac.
  - unfold upload_artifacts, parse_project_id. keeps_tac.
  - unfold get_artifact, parse_project_id, parse_artifact_id, artifact_for_project. keeps_tac.
  - unfold delete_artifact, parse_project_id, parse_artifact_id, artifact_for_project. keeps_tac.
  - unfold list_api_keys, parse_project_id. keeps_tac.
  - unfold create_api_key, parse_project_id. keeps_tac.
  - unfold revoke_api_key, parse_project_id, parse_api_key_id. keeps_tac.
Qed.

Lemma keeps_typed_single env l u b : env_times env -> body_times b ->
  keeps (on_tables typed) (process_single_capture env l u b).
Proof.
  intros Henv Hb. unfold process_single_capture.
  apply keeps_bind; [apply keeps_parse_id|]. intros p.
  apply keeps_bind; [apply keeps_repo, op_keeps_fetch_optional|].
  intros [prj|]; [|apply keeps_raise].
  apply keeps_bind; [apply keeps_repo, op_keeps_query|]. intros [|]; [|apply keeps_raise].
  by apply keeps_typed_capture.
Qed.

Lemma keeps_typed_batch envs l u bs : (forall k, env_times (envs k)) -> Forall body_times bs ->
  keeps (on_tables typed) (batch_capture_crash envs l u bs).
Proof.
  intros Henvs Hbs. unfold batch_capture_crash. destruct (_ <? _)%nat; [apply keeps_raise|].
  apply keeps_bind; [|intros x; apply keeps_ret]. generalize 0%nat.
  induction Hbs as [|b bs Hb _ IH]; intros n; cbn [batch_loop]; [apply keeps_ret|].
  apply keeps_bind; [|intros r; apply keeps_bind; [apply IH|intros x; apply keeps_ret]].
  intros w Hw. assert (H := keeps_typed_single (envs n) l u b (Henvs n) Hb w Hw).
  unfold catch_failed. by destruct (process_single_capture _ _ _ _ w) as [[a|[m|]] w'].
Qed.

Lemma typed_step s w : step_times s -> typed (tables_of w) -> typed (tables_of (crash_step s w)).
Proof.
  intros Hs Hw. destruct s as [l u r|env k b|now t|now d|now d|fs]; cbn [crash_step step_times] in *.
  - destruct r as [env b|envs bs|o|env o n s pf|p r]; cbn [serve_user].
    + destruct Hs. apply keeps_dropped; [|done]. unfold capture_crash, parse_project_id.
      apply keeps_bind; [apply keeps_parse_id|]. intros p.
      apply keeps_bind; [apply keeps_repo, op_keeps_fetch_optional|].
      intros [prj|]; [|apply keeps_raise].
      apply keeps_bind; [apply keeps_verify_org_membership|]. intros _. by apply keeps_typed_capture.
    + destruct Hs. by apply keeps_dropped; [apply keeps_typed_batch|].
    + apply keeps_dropped; [|done]. unfold list_projects, parse_org_id. keeps_tac.
    + apply keeps_dropped; [|done]. unfold create_project, parse_org_id.
      apply keeps_bind; [apply keeps_parse_id|]. intros oid.
      apply keeps_bind; [apply keeps_verify_org_membership|]. intros _.
      destruct (negb _); [apply keeps_raise|].
      apply keeps_bind; [apply keeps_repo, typed_create_project; apply Hs|intros _]. keeps_tac.
    + by apply keeps_typed_project.
  - destruct Hs. by apply keeps_typed_sdk.
  - destruct t; [by apply typed_api_key_used|by apply typed_artifact_accessed].
  - by apply typed_delete_old_events.
  - by apply typed_delete_old_artifacts.
  - done.
Qed.

(** What a list endpoint reads of a typed table, in whatever order and selection. *)
Lemma collect_typed {R A} (g : R -> result CrashServerError A) l :
  Forall (reads g) l -> reads (collect g) l.
Proof.
  induction 1 as [|r l [a Ha] _ [as_ IH]]; [by eexists|]. exists (a :: as_). cbn.
  by rewrite Ha, IH.
Qed.

(** C29. Type soundness of the stored reports: from a database whose rows read back, every
    history of requests, tasks, jobs and failures leaves every row of every table readable
    as a value of its type, provided that the clock and the times that clients send are
    between the years 0 and 9999; so reading any selection of rows succeeds. *)
Theorem stored_reports_typed (ss : list CrashStep) (w : CrashWorld) :
  typed (tables_of w) -> Forall step_times ss ->
  let t := tables_of (crash_steps ss w) in
  typed t
  /\ forall rows, Forall (fun r => r ∈ t_issues t) rows ->
     exists issues, collect Issue_try_from rows = Ok issues.
Proof.
  intros Hw Hss t. assert (Ht : typed t).
  { subst t. revert w Hw. induction Hss as [|s ss Hs _ IH]; intros w Hw; [done|].
    by apply IH, typed_step. }
  split; [done|]. intros rows Hrows. apply collect_typed. eapply Forall_impl; [exact Hrows|].
  intros r Hr. destruct (proj1 (Forall_forall _ _) (ty_issues _ Ht) r Hr) as (i & Hi & _).
  by exists i.
Qed.

End Types.
