(* ===== verification/CrashIsolation.v ===== *)
(** Requests of users and keys of other organizations leave an organization's crash
    reports as they are.  First, what of the tables belongs to an organization. *)
From stdpp Require Import base gmap list strings.
From Stdlib Require Import ZArith Lia Ascii.
From S2P Require Import Prelude Text CoreTypes Effects Sql Columns SourceMap CrashModel CrashRepo CrashCapture CrashRoutes CrashInvariant CrashRequests CrashServer.

Section Tenants.
Context `{CB : CrashBackend}.

(** * What belongs to an organization *)

Definition projects_of (o : string) (t : CrashTables) : list ProjectRow :=
  select_where (fun r => String.eqb (pr_org_id r) o) (t_projects t).

Definition owns (o : string) (t : CrashTables) (project : string) : bool :=
  existsb (project_is project) (projects_of o t).

Definition issues_of (o : string) (t : CrashTables) : list IssueRow :=
  select_where (fun r => owns o t (ir_project_id r)) (t_issues t).

Record TenantView := mkTenantView {
  tv_projects : list ProjectRow;
  tv_issues : list IssueRow;
  tv_events : list EventRow;
  tv_persons : list (string * string * string);
  tv_releases : list ReleaseRow;
  tv_artifacts : list ArtifactRow;
  tv_api_keys : list ApiKeyRow;
}.

Definition tenant_view (o : string) (t : CrashTables) : TenantView :=
  mkTenantView (projects_of o t) (issues_of o t)
    (select_where (fun r => owns o t (er_project_id r)) (t_events t))
    (select_where (fun x => existsb (issue_is x.1.1) (issues_of o t)) (t_persons t))
    (select_where (fun r => owns o t (rr_project_id r)) (t_releases t))
    (select_where (fun r => owns o t (tr_project_id r)) (t_artifacts t))
    (select_where (fun r => owns o t (kr_project_id r)) (t_api_keys t)).

Definition is_text (s : string) : Prop := exists u, s = uuid_text u.

(** Identifiers are unique and events refer to issues of their project. *)
Record tenant_inv (t : CrashTables) : Prop := {
  ti_projects : NoDup (pr_id <$> t_projects t);
  ti_orgs : Forall (fun r => is_text (pr_org_id r)) (t_projects t);
  ti_issues : NoDup (ir_id <$> t_issues t);
  ti_issue_rows : Forall canonical (t_issues t);
  ti_events : Forall (refers_well t) (t_events t);
  ti_artifacts : NoDup (tr_id <$> t_artifacts t);
  ti_artifact_projects : Forall (fun r => is_text (tr_project_id r)) (t_artifacts t);
  ti_api_keys : NoDup (kr_id <$> t_api_keys t);
  ti_api_key_projects : Forall (fun r => is_text (kr_project_id r)) (t_api_keys t);
}.

(** The rows of a table with a given key are in the project. *)
Definition all_in {R} (id project : R -> string) (l : list R) (i p : string) : Prop :=
  Forall (fun r => id r = i -> project r = p) l.

Section Generic.
Context {R : Type} (id project : R -> string).
Implicit Types (l : list R) (r : R).

Lemma NoDup_snoc_key l r : Forall (fun q => id q <> id r) l -> NoDup (id <$> l) ->
  NoDup (id <$> l ++ [r]).
Proof.
  rewrite Forall_forall. intros Hn Hl. rewrite fmap_app. apply NoDup_app.
  split; [done|]. split; [|apply NoDup_singleton].
  intros x (q & E & Hq)%list_elem_of_fmap Hx%list_elem_of_singleton. subst x.
  by destruct (Hn q Hq).
Qed.

Lemma update_where_Forall (P : R -> Prop) p f l : (forall r, P r -> P (f r)) ->
  Forall P l -> Forall P (update_where p f l).
Proof.
  rewrite !Forall_forall. intros Hf H r (r0 & Hr0 & ->)%elem_of_update_where.
  destruct (p r0); [apply Hf|]; by apply H.
Qed.

Lemma all_in_read l r i p : NoDup (id <$> l) -> r ∈ l -> id r = i -> project r = p ->
  all_in id project l i p.
Proof.
  intros Hn Hr Hi Hp. apply Forall_forall. intros q Hq E.
  by rewrite (NoDup_key id l q r) by (done || congruence).
Qed.

Lemma all_in_update l p f i j : (forall r, id (f r) = id r /\ project (f r) = project r) ->
  all_in id project l i j -> all_in id project (update_where p f l) i j.
Proof.
  intros Hf. apply update_where_Forall. intros r Hr. destruct (Hf r) as [-> ->]. done.
Qed.
End Generic.

Lemma existsb_false_Forall {A} (f : A -> bool) l :
  existsb f l = false <-> Forall (fun x => f x = false) l.
Proof.
  induction l as [|a l IH]; cbn; [done|]. rewrite orb_false_iff, Forall_cons, IH. done.
Qed.

(** No row of a project that is not the organization's belongs to it. *)
Lemma owns_row o t r : tenant_inv t -> r ∈ t_projects t -> owns o t (pr_id r) = true ->
  pr_org_id r = o.
Proof.
  intros Hinv Hr H. apply existsb_exists in H as (q & Hq & Hid). apply String.eqb_eq in Hid.
  apply list_elem_of_In, elem_of_select_where in Hq as [Hq Ho]. apply String.eqb_eq in Ho.
  rewrite (NoDup_key pr_id (t_projects t) r q (ti_projects t Hinv) Hr Hq); congruence.
Qed.

Lemma not_owned_org o t p r : owns o t p = false -> r ∈ t_projects t -> pr_id r = p ->
  String.eqb (pr_org_id r) o = false.
Proof.
  intros H Hr Hp. apply not_true_iff_false. intros Ho. apply not_true_iff_false in H.
  apply H, existsb_exists. exists r. unfold projects_of. rewrite <- list_elem_of_In, elem_of_select_where.
  split; [done|]. by apply String.eqb_eq.
Qed.

(** * Statements *)

Section Kept.
Context (o : string) (G : Prop) (v : TenantView) (ms : list (string * string)).

(** Under [G] the organization sees [v] and the memberships are [ms]. *)
Definition kept (t : CrashTables) : Prop :=
  tenant_inv t /\ (G -> tenant_view o t = v /\ t_memberships t = ms).

(** The project is not the organization's. *)
Definition kept_in (p : string) (t : CrashTables) : Prop :=
  kept t /\ (G -> owns o t p = false).

Definition kept_issue (p i : string) (t : CrashTables) : Prop :=
  kept_in p t /\ all_in ir_id ir_project_id (t_issues t) i p.

Definition kept_artifact (p a : string) (t : CrashTables) : Prop :=
  kept_in p t /\ all_in tr_id tr_project_id (t_artifacts t) a p.

Definition kept_api_key (p k : string) (t : CrashTables) : Prop :=
  kept_in p t /\ all_in kr_id kr_project_id (t_api_keys t) k p.

(** A change that the organization does not see. *)
Lemma kept_in_change p t t' :
  kept_in p t -> t_memberships t' = t_memberships t -> tenant_inv t' ->
  (owns o t p = false -> tenant_view o t' = tenant_view o t) -> kept_in p t'.
Proof.
  intros [[_ Hv] Hp] Hm Hinv Hview. split; [split; [done|]|].
  - intros HG. destruct (Hv HG) as [<- <-]. split; [by apply Hview, Hp|done].
  - intros HG. specialize (Hp HG). specialize (Hview Hp). unfold owns in *.
    by injection Hview as -> _.
Qed.

Lemma tenant_inv_releases l t : tenant_inv t -> tenant_inv (put_releases l t).
Proof. intros [? ? ? ? ? ? ? ? ?]. by split. Qed.
Lemma tenant_inv_persons l t : tenant_inv t -> tenant_inv (put_persons l t).
Proof. intros [? ? ? ? ? ? ? ? ?]. by split. Qed.

Lemma tenant_inv_update_issues p f t :
  (forall r, ir_id (f r) = ir_id r /\ ir_project_id (f r) = ir_project_id r) ->
  tenant_inv t -> tenant_inv (put_issues (update_where p f (t_issues t)) t).
Proof.
  intros Hf [? ? ? ? H ? ? ? ?]. split; cbn; try done.
  - rewrite update_where_fmap; [done|]. intros r _ _. apply Hf.
  - apply update_where_Forall; [|done]. intros r. unfold canonical. by destruct (Hf r) as [-> ->].
  - eapply Forall_impl; [exact H|]. intros e. unfold refers_well.
    destruct (er_issue_id e) as [i|]; [|done]. intros (r & Hr & Hi & Hp). cbn.
    exists (if p r then f r else r). split; [apply elem_of_update_where; by exists r|].
    destruct (p r); [|done]. by destruct (Hf r) as [-> ->].
Qed.

Lemma tenant_inv_new_issue r t : canonical r ->
  existsb (issue_is (ir_id r)) (t_issues t) = false ->
  tenant_inv t -> tenant_inv (put_issues (t_issues t ++ [r]) t).
Proof.
  intros Hr Hn [? ? ? ? H ? ? ? ?]. apply existsb_false_Forall in Hn. split; cbn; try done.
  - apply NoDup_snoc_key; [|done]. eapply Forall_impl; [exact Hn|]. intros q.
    apply String.eqb_neq.
  - by apply Forall_app_2, Forall_singleton.
  - eapply Forall_impl; [exact H|]. intros e. unfold refers_well.
    destruct (er_issue_id e) as [i|]; [|done]. intros (q & Hq & ?). exists q. split; [|done].
    cbn. rewrite elem_of_app. by left.
Qed.

Lemma tenant_inv_delete_issues p t : tenant_inv t -> tenant_inv (delete_issues p t).
Proof.
  intros [? ? ? ? H ? ? ? ?]. split; cbn; try done.
  - by apply delete_where_NoDup.
  - by apply delete_where_Forall.
  - rewrite Forall_forall in *. intros e (e0 & He0 & ->)%elem_of_update_where.
    by apply delete_issues_refer, H.
Qed.

Lemma tenant_inv_new_event e t :
  match er_issue_id e with
  | Some i => has_issue t i = true /\ all_in ir_id ir_project_id (t_issues t) i (er_project_id e)
  | None => True
  end -> tenant_inv t -> tenant_inv (put_events (t_events t ++ [e]) t).
Proof.
  intros He [? ? ? ? H ? ? ? ?]. split; cbn; try done.
  apply Forall_app_2; [done|]. apply Forall_singleton. unfold refers_well. cbn.
  destruct (er_issue_id e) as [i|]; [|done]. destruct He as [Hi Hp].
  apply existsb_exists in Hi as (r & Hr%list_elem_of_In & E%String.eqb_eq). exists r.
  unfold all_in in Hp. rewrite Forall_forall in Hp. by split_and!; [| |apply Hp].
Qed.

Lemma tenant_inv_delete_events p t : tenant_inv t ->
  tenant_inv (put_events (delete_where p (t_events t)) t).
Proof. intros [? ? ? ? H ? ? ? ?]. split; cbn; try done. by apply delete_where_Forall. Qed.

Lemma tenant_inv_update_artifacts p f t :
  (forall r, tr_id (f r) = tr_id r /\ tr_project_id (f r) = tr_project_id r) ->
  tenant_inv t -> tenant_inv (put_artifacts (update_where p f (t_artifacts t)) t).
Proof.
  intros Hf [? ? ? ? ? ? ? ? ?]. split; cbn; try done.
  - rewrite update_where_fmap; [done|]. intros r _ _. apply Hf.
  - apply update_where_Forall; [|done]. intros r. by destruct (Hf r) as [_ ->].
Qed.

Lemma tenant_inv_new_artifact r t : is_text (tr_project_id r) ->
  existsb (artifact_is (tr_id r)) (t_artifacts t) = false ->
  tenant_inv t -> tenant_inv (put_artifacts (t_artifacts t ++ [r]) t).
Proof.
  intros Hr Hn [? ? ? ? H ? ? ? ?]. apply existsb_false_Forall in Hn. split; cbn; try done.
  - apply NoDup_snoc_key; [|done]. eapply Forall_impl; [exact Hn|]. intros q.
    apply String.eqb_neq.
  - by apply Forall_app_2, Forall_singleton.
Qed.

Lemma tenant_inv_delete_artifacts p t : tenant_inv t ->
  tenant_inv (put_artifacts (delete_where p (t_artifacts t)) t).
Proof.
  intros [? ? ? ? H ? ? ? ?]. split; cbn; try done;
    [by apply delete_where_NoDup|by apply delete_where_Forall].
Qed.

Lemma tenant_inv_update_keys p f t :
  (forall r, kr_id (f r) = kr_id r /\ kr_project_id (f r) = kr_project_id r) ->
  tenant_inv t -> tenant_inv (put_api_keys (update_where p f (t_api_keys t)) t).
Proof.
  intros Hf [? ? ? ? ? ? ? ? ?]. split; cbn; try done.
  - rewrite update_where_fmap; [done|]. intros r _ _. apply Hf.
  - apply update_where_Forall; [|done]. intros r. by destruct (Hf r) as [_ ->].
Qed.

Lemma tenant_inv_new_key r t : is_text (kr_project_id r) ->
  existsb (api_key_is (kr_id r)) (t_api_keys t) = false ->
  tenant_inv t -> tenant_inv (put_api_keys (t_api_keys t ++ [r]) t).
Proof.
  intros Hr Hn [? ? ? ? H ? ? ? ?]. apply existsb_false_Forall in Hn. split; cbn; try done.
  - apply NoDup_snoc_key; [|done]. eapply Forall_impl; [exact Hn|]. intros q.
    apply String.eqb_neq.
  - by apply Forall_app_2, Forall_singleton.
Qed.

Lemma tenant_inv_new_project r t : is_text (pr_org_id r) ->
  existsb (project_is (pr_id r)) (t_projects t) = false ->
  tenant_inv t -> tenant_inv (put_projects (t_projects t ++ [r]) t).
Proof.
  intros Hr Hn [? ? ? ? H ? ? ? ?]. apply existsb_false_Forall in Hn. split; cbn; try done.
  - apply NoDup_snoc_key; [|done]. eapply Forall_impl; [exact Hn|]. intros q.
    apply String.eqb_neq.
  - by apply Forall_app_2, Forall_singleton.
Qed.

Lemma tenant_inv_update_projects p f t :
  (forall r, pr_id (f r) = pr_id r /\ pr_org_id (f r) = pr_org_id r) ->
  tenant_inv t -> tenant_inv (put_projects (update_where p f (t_projects t)) t).
Proof.
  intros Hf [? ? ? ? ? ? ? ? ?]. split; cbn; try done.
  - rewrite update_where_fmap; [done|]. intros r _ _. apply Hf.
  - apply update_where_Forall; [|done]. intros r. by destruct (Hf r) as [_ ->].
Qed.

Lemma tenant_inv_delete_projects id t : tenant_inv t -> tenant_inv (delete_projects id t).
Proof.
  intros H. apply (tenant_inv_delete_issues (fun i => String.eqb (ir_project_id i) id)) in H.
  apply (tenant_inv_delete_events (fun e => String.eqb (er_project_id e) id)) in H.
  destruct H as [? ? ? ? ? ? ? ? ?].
  split; cbn in *; try done; by (apply delete_where_NoDup || apply delete_where_Forall).
Qed.

(** ** What the organization does not see *)

Section View.
Context (t : CrashTables).

Lemma view_releases l : select_where (fun r => owns o t (rr_project_id r)) l
    = select_where (fun r => owns o t (rr_project_id r)) (t_releases t) ->
  tenant_view o (put_releases l t) = tenant_view o t.
Proof. intros H. unfold tenant_view. cbn. f_equal. exact H. Qed.

Lemma view_artifacts l : select_where (fun r => owns o t (tr_project_id r)) l
    = select_where (fun r => owns o t (tr_project_id r)) (t_artifacts t) ->
  tenant_view o (put_artifacts l t) = tenant_view o t.
Proof. intros H. unfold tenant_view. cbn. f_equal. exact H. Qed.

Lemma view_api_keys l : select_where (fun r => owns o t (kr_project_id r)) l
    = select_where (fun r => owns o t (kr_project_id r)) (t_api_keys t) ->
  tenant_view o (put_api_keys l t) = tenant_view o t.
Proof. intros H. unfold tenant_view. cbn. f_equal. exact H. Qed.

Lemma view_events l : select_where (fun r => owns o t (er_project_id r)) l
    = select_where (fun r => owns o t (er_project_id r)) (t_events t) ->
  tenant_view o (put_events l t) = tenant_view o t.
Proof. intros H. unfold tenant_view. cbn. f_equal. exact H. Qed.

Lemma view_persons l : select_where (fun x => existsb (issue_is x.1.1) (issues_of o t)) l
    = select_where (fun x => existsb (issue_is x.1.1) (issues_of o t)) (t_persons t) ->
  tenant_view o (put_persons l t) = tenant_view o t.
Proof. intros H. unfold tenant_view. cbn. f_equal. exact H. Qed.

Lemma view_issues l : select_where (fun r => owns o t (ir_project_id r)) l = issues_of o t ->
  tenant_view o (put_issues l t) = tenant_view o t.
Proof.
  intros H. assert (E : issues_of o (put_issues l t) = issues_of o t) by exact H.
  unfold tenant_view. rewrite E. done.
Qed.

Lemma view_projects l : select_where (fun r => String.eqb (pr_org_id r) o) l = projects_of o t ->
  tenant_view o (put_projects l t) = tenant_view o t.
Proof.
  intros H. assert (E : projects_of o (put_projects l t) = projects_of o t) by exact H.
  unfold tenant_view, issues_of, owns. rewrite E. done.
Qed.
End View.

Section Deletions.
Context (p : string) (t : CrashTables) (Hp : owns o t p = false).

Lemma view_delete_issues q : tenant_inv t ->
  (forall r, r ∈ t_issues t -> q r = true -> ir_project_id r = p) ->
  tenant_view o (delete_issues q t) = tenant_view o t.
Proof.
  intros Hinv Hq. unfold delete_issues. set (gone := fun id => existsb (fun i => q i && String.eqb (ir_id i) id) (t_issues t)).
  assert (Hgone : forall i, gone i = true -> all_in ir_id ir_project_id (t_issues t) i p).
  { intros i (r & Hr%list_elem_of_In & [Hqr Hi%String.eqb_eq]%andb_true_iff)%existsb_exists.
    apply (all_in_read _ _ _ r); auto. by apply ti_issues. }
  set (t1 := put_events _ t). set (t2 := put_persons _ t1).
  transitivity (tenant_view o t2); [|transitivity (tenant_view o t1)].
  - apply view_issues. apply select_where_delete. intros r Hr Hqr.
    change (owns o t (ir_project_id r) = false). by rewrite (Hq r).
  - apply view_persons. apply select_where_delete. intros [[i x] y] _ Hi.
    change (existsb (issue_is i) (issues_of o t) = false). apply existsb_false_Forall.
    apply Forall_forall. intros r [Hr Ho]%elem_of_select_where. apply String.eqb_neq.
    intros E. specialize (Hgone i Hi). unfold all_in in Hgone. rewrite Forall_forall in Hgone.
    rewrite (Hgone r Hr E) in Ho. congruence.
  - apply view_events. apply select_where_update. intros e He Hg.
    assert (er_project_id e = p) as Hep; [|cbn; by rewrite Hep].
    pose proof (ti_events t Hinv) as Hev. rewrite Forall_forall in Hev. specialize (Hev e He).
    unfold refers_well in Hev. destruct (er_issue_id e) as [i|]; [|done].
    destruct Hev as (r & Hr & Hi & <-). specialize (Hgone i Hg). unfold all_in in Hgone.
    rewrite Forall_forall in Hgone. by apply Hgone.
Qed.

Lemma view_delete_projects : tenant_inv t -> tenant_view o (delete_projects p t) = tenant_view o t.
Proof.
  intros Hinv. unfold delete_projects.
  set (t1 := delete_issues _ t).
  assert (E1 : tenant_view o t1 = tenant_view o t).
  { apply view_delete_issues; [done|]. intros r _. by apply String.eqb_eq. }
  assert (Hown : forall i, owns o t1 i = owns o t i) by done.
  set (t2 := put_api_keys _ t1). set (t3 := put_artifacts _ t2). set (t4 := put_releases _ t3).
  set (t5 := put_events _ t4).
  assert (Hrow : forall R (f : R -> string) r, String.eqb (f r) p = true ->
    owns o t (f r) = false) by (by intros R f r ->%String.eqb_eq).
  transitivity (tenant_view o t5); [|transitivity (tenant_view o t4);
    [|transitivity (tenant_view o t3); [|transitivity (tenant_view o t2); [|rewrite <- E1]]]].
  - apply view_projects, select_where_delete. intros r Hr Hpr%String.eqb_eq.
    by apply (not_owned_org o t p).
  - apply view_events, select_where_delete. intros r _. apply Hrow.
  - apply view_releases, select_where_delete. intros r _. apply Hrow.
  - apply view_artifacts, select_where_delete. intros r _. apply Hrow.
  - apply view_api_keys, select_where_delete. intros r _. apply Hrow.
Qed.
End Deletions.

(** ** On the project *)

Section OnProject.
Context (p : Uuid).
Implicit Types (t : CrashTables).

Lemma kept_modify ok f :
  (forall t, ok t = true -> tenant_inv t -> tenant_inv (f t)) ->
  (forall t, t_memberships (f t) = t_memberships t) ->
  (forall t, tenant_inv t -> owns o t (uuid_text p) = false ->
     tenant_view o (f t) = tenant_view o t) ->
  op_keeps (kept_in (uuid_text p)) (modify ok f).
Proof.
  intros Hi Hm Hv. apply op_keeps_modify. intros t Hok Hk. apply (kept_in_change _ t); try done.
  - apply Hi; [done|apply Hk].
  - apply Hv, Hk.
Qed.

Lemma kept_create_release r : rl_project_id r = p ->
  op_keeps (kept_in (uuid_text p)) (repo_create_release r).
Proof.
  intros Hr. apply kept_modify; [intros; by apply tenant_inv_releases|done|].
  intros t _ Hp. apply view_releases, select_where_snoc. cbn. by rewrite Hr.
Qed.

Lemma kept_get_or_create_release id now org ver :
  op_keeps (kept_in (uuid_text p)) (repo_get_or_create_release id now p org ver).
Proof.
  apply op_keeps_bind; [apply op_keeps_fetch_optional|]. intros [r|]; [apply op_keeps_ret|].
  apply op_keeps_bind; [by apply kept_create_release|]. intros _. apply op_keeps_ret.
Qed.

Lemma kept_increment_release now ver n g :
  op_keeps (kept_in (uuid_text p)) (repo_increment_release_crash_count now p ver n g).
Proof.
  apply kept_modify; [intros; by apply tenant_inv_releases|done|].
  intros t _ Hp. apply view_releases, select_where_update.
  intros r _ [Hr%String.eqb_eq _]%andb_true_iff. cbn. by rewrite Hr.
Qed.

Lemma kept_create_artifact a : ar_project_id a = p ->
  op_keeps (kept_in (uuid_text p)) (repo_create_artifact a).
Proof.
  intros Ha. apply kept_modify; [|done|].
  - intros t [_ H]%andb_true_iff. apply negb_true_iff, existsb_false_Forall in H.
    apply tenant_inv_new_artifact; [by eexists|]. apply existsb_false_Forall.
    eapply Forall_impl; [exact H|]. by intros b [? _]%orb_false_iff.
  - intros t _ Hp. apply view_artifacts, select_where_snoc. cbn. by rewrite Ha.
Qed.

Lemma kept_create_api_key k : ak_project_id k = p ->
  op_keeps (kept_in (uuid_text p)) (repo_create_api_key k).
Proof.
  intros Ha. apply kept_modify; [|done|].
  - intros t [_ H%negb_true_iff]%andb_true_iff. by apply tenant_inv_new_key; [eexists|].
  - intros t _ Hp. apply view_api_keys, select_where_snoc. cbn. by rewrite Ha.
Qed.

Lemma kept_update_project q : pj_id q = p -> op_keeps (kept_in (uuid_text p)) (repo_update_project q).
Proof.
  intros Hq. apply kept_modify; [intros; by apply tenant_inv_update_projects|done|].
  intros t _ Hp. apply view_projects, select_where_update.
  intros r Hr Hid%String.eqb_eq. cbn. cbn in Hid. rewrite Hq in Hid.
  split; by apply (not_owned_org o t (uuid_text p)).
Qed.

Lemma kept_delete_project : op_keeps (kept_in (uuid_text p)) (repo_delete_project p).
Proof.
  apply op_keeps_write. intros t Hk. apply (kept_in_change _ t); try done.
  - apply tenant_inv_delete_projects, Hk.
  - intros Hp. apply view_delete_projects; [done|apply Hk].
Qed.
End OnProject.

(** ** On an issue, an artifact or a key of the project *)

Section OnItem.
Context (p i : Uuid).
Implicit Types (t : CrashTables).

Lemma kept_update_issues q f t : (forall r, q r = true -> ir_id r = uuid_text i) ->
  (forall r, ir_id (f r) = ir_id r /\ ir_project_id (f r) = ir_project_id r) ->
  kept_issue (uuid_text p) (uuid_text i) t ->
  kept_issue (uuid_text p) (uuid_text i) (put_issues (update_where q f (t_issues t)) t).
Proof.
  intros Hq Hf [Hk Ha]. split; [|by apply all_in_update]. apply (kept_in_change _ t); try done.
  - apply tenant_inv_update_issues; [done|apply Hk].
  - intros Hp. apply view_issues, select_where_update. intros r Hr Hqr.
    unfold all_in in Ha. rewrite Forall_forall in Ha. destruct (Hf r) as [_ ->].
    by rewrite (Ha r Hr) by auto.
Qed.

Lemma kept_update_issue now x : is_id x = i ->
  op_keeps (kept_issue (uuid_text p) (uuid_text i)) (repo_update_issue now x).
Proof.
  intros Hx. apply op_keeps_modify. intros t _. apply kept_update_issues; [|done].
  intros r Hr%String.eqb_eq. by rewrite Hr, <- Hx.
Qed.

Lemma kept_add_issue_person now now' who :
  op_keeps (kept_issue (uuid_text p) (uuid_text i)) (repo_add_issue_person now now' i who).
Proof.
  apply op_keeps_bind; [|intros _].
  - apply op_keeps_modify. intros t _ [Hk Ha]. destruct (existsb _ (t_persons t)); [done|].
    split; [|done]. apply (kept_in_change _ t); try done.
    + apply tenant_inv_persons, Hk.
    + intros Hp. apply view_persons, select_where_snoc. cbn. apply existsb_false_Forall.
      apply Forall_forall. intros r [Hr Ho]%elem_of_select_where. apply String.eqb_neq. intros E.
      unfold all_in in Ha. rewrite Forall_forall in Ha. rewrite (Ha r Hr E) in Ho. congruence.
  - apply op_keeps_modify. intros t _. apply kept_update_issues; [|done].
    by intros r Hr%String.eqb_eq.
Qed.

Lemma kept_delete_issue :
  op_keeps (kept_issue (uuid_text p) (uuid_text i)) (repo_delete_issue i).
Proof.
  apply op_keeps_write. intros t [Hk Ha]. split; [|by apply delete_where_Forall].
  apply (kept_in_change _ t); try done.
  - apply tenant_inv_delete_issues, Hk.
  - intros Hp. apply (view_delete_issues (uuid_text p)); [done|apply Hk|].
    intros r Hr Hi%String.eqb_eq. unfold all_in in Ha. rewrite Forall_forall in Ha. by apply Ha.
Qed.

Lemma kept_create_event e : ev_project_id e = p -> ev_issue_id e = Some i ->
  op_keeps (kept_issue (uuid_text p) (uuid_text i)) (repo_create_event e).
Proof.
  intros Hp Hi. apply op_keeps_modify. intros t Hok [Hk Ha]. split; [|done].
  apply (kept_in_change _ t); try done.
  - apply tenant_inv_new_event; [|apply Hk]. cbn in *. rewrite Hi in *. cbn in *.
    rewrite Hp. split; [|done]. by apply andb_true_iff in Hok as [[_ ?]%andb_true_iff _].
  - intros Ho. apply view_events, select_where_snoc. cbn. by rewrite Hp.
Qed.

Lemma kept_delete_artifact :
  op_keeps (kept_artifact (uuid_text p) (uuid_text i)) (repo_delete_artifact i).
Proof.
  apply op_keeps_write. intros t [Hk Ha]. split; [|by apply delete_where_Forall].
  apply (kept_in_change _ t); try done.
  - apply tenant_inv_delete_artifacts, Hk.
  - intros Ho. apply view_artifacts, select_where_delete. intros r Hr Hi%String.eqb_eq.
    unfold all_in in Ha. rewrite Forall_forall in Ha. by rewrite (Ha r Hr).
Qed.

Lemma kept_artifact_accessed now :
  op_keeps (kept_artifact (uuid_text p) (uuid_text i)) (repo_update_artifact_last_accessed now i).
Proof.
  apply op_keeps_modify. intros t _ [Hk Ha]. split; [|by apply all_in_update].
  apply (kept_in_change _ t); try done.
  - by apply tenant_inv_update_artifacts; [|apply Hk].
  - intros Ho. apply view_artifacts, select_where_update. intros r Hr Hi%String.eqb_eq.
    unfold all_in in Ha. rewrite Forall_forall in Ha. cbn. by rewrite (Ha r Hr).
Qed.

Lemma kept_revoke_api_key now :
  op_keeps (kept_api_key (uuid_text p) (uuid_text i)) (repo_revoke_api_key now i).
Proof.
  apply op_keeps_write. intros t [Hk Ha]. split; [|by apply all_in_update].
  apply (kept_in_change _ t); try done.
  - by apply tenant_inv_update_keys; [|apply Hk].
  - intros Ho. apply view_api_keys, select_where_update.
    intros r Hr [Hi%String.eqb_eq _]%andb_true_iff.
    unfold all_in in Ha. rewrite Forall_forall in Ha. cbn. by rewrite (Ha r Hr).
Qed.
End OnItem.

(** ** New issues and projects *)

Lemma leads_create_issue {E} p (f : CrashServerError -> E) x : is_project_id x = p ->
  leads (on_tables (kept_in (uuid_text p))) (repo f (repo_create_issue x))
    (fun _ => on_tables (kept_issue (uuid_text p) (uuid_text (is_id x)))).
Proof.
  intros Hx w Hw. apply wp_crash_repo, wp_sql.
  - intros e c' Ht _. unfold on_tables, tables_of in *. cbn. by rewrite Ht.
  - intros a c'. destruct (_ && _) eqn:Hok; [|done]. intros [= _ Ht] _.
    unfold on_tables, tables_of in *. cbn. rewrite <- Ht.
    apply andb_true_iff in Hok as [_ H%negb_true_iff%existsb_false_Forall].
    assert (Hnew : existsb (issue_is (ir_id (issue_row x))) (t_issues (cn_tables (cw_conn w)))
                   = false).
    { apply existsb_false_Forall. eapply Forall_impl; [exact H|]. by intros b [? _]%orb_false_iff. }
    split.
    + apply (kept_in_change _ (cn_tables (cw_conn w))); try done.
      * apply tenant_inv_new_issue; [by eexists _, _|done|apply Hw].
      * intros Ho. apply view_issues, select_where_snoc. cbn. by rewrite Hx.
    + apply Forall_app_2; [|apply Forall_singleton; cbn; by rewrite Hx].
      apply existsb_false_Forall in Hnew. eapply Forall_impl; [exact Hnew|].
      intros r Hr%String.eqb_neq Hi. by destruct Hr.
Qed.

Lemma kept_create_project q : (G -> uuid_text (pj_org_id q) <> o) ->
  op_keeps kept (repo_create_project q).
Proof.
  intros Hq. apply op_keeps_modify. intros t [_ H%negb_true_iff%existsb_false_Forall]%andb_true_iff
    [Hi Hv]. split.
  - apply tenant_inv_new_project; [by eexists| |done]. apply existsb_false_Forall.
    eapply Forall_impl; [exact H|]. by intros b [? _]%orb_false_iff.
  - intros HG. destruct (Hv HG) as [<- <-]. split; [|done].
    apply view_projects, select_where_snoc. by apply String.eqb_neq, Hq.
Qed.

End Kept.

End Tenants.

Section Isolation.
Context `{CB : CrashBackend}.

Definition is_member (ms : list (string * string)) (o : string) (u : Uuid) : bool :=
  existsb (fun m => String.eqb m.1 o && String.eqb m.2 (uuid_text u)) ms.

(** * Authorization *)

Section Kept.
Context (o : string) (G : Prop) (v : TenantView) (ms : list (string * string)).
Notation K := (on_tables (kept o G v ms)).
Notation K_in p := (on_tables (kept_in o G v ms (uuid_text p))).
Notation K_issue p i := (on_tables (kept_issue o G v ms (uuid_text p) (uuid_text i))).
Notation K_artifact p a := (on_tables (kept_artifact o G v ms (uuid_text p) (uuid_text a))).
Notation K_api_key p k := (on_tables (kept_api_key o G v ms (uuid_text p) (uuid_text k))).

Lemma kept_in_kept p w : K_in p w -> K w.
Proof. by intros [H _]. Qed.
Lemma kept_issue_in p i w : K_issue p i w -> K_in p w.
Proof. by intros [H _]. Qed.

Lemma project_read r p : CrashProject_try_from r = Ok p ->
  (forall u, pr_id r = uuid_text u -> pj_id p = u)
  /\ (is_text (pr_org_id r) -> uuid_text (pj_org_id p) = pr_org_id r).
Proof.
  unfold CrashProject_try_from. intros H. repeat (apply bind_Ok in H as (? & ? & H)).
  injection H as <-. cbn. split.
  - intros u E. rewrite E in *. by apply read_uuid_canonical.
  - intros [u E]. rewrite E in *. f_equal. by apply read_uuid_canonical.
Qed.

Lemma kept_in_intro p w :
  K w -> (G -> existsb (project_is (uuid_text p)) (tv_projects v) = false) -> K_in p w.
Proof.
  intros Hw Hp. split; [done|]. intros HG. destruct Hw as [_ Hv]. specialize (Hp HG).
  by destruct (Hv HG) as [<- _].
Qed.

(** The project that was read, and whose it is if it is the organization's. *)
Definition read_project (pid : Uuid) (prj : CrashProject) : Prop :=
  pj_id prj = pid /\ (G -> existsb (project_is (uuid_text pid)) (tv_projects v) = true ->
                      uuid_text (pj_org_id prj) = o).

Lemma leads_project {E} (f : CrashServerError -> E) pid :
  leads K (repo f (repo_get_project_by_id pid)) (fun a w => K w /\ match a with
    | Some prj => read_project pid prj
    | None => True end).
Proof.
  intros w Hw. apply wp_crash_repo, wp_fetch_optional.
  - intros e c' Ht. unfold on_tables, tables_of in *. cbn. by rewrite Ht.
  - intros a c' Ht Hf. split; [unfold on_tables, tables_of in *; cbn; by rewrite Ht|].
    unfold row_found in Hf. destruct (select_one _ _) as [r|] eqn:Hr in Hf; [|by subst a].
    destruct Hf as (prj & Hprj & ->). apply select_one_Some in Hr as [Hr Hid%String.eqb_eq].
    destruct (project_read r prj Hprj) as [Hpid Horg]. destruct Hw as [Hinv Hv].
    assert (HT : is_text (pr_org_id r)).
    { exact (proj1 (Forall_forall _ _) (ti_orgs _ Hinv) r Hr). }
    split; [by apply Hpid|]. intros HG. destruct (Hv HG) as [<- _]. rewrite <- Hid, (Horg HT).
    by apply owns_row.
Qed.

Lemma read_kept_issue pid r i w : K_in pid w -> has_read (tables_of w) r i ->
  ir_project_id r = uuid_text pid -> K_issue pid (is_id i) w.
Proof.
  intros Hw [Hr Hi] Hp. split; [done|]. destruct Hw as [[Hinv _] _].
  destruct (issue_read r i Hi) as (Hid & _).
  { eapply Forall_forall; [apply (ti_issue_rows _ Hinv)|done]. }
  apply (all_in_read _ _ _ r); [by apply ti_issues|done..].
Qed.

(** * Captures *)

Section Capture.
Context (pid : Uuid).

(** A query that reads an issue of the project. *)
Lemma read_issue_in p w : (forall r, p r = true -> ir_project_id r = uuid_text pid) -> K_in pid w ->
  wp (fetch_optional Issue_try_from (fun t => select_one p (t_issues t)))
    (fun a c => K_in pid (put_conn c w) /\ match a with
       | Ok (Some i) => K_issue pid (is_id i) (put_conn c w)
       | _ => True end) (cw_conn w).
Proof.
  intros Hp Hw. apply wp_fetch_optional.
  - intros e c' Ht. split; [|done]. unfold on_tables, tables_of in *. cbn. by rewrite Ht.
  - intros a c' Ht Hf. assert (Hw' : K_in pid (put_conn c' w)).
    { unfold on_tables, tables_of in *. cbn. by rewrite Ht. }
    split; [done|]. unfold row_found in Hf.
    destruct (select_one _ _) as [r|] eqn:Hr in Hf; [|by subst a].
    destruct Hf as (i & Hi & ->). apply select_one_Some in Hr as [Hr Hpr].
    apply (read_kept_issue pid r); [done| |by apply Hp].
    split; [|done]. unfold tables_of. cbn. by rewrite Ht.
Qed.

Lemma with_fingerprint_in fp r :
  with_fingerprint (uuid_text pid) fp r = true -> ir_project_id r = uuid_text pid.
Proof. by intros [H%String.eqb_eq _]%andb_true_iff. Qed.

Lemma keeps_person {E} now now' i who :
  keeps (K_issue pid i) (track_person (E := E) now now' i who).
Proof.
  unfold track_person. destruct who; [|apply keeps_ret].
  apply keeps_bind; [apply keeps_try_repo, kept_add_issue_person|]. intros _. apply keeps_ret.
Qed.

(** The outcome of grouping. *)
Definition grouped_in (x : Issue * bool * bool) : CrashWorld -> Prop :=
  K_issue pid (is_id x.1.1).

Lemma leads_new {E} (f : CrashServerError -> E) env e org sid fp title c t1 t2 :
  leads (K_in pid)
    (let* _ := repo f (repo_create_issue (new_issue (env_uuid env 2) org pid sid fp title c e t1 t2)) in
     let* _ := track_person (env_now env 4) (env_now env 5) (env_uuid env 2) (ev_person_id e) in
     ret (new_issue (env_uuid env 2) org pid sid fp title c e t1 t2, true, false)) grouped_in.
Proof.
  eapply leads_bind; [by apply leads_create_issue|by intros _ w [? _]|]. intros x.
  eapply leads_bind; [apply leads_keeps, keeps_person|done|]. intros y. by apply leads_ret.
Qed.

Lemma leads_find_or_create {E} (fail : string -> CrashServerError -> E) env e fp :
  leads (K_in pid) (find_or_create_issue fail env e pid fp) grouped_in.
Proof.
  intros w Hw. apply stm_bind, wp_crash_repo.
  eapply stm_mono; [apply read_issue_in; [apply with_fingerprint_in|exact Hw]|].
  intros [[i|]|x] c [H1 Hi]; [| |done].
  - set (w1 := put_conn c w) in *. clearbody w1.
    apply (stm_mono _ (fun a w' => K_issue pid (is_id i) w' /\ match a with
      | Ok x => is_id x.1.1 = is_id i | Err _ => True end)).
    2:{ intros [x|x] w2 [H2 E']; [unfold grouped_in; by rewrite E'|by apply kept_issue_in in H2]. }
    apply stm_bind. destruct (add_u64 _ _ _) as [n|]; [|done]. apply stm_bind_ret, stm_bind.
    apply (stm_mono _ (fun a w' => K_issue pid (is_id i) w' /\ match a with
      | Ok j => is_id j = is_id i | Err _ => True end)).
    { destruct (is_resolved i); [|done]. apply stm_bind. by destruct (add_u32 _ _ _). }
    intros [j|x] w2 [H2 Hj]; [|done]. apply stm_bind.
    eapply stm_mono; [apply wp_keeps; [apply keeps_repo, kept_update_issue; exact Hj|exact H2]|].
    intros [[]|x] w3 H3; [|done]. apply stm_bind. rewrite Hj.
    eapply stm_mono; [apply wp_keeps; [apply keeps_person|exact H3]|].
    intros [[]|x] w4 H4; [|done]. by destruct (is_resolved i).
  - clear Hi. set (w1 := put_conn c w) in *. clearbody w1. revert w1 H1.
    change (leads (K_in pid)
      (let* short_id := repo (fail "get short ID") (repo_get_next_short_id overflow_checks pid) in
       let* short_id := of_run short_id in
       let* value := of_run (truncate (ev_exception_value e) 100) in
       let title := ev_exception_type e +:+ ": " +:+ value in
       let issue := new_issue (env_uuid env 2) (ev_org_id e) pid short_id fp title
                      (find_culprit e) e (env_now env 6) (env_now env 7) in
       let* _ := repo (fail "create issue") (repo_create_issue issue) in
       let* _ := track_person (env_now env 4) (env_now env 5) (is_id issue) (ev_person_id e) in
       ret (issue, true, false)) grouped_in).
    eapply leads_bind; [apply leads_keeps, keeps_repo, keeps_next_short_id|done|]. intros r.
    eapply leads_bind; [apply leads_keeps, keeps_of_run|done|]. intros sid.
    eapply leads_bind; [apply leads_keeps, keeps_of_run|done|]. intros value.
    apply leads_new.
Qed.

Lemma leads_sdk_existing env e i :
  leads (K_issue pid (is_id i)) (sdk_existing_issue env e i)
    (fun x w => K_issue pid (is_id i) w /\ is_id x.1.1 = is_id i).
Proof.
  intros w Hw. apply stm_bind.
  apply (stm_mono _ (fun a w' => K_issue pid (is_id i) w' /\ match a with
    | Ok j => is_id j = is_id i | Err _ => True end)).
  { destruct (is_resolved i); [|done]. apply stm_bind. by destruct (add_u32 _ _ _). }
  intros [j|x] w1 [H1 Hj]; [|done]. apply stm_bind.
  destruct (add_u64 _ _ _) as [n|]; [|done]. apply stm_bind_ret, stm_bind.
  apply (stm_mono _ (fun a w' => K_issue pid (is_id i) w' /\ match a with
    | Ok j => is_id j = is_id i | Err _ => True end)).
  { destruct (ev_person_id e) as [who|]; [|done]. apply stm_bind.
    eapply stm_mono; [apply wp_keeps; [apply keeps_try_repo, op_keeps_query|exact H1]|].
    intros [[[]|x]|x] w2 H2; [done| | |done];
      (apply stm_bind; destruct (add_u64 _ _ _); [|done]; apply stm_bind_ret, stm_bind;
       eapply stm_mono; [apply wp_keeps; [apply keeps_try_repo|exact H2];
         cbn; rewrite Hj; apply kept_add_issue_person|]; by intros [y|y] w3 H3). }
  intros [j'|x] w3 [H3 Hj']; [|done]. apply stm_bind.
  eapply stm_mono; [apply wp_keeps; [apply keeps_repo, kept_update_issue; exact Hj'|exact H3]|].
  by intros [[]|x] w4 H4.
Qed.

Lemma wp_record {E} (fail : string -> CrashServerError -> E) env e i n g w :
  ev_project_id e = pid -> K_issue pid (is_id i) w ->
  wp (record_event fail env e pid i n g) (fun _ => K_in pid) w.
Proof.
  intros He Hw. apply stm_bind.
  eapply stm_mono; [apply wp_keeps; [apply keeps_repo; by apply kept_create_event|exact Hw]|].
  intros [[]|x] w1 [H1 _]; [|done]. apply wp_keeps; [|exact H1].
  apply keeps_bind; [|intros _; apply keeps_bind; [apply keeps_send|intros _; apply keeps_ret]].
  unfold track_release. destruct (ev_release _) as [ver|]; [|apply keeps_ret].
  apply keeps_bind; [apply keeps_try_repo, kept_get_or_create_release|intros _].
  apply keeps_bind; [apply keeps_try_repo, kept_increment_release|intros _; apply keeps_ret].
Qed.

(** From the authorized request on. *)
Lemma keeps_grouped_event {E} (fail : string -> CrashServerError -> E) env body org :
  keeps (K_in pid)
    (let* e := symbolicate_event (convert_capture_request env body org pid) pid in
     let* (issue, is_new_issue, is_regression) :=
       find_or_create_issue fail env e pid (compute_fingerprint sha256_hex e) in
     record_event fail env e pid issue is_new_issue is_regression).
Proof.
  apply keeps_wp. intros w Hw. apply stm_bind. eapply stm_mono; [apply wp_convert; exact Hw|].
  intros [e|x] w1 [H1 He]; [|done]. apply stm_bind.
  eapply stm_mono; [by apply leads_find_or_create|].
  intros [[[i n] g]|x] w2 H2; [|done]. by apply wp_record.
Qed.

End Capture.

Section User.
Context (u : Uuid) (Hu : G -> is_member ms o u = false).

Lemma leads_membership org l P :
  leads (fun w => K w /\ P) (verify_org_membership org u l)
    (fun _ w => K w /\ P /\ (G -> uuid_text org <> o)).
Proof.
  intros w [Hw HP]. unfold verify_org_membership. apply stm_bind, wp_crash_repo, wp_sql_read.
  - intros e c' Ht _. unfold on_tables, tables_of in *. cbn. by rewrite Ht.
  - intros c' Ht _. assert (Hw' : K (put_conn c' w)).
    { unfold on_tables, tables_of in *. cbn. by rewrite Ht. }
    destruct (existsb _ _) eqn:Hm; [|done]. split_and!; [done..|]. intros HG Ho.
    destruct Hw as [_ [_ Hms]%(fun H => H HG)]. specialize (Hu HG). unfold is_member in Hu.
    rewrite <- Ho, <- Hms in Hu. unfold tables_of in *. congruence.
Qed.

(** Who is a member of the project's organization is not one of the other. *)
Lemma authorized_project pid prj w :
  K w -> read_project pid prj -> (G -> uuid_text (pj_org_id prj) <> o) -> K_in pid w.
Proof.
  intros Hw [_ Hr] Ho. apply kept_in_intro; [done|]. intros HG. apply not_true_iff_false.
  intros H. by apply (Ho HG), Hr.
Qed.

Lemma leads_project_with_auth l pid :
  leads K (get_project_with_auth l u pid) (fun prj w => K_in pid w /\ pj_id prj = pid).
Proof.
  eapply leads_bind; [apply leads_project|by intros a w [? _]|].
  intros [prj|]; cbv beta iota; [|by apply leads_raise].
  eapply leads_bind; [apply leads_membership|by intros _ w (? & ? & _)|].
  intros x. apply leads_ret. intros w (Hw & Hr & Ho). split; [by eapply authorized_project|apply Hr].
Qed.

(** ** Issues *)

Lemma leads_issue_for_project l pid iid :
  leads (K_in pid) (get_issue_for_project l pid iid)
    (fun i w => K_issue pid iid w /\ is_id i = iid).
Proof.
  intros w Hw. apply stm_bind, wp_get_issue.
  - intros e w' Ht. unfold on_tables in *. by rewrite Ht.
  - intros w' Ht _. unfold wp, on_tables in *. cbn. by rewrite Ht.
  - intros r i w' Ht Hread Hid%String.eqb_eq. cbv beta iota.
    assert (Hw' : K_in pid w') by (unfold on_tables in *; by rewrite Ht).
    case_bool_decide as Hp; cbn; [|done].
    destruct (issue_read r i (proj2 Hread)) as (Hi & Hpr & _).
    { destruct Hw as [[Hinv _] _]. eapply Forall_forall; [apply (ti_issue_rows _ Hinv)|apply Hread]. }
    assert (E : is_id i = iid).
    { pose proof (uuid_roundtrip (is_id i)) as H1. rewrite Hi, Hid, uuid_roundtrip in H1. congruence. }
    split; [|done]. rewrite <- E. apply (read_kept_issue pid r); [done|by rewrite Ht|congruence].
Qed.

Lemma leads_authorized_issue l p i :
  leads K (authorized_issue l u p i)
    (fun x w => K_issue x.1.1 x.1.2 w /\ is_id x.2 = x.1.2).
Proof.
  unfold authorized_issue, parse_project_id, parse_issue_id.
  eapply leads_bind; [apply leads_keeps, keeps_parse_id|done|]. intros pid.
  eapply leads_bind; [apply leads_keeps, keeps_parse_id|done|]. intros iid.
  eapply leads_bind; [apply leads_project_with_auth|by intros prj w [H%kept_in_kept _]|].
  intros prj w [Hw Hprj]. apply stm_bind. eapply stm_mono; [by apply leads_issue_for_project|].
  by intros [j|e] w' H.
Qed.

(** * Handlers *)

Lemma keeps_with_auth {A} l pid (k : CrashProject -> HandlerM HttpError A) :
  (forall prj, pj_id prj = pid -> keeps (K_in pid) (k prj)) ->
  keeps K (bind (get_project_with_auth l u pid) k).
Proof.
  intros Hk. eapply keeps_leads; [apply leads_project_with_auth|by intros prj w [H%kept_in_kept _]|].
  intros prj w [Hw Hp]. split; [by apply Hk|done].
Qed.

Lemma keeps_on_issue {A} l p i (k : Uuid * Uuid * Issue -> HandlerM HttpError A) :
  (forall pid iid j, is_id j = iid -> keeps (K_issue pid iid) (k (pid, iid, j))) ->
  keeps K (bind (authorized_issue l u p i) k).
Proof.
  intros Hk. eapply keeps_leads; [apply leads_authorized_issue| |].
  - intros x w [H%kept_issue_in%kept_in_kept _]. exact H.
  - intros [[pid iid] j] w [Hw Hj]. cbn in *. split; [by apply Hk|done].
Qed.

(** The artifact or key that was read is in the project. *)
Lemma leads_artifact l pid aid :
  leads (K_in pid) (artifact_for_project l pid aid) (fun _ => K_artifact pid aid).
Proof.
  intros w Hw. apply stm_bind, wp_crash_repo, wp_fetch_optional.
  - intros e c' Ht. unfold on_tables, tables_of in *. cbn. by rewrite Ht.
  - intros a c' Ht Hf. assert (Hw' : K_in pid (put_conn c' w)).
    { unfold on_tables, tables_of in *. cbn. by rewrite Ht. }
    destruct a as [a|]; [|done]. case_bool_decide as Hp; [|done]. split; [done|].
    unfold row_found in Hf. destruct (select_one _ _) as [r|] eqn:Hr in Hf; [|done].
    destruct Hf as (a' & Ha & [= <-]). apply select_one_Some in Hr as [Hr Hid%String.eqb_eq].
    destruct Hw as [[Hinv _] _]. rewrite <- Hid. unfold tables_of. cbn. rewrite Ht.
    apply (all_in_read _ _ _ r); [by apply ti_artifacts|done|done|].
    destruct (proj1 (Forall_forall _ _) (ti_artifact_projects _ Hinv) r Hr) as [q Hq].
    unfold SymbolArtifact_try_from in Ha. repeat (apply bind_Ok in Ha as (? & ? & Ha)).
    injection Ha as <-. cbn in Hp. rewrite Hq, <- Hp. f_equal. symmetry.
    apply read_uuid_canonical. by rewrite <- Hq.
Qed.

Lemma leads_api_key l pid kid (k : CrashApiKey -> HandlerM HttpError unit) missing :
  (forall key, keeps (K_api_key pid kid) (k key)) ->
  keeps (K_in pid)
    (let* o := repo (fun _ => internal_error l) (repo_get_api_key_by_id kid) in
     match o with
     | None => raise (Failed missing)
     | Some key => if negb (bool_decide (ak_project_id key = pid)) then raise (Failed missing)
                   else k key
     end).
Proof.
  intros Hk. apply keeps_wp. intros w Hw. apply stm_bind, wp_crash_repo, wp_fetch_optional.
  - intros e c' Ht. unfold on_tables, tables_of in *. cbn. by rewrite Ht.
  - intros a c' Ht Hf. assert (Hw' : K_in pid (put_conn c' w)).
    { unfold on_tables, tables_of in *. cbn. by rewrite Ht. }
    destruct a as [a|]; [|done]. case_bool_decide as Hp; [|done]. cbn [negb].
    apply (stm_mono _ (fun _ => K_api_key pid kid)); [|by intros _ w' []].
    apply wp_keeps; [apply Hk|]. split; [done|].
    unfold row_found in Hf. destruct (select_one _ _) as [r|] eqn:Hr in Hf; [|done].
    destruct Hf as (a' & Ha & [= <-]). apply select_one_Some in Hr as [Hr Hid%String.eqb_eq].
    destruct Hw as [[Hinv _] _]. rewrite <- Hid. unfold tables_of. cbn. rewrite Ht.
    apply (all_in_read _ _ _ r); [by apply ti_api_keys|done|done|].
    destruct (proj1 (Forall_forall _ _) (ti_api_key_projects _ Hinv) r Hr) as [q Hq].
    unfold CrashApiKey_try_from in Ha. repeat (apply bind_Ok in Ha as (? & ? & Ha)).
    injection Ha as <-. cbn in Hp. rewrite Hq, <- Hp. f_equal. symmetry.
    apply read_uuid_canonical. by rewrite <- Hq.
Qed.

Lemma keeps_with_membership {A} org l (k : HandlerM HttpError A) :
  ((G -> uuid_text org <> o) -> keeps K k) ->
  keeps K (let* _ := verify_org_membership org u l in k).
Proof.
  intros Hk w Hw. assert (H := leads_membership org l True w (conj Hw I)). unfold wp, bind in *.
  destruct (verify_org_membership org u l w) as [[a|e] w']; cbn in *; [|apply H].
  destruct H as (? & _ & ?). by apply Hk.
Qed.

Lemma keeps_membership_of {A} l pid prj (k : HandlerM HttpError A) :
  keeps (K_in pid) k ->
  keeps (fun w => K w /\ read_project pid prj)
    (let* _ := verify_org_membership (pj_org_id prj) u l in k).
Proof.
  intros Hk. eapply keeps_leads; [apply leads_membership|by intros x w (? & ? & _)|].
  intros x w (Hw & Hr & Ho). split_and!; [|done..]. apply (kept_in_kept pid), Hk.
  by apply (authorized_project pid prj).
Qed.

Lemma keeps_capture env l body : keeps K (capture_crash env l u body).
Proof.
  unfold capture_crash, parse_project_id.
  apply keeps_bind; [apply keeps_parse_id|]. intros pid.
  eapply keeps_leads; [apply leads_project|by intros a w [? _]|]. intros [prj|].
  - apply keeps_membership_of, keeps_grouped_event.
  - apply keeps_raise.
Qed.

Lemma keeps_single env l body : keeps K (process_single_capture env l u body).
Proof.
  unfold process_single_capture.
  apply keeps_bind; [apply keeps_parse_id|]. intros pid.
  eapply keeps_leads; [apply leads_project|by intros a w [? _]|]. intros [prj|]; [|apply keeps_raise].
  intros w [Hw Hr]. split; [|done]. apply (stm_bind _ _ (fun _ => K)), wp_crash_repo, wp_sql_read.
  - intros e c' Ht _. unfold on_tables, tables_of in *. cbn. by rewrite Ht.
  - intros c' Ht _. assert (Hw' : K (put_conn c' w)).
    { unfold on_tables, tables_of in *. cbn. by rewrite Ht. }
    destruct (existsb _ _) eqn:Hm; [|done]. cbn [negb].
    eapply stm_mono; [apply wp_keeps; [apply (keeps_grouped_event pid)|]|by intros r w' [? _]].
    apply (authorized_project pid prj); [done..|]. intros HG Ho.
    destruct Hw as [_ [_ Hms]%(fun H => H HG)]. specialize (Hu HG). unfold is_member in Hu.
    rewrite <- Ho, <- Hms in Hu. unfold tables_of in *. congruence.
Qed.

Lemma keeps_batch envs l events : keeps K (batch_capture_crash envs l u events).
Proof.
  unfold batch_capture_crash. destruct (_ <? _); [apply keeps_raise|].
  apply keeps_bind; [|intros x; apply keeps_ret]. generalize 0.
  induction events as [|event events IH]; intros n; cbn [batch_loop]; [apply keeps_ret|].
  apply keeps_bind; [|intros r; apply keeps_bind; [apply IH|intros x; apply keeps_ret]].
  intros w Hw. assert (H := keeps_single (envs n) l event w Hw). unfold catch_failed.
  by destruct (process_single_capture _ _ _ _ w) as [[a|[m|]] w'].
Qed.

Lemma kept_upload_files env i uploader org pid r d fs :
  keeps (K_in pid) (upload_files env i uploader org pid r d fs).
Proof.
  revert i. induction fs as [|[n x] fs IH]; intros i; cbn [upload_files]; [apply keeps_ret|].
  apply keeps_bind; [|intros y; apply keeps_bind; [apply IH|intros z; apply keeps_ret]].
  unfold upload_file. apply keeps_bind; [apply keeps_try_repo, op_keeps_fetch_optional|].
  intros [[a|]|e]; [apply keeps_ret| |apply keeps_ret].
  apply keeps_bind; [|intros y; apply keeps_ret]. by apply keeps_try_repo, kept_create_artifact.
Qed.

#[local] Hint Resolve kept_upload_files kept_create_release kept_create_api_key
  kept_update_project kept_delete_project kept_delete_issue kept_update_issue eq_refl : keeps.

(** Goes through the statements, up to the authorization. *)
Ltac authorize := unfold parse_project_id, parse_event_id, parse_artifact_id, parse_api_key_id;
  repeat (apply keeps_bind; [apply keeps_parse_id|intros ?]).

Lemma keeps_issue_route {A} l p i now (f : Issue -> Issue) (k : Uuid -> Issue -> HandlerM HttpError A) :
  (forall j, is_id (f j) = is_id j) -> (forall P pid j, keeps (on_tables P) (k pid j)) ->
  keeps K (let* (pid, _, j) := authorized_issue l u p i in
           let* _ := repo (fun _ => internal_error l) (repo_update_issue now (f j)) in k pid j).
Proof.
  intros Hf Hk. apply keeps_on_issue. intros pid iid j Hj. cbv beta iota.
  apply keeps_bind; [|intros x; apply Hk]. apply keeps_repo, kept_update_issue. by rewrite Hf.
Qed.

Lemma keeps_of_user l p r : keeps K (serve_project l u p r).
Proof.
  destruct r; cbn [serve_project]; apply keeps_dropped.
  - unfold get_project. authorize. apply keeps_project_with_auth.
  - unfold update_project. authorize. apply keeps_with_auth. intros prj Hp. keeps_tac.
  - unfold delete_project. authorize. apply keeps_with_auth. intros prj Hp. keeps_tac.
  - unfold list_issues. authorize. apply keeps_with_auth. intros prj Hp. keeps_tac.
  - apply (keeps_issue_route l p issue_id _ (set_resolution Resolved _ _ _)); [done|].
    intros P pid j. keeps_tac.
  - apply (keeps_issue_route l p issue_id _ (set_resolution Unresolved None None None)); [done|].
    intros P pid j. keeps_tac.
  - apply (keeps_issue_route l p issue_id _ (fun j => set_resolution Ignored _ _ _ j)); [done|].
    intros P pid j. keeps_tac.
  - unfold assign_issue. apply keeps_on_issue. intros pid iid j Hj. cbv beta iota.
    apply keeps_bind; [destruct assignee; keeps_tac|]. intros who. keeps_tac.
  - unfold get_issue. apply keeps_on_issue. intros pid iid j Hj. keeps_tac.
  - unfold delete_issue. apply keeps_on_issue. intros pid iid j Hj. keeps_tac.
  - unfold list_issue_events. apply keeps_on_issue. intros pid iid j Hj. keeps_tac.
  - unfold list_events. authorize. apply keeps_with_auth. intros prj Hp. keeps_tac.
  - unfold get_event. authorize. apply keeps_with_auth. intros prj Hp. keeps_tac.
  - unfold stream_crash. authorize. apply keeps_with_auth. intros prj Hp. keeps_tac.
    by apply keeps_fun.
  - unfold list_releases. authorize. apply keeps_with_auth. intros prj Hp. keeps_tac.
  - unfold create_release. authorize. destruct (_ || _); [apply keeps_raise|].
    apply keeps_with_auth. intros prj Hp. keeps_tac.
  - unfold get_release. authorize. apply keeps_with_auth. intros prj Hp. keeps_tac.
  - unfold list_artifacts. authorize. apply keeps_with_auth. intros prj Hp. keeps_tac.
  - unfold upload_artifacts. authorize. apply keeps_with_auth. intros prj Hp. keeps_tac.
  - unfold get_artifact. authorize. apply keeps_with_auth. intros prj Hp.
    eapply keeps_leads; [apply leads_artifact|by intros b w []|]. intros b.
    apply keeps_bind; [apply keeps_try_repo, kept_artifact_accessed|intros x; apply keeps_ret].
  - unfold delete_artifact. authorize. apply keeps_with_auth. intros prj Hp.
    eapply keeps_leads; [apply leads_artifact|by intros b w []|]. intros b.
    apply keeps_bind; [apply keeps_repo, kept_delete_artifact|]. intros []; keeps_tac.
  - unfold list_api_keys. authorize. apply keeps_with_auth. intros prj Hp. keeps_tac.
  - unfold create_api_key. authorize. apply keeps_with_auth. intros prj Hp. keeps_tac.
  - unfold revoke_api_key. authorize. apply keeps_with_auth. intros prj Hp.
    apply leads_api_key. intros key.
    apply keeps_bind; [apply keeps_repo, kept_revoke_api_key|]. intros []; keeps_tac.
Qed.

Lemma keeps_user l r : keeps K (serve_user l u r).
Proof.
  destruct r as [env body|envs events|org|env org n s pf|p r]; cbn [serve_user].
  - apply keeps_dropped, keeps_capture.
  - apply keeps_dropped, keeps_batch.
  - apply keeps_dropped. unfold list_projects, parse_org_id. keeps_tac.
  - apply keeps_dropped. unfold create_project, parse_org_id.
    apply keeps_bind; [apply keeps_parse_id|]. intros oid.
    apply keeps_with_membership. intros Ho.
    destruct (validate_slug s); cbn [negb]; [|apply keeps_raise].
    apply keeps_bind; [apply keeps_repo; by apply kept_create_project|intros x; keeps_tac].
  - apply keeps_of_user.
Qed.

End User.

(** * Keys *)

(** No key of the organization is this one and live. *)
Definition rejected (raw : string) : Prop :=
  Forall (fun r => forall k, CrashApiKey_try_from r = Ok k -> usable_key raw k = false)
    (tv_api_keys v).

Lemma collect_rows {R A} (g : R -> result CrashServerError A) rows l a :
  collect g rows = Ok l -> a ∈ l -> exists r, r ∈ rows /\ g r = Ok a.
Proof.
  revert l. induction rows as [|r rows IH]; cbn [collect]; intros l H.
  - injection H as <-. intros H%elem_of_nil. done.
  - apply bind_Ok in H as (x & Hx & H). apply bind_Ok in H as (l' & Hl & H).
    injection H as <-. intros [->|Ha]%elem_of_cons.
    + exists r. split; [left|done].
    + destruct (IH l' Hl Ha) as (q & ? & ?). exists q. split; [by right|done].
Qed.

Lemma leads_key pid raw : (G -> rejected raw) ->
  leads K (verify_project_api_key pid raw) (fun _ => K_in pid).
Proof.
  intros Hrej w Hw. apply stm_bind, wp_crash_repo, stm_bind, wp_sql_read.
  - intros e c' Ht _. unfold on_tables, tables_of in *. cbn. by rewrite Ht.
  - intros c' Ht _. apply stm_of_result. assert (Hw' : K (put_conn c' w)).
    { unfold on_tables, tables_of in *. cbn. by rewrite Ht. }
    destruct (collect _ _) as [keys|e] eqn:Hkeys; [|done].
    destruct (List.find (usable_key raw) keys) as [key|] eqn:Hfind; [|done].
    apply List.find_some in Hfind as [Hin%list_elem_of_In Husable].
    apply kept_in_intro; [done|]. intros HG. specialize (Hrej HG).
    destruct Hw as [_ [Hv _]%(fun H => H HG)]. apply not_true_iff_false. intros Hown.
    destruct (collect_rows _ _ _ _ Hkeys Hin) as (r & Hr & Hread).
    rewrite (order_by_perm true kr_created_at), elem_of_select_where in Hr.
    destruct Hr as [Hr Hp%String.eqb_eq]. unfold rejected in Hrej. rewrite Forall_forall in Hrej.
    assert (Hr' : r ∈ tv_api_keys v).
    { rewrite <- Hv in *. apply elem_of_select_where. split; [done|]. by rewrite Hp. }
    rewrite (Hrej r Hr' key Hread) in Husable. done.
Qed.

Lemma keeps_sdk env raw body :
  (G -> match raw with Some raw => rejected raw | None => True end) ->
  keeps K (capture_crash_with_api_key env raw body).
Proof.
  intros Hrej. destruct raw as [raw|]; [|apply keeps_raise].
  unfold capture_crash_with_api_key, parse_project_id.
  apply keeps_bind; [apply keeps_parse_id|]. intros pid.
  apply keeps_bind; [apply keeps_repo, op_keeps_fetch_optional|].
  intros [prj|]; [|apply keeps_raise].
  eapply keeps_leads; [by apply leads_key|by intros k w [? _]|]. intros key.
  destruct (_ && _); [apply keeps_raise|]. apply keeps_wp. intros w Hw. cbv beta in Hw.
  apply stm_bind. eapply stm_mono; [apply wp_convert; exact Hw|].
  intros [e|x] w1 [H1 He]; [|done]. apply stm_bind, wp_try_repo.
  eapply stm_mono; [apply (read_issue_in pid); [apply with_fingerprint_in|exact H1]|].
  intros a c [H2 Hi]. set (w2 := put_conn c w1) in *. clearbody w2. apply stm_bind.
  apply (stm_mono _ (fun a w' => match a with
    | Ok x => grouped_in pid x w' | Err _ => K_in pid w' end)).
  2:{ intros [[[i n] g]|x] w3 H3; [by apply wp_record|done]. }
  assert (Hnew : leads (K_in pid) (sdk_new_issue env e (pj_org_id prj) pid
    (compute_fingerprint sha256_hex e)) (grouped_in pid)).
  { unfold sdk_new_issue.
    eapply leads_bind; [apply leads_keeps, keeps_repo, keeps_next_short_id|done|]. intros r.
    eapply leads_bind; [apply leads_keeps, keeps_of_run|done|]. intros sid. apply leads_new. }
  destruct a as [[i|]|x]; [|by apply Hnew..].
  eapply stm_mono; [by apply leads_sdk_existing|].
  intros [x|x] w3 H3; [unfold grouped_in; by destruct H3 as [? ->]|by apply kept_issue_in in H3].
Qed.

End Kept.

(** * Histories *)

(** A step that is not of the organization: of a user who is no member, of a client
    without one of its keys, a failure. *)
Definition outsider (o : string) (t : CrashTables) (s : CrashStep) : Prop :=
  match s with
  | ByUser _ u _ => is_member (t_memberships t) o u = false
  | BySdk _ (Some raw) _ => rejected (tenant_view o t) raw
  | BySdk _ None _ | Database _ => True
  | _ => False
  end.

Lemma kept_outsider o v ms s w : tenant_view o (tables_of w) = v -> t_memberships (tables_of w) = ms ->
  outsider o (tables_of w) s ->
  kept o True v ms (tables_of w) -> kept o True v ms (tables_of (crash_step s w)).
Proof.
  intros Hv Hm Hs Hk. destruct s as [l u r|env raw body|now t|now d|now d|fs]; cbn in *; try done.
  - apply keeps_user; [|done]. intros _. by rewrite <- Hm.
  - apply keeps_sdk; [|done]. intros _. destruct raw; [|done]. by rewrite <- Hv.
Qed.

Lemma tenant_inv_step s w : tenant_inv (tables_of w) -> tenant_inv (tables_of (crash_step s w)).
Proof.
  intros Hinv. assert (Hk : kept "" False (tenant_view "" (tables_of w)) [] (tables_of w)) by done.
  destruct s as [l u r|env raw body|now t|now d|now d|fs]; cbn [crash_step].
  - eapply proj1, (keeps_user "" False); [done|exact Hk].
  - eapply proj1, (keeps_sdk "" False); [done|exact Hk].
  - destruct t as [k|a]; cbn [run_crash_task].
    + apply (op_keeps_modify tenant_inv (fun _ => true)); [|done].
      intros t _. by apply tenant_inv_update_keys.
    + apply (op_keeps_modify tenant_inv (fun _ => true)); [|done].
      intros t _. by apply tenant_inv_update_artifacts.
  - apply (op_keeps_write tenant_inv); [|done]. intros t. apply tenant_inv_delete_events.
  - apply (op_keeps_write tenant_inv); [|done]. intros t. apply tenant_inv_delete_artifacts.
  - exact Hinv.
Qed.

Lemma tenant_inv_steps ss w : tenant_inv (tables_of w) -> tenant_inv (tables_of (crash_steps ss w)).
Proof.
  revert w. induction ss as [|s ss IH]; intros w Hinv; [done|]. by apply IH, tenant_inv_step.
Qed.

Definition no_reports (t : CrashTables) : Prop :=
  t_projects t = [] /\ t_issues t = [] /\ t_events t = [] /\ t_artifacts t = []
  /\ t_api_keys t = [].

(** C28. Organizations are isolated: after any history of the crash server, no sequence of
    requests by users who are not members of an organization and by clients without one of
    its live keys changes a project, issue, event, person, release, artifact or key of it,
    whatever identifiers the requests name and whatever statements fail. *)
Theorem tenants_isolated (o : string) (before others : list CrashStep) (w : CrashWorld) :
  no_reports (tables_of w) ->
  Forall (outsider o (tables_of (crash_steps before w))) others ->
  tenant_view o (tables_of (crash_steps (before ++ others) w))
    = tenant_view o (tables_of (crash_steps before w)).
Proof.
  intros (H1 & H2 & H3 & H4 & H5) Ho. unfold crash_steps at 1. rewrite fold_left_app.
  fold (crash_steps before w). fold (crash_steps others (crash_steps before w)).
  assert (Hinv : tenant_inv (tables_of (crash_steps before w))).
  { apply tenant_inv_steps. split; rewrite ?H1, ?H2, ?H3, ?H4, ?H5; constructor. }
  set (w0 := crash_steps before w) in *. clearbody w0. clear H1 H2 H3 H4 H5 w before.
  set (v := tenant_view o (tables_of w0)). set (ms := t_memberships (tables_of w0)).
  assert (Hk : kept o True v ms (tables_of w0)) by done.
  assert (Hout : forall w s, kept o True v ms (tables_of w) ->
    outsider o (tables_of w0) s -> outsider o (tables_of w) s).
  { intros w s [_ [Hv Hms]%(fun H => H I)]. unfold outsider.
    destruct s as [l u r|env [raw|] body|now t|now d|now d|fs]; try done.
    - by rewrite Hms.
    - by rewrite Hv. }
  revert Hk Ho. generalize w0 at 1 3 as w. subst v ms. clear Hinv.
  induction others as [|s others IH]; intros w Hk Ho.
  - by destruct Hk as [_ [? _]%(fun H => H I)].
  - apply Forall_cons in Ho as [Hs Ho]. cbn. apply IH; [|done].
    apply kept_outsider; [by apply Hk..|by apply Hout|done].
Qed.

End Isolation.
