(* ===== verification/CrashCases.v ===== *)
(** Crash reports on concrete databases. *)
From stdpp Require Import base gmap list strings countable pretty.
From Stdlib Require Import ZArith Lia Ascii.
From S2P Require Import Prelude Text CoreTypes Effects Sql Columns Samples SourceMap CrashModel CrashGroups CrashRepo CrashCapture CrashProcessor CrashRoutes CrashInvariant CrashRequests CrashServer CrashTypes CrashIsolation.
Local Open Scope Z_scope.

(** * A backend *)

Definition sample_json : SerdeJson := {| Json := string; json_to_string := Some |}.

Section Sample.
#[local] Existing Instance sample_json.

(** Values as tuples of countable parts. *)
Definition rule_parts (r : FingerprintRule) :=
  (match fr_match_type r with
   | FM_ExceptionType => 0 | FM_ExceptionMessage => 1 | FM_Module => 2 | FM_Function => 3
   end, fr_pattern r, fr_fingerprint r).
Definition rule_of '(m, p, f) : FingerprintRule :=
  mkFingerprintRule (if m =? 0 then FM_ExceptionType else if m =? 1 then FM_ExceptionMessage
                     else if m =? 2 then FM_Module else FM_Function) p f.
Lemma rule_inv r : rule_of (rule_parts r) = r.
Proof. by destruct r as [[] ? ?]. Qed.

Definition frame_parts (f : Frame) :=
  ((f_function f, f_module f, f_filename f, f_abs_path f, f_lineno f, f_colno f),
   (f_context_line f, f_pre_context f, f_post_context f, f_in_app f, f_instruction_addr f,
    f_symbol_addr f)).
Definition frame_from '((a, b, c, d, e, f), (g, h, i, j, k, l)) : Frame :=
  mkFrame a b c d e f g h i j k l.
Lemma frame_inv f : frame_from (frame_parts f) = f.
Proof. by destruct f. Qed.

Definition crumb_parts (b : Breadcrumb) :=
  (bc_timestamp b, bc_category b, bc_message b,
   match bc_level b with BL_Debug => 0 | BL_Info => 1 | BL_Warning => 2 | BL_Error => 3 end,
   bc_data b : string).
Definition crumb_from '(t, c, m, l, d) : Breadcrumb :=
  mkBreadcrumb t c m (if l =? 0 then BL_Debug else if l =? 1 then BL_Info
                      else if l =? 2 then BL_Warning else BL_Error) (d : string).
Lemma crumb_inv b : crumb_from (crumb_parts b) = b.
Proof. by destruct b as [? ? ? [] ?]. Qed.

Lemma map_inv {A B} (f : A -> B) g (E : forall a, g (f a) = a) l : map g (map f l) = l.
Proof. induction l as [|a l IH]; cbn; [done|]. by rewrite E, IH. Qed.

#[refine] Definition sample_texts : CrashTexts := {|
  ct_json := sample_json;
  ct_stamps := sample_stamps;
  sha256_hex s := s;
  to_uppercase := to_ascii_uppercase;
  jc_rules := column_of (map rule_parts) (map rule_of) (map_inv _ _ rule_inv);
  je_rules := column_exact _ _ _;
  jc_metadata := column_of
    (fun m => (im_exception_type m, im_exception_value m, im_filename m, im_function m))
    (fun '(a, b, c, d) => mkIssueMetadata a b c d) _;
  je_metadata := column_exact _ _ _;
  jc_stacktrace := column_of (fun s => map frame_parts (frames s))
    (fun l => mkStacktrace (map frame_from l)) _;
  je_stacktrace := column_exact _ _ _;
  jc_runtime := column_of (fun r => (rt_name r, rt_version r)) (fun '(a, b) => mkRuntime a b) _;
  je_runtime := column_exact _ _ _;
  jc_map := column_of (fun m => m) (fun m => m) _;
  je_map := column_exact _ _ _;
  jc_value := column_of (fun v : string => v) (fun v => v) _;
  jc_user := column_of (fun u => (uc_id u, uc_email u, uc_username u, uc_ip_address u))
    (fun '(a, b, c, d) => mkUserContext a b c d) _;
  je_user := column_exact _ _ _;
  jc_device := column_of (fun u => (dc_name u, dc_family u, dc_model u, dc_arch u))
    (fun '(a, b, c, d) => mkDeviceContext a b c d) _;
  je_device := column_exact _ _ _;
  jc_browser := column_of (fun u => (bc_name u, bc_version u)) (fun '(a, b) => mkBrowserContext a b) _;
  je_browser := column_exact _ _ _;
  jc_os := column_of (fun u => (oc_name u, oc_version u)) (fun '(a, b) => mkOsContext a b) _;
  je_os := column_exact _ _ _;
  jc_request := column_of (fun r => (rc_url r, rc_method r, rc_headers r, rc_query_string r))
    (fun '(a, b, c, d) => mkRequestContext a b c d) _;
  je_request := column_exact _ _ _;
  jc_breadcrumbs := column_of (map crumb_parts) (map crumb_from) (map_inv _ _ crumb_inv);
  jc_origins := column_of (fun l => l) (fun l => l) _;
  je_origins := column_exact _ _ _;
|}.
Proof.
  all: try (by intros []); try done.
  - intros [l]. cbn. by rewrite (map_inv _ _ frame_inv).
Defined.

(** A key verifies if it is the hash; source maps do not parse. *)
Definition sample_backend : CrashBackend := {|
  cb_texts := sample_texts;
  overflow_checks := false;
  argon2_verify k h := Ok (String.eqb ("$argon2" +:+ k) h);
  parse_source_map _ := Err "not a source map";
  demangle f := f;
  translate _ k := k;
|}.
End Sample.

(** * A database *)

Section Cases.
#[local] Existing Instance sample_backend.

(** Organization 1 with user 10 and project 5, organization 2 with user 20. *)
Definition sample_project : CrashProject :=
  mkCrashProject 5%N 1%N "Shop" "shop-web" JavaScript None [] 0 0.

Definition sample_tables : CrashTables :=
  mkCrashTables [uuid_text 1%N; uuid_text 2%N] [uuid_text 10%N; uuid_text 20%N]
    [(uuid_text 1%N, uuid_text 10%N); (uuid_text 2%N, uuid_text 20%N)]
    [project_row sample_project] [] [] [] [] [] [].

Definition world (t : CrashTables) : CrashWorld := mkCrashWorld (mkConn t []) ∅ [] [].

(** The [n]-th request: its time and identifiers. *)
Definition env_of (n : N) : Env :=
  mkEnv (fun _ => Z.of_N n) (fun k => (n * 100 + N.of_nat k)%N).

Definition report (type value : string) : CaptureRequest :=
  mkCaptureRequest (uuid_text 5%N) type value
    (Some [mkCaptureFrame (Some "pay") (Some "cart") None None None None true]) None None None None
    None None None ∅ "" ∅ [] None.

Definition first_report : CrashStep := ByUser "en" 10%N (Capture (env_of 1) (report "TypeError" "x")).
Definition second_report : CrashStep := ByUser "en" 10%N (Capture (env_of 2) (report "TypeError" "y")).

(** Projects of the sample: none yet. *)
Definition empty_tables : CrashTables :=
  mkCrashTables [uuid_text 1%N; uuid_text 2%N] [uuid_text 10%N; uuid_text 20%N]
    [(uuid_text 1%N, uuid_text 10%N); (uuid_text 2%N, uuid_text 20%N)] [] [] [] [] [] [] [].

Lemma issues_consistent_witness :
  crash_inv (total_weight [first_report; second_report])
    (tables_of (crash_steps [first_report; second_report] (world sample_tables))).
Proof. apply issues_consistent; reflexivity. Defined.

Lemma tenants_isolated_witness :
  tenant_view (uuid_text 1%N)
    (tables_of (crash_steps ([ByUser "en" 10%N (CreateProject (env_of 1) (uuid_text 1%N) "Shop"
        "shop-web" "node")] ++ [ByUser "en" 20%N (OnProject (uuid_text 100%N) DeleteProject)])
        (world empty_tables)))
  = tenant_view (uuid_text 1%N)
      (tables_of (crash_steps [ByUser "en" 10%N (CreateProject (env_of 1) (uuid_text 1%N) "Shop"
         "shop-web" "node")] (world empty_tables))).
Proof.
  apply tenants_isolated; [by split_and!|]. apply Forall_singleton. vm_compute. reflexivity.
Defined.

(** The project that user 20 could not delete is there. *)
Lemma tenants_isolated_is_about_something :
  map pr_slug (tv_projects (tenant_view (uuid_text 1%N)
    (tables_of (crash_steps ([ByUser "en" 10%N (CreateProject (env_of 1) (uuid_text 1%N) "Shop"
        "shop-web" "node")] ++ [ByUser "en" 20%N (OnProject (uuid_text 100%N) DeleteProject)])
        (world empty_tables))))) = ["shop-web"].
Proof. vm_compute. reflexivity. Qed.

Lemma stored_reports_typed_witness :
  let t := tables_of (crash_steps [first_report; second_report] (world sample_tables)) in
  typed t
  /\ forall rows, Forall (fun r => r ∈ t_issues t) rows ->
     exists issues, collect Issue_try_from rows = Ok issues.
Proof.
  apply stored_reports_typed.
  - split; try constructor; [|constructor]. apply new_project_reads; unfold calendar; cbn; lia.
  - repeat constructor; unfold calendar; cbn; lia.
Defined.

Definition group_event (type value : string) : CrashEvent :=
  convert_capture_request (env_of 1) (report type value) 1%N 5%N.

Lemma fingerprint_groups_witness :
  compute_fingerprint sha256_hex (group_event "TypeError" "x")
    = compute_fingerprint sha256_hex (group_event "TypeError" "y")
  <-> group_key (group_event "TypeError" "x") = group_key (group_event "TypeError" "y").
Proof. apply fingerprint_groups; [reflexivity|reflexivity|done]. Defined.

Definition one_map : ArtifactLookup := fun _ _ filename =>
  if String.eqb filename "app.js" then Some "{}" else None.

Definition js_frame (filename : string) : Frame :=
  mkFrame None None (Some filename) None (Some 1) (Some 0) None [] [] true None None.

Lemma symbolication_cache_transparent_witness :
  calls one_map [mkSymbolicateCall (mkStacktrace [js_frame "app.js"]) Node (Some "1.0") None]
    (Some ∅)
  = [plain_symbolicate one_map (mkStacktrace [js_frame "app.js"]) Node (Some "1.0") None].
Proof.
  apply (symbolication_cache_transparent one_map
    [mkSymbolicateCall (mkStacktrace [js_frame "app.js"]) Node (Some "1.0") None]).
  - intros r d f r' d' f' x x' _. unfold one_map.
    destruct (String.eqb f "app.js"), (String.eqb f' "app.js"); congruence.
  - constructor; [|constructor]. unfold no_panic. cbn. congruence.
Defined.

(** * What happens *)

Definition issue_102 : string := uuid_text 102%N.

Definition statuses (t : CrashTables) : list (string * string * Z) :=
  map (fun r => (ir_short_id r, ir_status r, ir_times_regressed r)) (t_issues t).

Definition after (ss : list CrashStep) : CrashTables :=
  tables_of (crash_steps ss (world sample_tables)).

(** A new event of a resolved issue makes it regressed. *)
Lemma capture_regresses :
  statuses (after [first_report;
    ByUser "en" 10%N (OnProject (uuid_text 5%N) (ResolveIssue (env_of 2) issue_102 None));
    second_report]) = [("SHOP-1", "regressed", 1)].
Proof. vm_compute. reflexivity. Qed.

Definition key : CrashStep :=
  ByUser "en" 10%N (OnProject (uuid_text 5%N)
    (CreateApiKey (fun k => Ok ("$argon2" +:+ k)) "abc" (env_of 3) "sdk" "capture" None [])).

(** With a key the same event makes it unresolved. *)
Lemma sdk_capture_reopens :
  statuses (after [first_report; key;
    ByUser "en" 10%N (OnProject (uuid_text 5%N) (ResolveIssue (env_of 2) issue_102 None));
    BySdk (env_of 4) (Some "loom_crash_capture_abc") (report "TypeError" "y")])
  = [("SHOP-1", "unresolved", 1)].
Proof. vm_compute. reflexivity. Qed.

(** Short identifiers are used again after a deletion. *)
Lemma short_ids_repeat :
  statuses (after [first_report;
    ByUser "en" 10%N (Capture (env_of 2) (report "RangeError" ""));
    ByUser "en" 10%N (OnProject (uuid_text 5%N) (DeleteIssue issue_102));
    ByUser "en" 10%N (Capture (env_of 3) (report "SyntaxError" ""))])
  = [("SHOP-2", "unresolved", 0); ("SHOP-2", "unresolved", 0)].
Proof. vm_compute. reflexivity. Qed.

(** The events of a deleted issue stay. *)
Lemma deleted_issue_leaves_events :
  let t := after [first_report; ByUser "en" 10%N (OnProject (uuid_text 5%N) (DeleteIssue issue_102))] in
  (t_issues t, map er_issue_id (t_events t)) = ([], [None]).
Proof. vm_compute. reflexivity. Qed.

(** A capture with a key that has read the issue before another capture changed it: the
    handlers read and write the count in two statements. *)
Definition late_capture (n : N) (existing : Issue) : HandlerM HttpError CaptureResponse :=
  let e := convert_capture_request (env_of n) (report "TypeError" "x") 1%N 5%N in
  let* (issue, is_new_issue, is_regression) := sdk_existing_issue (env_of n) e existing in
  record_event (fun _ _ => server_error) (env_of n) e 5%N issue is_new_issue is_regression.

(** Two captures that both read first: the issue counts two of its three events. *)
Lemma concurrent_captures_lose_count :
  let w := crash_steps [first_report] (world sample_tables) in
  match (repo_get_issue_by_id 102%N (cw_conn w)).1 with
  | Ok (Some existing) =>
      let t := tables_of (late_capture 3%N existing (late_capture 2%N existing w).2).2 in
      (map row_events (t_issues t), map er_issue_id (t_events t))
  | _ => ([], [])
  end = ([2], [Some issue_102; Some issue_102; Some issue_102]).
Proof. vm_compute. reflexivity. Qed.

Fixpoint repeat_text (n : nat) (s : string) : string :=
  match n with O => "" | S n => s +:+ repeat_text n s end.

(** A long message with a character across byte 97 is never recorded. *)
Lemma long_message_panics :
  (capture_crash (env_of 1) "en" 10%N
     (report "TypeError" (repeat_text 96 "a" +:+ String (ascii_of_nat 195)
        (String (ascii_of_nat 169) (repeat_text 10 "a")))) (world sample_tables)).1
  = Err Panicked.
Proof. vm_compute. reflexivity. Qed.

(** A source map that a release shares with an earlier one is not found under it. *)
Definition upload (n : N) (release : string) : CrashStep :=
  ByUser "en" 10%N (OnProject (uuid_text 5%N) (UploadArtifacts (env_of n)
    [mkFormField (Some "release") None release; mkFormField (Some "file") (Some "app.js.map") "{}"])).

Lemma shared_source_map_missing :
  map (fun r => (tr_release r, tr_name r)) (t_artifacts (after [upload 1 "1.0"; upload 2 "1.1"]))
  = [("1.0", "app.js.map")].
Proof. vm_compute. reflexivity. Qed.

End Cases.

Section Distributions.

(** A source map with one source, whose name is the data. *)
Definition mapping_backend : CrashBackend := {|
  cb_texts := sample_texts;
  overflow_checks := false;
  argon2_verify _ _ := Ok false;
  parse_source_map data := Ok (mkRaw 3 None None [data] None [] "AAAA");
  demangle f := f;
  translate _ k := k;
|}.
#[local] Existing Instance mapping_backend.

Definition per_dist : ArtifactLookup := fun _ dist _ => Some (default "none" dist).

(** The maps of two distributions of a release share an entry of the cache. *)
Lemma cache_ignores_dist :
  let call dist := mkSymbolicateCall (mkStacktrace [js_frame "app.js"]) Node (Some "1.0") (Some dist) in
  map (fun r => match r with
                | Ok st => map f_filename (frames st)
                | Err _ => [] end) (calls per_dist [call "ios"; call "android"] (Some ∅))
  = [[Some "ios"]; [Some "ios"]].
Proof. vm_compute. reflexivity. Qed.
End Distributions.
