(* ===== verification/JobModel.v ===== *)
(** The data of background jobs: types.rs, context.rs, health.rs and error.rs of
    [crates/loom-server-jobs] and the records of [crates/loom-server-db/src/job.rs]. *)
From stdpp Require Import base list strings.
From Stdlib Require Import ZArith.
From S2P Require Import Prelude CoreTypes Effects Columns.

(** * error.rs *)

Inductive JobError :=
| JE_Failed (message : string) (retryable : bool)
| JE_Cancelled
| JE_Database (e : string)
| JE_Repository (e : DbError)
| JE_NotFound (s : string).

Definition JobError_to_string (e : JobError) : string :=
  match e with
  | JE_Failed message _ => "Job failed: " +:+ message
  | JE_Cancelled => "Job cancelled"
  | JE_Database e => "Database error: " +:+ e
  | JE_Repository e => "Repository error: " +:+ DbError_to_string e
  | JE_NotFound s => "Job not found: " +:+ s
  end.

(** * types.rs *)

(** The interval is in seconds: every caller makes it with [Duration::from_secs]. *)
Inductive JobType := JT_Periodic (interval : Z) | JT_OneShot.

(** [V] is the type of JSON values. *)
Record JobOutput (V : Type) := mkJobOutput { jo_message : string; jo_metadata : option V }.
Arguments mkJobOutput {V} _ _.
Arguments jo_message {V} _.
Arguments jo_metadata {V} _.

(** What the jobs of the server report: an object of texts and numbers. *)
Definition Metadata : Type := list (string * Detail).

(** * Records of job.rs *)

Inductive JobStatus := JS_Running | JS_Succeeded | JS_Failed | JS_Cancelled.

#[export] Instance JobStatus_eq_dec : EqDecision JobStatus.
Proof. solve_decision. Defined.

Definition JobStatus_as_str (s : JobStatus) : string :=
  match s with
  | JS_Running => "running"
  | JS_Succeeded => "succeeded"
  | JS_Failed => "failed"
  | JS_Cancelled => "cancelled"
  end.

Definition JobStatus_from_str (s : string) : result string JobStatus :=
  if bool_decide (s = "running") then Ok JS_Running
  else if bool_decide (s = "succeeded") then Ok JS_Succeeded
  else if bool_decide (s = "failed") then Ok JS_Failed
  else if bool_decide (s = "cancelled") then Ok JS_Cancelled
  else Err ("unknown job status: " +:+ s).

Inductive TriggerSource := TS_Schedule | TS_Manual | TS_Retry.

#[export] Instance TriggerSource_eq_dec : EqDecision TriggerSource.
Proof. solve_decision. Defined.

Definition TriggerSource_as_str (s : TriggerSource) : string :=
  match s with TS_Schedule => "schedule" | TS_Manual => "manual" | TS_Retry => "retry" end.

Definition TriggerSource_from_str (s : string) : result string TriggerSource :=
  if bool_decide (s = "schedule") then Ok TS_Schedule
  else if bool_decide (s = "manual") then Ok TS_Manual
  else if bool_decide (s = "retry") then Ok TS_Retry
  else Err ("unknown trigger source: " +:+ s).

Record JobDefinition := mkJobDefinition {
  jd_id : string;
  jd_name : string;
  jd_description : string;
  jd_job_type : string;
  jd_interval_secs : option Z;
  jd_enabled : bool;
}.

Record JobRun (V : Type) := mkJobRun {
  jr_id : string;
  jr_job_id : string;
  jr_status : JobStatus;
  jr_started_at : Z;
  jr_completed_at : option Z;
  jr_duration_ms : option Z;
  jr_error_message : option string;
  jr_retry_count : Z;
  jr_triggered_by : TriggerSource;
  jr_metadata : option V;
}.
Arguments mkJobRun {V} _ _ _ _ _ _ _ _ _ _.
Arguments jr_id {V} _.
Arguments jr_job_id {V} _.
Arguments jr_status {V} _.
Arguments jr_started_at {V} _.
Arguments jr_completed_at {V} _.
Arguments jr_duration_ms {V} _.
Arguments jr_error_message {V} _.
Arguments jr_retry_count {V} _.
Arguments jr_triggered_by {V} _.
Arguments jr_metadata {V} _.

Lemma JobStatus_roundtrip s : JobStatus_from_str (JobStatus_as_str s) = Ok s.
Proof. by destruct s. Qed.

Lemma TriggerSource_roundtrip s : TriggerSource_from_str (TriggerSource_as_str s) = Ok s.
Proof. by destruct s. Qed.

(** * health.rs *)

Inductive HealthState := HS_Healthy | HS_Degraded | HS_Unhealthy.

#[export] Instance HealthState_eq_dec : EqDecision HealthState.
Proof. solve_decision. Defined.

Record LastRunInfo := mkLastRunInfo {
  lr_run_id : string;
  lr_status : JobStatus;
  lr_started_at : Z;
  lr_duration_ms : option Z;
  lr_error : option string;
}.

Record JobHealthStatus := mkJobHealthStatus {
  jh_job_id : string;
  jh_name : string;
  jh_status : HealthState;
  jh_last_run : option LastRunInfo;
  jh_consecutive_failures : Z;
}.

Record JobsHealthStatus := mkJobsHealthStatus {
  js_status : HealthState;
  js_jobs : list JobHealthStatus;
}.
