(* ===== verification/JobStore.v ===== *)
(** Storage of background jobs: [JobRepository] of [crates/loom-server-db/src/job.rs] over
    the tables of [crates/loom-server/migrations/019_jobs.sql].

    Times are read from a clock that the caller passes; JSON values are a parameter. *)
From stdpp Require Import base list strings sorting.
From Stdlib Require Import ZArith Lia.
From S2P Require Import Prelude CoreTypes Effects Sql Columns JobModel.

Record DefinitionRow := mkDefinitionRow {
  dw_id : string;
  dw_name : string;
  dw_description : string;
  dw_job_type : string;
  dw_interval_secs : option Z;
  dw_enabled : bool;
  dw_created_at : string;
  dw_updated_at : string;
}.

Record RunRow := mkRunRow {
  rw_id : string;
  rw_job_id : string;
  rw_status : string;
  rw_started_at : string;
  rw_completed_at : option string;
  rw_duration_ms : option Z;
  rw_error_message : option string;
  rw_retry_count : Z;
  rw_triggered_by : string;
  rw_metadata : option string;
}.

Record JobTables := mkJobTables {
  jt_definitions : list DefinitionRow;
  jt_runs : list RunRow;
}.

Definition put_definitions (v : list DefinitionRow) (t : JobTables) : JobTables :=
  mkJobTables v (jt_runs t).
Definition put_runs (v : list RunRow) (t : JobTables) : JobTables :=
  mkJobTables (jt_definitions t) v.

Definition JobOp (A : Type) : Type := SqlM JobTables DbError A.

(** What is used of [chrono] and of SQLite's [julianday], the text with nanoseconds and a
    [Z] and the milliseconds between two texts, and the translations of [crate::i18n]. *)
Class JobBackend `{JS : Stamps} := {
  rfc3339_nanos : Z -> string;
  julian_ms : string -> string -> option Z;
  job_translate : string -> string -> string;
}.

(** [DateTime::<Utc>::MIN_UTC], in nanoseconds: the start of the year -262143. *)
Definition min_utc : Z := (-8334601228800 * 10 ^ 9)%Z.

Section JobStore.
Context `{JB : JobBackend} {V : Type} `{JV : !JsonColumn V}.

(** * Definitions *)

Definition definition_row (now : Z) (d : JobDefinition) : DefinitionRow :=
  mkDefinitionRow (jd_id d) (jd_name d) (jd_description d) (jd_job_type d) (jd_interval_secs d)
    (jd_enabled d) (rfc3339_nanos now) (rfc3339_nanos now).

Definition definition_of_row (r : DefinitionRow) : JobDefinition :=
  mkJobDefinition (dw_id r) (dw_name r) (dw_description r) (dw_job_type r) (dw_interval_secs r)
    (dw_enabled r).

(** [ON CONFLICT(id) DO UPDATE]: the time of creation stays. *)
Definition redefine (r old : DefinitionRow) : DefinitionRow :=
  mkDefinitionRow (dw_id old) (dw_name r) (dw_description r) (dw_job_type r) (dw_interval_secs r)
    (dw_enabled r) (dw_created_at old) (dw_updated_at r).

Definition is_definition (id : string) (r : DefinitionRow) : bool := String.eqb (dw_id r) id.

Definition upsert_definition (now : Z) (d : JobDefinition) : JobOp unit :=
  sql_write DE_Sqlx (fun t =>
    let r := definition_row now d in
    let defs := jt_definitions t in
    (tt, put_definitions
           (match select_one (is_definition (jd_id d)) defs with
            | Some _ => update_where (is_definition (jd_id d)) (redefine r) defs
            | None => defs ++ [r]
            end) t)).

Definition get_definition (id : string) : JobOp (option JobDefinition) :=
  sql_read DE_Sqlx (fun t => definition_of_row <$> select_one (is_definition id) (jt_definitions t)).

Definition list_definitions : JobOp (list JobDefinition) :=
  sql_read DE_Sqlx (fun t => definition_of_row <$> order_by false dw_name (jt_definitions t)).

Definition enable_row (enabled : bool) (r : DefinitionRow) : DefinitionRow :=
  mkDefinitionRow (dw_id r) (dw_name r) (dw_description r) (dw_job_type r) (dw_interval_secs r)
    enabled (dw_created_at r) (dw_updated_at r).

Definition job_set_enabled (id : string) (enabled : bool) : JobOp unit :=
  let* rows_affected := sql_write DE_Sqlx (fun t =>
    (count_where (is_definition id) (jt_definitions t),
     put_definitions (update_where (is_definition id) (enable_row enabled) (jt_definitions t)) t)) in
  if Nat.eqb rows_affected 0 then raise (DE_NotFound id) else ret tt.

(** * Runs *)

(** The columns that [record_run_start] binds. *)
Definition run_row (r : JobRun V) : RunRow :=
  mkRunRow (jr_id r) (jr_job_id r) (JobStatus_as_str (jr_status r)) (to_rfc3339 (jr_started_at r))
    None None None (jr_retry_count r) (TriggerSource_as_str (jr_triggered_by r)) None.

Definition is_run (id : string) (r : RunRow) : bool := String.eqb (rw_id r) id.
Definition of_job (job_id : string) (r : RunRow) : bool := String.eqb (rw_job_id r) job_id.

(** The primary key and the reference to the definition. *)
Definition record_run_start (r : JobRun V) : JobOp unit :=
  sql DE_Sqlx (fun t =>
    match select_one (is_run (jr_id r)) (jt_runs t),
          select_one (is_definition (jr_job_id r)) (jt_definitions t) with
    | None, Some _ => Some (tt, put_runs (jt_runs t ++ [run_row r]) t)
    | _, _ => None
    end).

Definition complete_row (now : Z) (status : JobStatus) (error : option string) (metadata : option V)
    (r : RunRow) : RunRow :=
  mkRunRow (rw_id r) (rw_job_id r) (JobStatus_as_str status) (rw_started_at r)
    (Some (to_rfc3339 now)) (julian_ms (to_rfc3339 now) (rw_started_at r)) error
    (rw_retry_count r) (rw_triggered_by r) (to_json <$> metadata).

Definition record_run_complete (now : Z) (run_id : string) (status : JobStatus)
    (error : option string) (metadata : option V) : JobOp unit :=
  sql_write DE_Sqlx (fun t =>
    (tt, put_runs (update_where (is_run run_id) (complete_row now status error metadata) (jt_runs t)) t)).

(** [DateTime<Utc>] as [sqlx] decodes it. *)
Definition run_time (s : string) : result DbError Z :=
  ok_or (DE_Sqlx "decode") (parse_from_rfc3339 s).

Definition internal_text {A} (r : result string A) : result DbError A :=
  match r with Ok a => Ok a | Err e => Err (DE_Internal e) end.

Definition ok {E A} (r : result E A) : option A := match r with Ok a => Some a | Err _ => None end.

Definition run_of_row (r : RunRow) : result DbError (JobRun V) :=
  started_at ← run_time (rw_started_at r);
  completed_at ← transpose run_time (rw_completed_at r);
  status ← internal_text (JobStatus_from_str (rw_status r));
  triggered_by ← internal_text (TriggerSource_from_str (rw_triggered_by r));
  Ok (mkJobRun (rw_id r) (rw_job_id r) status started_at completed_at (rw_duration_ms r)
        (rw_error_message r) (wrap_u32 (rw_retry_count r)) triggered_by
        (s ← rw_metadata r; ok (from_json s))).

Definition optional_run (o : option RunRow) : result DbError (option (JobRun V)) :=
  transpose run_of_row o.

Definition get_run (run_id : string) : JobOp (option (JobRun V)) :=
  let* row := sql_read DE_Sqlx (fun t => select_one (is_run run_id) (jt_runs t)) in
  of_result (optional_run row).

(** The runs of a job, the latest first. *)
Definition runs_of (job_id : string) (t : JobTables) : list RunRow :=
  order_by true rw_started_at (select_where (of_job job_id) (jt_runs t)).

Definition list_runs (job_id : string) (limit offset : Z) : JobOp (list (JobRun V)) :=
  let* rows := sql_read DE_Sqlx (fun t => sql_limit limit (sql_offset offset (runs_of job_id t))) in
  of_result (collect run_of_row rows).

Definition get_last_run (job_id : string) : JobOp (option (JobRun V)) :=
  let* row := sql_read DE_Sqlx (fun t => head (sql_limit 1 (runs_of job_id t))) in
  of_result (optional_run row).

(** The query of [count_consecutive_failures]: the rows with their number, the least number
    of a row that did not fail, and the failed rows before it. *)
Definition is_failed (r : RunRow) : bool := String.eqb (rw_status r) "failed".

Definition ranked (job_id : string) (t : JobTables) : list (nat * RunRow) :=
  imap (fun i r => (S i, r)) (runs_of job_id t).

Definition first_not_failed (l : list (nat * RunRow)) : option nat :=
  match map fst (List.filter (fun p => negb (is_failed p.2)) l) with
  | [] => None
  | n :: ns => Some (foldr Nat.min n ns)
  end.

Definition failures_before (l : list (nat * RunRow)) : nat :=
  let bound := match first_not_failed l with Some n => n - 1 | None => length l end in
  length (List.filter (fun p => is_failed p.2 && (p.1 <=? bound)) l).

Definition count_consecutive_failures (job_id : string) : JobOp Z :=
  sql_read DE_Sqlx (fun t => wrap_u32 (Z.of_nat (failures_before (ranked job_id t)))).

(** * Deleting *)

(** A run that is not complete has no time to compare. *)
Definition completed_before (before : Z) (r : RunRow) : bool :=
  match rw_completed_at r with
  | Some t => String.ltb t (to_rfc3339 before)
  | None => false
  end.

Definition delete_old_runs (before : Z) : JobOp Z :=
  sql_write DE_Sqlx (fun t =>
    (Z.of_nat (count_where (completed_before before) (jt_runs t)),
     put_runs (delete_where (completed_before before) (jt_runs t)) t)).

(** The subtraction panics when its result is before the first time of [chrono]. *)
Definition cleanup_old_runs (now retention_days : Z)
    : SqlM JobTables (Failure DbError) Z :=
  let cutoff := (now - retention_days * 86400 * 10 ^ 9)%Z in
  if (cutoff <? min_utc)%Z then raise Panicked
  else map_err Failed (delete_old_runs cutoff).
End JobStore.
