(* ===== verification/JobScheduler.v ===== *)
(** Running background jobs: job.rs and scheduler.rs of [crates/loom-server-jobs].

    [run_job_with_retry] is one future.  The scheduler has many of them at once: one in
    each loop of a periodic job and one in each request that triggers a job.  So a future
    is also a [Task] that [run_step] advances from one suspension point to the next, a
    [JobStep] is what happens to the scheduler next, and a list of them is one
    interleaving.  A job works on [JobWorld], the tables of jobs and whatever else the
    jobs of the server share; an attempt of a job is one step. *)
From stdpp Require Import base gmap list strings.
From Stdlib Require Import ZArith Lia.
From S2P Require Import Prelude CoreTypes Effects Sql Columns JobModel JobStore.

Definition BASE_RETRY_DELAY_SECS : Z := 1.
Definition MAX_RETRY_DELAY_SECS : Z := 60.
Definition MAX_RETRIES : Z := 3.

(** [RETRY_FACTOR.powi(e)] is a power of two; a negative one is less than a second, and
    one beyond the range of [f64] is infinite and saturates. *)
Definition calculate_backoff_delay (retry_count : Z) : Z :=
  let e := wrap_i32 (wrap_i32 retry_count - 1) in
  if (e <? 0)%Z then 0%Z else Z.min (BASE_RETRY_DELAY_SECS * 2 ^ e) MAX_RETRY_DELAY_SECS.

(** What the jobs work on. *)
Record JobWorld (W : Type) := mkJobWorld {
  jw_conn : Conn JobTables;
  jw_rest : W;
}.
Arguments mkJobWorld {W} _ _.
Arguments jw_conn {W} _.
Arguments jw_rest {W} _.

Definition put_job_conn {W} (c : Conn JobTables) (w : JobWorld W) : JobWorld W :=
  mkJobWorld c (jw_rest w).

Definition JobM (W E A : Type) : Type := StM (JobWorld W) (Failure E) A.

(** The state of the token during an attempt. *)
Record JobContext := mkJobContext {
  jc_run_id : string;
  jc_triggered_by : TriggerSource;
  jc_cancelled : bool;
}.

(** [trait Job]. *)
Record Job (W V : Type) := mkJob {
  job_id : string;
  job_name : string;
  job_description : string;
  job_run : Env -> JobContext -> JobM W JobError (JobOutput V);
}.
Arguments mkJob {W V} _ _ _ _.
Arguments job_id {W V} _.
Arguments job_name {W V} _.
Arguments job_description {W V} _.
Arguments job_run {W V} _ _ _.

Record RegisteredJob (W V : Type) := mkRegisteredJob {
  rj_job : Job W V;
  rj_type : JobType;
  rj_cancelled : bool;
}.
Arguments mkRegisteredJob {W V} _ _ _.
Arguments rj_job {W V} _.
Arguments rj_type {W V} _.
Arguments rj_cancelled {W V} _.

Section Scheduler.
Context `{JB : JobBackend} {V : Type} `{JV : !JsonColumn V} {W : Type}.

#[local] Notation job := (Job W V).
#[local] Notation registered := (RegisteredJob W V).
#[local] Notation world := (JobWorld W).

(** * One run *)

(** What an attempt leads to. *)
Inductive Verdict :=
| Again
| Finish (status : JobStatus) (error : option string) (metadata : option V)
    (answer : result JobError string).

Definition verdict (run_id : string) (retry_count : Z) (r : result JobError (JobOutput V))
    : Verdict :=
  match r with
  | Ok output => Finish JS_Succeeded None (jo_metadata output) (Ok run_id)
  | Err JE_Cancelled => Finish JS_Cancelled None None (Err JE_Cancelled)
  | Err (JE_Failed message retryable) =>
      if retryable && (retry_count <? MAX_RETRIES)%Z then Again
      else Finish JS_Failed (Some message) None (Err (JE_Failed message retryable))
  | Err e => Finish JS_Failed (Some (JobError_to_string e)) None (Err e)
  end.

Definition run_context (run_id : string) (triggered_by : TriggerSource) (cancelled : bool)
    (retry_count : Z) : JobContext :=
  mkJobContext run_id (if (0 <? retry_count)%Z then TS_Retry else triggered_by) cancelled.

Definition started_run (j : job) (ctx : JobContext) (now retry_count : Z) : JobRun V :=
  mkJobRun (jc_run_id ctx) (job_id j) JS_Running now None None None retry_count
    (jc_triggered_by ctx) None.

(** A call of the repository with [?] in code that returns a [JobError]. *)
Definition jrepo {A} (m : JobOp A) : JobM W JobError A :=
  map_err (fun e => Failed (JE_Repository e)) (on_part jw_conn put_job_conn m).

(** The outcome of an attempt that did not panic. *)
Definition settled {A} (r : result (Failure JobError) A) : option (result JobError A) :=
  match r with
  | Ok a => Some (Ok a)
  | Err (Failed e) => Some (Err e)
  | Err Panicked => None
  end.

Definition answered (r : result JobError string) : JobM W JobError string :=
  of_result (match r with Ok a => Ok a | Err e => Err (Failed e) end).

(** The clock of a run: when it starts, what each attempt sees, and when an attempt ends. *)
Record RunEnv := mkRunEnv {
  re_started : Z;
  re_job : Z -> Env;
  re_completed : Z -> Z;
}.

(** The loop; [tokens] is the state of the cancellation token at each attempt.  [fuel] is the
    number of attempts that are left, and the last one is never followed by another. *)
Fixpoint run_attempts (env : RunEnv) (tokens : Z -> bool) (j : job) (run_id : string)
    (triggered_by : TriggerSource) (fuel : nat) (retry_count : Z) : JobM W JobError string :=
  match fuel with
  | O => raise Panicked
  | S fuel =>
      let ctx := run_context run_id triggered_by (tokens retry_count) retry_count in
      let* _ := (if (retry_count =? 0)%Z
                 then jrepo (record_run_start (started_run j ctx (re_started env) retry_count))
                 else ret tt) in
      let* r := attempt (job_run j (re_job env retry_count) ctx) in
      match settled r with
      | None => raise Panicked
      | Some r =>
          match verdict run_id retry_count r with
          | Again => run_attempts env tokens j run_id triggered_by fuel (retry_count + 1)
          | Finish status error metadata answer =>
              let* _ := jrepo (record_run_complete (re_completed env retry_count) run_id status error metadata) in
              answered answer
          end
      end
  end.

Definition run_job_with_retry (env : RunEnv) (tokens : Z -> bool) (j : job) (run_id : string)
    (triggered_by : TriggerSource) : JobM W JobError string :=
  run_attempts env tokens j run_id triggered_by (S (Z.to_nat MAX_RETRIES)) 0.

(** * The same run as a task *)

(** How a run ends: the statements that open and close its record may fail, the job may
    panic, and the request that waits for it may go away. *)
Inductive Ending :=
| NotStarted (e : DbError)
| Recorded (status : JobStatus) (error : option string) (metadata : option V)
    (answer : result JobError string)
| NotRecorded (e : DbError)
| JobPanicked
| Dropped (opened : bool).

(** Where the future is suspended. *)
Inductive Phase :=
| P_Start
| P_Attempt (retry_count : Z)
| P_Sleep (retry_count delay_secs : Z)
| P_Record (retry_count : Z) (status : JobStatus) (error : option string) (metadata : option V)
    (answer : result JobError string)
| P_Ended (e : Ending).

Record Task := mkTask {
  tk_job : job;
  tk_run : Uuid;
  tk_triggered_by : TriggerSource;
  tk_phase : Phase;
}.

Definition tk_run_id (t : Task) : string := uuid_text (tk_run t).
Definition put_phase (p : Phase) (t : Task) : Task :=
  mkTask (tk_job t) (tk_run t) (tk_triggered_by t) p.

Definition ended (t : Task) : bool := match tk_phase t with P_Ended _ => true | _ => false end.

(** A call of the repository by a task. *)
Definition task_repo {A} (m : JobOp A) (w : world) : result DbError A * world :=
  on_part jw_conn put_job_conn m w.

Definition run_step (env : Env) (cancelled : bool) (t : Task) (w : world) : Phase * world :=
  match tk_phase t with
  | P_Start =>
      let ctx := run_context (tk_run_id t) (tk_triggered_by t) cancelled 0 in
      match task_repo (record_run_start (started_run (tk_job t) ctx (env_now env 0) 0)) w with
      | (Ok _, w) => (P_Attempt 0, w)
      | (Err e, w) => (P_Ended (NotStarted e), w)
      end
  | P_Attempt retry_count =>
      let ctx := run_context (tk_run_id t) (tk_triggered_by t) cancelled retry_count in
      let '(r, w) := job_run (tk_job t) env ctx w in
      match settled r with
      | None => (P_Ended JobPanicked, w)
      | Some r =>
          match verdict (tk_run_id t) retry_count r with
          | Again => (P_Sleep (retry_count + 1) (calculate_backoff_delay (retry_count + 1)), w)
          | Finish status error metadata answer => (P_Record retry_count status error metadata answer, w)
          end
      end
  | P_Sleep retry_count _ => (P_Attempt retry_count, w)
  | P_Record _ status error metadata answer =>
      match task_repo (record_run_complete (env_now env 0) (tk_run_id t) status error metadata) w with
      | (Ok _, w) => (P_Ended (Recorded status error metadata answer), w)
      | (Err e, w) => (P_Ended (NotRecorded e), w)
      end
  | P_Ended e => (P_Ended e, w)
  end.

(** * The scheduler *)

(** The loop of a periodic job waits for its timer or for the run it started; it ends
    when the scheduler shuts down or the run panics. *)
Inductive LoopState := L_Idle | L_Busy (task : nat) | L_Stopped.

Record Scheduler := mkScheduler {
  sc_jobs : gmap string registered;
  sc_world : world;
  sc_tasks : list Task;
  sc_loops : gmap string LoopState;
  sc_shutdown : bool;
}.

Definition JobScheduler_new (w : world) : Scheduler := mkScheduler ∅ w [] ∅ false.

Definition put_jobs (v : gmap string registered) (s : Scheduler) : Scheduler :=
  mkScheduler v (sc_world s) (sc_tasks s) (sc_loops s) (sc_shutdown s).
Definition put_world (v : world) (s : Scheduler) : Scheduler :=
  mkScheduler (sc_jobs s) v (sc_tasks s) (sc_loops s) (sc_shutdown s).
Definition put_tasks (v : list Task) (s : Scheduler) : Scheduler :=
  mkScheduler (sc_jobs s) (sc_world s) v (sc_loops s) (sc_shutdown s).
Definition put_loops (v : gmap string LoopState) (s : Scheduler) : Scheduler :=
  mkScheduler (sc_jobs s) (sc_world s) (sc_tasks s) v (sc_shutdown s).

Definition register (j : job) (ty : JobType) (s : Scheduler) : Scheduler :=
  put_jobs (<[job_id j := mkRegisteredJob j ty false]> (sc_jobs s)) s.
Definition register_periodic (j : job) (interval : Z) : Scheduler -> Scheduler :=
  register j (JT_Periodic interval).
Definition register_one_shot (j : job) : Scheduler -> Scheduler := register j JT_OneShot.

Definition job_ids (s : Scheduler) : list string := (map_to_list (sc_jobs s)).*1.

(** ** start *)

Definition definition_of (id : string) (r : registered) : JobDefinition :=
  mkJobDefinition id (job_name (rj_job r)) (job_description (rj_job r))
    (match rj_type r with JT_Periodic _ => "periodic" | JT_OneShot => "one_shot" end)
    (match rj_type r with JT_Periodic interval => Some (wrap_i64 interval) | JT_OneShot => None end)
    true.

Definition spawn_loop (id : string) (r : registered) (s : Scheduler) : Scheduler :=
  match rj_type r with
  | JT_Periodic _ => put_loops (<[id := L_Idle]> (sc_loops s)) s
  | JT_OneShot => s
  end.

(** The jobs in the order of the hash map, which is open; the first failing statement ends
    the start, and the jobs after it have no loop. *)
Fixpoint start_jobs (env : Env) (i : nat) (l : list (string * registered))
    : StM Scheduler JobError unit :=
  match l with
  | [] => ret tt
  | (id, r) :: l =>
      let* _ := map_err JE_Repository
                  (on_part (fun s => jw_conn (sc_world s)) (fun c s => put_world (put_job_conn c (sc_world s)) s)
                     (upsert_definition (env_now env i) (definition_of id r))) in
      let* _ := (fun s => (Ok tt, spawn_loop id r s)) in
      start_jobs env (S i) l
  end.

Definition start (env : Env) : StM Scheduler JobError unit := fun s =>
  start_jobs env 0 (map_to_list (sc_jobs s)) s.

(** ** Runs *)

Definition spawn (j : job) (run : Uuid) (triggered_by : TriggerSource) (s : Scheduler) : Scheduler :=
  put_tasks (sc_tasks s ++ [mkTask j run triggered_by P_Start]) s.

(** The timer of the loop of a periodic job. *)
Definition tick (id : string) (run : Uuid) (s : Scheduler) : Scheduler :=
  match sc_loops s !! id, sc_jobs s !! id with
  | Some L_Idle, Some r =>
      if rj_cancelled r then s
      else put_loops (<[id := L_Busy (length (sc_tasks s))]> (sc_loops s))
             (spawn (rj_job r) run TS_Schedule s)
  | _, _ => s
  end.

(** [trigger_job] up to its first suspension. *)
Definition trigger_job (id : string) (run : Uuid) (triggered_by : TriggerSource)
    : StM Scheduler JobError nat := fun s =>
  match sc_jobs s !! id with
  | Some r => (Ok (length (sc_tasks s)), spawn (rj_job r) run triggered_by s)
  | None => (Err (JE_NotFound id), s)
  end.

Definition cancel_job (id : string) : StM Scheduler JobError unit := fun s =>
  match sc_jobs s !! id with
  | Some r => (Ok tt, put_jobs (<[id := mkRegisteredJob (rj_job r) (rj_type r) true]> (sc_jobs s)) s)
  | None => (Err (JE_NotFound id), s)
  end.

Definition is_cancelled (id : string) (s : Scheduler) : bool :=
  match sc_jobs s !! id with Some r => rj_cancelled r | None => false end.

(** The loop that waited for task [i] goes on, or ends. *)
Definition after_run (shutdown panicked : bool) (i : nat) (l : LoopState) : LoopState :=
  match l with
  | L_Busy k => if Nat.eqb k i then (if shutdown || panicked then L_Stopped else L_Idle) else L_Busy k
  | l => l
  end.

Definition release (i : nat) (p : Phase) (s : Scheduler) : Scheduler :=
  match p with
  | P_Ended e =>
      let panicked := match e with JobPanicked => true | _ => false end in
      put_loops (after_run (sc_shutdown s) panicked i <$> sc_loops s) s
  | _ => s
  end.

Definition advance (i : nat) (env : Env) (s : Scheduler) : Scheduler :=
  match sc_tasks s !! i with
  | Some t =>
      let '(p, w) := run_step env (is_cancelled (job_id (tk_job t)) s) t (sc_world s) in
      release i p (put_tasks (<[i := put_phase p t]> (sc_tasks s)) (put_world w s))
  | None => s
  end.

(** The client of a request that waits for a run goes away; a periodic loop has none. *)
Definition disconnect (i : nat) (s : Scheduler) : Scheduler :=
  match sc_tasks s !! i with
  | Some t =>
      match tk_triggered_by t, tk_phase t with
      | TS_Schedule, _ | _, P_Ended _ => s
      | _, P_Start => put_tasks (<[i := put_phase (P_Ended (Dropped false)) t]> (sc_tasks s)) s
      | _, _ => put_tasks (<[i := put_phase (P_Ended (Dropped true)) t]> (sc_tasks s)) s
      end
  | None => s
  end.

(** [shutdown] sends to every loop; a loop that waits for its run stops after it. *)
Definition shutdown (s : Scheduler) : Scheduler :=
  mkScheduler (sc_jobs s) (sc_world s) (sc_tasks s)
    ((fun l => match l with L_Busy k => L_Busy k | _ => L_Stopped end) <$> sc_loops s) true.

(** A call of the repository from outside of the tasks. *)
Definition sched_repo {A} (m : JobOp A) : StM Scheduler DbError A :=
  on_part (fun s => jw_conn (sc_world s)) (fun c s => put_world (put_job_conn c (sc_world s)) s) m.

(** ** Health *)

Definition determine_health_state (last_run : option (JobRun V)) (consecutive_failures : Z)
    : HealthState :=
  match last_run with
  | None => HS_Healthy
  | Some run =>
      match jr_status run with
      | JS_Succeeded | JS_Running | JS_Cancelled => HS_Healthy
      | JS_Failed =>
          if (3 <=? consecutive_failures)%Z then HS_Unhealthy
          else if (1 <=? consecutive_failures)%Z then HS_Degraded
          else HS_Healthy
      end
  end.

Definition last_run_info (r : JobRun V) : LastRunInfo :=
  mkLastRunInfo (jr_id r) (jr_status r) (jr_started_at r) (jr_duration_ms r) (jr_error_message r).

(** A failing query counts as no run and no failure. *)
Definition job_status (id : string) : StM Scheduler DbError (option JobHealthStatus) := fun s =>
  match sc_jobs s !! id with
  | None => (Ok None, s)
  | Some r =>
      (let* last := attempt (E' := DbError) (sched_repo (get_last_run id)) in
       let* failures := attempt (E' := DbError) (sched_repo (count_consecutive_failures id)) in
       let last_run := match last with Ok o => o | Err _ => None end in
       let consecutive_failures := match failures with Ok n => n | Err _ => 0%Z end in
       ret (Some (mkJobHealthStatus id (job_name (rj_job r))
                    (determine_health_state last_run consecutive_failures)
                    (last_run_info <$> last_run) consecutive_failures))) s
  end.

Definition worse (worst : HealthState) (status : HealthState) : HealthState :=
  if bool_decide (status = HS_Unhealthy) then HS_Unhealthy
  else if bool_decide (status = HS_Degraded) && negb (bool_decide (worst = HS_Unhealthy))
  then HS_Degraded
  else worst.

Fixpoint health_loop (ids : list string) (worst : HealthState) (jobs : list JobHealthStatus)
    : StM Scheduler DbError JobsHealthStatus :=
  match ids with
  | [] => ret (mkJobsHealthStatus worst jobs)
  | id :: ids =>
      let* o := job_status id in
      match o with
      | Some status => health_loop ids (worse worst (jh_status status)) (jobs ++ [status])
      | None => health_loop ids worst jobs
      end
  end.

Definition health_status : StM Scheduler DbError JobsHealthStatus := fun s =>
  health_loop (job_ids s) HS_Healthy [] s.

(** * Interleavings *)

Inductive JobStep :=
| Tick (id : string) (run : Uuid)
| Trigger (id : string) (run : Uuid)
| Advance (i : nat) (env : Env)
| Disconnect (i : nat)
| Cancel (id : string)
| SetEnabled (id : string) (enabled : bool)
| Shutdown.

Definition job_step (st : JobStep) (s : Scheduler) : Scheduler :=
  match st with
  | Tick id run => tick id run s
  | Trigger id run => (trigger_job id run TS_Manual s).2
  | Advance i env => advance i env s
  | Disconnect i => disconnect i s
  | Cancel id => (cancel_job id s).2
  | SetEnabled id enabled => (sched_repo (job_set_enabled id enabled) s).2
  | Shutdown => shutdown s
  end.

Definition job_steps (l : list JobStep) (s : Scheduler) : Scheduler := fold_left (fun s st => job_step st s) l s.
End Scheduler.

Arguments Again {V}.
Arguments Finish {V} _ _ _ _.
Arguments NotStarted {V} _.
Arguments Recorded {V} _ _ _ _.
Arguments NotRecorded {V} _.
Arguments JobPanicked {V}.
Arguments Dropped {V} _.
Arguments P_Start {V}.
Arguments P_Attempt {V} _.
Arguments P_Sleep {V} _ _.
Arguments P_Record {V} _ _ _ _ _.
Arguments P_Ended {V} _.
Arguments mkTask {V W} _ _ _ _.
Arguments tk_job {V W} _.
Arguments tk_run {V W} _.
Arguments tk_triggered_by {V W} _.
Arguments tk_phase {V W} _.
Arguments put_phase {V W} _ _.
Arguments ended {V W} _.
Arguments mkScheduler {V W} _ _ _ _ _.
Arguments sc_jobs {V W} _.
Arguments sc_world {V W} _.
Arguments sc_tasks {V W} _.
Arguments sc_loops {V W} _.
Arguments sc_shutdown {V W} _.
