(* ===== verification/JobRuns.v ===== *)
(** Runs of background jobs: that a run, as the call [run_job_with_retry] and as a task of
    the scheduler, follows the policy for attempts, retries and records, that every run
    ends, and that the runs a loop starts do not overlap. *)
From stdpp Require Import base gmap list strings.
From Stdlib Require Import ZArith Lia.
From S2P Require Import Prelude CoreTypes Effects Sql Columns JobModel JobStore JobScheduler.

Section Runs.
Context `{JB : JobBackend} {V : Type} `{JV : !JsonColumn V} {W : Type}.
Implicit Types (t : Task (V := V) (W := W)) (w : JobWorld W) (p : Phase (V := V))
  (s : Scheduler (V := V) (W := W)).

(** * What a run is to do *)

(** What is stored of a run at its end and answered to the caller. *)
Record Outcome := mkOutcome {
  oc_status : JobStatus;
  oc_error : option string;
  oc_metadata : option V;
  oc_answer : result JobError string;
}.

Section Policy.
Context (env : RunEnv) (tokens : Z -> bool) (j : Job W V) (id : string) (src : TriggerSource).

(** The attempt after [n] retries: the job is called with the same run id, as a retry
    unless it is the first. *)
Definition tries (n : Z) w (r : result (Failure JobError) (JobOutput V)) w' : Prop :=
  job_run j (re_job env n)
    {| jc_run_id := id; jc_triggered_by := if (n =? 0)%Z then src else TS_Retry;
       jc_cancelled := tokens n |} w = (r, w').

(** The attempts from the one after [n] retries on, with the seconds between them, the
    number of the last one and the outcome; there is none when the job panics.  Only a
    failure that the job calls retryable is retried, at most three times. *)
Inductive attempts : Z -> JobWorld W -> list Z -> Z -> option Outcome -> JobWorld W -> Prop :=
| At_Succeeds n w w' out :
    tries n w (Ok out) w' ->
    attempts n w [] n (Some (mkOutcome JS_Succeeded None (jo_metadata out) (Ok id))) w'
| At_Cancelled n w w' :
    tries n w (Err (Failed JE_Cancelled)) w' ->
    attempts n w [] n (Some (mkOutcome JS_Cancelled None None (Err JE_Cancelled))) w'
| At_Again n w w1 msg ps k o w' :
    tries n w (Err (Failed (JE_Failed msg true))) w1 -> (n < 3)%Z ->
    attempts (n + 1) w1 ps k o w' ->
    attempts n w (2 ^ n :: ps)%Z k o w'
| At_Fails n w w' msg retryable :
    tries n w (Err (Failed (JE_Failed msg retryable))) w' -> retryable = false \/ n = 3%Z ->
    attempts n w [] n (Some (mkOutcome JS_Failed (Some msg) None (Err (JE_Failed msg retryable)))) w'
| At_Error n w w' e :
    tries n w (Err (Failed e)) w' -> e <> JE_Cancelled -> (forall msg b, e <> JE_Failed msg b) ->
    attempts n w [] n (Some (mkOutcome JS_Failed (Some (JobError_to_string e)) None (Err e))) w'
| At_Panics n w w' :
    tries n w (Err Panicked) w' -> attempts n w [] n None w'.

(** The next statement fails. *)
Definition down w : Prop := head (cn_faults (jw_conn w)) = Some true.

(** A statement that changes the table of runs and nothing else. *)
Definition runs_become (f : list RunRow -> list RunRow) w w' : Prop :=
  jt_runs (cn_tables (jw_conn w')) = f (jt_runs (cn_tables (jw_conn w)))
  /\ jt_definitions (cn_tables (jw_conn w')) = jt_definitions (cn_tables (jw_conn w))
  /\ cn_faults (jw_conn w') = drop 1 (cn_faults (jw_conn w))
  /\ jw_rest w' = jw_rest w.

(** The row of a run that begins. *)
Definition opening : RunRow := {|
  rw_id := id; rw_job_id := job_id j; rw_status := "running";
  rw_started_at := to_rfc3339 (re_started env); rw_completed_at := None; rw_duration_ms := None;
  rw_error_message := None; rw_retry_count := 0;
  rw_triggered_by := match src with
                     | TS_Schedule => "schedule" | TS_Manual => "manual" | TS_Retry => "retry"
                     end;
  rw_metadata := None |}.

(** The row of the run at its end; the other rows stay. *)
Definition closing (k : Z) (o : Outcome) (r : RunRow) : RunRow :=
  if String.eqb (rw_id r) id then {|
    rw_id := rw_id r; rw_job_id := rw_job_id r;
    rw_status := match oc_status o with
                 | JS_Succeeded => "succeeded" | JS_Cancelled => "cancelled"
                 | JS_Failed => "failed" | JS_Running => "running"
                 end;
    rw_started_at := rw_started_at r; rw_completed_at := Some (to_rfc3339 (re_completed env k));
    rw_duration_ms := julian_ms (to_rfc3339 (re_completed env k)) (rw_started_at r);
    rw_error_message := oc_error o; rw_retry_count := rw_retry_count r;
    rw_triggered_by := rw_triggered_by r; rw_metadata := to_json <$> oc_metadata o |}
  else r.

(** The run id is taken, or the job has no definition. *)
Definition barred w : Prop :=
  id ∈ rw_id <$> jt_runs (cn_tables (jw_conn w))
  \/ job_id j ∉ dw_id <$> jt_definitions (cn_tables (jw_conn w)).

(** After the last attempt. *)
Inductive finishes : Z -> option Outcome -> JobWorld W -> Ending (V := V) -> JobWorld W -> Prop :=
| F_Panicked k w : finishes k None w JobPanicked w
| F_Stored k o w w' :
    ~ down w -> runs_become (fmap (closing k o)) w w' ->
    finishes k (Some o) w (Recorded (oc_status o) (oc_error o) (oc_metadata o) (oc_answer o)) w'
| F_NotStored k o e w w' :
    down w -> runs_become (fun l => l) w w' -> finishes k (Some o) w (NotRecorded e) w'.

(** A whole run: the pauses in it, its end and its effect. *)
Inductive run_policy : JobWorld W -> list Z -> Ending (V := V) -> JobWorld W -> Prop :=
| R_NotStarted e w w' :
    down w \/ barred w -> runs_become (fun l => l) w w' -> run_policy w [] (NotStarted e) w'
| R_Started w w1 ps k o w2 e w' :
    ~ down w -> ~ barred w -> runs_become (fun l => l ++ [opening]) w w1 ->
    attempts 0 w1 ps k o w2 -> finishes k o w2 e w' ->
    run_policy w ps e w'.
End Policy.

(** * A task alone *)

(** The attempt a phase belongs to. *)
Definition retry_of p : Z :=
  match p with P_Attempt n | P_Sleep n _ | P_Record n _ _ _ _ => n | _ => 0%Z end.

(** The clock of a step of a run. *)
Definition env_of (env : RunEnv) p : Env :=
  match p with
  | P_Attempt n => re_job env n
  | P_Record n _ _ _ _ => mkEnv (fun _ => re_completed env n) (fun _ => 0%N)
  | _ => mkEnv (fun _ => re_started env) (fun _ => 0%N)
  end.

Definition sleep_of p : list Z := match p with P_Sleep _ secs => [secs] | _ => [] end.

(** A task that is advanced until the given number of steps is used up, and the seconds it
    sleeps. *)
Fixpoint alone (fuel : nat) (env : RunEnv) (tokens : Z -> bool) t w : list Z * (Phase * JobWorld W) :=
  match fuel with
  | O => (sleep_of (tk_phase t), (tk_phase t, w))
  | S fuel =>
      let n := retry_of (tk_phase t) in
      let '(p, w) := run_step (env_of env (tk_phase t)) (tokens n) t w in
      let r := alone fuel env tokens (put_phase p t) w in
      (sleep_of (tk_phase t) ++ r.1, r.2)
  end.

(** What the code that awaits the run sees. *)
Definition answer_of (e : Ending (V := V)) : result (Failure JobError) string :=
  match e with
  | NotStarted e | NotRecorded e => Err (Failed (JE_Repository e))
  | Recorded _ _ _ (Ok a) => Ok a
  | Recorded _ _ _ (Err e) => Err (Failed e)
  | JobPanicked | Dropped _ => Err Panicked
  end.

Lemma alone_ended fuel env tokens t w e :
  tk_phase t = P_Ended e -> alone fuel env tokens t w = ([], (P_Ended e, w)).
Proof.
  revert t w. induction fuel as [|fuel IH]; intros t w He; cbn; [by rewrite He|].
  unfold run_step. rewrite He. by rewrite IH.
Qed.

Lemma alone_S fuel env tokens t w :
  alone (S fuel) env tokens t w
  = let n := retry_of (tk_phase t) in
    let '(p, w) := run_step (env_of env (tk_phase t)) (tokens n) t w in
    let r := alone fuel env tokens (put_phase p t) w in (sleep_of (tk_phase t) ++ r.1, r.2).
Proof. done. Qed.

(** The first attempt writes the record; the rest of an attempt is the same for all. *)
Definition attempt_body (env : RunEnv) (tokens : Z -> bool) (j : Job W V) run_id triggered_by
    (fuel : nat) (n : Z) : JobM W JobError string :=
  let* r := attempt (job_run j (re_job env n) (run_context run_id triggered_by (tokens n) n)) in
  match settled r with
  | None => raise Panicked
  | Some r =>
      match verdict run_id n r with
      | Again => run_attempts env tokens j run_id triggered_by fuel (n + 1)
      | Finish status error metadata answer =>
          let* _ := jrepo (record_run_complete (re_completed env n) run_id status error metadata) in
          answered answer
      end
  end.

Lemma run_attempts_later env tokens j run_id src fuel n : (0 < n)%Z ->
  run_attempts env tokens j run_id src (S fuel) n = attempt_body env tokens j run_id src fuel n.
Proof. intros Hn. cbn. by rewrite (proj2 (Z.eqb_neq n 0)) by lia. Qed.

Lemma verdict_last run_id r n : (MAX_RETRIES <= n)%Z -> verdict (V := V) run_id n r <> Again.
Proof.
  intros Hn. unfold verdict. rewrite (proj2 (Z.ltb_ge n MAX_RETRIES) Hn), ?andb_false_r.
  by destruct r as [|[]]; rewrite ?andb_false_r.
Qed.

Lemma jrepo_run {A} (m : JobOp A) w :
  jrepo m w = match task_repo m w with
              | (Ok a, w) => (Ok a, w)
              | (Err e, w) => (Err (Failed (JE_Repository e)), w)
              end.
Proof. done. Qed.

(** The statement that opens the record of a run. *)
Lemma start_statement env j id src cancelled w :
  let '(r, w') := task_repo (record_run_start
    (started_run j (run_context id src cancelled 0) (re_started env) 0)) w in
  match r with
  | Ok _ => ~ down w /\ ~ barred j id w /\ runs_become (fun l => l ++ [opening env j id src]) w w'
  | Err _ => (down w \/ barred j id w) /\ runs_become (fun l => l) w w'
  end.
Proof.
  assert (Hrow : run_row (V := V) (started_run j (run_context id src cancelled 0) (re_started env) 0)
    = opening env j id src) by (by destruct src).
  unfold task_repo, on_part, record_run_start, sql, down, barred. rewrite Hrow. cbn [jr_id jr_job_id started_run run_context jc_run_id].
  destruct w as [[t fs] rest]. cbn [jw_conn cn_faults cn_tables].
  assert (Hrun : forall r, select_one (is_run id) (jt_runs t) = Some r -> id ∈ rw_id <$> jt_runs t).
  { intros r [Hr He]%select_one_Some. apply String.eqb_eq in He as <-. by apply list_elem_of_fmap_2. }
  assert (Hfree : select_one (is_run id) (jt_runs t) = None -> id ∉ rw_id <$> jt_runs t).
  { intros Hn (r & -> & Hr)%list_elem_of_fmap. apply select_one_None in Hn.
    assert (H := proj1 (Forall_forall _ _) Hn r Hr). cbn in H. unfold is_run in H.
    by rewrite String.eqb_refl in H. }
  assert (Hdef : forall d, select_one (is_definition (job_id j)) (jt_definitions t) = Some d ->
    job_id j ∈ dw_id <$> jt_definitions t).
  { intros d [Hd He]%select_one_Some. apply String.eqb_eq in He as <-. by apply list_elem_of_fmap_2. }
  assert (Hnodef : select_one (is_definition (job_id j)) (jt_definitions t) = None ->
    job_id j ∉ dw_id <$> jt_definitions t).
  { intros Hn (r & Hid & Hr)%list_elem_of_fmap. apply select_one_None in Hn.
    assert (H := proj1 (Forall_forall _ _) Hn r Hr). cbn in H. unfold is_definition in H.
    by rewrite Hid, String.eqb_refl in H. }
  destruct fs as [|[] fs]; cbn [head drop].
  2: { split; [by left|done]. }
  all: destruct (select_one (is_run id) (jt_runs t)) as [r|] eqn:Er;
    destruct (select_one (is_definition (job_id j)) (jt_definitions t)) as [d|] eqn:Ed.
  all: try (split; [right; first [left; by eapply Hrun|right; by apply Hnodef]|done]).
  all: split_and!; [done| |done]; intros [Hx|Hx];
    [by apply Hfree in Hx|apply Hx; by eapply Hdef].
Qed.

(** The statement that closes it. *)
Lemma complete_statement env id k o w :
  let '(r, w') := task_repo (record_run_complete (re_completed env k) id (oc_status o) (oc_error o)
                               (oc_metadata o)) w in
  match r with
  | Ok _ => ~ down w /\ runs_become (fmap (closing env id k o)) w w'
  | Err _ => down w /\ runs_become (fun l => l) w w'
  end.
Proof.
  unfold task_repo, on_part, record_run_complete, sql_write, sql, down. destruct w as [[t fs] rest].
  cbn [jw_conn cn_faults cn_tables].
  assert (Hrows : forall l, update_where (is_run id) (complete_row (re_completed env k) (oc_status o)
    (oc_error o) (oc_metadata o)) l = closing env id k o <$> l).
  { intros l. apply list_fmap_ext. intros _ r _. unfold closing, is_run. destruct (String.eqb _ _); [|done].
    unfold complete_row. by destruct (oc_status o). }
  destruct fs as [|[] fs]; cbn [head drop]; (split; [done|]); split_and!; try done; apply Hrows.
Qed.

Lemma record_alone env tokens j run src k n o w :
  exists e w', finishes env (uuid_text run) n (Some o) w e w'
    /\ alone (S k) env tokens (mkTask j run src (P_Record n (oc_status o) (oc_error o) (oc_metadata o)
         (oc_answer o))) w = ([], (P_Ended e, w'))
    /\ (let* _ := jrepo (record_run_complete (re_completed env n) (uuid_text run) (oc_status o) (oc_error o)
                           (oc_metadata o)) in answered (oc_answer o)) w = (answer_of e, w').
Proof.
  assert (Hst := complete_statement env (uuid_text run) n o w).
  rewrite alone_S. unfold run_step, bind. cbn [tk_phase retry_of env_of env_now]. rewrite jrepo_run.
  change (tk_run_id (mkTask _ run _ _)) with (uuid_text run).
  destruct (task_repo _ w) as [[a|e] w1]; destruct Hst.
  - exists (Recorded (oc_status o) (oc_error o) (oc_metadata o) (oc_answer o)), w1.
    split_and!; [by apply F_Stored|by erewrite alone_ended by reflexivity|by destruct (oc_answer o)].
  - exists (NotRecorded e), w1. split_and!; [by apply F_NotStored|by erewrite alone_ended by reflexivity|done].
Qed.

(** The context of an attempt is the promised one, and the verdict on its result too. *)
Lemma tries_run env tokens j id src n w r w' : (0 <= n)%Z ->
  job_run j (re_job env n) (run_context id src (tokens n) n) w = (r, w') ->
  tries env tokens j id src n w r w'.
Proof.
  intros Hn H. unfold tries. unfold run_context in H. destruct (Z.eqb_spec n 0) as [->|]; [done|].
  by rewrite (proj2 (Z.ltb_lt 0 n)) in H by lia.
Qed.

Lemma verdict_finish env tokens j id src n w r r' w' status error metadata answer :
  (n <= 3)%Z -> tries env tokens j id src n w r w' -> settled r = Some r' ->
  verdict id n r' = Finish status error metadata answer ->
  attempts env tokens j id src n w [] n (Some (mkOutcome status error metadata answer)) w'.
Proof.
  intros Hn Ht Hs Hv. destruct r as [out|[e|]]; [| |done]; injection Hs as <-; cbn in Hv.
  - injection Hv as <- <- <- <-. by constructor.
  - destruct e as [msg []| | | |]; cbn [andb] in Hv.
    + destruct (Z.ltb_spec n MAX_RETRIES) as [|Hm]; [done|]. injection Hv as <- <- <- <-.
      apply At_Fails; [done|right]. unfold MAX_RETRIES in Hm. lia.
    + injection Hv as <- <- <- <-. apply At_Fails; [done|by left].
    + injection Hv as <- <- <- <-. by constructor.
    + injection Hv as <- <- <- <-. by apply (At_Error _ _ _ _ _ _ _ _ (JE_Database _)).
    + injection Hv as <- <- <- <-. by apply (At_Error _ _ _ _ _ _ _ _ (JE_Repository _)).
    + injection Hv as <- <- <- <-. by apply (At_Error _ _ _ _ _ _ _ _ (JE_NotFound _)).
Qed.

Lemma verdict_again (id : string) (n : Z) (r : result JobError (JobOutput V)) :
  verdict id n r = Again -> (n < 3)%Z /\ exists msg, r = Err (JE_Failed msg true).
Proof.
  destruct r as [|[msg []| | | |]]; cbn; try done.
  destruct (Z.ltb_spec n MAX_RETRIES); [|done]. by eauto.
Qed.

(** The pauses double: one second, two and four. *)
Lemma backoff_doubles n : (0 <= n < 3)%Z -> calculate_backoff_delay (n + 1) = (2 ^ n)%Z.
Proof. intros H. assert (n = 0 \/ n = 1 \/ n = 2)%Z as [-> | [-> | ->]] by lia; reflexivity. Qed.

(** From an attempt on, [fuel] of them being left after it. *)
Lemma attempts_alone env tokens j run src fuel n w :
  (0 <= n)%Z -> Z.of_nat fuel = (MAX_RETRIES - n)%Z ->
  exists ps k o w1 e w',
    attempts env tokens j (uuid_text run) src n w ps k o w1
    /\ finishes env (uuid_text run) k o w1 e w'
    /\ alone (2 * fuel + 2) env tokens (mkTask j run src (P_Attempt n)) w = (ps, (P_Ended e, w'))
    /\ attempt_body env tokens j (uuid_text run) src fuel n w = (answer_of e, w').
Proof.
  revert n w. induction fuel as [fuel IH] using lt_wf_ind. intros n w H0 Hn.
  replace (2 * fuel + 2) with (S (S (2 * fuel))) by lia.
  rewrite alone_S. unfold run_step, attempt_body, bind, attempt. cbn [tk_phase retry_of env_of env_now tk_job tk_triggered_by].
  change (tk_run_id (mkTask j run src (P_Attempt n))) with (uuid_text run).
  destruct (job_run j (re_job env n) _ w) as [r w1] eqn:Hr.
  apply tries_run in Hr; [|done].
  destruct (settled r) as [r'|] eqn:Hs.
  2: { assert (r = Err Panicked) as -> by (by destruct r as [|[]]).
       exists [], n, None, w1, JobPanicked, w1. split_and!; [by constructor|by constructor| |done].
       by erewrite alone_ended by reflexivity. }
  destruct (verdict (uuid_text run) n r') as [|status error metadata answer] eqn:Hv.
  2: { destruct (record_alone env tokens j run src (2 * fuel) n (mkOutcome status error metadata answer) w1)
         as (e & w' & Hf & Ha & Hb).
       exists [], n, (Some (mkOutcome status error metadata answer)), w1, e, w'. split_and!; [|done|exact (f_equal (fun x => ([] ++ x.1, x.2)) Ha)|done].
       eapply verdict_finish; [|done..]. unfold MAX_RETRIES in Hn. lia. }
  destruct fuel as [|fuel]; [exfalso; apply (verdict_last (uuid_text run) r' n); [lia|done]|].
  destruct (verdict_again _ _ _ Hv) as [Hlt [msg ->]].
  assert (r = Err (Failed (JE_Failed msg true))) as ->.
  { by destruct r as [|[]]; cbn in Hs; simplify_eq. }
  rewrite run_attempts_later by lia.
  destruct (IH fuel ltac:(lia) (n + 1)%Z w1) as (ps & k & o & w2 & e & w' & Hat & Hf & Ha & Hb); [lia|lia|].
  exists (2 ^ n :: ps)%Z, k, o, w2, e, w'. split_and!; [by eapply At_Again|done| |done].
  replace (S (2 * S fuel)) with (S (2 * fuel + 2)) by lia. rewrite alone_S.
  rewrite backoff_doubles by lia. exact (f_equal (fun x => ([] ++ (2 ^ n)%Z :: x.1, x.2)) Ha).
Qed.

(** C33. A run of a job does what is promised, whether it is taken as the call
    [run_job_with_retry] or as the steps of its task, of which nine end it.  A row
    "running" is stored first, unless the statement fails, the id is taken or the job has no
    definition, and then the job is not run at all; a success is stored as succeeded with its
    metadata, a cancellation as cancelled, any other end as failed with its message; only a
    failure the job calls retryable is tried again, after one, two and four seconds and with
    the same run id, and the fourth failure is final; the caller gets the run id of a success
    and the error otherwise, and a job that panics leaves its row running. *)
Theorem run_follows_policy env tokens j run src w :
  exists ps e w',
    run_policy env tokens j (uuid_text run) src w ps e w'
    /\ run_job_with_retry env tokens j (uuid_text run) src w = (answer_of e, w')
    /\ alone 9 env tokens (mkTask j run src P_Start) w = (ps, (P_Ended e, w')).
Proof.
  assert (Hst := start_statement env j (uuid_text run) src (tokens 0%Z) w).
  rewrite alone_S. unfold run_job_with_retry, run_step. cbn [tk_phase retry_of env_of env_now tk_job tk_triggered_by].
  change (run_attempts env tokens j (uuid_text run) src (S (Z.to_nat MAX_RETRIES)) 0 w)
    with ((let* _ := jrepo (record_run_start (started_run j (run_context (uuid_text run) src (tokens 0%Z) 0)
                              (re_started env) 0)) in
           attempt_body env tokens j (uuid_text run) src 3 0) w).
  unfold bind at 1. rewrite jrepo_run. change (tk_run_id (mkTask _ run _ _)) with (uuid_text run).
  destruct (task_repo _ w) as [[a|e] w1].
  - destruct Hst as (Hd & Hb & Ho).
    destruct (attempts_alone env tokens j run src 3 0 w1) as (ps & k & o & w2 & e & w' & Hat & Hf & Ha & Hc);
      [lia|done|].
    exists ps, e, w'. split_and!; [by eapply R_Started|done|].
    exact (f_equal (fun x => ([] ++ x.1, x.2)) Ha).
  - destruct Hst as [Hd Hf]. exists [], (NotStarted e), w1.
    split_and!; [by constructor|done|by erewrite alone_ended by reflexivity].
Qed.

(** * Every run ends *)

(** The steps that are left at most. *)
Definition rank p : nat :=
  match p with
  | P_Start => 9
  | P_Attempt n => 2 * Z.to_nat (MAX_RETRIES - n) + 2
  | P_Sleep n _ => 2 * Z.to_nat (MAX_RETRIES - n) + 3
  | P_Record _ _ _ _ _ => 1
  | P_Ended _ => 0
  end.

Definition phase_ok p : Prop := (0 <= retry_of p <= MAX_RETRIES)%Z.

Lemma run_step_rank env cancelled t w :
  phase_ok (tk_phase t) ->
  phase_ok (run_step env cancelled t w).1
  /\ rank (run_step env cancelled t w).1 <= rank (tk_phase t) - 1.
Proof.
  unfold run_step, phase_ok. destruct (tk_phase t) as [|n|n d|n status error metadata answer|e]; intros Hn;
    cbn [retry_of] in Hn.
  - destruct (task_repo _ w) as [[]]; cbn [fst retry_of rank]; unfold MAX_RETRIES in *; lia.
  - destruct (job_run _ _ _ w) as [r w1].
    destruct (settled r) as [r'|]; [|cbn [fst retry_of rank]; unfold MAX_RETRIES in *; lia].
    destruct (verdict _ n r') eqn:Hv; [|cbn [fst retry_of rank]; lia].
    assert (n <> MAX_RETRIES) by (intros ->; exact (verdict_last _ _ MAX_RETRIES ltac:(done) Hv)).
    cbn [fst retry_of rank]. lia.
  - cbn [fst retry_of rank]. lia.
  - destruct (task_repo _ w) as [[]]; cbn [fst retry_of rank]; unfold MAX_RETRIES in *; lia.
  - cbn [fst retry_of rank]. lia.
Qed.

Definition advances (i : nat) (st : JobStep) : bool :=
  match st with Advance k _ => Nat.eqb k i | _ => false end.

Lemma release_tasks i p s : sc_tasks (release i p s) = sc_tasks s.
Proof. by destruct p. Qed.

Lemma step_rank st s i t : sc_tasks s !! i = Some t -> phase_ok (tk_phase t) ->
  exists t', sc_tasks (job_step st s) !! i = Some t' /\ phase_ok (tk_phase t')
    /\ rank (tk_phase t') <= rank (tk_phase t) - (if advances i st then 1 else 0).
Proof.
  intros Ht Hok. assert (Hself : exists t', sc_tasks s !! i = Some t' /\ phase_ok (tk_phase t')
    /\ rank (tk_phase t') <= rank (tk_phase t) - 0) by (exists t; split_and!; [done|done|lia]).
  assert (Hnew : forall j run src, exists t', (sc_tasks s ++ [mkTask j run src P_Start]) !! i = Some t'
    /\ phase_ok (tk_phase t') /\ rank (tk_phase t') <= rank (tk_phase t) - 0).
  { intros j run src. exists t. rewrite lookup_app_l by (by eapply lookup_lt_Some).
    split_and!; [done|done|lia]. }
  destruct st as [id run|id run|k env|k|id|id b|]; cbn [job_step advances].
  - unfold tick. destruct (sc_loops s !! id) as [[]|]; try done. destruct (sc_jobs s !! id) as [r|]; [|done].
    destruct (rj_cancelled r); [done|]. apply Hnew.
  - unfold trigger_job. destruct (sc_jobs s !! id); [apply Hnew|done].
  - unfold advance. destruct (Nat.eqb_spec k i) as [->|Hk].
    + rewrite Ht. destruct (run_step_rank env (is_cancelled (job_id (tk_job t)) s) t (sc_world s) Hok) as [H1 H2].
      destruct (run_step _ _ t (sc_world s)) as [p w]. rewrite release_tasks. cbn in *.
      exists (put_phase p t). split_and!; [|done|done].
      apply list_lookup_insert_eq. by eapply lookup_lt_Some.
    + destruct (sc_tasks s !! k) as [t0|]; [|done]. destruct (run_step _ _ t0 _) as [p w].
      rewrite release_tasks. cbn. by rewrite list_lookup_insert_ne.
  - unfold disconnect. destruct (sc_tasks s !! k) as [t0|] eqn:Hk; [|done].
    assert (Hend : forall b, exists t', <[k:=put_phase (P_Ended (Dropped b)) t0]> (sc_tasks s) !! i = Some t'
      /\ phase_ok (tk_phase t') /\ rank (tk_phase t') <= rank (tk_phase t) - 0).
    { intros b. destruct (decide (k = i)) as [->|].
      - exists (put_phase (P_Ended (Dropped b)) t0). rewrite list_lookup_insert_eq by (by eapply lookup_lt_Some).
        split_and!; [done|cbn; unfold phase_ok, MAX_RETRIES; cbn; lia|cbn; lia].
      - by rewrite list_lookup_insert_ne. }
    destruct (tk_triggered_by t0), (tk_phase t0); try done; apply Hend.
  - unfold cancel_job. by destruct (sc_jobs s !! id).
  - unfold sched_repo, on_part. by destruct (job_set_enabled id b _).
  - done.
Qed.

Lemma steps_rank l s i t : sc_tasks s !! i = Some t -> phase_ok (tk_phase t) ->
  exists t', sc_tasks (job_steps l s) !! i = Some t' /\ phase_ok (tk_phase t')
    /\ rank (tk_phase t') <= rank (tk_phase t) - length (List.filter (advances i) l).
Proof.
  revert s t. induction l as [|st l IH]; intros s t Ht Hok; cbn.
  - exists t. split_and!; [done|done|lia].
  - destruct (step_rank st s i t Ht Hok) as (t1 & Ht1 & Hok1 & Hr1).
    destruct (IH _ _ Ht1 Hok1) as (t2 & Ht2 & Hok2 & Hr2). exists t2. split_and!; [done|done|].
    destruct (advances i st); cbn; lia.
Qed.

(** A task that a step adds. *)
Lemma step_new st s i t : sc_tasks s !! i = None -> sc_tasks (job_step st s) !! i = Some t ->
  tk_phase t = P_Start.
Proof.
  intros Hn. assert (Hnew : forall j run src, (sc_tasks s ++ [mkTask j run src P_Start]) !! i = Some t ->
    tk_phase t = P_Start).
  { intros j run src [H|[_ H]]%lookup_app_Some; [congruence|].
    by apply list_lookup_singleton_Some in H as [_ <-]. }
  assert (Hins : forall k t0, <[k:=t0]> (sc_tasks s) !! i = Some t -> tk_phase t = P_Start).
  { intros k t0 H. exfalso. apply lookup_lt_Some in H. rewrite length_insert in H.
    apply lookup_ge_None in Hn. lia. }
  destruct st as [id run|id run|k env|k|id|id b|]; cbn [job_step].
  - unfold tick. destruct (sc_loops s !! id) as [[]|]; try congruence.
    destruct (sc_jobs s !! id) as [r|]; [|congruence]. destruct (rj_cancelled r); [congruence|]. apply Hnew.
  - unfold trigger_job. destruct (sc_jobs s !! id); [apply Hnew|cbn; congruence].
  - unfold advance. destruct (sc_tasks s !! k) as [t0|]; [|congruence].
    destruct (run_step _ _ t0 _) as [p w]. rewrite release_tasks. apply Hins.
  - unfold disconnect. destruct (sc_tasks s !! k) as [t0|]; [|congruence].
    destruct (tk_triggered_by t0), (tk_phase t0); cbn; try congruence; apply Hins.
  - unfold cancel_job. destruct (sc_jobs s !! id); cbn; congruence.
  - unfold sched_repo, on_part. destruct (job_set_enabled id b _); cbn; congruence.
  - cbn. congruence.
Qed.

Lemma steps_phase_ok l s :
  (forall i t, sc_tasks s !! i = Some t -> phase_ok (tk_phase t)) ->
  forall i t, sc_tasks (job_steps l s) !! i = Some t -> phase_ok (tk_phase t).
Proof.
  revert s. induction l as [|st l IH]; intros s Hok; cbn; [done|]. apply IH. intros i t Ht.
  destruct (sc_tasks s !! i) as [t0|] eqn:Hi.
  - destruct (step_rank st s i t0 Hi (Hok _ _ Hi)) as (t' & Ht' & Hok' & _). congruence.
  - rewrite (step_new st s i t Hi Ht). unfold phase_ok, MAX_RETRIES. cbn. lia.
Qed.

(** Every run ends: whatever else happens in between, nine steps of a run's own bring it to
    its end, however often its job fails and whichever statements fail. *)
Theorem runs_end l1 l2 s i t :
  sc_tasks s = [] -> sc_tasks (job_steps l1 s) !! i = Some t ->
  9 <= length (List.filter (advances i) l2) ->
  exists t', sc_tasks (job_steps (l1 ++ l2) s) !! i = Some t' /\ ended t' = true.
Proof.
  intros H0 Ht Hl. assert (Hok : phase_ok (tk_phase t)).
  { apply (steps_phase_ok l1 s) with i; [|done]. intros k t0. by rewrite H0. }
  destruct (steps_rank l2 _ i t Ht Hok) as (t' & Ht' & _ & Hr).
  exists t'. unfold job_steps in *. rewrite fold_left_app. split; [done|].
  assert (rank (tk_phase t) <= 9).
  { unfold phase_ok in Hok. destruct (tk_phase t); cbn [rank retry_of] in *; unfold MAX_RETRIES in *; lia. }
  unfold ended. destruct (tk_phase t'); cbn [rank] in *; lia || done.
Qed.
(** * Scheduled runs do not overlap *)

(** The loop of a job waits for the scheduled run that is under way. *)
Definition loops_ok s : Prop :=
  (forall i t, sc_tasks s !! i = Some t -> tk_triggered_by t = TS_Schedule -> ended t = false ->
     sc_loops s !! job_id (tk_job t) = Some (L_Busy i))
  /\ map_Forall (fun id r => job_id (rj_job r) = id) (sc_jobs s).

Lemma ended_put p t : ended (put_phase p t) = match p with P_Ended _ => true | _ => false end.
Proof. done. Qed.

Lemma release_loops i p s k id : k <> i -> sc_loops s !! id = Some (L_Busy k) ->
  sc_loops (release i p s) !! id = Some (L_Busy k).
Proof.
  intros Hk Hl. destruct p; try done. cbn. rewrite lookup_fmap, Hl. cbn.
  by rewrite (proj2 (Nat.eqb_neq k i)).
Qed.

Lemma advance_loops i env s : loops_ok s -> loops_ok (advance i env s).
Proof.
  intros [H Hj]. unfold advance. destruct (sc_tasks s !! i) as [t|] eqn:Hi; [|done].
  assert (He : ended t = true -> ended (put_phase (run_step env (is_cancelled (job_id (tk_job t)) s) t
    (sc_world s)).1 t) = true).
  { unfold ended, run_step. by destruct (tk_phase t). }
  destruct (run_step _ _ t (sc_world s)) as [p w]. cbn [fst] in He.
  split; [|by destruct p]. intros k t' Hk Hs Hl. rewrite release_tasks in Hk. cbn in Hk.
  destruct (decide (i = k)) as [<-|Hne].
  - rewrite list_lookup_insert_eq in Hk by (by eapply lookup_lt_Some). injection Hk as <-.
    cbn in Hs |- *. assert (Hb : ended t = false).
    { destruct (ended t) eqn:Et; [|done]. by rewrite He in Hl. }
    specialize (H i t Hi Hs Hb). rewrite ended_put in Hl. by destruct p.
  - rewrite list_lookup_insert_ne in Hk by done. apply release_loops; [done|]. by apply H.
Qed.

Lemma spawn_loops j run src s :
  (forall t i, sc_tasks (spawn j run src s) !! i = Some t ->
     sc_tasks s !! i = Some t \/ (i = length (sc_tasks s) /\ t = mkTask j run src P_Start)).
Proof.
  intros t i [Ht|[Hi Ht]]%lookup_app_Some; [by left|right].
  apply list_lookup_singleton_Some in Ht as [? <-]. split; [lia|done].
Qed.

Lemma step_loops st s : loops_ok s -> loops_ok (job_step st s).
Proof.
  intros [H Hj]. destruct st as [id run|id run|i env|i|id|id b|]; cbn [job_step].
  - unfold tick. destruct (sc_loops s !! id) as [[]|] eqn:Hl; try done.
    destruct (sc_jobs s !! id) as [r|] eqn:Hr; [|done]. destruct (rj_cancelled r); [done|].
    assert (Hid := Hj _ _ Hr). cbn in Hid. split; [|done]. intros i t Ht Hs He. cbn.
    apply spawn_loops in Ht as [Ht|[-> ->]]; cbn in *.
    + assert (Hb := H i t Ht Hs He). rewrite lookup_insert_ne; [done|]. intros ->. congruence.
    + by rewrite Hid, lookup_insert_eq.
  - unfold trigger_job. destruct (sc_jobs s !! id) as [r|]; [|done]. split; [|done].
    intros i t Ht Hs He. apply spawn_loops in Ht as [Ht|[-> ->]]; [by apply H|done].
  - by apply advance_loops.
  - unfold disconnect. destruct (sc_tasks s !! i) as [t|] eqn:Hi; [|done].
    assert (Hput : forall e, tk_triggered_by t <> TS_Schedule ->
      loops_ok (put_tasks (<[i := put_phase (P_Ended e) t]> (sc_tasks s)) s)).
    { intros e Hm. split; [|done]. intros k t' Hk Hs He. cbn in Hk. destruct (decide (i = k)) as [<-|Hne].
      - rewrite list_lookup_insert_eq in Hk by (by eapply lookup_lt_Some). by injection Hk as <-.
      - rewrite list_lookup_insert_ne in Hk by done. by apply H. }
    destruct (tk_triggered_by t) eqn:Hs, (tk_phase t); try done; by apply Hput.
  - unfold cancel_job. destruct (sc_jobs s !! id) as [r|] eqn:Hr; [|done]. split; [done|]. cbn.
    apply map_Forall_insert_2; [|done]. exact (Hj _ _ Hr).
  - unfold sched_repo, on_part. by destruct (job_set_enabled id b _).
  - split; [|done]. intros i t Ht Hs He. cbn in *. rewrite lookup_fmap, (H i t Ht Hs He). done.
Qed.

Lemma steps_loops l s : loops_ok s -> loops_ok (job_steps l s).
Proof. revert s. induction l as [|st l IH]; intros s H; [done|]. by apply IH, step_loops. Qed.

(** Two scheduled runs of a job are never under way at the same time. *)
Lemma scheduled_runs_apart l s i k t u :
  sc_tasks s = [] -> map_Forall (fun id r => job_id (rj_job r) = id) (sc_jobs s) ->
  sc_tasks (job_steps l s) !! i = Some t -> sc_tasks (job_steps l s) !! k = Some u ->
  tk_triggered_by t = TS_Schedule -> tk_triggered_by u = TS_Schedule ->
  job_id (tk_job t) = job_id (tk_job u) -> ended t = false -> ended u = false -> i = k.
Proof.
  intros H0 Hj Ht Hu St Su E Et Eu. destruct (steps_loops l s) as [H _].
  { split; [|done]. intros n v. by rewrite H0. }
  assert (H1 := H i t Ht St Et). assert (H2 := H k u Hu Su Eu). congruence.
Qed.
(** * Cancelling is for good *)

Lemma release_jobs i p s : sc_jobs (release i p s) = sc_jobs s.
Proof. by destruct p. Qed.

Lemma step_cancelled st s id : is_cancelled id s = true -> is_cancelled id (job_step st s) = true.
Proof.
  unfold is_cancelled. intros H. destruct st as [id' run|id' run|i env|i|id'|id' b|]; cbn [job_step].
  - unfold tick. destruct (sc_loops s !! id') as [[]|]; try done. destruct (sc_jobs s !! id') as [r|]; [|done].
    by destruct (rj_cancelled r).
  - unfold trigger_job. by destruct (sc_jobs s !! id').
  - unfold advance. destruct (sc_tasks s !! i) as [t|]; [|done]. destruct (run_step _ _ t _) as [p w].
    by rewrite release_jobs.
  - unfold disconnect. destruct (sc_tasks s !! i) as [t|]; [|done].
    by destruct (tk_triggered_by t), (tk_phase t).
  - unfold cancel_job. destruct (sc_jobs s !! id') as [r|] eqn:Hr; [|done]. cbn.
    destruct (decide (id' = id)) as [->|]; [by rewrite lookup_insert_eq|by rewrite lookup_insert_ne].
  - unfold sched_repo, on_part. by destruct (job_set_enabled id' b _).
  - done.
Qed.

(** The token is never reset: once cancelled, the timer of a job starts no run any more. *)
Lemma cancel_is_final l s id run :
  is_cancelled id s = true -> tick id run (job_steps l s) = job_steps l s.
Proof.
  intros H. assert (Hl : is_cancelled id (job_steps l s) = true).
  { revert s H. induction l as [|st l IH]; intros s H; [done|]. by apply IH, step_cancelled. }
  revert Hl. generalize (job_steps l s). intros s' Hl. unfold is_cancelled, tick in *.
  destruct (sc_loops s' !! id) as [[]|]; try done. destruct (sc_jobs s' !! id) as [r|]; [|done]. by rewrite Hl.
Qed.
End Runs.
