(* ===== verification/JobHistory.v ===== *)
(** The history of background jobs: whatever runs at the same time and whichever statements
    fail, the table of runs tells of each run what happened to it. *)
From stdpp Require Import base gmap list strings.
From Stdlib Require Import ZArith Lia.
From S2P Require Import Prelude CoreTypes Effects Sql Columns JobModel JobStore.
From S2P Require Import JobScheduler JobRuns.

Definition job_tables {W} (w : JobWorld W) : JobTables := cn_tables (jw_conn w).
Definition rows_with (id : string) (tb : JobTables) : list RunRow :=
  select_where (is_run id) (jt_runs tb).

(** Only rows of complete runs disappear. *)
Definition drops_complete (l l' : list RunRow) : Prop :=
  exists p, l' = delete_where p l /\ forall r, p r = true -> rw_completed_at r <> None.

Lemma drops_none l : drops_complete l l.
Proof.
  exists (fun _ => false). split; [|done]. symmetry. apply delete_where_none. by apply Forall_true.
Qed.

Lemma drops_same l l' : l' = l -> drops_complete l l'.
Proof. intros ->. apply drops_none. Qed.

Lemma drops_rows id tb tb' : drops_complete (jt_runs tb) (jt_runs tb') ->
  drops_complete (rows_with id tb) (rows_with id tb').
Proof.
  intros (p & E & Hp). exists p. split; [|done]. unfold rows_with. by rewrite E, select_where_delete_comm.
Qed.

Section History.
Context `{JB : JobBackend} {V : Type} `{JV : !JsonColumn V} {W : Type}.
Implicit Types (t : Task (V := V) (W := W)) (w : JobWorld W) (s : Scheduler (V := V) (W := W)).

(** A job that leaves the tables of jobs alone, or forgets complete runs. *)
Definition tidy (j : Job W V) : Prop := forall env ctx w,
  jt_definitions (job_tables (job_run j env ctx w).2) = jt_definitions (job_tables w)
  /\ drops_complete (jt_runs (job_tables w)) (jt_runs (job_tables (job_run j env ctx w).2)).

(** * What the history says *)

(** Whose it is and who asked for it; retries are not counted. *)
Definition of_task t (r : RunRow) : Prop :=
  rw_id r = tk_run_id t /\ rw_job_id r = job_id (tk_job t) /\ rw_retry_count r = 0%Z
  /\ rw_triggered_by r = TriggerSource_as_str (tk_triggered_by t).

Definition open_row t (r : RunRow) : Prop :=
  of_task t r /\ rw_status r = "running" /\ rw_completed_at r = None
  /\ rw_error_message r = None /\ rw_metadata r = None.

Definition closed_row t status error (metadata : option V) (r : RunRow) : Prop :=
  of_task t r /\ rw_status r = JobStatus_as_str status /\ (exists u, rw_completed_at r = Some u)
  /\ rw_error_message r = error /\ rw_metadata r = to_json <$> metadata.

(** The rows of a task: none before its start is recorded, a running one until its end is
    recorded, and then one with its outcome until it is forgotten. *)
Definition recorded t (rows : list RunRow) : Prop :=
  match tk_phase t with
  | P_Start | P_Ended (NotStarted _) | P_Ended (Dropped false) => rows = []
  | P_Ended (Recorded status error metadata _) =>
      rows = [] \/ exists r, rows = [r] /\ closed_row t status error metadata r
  | _ => exists r, rows = [r] /\ open_row t r
  end.

Lemma recorded_drops t l l' : drops_complete l l' -> recorded t l -> recorded t l'.
Proof.
  intros (p & -> & Hp). assert (Hopen : (exists r, l = [r] /\ open_row t r) ->
    exists r, delete_where p l = [r] /\ open_row t r).
  { intros (r & -> & Hr). exists r. split; [|done]. apply delete_where_none. constructor; [|done].
    destruct (p r) eqn:E; [|done]. by destruct (Hp r E), Hr as (_ & _ & ? & _). }
  unfold recorded. destruct (tk_phase t) as [|n|n d|n ? ? ? ?|[]]; try done; try (by intros ->).
  - intros [->|(r & -> & Hr)]; [by left|]. unfold delete_where. cbn.
    destruct (p r); [by left|right]. by exists r.
  - by destruct opened; [|intros ->].
Qed.

(** * One step of a task *)

(** Of the rows that are not a task's, a step of it only forgets complete ones. *)
Lemma task_repo_tables {A} (m : JobOp A) w :
  job_tables (task_repo m w).2 = cn_tables (m (jw_conn w)).2.
Proof. unfold task_repo, on_part. by destruct (m (jw_conn w)). Qed.

Lemma is_run_ne id id' r : id <> id' -> is_run id' r = true -> is_run id r = false.
Proof. unfold is_run. intros H E%String.eqb_eq. apply String.eqb_neq. congruence. Qed.

Lemma complete_rows_other id id' now status error (metadata : option V) l : id <> id' ->
  select_where (is_run id) (update_where (is_run id') (complete_row now status error metadata) l)
  = select_where (is_run id) l.
Proof.
  intros H. apply select_where_update. intros r _ Hr.
  split; apply (is_run_ne id id'); try done. 
Qed.

Lemma start_tables (r : JobRun V) w :
  let '(x, w') := task_repo (record_run_start r) w in
  match x with
  | Ok _ => job_tables w' = put_runs (jt_runs (job_tables w) ++ [run_row r]) (job_tables w)
  | Err _ => job_tables w' = job_tables w
  end.
Proof.
  unfold task_repo, on_part, record_run_start, sql, job_tables. 
  destruct (select_one (is_run (jr_id r)) _); [|destruct (select_one (is_definition (jr_job_id r)) _)];
    by destruct (cn_faults (jw_conn w)) as [|[]].
Qed.

Lemma complete_tables now id status error (metadata : option V) w :
  let '(x, w') := task_repo (record_run_complete now id status error metadata) w in
  match x with
  | Ok _ => job_tables w' = put_runs (update_where (is_run id) (complete_row now status error metadata)
                                        (jt_runs (job_tables w))) (job_tables w)
  | Err _ => job_tables w' = job_tables w
  end.
Proof.
  unfold task_repo, on_part, record_run_complete, sql_write, sql, job_tables.
  by destruct (cn_faults (jw_conn w)) as [|[]].
Qed.

Lemma run_step_others env cancelled t w id : tidy (tk_job t) -> id <> tk_run_id t ->
  drops_complete (rows_with id (job_tables w)) (rows_with id (job_tables (run_step env cancelled t w).2)).
Proof.
  intros Hj Hid. unfold run_step. destruct (tk_phase t) as [|n|n d|n status error metadata answer|e].
  - assert (H := start_tables (started_run (tk_job t)
      (run_context (tk_run_id t) (tk_triggered_by t) cancelled 0) (env_now env 0) 0) w).
    destruct (task_repo _ w) as [[a|e] w1]; cbn in H |- *; rewrite H; apply drops_same; [|done].
    unfold rows_with. cbn. apply select_where_snoc. unfold is_run. cbn. apply String.eqb_neq. congruence.
  - destruct (Hj env (run_context (tk_run_id t) (tk_triggered_by t) cancelled n) w) as [_ H].
    destruct (job_run _ _ _ w) as [r w1]. cbn in H. apply (drops_rows id) in H.
    destruct (settled r); [|done]. by destruct (verdict _ n r0).
  - apply drops_none.
  - assert (H := complete_tables (env_now env 0) (tk_run_id t) status error metadata w).
    destruct (task_repo _ w) as [[a|e] w1]; cbn in H |- *; rewrite H; apply drops_same; [|done].
    unfold rows_with. cbn. by apply complete_rows_other.
  - apply drops_none.
Qed.

Lemma run_step_own env cancelled t w : tidy (tk_job t) ->
  recorded t (rows_with (tk_run_id t) (job_tables w)) ->
  recorded (put_phase (run_step env cancelled t w).1 t)
    (rows_with (tk_run_id t) (job_tables (run_step env cancelled t w).2)).
Proof.
  intros Hj. unfold run_step, recorded at 1. destruct (tk_phase t) as [|n|n d|n status error metadata answer|e] eqn:Hp.
  - intros H0. assert (H := start_tables (started_run (tk_job t)
      (run_context (tk_run_id t) (tk_triggered_by t) cancelled 0) (env_now env 0) 0) w).
    destruct (task_repo _ w) as [[a|e] w1]; cbn in H |- *; rewrite H; cbn; [|done].
    unfold rows_with in *. cbn. rewrite select_where_snoc_in, H0 by apply String.eqb_refl.
    eexists. split; [done|]. by split_and!.
  - intros H0. destruct (Hj env (run_context (tk_run_id t) (tk_triggered_by t) cancelled n) w) as [_ H].
    destruct (job_run _ _ _ w) as [r w1]. cbn in H. apply (drops_rows (tk_run_id t)) in H.
    assert (H1 := recorded_drops (put_phase (P_Attempt n) t) _ _ H H0).
    destruct (settled r); [|done]. by destruct (verdict _ n r0).
  - done.
  - intros (r & Hr & Hopen).
    assert (H := complete_tables (env_now env 0) (tk_run_id t) status error metadata w).
    destruct (task_repo _ w) as [[a|e] w1]; cbn in H |- *; rewrite H.
    + right. unfold rows_with. cbn. rewrite select_where_update_same by done. 
      fold (rows_with (tk_run_id t) (job_tables w)). rewrite Hr. eexists. split; [done|].
      destruct Hopen as (Hof & _). split_and!; [exact Hof|done|by eexists|done|done].
    + exists r. by split.
  - cbn. done.
Qed.

(** * Every interleaving *)

Definition sched_tables s : JobTables := job_tables (sc_world s).

Definition history_ok s : Prop :=
  NoDup (tk_run <$> sc_tasks s)
  /\ Forall (fun t => tidy (tk_job t) /\ recorded t (rows_with (tk_run_id t) (sched_tables s))) (sc_tasks s)
  /\ map_Forall (fun _ r => tidy (rj_job r)) (sc_jobs s).

(** An identifier that no task and no row has. *)
Definition unused (u : Uuid) s : Prop :=
  u ∉ tk_run <$> sc_tasks s /\ rows_with (uuid_text u) (sched_tables s) = [].

(** The identifiers that a step takes. *)
Definition spawns (st : JobStep) : list Uuid :=
  match st with Tick _ run | Trigger _ run => [run] | _ => [] end.

Lemma spawn_history j run src s : tidy j -> unused run s -> history_ok s ->
  history_ok (spawn j run src s).
Proof.
  intros Hj [Hu Hrows] (Hnd & Hall & Hjobs). split_and!; [| |done]; cbn.
  - rewrite fmap_app, NoDup_app. split_and!; [done| |by apply NoDup_singleton].
    intros u H1 H2%list_elem_of_singleton. by subst.
  - apply Forall_app. split; [done|]. by constructor.
Qed.

Lemma spawn_unused u j run src s : u <> run -> unused u s -> unused u (spawn j run src s).
Proof.
  intros Hu [H1 H2]. split; [|done]. cbn. rewrite fmap_app, elem_of_app.
  intros [?|?%list_elem_of_singleton]; [done|by subst].
Qed.

(** Steps that leave the rows of runs as they are. *)
Lemma history_same s s' : sc_tasks s' = sc_tasks s -> jt_runs (sched_tables s') = jt_runs (sched_tables s) ->
  map_Forall (fun _ r => tidy (rj_job r)) (sc_jobs s') -> history_ok s -> history_ok s'.
Proof.
  intros Ht Hr Hj (Hnd & Hall & _). unfold history_ok, rows_with in *. by rewrite Ht, Hr.
Qed.

Lemma unused_same u s s' : sc_tasks s' = sc_tasks s ->
  jt_runs (sched_tables s') = jt_runs (sched_tables s) -> unused u s -> unused u s'.
Proof. intros Ht Hr. unfold unused, rows_with. by rewrite Ht, Hr. Qed.

Lemma job_set_enabled_runs id b s :
  jt_runs (sched_tables (sched_repo (job_set_enabled id b) s).2) = jt_runs (sched_tables s).
Proof.
  unfold sched_repo, on_part, job_set_enabled, bind, sql_write, sql, sched_tables, job_tables.
  destruct (cn_faults _) as [|[]]; cbn; try done; by destruct (Nat.eqb _ 0).
Qed.

Lemma release_tables i p s : sched_tables (release i p s) = sched_tables s.
Proof. by destruct p. Qed.

(** One task moves on, the rows of the others stay but for complete ones. *)
Lemma move_history i t p s s' : sc_tasks s !! i = Some t ->
  sc_tasks s' = <[i := put_phase p t]> (sc_tasks s) -> sc_jobs s' = sc_jobs s ->
  (forall id, id <> tk_run_id t ->
     drops_complete (rows_with id (sched_tables s)) (rows_with id (sched_tables s'))) ->
  recorded (put_phase p t) (rows_with (tk_run_id t) (sched_tables s')) ->
  history_ok s -> history_ok s'.
Proof.
  intros Hi Ht Hj Hothers Hown (Hnd & Hall & Hjobs). unfold history_ok. rewrite Ht, Hj.
  assert (Hsame : tk_run <$> <[i := put_phase p t]> (sc_tasks s) = tk_run <$> sc_tasks s).
  { rewrite list_fmap_insert. apply list_insert_id. by rewrite list_lookup_fmap, Hi. }
  split_and!; [by rewrite Hsame| |done]. apply Forall_lookup. intros k t' Hk.
  destruct (decide (i = k)) as [<-|Hne].
  - rewrite list_lookup_insert_eq in Hk by (by eapply lookup_lt_Some). injection Hk as <-.
    split; [|exact Hown]. exact (proj1 (Forall_lookup_1 _ _ _ _ Hall Hi)).
  - rewrite list_lookup_insert_ne in Hk by done. destruct (Forall_lookup_1 _ _ _ _ Hall Hk) as [H1 H2].
    split; [done|]. eapply recorded_drops; [|exact H2]. apply Hothers. intros E%uuid_text_inj.
    apply Hne. apply (NoDup_lookup (tk_run <$> sc_tasks s) i k (tk_run t) Hnd);
      rewrite list_lookup_fmap, ?Hi, ?Hk; cbn; by f_equal.
Qed.

Lemma advance_history i env s : history_ok s -> history_ok (advance i env s).
Proof.
  intros H. unfold advance. destruct (sc_tasks s !! i) as [t|] eqn:Hi; [|done].
  destruct H as (Hnd & Hall & Hjobs). assert (Ht := Forall_lookup_1 _ _ _ _ Hall Hi). destruct Ht as [Hj Hr].
  assert (Hothers := fun id => run_step_others env (is_cancelled (job_id (tk_job t)) s) t (sc_world s) id Hj).
  assert (Hown := run_step_own env (is_cancelled (job_id (tk_job t)) s) t (sc_world s) Hj Hr).
  destruct (run_step _ _ t (sc_world s)) as [p w]. cbn in Hothers, Hown.
  apply (move_history i t p s); [done|by rewrite release_tasks|by rewrite release_jobs| | |done].
  - intros id. rewrite release_tables. apply Hothers.
  - by rewrite release_tables.
Qed.

Lemma disconnect_history i s : history_ok s -> history_ok (disconnect i s).
Proof.
  intros H. unfold disconnect. destruct (sc_tasks s !! i) as [t|] eqn:Hi; [|done].
  assert (Hr : recorded t (rows_with (tk_run_id t) (sched_tables s))).
  { destruct H as (_ & Hall & _). apply (Forall_lookup_1 _ _ _ _ Hall Hi). }
  unfold recorded in Hr.
  destruct (tk_triggered_by t), (tk_phase t) as [|n|n d|n ? ? ? ?|e]; try done;
    (eapply (move_history i t _ s); [done|done|done|intros id _; apply drops_none|exact Hr|done]).
Qed.

Lemma step_history st s : Forall (fun u => unused u s) (spawns st) -> history_ok s ->
  history_ok (job_step st s).
Proof.
  intros Hu H. assert (Hjobs := proj2 (proj2 H)).
  destruct st as [id run|id run|i env|i|id|id b|]; cbn [job_step spawns] in *.
  - apply Forall_cons in Hu as [Hu _]. unfold tick. destruct (sc_loops s !! id) as [[]|]; try done.
    destruct (sc_jobs s !! id) as [r|] eqn:Hr; [|done]. destruct (rj_cancelled r); [done|].
    apply (history_same (spawn (rj_job r) run TS_Schedule s)); [done|done|done|].
    apply spawn_history; [|done|done]. exact (Hjobs _ _ Hr).
  - apply Forall_cons in Hu as [Hu _]. unfold trigger_job. destruct (sc_jobs s !! id) as [r|] eqn:Hr; [|done].
    apply spawn_history; [|done|done]. exact (Hjobs _ _ Hr).
  - by apply advance_history.
  - by apply disconnect_history.
  - unfold cancel_job. destruct (sc_jobs s !! id) as [r|] eqn:Hr; [|done].
    apply (history_same s); [done|done| |done]. cbn. apply map_Forall_insert_2; [|done].
    exact (Hjobs _ _ Hr).
  - apply (history_same s); [| | |done].
    + unfold sched_repo, on_part. by destruct (job_set_enabled id b _).
    + apply job_set_enabled_runs.
    + unfold sched_repo, on_part. by destruct (job_set_enabled id b _).
  - by apply (history_same s).
Qed.

Lemma drops_nil l' : drops_complete [] l' -> l' = [].
Proof. by intros (p & -> & _). Qed.

Lemma step_unused st s u : history_ok s -> u ∉ spawns st -> unused u s -> unused u (job_step st s).
Proof.
  intros (Hnd & Hall & Hjobs) Hn Hu.
  destruct st as [id run|id run|i env|i|id|id b|]; cbn [job_step spawns] in *.
  - unfold tick. destruct (sc_loops s !! id) as [[]|]; try done. destruct (sc_jobs s !! id) as [r|]; [|done].
    destruct (rj_cancelled r); [done|]. apply (unused_same u (spawn (rj_job r) run TS_Schedule s)); [done|done|].
    apply spawn_unused; [set_solver|done].
  - unfold trigger_job. destruct (sc_jobs s !! id) as [r|]; [|done]. apply spawn_unused; [set_solver|done].
  - unfold advance. destruct (sc_tasks s !! i) as [t|] eqn:Hi; [|done]. destruct Hu as [H1 H2].
    assert (Hj := proj1 (Forall_lookup_1 _ _ _ _ Hall Hi)).
    assert (Hne : uuid_text u <> tk_run_id t).
    { intros ->%uuid_text_inj. apply H1, list_elem_of_fmap. exists t. split; [done|].
      by eapply list_elem_of_lookup_2. }
    assert (Hothers := run_step_others env (is_cancelled (job_id (tk_job t)) s) t (sc_world s) _ Hj Hne).
    destruct (run_step _ _ t (sc_world s)) as [p w]. cbn in Hothers. split.
    + rewrite release_tasks. cbn. rewrite list_fmap_insert, list_insert_id; [done|].
      by rewrite list_lookup_fmap, Hi.
    + rewrite release_tables. unfold sched_tables in H2. rewrite H2 in Hothers. by apply drops_nil.
  - unfold disconnect. destruct (sc_tasks s !! i) as [t|] eqn:Hi; [|done].
    assert (Hput : forall p, unused u (put_tasks (<[i := put_phase p t]> (sc_tasks s)) s)).
    { intros p. destruct Hu as [H1 H2]. split; [|done]. cbn. rewrite list_fmap_insert, list_insert_id; [done|].
      by rewrite list_lookup_fmap, Hi. }
    by destruct (tk_triggered_by t), (tk_phase t).
  - unfold cancel_job. destruct (sc_jobs s !! id); [|done]. by apply (unused_same u s).
  - apply (unused_same u s); [|apply job_set_enabled_runs|done].
    unfold sched_repo, on_part. by destruct (job_set_enabled id b _).
  - by apply (unused_same u s).
Qed.

Lemma steps_history l s : NoDup (l ≫= spawns) -> Forall (fun u => unused u s) (l ≫= spawns) ->
  history_ok s -> history_ok (job_steps l s).
Proof.
  revert s. induction l as [|st l IH]; intros s Hnd Hu H; cbn in *; [done|].
  apply Forall_app in Hu as [Hu1 Hu2]. apply NoDup_app in Hnd as (_ & Hdis & Hnd).
  apply IH; [done| |by apply step_history].
  rewrite Forall_forall in Hu2 |- *. intros u Hin. apply step_unused; [done| |by apply Hu2].
  intros Hin'. by apply (Hdis u).
Qed.

(** C32. The history is true.  However ticks, manual triggers, cancellations, disconnecting clients,
    retries and failing statements interleave, the table of runs has of every run exactly
    what happened to it: no row before its start is written, then one row that says it is
    running, and once its end is written the status, the error and the metadata of its last
    attempt, until the row is forgotten.  A row that stays at running is of a run whose
    end could not be written, whose job panicked or whose client went away. *)
Theorem history_truthful l s :
  sc_tasks s = [] -> map_Forall (fun _ r => tidy (rj_job r)) (sc_jobs s) ->
  NoDup (l ≫= spawns) ->
  Forall (fun u => rows_with (uuid_text u) (sched_tables s) = []) (l ≫= spawns) ->
  Forall (fun t => recorded t (rows_with (tk_run_id t) (sched_tables (job_steps l s))))
    (sc_tasks (job_steps l s)).
Proof.
  intros Ht Hj Hnd Hrows. destruct (steps_history l s) as (_ & Hall & _); [done| |by unfold history_ok; rewrite Ht; split_and!; [apply NoDup_nil_2|..]|].
  - eapply Forall_impl; [exact Hrows|]. intros u Hu. split; [|done]. rewrite Ht. apply not_elem_of_nil.
  - eapply Forall_impl; [exact Hall|]. by intros t [_ ?].
Qed.
End History.
