(* ===== verification/JobHealth.v ===== *)
(** The health of background jobs: the query that counts failures in a row, the state of a
    job and the state of all of them, against what the latest runs say. *)
From stdpp Require Import base gmap list strings.
From Stdlib Require Import ZArith Lia.
From S2P Require Import Prelude CoreTypes Effects Sql Columns JobModel JobStore.
From S2P Require Import JobScheduler JobHistory.

(** * Failures in a row *)

(** The failed rows at the start of a list. *)
Fixpoint streak (l : list RunRow) : nat :=
  match l with
  | r :: l => if is_failed r then S (streak l) else 0
  | [] => 0
  end.

Definition rank_from (k : nat) (l : list RunRow) : list (nat * RunRow) :=
  imap (fun i r => (S (k + i), r)) l.

Lemma rank_from_cons k r l : rank_from k (r :: l) = (S k, r) :: rank_from (S k) l.
Proof.
  unfold rank_from. rewrite imap_cons. f_equal; [by rewrite Nat.add_0_r|].
  apply imap_ext. intros i x _. cbn. by rewrite Nat.add_succ_r.
Qed.

Lemma rank_from_ge k l p : p ∈ rank_from k l -> k < p.1.
Proof. intros (i & r & -> & _)%elem_of_lookup_imap. cbn. lia. Qed.

Lemma foldr_min_least n ns : Forall (fun x => n <= x) ns -> foldr Nat.min n ns = n.
Proof. induction 1 as [|x ns Hx _ IH]; cbn; [done|]. rewrite IH. lia. Qed.

Lemma first_not_failed_rank k l :
  first_not_failed (rank_from k l) = if forallb is_failed l then None else Some (S (k + streak l)).
Proof.
  revert k. induction l as [|r l IH]; intros k; [done|]. rewrite rank_from_cons.
  unfold first_not_failed in *. cbn. destruct (is_failed r); cbn.
  - rewrite IH. destruct (forallb is_failed l); [done|]. f_equal. lia.
  - rewrite foldr_min_least; [f_equal; lia|]. apply Forall_forall.
    intros x (p & -> & Hp)%list_elem_of_fmap.
    apply list_elem_of_In, List.filter_In in Hp as [Hp%list_elem_of_In _].
    apply rank_from_ge in Hp. lia.
Qed.

Lemma failures_within_rank k l :
  length (List.filter (fun p => is_failed p.2 && (p.1 <=? k + streak l)) (rank_from k l)) = streak l.
Proof.
  revert k. induction l as [|r l IH]; intros k; [done|]. rewrite rank_from_cons.
  cbn [List.filter streak fst snd]. destruct (is_failed r); cbn [andb].
  - rewrite (proj2 (Nat.leb_le _ _)) by lia. cbn [length]. f_equal.
    replace (k + S (streak l)) with (S k + streak l) by lia. apply IH.
  - assert (H : forall p, p ∈ rank_from (S k) l -> is_failed p.2 && (p.1 <=? k + 0) = false).
    { intros p Hp%rank_from_ge. rewrite (proj2 (Nat.leb_gt _ _)) by lia. apply andb_false_r. }
    generalize dependent (rank_from (S k) l). intros ps H. induction ps as [|p ps IHp]; [done|].
    cbn. rewrite H by left. apply IHp. intros q Hq. apply H. by right.
Qed.

Lemma streak_all l : forallb is_failed l = true -> streak l = length l.
Proof. induction l as [|r l IH]; cbn; [done|]. destruct (is_failed r); cbn; [|done]. intros H. by rewrite IH. Qed.

Section Health.
Context `{JB : JobBackend} {V : Type} `{JV : !JsonColumn V} {W : Type}.
Implicit Types (s : Scheduler (V := V) (W := W)).

Lemma failures_before_streak id tb : failures_before (ranked id tb) = streak (runs_of id tb).
Proof.
  unfold failures_before, ranked. change (imap _ (runs_of id tb)) with (rank_from 0 (runs_of id tb)).
  rewrite first_not_failed_rank. etransitivity; [|exact (failures_within_rank 0 (runs_of id tb))].
  destruct (forallb is_failed (runs_of id tb)) eqn:H.
  - rewrite (streak_all _ H). replace (length (rank_from 0 (runs_of id tb))) with (length (runs_of id tb)); [done|].
    symmetry. apply length_imap.
  - cbn [Nat.add]. by rewrite Nat.sub_succ, Nat.sub_0_r.
Qed.

(** * The state of a job *)

(** From the statuses of its latest runs, the last one first. *)
Definition health_spec (l : list RunRow) : HealthState :=
  match l with
  | [] => HS_Healthy
  | a :: l =>
      if is_failed a then
        match l with
        | b :: c :: _ => if is_failed b && is_failed c then HS_Unhealthy else HS_Degraded
        | _ => HS_Degraded
        end
      else HS_Healthy
  end.

Lemma health_streak l : (3 <= streak l -> health_spec l = HS_Unhealthy)
  /\ (1 <= streak l < 3 -> health_spec l = HS_Degraded)
  /\ (streak l = 0 -> health_spec l = HS_Healthy).
Proof.
  destruct l as [|a [|b [|c l]]]; cbn; try destruct (is_failed a); cbn; try destruct (is_failed b); cbn;
    try destruct (is_failed c); cbn; split_and!; try lia; done.
Qed.

Definition readable (r : RunRow) : Prop := exists run : JobRun V, run_of_row r = Ok run.

Lemma readable_all (l : list RunRow) :
  forallb (fun r => match run_of_row (V := V) r with Ok _ => true | Err _ => false end) l = true ->
  Forall readable l.
Proof.
  induction l as [|r l IH]; cbn; [done|]. intros [Hr Hl]%andb_prop. constructor; [|by apply IH].
  unfold readable. destruct (run_of_row r) as [run|]; [by exists run|done].
Qed.

Lemma status_failed r (run : JobRun V) : run_of_row r = Ok run ->
  is_failed r = bool_decide (jr_status run = JS_Failed).
Proof.
  unfold run_of_row. intros (st & _ & H)%bind_Ok. apply bind_Ok in H as (co & _ & H).
  apply bind_Ok in H as (status & Hs & H). apply bind_Ok in H as (tr & _ & H). injection H as <-. cbn.
  unfold is_failed. unfold JobStatus_from_str in Hs.
  repeat case_bool_decide; simplify_eq/=; try done; 
    destruct (String.eqb_spec (rw_status r) "failed"); congruence.
Qed.

Definition calm_jobs s : Prop := healthy (jw_conn (sc_world s)).

Lemma calm_read {A} (f : JobTables -> A) s : calm_jobs s ->
  sched_repo (sql_read DE_Sqlx f) s = (Ok (f (sched_tables s)), s).
Proof.
  unfold calm_jobs, healthy, sched_repo, on_part, sql_read, sql, sched_tables, job_tables.
  destruct s as [jobs [[tb fs] rest] tasks loops sh]. cbn. by intros ->.
Qed.

Lemma sched_repo_bind {A B} (m : JobOp A) (f : A -> JobOp B) s :
  sched_repo (bind m f) s = bind (sched_repo m) (fun a => sched_repo (f a)) s.
Proof.
  unfold sched_repo, on_part, bind. destruct (m _) as [[a|e] c]; [|done]. cbn.
  by destruct (f a c) as [r c'].
Qed.

Lemma calm_last_run id s : calm_jobs s ->
  sched_repo (get_last_run id) s = (optional_run (head (runs_of id (sched_tables s))), s).
Proof.
  intros H. unfold get_last_run. rewrite sched_repo_bind. unfold bind. rewrite calm_read by done.
  unfold sched_repo, on_part, of_result. destruct s as [jobs [conn rest] tasks loops sh]. cbn.
  do 2 f_equal. unfold sql_limit. cbn. by destruct (runs_of id _).
Qed.

(** The health of a registered job, read without a failing statement. *)
Definition reports_health s (id : string) (st : JobHealthStatus) : Prop :=
  jh_job_id st = id /\ jh_status st = health_spec (runs_of id (sched_tables s))
  /\ jh_consecutive_failures st = Z.of_nat (streak (runs_of id (sched_tables s)))
  /\ (lr_run_id <$> jh_last_run st) = (rw_id <$> head (runs_of id (sched_tables s))).

Lemma run_of_row_id r (run : JobRun V) : run_of_row r = Ok run -> jr_id run = rw_id r.
Proof.
  unfold run_of_row. intros (st & _ & H)%bind_Ok. apply bind_Ok in H as (co & _ & H).
  apply bind_Ok in H as (status & _ & H). apply bind_Ok in H as (tr & _ & H). by injection H as <-.
Qed.

Lemma determine_streak (last : option (JobRun V)) l :
  match last, l with
  | None, [] => True
  | Some run, r :: _ => run_of_row r = Ok run
  | _, _ => False
  end -> determine_health_state last (Z.of_nat (streak l)) = health_spec l.
Proof.
  intros H. destruct (health_streak l) as (H3 & H1 & H0).
  destruct last as [run|], l as [|r l]; try done. cbn [determine_health_state].
  apply status_failed in H. destruct (jr_status run);
    first [rewrite bool_decide_eq_false_2 in H by done|rewrite bool_decide_eq_true_2 in H by done];
    try (symmetry; apply H0; cbn; by rewrite H).
  assert (Hp : 1 <= streak (r :: l)) by (cbn; rewrite H; lia).
  destruct (Z.leb_spec 3 (Z.of_nat (streak (r :: l)))) as [E|E]; [symmetry; apply H3; lia|].
  rewrite (proj2 (Z.leb_le 1 _)) by lia. symmetry. apply H1. lia.
Qed.

Lemma calm_job_status id s : calm_jobs s -> is_Some (sc_jobs s !! id) ->
  Forall readable (runs_of id (sched_tables s)) ->
  (Z.of_nat (length (runs_of id (sched_tables s))) < 2 ^ 32)%Z ->
  exists st, job_status id s = (Ok (Some st), s) /\ reports_health s id st.
Proof.
  intros Hc [r Hr] Hread Hlen. unfold job_status. rewrite Hr. unfold bind, attempt.
  rewrite calm_last_run by done. cbn. unfold count_consecutive_failures. rewrite calm_read by done.
  rewrite failures_before_streak.
  assert (Hs : streak (runs_of id (sched_tables s)) <= length (runs_of id (sched_tables s))).
  { generalize (runs_of id (sched_tables s)). intros l. induction l as [|x l IH]; cbn; [done|].
    destruct (is_failed x); lia. }
  assert (Hw : wrap_u32 (Z.of_nat (streak (runs_of id (sched_tables s))))
               = Z.of_nat (streak (runs_of id (sched_tables s)))).
  { unfold wrap_u32. apply Z.mod_small. lia. }
  rewrite Hw. eexists. split; [done|]. unfold reports_health. cbn [jh_job_id jh_status jh_consecutive_failures jh_last_run].
  destruct (runs_of id (sched_tables s)) as [|x l]; cbn [head optional_run transpose].
  - split_and!; done.
  - apply Forall_cons in Hread as [[run Hrun] _]. rewrite Hrun.
    split_and!; [done|by apply determine_streak|done|]. cbn. by rewrite (run_of_row_id _ _ Hrun).
Qed.

(** * All jobs *)

Definition worst_of (l : list HealthState) : HealthState :=
  if bool_decide (HS_Unhealthy ∈ l) then HS_Unhealthy
  else if bool_decide (HS_Degraded ∈ l) then HS_Degraded
  else HS_Healthy.

Lemma worse_snoc l h : worse (worst_of l) h = worst_of (l ++ [h]).
Proof.
  unfold worst_of, worse.
  destruct h; repeat case_bool_decide; cbn; try done; set_solver.
Qed.

Lemma calm_health_loop ids s done_ : calm_jobs s ->
  Forall (fun id => is_Some (sc_jobs s !! id) /\ Forall readable (runs_of id (sched_tables s))
                    /\ (Z.of_nat (length (runs_of id (sched_tables s))) < 2 ^ 32)%Z) ids ->
  exists jobs, health_loop ids (worst_of (jh_status <$> done_)) done_ s
    = (Ok (mkJobsHealthStatus (worst_of (jh_status <$> done_ ++ jobs)) (done_ ++ jobs)), s)
    /\ Forall2 (reports_health s) ids jobs.
Proof.
  intros Hc. revert done_. induction ids as [|id ids IH]; intros done_ H; cbn.
  - exists []. by rewrite app_nil_r.
  - apply Forall_cons in H as [(Hj & Hr & Hl) H].
    destruct (calm_job_status id s Hc Hj Hr Hl) as (st & Hst & Hrep).
    unfold bind. rewrite Hst. rewrite worse_snoc.
    destruct (IH (done_ ++ [st]) H) as (jobs & Hrun & Hall). rewrite fmap_app in Hrun. cbn in Hrun.
    exists (st :: jobs). rewrite Hrun, <- app_assoc. split; [done|]. by constructor.
Qed.

(** C34. The reported health is the health the latest runs have: a job is unhealthy when its last
    three runs failed, degraded when its last run failed and not all of those, and healthy
    otherwise; the failures in a row are counted from its last run back; and the server is
    as unhealthy as its worst job.  Whether a job is enabled has no part in it, although the
    rules for the health make a disabled job degraded ([JobCases.disabled_job_healthy]). *)
Theorem health_reported s :
  calm_jobs s ->
  Forall readable (jt_runs (sched_tables s)) -> (Z.of_nat (length (jt_runs (sched_tables s))) < 2 ^ 32)%Z ->
  exists jobs,
    health_status s = (Ok (mkJobsHealthStatus (worst_of (jh_status <$> jobs)) jobs), s)
    /\ Forall2 (reports_health s) (job_ids s) jobs.
Proof.
  intros Hc Hread Hlen. apply (calm_health_loop (job_ids s) s []); [done|].
  apply Forall_forall. intros id ([k r] & -> & Hr%elem_of_map_to_list)%list_elem_of_fmap.
  assert (Hperm : runs_of k (sched_tables s) ≡ₚ select_where (of_job k) (jt_runs (sched_tables s)))
    by apply order_by_perm.
  split_and!; [by eexists| |]; cbn.
  - rewrite Hperm. apply Forall_forall. intros x [Hx _]%elem_of_select_where.
    exact (proj1 (Forall_forall _ _) Hread x Hx).
  - rewrite Hperm. eapply Z.le_lt_trans; [|exact Hlen]. apply Nat2Z.inj_le. apply List.filter_length_le.
Qed.
End Health.
