(* ===== verification/CronModel.v ===== *)
(** Cron monitors, the data of [crates/loom-crons-core] and schedule.rs of
    [crates/loom-server-crons]: monitors, check-ins, statistics, stream events, and the
    time of the next expected run.

    An identifier ([MonitorId], [CheckInId], [OrgId]) is its UUID; a time is a number of
    nanoseconds. *)
From stdpp Require Import base gmap list strings pretty.
From Stdlib Require Import ZArith Lia Ascii.
From S2P Require Import Prelude Text CoreTypes Sql Columns.

(** * checkin.rs *)

Inductive CheckInStatus := CI_InProgress | CI_Ok | CI_Error | CI_Missed | CI_Timeout.
#[export] Instance CheckInStatus_eq_dec : EqDecision CheckInStatus.
Proof. solve_decision. Defined.

Definition CheckInStatus_to_string (s : CheckInStatus) : string :=
  match s with
  | CI_InProgress => "in_progress" | CI_Ok => "ok" | CI_Error => "error"
  | CI_Missed => "missed" | CI_Timeout => "timeout"
  end.

Definition CheckInStatus_from_str (s : string) : option CheckInStatus :=
  if String.eqb s "in_progress" then Some CI_InProgress
  else if String.eqb s "ok" then Some CI_Ok
  else if String.eqb s "error" then Some CI_Error
  else if String.eqb s "missed" then Some CI_Missed
  else if String.eqb s "timeout" then Some CI_Timeout
  else None.

Inductive CheckInSource := CS_Ping | CS_Sdk | CS_Manual | CS_System.
#[export] Instance CheckInSource_eq_dec : EqDecision CheckInSource.
Proof. solve_decision. Defined.

Definition CheckInSource_to_string (s : CheckInSource) : string :=
  match s with
  | CS_Ping => "ping" | CS_Sdk => "sdk" | CS_Manual => "manual" | CS_System => "system"
  end.

Definition CheckInSource_from_str (s : string) : option CheckInSource :=
  if String.eqb s "ping" then Some CS_Ping
  else if String.eqb s "sdk" then Some CS_Sdk
  else if String.eqb s "manual" then Some CS_Manual
  else if String.eqb s "system" then Some CS_System
  else None.

Record CheckIn := mkCheckIn {
  ci_id : Uuid;
  ci_monitor_id : Uuid;
  ci_status : CheckInStatus;
  ci_started_at : option Z;
  ci_finished_at : Z;
  ci_duration_ms : option Z;
  ci_environment : option string;
  ci_release : option string;
  ci_exit_code : option Z;
  ci_output : option string;
  ci_crash_event_id : option string;
  ci_source : CheckInSource;
  ci_created_at : Z;
}.

Definition MAX_OUTPUT_BYTES : nat := N.to_nat (10 * 1024).

(** The indices of the characters of a text with their lengths: [char_indices]. *)
Fixpoint char_indices_fuel (fuel i : nat) (s : string) : list (nat * nat) :=
  match fuel, s with
  | S fuel, String _ _ =>
      let n := (utf8_head s).2 in (i, n) :: char_indices_fuel fuel (i + n) (str_drop n s)
  | _, _ => []
  end.
Definition char_indices (s : string) : list (nat * nat) :=
  char_indices_fuel (String.length s) 0 s.

Definition truncate_output (output : string) : run string :=
  if (String.length output <=? MAX_OUTPUT_BYTES)%nat then Done output
  else
    truncated ← slice_to output MAX_OUTPUT_BYTES;
    let valid_len :=
      match last (filter (fun c => c.1 <= MAX_OUTPUT_BYTES) (char_indices truncated)) with
      | Some (i, n) => i + n
      | None => 0
      end in
    kept ← slice_to output valid_len;
    Done (kept +:+ "...[truncated]").

(** * monitor.rs *)

Inductive MonitorStatus := MS_Active | MS_Paused | MS_Disabled.
#[export] Instance MonitorStatus_eq_dec : EqDecision MonitorStatus.
Proof. solve_decision. Defined.

Definition MonitorStatus_to_string (s : MonitorStatus) : string :=
  match s with MS_Active => "active" | MS_Paused => "paused" | MS_Disabled => "disabled" end.

Definition MonitorStatus_from_str (s : string) : option MonitorStatus :=
  if String.eqb s "active" then Some MS_Active
  else if String.eqb s "paused" then Some MS_Paused
  else if String.eqb s "disabled" then Some MS_Disabled
  else None.

Inductive MonitorHealth := MH_Healthy | MH_Failing | MH_Missed | MH_Timeout | MH_Unknown.
#[export] Instance MonitorHealth_eq_dec : EqDecision MonitorHealth.
Proof. solve_decision. Defined.

Definition MonitorHealth_to_string (h : MonitorHealth) : string :=
  match h with
  | MH_Healthy => "healthy" | MH_Failing => "failing" | MH_Missed => "missed"
  | MH_Timeout => "timeout" | MH_Unknown => "unknown"
  end.

Definition MonitorHealth_from_str (s : string) : option MonitorHealth :=
  if String.eqb s "healthy" then Some MH_Healthy
  else if String.eqb s "failing" then Some MH_Failing
  else if String.eqb s "missed" then Some MH_Missed
  else if String.eqb s "timeout" then Some MH_Timeout
  else if String.eqb s "unknown" then Some MH_Unknown
  else None.

Inductive MonitorSchedule :=
| Sched_Cron (expression : string)
| Sched_Interval (minutes : Z).
#[export] Instance MonitorSchedule_eq_dec : EqDecision MonitorSchedule.
Proof. solve_decision. Defined.

Definition schedule_type (s : MonitorSchedule) : string :=
  match s with Sched_Cron _ => "cron" | Sched_Interval _ => "interval" end.

Definition schedule_value (s : MonitorSchedule) : string :=
  match s with
  | Sched_Cron expression => expression
  | Sched_Interval minutes => pretty (Z.to_N minutes)
  end.

Record Monitor := mkMonitor {
  mo_id : Uuid;
  mo_org_id : Uuid;
  mo_slug : string;
  mo_name : string;
  mo_description : option string;
  mo_status : MonitorStatus;
  mo_health : MonitorHealth;
  mo_schedule : MonitorSchedule;
  mo_timezone : string;
  mo_checkin_margin_minutes : Z;
  mo_max_runtime_minutes : option Z;
  mo_ping_key : string;
  mo_environments : list string;
  mo_last_checkin_at : option Z;
  mo_last_checkin_status : option CheckInStatus;
  mo_next_expected_at : option Z;
  mo_consecutive_failures : Z;
  mo_total_checkins : Z;
  mo_total_failures : Z;
  mo_created_at : Z;
  mo_updated_at : Z;
}.

Definition ping_url (base_url : string) (m : Monitor) : string :=
  base_url +:+ "/ping/" +:+ mo_ping_key m.

(** Every character of an accepted slug is one byte. *)
Definition slug_char (c : ascii) : bool :=
  is_ascii_lowercase c || is_ascii_digit c || Ascii.eqb c "-" || Ascii.eqb c "_".

Definition Monitor_validate_slug (slug : string) : bool :=
  if ((String.length slug <? 3) || (50 <? String.length slug))%nat then false
  else str_all slug_char slug
       && match slug with String c _ => is_ascii_lowercase c | EmptyString => false end.

(** * stats.rs *)

Inductive StatsPeriod := SP_Day | SP_Week | SP_Month.

Definition StatsPeriod_days (p : StatsPeriod) : Z :=
  match p with SP_Day => 1 | SP_Week => 7 | SP_Month => 30 end.

(** * sse.rs *)

Record MonitorState := mkMonitorState {
  ms_id : Uuid;
  ms_slug : string;
  ms_name : string;
  ms_status : MonitorStatus;
  ms_health : MonitorHealth;
  ms_last_checkin_status : option CheckInStatus;
  ms_last_checkin_at : option Z;
  ms_next_expected_at : option Z;
  ms_consecutive_failures : Z;
}.

(** The last argument of each constructor is the time of the event. *)
Inductive CronStreamEvent :=
| CE_Init (monitors : list MonitorState) (timestamp : Z)
| CE_CheckInStarted (monitor_id : Uuid) (monitor_slug : string) (checkin_id : Uuid) (timestamp : Z)
| CE_CheckInOk (monitor_id : Uuid) (monitor_slug : string) (checkin_id : Uuid)
    (duration_ms : option Z) (timestamp : Z)
| CE_CheckInError (monitor_id : Uuid) (monitor_slug : string) (checkin_id : Uuid)
    (exit_code : option Z) (consecutive_failures : Z) (timestamp : Z)
| CE_MonitorMissed (monitor_id : Uuid) (monitor_slug monitor_name : string)
    (expected_at : option Z) (consecutive_failures : Z) (timestamp : Z)
| CE_MonitorTimeout (monitor_id : Uuid) (monitor_slug : string) (checkin_id : Uuid)
    (started_at max_runtime_minutes : option Z) (timestamp : Z)
| CE_MonitorHealthy (monitor_id : Uuid) (monitor_slug : string) (timestamp : Z)
| CE_Heartbeat (timestamp : Z).

Definition cron_event_type (e : CronStreamEvent) : string :=
  match e with
  | CE_Init _ _ => "init"
  | CE_CheckInStarted _ _ _ _ => "checkin.started"
  | CE_CheckInOk _ _ _ _ _ => "checkin.ok"
  | CE_CheckInError _ _ _ _ _ _ => "checkin.error"
  | CE_MonitorMissed _ _ _ _ _ _ => "monitor.missed"
  | CE_MonitorTimeout _ _ _ _ _ _ => "monitor.timeout"
  | CE_MonitorHealthy _ _ _ => "monitor.healthy"
  | CE_Heartbeat _ => "heartbeat"
  end.

(** * schedule.rs *)

Inductive CronsServerError :=
| CrE_MonitorNotFound
| CrE_CheckInNotFound
| CrE_InvalidSlug (s : string)
| CrE_InvalidCronExpression (s : string)
| CrE_InvalidTimezone (s : string)
| CrE_DuplicateSlug
| CrE_InvalidPingKey
| CrE_Database (e : string)
| CrE_Serialization (e : string)
| CrE_Internal (s : string).

(** A minute, in nanoseconds. *)
Definition minute : Z := 60 * 10 ^ 9.

(** The second at which SQLite's date functions, which round to milliseconds, put a
    time. *)
Definition second_of (t s : Z) : Prop :=
  (t / 10 ^ 9 <= s <= (t + 500000) / 10 ^ 9)%Z.

(** What cron monitoring uses of [cron], [chrono_tz], [serde_json], of SQLite's [datetime]
    and [AVG] and of the translations.  [schedule_after s tz t] is the first occurrence of
    [s] after [t] when read in [tz].  [sqlite_datetime x m] is the second of
    [datetime(x)], or of [datetime(x, '+m minutes')] where the number is printed as it is.
    [sql_scan] is the order of rows where a query has none. *)
Class CronBackend := {
  cn_stamps :: Stamps;
  cn_environments :: JsonColumn (list string);
  cn_environments_exact :: ExactColumn (list string);
  cron_overflow_checks : bool;
  CronSchedule : Type;
  schedule_from_str : string -> result string CronSchedule;
  Tz : Type;
  tz_parse : string -> option Tz;
  schedule_after : CronSchedule -> Tz -> Z -> option Z;
  schedule_after_later s tz t u : schedule_after s tz t = Some u -> (t < u)%Z;
  sqlite_datetime : string -> option Z -> option Z;
  datetime_time t : calendar t ->
    exists s, sqlite_datetime (to_rfc3339 t) None = Some s /\ second_of t s;
  datetime_plus t m s : calendar t -> (0 <= m)%Z ->
    sqlite_datetime (to_rfc3339 t) (Some m) = Some s -> second_of (t + m * minute) s;
  datetime_some t m : calendar t -> (0 <= m)%Z -> calendar (t + m * minute + 10 ^ 9) ->
    is_Some (sqlite_datetime (to_rfc3339 t) (Some m));
  datetime_minus t m : (m < 0)%Z -> sqlite_datetime (to_rfc3339 t) (Some m) = None;
  sql_scan : forall {R : Type}, list R -> list R;
  sql_scan_perm : forall {R : Type} (l : list R), sql_scan l ≡ₚ l;
  F64 : Type;
  sql_avg : list Z -> option F64;
  f64_as_u64 : F64 -> Z;
  hundred : F64;
  percent_of : Z -> Z -> F64;
  cron_translate : string -> string -> string;
}.

Section Schedule.
Context `{CB : CronBackend}.

(** [split_whitespace().count()]. *)
Fixpoint count_words (fuel : nat) (in_word : bool) (s : string) : nat :=
  match fuel, s with
  | S fuel, String _ r =>
      match ws_head s with
      | 0 => (if in_word then 0 else 1) + count_words fuel true r
      | n => count_words fuel false (str_drop n s)
      end
  | _, _ => 0
  end.
Definition whitespace_fields (s : string) : nat := count_words (String.length s) false s.

Definition convert_to_cron_crate_format (expression : string) : string :=
  let field_count := whitespace_fields expression in
  if (6 <=? field_count)%nat then expression
  else if (field_count =? 5)%nat then "0 " +:+ expression +:+ " *"
  else expression.

Definition calculate_next_expected (schedule : MonitorSchedule) (timezone : string) (after : Z)
    : result CronsServerError Z :=
  match schedule with
  | Sched_Cron expression =>
      match schedule_from_str (convert_to_cron_crate_format expression) with
      | Err e => Err (CrE_InvalidCronExpression e)
      | Ok cron_schedule =>
          match tz_parse timezone with
          | None => Err (CrE_InvalidTimezone timezone)
          | Some tz =>
              ok_or (CrE_Internal "No next run time found for cron schedule")
                (schedule_after cron_schedule tz after)
          end
      end
  | Sched_Interval minutes => Ok (after + minutes * minute)%Z
  end.

(** [calculate_next_expected(..).ok()]. *)
Definition next_expected (schedule : MonitorSchedule) (timezone : string) (after : Z) : option Z :=
  match calculate_next_expected schedule timezone after with Ok t => Some t | Err _ => None end.

Definition validate_cron_expression (expression : string) : result CronsServerError unit :=
  match schedule_from_str (convert_to_cron_crate_format expression) with
  | Ok _ => Ok tt
  | Err e => Err (CrE_InvalidCronExpression e)
  end.

Definition validate_timezone (timezone : string) : result CronsServerError unit :=
  match tz_parse timezone with Some _ => Ok tt | None => Err (CrE_InvalidTimezone timezone) end.

Record MonitorStats := mkMonitorStats {
  sts_monitor_id : Uuid;
  sts_period : StatsPeriod;
  sts_total_checkins : Z;
  sts_successful_checkins : Z;
  sts_failed_checkins : Z;
  sts_missed_checkins : Z;
  sts_timeout_checkins : Z;
  sts_avg_duration_ms : option Z;
  sts_p50_duration_ms : option Z;
  sts_p95_duration_ms : option Z;
  sts_max_duration_ms : option Z;
  sts_uptime_percentage : F64;
  sts_updated_at : Z;
}.
End Schedule.
