(* ===== verification/CronRepo.v ===== *)
(** Storage of cron monitors: repository.rs of [crates/loom-server-crons] over the tables
    of [crates/loom-server/migrations/034_cron_monitoring.sql].

    A row holds what the statements bind; [try_from] reads it back.  The columns that no
    statement of the repository mentions ([project_id] and the table of daily rollups)
    are left out. *)
From stdpp Require Import base gmap list strings sorting.
From Stdlib Require Import ZArith Lia Ascii.
From S2P Require Import Prelude Text CoreTypes Effects Sql Columns CronModel.

Record MonitorRow := mkMonitorRow {
  mw_id : string;
  mw_org_id : string;
  mw_slug : string;
  mw_name : string;
  mw_description : option string;
  mw_status : string;
  mw_health : string;
  mw_schedule_type : string;
  mw_schedule_value : string;
  mw_timezone : string;
  mw_checkin_margin_minutes : Z;
  mw_max_runtime_minutes : option Z;
  mw_ping_key : string;
  mw_environments : string;
  mw_last_checkin_at : option string;
  mw_last_checkin_status : option string;
  mw_next_expected_at : option string;
  mw_consecutive_failures : Z;
  mw_total_checkins : Z;
  mw_total_failures : Z;
  mw_created_at : string;
  mw_updated_at : string;
}.

Record CheckInRow := mkCheckInRow {
  kw_id : string;
  kw_monitor_id : string;
  kw_status : string;
  kw_started_at : option string;
  kw_finished_at : string;
  kw_duration_ms : option Z;
  kw_environment : option string;
  kw_release : option string;
  kw_exit_code : option Z;
  kw_output : option string;
  kw_crash_event_id : option string;
  kw_source : string;
  kw_created_at : string;
}.

Record CronTables := mkCronTables {
  ct_organizations : list string;
  ct_memberships : list (string * string);
  ct_monitors : list MonitorRow;
  ct_checkins : list CheckInRow;
}.

Definition put_monitors (v : list MonitorRow) (t : CronTables) : CronTables :=
  mkCronTables (ct_organizations t) (ct_memberships t) v (ct_checkins t).
Definition put_checkins (v : list CheckInRow) (t : CronTables) : CronTables :=
  mkCronTables (ct_organizations t) (ct_memberships t) (ct_monitors t) v.

Definition CronOp (A : Type) : Type := SqlM CronTables CronsServerError A.

Section CronRepo.
Context `{CB : CronBackend}.

(** * Rows *)

Definition monitor_row (m : Monitor) : MonitorRow :=
  mkMonitorRow (uuid_text (mo_id m)) (uuid_text (mo_org_id m)) (mo_slug m) (mo_name m)
    (mo_description m) (MonitorStatus_to_string (mo_status m))
    (MonitorHealth_to_string (mo_health m)) (schedule_type (mo_schedule m))
    (schedule_value (mo_schedule m)) (mo_timezone m) (wrap_i32 (mo_checkin_margin_minutes m))
    (wrap_i32 <$> mo_max_runtime_minutes m) (mo_ping_key m) (to_json (mo_environments m))
    (to_rfc3339 <$> mo_last_checkin_at m) (CheckInStatus_to_string <$> mo_last_checkin_status m)
    (to_rfc3339 <$> mo_next_expected_at m) (wrap_i32 (mo_consecutive_failures m))
    (wrap_i64 (mo_total_checkins m)) (wrap_i64 (mo_total_failures m))
    (to_rfc3339 (mo_created_at m)) (to_rfc3339 (mo_updated_at m)).

Definition checkin_row (c : CheckIn) : CheckInRow :=
  mkCheckInRow (uuid_text (ci_id c)) (uuid_text (ci_monitor_id c))
    (CheckInStatus_to_string (ci_status c)) (to_rfc3339 <$> ci_started_at c)
    (to_rfc3339 (ci_finished_at c)) (wrap_i64 <$> ci_duration_ms c) (ci_environment c)
    (ci_release c) (ci_exit_code c) (ci_output c) (ci_crash_event_id c)
    (CheckInSource_to_string (ci_source c)) (to_rfc3339 (ci_created_at c)).

Definition internal {A} (what : string) (o : option A) : result CronsServerError A :=
  ok_or (CrE_Internal ("Invalid " +:+ what)) o.
Definition cron_id (what s : string) : result CronsServerError Uuid :=
  match uuid_parse s with Ok u => Ok u | Err _ => Err (CrE_Internal ("Invalid " +:+ what)) end.
Definition cron_time (what s : string) : result CronsServerError Z :=
  internal what (parse_from_rfc3339 s).

Definition schedule_of_row (r : MonitorRow) : result CronsServerError MonitorSchedule :=
  if String.eqb (mw_schedule_type r) "cron" then Ok (Sched_Cron (mw_schedule_value r))
  else if String.eqb (mw_schedule_type r) "interval" then
    minutes ← internal "interval value" (parse_u32 (mw_schedule_value r));
    Ok (Sched_Interval minutes)
  else Err (CrE_Internal ("Unknown schedule type: " +:+ mw_schedule_type r)).

Definition Monitor_try_from (r : MonitorRow) : result CronsServerError Monitor :=
  environments ← match from_json (mw_environments r) with
                 | Ok l => Ok l
                 | Err e => Err (CrE_Serialization e)
                 end;
  schedule ← schedule_of_row r;
  id ← cron_id "monitor ID" (mw_id r);
  org_id ← cron_id "org ID" (mw_org_id r);
  status ← internal "status" (MonitorStatus_from_str (mw_status r));
  health ← internal "health" (MonitorHealth_from_str (mw_health r));
  last_checkin_at ← transpose (cron_time "last_checkin_at") (mw_last_checkin_at r);
  last_checkin_status ← transpose (fun s => internal "last_checkin_status" (CheckInStatus_from_str s))
                          (mw_last_checkin_status r);
  next_expected_at ← transpose (cron_time "next_expected_at") (mw_next_expected_at r);
  created_at ← cron_time "created_at" (mw_created_at r);
  updated_at ← cron_time "updated_at" (mw_updated_at r);
  Ok (mkMonitor id org_id (mw_slug r) (mw_name r) (mw_description r) status health schedule
        (mw_timezone r) (wrap_u32 (mw_checkin_margin_minutes r))
        (wrap_u32 <$> mw_max_runtime_minutes r) (mw_ping_key r) environments last_checkin_at
        last_checkin_status next_expected_at (wrap_u32 (mw_consecutive_failures r))
        (wrap_u64 (mw_total_checkins r)) (wrap_u64 (mw_total_failures r)) created_at updated_at).

Definition CheckIn_try_from (r : CheckInRow) : result CronsServerError CheckIn :=
  id ← cron_id "check-in ID" (kw_id r);
  monitor_id ← cron_id "monitor ID" (kw_monitor_id r);
  status ← internal "status" (CheckInStatus_from_str (kw_status r));
  started_at ← transpose (cron_time "started_at") (kw_started_at r);
  finished_at ← cron_time "finished_at" (kw_finished_at r);
  source ← internal "source" (CheckInSource_from_str (kw_source r));
  created_at ← cron_time "created_at" (kw_created_at r);
  Ok (mkCheckIn id monitor_id status started_at finished_at (wrap_u64 <$> kw_duration_ms r)
        (kw_environment r) (kw_release r) (kw_exit_code r) (kw_output r) (kw_crash_event_id r)
        source created_at).

(** The joined row of a check-in and its monitor. *)
Definition joined_try_from (r : CheckInRow * MonitorRow)
    : result CronsServerError (CheckIn * Monitor) :=
  checkin ← CheckIn_try_from r.1;
  monitor ← Monitor_try_from r.2;
  Ok (checkin, monitor).

(** [sqlx] reads the failures as [i32] and refuses an integer out of range.  The other
    [i32] columns are only written from [i32]. *)
Definition monitor_from_row (r : MonitorRow) : result CronsServerError MonitorRow :=
  if bool_decide (i32_ok (mw_consecutive_failures r)) then Ok r
  else Err (CrE_Database "column decode error").

Definition joined_from_row (r : CheckInRow * MonitorRow)
    : result CronsServerError (CheckInRow * MonitorRow) :=
  m ← monitor_from_row r.2; Ok (r.1, m).

(** * Statements *)

Definition cron_query {A} (f : CronTables -> A) : CronOp A := sql_read CrE_Database f.

(** [sqlx] decodes every row before [try_from] sees the first. *)
Definition cron_fetch_all {R A} (from_row : R -> result CronsServerError R)
    (try_from : R -> result CronsServerError A) (f : CronTables -> list R) : CronOp (list A) :=
  let* rows := cron_query f in
  of_result (rows ← collect from_row rows; collect try_from rows).

Definition cron_fetch_optional {R A} (from_row : R -> result CronsServerError R)
    (try_from : R -> result CronsServerError A) (f : CronTables -> option R)
    : CronOp (option A) :=
  let* row := cron_query f in
  of_result (row ← transpose from_row row; transpose try_from row).

Definition cron_write (f : CronTables -> CronTables) : CronOp unit :=
  sql_write CrE_Database (fun t => (tt, f t)).

Definition monitor_is (id : string) (m : MonitorRow) : bool := String.eqb (mw_id m) id.
Definition checkin_is (id : string) (c : CheckInRow) : bool := String.eqb (kw_id c) id.

Definition insert_monitor (r : MonitorRow) (t : CronTables) : option (unit * CronTables) :=
  if existsb (String.eqb (mw_org_id r)) (ct_organizations t)
     && negb (existsb (fun m => monitor_is (mw_id r) m
                                || String.eqb (mw_ping_key m) (mw_ping_key r)
                                || (String.eqb (mw_org_id m) (mw_org_id r)
                                    && String.eqb (mw_slug m) (mw_slug r))) (ct_monitors t))
  then Some (tt, put_monitors (ct_monitors t ++ [r]) t) else None.

Definition crons_create_monitor (m : Monitor) : CronOp unit :=
  sql CrE_Database (insert_monitor (monitor_row m)).

Definition crons_get_monitor_by_id (id : Uuid) : CronOp (option Monitor) :=
  cron_fetch_optional monitor_from_row Monitor_try_from
    (fun t => select_one (monitor_is (uuid_text id)) (ct_monitors t)).

Definition crons_get_monitor_by_slug (org_id : Uuid) (slug : string) : CronOp (option Monitor) :=
  cron_fetch_optional monitor_from_row Monitor_try_from
    (fun t => select_one (fun m => String.eqb (mw_org_id m) (uuid_text org_id)
                                   && String.eqb (mw_slug m) slug) (ct_monitors t)).

Definition crons_get_monitor_by_ping_key (ping_key : string) : CronOp (option Monitor) :=
  cron_fetch_optional monitor_from_row Monitor_try_from
    (fun t => select_one (fun m => String.eqb (mw_ping_key m) ping_key) (ct_monitors t)).

Definition crons_list_monitors (org_id : Uuid) : CronOp (list Monitor) :=
  cron_fetch_all monitor_from_row Monitor_try_from
    (fun t => order_by false mw_slug
                (select_where (fun m => String.eqb (mw_org_id m) (uuid_text org_id))
                   (ct_monitors t))).

Definition crons_list_all_active_monitors : CronOp (list Monitor) :=
  cron_fetch_all monitor_from_row Monitor_try_from
    (fun t => order_by false mw_slug
                (select_where (fun m => String.eqb (mw_status m) "active") (ct_monitors t))).

(** The columns [UPDATE] writes; [now] is the time of the statement. *)
Definition config_columns (m : Monitor) (now : Z) (r : MonitorRow) : MonitorRow :=
  mkMonitorRow (mw_id r) (mw_org_id r) (mw_slug r) (mo_name m) (mo_description m)
    (MonitorStatus_to_string (mo_status m)) (MonitorHealth_to_string (mo_health m))
    (schedule_type (mo_schedule m)) (schedule_value (mo_schedule m)) (mo_timezone m)
    (wrap_i32 (mo_checkin_margin_minutes m)) (wrap_i32 <$> mo_max_runtime_minutes m)
    (mw_ping_key r) (to_json (mo_environments m)) (mw_last_checkin_at r)
    (mw_last_checkin_status r) (mw_next_expected_at r) (mw_consecutive_failures r)
    (mw_total_checkins r) (mw_total_failures r) (mw_created_at r) (to_rfc3339 now).

Definition update_monitors (id : Uuid) (f : MonitorRow -> MonitorRow) : CronOp unit :=
  cron_write (fun t => put_monitors (update_where (monitor_is (uuid_text id)) f (ct_monitors t)) t).

Definition crons_update_monitor (m : Monitor) (now : Z) : CronOp unit :=
  update_monitors (mo_id m) (config_columns m now).

(** [ON DELETE CASCADE] takes the check-ins along. *)
Definition delete_monitors (p : MonitorRow -> bool) (t : CronTables) : CronTables :=
  let gone id := existsb (fun m => p m && String.eqb (mw_id m) id) (ct_monitors t) in
  put_checkins (delete_where (fun c => gone (kw_monitor_id c)) (ct_checkins t))
    (put_monitors (delete_where p (ct_monitors t)) t).

Definition crons_delete_monitor (id : Uuid) : CronOp bool :=
  sql_write CrE_Database (fun t =>
    (existsb (monitor_is (uuid_text id)) (ct_monitors t),
     delete_monitors (monitor_is (uuid_text id)) t)).

Definition insert_checkin (r : CheckInRow) (t : CronTables) : option (unit * CronTables) :=
  if existsb (monitor_is (kw_monitor_id r)) (ct_monitors t)
     && negb (existsb (checkin_is (kw_id r)) (ct_checkins t))
  then Some (tt, put_checkins (ct_checkins t ++ [r]) t) else None.

Definition crons_create_checkin (c : CheckIn) : CronOp unit :=
  sql CrE_Database (insert_checkin (checkin_row c)).

Definition crons_get_checkin_by_id (id : Uuid) : CronOp (option CheckIn) :=
  cron_fetch_optional Ok CheckIn_try_from
    (fun t => select_one (checkin_is (uuid_text id)) (ct_checkins t)).

Definition crons_list_checkins (monitor_id : Uuid) (limit : Z) : CronOp (list CheckIn) :=
  cron_fetch_all Ok CheckIn_try_from
    (fun t => sql_limit limit
                (order_by true kw_created_at
                   (select_where (fun c => String.eqb (kw_monitor_id c) (uuid_text monitor_id))
                      (ct_checkins t)))).

Definition result_columns (c : CheckIn) (r : CheckInRow) : CheckInRow :=
  mkCheckInRow (kw_id r) (kw_monitor_id r) (CheckInStatus_to_string (ci_status c))
    (kw_started_at r) (to_rfc3339 (ci_finished_at c)) (wrap_i64 <$> ci_duration_ms c)
    (kw_environment r) (kw_release r) (ci_exit_code c) (ci_output c) (ci_crash_event_id c)
    (kw_source r) (kw_created_at r).

Definition crons_update_checkin (c : CheckIn) : CronOp unit :=
  cron_write (fun t => put_checkins (update_where (checkin_is (uuid_text (ci_id c)))
                                       (result_columns c) (ct_checkins t)) t).

(** The columns of the three updates of a monitor's state. *)
Definition state_columns (health : string) (last_at last_status next : option string)
    (consecutive total failures : Z) (updated_at : string) (r : MonitorRow) : MonitorRow :=
  mkMonitorRow (mw_id r) (mw_org_id r) (mw_slug r) (mw_name r) (mw_description r) (mw_status r)
    health (mw_schedule_type r) (mw_schedule_value r) (mw_timezone r)
    (mw_checkin_margin_minutes r) (mw_max_runtime_minutes r) (mw_ping_key r) (mw_environments r)
    last_at last_status next consecutive total failures (mw_created_at r) updated_at.

Definition health_columns (health : MonitorHealth) (now : Z) (r : MonitorRow) : MonitorRow :=
  state_columns (MonitorHealth_to_string health) (mw_last_checkin_at r) (mw_last_checkin_status r)
    (mw_next_expected_at r) (mw_consecutive_failures r) (mw_total_checkins r)
    (mw_total_failures r) (to_rfc3339 now) r.

Definition crons_update_monitor_health (id : Uuid) (health : MonitorHealth) (now : Z)
    : CronOp unit :=
  update_monitors id (health_columns health now).

Definition last_checkin_columns (status : CheckInStatus) (next_expected_at : option Z)
    (now now' : Z) (r : MonitorRow) : MonitorRow :=
  state_columns (mw_health r) (Some (to_rfc3339 now)) (Some (CheckInStatus_to_string status))
    (to_rfc3339 <$> next_expected_at) (mw_consecutive_failures r) (mw_total_checkins r)
    (mw_total_failures r) (to_rfc3339 now') r.

Definition crons_update_monitor_last_checkin (id : Uuid) (status : CheckInStatus)
    (next_expected_at : option Z) (now now' : Z) : CronOp unit :=
  update_monitors id (last_checkin_columns status next_expected_at now now').

Definition stats_columns (is_failure : bool) (now : Z) (r : MonitorRow) : MonitorRow :=
  state_columns (mw_health r) (mw_last_checkin_at r) (mw_last_checkin_status r)
    (mw_next_expected_at r)
    (if is_failure then mw_consecutive_failures r + 1 else 0)%Z
    (mw_total_checkins r + 1)%Z
    (if is_failure then mw_total_failures r + 1 else mw_total_failures r)%Z
    (to_rfc3339 now) r.

Definition crons_increment_monitor_stats (id : Uuid) (is_failure : bool) (now : Z) : CronOp unit :=
  update_monitors id (stats_columns is_failure now).

(** ** Queries of the background jobs *)

(** [a < b] on values that may be [NULL]. *)
Definition sql_lt (a b : option Z) : bool :=
  match a, b with Some a, Some b => (a <? b)%Z | _, _ => false end.

Definition overdue (now : Z) (m : MonitorRow) : bool :=
  String.eqb (mw_status m) "active"
  && match mw_next_expected_at m with
     | None => false
     | Some next =>
         sql_lt (sqlite_datetime next (Some (mw_checkin_margin_minutes m)))
           (sqlite_datetime (to_rfc3339 now) None)
         && match mw_last_checkin_at m with
            | None => true
            | Some last => String.ltb last next
            end
     end
  && negb (String.eqb (mw_health m) "missed").

Definition crons_list_overdue_monitors (now : Z) : CronOp (list Monitor) :=
  cron_fetch_all monitor_from_row Monitor_try_from
    (fun t => sql_scan (select_where (overdue now) (ct_monitors t))).

Definition timed_out (now : Z) (r : CheckInRow * MonitorRow) : bool :=
  String.eqb (mw_id r.2) (kw_monitor_id r.1)
  && String.eqb (kw_status r.1) "in_progress"
  && match mw_max_runtime_minutes r.2, kw_started_at r.1 with
     | Some minutes, Some started_at =>
         sql_lt (sqlite_datetime started_at (Some minutes)) (sqlite_datetime (to_rfc3339 now) None)
     | _, _ => false
     end.

Definition crons_list_timed_out_checkins (now : Z) : CronOp (list (CheckIn * Monitor)) :=
  cron_fetch_all joined_from_row joined_try_from
    (fun t => sql_scan (select_where (timed_out now)
                          (c ← ct_checkins t; m ← ct_monitors t; [(c, m)]))).

(** ** Statistics *)

(** The index is [(p / 100 * (n - 1)).round()]; for the percentiles 50 and 95 and fewer
    than 2^50 values the rounded product of doubles is the rounding of the exact product,
    half away from zero. *)
Definition percentile (sorted_values : list Z) (p : Z) : option Z :=
  match sorted_values with
  | [] => None
  | v :: _ =>
      let n := Z.of_nat (length sorted_values) in
      let index := ((2 * p * (n - 1) + 100) / 200)%Z in
      Some (wrap_u64 (default v (sorted_values !! Z.to_nat (Z.min index (n - 1)))))
  end.

Definition sql_max (l : list Z) : option Z :=
  match l with [] => None | v :: l => Some (foldr Z.max v l) end.

Definition in_period (monitor_id : Uuid) (cutoff : string) (c : CheckInRow) : bool :=
  String.eqb (kw_monitor_id c) (uuid_text monitor_id) && negb (String.ltb (kw_created_at c) cutoff).

Definition counts_for_stats (c : CheckInRow) : bool := negb (String.eqb (kw_status c) "in_progress").

Definition sql_count (n : nat) : Z := wrap_u64 (Z.of_nat n).

Definition crons_get_monitor_stats (monitor_id : Uuid) (period : StatsPeriod) (now now' : Z)
    : CronOp MonitorStats :=
  let cutoff := to_rfc3339 (now - StatsPeriod_days period * 24 * 60 * minute) in
  let* rows := cron_query (fun t =>
    select_where (fun c => in_period monitor_id cutoff c && counts_for_stats c) (ct_checkins t)) in
  let with_status s := count_where (fun c => String.eqb (kw_status c) s) rows in
  let* durations := cron_query (fun t =>
    merge_sort Z.le (omap kw_duration_ms (select_where (in_period monitor_id cutoff)
                                           (ct_checkins t)))) in
  let total := sql_count (length rows) in
  let successful := sql_count (with_status "ok") in
  ret (mkMonitorStats monitor_id period total successful (sql_count (with_status "error"))
         (sql_count (with_status "missed")) (sql_count (with_status "timeout"))
         (f64_as_u64 <$> sql_avg (omap kw_duration_ms rows))
         (percentile durations 50) (percentile durations 95)
         (wrap_u64 <$> sql_max (omap kw_duration_ms rows))
         (if (0 <? total)%Z then percent_of successful total else hundred) now').

(** [OrgRepository::get_membership] of [crates/loom-server-db]; the handlers only look
    whether there is one. *)
Definition cron_get_membership (org_id user_id : Uuid) : CronOp bool :=
  cron_query (fun t => existsb (fun m => String.eqb m.1 (uuid_text org_id)
                                         && String.eqb m.2 (uuid_text user_id))
                         (ct_memberships t)).
End CronRepo.
