(* ===== verification/CronRoutes.v ===== *)
(** Requests and background jobs of cron monitoring: sse.rs of
    [crates/loom-server-crons], [crates/loom-server/src/routes/crons] and
    cron_missed_run.rs and cron_timeout.rs of [crates/loom-server/src/jobs].

    A handler runs on the database, the broadcaster and the audit log; it answers, fails
    with a status or panics.  The caller of an authenticated route is its user. *)
From stdpp Require Import base gmap list strings pretty.
From Stdlib Require Import ZArith Lia Ascii.
From S2P Require Import Prelude Text CoreTypes Effects Sql Columns JobModel.
From S2P Require Import CronModel CronRepo.

(** * sse.rs *)

(** A channel: its receivers and what was sent to them.  The statistics are kept as the
    code keeps them: they are set when the channel is made. *)
Record CronChannel := mkCronChannel {
  cc_receivers : nat;
  cc_sent : list CronStreamEvent;
  cc_events_sent : Z;
  cc_created_at : Z;
  cc_last_event_at : option Z;
}.

Record CronsBroadcaster := mkCronsBroadcaster {
  cb_channels : gmap Uuid CronChannel;
  cb_total_events : Z;
  cb_total_connections : Z;
}.

Definition CronsBroadcaster_new : CronsBroadcaster := mkCronsBroadcaster ∅ 0 0.

Definition add_receiver (c : CronChannel) : CronChannel :=
  mkCronChannel (S (cc_receivers c)) (cc_sent c) (cc_events_sent c) (cc_created_at c)
    (cc_last_event_at c).

Definition cron_subscribe (org_id : Uuid) (now : Z) (b : CronsBroadcaster) : CronsBroadcaster :=
  let connections := wrap_u64 (cb_total_connections b + 1) in
  let state := default (mkCronChannel 0 [] 0 now None) (cb_channels b !! org_id) in
  mkCronsBroadcaster (<[org_id := add_receiver state]> (cb_channels b)) (cb_total_events b)
    connections.

(** A client goes away: its receiver is dropped. *)
Definition drop_receiver (c : CronChannel) : CronChannel :=
  mkCronChannel (pred (cc_receivers c)) (cc_sent c) (cc_events_sent c) (cc_created_at c)
    (cc_last_event_at c).
Definition cron_disconnect (org_id : Uuid) (b : CronsBroadcaster) : CronsBroadcaster :=
  mkCronsBroadcaster (alter drop_receiver org_id (cb_channels b)) (cb_total_events b)
    (cb_total_connections b).

(** [Sender::send] fails without receivers. *)
Definition send_event (e : CronStreamEvent) (c : CronChannel) : CronChannel :=
  match cc_receivers c with
  | O => c
  | S _ => mkCronChannel (cc_receivers c) (cc_sent c ++ [e]) (cc_events_sent c) (cc_created_at c)
             (cc_last_event_at c)
  end.

Definition cron_broadcast (org_id : Uuid) (e : CronStreamEvent) (b : CronsBroadcaster)
    : nat * CronsBroadcaster :=
  match cb_channels b !! org_id with
  | Some state =>
      match cc_receivers state with
      | O => (0, b)
      | S _ =>
          (cc_receivers state,
           mkCronsBroadcaster (<[org_id := send_event e state]> (cb_channels b))
             (wrap_u64 (cb_total_events b + 1)) (cb_total_connections b))
      end
  | None => (0, b)
  end.

Definition broadcast_heartbeat (now : Z) (b : CronsBroadcaster) : CronsBroadcaster :=
  mkCronsBroadcaster (send_event (CE_Heartbeat now) <$> cb_channels b) (cb_total_events b)
    (cb_total_connections b).

(** [(receiver_count, events_sent, created_at, last_event_at)]. *)
Definition channel_stats (org_id : Uuid) (b : CronsBroadcaster) : option (nat * Z * Z * option Z) :=
  (fun c => (cc_receivers c, cc_events_sent c, cc_created_at c, cc_last_event_at c))
    <$> cb_channels b !! org_id.

Definition channel_count (b : CronsBroadcaster) : nat := size (cb_channels b).

Definition total_receiver_count (b : CronsBroadcaster) : nat :=
  sum_list (cc_receivers <$> (map_to_list (cb_channels b)).*2).

Definition cleanup_empty_channels (b : CronsBroadcaster) : nat * CronsBroadcaster :=
  let kept := filter (fun '(_, c) => 0 < cc_receivers c) (cb_channels b) in
  (size (cb_channels b) - size kept,
   mkCronsBroadcaster kept (cb_total_events b) (cb_total_connections b)).

(** [BroadcasterStats]: channels, receivers, events and connections. *)
Definition broadcaster_stats (b : CronsBroadcaster) : nat * nat * Z * Z :=
  (channel_count b, total_receiver_count b, cb_total_events b, cb_total_connections b).

(** * The state of the handlers *)

(** A change that an update of a monitor reports to the audit log, old and new. *)
Inductive MonitorChange :=
| Ch_Name (old new : string)
| Ch_Description (old : option string) (new : string)
| Ch_Schedule (old new : MonitorSchedule)
| Ch_Timezone (old new : string)
| Ch_Margin (old new : Z)
| Ch_MaxRuntime (old new : option Z)
| Ch_Environments (old new : list string).

Inductive CronAuditDetails :=
| AD_Created (name : string) (schedule : MonitorSchedule)
| AD_Deleted (name : string)
| AD_Updated (changes : list MonitorChange)
| AD_Paused (previous_status : MonitorStatus)
| AD_Resumed (previous_status : MonitorStatus).

Record CronAudit := mkCronAudit {
  au_actor : Uuid;
  au_resource : Uuid;
  au_org_id : Uuid;
  au_slug : string;
  au_details : CronAuditDetails;
}.

Record CronWorld := mkCronWorld {
  cx_conn : Conn CronTables;
  cx_broadcaster : CronsBroadcaster;
  cx_audit : list CronAudit;
}.

Definition put_cron_conn (c : Conn CronTables) (w : CronWorld) : CronWorld :=
  mkCronWorld c (cx_broadcaster w) (cx_audit w).

Definition CronM (E A : Type) : Type := StM CronWorld (Failure E) A.

(** A call of the repository whose error [f] turns into the handler's. *)
Definition crepo {E A} (f : CronsServerError -> E) (m : CronOp A) : CronM E A :=
  map_err (fun e => Failed (f e)) (on_part cx_conn put_cron_conn m).

(** A call whose error the handler inspects or ignores. *)
Definition try_crepo {E A} (m : CronOp A) : CronM E (result CronsServerError A) :=
  attempt (on_part cx_conn put_cron_conn m).

Definition cron_of_run {E A} (r : run A) : CronM E A :=
  match r with Done a => ret a | Panic => raise Panicked end.

Definition cron_send {E} (org_id : Uuid) (e : CronStreamEvent) : CronM E unit := fun w =>
  (Ok tt, mkCronWorld (cx_conn w) (cron_broadcast org_id e (cx_broadcaster w)).2 (cx_audit w)).

Definition cron_audit {E} (a : CronAudit) : CronM E unit := fun w =>
  (Ok tt, mkCronWorld (cx_conn w) (cx_broadcaster w) (cx_audit w ++ [a])).

Section Routes.
Context `{CB : CronBackend}.

(** * common.rs *)

(** [StatusCode::X.into_response()]: a status without a body. *)
Definition bare (status : Z) : HttpError := http status "" "".

Definition cron_internal_error (locale : string) : HttpError :=
  http 500 "internal_error" (cron_translate locale "server.api.error.internal").

Definition cron_verify_org_membership (org_id user_id : Uuid) (locale : string)
    : CronM HttpError unit :=
  let* member := crepo (fun _ => cron_internal_error locale) (cron_get_membership org_id user_id) in
  if member : bool then ret tt
  else raise (Failed (http 403 "forbidden" (cron_translate locale "server.api.org.not_a_member"))).

Record CreateMonitorRequest := mkCreateMonitorRequest {
  cm_org_id : Uuid;
  cm_slug : string;
  cm_name : string;
  cm_description : option string;
  cm_schedule : MonitorSchedule;
  cm_timezone : string;
  cm_checkin_margin_minutes : Z;
  cm_max_runtime_minutes : option Z;
  cm_environments : list string;
}.

Definition default_timezone : string := "UTC".
Definition default_margin : Z := 5.
Definition default_stats_period : StatsPeriod := SP_Week.

Record UpdateMonitorRequest := mkUpdateMonitorRequest {
  um_org_id : Uuid;
  um_name : option string;
  um_description : option string;
  um_schedule : option MonitorSchedule;
  um_timezone : option string;
  um_checkin_margin_minutes : option Z;
  um_max_runtime_minutes : option (option Z);
  um_environments : option (list string);
}.

Record CreateCheckInRequest := mkCreateCheckInRequest {
  cq_org_id : Uuid;
  cq_status : CheckInStatus;
  cq_started_at : option Z;
  cq_finished_at : option Z;
  cq_duration_ms : option Z;
  cq_environment : option string;
  cq_release : option string;
  cq_exit_code : option Z;
  cq_output : option string;
  cq_crash_event_id : option string;
}.

Record UpdateCheckInRequest := mkUpdateCheckInRequest {
  uq_status : CheckInStatus;
  uq_finished_at : option Z;
  uq_duration_ms : option Z;
  uq_exit_code : option Z;
  uq_output : option string;
  uq_crash_event_id : option string;
}.

Record MonitorSummary := mkMonitorSummary {
  su_id : Uuid;
  su_slug : string;
  su_name : string;
  su_status : MonitorStatus;
  su_health : MonitorHealth;
  su_last_checkin_at : option Z;
  su_next_expected_at : option Z;
  su_consecutive_failures : Z;
}.

Definition monitor_summary (m : Monitor) : MonitorSummary :=
  mkMonitorSummary (mo_id m) (mo_slug m) (mo_name m) (mo_status m) (mo_health m)
    (mo_last_checkin_at m) (mo_next_expected_at m) (mo_consecutive_failures m).

(** What the handlers start with: the row, 404 without one, 500 on an error. *)
Definition found_row {A} (m : CronOp (option A)) : CronM HttpError A :=
  let* o := crepo (fun _ => bare 500) m in
  match o with Some a => ret a | None => raise (Failed (bare 404)) end.

(** * ping.rs *)

(** The three updates after a check-in; the code ignores their errors.  [k] is the number
    of the first use of the clock. *)
Definition record_report {E} (env : Env) (k : nat) (monitor_id : Uuid) (health : MonitorHealth)
    (status : CheckInStatus) (next_expected_at : option Z) (is_failure : bool) : CronM E unit :=
  let* _ := try_crepo (crons_update_monitor_health monitor_id health (env_now env k)) in
  let* _ := try_crepo (crons_update_monitor_last_checkin monitor_id status next_expected_at
                         (env_now env (k + 1)) (env_now env (k + 2))) in
  let* _ := try_crepo (crons_increment_monitor_stats monitor_id is_failure
                         (env_now env (k + 3))) in
  ret tt.

Definition report_health (is_failure : bool) : MonitorHealth :=
  if is_failure then MH_Failing else MH_Healthy.

(** [CronStreamEvent::checkin_error(.., monitor.consecutive_failures + 1)]. *)
Definition checkin_error {E} (m : Monitor) (checkin_id : Uuid) (exit_code : option Z) (now : Z)
    : CronM E CronStreamEvent :=
  let* n := cron_of_run (add_u32 cron_overflow_checks (mo_consecutive_failures m) 1) in
  ret (CE_CheckInError (mo_id m) (mo_slug m) checkin_id exit_code n now).

Definition ping_checkin (id : Uuid) (m : Monitor) (status : CheckInStatus) (started_at : option Z)
    (exit_code : option Z) (output : option string) (now : Z) : CheckIn :=
  mkCheckIn id (mo_id m) status started_at now None None None exit_code output None CS_Ping now.

(** The body that [ping_success] and [ping_with_body] share. *)
Definition ping_report (env : Env) (m : Monitor) (exit_code : option Z) (output : option string)
    : CronM HttpError unit :=
  let now := env_now env 0 in
  let status := if (default 0 exit_code =? 0)%Z then CI_Ok else CI_Error in
  let is_failure := bool_decide (status = CI_Error) in
  let checkin := ping_checkin (env_uuid env 0) m status None exit_code output now in
  let* _ := crepo (fun _ => bare 500) (crons_create_checkin checkin) in
  let* _ := record_report env 1 (mo_id m) (report_health is_failure) status
              (next_expected (mo_schedule m) (mo_timezone m) now) is_failure in
  let* e := if is_failure then checkin_error m (ci_id checkin) exit_code (env_now env 5)
            else ret (CE_CheckInOk (mo_id m) (mo_slug m) (ci_id checkin) None (env_now env 5)) in
  cron_send (mo_org_id m) e.

Definition ping_success (env : Env) (key : string) (exit_code : option Z) : CronM HttpError unit :=
  let* m := found_row (crons_get_monitor_by_ping_key key) in
  ping_report env m exit_code None.

Definition ping_start (env : Env) (key : string) : CronM HttpError Uuid :=
  let* m := found_row (crons_get_monitor_by_ping_key key) in
  let now := env_now env 0 in
  let checkin := ping_checkin (env_uuid env 0) m CI_InProgress (Some now) None None now in
  let* _ := crepo (fun _ => bare 500) (crons_create_checkin checkin) in
  let* _ := cron_send (mo_org_id m)
              (CE_CheckInStarted (mo_id m) (mo_slug m) (ci_id checkin) (env_now env 1)) in
  ret (ci_id checkin).

Definition ping_fail (env : Env) (key : string) (exit_code : option Z) : CronM HttpError unit :=
  let* m := found_row (crons_get_monitor_by_ping_key key) in
  let now := env_now env 0 in
  let checkin := ping_checkin (env_uuid env 0) m CI_Error None exit_code None now in
  let* _ := crepo (fun _ => bare 500) (crons_create_checkin checkin) in
  let* _ := record_report env 1 (mo_id m) MH_Failing CI_Error
              (next_expected (mo_schedule m) (mo_timezone m) now) true in
  let* e := checkin_error m (ci_id checkin) exit_code (env_now env 5) in
  cron_send (mo_org_id m) e.

Definition ping_with_body (env : Env) (key : string) (exit_code : option Z) (body : string)
    : CronM HttpError unit :=
  let* m := found_row (crons_get_monitor_by_ping_key key) in
  let* output := if String.eqb body "" then ret None
                 else let* o := cron_of_run (truncate_output body) in ret (Some o) in
  ping_report env m exit_code output.

(** * checkins.rs *)

Definition is_failure_status (s : CheckInStatus) : bool :=
  match s with CI_Error | CI_Missed | CI_Timeout => true | CI_InProgress | CI_Ok => false end.

Definition truncate_opt {E} (o : option string) : CronM E (option string) :=
  match o with
  | None => ret None
  | Some s => let* s := cron_of_run (truncate_output s) in ret (Some s)
  end.

(** The event of a check-in with a status. *)
Definition checkin_event {E} (m : Monitor) (status : CheckInStatus) (checkin_id : Uuid)
    (duration_ms exit_code : option Z) (now : Z) : CronM E CronStreamEvent :=
  match status with
  | CI_InProgress => ret (CE_CheckInStarted (mo_id m) (mo_slug m) checkin_id now)
  | CI_Ok => ret (CE_CheckInOk (mo_id m) (mo_slug m) checkin_id duration_ms now)
  | CI_Error | CI_Missed | CI_Timeout => checkin_error m checkin_id exit_code now
  end.

Definition create_checkin (env : Env) (locale : string) (user_id : Uuid) (slug : string)
    (req : CreateCheckInRequest) : CronM HttpError (Uuid * CheckInStatus) :=
  let* _ := cron_verify_org_membership (cq_org_id req) user_id locale in
  let* m := found_row (crons_get_monitor_by_slug (cq_org_id req) slug) in
  let now := env_now env 0 in
  let* output := truncate_opt (cq_output req) in
  let checkin := mkCheckIn (env_uuid env 0) (mo_id m) (cq_status req)
    (match cq_started_at req with
     | Some t => Some t
     | None => if decide (cq_status req = CI_InProgress) then Some now else None
     end)
    (default now (cq_finished_at req)) (cq_duration_ms req) (cq_environment req)
    (cq_release req) (cq_exit_code req) output (cq_crash_event_id req) CS_Sdk now in
  let* _ := crepo (fun _ => bare 500) (crons_create_checkin checkin) in
  let is_failure := is_failure_status (cq_status req) in
  let* _ := if decide (cq_status req = CI_InProgress) then ret tt
            else record_report env 1 (mo_id m) (report_health is_failure) (cq_status req)
                   (next_expected (mo_schedule m) (mo_timezone m) now) is_failure in
  let* e := checkin_event m (cq_status req) (ci_id checkin) (cq_duration_ms req)
              (cq_exit_code req) (env_now env 5) in
  let* _ := cron_send (mo_org_id m) e in
  ret (ci_id checkin, ci_status checkin).

(** [(end - start).num_milliseconds() as u64]; the quotient is truncated. *)
Definition elapsed_ms (start stop : Z) : Z := wrap_u64 (Z.quot (stop - start) (10 ^ 6)).

(** The fields an update of a check-in sets. *)
Definition updated_checkin (c : CheckIn) (req : UpdateCheckInRequest) (output : option string)
    (now : Z) : CheckIn :=
  let finished_at := default now (uq_finished_at req) in
  mkCheckIn (ci_id c) (ci_monitor_id c) (uq_status req) (ci_started_at c) finished_at
    (match uq_duration_ms req, ci_started_at c with
     | Some d, _ => Some d
     | None, Some started_at => Some (elapsed_ms started_at finished_at)
     | None, None => ci_duration_ms c
     end)
    (ci_environment c) (ci_release c)
    (match uq_exit_code req with Some e => Some e | None => ci_exit_code c end)
    (match output with Some o => Some o | None => ci_output c end)
    (match uq_crash_event_id req with Some e => Some e | None => ci_crash_event_id c end)
    (ci_source c) (ci_created_at c).

Definition update_checkin (env : Env) (locale : string) (user_id id : Uuid)
    (req : UpdateCheckInRequest) : CronM HttpError CheckIn :=
  let* c := found_row (crons_get_checkin_by_id id) in
  let* m := found_row (crons_get_monitor_by_id (ci_monitor_id c)) in
  let* _ := cron_verify_org_membership (mo_org_id m) user_id locale in
  let now := env_now env 0 in
  let* output := truncate_opt (uq_output req) in
  let c := updated_checkin c req output now in
  let* _ := crepo (fun _ => bare 500) (crons_update_checkin c) in
  let is_failure := is_failure_status (uq_status req) in
  let* r := try_crepo (crons_get_monitor_by_id (ci_monitor_id c)) in
  let next := match r with
              | Ok (Some m) => next_expected (mo_schedule m) (mo_timezone m) now
              | _ => None
              end in
  let* _ := record_report env 1 (ci_monitor_id c) (report_health is_failure) (uq_status req) next
              is_failure in
  let* e := checkin_event m (uq_status req) (ci_id c) (ci_duration_ms c) (ci_exit_code c)
              (env_now env 5) in
  let* _ := cron_send (mo_org_id m) e in
  ret c.

Definition get_checkin (locale : string) (user_id id : Uuid) : CronM HttpError CheckIn :=
  let* c := found_row (crons_get_checkin_by_id id) in
  let* m := found_row (crons_get_monitor_by_id (ci_monitor_id c)) in
  let* _ := cron_verify_org_membership (mo_org_id m) user_id locale in
  ret c.

(** * monitors.rs *)

Definition list_monitors (locale : string) (user_id org_id : Uuid)
    : CronM HttpError (list MonitorSummary) :=
  let* _ := cron_verify_org_membership org_id user_id locale in
  let* monitors := crepo (fun _ => bare 500) (crons_list_monitors org_id) in
  ret (map monitor_summary monitors).

Definition new_monitor (id : Uuid) (ping_key : string) (req : CreateMonitorRequest) (now : Z)
    : Monitor :=
  mkMonitor id (cm_org_id req) (cm_slug req) (cm_name req) (cm_description req) MS_Active MH_Unknown
    (cm_schedule req) (cm_timezone req) (cm_checkin_margin_minutes req)
    (cm_max_runtime_minutes req) ping_key (cm_environments req) None None
    (next_expected (cm_schedule req) (cm_timezone req) now) 0 0 0 now now.

Definition monitor_audit (user_id : Uuid) (m : Monitor) (d : CronAuditDetails) : CronAudit :=
  mkCronAudit user_id (mo_id m) (mo_org_id m) (mo_slug m) d.

(** [generate_ping_key] is the text of the request's first new UUID, the monitor's id is
    the second. *)
Definition create_monitor (env : Env) (locale base_url : string) (user_id : Uuid)
    (req : CreateMonitorRequest) : CronM HttpError (Monitor * string) :=
  let* _ := cron_verify_org_membership (cm_org_id req) user_id locale in
  if negb (Monitor_validate_slug (cm_slug req)) then raise (Failed (http 400 "Invalid slug" ""))
  else
    let* r := try_crepo (crons_get_monitor_by_slug (cm_org_id req) (cm_slug req)) in
    match r with
    | Ok (Some _) => raise (Failed (http 409 "Duplicate slug" ""))
    | _ =>
        let ping_key := uuid_text (env_uuid env 0) in
        let m := new_monitor (env_uuid env 1) ping_key req (env_now env 0) in
        let* _ := crepo (fun _ => bare 500) (crons_create_monitor m) in
        let* _ := cron_audit (monitor_audit user_id m (AD_Created (mo_name m) (mo_schedule m))) in
        ret (m, ping_url base_url m)
    end.

(** A member's monitor by its slug. *)
Definition member_monitor (locale : string) (user_id org_id : Uuid) (slug : string)
    : CronM HttpError Monitor :=
  let* _ := cron_verify_org_membership org_id user_id locale in
  found_row (crons_get_monitor_by_slug org_id slug).

Definition get_monitor (locale : string) (user_id org_id : Uuid) (slug : string)
    : CronM HttpError Monitor :=
  member_monitor locale user_id org_id slug.

Definition delete_monitor (locale : string) (user_id org_id : Uuid) (slug : string)
    : CronM HttpError unit :=
  let* m := member_monitor locale user_id org_id slug in
  let* _ := crepo (fun _ => bare 500) (crons_delete_monitor (mo_id m)) in
  cron_audit (monitor_audit user_id m (AD_Deleted (mo_name m))).

(** A monitor with other settings. *)
Definition with_settings (m : Monitor) (name : string) (description : option string)
    (status : MonitorStatus) (schedule : MonitorSchedule) (timezone : string) (margin : Z)
    (max_runtime : option Z) (environments : list string) (next_expected_at : option Z)
    : Monitor :=
  mkMonitor (mo_id m) (mo_org_id m) (mo_slug m) name description status (mo_health m) schedule
    timezone margin max_runtime (mo_ping_key m) environments (mo_last_checkin_at m)
    (mo_last_checkin_status m) next_expected_at (mo_consecutive_failures m)
    (mo_total_checkins m) (mo_total_failures m) (mo_created_at m) (mo_updated_at m).

(** The updates in the order of the code: the schedule is used with the old time zone and
    then with the new one. *)
Definition apply_update (env : Env) (req : UpdateMonitorRequest) (m : Monitor) : Monitor :=
  let schedule := default (mo_schedule m) (um_schedule req) in
  let next := match um_schedule req with
              | Some s => next_expected s (mo_timezone m) (env_now env 0)
              | None => mo_next_expected_at m
              end in
  let next := match um_timezone req with
              | Some tz => next_expected schedule tz (env_now env 1)
              | None => next
              end in
  with_settings m (default (mo_name m) (um_name req))
    (match um_description req with Some d => Some d | None => mo_description m end)
    (mo_status m) schedule (default (mo_timezone m) (um_timezone req))
    (default (mo_checkin_margin_minutes m) (um_checkin_margin_minutes req))
    (default (mo_max_runtime_minutes m) (um_max_runtime_minutes req))
    (default (mo_environments m) (um_environments req)) next.

Definition changes_of (req : UpdateMonitorRequest) (m : Monitor) : list MonitorChange :=
  match um_name req with Some v => [Ch_Name (mo_name m) v] | None => [] end
  ++ match um_description req with Some v => [Ch_Description (mo_description m) v] | None => [] end
  ++ match um_schedule req with Some v => [Ch_Schedule (mo_schedule m) v] | None => [] end
  ++ match um_timezone req with Some v => [Ch_Timezone (mo_timezone m) v] | None => [] end
  ++ match um_checkin_margin_minutes req with
     | Some v => [Ch_Margin (mo_checkin_margin_minutes m) v]
     | None => []
     end
  ++ match um_max_runtime_minutes req with
     | Some v => [Ch_MaxRuntime (mo_max_runtime_minutes m) v]
     | None => []
     end
  ++ match um_environments req with Some v => [Ch_Environments (mo_environments m) v] | None => [] end.

Definition update_monitor (env : Env) (locale : string) (user_id : Uuid) (slug : string)
    (req : UpdateMonitorRequest) : CronM HttpError Monitor :=
  let* m := member_monitor locale user_id (um_org_id req) slug in
  let m' := apply_update env req m in
  let* _ := crepo (fun _ => bare 500) (crons_update_monitor m' (env_now env 2)) in
  let* _ := cron_audit (monitor_audit user_id m' (AD_Updated (changes_of req m))) in
  ret m'.

Definition with_status (m : Monitor) (status : MonitorStatus) (next_expected_at : option Z)
    : Monitor :=
  with_settings m (mo_name m) (mo_description m) status (mo_schedule m) (mo_timezone m)
    (mo_checkin_margin_minutes m) (mo_max_runtime_minutes m) (mo_environments m)
    next_expected_at.

Definition pause_monitor (env : Env) (locale : string) (user_id org_id : Uuid) (slug : string)
    : CronM HttpError Monitor :=
  let* m := member_monitor locale user_id org_id slug in
  let m' := with_status m MS_Paused (mo_next_expected_at m) in
  let* _ := crepo (fun _ => bare 500) (crons_update_monitor m' (env_now env 0)) in
  let* _ := cron_audit (monitor_audit user_id m' (AD_Paused (mo_status m))) in
  ret m'.

Definition resume_monitor (env : Env) (locale : string) (user_id org_id : Uuid) (slug : string)
    : CronM HttpError Monitor :=
  let* m := member_monitor locale user_id org_id slug in
  let m' := with_status m MS_Active (next_expected (mo_schedule m) (mo_timezone m) (env_now env 0)) in
  let* _ := crepo (fun _ => bare 500) (crons_update_monitor m' (env_now env 1)) in
  let* _ := cron_audit (monitor_audit user_id m' (AD_Resumed (mo_status m))) in
  ret m'.

Definition list_checkins (locale : string) (user_id org_id : Uuid) (slug : string)
    (limit : option Z) : CronM HttpError (list CheckIn) :=
  let* m := member_monitor locale user_id org_id slug in
  crepo (fun _ => bare 500) (crons_list_checkins (mo_id m) (default 50 limit)%Z).

(** * stats.rs *)

Definition get_monitor_stats (env : Env) (locale : string) (user_id org_id : Uuid) (slug : string)
    (period : StatsPeriod) : CronM HttpError MonitorStats :=
  let* m := member_monitor locale user_id org_id slug in
  crepo (fun _ => bare 500) (crons_get_monitor_stats (mo_id m) period (env_now env 0) (env_now env 1)).

Record StatsOverview := mkStatsOverview {
  so_total_monitors : Z;
  so_active_monitors : Z;
  so_paused_monitors : Z;
  so_healthy_monitors : Z;
  so_failing_monitors : Z;
  so_missed_monitors : Z;
  so_total_checkins_24h : Z;
  so_total_failures_24h : Z;
  so_overall_uptime_percentage : F64;
}.

(** The sums over the active monitors; [i] numbers the uses of the clock. *)
Fixpoint day_totals (env : Env) (i : nat) (monitors : list Monitor) (checkins failures : Z)
    : CronM HttpError (Z * Z) :=
  match monitors with
  | [] => ret (checkins, failures)
  | m :: monitors =>
      if decide (mo_status m = MS_Active) then
        let* r := try_crepo (crons_get_monitor_stats (mo_id m) SP_Day (env_now env i)
                               (env_now env (i + 1))) in
        match r with
        | Ok s =>
            let* checkins := cron_of_run (add_u64 cron_overflow_checks checkins (sts_total_checkins s)) in
            let* failed := cron_of_run (add_u64 cron_overflow_checks (sts_failed_checkins s)
                                          (sts_missed_checkins s)) in
            let* failed := cron_of_run (add_u64 cron_overflow_checks failed (sts_timeout_checkins s)) in
            let* failures := cron_of_run (add_u64 cron_overflow_checks failures failed) in
            day_totals env (i + 2) monitors checkins failures
        | Err _ => day_totals env (i + 2) monitors checkins failures
        end
      else day_totals env i monitors checkins failures
  end.

Definition monitor_count (p : Monitor -> bool) (l : list Monitor) : Z :=
  Z.of_nat (length (List.filter p l)).

Definition get_stats_overview (env : Env) (locale : string) (user_id org_id : Uuid)
    : CronM HttpError StatsOverview :=
  let* _ := cron_verify_org_membership org_id user_id locale in
  let* monitors := crepo (fun _ => bare 500) (crons_list_monitors org_id) in
  let* totals := day_totals env 0 monitors 0 0 in
  let '(checkins, failures) := totals in
  ret (mkStatsOverview (Z.of_nat (length monitors))
         (monitor_count (fun m => bool_decide (mo_status m = MS_Active)) monitors)
         (monitor_count (fun m => bool_decide (mo_status m = MS_Paused)) monitors)
         (monitor_count (fun m => bool_decide (mo_health m = MH_Healthy)) monitors)
         (monitor_count (fun m => bool_decide (mo_health m = MH_Failing)) monitors)
         (monitor_count (fun m => bool_decide (mo_health m = MH_Missed)) monitors)
         checkins failures
         (if (0 <? checkins)%Z then percent_of (Z.max 0 (checkins - failures)) checkins
          else hundred)).

(** * stream.rs *)

Definition monitor_state (m : Monitor) : MonitorState :=
  mkMonitorState (mo_id m) (mo_slug m) (mo_name m) (mo_status m) (mo_health m)
    (mo_last_checkin_status m) (mo_last_checkin_at m) (mo_next_expected_at m)
    (mo_consecutive_failures m).

(** The first event of the stream; the others are what is sent on the channel from then on. *)
Definition stream_crons (env : Env) (locale : string) (user_id org_id : Uuid)
    : CronM HttpError CronStreamEvent :=
  let* _ := cron_verify_org_membership org_id user_id locale in
  let* monitors := crepo (fun _ => cron_internal_error locale) (crons_list_monitors org_id) in
  let init := CE_Init (map monitor_state monitors) (env_now env 0) in
  fun w => (Ok init, mkCronWorld (cx_conn w) (cron_subscribe org_id (env_now env 1) (cx_broadcaster w))
                       (cx_audit w)).

(** * The background jobs *)

Definition Report : Type := JobOutput Metadata.

Definition detected (what count_field : string) (count : nat) (now : Z) : Report :=
  mkJobOutput ("Detected " +:+ pretty count +:+ " " +:+ what)
    (Some [(count_field, D_Number (Z.of_nat count)); ("checked_at", D_Text (to_rfc3339 now))]).

Definition CronsServerError_to_string (e : CronsServerError) : string :=
  match e with
  | CrE_MonitorNotFound => "monitor not found"
  | CrE_CheckInNotFound => "check-in not found"
  | CrE_InvalidSlug s => "invalid slug: " +:+ s
  | CrE_InvalidCronExpression s => "invalid cron expression: " +:+ s
  | CrE_InvalidTimezone s => "invalid timezone: " +:+ s
  | CrE_DuplicateSlug => "duplicate monitor slug"
  | CrE_InvalidPingKey => "invalid ping key"
  | CrE_Database e => "database error: " +:+ e
  | CrE_Serialization e => "serialization error: " +:+ e
  | CrE_Internal s => "internal error: " +:+ s
  end.

(** ** cron_missed_run.rs *)

Definition missed_checkin (id : Uuid) (m : Monitor) (now : Z) : CheckIn :=
  mkCheckIn id (mo_id m) CI_Missed None now None None None None
    (Some "System-generated: Expected check-in did not arrive") None CS_System now.

(** One overdue monitor, the [i]th; the result is whether it was counted. *)
Definition report_missed (env : Env) (i : nat) (now : Z) (m : Monitor) : CronM JobError bool :=
  let* r := try_crepo (crons_create_checkin (missed_checkin (env_uuid env i) m now)) in
  match r with
  | Err _ => ret false
  | Ok _ =>
      let* _ := record_report env (1 + 4 * i) (mo_id m) MH_Missed CI_Missed
                  (next_expected (mo_schedule m) (mo_timezone m) now) true in
      ret true
  end.

(** The loops ask the cancellation token before each element; [cancelled i] is its answer
    at the [i]th time. *)
Fixpoint report_all {A} (cancelled : nat -> bool) (step : nat -> A -> CronM JobError bool)
    (i : nat) (l : list A) (count : nat) : CronM JobError nat :=
  match l with
  | [] => ret count
  | a :: l =>
      if cancelled (S i) then raise (Failed JE_Cancelled)
      else
        let* counted := step i a in
        report_all cancelled step (S i) l (if counted : bool then S count else count)
  end.

Definition cron_missed_run (env : Env) (cancelled : nat -> bool) : CronM JobError Report :=
  if cancelled 0 then raise (Failed JE_Cancelled)
  else
    let now := env_now env 0 in
    let* overdue := crepo (fun e => JE_Failed ("Failed to query overdue monitors: "
                                       +:+ CronsServerError_to_string e) true)
                      (crons_list_overdue_monitors now) in
    let* missed_count := report_all cancelled (fun i => report_missed env i now) 0 overdue 0 in
    ret (detected "missed cron runs" "missed_count" missed_count now).

(** ** cron_timeout.rs *)

Definition timed_out_checkin (c : CheckIn) (m : Monitor) (now : Z) : CheckIn :=
  mkCheckIn (ci_id c) (ci_monitor_id c) CI_Timeout (ci_started_at c) now
    (match ci_started_at c with
     | Some started_at => Some (elapsed_ms started_at now)
     | None => ci_duration_ms c
     end)
    (ci_environment c) (ci_release c) (ci_exit_code c)
    (Some ("System-generated: Job exceeded max runtime of "
           +:+ pretty (Z.to_N (default 0%Z (mo_max_runtime_minutes m))) +:+ " minutes"))
    (ci_crash_event_id c) (ci_source c) (ci_created_at c).

Definition report_timeout (env : Env) (i : nat) (now : Z) (p : CheckIn * Monitor)
    : CronM JobError bool :=
  let '(c, m) := p in
  let* r := try_crepo (crons_update_checkin (timed_out_checkin c m now)) in
  match r with
  | Err _ => ret false
  | Ok _ =>
      let* _ := try_crepo (crons_update_monitor_health (mo_id m) MH_Timeout
                             (env_now env (1 + 2 * i))) in
      let* _ := try_crepo (crons_increment_monitor_stats (mo_id m) true
                             (env_now env (2 + 2 * i))) in
      ret true
  end.

Definition cron_timeout (env : Env) (cancelled : nat -> bool) : CronM JobError Report :=
  if cancelled 0 then raise (Failed JE_Cancelled)
  else
    let now := env_now env 0 in
    let* timed_out := crepo (fun e => JE_Failed ("Failed to query timed-out check-ins: "
                                         +:+ CronsServerError_to_string e) true)
                        (crons_list_timed_out_checkins now) in
    let* timeout_count := report_all cancelled (fun i => report_timeout env i now) 0 timed_out 0 in
    ret (detected "timed out check-ins" "timeout_count" timeout_count now).

(** * The server *)

(** The routes of [api.rs] for which the caller is authenticated. *)
Inductive CronRequest :=
| CR_ListMonitors (org_id : Uuid)
| CR_CreateMonitor (req : CreateMonitorRequest)
| CR_GetMonitor (org_id : Uuid) (slug : string)
| CR_UpdateMonitor (slug : string) (req : UpdateMonitorRequest)
| CR_DeleteMonitor (org_id : Uuid) (slug : string)
| CR_PauseMonitor (org_id : Uuid) (slug : string)
| CR_ResumeMonitor (org_id : Uuid) (slug : string)
| CR_ListCheckIns (org_id : Uuid) (slug : string) (limit : option Z)
| CR_CreateCheckIn (slug : string) (req : CreateCheckInRequest)
| CR_GetCheckIn (id : Uuid)
| CR_UpdateCheckIn (id : Uuid) (req : UpdateCheckInRequest)
| CR_Stream (org_id : Uuid)
| CR_MonitorStats (org_id : Uuid) (slug : string) (period : StatsPeriod)
| CR_Overview (org_id : Uuid).

Definition dropped {E A} (m : CronM E A) : CronM E unit := let* _ := m in ret tt.

Definition serve_cron_user (env : Env) (locale base_url : string) (user_id : Uuid) (r : CronRequest)
    : CronM HttpError unit :=
  match r with
  | CR_ListMonitors org_id => dropped (list_monitors locale user_id org_id)
  | CR_CreateMonitor req => dropped (create_monitor env locale base_url user_id req)
  | CR_GetMonitor org_id slug => dropped (get_monitor locale user_id org_id slug)
  | CR_UpdateMonitor slug req => dropped (update_monitor env locale user_id slug req)
  | CR_DeleteMonitor org_id slug => delete_monitor locale user_id org_id slug
  | CR_PauseMonitor org_id slug => dropped (pause_monitor env locale user_id org_id slug)
  | CR_ResumeMonitor org_id slug => dropped (resume_monitor env locale user_id org_id slug)
  | CR_ListCheckIns org_id slug limit => dropped (list_checkins locale user_id org_id slug limit)
  | CR_CreateCheckIn slug req => dropped (create_checkin env locale user_id slug req)
  | CR_GetCheckIn id => dropped (get_checkin locale user_id id)
  | CR_UpdateCheckIn id req => dropped (update_checkin env locale user_id id req)
  | CR_Stream org_id => dropped (stream_crons env locale user_id org_id)
  | CR_MonitorStats org_id slug period =>
      dropped (get_monitor_stats env locale user_id org_id slug period)
  | CR_Overview org_id => dropped (get_stats_overview env locale user_id org_id)
  end.

(** The public routes: a ping with a body is a [POST]. *)
Inductive Ping :=
| Ping_Success (exit_code : option Z)
| Ping_Start
| Ping_Fail (exit_code : option Z)
| Ping_Body (exit_code : option Z) (body : string).

Definition serve_ping (env : Env) (key : string) (p : Ping) : CronM HttpError unit :=
  match p with
  | Ping_Success exit_code => ping_success env key exit_code
  | Ping_Start => dropped (ping_start env key)
  | Ping_Fail exit_code => ping_fail env key exit_code
  | Ping_Body exit_code body => ping_with_body env key exit_code body
  end.

(** What happens to the server, one after the other: a request of a user, a ping, a job. *)
Inductive CronStep :=
| Cron_User (env : Env) (locale base_url : string) (user_id : Uuid) (r : CronRequest)
| Cron_Ping (env : Env) (key : string) (p : Ping)
| Cron_MissedRun (env : Env) (cancelled : nat -> bool)
| Cron_Timeout (env : Env) (cancelled : nat -> bool).

Definition cron_step (s : CronStep) (w : CronWorld) : CronWorld :=
  match s with
  | Cron_User env locale base_url user_id r => (serve_cron_user env locale base_url user_id r w).2
  | Cron_Ping env key p => (serve_ping env key p w).2
  | Cron_MissedRun env cancelled => (cron_missed_run env cancelled w).2
  | Cron_Timeout env cancelled => (cron_timeout env cancelled w).2
  end.

Definition cron_steps (l : list CronStep) (w : CronWorld) : CronWorld :=
  foldl (fun w s => cron_step s w) w l.
End Routes.
