(* ===== verification/CronInvariant.v ===== *)
(** The invariant of the tables of cron monitoring, and that every request, ping and job
    keeps it, whatever statement fails: keys are unique, references hold, the counters of
    a monitor are ordered, and they cover its finished check-ins but for as many as
    statements have failed. *)
From stdpp Require Import base gmap list strings.
From Stdlib Require Import ZArith Lia Ascii.
From S2P Require Import Prelude Text CoreTypes Effects Sql Columns JobModel CronModel CronRepo CronRoutes.
Local Open Scope Z_scope.

(** * The tables *)

Definition of_monitor (id : string) (c : CheckInRow) : bool := String.eqb (kw_monitor_id c) id.

(** A finished check-in, and a failed one. *)
Definition finished_row (c : CheckInRow) : bool := negb (String.eqb (kw_status c) "in_progress").
Definition failed_row (c : CheckInRow) : bool :=
  existsb (String.eqb (kw_status c)) ["error"; "missed"; "timeout"]%string.

Definition finished_of (id : string) (t : CronTables) : nat :=
  count_where (fun c => of_monitor id c && finished_row c) (ct_checkins t).
Definition failed_of (id : string) (t : CronTables) : nat :=
  count_where (fun c => of_monitor id c && failed_row c) (ct_checkins t).

(** A check-in that has not been counted yet: its monitor, and whether it failed. *)
Definition owed_finished (pending : option (string * bool)) (id : string) : Z :=
  match pending with Some (i, _) => if String.eqb i id then 1 else 0 | None => 0 end.
Definition owed_failed (pending : option (string * bool)) (id : string) : Z :=
  match pending with Some (i, true) => if String.eqb i id then 1 else 0 | _ => 0 end.

(** The counters of a monitor. *)
Definition counters_ok (lost : nat) (pending : option (string * bool)) (t : CronTables)
    (m : MonitorRow) : Prop :=
  0 <= mw_consecutive_failures m <= mw_total_failures m
  /\ mw_total_failures m <= mw_total_checkins m
  /\ Z.of_nat (finished_of (mw_id m) t) <=
       mw_total_checkins m + Z.of_nat lost + owed_finished pending (mw_id m)
  /\ Z.of_nat (failed_of (mw_id m) t) <=
       mw_total_failures m + Z.of_nat lost + owed_failed pending (mw_id m).

Section Invariant.
Context `{CB : CronBackend}.

Definition canonical (s : string) : Prop := exists u, s = uuid_text u.

Record cron_inv (lost : nat) (pending : option (string * bool)) (t : CronTables) : Prop := {
  inv_ids : NoDup (mw_id <$> ct_monitors t);
  inv_keys : NoDup (mw_ping_key <$> ct_monitors t);
  inv_slugs : NoDup ((fun m => (mw_org_id m, mw_slug m)) <$> ct_monitors t);
  inv_checkin_ids : NoDup (kw_id <$> ct_checkins t);
  inv_monitor_texts : Forall (fun m => canonical (mw_id m) /\ canonical (mw_org_id m)) (ct_monitors t);
  inv_checkin_texts : Forall (fun c => canonical (kw_id c)) (ct_checkins t);
  inv_refer : Forall (fun c => kw_monitor_id c ∈ mw_id <$> ct_monitors t) (ct_checkins t);
  inv_orgs : Forall (fun m => mw_org_id m ∈ ct_organizations t) (ct_monitors t);
  inv_counters : Forall (counters_ok lost pending t) (ct_monitors t);
}.

(** Statements that have failed count as lost. *)
Definition conn_ok (B : nat) (pending : option (string * bool)) (c : Conn CronTables) : Prop :=
  exists lost, B = (lost + faults_left c)%nat /\ cron_inv lost pending (cn_tables c).

Lemma cron_inv_weaken lost lost' p t : (lost <= lost')%nat -> cron_inv lost p t -> cron_inv lost' p t.
Proof.
  intros Hl [H1 H2 H3 H4 H5 H6 H7 H8 H9]. split; try done.
  eapply Forall_impl; [exact H9|]. intros m (? & ? & ? & ?). unfold counters_ok.
  split_and!; lia.
Qed.

Lemma cron_inv_lose lost p t : cron_inv lost p t -> cron_inv (S lost) None t.
Proof.
  intros [H1 H2 H3 H4 H5 H6 H7 H8 H9]. split; try done.
  eapply Forall_impl; [exact H9|]. intros m (? & ? & Hf & Hg). unfold counters_ok.
  assert (owed_finished p (mw_id m) <= 1 /\ owed_failed p (mw_id m) <= 1) as [? ?].
  { unfold owed_finished, owed_failed. destruct p as [[i []]|]; try case_match; lia. }
  cbn [owed_finished owed_failed]. split_and!; lia.
Qed.

Lemma stable_conn_ok B p : stable (conn_ok B p).
Proof.
  intros c c' Ht Hf (lost & -> & H). exists (lost + (faults_left c - faults_left c'))%nat.
  split; [lia|]. rewrite Ht. eapply cron_inv_weaken; [|done]. lia.
Qed.

(** ** Updates of monitors *)

(** The columns that do not change. *)
Definition fixed_columns (f : MonitorRow -> MonitorRow) : Prop := forall m,
  mw_id (f m) = mw_id m /\ mw_org_id (f m) = mw_org_id m /\ mw_slug (f m) = mw_slug m
  /\ mw_ping_key (f m) = mw_ping_key m.

Lemma cron_inv_update lost p p' t q f : fixed_columns f ->
  (forall m, counters_ok lost p t m -> counters_ok lost p' t (if (q m : bool) then f m else m)) ->
  cron_inv lost p t -> cron_inv lost p' (put_monitors (update_where q f (ct_monitors t)) t).
Proof.
  intros Hf Hc [H1 H2 H3 H4 H5 H6 H7 H8 H9].
  assert (Hid : mw_id <$> update_where q f (ct_monitors t) = mw_id <$> ct_monitors t).
  { apply update_where_fmap. intros m _ _. apply Hf. }
  split; cbn [put_monitors ct_organizations ct_monitors ct_checkins]; try done.
  - by rewrite Hid.
  - rewrite update_where_fmap; [done|]. intros m _ _. apply Hf.
  - rewrite update_where_fmap; [done|]. intros m _ _. destruct (Hf m) as (_ & -> & -> & _). done.
  - apply Forall_forall. intros m (r & Hr & ->)%elem_of_update_where.
    destruct (proj1 (Forall_forall _ _) H5 r Hr). destruct (q r); [|done].
    destruct (Hf r) as (-> & -> & _). done.
  - eapply Forall_impl; [exact H7|]. intros c Hm. by rewrite Hid.
  - apply Forall_forall. intros m (r & Hr & ->)%elem_of_update_where.
    assert (Ho := proj1 (Forall_forall _ _) H8 r Hr). destruct (q r); [|done].
    destruct (Hf r) as (_ & -> & _). done.
  - apply Forall_forall. intros m (r & Hr & ->)%elem_of_update_where.
    assert (Hm := Hc r (proj1 (Forall_forall _ _) H9 r Hr)). exact Hm.
Qed.

(** An update that leaves the counters alone. *)
Definition neutral (f : MonitorRow -> MonitorRow) : Prop := fixed_columns f /\ forall m,
  mw_consecutive_failures (f m) = mw_consecutive_failures m
  /\ mw_total_checkins (f m) = mw_total_checkins m
  /\ mw_total_failures (f m) = mw_total_failures m.

Lemma cron_inv_neutral lost p t q f : neutral f ->
  cron_inv lost p t -> cron_inv lost p (put_monitors (update_where q f (ct_monitors t)) t).
Proof.
  intros [Hf Hn]. apply cron_inv_update; [done|]. intros m Hm. destruct (q m); [|done].
  unfold counters_ok in *. destruct (Hf m) as (-> & _), (Hn m) as (-> & -> & ->). done.
Qed.

Lemma neutral_config m now : neutral (config_columns m now).
Proof. by split. Qed.
Lemma neutral_health h now : neutral (health_columns h now).
Proof. by split. Qed.
Lemma neutral_last s n a b : neutral (last_checkin_columns s n a b).
Proof. by split. Qed.
Lemma fixed_stats b now : fixed_columns (stats_columns b now).
Proof. done. Qed.

(** Counting pays what is owed. *)
Lemma cron_inv_stats lost p t id b now : p = None \/ p = Some (id, b) ->
  cron_inv lost p t ->
  cron_inv lost None (put_monitors (update_where (monitor_is id) (stats_columns b now) (ct_monitors t)) t).
Proof.
  intros Hp. apply cron_inv_update; [apply fixed_stats|].
  intros m (Hc & Ht & Hn & Hg). unfold counters_ok, monitor_is.
  assert (Ho : owed_finished p (mw_id m) <= (if String.eqb (mw_id m) id then 1 else 0)
               /\ owed_failed p (mw_id m) <= (if String.eqb (mw_id m) id && b then 1 else 0)).
  { unfold owed_finished, owed_failed. rewrite (String.eqb_sym (mw_id m)).
    destruct Hp as [-> | ->]; destruct (String.eqb _ _), b; cbn; lia. }
  destruct (String.eqb (mw_id m) id); cbn [andb] in Ho;
    cbn [stats_columns state_columns mw_id mw_consecutive_failures mw_total_failures mw_total_checkins
         owed_finished owed_failed]; destruct b; lia.
Qed.

(** ** New rows *)

Lemma cron_inv_new_monitor lost t r u v : mw_id r = uuid_text u -> mw_org_id r = uuid_text v ->
  mw_consecutive_failures r = 0 -> mw_total_failures r = 0 -> mw_total_checkins r = 0 ->
  cron_inv lost None t -> forall t', insert_monitor r t = Some (tt, t') -> cron_inv lost None t'.
Proof.
  intros Hid Horg Hc Hf Ht [H1 H2 H3 H4 H5 H6 H7 H8 H9] t' H. unfold insert_monitor in H.
  destruct (existsb _ _) eqn:Ho; [|done]. destruct (existsb (fun m => _) _) eqn:Hex; [done|].
  injection H as <-.
  assert (Hnew : forall m, m ∈ ct_monitors t -> mw_id m <> mw_id r
                  /\ mw_ping_key m <> mw_ping_key r /\ (mw_org_id m, mw_slug m) <> (mw_org_id r, mw_slug r)).
  { intros m Hm. assert (E : (fun m => monitor_is (mw_id r) m || String.eqb (mw_ping_key m) (mw_ping_key r)
       || (String.eqb (mw_org_id m) (mw_org_id r) && String.eqb (mw_slug m) (mw_slug r))) m = false).
    { apply not_true_iff_false. intros E. apply not_true_iff_false in Hex. apply Hex.
      apply List.existsb_exists. exists m. rewrite <- list_elem_of_In. done. }
    unfold monitor_is in E. apply orb_false_iff in E as [[E1 E2]%orb_false_iff E3].
    rewrite String.eqb_neq in E1, E2. split_and!; [done..|]. intros [= Ea Eb].
    rewrite Ea, Eb, !String.eqb_refl in E3. done. }
  assert (Hsnoc : forall {B} (g : MonitorRow -> B), NoDup (g <$> ct_monitors t) ->
                    (forall m, m ∈ ct_monitors t -> g m <> g r) -> NoDup (g <$> (ct_monitors t ++ [r]))).
  { intros B g Hg Hn. rewrite fmap_app. apply NoDup_app. split_and!; [done| |apply NoDup_singleton].
    intros x (m & -> & Hm)%list_elem_of_fmap Hx%list_elem_of_singleton. by apply (Hn m). }
  assert (Hnone : forall q, count_where (fun c => of_monitor (mw_id r) c && q c) (ct_checkins t) = 0%nat).
  { intros q. apply count_where_None, select_one_None, Forall_forall. intros c Hc'.
    assert (Hm := proj1 (Forall_forall _ _) H7 c Hc').
    apply list_elem_of_fmap in Hm as (m & Em & Hm). unfold of_monitor.
    destruct (String.eqb_spec (kw_monitor_id c) (mw_id r)) as [E|]; [|done].
    destruct (Hnew m Hm) as [Hne _]. congruence. }
  split; cbn [put_monitors ct_organizations ct_monitors ct_checkins]; try done.
  - apply Hsnoc; [done|]. intros m Hm. apply Hnew, Hm.
  - apply Hsnoc; [done|]. intros m Hm. apply Hnew, Hm.
  - apply Hsnoc; [done|]. intros m Hm. apply Hnew, Hm.
  - apply Forall_app. split; [done|]. constructor; [|done]. by split; [exists u|exists v].
  - eapply Forall_impl; [exact H7|]. intros c Hm. rewrite fmap_app. by apply elem_of_app; left.
  - apply Forall_app. split; [done|]. constructor; [|done].
    apply List.existsb_exists in Ho as (o & Ho & <-%String.eqb_eq). by apply list_elem_of_In.
  - apply Forall_app. split; [exact H9|]. constructor; [|done].
    unfold counters_ok, finished_of, failed_of. cbn [put_monitors ct_checkins].
    rewrite !Hnone, Hc, Hf, Ht. cbn. lia.
Qed.

(** What a check-in with a status leaves to count. *)
Definition owes (id : string) (status : CheckInStatus) : option (string * bool) :=
  match status with
  | CI_InProgress => None
  | _ => Some (id, is_failure_status status)
  end.

Lemma row_status (r : CheckInRow) s : kw_status r = CheckInStatus_to_string s ->
  finished_row r = (if decide (s = CI_InProgress) then false else true)
  /\ failed_row r = is_failure_status s.
Proof. unfold finished_row, failed_row. intros ->. by destruct s. Qed.

Lemma owes_counts id s m : (if String.eqb id m then 1 else 0) * (if decide (s = CI_InProgress) then 0 else 1)
    = owed_finished (owes id s) m
  /\ (if String.eqb id m then 1 else 0) * (if is_failure_status s then 1 else 0)
    = owed_failed (owes id s) m.
Proof. destruct s; cbn; destruct (String.eqb id m); done. Qed.

(** A new list of check-ins. *)
Lemma cron_inv_checkins lost p p' t ks :
  NoDup (kw_id <$> ks) -> Forall (fun c => canonical (kw_id c)) ks ->
  Forall (fun c => kw_monitor_id c ∈ mw_id <$> ct_monitors t) ks ->
  (forall id, Z.of_nat (count_where (fun c => of_monitor id c && finished_row c) ks)
                + owed_finished p id <= Z.of_nat (finished_of id t) + owed_finished p' id
              /\ Z.of_nat (count_where (fun c => of_monitor id c && failed_row c) ks)
                   + owed_failed p id <= Z.of_nat (failed_of id t) + owed_failed p' id) ->
  cron_inv lost p t -> cron_inv lost p' (put_checkins ks t).
Proof.
  intros Hn Hk Hr Hc [H1 H2 H3 H4 H5 H6 H7 H8 H9]. split; try done.
  eapply Forall_impl; [exact H9|]. intros m (? & ? & Hf & Hg). unfold counters_ok.
  unfold finished_of, failed_of in *. cbn [put_checkins ct_checkins].
  destruct (Hc (mw_id m)). split_and!; lia.
Qed.

Lemma cron_inv_new_checkin lost t r s u : kw_id r = uuid_text u ->
  kw_status r = CheckInStatus_to_string s -> cron_inv lost None t ->
  forall t', insert_checkin r t = Some (tt, t') -> cron_inv lost (owes (kw_monitor_id r) s) t'.
Proof.
  intros Hu [Hfin Hfail]%row_status Hinv t' H. unfold insert_checkin in H.
  destruct (existsb (monitor_is _) _) eqn:Hm; [|done].
  destruct (existsb (checkin_is _) _) eqn:Hex; [done|]. injection H as <-.
  eapply (cron_inv_checkins lost None); [..|done].
  - rewrite fmap_app. apply NoDup_app. split_and!; [apply Hinv| |apply NoDup_singleton].
    intros x (c & -> & Hc)%list_elem_of_fmap Hx%list_elem_of_singleton.
    apply not_true_iff_false in Hex. apply Hex, List.existsb_exists. exists c.
    rewrite <- list_elem_of_In. split; [done|]. apply String.eqb_eq, Hx.
  - apply Forall_app. split; [apply Hinv|]. constructor; [by exists u|done].
  - apply Forall_app. split; [apply Hinv|]. constructor; [|done].
    apply List.existsb_exists in Hm as (m & Hm & E%String.eqb_eq).
    apply list_elem_of_fmap. exists m. by rewrite list_elem_of_In.
  - intros id. rewrite !count_where_snoc, Hfin, Hfail. unfold finished_of, failed_of.
    change (of_monitor id r) with (String.eqb (kw_monitor_id r) id).
    destruct (owes_counts (kw_monitor_id r) s id) as [<- <-].
    destruct (String.eqb _ id), (decide _), (is_failure_status s); cbn [owed_finished owed_failed andb]; lia.
Qed.

Lemma count_where_update_key {R K} (g : R -> K) (p q : R -> bool) f l k :
  NoDup (g <$> l) -> (forall r, p r = true -> g r = k) ->
  (count_where q (update_where p f l) <= S (count_where q l))%nat.
Proof.
  intros Hl Hp. induction l as [|r l IH]; [by apply Nat.le_0_l|]. cbn in Hl. apply NoDup_cons in Hl as [Hr Hl].
  destruct (p r) eqn:Er.
  - assert (E : update_where p f l = l).
    { apply update_where_id. intros x Hx Ex. exfalso. apply Hr.
      rewrite (Hp r Er), <- (Hp x Ex). apply list_elem_of_fmap. by exists x. }
    unfold update_where, count_where in *. cbn [map List.filter]. rewrite Er, E.
    destruct (q (f r)), (q r); cbn [length]; lia.
  - specialize (IH Hl). unfold update_where, count_where in *. cbn [map List.filter]. rewrite Er.
    destruct (q r); cbn [length]; lia.
Qed.

(** The check-ins with an id belong to a monitor. *)
Definition bound_to (id : string) (m : string) (t : CronTables) : Prop :=
  forall c, c ∈ ct_checkins t -> kw_id c = id -> kw_monitor_id c = m.

Definition update_checkins (id : string) (f : CheckInRow -> CheckInRow) (t : CronTables) : CronTables :=
  put_checkins (update_where (checkin_is id) f (ct_checkins t)) t.

Lemma cron_inv_update_checkin lost t c : bound_to (uuid_text (ci_id c)) (uuid_text (ci_monitor_id c)) t ->
  cron_inv lost None t ->
  cron_inv lost (owes (uuid_text (ci_monitor_id c)) (ci_status c))
    (update_checkins (uuid_text (ci_id c)) (result_columns c) t).
Proof.
  intros Hb Hinv. assert (Hstat : forall r, finished_row (result_columns c r) =
      (if decide (ci_status c = CI_InProgress) then false else true)
      /\ failed_row (result_columns c r) = is_failure_status (ci_status c)).
  { intros r. by apply row_status. }
  eapply (cron_inv_checkins lost None); [..|done].
  - rewrite update_where_fmap by done. apply Hinv.
  - apply Forall_forall. intros r (r0 & Hr & ->)%elem_of_update_where.
    assert (H := proj1 (Forall_forall _ _) (inv_checkin_texts _ _ _ Hinv) r0 Hr). by destruct (checkin_is _ _).
  - apply Forall_forall. intros r (r0 & Hr & ->)%elem_of_update_where.
    assert (H := proj1 (Forall_forall _ _) (inv_refer _ _ _ Hinv) r0 Hr). by destruct (checkin_is _ _).
  - intros id. destruct (owes_counts (uuid_text (ci_monitor_id c)) (ci_status c) id) as [<- <-].
    assert (Hone := fun q => count_where_update_key kw_id (checkin_is (uuid_text (ci_id c))) q
      (result_columns c) (ct_checkins t) (uuid_text (ci_id c)) (inv_checkin_ids _ _ _ Hinv)
      ltac:(intros r; apply String.eqb_eq)).
    assert (Hle := fun q H => count_where_update_le (checkin_is (uuid_text (ci_id c))) q
      (result_columns c) (ct_checkins t) H).
    assert (Hmon : forall r, r ∈ ct_checkins t -> checkin_is (uuid_text (ci_id c)) r = true ->
      of_monitor id (result_columns c r) = String.eqb (uuid_text (ci_monitor_id c)) id).
    { intros r Hr E%String.eqb_eq. unfold of_monitor. cbn. by rewrite (Hb r Hr E). }
    unfold finished_of, failed_of. cbn [owed_finished owed_failed]. split.
    + specialize (Hone (fun c => of_monitor id c && finished_row c)).
      destruct (String.eqb (uuid_text (ci_monitor_id c)) id && negb (bool_decide (ci_status c = CI_InProgress))) eqn:E.
      * apply andb_true_iff in E as [-> E]. destruct (decide _); [by rewrite bool_decide_true in E|]. lia.
      * specialize (Hle (fun c => of_monitor id c && finished_row c)). apply Z.add_le_mono; [|destruct (String.eqb _ _), (decide _); lia].
        apply inj_le, Hle. intros r Hr Hp. rewrite (Hmon r Hr Hp), (proj1 (Hstat r)).
        destruct (String.eqb _ id); [|done]. cbn in E. destruct (decide _); [done|].
        by rewrite bool_decide_false in E.
    + specialize (Hone (fun c => of_monitor id c && failed_row c)).
      destruct (String.eqb (uuid_text (ci_monitor_id c)) id && is_failure_status (ci_status c)) eqn:E.
      * apply andb_true_iff in E as [-> ->]. lia.
      * specialize (Hle (fun c => of_monitor id c && failed_row c)). apply Z.add_le_mono; [|destruct (String.eqb _ _), (is_failure_status _); lia].
        apply inj_le, Hle. intros r Hr Hp. rewrite (Hmon r Hr Hp), (proj2 (Hstat r)), E. done.
Qed.

Lemma cron_inv_delete lost t p : cron_inv lost None t -> cron_inv lost None (delete_monitors p t).
Proof.
  intros [H1 H2 H3 H4 H5 H6 H7 H8 H9].
  split; cbn [delete_monitors put_monitors put_checkins ct_organizations ct_monitors ct_checkins];
    try by apply delete_where_NoDup.
  1, 2, 4: by apply delete_where_Forall.
  - apply Forall_forall. intros c [Hc Hg]%elem_of_delete_where.
    assert (Hm := proj1 (Forall_forall _ _) H7 c Hc). apply list_elem_of_fmap in Hm as (m & Em & Hm).
    apply list_elem_of_fmap. exists m. split; [done|]. apply elem_of_delete_where. split; [done|].
    apply not_true_iff_false. intros Hp. apply not_true_iff_false in Hg. apply Hg, List.existsb_exists.
    exists m. rewrite <- list_elem_of_In, Hp, Em, String.eqb_refl. done.
  - apply delete_where_Forall. eapply Forall_impl; [exact H9|].
    intros m (? & ? & Hf & Hg). unfold counters_ok, finished_of, failed_of in *.
    cbn [put_checkins put_monitors delete_monitors ct_checkins].
    assert (Hd := fun q => count_where_delete (fun c => existsb (fun m => p m && String.eqb (mw_id m) (kw_monitor_id c))
                         (ct_monitors t)) q (ct_checkins t)).
    assert (Hd1 := Hd (fun c => of_monitor (mw_id m) c && finished_row c)).
    assert (Hd2 := Hd (fun c => of_monitor (mw_id m) c && failed_row c)).
    split_and!; lia.
Qed.
End Invariant.
