(* ===== verification/CronServer.v ===== *)
(** Every request, ping and job keeps the invariant of CronInvariant. *)
From stdpp Require Import base gmap list strings.
From Stdlib Require Import ZArith Lia Ascii.
From S2P Require Import Prelude Text CoreTypes Effects Sql Columns JobModel CronModel CronRepo CronRoutes CronInvariant.

Section CronServer.
Context `{CB : CronBackend}.

(** * Lifting to the handlers *)

Definition on_conn (P : Conn CronTables -> Prop) (w : CronWorld) : Prop := P (cx_conn w).

Section Lift.
Context (P : Conn CronTables -> Prop).

Lemma keeps_crepo {E A} (f : CronsServerError -> E) (m : CronOp A) :
  keeps P m -> keeps (on_conn P) (crepo f m).
Proof.
  intros Hm. apply keeps_map_err. intros w Hw. specialize (Hm _ Hw).
  unfold on_part, on_conn in *. by destruct (m (cx_conn w)).
Qed.

Lemma keeps_try_crepo {E A} (m : CronOp A) : keeps P m -> keeps (on_conn P) (try_crepo (E := E) m).
Proof.
  intros Hm. apply keeps_attempt. intros w Hw. specialize (Hm _ Hw).
  unfold on_part, on_conn in *. by destruct (m (cx_conn w)).
Qed.

Lemma keeps_cron_of_run {E A} (r : run A) : keeps (on_conn P) (cron_of_run (E := E) r).
Proof. destruct r; [apply keeps_ret|apply keeps_raise]. Qed.

Lemma keeps_cron_send {E} o e : keeps (on_conn P) (cron_send (E := E) o e).
Proof. by intros w. Qed.

Lemma keeps_cron_audit {E} a : keeps (on_conn P) (cron_audit (E := E) a).
Proof. by intros w. Qed.

Lemma leads_crepo {E A} (f : CronsServerError -> E) (m : CronOp A) Q :
  leads P m Q -> leads (on_conn P) (crepo f m) (fun a => on_conn (Q a)).
Proof.
  intros Hm w Hw. apply stm_map_err, stm_on_part. eapply stm_mono; [by apply Hm|]. by intros [].
Qed.

Lemma moves_try_crepo {E A} (m : CronOp A) Q : moves P Q m ->
  moves (on_conn P) (on_conn Q) (try_crepo (E := E) m).
Proof.
  intros Hm w Hw. specialize (Hm _ Hw). unfold try_crepo, attempt, on_part, on_conn in *.
  by destruct (m (cx_conn w)).
Qed.

(** An ignored error does not stop the handler. *)
Lemma moves_try {E A B} (m : CronOp A) Q (f : result CronsServerError A -> CronM E B) :
  keeps P m -> (forall r, moves (on_conn P) Q (f r)) -> moves (on_conn P) Q (bind (try_crepo m) f).
Proof.
  intros Hm Hf w Hw. specialize (Hm _ Hw). unfold bind, try_crepo, attempt, on_part, on_conn in *.
  destruct (m (cx_conn w)) as [r c]. by apply (Hf r).
Qed.
End Lift.

(** * Reads *)

Lemma keeps_cron_query P {A} (f : CronTables -> A) : stable P -> keeps P (cron_query f).
Proof. intros HP. by apply keeps_sql_read. Qed.

Lemma keeps_fetch_all P {R A} fr (g : R -> result CronsServerError A) f :
  stable P -> keeps P (cron_fetch_all fr g f).
Proof. intros HP. apply keeps_bind; [by apply keeps_cron_query|]. intros r. apply keeps_of_result. Qed.

Lemma keeps_fetch_optional P {R A} fr (g : R -> result CronsServerError A) f :
  stable P -> keeps P (cron_fetch_optional fr g f).
Proof. intros HP. apply keeps_bind; [by apply keeps_cron_query|]. intros r. apply keeps_of_result. Qed.

Lemma keeps_stats P id period now now' : stable P -> keeps P (crons_get_monitor_stats id period now now').
Proof.
  intros HP. unfold crons_get_monitor_stats. apply keeps_bind; [by apply keeps_cron_query|]. intros rows.
  apply keeps_bind; [by apply keeps_cron_query|]. intros ds. apply keeps_ret.
Qed.

Lemma keeps_found P {A} (m : CronOp (option A)) : keeps P m -> keeps (on_conn P) (found_row m).
Proof.
  intros Hm. apply keeps_bind; [by apply keeps_crepo|]. intros [a|]; [apply keeps_ret|apply keeps_raise].
Qed.

Lemma keeps_membership P o u l : stable P -> keeps (on_conn P) (cron_verify_org_membership o u l).
Proof.
  intros HP. apply keeps_bind; [by apply keeps_crepo, keeps_cron_query|].
  intros []; [apply keeps_ret|apply keeps_raise].
Qed.

Lemma keeps_member_monitor P l u o s : stable P -> keeps (on_conn P) (member_monitor l u o s).
Proof.
  intros HP. apply keeps_bind; [by apply keeps_membership|]. intros _. by apply keeps_found, keeps_fetch_optional.
Qed.

Lemma keeps_truncate P {E} o : keeps (on_conn P) (truncate_opt (E := E) o).
Proof.
  destruct o; [|apply keeps_ret]. apply keeps_bind; [apply keeps_cron_of_run|]. intros s'. apply keeps_ret.
Qed.

Lemma keeps_checkin_error P {E} m c x n : keeps (on_conn P) (checkin_error (E := E) m c x n).
Proof. apply keeps_bind; [apply keeps_cron_of_run|]. intros k. apply keeps_ret. Qed.

Lemma keeps_checkin_event P {E} m s c d x n : keeps (on_conn P) (checkin_event (E := E) m s c d x n).
Proof. destruct s; cbn; (apply keeps_ret || apply keeps_checkin_error). Qed.

Lemma keeps_day_totals P env i ms a b : stable P -> keeps (on_conn P) (day_totals env i ms a b).
Proof.
  intros HP. revert i a b. induction ms as [|m ms IH]; intros i a b; cbn; [apply keeps_ret|].
  destruct (decide _); [|apply IH]. apply keeps_bind; [by apply keeps_try_crepo, keeps_stats|].
  intros [s|]; [|apply IH]. repeat (apply keeps_bind; [apply keeps_cron_of_run|]; intros ?). apply IH.
Qed.

(** * Writes *)

Lemma conn_ok_step B p p' c c' : conn_ok B p c -> faults_left c = faults_left c' ->
  (forall lost, cron_inv lost p (cn_tables c) -> cron_inv lost p' (cn_tables c')) -> conn_ok B p' c'.
Proof. intros (lost & -> & H) E Hi. exists lost. rewrite E. auto. Qed.

Lemma conn_ok_lost B p c c' : conn_ok B p c -> faults_left c = S (faults_left c') ->
  cn_tables c' = cn_tables c -> conn_ok B None c'.
Proof.
  intros (lost & -> & H) E Ht. exists (S lost). split; [lia|]. rewrite Ht. by eapply cron_inv_lose.
Qed.

(** An update moves the invariant as it moves the tables; if it fails nothing is pending. *)
Lemma moves_write B p p' f :
  (forall lost t, cron_inv lost p t -> cron_inv lost p' (f t)) ->
  moves (conn_ok B p) (fun c => conn_ok B p' c \/ conn_ok B None c) (cron_write f).
Proof.
  intros Hf c Hc. apply (wp_sql_faults CrE_Database (fun t => Some (tt, f t))
    (fun _ c' => conn_ok B p' c' \/ conn_ok B None c')).
  - intros e c' Ht Hl. right. by eapply conn_ok_lost.
  - done.
  - intros a c' [= _ Ht] Hl. left. apply (conn_ok_step B p p' c); [done..|]. intros lost.
    rewrite <- Ht. apply Hf.
Qed.

Lemma keeps_neutral B p id f : neutral f -> keeps (conn_ok B p) (update_monitors id f).
Proof.
  intros Hf. unfold update_monitors, cron_write, sql_write. apply keeps_wp. intros c Hc.
  apply wp_sql_faults; [| |].
  - intros e c' Ht Hl. eapply stable_conn_ok; [done|lia|done].
  - done.
  - intros a c' [= _ Ht] Hl. apply (conn_ok_step B p p c); [done..|]. intros lost.
    rewrite <- Ht. by apply cron_inv_neutral.
Qed.

Lemma moves_increment B p id b now : p = None \/ p = Some (uuid_text id, b) ->
  moves (conn_ok B p) (conn_ok B None) (crons_increment_monitor_stats id b now).
Proof.
  intros Hp c Hc. edestruct (moves_write B p None) as [H|H]; [|exact Hc|exact H|exact H].
  intros lost t. by apply cron_inv_stats.
Qed.

Lemma moves_record B p {E} env k id h s n b : p = None \/ p = Some (uuid_text id, b) ->
  moves (on_conn (conn_ok B p)) (on_conn (conn_ok B None)) (record_report (E := E) env k id h s n b).
Proof.
  intros Hp. apply moves_try; [apply keeps_neutral, neutral_health|]. intros r1.
  apply moves_try; [apply keeps_neutral, neutral_last|]. intros r2.
  apply moves_bind; [by apply moves_try_crepo, moves_increment|]. intros r3. apply keeps_ret.
Qed.

Lemma leads_create_checkin B c :
  leads (conn_ok B None) (crons_create_checkin c)
    (fun _ => conn_ok B (owes (uuid_text (ci_monitor_id c)) (ci_status c))).
Proof.
  intros cn Hc. apply wp_sql_faults.
  - intros e c' Ht Hl. by eapply conn_ok_lost.
  - intros e c' Ht Hl _. eapply stable_conn_ok; [done|lia|done].
  - intros [] c' Hi Hl. apply (conn_ok_step B None _ cn); [done..|]. intros lost H.
    by eapply (cron_inv_new_checkin lost _ (checkin_row c) (ci_status c)).
Qed.

Lemma leads_try P {E A} (m : CronOp A) Q : leads P m Q ->
  leads (on_conn P) (try_crepo (E := E) m)
    (fun r => on_conn (match r with Ok a => Q a | Err _ => P end)).
Proof.
  intros Hm w Hw. apply stm_attempt, stm_on_part. eapply stm_mono; [by apply Hm|]. by intros [].
Qed.

(** ** Check-ins and their monitors *)

Definition checkin_keys (t : CronTables) : list (string * string) :=
  (fun c => (kw_id c, kw_monitor_id c)) <$> ct_checkins t.

Definition keyed (K : list (string * string)) (c : Conn CronTables) : Prop :=
  checkin_keys (cn_tables c) = K.

Lemma stable_keyed K : stable (keyed K).
Proof. intros c c' Ht _ H. unfold keyed. by rewrite Ht. Qed.

Lemma keeps_keyed_write K f : (forall t, checkin_keys (f t) = checkin_keys t) ->
  keeps (keyed K) (cron_write f).
Proof.
  intros Hf. apply keeps_wp. intros c Hc. apply wp_sql_faults; [|done|].
  - intros e c' Ht _. unfold keyed. by rewrite Ht.
  - intros a c' [= _ Ht] _. unfold keyed. rewrite <- Ht, Hf. exact Hc.
Qed.

Lemma keeps_keyed_monitors K id f : keeps (keyed K) (update_monitors id f).
Proof. by apply keeps_keyed_write. Qed.

Lemma keeps_keyed_checkin K c : keeps (keyed K) (crons_update_checkin c).
Proof. apply keeps_keyed_write. intros t. apply update_where_fmap. done. Qed.

Lemma bound_keys c t : (forall m, (uuid_text (ci_id c), m) ∈ checkin_keys t -> m = uuid_text (ci_monitor_id c)) ->
  bound_to (uuid_text (ci_id c)) (uuid_text (ci_monitor_id c)) t.
Proof. intros H r Hr E. apply H. rewrite <- E. apply list_elem_of_fmap. by exists r. Qed.

Lemma wp_update_checkin B K c cn :
  (forall m, (uuid_text (ci_id c), m) ∈ K -> m = uuid_text (ci_monitor_id c)) ->
  conn_ok B None cn -> keyed K cn ->
  wp (crons_update_checkin c)
    (fun r cn' => conn_ok B (match r with
                             | Ok _ => owes (uuid_text (ci_monitor_id c)) (ci_status c)
                             | Err _ => None
                             end) cn') cn.
Proof.
  intros Hb Hc HK. apply wp_sql_faults; [|done|].
  - intros e c' Ht Hl. by eapply conn_ok_lost.
  - intros a c' [= _ Ht] Hl. apply (conn_ok_step B None _ cn); [done..|]. intros lost H.
    rewrite <- Ht. apply cron_inv_update_checkin; [|done]. apply bound_keys. by rewrite HK.
Qed.

(** * The rows that are read *)

Lemma cron_id_text what s u : canonical s -> cron_id what s = Ok u -> s = uuid_text u.
Proof. intros [v ->]. unfold cron_id. rewrite uuid_roundtrip. by intros [= ->]. Qed.

Lemma checkin_read lost p t r c : cron_inv lost p t -> r ∈ ct_checkins t ->
  CheckIn_try_from r = Ok c ->
  kw_id r = uuid_text (ci_id c) /\ kw_monitor_id r = uuid_text (ci_monitor_id c).
Proof.
  intros Hinv Hr H.
  assert (Hid := proj1 (Forall_forall _ _) (inv_checkin_texts _ _ _ Hinv) r Hr).
  assert (Hm := proj1 (Forall_forall _ _) (inv_refer _ _ _ Hinv) r Hr).
  apply list_elem_of_fmap in Hm as (m & Em & Hm).
  destruct (proj1 (Forall_forall _ _) (inv_monitor_texts _ _ _ Hinv) m Hm) as [Hmid _].
  rewrite <- Em in Hmid. unfold CheckIn_try_from in H.
  apply bind_Ok in H as (id & E1 & H). apply bind_Ok in H as (mid & E2 & H).
  do 5 (apply bind_Ok in H as (? & _ & H)). injection H as <-. cbn.
  split; by eapply cron_id_text.
Qed.

Lemma monitor_read lost p t r m : cron_inv lost p t -> r ∈ ct_monitors t ->
  Monitor_try_from r = Ok m ->
  mw_id r = uuid_text (mo_id m) /\ mw_org_id r = uuid_text (mo_org_id m).
Proof.
  intros Hinv Hr H.
  destruct (proj1 (Forall_forall _ _) (inv_monitor_texts _ _ _ Hinv) r Hr) as [Hid Ho].
  unfold Monitor_try_from in H.
  do 2 (apply bind_Ok in H as (? & _ & H)).
  apply bind_Ok in H as (id & E1 & H). apply bind_Ok in H as (oid & E2 & H).
  do 7 (apply bind_Ok in H as (? & _ & H)). injection H as <-. cbn.
  split; by eapply cron_id_text.
Qed.

Lemma key_unique lost p t r : cron_inv lost p t -> r ∈ ct_checkins t ->
  forall m, (kw_id r, m) ∈ checkin_keys t -> m = kw_monitor_id r.
Proof.
  intros Hinv Hr m (r' & [= E1 ->] & Hr')%list_elem_of_fmap.
  by rewrite (NoDup_key kw_id (ct_checkins t) r r' (inv_checkin_ids _ _ _ Hinv) Hr Hr' E1).
Qed.

(** * Requests *)

Section Requests.
Context (B : nat).
Notation ok := (on_conn (conn_ok B None)).
Notation stable_ok := (stable_conn_ok B None).

Lemma keeps_report {E} {A} (f : CronsServerError -> E) c env k h s n b (rest : CronM E A) :
  owes (uuid_text (ci_monitor_id c)) (ci_status c) = Some (uuid_text (ci_monitor_id c), b) ->
  keeps ok rest ->
  keeps ok (let* _ := crepo f (crons_create_checkin c) in
            let* _ := record_report env k (ci_monitor_id c) h s n b in rest).
Proof.
  intros Ho Hr. eapply keeps_via; [apply leads_crepo, leads_create_checkin|]. intros u.
  apply moves_bind; [|done]. apply moves_record. right. exact Ho.
Qed.

Lemma keeps_sent {E} (m : CronM E CronStreamEvent) o : keeps ok m ->
  keeps ok (let* e := m in cron_send o e).
Proof. intros Hm. apply keeps_bind; [done|]. intros e. apply keeps_cron_send. Qed.

Lemma keeps_ping_report env m x o : keeps ok (ping_report env m x o).
Proof.
  unfold ping_report.
  apply (keeps_report _ (ping_checkin (env_uuid env 0) m _ None x o (env_now env 0))).
  - cbn [ping_checkin ci_monitor_id ci_status]. by destruct (Z.eqb _ _).
  - apply keeps_sent. destruct (bool_decide _); [apply keeps_checkin_error|apply keeps_ret].
Qed.

Lemma keeps_key k : keeps ok (found_row (crons_get_monitor_by_ping_key k)).
Proof. apply keeps_found, keeps_fetch_optional, stable_ok. Qed.

Lemma keeps_ping env key p : keeps ok (serve_ping env key p).
Proof.
  destruct p as [x| |x|x b]; cbn [serve_ping].
  - apply keeps_bind; [apply keeps_key|]. intros m. apply keeps_ping_report.
  - apply keeps_bind; [|intros i; apply keeps_ret]. apply keeps_bind; [apply keeps_key|]. intros m.
    eapply keeps_via; [apply leads_crepo, leads_create_checkin|]. intros u.
    apply keeps_bind; [apply keeps_cron_send|]. intros u'. apply keeps_ret.
  - apply keeps_bind; [apply keeps_key|]. intros m.
    apply (keeps_report _ (ping_checkin (env_uuid env 0) m CI_Error None x None (env_now env 0))); [done|].
    apply keeps_sent, keeps_checkin_error.
  - apply keeps_bind; [apply keeps_key|]. intros m. apply keeps_bind.
    + destruct (String.eqb b ""); [apply keeps_ret|]. apply (keeps_truncate _ (Some b)).
    + intros o. apply keeps_ping_report.
Qed.

Lemma keeps_create_checkin env l u s req : keeps ok (create_checkin env l u s req).
Proof.
  apply keeps_bind; [apply keeps_membership, stable_ok|]. intros u1.
  apply keeps_bind; [apply keeps_found, keeps_fetch_optional, stable_ok|]. intros m.
  apply keeps_bind; [apply keeps_truncate|]. intros o.
  eapply keeps_via; [apply leads_crepo, leads_create_checkin|]. intros u2.
  cbn [ci_monitor_id ci_status ci_id]. apply moves_bind.
  - destruct (decide _) as [E|Hs]; [rewrite E; apply keeps_ret|]. apply moves_record. right.
    by destruct (cq_status req).
  - intros u3. apply keeps_bind; [apply keeps_checkin_event|]. intros e.
    apply keeps_bind; [apply keeps_cron_send|]. intros u4. apply keeps_ret.
Qed.

(** A check-in that was read, while nothing is written. *)
Definition checkin_seen (c : CheckIn) (cn : Conn CronTables) : Prop :=
  conn_ok B None cn /\
  forall m, (uuid_text (ci_id c), m) ∈ checkin_keys (cn_tables cn) -> m = uuid_text (ci_monitor_id c).

Lemma stable_seen c : stable (checkin_seen c).
Proof. intros cn cn' Ht Hf [H1 H2]. split; [by eapply stable_ok|]. by rewrite Ht. Qed.

Lemma leads_get_checkin id :
  leads ok (found_row (crons_get_checkin_by_id id)) (fun c => on_conn (checkin_seen c)).
Proof.
  eapply leads_bind; [apply leads_crepo with (Q := fun o cn => match o with
      | Some c => checkin_seen c cn | None => conn_ok B None cn end)| |].
  - intros cn Hc. apply stm_bind, wp_sql_faults; [|done|].
    + intros e c' Ht Hl. eapply stable_ok; [done|lia|done].
    + intros row c' [= E Ht] Hl. assert (Hc' : conn_ok B None c') by (eapply stable_ok; [done|lia|done]).
      apply stm_of_result. subst row.
      destruct (select_one _ _) as [r|] eqn:Hr; [|done]. cbn [transpose mbind result_bind].
      destruct (CheckIn_try_from r) as [c|] eqn:Htf; [|done]. split; [done|].
      apply select_one_Some in Hr as [Hr _]. destruct Hc as (lost & _ & Hinv). rewrite Ht in Hr, Hinv.
      destruct (checkin_read _ _ _ _ _ Hinv Hr Htf) as [<- <-]. by eapply key_unique.
  - intros [c|] w; [by intros [? _]|done].
  - intros [c|]; [by apply leads_ret|apply leads_raise].
Qed.

Lemma keeps_update_checkin env l u id req : keeps ok (update_checkin env l u id req).
Proof.
  eapply keeps_via; [apply leads_get_checkin|]. intros c.
  assert (Hseen : forall w, on_conn (checkin_seen c) w -> ok w) by (by intros w [? _]).
  apply bind_moves; [apply keeps_found, keeps_fetch_optional, stable_seen|done|]. intros m.
  apply bind_moves; [apply keeps_membership, stable_seen|done|]. intros u1.
  apply bind_moves; [apply keeps_truncate|done|]. intros o.
  set (c' := updated_checkin c req o (env_now env 0)).
  apply moves_via with (R := fun _ => on_conn (conn_ok B (owes (uuid_text (ci_monitor_id c')) (ci_status c')))).
  { intros w [Hw Hk]. apply stm_map_err, stm_on_part.
    eapply stm_mono; [by apply (wp_update_checkin B (checkin_keys (cn_tables (cx_conn w))))|].
    by intros []. }
  intros u2. apply moves_try; [apply keeps_fetch_optional, stable_conn_ok|]. intros r.
  apply moves_bind.
  - apply moves_record. cbn [c' updated_checkin ci_monitor_id ci_status].
    destruct (uq_status req); cbn; auto.
  - intros u3. apply keeps_bind; [apply keeps_checkin_event|]. intros e.
    apply keeps_bind; [apply keeps_cron_send|]. intros u4. apply keeps_ret.
Qed.

Lemma keeps_create_monitor m : mo_consecutive_failures m = 0%Z -> mo_total_checkins m = 0%Z ->
  mo_total_failures m = 0%Z -> keeps (conn_ok B None) (crons_create_monitor m).
Proof.
  intros E1 E2 E3. apply keeps_wp. intros c Hc. apply wp_sql_faults.
  - intros e c' Ht Hl. eapply stable_ok; [done|lia|done].
  - intros e c' Ht Hl _. eapply stable_ok; [done|lia|done].
  - intros [] c' Hi Hl. apply (conn_ok_step B None _ c); [done..|]. intros lost H.
    eapply (cron_inv_new_monitor lost _ (monitor_row m)); [done|done| | | |done..]; cbn.
    + by rewrite E1.
    + by rewrite E3.
    + by rewrite E2.
Qed.

Lemma keeps_delete id : keeps (conn_ok B None) (crons_delete_monitor id).
Proof.
  apply keeps_wp. intros c Hc. apply wp_sql_faults; [|done|].
  - intros e c' Ht Hl. eapply stable_ok; [done|lia|done].
  - intros a c' [= _ Ht] Hl. apply (conn_ok_step B None _ c); [done..|]. intros lost H.
    rewrite <- Ht. by apply cron_inv_delete.
Qed.

Lemma keeps_configure env i l u o s (f : Monitor -> Monitor) (d : Monitor -> CronAuditDetails) :
  keeps ok (let* m := member_monitor l u o s in
            let m' := f m in
            let* _ := crepo (fun _ => bare 500) (crons_update_monitor m' (env_now env i)) in
            let* _ := cron_audit (monitor_audit u m' (d m)) in
            ret m').
Proof.
  apply keeps_bind; [apply keeps_member_monitor, stable_ok|]. intros m.
  apply keeps_bind; [apply keeps_crepo, keeps_neutral, neutral_config|]. intros u1.
  apply keeps_bind; [apply keeps_cron_audit|]. intros u2. apply keeps_ret.
Qed.

Lemma keeps_cron_dropped {E A} (m : CronM E A) : keeps ok m -> keeps ok (dropped m).
Proof. intros Hm. apply keeps_bind; [done|]. intros a. apply keeps_ret. Qed.

Lemma keeps_cron_user env l base u r : keeps ok (serve_cron_user env l base u r).
Proof.
  assert (Hm := fun o => keeps_membership (conn_ok B None) o u l stable_ok).
  assert (Hmon := fun o s => keeps_member_monitor (conn_ok B None) l u o s stable_ok).
  assert (Hlist := fun f o => keeps_crepo (conn_ok B None) (E := HttpError) f _
    (keeps_fetch_all _ monitor_from_row Monitor_try_from (fun t => order_by false mw_slug
      (select_where (fun m => String.eqb (mw_org_id m) (uuid_text o)) (ct_monitors t))) stable_ok)).
  destruct r; cbn [serve_cron_user];
    repeat lazymatch goal with |- keeps _ (dropped _) => apply keeps_cron_dropped end.
  - apply keeps_bind; [done|]. intros u1. apply keeps_bind; [apply Hlist|]. intros ms. apply keeps_ret.
  - apply keeps_bind; [done|]. intros u1. destruct (negb _); [apply keeps_raise|].
    apply keeps_bind; [apply keeps_try_crepo, keeps_fetch_optional, stable_ok|].
    assert (Hnew : forall (f : unit -> CronM HttpError (Monitor * string)), (forall v, keeps ok (f v)) ->
      keeps ok (let* v := crepo (fun _ => bare 500) (crons_create_monitor (new_monitor (env_uuid env 1)
        (uuid_text (env_uuid env 0)) req (env_now env 0))) in f v)).
    { intros f Hf. apply keeps_bind; [|done]. by apply keeps_crepo, keeps_create_monitor. }
    intros [[m|]|e]; [apply keeps_raise|apply Hnew..]; intros v;
      (apply keeps_bind; [apply keeps_cron_audit|]; intros v'; apply keeps_ret).
  - apply Hmon.
  - apply (keeps_configure env 2 l u _ _ (apply_update env req) (fun m => AD_Updated (changes_of req m))).
  - apply keeps_bind; [done|]. intros m.
    apply keeps_bind; [apply keeps_crepo, keeps_delete|]. intros v. apply keeps_cron_audit.
  - apply (keeps_configure env 0 l u _ _ (fun m => with_status m MS_Paused (mo_next_expected_at m))
             (fun m => AD_Paused (mo_status m))).
  - apply (keeps_configure env 1 l u _ _ (fun m => with_status m MS_Active (next_expected (mo_schedule m)
             (mo_timezone m) (env_now env 0))) (fun m => AD_Resumed (mo_status m))).
  - apply keeps_bind; [done|]. intros m. apply keeps_crepo, keeps_fetch_all, stable_ok.
  - apply keeps_create_checkin.
  - apply keeps_bind; [apply keeps_found, keeps_fetch_optional, stable_ok|]. intros c.
    apply keeps_bind; [apply keeps_found, keeps_fetch_optional, stable_ok|]. intros m.
    apply keeps_bind; [done|]. intros v. apply keeps_ret.
  - apply keeps_update_checkin.
  - apply keeps_bind; [done|]. intros v. apply keeps_bind; [apply Hlist|]. intros ms w Hw. exact Hw.
  - apply keeps_bind; [done|]. intros m. apply keeps_crepo, keeps_stats, stable_ok.
  - apply keeps_bind; [done|]. intros v. apply keeps_bind; [apply Hlist|]. intros ms.
    apply keeps_bind; [apply keeps_day_totals, stable_ok|]. intros [a b]. apply keeps_ret.
Qed.

(** * Jobs *)

Lemma keeps_report_all P {A} cancelled (step : nat -> A -> CronM JobError bool) l :
  (forall i a, a ∈ l -> keeps P (step i a)) -> forall i n, keeps P (report_all cancelled step i l n).
Proof.
  induction l as [|a l IH]; intros Hs i n; cbn; [apply keeps_ret|].
  destruct (cancelled (S i)); [apply keeps_raise|]. apply keeps_bind; [apply Hs; left|].
  intros b. apply IH. intros j a' Ha. apply Hs. by right.
Qed.

Lemma keeps_missed_run env cancelled : keeps ok (cron_missed_run env cancelled).
Proof.
  unfold cron_missed_run. destruct (cancelled 0); [apply keeps_raise|].
  apply keeps_bind; [apply keeps_crepo, keeps_fetch_all, stable_ok|]. intros ms.
  apply keeps_bind; [|intros n; apply keeps_ret]. apply keeps_report_all. intros i m _.
  eapply keeps_via; [apply leads_try, leads_create_checkin|]. intros [v|e]; [|apply keeps_ret].
  apply moves_bind; [|intros v'; apply keeps_ret]. by apply moves_record; right.
Qed.

(** The pairs the timeout job found, while their check-ins keep their monitors. *)
Definition pair_ok (K : list (string * string)) (p : CheckIn * Monitor) : Prop :=
  ci_monitor_id p.1 = mo_id p.2 /\
  forall m, (uuid_text (ci_id p.1), m) ∈ K -> m = uuid_text (ci_monitor_id p.1).

Lemma keeps_report_timeout K env i now p : pair_ok K p ->
  keeps (on_conn (fun c => conn_ok B None c /\ keyed K c)) (report_timeout env i now p).
Proof.
  destruct p as [c m]. intros [Em Hk]. cbn in Em, Hk.
  set (c' := timed_out_checkin c m now).
  apply keeps_via with (Q := fun r => on_conn (fun cn => conn_ok B (match r with
     | Ok _ => Some (uuid_text (mo_id m), true) | Err _ => None end) cn /\ keyed K cn)).
  { intros w [Hw HK]. apply stm_attempt, stm_on_part. unfold wp.
    assert (H1 := wp_update_checkin B K c' (cx_conn w) Hk Hw HK).
    assert (H2 := keeps_keyed_checkin K c' (cx_conn w) HK). unfold wp in H1. fold c'.
    split; [|done]. rewrite <- Em.
    destruct (crons_update_checkin c' (cx_conn w)) as [[v|e] cn]; exact H1. }
  intros [v|e]; [|apply keeps_ret]. cbn [fst].
  apply (moves_try (fun cn => conn_ok B (Some (uuid_text (mo_id m), true)) cn /\ keyed K cn)).
  { apply keeps_and; [apply keeps_neutral, neutral_health|apply keeps_keyed_monitors]. }
  intros r. apply moves_bind; [|intros r'; apply keeps_ret]. apply moves_try_crepo.
  intros cn [H1 H2]. split; [|by apply keeps_keyed_monitors].
  eapply moves_increment; [|exact H1]. by right.
Qed.

Lemma joined_read lost t r p : cron_inv lost None t -> r.1 ∈ ct_checkins t -> r.2 ∈ ct_monitors t ->
  mw_id r.2 = kw_monitor_id r.1 -> joined_try_from r = Ok p -> pair_ok (checkin_keys t) p.
Proof.
  intros Hinv Hc Hm E H. unfold joined_try_from in H.
  apply bind_Ok in H as (c & Ec & H). apply bind_Ok in H as (m & Em & H). injection H as <-.
  destruct (checkin_read _ _ _ _ _ Hinv Hc Ec) as [E1 E2].
  destruct (monitor_read _ _ _ _ _ Hinv Hm Em) as [E3 _]. split; cbn.
  - apply uuid_text_inj. congruence.
  - rewrite <- E1, <- E2. by eapply key_unique.
Qed.

Lemma from_rows_joined rows rows' : collect joined_from_row rows = Ok rows' -> rows' = rows.
Proof.
  intros H%collect_Ok. induction H as [|[c m] r rows rows' H _ ->]; [done|]. f_equal.
  unfold joined_from_row, monitor_from_row in H. cbn in H.
  destruct (bool_decide _); cbn in H; congruence.
Qed.

Lemma leads_timed_out {E} (f : CronsServerError -> E) now :
  leads ok (crepo f (crons_list_timed_out_checkins now))
    (fun l => on_conn (fun c => conn_ok B None c /\ Forall (pair_ok (checkin_keys (cn_tables c))) l)).
Proof.
  apply leads_crepo with (Q := fun l c => conn_ok B None c /\ Forall (pair_ok (checkin_keys (cn_tables c))) l).
  intros c Hc. apply stm_bind, wp_sql_faults; [|done|].
  - intros e c' Ht Hl. eapply stable_ok; [done|lia|done].
  - intros rows c' [= Er Ht] Hl. assert (Hc' : conn_ok B None c') by (eapply stable_ok; [done|lia|done]).
    apply stm_of_result. rewrite Ht in Er.
    destruct (collect joined_from_row rows) as [rows'|] eqn:H1; [|done]. cbn [mbind result_bind].
    destruct (collect joined_try_from rows') as [l|] eqn:H2; [|done].
    apply from_rows_joined in H1 as ->. apply collect_Ok in H2. split; [done|].
    destruct Hc' as (lost & _ & Hinv). apply Forall_forall. intros p Hp.
    apply list_elem_of_lookup in Hp as (i & Hi).
    destruct (Forall2_lookup_r _ _ _ _ _ H2 Hi) as (r & Hr & Hrp).
    apply list_elem_of_lookup_2 in Hr. rewrite <- Er in Hr.
    rewrite sql_scan_perm in Hr. apply elem_of_select_where in Hr as [Hr Ho].
    apply list_elem_of_bind in Hr as (c0 & Hr & Hc0). apply list_elem_of_bind in Hr as (m0 & Hr & Hm0).
    apply list_elem_of_singleton in Hr as ->.
    apply (joined_read lost (cn_tables c') (c0, m0)); [done|done|done| |exact Hrp].
    unfold timed_out in Ho. apply andb_true_iff in Ho as [[Ho%String.eqb_eq _]%andb_true_iff _]. done.
Qed.

Lemma keeps_timeout env cancelled : keeps ok (cron_timeout env cancelled).
Proof.
  unfold cron_timeout. destruct (cancelled 0); [apply keeps_raise|].
  eapply keeps_via; [apply leads_timed_out|]. intros l. apply moves_bind; [|intros n; apply keeps_ret].
  intros w [Hw Hl]. set (K := checkin_keys (cn_tables (cx_conn w))) in *.
  eapply (keeps_report_all (on_conn (fun c => conn_ok B None c /\ keyed K c)) cancelled); [|done].
  intros i p Hp. apply keeps_report_timeout. exact (proj1 (Forall_forall _ _) Hl p Hp).
Qed.

Lemma cron_step_ok s w : ok w -> ok (cron_step s w).
Proof.
  destruct s; cbn [cron_step];
    [apply keeps_cron_user|apply keeps_ping|apply keeps_missed_run|apply keeps_timeout].
Qed.

Lemma cron_steps_ok l w : ok w -> ok (cron_steps l w).
Proof. revert w. induction l as [|s l IH]; intros w Hw; [done|]. by apply IH, cron_step_ok. Qed.
End Requests.

(** C30. After any sequence of users' requests, pings and runs of the two detectors, with
    any statement failing along the way, the tables are consistent: ids, ping keys and the
    slugs of an organization are unique, every check-in has its monitor and every monitor
    its organization, the counters of every monitor satisfy consecutive failures <= total
    failures <= total check-ins, and they are at least the numbers of the failed and
    finished check-ins stored for it, less one for each statement that has failed. *)
Theorem monitor_counts_consistent lost l w : cron_inv lost None (cn_tables (cx_conn w)) ->
  cron_inv (lost + (faults_left (cx_conn w) - faults_left (cx_conn (cron_steps l w)))) None
    (cn_tables (cx_conn (cron_steps l w))).
Proof.
  intros Hinv.
  assert (H : on_conn (conn_ok (lost + faults_left (cx_conn w)) None) w) by (by exists lost).
  apply (cron_steps_ok _ l) in H. destruct H as (lost' & E & H).
  eapply cron_inv_weaken; [|exact H]. lia.
Qed.
End CronServer.
