(* ===== verification/CronTenants.v ===== *)
(** Organizations do not reach each other's monitors: what users who are no members do,
    and pings with keys of other monitors, leave an organization's monitors, their
    check-ins and its event channel as they are. *)
From stdpp Require Import base gmap list strings.
From Stdlib Require Import ZArith Lia Ascii.
From S2P Require Import Prelude Text CoreTypes Effects Sql Columns JobModel CronModel CronRepo CronRoutes CronInvariant CronServer.

Section CronTenants.
Context `{CB : CronBackend}.

Definition of_org (o : Uuid) (m : MonitorRow) : bool := String.eqb (mw_org_id m) (uuid_text o).

(** An organization's monitors and their check-ins. *)
Definition org_view (o : Uuid) (t : CronTables) : list MonitorRow * list CheckInRow :=
  let ms := select_where (of_org o) (ct_monitors t) in
  (ms, select_where (fun c => existsb (monitor_is (kw_monitor_id c)) ms) (ct_checkins t)).

Definition member (t : CronTables) (o u : Uuid) : bool :=
  existsb (fun m => String.eqb m.1 (uuid_text o) && String.eqb m.2 (uuid_text u)) (ct_memberships t).

(** Consistent tables, whatever was lost. *)
Definition wf (t : CronTables) : Prop := exists lost, cron_inv lost None t.

Section Outside.
Context (o : Uuid) (Ms : list (string * string)) (V : list MonitorRow * list CheckInRow)
        (ch : option CronChannel).

Definition untouched (c : Conn CronTables) : Prop :=
  let t := cn_tables c in wf t /\ ct_memberships t = Ms /\ org_view o t = V.

(** A monitor's id that is not the organization's. *)
Definition foreign (id : string) (t : CronTables) : Prop :=
  forall m, m ∈ ct_monitors t -> mw_id m = id -> of_org o m = false.

Definition untouched_by (id : string) (c : Conn CronTables) : Prop :=
  untouched c /\ foreign id (cn_tables c).

(** The world: the connection satisfies [P] and the channel is the same. *)
Definition within (P : Conn CronTables -> Prop) (w : CronWorld) : Prop :=
  P (cx_conn w) /\ cb_channels (cx_broadcaster w) !! o = ch.

(** * Statements *)

Lemma stable_tables (P : CronTables -> Prop) : stable (fun c => P (cn_tables c)).
Proof. intros c c' Ht _. by rewrite Ht. Qed.
Lemma stable_untouched : stable untouched.
Proof. apply (stable_tables (fun t => wf t /\ ct_memberships t = Ms /\ org_view o t = V)). Qed.
Lemma stable_untouched_by id : stable (untouched_by id).
Proof.
  intros c c' Ht Hf [H1 H2]. split; [by eapply stable_untouched|]. by rewrite Ht.
Qed.

(** A statement that changes the tables keeps what its change keeps. *)
Lemma keeps_cron_sql {A} (P : CronTables -> Prop) (f : CronTables -> option (A * CronTables)) :
  (forall t a t', P t -> f t = Some (a, t') -> P t') ->
  keeps (fun c => P (cn_tables c)) (sql CrE_Database f).
Proof.
  intros Hf. apply keeps_wp. intros c Hc. apply wp_sql_faults.
  - intros e c' Ht _. by rewrite Ht.
  - intros e c' Ht _ _. by rewrite Ht.
  - intros a c' H _. by eapply Hf.
Qed.

Lemma org_view_monitors t ms : select_where (of_org o) ms = select_where (of_org o) (ct_monitors t) ->
  org_view o (put_monitors ms t) = org_view o t.
Proof. intros E. unfold org_view. cbn [put_monitors ct_monitors ct_checkins]. by rewrite E. Qed.

Lemma org_view_checkins t ks :
  (forall q, q = (fun c => existsb (monitor_is (kw_monitor_id c)) (select_where (of_org o) (ct_monitors t))) ->
     select_where q ks = select_where q (ct_checkins t)) ->
  org_view o (put_checkins ks t) = org_view o t.
Proof. intros E. unfold org_view. cbn [put_checkins ct_monitors ct_checkins]. by rewrite E. Qed.

Lemma foreign_not_owned t c : foreign (kw_monitor_id c) t ->
  existsb (monitor_is (kw_monitor_id c)) (select_where (of_org o) (ct_monitors t)) = false.
Proof.
  intros Hf. apply not_true_iff_false. intros (m & Hm & E%String.eqb_eq)%List.existsb_exists.
  rewrite <- list_elem_of_In in Hm. apply elem_of_select_where in Hm as [Hm Ho].
  by rewrite (Hf m Hm E) in Ho.
Qed.

Lemma keeps_foreign_update id f : fixed_columns f ->
  (forall lost t, cron_inv lost None t -> cron_inv lost None
     (put_monitors (update_where (monitor_is (uuid_text id)) f (ct_monitors t)) t)) ->
  keeps (untouched_by (uuid_text id)) (update_monitors id f).
Proof.
  intros Hfix Hinv. apply (keeps_cron_sql (fun t => (wf t /\ ct_memberships t = Ms /\ org_view o t = V)
                                                     /\ foreign (uuid_text id) t)).
  intros t a t' [((lost & Hl) & HM & HV) Hf] [= _ <-]. split_and!.
  - exists lost. by apply Hinv.
  - done.
  - rewrite <- HV. apply org_view_monitors, select_where_update. intros m Hm E%String.eqb_eq.
    unfold of_org. destruct (Hfix m) as (_ & -> & _). split; by apply (Hf m).
  - intros m (r & Hr & ->)%elem_of_update_where. unfold of_org.
    destruct (monitor_is (uuid_text id) r); [|by apply Hf]. destruct (Hfix r) as (-> & -> & _). by apply Hf.
Qed.

Lemma keeps_foreign_neutral id f : neutral f -> keeps (untouched_by (uuid_text id)) (update_monitors id f).
Proof. intros Hn. apply keeps_foreign_update; [apply Hn|]. intros lost t. by apply cron_inv_neutral. Qed.

Lemma keeps_foreign_increment id b now :
  keeps (untouched_by (uuid_text id)) (crons_increment_monitor_stats id b now).
Proof.
  apply keeps_foreign_update; [apply fixed_stats|]. intros lost t. apply cron_inv_stats. by left.
Qed.

Lemma keeps_foreign_checkin c :
  keeps (untouched_by (uuid_text (ci_monitor_id c))) (crons_create_checkin c).
Proof.
  apply (keeps_cron_sql (fun t => (wf t /\ ct_memberships t = Ms /\ org_view o t = V)
                                  /\ foreign (uuid_text (ci_monitor_id c)) t)).
  intros t [] t' [((lost & Hl) & HM & HV) Hf] H. assert (Hi := H). unfold insert_checkin in H.
  destruct (_ && _); [|done]. injection H as <-. split_and!; [|done| |done].
  - exists (S lost). eapply cron_inv_lose, (cron_inv_new_checkin lost t (checkin_row c)); done.
  - rewrite <- HV. apply org_view_checkins. intros q ->. apply select_where_snoc.
    by apply foreign_not_owned.
Qed.

(** The check-ins with an id belong to a monitor of another organization. *)
Definition untouched_checkin (c : CheckIn) (cn : Conn CronTables) : Prop :=
  untouched_by (uuid_text (ci_monitor_id c)) cn
  /\ bound_to (uuid_text (ci_id c)) (uuid_text (ci_monitor_id c)) (cn_tables cn).

Lemma stable_untouched_checkin c : stable (untouched_checkin c).
Proof.
  intros cn cn' Ht Hf [H1 H2]. split; [by eapply stable_untouched_by|]. by rewrite Ht.
Qed.

Lemma keeps_foreign_update_checkin c :
  keeps (untouched_checkin c) (crons_update_checkin c).
Proof.
  apply (keeps_cron_sql (fun t => ((wf t /\ ct_memberships t = Ms /\ org_view o t = V)
                                  /\ foreign (uuid_text (ci_monitor_id c)) t)
                                  /\ bound_to (uuid_text (ci_id c)) (uuid_text (ci_monitor_id c)) t)).
  intros t a t' [[((lost & Hl) & HM & HV) Hf] Hb] [= _ <-]. split_and!; [|exact HM| |exact Hf|].
  - exists (S lost). eapply cron_inv_lose. by apply cron_inv_update_checkin.
  - rewrite <- HV. apply org_view_checkins. intros q ->. apply select_where_update.
    intros r Hr E%String.eqb_eq. assert (Hm := Hb r Hr E). cbn [result_columns kw_monitor_id].
    rewrite !foreign_not_owned by (by rewrite Hm). done.
  - intros r (r0 & Hr & ->)%elem_of_update_where. destruct (checkin_is _ _); exact (Hb r0 Hr).
Qed.

Lemma keeps_foreign_delete id : keeps (untouched_by (uuid_text id)) (crons_delete_monitor id).
Proof.
  apply (keeps_cron_sql (fun t => (wf t /\ ct_memberships t = Ms /\ org_view o t = V)
                                  /\ foreign (uuid_text id) t)).
  intros t a t' [((lost & Hl) & HM & HV) Hf] [= _ <-].
  assert (Hd : select_where (of_org o) (delete_where (monitor_is (uuid_text id)) (ct_monitors t))
               = select_where (of_org o) (ct_monitors t)).
  { apply select_where_delete. intros m Hm E%String.eqb_eq. by apply Hf. }
  split_and!; [|exact HM| |].
  - exists lost. by apply cron_inv_delete.
  - rewrite <- HV. unfold org_view, delete_monitors. cbn [put_checkins put_monitors ct_monitors ct_checkins].
    rewrite Hd. f_equal. apply select_where_delete.
    intros c Hc (m & _ & [E1%String.eqb_eq E2%String.eqb_eq]%andb_true_iff)%List.existsb_exists.
    apply foreign_not_owned. by rewrite <- E2, E1.
  - intros m [Hm _]%elem_of_delete_where. by apply Hf.
Qed.

Lemma keeps_foreign_create m : mo_org_id m <> o ->
  mo_consecutive_failures m = 0%Z -> mo_total_checkins m = 0%Z -> mo_total_failures m = 0%Z ->
  keeps untouched (crons_create_monitor m).
Proof.
  intros Ho E1 E2 E3. apply (keeps_cron_sql (fun t => wf t /\ ct_memberships t = Ms /\ org_view o t = V)).
  intros t [] t' ((lost & Hl) & HM & HV) H. assert (Hi := H). unfold insert_monitor in H.
  destruct (_ && _); [|done]. injection H as <-. split_and!; [|done|].
  - exists lost. eapply (cron_inv_new_monitor lost t (monitor_row m)); [done|done|..|done|exact Hi];
      cbn; by rewrite ?E1, ?E2, ?E3.
  - rewrite <- HV. apply org_view_monitors, select_where_snoc. unfold of_org. cbn.
    apply String.eqb_neq. intros E. by apply Ho, uuid_text_inj.
Qed.

(** * Lifting *)

Section Lift.
Context (P : Conn CronTables -> Prop).

Lemma within_crepo {E A} (f : CronsServerError -> E) (m : CronOp A) :
  keeps P m -> keeps (within P) (crepo f m).
Proof.
  intros Hm. apply keeps_map_err. intros w [Hw Hc]. specialize (Hm _ Hw).
  unfold on_part, within in *. by destruct (m (cx_conn w)).
Qed.
Lemma within_try {E A} (m : CronOp A) : keeps P m -> keeps (within P) (try_crepo (E := E) m).
Proof.
  intros Hm. apply keeps_attempt. intros w [Hw Hc]. specialize (Hm _ Hw).
  unfold on_part, within in *. by destruct (m (cx_conn w)).
Qed.
Lemma within_of_run {E A} (r : run A) : keeps (within P) (cron_of_run (E := E) r).
Proof. destruct r; [apply keeps_ret|apply keeps_raise]. Qed.
Lemma within_audit {E} a : keeps (within P) (cron_audit (E := E) a).
Proof. by intros w. Qed.
Lemma within_send {E} o' e : o' <> o -> keeps (within P) (cron_send (E := E) o' e).
Proof.
  intros Ho w [Hw Hc]. split; [done|]. cbn. unfold cron_broadcast.
  destruct (cb_channels _ !! o') as [s|]; [|done]. destruct (cc_receivers s); [done|]. cbn.
  by rewrite lookup_insert_ne.
Qed.
Lemma within_truncate {E} s : keeps (within P) (truncate_opt (E := E) s).
Proof.
  destruct s; [|apply keeps_ret]. apply keeps_bind; [apply within_of_run|]. intros s'. apply keeps_ret.
Qed.
Lemma within_event {E} m s c d x n : keeps (within P) (checkin_event (E := E) m s c d x n).
Proof.
  destruct s; cbn; try apply keeps_ret;
    (apply keeps_bind; [apply within_of_run|]; intros k; apply keeps_ret).
Qed.
Lemma within_leads {E A} (f : CronsServerError -> E) (m : CronOp A) Q :
  leads P m Q -> leads (within P) (crepo f m) (fun a => within (Q a)).
Proof.
  intros Hm w [Hw Hc]. apply stm_map_err, stm_on_part. eapply stm_mono; [by apply Hm|].
  intros [] c H; by split.
Qed.
Lemma within_found {A} (m : CronOp (option A)) : keeps P m -> keeps (within P) (found_row m).
Proof.
  intros Hm. apply keeps_bind; [by apply within_crepo|]. intros [a|]; [apply keeps_ret|apply keeps_raise].
Qed.
Lemma within_dropped {E A} (m : CronM E A) : keeps (within P) m -> keeps (within P) (dropped m).
Proof. intros Hm. apply keeps_bind; [done|]. intros a. apply keeps_ret. Qed.
End Lift.

(** The report of a check-in of another organization's monitor. *)
Lemma within_record {E} env k id h s n b :
  keeps (within (untouched_by (uuid_text id))) (record_report (E := E) env k id h s n b).
Proof.
  apply keeps_bind; [apply within_try, keeps_foreign_neutral, neutral_health|]. intros r1.
  apply keeps_bind; [apply within_try, keeps_foreign_neutral, neutral_last|]. intros r2.
  apply keeps_bind; [apply within_try, keeps_foreign_increment|]. intros r3. apply keeps_ret.
Qed.

(** * What the handlers read *)

(** A monitor that was read from a row that [q] selects. *)
Definition seen_monitor (q : MonitorRow -> bool) (m : Monitor) (t : CronTables) : Prop :=
  exists r, r ∈ ct_monitors t /\ q r = true
            /\ mw_id r = uuid_text (mo_id m) /\ mw_org_id r = uuid_text (mo_org_id m).

Lemma leads_found P q : stable P -> (forall c, P c -> wf (cn_tables c)) ->
  leads (within P)
    (found_row (cron_fetch_optional monitor_from_row Monitor_try_from (fun t => select_one q (ct_monitors t))))
    (fun m => within (fun c => P c /\ seen_monitor q m (cn_tables c))).
Proof.
  intros HP Hwf.
  eapply leads_bind; [apply within_leads with (Q := fun om c => P c /\
     match om with Some m => seen_monitor q m (cn_tables c) | None => True end)| |].
  - intros c Hc. apply stm_bind, wp_sql_faults; [|done|].
    + intros e c' Ht Hl. eapply HP; [done|lia|done].
    + intros row c' [= E Ht] Hl. assert (Hc' : P c') by (eapply HP; [done|lia|done]).
      apply stm_of_result. subst row. destruct (Hwf _ Hc) as (lost & Hinv).
      destruct (select_one _ _) as [r|] eqn:Hr; [|done]. cbn [transpose mbind result_bind].
      unfold monitor_from_row. destruct (bool_decide _); cbn [transpose mbind result_bind]; [|done].
      destruct (Monitor_try_from r) as [m|] eqn:Htf; [|done]. split; [done|].
      apply select_one_Some in Hr as [Hr Hq]. destruct (monitor_read _ _ _ _ _ Hinv Hr Htf).
      rewrite Ht in Hr. by exists r.
  - intros om w [[H _] Hc]. by split.
  - intros [m|]; [by apply leads_ret|apply leads_raise].
Qed.

Lemma seen_foreign q m c : untouched c -> seen_monitor q m (cn_tables c) -> mo_org_id m <> o ->
  untouched_by (uuid_text (mo_id m)) c.
Proof.
  intros Hu (r & Hr & _ & Ei & Eo) Ho. split; [done|]. intros m' Hm' E.
  destruct Hu as ((lost & Hinv) & _). rewrite <- Ei in E.
  rewrite (NoDup_key mw_id _ m' r (inv_ids _ _ _ Hinv) Hm' Hr E). unfold of_org. rewrite Eo.
  apply String.eqb_neq. intros E'. by apply Ho, uuid_text_inj.
Qed.

Section User.
Context (u : Uuid).
Hypothesis (Hu : existsb (fun m => String.eqb m.1 (uuid_text o) && String.eqb m.2 (uuid_text u)) Ms = false).

Lemma leads_member P org l : stable P -> (forall c, P c -> ct_memberships (cn_tables c) = Ms) ->
  leads (within P) (cron_verify_org_membership org u l) (fun _ => within (fun c => P c /\ org <> o)).
Proof.
  intros HP HM. eapply leads_bind; [apply within_leads with (Q := fun (b : bool) c => P c /\ (b = true -> org <> o))| |].
  - intros c Hc. apply wp_sql_faults; [|done|].
    + intros e c' Ht Hl. eapply HP; [done|lia|done].
    + intros b c' [= <- Ht] Hl. split; [eapply HP; [done|lia|done]|]. rewrite (HM c Hc).
      intros Hb ->. by rewrite Hu in Hb.
  - intros b w [[H _] Hc]. by split.
  - intros [|]; [|apply leads_raise]. apply leads_ret. intros w [[H1 H2] H3]. split; [|done]. auto.
Qed.

Lemma untouched_memberships c : untouched c -> ct_memberships (cn_tables c) = Ms.
Proof. by intros (_ & H & _). Qed.
Lemma untouched_wf c : untouched c -> wf (cn_tables c).
Proof. by intros (H & _). Qed.
Hint Resolve stable_untouched untouched_memberships untouched_wf : core.

Lemma keeps_for_member {A} l org (f : unit -> CronM HttpError A) :
  (org <> o -> keeps (within untouched) (f tt)) ->
  keeps (within untouched) (let* v := cron_verify_org_membership org u l in f v).
Proof.
  intros Hf. eapply keeps_via; [apply leads_member; auto|].
  intros [] w [[H Hne] Hc]. apply Hf; [done|]. by split.
Qed.

(** The rest of a handler that has found a monitor of another organization. *)
Lemma keeps_with_monitor {A} q (f : Monitor -> CronM HttpError A) :
  (forall t m, seen_monitor q m t -> org_view o t = V -> mo_org_id m <> o) ->
  (forall m, mo_org_id m <> o -> keeps (within (untouched_by (uuid_text (mo_id m)))) (f m)) ->
  keeps (within untouched)
    (let* m := found_row (cron_fetch_optional monitor_from_row Monitor_try_from
                        (fun t => select_one q (ct_monitors t))) in f m).
Proof.
  intros Hq Hf. eapply keeps_via; [apply leads_found; auto|]. intros m w [[H Hs] Hc].
  assert (Ho : mo_org_id m <> o) by (eapply Hq; [exact Hs|apply H]).
  destruct (Hf m Ho w) as [[? _] ?]; [|by split]. split; [|done]. by eapply seen_foreign.
Qed.

Lemma seen_by_slug org slug t m : org <> o ->
  seen_monitor (fun r => String.eqb (mw_org_id r) (uuid_text org) && String.eqb (mw_slug r) slug) m t ->
  mo_org_id m <> o.
Proof.
  intros Hne (r & _ & [Eo%String.eqb_eq _]%andb_true_iff & _ & Er) E.
  apply Hne, uuid_text_inj. congruence.
Qed.

Lemma keeps_on_monitor {A} l org slug (f : Monitor -> CronM HttpError A) :
  (forall m, mo_org_id m <> o -> keeps (within (untouched_by (uuid_text (mo_id m)))) (f m)) ->
  keeps (within untouched) (let* m := member_monitor l u org slug in f m).
Proof.
  intros Hf. apply keeps_assoc, keeps_for_member. intros Hne. apply keeps_with_monitor; [|done].
  intros t m Hs _. by eapply seen_by_slug.
Qed.

Lemma foreign_create_checkin env l s req : keeps (within untouched) (create_checkin env l u s req).
Proof.
  apply (keeps_for_member l (cq_org_id req) (fun _ => _)). intros Hne.
  apply keeps_with_monitor; [intros t m Hs _; by eapply seen_by_slug|]. intros m Ho.
  apply keeps_bind; [apply within_truncate|]. intros out.
  apply keeps_bind; [apply within_crepo, (keeps_foreign_checkin (mkCheckIn _ (mo_id m) _ _ _ _ _ _ _ _ _ _ _))|].
  intros v. apply keeps_bind.
  { destruct (decide _); [apply keeps_ret|apply within_record]. }
  intros v'. apply keeps_bind; [apply within_event|]. intros e.
  apply keeps_bind; [by apply within_send|]. intros v''. apply keeps_ret.
Qed.

(** A check-in that was read. *)
Definition seen_checkin (c : CheckIn) (cn : Conn CronTables) : Prop :=
  untouched cn /\ bound_to (uuid_text (ci_id c)) (uuid_text (ci_monitor_id c)) (cn_tables cn).

Lemma stable_seen_checkin c : stable (seen_checkin c).
Proof. intros cn cn' Ht Hl [H1 H2]. split; [by eapply stable_untouched|]. by rewrite Ht. Qed.

Lemma leads_checkin id :
  leads (within untouched) (found_row (crons_get_checkin_by_id id)) (fun c => within (seen_checkin c)).
Proof.
  eapply leads_bind; [apply within_leads with (Q := fun oc cn => match oc with
      | Some c => seen_checkin c cn | None => untouched cn end)| |].
  - intros cn Hc. apply stm_bind, wp_sql_faults; [|done|].
    + intros e c' Ht Hl. eapply stable_untouched; [done|lia|done].
    + intros row c' [= E Ht] Hl. assert (Hc' : untouched c') by (eapply stable_untouched; [done|lia|done]).
      apply stm_of_result. subst row.
      destruct (select_one _ _) as [r|] eqn:Hr; [|done]. cbn [transpose mbind result_bind].
      destruct (CheckIn_try_from r) as [c|] eqn:Htf; [|done]. split; [done|].
      apply select_one_Some in Hr as [Hr _]. destruct (untouched_wf _ Hc) as (lost & Hinv).
      rewrite Ht in Hr, Hinv. destruct (checkin_read _ _ _ _ _ Hinv Hr Htf) as [E1 E2].
      apply bound_keys. rewrite <- E1, <- E2. by eapply key_unique.
  - intros [c|] w [H Hc]; [|done]. by split; [apply H|].
  - intros [c|]; [by apply leads_ret|apply leads_raise].
Qed.

Lemma foreign_update_checkin env l id req : keeps (within untouched) (update_checkin env l u id req).
Proof.
  eapply keeps_via; [apply leads_checkin|]. intros c.
  assert (Hb : forall P w, within (fun cn => seen_checkin c cn /\ P cn) w -> within untouched w)
    by (by intros P w [[[? _] _] ?]).
  eapply moves_via with (R := fun m => within (fun cn => seen_checkin c cn
    /\ seen_monitor (monitor_is (uuid_text (ci_monitor_id c))) m (cn_tables cn))).
  { intros w Hw. eapply stm_mono;
      [apply leads_found; [apply stable_seen_checkin|by intros cn [H _]; apply untouched_wf|exact Hw]|].
    intros [m|e] w'; [done|]. intros [[? _] ?]. by split. }
  intros m. eapply moves_via with (R := fun _ w => within (untouched_checkin c) w /\ mo_org_id m <> o).
  { intros w Hw. eapply stm_mono; [apply leads_member; [| |exact Hw]|].
    - intros cn cn' Ht Hl [H1 H2]. split; [by eapply stable_seen_checkin|]. by rewrite Ht.
    - intros cn [[H _] _]. by apply untouched_memberships.
    - intros [v|e] w'; [|by apply (Hb _)]. intros [[[[H1 H2] Hs] Ho] Hch]. split; [|done]. split; [|done].
      assert (Hf := seen_foreign _ _ _ H1 Hs Ho). split; [|done].
      destruct Hs as (r & _ & Er%String.eqb_eq & Ei & _). by rewrite <- Er, Ei. }
  intros v w [Hw Ho]. revert w Hw.
  assert (Hk : forall (k : CronM HttpError CheckIn), keeps (within (untouched_by (uuid_text (ci_monitor_id c)))) k ->
            moves (within (untouched_checkin c)) (within untouched) k).
  { intros k Hk w [[H _] Hc]. destruct (Hk w) as [[? _] ?]; by split. }
  apply bind_moves; [apply within_truncate|by intros w [[[? _] _] ?]|]. intros out.
  set (c' := updated_checkin c req out (env_now env 0)).
  apply bind_moves; [apply within_crepo, (keeps_foreign_update_checkin c')|by intros w [[[? _] _] ?]|].
  intros v1. apply Hk.
  apply keeps_bind; [apply within_try, keeps_fetch_optional, stable_untouched_by|]. intros r.
  apply keeps_bind; [apply within_record|]. intros v2.
  apply keeps_bind; [apply within_event|]. intros e.
  apply keeps_bind; [by apply within_send|]. intros v3. apply keeps_ret.
Qed.

Lemma foreign_configure env i l org s (f : Monitor -> Monitor) (d : Monitor -> CronAuditDetails) :
  (forall m, mo_id (f m) = mo_id m) ->
  keeps (within untouched)
    (let* m := member_monitor l u org s in
     let m' := f m in
     let* _ := crepo (fun _ => bare 500) (crons_update_monitor m' (env_now env i)) in
     let* _ := cron_audit (monitor_audit u m' (d m)) in
     ret m').
Proof.
  intros Hid. apply keeps_on_monitor. intros m Ho.
  apply keeps_bind; [|intros v; apply keeps_bind; [apply within_audit|]; intros v'; apply keeps_ret].
  apply within_crepo. unfold crons_update_monitor. rewrite Hid.
  apply keeps_foreign_neutral, neutral_config.
Qed.

Lemma foreign_user env l base r : keeps (within untouched) (serve_cron_user env l base u r).
Proof.
  assert (Hlist := fun f org => within_crepo untouched (E := HttpError) f _
    (keeps_fetch_all _ monitor_from_row Monitor_try_from (fun t => order_by false mw_slug
      (select_where (fun m => String.eqb (mw_org_id m) (uuid_text org)) (ct_monitors t))) stable_untouched)).
  destruct r; cbn [serve_cron_user];
    repeat lazymatch goal with |- keeps _ (dropped _) => apply within_dropped end.
  - apply keeps_for_member. intros _. apply keeps_bind; [apply Hlist|]. intros ms. apply keeps_ret.
  - apply (keeps_for_member l (cm_org_id req) (fun _ => _)). intros Hne. destruct (negb _); [apply keeps_raise|].
    apply keeps_bind; [apply within_try, keeps_fetch_optional, stable_untouched|].
    assert (Hnew : forall (f : unit -> CronM HttpError (Monitor * string)),
      (forall v, keeps (within untouched) (f v)) ->
      keeps (within untouched) (let* v := crepo (fun _ => bare 500) (crons_create_monitor (new_monitor (env_uuid env 1)
        (uuid_text (env_uuid env 0)) req (env_now env 0))) in f v)).
    { intros f Hf. apply keeps_bind; [|done]. by apply within_crepo, keeps_foreign_create. }
    intros [[m|]|e]; [apply keeps_raise|apply Hnew..]; intros v;
      (apply keeps_bind; [apply within_audit|]; intros v'; apply keeps_ret).
  - apply (keeps_for_member l org_id (fun _ => _)). intros _.
    apply within_found, keeps_fetch_optional, stable_untouched.
  - by apply (foreign_configure env 2 l _ _ (apply_update env req) (fun m => AD_Updated (changes_of req m))).
  - apply keeps_on_monitor. intros m Ho.
    apply keeps_bind; [apply within_crepo, keeps_foreign_delete|]. intros v. apply within_audit.
  - by apply (foreign_configure env 0 l _ _ (fun m => with_status m MS_Paused (mo_next_expected_at m))
             (fun m => AD_Paused (mo_status m))).
  - by apply (foreign_configure env 1 l _ _ (fun m => with_status m MS_Active (next_expected (mo_schedule m)
             (mo_timezone m) (env_now env 0))) (fun m => AD_Resumed (mo_status m))).
  - apply keeps_on_monitor. intros m Ho. apply within_crepo, keeps_fetch_all, stable_untouched_by.
  - apply foreign_create_checkin.
  - apply keeps_bind; [apply within_found, keeps_fetch_optional, stable_untouched|]. intros c.
    apply keeps_bind; [apply within_found, keeps_fetch_optional, stable_untouched|]. intros m.
    apply (keeps_for_member l _ (fun _ => _)). intros _. apply keeps_ret.
  - apply foreign_update_checkin.
  - apply (keeps_for_member l org_id (fun _ => _)). intros Hne. apply keeps_bind; [apply Hlist|].
    intros ms w [Hw Hc]. split; [done|]. cbn. by rewrite lookup_insert_ne.
  - apply keeps_on_monitor. intros m Ho. apply within_crepo, keeps_stats, stable_untouched_by.
  - apply (keeps_for_member l org_id (fun _ => _)). intros _. apply keeps_bind; [apply Hlist|]. intros ms.
    apply keeps_bind; [|intros [a b]; apply keeps_ret].
    generalize 0 at 1 as i. generalize 0%Z at 1 as a. generalize 0%Z as b.
    induction ms as [|m ms IH]; intros b a i; cbn; [apply keeps_ret|].
    destruct (decide _); [|apply IH]. apply keeps_bind; [apply within_try, keeps_stats, stable_untouched|].
    intros [st|]; [|apply IH]. repeat (apply keeps_bind; [apply within_of_run|]; intros ?). apply IH.
Qed.
End User.

Section Key.
Context (key : string).
Hypothesis (Hkey : forall m, m ∈ V.1 -> mw_ping_key m <> key).

Lemma seen_by_key t m : seen_monitor (fun r => String.eqb (mw_ping_key r) key) m t ->
  org_view o t = V -> mo_org_id m <> o.
Proof.
  intros (r & Hr & Ek%String.eqb_eq & _ & Eo) HV E. apply (Hkey r); [|done]. rewrite <- HV.
  apply elem_of_select_where. split; [done|]. unfold of_org. rewrite Eo, E. apply String.eqb_refl.
Qed.

Lemma foreign_report env m x out : mo_org_id m <> o ->
  keeps (within (untouched_by (uuid_text (mo_id m)))) (ping_report env m x out).
Proof.
  intros Ho. apply keeps_bind; [apply within_crepo, (keeps_foreign_checkin (ping_checkin _ m _ _ _ _ _))|].
  intros v. apply keeps_bind; [apply within_record|]. intros v'.
  apply keeps_bind; [|intros e; by apply within_send].
  destruct (bool_decide _); [apply (within_event _ m CI_Error _ None)|apply keeps_ret].
Qed.

Lemma foreign_ping env p : keeps (within untouched) (serve_ping env key p).
Proof.
  destruct p as [x| |x|x b]; cbn [serve_ping]; [| |..].
  - apply keeps_with_monitor; [apply seen_by_key|]. intros m. apply foreign_report.
  - apply within_dropped, keeps_with_monitor; [apply seen_by_key|]. intros m Ho.
    apply keeps_bind; [apply within_crepo, (keeps_foreign_checkin (ping_checkin _ m _ _ _ _ _))|].
    intros v. apply keeps_bind; [by apply within_send|]. intros v'. apply keeps_ret.
  - apply keeps_with_monitor; [apply seen_by_key|]. intros m Ho.
    apply keeps_bind; [apply within_crepo, (keeps_foreign_checkin (ping_checkin _ m _ _ _ _ _))|].
    intros v. apply keeps_bind; [apply within_record|]. intros v'.
    apply keeps_bind; [apply (within_event _ m CI_Error _ None)|]. intros e. by apply within_send.
  - apply keeps_with_monitor; [apply seen_by_key|]. intros m Ho. apply keeps_bind.
    + destruct (String.eqb b ""); [apply keeps_ret|]. apply (within_truncate _ (Some b)).
    + intros out. by apply foreign_report.
Qed.
End Key.
End Outside.

(** What comes from outside of an organization: requests of users who are no members, and
    pings whose key is not the one of a monitor of it. *)
Definition from_outside (o : Uuid) (t : CronTables) (s : CronStep) : Prop :=
  match s with
  | Cron_User _ _ _ u _ => member t o u = false
  | Cron_Ping _ key _ => forall m, m ∈ (org_view o t).1 -> mw_ping_key m <> key
  | Cron_MissedRun _ _ | Cron_Timeout _ _ => False
  end.

(** Whatever users who are not members of an organization request, and whatever pings
    arrive with keys of other monitors, in any number and order and with any statement
    failing, the organization's monitors, the check-ins of its monitors and the events on
    its channel stay as they are. *)
Theorem monitors_isolated o l w : wf (cn_tables (cx_conn w)) ->
  Forall (from_outside o (cn_tables (cx_conn w))) l ->
  let w' := cron_steps l w in
  org_view o (cn_tables (cx_conn w')) = org_view o (cn_tables (cx_conn w))
  /\ cb_channels (cx_broadcaster w') !! o = cb_channels (cx_broadcaster w) !! o.
Proof.
  intros Hwf Hl. set (t := cn_tables (cx_conn w)) in *.
  assert (Hw : within o (cb_channels (cx_broadcaster w) !! o)
                 (untouched o (ct_memberships t) (org_view o t)) w) by done.
  assert (Hsteps : forall v, within o (cb_channels (cx_broadcaster w) !! o)
      (untouched o (ct_memberships t) (org_view o t)) v ->
    within o (cb_channels (cx_broadcaster w) !! o) (untouched o (ct_memberships t) (org_view o t))
      (cron_steps l v)).
  { clear Hw. induction Hl as [|s l Hs _ IH]; intros v Hv; [done|]. apply IH.
    destruct s; cbn [cron_step]; [| |done..].
    - by apply foreign_user.
    - by apply foreign_ping. }
  destruct (Hsteps w Hw) as [(_ & _ & HV) Hc]. split; [exact HV|exact Hc].
Qed.
End CronTenants.
