(* ===== verification/CronDetection.v ===== *)
(** The missed-run detector: late monitors are reported, the others are left alone, and a
    job that reports in time is not reported missed.  First, rows read back and the
    handlers on a working database. *)
From stdpp Require Import base gmap list strings pretty sorting.
From Stdlib Require Import ZArith Lia Ascii.
From S2P Require Import Prelude Text CoreTypes Effects Sql Columns JobModel CronModel CronRepo CronRoutes CronInvariant CronServer.
Local Open Scope Z_scope.

(** * Rows read back *)

Lemma CheckInStatus_roundtrip s : CheckInStatus_from_str (CheckInStatus_to_string s) = Some s.
Proof. by destruct s. Qed.
Lemma CheckInSource_roundtrip s : CheckInSource_from_str (CheckInSource_to_string s) = Some s.
Proof. by destruct s. Qed.
Lemma MonitorStatus_roundtrip s : MonitorStatus_from_str (MonitorStatus_to_string s) = Some s.
Proof. by destruct s. Qed.
Lemma MonitorHealth_roundtrip h : MonitorHealth_from_str (MonitorHealth_to_string h) = Some h.
Proof. by destruct h. Qed.

Section CronSpec.
Context `{CB : CronBackend}.

Definition schedule_ok (s : MonitorSchedule) : Prop :=
  match s with Sched_Cron _ => True | Sched_Interval minutes => u32_ok minutes end.

(** The widths of the fields, times of the calendar, and room to count once more. *)
Record monitor_ok (m : Monitor) : Prop := {
  ok_schedule : schedule_ok (mo_schedule m);
  ok_margin : u32_ok (mo_checkin_margin_minutes m);
  ok_max_runtime : opt_u32 (mo_max_runtime_minutes m);
  ok_last : opt_calendar (mo_last_checkin_at m);
  ok_next : opt_calendar (mo_next_expected_at m);
  ok_consecutive : 0 <= mo_consecutive_failures m < 2 ^ 31 - 1;
  ok_checkins : 0 <= mo_total_checkins m < 2 ^ 63 - 1;
  ok_failures : 0 <= mo_total_failures m < 2 ^ 63 - 1;
  ok_created : calendar (mo_created_at m);
  ok_updated : calendar (mo_updated_at m);
}.

Lemma cron_id_roundtrip what u : cron_id what (uuid_text u) = Ok u.
Proof. unfold cron_id. by rewrite uuid_roundtrip. Qed.
Lemma cron_time_roundtrip what t : calendar t -> cron_time what (to_rfc3339 t) = Ok t.
Proof. intros H. unfold cron_time. by rewrite rfc3339_roundtrip. Qed.
Lemma transpose_time what o : opt_calendar o -> transpose (cron_time what) (to_rfc3339 <$> o) = Ok o.
Proof. destruct o; cbn; [|done]. intros H. by rewrite cron_time_roundtrip. Qed.
Lemma transpose_status what o :
  transpose (fun s => internal what (CheckInStatus_from_str s)) (CheckInStatus_to_string <$> o) = Ok o.
Proof. destruct o; cbn; [|done]. by rewrite CheckInStatus_roundtrip. Qed.

Lemma schedule_reads_back m : schedule_ok (mo_schedule m) ->
  schedule_of_row (monitor_row m) = Ok (mo_schedule m).
Proof.
  unfold schedule_of_row, monitor_row. cbn [mw_schedule_type mw_schedule_value].
  destruct (mo_schedule m) as [e|n]; cbn; [done|]. intros H. by rewrite parse_u32_pretty.
Qed.

Lemma monitor_reads_back m : monitor_ok m -> Monitor_try_from (monitor_row m) = Ok m.
Proof.
  intros []. unfold Monitor_try_from. rewrite schedule_reads_back by done.
  cbn [monitor_row mw_environments mw_id mw_org_id mw_status mw_health mw_last_checkin_at
       mw_last_checkin_status mw_next_expected_at mw_created_at mw_updated_at].
  repeat (first [rewrite from_to_json | rewrite cron_id_roundtrip | rewrite cron_time_roundtrip by done
    | rewrite transpose_time by done | rewrite transpose_status | rewrite MonitorStatus_roundtrip
    | rewrite MonitorHealth_roundtrip]; cbn [internal ok_or mbind result_bind]).
  destruct m. cbn in *. rewrite wrap_u32_i32, opt_u32_i32, !wrap_u64_i64 by (done || unfold u64_ok; lia).
  rewrite wrap_u32_i32 by (unfold u32_ok; lia). done.
Qed.

Lemma monitor_decodes m : monitor_ok m -> monitor_from_row (monitor_row m) = Ok (monitor_row m).
Proof.
  intros []. unfold monitor_from_row. cbn. rewrite bool_decide_true; [done|]. apply wrap_i32_ok.
Qed.

(** * Statistics and outputs *)

(** A percentile is one of the durations, and a higher percentile is not smaller. *)
Lemma percentile_spec l p : Forall u64_ok l -> 0 <= p <= 100 ->
  match percentile l p with
  | Some v => v ∈ l
  | None => l = []
  end.
Proof.
  intros Hl Hp. unfold percentile. destruct l as [|v l]; [done|].
  set (n := Z.of_nat (length (v :: l))). assert (Hn : 1 <= n) by (unfold n; cbn [length]; lia).
  set (i := (2 * p * (n - 1) + 100) / 200). assert (Hi : 0 <= i) by (apply Z.div_pos; nia).
  destruct (lookup_lt_is_Some_2 (v :: l) (Z.to_nat (Z.min i (n - 1)))) as (x & Hx); [unfold n in *; lia|].
  rewrite Hx. cbn [default]. assert (Hin := list_elem_of_lookup_2 _ _ _ Hx).
  rewrite wrap_u64_id; [done|]. exact (proj1 (Forall_forall _ _) Hl x Hin).
Qed.

Lemma sorted_lookup (l : list Z) i j x y : StronglySorted Z.le l ->
  l !! i = Some x -> l !! j = Some y -> (i <= j)%nat -> x <= y.
Proof.
  intros Hs. revert i j. induction Hs as [|v l Hs IH Hv]; intros i j Hx Hy Hij; [done|].
  destruct i as [|i], j as [|j]; cbn in Hx, Hy; simplify_eq.
  - done.
  - exact (proj1 (Forall_forall _ _) Hv y (list_elem_of_lookup_2 _ _ _ Hy)).
  - lia.
  - apply (IH i j); [done..|lia].
Qed.

Lemma percentile_mono l p q a b : Forall u64_ok l -> StronglySorted Z.le l -> 0 <= p -> p <= q ->
  q <= 100 -> percentile l p = Some a -> percentile l q = Some b -> a <= b.
Proof.
  intros Hl Hs Hp Hpq Hq. unfold percentile. destruct l as [|v l]; [done|].
  set (n := Z.of_nat (length (v :: l))). assert (Hn : 1 <= n) by (unfold n; cbn [length]; lia).
  set (i := (2 * p * (n - 1) + 100) / 200). set (j := (2 * q * (n - 1) + 100) / 200).
  assert (Hi : 0 <= i) by (apply Z.div_pos; nia). assert (Hij : i <= j) by (apply Z.div_le_mono; nia).
  destruct (lookup_lt_is_Some_2 (v :: l) (Z.to_nat (Z.min i (n - 1)))) as (x & Hx); [unfold n in *; lia|].
  destruct (lookup_lt_is_Some_2 (v :: l) (Z.to_nat (Z.min j (n - 1)))) as (y & Hy); [unfold n in *; lia|].
  rewrite Hx, Hy. cbn [default]. intros [= <-] [= <-].
  rewrite !wrap_u64_id by (exact (proj1 (Forall_forall _ _) Hl _ (list_elem_of_lookup_2 _ _ _ Hx))
    || exact (proj1 (Forall_forall _ _) Hl _ (list_elem_of_lookup_2 _ _ _ Hy))).
  eapply sorted_lookup; [exact Hs|exact Hx|exact Hy|lia].
Qed.

(** An output in ASCII is stored as it is, or its first 10 KB with a mark. *)
Lemma utf8_head_ascii c s : is_ascii c = true -> (utf8_head (String c s)).2 = 1%nat.
Proof.
  unfold utf8_head, is_ascii, between. intros H%Z.ltb_lt. assert (0 <= byte_of c) by (unfold byte_of; lia).
  by rewrite (proj2 (Z.leb_le 0 _)), (proj2 (Z.leb_le _ 127)) by lia.
Qed.

Lemma char_indices_ascii fuel i s : str_all is_ascii s = true -> (String.length s <= fuel)%nat ->
  char_indices_fuel fuel i s = (fun k => (k, 1%nat)) <$> seq i (String.length s).
Proof.
  revert i s. induction fuel as [|fuel IH]; intros i [|c s] Ha Hl; cbn in Hl; try done; [lia|].
  cbn [str_all] in Ha. apply andb_true_iff in Ha as [Hc Hs]. cbn [char_indices_fuel String.length seq fmap list_fmap].
  rewrite utf8_head_ascii by done. rewrite IH; [by rewrite Nat.add_1_r| |]; cbn [str_drop]; [done|lia].
Qed.

Lemma str_take_length n s : (n <= String.length s)%nat -> String.length (str_take n s) = n.
Proof. revert s. induction n as [|n IH]; intros [|c s] H; cbn in *; [done|done|lia|]. rewrite IH; lia. Qed.

Lemma str_take_all p n s : str_all p s = true -> str_all p (str_take n s) = true.
Proof.
  revert s. induction n as [|n IH]; intros [|c s]; cbn [str_take str_all]; try done.
  intros [H1 H2]%andb_true_iff. rewrite H1. by apply IH.
Qed.

Lemma ascii_boundary s n : str_all is_ascii s = true -> (n < String.length s)%nat ->
  is_char_boundary s n = true.
Proof.
  unfold is_char_boundary. revert n. induction s as [|c s IH]; intros n Ha Hn; cbn in Hn; [lia|].
  cbn [str_all] in Ha. apply andb_true_iff in Ha as [Hc Hs]. destruct n as [|n]; cbn [String.get].
  - by rewrite orb_true_r.
  - specialize (IH n Hs ltac:(lia)). destruct (String.get n s) as [d|] eqn:E.
    + apply orb_true_iff. left. apply orb_true_iff in IH as [IH|IH]; [done|].
      apply Nat.eqb_eq in IH as ->. destruct s as [|d' s]; [done|]. injection E as ->.
      cbn [str_all] in Hs. apply andb_true_iff in Hs as [Hd _]. unfold is_cont, between, is_ascii in *.
      apply Z.ltb_lt in Hd. destruct (Z.leb_spec 128 (byte_of d)); [lia|done].
    + apply Nat.eqb_eq in IH. lia.
Qed.

Lemma filter_all_true {A} (P : A -> Prop) `{forall x, Decision (P x)} (l : list A) :
  Forall P l -> base.filter P l = l.
Proof. induction 1 as [|x l Hx _ IH]; [done|]. by rewrite filter_cons_True, IH. Qed.

Lemma truncate_output_ascii s : str_all is_ascii s = true ->
  truncate_output s = Done (if (String.length s <=? MAX_OUTPUT_BYTES)%nat then s
                            else str_take MAX_OUTPUT_BYTES s +:+ "...[truncated]").
Proof.
  intros Ha. unfold truncate_output. destruct (Nat.leb_spec (String.length s) MAX_OUTPUT_BYTES) as [Hl|Hl]; [done|].
  assert (Hb : is_char_boundary s MAX_OUTPUT_BYTES = true) by (by apply ascii_boundary).
  unfold slice_to. rewrite Hb. cbn [mbind run_bind]. unfold char_indices.
  rewrite char_indices_ascii by (try apply str_take_all; done).
  rewrite str_take_length by lia.
  assert (Hmax : exists k, MAX_OUTPUT_BYTES = S k) by (exists (N.to_nat 10239); vm_compute; reflexivity).
  destruct Hmax as (k & Hk). rewrite filter_all_true.
  - assert (E : seq 0 MAX_OUTPUT_BYTES = seq 0 k ++ [k]) by (by rewrite Hk, seq_S).
    rewrite E, fmap_app. cbn [fmap list_fmap]. rewrite last_snoc, Nat.add_1_r, <- Hk, Hb. done.
  - apply Forall_fmap, Forall_seq. intros j Hj. cbn. lia.
Qed.

(** * Reports *)

(** A monitor after the three updates of a report at the times [a], [b] and [c]. *)
Definition reported (h : MonitorHealth) (s : CheckInStatus) (next : option Z) (is_failure : bool)
    (last updated : Z) (m : Monitor) : Monitor :=
  mkMonitor (mo_id m) (mo_org_id m) (mo_slug m) (mo_name m) (mo_description m) (mo_status m) h
    (mo_schedule m) (mo_timezone m) (mo_checkin_margin_minutes m) (mo_max_runtime_minutes m)
    (mo_ping_key m) (mo_environments m) (Some last) (Some s) next
    (if is_failure then mo_consecutive_failures m + 1 else 0) (mo_total_checkins m + 1)
    (if is_failure then mo_total_failures m + 1 else mo_total_failures m)
    (mo_created_at m) updated.

(** When the next run is due: an interval after the present, or the first time of the cron
    expression, whose five fields stand for every year and the second 0. *)
Definition next_due (m : Monitor) (now : Z) : option Z :=
  match mo_schedule m with
  | Sched_Interval minutes => Some (now + minutes * (60 * 10 ^ 9))
  | Sched_Cron e =>
      match schedule_from_str (if (whitespace_fields e =? 5)%nat then "0 " +:+ e +:+ " *" else e),
            tz_parse (mo_timezone m) with
      | Ok s, Some tz => schedule_after s tz now
      | _, _ => None
      end
  end.

Lemma next_expected_due m now :
  next_expected (mo_schedule m) (mo_timezone m) now = next_due m now.
Proof.
  unfold next_expected, calculate_next_expected, next_due. destruct (mo_schedule m) as [e|n]; [|done].
  unfold convert_to_cron_crate_format. destruct (6 <=? _)%nat eqn:E.
  - apply Nat.leb_le in E. rewrite (proj2 (Nat.eqb_neq _ _)) by lia.
    destruct (schedule_from_str e); [|done]. destruct (tz_parse _); [|done].
    by destruct (schedule_after _ _ _).
  - destruct (schedule_from_str _); [|done]. destruct (tz_parse _); [|done].
    by destruct (schedule_after _ _ _).
Qed.

Definition report_columns (env : Env) (k : nat) (h : MonitorHealth) (s : CheckInStatus)
    (next : option Z) (is_failure : bool) (r : MonitorRow) : MonitorRow :=
  stats_columns is_failure (env_now env (k + 3))
    (last_checkin_columns s next (env_now env (k + 1)) (env_now env (k + 2))
       (health_columns h (env_now env k) r)).

Lemma wrap_i64_small z : 0 <= z < 2 ^ 63 -> wrap_i64 z = z.
Proof. intros H. unfold wrap_i64. rewrite Z.mod_small; lia. Qed.
Lemma wrap_i32_small z : 0 <= z < 2 ^ 31 -> wrap_i32 z = z.
Proof. intros H. apply wrap_i32_id. unfold i32_ok. lia. Qed.

Lemma report_columns_row env k h s next b m : monitor_ok m ->
  report_columns env k h s next b (monitor_row m)
    = monitor_row (reported h s next b (env_now env (k + 1)) (env_now env (k + 3)) m).
Proof.
  intros []. unfold report_columns, monitor_row, reported, stats_columns, last_checkin_columns,
    health_columns, state_columns.
  cbn [mw_id mw_org_id mw_slug mw_name mw_description mw_status mw_health mw_schedule_type
    mw_schedule_value mw_timezone mw_checkin_margin_minutes mw_max_runtime_minutes mw_ping_key
    mw_environments mw_last_checkin_at mw_last_checkin_status mw_next_expected_at
    mw_consecutive_failures mw_total_checkins mw_total_failures mw_created_at mw_updated_at
    mo_id mo_org_id mo_slug mo_name mo_description mo_status mo_health mo_schedule mo_timezone
    mo_checkin_margin_minutes mo_max_runtime_minutes mo_ping_key mo_environments
    mo_last_checkin_at mo_last_checkin_status mo_next_expected_at mo_consecutive_failures
    mo_total_checkins mo_total_failures mo_created_at mo_updated_at].
  rewrite (wrap_i32_small (mo_consecutive_failures m)) by lia.
  destruct b; rewrite !wrap_i64_small by lia;
    [rewrite (wrap_i32_small (mo_consecutive_failures m + 1)) by lia|]; done.
Qed.

(** * Without failing statements *)

(** A world whose statements all succeed. *)
Definition calm (t : CronTables) (b : CronsBroadcaster) (au : list CronAudit) : CronWorld :=
  mkCronWorld (mkConn t []) b au.

Lemma calm_crepo_write {E} (f : CronsServerError -> E) g t b au :
  crepo f (cron_write g) (calm t b au) = (Ok tt, calm (g t) b au).
Proof. done. Qed.
Lemma calm_try_write {E} g t b au :
  try_crepo (E := E) (cron_write g) (calm t b au) = (Ok (Ok tt), calm (g t) b au).
Proof. done. Qed.
Lemma calm_crepo_read {E A} (f : CronsServerError -> E) (m : CronOp A) r t b au :
  m (mkConn t []) = (Ok r, mkConn t []) -> crepo f m (calm t b au) = (Ok r, calm t b au).
Proof. intros H. unfold crepo, map_err, on_part, calm. cbn. by rewrite H. Qed.

Lemma update_where_compose {R} (p : R -> bool) f g l : (forall r, p (f r) = p r) ->
  update_where p g (update_where p f l) = update_where p (fun r => g (f r)) l.
Proof.
  intros H. unfold update_where. rewrite List.map_map. apply List.map_ext. intros r.
  destruct (p r) eqn:E; [by rewrite H, E|by rewrite E].
Qed.

Lemma calm_record {E} env k id h s n f t b au :
  record_report (E := E) env k id h s n f (calm t b au)
    = (Ok tt, calm (put_monitors (update_where (monitor_is (uuid_text id))
                                    (report_columns env k h s n f) (ct_monitors t)) t) b au).
Proof.
  unfold record_report. cbn -[update_where report_columns stats_columns last_checkin_columns health_columns].
  rewrite !update_where_compose by done. done.
Qed.

Lemma calm_insert {E} (f : CronsServerError -> E) c t b au :
  existsb (monitor_is (uuid_text (ci_monitor_id c))) (ct_monitors t) = true ->
  existsb (checkin_is (uuid_text (ci_id c))) (ct_checkins t) = false ->
  crepo f (crons_create_checkin c) (calm t b au)
    = (Ok tt, calm (put_checkins (ct_checkins t ++ [checkin_row c]) t) b au)
  /\ try_crepo (E := E) (crons_create_checkin c) (calm t b au)
    = (Ok (Ok tt), calm (put_checkins (ct_checkins t ++ [checkin_row c]) t) b au).
Proof.
  intros H1 H2. unfold crepo, try_crepo, map_err, attempt, on_part, crons_create_checkin, sql, insert_checkin.
  cbn. by rewrite H1, H2.
Qed.
End CronSpec.

Section CronDetection.
Context `{CB : CronBackend}.

(** * When a monitor is late *)

(** An expected check-in did not arrive: the margin is over by a second and the
    rounding of SQLite's dates. *)
Definition late (now : Z) (m : Monitor) : Prop :=
  mo_status m = MS_Active /\ mo_health m <> MH_Missed /\ mo_checkin_margin_minutes m < 2 ^ 31 /\
  exists n, mo_next_expected_at m = Some n
    /\ n + mo_checkin_margin_minutes m * minute + 1000500000 <= now
    /\ match mo_last_checkin_at m with Some l => l < n | None => True end.

(** Nothing is expected, or not yet, or it has arrived, or its absence has been reported. *)
Definition punctual (now : Z) (m : Monitor) : Prop :=
  mo_status m <> MS_Active \/ mo_health m = MH_Missed \/ mo_next_expected_at m = None \/
  exists n, mo_next_expected_at m = Some n
    /\ (now + 500000 <= n + mo_checkin_margin_minutes m * minute
        \/ exists l, mo_last_checkin_at m = Some l /\ n <= l).

Lemma status_active m : String.eqb (MonitorStatus_to_string (mo_status m)) "active"
    = bool_decide (mo_status m = MS_Active).
Proof. by destruct (mo_status m). Qed.
Lemma health_missed m : String.eqb (MonitorHealth_to_string (mo_health m)) "missed"
    = bool_decide (mo_health m = MH_Missed).
Proof. by destruct (mo_health m). Qed.

Lemma overdue_late now m : monitor_ok m -> calendar now -> late now m ->
  overdue now (monitor_row m) = true.
Proof.
  intros Hok Hnow (Hs & Hh & Hm & n & Hn & Hle & Hlast).
  assert (Hcn : calendar n) by (assert (H := ok_next _ Hok); by rewrite Hn in H).
  assert (H0 := proj1 (ok_margin _ Hok)).
  unfold overdue. cbn [monitor_row mw_status mw_next_expected_at mw_checkin_margin_minutes
    mw_last_checkin_at mw_health]. rewrite status_active, health_missed, Hn.
  rewrite bool_decide_true, bool_decide_false by done. cbn [fmap option_fmap option_map andb negb].
  rewrite wrap_i32_small by lia.
  destruct (datetime_time now Hnow) as (s2 & -> & Hs2).
  destruct (datetime_some n (mo_checkin_margin_minutes m) Hcn H0) as (s1 & E).
  { unfold calendar, minute in *. lia. }
  rewrite E. apply datetime_plus in E; [|done..]. unfold second_of in *. cbn [sql_lt].
  assert (Hlt : s1 < s2).
  { assert (H : (n + mo_checkin_margin_minutes m * minute + 500000) / 10 ^ 9 + 1 <= now / 10 ^ 9).
    { rewrite <- Z.div_add by done. apply Z.div_le_mono; lia. }
    lia. }
  rewrite (proj2 (Z.ltb_lt _ _) Hlt). cbn [andb].
  destruct (mo_last_checkin_at m) as [l|] eqn:El; cbn; [|done].
  assert (calendar l) by (assert (H := ok_last _ Hok); by rewrite El in H).
  rewrite rfc3339_order, (proj2 (Z.ltb_lt _ _) Hlast) by done. done.
Qed.

Lemma overdue_punctual now m : monitor_ok m -> calendar now -> punctual now m ->
  overdue now (monitor_row m) = false.
Proof.
  intros Hok Hnow Hp.
  unfold overdue. cbn [monitor_row mw_status mw_next_expected_at mw_checkin_margin_minutes
    mw_last_checkin_at mw_health]. rewrite status_active, health_missed.
  destruct Hp as [Hs|[Hh|[Hn|(n & Hn & H)]]].
  - by rewrite bool_decide_false.
  - rewrite (bool_decide_true (mo_health m = _)) by done. by rewrite andb_false_r.
  - rewrite Hn. cbn. by rewrite andb_false_r.
  - rewrite Hn. cbn [fmap option_fmap option_map].
    assert (Hcn : calendar n) by (assert (H' := ok_next _ Hok); by rewrite Hn in H').
    apply andb_false_iff. left. apply andb_false_iff. right. apply andb_false_iff.
    destruct H as [H|(l & El & Hl)].
    + left. destruct (datetime_time now Hnow) as (s2 & -> & Hs2).
      destruct (Z_lt_dec (wrap_i32 (mo_checkin_margin_minutes m)) 0) as [Hneg|Hpos].
      { by rewrite datetime_minus. }
      assert (Hw : wrap_i32 (mo_checkin_margin_minutes m) = mo_checkin_margin_minutes m).
      { assert (Hm := ok_margin _ Hok). unfold u32_ok in Hm. apply wrap_i32_small. split; [lia|].
        destruct (Z_lt_dec (mo_checkin_margin_minutes m) (2 ^ 31)); [done|]. exfalso. apply Hpos.
        unfold wrap_i32. rewrite <- (Z_mod_plus_full _ (-1)), Z.mod_small; lia. }
      rewrite Hw in Hpos |- *.
      destruct (sqlite_datetime _ (Some _)) as [s1|] eqn:E; [|done]. cbn.
      apply datetime_plus in E; [|done|lia]. unfold second_of in *. apply Z.ltb_ge.
      assert (H2 : (now + 500000) / 10 ^ 9 <= (n + mo_checkin_margin_minutes m * minute) / 10 ^ 9)
        by (apply Z.div_le_mono; lia). lia.
    + right. rewrite El. cbn. assert (calendar l) by (assert (H' := ok_last _ Hok); by rewrite El in H').
      rewrite rfc3339_order by done. by apply Z.ltb_ge.
Qed.

(** * The loop *)

(** A monitor after it was reported missed, the [j]th of the run. *)
Definition missed_at (env : Env) (j : nat) (m : Monitor) : Monitor :=
  reported MH_Missed CI_Missed (next_due m (env_now env 0)) true
    (env_now env (1 + 4 * j + 1)) (env_now env (1 + 4 * j + 3)) m.

(** New identifiers from the [i]th on. *)
Definition fresh_ids (env : Env) (i : nat) (ks : list CheckInRow) : Prop :=
  forall j c, (i <= j)%nat -> c ∈ ks -> kw_id c <> uuid_text (env_uuid env j).

Definition distinct_ids (env : Env) : Prop := forall i j, env_uuid env i = env_uuid env j -> i = j.

Definition tables_of (orgs : list string) (mems : list (string * string)) (ms : list Monitor)
    (ks : list CheckInRow) : CronTables := mkCronTables orgs mems (monitor_row <$> ms) ks.

Lemma update_monitor_value id f g ms :
  (forall m, m ∈ ms -> mo_id m = id -> f (monitor_row m) = monitor_row (g m)) ->
  update_where (monitor_is (uuid_text id)) f (monitor_row <$> ms)
    = monitor_row <$> update_where (fun m => bool_decide (mo_id m = id)) g ms.
Proof.
  intros H. rewrite (update_where_enc monitor_row _ f g).
  - f_equal. unfold update_where. apply List.map_ext. intros m. unfold monitor_is. cbn.
    destruct (bool_decide_reflect (mo_id m = id)) as [->|Hne]; [by rewrite String.eqb_refl|].
    destruct (String.eqb_spec (uuid_text (mo_id m)) (uuid_text id)) as [E|]; [|done].
    by apply uuid_text_inj in E.
  - intros m Hm E%String.eqb_eq. apply H; [done|]. by apply uuid_text_inj.
Qed.

Lemma calm_report_missed orgs mems b au env i d ms ks :
  d ∈ ms -> (forall m, m ∈ ms -> mo_id m = mo_id d -> monitor_ok m /\ m = d) -> fresh_ids env i ks ->
  report_missed env i (env_now env 0) d (calm (tables_of orgs mems ms ks) b au)
    = (Ok true, calm (tables_of orgs mems
         (update_where (fun m => bool_decide (mo_id m = mo_id d)) (missed_at env i) ms)
         (ks ++ [checkin_row (missed_checkin (env_uuid env i) d (env_now env 0))])) b au).
Proof.
  intros Hd Hok Hfr. unfold report_missed.
  set (c := missed_checkin (env_uuid env i) d (env_now env 0)).
  destruct (calm_insert (E := JobError) (fun _ => JE_Cancelled) c (tables_of orgs mems ms ks) b au) as [_ H].
  - apply List.existsb_exists. exists (monitor_row d). split; [|apply String.eqb_refl].
    rewrite <- list_elem_of_In. apply list_elem_of_fmap. by exists d.
  - apply not_true_iff_false. intros (k & Hk & E%String.eqb_eq)%List.existsb_exists.
    rewrite <- list_elem_of_In in Hk. by apply (Hfr i k ltac:(lia) Hk).
  - rewrite (bind_run _ _ _ _ _ H). cbn [c]. rewrite (bind_run _ _ _ _ _ (calm_record _ _ _ _ _ _ _ _ _ _)).
    unfold ret. do 2 f_equal. unfold tables_of, put_monitors, put_checkins.
    cbn [ct_organizations ct_memberships ct_monitors ct_checkins]. f_equal.
    apply update_monitor_value. intros m Hm E. destruct (Hok m Hm E) as [Hm' ->].
    rewrite next_expected_due. by apply report_columns_row.
Qed.

(** Monitors before and after a run over [ds] from the [i]th on. *)
Definition loop_effect (env : Env) (i : nat) (ds : list Monitor) (m m' : Monitor) : Prop :=
  (mo_id m ∉ mo_id <$> ds /\ m' = m)
  \/ (mo_id m ∈ mo_id <$> ds /\ exists j, (i <= j)%nat /\ m' = missed_at env j m).

Lemma calm_missed orgs mems b au env ds : distinct_ids env ->
  NoDup (mo_id <$> ds) -> forall i n ms ks,
  Forall (fun m => mo_id m ∈ mo_id <$> ds -> monitor_ok m /\ m ∈ ds) ms ->
  Forall (fun d => d ∈ ms) ds -> fresh_ids env i ks ->
  exists ms', report_all (fun _ => false) (fun i => report_missed env i (env_now env 0)) i ds n
      (calm (tables_of orgs mems ms ks) b au)
    = (Ok (n + length ds)%nat,
       calm (tables_of orgs mems ms'
               (ks ++ imap (fun j m => checkin_row (missed_checkin (env_uuid env (i + j)) m (env_now env 0))) ds))
         b au)
    /\ Forall2 (loop_effect env i ds) ms ms'.
Proof.
  intros Hdist. induction ds as [|d ds IH]; intros Hnd i n ms ks Hms Hds Hfr.
  { exists ms. cbn [report_all imap length]. rewrite app_nil_r, Nat.add_0_r. split; [done|].
    apply Forall2_same_length_lookup_2; [done|]. intros k m m' E1 E2. left. split; [set_solver|congruence]. }
  cbn in Hnd. apply NoDup_cons in Hnd as [Hd Hnd]. apply Forall_cons in Hds as [Hdm Hds].
  set (ms1 := update_where (fun m => bool_decide (mo_id m = mo_id d)) (missed_at env i) ms).
  set (c := missed_checkin (env_uuid env i) d (env_now env 0)).
  destruct (IH Hnd (S i) (S n) ms1 (ks ++ [checkin_row c])) as (ms' & E & HF).
  - apply Forall_forall. intros m (m0 & Hm0 & ->)%elem_of_update_where.
    destruct (bool_decide_reflect (mo_id m0 = mo_id d)) as [E|Hne].
    + intros H. exfalso. apply Hd. by rewrite <- E.
    + intros H. destruct (proj1 (Forall_forall _ _) Hms m0 Hm0) as [? Hin]; [cbn; by right|].
      split; [done|]. apply elem_of_cons in Hin as [->|]; done.
  - apply Forall_forall. intros d' Hd'. apply elem_of_update_where. exists d'.
    split; [exact (proj1 (Forall_forall _ _) Hds d' Hd')|]. rewrite bool_decide_false; [done|].
    intros E. apply Hd. rewrite <- E. apply list_elem_of_fmap. by exists d'.
  - intros j k Hj Hk. apply elem_of_app in Hk as [Hk|Hk]; [apply Hfr; [lia|done]|].
    apply list_elem_of_singleton in Hk as ->. cbn. intros Ei%uuid_text_inj%Hdist. lia.
  - exists ms'. split.
    + cbn [report_all]. erewrite bind_run; [|apply calm_report_missed; [done| |done]].
      * cbv iota. fold ms1 c. rewrite E, <- app_assoc, imap_cons, Nat.add_0_r. cbn [app length].
        rewrite Nat.add_succ_r. do 2 f_equal. unfold tables_of. do 3 f_equal. apply imap_ext.
        intros j x _. cbn. by rewrite Nat.add_succ_r.
      * intros m Hm Ei. destruct (proj1 (Forall_forall _ _) Hms m Hm) as [? Hin]; [cbn; rewrite Ei; left|].
        split; [done|]. apply elem_of_cons in Hin as [|Hin]; [done|]. exfalso. apply Hd. rewrite <- Ei.
        apply list_elem_of_fmap. by exists m.
    + change ms1 with ((fun r => if bool_decide (mo_id r = mo_id d) then missed_at env i r else r) <$> ms) in HF.
      rewrite Forall2_fmap_l in HF.
      eapply Forall2_impl; [exact HF|]. intros m m' H. cbn in H. unfold loop_effect in *.
      destruct (bool_decide_reflect (mo_id m = mo_id d)) as [Ei|Hne].
      * right. split; [cbn; rewrite Ei; left|]. exists i. split; [done|].
        destruct H as [[_ H]|[H _]]; [done|]. cbn in H. by rewrite Ei in H.
      * destruct H as [[H ->]|[H (j & Hj & ->)]].
        -- left. split; [|done]. cbn. by rewrite not_elem_of_cons.
        -- right. split; [by right|]. exists j. split; [lia|done].
Qed.

(** * The job *)

Definition is_overdue (now : Z) (m : Monitor) : bool := overdue now (monitor_row m).

Lemma calm_overdue {E} (f : CronsServerError -> E) now orgs mems ms ks b au : Forall monitor_ok ms ->
  exists ds, crepo f (crons_list_overdue_monitors now) (calm (tables_of orgs mems ms ks) b au)
      = (Ok ds, calm (tables_of orgs mems ms ks) b au)
    /\ ds ≡ₚ select_where (is_overdue now) ms.
Proof.
  intros Hok. set (sel := select_where (is_overdue now) ms).
  assert (Hp : sql_scan (select_where (overdue now) (monitor_row <$> ms)) ≡ₚ monitor_row <$> sel).
  { rewrite sql_scan_perm, (select_where_enc monitor_row). done. }
  apply Permutation_map_inv in Hp as (ds & Eds & Hp). exists ds. split; [|by symmetry].
  assert (Hds : forall d, d ∈ ds -> monitor_ok d).
  { intros d Hd. rewrite <- Hp in Hd. apply elem_of_select_where in Hd as [Hd _].
    exact (proj1 (Forall_forall _ _) Hok d Hd). }
  apply calm_crepo_read. unfold crons_list_overdue_monitors, cron_fetch_all.
  erewrite bind_run; [|reflexivity]. unfold of_result. f_equal. cbn [cn_tables ct_monitors tables_of].
  rewrite Eds. change (map monitor_row ds) with (monitor_row <$> ds).
  rewrite (collect_fmap monitor_from_row monitor_row monitor_row)
    by (intros d Hd; by apply monitor_decodes, Hds).
  cbn [mbind result_bind]. rewrite (collect_fmap Monitor_try_from monitor_row (fun d => d))
    by (intros d Hd; by apply monitor_reads_back, Hds).
  by rewrite list_fmap_id.
Qed.

(** A check-in of the detector. *)
Definition missed_report (now : Z) (c : CheckIn) : Prop :=
  ci_status c = CI_Missed /\ ci_source c = CS_System /\ ci_created_at c = now.

(** What a run does, exactly: the overdue monitors get one check-in each. *)
Lemma calm_missed_run orgs mems ms ks b au env :
  NoDup (mo_id <$> ms) -> Forall monitor_ok ms -> distinct_ids env -> fresh_ids env 0 ks ->
  exists ms' new out,
    cron_missed_run env (fun _ => false) (calm (tables_of orgs mems ms ks) b au)
      = (Ok out, calm (tables_of orgs mems ms' (ks ++ (checkin_row <$> new))) b au)
    /\ Forall2 (fun m m' => if is_overdue (env_now env 0) m then exists j, m' = missed_at env j m
                            else m' = m) ms ms'
    /\ Forall (missed_report (env_now env 0)) new
    /\ NoDup (ci_monitor_id <$> new)
    /\ (forall m, m ∈ ms -> mo_id m ∈ ci_monitor_id <$> new <-> is_overdue (env_now env 0) m = true)
    /\ out = detected "missed cron runs" "missed_count" (length new) (env_now env 0).
Proof.
  intros Hnd Hok Hdist Hfr. set (now := env_now env 0) in *.
  destruct (calm_overdue (fun e => JE_Failed ("Failed to query overdue monitors: "
    +:+ CronsServerError_to_string e) true) now orgs mems ms ks b au Hok) as (ds & Hlist & Hds).
  assert (Hin : forall d, d ∈ ds <-> d ∈ ms /\ is_overdue now d = true).
  { intros d. by rewrite Hds, elem_of_select_where. }
  assert (Hids : forall m, m ∈ ms -> mo_id m ∈ mo_id <$> ds <-> is_overdue now m = true).
  { intros m Hm. rewrite list_elem_of_fmap. split.
    - intros (d & E & Hd). apply Hin in Hd as [Hd Ho]. by rewrite (NoDup_key mo_id ms m d Hnd Hm Hd E).
    - intros Ho. exists m. split; [done|]. by apply Hin. }
  assert (Hnd' : NoDup (mo_id <$> ds)).
  { rewrite Hds. apply (delete_where_NoDup mo_id (fun m => negb (is_overdue now m))) in Hnd.
    replace (select_where (is_overdue now) ms) with (delete_where (fun m => negb (is_overdue now m)) ms);
      [exact Hnd|]. apply List.filter_ext. intros m. apply negb_involutive. }
  destruct (calm_missed orgs mems b au env ds Hdist Hnd' 0 0 ms ks) as (ms' & Hrun & Heff).
  { apply Forall_forall. intros m Hm Hid%Hids; [|done]. split; [exact (proj1 (Forall_forall _ _) Hok m Hm)|].
    by apply Hin. }
  { apply Forall_forall. intros d Hd. by apply Hin. }
  { done. }
  set (new := imap (fun j m => missed_checkin (env_uuid env j) m now) ds).
  assert (Hmon : ci_monitor_id <$> new = mo_id <$> ds).
  { unfold new. rewrite fmap_imap. erewrite imap_ext; [apply imap_const|]. done. }
  exists ms', new, (detected "missed cron runs" "missed_count" (length ds) now).
  split_and!.
  - unfold cron_missed_run. cbv iota. fold now. rewrite (bind_run _ _ _ _ _ Hlist), (bind_run _ _ _ _ _ Hrun).
    unfold ret. do 3 f_equal. unfold new. by rewrite fmap_imap.
  - apply Forall2_same_length_lookup. split; [by eapply Forall2_length|]. intros k m m' E1 E2.
    assert (Hm := list_elem_of_lookup_2 _ _ _ E1).
    assert (H := Forall2_lookup_lr _ _ _ _ _ _ Heff E1 E2).
    destruct H as [[Hid ->]|[Hid (j & _ & ->)]]; rewrite Hids in Hid by done.
    + by destruct (is_overdue now m).
    + rewrite Hid. by exists j.
  - apply Forall_forall. intros c (k & d & -> & _)%elem_of_lookup_imap. done.
  - by rewrite Hmon.
  - intros m Hm. by rewrite Hmon, Hids.
  - unfold new. by rewrite length_imap.
Qed.

(** * Pings *)

(** The status a ping reports. *)
Definition ping_status (p : Ping) : CheckInStatus :=
  match p with
  | Ping_Success x | Ping_Body x _ => if default 0 x =? 0 then CI_Ok else CI_Error
  | Ping_Fail _ => CI_Error
  | Ping_Start => CI_InProgress
  end.

(** A report that is stored as it is: a body has at most 10 KB. *)
Definition plain_report (p : Ping) : Prop :=
  match p with
  | Ping_Body _ body => Z.of_nat (String.length body) <= 10240
  | Ping_Start => False
  | _ => True
  end.

(** The monitor and the check-in after a ping, in the terms of the handlers. *)
Definition ping_effect (env : Env) (p : Ping) (m : Monitor) : Monitor :=
  let failed := is_failure_status (ping_status p) in
  reported (report_health failed) (ping_status p)
    (next_expected (mo_schedule m) (mo_timezone m) (env_now env 0)) failed
    (env_now env 2) (env_now env 4) m.

Definition ping_effect_checkin (env : Env) (p : Ping) (m : Monitor) : CheckIn :=
  ping_checkin (env_uuid env 0) m (ping_status p) None
    (match p with Ping_Success x | Ping_Fail x | Ping_Body x _ => x | Ping_Start => None end)
    (match p with
     | Ping_Body _ body => if String.eqb body "" then None else Some body
     | _ => None
     end) (env_now env 0).

Lemma calm_found_key orgs mems ms ks b au m :
  NoDup (mo_ping_key <$> ms) -> Forall monitor_ok ms -> m ∈ ms ->
  found_row (crons_get_monitor_by_ping_key (mo_ping_key m)) (calm (tables_of orgs mems ms ks) b au)
    = (Ok m, calm (tables_of orgs mems ms ks) b au).
Proof.
  intros Hnd Hok Hm. unfold found_row. erewrite bind_run; [|apply (calm_crepo_read _ _ (Some m))].
  - done.
  - unfold crons_get_monitor_by_ping_key, cron_fetch_optional. erewrite bind_run; [|reflexivity].
    unfold of_result. f_equal. cbn [cn_tables tables_of ct_monitors]. rewrite (select_one_enc monitor_row).
    assert (E : select_one (fun v => String.eqb (mw_ping_key (monitor_row v)) (mo_ping_key m)) ms = Some m).
    { destruct (select_one _ _) as [m'|] eqn:Hs.
      - apply select_one_Some in Hs as [Hm' E%String.eqb_eq]. f_equal. symmetry.
        by apply (NoDup_key mo_ping_key ms m m' Hnd).
      - apply select_one_None in Hs. assert (H := proj1 (Forall_forall _ _) Hs m Hm). cbn in H.
        by rewrite String.eqb_refl in H. }
    rewrite E. assert (Hm' := proj1 (Forall_forall _ _) Hok m Hm). cbn [fmap option_fmap option_map transpose].
    rewrite monitor_decodes by done. cbn [mbind result_bind transpose].
    by rewrite monitor_reads_back.
Qed.

Definition replaced (m m' : Monitor) (ms : list Monitor) : list Monitor :=
  update_where (fun x => bool_decide (mo_id x = mo_id m)) (fun _ => m') ms.

(** A check-in stored, the state of its monitor updated and an event sent. *)
Lemma calm_report {A} orgs mems ms ks b au env m c h s failed (rest : CronM HttpError A) :
  NoDup (mo_id <$> ms) -> monitor_ok m -> m ∈ ms -> ci_monitor_id c = mo_id m ->
  existsb (checkin_is (uuid_text (ci_id c))) ks = false ->
  let next := next_expected (mo_schedule m) (mo_timezone m) (env_now env 0) in
  (let* _ := crepo (fun _ => bare 500) (crons_create_checkin c) in
   let* _ := record_report env 1 (mo_id m) h s next failed in rest)
    (calm (tables_of orgs mems ms ks) b au)
  = rest (calm (tables_of orgs mems
      (replaced m (reported h s next failed (env_now env 2) (env_now env 4) m) ms)
      (ks ++ [checkin_row c])) b au).
Proof.
  intros Hnd Hok Hm Hc Hk next.
  destruct (calm_insert (fun _ : CronsServerError => bare 500) c (tables_of orgs mems ms ks) b au) as [Hi _].
  - apply List.existsb_exists. exists (monitor_row m). rewrite Hc. split; [|apply String.eqb_refl].
    rewrite <- list_elem_of_In. apply list_elem_of_fmap. by exists m.
  - done.
  - rewrite (bind_run _ _ _ _ _ Hi), (bind_run _ _ _ _ _ (calm_record _ _ _ _ _ _ _ _ _ _)).
    do 2 f_equal. unfold tables_of, put_monitors, put_checkins.
    cbn [ct_organizations ct_memberships ct_monitors ct_checkins]. f_equal.
    apply update_monitor_value. intros m' Hm' E.
    rewrite (NoDup_key mo_id ms m' m Hnd Hm' Hm E). by apply report_columns_row.
Qed.

Lemma calm_event {E} m s id d x now : monitor_ok m ->
  exists e, forall w, checkin_event (E := E) m s id d x now w = (Ok e, w).
Proof.
  intros Hok. assert (Hc := ok_consecutive _ Hok).
  assert (Ha : add_u32 cron_overflow_checks (mo_consecutive_failures m) 1 = Done (mo_consecutive_failures m + 1)).
  { apply add_u32_fits. unfold u32_ok. lia. }
  destruct s; cbn; try (by eexists); unfold checkin_error; rewrite Ha; by eexists.
Qed.

Lemma calm_ping orgs mems ms ks b au env p m :
  NoDup (mo_id <$> ms) -> NoDup (mo_ping_key <$> ms) -> Forall monitor_ok ms -> m ∈ ms ->
  plain_report p -> fresh_ids env 0 ks ->
  exists b', serve_ping env (mo_ping_key m) p (calm (tables_of orgs mems ms ks) b au)
    = (Ok tt, calm (tables_of orgs mems (replaced m (ping_effect env p m) ms)
                      (ks ++ [checkin_row (ping_effect_checkin env p m)])) b' au).
Proof.
  intros Hnd Hkeys Hok Hm Hp Hfr. assert (Hm' := proj1 (Forall_forall _ _) Hok m Hm).
  assert (Hk : existsb (checkin_is (uuid_text (env_uuid env 0))) ks = false).
  { apply not_true_iff_false. intros (k & Hk & E%String.eqb_eq)%List.existsb_exists.
    rewrite <- list_elem_of_In in Hk. by apply (Hfr 0%nat k ltac:(lia) Hk). }
  assert (He : forall x, exists e, forall w,
            checkin_error (E := HttpError) m (env_uuid env 0) x (env_now env 5) w = (Ok e, w)).
  { intros x. by apply (calm_event m CI_Error (env_uuid env 0) None x). }
  assert (Hrep : forall x out b, exists b', ping_report env m x out (calm (tables_of orgs mems ms ks) b au)
     = (Ok tt, calm (tables_of orgs mems (replaced m (ping_effect env (Ping_Success x) m) ms)
          (ks ++ [checkin_row (ping_checkin (env_uuid env 0) m (ping_status (Ping_Success x)) None x out
                    (env_now env 0))])) b' au)).
  { intros x out b0. destruct (He x) as (e & Hx). unfold ping_report. rewrite calm_report by done.
    unfold ping_effect, ping_status. destruct (default 0 x =? 0); cbn [is_failure_status report_health].
    - rewrite bool_decide_false by done. by eexists.
    - rewrite bool_decide_true by done. rewrite (bind_run _ _ _ _ _ (Hx _)). by eexists. }
  destruct p as [x| |x|x body]; cbn [serve_ping plain_report] in *; [|done|..];
    unfold ping_success, ping_fail, ping_with_body;
    rewrite (bind_run _ _ _ _ _ (calm_found_key orgs mems ms ks b au m Hkeys Hok Hm)).
  - apply (Hrep x None).
  - rewrite calm_report by done. unfold ping_effect, ping_effect_checkin. cbn [ping_status is_failure_status report_health].
    destruct (He x) as (e & Hx). rewrite (bind_run _ _ _ _ _ (Hx _)). by eexists.
  - unfold ping_effect_checkin. destruct (String.eqb body "") eqn:Eb.
    + apply (Hrep x None).
    + erewrite bind_run; [apply (Hrep x (Some body))|]. unfold truncate_output.
      rewrite (proj2 (Nat.leb_le _ _)); [done|].
      unfold MAX_OUTPUT_BYTES. lia.
Qed.

(** ** What a ping promises *)

(** The job says that it failed: by the path, or by an exit code other than 0. *)
Definition says_failed (p : Ping) : bool :=
  match p with
  | Ping_Fail _ => true
  | Ping_Success (Some x) | Ping_Body (Some x) _ => negb (x =? 0)
  | _ => false
  end.

Definition said_exit_code (p : Ping) : option Z :=
  match p with Ping_Success x | Ping_Fail x | Ping_Body x _ => x | Ping_Start => None end.

Definition said_output (p : Ping) : option string :=
  match p with Ping_Body _ (String c s) => Some (String c s) | _ => None end.

(** The monitor after the report: healthy or failing as the job says, a failure counted
    or the row of failures at its end, and the next run due after the present. *)
Definition pinged (env : Env) (p : Ping) (m : Monitor) : Monitor :=
  if says_failed p
  then reported MH_Failing CI_Error (next_due m (env_now env 0)) true
         (env_now env 2) (env_now env 4) m
  else reported MH_Healthy CI_Ok (next_due m (env_now env 0)) false
         (env_now env 2) (env_now env 4) m.

Definition pinged_checkin (env : Env) (p : Ping) (m : Monitor) : CheckIn :=
  {| ci_id := env_uuid env 0;
     ci_monitor_id := mo_id m;
     ci_status := if says_failed p then CI_Error else CI_Ok;
     ci_started_at := None;
     ci_finished_at := env_now env 0;
     ci_duration_ms := None;
     ci_environment := None;
     ci_release := None;
     ci_exit_code := said_exit_code p;
     ci_output := said_output p;
     ci_crash_event_id := None;
     ci_source := CS_Ping;
     ci_created_at := env_now env 0 |}.

Lemma ping_status_says p : plain_report p ->
  ping_status p = if says_failed p then CI_Error else CI_Ok.
Proof. destruct p as [[x|]| |x|[x|] ?]; cbn; try done; intros _; by destruct (x =? 0). Qed.

Lemma ping_effect_promised env p m : plain_report p ->
  ping_effect env p m = pinged env p m /\ ping_effect_checkin env p m = pinged_checkin env p m.
Proof.
  intros Hp. unfold ping_effect, pinged, ping_effect_checkin, pinged_checkin, ping_checkin.
  rewrite ping_status_says, next_expected_due by done. split; [by destruct (says_failed p)|].
  f_equal. by destruct p as [| | |? [|]].
Qed.

(** A ping has the promised effect. *)
Lemma calm_pinged orgs mems ms ks b au env p m :
  NoDup (mo_id <$> ms) -> NoDup (mo_ping_key <$> ms) -> Forall monitor_ok ms -> m ∈ ms ->
  plain_report p -> fresh_ids env 0 ks ->
  exists b', serve_ping env (mo_ping_key m) p (calm (tables_of orgs mems ms ks) b au)
    = (Ok tt, calm (tables_of orgs mems (replaced m (pinged env p m) ms)
                      (ks ++ [checkin_row (pinged_checkin env p m)])) b' au).
Proof.
  intros Hnd Hkeys Hok Hm Hp Hfr. destruct (ping_effect_promised env p m Hp) as [<- <-].
  by apply calm_ping.
Qed.

(** What a run of the missed-run detector does to the monitors, and its new check-ins. *)
Definition missed_effect (env : Env) (ms ms' : list Monitor) (new : list CheckIn) : Prop :=
  Forall2 (fun m m' => (late (env_now env 0) m -> exists j, m' = missed_at env j m)
                       /\ (punctual (env_now env 0) m -> m' = m)) ms ms'
  /\ Forall (missed_report (env_now env 0)) new
  /\ NoDup (ci_monitor_id <$> new)
  /\ (forall m, m ∈ ms -> (late (env_now env 0) m -> mo_id m ∈ ci_monitor_id <$> new)
                          /\ (punctual (env_now env 0) m -> mo_id m ∉ ci_monitor_id <$> new)).

Lemma calm_missed_effect orgs mems ms ks b au env :
  NoDup (mo_id <$> ms) -> Forall monitor_ok ms -> calendar (env_now env 0) ->
  distinct_ids env -> fresh_ids env 0 ks ->
  exists ms' new,
    cron_missed_run env (fun _ => false) (calm (tables_of orgs mems ms ks) b au)
      = (Ok (detected "missed cron runs" "missed_count" (length new) (env_now env 0)),
         calm (tables_of orgs mems ms' (ks ++ (checkin_row <$> new))) b au)
    /\ missed_effect env ms ms' new.
Proof.
  intros Hnd Hok Hnow Hdist Hfr.
  destruct (calm_missed_run orgs mems ms ks b au env Hnd Hok Hdist Hfr)
    as (ms' & new & out & Hrun & Heff & Hrep & Hnew & Hids & Hcount).
  assert (Hdec : forall m, m ∈ ms -> (late (env_now env 0) m -> is_overdue (env_now env 0) m = true)
                             /\ (punctual (env_now env 0) m -> is_overdue (env_now env 0) m = false)).
  { intros m Hm. assert (Hm' := proj1 (Forall_forall _ _) Hok m Hm).
    split; [by apply overdue_late|by apply overdue_punctual]. }
  exists ms', new. subst out. split; [done|]. unfold missed_effect. split_and!; [|done|done|].
  - apply Forall2_same_length_lookup. split; [by eapply Forall2_length|]. intros k m m' E1 E2.
    destruct (Hdec m (list_elem_of_lookup_2 _ _ _ E1)) as [Hl Hp].
    assert (H := Forall2_lookup_lr _ _ _ _ _ _ Heff E1 E2). cbn in H.
    split; intros HH; [by rewrite (Hl HH) in H|by rewrite (Hp HH) in H].
  - intros m Hm. rewrite (Hids m Hm). destruct (Hdec m Hm) as [Hl Hp]. split; [done|].
    intros H. by rewrite (Hp H).
Qed.

(** Monitors with room for one more report, and times of the calendar for it. *)
Definition pingable (env : Env) (m : Monitor) : Prop :=
  mo_consecutive_failures m < 2 ^ 31 - 2 /\ mo_total_checkins m < 2 ^ 63 - 2
  /\ mo_total_failures m < 2 ^ 63 - 2 /\ calendar (env_now env 2) /\ calendar (env_now env 4)
  /\ opt_calendar (next_due m (env_now env 0)).

Lemma pinged_ok env p m : monitor_ok m -> pingable env m -> monitor_ok (pinged env p m).
Proof.
  intros [] (? & ? & ? & ? & ? & ?). unfold pinged.
  destruct (says_failed p); split; cbn; try done; lia.
Qed.

Lemma pinged_id env p m : mo_id (pinged env p m) = mo_id m.
Proof. unfold pinged. by destruct (says_failed p). Qed.

Lemma pinged_margin env p m :
  mo_checkin_margin_minutes (pinged env p m) = mo_checkin_margin_minutes m.
Proof. unfold pinged. by destruct (says_failed p). Qed.

Lemma replaced_lookup m m' ms : NoDup (mo_id <$> ms) -> m ∈ ms -> mo_id m' = mo_id m ->
  m' ∈ replaced m m' ms /\ mo_id <$> replaced m m' ms = mo_id <$> ms
  /\ forall P : Monitor -> Prop, P m' -> Forall P ms -> Forall P (replaced m m' ms).
Proof.
  intros Hnd Hm E. split_and!.
  - apply elem_of_update_where. exists m. split; [done|]. by rewrite bool_decide_true.
  - apply update_where_fmap. intros x _ Hx%bool_decide_eq_true. congruence.
  - intros P H1 H2. apply Forall_forall. intros x (y & Hy & ->)%elem_of_update_where.
    destruct (bool_decide _); [done|]. exact (proj1 (Forall_forall _ _) H2 y Hy).
Qed.

End CronDetection.
