(* ===== verification/CronCases.v ===== *)
(** Cron monitoring on concrete databases. *)
From stdpp Require Import base gmap list strings countable pretty.
From Stdlib Require Import ZArith Lia Ascii.
From S2P Require Import Prelude Text CoreTypes Effects Sql Columns JobModel Samples CronModel CronRepo CronRoutes CronInvariant CronServer CronTenants CronDetection.
Local Open Scope Z_scope.

(** * A backend *)

(** SQLite rounds to milliseconds and cuts to seconds; beyond the year 9999 is [NULL]. *)
Definition sample_second (t : Z) : Z := (t + 500000) / 10 ^ 9.
Definition sample_datetime (s : string) (m : option Z) : option Z :=
  match m with
  | None => sample_second <$> time_of s
  | Some m =>
      if m <? 0 then None
      else t ← time_of s;
           if decide (calendar (t + m * minute + 10 ^ 9)) then Some (sample_second (t + m * minute)) else None
  end.

Lemma sample_second_of t : second_of t (sample_second t).
Proof. unfold second_of, sample_second. split; [apply Z.div_le_mono; lia|done]. Qed.

(** A schedule is a number of minutes, as text; every time zone is [UTC]. *)
#[refine] Definition sample_crons : CronBackend := {|
  cn_stamps := sample_stamps;
  cn_environments := column_of (fun l => l) (fun l => l) (fun _ => eq_refl);
  cn_environments_exact := column_exact _ _ _;
  cron_overflow_checks := false;
  CronSchedule := N;
  schedule_from_str s := match parse_u32 s with Some n => Ok (Z.to_N n) | None => Err "invalid" end;
  Tz := unit;
  tz_parse s := if String.eqb s "UTC" then Some tt else None;
  schedule_after n _ t := Some (t + Z.of_N (1 + n) * minute);
  sqlite_datetime := sample_datetime;
  sql_scan R l := rev l;
  F64 := Z * Z;
  sql_avg l := match l with [] => None | _ => Some (foldr Z.add 0 l, Z.of_nat (length l)) end;
  f64_as_u64 f := f.1 / f.2;
  hundred := (100, 1);
  percent_of a b := (100 * a, b);
  cron_translate _ k := k;
|}.
Proof.
  - intros n [] t u [= <-]. unfold minute. lia.
  - intros t Ht. exists (sample_second t). change (to_rfc3339 t) with (time_text t).
    unfold sample_datetime. rewrite time_text_inv by done. split; [done|apply sample_second_of].
  - intros t m s Ht Hm. change (to_rfc3339 t) with (time_text t). unfold sample_datetime.
    rewrite (proj2 (Z.ltb_ge _ _) Hm), time_text_inv by done. cbn [mbind option_bind].
    destruct (decide _); [|done]. intros [= <-]. apply sample_second_of.
  - intros t m Ht Hm Hc. change (to_rfc3339 t) with (time_text t). unfold sample_datetime.
    rewrite (proj2 (Z.ltb_ge _ _) Hm), time_text_inv by done. cbn [mbind option_bind].
    by rewrite decide_True.
  - intros t m Hm. unfold sample_datetime. by rewrite (proj2 (Z.ltb_lt _ _) Hm).
  - intros R l. symmetry. apply Permutation_rev.
Defined.

Section Cases.
#[local] Existing Instance sample_crons.

(** Two organizations with a member each. *)
Definition acme : Uuid := 1%N.
Definition rival : Uuid := 2%N.
Definition ann : Uuid := 11%N.
Definition bob : Uuid := 12%N.

Definition sample_orgs : list string := [uuid_text acme; uuid_text rival].
Definition sample_members : list (string * string) :=
  [(uuid_text acme, uuid_text ann); (uuid_text rival, uuid_text bob)].

Definition start_world : CronWorld :=
  calm (mkCronTables sample_orgs sample_members [] []) CronsBroadcaster_new [].

(** The clock starts at [t] and ticks by a millisecond; identifiers start at [u]. *)
Definition env_at (t : Z) (u : N) : Env :=
  mkEnv (fun i => t + Z.of_nat i * 10 ^ 6) (fun i => (u + N.of_nat i)%N).

Definition nightly (org : Uuid) : CreateMonitorRequest :=
  mkCreateMonitorRequest org "nightly" "Nightly" None (Sched_Interval 60) "UTC" 5 (Some 30) [].

Definition nightly_key : string := uuid_text 100%N.

(** Ann and Bob each make a monitor, the one of Ann is pinged, the detectors run, and one
    statement of the last ping fails. *)
Definition busy_day : list CronStep :=
  [Cron_User (env_at 0 100%N) "en" "" ann (CR_CreateMonitor (nightly acme));
   Cron_User (env_at minute 200%N) "en" "" bob (CR_CreateMonitor (nightly rival));
   Cron_Ping (env_at (2 * minute) 300%N) nightly_key (Ping_Success None);
   Cron_Ping (env_at (3 * minute) 400%N) nightly_key Ping_Start;
   Cron_Timeout (env_at (40 * minute) 500%N) (fun _ => false);
   Cron_MissedRun (env_at (70 * minute) 600%N) (fun _ => false);
   Cron_Ping (env_at (71 * minute) 700%N) nightly_key (Ping_Fail (Some 1))].

(** The counters of a monitor. *)
Definition counters (m : MonitorRow) : string * Z * Z * Z :=
  (mw_health m, mw_consecutive_failures m, mw_total_checkins m, mw_total_failures m).

Lemma busy_day_counts :
  counters <$> ct_monitors (cn_tables (cx_conn (cron_steps busy_day start_world)))
  = [("failing"%string, 3, 4, 3); ("missed"%string, 1, 1, 1)].
Proof. vm_compute. reflexivity. Qed.

(** The 30th statement of the day fails. *)
Definition faulty_world : CronWorld :=
  mkCronWorld (mkConn (cn_tables (cx_conn start_world)) (replicate 29 false ++ [true]))
    CronsBroadcaster_new [].

Lemma start_inv : cron_inv 0 None (cn_tables (cx_conn start_world)).
Proof. split; constructor. Qed.

Lemma busy_day_fault :
  (faults_left (cx_conn faulty_world) - faults_left (cx_conn (cron_steps busy_day faulty_world)))%nat = 1%nat.
Proof. vm_compute. reflexivity. Qed.

Lemma monitor_counts_consistent_witness :
  cron_inv 1 None (cn_tables (cx_conn (cron_steps busy_day faulty_world))).
Proof.
  assert (H := monitor_counts_consistent 0 busy_day faulty_world start_inv). cbv zeta in H.
  rewrite busy_day_fault in H. exact H.
Defined.

(** Both monitors exist. *)
Definition two_monitors : CronWorld := cron_steps (take 2 busy_day) start_world.

Lemma two_monitors_wf : wf (cn_tables (cx_conn two_monitors)).
Proof.
  destruct (cron_steps_ok 0 (take 2 busy_day) start_world) as (lost & _ & H); [|by exists lost].
  exists 0%nat. split; [done|apply start_inv].
Qed.

(** Bob lists, changes and deletes monitors of the other organization, or tries to, and
    pings his own. *)
Definition bobs_steps : list CronStep :=
  [Cron_User (env_at minute 300%N) "en" "" bob (CR_ListMonitors acme);
   Cron_User (env_at minute 300%N) "en" "" bob (CR_DeleteMonitor acme "nightly");
   Cron_User (env_at minute 300%N) "en" "" bob (CR_DeleteMonitor rival "nightly");
   Cron_Ping (env_at minute 400%N) (uuid_text 200%N) (Ping_Success None)].

Lemma monitors_isolated_witness :
  org_view acme (cn_tables (cx_conn (cron_steps bobs_steps two_monitors)))
    = org_view acme (cn_tables (cx_conn two_monitors))
  /\ length (org_view acme (cn_tables (cx_conn two_monitors))).1 = 1%nat.
Proof.
  split; [|vm_compute; reflexivity].
  refine (proj1 (monitors_isolated acme bobs_steps two_monitors two_monitors_wf _)).
  repeat constructor; [vm_compute; reflexivity..|].
  cbn [from_outside]. apply Forall_forall.
  refine (bool_decide_unpack (Forall (fun m => mw_ping_key m <> uuid_text 200%N) _) _).
  vm_compute. exact I.
Defined.

(** A monitor of a job that runs every hour, expected at [next]. *)
Definition hourly (id : Uuid) (status : MonitorStatus) (next : Z) : Monitor :=
  mkMonitor id acme "hourly" "Hourly" None status MH_Healthy (Sched_Interval 60) "UTC" 5 None
    (uuid_text id) [] (Some 0) (Some CI_Ok) (Some next) 0 1 0 0 0.

Lemma hourly_ok id status next : calendar next -> monitor_ok (hourly id status next).
Proof. intros H. split; cbn; try done; unfold u32_ok, calendar; lia. Qed.

Lemma env_distinct t u : distinct_ids (env_at t u).
Proof. intros i j. cbn. lia. Qed.

(** Expected after an hour: late after two, one is paused and one expected later. *)
Definition three : list Monitor :=
  [hourly 1%N MS_Active (60 * minute); hourly 2%N MS_Paused (60 * minute); hourly 3%N MS_Active (119 * minute)].

Lemma three_ok : Forall monitor_ok three.
Proof. repeat constructor; cbn; try done; unfold u32_ok, calendar, minute; lia. Qed.

Lemma three_missed ms' new : missed_effect (env_at (120 * minute) 50%N) three ms' new ->
  (1%N : Uuid) ∈ ci_monitor_id <$> new /\ (2%N : Uuid) ∉ ci_monitor_id <$> new
  /\ (3%N : Uuid) ∉ ci_monitor_id <$> new.
Proof.
  intros (_ & _ & _ & Hin). split_and!.
  - apply (Hin (hourly 1%N MS_Active (60 * minute))); [left|]. split_and!; [done|done|cbn; lia|].
    exists (60 * minute). split_and!; [done|unfold minute; cbn; lia|unfold minute; cbn; lia].
  - apply (Hin (hourly 2%N MS_Paused (60 * minute))); [right; left|]. by left.
  - apply (Hin (hourly 3%N MS_Active (119 * minute))); [right; right; left|]. right. right. right.
    exists (119 * minute). split; [done|]. left. unfold minute. cbn. lia.
Qed.


(** * Where the code departs from its documentation or purpose *)

(** The output is cut at a byte before a character boundary is looked for: 10240 bytes and
    an accented letter across the limit panic. *)
Definition repeat_char (c : ascii) (n : nat) : string := foldr String "" (replicate n c).
Definition accented : string := repeat_char "a" 10239 +:+ String "195" (String "169" "").

Lemma long_output_panics : truncate_output accented = Panic.
Proof. vm_compute. reflexivity. Qed.

(** Pause after the first ping, resume a day later: the answer has a new expected time, the
    row still has the old one, and the detector reports a missed run at once. *)
Definition after_pause : CronWorld :=
  cron_steps [Cron_User (env_at 0 100%N) "en" "" ann (CR_CreateMonitor (nightly acme));
    Cron_User (env_at minute 200%N) "en" "" ann (CR_PauseMonitor acme "nightly")] start_world.

Definition next_day : Z := 1440 * minute.
Definition resumed := resume_monitor (env_at next_day 300%N) "en" ann acme "nightly" after_pause.

Lemma resume_forgets_next_run :
  match resumed with
  | (Ok m, w) =>
      mo_next_expected_at m = Some (next_day + 60 * minute)
      /\ mw_next_expected_at <$> ct_monitors (cn_tables (cx_conn w)) = [Some (to_rfc3339 (60 * minute))]
      /\ mw_health <$> ct_monitors (cn_tables (cx_conn
           (cron_step (Cron_MissedRun (env_at (next_day + minute) 400%N) (fun _ => false)) w)))
         = ["missed"%string]
  | _ => False
  end.
Proof. vm_compute. repeat split; reflexivity. Qed.

(** Two missed runs in a row are one: the second day brings no second check-in. *)
Lemma second_miss_unnoticed :
  let w := cron_steps [Cron_User (env_at 0 100%N) "en" "" ann (CR_CreateMonitor (nightly acme));
             Cron_MissedRun (env_at next_day 200%N) (fun _ => false);
             Cron_MissedRun (env_at (2 * next_day) 300%N) (fun _ => false);
             Cron_MissedRun (env_at (3 * next_day) 400%N) (fun _ => false)] start_world in
  counters <$> ct_monitors (cn_tables (cx_conn w)) = [("missed"%string, 1, 1, 1)]
  /\ length (ct_checkins (cn_tables (cx_conn w))) = 1%nat.
Proof. vm_compute. split; reflexivity. Qed.

(** An update of a check-in that says it is still in progress counts as a success. *)
Lemma progress_counts_as_success :
  let w := cron_steps [Cron_User (env_at 0 100%N) "en" "" ann (CR_CreateMonitor (nightly acme));
             Cron_Ping (env_at minute 200%N) nightly_key (Ping_Fail None);
             Cron_Ping (env_at (2 * minute) 300%N) nightly_key Ping_Start;
             Cron_User (env_at (3 * minute) 400%N) "en" "" ann (CR_UpdateCheckIn 300%N
               (mkUpdateCheckInRequest CI_InProgress None None None (Some "step 2") None))]
             start_world in
  counters <$> ct_monitors (cn_tables (cx_conn w)) = [("healthy"%string, 0, 2, 1)].
Proof. vm_compute. reflexivity. Qed.

(** A check-in that ends before it started lasts for 2^64 milliseconds, less a few. *)
Lemma negative_duration_wraps : elapsed_ms (5 * 10 ^ 6) 0 = 2 ^ 64 - 5.
Proof. vm_compute. reflexivity. Qed.

(** A schedule and a time zone that do not parse are accepted; nothing is ever expected. *)
Lemma invalid_schedule_accepted :
  let req := mkCreateMonitorRequest acme "broken" "Broken" None (Sched_Cron "every day") "Mars" 5 None [] in
  match create_monitor (env_at 0 100%N) "en" "" ann req start_world with
  | (Ok (m, _), w) => mo_next_expected_at m = None
      /\ ct_monitors (cn_tables (cx_conn w)) = [monitor_row m]
      /\ validate_cron_expression "every day" <> Ok tt /\ validate_timezone "Mars" <> Ok tt
  | _ => False
  end.
Proof. vm_compute. repeat split; (reflexivity || congruence). Qed.
End Cases.

(** * The detectors are silent *)

Section Silent.
Context `{CB : CronBackend}.

Definition same_channels (b : CronsBroadcaster) (w : CronWorld) : Prop := cx_broadcaster w = b.

Lemma keeps_channels_crepo b {E A} (f : CronsServerError -> E) (m : CronOp A) :
  keeps (same_channels b) (crepo f m).
Proof. apply keeps_map_err. intros w Hw. unfold on_part. by destruct (m (cx_conn w)). Qed.
Lemma keeps_channels_try b {E A} (m : CronOp A) : keeps (same_channels b) (try_crepo (E := E) m).
Proof. apply keeps_attempt. intros w Hw. unfold on_part. by destruct (m (cx_conn w)). Qed.

(** Neither detector sends an event, although [monitor.missed] and [monitor.timeout] are
    documented events of the stream. *)
Lemma detectors_send_nothing env cancelled w :
  cx_broadcaster (cron_missed_run env cancelled w).2 = cx_broadcaster w
  /\ cx_broadcaster (cron_timeout env cancelled w).2 = cx_broadcaster w.
Proof.
  assert (Hr : forall i now m, keeps (same_channels (cx_broadcaster w)) (report_missed env i now m)).
  { intros i now m. apply keeps_bind; [apply keeps_channels_try|]. intros [v|e]; [|apply keeps_ret].
    apply keeps_bind; [|intros v'; apply keeps_ret].
    repeat (apply keeps_bind; [apply keeps_channels_try|]; intros ?). apply keeps_ret. }
  assert (Ht : forall i now p, keeps (same_channels (cx_broadcaster w)) (report_timeout env i now p)).
  { intros i now [c m]. apply keeps_bind; [apply keeps_channels_try|]. intros [v|e]; [|apply keeps_ret].
    repeat (apply keeps_bind; [apply keeps_channels_try|]; intros ?). apply keeps_ret. }
  split; refine ((_ : keeps (same_channels (cx_broadcaster w)) _) w eq_refl);
    unfold cron_missed_run, cron_timeout; (destruct (cancelled 0%nat); [apply keeps_raise|]);
    (apply keeps_bind; [apply keeps_channels_crepo|]; intros l;
     apply keeps_bind; [|intros n; apply keeps_ret]; apply keeps_report_all; auto).
Qed.
End Silent.
