(* ===== verification/JobServer.v ===== *)
(** The server's use of background jobs: [routes/admin_jobs.rs], the check of
    [health.rs], job_history_cleanup.rs and the jobs of cron monitoring as [main.rs]
    registers them.

    A request that triggers a job waits for the task it started; its answer is made from
    the task's end. *)
From stdpp Require Import base gmap list strings pretty.
From Stdlib Require Import ZArith Lia.
From S2P Require Import Prelude Text CoreTypes Effects Sql Columns JobModel JobStore JobScheduler.
From S2P Require Import JobRuns JobHistory CronModel CronRepo CronRoutes.

(** * Requests and answers *)

Record JobInfo := mkJobInfo {
  jn_id : string;
  jn_name : string;
  jn_description : string;
  jn_job_type : string;
  jn_interval_secs : option Z;
  jn_enabled : bool;
  jn_status : HealthState;
  jn_last_run : option LastRunInfo;
  jn_consecutive_failures : Z;
}.

Record TriggerJobResponse := mkTriggerJobResponse { tr_run_id : string; tr_message : string }.

Record JobRunInfo (V : Type) := mkJobRunInfo {
  ri_id : string;
  ri_status : string;
  ri_started_at : string;
  ri_completed_at : option string;
  ri_duration_ms : option Z;
  ri_error_message : option string;
  ri_retry_count : Z;
  ri_triggered_by : string;
  ri_metadata : option V;
}.
Arguments mkJobRunInfo {V} _ _ _ _ _ _ _ _ _.

Record JobHistoryResponse (V : Type) := mkJobHistoryResponse {
  hr_runs : list (JobRunInfo V);
  hr_total : Z;
  hr_limit : Z;
  hr_offset : Z;
}.
Arguments mkJobHistoryResponse {V} _ _ _ _.
Arguments hr_runs {V} _.
Arguments hr_total {V} _.

Definition default_limit : Z := 50.

(** [JobsHealth] of health.rs; the state of the component is the scheduler's. *)
Record JobsHealth := mkJobsHealth {
  jz_status : HealthState;
  jz_jobs_total : nat;
  jz_jobs_healthy : nat;
  jz_jobs_failing : nat;
  jz_failing_jobs : option (list string);
}.

Section Server.
Context `{JB : JobBackend} {V : Type} `{JV : !JsonColumn V} {W : Type}.
Implicit Types (s : Scheduler (V := V) (W := W)).

#[local] Notation AdminM A := (StM (Scheduler (V := V) (W := W)) HttpError A).

(** ** admin_jobs.rs *)

Definition jobs_forbidden (locale : string) : HttpError :=
  http 403 "forbidden" (job_translate locale "server.api.admin.system_admin_required").
Definition jobs_not_configured : HttpError := http 501 "not_implemented" "Job scheduler not configured".
Definition jobs_internal (locale : string) : HttpError :=
  http 500 "internal_error" (job_translate locale "server.api.error.internal").

(** The two guards of every handler; [main.rs] sets the scheduler and the repository. *)
Definition admin_only {A} (is_admin configured : bool) (locale : string) (m : AdminM A) : AdminM A :=
  if negb is_admin then raise (jobs_forbidden locale)
  else if negb configured then raise jobs_not_configured
  else m.

(** The text of an error decides on its status. *)
Definition job_failure (locale id error_msg : string) : HttpError :=
  if str_contains error_msg "not found" then http 404 "not_found" ("Job '" +:+ id +:+ "' not found")
  else jobs_internal locale.

Definition job_info (definitions : list JobDefinition) (j : JobHealthStatus) : JobInfo :=
  let def := List.find (fun d => String.eqb (jd_id d) (jh_job_id j)) definitions in
  mkJobInfo (jh_job_id j) (jh_name j) (default "" (jd_description <$> def))
    (default "periodic" (jd_job_type <$> def)) (d ← def; jd_interval_secs d)
    (default true (jd_enabled <$> def)) (jh_status j) (jh_last_run j) (jh_consecutive_failures j).

Definition list_jobs (is_admin configured : bool) (locale : string) : AdminM (list JobInfo) :=
  admin_only is_admin configured locale
    (let* health := map_err (fun _ => jobs_internal locale) health_status in
     let* definitions := attempt (sched_repo list_definitions) in
     ret (job_info (match definitions with Ok l => l | Err _ => [] end) <$> js_jobs health)).

(** The request up to the start of the run; the task to wait for. *)
Definition admin_trigger_job (is_admin configured : bool) (locale id : string) (run : Uuid) : AdminM nat :=
  admin_only is_admin configured locale
    (map_err (fun e => job_failure locale id (JobError_to_string e)) (trigger_job id run TS_Manual)).

(** Its answer, once the task has ended; none when the job panicked or the client left. *)
Definition trigger_answer (locale id : string) (t : Task (V := V) (W := W))
    : option (result HttpError TriggerJobResponse) :=
  match tk_phase t with
  | P_Ended e =>
      match settled (answer_of e) with
      | Some (Ok run_id) => Some (Ok (mkTriggerJobResponse run_id ("Job " +:+ id +:+ " triggered")))
      | Some (Err e) => Some (Err (job_failure locale id (JobError_to_string e)))
      | None => None
      end
  | _ => None
  end.

Definition admin_cancel_job (is_admin configured : bool) (locale id : string) : AdminM string :=
  admin_only is_admin configured locale
    (let* _ := map_err (fun e => job_failure locale id (JobError_to_string e)) (cancel_job id) in
     ret ("Job " +:+ id +:+ " cancelled")).

Definition run_info (r : JobRun V) : JobRunInfo V :=
  mkJobRunInfo (jr_id r) (JobStatus_as_str (jr_status r)) (to_rfc3339 (jr_started_at r))
    (to_rfc3339 <$> jr_completed_at r) (jr_duration_ms r) (jr_error_message r) (jr_retry_count r)
    (TriggerSource_as_str (jr_triggered_by r)) (jr_metadata r).

Definition job_history (is_admin configured : bool) (locale id : string) (limit offset : Z)
    : AdminM (JobHistoryResponse V) :=
  admin_only is_admin configured locale
    (let* runs := map_err (fun _ => jobs_internal locale) (sched_repo (list_runs id limit offset)) in
     let run_infos := run_info <$> runs in
     ret (mkJobHistoryResponse run_infos (wrap_u32 (Z.of_nat (length run_infos))) limit offset)).

Definition set_job_enabled (is_admin configured : bool) (locale id : string) (enabled : bool)
    : AdminM string :=
  admin_only is_admin configured locale
    (let* _ := map_err (fun e => job_failure locale id (DbError_to_string e))
                 (sched_repo (job_set_enabled id enabled)) in
     ret ("Job " +:+ id +:+ " " +:+ (if enabled then "enabled" else "disabled"))).

(** ** health.rs *)

Definition check_jobs (configured : bool) s : option JobsHealth * Scheduler (V := V) (W := W) :=
  if negb configured then (None, s)
  else
    match health_status s with
    | (Ok health, s) =>
        let failing := jh_job_id <$> List.filter (fun j => bool_decide (jh_status j = HS_Unhealthy)) (js_jobs health) in
        (Some (mkJobsHealth (js_status health) (length (js_jobs health))
                 (length (List.filter (fun j => bool_decide (jh_status j = HS_Healthy)) (js_jobs health)))
                 (length failing) (match failing with [] => None | _ => Some failing end)), s)
    | (Err _, s) => (None, s)
    end.
End Server.

(** * Jobs *)

Section Jobs.
Context `{JB : JobBackend} `{JV : !JsonColumn Metadata} {W : Type}.

(** ** job_history_cleanup.rs *)

Definition cleanup_report (count retention_days : Z) : JobOutput Metadata :=
  mkJobOutput ("Cleaned up " +:+ pretty (Z.to_N count) +:+ " old job run records")
    (Some [("deleted_count", D_Number count); ("retention_days", D_Number retention_days)]).

Definition JobHistoryCleanup_run (retention_days : Z) (env : Env) (ctx : JobContext)
    : JobM W JobError (JobOutput Metadata) :=
  if jc_cancelled ctx then raise (Failed JE_Cancelled)
  else
    let* count :=
      map_err (fun e => match e with
                        | Failed e => Failed (JE_Failed ("Job history cleanup failed: "
                                                         +:+ DbError_to_string e) true)
                        | Panicked => Panicked
                        end)
        (on_part jw_conn put_job_conn (cleanup_old_runs (env_now env 0) retention_days)) in
    ret (cleanup_report count retention_days).

Definition JobHistoryCleanupJob (retention_days : Z) : Job W Metadata :=
  mkJob "job-history-cleanup" "Job History Cleanup" "Removes old job run history entries"
    (JobHistoryCleanup_run retention_days).
End Jobs.

(** ** The jobs of cron monitoring *)

Section CronJobs.
Context `{CB : CronBackend} `{JB : !JobBackend}.

Definition put_cron_world (c : CronWorld) (w : JobWorld CronWorld) : JobWorld CronWorld :=
  mkJobWorld (jw_conn w) c.

Definition CronMissedRunDetectorJob : Job CronWorld Metadata :=
  mkJob "cron-missed-run-detector" "Cron Missed Run Detector"
    "Detect cron monitors that have missed their expected check-in and create synthetic missed check-ins"
    (fun env ctx => on_part jw_rest put_cron_world (cron_missed_run env (fun _ => jc_cancelled ctx))).

Definition CronTimeoutDetectorJob : Job CronWorld Metadata :=
  mkJob "cron-timeout-detector" "Cron Timeout Detector"
    "Detect in-progress cron check-ins that have exceeded max_runtime and mark them as timed out"
    (fun env ctx => on_part jw_rest put_cron_world (cron_timeout env (fun _ => jc_cancelled ctx))).
End CronJobs.
