(* ===== verification/JobDetection.v ===== *)
(** The detector of missed cron runs as the scheduler runs it, and the jobs of the server
    that keep the history true. *)
From stdpp Require Import base gmap list strings.
From Stdlib Require Import ZArith Lia.
From S2P Require Import Prelude Text CoreTypes Effects Sql Columns JobModel JobStore JobScheduler.
From S2P Require Import JobRuns JobHistory JobServer CronModel CronRepo CronRoutes CronInvariant.
From S2P Require Import CronServer CronDetection.

(** * Jobs that keep the history *)

Section Tidy.
Context `{JB : JobBackend} {W : Type}.

Lemma cleanup_tidy retention_days : tidy (W := W) (JobHistoryCleanupJob retention_days).
Proof.
  intros env ctx [c rest]. cbn. unfold JobHistoryCleanup_run. destruct (jc_cancelled ctx); [by split; [|apply drops_none]|].
  unfold bind, map_err, on_part, cleanup_old_runs. cbn. destruct (_ <? min_utc)%Z; [by split; [|apply drops_none]|].
  unfold map_err, delete_old_runs, sql_write, sql.
  destruct (cn_faults c) as [|[] fs]; cbn; (split; [done|]); try apply drops_none;
    (eexists; split; [done|]; intros r; unfold completed_before; by destruct (rw_completed_at r)).
Qed.
End Tidy.

Lemma rest_tidy {W V} id name desc (run : Env -> JobContext -> StM W (Failure JobError) (JobOutput V)) :
  tidy (mkJob id name desc (fun env ctx => on_part jw_rest (fun c w => mkJobWorld (jw_conn w) c) (run env ctx))).
Proof.
  intros env ctx [c rest]. cbn. unfold on_part. cbn. destruct (run env ctx rest). cbn.
  split; [done|apply drops_none].
Qed.

Section Detection.
Context `{CB : CronBackend} `{JB : !JobBackend} `{JV : !JsonColumn Metadata}.

Lemma missed_run_tidy : tidy CronMissedRunDetectorJob.
Proof. apply rest_tidy. Qed.
Lemma timeout_tidy : tidy CronTimeoutDetectorJob.
Proof. apply rest_tidy. Qed.

(** * A scheduled detection *)

Definition detector : string := "cron-missed-run-detector".

(** A scheduler that waits for the next time to run the detector, on healthy connections. *)
Record awaits (s : Scheduler (V := Metadata) (W := CronWorld)) (tb : JobTables) (cron : CronWorld) : Prop := {
  aw_job : exists ty, sc_jobs s !! detector = Some (mkRegisteredJob CronMissedRunDetectorJob ty false);
  aw_loop : sc_loops s !! detector = Some L_Idle;
  aw_up : sc_shutdown s = false;
  aw_defined : is_Some (select_one (is_definition detector) (jt_definitions tb));
  aw_world : sc_world s = mkJobWorld (mkConn tb []) cron;
}.

(** The rows that a run adds to the history: one that says how it went. *)
Definition success_row (run : Uuid) (started completed : Z) (metadata : Metadata) : RunRow :=
  mkRunRow (uuid_text run) detector "succeeded" (to_rfc3339 started) (Some (to_rfc3339 completed))
    (julian_ms (to_rfc3339 completed) (to_rfc3339 started)) None 0 "schedule" (Some (to_json metadata)).

Lemma tick_awaits s tb cron run : awaits s tb cron ->
  tick detector run s
  = mkScheduler (sc_jobs s) (mkJobWorld (mkConn tb []) cron)
      (sc_tasks s ++ [mkTask CronMissedRunDetectorJob run TS_Schedule P_Start])
      (<[detector := L_Busy (length (sc_tasks s))]> (sc_loops s)) false.
Proof.
  intros [[ty Hj] Hl Hsh _ Hw]. unfold tick. rewrite Hl, Hj. cbn. unfold put_loops, spawn, put_tasks. cbn.
  by rewrite Hsh, Hw.
Qed.

(** The last of the tasks moves on. *)
Lemma advance_last jobs w ts t loops sh env p w' :
  run_step env (match jobs !! job_id (tk_job t) with Some r => rj_cancelled r | None => false end) t w = (p, w') ->
  advance (length ts) env (mkScheduler (V := Metadata) (W := CronWorld) jobs w (ts ++ [t]) loops sh)
  = release (length ts) p (mkScheduler jobs w' (ts ++ [put_phase p t]) loops sh).
Proof.
  intros H. unfold advance. cbn [sc_tasks]. rewrite list_lookup_middle by done.
  unfold is_cancelled. cbn [sc_jobs sc_world]. rewrite H. unfold put_tasks, put_world. cbn.
  do 2 f_equal. rewrite <- (Nat.add_0_r (length ts)), insert_app_r. done.
Qed.

Section Run.
Context (s : Scheduler (V := Metadata) (W := CronWorld)) (tb : JobTables) (cron cron' : CronWorld).
Context (run : Uuid) (e0 e1 e2 : Env) (out : JobOutput Metadata).
Context (Hs : awaits s tb cron) (Hfresh : select_one (is_run (uuid_text run)) (jt_runs tb) = None).
Context (Hrun : cron_missed_run e1 (fun _ => false) cron = (Ok out, cron')).

#[local] Notation task p := (mkTask (V := Metadata) CronMissedRunDetectorJob run TS_Schedule p).
#[local] Notation i := (length (sc_tasks s)).

Lemma fresh_other r : select_one (is_run (uuid_text run)) (jt_runs tb) = None -> r ∈ jt_runs tb ->
  is_run (uuid_text run) r = false.
Proof. intros H Hr. apply select_one_None in H. exact (proj1 (Forall_forall _ _) H r Hr). Qed.

(** The four steps: the timer, the start of the record, the job, the end of the record. *)
Lemma run_awaits metadata : jo_metadata out = Some metadata ->
  job_steps [Tick detector run; Advance i e0; Advance i e1; Advance i e2] s
  = mkScheduler (sc_jobs s)
      (mkJobWorld (mkConn (put_runs (jt_runs tb ++ [success_row run (env_now e0 0) (env_now e2 0) metadata]) tb) []) cron')
      (sc_tasks s ++ [task (P_Ended (Recorded JS_Succeeded None (Some metadata) (Ok (uuid_text run))))])
      (after_run false false i <$> <[detector := L_Busy i]> (sc_loops s)) false.
Proof.
  intros Hm. destruct (aw_job _ _ _ Hs) as [ty Hj]. destruct (aw_defined _ _ _ Hs) as [d Hd].
  unfold job_steps. cbn [fold_left job_step]. rewrite (tick_awaits _ _ _ _ Hs).
  set (r := started_run (V := Metadata) CronMissedRunDetectorJob (run_context (uuid_text run) TS_Schedule false 0) (env_now e0 0) 0).
  set (tb1 := put_runs (jt_runs tb ++ [run_row r]) tb).
  rewrite (advance_last _ _ _ _ _ _ e0 (P_Attempt 0) (mkJobWorld (mkConn tb1 []) cron)).
  2: { cbn [run_step tk_phase tk_job job_id CronMissedRunDetectorJob]. fold detector. rewrite Hj. cbn [rj_cancelled].
       unfold run_step. cbn [tk_phase tk_job tk_triggered_by]. unfold task_repo, on_part, record_run_start, sql.
       cbn [jw_conn cn_faults cn_tables started_run jr_id jr_job_id run_context jc_run_id job_id].
       change (tk_run_id (task P_Start)) with (uuid_text run). rewrite Hfresh.
       change (job_id CronMissedRunDetectorJob) with detector. rewrite Hd. done. }
  cbn [release].
  rewrite (advance_last _ _ _ _ _ _ e1 (P_Record 0 JS_Succeeded None (Some metadata) (Ok (uuid_text run)))
             (mkJobWorld (mkConn tb1 []) cron')).
  2: { cbn [put_phase tk_job job_id CronMissedRunDetectorJob tk_run tk_triggered_by]. fold detector. rewrite Hj.
       unfold run_step. cbn [put_phase tk_phase tk_job tk_run tk_triggered_by job_run CronMissedRunDetectorJob rj_cancelled].
       unfold on_part. cbn [jw_rest run_context jc_cancelled]. rewrite Hrun. cbn. by rewrite Hm. }
  cbn [release].
  rewrite (advance_last _ _ _ _ _ _ e2 (P_Ended (Recorded JS_Succeeded None (Some metadata) (Ok (uuid_text run))))
             (mkJobWorld (mkConn (put_runs (jt_runs tb ++ [success_row run (env_now e0 0) (env_now e2 0) metadata]) tb) []) cron')).
  2: { unfold run_step. cbn [put_phase tk_phase tk_job tk_run tk_triggered_by]. unfold task_repo, on_part, record_run_complete, sql_write, sql.
       cbn [jw_conn cn_faults cn_tables drop]. unfold put_job_conn, tb1, put_runs. cbn [jw_rest jt_runs jt_definitions].
       do 4 f_equal. unfold update_where. rewrite map_app. f_equal.
       - apply update_where_id. intros x Hx Hi. assert (E := fresh_other x Hfresh Hx).
         change (tk_run_id _) with (uuid_text run) in Hi. congruence.
       - cbn. unfold is_run. cbn. change (tk_run_id _) with (uuid_text run). by rewrite String.eqb_refl. }
  done.
Qed.
End Run.

(** C35. When the timer of the missed-run detector fires on a scheduler that waits for it, and no
    statement fails, the run reports every late monitor and no punctual one: a late monitor
    gets one system-generated missed check-in, its health becomes missed, its failure is
    counted and the next run is expected from now; a monitor that is paused, reported
    already, checked in since or still within its margin is left as it was.  The history
    gets one row, of a run that succeeded, with the number of missed runs, and the loop
    waits again. *)
Theorem missed_runs_detected s tb orgs mems ms ks b au run e0 e1 e2 :
  awaits s tb (calm (tables_of orgs mems ms ks) b au) ->
  select_one (is_run (uuid_text run)) (jt_runs tb) = None ->
  NoDup (mo_id <$> ms) -> Forall monitor_ok ms -> calendar (env_now e1 0) ->
  distinct_ids e1 -> fresh_ids e1 0 ks ->
  let i := length (sc_tasks s) in
  let s' := job_steps [Tick detector run; Advance i e0; Advance i e1; Advance i e2] s in
  exists ms' new,
    missed_effect e1 ms ms' new
    /\ jw_rest (sc_world s') = calm (tables_of orgs mems ms' (ks ++ (checkin_row <$> new))) b au
    /\ jt_runs (sched_tables s')
       = jt_runs tb ++ [success_row run (env_now e0 0) (env_now e2 0)
                          [("missed_count", D_Number (Z.of_nat (length new)));
                           ("checked_at", D_Text (to_rfc3339 (env_now e1 0)))]]
    /\ sc_loops s' !! detector = Some L_Idle.
Proof.
  intros Hs Hfresh Hnd Hok Hcal Hdist Hids i s'.
  destruct (calm_missed_effect orgs mems ms ks b au e1 Hnd Hok Hcal Hdist Hids) as (ms' & new & Hrun & Heff).
  exists ms', new. unfold s', i. erewrite run_awaits; [|done|done|done|done].
  split_and!; [done|done|done|]. cbn. rewrite lookup_fmap, lookup_insert_eq. cbn. by rewrite Nat.eqb_refl.
Qed.
End Detection.
