(* ===== verification/JobCases.v ===== *)
(** Background jobs on concrete schedules. *)
From stdpp Require Import base gmap list strings countable pretty.
From Stdlib Require Import ZArith Lia.
From S2P Require Import Prelude Text CoreTypes Effects Sql Columns Samples JobModel JobStore.
From S2P Require Import JobScheduler JobRuns JobHistory JobHealth JobServer CronModel CronRepo CronRoutes.
From S2P Require Import CronInvariant CronServer CronDetection CronCases JobDetection.
Local Open Scope Z_scope.

(** * A backend *)

Definition detail_code (d : Detail) : string + Z + unit :=
  match d with D_Text s => inl (inl s) | D_Number n => inl (inr n) | D_Null => inr tt end.
Definition code_detail (c : string + Z + unit) : Detail :=
  match c with inl (inl s) => D_Text s | inl (inr n) => D_Number n | inr _ => D_Null end.

Lemma metadata_code (l : Metadata) : map (fun p => (p.1, code_detail p.2)) (map (fun p => (p.1, detail_code p.2)) l) = l.
Proof. induction l as [|[k d] l IH]; cbn; [done|]. rewrite IH. by destruct d. Qed.

Definition sample_metadata : JsonColumn Metadata :=
  column_of (map (fun p => (p.1, detail_code p.2))) (map (fun p => (p.1, code_detail p.2))) metadata_code.

Section Cases.
#[local] Existing Instance sample_crons.
#[local] Existing Instance sample_metadata.

Definition sample_jobs : JobBackend := {|
  rfc3339_nanos := to_rfc3339;
  julian_ms a b := t ← parse_from_rfc3339 a; u ← parse_from_rfc3339 b; Some ((t - u) / 10 ^ 6);
  job_translate _ k := k;
|}.
#[local] Existing Instance sample_jobs.

(** * Jobs that succeed, fail and panic *)

Definition always (id : string) (r : result (Failure JobError) (JobOutput Metadata)) : Job unit Metadata :=
  mkJob id id "" (fun _ _ => of_result r).

Definition good : Job unit Metadata := always "good" (Ok (mkJobOutput "done" None)).
Definition flaky : Job unit Metadata := always "flaky" (Err (Failed (JE_Failed "busy" true))).
Definition lost : Job unit Metadata := always "lost" (Err (Failed (JE_Failed "user not found" false))).
Definition broken : Job unit Metadata := always "broken" (Err Panicked).

Definition at_ (t : Z) : Env := env_at (t * minute) 0%N.

(** The four jobs, every minute, after the start. *)
Definition sample_scheduler : Scheduler :=
  (start (at_ 0) (foldr (fun j => register_periodic j 60)
     (JobScheduler_new (mkJobWorld (mkConn (mkJobTables [] []) []) tt)) [good; flaky; lost; broken])).2.

(** [n] steps of task [i], a minute apart. *)
Definition turns (i n : nat) (t : Z) : list JobStep :=
  map (fun k => Advance i (at_ (t + Z.of_nat k))) (seq 0 n).

Definition statuses (s : Scheduler (V := Metadata) (W := unit)) : list (string * string) :=
  (fun r => (rw_job_id r, rw_status r)) <$> jt_runs (sched_tables s).

Lemma always_tidy id r : tidy (always id r).
Proof. intros env ctx w. split; [done|apply drops_none]. Qed.

Lemma sample_tidy : map_Forall (fun _ r => tidy (rj_job r)) (sc_jobs sample_scheduler).
Proof.
  assert (E : sc_jobs sample_scheduler = sc_jobs (foldr (fun j => register_periodic j 60)
    (JobScheduler_new (mkJobWorld (mkConn (mkJobTables [] []) []) tt)) [good; flaky; lost; broken])) by done.
  rewrite E. cbn. repeat (apply map_Forall_insert_2; [apply always_tidy|]). apply map_Forall_empty.
Qed.

(** A good run, a run with three retries, and a manual run of a job that panics. *)
Definition day : list JobStep :=
  [Tick "good" 1%N; Tick "flaky" 2%N; Trigger "broken" 3%N] ++ turns 0 3 1 ++ turns 1 9 2 ++ turns 2 3 3.

Lemma day_statuses : statuses (job_steps day sample_scheduler)
  = [("good", "succeeded"); ("flaky", "failed"); ("broken", "running")]%string.
Proof. vm_compute. reflexivity. Qed.

Lemma history_truthful_witness :
  Forall (fun t => recorded t (rows_with (tk_run_id t) (sched_tables (job_steps day sample_scheduler))))
    (sc_tasks (job_steps day sample_scheduler)).
Proof.
  apply (history_truthful day sample_scheduler).
  - reflexivity.
  - exact sample_tidy.
  - refine (bool_decide_unpack (NoDup _) _). vm_compute. exact I.
  - vm_compute. repeat constructor.
Defined.

Lemma runs_end_witness :
  exists t', sc_tasks (job_steps ([Tick "flaky" 2%N] ++ turns 0 9 1) sample_scheduler) !! 0%nat = Some t'
    /\ ended t' = true.
Proof.
  eapply (runs_end [Tick "flaky" 2%N] (turns 0 9 1) sample_scheduler 0 (mkTask flaky 2%N TS_Schedule P_Start)).
  - reflexivity.
  - vm_compute. reflexivity.
  - vm_compute. lia.
Defined.

(** A retryable failure on every attempt: four of them, with pauses of one, two and four
    seconds, and the run is stored as failed. *)
Definition flaky_env : RunEnv := mkRunEnv minute (fun _ => at_ 1) (fun k => (2 + k) * minute).

Lemma run_follows_policy_witness :
  exists e w', run_policy flaky_env (fun _ => false) flaky (uuid_text 7%N) TS_Manual
      (sc_world sample_scheduler) [1; 2; 4] e w'
    /\ (rw_status <$> jt_runs (cn_tables (jw_conn w'))) = ["failed"%string].
Proof.
  destruct (run_follows_policy flaky_env (fun _ => false) flaky 7%N TS_Manual
    (sc_world sample_scheduler)) as (ps & e & w' & Hp & _ & Ha).
  pose (r := alone 9 flaky_env (fun _ => false) (mkTask flaky 7%N TS_Manual P_Start)
    (sc_world sample_scheduler)).
  assert (Hps : r.1 = [1; 2; 4]) by (vm_compute; reflexivity).
  assert (Hst : (rw_status <$> jt_runs (cn_tables (jw_conn r.2.2))) = ["failed"%string])
    by (vm_compute; reflexivity).
  unfold r in Hps, Hst. rewrite Ha in Hps, Hst. cbn [fst snd] in Hps, Hst. subst ps.
  exists e, w'. split; [exact Hp|exact Hst].
Defined.

(** Three failures in a row are unhealthy. *)
Definition failing : Scheduler :=
  job_steps ([Tick "flaky" 1%N] ++ turns 0 9 1 ++ [Tick "flaky" 2%N] ++ turns 1 9 11 ++ [Tick "flaky" 3%N]
             ++ turns 2 9 21 ++ [Tick "good" 4%N] ++ turns 3 9 31) sample_scheduler.

Lemma health_reported_witness :
  exists jobs, health_status failing = (Ok (mkJobsHealthStatus HS_Unhealthy jobs), failing)
    /\ Forall2 (reports_health failing) (job_ids failing) jobs.
Proof.
  destruct (health_reported failing) as (jobs & H & Hall).
  - reflexivity.
  - apply readable_all. vm_compute. reflexivity.
  - vm_compute. reflexivity.
  - exists jobs. split; [|exact Hall].
    assert (Hw : match (health_status failing).1 with Ok h => js_status h | Err _ => HS_Healthy end = HS_Unhealthy)
      by (vm_compute; reflexivity).
    rewrite H in Hw. cbn [fst js_status] in Hw. rewrite H, Hw. reflexivity.
Defined.
(** * The detector of missed cron runs *)

(** A server with the two jobs of cron monitoring and the clean-up, and the three monitors. *)
Definition cron_scheduler : Scheduler :=
  (start (at_ 0)
     (register_periodic CronMissedRunDetectorJob 60 (register_periodic CronTimeoutDetectorJob 60
        (register_periodic (JobHistoryCleanupJob 90) 86400
           (JobScheduler_new (mkJobWorld (mkConn (mkJobTables [] []) [])
              (calm (tables_of sample_orgs sample_members three []) CronsBroadcaster_new []))))))).2.

Lemma cron_scheduler_awaits : awaits cron_scheduler (sched_tables cron_scheduler)
  (calm (tables_of sample_orgs sample_members three []) CronsBroadcaster_new []).
Proof.
  split; [eexists; reflexivity|reflexivity|reflexivity|vm_compute; by eexists|reflexivity].
Qed.

Lemma missed_runs_detected_witness :
  let s' := job_steps [Tick detector 7%N; Advance 0 (at_ 119); Advance 0 (env_at (120 * minute) 50%N);
                       Advance 0 (at_ 121)] cron_scheduler in
  exists ms' new,
    (1%N : Uuid) ∈ ci_monitor_id <$> new /\ (2%N : Uuid) ∉ ci_monitor_id <$> new
    /\ (3%N : Uuid) ∉ ci_monitor_id <$> new
    /\ jw_rest (sc_world s') = calm (tables_of sample_orgs sample_members ms' ([] ++ (checkin_row <$> new)))
                                CronsBroadcaster_new []
    /\ rw_status <$> jt_runs (sched_tables s') = ["succeeded"%string]
    /\ sc_loops s' !! detector = Some L_Idle.
Proof.
  destruct (missed_runs_detected cron_scheduler (sched_tables cron_scheduler) sample_orgs sample_members three []
    CronsBroadcaster_new [] 7%N (at_ 119) (env_at (120 * minute) 50%N) (at_ 121))
    as (ms' & new & Heff & Hw & Hr & Hl).
  - exact cron_scheduler_awaits.
  - reflexivity.
  - vm_compute. repeat constructor; set_solver.
  - exact three_ok.
  - unfold calendar, minute. cbn. lia.
  - apply env_distinct.
  - intros j c _ Hc. by apply not_elem_of_nil in Hc.
  - exists ms', new. destruct (three_missed ms' new Heff) as (H1 & H2 & H3).
    split_and!; [done|done|done|exact Hw| |exact Hl]. etransitivity; [exact (f_equal (fmap rw_status) Hr)|]. reflexivity.
Defined.

(** * What the code does otherwise than it says *)

(** A retried run is stored with no retries and its first trigger. *)
Lemma retries_not_recorded :
  (fun r => (rw_retry_count r, rw_triggered_by r)) <$>
    jt_runs (sched_tables (job_steps ([Tick "flaky" 1%N] ++ turns 0 9 1) sample_scheduler))
  = [(0, "schedule"%string)].
Proof. vm_compute. reflexivity. Qed.

(** A disabled job runs all the same, and a restart enables it. *)
Lemma disabled_job_runs :
  let s := job_steps ([SetEnabled "good" false; Tick "good" 1%N] ++ turns 0 3 1) sample_scheduler in
  let enabled s := dw_enabled <$> select_one (is_definition "good") (jt_definitions (sched_tables s)) in
  enabled s = Some false /\ statuses s = [("good", "succeeded")]%string
  /\ enabled (start (at_ 5) s).2 = Some true.
Proof. vm_compute. split_and!; reflexivity. Qed.

(** A disabled job whose last run succeeded is healthy, and so is the server. *)
Lemma disabled_job_healthy :
  let s := job_steps ([Tick "good" 1%N] ++ turns 0 3 1 ++ [SetEnabled "good" false]) sample_scheduler in
  match (health_status s).1 with
  | Ok h => (js_status h, (fun x => jh_status x) <$> List.find (fun x => String.eqb (jh_job_id x) "good") (js_jobs h))
  | Err _ => (HS_Unhealthy, None)
  end = (HS_Healthy, Some HS_Healthy).
Proof. vm_compute. reflexivity. Qed.

(** Disabling a job that does not exist answers 500 where the route documents 404. *)
Lemma unknown_job_is_internal :
  (set_job_enabled true true "en" "nothing" false sample_scheduler).1
  = Err (jobs_internal "en").
Proof. vm_compute. reflexivity. Qed.

(** A job that exists and fails because something was not found answers 404. *)
Lemma failed_job_is_not_found :
  trigger_answer "en" "lost" <$>
    (sc_tasks (job_steps ([Trigger "lost" 1%N] ++ turns 0 3 1) sample_scheduler) !! 0%nat)
  = Some (Some (Err (http 404 "not_found" "Job 'lost' not found"))).
Proof. vm_compute. reflexivity. Qed.

(** The total of a page of the history is the length of the page. *)
Lemma history_total_is_page :
  match (job_history true true "en" "flaky" 1 0 failing).1 with
  | Ok h => hr_total h = 1 /\ count_where (of_job "flaky") (jt_runs (sched_tables failing)) = 3%nat
  | Err _ => False
  end.
Proof. vm_compute. split; reflexivity. Qed.

(** A run whose client disconnects stays at running. *)
Lemma dropped_run_stays_running :
  statuses (job_steps ([Trigger "good" 1%N] ++ turns 0 2 1 ++ [Disconnect 0] ++ turns 0 9 3) sample_scheduler)
  = [("good", "running")]%string.
Proof. vm_compute. reflexivity. Qed.

(** A panic ends the loop of its job: no run follows. *)
Lemma panic_ends_loop :
  let s := job_steps ([Tick "broken" 1%N] ++ turns 0 3 1 ++ [Tick "broken" 2%N; Tick "broken" 3%N]) sample_scheduler in
  sc_loops s !! "broken"%string = Some L_Stopped /\ statuses s = [("broken", "running")]%string
  /\ length (sc_tasks s) = 1%nat.
Proof. vm_compute. split_and!; reflexivity. Qed.
End Cases.
