(* ===== verification/SessModel.v ===== *)
(** App sessions, the data of [crates/loom-sessions-core]: sessions, hourly aggregates,
    the health of a release, and sampling.

    An identifier is its UUID; a time is a number of nanoseconds. *)
From stdpp Require Import base list strings.
From Stdlib Require Import ZArith Lia SpecFloat.
From S2P Require Import Prelude Text FlagCore CoreTypes Sql Columns CrashCapture.
Local Open Scope Z_scope.

(** * Numbers *)

(** [u64 as f64]. *)
Definition f64_of_u64 (n : Z) : f64 := binary_normalize 53 1024 n 0 false.
Definition f64_mul (a b : f64) : f64 := SFmul 53 1024 a b.
Definition f64_div (a b : f64) : f64 := SFdiv 53 1024 a b.
Definition f64_sub (a b : f64) : f64 := SFsub 53 1024 a b.
Definition is_nan (x : f64) : bool := match x with S754_nan => true | _ => false end.

(** [f64 as u64] truncates and saturates; NaN is zero. *)
Definition f64_as_u64 (x : f64) : Z :=
  match x with
  | S754_finite false m e =>
      Z.min (2 ^ 64 - 1) (if 0 <=? e then Z.pos m * 2 ^ e else Z.pos m / 2 ^ (- e))
  | S754_infinity false => 2 ^ 64 - 1
  | _ => 0
  end.

Definition sub_u64 (oc : bool) (a b : Z) : run Z := arith oc wrap_u64 (a - b).

(** [iter.sum::<u64>()]. *)
Fixpoint sum_u64 (oc : bool) (acc : Z) (l : list Z) : run Z :=
  match l with
  | [] => Done acc
  | n :: l => acc ← add_u64 oc acc n; sum_u64 oc acc l
  end.

(** * session.rs *)

Inductive SessionStatus := SS_Active | SS_Exited | SS_Crashed | SS_Abnormal | SS_Errored.
#[export] Instance SessionStatus_eq_dec : EqDecision SessionStatus.
Proof. solve_decision. Defined.

Definition SessionStatus_to_string (s : SessionStatus) : string :=
  match s with
  | SS_Active => "active" | SS_Exited => "exited" | SS_Crashed => "crashed"
  | SS_Abnormal => "abnormal" | SS_Errored => "errored"
  end.

Definition SessionStatus_from_str (s : string) : option SessionStatus :=
  if String.eqb s "active" then Some SS_Active
  else if String.eqb s "exited" then Some SS_Exited
  else if String.eqb s "crashed" then Some SS_Crashed
  else if String.eqb s "abnormal" then Some SS_Abnormal
  else if String.eqb s "errored" then Some SS_Errored
  else None.

Inductive SessionPlatform := Pf_JavaScript | Pf_Node | Pf_Rust | Pf_Python | Pf_Other.
#[export] Instance SessionPlatform_eq_dec : EqDecision SessionPlatform.
Proof. solve_decision. Defined.

Definition SessionPlatform_to_string (p : SessionPlatform) : string :=
  match p with
  | Pf_JavaScript => "javascript" | Pf_Node => "node" | Pf_Rust => "rust"
  | Pf_Python => "python" | Pf_Other => "other"
  end.

Definition SessionPlatform_from_str (s : string) : option SessionPlatform :=
  if String.eqb s "javascript" then Some Pf_JavaScript
  else if String.eqb s "node" then Some Pf_Node
  else if String.eqb s "rust" then Some Pf_Rust
  else if String.eqb s "python" then Some Pf_Python
  else if String.eqb s "other" then Some Pf_Other
  else None.

Record Session := mkSession {
  ss_id : Uuid;
  ss_org_id : string;
  ss_project_id : string;
  ss_person_id : option string;
  ss_distinct_id : string;
  ss_status : SessionStatus;
  ss_release : option string;
  ss_environment : string;
  ss_error_count : Z;
  ss_crash_count : Z;
  ss_crashed : bool;
  ss_started_at : Z;
  ss_ended_at : option Z;
  ss_duration_ms : option Z;
  ss_platform : SessionPlatform;
  ss_user_agent : option string;
  ss_sampled : bool;
  ss_sample_rate : f64;
  ss_created_at : Z;
  ss_updated_at : Z;
}.

Definition determine_status (s : Session) : SessionStatus :=
  if 0 <? ss_crash_count s then SS_Crashed
  else if 0 <? ss_error_count s then SS_Errored
  else match ss_ended_at s with Some _ => SS_Exited | None => SS_Active end.

(** * aggregate.rs *)

Record SessionAggregate := mkSessionAggregate {
  sg_id : Uuid;
  sg_org_id : string;
  sg_project_id : string;
  sg_release : option string;
  sg_environment : string;
  sg_hour : Z;
  sg_total_sessions : Z;
  sg_exited_sessions : Z;
  sg_crashed_sessions : Z;
  sg_abnormal_sessions : Z;
  sg_errored_sessions : Z;
  sg_unique_users : Z;
  sg_crashed_users : Z;
  sg_total_duration_ms : Z;
  sg_min_duration_ms : option Z;
  sg_max_duration_ms : option Z;
  sg_total_errors : Z;
  sg_total_crashes : Z;
  sg_updated_at : Z;
}.

(** [((total - part) as f64 / total as f64) * 100.0], or 100 of nothing. *)
Definition free_rate (oc : bool) (total part : Z) : run f64 :=
  if 0 <? total then
    rest ← sub_u64 oc total part;
    Done (f64_mul (f64_div (f64_of_u64 rest) (f64_of_u64 total)) (f64_of_u64 100))
  else Done (f64_of_u64 100).

Definition crash_free_session_rate (oc : bool) (a : SessionAggregate) : run f64 :=
  free_rate oc (sg_total_sessions a) (sg_crashed_sessions a).

Definition crash_free_user_rate (oc : bool) (a : SessionAggregate) : run f64 :=
  free_rate oc (sg_unique_users a) (sg_crashed_users a).

Definition average_duration_ms (a : SessionAggregate) : option Z :=
  if 0 <? sg_total_sessions a then Some (sg_total_duration_ms a / sg_total_sessions a) else None.

(** * release_health.rs *)

Inductive AdoptionStage := Ad_New | Ad_Growing | Ad_Adopted | Ad_Replaced.
#[export] Instance AdoptionStage_eq_dec : EqDecision AdoptionStage.
Proof. solve_decision. Defined.

Definition AdoptionStage_from_rate (rate : f64) : AdoptionStage :=
  if f64_lt rate (f64_of_u64 5) then Ad_New
  else if f64_lt rate (f64_of_u64 50) then Ad_Growing
  else if f64_lt rate (f64_of_u64 95) then Ad_Adopted
  else Ad_Replaced.

Definition AdoptionStage_to_string (a : AdoptionStage) : string :=
  match a with
  | Ad_New => "new" | Ad_Growing => "growing" | Ad_Adopted => "adopted"
  | Ad_Replaced => "replaced"
  end.

Record ReleaseHealth := mkReleaseHealth {
  rh_project_id : string;
  rh_release : string;
  rh_environment : string;
  rh_total_sessions : Z;
  rh_crashed_sessions : Z;
  rh_errored_sessions : Z;
  rh_total_users : Z;
  rh_crashed_users : Z;
  rh_crash_free_session_rate : f64;
  rh_crash_free_user_rate : f64;
  rh_adoption_rate : f64;
  rh_adoption_stage : AdoptionStage;
  rh_first_seen : Z;
  rh_last_seen : Z;
  rh_crash_free_rate_trend : option f64;
}.

Definition adoption_rate (total_sessions all_sessions : Z) : f64 :=
  if 0 <? all_sessions then
    f64_mul (f64_div (f64_of_u64 total_sessions) (f64_of_u64 all_sessions)) (f64_of_u64 100)
  else f64_of_u64 0.

(** [iter.min()] and [iter.max()]. *)
Definition min_of (l : list Z) : option Z :=
  match l with [] => None | x :: l => Some (foldr Z.min x l) end.
Definition max_of (l : list Z) : option Z :=
  match l with [] => None | x :: l => Some (foldr Z.max x l) end.

(** The two times are those of [Utc::now] when there is no aggregate. *)
Definition ReleaseHealth_calculate (oc : bool) (now now' : Z) (project_id release environment : string)
    (aggregates : list SessionAggregate) (all_sessions : Z) : run ReleaseHealth :=
  total_sessions ← sum_u64 oc 0 (sg_total_sessions <$> aggregates);
  crashed_sessions ← sum_u64 oc 0 (sg_crashed_sessions <$> aggregates);
  errored_sessions ← sum_u64 oc 0 (sg_errored_sessions <$> aggregates);
  total_users ← sum_u64 oc 0 (sg_unique_users <$> aggregates);
  crashed_users ← sum_u64 oc 0 (sg_crashed_users <$> aggregates);
  session_rate ← free_rate oc total_sessions crashed_sessions;
  user_rate ← free_rate oc total_users crashed_users;
  let adoption := adoption_rate total_sessions all_sessions in
  Done (mkReleaseHealth project_id release environment total_sessions crashed_sessions
          errored_sessions total_users crashed_users session_rate user_rate adoption
          (AdoptionStage_from_rate adoption)
          (default now (min_of (sg_hour <$> aggregates)))
          (default now' (max_of (sg_hour <$> aggregates))) None).

Definition with_trend (h : ReleaseHealth) (previous_rate : f64) : ReleaseHealth :=
  mkReleaseHealth (rh_project_id h) (rh_release h) (rh_environment h) (rh_total_sessions h)
    (rh_crashed_sessions h) (rh_errored_sessions h) (rh_total_users h) (rh_crashed_users h)
    (rh_crash_free_session_rate h) (rh_crash_free_user_rate h) (rh_adoption_rate h)
    (rh_adoption_stage h) (rh_first_seen h) (rh_last_seen h)
    (Some (f64_sub (rh_crash_free_session_rate h) previous_rate)).

(** * What the server uses of packages *)

(** [compute_hash] is the 64-bit [DefaultHasher] of the standard library, whose algorithm
    is left open; [chrono_error] is the text of the error on a text that is no time;
    [scan_order] is the order of rows where a query has none, and [hash_order] that of the
    entries of a [HashMap]. *)
Class SessBackend := {
  sn_crash :: CrashBackend;
  compute_hash : string -> Z;
  compute_hash_u64 s : u64_ok (compute_hash s);
  chrono_error : string -> string;
  scan_order : forall {R : Type}, list R -> list R;
  scan_order_perm : forall {R : Type} (l : list R), scan_order l ≡ₚ l;
  hash_order : forall {R : Type}, list R -> list R;
  hash_order_perm : forall {R : Type} (l : list R), hash_order l ≡ₚ l;
}.

(** * sampling.rs *)

Section Sampling.
Context `{SB : SessBackend}.

Definition should_sample (session_id : string) (sample_rate : f64) : bool :=
  if f64_le sample_rate (f64_of_u64 0) then false
  else if f64_le (f64_of_u64 1) sample_rate then true
  else
    let hash := compute_hash session_id in
    let threshold := f64_as_u64 (f64_mul sample_rate (f64_of_u64 10000)) in
    hash mod 10000 <? threshold.
End Sampling.

Definition is_valid_sample_rate (sample_rate : f64) : bool :=
  f64_le (f64_of_u64 0) sample_rate && f64_le sample_rate (f64_of_u64 1) && negb (is_nan sample_rate).

Definition clamp_sample_rate (sample_rate : f64) : f64 :=
  if is_nan sample_rate then f64_of_u64 1
  else if f64_lt sample_rate (f64_of_u64 0) then f64_of_u64 0
  else if f64_lt (f64_of_u64 1) sample_rate then f64_of_u64 1
  else sample_rate.

(** * error.rs of loom-server-sessions *)

Inductive SessionsServerError :=
| SE_Database (e : string)
| SE_SessionNotFound (s : string)
| SE_ProjectNotFound (s : string)
| SE_InvalidData (s : string)
| SE_Json (e : string)
| SE_Core (e : string).

Definition SessionsServerError_to_string (e : SessionsServerError) : string :=
  match e with
  | SE_Database e => "database error: " +:+ e
  | SE_SessionNotFound s => "session not found: " +:+ s
  | SE_ProjectNotFound s => "project not found: " +:+ s
  | SE_InvalidData s => "invalid session data: " +:+ s
  | SE_Json e => "json error: " +:+ e
  | SE_Core e => "sessions core error: " +:+ e
  end.

(** * Round trips and sums *)

Lemma SessionStatus_roundtrip s : SessionStatus_from_str (SessionStatus_to_string s) = Some s.
Proof. by destruct s. Qed.

Lemma SessionPlatform_roundtrip p :
  SessionPlatform_from_str (SessionPlatform_to_string p) = Some p.
Proof. by destruct p. Qed.

(** The exact sum of a list. *)
Definition total (l : list Z) : Z := foldr Z.add 0 l.

Lemma total_perm l k : l ≡ₚ k -> total l = total k.
Proof. unfold total. induction 1; cbn; lia. Qed.

Lemma totals_app l k : total (l ++ k) = total l + total k.
Proof. unfold total. induction l as [|x l IH]; cbn; [done|]. rewrite IH. lia. Qed.

Lemma totals_nonneg l : Forall (fun x => 0 <= x) l -> 0 <= total l.
Proof. unfold total. induction 1; cbn; lia. Qed.

Lemma sum_u64_exact oc l acc : Forall (fun x => 0 <= x) l -> 0 <= acc -> acc + total l < 2 ^ 64 ->
  sum_u64 oc acc l = Done (acc + total l).
Proof.
  intros Hl. revert acc. induction Hl as [|x l Hx Hl IH]; intros acc Ha Hs; cbn [sum_u64 total foldr] in *.
  - f_equal. lia.
  - fold (total l) in *. assert (0 <= total l) by by apply totals_nonneg.
    rewrite add_u64_fits by (unfold u64_ok; lia). cbn. rewrite IH by lia. f_equal. lia.
Qed.

Lemma total_le {A} (f g : A -> Z) l : Forall (fun a => f a <= g a) l ->
  total (f <$> l) <= total (g <$> l).
Proof. unfold total. induction 1; cbn; lia. Qed.
