(* ===== verification/SessRepo.v ===== *)
(** Storage of app sessions: repository.rs of [crates/loom-server-sessions] over the
    tables of [crates/loom-server/migrations/035_sessions.sql], next to those of crash
    reports, whose projects, keys and memberships the handlers read.

    A row holds what the statements bind; [try_from] reads it back. *)
From stdpp Require Import base gmap list strings.
From Stdlib Require Import ZArith Lia.
From S2P Require Import Prelude Text FlagCore CoreTypes Effects Sql Columns CrashModel CrashRepo CrashCapture SessModel.

Record SessionRow := mkSessionRow {
  sr_id : string;
  sr_org_id : string;
  sr_project_id : string;
  sr_person_id : option string;
  sr_distinct_id : string;
  sr_status : string;
  sr_release : option string;
  sr_environment : string;
  sr_error_count : Z;
  sr_crash_count : Z;
  sr_crashed : Z;
  sr_started_at : string;
  sr_ended_at : option string;
  sr_duration_ms : option Z;
  sr_platform : string;
  sr_user_agent : option string;
  sr_sampled : Z;
  sr_sample_rate : f64;
  sr_created_at : string;
  sr_updated_at : string;
}.

Record AggregateRow := mkAggregateRow {
  gr_id : string;
  gr_org_id : string;
  gr_project_id : string;
  gr_release : option string;
  gr_environment : string;
  gr_hour : string;
  gr_total_sessions : Z;
  gr_exited_sessions : Z;
  gr_crashed_sessions : Z;
  gr_abnormal_sessions : Z;
  gr_errored_sessions : Z;
  gr_unique_users : Z;
  gr_crashed_users : Z;
  gr_total_duration_ms : Z;
  gr_min_duration_ms : option Z;
  gr_max_duration_ms : option Z;
  gr_total_errors : Z;
  gr_total_crashes : Z;
  gr_updated_at : string;
}.

Record SessTables := mkSessTables {
  st_crash : CrashTables;
  st_sessions : list SessionRow;
  st_aggregates : list AggregateRow;
}.

Definition put_crash (v : CrashTables) (t : SessTables) : SessTables :=
  mkSessTables v (st_sessions t) (st_aggregates t).
Definition put_sessions (v : list SessionRow) (t : SessTables) : SessTables :=
  mkSessTables (st_crash t) v (st_aggregates t).
Definition put_aggregates (v : list AggregateRow) (t : SessTables) : SessTables :=
  mkSessTables (st_crash t) (st_sessions t) v.

Definition SessOp (A : Type) : Type := SqlM SessTables SessionsServerError A.

(** The same connection, of which a repository uses some tables. *)
Definition crash_conn (c : Conn SessTables) : Conn CrashTables :=
  mkConn (st_crash (cn_tables c)) (cn_faults c).
Definition put_crash_conn (c' : Conn CrashTables) (c : Conn SessTables) : Conn SessTables :=
  mkConn (put_crash (cn_tables c') (cn_tables c)) (cn_faults c').

Section SessRepo.
Context `{SB : SessBackend}.

(** * Rows *)

Definition sql_bool (b : bool) : Z := if b then 1%Z else 0%Z.

Definition session_row (s : Session) : SessionRow :=
  mkSessionRow (uuid_text (ss_id s)) (ss_org_id s) (ss_project_id s) (ss_person_id s)
    (ss_distinct_id s) (SessionStatus_to_string (ss_status s)) (ss_release s) (ss_environment s)
    (wrap_i32 (ss_error_count s)) (wrap_i32 (ss_crash_count s)) (sql_bool (ss_crashed s))
    (to_rfc3339 (ss_started_at s)) (to_rfc3339 <$> ss_ended_at s) (wrap_i64 <$> ss_duration_ms s)
    (SessionPlatform_to_string (ss_platform s)) (ss_user_agent s) (sql_bool (ss_sampled s))
    (ss_sample_rate s) (to_rfc3339 (ss_created_at s)) (to_rfc3339 (ss_updated_at s)).

Definition aggregate_row (a : SessionAggregate) : AggregateRow :=
  mkAggregateRow (uuid_text (sg_id a)) (sg_org_id a) (sg_project_id a) (sg_release a)
    (sg_environment a) (to_rfc3339 (sg_hour a)) (wrap_i64 (sg_total_sessions a))
    (wrap_i64 (sg_exited_sessions a)) (wrap_i64 (sg_crashed_sessions a))
    (wrap_i64 (sg_abnormal_sessions a)) (wrap_i64 (sg_errored_sessions a))
    (wrap_i64 (sg_unique_users a)) (wrap_i64 (sg_crashed_users a))
    (wrap_i64 (sg_total_duration_ms a)) (wrap_i64 <$> sg_min_duration_ms a)
    (wrap_i64 <$> sg_max_duration_ms a) (wrap_i64 (sg_total_errors a))
    (wrap_i64 (sg_total_crashes a)) (to_rfc3339 (sg_updated_at a)).

Definition sess_id (what s : string) : result SessionsServerError Uuid :=
  match uuid_parse s with Ok u => Ok u | Err _ => Err (SE_InvalidData ("invalid " +:+ what)) end.
Definition sess_time (what s : string) : result SessionsServerError Z :=
  ok_or (SE_InvalidData ("invalid " +:+ what +:+ ": " +:+ chrono_error s)) (parse_from_rfc3339 s).
Definition sess_enum {A} (from_str : string -> option A) (what error s : string)
    : result SessionsServerError A :=
  ok_or (SE_InvalidData ("invalid " +:+ what +:+ ": invalid " +:+ error +:+ ": " +:+ s)) (from_str s).

Definition Session_try_from (r : SessionRow) : result SessionsServerError Session :=
  id ← sess_id "session ID" (sr_id r);
  status ← sess_enum SessionStatus_from_str "status" "session status" (sr_status r);
  started_at ← sess_time "started_at" (sr_started_at r);
  ended_at ← transpose (sess_time "ended_at") (sr_ended_at r);
  platform ← sess_enum SessionPlatform_from_str "platform" "platform" (sr_platform r);
  created_at ← sess_time "created_at" (sr_created_at r);
  updated_at ← sess_time "updated_at" (sr_updated_at r);
  Ok (mkSession id (sr_org_id r) (sr_project_id r) (sr_person_id r) (sr_distinct_id r) status
        (sr_release r) (sr_environment r) (wrap_u32 (sr_error_count r))
        (wrap_u32 (sr_crash_count r)) (negb (sr_crashed r =? 0)%Z) started_at ended_at
        (wrap_u64 <$> sr_duration_ms r) platform (sr_user_agent r)
        (negb (sr_sampled r =? 0)%Z) (sr_sample_rate r) created_at updated_at).

Definition SessionAggregate_try_from (r : AggregateRow)
    : result SessionsServerError SessionAggregate :=
  id ← sess_id "aggregate ID" (gr_id r);
  hour ← sess_time "hour" (gr_hour r);
  updated_at ← sess_time "updated_at" (gr_updated_at r);
  Ok (mkSessionAggregate id (gr_org_id r) (gr_project_id r) (gr_release r) (gr_environment r) hour
        (wrap_u64 (gr_total_sessions r)) (wrap_u64 (gr_exited_sessions r))
        (wrap_u64 (gr_crashed_sessions r)) (wrap_u64 (gr_abnormal_sessions r))
        (wrap_u64 (gr_errored_sessions r)) (wrap_u64 (gr_unique_users r))
        (wrap_u64 (gr_crashed_users r)) (wrap_u64 (gr_total_duration_ms r))
        (wrap_u64 <$> gr_min_duration_ms r) (wrap_u64 <$> gr_max_duration_ms r)
        (wrap_u64 (gr_total_errors r)) (wrap_u64 (gr_total_crashes r)) updated_at).

(** * Statements *)

Definition sess_query {A} (f : SessTables -> A) : SessOp A := sql_read SE_Database f.
Definition sess_fetch_all {R A} (try_from : R -> result SessionsServerError A)
    (f : SessTables -> list R) : SessOp (list A) :=
  let* rows := sess_query f in of_result (collect try_from rows).

Definition session_is (id : string) (r : SessionRow) : bool := String.eqb (sr_id r) id.

(** ** Sessions *)

Definition insert_session (r : SessionRow) (t : SessTables) : option (unit * SessTables) :=
  if mem (sr_org_id r) (t_organizations (st_crash t)) && has_project (st_crash t) (sr_project_id r)
     && negb (existsb (session_is (sr_id r)) (st_sessions t))
  then Some (tt, put_sessions (st_sessions t ++ [r]) t) else None.

Definition sess_create_session (s : Session) : SessOp unit :=
  sql SE_Database (insert_session (session_row s)).

Definition sess_get_session_by_id (id : Uuid) : SessOp (option Session) :=
  let* row := sess_query (fun t => select_one (session_is (uuid_text id)) (st_sessions t)) in
  of_result (transpose Session_try_from row).

(** What the two updates write; [person_id] is the new one. *)
Definition progress_columns (person_id : option string) (status : SessionStatus)
    (error_count crash_count : Z) (crashed : bool) (ended_at duration_ms : option Z)
    (updated_at : Z) (r : SessionRow) : SessionRow :=
  mkSessionRow (sr_id r) (sr_org_id r) (sr_project_id r) person_id (sr_distinct_id r)
    (SessionStatus_to_string status) (sr_release r) (sr_environment r) (wrap_i32 error_count)
    (wrap_i32 crash_count) (sql_bool crashed) (sr_started_at r) (to_rfc3339 <$> ended_at)
    (wrap_i64 <$> duration_ms) (sr_platform r) (sr_user_agent r) (sr_sampled r) (sr_sample_rate r)
    (sr_created_at r) (to_rfc3339 updated_at).

Definition update_sessions (id : Uuid) (f : SessionRow -> SessionRow) : SessOp unit :=
  sql_write SE_Database (fun t =>
    (tt, put_sessions (update_where (session_is (uuid_text id)) f (st_sessions t)) t)).

Definition sess_update_session (s : Session) : SessOp unit :=
  update_sessions (ss_id s)
    (progress_columns (ss_person_id s) (ss_status s) (ss_error_count s) (ss_crash_count s)
       (ss_crashed s) (ss_ended_at s) (ss_duration_ms s) (ss_updated_at s)).

(** [limit as i32] and [offset as i32]. *)
Definition sess_list_sessions (project_id : string) (limit offset : Z) : SessOp (list Session) :=
  sess_fetch_all Session_try_from
    (fun t => sql_limit (wrap_i32 limit) (sql_offset (wrap_i32 offset)
                (order_by true sr_started_at
                   (select_where (fun r => String.eqb (sr_project_id r) project_id)
                      (st_sessions t))))).

Definition sess_list_sessions_by_release (project_id release : string) (limit : Z)
    : SessOp (list Session) :=
  sess_fetch_all Session_try_from
    (fun t => sql_limit (wrap_i32 limit)
                (order_by true sr_started_at
                   (select_where (fun r => String.eqb (sr_project_id r) project_id
                                           && opt_is (sr_release r) release)
                      (st_sessions t)))).

Definition started_before (cutoff : string) (r : SessionRow) : bool :=
  String.ltb (sr_started_at r) cutoff.

Definition sess_delete_old_sessions (cutoff : Z) : SessOp Z :=
  let old := started_before (to_rfc3339 cutoff) in
  sql_write SE_Database (fun t =>
    (Z.of_nat (count_where old (st_sessions t)),
     put_sessions (delete_where old (st_sessions t)) t)).

(** [now] is the time of the statement. *)
Definition sess_end_session (now : Z) (id : Uuid) (status : SessionStatus)
    (error_count crash_count ended_at duration_ms : Z) : SessOp unit :=
  let crashed := (0 <? crash_count)%Z in
  update_sessions id (fun r =>
    progress_columns (sr_person_id r) status error_count crash_count crashed (Some ended_at)
      (Some duration_ms) now r).

(** ** Aggregates *)

(** The unique key of the aggregates; a [NULL] is equal to nothing. *)
Definition same_bucket (r q : AggregateRow) : bool :=
  String.eqb (gr_project_id q) (gr_project_id r)
  && match gr_release r with Some rel => opt_is (gr_release q) rel | None => false end
  && String.eqb (gr_environment q) (gr_environment r) && String.eqb (gr_hour q) (gr_hour r).

(** The columns of [DO UPDATE SET]. *)
Definition aggregate_columns (r q : AggregateRow) : AggregateRow :=
  mkAggregateRow (gr_id q) (gr_org_id q) (gr_project_id q) (gr_release q) (gr_environment q)
    (gr_hour q) (gr_total_sessions r) (gr_exited_sessions r) (gr_crashed_sessions r)
    (gr_abnormal_sessions r) (gr_errored_sessions r) (gr_unique_users r) (gr_crashed_users r)
    (gr_total_duration_ms r) (gr_min_duration_ms r) (gr_max_duration_ms r) (gr_total_errors r)
    (gr_total_crashes r) (gr_updated_at r).

Definition upsert_row (r : AggregateRow) (t : SessTables) : option (unit * SessTables) :=
  if existsb (same_bucket r) (st_aggregates t) then
    Some (tt, put_aggregates (update_where (same_bucket r) (aggregate_columns r)
                                (st_aggregates t)) t)
  else if mem (gr_org_id r) (t_organizations (st_crash t))
          && has_project (st_crash t) (gr_project_id r)
          && negb (existsb (fun q => String.eqb (gr_id q) (gr_id r)) (st_aggregates t))
  then Some (tt, put_aggregates (st_aggregates t ++ [r]) t)
  else None.

Definition sess_upsert_aggregate (a : SessionAggregate) : SessOp unit :=
  sql SE_Database (upsert_row (aggregate_row a)).

(** Of the project and environment, from [start] and before [stop]. *)
Definition in_window (project_id environment : string) (start stop : Z) (r : AggregateRow) : bool :=
  String.eqb (gr_project_id r) project_id && String.eqb (gr_environment r) environment
  && negb (String.ltb (gr_hour r) (to_rfc3339 start)) && String.ltb (gr_hour r) (to_rfc3339 stop).

Definition sess_get_aggregates (project_id : string) (release : option string)
    (environment : string) (start stop : Z) : SessOp (list SessionAggregate) :=
  sess_fetch_all SessionAggregate_try_from
    (fun t => order_by false gr_hour
                (select_where (fun r => in_window project_id environment start stop r
                                        && match release with
                                           | Some rel => opt_is (gr_release r) rel
                                           | None => true
                                           end) (st_aggregates t))).

(** [SUM] of integers: an overflow on the way is an error. *)
Fixpoint sql_sum (acc : Z) (l : list Z) : option Z :=
  match l with
  | [] => Some acc
  | n :: l => if (wrap_i64 (acc + n) =? acc + n)%Z then sql_sum (acc + n) l else None
  end.

Definition sess_get_total_sessions_in_range (project_id environment : string) (start stop : Z)
    : SessOp Z :=
  let* n := sql SE_Database (fun t =>
    n ← sql_sum 0 (gr_total_sessions <$>
          scan_order (select_where (in_window project_id environment start stop)
                        (st_aggregates t)));
    Some (n, t)) in
  ret (wrap_u64 n).

Definition sess_get_releases (project_id environment : string) : SessOp (list string) :=
  sess_query (fun t =>
    order_by true (fun s => s)
      (remove_dups (omap gr_release
         (select_where (fun r => String.eqb (gr_project_id r) project_id
                                 && String.eqb (gr_environment r) environment)
            (st_aggregates t))))).

Definition started_in (start stop : Z) (r : SessionRow) : bool :=
  negb (String.ltb (sr_started_at r) (to_rfc3339 start))
  && String.ltb (sr_started_at r) (to_rfc3339 stop).

Definition sess_get_sessions_for_aggregation (hour_start hour_end : Z) : SessOp (list Session) :=
  sess_fetch_all Session_try_from
    (fun t => scan_order (select_where (started_in hour_start hour_end) (st_sessions t))).
End SessRepo.
