(* ===== verification/SessRoutes.v ===== *)
(** Requests and background jobs of app sessions: app_sessions.rs of
    [crates/loom-server/src/routes], and session_aggregation.rs and
    app_session_cleanup.rs of [crates/loom-server/src/jobs].

    A handler runs on the database and the tasks it has spawned; it answers, fails with a
    status or panics.  The caller of an authenticated route is its user. *)
From stdpp Require Import base gmap list strings pretty.
From Stdlib Require Import ZArith Lia.
From S2P Require Import Prelude Text FlagCore CoreTypes Effects Sql Columns CrashModel CrashRepo CrashCapture.
From S2P Require Import JobModel JobStore JobScheduler SessModel SessRepo.

(** * The state of the handlers *)

Record SessWorld := mkSessWorld {
  sx_conn : Conn SessTables;
  sx_tasks : list CrashTask;
}.

Definition put_sess_conn (c : Conn SessTables) (w : SessWorld) : SessWorld :=
  mkSessWorld c (sx_tasks w).

Definition SessM (E A : Type) : Type := StM SessWorld (Failure E) A.

(** A call of the repository of sessions, and of the one of crash reports, whose error
    [f] turns into the handler's. *)
Definition srepo {E A} (f : SessionsServerError -> E) (m : SessOp A) : SessM E A :=
  map_err (fun e => Failed (f e)) (on_part sx_conn put_sess_conn m).
Definition prepo {E A} (f : CrashServerError -> E) (m : RepoOp A) : SessM E A :=
  map_err (fun e => Failed (f e))
    (on_part sx_conn put_sess_conn (on_part crash_conn put_crash_conn m)).

(** A call whose error the code inspects. *)
Definition try_srepo {E A} (m : SessOp A) : SessM E (result SessionsServerError A) :=
  attempt (on_part sx_conn put_sess_conn m).

Definition sess_of_run {E A} (r : run A) : SessM E A :=
  match r with Done a => ret a | Panic => raise Panicked end.

Definition sess_spawn {E} (t : CrashTask) : SessM E unit := fun w =>
  (Ok tt, mkSessWorld (sx_conn w) (sx_tasks w ++ [t])).

(** [now - Duration::days(days)] panics before the first time of [chrono]. *)
Definition days_before (now days : Z) : run Z :=
  let t := (now - days * 86400 * 10 ^ 9)%Z in
  if (t <? min_utc)%Z then Panic else Done t.

Section Routes.
Context `{SB : SessBackend}.

(** * app_sessions.rs *)

Definition sess_internal (message : string) : HttpError := http 500 "internal_error" message.

Definition sess_verify_org_membership (org_id user_id : Uuid) : SessM HttpError unit :=
  let* member := prepo (fun _ => sess_internal "Internal error") (repo_get_membership org_id user_id) in
  if member : bool then ret tt
  else raise (Failed (http 403 "forbidden" "Not a member of this organization")).

Definition sess_parse {E} (e : E) (s : string) : SessM E Uuid :=
  match uuid_parse s with Ok u => ret u | Err _ => raise (Failed e) end.

Definition sess_parse_project (s : string) : SessM HttpError Uuid :=
  sess_parse (http 400 "invalid_project_id" "Invalid project ID format") s.

(** The project, 404 without one, 500 with [message] on an error. *)
Definition sess_get_project (message : string) (project_id : Uuid) : SessM HttpError CrashProject :=
  let* o := prepo (fun _ => sess_internal message) (repo_get_project_by_id project_id) in
  match o with
  | Some project => ret project
  | None => raise (Failed (http 404 "project_not_found" "Project not found"))
  end.

(** What every route of a user starts with. *)
Definition sess_authorized (message project_id : string) (user_id : Uuid)
    : SessM HttpError CrashProject :=
  let* id := sess_parse_project project_id in
  let* project := sess_get_project message id in
  let* _ := sess_verify_org_membership (pj_org_id project) user_id in
  ret project.

(** ** Start *)

Record SessionStartRequest := mkSessionStartRequest {
  sq_project_id : string;
  sq_distinct_id : string;
  sq_person_id : option string;
  sq_platform : string;
  sq_environment : string;
  sq_release : option string;
  sq_user_agent : option string;
  sq_sample_rate : f64;
}.

Definition default_environment : string := "production".
Definition default_sample_rate : f64 := f64_of_u64 1.

Record SessionStartResponse := mkSessionStartResponse { so_session_id : string; so_sampled : bool }.

Definition new_session (id : Uuid) (now : Z) (org_id : Uuid) (sampled : bool)
    (body : SessionStartRequest) : Session :=
  mkSession id (uuid_text org_id) (sq_project_id body) (sq_person_id body) (sq_distinct_id body)
    SS_Active (sq_release body) (sq_environment body) 0 0 false now None None
    (default Pf_Other (SessionPlatform_from_str (sq_platform body))) (sq_user_agent body) sampled
    (sq_sample_rate body) now now.

(** What the two routes do for a project that accepts the session. *)
Definition open_session (env : Env) (project : CrashProject) (body : SessionStartRequest)
    : SessM HttpError SessionStartResponse :=
  let session_id := env_uuid env 0 in
  let sampled := should_sample (uuid_text session_id) (sq_sample_rate body) in
  let session := new_session session_id (env_now env 0) (pj_org_id project) sampled body in
  let* _ := if sampled
            then srepo (fun _ => sess_internal "Failed to create session") (sess_create_session session)
            else ret tt in
  ret (mkSessionStartResponse (uuid_text session_id) sampled).

Definition start_session (env : Env) (user_id : Uuid) (body : SessionStartRequest)
    : SessM HttpError SessionStartResponse :=
  let* project := sess_authorized "Failed to get project" (sq_project_id body) user_id in
  open_session env project body.

(** ** End *)

Record SessionEndRequest := mkSessionEndRequest {
  sf_project_id : string;
  sf_session_id : string;
  sf_status : string;
  sf_error_count : Z;
  sf_crash_count : Z;
  sf_duration_ms : Z;
}.

(** What the two routes do for a caller that may end sessions of the project. *)
Definition close_session (env : Env) (body : SessionEndRequest) : SessM HttpError bool :=
  let* session_id := sess_parse (http 400 "invalid_session_id" "Invalid session ID format")
                       (sf_session_id body) in
  match SessionStatus_from_str (sf_status body) with
  | None => raise (Failed (http 400 "invalid_status" "Invalid session status"))
  | Some status =>
      let* _ := srepo (fun _ => sess_internal "Failed to end session")
                  (sess_end_session (env_now env 1) session_id status (sf_error_count body)
                     (sf_crash_count body) (env_now env 0) (sf_duration_ms body)) in
      ret true
  end.

Definition end_session (env : Env) (user_id : Uuid) (body : SessionEndRequest)
    : SessM HttpError bool :=
  let* _ := sess_authorized "Internal error" (sf_project_id body) user_id in
  close_session env body.

(** ** List *)

Definition sess_default_limit : Z := 50.

Record SessionResponse := mkSessionResponse {
  sp_id : string;
  sp_distinct_id : string;
  sp_status : string;
  sp_release : option string;
  sp_environment : string;
  sp_error_count : Z;
  sp_crash_count : Z;
  sp_crashed : bool;
  sp_platform : string;
  sp_started_at : Z;
  sp_ended_at : option Z;
  sp_duration_ms : option Z;
}.

Definition SessionResponse_from (s : Session) : SessionResponse :=
  mkSessionResponse (uuid_text (ss_id s)) (ss_distinct_id s) (SessionStatus_to_string (ss_status s))
    (ss_release s) (ss_environment s) (ss_error_count s) (ss_crash_count s) (ss_crashed s)
    (SessionPlatform_to_string (ss_platform s)) (ss_started_at s) (ss_ended_at s)
    (ss_duration_ms s).

Definition list_sessions (user_id : Uuid) (project_id : string) (limit offset : Z)
    : SessM HttpError (list SessionResponse) :=
  let* _ := sess_authorized "Failed to get project" project_id user_id in
  let* sessions := srepo (fun _ => sess_internal "Failed to list sessions")
                     (sess_list_sessions project_id limit offset) in
  ret (map SessionResponse_from sessions).

(** ** Release health *)

Definition default_days : Z := 7.

Record ReleaseHealthResponse := mkReleaseHealthResponse {
  rp_release : string;
  rp_environment : string;
  rp_total_sessions : Z;
  rp_crashed_sessions : Z;
  rp_crash_free_session_rate : f64;
  rp_crash_free_user_rate : f64;
  rp_adoption_rate : f64;
  rp_adoption_stage : string;
  rp_first_seen : Z;
  rp_last_seen : Z;
}.

Definition ReleaseHealthResponse_from (h : ReleaseHealth) : ReleaseHealthResponse :=
  mkReleaseHealthResponse (rh_release h) (rh_environment h) (rh_total_sessions h)
    (rh_crashed_sessions h) (rh_crash_free_session_rate h) (rh_crash_free_user_rate h)
    (rh_adoption_rate h) (AdoptionStage_to_string (rh_adoption_stage h)) (rh_first_seen h)
    (rh_last_seen h).

Definition calculate_health (env : Env) (k : nat) (project_id release environment : string)
    (aggregates : list SessionAggregate) (all_sessions : Z)
    : SessM HttpError ReleaseHealthResponse :=
  let* health := sess_of_run (ReleaseHealth_calculate overflow_checks (env_now env k)
                   (env_now env (k + 1)) project_id release environment aggregates all_sessions) in
  ret (ReleaseHealthResponse_from health).

(** A release whose aggregates cannot be read is left out. *)
Fixpoint releases_health (env : Env) (project_id environment : string) (start stop total : Z)
    (i : nat) (releases : list string) : SessM HttpError (list ReleaseHealthResponse) :=
  match releases with
  | [] => ret []
  | release :: releases =>
      let* r := try_srepo (sess_get_aggregates project_id (Some release) environment start stop) in
      let* health :=
        match r with
        | Err _ => ret []
        | Ok aggregates =>
            let* h := calculate_health env (1 + 2 * i) project_id release environment aggregates total in
            ret [h]
        end in
      let* rest := releases_health env project_id environment start stop total (S i) releases in
      ret (health ++ rest)
  end.

Definition list_release_health (env : Env) (user_id : Uuid) (project_id environment : string)
    (days : Z) : SessM HttpError (list ReleaseHealthResponse) :=
  let* _ := sess_authorized "Failed to get project" project_id user_id in
  let stop := env_now env 0 in
  let* start := sess_of_run (days_before stop days) in
  let* releases := srepo (fun _ => sess_internal "Failed to get releases")
                     (sess_get_releases project_id environment) in
  let* total := srepo (fun _ => sess_internal "Failed to get total sessions")
                  (sess_get_total_sessions_in_range project_id environment start stop) in
  releases_health env project_id environment start stop total 0 releases.

Definition get_release_health (env : Env) (user_id : Uuid) (version project_id environment : string)
    (days : Z) : SessM HttpError ReleaseHealthResponse :=
  let* _ := sess_authorized "Failed to get project" project_id user_id in
  let stop := env_now env 0 in
  let* start := sess_of_run (days_before stop days) in
  let* aggregates := srepo (fun _ => sess_internal "Failed to get aggregates")
                       (sess_get_aggregates project_id (Some version) environment start stop) in
  match aggregates with
  | [] => raise (Failed (http 404 "release_not_found" "No data found for this release"))
  | _ =>
      let* total := srepo (fun _ => sess_internal "Failed to get total sessions")
                      (sess_get_total_sessions_in_range project_id environment start stop) in
      calculate_health env 1 project_id version environment aggregates total
  end.

(** ** With a key *)

Definition CRASH_API_KEY_HEADER : string := "x-crash-api-key".

Definition sess_verify_project_api_key (project_id : Uuid) (raw_key : string)
    : SessM HttpError CrashApiKey :=
  let* keys := prepo (fun _ => sess_internal "Internal server error") (repo_list_api_keys project_id) in
  match List.find (usable_key raw_key) keys with
  | Some key => let* _ := sess_spawn (Task_KeyUsed (ak_id key)) in ret key
  | None => raise (Failed (http 401 "invalid_api_key" "Invalid or revoked API key"))
  end.

(** What both routes start with: the header, the project and a key of it. *)
Definition sess_key_authorized (key_header : option string) (project_id : string)
    : SessM HttpError CrashProject :=
  match key_header with
  | None => raise (Failed (http 401 "missing_api_key" ("Missing " +:+ CRASH_API_KEY_HEADER +:+ " header")))
  | Some raw_key =>
      let* id := sess_parse_project project_id in
      let* project := sess_get_project "Internal server error" id in
      let* key := sess_verify_project_api_key id raw_key in
      if negb (bool_decide (ak_key_type key = CK_Capture)) && negb (bool_decide (ak_key_type key = CK_Admin))
      then raise (Failed (http 403 "forbidden" "API key does not have session tracking permission"))
      else ret project
  end.

Definition start_session_with_api_key (env : Env) (key_header : option string)
    (body : SessionStartRequest) : SessM HttpError SessionStartResponse :=
  let* project := sess_key_authorized key_header (sq_project_id body) in
  open_session env project body.

Definition end_session_with_api_key (env : Env) (key_header : option string)
    (body : SessionEndRequest) : SessM HttpError bool :=
  let* _ := sess_key_authorized key_header (sf_project_id body) in
  close_session env body.
End Routes.

(** * session_aggregation.rs *)

Record AggregateKey := mkAggregateKey {
  gk_org_id : string;
  gk_project_id : string;
  gk_release : option string;
  gk_environment : string;
}.
#[export] Instance AggregateKey_eq_dec : EqDecision AggregateKey.
Proof. solve_decision. Defined.

Definition key_of (s : Session) : AggregateKey :=
  mkAggregateKey (ss_org_id s) (ss_project_id s) (ss_release s) (ss_environment s).

(** [groups.entry(key).or_default().push(session)], the entries in the order of their
    first session. *)
Fixpoint push_session (k : AggregateKey) (s : Session) (groups : list (AggregateKey * list Session))
    : list (AggregateKey * list Session) :=
  match groups with
  | [] => [(k, [s])]
  | (k', l) :: groups =>
      if decide (k = k') then (k', l ++ [s]) :: groups else (k', l) :: push_session k s groups
  end.

Definition group_sessions (sessions : list Session) : list (AggregateKey * list Session) :=
  foldl (fun groups s => push_session (key_of s) s groups) [] sessions.

(** The variables of the loop over a group. *)
Record Tally := mkTally {
  ta_total : Z;
  ta_exited : Z;
  ta_crashed : Z;
  ta_abnormal : Z;
  ta_errored : Z;
  ta_users : gset string;
  ta_crashed_users : gset string;
  ta_duration : Z;
  ta_min : option Z;
  ta_max : option Z;
  ta_errors : Z;
  ta_crashes : Z;
}.

Definition new_tally : Tally := mkTally 0 0 0 0 0 ∅ ∅ 0 None None 0 0.

(** [session.person_id.as_ref().unwrap_or(&session.distinct_id)]. *)
Definition user_of (s : Session) : string := default (ss_distinct_id s) (ss_person_id s).

Definition counts_as_abnormal (s : SessionStatus) : bool :=
  match s with SS_Abnormal | SS_Active => true | _ => false end.

(** [n += 1] when the session is counted. *)
Definition bump_if (oc b : bool) (n : Z) : run Z := if b then add_u64 oc n 1 else Done n.

Definition tally_session (oc : bool) (t : Tally) (s : Session) : run Tally :=
  total ← add_u64 oc (ta_total t) 1;
  exited ← bump_if oc (bool_decide (ss_status s = SS_Exited)) (ta_exited t);
  crashed ← bump_if oc (bool_decide (ss_status s = SS_Crashed)) (ta_crashed t);
  abnormal ← bump_if oc (counts_as_abnormal (ss_status s)) (ta_abnormal t);
  errored ← bump_if oc (bool_decide (ss_status s = SS_Errored)) (ta_errored t);
  duration ← (match ss_duration_ms s with
              | Some d => add_u64 oc (ta_duration t) d
              | None => Done (ta_duration t)
              end);
  errors ← add_u64 oc (ta_errors t) (ss_error_count s);
  crashes ← add_u64 oc (ta_crashes t) (ss_crash_count s);
  Done (mkTally total exited crashed abnormal errored
          ({[user_of s]} ∪ ta_users t)
          (if ss_crashed s then {[user_of s]} ∪ ta_crashed_users t else ta_crashed_users t)
          duration
          (match ss_duration_ms s with
           | Some d => Some (match ta_min t with Some n => Z.min n d | None => d end)
           | None => ta_min t
           end)
          (match ss_duration_ms s with
           | Some d => Some (match ta_max t with Some n => Z.max n d | None => d end)
           | None => ta_max t
           end)
          errors crashes).

Fixpoint tally_group (oc : bool) (t : Tally) (l : list Session) : run Tally :=
  match l with
  | [] => Done t
  | s :: l => t ← tally_session oc t s; tally_group oc t l
  end.

Definition aggregate_of (id : Uuid) (hour now : Z) (k : AggregateKey) (t : Tally) : SessionAggregate :=
  mkSessionAggregate id (gk_org_id k) (gk_project_id k) (gk_release k) (gk_environment k) hour
    (ta_total t) (ta_exited t) (ta_crashed t) (ta_abnormal t) (ta_errored t)
    (Z.of_nat (size (ta_users t))) (Z.of_nat (size (ta_crashed_users t))) (ta_duration t)
    (ta_min t) (ta_max t) (ta_errors t) (ta_crashes t) now.

Definition hour_ns : Z := 3600 * 10 ^ 9.

(** [now.duration_trunc(Duration::hours(1)).unwrap_or(now)]: [chrono] rounds times whose
    nanoseconds are an [i64]. *)
Definition hour_of (now : Z) : Z :=
  if (wrap_i64 now =? now)%Z then (now - now mod hour_ns)%Z else now.

Section Jobs.
Context `{SB : SessBackend}.

(** The loop over the groups; [n] is the number of aggregates so far. *)
Fixpoint upsert_groups (env : Env) (cancelled : nat -> bool) (hour now : Z) (i : nat)
    (groups : list (AggregateKey * list Session)) (n : Z) : SessM JobError Z :=
  match groups with
  | [] => ret n
  | (k, l) :: groups =>
      if cancelled (2 + i)%nat then raise (Failed JE_Cancelled)
      else
        let* t := sess_of_run (tally_group overflow_checks new_tally l) in
        let* r := try_srepo (sess_upsert_aggregate (aggregate_of (env_uuid env i) hour now k t)) in
        let* n := match r with
                  | Ok _ => sess_of_run (add_i32 overflow_checks n 1)
                  | Err _ => ret n
                  end in
        upsert_groups env cancelled hour now (S i) groups n
  end.

Definition aggregation_report (message : string) (hour sessions aggregates : Z)
    : JobOutput Metadata :=
  mkJobOutput message
    (Some [("hour", D_Text (to_rfc3339 hour)); ("sessions_processed", D_Number sessions);
           ("aggregates_created", D_Number aggregates)]).

Definition session_aggregation (env : Env) (cancelled : nat -> bool)
    : SessM JobError (JobOutput Metadata) :=
  if cancelled 0%nat then raise (Failed JE_Cancelled)
  else
    let current_hour := hour_of (env_now env 0) in
    let previous_hour := (current_hour - hour_ns)%Z in
    let* _ := sess_of_run (if (previous_hour <? min_utc)%Z then Panic else Done tt) in
    let* sessions := srepo (fun e => JE_Failed ("Failed to fetch sessions for aggregation: "
                                                +:+ SessionsServerError_to_string e) true)
                       (sess_get_sessions_for_aggregation previous_hour current_hour) in
    if (length sessions =? 0)%nat
    then ret (aggregation_report "No sessions to aggregate" previous_hour 0 0)
    else if cancelled 1%nat then raise (Failed JE_Cancelled)
    else
      let* n := upsert_groups env cancelled previous_hour (env_now env 1) 0
                  (hash_order (group_sessions sessions)) 0 in
      let count := Z.of_nat (length sessions) in
      ret (aggregation_report
             ("Aggregated " +:+ pretty (Z.to_N count) +:+ " sessions into " +:+ pretty n
              +:+ " aggregates for " +:+ to_rfc3339 previous_hour)
             previous_hour count n).

(** * app_session_cleanup.rs *)

Definition SESSION_RETENTION_DAYS : Z := 30.

Definition app_session_cleanup (retention_days : Z) (env : Env) (cancelled : nat -> bool)
    : SessM JobError (JobOutput Metadata) :=
  if cancelled 0%nat then raise (Failed JE_Cancelled)
  else
    let* cutoff := sess_of_run (days_before (env_now env 0) retention_days) in
    let* deleted := srepo (fun e => JE_Failed ("Failed to delete old app sessions: "
                                               +:+ SessionsServerError_to_string e) true)
                      (sess_delete_old_sessions cutoff) in
    ret (mkJobOutput ("Deleted " +:+ pretty (Z.to_N deleted) +:+ " app sessions older than "
                      +:+ pretty retention_days +:+ " days")
           (Some [("deleted_count", D_Number deleted); ("cutoff", D_Text (to_rfc3339 cutoff));
                  ("retention_days", D_Number retention_days)])).

(** ** As [main.rs] registers them *)

Definition put_sess_world (s : SessWorld) (w : JobWorld SessWorld) : JobWorld SessWorld :=
  mkJobWorld (jw_conn w) s.

Definition SessionAggregationJob : Job SessWorld Metadata :=
  mkJob "session-aggregation" "Session Aggregation"
    "Aggregate app sessions into hourly rollups for release health metrics"
    (fun env ctx => on_part jw_rest put_sess_world
                      (session_aggregation env (fun _ => jc_cancelled ctx))).

Definition AppSessionCleanupJob : Job SessWorld Metadata :=
  mkJob "app-session-cleanup" "App Session Cleanup"
    "Delete individual app sessions older than retention period"
    (fun env ctx => on_part jw_rest put_sess_world
                      (app_session_cleanup SESSION_RETENTION_DAYS env (fun _ => jc_cancelled ctx))).
End Jobs.
