(* ===== verification/SessInvariant.v ===== *)
(** The invariant of the tables of app sessions, and that every statement keeps it: rows
    read back, references hold and agree on the organization, the flags of a session
    agree with its counters, the counters of an aggregate add up, and there is one
    aggregate for a release, environment and hour.  First, what the loops of the
    aggregation compute. *)
From stdpp Require Import base gmap list strings.
From Stdlib Require Import ZArith Lia.
From S2P Require Import Prelude Text FlagCore CoreTypes Effects Sql Columns CrashModel CrashRepo CrashCapture.
From S2P Require Import JobModel JobStore SessModel SessRepo SessRoutes.
Local Open Scope Z_scope.

(** * Counters *)

Definition has_status (st : SessionStatus) (s : Session) : bool := bool_decide (ss_status s = st).
Definition counted (p : Session -> bool) (l : list Session) : Z := Z.of_nat (count_where p l).
Definition users_of (l : list Session) : gset string := list_to_set (user_of <$> l).
Definition crashes_of (l : list Session) : list Session := select_where ss_crashed l.
Definition durations (l : list Session) : list Z := omap ss_duration_ms l.

(** The loop's variables after the sessions [l]. *)
Definition tally_of (l : list Session) : Tally :=
  mkTally (Z.of_nat (length l)) (counted (has_status SS_Exited) l) (counted (has_status SS_Crashed) l)
    (counted (fun s => counts_as_abnormal (ss_status s)) l) (counted (has_status SS_Errored) l)
    (users_of l) (users_of (crashes_of l)) (wrap_u64 (total (durations l)))
    (min_of (durations l)) (max_of (durations l))
    (total (ss_error_count <$> l)) (total (ss_crash_count <$> l)).

(** The widths of the fields. *)
Definition opt_u64 (o : option Z) : Prop := match o with Some d => u64_ok d | None => True end.
Definition session_widths (s : Session) : Prop :=
  u32_ok (ss_error_count s) /\ u32_ok (ss_crash_count s) /\ opt_u64 (ss_duration_ms s).

Lemma foldr_min_snoc x l d : foldr Z.min x (l ++ [d]) = Z.min (foldr Z.min x l) d.
Proof. induction l as [|y l IH]; cbn; lia. Qed.
Lemma foldr_max_snoc x l d : foldr Z.max x (l ++ [d]) = Z.max (foldr Z.max x l) d.
Proof. induction l as [|y l IH]; cbn; lia. Qed.

Lemma min_of_snoc l d :
  min_of (l ++ [d]) = Some (match min_of l with Some n => Z.min n d | None => d end).
Proof. destruct l as [|x l]; cbn; [done|]. by rewrite foldr_min_snoc. Qed.
Lemma max_of_snoc l d :
  max_of (l ++ [d]) = Some (match max_of l with Some n => Z.max n d | None => d end).
Proof. destruct l as [|x l]; cbn; [done|]. by rewrite foldr_max_snoc. Qed.

Lemma durations_snoc l s :
  durations (l ++ [s]) = durations l ++ match ss_duration_ms s with Some d => [d] | None => [] end.
Proof. unfold durations. rewrite omap_app. done. Qed.

Lemma users_of_snoc l s : users_of (l ++ [s]) = {[user_of s]} ∪ users_of l.
Proof.
  unfold users_of. rewrite fmap_app, list_to_set_app_L. cbn. rewrite (right_id_L ∅ (∪)).
  apply union_comm_L.
Qed.

Lemma counted_snoc p l s : counted p (l ++ [s]) = counted p l + if p s then 1 else 0.
Proof. unfold counted. rewrite count_where_snoc. destruct (p s); lia. Qed.

Lemma counted_le p l : 0 <= counted p l <= Z.of_nat (length l).
Proof. unfold counted, count_where. assert (H := List.filter_length_le p l). lia. Qed.

Lemma total_widths (f : Session -> Z) l : Forall (fun s => u32_ok (f s)) l ->
  0 <= total (f <$> l) <= Z.of_nat (length l) * (2 ^ 32 - 1).
Proof.
  unfold total, u32_ok. induction 1 as [|s l Hs _ IH]; cbn [fmap list_fmap foldr length]; [lia|].
  fold (list_fmap Session Z f l). lia.
Qed.

(** An addition that fits, and the choice to count. *)
Lemma bump_if_fits oc b n : u64_ok (n + 1) -> bump_if oc b n = Done (n + if b then 1 else 0).
Proof. intros H. destruct b; cbn; [by apply add_u64_fits|]. f_equal. lia. Qed.

Lemma add_u64_wraps oc a b v : add_u64 oc a b = Done v -> v = wrap_u64 (a + b).
Proof. unfold add_u64, arith. destruct (Z.eqb_spec (wrap_u64 (a + b)) (a + b)), oc; intros [= <-]; done. Qed.

Lemma wrap_u64_add a b : wrap_u64 (wrap_u64 a + b) = wrap_u64 (a + b).
Proof. unfold wrap_u64. by rewrite Zplus_mod_idemp_l. Qed.

(** The sum of the durations that fits. *)
Definition fits (l : list Session) : Prop := total (durations l) < 2 ^ 64.

Section Step.
Context (l : list Session) (s : Session).
Context (Hl : Forall session_widths (l ++ [s])) (Hn : Z.of_nat (length (l ++ [s])) < 2 ^ 31).

Lemma step_errors : total (ss_error_count <$> l ++ [s]) = total (ss_error_count <$> l) + ss_error_count s
  /\ u64_ok (total (ss_error_count <$> l ++ [s])).
Proof.
  rewrite fmap_app, totals_app. cbn. split; [unfold total; cbn; lia|].
  assert (H := total_widths ss_error_count (l ++ [s])). rewrite fmap_app, totals_app in H. cbn in H.
  unfold u64_ok. assert (H' := H ltac:(eapply Forall_impl; [exact Hl|by intros ? (? & _)])). lia.
Qed.

Lemma step_crashes : total (ss_crash_count <$> l ++ [s]) = total (ss_crash_count <$> l) + ss_crash_count s
  /\ u64_ok (total (ss_crash_count <$> l ++ [s])).
Proof.
  rewrite fmap_app, totals_app. cbn. split; [unfold total; cbn; lia|].
  assert (H := total_widths ss_crash_count (l ++ [s])). rewrite fmap_app, totals_app in H. cbn in H.
  unfold u64_ok. assert (H' := H ltac:(eapply Forall_impl; [exact Hl|by intros ? (_ & ? & _)])). lia.
Qed.

Lemma step_small p : u64_ok (counted p l + 1).
Proof.
  assert (H := counted_le p l). rewrite length_app in Hn. cbn in Hn. unfold u64_ok. lia.
Qed.

(** One session more. *)
Lemma tally_session_of oc : tally_session oc (tally_of l) s =
  (d ← (match ss_duration_ms s with
        | Some d => add_u64 oc (wrap_u64 (total (durations l))) d
        | None => Done (wrap_u64 (total (durations l)))
        end);
   let t := tally_of (l ++ [s]) in
   Done (mkTally (ta_total t) (ta_exited t) (ta_crashed t) (ta_abnormal t) (ta_errored t) (ta_users t)
           (ta_crashed_users t) d (ta_min t) (ta_max t) (ta_errors t) (ta_crashes t))).
Proof.
  unfold tally_session. cbn [ta_total ta_exited ta_crashed ta_abnormal ta_errored ta_users
    ta_crashed_users ta_duration ta_min ta_max ta_errors ta_crashes tally_of].
  destruct step_errors as [Ee He], step_crashes as [Ec Hc].
  assert (Ht := Hn). rewrite length_app in Ht. cbn in Ht.
  rewrite (add_u64_fits oc (Z.of_nat (length l)) 1) by (unfold u64_ok; lia). cbn [mbind run_bind].
  do 4 (rewrite bump_if_fits by apply step_small; cbn [mbind run_bind]).
  assert (Hd : forall d, (errors ← add_u64 oc (total (ss_error_count <$> l)) (ss_error_count s);
    crashes ← add_u64 oc (total (ss_crash_count <$> l)) (ss_crash_count s);
    d errors crashes : run Tally) = d (total (ss_error_count <$> l ++ [s])) (total (ss_crash_count <$> l ++ [s]))).
  { intros d. rewrite !add_u64_fits by congruence. cbn [mbind run_bind]. congruence. }
  rewrite !counted_snoc, !users_of_snoc, durations_snoc, length_app.
  replace (Z.of_nat (length l + length [s])) with (Z.of_nat (length l) + 1) by (cbn; lia).
  assert (Ecr : users_of (crashes_of (l ++ [s])) =
    (if ss_crashed s then {[user_of s]} ∪ users_of (crashes_of l) else users_of (crashes_of l))).
  { unfold crashes_of. destruct (ss_crashed s) eqn:E.
    - by rewrite select_where_snoc_in, users_of_snoc.
    - by rewrite select_where_snoc. }
  rewrite Ecr. destruct (ss_duration_ms s) as [d|]; cbn [mbind run_bind].
  - destruct (add_u64 oc _ d) as [v|]; cbn [mbind run_bind]; [|done]. rewrite Hd.
    by rewrite min_of_snoc, max_of_snoc.
  - rewrite Hd. by rewrite !app_nil_r.
Qed.
End Step.

Lemma tally_step l s oc t : Forall session_widths (l ++ [s]) -> Z.of_nat (length (l ++ [s])) < 2 ^ 31 ->
  tally_session oc (tally_of l) s = Done t -> t = tally_of (l ++ [s]).
Proof.
  intros Hl Hn. rewrite tally_session_of by done.
  assert (Hd : forall d, d = wrap_u64 (total (durations (l ++ [s]))) ->
    mkTally (ta_total (tally_of (l ++ [s]))) (ta_exited (tally_of (l ++ [s])))
      (ta_crashed (tally_of (l ++ [s]))) (ta_abnormal (tally_of (l ++ [s])))
      (ta_errored (tally_of (l ++ [s]))) (ta_users (tally_of (l ++ [s])))
      (ta_crashed_users (tally_of (l ++ [s]))) d (ta_min (tally_of (l ++ [s])))
      (ta_max (tally_of (l ++ [s]))) (ta_errors (tally_of (l ++ [s]))) (ta_crashes (tally_of (l ++ [s])))
    = tally_of (l ++ [s])) by (by intros d ->).
  rewrite durations_snoc, totals_app in Hd. destruct (ss_duration_ms s) as [d|].
  - destruct (add_u64 oc _ d) as [v|] eqn:E; cbn [mbind run_bind]; [|done]. intros [= <-]. apply Hd.
    apply add_u64_wraps in E as ->. rewrite wrap_u64_add. unfold total at 3. cbn. do 2 f_equal. lia.
  - cbn [mbind run_bind]. intros [= <-]. apply Hd. unfold total at 3. cbn. f_equal. lia.
Qed.

Lemma durations_nonneg l : Forall session_widths l -> Forall (fun d => 0 <= d) (durations l).
Proof.
  intros H. apply Forall_forall. intros d (s & Hs & E)%list_elem_of_omap.
  destruct (proj1 (Forall_forall _ _) H s Hs) as (_ & _ & Hd). rewrite E in Hd. cbn in Hd.
  unfold u64_ok in Hd. lia.
Qed.

Lemma tally_step_fits l s oc : Forall session_widths (l ++ [s]) ->
  Z.of_nat (length (l ++ [s])) < 2 ^ 31 -> fits (l ++ [s]) ->
  tally_session oc (tally_of l) s = Done (tally_of (l ++ [s])).
Proof.
  intros Hl Hn Hf. destruct (tally_session oc (tally_of l) s) as [t|] eqn:E.
  - f_equal. by eapply tally_step.
  - rewrite tally_session_of in E by done. exfalso. unfold fits in Hf.
    rewrite durations_snoc, totals_app in Hf. apply Forall_app in Hl as [Hl Hs].
    assert (H0 := totals_nonneg _ (durations_nonneg _ Hl)).
    apply Forall_singleton in Hs as (_ & _ & Hs).
    destruct (ss_duration_ms s) as [d|]; [|done]. unfold total at 2 in Hf. cbn in Hf, Hs.
    unfold u64_ok in Hs. rewrite wrap_u64_id in E by (unfold u64_ok; lia).
    rewrite add_u64_fits in E by (unfold u64_ok; lia). done.
Qed.

Lemma tally_group_from l l' oc t : Forall session_widths (l ++ l') ->
  Z.of_nat (length (l ++ l')) < 2 ^ 31 ->
  tally_group oc (tally_of l) l' = Done t -> t = tally_of (l ++ l').
Proof.
  revert l. induction l' as [|s l' IH]; intros l Hl Hn; cbn [tally_group].
  - intros [= <-]. by rewrite app_nil_r.
  - rewrite cons_middle, app_assoc in Hl, Hn.
    destruct (tally_session oc (tally_of l) s) as [t'|] eqn:E; cbn [mbind run_bind]; [|done].
    apply tally_step in E as ->.
    + intros H. rewrite cons_middle, app_assoc. by apply IH.
    + by apply Forall_app in Hl as [? _].
    + rewrite length_app in Hn. lia.
Qed.

Lemma total_durations_app l l' : total (durations (l ++ l')) = total (durations l) + total (durations l').
Proof. unfold durations. by rewrite omap_app, totals_app. Qed.

Lemma tally_group_fits_from l l' oc : Forall session_widths (l ++ l') ->
  Z.of_nat (length (l ++ l')) < 2 ^ 31 -> fits (l ++ l') ->
  tally_group oc (tally_of l) l' = Done (tally_of (l ++ l')).
Proof.
  revert l. induction l' as [|s l' IH]; intros l Hl Hn Hf; cbn [tally_group].
  - by rewrite app_nil_r.
  - rewrite cons_middle, app_assoc in Hl, Hn, Hf |- *.
    rewrite tally_step_fits; [by apply IH|..].
    + by apply Forall_app in Hl as [? _].
    + rewrite length_app in Hn. lia.
    + unfold fits in *. rewrite total_durations_app in Hf. apply Forall_app in Hl as [_ Hl].
      assert (H := totals_nonneg _ (durations_nonneg _ Hl)). lia.
Qed.

(** The loop ends with the counters of the group, the durations modulo 2^64. *)
Lemma tally_group_of l oc t : Forall session_widths l -> Z.of_nat (length l) < 2 ^ 31 ->
  tally_group oc new_tally l = Done t -> t = tally_of l.
Proof. apply (tally_group_from []). Qed.

Lemma tally_group_fits l oc : Forall session_widths l -> Z.of_nat (length l) < 2 ^ 31 -> fits l ->
  tally_group oc new_tally l = Done (tally_of l).
Proof. apply (tally_group_fits_from []). Qed.

(** The order of the sessions does not matter. *)
Lemma foldr_min_spec x l : (exists y, y ∈ x :: l /\ foldr Z.min x l = y)
  /\ forall y, y ∈ x :: l -> foldr Z.min x l <= y.
Proof.
  induction l as [|z l [(y & Hy & E) IH]]; cbn.
  - split; [exists x; split; [left|done]|]. intros y ->%list_elem_of_singleton. lia.
  - split.
    + destruct (Z.min_spec z (foldr Z.min x l)) as [[_ ->]|[_ ->]].
      * exists z. split; [right; left|done].
      * exists y. split; [|done]. apply elem_of_cons in Hy as [->|Hy]; [left|by do 2 right].
    + intros y' [->|[->|Hy']%elem_of_cons]%elem_of_cons.
      * specialize (IH x ltac:(left)). lia.
      * lia.
      * specialize (IH y' ltac:(by right)). lia.
Qed.

Lemma min_of_spec l n : min_of l = Some n <-> n ∈ l /\ forall y, y ∈ l -> n <= y.
Proof.
  destruct l as [|x l]; cbn.
  - split; [done|]. intros [H _]. by apply elem_of_nil in H.
  - destruct (foldr_min_spec x l) as [(y & Hy & E) H]. split.
    + intros [= <-]. split; [by rewrite E|done].
    + intros [Hn Hm]. f_equal. specialize (H n Hn). rewrite E in *. specialize (Hm y Hy). lia.
Qed.

Lemma max_as_min l : max_of l = Z.opp <$> min_of (Z.opp <$> l).
Proof.
  destruct l as [|x l]; [done|]. cbn [max_of fmap list_fmap min_of option_fmap option_map]. f_equal.
  change (list_fmap Z Z Z.opp l) with (Z.opp <$> l).
  induction l as [|y l IH]; cbn [fmap list_fmap foldr]; [lia|].
  change (list_fmap Z Z Z.opp l) with (Z.opp <$> l). rewrite IH. lia.
Qed.

Lemma min_of_perm l k : l ≡ₚ k -> min_of l = min_of k.
Proof.
  intros H. destruct (min_of k) as [n|] eqn:E.
  - apply min_of_spec in E as [Hn Hm]. apply min_of_spec. setoid_rewrite H. done.
  - destruct k; [|done]. apply Permutation_nil_r in H as ->. done.
Qed.

Lemma max_of_perm l k : l ≡ₚ k -> max_of l = max_of k.
Proof. intros H. rewrite !max_as_min. f_equal. apply min_of_perm. by rewrite H. Qed.

Lemma count_where_perm {R} (p : R -> bool) l k : l ≡ₚ k -> count_where p l = count_where p k.
Proof.
  unfold count_where. induction 1 as [|x l k _ IH|x y l|l k m _ IH1 _ IH2]; cbn.
  - done.
  - destruct (p x); cbn; by rewrite IH.
  - by destruct (p x), (p y).
  - congruence.
Qed.

Lemma select_where_perm {R} (p : R -> bool) l k : l ≡ₚ k -> select_where p l ≡ₚ select_where p k.
Proof.
  unfold select_where. induction 1 as [|x l k _ IH|x y l|l k m _ IH1 _ IH2]; cbn.
  - done.
  - destruct (p x); by rewrite IH.
  - destruct (p x), (p y); try done. apply Permutation_swap.
  - by transitivity (List.filter p k).
Qed.

Lemma users_of_perm l k : l ≡ₚ k -> users_of l = users_of k.
Proof. intros H. unfold users_of. apply list_to_set_perm_L. by rewrite H. Qed.

Lemma tally_of_perm l k : l ≡ₚ k -> tally_of l = tally_of k.
Proof.
  intros H. unfold tally_of, counted, durations.
  rewrite !(count_where_perm _ _ _ H), (users_of_perm _ _ H).
  rewrite (users_of_perm (crashes_of l) (crashes_of k)) by (by apply select_where_perm).
  rewrite (total_perm (omap ss_duration_ms l) (omap ss_duration_ms k)) by by rewrite H.
  rewrite (min_of_perm (omap ss_duration_ms l) (omap ss_duration_ms k)) by by rewrite H.
  rewrite (max_of_perm (omap ss_duration_ms l) (omap ss_duration_ms k)) by by rewrite H.
  rewrite (total_perm (ss_error_count <$> l) (ss_error_count <$> k)) by by rewrite H.
  rewrite (total_perm (ss_crash_count <$> l) (ss_crash_count <$> k)) by by rewrite H.
  by rewrite (Permutation_length H).
Qed.

(** * Groups *)

Definition of_key (k : AggregateKey) (s : Session) : bool := bool_decide (key_of s = k).

Lemma push_session_keys k s gs :
  (push_session k s gs).*1 = if decide (k ∈ gs.*1) then gs.*1 else gs.*1 ++ [k].
Proof.
  induction gs as [|[k' l] gs IH]; cbn [push_session].
  - rewrite decide_False by (by intros H%elem_of_nil). done.
  - destruct (decide (k = k')) as [<-|Hk]; cbn [fmap list_fmap fst].
    + rewrite decide_True by left. done.
    + change (list_fmap _ _ fst (push_session k s gs)) with ((push_session k s gs).*1). rewrite IH.
      change (list_fmap _ _ fst gs) with (gs.*1). destruct (decide (k ∈ gs.*1)) as [H|H].
      * rewrite decide_True by (by right). done.
      * rewrite decide_False by (by intros [?|?]%elem_of_cons). done.
Qed.

Lemma push_session_NoDup k s gs : NoDup gs.*1 -> NoDup (push_session k s gs).*1.
Proof.
  intros H. rewrite push_session_keys. destruct (decide _); [done|]. apply NoDup_app.
  split_and!; [done| |apply NoDup_singleton]. by intros x Hx ->%list_elem_of_singleton.
Qed.

Lemma elem_push_session k s gs k' g : NoDup gs.*1 ->
  (k', g) ∈ push_session k s gs <->
  (k' <> k /\ (k', g) ∈ gs)
  \/ (k' = k /\ ((exists g0, (k, g0) ∈ gs /\ g = g0 ++ [s]) \/ (k ∉ gs.*1 /\ g = [s]))).
Proof.
  induction gs as [|[k1 l] gs IH]; intros Hn; cbn [push_session].
  - rewrite list_elem_of_singleton. split.
    + intros [= -> ->]. right. split; [done|]. right. split; [|done]. by intros H%elem_of_nil.
    + intros [[_ H%elem_of_nil]|[-> [(g0 & H%elem_of_nil & _)|[_ ->]]]]; done.
  - change ((fst <$> ((k1, l) :: gs))) with (k1 :: gs.*1) in *. apply NoDup_cons in Hn as [Hk1 Hn].
    destruct (decide (k = k1)) as [<-|Hk]; rewrite elem_of_cons.
    + split.
      * intros [[= -> ->]|H]; [right; split; [done|]; left; exists l; split; [left|done]|].
        left. assert (k' <> k). { intros ->. apply Hk1, list_elem_of_fmap. by exists (k, g). }
        split; [done|by right].
      * intros [[Hne [[= -> ->]|H]%elem_of_cons]|[-> [(g0 & [[= ->]|H]%elem_of_cons & ->)|[H _]]]].
        -- done.
        -- by right.
        -- by left.
        -- exfalso. apply Hk1, list_elem_of_fmap. by exists (k, g0).
        -- exfalso. apply H. left.
    + rewrite IH by done. split.
      * intros [[= -> ->]|[[Hne H]|[-> [(g0 & H & ->)|[H ->]]]]].
        -- left. split; [done|left].
        -- left. split; [done|by right].
        -- right. split; [done|]. left. exists g0. split; [by right|done].
        -- right. split; [done|]. right. split; [|done]. by intros [?|?]%elem_of_cons.
      * intros [[Hne [[= -> ->]|H]%elem_of_cons]|[-> [(g0 & [[= ->]|H]%elem_of_cons & ->)|[H ->]]]].
        -- by left.
        -- right. by left.
        -- done.
        -- right. right. split; [done|]. left. by exists g0.
        -- right. right. split; [done|]. right. split; [|done]. intros H'. apply H. by right.
Qed.

Lemma group_sessions_snoc l s :
  group_sessions (l ++ [s]) = push_session (key_of s) s (group_sessions l).
Proof. unfold group_sessions. by rewrite foldl_app. Qed.

Lemma group_sessions_NoDup l : NoDup (group_sessions l).*1.
Proof.
  induction l as [|s l IH] using rev_ind; [apply NoDup_nil_2|].
  rewrite group_sessions_snoc. by apply push_session_NoDup.
Qed.

(** The groups are the sessions of each key, in their order. *)
Lemma elem_group_sessions l k g :
  (k, g) ∈ group_sessions l <-> g = select_where (of_key k) l /\ g <> [].
Proof.
  revert k g. induction l as [|s l IH] using rev_ind; intros k g.
  - unfold group_sessions. cbn. split; [by intros H%elem_of_nil|]. by intros [-> H].
  - rewrite group_sessions_snoc, elem_push_session by apply group_sessions_NoDup.
    setoid_rewrite IH. destruct (decide (k = key_of s)) as [->|Hk].
    + rewrite select_where_snoc_in by (by apply bool_decide_eq_true). split.
      * intros [[? _]|[_ [(g0 & [-> _] & ->)|[H ->]]]]; [done| |].
        -- split; [done|]. by intros [_ ?]%app_nil.
        -- split; [|done]. destruct (select_where _ _) as [|s' g] eqn:E; [done|]. exfalso.
           apply H, list_elem_of_fmap. exists (key_of s, s' :: g). split; [done|].
           apply IH. by rewrite E.
      * intros [-> _]. right. split; [done|].
        destruct (select_where (of_key (key_of s)) l) as [|s' g] eqn:E.
        -- right. split; [|done]. intros ([k' g'] & E' & H)%list_elem_of_fmap. cbn in E'. subst k'.
           apply IH in H as [-> H]. by rewrite E in H.
        -- left. exists (s' :: g). by split_and!.
    + rewrite select_where_snoc by (apply bool_decide_eq_false; congruence).
      split; [by intros [[_ H]|[? _]]|]. intros H. by left.
Qed.

(** * Values *)

Section Values.
Context `{SB : SessBackend}.

Definition session_wf (s : Session) : Prop :=
  session_widths s
  /\ calendar (ss_started_at s) /\ opt_calendar (ss_ended_at s)
  /\ calendar (ss_created_at s) /\ calendar (ss_updated_at s)
  /\ ss_crashed s = (0 <? ss_crash_count s)
  /\ (ss_ended_at s = None -> ss_status s = SS_Active /\ ss_error_count s = 0
                              /\ ss_crash_count s = 0 /\ ss_duration_ms s = None)
  /\ ss_sampled s = true /\ should_sample (uuid_text (ss_id s)) (ss_sample_rate s) = true.

(** The shortest and the longest of the durations. *)
Definition range_wf (lo hi : option Z) (sum : Z) : Prop :=
  match lo, hi with
  | Some a, Some b => 0 <= a <= b /\ b < 2 ^ 64
  | None, None => sum = 0
  | _, _ => False
  end.

Definition counters_wf (a : SessionAggregate) : Prop :=
  0 <= sg_exited_sessions a /\ 0 <= sg_crashed_sessions a /\ 0 <= sg_abnormal_sessions a
  /\ 0 <= sg_errored_sessions a
  /\ sg_total_sessions a = sg_exited_sessions a + sg_crashed_sessions a
                           + sg_abnormal_sessions a + sg_errored_sessions a
  /\ 1 <= sg_total_sessions a < 2 ^ 31
  /\ 0 <= sg_crashed_users a <= sg_unique_users a
  /\ 1 <= sg_unique_users a <= sg_total_sessions a
  /\ u64_ok (sg_total_duration_ms a)
  /\ range_wf (sg_min_duration_ms a) (sg_max_duration_ms a) (sg_total_duration_ms a)
  /\ u64_ok (sg_total_errors a) /\ u64_ok (sg_total_crashes a).

Definition aggregate_wf (a : SessionAggregate) : Prop :=
  counters_wf a /\ calendar (sg_hour a) /\ sg_hour a mod hour_ns = 0 /\ calendar (sg_updated_at a).

(** ** They come back from their rows *)

Lemma opt_u64_i64 o : opt_u64 o -> wrap_u64 <$> (wrap_i64 <$> o) = o.
Proof. destruct o; cbn; [|done]. intros H. by rewrite wrap_u64_i64. Qed.

Lemma sess_time_text what t : calendar t -> sess_time what (to_rfc3339 t) = Ok t.
Proof. intros H. unfold sess_time. by rewrite rfc3339_roundtrip. Qed.

Lemma sess_time_opt what o : opt_calendar o -> transpose (sess_time what) (to_rfc3339 <$> o) = Ok o.
Proof. destruct o; cbn; [|done]. intros H. by rewrite sess_time_text. Qed.

Lemma sess_id_text what u : sess_id what (uuid_text u) = Ok u.
Proof. unfold sess_id. by rewrite uuid_roundtrip. Qed.

Lemma sql_bool_inv b : negb (sql_bool b =? 0) = b.
Proof. by destruct b. Qed.

Lemma session_reads s : session_wf s -> Session_try_from (session_row s) = Ok s.
Proof.
  intros ((He & Hc & Hd) & Hs & Hen & Hcr & Hup & _). unfold Session_try_from, session_row, sess_enum.
  cbn [sr_id sr_status sr_started_at sr_ended_at sr_platform sr_created_at sr_updated_at sr_org_id
    sr_project_id sr_person_id sr_distinct_id sr_release sr_environment sr_error_count sr_crash_count
    sr_crashed sr_duration_ms sr_user_agent sr_sampled sr_sample_rate].
  rewrite sess_id_text, SessionStatus_roundtrip, SessionPlatform_roundtrip, sess_time_opt by done.
  rewrite !sess_time_text by done. cbn [mbind result_bind ok_or].
  rewrite !wrap_u32_i32, opt_u64_i64, !sql_bool_inv by done. by destruct s.
Qed.

Lemma range_u64 lo hi sum : range_wf lo hi sum -> opt_u64 lo /\ opt_u64 hi.
Proof. destruct lo, hi; cbn; unfold u64_ok; try done. intros [? ?]. split; lia. Qed.

Lemma aggregate_reads a : aggregate_wf a -> SessionAggregate_try_from (aggregate_row a) = Ok a.
Proof.
  intros ((? & ? & ? & ? & ? & ? & ? & ? & ? & Hr & ? & ?) & Hh & _ & Hu).
  destruct (range_u64 _ _ _ Hr) as [Hlo Hhi]. unfold SessionAggregate_try_from, aggregate_row.
  cbn [gr_id gr_org_id gr_project_id gr_release gr_environment gr_hour gr_total_sessions
    gr_exited_sessions gr_crashed_sessions gr_abnormal_sessions gr_errored_sessions gr_unique_users
    gr_crashed_users gr_total_duration_ms gr_min_duration_ms gr_max_duration_ms gr_total_errors
    gr_total_crashes gr_updated_at].
  rewrite sess_id_text, !sess_time_text by done. cbn [mbind result_bind].
  rewrite !opt_u64_i64, !wrap_u64_i64 by (done || unfold u64_ok; lia). by destruct a.
Qed.

(** ** The aggregate of a group *)

Lemma users_size l : Z.of_nat (size (users_of l)) <= Z.of_nat (length l).
Proof.
  induction l as [|s l IH] using rev_ind; [done|]. rewrite users_of_snoc, length_app. cbn [length].
  assert (H := size_union_alt ({[user_of s]} : gset string) (users_of l)).
  rewrite size_singleton in H. assert (size (users_of l ∖ {[user_of s]}) <= size (users_of l))%nat.
  { apply subseteq_size. set_solver. }
  lia.
Qed.

Lemma users_crashed l : users_of (crashes_of l) ⊆ users_of l.
Proof.
  intros u. unfold users_of, crashes_of. rewrite !elem_of_list_to_set, !list_elem_of_fmap.
  intros (s & -> & [Hs _]%elem_of_select_where). by exists s.
Qed.

Lemma users_nonempty l : l <> [] -> (1 <= size (users_of l))%nat.
Proof.
  destruct l as [|s l]; [done|]. intros _. assert (size (users_of (s :: l)) <> 0%nat); [|lia].
  intros H%size_empty_inv. assert (user_of s ∈ users_of (s :: l)); [|set_solver].
  unfold users_of. rewrite elem_of_list_to_set. left.
Qed.

Lemma statuses_add_up l : Z.of_nat (length l) =
  counted (has_status SS_Exited) l + counted (has_status SS_Crashed) l
  + counted (fun s => counts_as_abnormal (ss_status s)) l + counted (has_status SS_Errored) l.
Proof.
  induction l as [|s l IH] using rev_ind; [done|]. rewrite !counted_snoc, length_app. cbn [length].
  assert (H : forall st, has_status st s = bool_decide (ss_status s = st)) by done. rewrite !H.
  destruct (ss_status s); cbn [counts_as_abnormal]; repeat case_bool_decide; try done; lia.
Qed.

Lemma range_of l : Forall session_widths l ->
  range_wf (min_of (durations l)) (max_of (durations l)) (wrap_u64 (total (durations l))).
Proof.
  intros Hl. destruct (durations l) as [|d ds] eqn:E; [done|]. unfold range_wf.
  cbn [min_of max_of]. assert (Hd : Forall u64_ok (d :: ds)).
  { rewrite <- E. apply Forall_forall. intros x (s & Hs & Ex)%list_elem_of_omap.
    destruct (proj1 (Forall_forall _ _) Hl s Hs) as (_ & _ & H). by rewrite Ex in H. }
  apply Forall_cons in Hd as [Hd Hds]. unfold u64_ok in *. clear E.
  induction Hds as [|x ds Hx _ IH]; cbn [foldr]; lia.
Qed.

Lemma aggregate_of_wf id hour now k l : l <> [] -> Forall session_widths l ->
  Z.of_nat (length l) < 2 ^ 31 -> calendar hour -> hour mod hour_ns = 0 -> calendar now ->
  aggregate_wf (aggregate_of id hour now k (tally_of l)).
Proof.
  intros Hne Hl Hn Hh Hm Hnow. split; [|done].
  assert (Hu := users_size l). assert (Hc := subseteq_size _ _ (users_crashed l)).
  assert (H1 := users_nonempty l Hne). assert (Hlen : (0 < length l)%nat) by (destruct l; [done|cbn; lia]).
  assert (Hs := statuses_add_up l). unfold counters_wf, aggregate_of, tally_of.
  cbn [sg_exited_sessions sg_crashed_sessions sg_abnormal_sessions sg_errored_sessions
    sg_total_sessions sg_unique_users sg_crashed_users sg_total_duration_ms sg_min_duration_ms
    sg_max_duration_ms sg_total_errors sg_total_crashes ta_total ta_exited ta_crashed ta_abnormal
    ta_errored ta_users ta_crashed_users ta_duration ta_min ta_max ta_errors ta_crashes].
  assert (He := total_widths ss_error_count l ltac:(eapply Forall_impl; [exact Hl|by intros ? (? & _)])).
  assert (Hr := total_widths ss_crash_count l ltac:(eapply Forall_impl; [exact Hl|by intros ? (_ & ? & _)])).
  split_and!; try apply counted_le; try done; try (unfold u64_ok; lia); try (by apply Z.mod_pos_bound).
  by apply range_of.
Qed.
End Values.

(** * The tables *)

Section Invariant.
Context `{SB : SessBackend}.

Definition uuid_column (s : string) : Prop := exists u, s = uuid_text u.

Definition projects_ok (t : CrashTables) : Prop :=
  NoDup (pr_id <$> t_projects t)
  /\ Forall (fun p => uuid_column (pr_id p) /\ uuid_column (pr_org_id p)) (t_projects t).

(** A project of an organization. *)
Definition owned (t : CrashTables) (project_id org_id : string) : Prop :=
  (exists p, p ∈ t_projects t /\ pr_id p = project_id /\ pr_org_id p = org_id)
  /\ org_id ∈ t_organizations t.

(** The unique key of an aggregate with a release. *)
Definition bucket (r : AggregateRow) : option (string * string * string * string) :=
  rel ← gr_release r; Some (gr_project_id r, rel, gr_environment r, gr_hour r).

Definition session_ok (r : SessionRow) : Prop := exists s, r = session_row s /\ session_wf s.
Definition aggregate_ok (r : AggregateRow) : Prop := exists a, r = aggregate_row a /\ aggregate_wf a.

Record sess_inv (t : SessTables) : Prop := {
  si_projects : projects_ok (st_crash t);
  si_session_ids : NoDup (sr_id <$> st_sessions t);
  si_sessions : Forall session_ok (st_sessions t);
  si_session_owners :
    Forall (fun r => owned (st_crash t) (sr_project_id r) (sr_org_id r)) (st_sessions t);
  si_aggregate_ids : NoDup (gr_id <$> st_aggregates t);
  si_aggregates : Forall aggregate_ok (st_aggregates t);
  si_aggregate_owners :
    Forall (fun r => owned (st_crash t) (gr_project_id r) (gr_org_id r)) (st_aggregates t);
  si_buckets : NoDup (omap bucket (st_aggregates t));
}.

Lemma owned_org t p o o' : projects_ok t -> owned t p o -> owned t p o' -> o = o'.
Proof.
  intros [Hn _] [(r & Hr & E1 & <-) _] [(r' & Hr' & E2 & <-) _].
  by rewrite (NoDup_key pr_id _ r r' Hn Hr Hr' ltac:(congruence)).
Qed.

(** ** New rows *)

Lemma sess_inv_insert t s : sess_inv t -> session_wf s ->
  (has_project (st_crash t) (ss_project_id s) = true ->
   exists p, p ∈ t_projects (st_crash t) /\ pr_id p = ss_project_id s /\ pr_org_id p = ss_org_id s) ->
  forall u t', insert_session (session_row s) t = Some (u, t') -> sess_inv t'.
Proof.
  intros [] Hs Ho u t' H. unfold insert_session in H.
  destruct (mem _ _) eqn:Hm; [|done]. destruct (has_project _ _) eqn:Hp; [|done].
  destruct (existsb _ _) eqn:Hex; [done|]. injection H as <- <-.
  split; cbn [put_sessions st_crash st_sessions st_aggregates]; try done.
  - apply NoDup_fmap_snoc; [done|]. intros r Hr E.
    assert (H := existsb_false _ _ r Hex Hr). unfold session_is in H. rewrite E, String.eqb_refl in H. done.
  - apply Forall_snoc; [done|]. by exists s.
  - apply Forall_snoc; [done|]. split; [by apply Ho|].
    apply existsb_true in Hm as (o & Hin & E%String.eqb_eq). by rewrite E.
Qed.

(** ** Updates *)

Lemma end_columns_ok now status errors crashes ended d r : calendar now -> calendar ended ->
  u32_ok errors -> u32_ok crashes -> u64_ok d -> session_ok r ->
  session_ok (progress_columns (sr_person_id r) status errors crashes (0 <? crashes) (Some ended) (Some d) now r).
Proof.
  intros Hnow Hended He Hc Hd (s & -> & (_ & Hst & _ & Hcr & _ & _ & _ & Hsm & Hsr)).
  exists (mkSession (ss_id s) (ss_org_id s) (ss_project_id s) (ss_person_id s) (ss_distinct_id s) status
    (ss_release s) (ss_environment s) errors crashes (0 <? crashes) (ss_started_at s) (Some ended) (Some d)
    (ss_platform s) (ss_user_agent s) (ss_sampled s) (ss_sample_rate s) (ss_created_at s) now).
  by split_and!.
Qed.

(** Rows that keep their key and owner. *)
Lemma sess_inv_sessions t l : sess_inv t -> NoDup (sr_id <$> l) -> Forall session_ok l ->
  Forall (fun r => owned (st_crash t) (sr_project_id r) (sr_org_id r)) l ->
  sess_inv (put_sessions l t).
Proof. intros [] Hn Hl Ho. by split. Qed.

Lemma sess_inv_update t p f : sess_inv t ->
  (forall r, session_ok r -> session_ok (f r) /\ sr_id (f r) = sr_id r
             /\ sr_project_id (f r) = sr_project_id r /\ sr_org_id (f r) = sr_org_id r) ->
  sess_inv (put_sessions (update_where p f (st_sessions t)) t).
Proof.
  intros Hinv Hf. assert (Hok := si_sessions _ Hinv). apply sess_inv_sessions; [done|..].
  - rewrite update_where_fmap; [apply Hinv|]. intros r Hr _.
    apply (Hf r), (proj1 (Forall_forall _ _) Hok r Hr).
  - apply Forall_forall. intros r (q & Hq & ->)%elem_of_update_where.
    assert (H := proj1 (Forall_forall _ _) Hok q Hq). destruct (p q); [|done]. by apply Hf.
  - apply Forall_forall. intros r (q & Hq & ->)%elem_of_update_where.
    assert (H := proj1 (Forall_forall _ _) Hok q Hq).
    assert (Ho := proj1 (Forall_forall _ _) (si_session_owners _ Hinv) q Hq).
    destruct (p q); [|done]. destruct (Hf q H) as (_ & _ & -> & ->). done.
Qed.

Lemma sess_inv_delete t p : sess_inv t -> sess_inv (put_sessions (delete_where p (st_sessions t)) t).
Proof.
  intros Hinv. apply sess_inv_sessions; [done|..].
  - by apply delete_where_NoDup, Hinv.
  - by apply delete_where_Forall, Hinv.
  - by apply delete_where_Forall, Hinv.
Qed.

(** ** Aggregates *)

Lemma same_bucket_spec r q : same_bucket r q = true <->
  exists b, bucket r = Some b /\ bucket q = Some b.
Proof.
  unfold same_bucket, bucket, opt_is. destruct (gr_release r) as [rel|]; cbn.
  - rewrite !andb_true_iff, !String.eqb_eq. destruct (gr_release q) as [rel'|]; cbn.
    + rewrite String.eqb_eq. split.
      * intros [[[-> ->] ->] ->]. by eexists.
      * intros (b & [= <-] & [= -> -> -> ->]). done.
    + split; [by intros [[[_ ?] _] _]|]. by intros (b & _ & ?).
  - rewrite andb_false_r. split; [done|]. by intros (b & ? & _).
Qed.

Lemma aggregate_columns_ok a q : counters_wf a -> calendar (sg_updated_at a) -> aggregate_ok q ->
  aggregate_ok (aggregate_columns (aggregate_row a) q).
Proof.
  intros Ha Hu (b & -> & (_ & Hh & Hm & _)).
  exists (mkSessionAggregate (sg_id b) (sg_org_id b) (sg_project_id b) (sg_release b) (sg_environment b)
    (sg_hour b) (sg_total_sessions a) (sg_exited_sessions a) (sg_crashed_sessions a)
    (sg_abnormal_sessions a) (sg_errored_sessions a) (sg_unique_users a) (sg_crashed_users a)
    (sg_total_duration_ms a) (sg_min_duration_ms a) (sg_max_duration_ms a) (sg_total_errors a)
    (sg_total_crashes a) (sg_updated_at a)).
  by split_and!.
Qed.

Lemma omap_fmap_eq {A B C} (g : A -> option C) (h : B -> option C) (l : list A) (k : list B) :
  g <$> l = h <$> k -> omap g l = omap h k.
Proof.
  revert k. induction l as [|a l IH]; intros [|b k] H; cbn in *; try done.
  injection H as E H. rewrite E. destruct (h b); [f_equal|]; by apply IH.
Qed.

Lemma sess_inv_upsert t a : sess_inv t -> aggregate_wf a ->
  owned (st_crash t) (sg_project_id a) (sg_org_id a) ->
  forall u t', upsert_row (aggregate_row a) t = Some (u, t') -> sess_inv t'.
Proof.
  intros [] Ha Ho u t' H. unfold upsert_row in H. set (r := aggregate_row a) in *.
  assert (Hwf : forall q, aggregate_ok q -> aggregate_ok (aggregate_columns r q)).
  { intros q. apply aggregate_columns_ok; apply Ha. }
  destruct (existsb (same_bucket r) _) eqn:Hex.
  - injection H as <- <-. split; cbn [put_aggregates st_crash st_sessions st_aggregates]; try done.
    + rewrite update_where_fmap; [done|]. done.
    + apply Forall_forall. intros x (q & Hq & ->)%elem_of_update_where.
      assert (Hq' := proj1 (Forall_forall _ _) si_aggregates0 q Hq). destruct (same_bucket r q); [|done].
      by apply Hwf.
    + apply Forall_forall. intros x (q & Hq & ->)%elem_of_update_where.
      assert (Hq' := proj1 (Forall_forall _ _) si_aggregate_owners0 q Hq). by destruct (same_bucket r q).
    + erewrite omap_fmap_eq; [exact si_buckets0|]. by rewrite update_where_fmap.
  - destruct (mem _ _); [|done]. destruct (has_project _ _); [|done].
    destruct (existsb (fun q => String.eqb (gr_id q) (gr_id r)) _) eqn:Hid; [done|]. injection H as <- <-.
    split; cbn [put_aggregates st_crash st_sessions st_aggregates]; try done.
    + apply NoDup_fmap_snoc; [done|]. intros q Hq E. assert (H := existsb_false _ _ q Hid Hq).
      cbn in H. by rewrite E, String.eqb_refl in H.
    + apply Forall_snoc; [done|]. by exists a.
    + by apply Forall_snoc.
    + rewrite omap_app. change (omap bucket [r]) with (match bucket r with Some b => [b] | None => [] end).
      destruct (bucket r) as [b|] eqn:Eb; [|by rewrite app_nil_r].
      apply NoDup_app. split_and!; [done| |apply NoDup_singleton].
      intros x (q & Hq & Ex)%list_elem_of_omap ->%list_elem_of_singleton.
      assert (H := existsb_false _ _ q Hex Hq). apply not_true_iff_false in H. apply H, same_bucket_spec.
      by exists b.
Qed.
End Invariant.
