(* ===== verification/SessServer.v ===== *)
(** The server of app sessions as a transition system: requests of users and of clients
    with a key, the two jobs, failures of statements and the changes that the other
    components make to projects.  Every reachable state satisfies the invariant. *)
From stdpp Require Import base gmap list strings relations.
From Stdlib Require Import ZArith Lia.
From S2P Require Import Prelude Text FlagCore CoreTypes Effects Sql Columns CrashModel CrashRepo CrashCapture CrashInvariant CrashRequests.
From S2P Require Import JobModel JobStore SessModel SessRepo SessRoutes SessInvariant.
Local Open Scope Z_scope.

(** [Utc::now] is not before 1970, and the model ends in 2262 with the nanoseconds of an
    [i64]. *)
Definition clock_ok (t : Z) : Prop := 0 <= t < 2 ^ 63.
Definition clocks_ok (env : Env) : Prop := forall k, clock_ok (env_now env k).

Lemma clock_calendar t : clock_ok t -> calendar t.
Proof. unfold clock_ok, calendar. lia. Qed.

Lemma hour_of_clock t : clock_ok t -> hour_of t = t - t mod hour_ns.
Proof.
  unfold clock_ok, hour_of, wrap_i64. intros H. rewrite Z.mod_small by lia.
  by rewrite (proj2 (Z.eqb_eq (t + 2 ^ 63 - 2 ^ 63) t)) by lia.
Qed.

Lemma hour_of_mod t : clock_ok t -> (hour_of t - hour_ns) mod hour_ns = 0.
Proof.
  intros H. rewrite hour_of_clock by done.
  replace (t - t mod hour_ns - hour_ns) with ((t / hour_ns - 1) * hour_ns); [by apply Z.mod_mul|].
  assert (E := Z.div_mod t hour_ns ltac:(done)). lia.
Qed.

Lemma hour_of_calendar t : clock_ok t -> calendar (hour_of t) /\ calendar (hour_of t - hour_ns).
Proof.
  intros H. rewrite hour_of_clock by done.
  assert (Hm := Z.mod_pos_bound t hour_ns ltac:(done)). unfold clock_ok, calendar, hour_ns in *. lia.
Qed.

Lemma hour_of_utc t : clock_ok t -> (hour_of t - hour_ns <? min_utc) = false.
Proof.
  intros H. rewrite hour_of_clock by done. assert (Hm := Z.mod_pos_bound t hour_ns ltac:(done)).
  apply Z.ltb_ge. unfold clock_ok, min_utc, hour_ns in *. lia.
Qed.

(** * Steps *)

Inductive SessRequest :=
| SQ_Start (env : Env) (body : SessionStartRequest)
| SQ_End (env : Env) (body : SessionEndRequest)
| SQ_List (project_id : string) (limit offset : Z)
| SQ_Releases (env : Env) (project_id environment : string) (days : Z)
| SQ_Release (env : Env) (version project_id environment : string) (days : Z).

(** The widths of the fields of a request, and its clock. *)
Definition end_request_ok (body : SessionEndRequest) : Prop :=
  u32_ok (sf_error_count body) /\ u32_ok (sf_crash_count body) /\ u64_ok (sf_duration_ms body).

Definition sess_request_ok (r : SessRequest) : Prop :=
  match r with
  | SQ_Start env _ => clocks_ok env
  | SQ_End env body => clocks_ok env /\ end_request_ok body
  | _ => True
  end.

Section Server.
Context `{SB : SessBackend}.

(** The routes of a user, with their answers dropped. *)
Definition serve_sess (user_id : Uuid) (r : SessRequest) : SessM HttpError unit :=
  match r with
  | SQ_Start env body => let* _ := start_session env user_id body in ret tt
  | SQ_End env body => let* _ := end_session env user_id body in ret tt
  | SQ_List p limit offset => let* _ := list_sessions user_id p limit offset in ret tt
  | SQ_Releases env p e days => let* _ := list_release_health env user_id p e days in ret tt
  | SQ_Release env v p e days => let* _ := get_release_health env user_id v p e days in ret tt
  end.

(** A spawned task runs. *)
Definition run_sess_task (now : Z) (w : SessWorld) : SessWorld :=
  match sx_tasks w with
  | [] => w
  | t :: ts =>
      let c := crash_conn (sx_conn w) in
      let c' := match t with
                | Task_KeyUsed id => (repo_update_api_key_last_used now id c).2
                | Task_ArtifactAccessed id => (repo_update_artifact_last_accessed now id c).2
                end in
      mkSessWorld (put_crash_conn c' (sx_conn w)) ts
  end.

(** [ON DELETE CASCADE] of the projects and organizations. *)
Definition orphan (C : CrashTables) (project_id org_id : string) : bool :=
  negb (has_project C project_id && mem org_id (t_organizations C)).
Definition sess_cascade (C : CrashTables) (t : SessTables) : SessTables :=
  mkSessTables C
    (delete_where (fun r => orphan C (sr_project_id r) (sr_org_id r)) (st_sessions t))
    (delete_where (fun r => orphan C (gr_project_id r) (gr_org_id r)) (st_aggregates t)).

(** What the other components promise: a project stays in its organization. *)
Definition projects_follow (C C' : CrashTables) : Prop :=
  projects_ok C -> projects_ok C' /\ forall p p', p ∈ t_projects C -> p' ∈ t_projects C' ->
    pr_id p = pr_id p' -> pr_org_id p = pr_org_id p'.

Definition tables_in (w : SessWorld) : SessTables := cn_tables (sx_conn w).
Definition on_sess (P : SessTables -> Prop) (w : SessWorld) : Prop := P (tables_in w).

Inductive sess_step : SessWorld -> SessWorld -> Prop :=
| S_User u r w : sess_request_ok r -> sess_step w (serve_sess u r w).2
| S_StartSdk env key body w : clocks_ok env ->
    sess_step w (start_session_with_api_key env key body w).2
| S_EndSdk env key body w : clocks_ok env -> end_request_ok body ->
    sess_step w (end_session_with_api_key env key body w).2
| S_Task now w : sess_step w (run_sess_task now w)
| S_Aggregate env cancelled w : clocks_ok env ->
    Z.of_nat (length (st_sessions (tables_in w))) < 2 ^ 31 ->
    sess_step w (session_aggregation env cancelled w).2
| S_Cleanup days env cancelled w : sess_step w (app_session_cleanup days env cancelled w).2
| S_Crash C w : projects_follow (st_crash (tables_in w)) C ->
    sess_step w (put_sess_conn (mkConn (sess_cascade C (tables_in w)) (cn_faults (sx_conn w))) w)
| S_Database faults w : sess_step w (put_sess_conn (mkConn (tables_in w) faults) w).

(** * Statements *)

Section Keeps.
Context (P : SessTables -> Prop).

Lemma keeps_srepo {E A} (f : SessionsServerError -> E) (m : SessOp A) :
  keeps (fun c => P (cn_tables c)) m -> keeps (on_sess P) (srepo f m).
Proof. intros H. apply keeps_map_err. intros w Hw. specialize (H (sx_conn w) Hw). unfold on_part. by destruct (m _). Qed.

Lemma keeps_try_srepo {E A} (m : SessOp A) :
  keeps (fun c => P (cn_tables c)) m -> keeps (on_sess P) (try_srepo (E := E) m).
Proof. intros H. apply keeps_attempt. intros w Hw. specialize (H (sx_conn w) Hw). unfold on_part. by destruct (m _). Qed.

Lemma keeps_sess_sql {A} (f : SessTables -> option (A * SessTables)) :
  (forall t a t', f t = Some (a, t') -> P t -> P t') -> keeps (fun c => P (cn_tables c)) (sql SE_Database f).
Proof.
  intros H c Hc. apply (wp_sql SE_Database f (fun _ c' => P (cn_tables c')) c).
  - by intros _ c' -> _.
  - intros a c' Hf _. by eapply H.
Qed.

Lemma keeps_sess_query {A} (f : SessTables -> A) : keeps (fun c => P (cn_tables c)) (sess_query f).
Proof. apply keeps_sess_sql. by intros t a t' [= _ <-]. Qed.

Lemma keeps_sess_fetch_all {R A} (g : R -> result SessionsServerError A) f :
  keeps (fun c => P (cn_tables c)) (sess_fetch_all g f).
Proof. apply keeps_bind; [apply keeps_sess_query|]. intros rows. apply keeps_of_result. Qed.

(** Calls of the repository of crash reports that only read. *)
Lemma keeps_prepo {E A} (f : CrashServerError -> E) (m : RepoOp A) :
  (forall C, op_keeps (fun C' => C' = C) m) -> keeps (on_sess P) (prepo f m).
Proof.
  intros H. apply keeps_map_err. intros [[t fs] ts] Hw. unfold on_part. cbn [sx_conn].
  specialize (H (st_crash t) (crash_conn (mkConn t fs)) eq_refl).
  destruct (m _) as [r c]. cbn in H. unfold on_sess, tables_in in *. cbn in *. rewrite H. by destruct t.
Qed.

Lemma keeps_sess_of_run {E A} (r : run A) : keeps (on_sess P) (sess_of_run (E := E) r).
Proof. destruct r; [apply keeps_ret|apply keeps_raise]. Qed.

Lemma keeps_sess_parse {E} (e : E) s : keeps (on_sess P) (sess_parse e s).
Proof. unfold sess_parse. destruct (uuid_parse s); [apply keeps_ret|apply keeps_raise]. Qed.

Lemma keeps_sess_spawn {E} t : keeps (on_sess P) (sess_spawn (E := E) t).
Proof. by intros w. Qed.
End Keeps.
End Server.

(** * Requests *)

#[export] Hint Resolve op_keeps_fetch_optional op_keeps_fetch_all op_keeps_query : keeps.

(** Splits a handler that only reads. *)
Ltac sess_reads := repeat first
  [ apply keeps_bind; [|intros ?] | apply keeps_ret | apply keeps_raise
  | apply keeps_sess_of_run | apply keeps_sess_parse | apply keeps_sess_spawn
  | apply keeps_srepo, keeps_sess_fetch_all | apply keeps_try_srepo, keeps_sess_fetch_all
  | apply keeps_srepo, keeps_sess_query
  | apply keeps_prepo; intros ?; solve [eauto with keeps nocore]
  | case_match ].

Section Requests.
Context `{SB : SessBackend}.

Section Reads.
Context (P : SessTables -> Prop).

Lemma keeps_sess_get_project m id : keeps (on_sess P) (sess_get_project m id).
Proof. unfold sess_get_project. sess_reads. Qed.

Lemma keeps_sess_membership o u : keeps (on_sess P) (sess_verify_org_membership o u).
Proof. unfold sess_verify_org_membership. sess_reads. Qed.

Lemma keeps_sess_authorized m p u : keeps (on_sess P) (sess_authorized m p u).
Proof.
  unfold sess_authorized, sess_parse_project. apply keeps_bind; [apply keeps_sess_parse|]. intros id.
  apply keeps_bind; [apply keeps_sess_get_project|]. intros project.
  apply keeps_bind; [apply keeps_sess_membership|]. intros _. apply keeps_ret.
Qed.

Lemma keeps_sess_key project_id raw : keeps (on_sess P) (sess_verify_project_api_key project_id raw).
Proof. unfold sess_verify_project_api_key. sess_reads. Qed.

Lemma keeps_key_authorized key p : keeps (on_sess P) (sess_key_authorized key p).
Proof.
  unfold sess_key_authorized, sess_parse_project. destruct key as [raw|]; [|apply keeps_raise].
  apply keeps_bind; [apply keeps_sess_parse|]. intros id.
  apply keeps_bind; [apply keeps_sess_get_project|]. intros project.
  apply keeps_bind; [apply keeps_sess_key|]. intros k. destruct (_ && _); [apply keeps_raise|apply keeps_ret].
Qed.

Lemma keeps_total_sessions p e start stop :
  keeps (fun c => P (cn_tables c)) (sess_get_total_sessions_in_range p e start stop).
Proof.
  apply keeps_bind; [|intros n; apply keeps_ret]. apply keeps_sess_sql. intros t a t' H.
  destruct (sql_sum _ _); [|done]. by injection H as _ <-.
Qed.

Lemma keeps_health env k p r e l n : keeps (on_sess P) (calculate_health env k p r e l n).
Proof. unfold calculate_health. sess_reads. Qed.

Lemma keeps_list_sessions u p limit offset : keeps (on_sess P) (list_sessions u p limit offset).
Proof.
  apply keeps_bind; [apply keeps_sess_authorized|]. intros project. unfold sess_list_sessions. sess_reads.
Qed.

Lemma keeps_releases_health env p e start stop total i rs :
  keeps (on_sess P) (releases_health env p e start stop total i rs).
Proof.
  revert i. induction rs as [|r rs IH]; intros i; cbn [releases_health]; [apply keeps_ret|].
  apply keeps_bind; [apply keeps_try_srepo, keeps_sess_fetch_all|]. intros x.
  apply keeps_bind.
  { destruct x; [|apply keeps_ret]. apply keeps_bind; [apply keeps_health|]. intros h. apply keeps_ret. }
  intros h. apply keeps_bind; [apply IH|]. intros l. apply keeps_ret.
Qed.

Lemma keeps_list_release_health env u p e days : keeps (on_sess P) (list_release_health env u p e days).
Proof.
  apply keeps_bind; [apply keeps_sess_authorized|]. intros project.
  apply keeps_bind; [apply keeps_sess_of_run|]. intros start.
  apply keeps_bind; [apply keeps_srepo, keeps_sess_query|]. intros rs.
  apply keeps_bind; [apply keeps_srepo, keeps_total_sessions|]. intros n. apply keeps_releases_health.
Qed.

Lemma keeps_get_release_health env u v p e days : keeps (on_sess P) (get_release_health env u v p e days).
Proof.
  apply keeps_bind; [apply keeps_sess_authorized|]. intros project.
  apply keeps_bind; [apply keeps_sess_of_run|]. intros start.
  apply keeps_bind; [apply keeps_srepo, keeps_sess_fetch_all|]. intros [|a l]; [apply keeps_raise|].
  apply keeps_bind; [apply keeps_srepo, keeps_total_sessions|]. intros n. apply keeps_health.
Qed.
End Reads.

(** ** Start *)

(** The project that was read. *)
Definition known (id : Uuid) (project : CrashProject) (t : SessTables) : Prop :=
  exists r, r ∈ t_projects (st_crash t) /\ pr_id r = uuid_text id
            /\ pr_org_id r = uuid_text (pj_org_id project).

Lemma wp_prepo {E A} (f : CrashServerError -> E) (m : RepoOp A)
    (Q : result (Failure E) A -> SessWorld -> Prop) w :
  wp m (fun r c => Q (match r with Ok a => Ok a | Err e => Err (Failed (f e)) end)
                     (put_sess_conn (put_crash_conn c (sx_conn w)) w)) (crash_conn (sx_conn w)) ->
  wp (prepo f m) Q w.
Proof. intros H. by apply stm_map_err, stm_on_part, stm_on_part. Qed.

(** The tables after a statement that did not change those of crash reports. *)
Lemma same_tables c' w : cn_tables c' = st_crash (tables_in w) ->
  tables_in (put_sess_conn (put_crash_conn c' (sx_conn w)) w) = tables_in w.
Proof. unfold tables_in. cbn. intros ->. by destruct (cn_tables (sx_conn w)). Qed.

Lemma leads_get_project m id : leads (on_sess sess_inv) (sess_get_project m id)
  (fun project => on_sess (fun t => sess_inv t /\ known id project t)).
Proof.
  intros w Hw. apply stm_bind, wp_prepo, wp_fetch_optional.
  - intros e c' Ht. unfold on_sess. by rewrite same_tables.
  - intros o c' Ht Hf. unfold row_found in Hf.
    destruct (select_one _ _) as [r|] eqn:Hr in Hf.
    + destruct Hf as (p & Hp & ->). apply select_one_Some in Hr as [Hr Hid%String.eqb_eq].
      apply stm_of_result with (r := Ok p). unfold on_sess. rewrite same_tables by done. split; [done|].
      exists r. split_and!; [done|done|]. destruct (si_projects _ Hw) as [_ Hok].
      destruct (proj1 (Forall_forall _ _) Hok r Hr) as [_ [v Ev]].
      unfold CrashProject_try_from in Hp. repeat (apply bind_Ok in Hp as (? & ? & Hp)).
      injection Hp as <-. cbn. rewrite Ev in *. f_equal. symmetry. by apply read_uuid_canonical.
    + subst o. apply stm_of_result with (r := Err _). unfold on_sess. by rewrite same_tables.
Qed.

(** A project under the text of a request. *)
Definition accepts (text : string) (project : CrashProject) (t : SessTables) : Prop :=
  sess_inv t /\ exists id, uuid_parse text = Ok id /\ known id project t.

Lemma leads_authorized m p u :
  leads (on_sess sess_inv) (sess_authorized m p u) (fun project => on_sess (accepts p project)).
Proof.
  unfold sess_authorized, sess_parse_project, sess_parse.
  destruct (uuid_parse p) as [id|] eqn:Hid; [|by intros w].
  intros w Hw. apply stm_bind_ret. revert w Hw. change (leads (on_sess sess_inv)
    (let* project := sess_get_project m id in
     let* _ := sess_verify_org_membership (pj_org_id project) u in ret project)
    (fun project => on_sess (accepts p project))).
  eapply leads_bind; [apply leads_get_project|by intros project w [? _]|]. intros project.
  eapply leads_bind; [apply leads_keeps, keeps_sess_membership|by intros ? w H|]. intros ?.
  apply leads_ret. intros w [Hi Hk]. split; [done|]. by exists id.
Qed.

Lemma leads_key_authorized key p :
  leads (on_sess sess_inv) (sess_key_authorized key p) (fun project => on_sess (accepts p project)).
Proof.
  unfold sess_key_authorized, sess_parse_project, sess_parse. destruct key as [raw|]; [|by intros w].
  destruct (uuid_parse p) as [id|] eqn:Hid; [|by intros w].
  intros w Hw. apply stm_bind_ret. revert w Hw. change (leads (on_sess sess_inv)
    (let* project := sess_get_project "Internal server error" id in
     let* key := sess_verify_project_api_key id raw in
     if negb (bool_decide (ak_key_type key = CK_Capture)) && negb (bool_decide (ak_key_type key = CK_Admin))
     then raise (Failed (http 403 "forbidden" "API key does not have session tracking permission"))
     else ret project)
    (fun project => on_sess (accepts p project))).
  eapply leads_bind; [apply leads_get_project|by intros project w [? _]|]. intros project.
  eapply leads_bind; [apply leads_keeps, keeps_sess_key|by intros ? w H|]. intros k.
  destruct (_ && _); [apply leads_raise|]. apply leads_ret. intros w [Hi Hk]. split; [done|]. by exists id.
Qed.

Lemma new_session_wf id now org body : clock_ok now ->
  should_sample (uuid_text id) (sq_sample_rate body) = true ->
  session_wf (new_session id now org true body).
Proof. intros H%clock_calendar Hs. by split_and!. Qed.

(** The session is stored with the organization of its project. *)
Lemma accepted_owner t project id now body : accepts (sq_project_id body) project t ->
  has_project (st_crash t) (sq_project_id body) = true ->
  exists p, p ∈ t_projects (st_crash t) /\ pr_id p = ss_project_id (new_session id now (pj_org_id project) true body)
            /\ pr_org_id p = ss_org_id (new_session id now (pj_org_id project) true body).
Proof.
  intros [Hi (u & Hu & r & Hr & Er & Eo)] (p & Hp & Ep%String.eqb_eq)%existsb_true.
  destruct (si_projects _ Hi) as [_ Hok].
  destruct (proj1 (Forall_forall _ _) Hok p Hp) as [[v Ev] _].
  rewrite <- Ep, Ev, uuid_roundtrip in Hu. injection Hu as ->.
  exists r. split_and!; [done| |done]. cbn. congruence.
Qed.

Lemma keeps_open_session env project body : clocks_ok env ->
  moves (on_sess (accepts (sq_project_id body) project)) (on_sess sess_inv) (open_session env project body).
Proof.
  intros Hc. unfold open_session.
  destruct (should_sample _ _) eqn:Hs; [|by intros w [? _]].
  apply moves_bind; [|intros _; apply keeps_ret]. intros w Hw.
  apply (stm_map_err _ _ (fun _ => on_sess sess_inv)), stm_on_part, wp_sql.
  - intros e c' Ht _. unfold on_sess, tables_in. cbn. rewrite Ht. apply Hw.
  - intros a c' Ht _. unfold on_sess, tables_in. cbn.
    eapply sess_inv_insert; [apply Hw|by apply new_session_wf| |exact Ht].
    intros Hp. by apply accepted_owner.
Qed.

Lemma keeps_start env u body : clocks_ok env -> keeps (on_sess sess_inv) (start_session env u body).
Proof. intros Hc. eapply keeps_via; [apply leads_authorized|]. intros project. by apply keeps_open_session. Qed.

Lemma keeps_start_sdk env key body : clocks_ok env ->
  keeps (on_sess sess_inv) (start_session_with_api_key env key body).
Proof. intros Hc. eapply keeps_via; [apply leads_key_authorized|]. intros project. by apply keeps_open_session. Qed.

(** ** End *)

Lemma keeps_close env body : clocks_ok env -> end_request_ok body ->
  keeps (on_sess sess_inv) (close_session env body).
Proof.
  intros Hc (He & Hcr & Hd). unfold close_session. apply keeps_bind; [apply keeps_sess_parse|]. intros id.
  destruct (SessionStatus_from_str _) as [status|]; [|apply keeps_raise].
  apply keeps_bind; [|intros _; apply keeps_ret]. apply keeps_srepo, keeps_sess_sql.
  intros t a t' [= _ <-] Hi. apply sess_inv_update; [done|]. intros r Hr. split; [|done].
  apply end_columns_ok; try done; by apply clock_calendar.
Qed.

Lemma keeps_end env u body : clocks_ok env -> end_request_ok body ->
  keeps (on_sess sess_inv) (end_session env u body).
Proof.
  intros Hc Hb. apply keeps_bind; [apply keeps_sess_authorized|]. intros project. by apply keeps_close.
Qed.

Lemma keeps_end_sdk env key body : clocks_ok env -> end_request_ok body ->
  keeps (on_sess sess_inv) (end_session_with_api_key env key body).
Proof.
  intros Hc Hb. apply keeps_bind; [apply keeps_key_authorized|]. intros project. by apply keeps_close.
Qed.

(** * Jobs *)

Lemma keeps_cleanup days env cancelled : keeps (on_sess sess_inv) (app_session_cleanup days env cancelled).
Proof.
  unfold app_session_cleanup. destruct (cancelled _); [apply keeps_raise|].
  apply keeps_bind; [apply keeps_sess_of_run|]. intros cutoff.
  apply keeps_bind; [|intros n; apply keeps_ret]. apply keeps_srepo, keeps_sess_sql.
  intros t a t' [= _ <-]. apply sess_inv_delete.
Qed.

(** Rows of well-formed sessions are read back. *)
Lemma rows_read rows : Forall session_ok rows -> exists l, collect Session_try_from rows = Ok l
  /\ session_row <$> l = rows /\ Forall session_wf l.
Proof.
  induction 1 as [|r rows (s & -> & Hs) _ (l & E & <- & Hl)]; [by exists []|].
  exists (s :: l). cbn [collect]. rewrite session_reads by done. cbn [mbind result_bind]. rewrite E.
  by split_and!; [..|constructor].
Qed.

Lemma session_ok_select p t : sess_inv t ->
  Forall session_ok (scan_order (select_where p (st_sessions t))).
Proof.
  intros Hi. rewrite scan_order_perm. apply Forall_forall. intros r [Hr _]%elem_of_select_where.
  exact (proj1 (Forall_forall _ _) (si_sessions _ Hi) r Hr).
Qed.

Lemma keeps_done {E A B} (P : SessWorld -> Prop) (a : A) (f : A -> SessM E B) :
  keeps P (f a) -> keeps P (bind (sess_of_run (Done a)) f).
Proof. done. Qed.

Lemma stm_done {E A B} (a : A) (f : A -> SessM E B) (Q : result (Failure E) B -> SessWorld -> Prop) w :
  wp (f a) Q w -> wp (bind (sess_of_run (Done a)) f) Q w.
Proof. done. Qed.

(** A group that may be stored: sessions of the tables with the group's key. *)
Definition group_ok (t : SessTables) (kg : AggregateKey * list Session) : Prop :=
  kg.2 <> [] /\ Forall session_wf kg.2 /\ Z.of_nat (length kg.2) < 2 ^ 31
  /\ owned (st_crash t) (gk_project_id kg.1) (gk_org_id kg.1).

Lemma groups_ok t p l : sess_inv t -> Z.of_nat (length (st_sessions t)) < 2 ^ 31 ->
  Forall session_wf l -> session_row <$> l ≡ₚ select_where p (st_sessions t) ->
  Forall (group_ok t) (hash_order (group_sessions l)).
Proof.
  intros Hi Hn Hl Hp. rewrite hash_order_perm. apply Forall_forall. intros [k g] Hg.
  apply elem_group_sessions in Hg as [-> Hne]. unfold group_ok. cbn [fst snd].
  assert (Hsub : forall s, s ∈ select_where (of_key k) l -> s ∈ l /\ key_of s = k).
  { intros s [Hs E%bool_decide_eq_true]%elem_of_select_where. done. }
  split_and!; [done|..].
  - apply Forall_forall. intros s [Hs _]%Hsub. exact (proj1 (Forall_forall _ _) Hl s Hs).
  - assert (H1 := List.filter_length_le (of_key k) l).
    assert (H2 := List.filter_length_le p (st_sessions t)).
    assert (H3 := Permutation_length Hp). rewrite length_fmap in H3. unfold select_where in *. lia.
  - destruct (select_where (of_key k) l) as [|s g] eqn:E; [done|].
    destruct (Hsub s ltac:(left)) as [Hs Ek]. assert (Hr : session_row s ∈ st_sessions t).
    { assert (Hm : session_row s ∈ session_row <$> l) by (apply list_elem_of_fmap; by exists s).
      rewrite Hp in Hm. by apply elem_of_select_where in Hm as [? _]. }
    assert (Ho := proj1 (Forall_forall _ _) (si_session_owners _ Hi) _ Hr). by subst k.
Qed.

Lemma group_ok_crash t t' kg : st_crash t' = st_crash t -> group_ok t kg -> group_ok t' kg.
Proof. unfold group_ok. by intros ->. Qed.

Lemma upsert_crash r t u t' : upsert_row r t = Some (u, t') ->
  st_crash t' = st_crash t /\ st_sessions t' = st_sessions t.
Proof. unfold upsert_row. repeat case_match; by intros [= _ <-]. Qed.

Lemma group_upsert_inv t k l id hour now u t' : calendar hour -> hour mod hour_ns = 0 -> calendar now ->
  sess_inv t -> group_ok t (k, l) ->
  upsert_row (aggregate_row (aggregate_of id hour now k (tally_of l))) t = Some (u, t') -> sess_inv t'.
Proof.
  intros Hh Hm Hnow Hi (Hne & Hwf & Hn & Ho) Hu.
  refine (sess_inv_upsert t (aggregate_of id hour now k (tally_of l)) Hi _ Ho _ _ Hu).
  apply aggregate_of_wf; try done. eapply Forall_impl; [exact Hwf|]. by intros s [].
Qed.

Lemma keeps_upsert_groups env cancelled hour now i groups n (C : CrashTables) :
  calendar hour -> hour mod hour_ns = 0 -> calendar now ->
  (forall t, st_crash t = C -> Forall (group_ok t) groups) ->
  keeps (on_sess (fun t => sess_inv t /\ st_crash t = C)) (upsert_groups env cancelled hour now i groups n).
Proof.
  intros Hh Hm Hnow. revert i n. induction groups as [|[k l] groups IH]; intros i n Hg;
    cbn [upsert_groups]; [apply keeps_ret|].
  destruct (cancelled _); [apply keeps_raise|].
  assert (Hg' : forall t, st_crash t = C -> Forall (group_ok t) groups).
  { intros t Ht. by apply Hg, Forall_cons in Ht as [_ ?]. }
  destruct (tally_group overflow_checks new_tally l) as [ta|] eqn:Et; [|by intros w].
  apply keeps_done. apply keeps_bind.
  - apply keeps_try_srepo, (keeps_sess_sql (fun t => sess_inv t /\ st_crash t = C)).
    intros t a t' Hu [Hi HC]. destruct (upsert_crash _ _ _ _ Hu) as [E _].
    split; [|congruence]. specialize (Hg t HC). apply Forall_cons in Hg as [(Hne & Hwf & Hn & Ho) _].
    apply tally_group_of in Et as ->; [|by eapply Forall_impl; [exact Hwf|intros s []]|done].
    by apply (group_upsert_inv t k l (env_uuid env i) hour now a t').
  - intros r. apply keeps_bind; [destruct r; [apply keeps_sess_of_run|apply keeps_ret]|]. intros m. by apply IH.
Qed.

Lemma wp_aggregation env cancelled w : clocks_ok env ->
  Z.of_nat (length (st_sessions (tables_in w))) < 2 ^ 31 ->
  on_sess sess_inv w -> wp (session_aggregation env cancelled) (fun _ => on_sess sess_inv) w.
Proof.
  intros Hc Hn Hw. unfold session_aggregation. destruct (cancelled _); [done|].
  rewrite hour_of_utc by apply Hc.
  apply stm_done, stm_bind, stm_map_err, stm_on_part, stm_bind, wp_sql_read.
  - intros e c' Ht _. unfold on_sess, tables_in. cbn. by rewrite Ht.
  - intros c' Ht _. apply stm_of_result.
    destruct (rows_read _ (session_ok_select (started_in (hour_of (env_now env 0) - hour_ns)
      (hour_of (env_now env 0))) _ Hw)) as (l & El & Er & Hl).
    unfold tables_in in El. rewrite El. cbn [length].
    assert (Hw' : on_sess sess_inv (put_sess_conn c' w)) by (unfold on_sess, tables_in in *; cbn; by rewrite Ht).
    destruct (length l =? 0)%nat; [done|]. destruct (cancelled 1%nat); [done|].
    assert (HC : st_crash (tables_in (put_sess_conn c' w)) = st_crash (tables_in w)).
    { unfold tables_in. cbn. by rewrite Ht. }
    assert (Hp : session_row <$> l ≡ₚ select_where (started_in (hour_of (env_now env 0) - hour_ns)
      (hour_of (env_now env 0))) (st_sessions (tables_in w))) by (rewrite Er; apply scan_order_perm).
    assert (Hg := groups_ok (tables_in w) _ l Hw Hn Hl Hp).
    apply stm_bind. apply (stm_mono _ (fun _ => on_sess (fun t => sess_inv t /\ st_crash t = st_crash (tables_in w)))).
    + apply keeps_upsert_groups; [..|done].
      * apply hour_of_calendar, Hc.
      * apply hour_of_mod, Hc.
      * apply clock_calendar, Hc.
      * intros t Ht'. eapply Forall_impl; [exact Hg|]. intros kg. by apply group_ok_crash.
    + intros [n|e] w'; by intros [? _].
Qed.

(** * All steps *)

Lemma omap_delete_NoDup {R K} (g : R -> option K) p (l : list R) :
  NoDup (omap g l) -> NoDup (omap g (delete_where p l)).
Proof.
  unfold delete_where. induction l as [|r l IH]; [done|]. cbn.
  destruct (g r) as [k|] eqn:E.
  - intros [Hk Hl]%NoDup_cons. destruct (p r); cbn; [by apply IH|]. rewrite E. apply NoDup_cons.
    split; [|by apply IH]. intros (x & Hx & Ex)%list_elem_of_omap. apply Hk, list_elem_of_omap.
    exists x. split; [|done]. rewrite list_elem_of_In, List.filter_In in Hx. rewrite list_elem_of_In. apply Hx.
  - intros Hl. destruct (p r); cbn; [by apply IH|]. rewrite E. by apply IH.
Qed.

Lemma keeps_crash_change C w : projects_follow (st_crash (tables_in w)) C -> on_sess sess_inv w ->
  sess_inv (sess_cascade C (tables_in w)).
Proof.
  intros Hf Hi. destruct (Hf (si_projects _ Hi)) as [HC Ho].
  assert (Hown : forall p o, owned (st_crash (tables_in w)) p o -> orphan C p o = false -> owned C p o).
  { intros p o [(r & Hr & <- & <-) _] H. unfold orphan in H. apply negb_false_iff, andb_true_iff in H as [Hp Hm].
    apply existsb_true in Hp as (r' & Hr' & E%String.eqb_eq).
    apply existsb_true in Hm as (o & Hom & Eo%String.eqb_eq). split; [|by rewrite Eo].
    exists r'. split_and!; [done..|]. symmetry. by apply Ho. }
  destruct Hi as [H1 H2 H3 H4 H5 H6 H7 H8]. split; cbn [sess_cascade st_crash st_sessions st_aggregates]; try done.
  - by apply delete_where_NoDup.
  - by apply delete_where_Forall.
  - apply Forall_forall. intros r [Hr E]%elem_of_delete_where. apply Hown; [|done].
    exact (proj1 (Forall_forall _ _) H4 r Hr).
  - by apply delete_where_NoDup.
  - by apply delete_where_Forall.
  - apply Forall_forall. intros r [Hr E]%elem_of_delete_where. apply Hown; [|done].
    exact (proj1 (Forall_forall _ _) H7 r Hr).
  - by apply omap_delete_NoDup.
Qed.

Lemma task_crash now w :
  t_projects (st_crash (tables_in (run_sess_task now w))) = t_projects (st_crash (tables_in w))
  /\ t_organizations (st_crash (tables_in (run_sess_task now w))) = t_organizations (st_crash (tables_in w))
  /\ st_sessions (tables_in (run_sess_task now w)) = st_sessions (tables_in w)
  /\ st_aggregates (tables_in (run_sess_task now w)) = st_aggregates (tables_in w).
Proof.
  destruct w as [[t fs] [|[k|a] ts]]; [done|..]; unfold run_sess_task, tables_in; cbn;
    destruct fs as [|[] fs]; done.
Qed.

Lemma sess_inv_task now w : on_sess sess_inv w -> on_sess sess_inv (run_sess_task now w).
Proof.
  intros Hi. destruct (task_crash now w) as (E1 & E2 & E3 & E4).
  destruct Hi as [H1 H2 H3 H4 H5 H6 H7 H8].
  assert (Ho : forall p o, owned (st_crash (tables_in w)) p o ->
                 owned (st_crash (tables_in (run_sess_task now w))) p o).
  { unfold owned. by rewrite E1, E2. }
  split; rewrite ?E3, ?E4; try done.
  - unfold projects_ok in *. by rewrite E1.
  - eapply Forall_impl; [exact H4|]. intros r. apply Ho.
  - eapply Forall_impl; [exact H7|]. intros r. apply Ho.
Qed.

Lemma keeps_serve u r : sess_request_ok r -> keeps (on_sess sess_inv) (serve_sess u r).
Proof.
  destruct r; cbn [sess_request_ok serve_sess]; intros H; (apply keeps_bind; [|intros x; apply keeps_ret]).
  - by apply keeps_start.
  - destruct H. by apply keeps_end.
  - apply keeps_list_sessions.
  - apply keeps_list_release_health.
  - apply keeps_get_release_health.
Qed.

Lemma sess_step_inv w w' : sess_step w w' -> on_sess sess_inv w -> on_sess sess_inv w'.
Proof.
  destruct 1; intros Hw.
  - by apply keeps_serve.
  - by apply keeps_start_sdk.
  - by apply keeps_end_sdk.
  - by apply sess_inv_task.
  - by apply wp_aggregation.
  - by apply keeps_cleanup.
  - by apply keeps_crash_change.
  - done.
Qed.

Lemma sess_steps_inv w w' : rtc sess_step w w' -> on_sess sess_inv w -> on_sess sess_inv w'.
Proof. induction 1 as [w|w w1 w' Hs _ IH]; [done|]. intros Hw. by apply IH, (sess_step_inv w). Qed.
End Requests.

Section Claim.
Context `{SB : SessBackend}.

(** C36. In every state that the server reaches, by any sequence of users' requests,
    requests with a key, runs of the aggregation and clean-up jobs, changes of projects by
    the other components and failing statements, the tables of sessions are consistent:
    every row reads back, ids are unique, every session and aggregate belongs to a stored
    project and to its organization; a session is marked crashed exactly when its crash
    count is positive and an open one is active without counts; an aggregate's sessions
    are the sum of the exited, crashed, abnormal and errored ones, its crashed users are
    at most its users and those at most its sessions, its hour is whole, and among
    the aggregates with a release there is at most one for a project, release, environment
    and hour (those without a release may repeat, [SessCases.unreleased_aggregates_repeat]). *)
Theorem sessions_consistent w w' : sess_inv (tables_in w) -> rtc sess_step w w' ->
  sess_inv (tables_in w').
Proof. intros Hw Hs. exact (sess_steps_inv w w' Hs Hw). Qed.
End Claim.
