(* ===== verification/SessAggregation.v ===== *)
(** The aggregation of an hour: on a working database the job leaves for every release
    and environment of a project one aggregate with the counters of the sessions that
    started in the hour, in whatever order rows and groups come, and touches nothing
    else. *)
From stdpp Require Import base gmap list strings.
From Stdlib Require Import ZArith Lia.
From S2P Require Import Prelude Text FlagCore CoreTypes Effects Sql Columns CrashModel CrashRepo CrashCapture.
From S2P Require Import JobModel JobStore SessModel SessRepo SessRoutes SessInvariant SessServer.
Local Open Scope Z_scope.

(** * What an aggregate says *)

Record Summary := mkSummary {
  sm_sessions : Z;
  sm_exited : Z;
  sm_crashed : Z;
  sm_abnormal : Z;
  sm_errored : Z;
  sm_users : Z;
  sm_crashed_users : Z;
  sm_duration_ms : Z;
  sm_shortest_ms : option Z;
  sm_longest_ms : option Z;
  sm_errors : Z;
  sm_crashes : Z;
}.

(** The users of sessions: the person if the client has named one, else the distinct id. *)
Definition visitor (s : Session) : string :=
  match ss_person_id s with Some person => person | None => ss_distinct_id s end.
Definition visitors (l : list Session) : gset string := list_to_set (visitor <$> l).

Lemma users_visitors l : users_of l = visitors l.
Proof. unfold users_of, visitors. f_equal. Qed.

Lemma visitors_perm l k : l ≡ₚ k -> visitors l = visitors k.
Proof. intros H. unfold visitors. apply list_to_set_perm_L. by rewrite H. Qed.

(** Of a list of sessions: a session that has not ended counts as abnormal. *)
Definition summary_of (l : list Session) : Summary :=
  mkSummary (Z.of_nat (length l)) (counted (has_status SS_Exited) l)
    (counted (has_status SS_Crashed) l)
    (counted (fun s => has_status SS_Abnormal s || has_status SS_Active s) l)
    (counted (has_status SS_Errored) l)
    (Z.of_nat (size (visitors l))) (Z.of_nat (size (visitors (select_where ss_crashed l))))
    (total (durations l)) (min_of (durations l)) (max_of (durations l))
    (total (ss_error_count <$> l)) (total (ss_crash_count <$> l)).

(** Of a row, as it is read. *)
Definition summary_in (r : AggregateRow) : Summary :=
  mkSummary (wrap_u64 (gr_total_sessions r)) (wrap_u64 (gr_exited_sessions r))
    (wrap_u64 (gr_crashed_sessions r)) (wrap_u64 (gr_abnormal_sessions r))
    (wrap_u64 (gr_errored_sessions r)) (wrap_u64 (gr_unique_users r))
    (wrap_u64 (gr_crashed_users r)) (wrap_u64 (gr_total_duration_ms r))
    (wrap_u64 <$> gr_min_duration_ms r) (wrap_u64 <$> gr_max_duration_ms r)
    (wrap_u64 (gr_total_errors r)) (wrap_u64 (gr_total_crashes r)).

Section Aggregation.
Context `{SB : SessBackend}.

(** The sessions that are stored, and those of a release and environment that started
    in an hour. *)
Definition stored (t : SessTables) : list Session :=
  omap (fun r => match Session_try_from r with Ok s => Some s | Err _ => None end) (st_sessions t).
Definition of_release (p : string) (rel : option string) (e : string) (s : Session) : bool :=
  String.eqb (ss_project_id s) p && bool_decide (ss_release s = rel) && String.eqb (ss_environment s) e.
Definition in_hour (h : Z) (s : Session) : bool :=
  (h <=? ss_started_at s) && (ss_started_at s <? h + hour_ns).
Definition hour_group (t : SessTables) p rel e h : list Session :=
  select_where (fun s => of_release p rel e s && in_hour h s) (stored t).

(** The aggregates of a release, environment and hour. *)
Definition bucket_is (p : string) (rel : option string) (e : string) (h : Z) (r : AggregateRow) : bool :=
  String.eqb (gr_project_id r) p && bool_decide (gr_release r = rel)
  && String.eqb (gr_environment r) e && String.eqb (gr_hour r) (to_rfc3339 h).
Definition bucket_rows (t : SessTables) p rel e h : list AggregateRow :=
  select_where (bucket_is p rel e h) (st_aggregates t).
Definition other_hours (h : Z) (t : SessTables) : list AggregateRow :=
  select_where (fun r => negb (String.eqb (gr_hour r) (to_rfc3339 h))) (st_aggregates t).

(** What a group makes of the summaries of its bucket: an aggregate of a release is
    replaced, one without a release is added. *)
Definition updated (rel : option string) (old : list Summary) (g : list Session) : list Summary :=
  match g with
  | [] => old
  | _ => match rel with Some _ => [summary_of g] | None => old ++ [summary_of g] end
  end.

Lemma updated_perm rel old g g' : g ≡ₚ g' -> updated rel old g = updated rel old g'.
Proof.
  intros H. assert (E : summary_of g = summary_of g').
  { assert (T := tally_of_perm g g' H). unfold tally_of in T. injection T as ? ? ? ? ? ? ? _ ? ? ? ?.
    unfold summary_of. rewrite (visitors_perm g g' H).
    rewrite (visitors_perm (select_where ss_crashed g) (select_where ss_crashed g')) by (by apply select_where_perm).
    unfold counted in *. rewrite (count_where_perm (fun s => _ || _) _ _ H).
    rewrite (total_perm (durations g) (durations g')) by (unfold durations; by rewrite H). congruence. }
  unfold updated. destruct g as [|s g], g' as [|s' g']; [done|..|by rewrite E].
  - by apply Permutation_nil_l in H.
  - symmetry in H. by apply Permutation_nil_l in H.
Qed.

(** ** One aggregate *)

Lemma aggregate_summary id hour now k l : Forall session_widths l -> Z.of_nat (length l) < 2 ^ 31 ->
  l <> [] -> fits l ->
  summary_in (aggregate_row (aggregate_of id hour now k (tally_of l))) = summary_of l.
Proof.
  intros Hl Hn Hne Hf.
  assert (H := aggregate_of_wf id 0 0 k l Hne Hl Hn ltac:(by vm_compute) eq_refl ltac:(by vm_compute)).
  destruct H as ((? & ? & ? & ? & ? & ? & ? & ? & ? & Hr & ? & ?) & _).
  destruct (range_u64 _ _ _ Hr) as [Hlo Hhi].
  unfold summary_in, aggregate_row. cbn [gr_total_sessions
    gr_exited_sessions gr_crashed_sessions gr_abnormal_sessions gr_errored_sessions gr_unique_users
    gr_crashed_users gr_total_duration_ms gr_min_duration_ms gr_max_duration_ms gr_total_errors
    gr_total_crashes].
  rewrite !opt_u64_i64, !wrap_u64_i64 by (done || (unfold u64_ok in *; cbn in *; lia)).
  unfold summary_of. rewrite <- (users_visitors l), <- (users_visitors (select_where ss_crashed l)). cbn. f_equal.
  { unfold counted. f_equal. apply count_where_ext. intros s _. unfold has_status. by destruct (ss_status s). }
  apply wrap_u64_id. unfold u64_ok, fits in *. assert (Hd0 := totals_nonneg _ (durations_nonneg _ Hl)). lia.
Qed.

Lemma NoDup_omap_select {R K} `{EqDecision K} (g : R -> option K) b (l : list R) : NoDup (omap g l) ->
  (length (select_where (fun r => bool_decide (g r = Some b)) l) <= 1)%nat.
Proof.
  unfold select_where. induction l as [|r l IH]; [by intros _; cbn; lia|]. cbn.
  destruct (g r) as [k|] eqn:E.
  - intros [Hk Hl]%NoDup_cons. case_bool_decide as Hb; [|by apply IH].
    injection Hb as ->. cbn. destruct (List.filter _ l) as [|x f] eqn:Ef; [done|]. exfalso.
    assert (Hx : x ∈ l /\ g x = Some b).
    { assert (Hx : x ∈ List.filter (fun r => bool_decide (g r = Some b)) l) by (rewrite Ef; left).
      rewrite list_elem_of_In, List.filter_In, bool_decide_eq_true in Hx. by rewrite list_elem_of_In. }
    apply Hk, list_elem_of_omap. by exists x.
  - intros Hl. case_bool_decide; [done|]. by apply IH.
Qed.

Lemma bucket_is_spec p rel e h r :
  bucket_is p (Some rel) e h r = bool_decide (bucket r = Some (p, rel, e, to_rfc3339 h)).
Proof.
  unfold bucket_is, bucket. apply eq_true_iff_eq. rewrite !andb_true_iff, !String.eqb_eq, !bool_decide_eq_true.
  destruct (gr_release r) as [rel'|]; cbn; [|naive_solver].
  split; [by intros [[[-> [= ->]] ->] ->]|]. by intros [= -> -> -> ->].
Qed.

Lemma bucket_rows_le t p rel e h : sess_inv t -> (length (bucket_rows t p (Some rel) e h) <= 1)%nat.
Proof.
  intros Hi. unfold bucket_rows. rewrite (select_where_ext _ _ _ (fun r _ => bucket_is_spec p rel e h r)).
  apply NoDup_omap_select, Hi.
Qed.

(** A row and a bucket: the same as those of another row, when it has a release. *)
Lemma same_bucket_is p rel e h r q : bucket_is p (Some rel) e h r = true ->
  same_bucket r q = bucket_is p (Some rel) e h q.
Proof.
  rewrite bucket_is_spec, bool_decide_eq_true. intros E. apply eq_true_iff_eq.
  rewrite same_bucket_spec, bucket_is_spec, bool_decide_eq_true, E.
  split; [by intros (b & [= <-] & ->)|]. intros ->. by eexists.
Qed.

Lemma same_bucket_other p rel e h r q : bucket_is p rel e h r = false -> same_bucket r q = true ->
  bucket_is p rel e h q = false.
Proof.
  intros Hr (b & Er & Eq)%same_bucket_spec. destruct rel as [rel|].
  - rewrite bucket_is_spec in *. apply bool_decide_eq_false in Hr. apply bool_decide_eq_false. congruence.
  - unfold bucket_is. unfold bucket in Eq. destruct (gr_release q); [|done].
    rewrite bool_decide_eq_false_2 by done. by rewrite andb_false_r.
Qed.

(** The summaries of a bucket after an aggregate is stored. *)
Definition stored_summaries (p : string) (rel : option string) (e : string) (h : Z) (r : AggregateRow)
    (old : list Summary) : list Summary :=
  if bucket_is p rel e h r then
    match rel with Some _ => [summary_in r] | None => old ++ [summary_in r] end
  else old.

Lemma columns_bucket p rel e h r q : bucket_is p rel e h (aggregate_columns r q) = bucket_is p rel e h q.
Proof. done. Qed.

Lemma upsert_update t r p rel e h : sess_inv t -> existsb (same_bucket r) (st_aggregates t) = true ->
  summary_in <$> select_where (bucket_is p rel e h)
                    (update_where (same_bucket r) (aggregate_columns r) (st_aggregates t))
  = stored_summaries p rel e h r (summary_in <$> bucket_rows t p rel e h).
Proof.
  intros Hi (q & Hq & Hs)%existsb_true. unfold stored_summaries. destruct (bucket_is p rel e h r) eqn:Hb.
  - destruct rel as [rel|].
    + assert (E : update_where (same_bucket r) (aggregate_columns r) (st_aggregates t)
                  = update_where (bucket_is p (Some rel) e h) (aggregate_columns r) (st_aggregates t)).
      { unfold update_where. apply map_ext. intros x. by rewrite (same_bucket_is p rel e h). }
      rewrite E, select_where_update_same by done.
      assert (Hl := bucket_rows_le t p rel e h Hi). unfold bucket_rows in *.
      assert (Hin : q ∈ select_where (bucket_is p (Some rel) e h) (st_aggregates t)).
      { apply elem_of_select_where. by rewrite <- (same_bucket_is p rel e h r). }
      destruct (select_where _ _) as [|x [|y l]]; [by apply elem_of_nil in Hin| |cbn in Hl; lia]. done.
    + apply same_bucket_spec in Hs as (b & Er & _). unfold bucket_is, bucket in *.
      destruct (gr_release r); [|done]. rewrite bool_decide_eq_false_2 in Hb by done.
      by rewrite andb_false_r in Hb.
  - f_equal. apply select_where_update. intros x _ Hx. rewrite columns_bucket.
    split; by eapply same_bucket_other.
Qed.

Lemma upsert_insert t r p rel e h : existsb (same_bucket r) (st_aggregates t) = false ->
  summary_in <$> select_where (bucket_is p rel e h) (st_aggregates t ++ [r])
  = stored_summaries p rel e h r (summary_in <$> bucket_rows t p rel e h).
Proof.
  intros Hs. unfold stored_summaries. destruct (bucket_is p rel e h r) eqn:Hb.
  - rewrite select_where_snoc_in, fmap_app by done. destruct rel as [rel|]; [|done].
    assert (E : bucket_rows t p (Some rel) e h = []).
    { unfold bucket_rows. destruct (select_where _ _) as [|x l] eqn:E; [done|]. exfalso.
      assert (Hx : x ∈ select_where (bucket_is p (Some rel) e h) (st_aggregates t)) by (rewrite E; left).
      apply elem_of_select_where in Hx as [Hx Hbx].
      assert (H := existsb_false _ _ x Hs Hx). by rewrite (same_bucket_is p rel e h), Hbx in H. }
    unfold bucket_rows in E. by rewrite E.
  - by rewrite select_where_snoc.
Qed.

(** A stored aggregate changes its own bucket. *)
Lemma upsert_effect t a : sess_inv t -> aggregate_wf a ->
  owned (st_crash t) (sg_project_id a) (sg_org_id a) -> uuid_text (sg_id a) ∉ gr_id <$> st_aggregates t ->
  exists t', upsert_row (aggregate_row a) t = Some (tt, t')
    /\ (forall p rel e h, summary_in <$> bucket_rows t' p rel e h
          = stored_summaries p rel e h (aggregate_row a) (summary_in <$> bucket_rows t p rel e h))
    /\ other_hours (sg_hour a) t' = other_hours (sg_hour a) t
    /\ (forall i, i ∈ gr_id <$> st_aggregates t' -> i = uuid_text (sg_id a) \/ i ∈ gr_id <$> st_aggregates t).
Proof.
  intros Hi Ha [(pr & Hpr & Ep & Eo) Horg] Hid. unfold upsert_row. set (r := aggregate_row a) in *.
  destruct (existsb (same_bucket r) (st_aggregates t)) eqn:Hs.
  - eexists. split; [done|]. split_and!.
    + intros p rel e h. by apply upsert_update.
    + apply select_where_update. intros q _ [_ E%String.eqb_eq]%andb_true_iff.
      cbn [aggregate_columns gr_hour]. rewrite E. cbn. by rewrite String.eqb_refl.
    + intros i. cbn [put_aggregates st_aggregates]. rewrite update_where_fmap by done. by right.
  - assert (E : mem (gr_org_id r) (t_organizations (st_crash t))
                && has_project (st_crash t) (gr_project_id r)
                && negb (existsb (fun q => String.eqb (gr_id q) (gr_id r)) (st_aggregates t)) = true).
    { rewrite !andb_true_iff, negb_true_iff. split_and!.
      - apply List.existsb_exists. exists (gr_org_id r). rewrite <- list_elem_of_In. split; [done|].
        apply String.eqb_refl.
      - apply List.existsb_exists. exists pr. rewrite <- list_elem_of_In. split; [done|].
        apply String.eqb_eq. done.
      - apply not_true_iff_false. intros (q & Hq & Eq%String.eqb_eq)%existsb_true. apply Hid.
        apply list_elem_of_fmap. by exists q. }
    rewrite E. eexists. split; [done|]. split_and!.
    + intros p rel e h. by apply upsert_insert.
    + unfold other_hours. cbn [put_aggregates st_aggregates]. apply select_where_snoc. cbn.
      by rewrite String.eqb_refl.
    + intros i. cbn [put_aggregates st_aggregates]. rewrite fmap_app, elem_of_app.
      intros [H|H%list_elem_of_singleton]; [by right|by left].
Qed.

(** ** All groups *)

Definition key_matches (p : string) (rel : option string) (e : string) (k : AggregateKey) : bool :=
  String.eqb (gk_project_id k) p && bool_decide (gk_release k = rel) && String.eqb (gk_environment k) e.
Definition group_for p rel e (gs : list (AggregateKey * list Session)) : list Session :=
  match List.find (fun kg => key_matches p rel e kg.1) gs with Some kg => kg.2 | None => [] end.

(** The key without the organization. *)
Definition release_key (kg : AggregateKey * list Session) : string * option string * string :=
  (gk_project_id kg.1, gk_release kg.1, gk_environment kg.1).

Lemma key_matches_spec p rel e kg : key_matches p rel e kg.1 = true <-> release_key kg = (p, rel, e).
Proof.
  unfold key_matches, release_key. rewrite !andb_true_iff, !String.eqb_eq, bool_decide_eq_true.
  split; [by intros [[-> ->] ->]|]. by intros [= -> -> ->].
Qed.

Lemma group_bucket p rel e id h now k l :
  bucket_is p rel e h (aggregate_row (aggregate_of id h now k (tally_of l))) = key_matches p rel e k.
Proof. unfold bucket_is, key_matches. cbn. by rewrite String.eqb_refl, andb_true_r. Qed.

Lemma group_for_cons p rel e k l gs : NoDup (release_key <$> (k, l) :: gs) ->
  key_matches p rel e k = true -> group_for p rel e gs = [].
Proof.
  cbn. intros [Hk _]%NoDup_cons Hm. unfold group_for.
  destruct (List.find _ gs) as [kg|] eqn:E; [|done]. exfalso. apply List.find_some in E as [Hin Hkg].
  apply Hk, list_elem_of_fmap. exists kg. rewrite list_elem_of_In. split; [|done].
  apply key_matches_spec in Hkg as ->. by apply (key_matches_spec p rel e (k, l)).
Qed.

(** The ids of the aggregates are new. *)
Definition fresh_from (env : Env) (i : nat) (t : SessTables) : Prop :=
  forall j, (i <= j)%nat -> uuid_text (env_uuid env j) ∉ gr_id <$> st_aggregates t.
Definition distinct_uuids (env : Env) : Prop := forall i j, env_uuid env i = env_uuid env j -> i = j.

Lemma sess_sql_run {E A} (f : SessTables -> option (A * SessTables)) t a t' ts : f t = Some (a, t') ->
  try_srepo (E := E) (sql SE_Database f) (mkSessWorld (mkConn t []) ts)
  = (Ok (Ok a), mkSessWorld (mkConn t' []) ts).
Proof. intros H. unfold try_srepo, attempt, on_part, sql. cbn. by rewrite H. Qed.

Definition stores (h : Z) (gs : list (AggregateKey * list Session)) (t t' : SessTables) : Prop :=
  sess_inv t' /\ st_crash t' = st_crash t /\ st_sessions t' = st_sessions t
  /\ (forall p rel e, summary_in <$> bucket_rows t' p rel e h
        = updated rel (summary_in <$> bucket_rows t p rel e h) (group_for p rel e gs))
  /\ other_hours h t' = other_hours h t.

Lemma stores_group env h now i k l gs t : calendar h -> h mod hour_ns = 0 -> calendar now ->
  sess_inv t -> group_ok t (k, l) -> fits l -> fresh_from env i t -> distinct_uuids env ->
  exists t', upsert_row (aggregate_row (aggregate_of (env_uuid env i) h now k (tally_of l))) t = Some (tt, t')
    /\ fresh_from env (S i) t'
    /\ (NoDup (release_key <$> (k, l) :: gs) -> forall t'', stores h gs t' t'' -> stores h ((k, l) :: gs) t t'').
Proof.
  intros Hh Hm Hnow Hi (Hne & Hwf & Hn & Ho) Hf Hfr Hinj. cbn [fst snd] in *.
  assert (Hw : Forall session_widths l) by (eapply Forall_impl; [exact Hwf|by intros s []]).
  set (a := aggregate_of (env_uuid env i) h now k (tally_of l)).
  assert (Ha : aggregate_wf a) by by apply aggregate_of_wf.
  destruct (upsert_effect t a Hi Ha Ho (Hfr i ltac:(lia))) as (t' & Eu & Hb & Hoth & Hids).
  exists t'. split; [done|]. split.
  { intros j Hj Hin. apply Hids in Hin as [E|Hin]; [|by apply (Hfr j ltac:(lia))].
    apply uuid_text_inj, Hinj in E. lia. }
  intros Hnd t'' (Hi'' & Hc & Hs & Hrows & Hoth''). destruct (upsert_crash _ _ _ _ Eu) as [Ec Es].
  split_and!; [done|congruence|congruence| |exact (eq_trans Hoth'' Hoth)].
  intros p rel e. rewrite Hrows, Hb. unfold stored_summaries, group_for. cbn [List.find fst].
  unfold a. rewrite group_bucket, aggregate_summary by done.
  destruct (key_matches p rel e k) eqn:Hk; [|done].
  fold (group_for p rel e gs). rewrite (group_for_cons p rel e k l gs Hnd Hk). cbn [snd].
  destruct l; [done|]. by destruct rel.
Qed.

Lemma upsert_groups_exact env h now ts gs : calendar h -> h mod hour_ns = 0 -> calendar now ->
  distinct_uuids env -> forall t i n, sess_inv t -> Forall (group_ok t) gs ->
  Forall (fun kg => fits kg.2) gs -> NoDup (release_key <$> gs) -> fresh_from env i t ->
  0 <= n -> n + Z.of_nat (length gs) < 2 ^ 31 ->
  exists t', upsert_groups env (fun _ => false) h now i gs n (mkSessWorld (mkConn t []) ts)
             = (Ok (n + Z.of_nat (length gs)), mkSessWorld (mkConn t' []) ts) /\ stores h gs t t'.
Proof.
  intros Hh Hm Hnow Hinj. induction gs as [|[k l] gs IH]; intros t i n Hi Hg Hf Hnd Hfr H0 Hn.
  - exists t. cbn [upsert_groups length]. split; [unfold ret; do 2 f_equal; lia|]. by split_and!.
  - apply Forall_cons in Hg as [Hg1 Hg]. apply Forall_cons in Hf as [Hf1 Hf]. cbn [snd] in Hf1.
    destruct (stores_group env h now i k l gs t Hh Hm Hnow Hi Hg1 Hf1 Hfr Hinj) as (t1 & Eu & Hfr1 & Hst).
    assert (Hi1 := group_upsert_inv t k l _ h now tt t1 Hh Hm Hnow Hi Hg1 Eu).
    destruct (upsert_crash _ _ _ _ Eu) as [Ec _]. cbn [length] in Hn.
    assert (Hg' : Forall (group_ok t1) gs).
    { eapply Forall_impl; [exact Hg|]. intros kg. by apply group_ok_crash. }
    pose proof Hnd as [_ Hnd']%NoDup_cons.
    destruct (IH t1 (S i) (n + 1) Hi1 Hg' Hf Hnd' Hfr1 ltac:(lia) ltac:(lia)) as (t2 & E2 & H2).
    exists t2. split; [|by apply Hst]. cbn [upsert_groups].
    destruct Hg1 as (Hne & Hwf & Hl & Ho). cbn [snd] in *.
    rewrite (tally_group_fits l) by (done || by eapply Forall_impl; [exact Hwf|by intros s []]).
    rewrite (bind_run _ _ _ _ _ (eq_refl : sess_of_run (Done (tally_of l)) _ = (Ok (tally_of l), _))).
    unfold sess_upsert_aggregate. rewrite (bind_run _ _ _ _ _ (sess_sql_run _ _ _ _ _ Eu)).
    rewrite add_i32_fits by (unfold i32_ok; lia).
    rewrite (bind_run _ _ _ _ _ (eq_refl : sess_of_run (Done (n + 1)) _ = (Ok (n + 1), _))).
    rewrite E2. cbn [length]. do 2 f_equal. lia.
Qed.

(** ** The sessions of the hour *)

Definition session_of_row (r : SessionRow) : option Session :=
  match Session_try_from r with Ok s => Some s | Err _ => None end.

Lemma decode_rows l : Forall session_wf l -> omap session_of_row (session_row <$> l) = l.
Proof.
  induction 1 as [|s l Hs _ IH]; [done|]. cbn. unfold session_of_row at 1. rewrite session_reads by done.
  f_equal. exact IH.
Qed.

Lemma stored_rows t : sess_inv t -> session_row <$> stored t = st_sessions t /\ Forall session_wf (stored t).
Proof.
  intros Hi. destruct (rows_read _ (si_sessions _ Hi)) as (l & _ & E & Hl).
  unfold stored. rewrite <- E. fold session_of_row. by rewrite decode_rows.
Qed.

Lemma started_in_hour h s : calendar h -> calendar (h + hour_ns) -> session_wf s ->
  started_in h (h + hour_ns) (session_row s) = in_hour h s.
Proof.
  intros H1 H2 (_ & Hs & _). unfold started_in, in_hour, session_row. cbn [sr_started_at].
  rewrite !rfc3339_order by done. by rewrite Z.leb_antisym.
Qed.

(** What the query finds. *)
Lemma hour_sessions t h l : sess_inv t -> calendar h -> calendar (h + hour_ns) -> Forall session_wf l ->
  session_row <$> l ≡ₚ select_where (started_in h (h + hour_ns)) (st_sessions t) ->
  l ≡ₚ select_where (in_hour h) (stored t).
Proof.
  intros Hi H1 H2 Hl Hp. destruct (stored_rows t Hi) as [E Hw].
  assert (E' : select_where (started_in h (h + hour_ns)) (st_sessions t)
    = session_row <$> select_where (in_hour h) (stored t)).
  { rewrite <- E, select_where_enc. f_equal. apply select_where_ext. intros s Hs.
    apply started_in_hour; [done..|]. exact (proj1 (Forall_forall _ _) Hw s Hs). }
  rewrite E' in Hp. rewrite <- (decode_rows l Hl), <- (decode_rows (select_where (in_hour h) (stored t))).
  - by rewrite Hp.
  - apply Forall_forall. intros s [Hs _]%elem_of_select_where. exact (proj1 (Forall_forall _ _) Hw s Hs).
Qed.

(** ** The groups of the hour *)

Lemma select_where_and {R} (p q : R -> bool) l :
  select_where p (select_where q l) = select_where (fun r => p r && q r) l.
Proof.
  unfold select_where. induction l as [|r l IH]; [done|]. cbn.
  destruct (q r) eqn:Hq; cbn; rewrite ?andb_true_r, ?andb_false_r; [|done].
  destruct (p r); by rewrite IH.
Qed.

Lemma stored_owned t s : sess_inv t -> s ∈ stored t -> owned (st_crash t) (ss_project_id s) (ss_org_id s).
Proof.
  intros Hi Hs. destruct (stored_rows t Hi) as [E _].
  apply (proj1 (Forall_forall _ _) (si_session_owners _ Hi) (session_row s)).
  rewrite <- E. apply list_elem_of_fmap. by exists s.
Qed.

Section Groups.
Context (t : SessTables) (l : list Session) (Hi : sess_inv t) (Hl : forall s, s ∈ l -> s ∈ stored t).
Context (gs : list (AggregateKey * list Session)) (Hgs : gs ≡ₚ group_sessions l).

Lemma group_found k g : (k, g) ∈ gs <-> g = select_where (of_key k) l /\ g <> [].
Proof. by rewrite Hgs, elem_group_sessions. Qed.

Lemma group_owned k g : (k, g) ∈ gs -> owned (st_crash t) (gk_project_id k) (gk_org_id k).
Proof.
  intros [-> Hne]%group_found. destruct (select_where (of_key k) l) as [|s g] eqn:E; [done|].
  assert (Hs : s ∈ select_where (of_key k) l) by (rewrite E; left).
  apply elem_of_select_where in Hs as [Hs <-%bool_decide_eq_true]. by apply stored_owned; [|apply Hl].
Qed.

Lemma same_release_key kg kg' : kg ∈ gs -> kg' ∈ gs -> release_key kg = release_key kg' -> kg.1 = kg'.1.
Proof.
  destruct kg as [[o p r e] g], kg' as [[o' p' r' e'] g']. intros H H' [= -> -> ->]. cbn.
  assert (E := owned_org _ _ _ _ (si_projects _ Hi) (group_owned _ _ H) (group_owned _ _ H')). cbn in E.
  by rewrite E.
Qed.

Lemma release_keys_NoDup : NoDup (release_key <$> gs).
Proof.
  assert (Hn : NoDup gs.*1) by (rewrite Hgs; apply group_sessions_NoDup).
  apply NoDup_fmap_2_strong; [|by eapply NoDup_fmap_1].
  intros x y Hx Hy E. by apply (NoDup_key fst gs x y Hn Hx Hy), same_release_key.
Qed.

Lemma group_for_release p rel e : group_for p rel e gs = select_where (of_release p rel e) l.
Proof.
  assert (Hk : forall s, s ∈ l -> of_release p rel e s = key_matches p rel e (key_of s)) by done.
  unfold group_for. destruct (List.find _ gs) as [[k g]|] eqn:E.
  - apply List.find_some in E as [Hin Hm]. rewrite <- list_elem_of_In in Hin. cbn [snd].
    assert (Ho := group_owned k g Hin). apply group_found in Hin as [-> Hne].
    apply select_where_ext. intros s Hs. rewrite Hk by done. unfold of_key.
    apply eq_true_iff_eq. rewrite bool_decide_eq_true. split; [by intros ->|]. intros Hs'.
    apply (key_matches_spec p rel e (k, [])) in Hm.
    apply (key_matches_spec p rel e (key_of s, [])) in Hs'. rewrite <- Hm in Hs'.
    assert (Hos := stored_owned t s Hi (Hl s Hs)). destruct k as [o p' r' e']. unfold key_of.
    cbn in *. injection Hs' as E1 E2 E3. rewrite E1 in Hos. f_equal; [|done..].
    by apply (owned_org (st_crash t) p'); [apply Hi|..].
  - symmetry. destruct (select_where _ l) as [|s g] eqn:Eg; [done|]. exfalso.
    assert (Hs : s ∈ select_where (of_release p rel e) l) by (rewrite Eg; left).
    apply elem_of_select_where in Hs as [Hs Hm]. rewrite Hk in Hm by done.
    assert (Hne : select_where (of_key (key_of s)) l <> []).
    { intros En. assert (Hx : s ∈ select_where (of_key (key_of s)) l).
      { apply elem_of_select_where. split; [done|]. by apply bool_decide_eq_true. }
      rewrite En in Hx. by apply elem_of_nil in Hx. }
    assert (Hin : (key_of s, select_where (of_key (key_of s)) l) ∈ gs) by (by apply group_found).
    rewrite list_elem_of_In in Hin. assert (Hx := List.find_none _ _ E _ Hin). cbn [fst] in Hx. congruence.
Qed.
End Groups.

Lemma group_count l : (length (group_sessions l) <= length l)%nat.
Proof.
  induction l as [|s l IH] using rev_ind; [done|]. rewrite group_sessions_snoc, length_app. cbn [length].
  rewrite <- (length_fmap fst), push_session_keys. destruct (decide _); rewrite ?length_app, length_fmap; cbn; lia.
Qed.

Lemma durations_select p l : Forall session_widths l ->
  total (durations (select_where p l)) <= total (durations l).
Proof.
  unfold select_where, durations, total. induction 1 as [|s l (_ & _ & Hd) _ IH]; cbn; [lia|].
  destruct (p s); cbn; destruct (ss_duration_ms s); cbn in *; unfold u64_ok in *; lia.
Qed.

Lemma fits_perm l k : l ≡ₚ k -> fits l -> fits k.
Proof. intros H. unfold fits, durations. by rewrite (total_perm (omap ss_duration_ms l) (omap ss_duration_ms k)) by by rewrite H. Qed.

Lemma wf_widths l : Forall session_wf l -> Forall session_widths l.
Proof. intros H. eapply Forall_impl; [exact H|by intros s []]. Qed.

Lemma srepo_run {E A} (f : SessionsServerError -> E) (m : SessOp A) a t t' ts :
  m (mkConn t []) = (Ok a, mkConn t' []) ->
  srepo f m (mkSessWorld (mkConn t []) ts) = (Ok a, mkSessWorld (mkConn t' []) ts).
Proof. intros H. unfold srepo, map_err, on_part. cbn. by rewrite H. Qed.

(** What the job works with: the sessions of the hour and their groups. *)
Record hour_work (t : SessTables) (h : Z) (l : list Session) (gs : list (AggregateKey * list Session)) : Prop := {
  hk_fetched : sess_get_sessions_for_aggregation h (h + hour_ns) (mkConn t []) = (Ok l, mkConn t []);
  hk_sessions : l ≡ₚ select_where (in_hour h) (stored t);
  hk_groups : gs ≡ₚ group_sessions l;
  hk_storable : Forall (group_ok t) gs;
  hk_fits : Forall (fun kg => fits kg.2) gs;
  hk_count : Z.of_nat (length gs) < 2 ^ 31;
}.

Lemma hour_work_ok t h : sess_inv t -> calendar h -> calendar (h + hour_ns) ->
  Z.of_nat (length (st_sessions t)) < 2 ^ 31 -> fits (select_where (in_hour h) (stored t)) ->
  exists l, hour_work t h l (hash_order (group_sessions l)).
Proof.
  intros Hi Hc1 Hc2 Hn Hf.
  destruct (rows_read _ (session_ok_select (started_in h (h + hour_ns)) t Hi)) as (l & El & Er & Hl).
  assert (Hp : session_row <$> l ≡ₚ select_where (started_in h (h + hour_ns)) (st_sessions t))
    by (rewrite Er; apply scan_order_perm).
  assert (Hs := hour_sessions t h l Hi Hc1 Hc2 Hl Hp). exists l. split.
  - unfold sess_get_sessions_for_aggregation, sess_fetch_all, sess_query, sql_read, sql, bind. cbn.
    unfold of_result. by rewrite El.
  - done.
  - apply hash_order_perm.
  - by eapply groups_ok.
  - apply Forall_forall. intros [k g] [-> _]%(group_found l _ (hash_order_perm _)). cbn [snd].
    assert (Hfl := fits_perm _ _ (symmetry Hs) Hf). assert (H := durations_select (of_key k) l (wf_widths l Hl)).
    unfold fits in *. lia.
  - assert (H1 := Permutation_length Hp). rewrite length_fmap in H1.
    assert (H2 := List.filter_length_le (started_in h (h + hour_ns)) (st_sessions t)).
    unfold select_where in H1. assert (H3 := group_count l).
    rewrite (Permutation_length (hash_order_perm (group_sessions l))). lia.
Qed.

Lemma hour_work_group t h l gs p rel e old : sess_inv t -> hour_work t h l gs ->
  updated rel old (group_for p rel e gs) = updated rel old (hour_group t p rel e h).
Proof.
  intros Hi []. apply updated_perm. rewrite (group_for_release t l); [|done| |done].
  - unfold hour_group. rewrite <- select_where_and. by apply select_where_perm.
  - intros s H. rewrite hk_sessions0 in H. by apply elem_of_select_where in H as [? _].
Qed.

(** C37. On a working database with fewer than 2^31 sessions, whose durations of the hour
    add up within 64 bits, whatever the order of rows and of groups, a run of the aggregation at [now] succeeds and leaves for each project, release and environment
    with sessions that started in the hour before that of [now] exactly one aggregate of
    this hour, with the numbers of these sessions, of the exited, crashed, errored and of
    the abnormal or still active ones, of the users and crashed users, with the sum and
    the range of the durations and with the sums of errors and crashes.  An aggregate
    without a release is added to those of earlier runs.  Aggregates of releases without
    sessions in the hour and of other hours, sessions and projects stay as they are. *)
Theorem aggregation_exact (env : Env) (t : SessTables) (ts : list CrashTask) (h : Z) :
  sess_inv t -> clocks_ok env -> h = hour_of (env_now env 0) - hour_ns ->
  distinct_uuids env -> fresh_from env 0 t ->
  Z.of_nat (length (st_sessions t)) < 2 ^ 31 -> fits (select_where (in_hour h) (stored t)) ->
  exists out t', session_aggregation env (fun _ => false) (mkSessWorld (mkConn t []) ts)
      = (Ok out, mkSessWorld (mkConn t' []) ts)
    /\ st_crash t' = st_crash t /\ st_sessions t' = st_sessions t
    /\ (forall p rel e, summary_in <$> bucket_rows t' p rel e h
          = updated rel (summary_in <$> bucket_rows t p rel e h) (hour_group t p rel e h))
    /\ other_hours h t' = other_hours h t.
Proof.
  intros Hi Hc Eh Hinj Hfr Hn Hf. assert (Hnow := Hc 0%nat).
  destruct (hour_of_calendar _ Hnow) as [Hcal1 Hcal2]. assert (Hmod := hour_of_mod _ Hnow).
  rewrite <- Eh in Hcal2, Hmod. replace (hour_of (env_now env 0)) with (h + hour_ns) in Hcal1 by lia.
  destruct (hour_work_ok t h Hi Hcal2 Hcal1 Hn Hf) as (l & Hw). pose proof Hw as [El Hs Hgs Hg Hgf Hcount].
  set (gs := hash_order (group_sessions l)) in *.
  assert (Hnd : NoDup (release_key <$> gs)).
  { apply (release_keys_NoDup t l); [done| |done]. intros s H. rewrite Hs in H.
    by apply elem_of_select_where in H as [? _]. }
  destruct (upsert_groups_exact env h (env_now env 1) ts gs Hcal2 Hmod (clock_calendar _ (Hc 1%nat)) Hinj t 0
    0 Hi Hg Hgf Hnd Hfr ltac:(lia) ltac:(lia)) as (t' & Erun & Hi' & Ec & Es & Hrows & Hoth).
  setoid_rewrite <- (fun p rel e old => hour_work_group t h l gs p rel e old Hi Hw).
  unfold session_aggregation. rewrite <- Eh.
  replace (hour_of (env_now env 0)) with (h + hour_ns) by lia.
  replace (h <? min_utc) with false by (rewrite Eh; by rewrite hour_of_utc).
  rewrite (bind_run _ _ _ _ _ (eq_refl : sess_of_run (Done tt) _ = (Ok tt, _))).
  rewrite (bind_run _ _ _ _ _ (srepo_run _ _ _ _ _ _ El)).
  destruct (length l =? 0)%nat eqn:E0.
  - apply Nat.eqb_eq, nil_length_inv in E0. eexists _, t. split; [done|]. split_and!; try done.
    assert (E : gs = []); [|by rewrite E]. unfold gs. rewrite E0. apply Permutation_nil_r, hash_order_perm.
  - rewrite (bind_run _ _ _ _ _ Erun). by eexists _, t'.
Qed.
End Aggregation.
