(* ===== verification/SessHealth.v ===== *)
(** The health of a release: once the hours of a window that are over are aggregated, the
    answers count the sessions that are stored for them. *)
From stdpp Require Import base gmap list strings.
From Stdlib Require Import ZArith Lia.
From S2P Require Import Prelude Text FlagCore CoreTypes Effects Sql Columns CrashModel CrashRepo CrashCapture.
From S2P Require Import JobModel JobStore SessModel SessRepo SessRoutes SessInvariant SessServer SessAggregation.
Local Open Scope Z_scope.

(** * Sums by cells *)

Lemma total_split {R} (f : R -> Z) (p : R -> bool) l :
  total (f <$> l) = total (f <$> select_where p l) + total (f <$> select_where (fun r => negb (p r)) l).
Proof.
  unfold total, select_where. induction l as [|r l IH]; [done|]. cbn. destruct (p r); cbn; lia.
Qed.

Lemma select_where_none {R} (p : R -> bool) l : (forall r, r ∈ l -> p r = false) -> select_where p l = [].
Proof.
  intros H. destruct (select_where p l) as [|r k] eqn:E; [done|]. exfalso.
  assert (Hr : r ∈ select_where p l) by (rewrite E; left).
  apply elem_of_select_where in Hr as [Hr Hp]. by rewrite H in Hp.
Qed.

Lemma select_where_shorter {R} (p : R -> bool) l x : x ∈ l -> p x = false ->
  (length (select_where p l) < length l)%nat.
Proof.
  unfold select_where. intros Hx Hp. induction l as [|y l IH]; [by apply elem_of_nil in Hx|]. cbn.
  assert (L := List.filter_length_le p l).
  apply elem_of_cons in Hx as [<-|Hx]; [rewrite Hp; lia|]. specialize (IH Hx). destruct (p y); cbn; lia.
Qed.

(** The rest without a cell. *)
Section Cells.
Context {R K : Type} `{EqDecision K} (c : R -> K).

Definition cell (k : K) (l : list R) : list R := select_where (fun r => bool_decide (c r = k)) l.
Definition off_cell (k : K) (l : list R) : list R := select_where (fun r => negb (bool_decide (c r = k))) l.

Lemma cell_off k k' l : cell k' (off_cell k l) = if decide (k' = k) then [] else cell k' l.
Proof.
  unfold cell, off_cell. rewrite select_where_and. destruct (decide (k' = k)) as [->|Hk].
  - apply select_where_none. intros r _. by destruct (bool_decide _).
  - apply select_where_ext. intros r _. do 2 case_bool_decide; congruence || done.
Qed.

Lemma off_cell_le k l : (length (off_cell k l) <= length l)%nat.
Proof. apply List.filter_length_le. Qed.

Lemma off_cell_lt l r : r ∈ l -> (length (off_cell (c r) l) < length l)%nat.
Proof. intros H. apply (select_where_shorter _ _ r H). by rewrite bool_decide_eq_true_2. Qed.
End Cells.

(** Equal sums in every cell make equal sums. *)
Lemma cells_total {R S K} `{EqDecision K} (f : R -> Z) (cr : R -> K) (g : S -> Z) (cs : S -> K) rows ss :
  (forall k, total (f <$> cell cr k rows) = total (g <$> cell cs k ss)) ->
  total (f <$> rows) = total (g <$> ss).
Proof.
  remember (length rows + length ss)%nat as n eqn:Hn.
  revert rows ss Hn. induction (lt_wf n) as [n _ IH]. intros rows ss -> H.
  assert (Hstep : forall k, (length (off_cell cr k rows) + length (off_cell cs k ss) < length rows + length ss)%nat ->
    total (f <$> rows) = total (g <$> ss)).
  { intros k Hlt. rewrite (total_split f (fun r => bool_decide (cr r = k)) rows).
    rewrite (total_split g (fun s => bool_decide (cs s = k)) ss). fold (cell cr k rows) (cell cs k ss). rewrite H.
    f_equal. apply (IH _ Hlt); [done|]. intros k'. fold (off_cell cr k rows) (off_cell cs k ss).
    rewrite !cell_off. by destruct (decide (k' = k)). }
  destruct rows as [|r rows].
  - destruct ss as [|s ss]; [done|]. apply (Hstep (cs s)). 
    assert (L := off_cell_lt cs (s :: ss) s ltac:(left)).
    assert (L0 := off_cell_le cr (cs s) []). cbn [length] in *. lia.
  - apply (Hstep (cr r)). assert (L := off_cell_lt cr (r :: rows) r ltac:(left)).
    assert (L2 := off_cell_le cs (cr r) ss). lia.
Qed.

(** * The window of a question *)

Section Health.
Context `{SB : SessBackend}.

(** The hour in which a session started. *)
Definition hour_start (s : Session) : Z := ss_started_at s - ss_started_at s mod hour_ns.

(** Sessions of a project and environment whose hour is in the window and over at its end,
    and whose release [Q] selects, and the aggregates in the window. *)
Definition in_sessions (p e : string) (start stop : Z) (Q : option string -> bool) (s : Session) : bool :=
  Q (ss_release s) && String.eqb (ss_project_id s) p && String.eqb (ss_environment s) e
  && (start <=? hour_start s) && (hour_start s + hour_ns <=? stop).
Definition window_sessions t p e start stop Q : list Session :=
  select_where (in_sessions p e start stop Q) (stored t).
Definition window_rows t p e start stop (Q : option string -> bool) : list AggregateRow :=
  select_where (fun r => Q (gr_release r) && in_window p e start stop r) (st_aggregates t).

(** An hour of the window that is over at its end. *)
Definition over (start stop h : Z) : Prop := start <= h /\ h + hour_ns <= stop.

(** Every hour of the window that is over has been aggregated after the last change to a
    session of it, and the hour that is still running has not. *)
Definition aggregated (t : SessTables) (p e : string) (start stop : Z) : Prop :=
  forall rel h, h mod hour_ns = 0 -> start <= h < stop ->
    summary_in <$> bucket_rows t p rel e h
    = if h + hour_ns <=? stop
      then match hour_group t p rel e h with [] => [] | l => [summary_of l] end
      else [].

Lemma over_window start stop h : over start stop h -> start <= h < stop.
Proof. unfold over, hour_ns. lia. Qed.

Lemma aggregated_over t p e start stop rel h : aggregated t p e start stop ->
  h mod hour_ns = 0 -> over start stop h ->
  summary_in <$> bucket_rows t p rel e h
  = match hour_group t p rel e h with [] => [] | l => [summary_of l] end.
Proof.
  intros Hagg Hm Ho. rewrite Hagg by (done || by apply over_window).
  by rewrite (proj2 (Z.leb_le _ _)) by apply Ho.
Qed.

(** A bucket of the window with a row is one of an hour that is over. *)
Lemma aggregated_found t p e start stop rel h r : aggregated t p e start stop ->
  h mod hour_ns = 0 -> start <= h < stop -> r ∈ bucket_rows t p rel e h -> over start stop h.
Proof.
  intros Hagg Hm Hw Hr. assert (E := Hagg rel h Hm Hw). destruct (Z.leb_spec (h + hour_ns) stop) as [H|H].
  - split; [lia|done].
  - apply fmap_nil_inv in E. rewrite E in Hr. by apply elem_of_nil in Hr.
Qed.

Lemma hour_start_whole s : hour_start s mod hour_ns = 0.
Proof.
  unfold hour_start. assert (E := Z.div_mod (ss_started_at s) hour_ns ltac:(done)).
  replace (ss_started_at s - ss_started_at s mod hour_ns) with (ss_started_at s / hour_ns * hour_ns) by lia.
  by apply Z.mod_mul.
Qed.

Lemma hour_start_calendar s : calendar (ss_started_at s) -> calendar (hour_start s).
Proof.
  unfold calendar, hour_start. intros H. assert (E := Z.div_mod (ss_started_at s) hour_ns ltac:(done)).
  assert (Hm := Z.mod_pos_bound (ss_started_at s) hour_ns ltac:(done)).
  assert (Hd : -17268672 <= ss_started_at s / hour_ns) by (apply Z.div_le_lower_bound; unfold hour_ns; lia).
  unfold hour_ns in *. lia.
Qed.

Lemma in_hour_start h s : h mod hour_ns = 0 -> in_hour h s = (hour_start s =? h).
Proof.
  intros Hh. unfold in_hour, hour_start. assert (Hm := Z.mod_pos_bound (ss_started_at s) hour_ns ltac:(done)).
  assert (E := Z.div_mod (ss_started_at s) hour_ns ltac:(done)). assert (Eh := Z.div_mod h hour_ns ltac:(done)).
  rewrite Hh in Eh. apply eq_true_iff_eq. rewrite andb_true_iff, Z.leb_le, Z.ltb_lt, Z.eqb_eq.
  unfold hour_ns in *. split; [|lia]. intros [H1 H2].
  assert (ss_started_at s / (3600 * 10 ^ 9) = h / (3600 * 10 ^ 9)) by lia. lia.
Qed.

Lemma rfc3339_inj a b : calendar a -> calendar b -> to_rfc3339 a = to_rfc3339 b -> a = b.
Proof.
  intros Ha Hb E. assert (H := rfc3339_roundtrip a Ha). rewrite E, rfc3339_roundtrip in H by done. congruence.
Qed.

Lemma row_in_window p e start stop a : calendar start -> calendar stop -> aggregate_wf a ->
  in_window p e start stop (aggregate_row a)
  = String.eqb (sg_project_id a) p && String.eqb (sg_environment a) e
    && (start <=? sg_hour a) && (sg_hour a <? stop).
Proof.
  intros H1 H2 (_ & Hh & _). unfold in_window, aggregate_row. cbn [gr_project_id gr_environment gr_hour].
  rewrite !rfc3339_order by done. by rewrite Z.leb_antisym.
Qed.

Section Window.
Context (t : SessTables) (p e : string) (start stop : Z) (Hi : sess_inv t).
Context (Hstart : calendar start) (Hstop : calendar stop).

Notation row_cell := (fun r => (gr_release r, gr_hour r)).
Notation session_cell := (fun s => (ss_release s, to_rfc3339 (hour_start s))).

Lemma stored_calendar s : s ∈ stored t -> calendar (hour_start s).
Proof.
  intros Hs. destruct (stored_rows t Hi) as [_ Hw].
  destruct (proj1 (Forall_forall _ _) Hw s Hs) as (_ & Hc & _). by apply hour_start_calendar.
Qed.

(** The cell of a whole hour in the window. *)
Lemma row_cell_hour Q rel h : h mod hour_ns = 0 -> start <= h < stop -> calendar h -> Q rel = true ->
  cell row_cell (rel, to_rfc3339 h) (window_rows t p e start stop Q) = bucket_rows t p rel e h.
Proof.
  intros Hm Hw Hc HQ. unfold cell, window_rows, bucket_rows. rewrite select_where_and.
  apply select_where_ext. intros r Hr.
  destruct (proj1 (Forall_forall _ _) (si_aggregates _ Hi) r Hr) as (a & -> & Ha).
  rewrite row_in_window by done. unfold bucket_is, aggregate_row. cbn [gr_release gr_hour gr_project_id gr_environment].
  apply eq_true_iff_eq. rewrite !andb_true_iff, !bool_decide_eq_true, !String.eqb_eq, Z.leb_le, Z.ltb_lt.
  split; [by intros ([= -> ->] & _ & ([-> ->] & _) & _)|].
  intros [[[-> ->] ->] E]. assert (sg_hour a = h) as -> by (apply rfc3339_inj; [apply Ha|done|done]).
  split_and!; done || lia.
Qed.

Lemma session_cell_hour Q rel h : h mod hour_ns = 0 -> over start stop h -> calendar h -> Q rel = true ->
  cell session_cell (rel, to_rfc3339 h) (window_sessions t p e start stop Q) = hour_group t p rel e h.
Proof.
  intros Hm Hw Hc HQ. unfold cell, window_sessions, hour_group. rewrite select_where_and.
  apply select_where_ext. intros s Hs. rewrite in_hour_start by done. unfold in_sessions, of_release.
  apply eq_true_iff_eq. rewrite !andb_true_iff, !bool_decide_eq_true, !String.eqb_eq, !Z.leb_le, Z.eqb_eq.
  split.
  - intros ([= -> E] & ((([_ ->] & ->) & _) & _)). apply rfc3339_inj in E; [done|by apply stored_calendar|done].
  - intros [[[-> ->] ->] ->]. destruct Hw. split_and!; done || lia.
Qed.

(** A cell with something in it is one of these. *)
Lemma row_cell_found Q k r : aggregated t p e start stop ->
  r ∈ cell row_cell k (window_rows t p e start stop Q) ->
  exists rel h, k = (rel, to_rfc3339 h) /\ h mod hour_ns = 0 /\ over start stop h /\ calendar h /\ Q rel = true.
Proof.
  intros Hagg [Hr <-%bool_decide_eq_true]%elem_of_select_where. pose proof Hr as Hin.
  apply elem_of_select_where in Hr as [Hr Hw].
  destruct (proj1 (Forall_forall _ _) (si_aggregates _ Hi) r Hr) as (a & -> & Ha).
  apply andb_true_iff in Hw as [HQ Hw]. rewrite row_in_window in Hw by done.
  rewrite !andb_true_iff, Z.leb_le, Z.ltb_lt in Hw. exists (sg_release a), (sg_hour a).
  destruct Ha as (_ & ? & ? & _). split_and!; try done.
  apply (aggregated_found t p e start stop (sg_release a) _ (aggregate_row a)); [done|done|lia|].
  rewrite <- (row_cell_hour Q) by (done || lia). apply elem_of_select_where. split; [done|].
  by apply bool_decide_eq_true.
Qed.

Lemma session_cell_found Q k s : s ∈ cell session_cell k (window_sessions t p e start stop Q) ->
  exists rel h, k = (rel, to_rfc3339 h) /\ h mod hour_ns = 0 /\ over start stop h /\ calendar h /\ Q rel = true.
Proof.
  intros [Hs <-%bool_decide_eq_true]%elem_of_select_where. apply elem_of_select_where in Hs as [Hs Hw].
  unfold in_sessions in Hw. rewrite !andb_true_iff, !Z.leb_le in Hw.
  exists (ss_release s), (hour_start s). assert (Hm := hour_start_whole s). assert (Hc := stored_calendar s Hs).
  destruct Hw as [[[[? _] _] ?] ?]. by split_and!.
Qed.

(** The sums over the aggregates are the sums over the sessions. *)
Lemma window_total Q (F : Summary -> Z) (g : Session -> Z) : aggregated t p e start stop ->
  (forall l, F (summary_of l) = total (g <$> l)) ->
  total ((fun r => F (summary_in r)) <$> window_rows t p e start stop Q)
  = total (g <$> window_sessions t p e start stop Q).
Proof.
  intros Hagg HF. apply (cells_total _ row_cell _ session_cell). intros k.
  assert (Hk : (exists rel h, k = (rel, to_rfc3339 h) /\ h mod hour_ns = 0 /\ over start stop h /\ calendar h
                 /\ Q rel = true)
    -> total ((fun r => F (summary_in r)) <$> cell row_cell k (window_rows t p e start stop Q))
       = total (g <$> cell session_cell k (window_sessions t p e start stop Q))).
  { intros (rel & h & -> & Hm & Hw & Hc & HQ).
    rewrite row_cell_hour, session_cell_hour by (done || by apply over_window).
    rewrite (list_fmap_compose summary_in F), (aggregated_over t p e start stop) by done.
    destruct (hour_group t p rel e h) as [|s l]; [done|]. cbn [fmap list_fmap].
    rewrite HF. unfold total. cbn. lia. }
  destruct (cell row_cell k _) as [|r rows] eqn:Er.
  - destruct (cell session_cell k _) as [|s ss] eqn:Es; [done|].
    apply Hk. eapply session_cell_found. rewrite Es. left.
  - apply Hk. eapply row_cell_found; [done|]. rewrite Er. left.
Qed.
End Window.

(** * Reading aggregates *)

Lemma aggregates_read rows : Forall aggregate_ok rows -> exists l, collect SessionAggregate_try_from rows = Ok l
  /\ aggregate_row <$> l = rows /\ Forall aggregate_wf l.
Proof.
  induction 1 as [|r rows (a & -> & Ha) _ (l & E & <- & Hl)]; [by exists []|].
  exists (a :: l). cbn [collect]. rewrite aggregate_reads by done. cbn [mbind result_bind]. rewrite E.
  by split_and!; [..|constructor].
Qed.

Lemma window_rows_ok t p e start stop Q : sess_inv t -> Forall aggregate_ok (window_rows t p e start stop Q).
Proof.
  intros Hi. apply Forall_forall. intros r [Hr _]%elem_of_select_where.
  exact (proj1 (Forall_forall _ _) (si_aggregates _ Hi) r Hr).
Qed.

Lemma wrap_i64_below z : 0 <= z < 2 ^ 63 -> wrap_i64 z = z.
Proof. unfold wrap_i64. intros H. rewrite Z.mod_small; lia. Qed.

(** The counters of a row as the sums see them. *)
Lemma row_counters a : aggregate_wf a ->
  gr_total_sessions (aggregate_row a) = sm_sessions (summary_in (aggregate_row a))
  /\ sg_total_sessions a = sm_sessions (summary_in (aggregate_row a))
  /\ sg_crashed_sessions a = sm_crashed (summary_in (aggregate_row a)).
Proof.
  intros ((? & ? & ? & ? & ? & ? & _) & _). unfold aggregate_row, summary_in.
  cbn [sm_sessions sm_crashed gr_total_sessions gr_crashed_sessions].
  rewrite !wrap_u64_i64 by (unfold u64_ok; lia). split; [|done]. apply wrap_i64_below. lia.
Qed.

Lemma sql_sum_exact l acc : Forall (fun x => 0 <= x) l -> 0 <= acc -> acc + total l < 2 ^ 63 ->
  sql_sum acc l = Some (acc + total l).
Proof.
  intros Hl. revert acc. induction Hl as [|x l Hx Hl IH]; intros acc Ha Hs; cbn [sql_sum].
  - f_equal. unfold total. cbn. lia.
  - unfold total in *. cbn [foldr] in *. assert (H := totals_nonneg l Hl). unfold total in H.
    rewrite wrap_i64_below, Z.eqb_refl by lia. rewrite IH by lia. f_equal. lia.
Qed.

Lemma counted_total p l : counted p l = total ((fun s => if p s then 1 else 0) <$> l).
Proof.
  unfold counted, count_where, total. induction l as [|s l IH]; [done|]. cbn. destruct (p s); cbn in *; lia.
Qed.

Lemma length_total {A} (l : list A) : Z.of_nat (length l) = total ((fun _ => 1) <$> l).
Proof. unfold total. induction l as [|s l IH]; [done|]. cbn in *. lia. Qed.

Lemma total_fmap_perm {A} (f : A -> Z) l k : l ≡ₚ k -> total (f <$> l) = total (f <$> k).
Proof. intros H. apply total_perm. by rewrite H. Qed.

Lemma min_of_ext l k : (forall x, x ∈ l <-> x ∈ k) -> min_of l = min_of k.
Proof.
  intros H. destruct (min_of k) as [n|] eqn:E.
  - apply min_of_spec in E as [Hn Hm]. apply min_of_spec. split; [by apply H|]. intros y Hy. by apply Hm, H.
  - destruct k; [|done]. destruct l as [|x l]; [done|]. exfalso. apply (elem_of_nil x), H. left.
Qed.

Lemma max_of_ext l k : (forall x, x ∈ l <-> x ∈ k) -> max_of l = max_of k.
Proof.
  intros H. rewrite !max_as_min. f_equal. apply min_of_ext. intros x. rewrite !list_elem_of_fmap.
  by setoid_rewrite H.
Qed.

(** * The calculation *)

Definition percent_free (n k : Z) : f64 :=
  f64_mul (f64_div (f64_of_u64 (n - k)) (f64_of_u64 n)) (f64_of_u64 100).

Lemma free_rate_exact oc n k : 0 < n -> 0 <= k <= n -> n < 2 ^ 64 -> free_rate oc n k = Done (percent_free n k).
Proof.
  intros Hn Hk Hb. unfold free_rate. rewrite (proj2 (Z.ltb_lt 0 n)) by lia.
  unfold sub_u64, arith. rewrite wrap_u64_id by (unfold u64_ok; lia). by rewrite Z.eqb_refl.
Qed.

Section Calculate.
Context (l : list SessionAggregate) (Hl : Forall aggregate_wf l) (Hne : l <> []).
Context (Hb : total (sg_total_sessions <$> l) < 2 ^ 31).

Lemma part_le (f g : SessionAggregate -> Z) : (forall a, counters_wf a -> 0 <= f a <= g a) ->
  0 <= total (f <$> l) <= total (g <$> l).
Proof.
  intros H. split.
  - apply totals_nonneg, Forall_fmap. eapply Forall_impl; [exact Hl|]. intros a [Ha _]. by apply H.
  - apply total_le. eapply Forall_impl; [exact Hl|]. intros a [Ha _]. by apply H.
Qed.

Lemma sum_part oc (f : SessionAggregate -> Z) : (forall a, counters_wf a -> 0 <= f a <= sg_total_sessions a) ->
  sum_u64 oc 0 (f <$> l) = Done (total (f <$> l)).
Proof.
  intros H. assert (Hp := part_le f _ H). apply (sum_u64_exact oc (f <$> l) 0); [|lia|lia].
  apply Forall_fmap. eapply Forall_impl; [exact Hl|]. intros a [Ha _]. by apply H.
Qed.

Lemma total_positive (f : SessionAggregate -> Z) : (forall a, counters_wf a -> 1 <= f a) -> 0 < total (f <$> l).
Proof.
  intros H. destruct l as [|a l']; [done|]. apply Forall_cons in Hl as [[Ha _] Hl']. unfold total.
  cbn. specialize (H a Ha) as H1. assert (0 <= total (f <$> l')); [|unfold total, fmap in *; lia].
  apply totals_nonneg, Forall_fmap. eapply Forall_impl; [exact Hl'|]. intros b [Hbw _]. cbn.
  specialize (H b Hbw). lia.
Qed.

Lemma health_calculated oc now now' p rel e all :
  ReleaseHealth_calculate oc now now' p rel e l all =
  Done (mkReleaseHealth p rel e (total (sg_total_sessions <$> l)) (total (sg_crashed_sessions <$> l))
    (total (sg_errored_sessions <$> l)) (total (sg_unique_users <$> l)) (total (sg_crashed_users <$> l))
    (percent_free (total (sg_total_sessions <$> l)) (total (sg_crashed_sessions <$> l)))
    (percent_free (total (sg_unique_users <$> l)) (total (sg_crashed_users <$> l)))
    (adoption_rate (total (sg_total_sessions <$> l)) all)
    (AdoptionStage_from_rate (adoption_rate (total (sg_total_sessions <$> l)) all))
    (default now (min_of (sg_hour <$> l))) (default now' (max_of (sg_hour <$> l))) None).
Proof.
  unfold ReleaseHealth_calculate.
  do 5 (rewrite sum_part by (intros a (? & ? & ? & ? & ? & ? & ? & ? & _); lia); cbn [mbind run_bind]).
  assert (H1 := part_le sg_crashed_sessions sg_total_sessions ltac:(intros a (? & ? & ? & ? & ? & ? & _); lia)).
  assert (H2 := part_le sg_crashed_users sg_unique_users ltac:(intros a (? & ? & ? & ? & ? & ? & ? & _); lia)).
  assert (H3 := part_le sg_unique_users sg_total_sessions ltac:(intros a (? & ? & ? & ? & ? & ? & ? & ? & _); lia)).
  assert (H4 := total_positive sg_total_sessions ltac:(intros a (? & ? & ? & ? & ? & ? & _); lia)).
  assert (H5 := total_positive sg_unique_users ltac:(intros a (? & ? & ? & ? & ? & ? & ? & ? & _); lia)).
  rewrite !free_rate_exact by lia. done.
Qed.
End Calculate.

(** * The answer *)

(** The user is a member of the organization of a stored project. *)
Definition may_ask (t : SessTables) (user_id : Uuid) (p : string) : Prop :=
  exists id row project, uuid_parse p = Ok id
    /\ select_one (project_is (uuid_text id)) (t_projects (st_crash t)) = Some row
    /\ CrashProject_try_from row = Ok project
    /\ existsb (fun m => String.eqb m.1 (uuid_text (pj_org_id project)) && String.eqb m.2 (uuid_text user_id))
         (t_memberships (st_crash t)) = true.

Lemma prepo_run {E A} (f : CrashServerError -> E) (m : RepoOp A) a t ts :
  m (mkConn (st_crash t) []) = (Ok a, mkConn (st_crash t) []) ->
  prepo f m (mkSessWorld (mkConn t []) ts) = (Ok a, mkSessWorld (mkConn t []) ts).
Proof.
  intros H. unfold prepo, map_err, on_part, crash_conn, put_crash_conn, put_sess_conn. cbn. rewrite H. cbn.
  by destruct t.
Qed.

Lemma authorized_run message t user_id p ts : may_ask t user_id p -> exists project,
  sess_authorized message p user_id (mkSessWorld (mkConn t []) ts) = (Ok project, mkSessWorld (mkConn t []) ts).
Proof.
  intros (id & row & project & Hid & Hrow & Hp & Hm). exists project.
  unfold sess_authorized, sess_parse_project, sess_parse. rewrite Hid.
  rewrite (bind_run _ _ _ _ _ (eq_refl : ret id _ = (Ok id, _))).
  assert (Eget : repo_get_project_by_id id (mkConn (st_crash t) []) = (Ok (Some project), mkConn (st_crash t) [])).
  { unfold repo_get_project_by_id, fetch_optional, query, sql_read, sql, bind, of_result. cbn. rewrite Hrow.
    cbn. by rewrite Hp. }
  assert (Emem : repo_get_membership (pj_org_id project) user_id (mkConn (st_crash t) [])
                 = (Ok true, mkConn (st_crash t) [])).
  { unfold repo_get_membership, query, sql_read, sql. cbn. by rewrite Hm. }
  assert (Eproject : sess_get_project message id (mkSessWorld (mkConn t []) ts)
                     = (Ok project, mkSessWorld (mkConn t []) ts)).
  { unfold sess_get_project. by rewrite (bind_run _ _ _ _ _ (prepo_run _ _ _ t ts Eget)). }
  assert (Emember : sess_verify_org_membership (pj_org_id project) user_id (mkSessWorld (mkConn t []) ts)
                    = (Ok tt, mkSessWorld (mkConn t []) ts)).
  { unfold sess_verify_org_membership. by rewrite (bind_run _ _ _ _ _ (prepo_run _ _ _ t ts Emem)). }
  by rewrite (bind_run _ _ _ _ _ Eproject), (bind_run _ _ _ _ _ Emember).
Qed.

(** All releases, and one. *)
Definition any_release (_ : option string) : bool := true.
Definition the_release (rel : string) (o : option string) : bool := opt_is o rel.

Lemma the_release_Some rel o : the_release rel o = true -> o = Some rel.
Proof. unfold the_release, opt_is. destruct o; [|done]. by intros ->%String.eqb_eq. Qed.

Section Answer.
Context (t : SessTables) (p e : string) (start stop : Z) (Hi : sess_inv t).
Context (Hstart : calendar start) (Hstop : calendar stop) (Hagg : aggregated t p e start stop).
Context (Hsize : Z.of_nat (length (st_sessions t)) < 2 ^ 31).

Lemma window_small Q : Z.of_nat (length (window_sessions t p e start stop Q)) < 2 ^ 31.
Proof.
  destruct (stored_rows t Hi) as [E _]. assert (L := List.filter_length_le (in_sessions p e start stop Q) (stored t)).
  assert (El := f_equal length E). rewrite length_fmap in El. unfold window_sessions, select_where. lia.
Qed.

Lemma window_count Q : total ((fun r => sm_sessions (summary_in r)) <$> window_rows t p e start stop Q)
  = Z.of_nat (length (window_sessions t p e start stop Q)).
Proof. rewrite length_total. apply window_total; [done..|]. intros l. apply length_total. Qed.

Lemma window_crashed Q : total ((fun r => sm_crashed (summary_in r)) <$> window_rows t p e start stop Q)
  = counted (has_status SS_Crashed) (window_sessions t p e start stop Q).
Proof. rewrite counted_total. apply window_total; [done..|]. intros l. apply counted_total. Qed.

Lemma total_run : sess_get_total_sessions_in_range p e start stop (mkConn t [])
  = (Ok (Z.of_nat (length (window_sessions t p e start stop any_release))), mkConn t []).
Proof.
  set (rows := scan_order (select_where (in_window p e start stop) (st_aggregates t))).
  assert (Hrows : rows ≡ₚ window_rows t p e start stop any_release) by apply scan_order_perm.
  assert (Hok := window_rows_ok t p e start stop any_release Hi). rewrite <- Hrows in Hok.
  assert (Hc : Forall (fun r => gr_total_sessions r = sm_sessions (summary_in r) /\ 0 <= gr_total_sessions r) rows).
  { eapply Forall_impl; [exact Hok|]. intros r (a & -> & Ha). destruct (row_counters a Ha) as (E & E' & _).
    split; [done|]. destruct Ha as ((? & ? & ? & ? & ? & ? & _) & _). lia. }
  assert (E : total (gr_total_sessions <$> rows)
              = Z.of_nat (length (window_sessions t p e start stop any_release))).
  { rewrite <- window_count, <- (total_fmap_perm _ _ _ Hrows). f_equal. apply list_fmap_ext. intros i r Hr%list_elem_of_lookup_2.
    exact (proj1 (proj1 (Forall_forall _ _) Hc r Hr)). }
  assert (Hn := window_small any_release).
  unfold sess_get_total_sessions_in_range, sql, bind. cbn [cn_faults cn_tables]. fold rows.
  rewrite sql_sum_exact; rewrite ?E; [|by apply Forall_fmap; eapply Forall_impl; [exact Hc|intros r []]|lia|lia].
  cbn [mbind option_bind]. unfold ret. rewrite wrap_u64_id by (unfold u64_ok; lia). done.
Qed.

(** The aggregates of a release, as the handlers get them. *)
Lemma release_run rel : exists l,
  sess_get_aggregates p (Some rel) e start stop (mkConn t []) = (Ok l, mkConn t [])
  /\ Forall aggregate_wf l /\ aggregate_row <$> l ≡ₚ window_rows t p e start stop (the_release rel).
Proof.
  set (rows := order_by false gr_hour (select_where (fun r => in_window p e start stop r && opt_is (gr_release r) rel)
                                         (st_aggregates t))).
  assert (Hrows : rows ≡ₚ window_rows t p e start stop (the_release rel)).
  { unfold rows, window_rows, the_release. rewrite order_by_perm. erewrite select_where_ext; [done|].
    intros r _. apply andb_comm. }
  assert (Hok := window_rows_ok t p e start stop (the_release rel) Hi). rewrite <- Hrows in Hok.
  destruct (aggregates_read rows Hok) as (l & El & Er & Hl). exists l.
  split_and!; [|done|by rewrite Er].
  unfold sess_get_aggregates, sess_fetch_all, sess_query, sql_read, sql, bind, of_result.
  cbn [cn_faults cn_tables]. fold rows. by rewrite El.
Qed.

Lemma read_total Q l (f : SessionAggregate -> Z) (F : Summary -> Z) : Forall aggregate_wf l ->
  aggregate_row <$> l ≡ₚ window_rows t p e start stop Q ->
  (forall a, aggregate_wf a -> f a = F (summary_in (aggregate_row a))) ->
  total (f <$> l) = total ((fun r => F (summary_in r)) <$> window_rows t p e start stop Q).
Proof.
  intros Hl Hp Hf. rewrite <- (total_fmap_perm _ _ _ Hp). rewrite <- list_fmap_compose. f_equal. apply list_fmap_ext. intros i a Ha%list_elem_of_lookup_2.
  apply Hf. exact (proj1 (Forall_forall _ _) Hl a Ha).
Qed.

(** The hours of the aggregates are those of the sessions. *)
Lemma window_hours rel l : Forall aggregate_wf l ->
  aggregate_row <$> l ≡ₚ window_rows t p e start stop (the_release rel) ->
  forall h, h ∈ sg_hour <$> l <-> h ∈ hour_start <$> window_sessions t p e start stop (the_release rel).
Proof.
  intros Hl Hp h. rewrite !list_elem_of_fmap.
  assert (Hgroup : forall h, h mod hour_ns = 0 -> over start stop h -> calendar h ->
    (exists r, r ∈ bucket_rows t p (Some rel) e h) <-> exists s, s ∈ hour_group t p (Some rel) e h).
  { intros h' Hm Hw Hc. assert (E := aggregated_over _ _ _ _ _ (Some rel) h' Hagg Hm Hw).
    destruct (hour_group t p (Some rel) e h') as [|s g]; destruct (bucket_rows t p (Some rel) e h') as [|r rows];
      try done; split; intros (x & Hx); try (by apply elem_of_nil in Hx); eexists; left. }
  assert (HQ : the_release rel (Some rel) = true) by apply String.eqb_refl. split.
  - intros (a & -> & Ha). assert (Hr : aggregate_row a ∈ window_rows t p e start stop (the_release rel)).
    { rewrite <- Hp. apply list_elem_of_fmap. by exists a. }
    pose proof (proj1 (Forall_forall _ _) Hl a Ha) as (_ & Hc & Hm & _).
    pose proof Hr as [_ Hw]%elem_of_select_where. apply andb_true_iff in Hw as [Hq Hw].
    rewrite row_in_window in Hw by (done || exact (proj1 (Forall_forall _ _) Hl a Ha)).
    rewrite !andb_true_iff, Z.leb_le, Z.ltb_lt, !String.eqb_eq in Hw.
    apply the_release_Some in Hq.
    assert (Hb : aggregate_row a ∈ bucket_rows t p (Some rel) e (sg_hour a)).
    { rewrite <- (row_cell_hour t p e start stop Hi Hstart Hstop (the_release rel)) by (done || lia).
      apply elem_of_select_where. split; [done|]. apply bool_decide_eq_true. by rewrite Hq. }
    assert (Hov : over start stop (sg_hour a)) by (apply (aggregated_found _ _ _ _ _ _ _ _ Hagg Hm ltac:(lia) Hb)).
    destruct (proj1 (Hgroup (sg_hour a) Hm Hov Hc)) as (s & Hs); [by exists (aggregate_row a)|].
    rewrite <- (session_cell_hour t p e start stop Hi (the_release rel)) in Hs by done.
    apply elem_of_select_where in Hs as [Hs Hx%bool_decide_eq_true]. exists s. split; [|done].
    injection Hx as _ Hx. symmetry. apply rfc3339_inj; [|done|done].
    apply elem_of_select_where in Hs as [Hs _]. by eapply stored_calendar.
  - intros (s & -> & Hs). pose proof Hs as [Hst Hw]%elem_of_select_where. unfold in_sessions in Hw.
    rewrite !andb_true_iff, !Z.leb_le in Hw. destruct Hw as [[[[Hq _] _] H1] H2].
    assert (Hov : over start stop (hour_start s)) by done. assert (Hov' := over_window _ _ _ Hov).
    assert (Hc := stored_calendar t Hi s Hst). assert (Hm := hour_start_whole s).
    apply the_release_Some in Hq.
    destruct (proj2 (Hgroup (hour_start s) Hm Hov Hc)) as (r & Hr).
    { exists s. rewrite <- (session_cell_hour t p e start stop Hi (the_release rel)) by done.
      apply elem_of_select_where. split; [done|]. apply bool_decide_eq_true. by rewrite Hq. }
    rewrite <- (row_cell_hour t p e start stop Hi Hstart Hstop (the_release rel)) in Hr by (done || lia).
    apply elem_of_select_where in Hr as [Hr Hx%bool_decide_eq_true]. rewrite <- Hp in Hr.
    apply list_elem_of_fmap in Hr as (a & -> & Ha). exists a. split; [|done].
    injection Hx as _ Hx. apply rfc3339_inj; [done|apply (proj1 (Forall_forall _ _) Hl a Ha)|by symmetry].
Qed.

(** A percentage. *)
Definition share (k n : Z) : f64 := f64_mul (f64_div (f64_of_u64 k) (f64_of_u64 n)) (f64_of_u64 100).

(** What the handlers answer for the sessions [ss] of a release, of all [n] sessions. *)
Definition healthy_answer (rel : string) (ss : list Session) (n : Z) (resp : ReleaseHealthResponse) : Prop :=
  rp_release resp = rel /\ rp_environment resp = e
  /\ rp_total_sessions resp = Z.of_nat (length ss)
  /\ rp_crashed_sessions resp = counted (has_status SS_Crashed) ss
  /\ rp_crash_free_session_rate resp
     = share (Z.of_nat (length ss) - counted (has_status SS_Crashed) ss) (Z.of_nat (length ss))
  /\ rp_adoption_rate resp = share (Z.of_nat (length ss)) n
  /\ (rp_first_seen resp ∈ hour_start <$> ss /\ forall h, h ∈ hour_start <$> ss -> rp_first_seen resp <= h)
  /\ (rp_last_seen resp ∈ hour_start <$> ss /\ forall h, h ∈ hour_start <$> ss -> h <= rp_last_seen resp).

Lemma max_of_spec l n : max_of l = Some n -> n ∈ l /\ forall y, y ∈ l -> y <= n.
Proof.
  rewrite max_as_min. intros H. apply fmap_Some in H as (m & E & ->).
  apply min_of_spec in E as [Hm Hy]. apply list_elem_of_fmap in Hm as (x & -> & Hx). rewrite Z.opp_involutive. split; [done|].
  intros y H. specialize (Hy (- y)). rewrite list_elem_of_fmap in Hy. specialize (Hy ltac:(by exists y)). lia.
Qed.

Lemma release_answer env k rel l n w :
  Forall aggregate_wf l -> aggregate_row <$> l ≡ₚ window_rows t p e start stop (the_release rel) -> l <> [] ->
  0 < n -> exists resp, calculate_health env k p rel e l n w = (Ok resp, w)
    /\ healthy_answer rel (window_sessions t p e start stop (the_release rel)) n resp.
Proof.
  intros Hl Hp Hne Hpos.
  assert (E1 := read_total _ l sg_total_sessions sm_sessions Hl Hp (fun a Ha => proj1 (proj2 (row_counters a Ha)))).
  assert (E2 := read_total _ l sg_crashed_sessions sm_crashed Hl Hp (fun a Ha => proj2 (proj2 (row_counters a Ha)))).
  rewrite window_count in E1. rewrite window_crashed in E2. assert (Hn := window_small (the_release rel)).
  unfold calculate_health. rewrite health_calculated by (done || lia).
  eexists. split; [done|]. unfold healthy_answer. cbn. rewrite E1, E2.
  assert (Hh := window_hours rel l Hl Hp).
  assert (Emin : min_of (sg_hour <$> l) = min_of (hour_start <$> window_sessions t p e start stop (the_release rel))).
  { by apply min_of_ext. }
  assert (Emax : max_of (sg_hour <$> l) = max_of (hour_start <$> window_sessions t p e start stop (the_release rel))).
  { by apply max_of_ext. }
  do 5 (split; [done|]). split; [|split].
  - unfold adoption_rate. by rewrite (proj2 (Z.ltb_lt 0 n)).
  - apply min_of_spec. rewrite <- Emin. by destruct l.
  - apply max_of_spec. rewrite <- Emax. by destruct l.
Qed.

Lemma window_positive Q s : s ∈ window_sessions t p e start stop Q ->
  0 < Z.of_nat (length (window_sessions t p e start stop any_release)).
Proof.
  intros [Hs Hw]%elem_of_select_where.
  assert (H : s ∈ window_sessions t p e start stop any_release).
  { apply elem_of_select_where. split; [done|]. unfold in_sessions in *. by rewrite !andb_true_iff in *; naive_solver. }
  destruct (window_sessions _ _ _ _ _ any_release); [by apply elem_of_nil in H|cbn; lia].
Qed.
End Answer.

(** C38. On a working database on which every hour of the last [days] days that is over has
    been aggregated after the last change to its sessions, and the running hour has not been
    aggregated, as the job does it, a member who asks for the health of a release is answered
    from the sessions themselves: the number of stored sessions of the release and environment
    whose hour is in the window and over, the number of those that crashed, the share of those
    that did not, their share of the sessions of all releases, and the first and the last hour
    with a session; without such a session the release is not found.  The numbers are those of
    the stored sessions; they are not scaled by the rate at which clients sample. *)
Theorem release_health_counts (env : Env) (t : SessTables) (ts : list CrashTask) (user_id : Uuid)
    (rel p e : string) (days start stop : Z) :
  sess_inv t -> Z.of_nat (length (st_sessions t)) < 2 ^ 31 ->
  stop = env_now env 0 -> start = stop - days * 86400 * 10 ^ 9 -> calendar start -> calendar stop ->
  may_ask t user_id p -> aggregated t p e start stop ->
  match window_sessions t p e start stop (the_release rel) with
  | [] => get_release_health env user_id rel p e days (mkSessWorld (mkConn t []) ts)
          = (Err (Failed (http 404 "release_not_found" "No data found for this release")),
             mkSessWorld (mkConn t []) ts)
  | ss => exists resp, get_release_health env user_id rel p e days (mkSessWorld (mkConn t []) ts)
            = (Ok resp, mkSessWorld (mkConn t []) ts)
          /\ healthy_answer e rel ss (Z.of_nat (length (window_sessions t p e start stop any_release))) resp
  end.
Proof.
  intros Hi Hsize Estop Estart Hc1 Hc2 Hask Hagg.
  destruct (authorized_run "Failed to get project" t user_id p ts Hask) as (project & Ea).
  destruct (release_run t p e start stop Hi rel) as (l & El & Hl & Hp).
  assert (Hh := window_hours t p e start stop Hi Hc1 Hc2 Hagg rel l Hl Hp).
  assert (Erun : get_release_health env user_id rel p e days (mkSessWorld (mkConn t []) ts)
    = match l with
      | [] => (Err (Failed (http 404 "release_not_found" "No data found for this release")),
               mkSessWorld (mkConn t []) ts)
      | _ => calculate_health env 1 p rel e l (Z.of_nat (length (window_sessions t p e start stop any_release)))
               (mkSessWorld (mkConn t []) ts)
      end).
  { unfold get_release_health. rewrite (bind_run _ _ _ _ _ Ea). rewrite <- Estop.
    unfold days_before. rewrite <- Estart.
    replace (start <? min_utc) with false by (symmetry; apply Z.ltb_ge; unfold calendar, min_utc in *; lia).
    rewrite (bind_run _ _ _ _ _ (eq_refl : sess_of_run (Done start) _ = (Ok start, _))).
    rewrite (bind_run _ _ _ _ _ (srepo_run _ _ _ _ _ _ El)). destruct l as [|a l]; [done|].
    by rewrite (bind_run _ _ _ _ _ (srepo_run _ _ _ _ _ _ (total_run t p e start stop Hi Hc1 Hc2 Hagg Hsize))). }
  destruct (window_sessions t p e start stop (the_release rel)) as [|s ss] eqn:Es.
  - rewrite Erun. destruct l as [|a l]; [done|]. exfalso.
    assert (H : sg_hour a ∈ sg_hour <$> a :: l) by left. rewrite Hh in H. by apply elem_of_nil in H.
  - rewrite <- Es. destruct (decide (l = [])) as [->|Hne].
    { exfalso. assert (H : hour_start s ∈ hour_start <$> s :: ss) by left. rewrite <- Hh in H. by apply elem_of_nil in H. }
    rewrite Erun. destruct l as [|a l]; [done|].
    eapply release_answer; [done..|]. apply (window_positive t p e start stop (the_release rel) s).
    rewrite Es. left.
Qed.
End Health.
