(* ===== verification/SessProjects.v ===== *)
(** The crash server keeps its promise to the sessions: in every step a stored project
    stays in its organization. *)
From stdpp Require Import base gmap list strings relations.
From Stdlib Require Import ZArith Lia.
From S2P Require Import Prelude Text CoreTypes Effects Sql Columns SourceMap CrashModel CrashRepo CrashCapture CrashRoutes CrashInvariant CrashRequests CrashServer.
From S2P Require Import SessModel SessRepo SessRoutes SessInvariant SessServer.

(** A predicate that only looks at the projects. *)
Definition of_projects (P : CrashTables -> Prop) : Prop := forall t t',
  t_projects t' = t_projects t -> P t -> P t'.

(** Statements on other tables. *)
Ltac beside := first [apply op_keeps_modify | apply op_keeps_write]; intros t;
  match goal with H : of_projects _ |- _ => first [intros _; apply H | apply H] end; done.

Section Beside.
Context `{CB : CrashBackend} (P : CrashTables -> Prop) (HP : of_projects P).

Lemma beside_create_issue i : op_keeps P (repo_create_issue i).
Proof. beside. Qed.
Lemma beside_update_issue now i : op_keeps P (repo_update_issue now i).
Proof. beside. Qed.
Lemma beside_delete_issue i : op_keeps P (repo_delete_issue i).
Proof. beside. Qed.
Lemma beside_create_event e : op_keeps P (repo_create_event e).
Proof. beside. Qed.
Lemma beside_delete_events cutoff : op_keeps P (repo_delete_old_events cutoff).
Proof. beside. Qed.
Lemma beside_bump now now' i : op_keeps P (repo_increment_issue_event_count now now' i).
Proof. beside. Qed.
Lemma beside_person now now' i p : op_keeps P (repo_add_issue_person now now' i p).
Proof.
  apply op_keeps_bind; [|intros _; beside]. apply op_keeps_modify. intros t _. apply HP.
  by destruct (existsb _ _).
Qed.
Lemma beside_create_release r : op_keeps P (repo_create_release r).
Proof. beside. Qed.
Lemma beside_get_release u now p o v : op_keeps P (repo_get_or_create_release u now p o v).
Proof.
  apply op_keeps_bind; [apply op_keeps_fetch_optional|]. intros [r|]; [apply op_keeps_ret|].
  apply op_keeps_bind; [apply beside_create_release|]. intros _. apply op_keeps_ret.
Qed.
Lemma beside_increment_release now p v n g : op_keeps P (repo_increment_release_crash_count now p v n g).
Proof. beside. Qed.
Lemma beside_create_artifact a : op_keeps P (repo_create_artifact a).
Proof. beside. Qed.
Lemma beside_delete_artifact a : op_keeps P (repo_delete_artifact a).
Proof. beside. Qed.
Lemma beside_delete_artifacts cutoff : op_keeps P (repo_delete_old_artifacts cutoff).
Proof. beside. Qed.
Lemma beside_artifact_accessed now a : op_keeps P (repo_update_artifact_last_accessed now a).
Proof. beside. Qed.
Lemma beside_create_key k : op_keeps P (repo_create_api_key k).
Proof. beside. Qed.
Lemma beside_revoke_key now k : op_keeps P (repo_revoke_api_key now k).
Proof. beside. Qed.
Lemma beside_key_used now k : op_keeps P (repo_update_api_key_last_used now k).
Proof. beside. Qed.
End Beside.

#[local] Hint Resolve beside_create_issue beside_update_issue beside_delete_issue beside_create_event
  beside_bump beside_person beside_create_release beside_get_release
  beside_increment_release beside_create_artifact beside_delete_artifact beside_artifact_accessed
  beside_create_key beside_revoke_key beside_key_used : keeps.

Section Follow.
Context `{SB : SessBackend}.

(** The projects agree with those of [C] on the organizations. *)
Definition followed (C C' : CrashTables) : Prop :=
  projects_ok C' /\ forall p p', p ∈ t_projects C -> p' ∈ t_projects C' ->
    pr_id p = pr_id p' -> pr_org_id p = pr_org_id p'.

Section Server.
Context (C : CrashTables).

Lemma followed_projects : of_projects (followed C).
Proof. unfold followed, projects_ok. by intros t t' ->. Qed.
#[local] Hint Resolve followed_projects : keeps.

(** ** Statements on projects *)

Lemma followed_update p : op_keeps (followed C) (repo_update_project p).
Proof.
  apply op_keeps_modify. intros t _ [[Hn Hok] Ha]. unfold followed, projects_ok. cbn [put_projects t_projects].
  split; [split|].
  - by rewrite update_where_fmap.
  - apply Forall_forall. intros q (r & Hr & ->)%elem_of_update_where.
    assert (H := proj1 (Forall_forall _ _) Hok r Hr). by destruct (project_is _ _).
  - intros r q Hr (q0 & Hq & ->)%elem_of_update_where E. specialize (Ha r q0 Hr Hq).
    destruct (project_is _ _); by apply Ha.
Qed.

Lemma followed_delete id : op_keeps (followed C) (repo_delete_project id).
Proof.
  apply op_keeps_write. intros t [[Hn Hok] Ha]. unfold followed, projects_ok. cbn [snd].
  assert (E : t_projects (delete_projects (uuid_text id) t)
              = delete_where (project_is (uuid_text id)) (t_projects t)) by done.
  rewrite E. split; [split|].
  - by apply delete_where_NoDup.
  - by apply delete_where_Forall.
  - intros r q Hr [Hq _]%elem_of_delete_where. by apply Ha.
Qed.

(** A new project has a new id; here [C] are the tables before the statement. *)
Lemma followed_create p c : projects_ok (cn_tables c) -> t_projects (cn_tables c) = t_projects C ->
  followed C (cn_tables (repo_create_project p c).2).
Proof.
  intros Hok E. apply (wp_sql CE_Database _ (fun _ c' => followed C (cn_tables c')) c).
  - intros e c' -> _. split; [done|]. rewrite E. intros r q Hr Hq Eid. f_equal.
    destruct Hok as [Hn _]. rewrite E in Hn. by apply (NoDup_key pr_id (t_projects C)).
  - intros a c' H _. destruct (_ && _) eqn:Hg; [|done]. injection H as _ H. rewrite <- H.
    apply andb_true_iff in Hg as [_ Hg%negb_true_iff]. destruct Hok as [Hn Hok].
    assert (Hnew : forall q, q ∈ t_projects (cn_tables c) -> pr_id q <> uuid_text (pj_id p)).
    { intros q Hq Eq. assert (Hx := existsb_false _ _ q Hg Hq). cbn in Hx. unfold project_is in Hx.
      by rewrite Eq, String.eqb_refl in Hx. }
    split; [split|]; cbn [put_projects t_projects].
    + apply NoDup_fmap_snoc; [done|]. intros q Hq. by apply Hnew.
    + apply Forall_snoc; [done|]. by split; eexists.
    + intros r q Hr Hq Eid. rewrite <- E in Hr. apply elem_of_app in Hq as [Hq| ->%list_elem_of_singleton].
      * f_equal. by apply (NoDup_key pr_id (t_projects (cn_tables c))).
      * by destruct (Hnew r Hr).
Qed.
#[local] Hint Resolve followed_update followed_delete : keeps.

(** ** Requests *)

Notation K := (on_tables (followed C)).

Lemma followed_person {E} now now' i who : keeps K (track_person (E := E) now now' i who).
Proof. unfold track_person. keeps_tac. Qed.
#[local] Hint Resolve followed_person : keeps.

Lemma followed_release {E} env e p n r : keeps K (track_release (E := E) env e p n r).
Proof. unfold track_release. keeps_tac. Qed.
#[local] Hint Resolve followed_release : keeps.

Lemma followed_next_id oc p : op_keeps (followed C) (repo_get_next_short_id oc p).
Proof.
  apply op_keeps_bind; [apply op_keeps_fetch_optional|]. intros o.
  apply op_keeps_bind; [apply keeps_of_result|]. intros j.
  apply op_keeps_bind; [apply op_keeps_query|]. intros n. apply op_keeps_ret.
Qed.
#[local] Hint Resolve followed_next_id : keeps.

Lemma followed_group {E} (fail : string -> CrashServerError -> E) env e p fp :
  keeps K (find_or_create_issue fail env e p fp).
Proof. unfold find_or_create_issue. keeps_tac. Qed.

Lemma followed_record {E} (fail : string -> CrashServerError -> E) env e p i n g :
  keeps K (record_event fail env e p i n g).
Proof. unfold record_event. keeps_tac. Qed.
#[local] Hint Resolve followed_group followed_record keeps_symbolicate_event : keeps.

Lemma followed_single env l u b : keeps K (process_single_capture env l u b).
Proof. unfold process_single_capture. keeps_tac. Qed.

Lemma followed_capture env l u b : keeps K (capture_crash env l u b).
Proof. unfold capture_crash, parse_project_id. keeps_tac. Qed.

Lemma followed_batch envs l u bs : keeps K (batch_capture_crash envs l u bs).
Proof.
  unfold batch_capture_crash. destruct (_ <? _)%nat; [apply keeps_raise|].
  apply keeps_bind; [|intros x; apply keeps_ret]. generalize 0%nat.
  induction bs as [|b bs IH]; intros n; cbn [batch_loop]; [apply keeps_ret|].
  apply keeps_bind; [|intros r; apply keeps_bind; [apply IH|intros x; apply keeps_ret]].
  intros w Hw. assert (H := followed_single (envs n) l u b w Hw).
  unfold catch_failed. by destruct (process_single_capture _ _ _ _ w) as [[a|[m|]] w'].
Qed.

Lemma followed_sdk env key b : keeps K (capture_crash_with_api_key env key b).
Proof.
  unfold capture_crash_with_api_key, parse_project_id, verify_project_api_key, sdk_new_issue,
    sdk_existing_issue. keeps_tac.
Qed.

Lemma followed_files env i u o p r d fs : keeps K (upload_files env i u o p r d fs).
Proof.
  revert i. induction fs as [|[n x] fs IH]; intros i; cbn [upload_files]; [keeps_tac|].
  unfold upload_file. keeps_tac.
Qed.
#[local] Hint Resolve followed_files : keeps.

Lemma followed_project l u p r : keeps K (serve_project l u p r).
Proof.
  destruct r; cbn [serve_project]; apply keeps_dropped.
  - unfold get_project, parse_project_id. keeps_tac.
  - unfold update_project, parse_project_id. keeps_tac.
  - unfold delete_project, parse_project_id. keeps_tac.
  - unfold list_issues, parse_project_id. keeps_tac.
  - unfold resolve_issue. keeps_tac.
  - unfold unresolve_issue. keeps_tac.
  - unfold ignore_issue. keeps_tac.
  - unfold assign_issue. keeps_tac.
  - unfold get_issue. keeps_tac.
  - unfold delete_issue. keeps_tac.
  - unfold list_issue_events. keeps_tac.
  - unfold list_events, parse_project_id. keeps_tac.
  - unfold get_event, parse_project_id, parse_event_id. keeps_tac.
  - unfold stream_crash, parse_project_id. keeps_tac. by apply keeps_fun.
  - unfold list_releases, parse_project_id. keeps_tac.
  - unfold create_release, parse_project_id. keeps_tac.
  - unfold get_release, parse_project_id. keeps_tac.
  - unfold list_artifacts, parse_project_id. keeps_tac.
  - unfold upload_artifacts, parse_project_id. keeps_tac.
  - unfold get_artifact, parse_project_id, parse_artifact_id, artifact_for_project. keeps_tac.
  - unfold delete_artifact, parse_project_id, parse_artifact_id, artifact_for_project. keeps_tac.
  - unfold list_api_keys, parse_project_id. keeps_tac.
  - unfold create_api_key, parse_project_id. keeps_tac.
  - unfold revoke_api_key, parse_project_id, parse_api_key_id. keeps_tac.
Qed.
End Server.

(** ** A new project *)

Lemma followed_refl C : projects_ok C -> followed C C.
Proof.
  intros Hok. split; [done|]. intros p p' Hp Hp' E. f_equal. destruct Hok as [Hn _].
  by apply (NoDup_key pr_id (t_projects C)).
Qed.

Lemma wp_through {S E A B} (P R : S -> Prop) (m : StM S E A) (f : A -> StM S E B) s :
  keeps P m -> (forall s, P s -> R s) -> (forall a s, P s -> wp (f a) (fun _ => R) s) ->
  P s -> wp (bind m f) (fun _ => R) s.
Proof.
  intros Hm HR Hf Hs. apply stm_bind. eapply stm_mono; [by apply (wp_keeps P)|].
  intros [a|e] s' H; [by apply Hf|by apply HR].
Qed.

Lemma followed_new_project env l u o n s pf w : projects_ok (tables_of w) ->
  wp (create_project env l u o n s pf) (fun _ => on_tables (followed (tables_of w))) w.
Proof.
  intros Hok. set (C := tables_of w) in *.
  assert (Hsame : forall w', on_tables (fun t => t = C) w' -> on_tables (followed C) w').
  { intros w' E. unfold on_tables in *. rewrite E. by apply followed_refl. }
  unfold create_project, parse_org_id.
  apply (wp_through (on_tables (fun t => t = C))); [keeps_tac|done| |done]. intros oid w1 H1.
  apply (wp_through (on_tables (fun t => t = C))); [keeps_tac|done| |done]. intros x w2 H2.
  destruct (negb _); [by apply Hsame|]. cbv zeta. apply stm_bind, wp_crash_repo.
  assert (H := fun p => followed_create C p (cw_conn w2)).
  unfold on_tables, tables_of in H2. rewrite H2 in H. specialize (fun p => H p Hok eq_refl).
  match goal with |- context [repo_create_project ?p] => specialize (H p) end.
  unfold wp. destruct (repo_create_project _ _) as [[y|y] c]; [|exact H].
  apply wp_keeps; [|exact H]. keeps_tac.
Qed.

(** * Every step *)

(** Whatever the crash server does, a project stays in its organization: it may be added
    to the history of the sessions. *)
Lemma crash_step_follows (s : CrashStep) (w : CrashWorld) :
  projects_follow (tables_of w) (tables_of (crash_step s w)).
Proof.
  intros Hok. change (followed (tables_of w) (tables_of (crash_step s w))).
  assert (Hw : on_tables (followed (tables_of w)) w) by by apply followed_refl.
  assert (HP := followed_projects (tables_of w)).
  destruct s as [l u r|env k body|now t|now d|now d|fs]; cbn [crash_step].
  - destruct r as [env body|envs events|o|env o n s pf|p r]; cbn [serve_user].
    + by apply (keeps_dropped _ _ (followed_capture _ env l u body)).
    + by apply (keeps_dropped _ _ (followed_batch _ envs l u events)).
    + apply (keeps_dropped (on_tables (followed (tables_of w)))); [|done]. unfold list_projects, parse_org_id. keeps_tac.
    + assert (H := followed_new_project env l u o n s pf w Hok). unfold dropped, bind, wp in *.
      by destruct (create_project _ _ _ _ _ _ _ w) as [[a|x] w'].
    + by apply followed_project.
  - by apply followed_sdk.
  - destruct t; [by apply (beside_key_used _ HP)|by apply (beside_artifact_accessed _ HP)].
  - by apply (beside_delete_events _ HP).
  - by apply (beside_delete_artifacts _ HP).
  - done.
Qed.
End Follow.
