(* ===== verification/SessCases.v ===== *)
(** App sessions on concrete databases. *)
From stdpp Require Import base gmap list strings countable pretty relations.
From Stdlib Require Import ZArith Lia Ascii.
From S2P Require Import Prelude Text FlagCore CoreTypes Effects Sql Columns Samples SourceMap CrashModel CrashRepo CrashCapture CrashRoutes CrashInvariant CrashRequests CrashServer CrashCases.
From S2P Require Import JobModel JobStore SessModel SessRepo SessRoutes SessInvariant SessServer SessAggregation SessHealth SessProjects.
Local Open Scope Z_scope.

(** * A backend *)

(** Rows and groups come in the opposite order; a hash is a length. *)
#[refine] Definition sample_sessions : SessBackend := {|
  sn_crash := sample_backend;
  compute_hash s := Z.of_nat (String.length s) mod 2 ^ 64;
  chrono_error _ := "premature end of input";
  scan_order R l := rev l;
  hash_order R l := rev l;
|}.
Proof.
  - intros s. by apply Z.mod_pos_bound.
  - intros R l. symmetry. apply Permutation_rev.
  - intros R l. symmetry. apply Permutation_rev.
Defined.

Section Cases.
#[local] Existing Instance sample_sessions.

(** * A database *)

(** Organization 1 with user 10 and project 5, organization 2 with user 20 and project 6. *)
Definition shop : string := uuid_text 5%N.
Definition rival_shop : string := uuid_text 6%N.
Definition owner : Uuid := 10%N.
Definition rival_owner : Uuid := 20%N.

Definition two_projects : CrashTables :=
  put_projects [project_row sample_project;
                project_row (mkCrashProject 6%N 2%N "Rival" "rival-web" JavaScript None [] 0 0)]
    sample_tables.

Definition morning : SessWorld := mkSessWorld (mkConn (mkSessTables two_projects [] []) []) [].

Lemma morning_inv : sess_inv (tables_in morning).
Proof.
  split; try constructor.
  - by apply (bool_decide_unpack _).
  - repeat constructor; eexists; reflexivity.
Qed.

(** Minutes of the twentieth day. *)
Definition day_20 : Z := 480 * hour_ns.
Definition at_minute (m : Z) : Z := day_20 + m * 60 * 10 ^ 9.

(** The clock stands; identifiers start at [u]. *)
Definition clock (m : Z) (u : N) : Env := mkEnv (fun _ => at_minute m) (fun i => (u + N.of_nat i)%N).

Lemma clock_clocks_ok m u : (0 <=? m) && (m <? 10000) = true -> clocks_ok (clock m u).
Proof.
  intros [H1%Z.leb_le H2%Z.ltb_lt]%andb_true_iff k. unfold clock_ok, clock, env_now, at_minute, day_20, hour_ns.
  lia.
Qed.

Definition starts (project person : string) (release : option string) : SessionStartRequest :=
  mkSessionStartRequest project person None "javascript" "production" release None (f64_of_u64 1).
Definition ends (project : string) (id : N) (status : string) (errors crashes duration : Z)
    : SessionEndRequest :=
  mkSessionEndRequest project (uuid_text id) status errors crashes duration.

(** ** A day *)

(** Three sessions of release 1.0 and one without a release start in the first hour; one
    of them crashes, one is not ended. *)
Definition requests : list (Uuid * SessRequest) :=
  [(owner, SQ_Start (clock 1 1000%N) (starts shop "ann" (Some "1.0")));
   (owner, SQ_Start (clock 2 1001%N) (starts shop "bob" (Some "1.0")));
   (owner, SQ_Start (clock 3 1002%N) (starts shop "ann" (Some "1.0")));
   (owner, SQ_Start (clock 4 1003%N) (starts shop "eve" None));
   (owner, SQ_End (clock 5 0%N) (ends shop 1000%N "exited" 0 0 240000));
   (owner, SQ_End (clock 6 0%N) (ends shop 1001%N "crashed" 2 1 180000));
   (owner, SQ_End (clock 7 0%N) (ends shop 1003%N "errored" 1 0 60000))].

Definition served (w : SessWorld) (rs : list (Uuid * SessRequest)) : SessWorld :=
  foldl (fun w ur => (serve_sess ur.1 ur.2 w).2) w rs.

Definition noon : SessWorld := served morning requests.
Definition aggregation_run : Env := clock 70 2000%N.
Definition evening : SessWorld := (session_aggregation aggregation_run (fun _ => false) noon).2.

Lemma served_steps rs w : Forall (fun ur => sess_request_ok ur.2) rs -> rtc sess_step w (served w rs).
Proof.
  intros H. revert w. induction H as [|[u r] rs Hr _ IH]; intros w; [apply rtc_refl|].
  eapply rtc_l; [by apply S_User|]. apply IH.
Qed.

Lemma requests_ok : Forall (fun ur => sess_request_ok ur.2) requests.
Proof. repeat constructor; cbn; try (by apply clock_clocks_ok); done. Qed.

Lemma day_steps : rtc sess_step morning evening.
Proof.
  apply (rtc_r _ noon).
  - exact (served_steps requests morning requests_ok).
  - refine (S_Aggregate aggregation_run (fun _ => false) noon _ _); [by apply clock_clocks_ok|by vm_compute].
Qed.

(** What is stored in the evening. *)
Lemma evening_rows :
  ((fun r => (sr_id r, sr_status r, sr_crashed r)) <$> st_sessions (tables_in evening))
    = [(uuid_text 1000%N, "exited", 0); (uuid_text 1001%N, "crashed", 1);
       (uuid_text 1002%N, "active", 0); (uuid_text 1003%N, "errored", 0)]%string
  /\ ((fun r => (gr_release r, gr_total_sessions r, gr_crashed_sessions r, gr_abnormal_sessions r, gr_unique_users r))
        <$> st_aggregates (tables_in evening))
    = [(Some "1.0"%string, 3, 1, 1, 2); (None, 1, 0, 0, 1)].
Proof. vm_compute. split; reflexivity. Qed.

(** The owner deletes the project, and with it its sessions. *)
Definition without_shop : CrashTables :=
  tables_of (crash_step (ByUser "en" owner (OnProject shop DeleteProject)) (world two_projects)).
Definition night : SessWorld :=
  put_sess_conn (mkConn (sess_cascade without_shop (tables_in evening)) (cn_faults (sx_conn evening))) evening.

Lemma evening_projects : st_crash (tables_in evening) = two_projects.
Proof. vm_compute. reflexivity. Qed.

Lemma evening_follows : projects_follow (st_crash (tables_in evening)) without_shop.
Proof. rewrite evening_projects. apply (crash_step_follows _ (world two_projects)). Qed.

Lemma night_empty : st_sessions (tables_in night) = [] /\ st_aggregates (tables_in night) = []
  /\ (pr_id <$> t_projects (st_crash (tables_in night))) = [rival_shop].
Proof. vm_compute. split_and!; reflexivity. Qed.

Lemma sessions_consistent_witness : sess_inv (tables_in evening) /\ sess_inv (tables_in night).
Proof.
  split.
  - exact (sessions_consistent morning evening morning_inv day_steps).
  - exact (sessions_consistent morning night morning_inv
             (rtc_r _ _ _ day_steps (S_Crash without_shop evening evening_follows))).
Defined.

(** ** The aggregation of the first hour *)

Lemma noon_inv : sess_inv (tables_in noon).
Proof. exact (sess_steps_inv morning noon (served_steps requests morning requests_ok) morning_inv). Qed.

Lemma clock_distinct m u : distinct_uuids (clock m u).
Proof. intros i j E. unfold clock, env_uuid in E. lia. Qed.

Lemma noon_count : Z.of_nat (length (st_sessions (tables_in noon))) < 2 ^ 31.
Proof. vm_compute. reflexivity. Qed.

Lemma noon_fits : fits (select_where (in_hour day_20) (stored (tables_in noon))).
Proof. vm_compute. reflexivity. Qed.

Lemma noon_fresh env : fresh_from env 0 (tables_in noon).
Proof.
  intros j _. assert (E : st_aggregates (tables_in noon) = []) by (vm_compute; reflexivity).
  rewrite E. apply not_elem_of_nil.
Qed.

Lemma aggregation_exact_witness :
  exists out t', session_aggregation aggregation_run (fun _ => false)
      (mkSessWorld (mkConn (tables_in noon) []) []) = (Ok out, mkSessWorld (mkConn t' []) [])
    /\ (summary_in <$> bucket_rows t' shop (Some "1.0") "production" day_20)
       = [mkSummary 3 1 1 1 0 2 1 420000 (Some 180000) (Some 240000) 2 1].
Proof.
  destruct (aggregation_exact aggregation_run (tables_in noon) [] day_20 noon_inv
    (clock_clocks_ok 70 2000 eq_refl) eq_refl (clock_distinct 70 2000) (noon_fresh _)
    noon_count noon_fits) as (out & t' & Erun & _ & _ & Hrows & _).
  exists out, t'. split; [exact Erun|]. rewrite Hrows. vm_compute. reflexivity.
Defined.

(** ** The health of release 1.0 *)

(** Every stored session started in the first hour, and every aggregate is of it. *)
Lemma evening_first_hour :
  forallb (fun s => hour_start s =? day_20) (stored (tables_in evening))
  && forallb (fun r => String.eqb (gr_hour r) (to_rfc3339 day_20)) (st_aggregates (tables_in evening)) = true.
Proof. vm_compute. reflexivity. Qed.

Lemma evening_releases rel :
  summary_in <$> bucket_rows (tables_in evening) shop rel "production" day_20
  = match hour_group (tables_in evening) shop rel "production" day_20 with [] => [] | l => [summary_of l] end.
Proof.
  destruct (decide (rel = None)) as [->|H1]; [vm_compute; reflexivity|].
  destruct (decide (rel = Some "1.0"%string)) as [->|H2]; [vm_compute; reflexivity|].
  unfold bucket_rows, hour_group. rewrite !select_where_none; [done|..].
  - intros s Hs. unfold of_release. rewrite bool_decide_eq_false_2; [by rewrite andb_false_r|].
    assert (H : forallb (fun s => bool_decide (ss_release s = None) || bool_decide (ss_release s = Some "1.0"%string))
              (stored (tables_in evening)) = true) by (vm_compute; reflexivity).
    rewrite forallb_forall in H. specialize (H s (proj1 (list_elem_of_In _ _) Hs)).
    apply orb_true_iff in H as [H%bool_decide_eq_true|H%bool_decide_eq_true]; congruence.
  - intros r Hr. unfold bucket_is. rewrite bool_decide_eq_false_2; [by rewrite andb_false_r|].
    assert (H : forallb (fun r => bool_decide (gr_release r = None) || bool_decide (gr_release r = Some "1.0"%string))
              (st_aggregates (tables_in evening)) = true) by (vm_compute; reflexivity).
    rewrite forallb_forall in H. specialize (H r (proj1 (list_elem_of_In _ _) Hr)).
    apply orb_true_iff in H as [H%bool_decide_eq_true|H%bool_decide_eq_true]; congruence.
Qed.

Lemma evening_aggregated start stop : calendar start -> calendar stop -> day_20 + hour_ns <= stop ->
  aggregated (tables_in evening) shop "production" start stop.
Proof.
  intros Hstart Hstop Hover rel h Hh Hw. destruct (decide (h = day_20)) as [->|Hne].
  { rewrite (proj2 (Z.leb_le _ _) Hover). apply evening_releases. }
  assert (H := evening_first_hour). apply andb_true_iff in H as [Hs Hr].
  rewrite forallb_forall in Hs, Hr.
  unfold bucket_rows, hour_group. rewrite !select_where_none; [by destruct (_ <=? _)|..].
  - intros s Hin. rewrite in_hour_start by done. specialize (Hs s (proj1 (list_elem_of_In _ _) Hin)).
    apply Z.eqb_eq in Hs. rewrite Hs. rewrite (proj2 (Z.eqb_neq _ _)) by done. apply andb_false_r.
  - intros r Hin. specialize (Hr r (proj1 (list_elem_of_In _ _) Hin)). apply String.eqb_eq in Hr.
    unfold bucket_is. rewrite Hr. rewrite (proj2 (String.eqb_neq (to_rfc3339 day_20) (to_rfc3339 h))); [apply andb_false_r|].
    intros E. apply Hne. symmetry. refine (rfc3339_inj _ _ _ _ E); unfold calendar, day_20, hour_ns in *; lia.
Qed.

Lemma evening_inv : sess_inv (tables_in evening).
Proof. exact (sess_steps_inv morning evening day_steps morning_inv). Qed.

Lemma evening_count : Z.of_nat (length (st_sessions (tables_in evening))) < 2 ^ 31.
Proof. vm_compute. reflexivity. Qed.

Lemma evening_asks : may_ask (tables_in evening) owner shop.
Proof.
  exists 5%N, (project_row sample_project), sample_project.
  rewrite evening_projects. split_and!; vm_compute; reflexivity.
Qed.

Lemma at_minute_calendar m : -30000 < m < 30000 -> calendar (at_minute m).
Proof. unfold calendar, at_minute, day_20, hour_ns. lia. Qed.

(** A week before the ninetieth minute. *)
Definition a_week_before : Z := at_minute (90 - 7 * 1440).

Lemma release_health_counts_witness :
  exists resp, get_release_health (clock 90 0%N) owner "1.0" shop "production" 7
      (mkSessWorld (mkConn (tables_in evening) []) []) = (Ok resp, mkSessWorld (mkConn (tables_in evening) []) [])
    /\ rp_total_sessions resp = 3 /\ rp_crashed_sessions resp = 1
    /\ rp_adoption_rate resp = share 3 4.
Proof.
  assert (C1 : calendar a_week_before) by (apply at_minute_calendar; lia).
  assert (C2 : calendar (at_minute 90)) by (apply at_minute_calendar; lia).
  assert (Es : a_week_before = at_minute 90 - 7 * 86400 * 10 ^ 9) by (vm_compute; reflexivity).
  assert (Hover : day_20 + hour_ns <= at_minute 90) by (unfold at_minute, hour_ns; lia).
  assert (H := release_health_counts (clock 90 0%N) (tables_in evening) [] owner "1.0" shop "production" 7
    a_week_before (at_minute 90) evening_inv evening_count eq_refl Es C1 C2 evening_asks
    (evening_aggregated _ _ C1 C2 Hover)).
  destruct (window_sessions _ _ _ _ _ (the_release _)) as [|s l] eqn:E.
  { exfalso. assert (El : length (window_sessions (tables_in evening) shop "production"
      a_week_before (at_minute 90) (the_release "1.0")) = 3%nat) by (vm_compute; reflexivity).
    by rewrite E in El. }
  rewrite <- E in H. destruct H as (resp & Erun & _ & _ & H1 & H2 & _ & H3 & _).
  exists resp. split; [exact Erun|]. rewrite H1, H2, H3. vm_compute. split_and!; reflexivity.
Defined.

(** * What the code does otherwise than it says *)

Definition row_status (w : SessWorld) (id : N) : list (string * Z * Z) :=
  (fun r => (sr_status r, sr_crash_count r, sr_crashed r))
    <$> select_where (session_is (uuid_text id)) (st_sessions (tables_in w)).

(** The session is not looked for in the project: a member of another organization ends
    it, naming a project of their own. *)
Lemma rival_ends_session :
  let '(r, w) := end_session (clock 8 0%N) rival_owner (ends rival_shop 1000%N "crashed" 0 7 1) noon in
  r = Ok true /\ row_status noon 1000%N = [("exited"%string, 0, 0)]
  /\ row_status w 1000%N = [("crashed"%string, 7, 1)].
Proof. vm_compute. split_and!; reflexivity. Qed.

(** A session that does not exist is ended with success. *)
Lemma unknown_session_ends :
  let '(r, w) := end_session (clock 8 0%N) owner (ends shop 7777%N "exited" 0 0 1) noon in
  r = Ok true /\ st_sessions (tables_in w) = st_sessions (tables_in noon).
Proof. vm_compute. split; reflexivity. Qed.

(** Two runs in an hour: the aggregate of release 1.0 is replaced, the one without a
    release is there twice. *)
Lemma unreleased_aggregates_repeat :
  gr_release <$> st_aggregates (tables_in
    (session_aggregation (clock 80 3000%N) (fun _ => false) evening).2)
  = [Some "1.0"%string; None; None].
Proof. vm_compute. reflexivity. Qed.

(** A session that is ended after the aggregation of its hour stays abnormal in it. *)
Lemma late_end_stays_abnormal :
  let w := (end_session (clock 75 0%N) owner (ends shop 1002%N "exited" 0 0 4320000) evening).2 in
  let w := (session_aggregation (clock 130 3000%N) (fun _ => false) w).2 in
  row_status w 1002%N = [("exited"%string, 0, 0)]
  /\ st_aggregates (tables_in w) = st_aggregates (tables_in evening)
  /\ (gr_abnormal_sessions <$> select_where (fun r => bool_decide (gr_release r = Some "1.0"%string))
         (st_aggregates (tables_in w))) = [1].
Proof. vm_compute. split_and!; reflexivity. Qed.

(** The status of the client is stored, whatever it counts: a session with a crash has
    exited, and its release is free of crashed sessions but not of crashed users. *)
Definition claimed_exit : SessWorld :=
  served morning [(owner, SQ_Start (clock 1 1000%N) (starts shop "ann" (Some "1.0")));
                  (owner, SQ_End (clock 5 0%N) (ends shop 1000%N "exited" 0 1 240000))].

Lemma client_status_wins :
  row_status claimed_exit 1000%N = [("exited"%string, 1, 1)]
  /\ (determine_status <$> stored (tables_in claimed_exit)) = [SS_Crashed]
  /\ exists resp w, get_release_health (clock 90 0%N) owner "1.0" shop "production" 7
         (session_aggregation aggregation_run (fun _ => false) claimed_exit).2 = (Ok resp, w)
       /\ rp_crash_free_session_rate resp = f64_of_u64 100 /\ rp_crash_free_user_rate resp = f64_of_u64 0.
Proof. split_and!; [vm_compute; reflexivity..|]. eexists _, _. split; [vm_compute; reflexivity|]. by vm_compute. Qed.

(** A session may be ended as active. *)
Lemma session_ends_active :
  let '(r, w) := end_session (clock 8 0%N) owner (ends shop 1002%N "active" 0 0 1) noon in
  r = Ok true /\ ((fun r => (sr_status r, sr_ended_at r)) <$>
    select_where (session_is (uuid_text 1002%N)) (st_sessions (tables_in w)))
  = [("active"%string, Some (to_rfc3339 (at_minute 8)))].
Proof. vm_compute. split; reflexivity. Qed.

(** A release that every session uses has been replaced. *)
Lemma universal_release_is_replaced :
  AdoptionStage_from_rate (adoption_rate 3 3) = Ad_Replaced /\ AdoptionStage_from_rate (adoption_rate 1 100) = Ad_New.
Proof. vm_compute. split; reflexivity. Qed.

(** A question about too many days panics. *)
Lemma many_days_panic :
  (get_release_health (clock 90 0%N) owner "1.0" shop "production" (2 ^ 32 - 1) evening).1 = Err Panicked.
Proof. vm_compute. reflexivity. Qed.

(** The durations are the clients': their sum may leave the [u64]. *)
Definition endless : Session :=
  mkSession 1%N "" "" None "ann" SS_Exited None "production" 0 0 false 0 (Some 0) (Some (2 ^ 64 - 1)) Pf_JavaScript None
    true (f64_of_u64 1) 0 0.

Lemma long_durations_overflow :
  tally_group true new_tally [endless; endless] = Panic
  /\ (exists t, tally_group false new_tally [endless; endless] = Done t /\ ta_duration t = 2 ^ 64 - 2).
Proof. split; [vm_compute; reflexivity|]. eexists. split; [reflexivity|]. vm_compute. reflexivity. Qed.
End Cases.
