(* ===== verification/WgModel.v ===== *)
(** The data of the WireGuard overlay network: devices.rs, weavers.rs, sessions.rs,
    error.rs and peer_stream.rs of [crates/loom-server-wgtunnel] and wgtunnel.rs of
    [crates/loom-server-db] over the tables of
    [crates/loom-server/migrations/028_wgtunnel.sql], with the text of IPv6 addresses. *)
From stdpp Require Import base gmap list strings pretty.
From Stdlib Require Import ZArith Lia Ascii.
From S2P Require Import Prelude Text CoreTypes Effects Sql Columns.
Local Open Scope Z_scope.

(** * IPv6 addresses *)

(** [Ipv6Addr] as its [u128], and its [segments]. *)
Definition Ipv6Addr := Z.

Definition segment (a : Ipv6Addr) (shift : Z) : Z := Z.land (Z.shiftr a shift) 65535.
Definition segments (a : Ipv6Addr) : list Z := segment a <$> [112; 96; 80; 64; 48; 32; 16; 0].
Definition of_segments (l : list Z) : Ipv6Addr := foldl (fun a g => a * 65536 + g) 0 l.

(** ** Display *)

(** [{:x}] of a [u16]. *)
Definition hex_char (d : Z) : ascii := ascii_of_N (Z.to_N (if d <? 10 then 48 + d else 87 + d)).
Definition lower_hex (x : Z) : string :=
  let digit k := hex_char (x / 16 ^ k mod 16) in
  if x <? 16 then String (digit 0) ""
  else if x <? 256 then String (digit 1) (String (digit 0) "")
  else if x <? 4096 then String (digit 2) (String (digit 1) (String (digit 0) ""))
  else String (digit 3) (String (digit 2) (String (digit 1) (String (digit 0) ""))).

Fixpoint fmt_subslice (l : list Z) : string :=
  match l with
  | [] => ""
  | [x] => lower_hex x
  | x :: l => lower_hex x +:+ String ":" (fmt_subslice l)
  end.

(** The first longest run of zeros: its start and length. *)
Record Span := mkSpan { sp_start : nat; sp_len : nat }.

Fixpoint longest_zeroes (i : nat) (current longest : Span) (l : list Z) : Span :=
  match l with
  | [] => longest
  | x :: l =>
      if x =? 0 then
        let current := mkSpan (if (sp_len current =? 0)%nat then i else sp_start current) (S (sp_len current)) in
        longest_zeroes (S i) current (if (sp_len longest <? sp_len current)%nat then current else longest) l
      else longest_zeroes (S i) (mkSpan 0 0) longest l
  end.

(** [to_ipv4_mapped], as its last two segments. *)
Definition ipv4_mapped (l : list Z) : option (Z * Z) :=
  match l with
  | [0; 0; 0; 0; 0; 65535; ab; cd] => Some (ab, cd)
  | _ => None
  end.

Definition dec (x : Z) : string := pretty (Z.to_N x).

Definition ipv6_to_string (a : Ipv6Addr) : string :=
  let l := segments a in
  match ipv4_mapped l with
  | Some (ab, cd) =>
      "::ffff:" +:+ dec (ab / 256) +:+ "." +:+ dec (ab mod 256) +:+ "." +:+ dec (cd / 256)
      +:+ "." +:+ dec (cd mod 256)
  | None =>
      let zeroes := longest_zeroes 0 (mkSpan 0 0) (mkSpan 0 0) l in
      if (1 <? sp_len zeroes)%nat
      then fmt_subslice (take (sp_start zeroes) l) +:+ "::"
           +:+ fmt_subslice (drop (sp_start zeroes + sp_len zeroes) l)
      else fmt_subslice l
  end.

(** ** FromStr *)

(** [char::to_digit]. *)
Definition to_digit (radix : Z) (c : ascii) : option Z :=
  let n := byte_of c in
  let d := if (48 <=? n) && (n <=? 57) then n - 48
           else if (97 <=? n) && (n <=? 122) then n - 87
           else if (65 <=? n) && (n <=? 90) then n - 55 else radix in
  if d <? radix then Some d else None.

(** The value, the number of digits and the rest; [None] with more than [max_digits]. *)
Fixpoint read_digits (radix : Z) (max_digits count : nat) (acc : Z) (s : string)
    : option (Z * nat * string) :=
  match s with
  | EmptyString => Some (acc, count, s)
  | String c r =>
      match to_digit radix c with
      | Some d =>
          if (max_digits <? S count)%nat then None
          else read_digits radix max_digits (S count) (acc * radix + d) r
      | None => Some (acc, count, s)
      end
  end.

Definition read_number (radix : Z) (max_digits : nat) (allow_zero_prefix : bool) (limit : Z)
    (s : string) : option (Z * string) :=
  match read_digits radix max_digits 0 0 s with
  | Some (v, count, r) =>
      if (count =? 0)%nat then None
      else if negb allow_zero_prefix && starts_with s "0" && (1 <? count)%nat then None
      else if v <? limit then Some (v, r) else None
  | None => None
  end.

Definition read_separator {A} (sep : string) (index : nat) (inner : string -> option (A * string))
    (s : string) : option (A * string) :=
  if (0 <? index)%nat then s ← strip_prefix sep s; inner s else inner s.

Definition read_ipv4_addr (s : string) : option (Z * Z * Z * Z * string) :=
  let octet i := read_separator "." i (read_number 10 3 false 256) in
  '(a, s) ← octet 0%nat s;
  '(b, s) ← octet 1%nat s;
  '(c, s) ← octet 2%nat s;
  '(d, s) ← octet 3%nat s;
  Some (a, b, c, d, s).

Definition read_v4_groups (s : string) : option (list Z * string) :=
  '(a, b, c, d, s) ← read_ipv4_addr s; Some ([a * 256 + b; c * 256 + d], s).

(** Up to [n] groups from the [i]-th on, whether they end with an IPv4 address, and the
    rest. *)
Fixpoint read_groups (i n : nat) (s : string) : list Z * bool * string :=
  match n with
  | O => ([], false, s)
  | S n =>
      match (if (0 <? n)%nat then read_separator ":" i read_v4_groups s else None) with
      | Some (gs, s) => (gs, true, s)
      | None =>
          match read_separator ":" i (read_number 16 4 true 65536) s with
          | Some (g, s) => let '(gs, v4, s) := read_groups (S i) n s in (g :: gs, v4, s)
          | None => ([], false, s)
          end
      end
  end.

Definition read_ipv6_addr (s : string) : option (list Z * string) :=
  let '(head, head_ipv4, s) := read_groups 0 8 s in
  if (length head =? 8)%nat then Some (head, s)
  else if head_ipv4 then None
  else
    s ← strip_prefix "::" s;
    let '(tail, _, s) := read_groups 0 (8 - (length head + 1)) s in
    Some (head ++ replicate (8 - length tail - length head) 0 ++ tail, s).

Definition ipv6_parse (s : string) : option Ipv6Addr :=
  match read_ipv6_addr s with
  | Some (l, EmptyString) => Some (of_segments l)
  | _ => None
  end.

Example overlay_text : ipv6_to_string 0xfd7a115ca1e00001000000000000002a = "fd7a:115c:a1e0:1::2a".
Proof. vm_compute. reflexivity. Qed.
Example mapped_text : ipv6_parse (ipv6_to_string 0xffff01020304) = Some 0xffff01020304.
Proof. vm_compute. reflexivity. Qed.
Example unspecified_text : ipv6_to_string 0 = "::" /\ ipv6_parse "::" = Some 0.
Proof. vm_compute. split; reflexivity. Qed.

(** ** Round trip *)

Lemma segment_div a k : 0 <= k -> segment a k = a / 2 ^ k mod 65536.
Proof.
  intros Hk. unfold segment. change 65535 with (Z.ones 16). by rewrite Z.land_ones, Z.shiftr_div_pow2 by done.
Qed.

Lemma segment_u16 a k : 0 <= k -> 0 <= segment a k < 65536.
Proof. intros Hk. rewrite segment_div by done. by apply Z.mod_pos_bound. Qed.

Lemma of_segments_inv a : 0 <= a < 2 ^ 128 -> of_segments (segments a) = a.
Proof.
  intros Ha. unfold segments. cbn [fmap list_fmap]. unfold of_segments. cbn [foldl].
  rewrite !segment_div by done.
  assert (H : forall k, 0 <= k -> a / 2 ^ k = a / 2 ^ (k + 16) * 65536 + a / 2 ^ k mod 65536).
  { intros k Hk. assert (0 < 2 ^ k) by (apply Z.pow_pos_nonneg; lia).
    rewrite Z.pow_add_r, <- Z.div_div by lia.
    change (2 ^ 16) with 65536. assert (E := Z.div_mod (a / 2 ^ k) 65536 ltac:(done)). lia. }
  assert (H0 := H 0 ltac:(done)). assert (H1 := H 16 ltac:(done)). assert (H2 := H 32 ltac:(done)).
  assert (H3 := H 48 ltac:(done)). assert (H4 := H 64 ltac:(done)). assert (H5 := H 80 ltac:(done)).
  assert (H6 := H 96 ltac:(done)). assert (H7 := H 112 ltac:(done)).
  change (0 + 16) with 16 in *. change (16 + 16) with 32 in *. change (32 + 16) with 48 in *.
  change (48 + 16) with 64 in *. change (64 + 16) with 80 in *. change (80 + 16) with 96 in *.
  change (96 + 16) with 112 in *. change (112 + 16) with 128 in *.
  rewrite (Z.div_small a (2 ^ 128)) in H7 by done. rewrite Z.pow_0_r, Z.div_1_r in *. lia.
Qed.

Lemma to_digit_hex d : 0 <= d < 16 -> to_digit 16 (hex_char d) = Some d.
Proof. intros H. assert (Hd : exists n, (n < 16)%nat /\ d = Z.of_nat n) by (exists (Z.to_nat d); lia).
  destruct Hd as (n & Hn & ->). do 16 (destruct n as [|n]; [done|]). lia. Qed.

(** Texts on which a number ends. *)
Definition ends_number (s : string) : Prop := match s with "" => True | String c _ => c = ":"%char end.

Lemma read_digits_end radix m n acc s : ends_number s -> radix <= 58 -> 0 < radix ->
  read_digits radix m n acc s = Some (acc, n, s).
Proof.
  intros H Hr H0. destruct s as [|c s]; [done|]. cbn in H. subst c. cbn [read_digits].
  unfold to_digit. cbn. by rewrite Z.ltb_irrefl.
Qed.

Lemma read_digits_hex m n acc d s : 0 <= d < 16 -> (n < m)%nat ->
  read_digits 16 m n acc (String (hex_char d) s) = read_digits 16 m (S n) (acc * 16 + d) s.
Proof.
  intros Hd Hn. cbn [read_digits]. rewrite to_digit_hex by done.
  by rewrite (proj2 (Nat.ltb_ge _ _)) by lia.
Qed.

Lemma read_hex x s : 0 <= x < 65536 -> ends_number s ->
  read_number 16 4 true 65536 (lower_hex x +:+ s) = Some (x, s).
Proof.
  intros Hx Hs. unfold read_number.
  assert (Hd : forall k, 0 <= x / 16 ^ k mod 16 < 16) by (intros k; by apply Z.mod_pos_bound).
  assert (E0 := Z.div_mod x 16 ltac:(done)). assert (E1 := Z.div_mod (x / 16) 16 ltac:(done)).
  assert (E2 := Z.div_mod (x / 16 / 16) 16 ltac:(done)).
  assert (E3 := Z.div_mod (x / 16 / 16 / 16) 16 ltac:(done)).
  assert (H0 := Hd 0). assert (H1 := Hd 1). assert (H2 := Hd 2). assert (H3 := Hd 3).
  assert (P2 : x / 16 ^ 2 = x / 16 / 16) by (by rewrite Z.div_div by done).
  assert (P3 : x / 16 ^ 3 = x / 16 / 16 / 16) by (by rewrite !Z.div_div by done).
  rewrite P2 in *. rewrite P3 in *. rewrite Z.pow_0_r, Z.div_1_r in *. rewrite Z.pow_1_r in *.
  assert (L : exists n, (0 < n)%nat /\ read_digits 16 4 0 0 (lower_hex x +:+ s) = Some (x, n, s)).
  { unfold lower_hex. cbv zeta. rewrite Z.pow_0_r, Z.div_1_r, Z.pow_1_r, P2, P3.
    destruct (Z.ltb_spec x 16); [|destruct (Z.ltb_spec x 256); [|destruct (Z.ltb_spec x 4096)]];
      rewrite ?append_cons, ?append_nil; rewrite !read_digits_hex by (done || lia);
      rewrite read_digits_end by done; eexists;
      (split; [|match goal with |- Some (?a, _, _) = _ => replace a with x by lia end; reflexivity]); lia. }
  destruct L as (n & Hn & ->). rewrite (proj2 (Nat.eqb_neq _ _)) by lia. cbn [negb andb].
  by rewrite (proj2 (Z.ltb_lt _ _)) by lia.
Qed.

(** Without a dot there is no IPv4 address. *)
Definition no_dot (s : string) : bool := str_all (fun c => negb (Ascii.eqb c ".")) s.

Lemma no_dot_cons c s : no_dot (String c s) = negb (Ascii.eqb c ".") && no_dot s.
Proof. done. Qed.

Lemma read_digits_no_dot radix m n acc s v k r :
  no_dot s = true -> read_digits radix m n acc s = Some (v, k, r) -> no_dot r = true.
Proof.
  revert n acc. induction s as [|c s IH]; intros n acc Hs; cbn [read_digits]; [by intros [= _ _ <-]|].
  destruct (to_digit radix c); [|by intros [= _ _ <-]]. destruct (_ <? _)%nat; [done|].
  rewrite no_dot_cons in Hs. apply andb_true_iff in Hs as [_ Hs]. by apply IH.
Qed.

Lemma read_number_no_dot radix m z limit s v r :
  no_dot s = true -> read_number radix m z limit s = Some (v, r) -> no_dot r = true.
Proof.
  intros Hs. unfold read_number. destruct (read_digits radix m 0 0 s) as [[[w n] t]|] eqn:E; [|done].
  apply read_digits_no_dot in E; [|done].
  destruct (n =? 0)%nat; [done|]. destruct (_ && _ && _); [done|]. destruct (_ <? _); [|done]. by intros [= _ <-].
Qed.

Lemma no_octet {A} (f : string -> option (A * string)) i s : no_dot s = true -> read_separator "." (S i) f s = None.
Proof.
  intros H. unfold read_separator. cbn [Nat.ltb Nat.leb].
  destruct s as [|c s]; [done|]. cbn [strip_prefix]. case_bool_decide as Hc; [|done]. by subst c.
Qed.

Lemma no_ipv4 s : no_dot s = true -> read_v4_groups s = None.
Proof.
  intros Hs. unfold read_v4_groups, read_ipv4_addr. cbv zeta.
  change (read_separator "." 0 ?f s) with (f s).
  destruct (read_number 10 3 false 256 s) as [[v r]|] eqn:E; [|done]. apply read_number_no_dot in E; [|done].
  cbn [mbind option_bind]. by rewrite no_octet.
Qed.

Lemma lower_hex_no_dot x : 0 <= x < 65536 -> no_dot (lower_hex x) = true.
Proof.
  assert (H : forall d, 0 <= d < 16 -> Ascii.eqb (hex_char d) "." = false).
  { intros d Hd. assert (En : exists n, (n < 16)%nat /\ d = Z.of_nat n) by (exists (Z.to_nat d); lia).
    destruct En as (n & Hn & ->). do 16 (destruct n as [|n]; [done|]). lia. }
  intros Hx. unfold lower_hex. cbv zeta.
  destruct (x <? 16); [|destruct (x <? 256); [|destruct (x <? 4096)]];
    rewrite ?no_dot_cons, ?H by (by apply Z.mod_pos_bound); done.
Qed.

Definition u16s (l : list Z) : Prop := Forall (fun x => 0 <= x < 65536) l.

Lemma fmt_cons x y l : fmt_subslice (x :: y :: l) = lower_hex x +:+ String ":" (fmt_subslice (y :: l)).
Proof. done. Qed.

Lemma no_dot_app s r : no_dot (s +:+ r) = no_dot s && no_dot r.
Proof. apply str_all_append. Qed.

Lemma fmt_no_dot l : u16s l -> no_dot (fmt_subslice l) = true.
Proof.
  induction 1 as [|x l Hx Hl IH]; [done|]. destruct l as [|y l]; [by apply lower_hex_no_dot|].
  rewrite fmt_cons, no_dot_app, lower_hex_no_dot, no_dot_cons, IH by done. done.
Qed.

(** Where a list of groups ends. *)
Definition ends_groups (s : string) : Prop := s = ""%string \/ exists r, s = ("::" +:+ r)%string /\ no_dot r = true.

Lemma ends_no_dot s : ends_groups s -> no_dot s = true.
Proof. intros [->|(r & -> & H)]; done. Qed.

Lemma ends_groups_number s : ends_groups s -> ends_number s.
Proof. by intros [->|(r & -> & H)]. Qed.

Lemma strip_colon s : strip_prefix ":" (String ":" s) = Some s.
Proof. cbn. by destruct s. Qed.

Lemma read_groups_end i n s : ends_groups s -> read_groups i n s = ([], false, s).
Proof.
  intros Hs. assert (Hd := ends_no_dot s Hs). destruct n as [|n]; [done|]. cbn [read_groups].
  assert (H4 : (if (0 <? n)%nat then read_separator ":" i read_v4_groups s else None) = None).
  { destruct (0 <? n)%nat; [|done]. unfold read_separator. destruct (0 <? i)%nat; [|by apply no_ipv4].
    destruct Hs as [->|(r & -> & H)]; [done|]. rewrite append_cons, strip_colon.
    by apply no_ipv4. }
  rewrite H4. unfold read_separator. destruct Hs as [->|(r & -> & H)]; destruct (0 <? i)%nat; done.
Qed.

(** The separator before the [i]-th group. *)
Definition sep_before (i : nat) (s : string) : string := if (0 <? i)%nat then String ":" s else s.

Lemma separated {A} i (inner : string -> option (A * string)) s :
  read_separator ":" i inner (sep_before i s) = inner s.
Proof. unfold read_separator, sep_before. destruct (0 <? i)%nat; [|done]. by rewrite strip_colon. Qed.

Lemma read_groups_text i n x l s : u16s (x :: l) -> (length (x :: l) <= n)%nat -> ends_groups s ->
  read_groups i n (sep_before i (fmt_subslice (x :: l) +:+ s)) = (x :: l, false, s).
Proof.
  intros Hl Hn Hs. revert i n x Hl Hn. induction l as [|y l IH]; intros i n x Hl Hn;
    (destruct n as [|n]; [cbn in Hn; lia|]); apply Forall_cons in Hl as [Hx Hl]; cbn [read_groups];
    rewrite !separated, no_ipv4.
  - cbn [fmt_subslice]. rewrite read_hex by (done || by apply ends_groups_number).
    rewrite read_groups_end by done. by destruct (0 <? n)%nat.
  - cbn [fmt_subslice]. rewrite no_dot_app, lower_hex_no_dot, ends_no_dot by done. done.
  - rewrite fmt_cons, string_app_assoc, append_cons, read_hex by done.
    specialize (IH (S i) n y Hl ltac:(cbn in *; lia)). change (sep_before (S i) ?t) with (String ":" t) in IH.
    rewrite IH. by destruct (0 <? n)%nat.
  - rewrite no_dot_app, fmt_no_dot, ends_no_dot by (done || by constructor). done.
Qed.

Lemma read_groups_list n l s : u16s l -> (length l <= n)%nat -> ends_groups s ->
  read_groups 0 n (fmt_subslice l +:+ s) = (l, false, s).
Proof.
  intros Hl Hn Hs. destruct l as [|x l]; [by apply read_groups_end|]. by apply (read_groups_text 0).
Qed.

(** A run of zeros of [l]. *)
Definition zeros_at (l : list Z) (s : Span) : Prop :=
  (sp_start s + sp_len s <= length l)%nat
  /\ take (sp_len s) (drop (sp_start s) l) = replicate (sp_len s) 0.

Lemma zeros_snoc pre x s : zeros_at pre s -> zeros_at (pre ++ [x]) s.
Proof.
  intros [H1 H2]. split; [rewrite length_app; lia|]. rewrite drop_app_le by lia.
  by rewrite take_app_le by (rewrite length_drop; lia).
Qed.

Lemma longest_zeroes_spec pre l current longest :
  zeros_at pre current -> ((0 < sp_len current)%nat -> (sp_start current + sp_len current = length pre)%nat) ->
  zeros_at pre longest -> zeros_at (pre ++ l) (longest_zeroes (length pre) current longest l).
Proof.
  revert pre current longest. induction l as [|x l IH]; intros pre cur lon Hc He Hl; cbn [longest_zeroes].
  - by rewrite app_nil_r.
  - rewrite (cons_middle x pre l), app_assoc. replace (S (length pre)) with (length (pre ++ [x]))
      by (rewrite length_app; cbn; lia).
    destruct (Z.eqb_spec x 0) as [->|Hx].
    + set (c := mkSpan _ _). assert (Hz : zeros_at (pre ++ [0]) c /\ (sp_start c + sp_len c = length (pre ++ [0%Z]))%nat).
      { destruct cur as [st n]. cbn in *. rewrite length_app. cbn. destruct n as [|n]; cbn in c; subst c.
        - split; [|cbn; lia]. split; [rewrite length_app; cbn; lia|]. cbn [sp_start sp_len]. by rewrite drop_app_length.
        - specialize (He ltac:(lia)). split; [|cbn; lia]. split; [rewrite length_app; cbn; lia|].
          cbn [sp_start sp_len]. destruct Hc as [H1 H2]. cbn [sp_start sp_len] in H2.
          rewrite drop_app_le by lia. rewrite take_app, length_drop.
          replace (length pre - st)%nat with (S n) by lia. replace (S (S n) - S n)%nat with 1%nat by lia.
          rewrite take_ge by (rewrite length_drop; lia). rewrite take_ge in H2 by (rewrite length_drop; lia).
          rewrite H2. symmetry. apply (replicate_cons_app (S n)). }
      destruct Hz as [Hz1 Hz2]. apply IH; [done|done|]. destruct (_ <? _)%nat; [done|by apply zeros_snoc].
    + apply IH; [split; [cbn; lia|done]|cbn; lia|by apply zeros_snoc].
Qed.

(** An address comes back from its text; the text of an address of the form
    [::ffff:a.b.c.d] is another one. *)
Lemma ipv6_roundtrip a : 0 <= a < 2 ^ 128 -> ipv4_mapped (segments a) = None ->
  ipv6_parse (ipv6_to_string a) = Some a.
Proof.
  intros Ha Hm. unfold ipv6_to_string, ipv6_parse. rewrite Hm. cbv zeta.
  assert (Hl : u16s (segments a)).
  { unfold u16s, segments. rewrite Forall_fmap. repeat (constructor; [by apply segment_u16|]). constructor. }
  assert (Hn : length (segments a) = 8%nat) by done.
  transitivity (Some (of_segments (segments a))); [|by rewrite of_segments_inv].
  assert (Hz := longest_zeroes_spec [] (segments a) (mkSpan 0 0) (mkSpan 0 0) ltac:(by split)
    ltac:(cbn; lia) ltac:(by split)). cbn [length app] in Hz.
  clear Ha Hm. generalize dependent (segments a). intros l Hl Hn. set (z := longest_zeroes _ _ _ _). clearbody z.
  intros [Hz1 Hz2]. assert (Hh := Forall_take _ (sp_start z) _ Hl). assert (Ht := Forall_drop _ (sp_start z + sp_len z) _ Hl).
  unfold read_ipv6_addr. destruct (Nat.ltb_spec 1 (sp_len z)) as [Hlen|Hlen].
  - assert (Hd : ends_groups ("::" +:+ fmt_subslice (drop (sp_start z + sp_len z) l))).
    { right. eexists. split; [done|by apply fmt_no_dot]. }
    assert (Hlt : length (take (sp_start z) l) = sp_start z) by (rewrite length_take; lia).
    rewrite (read_groups_list 8 _ _ Hh) by (exact Hd || lia). rewrite Hlt, (proj2 (Nat.eqb_neq _ _)) by lia.
    rewrite !append_cons, append_nil. cbn [strip_prefix]. rewrite !bool_decide_eq_true_2 by done. cbn [mbind option_bind].
    assert (Hld : length (drop (sp_start z + sp_len z) l) = (8 - sp_start z - sp_len z)%nat) by (rewrite length_drop; lia).
    assert (E := read_groups_list (8 - (sp_start z + 1)) _ "" Ht ltac:(lia) ltac:(by left)).
    rewrite string_app_nil_r in E. rewrite E, Hld. do 2 f_equal.
    replace (8 - (8 - sp_start z - sp_len z) - sp_start z)%nat with (sp_len z) by lia.
    rewrite <- Hz2, <- drop_drop. by rewrite !take_drop.
  - rewrite <- (string_app_nil_r (fmt_subslice l)), (read_groups_list 8 _ _ Hl) by (lia || by left).
    by rewrite Hn.
Qed.

(** * Subnets *)

Definition WEAVER_SUBNET_BASE : Z := 0xfd7a115ca1e000010000000000000000.
Definition CLIENT_SUBNET_BASE : Z := 0xfd7a115ca1e000020000000000000000.
Definition SUBNET_HOST_MASK : Z := 0x0000000000000000FFFFFFFFFFFFFFFF.

(** The two kinds of allocation, with the text of the column. *)
Inductive Subnet := Sub_Weaver | Sub_Client.
#[export] Instance Subnet_eq_dec : EqDecision Subnet.
Proof. solve_decision. Defined.

Definition subnet_text (n : Subnet) : string :=
  match n with Sub_Weaver => "weaver" | Sub_Client => "client" end.
Definition subnet_base (n : Subnet) : Z :=
  match n with Sub_Weaver => WEAVER_SUBNET_BASE | Sub_Client => CLIENT_SUBNET_BASE end.

(** [Ipv6Addr::from(BASE | host)]. *)
Definition subnet_addr (n : Subnet) (host : Z) : Ipv6Addr := Z.lor (subnet_base n) host.

Lemma lor_low n h : 0 <= h < 2 ^ 64 -> Z.lor (n * 2 ^ 64) h = n * 2 ^ 64 + h.
Proof.
  intros Hh. symmetry. rewrite <- Z.shiftl_mul_pow2 by done. apply Z.add_nocarry_lor.
  apply Z.bits_inj'. intros i Hi. rewrite Z.land_spec, Z.bits_0.
  destruct (Z.lt_ge_cases i 64); [by rewrite Z.shiftl_spec_low|].
  destruct (Z.eq_dec h 0) as [->|]; [by rewrite Z.bits_0, andb_false_r|].
  rewrite (Z.bits_above_log2 h i), andb_false_r; [done|lia|]. apply Z.log2_lt_pow2; [lia|].
  apply Z.lt_le_trans with (2 ^ 64); [lia|]. apply Z.pow_le_mono_r; lia.
Qed.

Lemma subnet_addr_add n h : u64_ok h -> subnet_addr n h = subnet_base n + h.
Proof.
  intros Hh. unfold subnet_addr.
  assert (E : exists m, subnet_base n = m * 2 ^ 64).
  { destruct n; [by exists 0xfd7a115ca1e00001|by exists 0xfd7a115ca1e00002]. }
  destruct E as (m & ->). by apply lor_low.
Qed.

Lemma subnet_addr_inj n n' h h' : u64_ok h -> u64_ok h' -> subnet_addr n h = subnet_addr n' h' -> n = n' /\ h = h'.
Proof.
  intros H H'. rewrite !subnet_addr_add by done. unfold u64_ok in *.
  destruct n, n'; cbn; unfold WEAVER_SUBNET_BASE, CLIENT_SUBNET_BASE; split; (done || lia).
Qed.

Lemma subnet_roundtrip n h : u64_ok h -> ipv6_parse (ipv6_to_string (subnet_addr n h)) = Some (subnet_addr n h).
Proof.
  intros Hh. assert (E := subnet_addr_add n h Hh). unfold u64_ok in Hh.
  apply ipv6_roundtrip.
  - rewrite E. destruct n; cbn; unfold WEAVER_SUBNET_BASE, CLIENT_SUBNET_BASE; lia.
  - assert (Hs : segment (subnet_addr n h) 112 = 0xfd7a).
    { rewrite segment_div by done. rewrite E.
      assert (Hd : (subnet_base n + h) / 2 ^ 112 = 0xfd7a).
      { symmetry. apply (Z.div_unique _ _ _ (subnet_base n + h - 0xfd7a * 2 ^ 112)); [|lia]. left.
        destruct n; cbn; unfold WEAVER_SUBNET_BASE, CLIENT_SUBNET_BASE; lia. }
      by rewrite Hd. }
    unfold segments. cbn [fmap list_fmap]. by rewrite Hs.
Qed.

(** ** ip.rs of [loom-wgtunnel-common] *)

Definition SUBNET_PREFIX_MASK : Z := 0xFFFFFFFFFFFFFFFF0000000000000000.
Definition is_weaver_ip (addr : Ipv6Addr) : bool := Z.land addr SUBNET_PREFIX_MASK =? WEAVER_SUBNET_BASE.
Definition is_client_ip (addr : Ipv6Addr) : bool := Z.land addr SUBNET_PREFIX_MASK =? CLIENT_SUBNET_BASE.
Definition SERVER_IP : string := "fd7a:115c:a1e0::1".
Definition server_ip : option Ipv6Addr := ipv6_parse SERVER_IP.

(** An address of a subnet is recognized by its prefix. *)
Lemma subnet_prefix n h : u64_ok h -> Z.land (subnet_addr n h) SUBNET_PREFIX_MASK = subnet_base n.
Proof.
  intros Hh. unfold subnet_addr. rewrite Z.land_lor_distr_l.
  assert (E : Z.land h SUBNET_PREFIX_MASK = 0).
  { rewrite <- (Z.mod_small h (2 ^ 64)) by exact Hh. rewrite <- Z.land_ones, <- Z.land_assoc by done.
    change (Z.land (Z.ones 64) SUBNET_PREFIX_MASK) with 0. apply Z.land_0_r. }
  rewrite E, Z.lor_0_r. by destruct n.
Qed.

Lemma client_subnet h : u64_ok h ->
  is_client_ip (subnet_addr Sub_Client h) = true /\ is_weaver_ip (subnet_addr Sub_Client h) = false.
Proof. intros H. unfold is_client_ip, is_weaver_ip. by rewrite subnet_prefix. Qed.
Lemma weaver_subnet h : u64_ok h ->
  is_weaver_ip (subnet_addr Sub_Weaver h) = true /\ is_client_ip (subnet_addr Sub_Weaver h) = false.
Proof. intros H. unfold is_client_ip, is_weaver_ip. by rewrite subnet_prefix. Qed.

Example server_apart : (fun a => (is_weaver_ip a, is_client_ip a)) <$> server_ip = Some (false, false).
Proof. vm_compute. reflexivity. Qed.

(** * What is assumed of other code *)

(** [datetime('now')] of SQLite at a time, the second format of the rows' times, and
    [base64]. *)
Class WgBackend := {
  wb_stamps :: Stamps;
  sqlite_now : Z -> string;
  parse_naive : string -> option Z;
  sqlite_now_naive t : calendar t ->
    parse_from_rfc3339 (sqlite_now t) = None /\ parse_naive (sqlite_now t) = Some (t - t mod 10 ^ 9);
  base64_encode : string -> string;
  base64_decode : string -> option string;
  base64_decode_no_pad : string -> option string;
  base64_roundtrip k : base64_decode (base64_encode k) = Some k;
}.

(** * error.rs *)

Inductive WgError :=
| WE_Database (e : string)
| WE_DeviceNotFound
| WE_WeaverNotFound
| WE_SessionNotFound
| WE_DeviceAlreadyExists
| WE_DeviceRevoked
| WE_WeaverAlreadyRegistered
| WE_SessionAlreadyExists
| WE_InvalidPublicKey (msg : string)
| WE_IpAllocation (msg : string)
| WE_Config (msg : string)
| WE_DerpMap (msg : string)
| WE_Unauthorized (msg : string)
| WE_Internal (msg : string).

Definition WgError_to_string (e : WgError) : string :=
  match e with
  | WE_Database e => "database error: " +:+ e
  | WE_DeviceNotFound => "device not found"
  | WE_WeaverNotFound => "weaver not found"
  | WE_SessionNotFound => "session not found"
  | WE_DeviceAlreadyExists => "device already exists"
  | WE_DeviceRevoked => "device revoked"
  | WE_WeaverAlreadyRegistered => "weaver already registered"
  | WE_SessionAlreadyExists => "session already exists for device-weaver pair"
  | WE_InvalidPublicKey msg => "invalid public key: " +:+ msg
  | WE_IpAllocation msg => "IP allocation failed: " +:+ msg
  | WE_Config msg => "configuration error: " +:+ msg
  | WE_DerpMap msg => "DERP map error: " +:+ msg
  | WE_Unauthorized msg => "unauthorized: " +:+ msg
  | WE_Internal msg => "internal error: " +:+ msg
  end.

Definition WgError_from_db (e : DbError) : WgError :=
  match e with
  | DE_Sqlx e => WE_Database e
  | DE_NotFound msg => WE_Internal ("not found: " +:+ msg)
  | DE_Conflict msg => WE_Internal ("conflict: " +:+ msg)
  | DE_Internal msg => WE_Internal msg
  | DE_Serialization e => WE_Internal ("serialization: " +:+ e)
  end.

(** * Rows and values *)

Record DeviceRow := mkDeviceRow {
  dr_id : string;
  dr_user_id : string;
  dr_public_key : string;
  dr_name : option string;
  dr_created_at : string;
  dr_last_seen_at : option string;
  dr_revoked_at : option string;
}.

Record WeaverRow := mkWeaverRow {
  wr_weaver_id : string;
  wr_public_key : string;
  wr_assigned_ip : string;
  wr_derp_home_region : option Z;
  wr_endpoint : option string;
  wr_registered_at : string;
  wr_last_seen_at : option string;
}.

Record TunnelRow := mkTunnelRow {
  tr_id : string;
  tr_device_id : string;
  tr_weaver_id : string;
  tr_client_ip : string;
  tr_created_at : string;
  tr_last_handshake_at : option string;
}.

Record IpRow := mkIpRow {
  ir_ip : string;
  ir_allocation_type : string;
  ir_entity_id : string;
  ir_allocated_at : string;
  ir_released_at : option string;
}.

Record WgTables := mkWgTables {
  wt_users : list string;
  wt_devices : list DeviceRow;
  wt_weavers : list WeaverRow;
  wt_sessions : list TunnelRow;
  wt_ips : list IpRow;
}.

Definition put_devices (v : list DeviceRow) (t : WgTables) : WgTables :=
  mkWgTables (wt_users t) v (wt_weavers t) (wt_sessions t) (wt_ips t).
Definition put_weavers (v : list WeaverRow) (t : WgTables) : WgTables :=
  mkWgTables (wt_users t) (wt_devices t) v (wt_sessions t) (wt_ips t).
Definition put_tunnels (v : list TunnelRow) (t : WgTables) : WgTables :=
  mkWgTables (wt_users t) (wt_devices t) (wt_weavers t) v (wt_ips t).
Definition put_ips (v : list IpRow) (t : WgTables) : WgTables :=
  mkWgTables (wt_users t) (wt_devices t) (wt_weavers t) (wt_sessions t) v.

Record Device := mkDevice {
  dv_id : Uuid;
  dv_user_id : Uuid;
  dv_public_key : string;
  dv_name : option string;
  dv_created_at : Z;
  dv_last_seen_at : option Z;
  dv_revoked_at : option Z;
}.

Record WeaverWg := mkWeaverWg {
  wv_weaver_id : Uuid;
  wv_public_key : string;
  wv_assigned_ip : Ipv6Addr;
  wv_derp_home_region : option Z;
  wv_endpoint : option string;
  wv_registered_at : Z;
  wv_last_seen_at : option Z;
}.

(** [Session] of sessions.rs. *)
Record Tunnel := mkTunnel {
  tn_id : Uuid;
  tn_device_id : Uuid;
  tn_weaver_id : Uuid;
  tn_client_ip : Ipv6Addr;
  tn_created_at : Z;
  tn_last_handshake_at : option Z;
}.

Section WgRepo.
Context `{WB : WgBackend}.

Definition wg_datetime (s : string) : result WgError Z :=
  match parse_from_rfc3339 s with
  | Some t => Ok t
  | None => ok_or (WE_Internal ("invalid datetime: " +:+ s)) (parse_naive s)
  end.

Definition wg_id (what s : string) : result WgError Uuid :=
  match uuid_parse s with Ok u => Ok u | Err _ => Err (WE_Internal ("invalid " +:+ what +:+ " id")) end.

(** [try_into] of a [Vec<u8>] to 32 bytes. *)
Definition wg_key (k : string) : result WgError string :=
  if (String.length k =? 32)%nat then Ok k else Err (WE_InvalidPublicKey "invalid key length").

Definition wg_ip (message s : string) : result WgError Ipv6Addr :=
  ok_or (WE_IpAllocation message) (ipv6_parse s).

Definition Device_try_from (r : DeviceRow) : result WgError Device :=
  public_key ← wg_key (dr_public_key r);
  id ← wg_id "device" (dr_id r);
  user_id ← wg_id "user" (dr_user_id r);
  created_at ← wg_datetime (dr_created_at r);
  last_seen_at ← transpose wg_datetime (dr_last_seen_at r);
  revoked_at ← transpose wg_datetime (dr_revoked_at r);
  Ok (mkDevice id user_id public_key (dr_name r) created_at last_seen_at revoked_at).

(** [r as u16]. *)
Definition wrap_u16 (z : Z) : Z := z mod 65536.

Definition WeaverWg_try_from (r : WeaverRow) : result WgError WeaverWg :=
  public_key ← wg_key (wr_public_key r);
  assigned_ip ← wg_ip "invalid assigned IP" (wr_assigned_ip r);
  weaver_id ← wg_id "weaver" (wr_weaver_id r);
  registered_at ← wg_datetime (wr_registered_at r);
  last_seen_at ← transpose wg_datetime (wr_last_seen_at r);
  Ok (mkWeaverWg weaver_id public_key assigned_ip (wrap_u16 <$> wr_derp_home_region r)
        (wr_endpoint r) registered_at last_seen_at).

Definition Tunnel_try_from (r : TunnelRow) : result WgError Tunnel :=
  id ← wg_id "session" (tr_id r);
  device_id ← wg_id "device" (tr_device_id r);
  weaver_id ← wg_id "weaver" (tr_weaver_id r);
  client_ip ← wg_ip "invalid client IP" (tr_client_ip r);
  created_at ← wg_datetime (tr_created_at r);
  last_handshake_at ← transpose wg_datetime (tr_last_handshake_at r);
  Ok (mkTunnel id device_id weaver_id client_ip created_at last_handshake_at).

(** * WgTunnelRepository *)

Definition WgOp (A : Type) : Type := SqlM WgTables DbError A.
Definition wg_query {A} (f : WgTables -> A) : WgOp A := sql_read DE_Sqlx f.

(** An update and the number of its rows. *)
Definition wg_update {R} (get : WgTables -> list R) (put : list R -> WgTables -> WgTables)
    (p : R -> bool) (f : R -> R) : WgOp Z :=
  sql_write DE_Sqlx (fun t => (Z.of_nat (count_where p (get t)), put (update_where p f (get t)) t)).

(** ** Weavers *)

Definition weaver_is (id : string) (r : WeaverRow) : bool := String.eqb (wr_weaver_id r) id.

Definition wg_insert_weaver (now : Z) (weaver_id : Uuid) (public_key : string) (assigned_ip : Ipv6Addr)
    (derp_region : option Z) : WgOp unit :=
  sql DE_Sqlx (fun t =>
    if existsb (weaver_is (uuid_text weaver_id)) (wt_weavers t) then None
    else Some (tt, put_weavers (wt_weavers t ++ [mkWeaverRow (uuid_text weaver_id) public_key
           (ipv6_to_string assigned_ip) derp_region None (sqlite_now now) None]) t)).

Definition wg_get_weaver (weaver_id : Uuid) : WgOp (option WeaverRow) :=
  wg_query (fun t => select_one (weaver_is (uuid_text weaver_id)) (wt_weavers t)).

(** With the sessions of the weaver, [ON DELETE CASCADE]. *)
Definition delete_weavers (id : string) (t : WgTables) : WgTables :=
  put_tunnels (delete_where (fun s => String.eqb (tr_weaver_id s) id) (wt_sessions t))
    (put_weavers (delete_where (weaver_is id) (wt_weavers t)) t).

Definition wg_delete_weaver (weaver_id : Uuid) : WgOp Z :=
  sql_write DE_Sqlx (fun t =>
    (Z.of_nat (count_where (weaver_is (uuid_text weaver_id)) (wt_weavers t)),
     delete_weavers (uuid_text weaver_id) t)).

Definition wg_update_weaver_endpoint (weaver_id : Uuid) (endpoint : string) : WgOp Z :=
  wg_update wt_weavers put_weavers (weaver_is (uuid_text weaver_id)) (fun r =>
    mkWeaverRow (wr_weaver_id r) (wr_public_key r) (wr_assigned_ip r) (wr_derp_home_region r)
      (Some endpoint) (wr_registered_at r) (wr_last_seen_at r)).

Definition wg_update_weaver_last_seen (now : Z) (weaver_id : Uuid) : WgOp Z :=
  wg_update wt_weavers put_weavers (weaver_is (uuid_text weaver_id)) (fun r =>
    mkWeaverRow (wr_weaver_id r) (wr_public_key r) (wr_assigned_ip r) (wr_derp_home_region r)
      (wr_endpoint r) (wr_registered_at r) (Some (sqlite_now now))).

(** ** Devices *)

Definition device_is (id : string) (r : DeviceRow) : bool := String.eqb (dr_id r) id.

(** The keys of the table: the id, the public key and the user. *)
Definition wg_insert_device (now : Z) (id user_id : Uuid) (public_key : string) (name : option string)
    : WgOp unit :=
  sql DE_Sqlx (fun t =>
    if existsb (device_is (uuid_text id)) (wt_devices t)
       || existsb (fun r => String.eqb (dr_public_key r) public_key) (wt_devices t)
       || negb (existsb (String.eqb (uuid_text user_id)) (wt_users t)) then None
    else Some (tt, put_devices (wt_devices t ++ [mkDeviceRow (uuid_text id) (uuid_text user_id) public_key
           name (sqlite_now now) None None]) t)).

Definition live_device_of (user_id : string) (r : DeviceRow) : bool :=
  String.eqb (dr_user_id r) user_id && bool_decide (dr_revoked_at r = None).

Definition wg_list_devices_for_user (user_id : Uuid) : WgOp (list DeviceRow) :=
  wg_query (fun t => order_by true dr_created_at (select_where (live_device_of (uuid_text user_id)) (wt_devices t))).

Definition wg_get_device (id : Uuid) : WgOp (option DeviceRow) :=
  wg_query (fun t => select_one (device_is (uuid_text id)) (wt_devices t)).

Definition wg_get_device_by_public_key (public_key : string) : WgOp (option DeviceRow) :=
  wg_query (fun t => select_one (fun r => String.eqb (dr_public_key r) public_key) (wt_devices t)).

Definition wg_revoke_device (now : Z) (id user_id : Uuid) : WgOp Z :=
  wg_update wt_devices put_devices
    (fun r => device_is (uuid_text id) r && live_device_of (uuid_text user_id) r)
    (fun r => mkDeviceRow (dr_id r) (dr_user_id r) (dr_public_key r) (dr_name r) (dr_created_at r)
                (dr_last_seen_at r) (Some (sqlite_now now))).

Definition wg_update_device_last_seen (now : Z) (id : Uuid) : WgOp Z :=
  wg_update wt_devices put_devices (device_is (uuid_text id)) (fun r =>
    mkDeviceRow (dr_id r) (dr_user_id r) (dr_public_key r) (dr_name r) (dr_created_at r)
      (Some (sqlite_now now)) (dr_revoked_at r)).

(** ** Sessions *)

Definition tunnel_is (id : string) (r : TunnelRow) : bool := String.eqb (tr_id r) id.
Definition tunnel_between (device_id weaver_id : string) (r : TunnelRow) : bool :=
  String.eqb (tr_device_id r) device_id && String.eqb (tr_weaver_id r) weaver_id.

(** The keys of the table: the id, the pair of device and weaver, the device and the
    weaver. *)
Definition wg_insert_session (now : Z) (id device_id weaver_id : Uuid) (client_ip : Ipv6Addr) : WgOp unit :=
  sql DE_Sqlx (fun t =>
    if existsb (tunnel_is (uuid_text id)) (wt_sessions t)
       || existsb (tunnel_between (uuid_text device_id) (uuid_text weaver_id)) (wt_sessions t)
       || negb (existsb (device_is (uuid_text device_id)) (wt_devices t))
       || negb (existsb (weaver_is (uuid_text weaver_id)) (wt_weavers t)) then None
    else Some (tt, put_tunnels (wt_sessions t ++ [mkTunnelRow (uuid_text id) (uuid_text device_id)
           (uuid_text weaver_id) (ipv6_to_string client_ip) (sqlite_now now) None]) t)).

Definition wg_get_session_by_device_weaver (device_id weaver_id : Uuid) : WgOp (option TunnelRow) :=
  wg_query (fun t => select_one (tunnel_between (uuid_text device_id) (uuid_text weaver_id)) (wt_sessions t)).

Definition wg_list_sessions_for_device (device_id : Uuid) : WgOp (list TunnelRow) :=
  wg_query (fun t => order_by true tr_created_at
                       (select_where (fun r => String.eqb (tr_device_id r) (uuid_text device_id)) (wt_sessions t))).

Definition wg_list_sessions_for_weaver (weaver_id : Uuid) : WgOp (list TunnelRow) :=
  wg_query (fun t => order_by true tr_created_at
                       (select_where (fun r => String.eqb (tr_weaver_id r) (uuid_text weaver_id)) (wt_sessions t))).

Definition wg_get_session (id : Uuid) : WgOp (option TunnelRow) :=
  wg_query (fun t => select_one (tunnel_is (uuid_text id)) (wt_sessions t)).

Definition wg_delete_session (id : Uuid) : WgOp Z :=
  sql_write DE_Sqlx (fun t =>
    (Z.of_nat (count_where (tunnel_is (uuid_text id)) (wt_sessions t)),
     put_tunnels (delete_where (tunnel_is (uuid_text id)) (wt_sessions t)) t)).

Definition wg_update_session_handshake (now : Z) (id : Uuid) : WgOp Z :=
  wg_update wt_sessions put_tunnels (tunnel_is (uuid_text id)) (fun r =>
    mkTunnelRow (tr_id r) (tr_device_id r) (tr_weaver_id r) (tr_client_ip r) (tr_created_at r)
      (Some (sqlite_now now))).

(** ** Addresses *)

Definition ip_is (ip : string) (r : IpRow) : bool := String.eqb (ir_ip r) ip.

Definition wg_get_allocated_ips_by_type (allocation_type : string) : WgOp (list string) :=
  wg_query (fun t => ir_ip <$> select_where (fun r => String.eqb (ir_allocation_type r) allocation_type
                                               && bool_decide (ir_released_at r = None)) (wt_ips t)).

Definition wg_get_allocation_for_entity (entity_id : Uuid) : WgOp (option string) :=
  wg_query (fun t => ir_ip <$> select_one (fun r => String.eqb (ir_entity_id r) (uuid_text entity_id)
                                             && bool_decide (ir_released_at r = None)) (wt_ips t)).

Definition wg_insert_ip_allocation (now : Z) (ip allocation_type : string) (entity_id : Uuid) : WgOp unit :=
  sql DE_Sqlx (fun t =>
    if existsb (ip_is ip) (wt_ips t) then None
    else Some (tt, put_ips (wt_ips t ++ [mkIpRow ip allocation_type (uuid_text entity_id) (sqlite_now now) None]) t)).

Definition wg_release_ip (now : Z) (ip : Ipv6Addr) : WgOp Z :=
  wg_update wt_ips put_ips (ip_is (ipv6_to_string ip)) (fun r =>
    mkIpRow (ir_ip r) (ir_allocation_type r) (ir_entity_id r) (ir_allocated_at r) (Some (sqlite_now now))).
End WgRepo.
