(* ===== verification/WgServer.v ===== *)
(** The coordination server of the WireGuard overlay network: ip_allocator.rs,
    peer_stream.rs, devices.rs, weavers.rs and sessions.rs of
    [crates/loom-server-wgtunnel], the DERP map of config.rs, derp.rs and of
    [crates/loom-wgtunnel-common/src/derp_map.rs], and the handlers of
    [crates/loom-server/src/routes/wgtunnel].

    The services are [async]: every statement and every use of a lock or an atomic counter
    is a step between which other requests may run. *)
From stdpp Require Import base gmap list strings pretty relations sorting.
From Stdlib Require Import ZArith Lia Ascii.
From S2P Require Import Prelude Text FlagCore CoreTypes Effects Sql Columns WgModel.
Local Open Scope Z_scope.

(** * peer_stream.rs *)

Inductive PeerEvent :=
| PE_PeerAdded (public_key allowed_ip session_id : string)
| PE_PeerRemoved (public_key session_id : string).

(** A broadcast channel: its receivers and the latest events sent to them, at most
    [CHANNEL_CAPACITY]; a receiver that lags further behind misses the older ones. *)
Definition CHANNEL_CAPACITY : nat := 64.
Record PeerChannel := mkPeerChannel { pc_receivers : nat; pc_sent : list PeerEvent }.

Definition PeerNotifier := gmap Uuid PeerChannel.

Definition peer_subscribe (weaver_id : Uuid) (senders : PeerNotifier) : PeerNotifier :=
  match senders !! weaver_id with
  | Some c => <[weaver_id := mkPeerChannel (S (pc_receivers c)) (pc_sent c)]> senders
  | None => <[weaver_id := mkPeerChannel 1 []]> senders
  end.

(** [send] fails without receivers, and overwrites the oldest event of a full channel. *)
Definition peer_send (event : PeerEvent) (c : PeerChannel) : PeerChannel :=
  match pc_receivers c with
  | O => c
  | S _ => mkPeerChannel (pc_receivers c)
             (drop (S (length (pc_sent c)) - CHANNEL_CAPACITY) (pc_sent c) ++ [event])
  end.

Definition notify_peer (weaver_id : Uuid) (event : PeerEvent) (senders : PeerNotifier) : PeerNotifier :=
  alter (peer_send event) weaver_id senders.

Definition peer_unregister (weaver_id : Uuid) (senders : PeerNotifier) : PeerNotifier :=
  delete weaver_id senders.

(** * DERP maps *)

Record DerpNode := mkDerpNode {
  dn_name : string;
  dn_region_id : Z;
  dn_host_name : string;
  dn_ipv4 : option Z;
  dn_ipv6 : option Ipv6Addr;
  dn_derp_port : Z;
  dn_stun_port : Z;
  dn_stun_only : bool;
  dn_can_port80 : bool;
}.

Record DerpRegion := mkDerpRegion {
  rg_region_id : Z;
  rg_region_code : string;
  rg_region_name : string;
  rg_latitude : f64;
  rg_longitude : f64;
  rg_nodes : list DerpNode;
  rg_avoid : bool;
}.

Record DerpMap := mkDerpMap { dm_regions : gmap Z DerpRegion }.

Record DerpOverlay := mkDerpOverlay {
  ov_disable_regions : list Z;
  ov_custom_regions : gmap Z DerpRegion;
  ov_omit_default_regions : bool;
}.

Definition DerpMap_default : DerpMap := mkDerpMap ∅.
Definition DerpOverlay_default : DerpOverlay := mkDerpOverlay [] ∅ false.
Definition get_region (m : DerpMap) (id : Z) : option DerpRegion := dm_regions m !! id.
Definition region_ids (m : DerpMap) : list Z := merge_sort Z.le (map_to_list (dm_regions m)).*1.

Definition apply_overlay (m : DerpMap) (overlay : DerpOverlay) : DerpMap :=
  let regions := if ov_omit_default_regions overlay then ∅ else dm_regions m in
  let regions := foldl (fun r id => delete id r) regions (ov_disable_regions overlay) in
  mkDerpMap (ov_custom_regions overlay ∪ regions).

(** [WgTunnelConfig] without its texts. *)
Record WgTunnelConfig := mkWgTunnelConfig {
  wc_enabled : bool;
  wc_has_overlay_file : bool;
  wc_derp_map : option DerpMap;
}.

(** What the HTTP request and the file read give, or the text of their error. *)
Definition load_derp_map (fetched : result string DerpMap) (overlay_file : result string DerpOverlay)
    (config : WgTunnelConfig) : result WgError DerpMap * WgTunnelConfig :=
  match wc_derp_map config with
  | Some m => (Ok m, config)
  | None =>
      match fetched with
      | Err e => (Err (WE_DerpMap e), config)
      | Ok base =>
          match (if wc_has_overlay_file config then overlay_file else Ok DerpOverlay_default) with
          | Err e => (Err (WE_DerpMap ("failed to load overlay: " +:+ e)), config)
          | Ok overlay =>
              let m := apply_overlay base overlay in
              (Ok m, mkWgTunnelConfig (wc_enabled config) (wc_has_overlay_file config) (Some m))
          end
      end
  end.

Definition refresh_derp_map (fetched : result string DerpMap) (overlay_file : result string DerpOverlay)
    (config : WgTunnelConfig) : result WgError DerpMap * WgTunnelConfig :=
  load_derp_map fetched overlay_file
    (mkWgTunnelConfig (wc_enabled config) (wc_has_overlay_file config) None).

(** [initialize_wgtunnel_services] up to the construction of the services, from the
    configuration of the environment. *)
Definition initialize_wgtunnel (from_env : result string WgTunnelConfig) (fetched : result string DerpMap)
    (overlay_file : result string DerpOverlay) : option WgTunnelConfig :=
  match from_env with
  | Err _ => None
  | Ok config =>
      if negb (wc_enabled config) then None
      else match load_derp_map fetched overlay_file config with
           | (Ok _, config) => Some config
           | (Err _, _) => None
           end
  end.

(** * The state of the server *)

Record WgWorld := mkWgWorld {
  ww_conn : Conn WgTables;
  ww_weaver_counter : Z;
  ww_client_counter : Z;
  ww_senders : PeerNotifier;
}.

Definition put_wg_conn (c : Conn WgTables) (w : WgWorld) : WgWorld :=
  mkWgWorld c (ww_weaver_counter w) (ww_client_counter w) (ww_senders w).
Definition put_senders (s : PeerNotifier) (w : WgWorld) : WgWorld :=
  mkWgWorld (ww_conn w) (ww_weaver_counter w) (ww_client_counter w) s.

Definition counter (n : Subnet) (w : WgWorld) : Z :=
  match n with Sub_Weaver => ww_weaver_counter w | Sub_Client => ww_client_counter w end.
Definition put_counter (n : Subnet) (v : Z) (w : WgWorld) : WgWorld :=
  match n with
  | Sub_Weaver => mkWgWorld (ww_conn w) v (ww_client_counter w) (ww_senders w)
  | Sub_Client => mkWgWorld (ww_conn w) (ww_weaver_counter w) v (ww_senders w)
  end.

Definition WgM (E A : Type) : Type := AsyncM WgWorld E A.

(** A statement. *)
Definition wgdb {A} (m : WgOp A) : WgM WgError A :=
  atomic (map_err WgError_from_db (on_part ww_conn put_wg_conn m)).

(** A step on the notifier or a counter. *)
Definition on_senders {E} (f : PeerNotifier -> PeerNotifier) : WgM E unit :=
  atomic (fun w => (Ok tt, put_senders (f (ww_senders w)) w)).
Definition fetch_add {E} (n : Subnet) : WgM E Z :=
  atomic (fun w => (Ok (counter n w), put_counter n (wrap_u64 (counter n w + 1)) w)).
Definition store_counter {E} (n : Subnet) (v : Z) : WgM E unit :=
  atomic (fun w => (Ok tt, put_counter n v w)).

Section Services.
Context `{WB : WgBackend}.

(** * ip_allocator.rs *)

Definition host_of (ip : string) : option Z := (fun a => Z.land a SUBNET_HOST_MASK) <$> ipv6_parse ip.

Definition max_host (ips : list string) : Z :=
  foldl (fun m ip => match host_of ip with Some host => if m <? host then host else m | None => m end) 0 ips.

Definition get_max_host_number (n : Subnet) : WgM WgError Z :=
  await* ips := wgdb (wg_get_allocated_ips_by_type (subnet_text n)) in
  aret (max_host ips).

(** [oc]: whether the sums are checked for overflow. *)
Definition initialize_counters (oc : bool) : WgM (Failure WgError) unit :=
  await* weaver_max := amap_err Failed (get_max_host_number Sub_Weaver) in
  await* client_max := amap_err Failed (get_max_host_number Sub_Client) in
  match add_u64 oc weaver_max 1 with
  | Done w =>
      await* _ := store_counter Sub_Weaver w in
      match add_u64 oc client_max 1 with
      | Done c => store_counter Sub_Client c
      | _ => araise Panicked
      end
  | _ => araise Panicked
  end.

Definition allocate_ip (env : Env) (k : nat) (n : Subnet) (entity_id : Uuid) : WgM WgError Ipv6Addr :=
  await* existing := wgdb (wg_get_allocation_for_entity entity_id) in
  match existing with
  | Some ip => A_Done (wg_ip "invalid stored IP" ip)
  | None =>
      await* host := fetch_add n in
      if SUBNET_HOST_MASK <? host
      then araise (WE_IpAllocation (subnet_text n +:+ " IP pool exhausted"))
      else
        let addr := subnet_addr n host in
        await* _ := wgdb (wg_insert_ip_allocation (env_now env k) (ipv6_to_string addr) (subnet_text n) entity_id) in
        aret addr
  end.

Definition allocate_weaver_ip (env : Env) (k : nat) (weaver_id : Uuid) : WgM WgError Ipv6Addr :=
  allocate_ip env k Sub_Weaver weaver_id.
Definition allocate_client_ip (env : Env) (k : nat) (session_id : Uuid) : WgM WgError Ipv6Addr :=
  allocate_ip env k Sub_Client session_id.

Definition release_ip (env : Env) (k : nat) (ip : Ipv6Addr) : WgM WgError unit :=
  await* _ := wgdb (wg_release_ip (env_now env k) ip) in aret tt.

(** * devices.rs *)

Definition read_row {R A} (try_from : R -> result WgError A) (o : option R) : WgM WgError (option A) :=
  A_Done (transpose try_from o).

Definition device_get (id : Uuid) : WgM WgError (option Device) :=
  await* row := wgdb (wg_get_device id) in read_row Device_try_from row.

Definition device_get_by_public_key (public_key : string) : WgM WgError (option Device) :=
  await* row := wgdb (wg_get_device_by_public_key public_key) in read_row Device_try_from row.

Definition device_register (env : Env) (user_id : Uuid) (public_key : string) (name : option string)
    : WgM WgError Device :=
  await* existing := device_get_by_public_key public_key in
  match existing with
  | Some _ => araise WE_DeviceAlreadyExists
  | None =>
      let id := env_uuid env 0 in
      let now := env_now env 0 in
      await* _ := wgdb (wg_insert_device (env_now env 1) id user_id public_key name) in
      aret (mkDevice id user_id public_key name now None None)
  end.

Definition device_list (user_id : Uuid) : WgM WgError (list Device) :=
  await* rows := wgdb (wg_list_devices_for_user user_id) in A_Done (collect Device_try_from rows).

Definition device_revoke (env : Env) (id user_id : Uuid) : WgM WgError unit :=
  await* n := wgdb (wg_revoke_device (env_now env 0) id user_id) in
  if n =? 0 then araise WE_DeviceNotFound else aret tt.

Definition device_update_last_seen (env : Env) (id : Uuid) : WgM WgError unit :=
  await* _ := wgdb (wg_update_device_last_seen (env_now env 0) id) in aret tt.

(** * weavers.rs *)

Definition weaver_get (weaver_id : Uuid) : WgM WgError (option WeaverWg) :=
  await* row := wgdb (wg_get_weaver weaver_id) in read_row WeaverWg_try_from row.

Definition weaver_register (env : Env) (weaver_id : Uuid) (public_key : string) (derp_region : option Z)
    : WgM WgError WeaverWg :=
  await* existing := weaver_get weaver_id in
  match existing with
  | Some _ => araise WE_WeaverAlreadyRegistered
  | None =>
      await* assigned_ip := allocate_weaver_ip env 0 weaver_id in
      let now := env_now env 1 in
      await* _ := wgdb (wg_insert_weaver (env_now env 2) weaver_id public_key assigned_ip derp_region) in
      aret (mkWeaverWg weaver_id public_key assigned_ip derp_region None now None)
  end.

Definition weaver_unregister (env : Env) (weaver_id : Uuid) : WgM WgError unit :=
  await* weaver := weaver_get weaver_id in
  await* _ := match weaver with
              | Some w => release_ip env 0 (wv_assigned_ip w)
              | None => aret tt
              end in
  await* n := wgdb (wg_delete_weaver weaver_id) in
  if n =? 0 then araise WE_WeaverNotFound else aret tt.

Definition weaver_update_endpoint (weaver_id : Uuid) (endpoint : string) : WgM WgError unit :=
  await* n := wgdb (wg_update_weaver_endpoint weaver_id endpoint) in
  if n =? 0 then araise WE_WeaverNotFound else aret tt.

Definition weaver_update_last_seen (env : Env) (weaver_id : Uuid) : WgM WgError unit :=
  await* _ := wgdb (wg_update_weaver_last_seen (env_now env 0) weaver_id) in aret tt.

(** * sessions.rs *)

Record CreateSessionResponse := mkCreateSessionResponse {
  cs_session_id : Uuid;
  cs_client_ip : Ipv6Addr;
  cs_weaver_ip : Ipv6Addr;
  cs_weaver_public_key : string;
  cs_derp_map : DerpMap;
}.

Definition tunnel_get_by_device_weaver (device_id weaver_id : Uuid) : WgM WgError (option Tunnel) :=
  await* row := wgdb (wg_get_session_by_device_weaver device_id weaver_id) in read_row Tunnel_try_from row.

Definition tunnel_get (session_id : Uuid) : WgM WgError (option Tunnel) :=
  await* row := wgdb (wg_get_session session_id) in read_row Tunnel_try_from row.

Definition tunnel_create (config : WgTunnelConfig) (env : Env) (device_id weaver_id : Uuid)
    : WgM WgError CreateSessionResponse :=
  await* device := device_get device_id in
  match device with
  | None => araise WE_DeviceNotFound
  | Some device =>
      if bool_decide (is_Some (dv_revoked_at device)) then araise WE_DeviceRevoked
      else
        await* weaver := weaver_get weaver_id in
        match weaver with
        | None => araise WE_WeaverNotFound
        | Some weaver =>
            await* existing := tunnel_get_by_device_weaver device_id weaver_id in
            match existing with
            | Some _ => araise WE_SessionAlreadyExists
            | None =>
                let session_id := env_uuid env 0 in
                await* client_ip := allocate_client_ip env 0 session_id in
                await* _ := wgdb (wg_insert_session (env_now env 1) session_id device_id weaver_id client_ip) in
                let event := PE_PeerAdded (base64_encode (dv_public_key device))
                               (ipv6_to_string client_ip +:+ "/128") (uuid_text session_id) in
                await* _ := on_senders (notify_peer weaver_id event) in
                aret (mkCreateSessionResponse session_id client_ip (wv_assigned_ip weaver)
                        (base64_encode (wv_public_key weaver))
                        (default DerpMap_default (wc_derp_map config)))
            end
        end
  end.

Definition tunnel_list_for_device (device_id : Uuid) : WgM WgError (list Tunnel) :=
  await* rows := wgdb (wg_list_sessions_for_device device_id) in A_Done (collect Tunnel_try_from rows).
Definition tunnel_list_for_weaver (weaver_id : Uuid) : WgM WgError (list Tunnel) :=
  await* rows := wgdb (wg_list_sessions_for_weaver weaver_id) in A_Done (collect Tunnel_try_from rows).

Definition tunnel_terminate (env : Env) (session_id : Uuid) : WgM WgError unit :=
  await* session := tunnel_get session_id in
  match session with
  | None => araise WE_SessionNotFound
  | Some session =>
      await* device := device_get (tn_device_id session) in
      await* _ := release_ip env 0 (tn_client_ip session) in
      await* n := wgdb (wg_delete_session session_id) in
      if n =? 0 then araise WE_SessionNotFound
      else match device with
           | Some device =>
               on_senders (notify_peer (tn_weaver_id session)
                 (PE_PeerRemoved (base64_encode (dv_public_key device)) (uuid_text session_id)))
           | None => aret tt
           end
  end.

Definition tunnel_update_handshake (env : Env) (session_id : Uuid) : WgM WgError unit :=
  await* _ := wgdb (wg_update_session_handshake (env_now env 0) session_id) in aret tt.
End Services.

(** * Handlers *)

(** The variants of [ServerError] that occur here. *)
Inductive WgServerError :=
| VE_Db
| VE_NotFound (id : string)
| VE_BadRequest (msg : string)
| VE_Internal (msg : string)
| VE_ServiceUnavailable (msg : string)
| VE_Unauthorized (msg : string)
| VE_Forbidden (msg : string)
| VE_Provisioner (e : HttpError).

Definition WgServerError_response (e : WgServerError) : HttpError :=
  match e with
  | VE_Db => http 500 "database_error" "A database error occurred"
  | VE_NotFound id => http 404 "not_found" ("Thread not found: " +:+ id)
  | VE_BadRequest msg => http 400 "bad_request" msg
  | VE_Internal _ => http 500 "internal_error" "An internal error occurred"
  | VE_ServiceUnavailable msg => http 503 "service_unavailable" msg
  | VE_Unauthorized msg => http 401 "unauthorized" msg
  | VE_Forbidden msg => http 403 "forbidden" msg
  | VE_Provisioner e => e
  end.

(** [Display for ServerError], of the two variants of [parse_public_key]. *)
Definition bad_request_text (msg : string) : string := "Invalid request: " +:+ msg.

Definition wg_error_to_response (e : WgError) : WgServerError :=
  match e with
  | WE_DeviceNotFound => VE_NotFound "Device not found"
  | WE_WeaverNotFound => VE_NotFound "Weaver not found"
  | WE_SessionNotFound => VE_NotFound "Session not found"
  | WE_DeviceAlreadyExists => VE_BadRequest "Device already registered"
  | WE_DeviceRevoked => VE_BadRequest "Device has been revoked"
  | WE_WeaverAlreadyRegistered => VE_BadRequest "Weaver already registered"
  | WE_SessionAlreadyExists => VE_BadRequest "Session already exists"
  | WE_InvalidPublicKey msg => VE_BadRequest ("Invalid public key: " +:+ msg)
  | WE_IpAllocation msg => VE_Internal ("IP allocation failed: " +:+ msg)
  | WE_Unauthorized msg => VE_Unauthorized msg
  | WE_Database _ => VE_Db
  | WE_Config msg | WE_DerpMap msg | WE_Internal msg => VE_Internal msg
  end.

(** The parts of the application's state that the handlers use: whether the tunnel is on,
    the check of identity tokens (the id of the weaver of a valid one), the weavers of
    the cluster (their owners, or the answer to an error) and the format of their ids. *)
Record WgApp := mkWgApp {
  wa_config : option WgTunnelConfig;
  wa_verify_svid : option (string -> option string);
  wa_provisioner : option (string -> result HttpError string);
  wa_weaver_id_parses : string -> bool;
  wa_base_url : string;
}.

Record WgUser := mkWgUser { wu_id : Uuid; wu_is_system_admin : bool }.

Section Routes.
Context `{WB : WgBackend} (app : WgApp).

Definition tunnel_enabled : WgM WgServerError WgTunnelConfig :=
  match wa_config app with
  | Some c => aret c
  | None => araise (VE_ServiceUnavailable "WireGuard tunnel not enabled")
  end.

Definition service {A} (m : WgM WgError A) : WgM WgServerError A := amap_err wg_error_to_response m.

Definition parse_public_key (key_b64 : string) : result string string :=
  match (match base64_decode key_b64 with Some k => Some k | None => base64_decode_no_pad key_b64 end) with
  | None => Err "Invalid base64 public key"%string
  | Some k => if (String.length k =? 32)%nat then Ok k else Err "Public key must be exactly 32 bytes"%string
  end.

Definition uuid_param (what s : string) : WgM WgServerError Uuid :=
  match uuid_parse s with
  | Ok u => aret u
  | Err _ => araise (VE_BadRequest ("Invalid " +:+ what +:+ " ID: " +:+ s))
  end.

Record DeviceResponse := mkDeviceResponse {
  ds_id : string;
  ds_public_key : string;
  ds_name : option string;
  ds_created_at : string;
  ds_last_seen_at : option string;
}.

Definition DeviceResponse_from (d : Device) : DeviceResponse :=
  mkDeviceResponse (uuid_text (dv_id d)) (base64_encode (dv_public_key d)) (dv_name d)
    (to_rfc3339 (dv_created_at d)) (to_rfc3339 <$> dv_last_seen_at d).

Definition register_device (env : Env) (user : WgUser) (key_b64 : string) (name : option string)
    : WgM WgServerError DeviceResponse :=
  await* _ := tunnel_enabled in
  match parse_public_key key_b64 with
  | Err msg => araise (VE_BadRequest msg)
  | Ok public_key =>
      await* device := service (device_register env (wu_id user) public_key name) in
      aret (DeviceResponse_from device)
  end.

Definition list_devices (user : WgUser) : WgM WgServerError (list DeviceResponse) :=
  await* _ := tunnel_enabled in
  await* devices := service (device_list (wu_id user)) in
  aret (map DeviceResponse_from devices).

Definition revoke_device (env : Env) (user : WgUser) (id : string) : WgM WgServerError unit :=
  await* _ := tunnel_enabled in
  await* device_id := uuid_param "device" id in
  service (device_revoke env device_id (wu_id user)).

Record TunnelResponse := mkTunnelResponse {
  ts_session_id : string;
  ts_client_ip : string;
  ts_weaver_ip : string;
  ts_weaver_public_key : string;
  ts_derp_map : DerpMap;
}.

Definition TunnelResponse_from (r : CreateSessionResponse) : TunnelResponse :=
  mkTunnelResponse (uuid_text (cs_session_id r)) (ipv6_to_string (cs_client_ip r))
    (ipv6_to_string (cs_weaver_ip r)) (cs_weaver_public_key r) (cs_derp_map r).

(** derp.rs, on the configuration of [DerpMapService]. *)
Definition get_derp_map (fetched : result string DerpMap) (overlay_file : result string DerpOverlay)
    (service_config : WgTunnelConfig) : result WgServerError DerpMap * WgTunnelConfig :=
  match wa_config app with
  | None => (Err (VE_ServiceUnavailable "WireGuard tunnel not enabled"), service_config)
  | Some _ =>
      match load_derp_map fetched overlay_file service_config with
      | (Ok m, c) => (Ok m, c)
      | (Err e, c) => (Err (wg_error_to_response e), c)
      end
  end.

(** The weaver must be the caller's. *)
Definition owned_weaver (user : WgUser) (weaver_id : string) : WgM WgServerError unit :=
  if negb (wa_weaver_id_parses app weaver_id)
  then araise (VE_BadRequest ("Invalid weaver ID: " +:+ weaver_id))
  else match wa_provisioner app with
       | None => araise (VE_ServiceUnavailable "Weaver provisioner not configured")
       | Some get_weaver =>
           match get_weaver weaver_id with
           | Err e => araise (VE_Provisioner e)
           | Ok owner_user_id =>
               if String.eqb owner_user_id (uuid_text (wu_id user)) then aret tt
               else araise (VE_Forbidden "You do not have access to this weaver")
           end
       end.

Definition create_session (env : Env) (user : WgUser) (weaver_id : string)
    : WgM WgServerError TunnelResponse :=
  await* config := tunnel_enabled in
  await* _ := owned_weaver user weaver_id in
  await* weaver_id := uuid_param "weaver" weaver_id in
  await* devices := service (device_list (wu_id user)) in
  match devices with
  | [] => araise (VE_BadRequest "No registered device. Register a device first.")
  | device :: _ =>
      await* response := service (tunnel_create config env (dv_id device) weaver_id) in
      aret (TunnelResponse_from response)
  end.

Record SessionListItem := mkSessionListItem {
  si_session_id : string;
  si_device_id : string;
  si_weaver_id : string;
  si_client_ip : string;
  si_created_at : string;
  si_last_handshake_at : option string;
}.

Definition SessionListItem_from (s : Tunnel) : SessionListItem :=
  mkSessionListItem (uuid_text (tn_id s)) (uuid_text (tn_device_id s)) (uuid_text (tn_weaver_id s))
    (ipv6_to_string (tn_client_ip s)) (to_rfc3339 (tn_created_at s)) (to_rfc3339 <$> tn_last_handshake_at s).

Fixpoint sessions_of (devices : list Device) : WgM WgServerError (list SessionListItem) :=
  match devices with
  | [] => aret []
  | d :: devices =>
      await* sessions := service (tunnel_list_for_device (dv_id d)) in
      await* rest := sessions_of devices in
      aret (map SessionListItem_from sessions ++ rest)
  end.

Definition list_tunnels (user : WgUser) : WgM WgServerError (list SessionListItem) :=
  await* _ := tunnel_enabled in
  await* devices := service (device_list (wu_id user)) in
  sessions_of devices.

Definition terminate_session (env : Env) (user : WgUser) (id : string) : WgM WgServerError unit :=
  await* _ := tunnel_enabled in
  await* session_id := uuid_param "session" id in
  await* session := service (tunnel_get session_id) in
  match session with
  | None => araise (VE_NotFound "Session not found")
  | Some session =>
      await* device := service (device_get (tn_device_id session)) in
      match device with
      | None => araise (VE_NotFound "Device not found")
      | Some device =>
          if negb (bool_decide (dv_user_id device = wu_id user)) && negb (wu_is_system_admin user)
          then araise (VE_Forbidden "Not authorized to terminate this session")
          else service (tunnel_terminate env session_id)
      end
  end.

(** ** internal.rs *)

(** The authorization header: absent, not text, or its text. *)
Definition wg_bearer_token (header : option (option string)) : result HttpError string :=
  match header with
  | None => Err (http 401 "missing_token" "Authorization header required")
  | Some None => Err (http 400 "invalid_header" "Invalid authorization header encoding")
  | Some (Some s) =>
      ok_or (http 400 "invalid_token_format" "Authorization header must be 'Bearer <token>'")
        (strip_prefix "Bearer " s)
  end.

(** What the handlers for weavers start with: the token is of the weaver that is named. *)
Definition weaver_authorized (header : option (option string)) (weaver_id : string) : WgM HttpError Uuid :=
  match wa_verify_svid app with
  | None => araise (http 503 "service_unavailable" "SVID validation not configured")
  | Some verify_svid =>
      match wa_config app with
      | None => araise (http 503 "service_unavailable" "WireGuard tunnel not enabled")
      | Some _ =>
          match wg_bearer_token header with
          | Err e => araise e
          | Ok token =>
              match verify_svid token with
              | None => araise (http 401 "svid_validation_failed" "SVID validation failed")
              | Some claimed =>
                  if negb (String.eqb claimed weaver_id)
                  then araise (http 403 "weaver_id_mismatch" "SVID weaver_id does not match request")
                  else match uuid_parse weaver_id with
                       | Ok id => aret id
                       | Err _ => araise (http 400 "invalid_weaver_id" "Invalid weaver ID format")
                       end
              end
          end
      end
  end.

Record RegisterWeaverResponse := mkRegisterWeaverResponse {
  rw_assigned_ip : string;
  rw_derp_map_url : string;
  rw_peers_stream_url : string;
}.

Definition register_error (e : WgError) : HttpError :=
  match e with
  | WE_WeaverAlreadyRegistered => http 409 "already_registered" (WgError_to_string e)
  | WE_IpAllocation msg => http 500 "ip_allocation_failed" msg
  | _ => http 500 "internal_error" (WgError_to_string e)
  end.

Definition register_weaver (env : Env) (header : option (option string)) (weaver_id key_b64 : string)
    (derp_home_region : option Z) : WgM HttpError RegisterWeaverResponse :=
  await* id := weaver_authorized header weaver_id in
  match parse_public_key key_b64 with
  | Err msg => araise (http 400 "invalid_public_key" (bad_request_text msg))
  | Ok public_key =>
      await* weaver := amap_err register_error (weaver_register env id public_key derp_home_region) in
      aret (mkRegisterWeaverResponse (ipv6_to_string (wv_assigned_ip weaver))
              (wa_base_url app +:+ "/api/wg/derp-map")
              (wa_base_url app +:+ "/internal/wg/weavers/" +:+ uuid_text (wv_weaver_id weaver) +:+ "/peers"))
  end.

Definition unregister_error (e : WgError) : HttpError :=
  match e with
  | WE_WeaverNotFound => http 404 "not_found" "Weaver not registered"
  | _ => http 500 "internal_error" (WgError_to_string e)
  end.

Definition unregister_weaver (env : Env) (header : option (option string)) (id : string) : WgM HttpError unit :=
  await* weaver_id := weaver_authorized header id in
  await* _ := on_senders (peer_unregister weaver_id) in
  amap_err unregister_error (weaver_unregister env weaver_id).

Definition stream_peers (header : option (option string)) (id : string) : WgM HttpError unit :=
  await* weaver_id := weaver_authorized header id in
  on_senders (peer_subscribe weaver_id).

Record WeaverResponse := mkWeaverResponse {
  wp_weaver_id : string;
  wp_public_key : string;
  wp_assigned_ip : string;
  wp_derp_home_region : option Z;
  wp_endpoint : option string;
  wp_registered_at : string;
  wp_last_seen_at : option string;
}.

Definition WeaverResponse_from (w : WeaverWg) : WeaverResponse :=
  mkWeaverResponse (uuid_text (wv_weaver_id w)) (base64_encode (wv_public_key w))
    (ipv6_to_string (wv_assigned_ip w)) (wv_derp_home_region w) (wv_endpoint w)
    (to_rfc3339 (wv_registered_at w)) (to_rfc3339 <$> wv_last_seen_at w).

Definition get_weaver (header : option (option string)) (id : string) : WgM HttpError WeaverResponse :=
  await* weaver_id := weaver_authorized header id in
  await* weaver := amap_err (fun e => http 500 "internal_error" (WgError_to_string e)) (weaver_get weaver_id) in
  match weaver with
  | Some w => aret (WeaverResponse_from w)
  | None => araise (http 404 "not_found" "Weaver not registered")
  end.
End Routes.

(** * The server *)

(** Requests with their answers dropped. *)
Inductive WgRequest :=
| WQ_RegisterDevice (env : Env) (user : WgUser) (key_b64 : string) (name : option string)
| WQ_ListDevices (user : WgUser)
| WQ_RevokeDevice (env : Env) (user : WgUser) (id : string)
| WQ_CreateSession (env : Env) (user : WgUser) (weaver_id : string)
| WQ_ListSessions (user : WgUser)
| WQ_TerminateSession (env : Env) (user : WgUser) (id : string)
| WQ_RegisterWeaver (env : Env) (header : option (option string)) (weaver_id key_b64 : string)
    (derp_home_region : option Z)
| WQ_UnregisterWeaver (env : Env) (header : option (option string)) (id : string)
| WQ_StreamPeers (header : option (option string)) (id : string)
| WQ_GetWeaver (header : option (option string)) (id : string).

Section Server.
Context `{WB : WgBackend} (app : WgApp).

Definition by_user {A} (m : WgM WgServerError A) : Async WgWorld unit := async_map (fun _ => A_Done tt) m.
Definition by_weaver {A} (m : WgM HttpError A) : Async WgWorld unit := async_map (fun _ => A_Done tt) m.

Definition serve_wg (r : WgRequest) : Async WgWorld unit :=
  match r with
  | WQ_RegisterDevice env user key name => by_user (register_device app env user key name)
  | WQ_ListDevices user => by_user (list_devices app user)
  | WQ_RevokeDevice env user id => by_user (revoke_device app env user id)
  | WQ_CreateSession env user id => by_user (create_session app env user id)
  | WQ_ListSessions user => by_user (list_tunnels app user)
  | WQ_TerminateSession env user id => by_user (terminate_session app env user id)
  | WQ_RegisterWeaver env header id key region => by_weaver (register_weaver app env header id key region)
  | WQ_UnregisterWeaver env header id => by_weaver (unregister_weaver app env header id)
  | WQ_StreamPeers header id => by_weaver (stream_peers app header id)
  | WQ_GetWeaver header id => by_weaver (get_weaver app header id)
  end.

(** [WgTunnelServices::new]: new counters and channels over the same tables. *)
Definition restart_wg (oc : bool) (w : WgWorld) : WgWorld :=
  (run_async (initialize_counters oc) (mkWgWorld (ww_conn w) 1 1 ∅)).2.
End Server.

(** What happens to the tables from outside: users come, and go with their devices and the
    sessions of those, [ON DELETE CASCADE]. *)
Definition put_wg_tables (t : WgTables) (w : WgWorld) : WgWorld :=
  put_wg_conn (mkConn t (cn_faults (ww_conn w))) w.

Definition add_wg_user (u : string) (t : WgTables) : WgTables :=
  mkWgTables (wt_users t ++ [u]) (wt_devices t) (wt_weavers t) (wt_sessions t) (wt_ips t).

Definition delete_wg_user (u : string) (t : WgTables) : WgTables :=
  let gone (id : string) := existsb (fun d => String.eqb (dr_user_id d) u && String.eqb (dr_id d) id) (wt_devices t) in
  mkWgTables (delete_where (String.eqb u) (wt_users t))
    (delete_where (fun d => String.eqb (dr_user_id d) u) (wt_devices t)) (wt_weavers t)
    (delete_where (fun s => gone (tr_device_id s)) (wt_sessions t)) (wt_ips t).

(** A receiver of a channel is dropped. *)
Definition peer_disconnect (weaver_id : Uuid) (senders : PeerNotifier) : PeerNotifier :=
  alter (fun c => mkPeerChannel (pred (pc_receivers c)) (pc_sent c)) weaver_id senders.
