(* ===== verification/WgProofs.v ===== *)
(** The overlay network under concurrent requests: in every interleaving of their steps
    addresses are unique and references hold. *)
From stdpp Require Import base gmap list strings relations.
From Stdlib Require Import ZArith Lia.
From S2P Require Import Prelude Text CoreTypes Effects Sql Columns WgModel WgServer.
Local Open Scope Z_scope.

(** * The invariant of the tables *)

Section Invariant.
Context `{WB : WgBackend}.

(** The identifiers of weavers; those of sessions are others. *)
Context (W : Uuid -> Prop).

(** An address was given to an entity, and perhaps released. *)
Definition allocated (t : WgTables) (ip : string) (n : Subnet) (entity : string) : Prop :=
  exists r, r ∈ wt_ips t /\ ir_ip r = ip /\ ir_allocation_type r = subnet_text n /\ ir_entity_id r = entity.

Definition ip_ok (r : IpRow) : Prop := exists n h u, u64_ok h /\ ir_ip r = ipv6_to_string (subnet_addr n h)
  /\ ir_allocation_type r = subnet_text n /\ ir_entity_id r = uuid_text u /\ (n = Sub_Weaver <-> W u).

Definition reads {R A} (try_from : R -> result WgError A) (r : R) : Prop := exists a, try_from r = Ok a.

Definition device_ok (t : WgTables) (r : DeviceRow) : Prop :=
  reads Device_try_from r /\ dr_user_id r ∈ wt_users t /\ exists u, dr_id r = uuid_text u.
Definition weaver_ok (t : WgTables) (r : WeaverRow) : Prop :=
  reads WeaverWg_try_from r
  /\ exists u, W u /\ wr_weaver_id r = uuid_text u /\ allocated t (wr_assigned_ip r) Sub_Weaver (wr_weaver_id r).
Definition tunnel_ok (t : WgTables) (r : TunnelRow) : Prop :=
  reads Tunnel_try_from r
  /\ tr_device_id r ∈ dr_id <$> wt_devices t /\ tr_weaver_id r ∈ wr_weaver_id <$> wt_weavers t
  /\ exists u, ~ W u /\ tr_id r = uuid_text u /\ allocated t (tr_client_ip r) Sub_Client (tr_id r).

Record wg_inv (t : WgTables) : Prop := {
  wi_device_ids : NoDup (dr_id <$> wt_devices t);
  wi_device_keys : NoDup (dr_public_key <$> wt_devices t);
  wi_devices : Forall (device_ok t) (wt_devices t);
  wi_weaver_ids : NoDup (wr_weaver_id <$> wt_weavers t);
  wi_weavers : Forall (weaver_ok t) (wt_weavers t);
  wi_session_ids : NoDup (tr_id <$> wt_sessions t);
  wi_session_pairs : NoDup ((fun r => (tr_device_id r, tr_weaver_id r)) <$> wt_sessions t);
  wi_sessions : Forall (tunnel_ok t) (wt_sessions t);
  wi_ips : NoDup (ir_ip <$> wt_ips t);
  wi_ip_rows : Forall ip_ok (wt_ips t);
}.

(** ** Addresses *)

Lemma subnet_text_inj n n' : subnet_text n = subnet_text n' -> n = n'.
Proof. by destruct n, n'. Qed.

(** An address belongs to one entity. *)
Lemma allocated_unique t ip n n' e e' : wg_inv t -> allocated t ip n e -> allocated t ip n' e' -> n = n' /\ e = e'.
Proof.
  intros Hi (r & Hr & E1 & E2 & <-) (r' & Hr' & E1' & E2' & <-).
  assert (r = r') as <- by (apply (NoDup_key ir_ip (wt_ips t)); [apply Hi|done|done|congruence]).
  split; [|done]. apply subnet_text_inj. congruence.
Qed.

Lemma allocated_text t ip n e : wg_inv t -> allocated t ip n e ->
  exists h, u64_ok h /\ ip = ipv6_to_string (subnet_addr n h) /\ ipv6_parse ip = Some (subnet_addr n h).
Proof.
  intros Hi (r & Hr & <- & E & _).
  destruct (proj1 (Forall_forall _ _) (wi_ip_rows _ Hi) r Hr) as (n' & h & u & Hh & Et & En & _).
  rewrite E in En. apply subnet_text_inj in En as <-. exists h. split_and!; [done..|].
  rewrite Et. by apply subnet_roundtrip.
Qed.

(** All addresses in use are different. *)
Lemma addresses_NoDup t : wg_inv t ->
  NoDup ((tr_client_ip <$> wt_sessions t) ++ (wr_assigned_ip <$> wt_weavers t)).
Proof.
  intros Hi. apply NoDup_app. split_and!.
  - assert (H := wi_session_ids _ Hi). assert (Ha := wi_sessions _ Hi).
    assert (Hu := fun ip n n' e e' => allocated_unique t ip n n' e e' Hi).
    clear Hi. induction (wt_sessions t) as [|r l IH]; [constructor|]. cbn in *.
    apply NoDup_cons in H as [Hn H]. apply Forall_cons in Ha as [(_ & _ & _ & u & _ & _ & Hr) Ha].
    apply NoDup_cons. split; [|by apply IH].
    intros (r' & E & Hr')%list_elem_of_fmap. apply Hn.
    destruct (proj1 (Forall_forall _ _) Ha r' Hr') as (_ & _ & _ & u' & _ & _ & Hx). rewrite <- E in Hx.
    destruct (Hu _ _ _ _ _ Hr Hx) as [_ ->]. by apply list_elem_of_fmap_2.
  - intros ip (s & -> & Hs)%list_elem_of_fmap (w & E & Hw)%list_elem_of_fmap.
    destruct (proj1 (Forall_forall _ _) (wi_sessions _ Hi) s Hs) as (_ & _ & _ & u & _ & _ & Ha).
    destruct (proj1 (Forall_forall _ _) (wi_weavers _ Hi) w Hw) as (_ & v & _ & _ & Hb).
    rewrite <- E in Hb. by destruct (allocated_unique _ _ _ _ _ _ Hi Ha Hb).
  - assert (H := wi_weaver_ids _ Hi). assert (Ha := wi_weavers _ Hi).
    assert (Hu := fun ip n n' e e' => allocated_unique t ip n n' e e' Hi).
    clear Hi. induction (wt_weavers t) as [|r l IH]; [constructor|]. cbn in *.
    apply NoDup_cons in H as [Hn H]. apply Forall_cons in Ha as [(_ & u & _ & _ & Hr) Ha].
    apply NoDup_cons. split; [|by apply IH].
    intros (r' & E & Hr')%list_elem_of_fmap. apply Hn.
    destruct (proj1 (Forall_forall _ _) Ha r' Hr') as (_ & u' & _ & _ & Hx). rewrite <- E in Hx.
    destruct (Hu _ _ _ _ _ Hr Hx) as [_ ->]. by apply list_elem_of_fmap_2.
Qed.

(** ** What stays *)

(** Addresses are never forgotten. *)
Definition grows (t t' : WgTables) : Prop := forall ip n e, allocated t ip n e -> allocated t' ip n e.

Lemma grows_same t t' : wt_ips t' = wt_ips t -> grows t t'.
Proof. unfold grows, allocated. by intros ->. Qed.

Lemma weaver_ok_grows t t' r : grows t t' -> weaver_ok t r -> weaver_ok t' r.
Proof. intros Hg (H & u & Hu & E & Ha). split; [done|]. exists u. split_and!; [done..|by apply Hg]. Qed.

Lemma tunnel_ok_grows t t' r : grows t t' -> dr_id <$> wt_devices t ⊆ dr_id <$> wt_devices t' ->
  wr_weaver_id <$> wt_weavers t ⊆ wr_weaver_id <$> wt_weavers t' -> tunnel_ok t r -> tunnel_ok t' r.
Proof.
  intros Hg Hd Hw (H & H1 & H2 & u & Hu & E & Ha). split_and!; [done|by apply Hd|by apply Hw|].
  exists u. split_and!; [done..|by apply Hg].
Qed.

Lemma snoc_subset {A} (l : list A) x : l ⊆ l ++ [x].
Proof. intros y Hy. apply elem_of_app. by left. Qed.

(** ** Rows that are read back *)

Lemma now_reads t : calendar t -> exists u, wg_datetime (sqlite_now t) = Ok u.
Proof. intros H. unfold wg_datetime. destruct (sqlite_now_naive t H) as [-> ->]. by eexists. Qed.

Lemma wg_id_text what u : wg_id what (uuid_text u) = Ok u.
Proof. unfold wg_id. by rewrite uuid_roundtrip. Qed.

Lemma wg_ip_text message n h : u64_ok h ->
  wg_ip message (ipv6_to_string (subnet_addr n h)) = Ok (subnet_addr n h).
Proof. intros H. unfold wg_ip. by rewrite subnet_roundtrip. Qed.

Definition key_ok (k : string) : Prop := (String.length k =? 32)%nat = true.

Lemma wg_key_ok k : key_ok k -> wg_key k = Ok k.
Proof. unfold wg_key. by intros ->. Qed.

Lemma device_reads id user key name now : calendar now -> key_ok key ->
  reads Device_try_from (mkDeviceRow (uuid_text id) (uuid_text user) key name (sqlite_now now) None None).
Proof.
  intros [u Hu]%now_reads Hk. unfold reads, Device_try_from. cbn.
  rewrite wg_key_ok, !wg_id_text, Hu by done. by eexists.
Qed.

Lemma weaver_reads id key n h region now : calendar now -> key_ok key -> u64_ok h ->
  reads WeaverWg_try_from (mkWeaverRow (uuid_text id) key (ipv6_to_string (subnet_addr n h)) region None
    (sqlite_now now) None).
Proof.
  intros [u Hu]%now_reads Hk Hh. unfold reads, WeaverWg_try_from. cbn.
  rewrite wg_key_ok, wg_ip_text, wg_id_text, Hu by done. by eexists.
Qed.

Lemma tunnel_reads id device weaver n h now : calendar now -> u64_ok h ->
  reads Tunnel_try_from (mkTunnelRow (uuid_text id) (uuid_text device) (uuid_text weaver)
    (ipv6_to_string (subnet_addr n h)) (sqlite_now now) None).
Proof.
  intros [u Hu]%now_reads Hh. unfold reads, Tunnel_try_from. cbn.
  rewrite !wg_id_text, wg_ip_text, Hu by done. by eexists.
Qed.

(** A change of a column that is read on its own. *)
Lemma revoked_reads r now : calendar now -> reads Device_try_from r ->
  reads Device_try_from (mkDeviceRow (dr_id r) (dr_user_id r) (dr_public_key r) (dr_name r) (dr_created_at r)
    (dr_last_seen_at r) (Some (sqlite_now now))).
Proof.
  intros [u Hu]%now_reads [d H]. unfold reads, Device_try_from in *. cbn.
  repeat (apply bind_Ok in H as (? & E & H); rewrite E; clear E; cbn).
  rewrite Hu. by eexists.
Qed.

(** ** Statements *)

(** A change of the tables that keeps the invariant and the addresses. *)
Definition wg_kept (t t' : WgTables) : Prop := wg_inv t' /\ grows t t'.

Lemma kept_refl t : wg_inv t -> wg_kept t t.
Proof. intros H. split; [done|]. by apply grows_same. Qed.

Lemma devices_snoc t r : wg_inv t -> device_ok t r ->
  (forall x, x ∈ wt_devices t -> dr_id x <> dr_id r) ->
  (forall x, x ∈ wt_devices t -> dr_public_key x <> dr_public_key r) ->
  wg_kept t (put_devices (wt_devices t ++ [r]) t).
Proof.
  intros [] Hr Hi Hk. split; [|by apply grows_same]. split; try done; cbn.
  - by apply NoDup_fmap_snoc.
  - by apply NoDup_fmap_snoc.
  - by apply Forall_snoc.
  - eapply Forall_impl; [done|]. intros s. apply tunnel_ok_grows; [by apply grows_same| |done].
    cbn. rewrite fmap_app. apply snoc_subset.
Qed.

Lemma devices_update t p f : wg_inv t ->
  (forall r, dr_id (f r) = dr_id r /\ dr_public_key (f r) = dr_public_key r /\ dr_user_id (f r) = dr_user_id r) ->
  (forall r, reads Device_try_from r -> reads Device_try_from (f r)) ->
  wg_kept t (put_devices (update_where p f (wt_devices t)) t).
Proof.
  intros [] Hf Hr. split; [|by apply grows_same].
  assert (E : dr_id <$> update_where p f (wt_devices t) = dr_id <$> wt_devices t)
    by (apply update_where_fmap; intros; apply Hf).
  split; try done; cbn.
  - by rewrite E.
  - rewrite update_where_fmap by (intros; apply Hf). done.
  - apply Forall_forall. intros r (r0 & Hr0 & ->)%elem_of_update_where.
    destruct (proj1 (Forall_forall _ _) wi_devices0 r0 Hr0) as (H1 & H2 & H3). destruct (p r0); [|done].
    destruct (Hf r0) as (Ei & _ & Eu). unfold device_ok. rewrite Ei, Eu. split; [by apply Hr|done].
  - eapply Forall_impl; [done|]. intros s. apply tunnel_ok_grows; [by apply grows_same| |done]. cbn. by rewrite E.
Qed.

Lemma weavers_snoc t r : wg_inv t -> weaver_ok t r -> (forall x, x ∈ wt_weavers t -> wr_weaver_id x <> wr_weaver_id r) ->
  wg_kept t (put_weavers (wt_weavers t ++ [r]) t).
Proof.
  intros [] Hr Hi. split; [|by apply grows_same]. split; try done; cbn.
  - by apply NoDup_fmap_snoc.
  - apply Forall_snoc; [|done]. done.
  - eapply Forall_impl; [done|]. intros s. apply tunnel_ok_grows; [by apply grows_same|done|].
    cbn. rewrite fmap_app. apply snoc_subset.
Qed.

Lemma tunnels_filter t p : wg_inv t -> wg_kept t (put_tunnels (delete_where p (wt_sessions t)) t).
Proof.
  intros []. split; [|by apply grows_same]. split; try done; cbn.
  - by apply delete_where_NoDup.
  - by apply delete_where_NoDup.
  - by apply delete_where_Forall.
Qed.

Lemma weavers_delete t id : wg_inv t -> wg_kept t (delete_weavers id t).
Proof.
  intros []. split; [|by apply grows_same]. split; try done; cbn.
  - by apply delete_where_NoDup.
  - by apply delete_where_Forall.
  - by apply delete_where_NoDup.
  - by apply delete_where_NoDup.
  - apply Forall_forall. intros s [Hs Hw]%elem_of_delete_where.
    destruct (proj1 (Forall_forall _ _) wi_sessions0 s Hs) as (H1 & H2 & H3 & H4). split_and!; [done..| |done].
    apply list_elem_of_fmap in H3 as (r & E & Hr). cbn. apply list_elem_of_fmap. exists r. split; [done|].
    apply elem_of_delete_where. split; [done|]. unfold weaver_is. by rewrite <- E.
Qed.

Lemma tunnels_snoc t r : wg_inv t -> tunnel_ok t r -> (forall x, x ∈ wt_sessions t -> tr_id x <> tr_id r) ->
  (forall x, x ∈ wt_sessions t -> (tr_device_id x, tr_weaver_id x) <> (tr_device_id r, tr_weaver_id r)) ->
  wg_kept t (put_tunnels (wt_sessions t ++ [r]) t).
Proof.
  intros [] Hr Hi Hp. split; [|by apply grows_same]. split; try done; cbn.
  - by apply NoDup_fmap_snoc.
  - by apply NoDup_fmap_snoc.
  - by apply Forall_snoc.
Qed.

Lemma ips_snoc t r : wg_inv t -> ip_ok r -> (forall x, x ∈ wt_ips t -> ir_ip x <> ir_ip r) ->
  wg_kept t (put_ips (wt_ips t ++ [r]) t).
Proof.
  intros [] Hr Hi. assert (Hg : grows t (put_ips (wt_ips t ++ [r]) t)).
  { intros ip n e (x & Hx & H). exists x. split; [by apply snoc_subset|done]. }
  split; [|done]. split; try done; cbn.
  - eapply Forall_impl; [done|]. intros x. by apply weaver_ok_grows.
  - eapply Forall_impl; [done|]. intros x. by apply tunnel_ok_grows.
  - by apply NoDup_fmap_snoc.
  - by apply Forall_snoc.
Qed.

Lemma ips_update t p f : wg_inv t ->
  (forall r, ir_ip (f r) = ir_ip r /\ ir_allocation_type (f r) = ir_allocation_type r /\ ir_entity_id (f r) = ir_entity_id r) ->
  wg_kept t (put_ips (update_where p f (wt_ips t)) t).
Proof.
  intros [] Hf. assert (Hg : grows t (put_ips (update_where p f (wt_ips t)) t)).
  { intros ip n e (x & Hx & H). exists (if p x then f x else x). split; [apply elem_of_update_where; by exists x|].
    destruct (p x); [|done]. by destruct (Hf x) as (-> & -> & ->). }
  split; [|done]. split; try done; cbn.
  - eapply Forall_impl; [done|]. intros x. by apply weaver_ok_grows.
  - eapply Forall_impl; [done|]. intros x. by apply tunnel_ok_grows.
  - rewrite update_where_fmap by (intros; apply Hf). done.
  - apply Forall_forall. intros r (r0 & Hr0 & ->)%elem_of_update_where.
    assert (H := proj1 (Forall_forall _ _) wi_ip_rows0 r0 Hr0). destruct (p r0); [|done].
    unfold ip_ok. by destruct (Hf r0) as (-> & -> & ->).
Qed.
End Invariant.

(** * DERP maps *)

(** The overlay decides: its own regions first, then what it leaves of the default ones. *)
Lemma apply_overlay_region m o id :
  get_region (apply_overlay m o) id =
  match ov_custom_regions o !! id with
  | Some r => Some r
  | None => if ov_omit_default_regions o || bool_decide (id ∈ ov_disable_regions o) then None else get_region m id
  end.
Proof.
  unfold get_region, apply_overlay. cbn [dm_regions].
  assert (Hd : forall (l : list Z) (r : gmap Z DerpRegion),
    foldl (fun r i => delete i r) r l !! id = if bool_decide (id ∈ l) then None else r !! id).
  { induction l as [|x l IH]; intros r; cbn [foldl]; [by rewrite bool_decide_eq_false_2 by apply not_elem_of_nil|].
    rewrite IH. destruct (decide (x = id)) as [->|Hx].
    - rewrite lookup_delete_eq, (bool_decide_eq_true_2 (id ∈ id :: l)) by left. by case_bool_decide.
    - rewrite lookup_delete_ne by done. rewrite (bool_decide_ext (id ∈ x :: l) (id ∈ l)); [done|]. set_solver. }
  rewrite lookup_union, Hd. destruct (ov_custom_regions o !! id) as [r|].
  - by destruct (if bool_decide _ then _ else _).
  - destruct (ov_omit_default_regions o); cbn.
    + rewrite lookup_empty. by case_bool_decide.
    + case_bool_decide; [done|]. by destruct (dm_regions m !! id).
Qed.

(** * The services *)

Section Services.
Context `{WB : WgBackend} (W : Uuid -> Prop).

Definition wtab (w : WgWorld) : WgTables := cn_tables (ww_conn w).

Definition wg_ok (w : WgWorld) : Prop :=
  wg_inv W (wtab w) /\ u64_ok (ww_weaver_counter w) /\ u64_ok (ww_client_counter w).

(** What a request has seen of the addresses stays. *)
Definition wg_ext (w w' : WgWorld) : Prop := grows (wtab w) (wtab w').

#[export] Instance wg_ext_PreOrder : PreOrder wg_ext.
Proof. split; [by intros w ip n e|]. intros w1 w2 w3 H1 H2 ip n e H. by apply H2, H1. Qed.

Notation wsafe Q := (safe wg_ok wg_ext (on_ok Q)).
Notation anything := (fun _ _ => True).

Lemma safe_sql {A} (f : WgTables -> option (A * WgTables)) (Q : A -> WgTables -> Prop) w :
  (forall t a t', wg_inv W t -> grows (wtab w) t -> f t = Some (a, t') -> wg_kept W t t' /\ Q a t') ->
  wsafe (fun a w => Q a (wtab w)) (wgdb (sql DE_Sqlx f)) w.
Proof.
  intros H. apply safe_atomic. intros w1 He (Hi & Hw & Hc). unfold map_err, on_part.
  assert (Hs : wp (sql DE_Sqlx f) (fun r c => wg_kept W (wtab w1) (cn_tables c)
    /\ match r with Ok a => Q a (cn_tables c) | Err _ => True end) (ww_conn w1)).
  { apply wp_sql.
    - intros e c E _. rewrite E. split; [by apply kept_refl|done].
    - intros a c E _. by apply (H (wtab w1)). }
  unfold wp in Hs. destruct (sql DE_Sqlx f (ww_conn w1)) as [[a|e] c]; cbn in *; by destruct Hs as [[H1 H2] H3].
Qed.

Lemma safe_query {A} (f : WgTables -> A) w :
  wsafe (fun a w => wg_inv W (wtab w) /\ a = f (wtab w)) (wgdb (wg_query f)) w.
Proof.
  apply (safe_sql _ (fun a t => wg_inv W t /\ a = f t)). intros t a t' Hi _ [= <- <-].
  split; [by apply kept_refl|done].
Qed.

Lemma safe_any {E A} (Q : A -> WgWorld -> Prop) (m : WgM E A) w : wsafe Q m w -> wsafe anything m w.
Proof. intros H. eapply safe_mono; [exact _|exact H|]. by intros [a|e]. Qed.

Lemma safe_db {A} (f : WgTables -> option (A * WgTables)) w :
  (forall t a t', wg_inv W t -> grows (wtab w) t -> f t = Some (a, t') -> wg_kept W t t') ->
  wsafe anything (wgdb (sql DE_Sqlx f)) w.
Proof. intros H. apply (safe_sql _ anything). intros t a t' H1 H2 H3. split; [by eapply H|done]. Qed.

Lemma safe_read {A} (f : WgTables -> A) w : wsafe anything (wgdb (wg_query f)) w.
Proof. eapply safe_any, safe_query. Qed.

Lemma safe_write {A} (f : WgTables -> A * WgTables) w :
  (forall t, wg_inv W t -> wg_kept W t (f t).2) -> wsafe anything (wgdb (sql_write DE_Sqlx f)) w.
Proof. intros H. apply safe_db. intros t a t' Hi _ [= E]. assert (K := H t Hi). by rewrite E in K. Qed.

Lemma safe_then {E A B} (m : WgM E A) (f : A -> WgM E B) w :
  wsafe anything m w -> (forall a w1, wg_ext w w1 -> wsafe anything (f a) w1) -> wsafe anything (abind m f) w.
Proof. intros H1 H2. eapply safe_bind; [exact _|exact H1|]. intros a w1 He _. by apply H2. Qed.

Lemma safe_done {E A} (r : result E A) w : wsafe anything (A_Done r) w.
Proof. by destruct r. Qed.

Lemma safe_senders {E} f w : wsafe anything (on_senders (E := E) f) w.
Proof. apply safe_atomic. intros w1 He Hi. split_and!; [done|by intros ip n e|done]. Qed.

(** ** Addresses *)

(** An address of an entity. *)
Definition given (addr : Ipv6Addr) (n : Subnet) (entity : Uuid) (w : WgWorld) : Prop :=
  (exists h, u64_ok h /\ addr = subnet_addr n h) /\ allocated (wtab w) (ipv6_to_string addr) n (uuid_text entity).

Lemma given_later addr n entity w w' : wg_ext w w' -> given addr n entity w -> given addr n entity w'.
Proof. intros He [H1 H2]. split; [done|by apply He]. Qed.

Lemma existing_given t n entity r message addr : wg_inv W t -> (n = Sub_Weaver <-> W entity) ->
  r ∈ wt_ips t -> ir_entity_id r = uuid_text entity -> wg_ip message (ir_ip r) = Ok addr ->
  (exists h, u64_ok h /\ addr = subnet_addr n h) /\ allocated t (ipv6_to_string addr) n (uuid_text entity).
Proof.
  intros Hi Hn Hr Ee Ha. destruct (proj1 (Forall_forall _ _) (wi_ip_rows _ _ Hi) r Hr)
    as (n' & h & u & Hh & Eip & Et & Eu & Hu).
  rewrite Eu in Ee. apply uuid_text_inj in Ee as ->.
  assert (n' = n) as -> by (destruct n, n'; naive_solver).
  rewrite Eip, wg_ip_text in Ha by done. injection Ha as <-. split; [by exists h|].
  by exists r.
Qed.

Lemma fetch_add_safe {E} n w : wsafe (fun host _ => u64_ok host) (fetch_add (E := E) n) w.
Proof.
  apply safe_atomic. intros w1 He (Hi & Hw & Hc). assert (Hx : u64_ok (wrap_u64 (counter n w1 + 1)))
    by (unfold u64_ok, wrap_u64; by apply Z.mod_pos_bound).
  destruct n; cbn in *; (split_and!; [split_and!; done|by intros ip m e|done]).
Qed.

Lemma insert_ip_safe now n host entity w : u64_ok host -> (n = Sub_Weaver <-> W entity) ->
  wsafe (fun _ => given (subnet_addr n host) n entity)
    (wgdb (wg_insert_ip_allocation now (ipv6_to_string (subnet_addr n host)) (subnet_text n) entity)) w.
Proof.
  intros Hh Hn.
  apply (safe_sql _ (fun _ t => (exists h, u64_ok h /\ subnet_addr n host = subnet_addr n h)
    /\ allocated t (ipv6_to_string (subnet_addr n host)) n (uuid_text entity))).
  intros t a t' Hi _ H. destruct (existsb _ _) eqn:E; [done|]. injection H as <- <-. split.
  - apply ips_snoc; [done| |].
    + exists n, host, entity. by split_and!.
    + intros x Hx Ex. assert (Hf := existsb_false _ _ _ E Hx). unfold ip_is in Hf. cbn in Ex.
      by rewrite Ex, String.eqb_refl in Hf.
  - split; [by exists host|]. eexists. split; [apply elem_of_app; right; by left|done].
Qed.

Lemma allocate_safe env k n entity w : (n = Sub_Weaver <-> W entity) ->
  wsafe (fun addr => given addr n entity) (allocate_ip env k n entity) w.
Proof.
  intros Hn. eapply safe_bind; [exact _|apply safe_query|]. intros o w1 _ [Hi ->].
  destruct (select_one _ _) as [r|] eqn:E; cbn [fmap option_fmap option_map].
  - apply select_one_Some in E as [Hr Hp]. apply andb_true_iff in Hp as [Hp _]. apply String.eqb_eq in Hp.
    cbn [safe on_ok]. destruct (wg_ip _ _) as [addr|] eqn:Ea; [|done]. by eapply existing_given.
  - eapply safe_bind; [exact _|apply fetch_add_safe|]. intros host w2 _ Hh.
    destruct (_ <? _); [done|]. eapply safe_bind; [exact _|by apply insert_ip_safe|].
    by intros [] w3 _ Hg.
Qed.

Lemma release_safe env k ip w : wsafe anything (release_ip env k ip) w.
Proof.
  apply safe_then; [|done]. apply safe_write. intros t Hi. by apply ips_update.
Qed.

(** ** Devices, weavers and sessions *)

Definition clocks_ok (env : Env) : Prop := forall k, calendar (env_now env k).

Lemma get_safe {R A} (try_from : R -> result WgError A) (f : WgTables -> option R) w :
  wsafe anything (await* row := wgdb (wg_query f) in read_row try_from row) w.
Proof. apply safe_then; [apply safe_read|]. intros o w1 _. apply safe_done. Qed.

Lemma list_safe {R A} (try_from : R -> result WgError A) (f : WgTables -> list R) w :
  wsafe anything (await* rows := wgdb (wg_query f) in A_Done (collect try_from rows)) w.
Proof. apply safe_then; [apply safe_read|]. intros o w1 _. apply safe_done. Qed.

Lemma device_register_safe env user key name w : clocks_ok env -> key_ok key ->
  wsafe anything (device_register env user key name) w.
Proof.
  intros Hc Hk. apply safe_then; [apply get_safe|]. intros [d|] w1 _; [done|].
  apply safe_then; [|done]. apply safe_db. intros t a t' Hi _ H.
  destruct (existsb (device_is _) _) eqn:E1; [done|].
  destruct (existsb (fun r => String.eqb (dr_public_key r) key) _) eqn:E2; [done|].
  destruct (existsb (String.eqb _) _) eqn:E3; [|done]. injection H as <- <-.
  apply existsb_true in E3 as (u & Hu & E3). apply String.eqb_eq in E3 as <-.
  apply devices_snoc; [done|split_and!; [by apply device_reads|done|by exists (env_uuid env 0)]| |]; intros x Hx E.
  - assert (Hf := existsb_false _ _ _ E1 Hx). unfold device_is in Hf. cbn in E. by rewrite E, String.eqb_refl in Hf.
  - assert (Hf := existsb_false _ _ _ E2 Hx). cbn in E, Hf. by rewrite E, String.eqb_refl in Hf.
Qed.

Lemma device_revoke_safe env id user w : clocks_ok env -> wsafe anything (device_revoke env id user) w.
Proof.
  intros Hc. apply safe_then; [|intros n w1 _; by destruct (n =? 0)]. apply safe_write. intros t Hi.
  apply devices_update; [done|done|]. intros r. by apply revoked_reads.
Qed.

Lemma insert_weaver_safe now id key addr region w : calendar now -> key_ok key -> W id ->
  given addr Sub_Weaver id w -> wsafe anything (wgdb (wg_insert_weaver now id key addr region)) w.
Proof.
  intros Hn Hk Hid [(h & Hh & ->) Ha]. apply safe_db. intros t a t' Hi Hg H.
  destruct (existsb _ _) eqn:E; [done|]. injection H as <- <-. apply weavers_snoc; [done| |].
  - split; [by apply weaver_reads|]. exists id. split_and!; [done..|]. by apply Hg.
  - intros x Hx Ex. assert (Hf := existsb_false _ _ _ E Hx). unfold weaver_is in Hf. cbn in Ex.
    by rewrite Ex, String.eqb_refl in Hf.
Qed.

Lemma weaver_register_safe env id key region w : clocks_ok env -> key_ok key -> W id ->
  wsafe anything (weaver_register env id key region) w.
Proof.
  intros Hc Hk Hid. apply safe_then; [apply get_safe|]. intros [v|] w1 _; [done|].
  eapply safe_bind; [exact _|by apply allocate_safe|]. intros addr w2 _ Hg.
  apply safe_then; [by apply insert_weaver_safe|done].
Qed.

Lemma weaver_unregister_safe env id w : wsafe anything (weaver_unregister env id) w.
Proof.
  apply safe_then; [apply get_safe|]. intros o w1 _.
  apply safe_then; [destruct o; [apply release_safe|done]|]. intros _ w2 _.
  apply safe_then; [|intros n w3 _; by destruct (n =? 0)]. apply safe_write. intros t Hi. by apply weavers_delete.
Qed.

Lemma existsb_key {R} (g : R -> string) k (l : list R) :
  existsb (fun r => String.eqb (g r) k) l = true -> k ∈ g <$> l.
Proof. intros (r & Hr & E)%existsb_true. apply String.eqb_eq in E as <-. by apply list_elem_of_fmap_2. Qed.

Lemma insert_session_safe now id device weaver addr w : calendar now -> ~ W id ->
  given addr Sub_Client id w -> wsafe anything (wgdb (wg_insert_session now id device weaver addr)) w.
Proof.
  intros Hn Hid [(h & Hh & ->) Ha]. apply safe_db. intros t a t' Hi Hg H.
  destruct (existsb (tunnel_is _) _) eqn:E1; [done|].
  destruct (existsb (tunnel_between _ _) _) eqn:E2; [done|].
  destruct (existsb (device_is _) _) eqn:E3; [|done].
  destruct (existsb (weaver_is _) _) eqn:E4; [|done]. injection H as <- <-.
  apply tunnels_snoc; [done| | |].
  - split_and!; [by apply tunnel_reads|by apply (existsb_key dr_id)|by apply (existsb_key wr_weaver_id)|].
    exists id. split_and!; [done..|]. by apply Hg.
  - intros x Hx Ex. assert (Hf := existsb_false _ _ _ E1 Hx). unfold tunnel_is in Hf. cbn in Ex.
    by rewrite Ex, String.eqb_refl in Hf.
  - intros x Hx [= Ed Ew]. assert (Hf := existsb_false _ _ _ E2 Hx). unfold tunnel_between in Hf.
    by rewrite Ed, Ew, !String.eqb_refl in Hf.
Qed.

Lemma tunnel_create_safe config env device weaver w : clocks_ok env -> ~ W (env_uuid env 0) ->
  wsafe anything (tunnel_create config env device weaver) w.
Proof.
  intros Hc Hid. apply safe_then; [apply get_safe|]. intros [d|] w1 _; [|done].
  case_bool_decide; [done|]. apply safe_then; [apply get_safe|]. intros [v|] w2 _; [|done].
  apply safe_then; [apply get_safe|]. intros [s|] w3 _; [done|].
  eapply safe_bind; [exact _|by apply allocate_safe|]. intros addr w4 _ Hg.
  apply safe_then; [by apply insert_session_safe|]. intros _ w5 _.
  apply safe_then; [apply safe_senders|done].
Qed.

Lemma tunnel_terminate_safe env id w : wsafe anything (tunnel_terminate env id) w.
Proof.
  apply safe_then; [apply get_safe|]. intros [s|] w1 _; [|done].
  apply safe_then; [apply get_safe|]. intros d w2 _. apply safe_then; [apply release_safe|]. intros _ w3 _.
  apply safe_then; [apply safe_write; intros t Hi; by apply tunnels_filter|]. intros n w4 _.
  destruct (n =? 0); [done|]. destruct d; [apply safe_senders|done].
Qed.

(** ** Requests *)

Context (app : WgApp).

Lemma safe_service {A} (m : WgM WgError A) w : wsafe anything m w -> wsafe anything (service m) w.
Proof. apply safe_map_err, _. Qed.

Lemma uuid_param_safe what s w : wsafe anything (uuid_param what s) w.
Proof. unfold uuid_param. by destruct (uuid_parse s). Qed.

Lemma enabled_safe w : wsafe anything (tunnel_enabled app) w.
Proof. unfold tunnel_enabled. by destruct (wa_config app). Qed.

Lemma owned_safe user id w : wsafe anything (owned_weaver app user id) w.
Proof.
  unfold owned_weaver. destruct (negb _); [done|]. destruct (wa_provisioner app) as [f|]; [|done].
  destruct (f id) as [o|e]; [|done]. by destruct (String.eqb _ _).
Qed.

(** The weaver of an accepted token. *)
Lemma authorized_safe header id w :
  wsafe (fun u _ => uuid_parse id = Ok u) (weaver_authorized app header id) w.
Proof.
  unfold weaver_authorized. destruct (wa_verify_svid app) as [verify|]; [|done]. destruct (wa_config app); [|done].
  destruct (wg_bearer_token header) as [token|]; [|done]. destruct (verify token) as [c|]; [|done].
  destruct (negb _); [done|]. by destruct (uuid_parse id).
Qed.

Lemma parsed_key_ok s k : parse_public_key s = Ok k -> key_ok k.
Proof.
  unfold parse_public_key, key_ok. destruct (match base64_decode s with Some k => Some k | None => _ end); [|done].
  destruct (_ =? _)%nat eqn:E; [|done]. by intros [= <-].
Qed.

(** Requests whose clocks are within the calendar; fresh identifiers are not those of
    weavers, and those in identity tokens are. *)
Definition wg_request_ok (r : WgRequest) : Prop :=
  match r with
  | WQ_RegisterDevice env _ _ _ | WQ_RevokeDevice env _ _ => clocks_ok env
  | WQ_CreateSession env _ _ => clocks_ok env /\ ~ W (env_uuid env 0)
  | WQ_RegisterWeaver env _ id _ _ => clocks_ok env /\ forall u, uuid_parse id = Ok u -> W u
  | _ => True
  end.

Lemma sessions_of_safe l w : wsafe anything (sessions_of l) w.
Proof.
  revert w. induction l as [|d l IH]; intros w; [done|].
  apply safe_then; [apply safe_service, list_safe|]. intros s w1 _. apply safe_then; [apply IH|done].
Qed.

Lemma register_device_safe env user key name w : clocks_ok env ->
  wsafe anything (register_device app env user key name) w.
Proof.
  intros Hc. apply safe_then; [apply enabled_safe|]. intros _ w1 _.
  destruct (parse_public_key key) as [k|] eqn:E; [|done].
  apply safe_then; [|done]. apply safe_service, device_register_safe; [done|by eapply parsed_key_ok].
Qed.

Lemma create_session_safe env user id w : clocks_ok env -> ~ W (env_uuid env 0) ->
  wsafe anything (create_session app env user id) w.
Proof.
  intros Hc Hid. apply safe_then; [apply enabled_safe|]. intros c w1 _.
  apply safe_then; [apply owned_safe|]. intros _ w2 _. apply safe_then; [apply uuid_param_safe|]. intros u w3 _.
  apply safe_then; [apply safe_service, list_safe|]. intros [|d l] w4 _; [done|].
  apply safe_then; [by apply safe_service, tunnel_create_safe|done].
Qed.

Lemma terminate_session_safe env user id w : wsafe anything (terminate_session app env user id) w.
Proof.
  apply safe_then; [apply enabled_safe|]. intros _ w1 _. apply safe_then; [apply uuid_param_safe|]. intros u w2 _.
  apply safe_then; [apply safe_service, get_safe|]. intros [s|] w3 _; [|done].
  apply safe_then; [apply safe_service, get_safe|]. intros [d|] w4 _; [|done].
  destruct (negb _ && _); [done|]. apply safe_service, tunnel_terminate_safe.
Qed.

Lemma register_weaver_safe env header id key region w : clocks_ok env ->
  (forall u, uuid_parse id = Ok u -> W u) ->
  wsafe anything (register_weaver app env header id key region) w.
Proof.
  intros Hc Hid. eapply safe_bind; [exact _|apply authorized_safe|]. intros u w1 _ Hu.
  destruct (parse_public_key key) as [k|] eqn:E; [|done].
  apply safe_then; [|done]. apply safe_map_err; [exact _|].
  apply weaver_register_safe; [done|by eapply parsed_key_ok|by apply Hid].
Qed.

Lemma drop_answer {E A} (m : WgM E A) w : wsafe anything m w ->
  safe wg_ok wg_ext anything (async_map (fun _ => A_Done tt) m) w.
Proof. intros H. eapply safe_map; [exact _|exact H|]. done. Qed.

Lemma serve_wg_safe r w : wg_request_ok r -> safe wg_ok wg_ext anything (serve_wg app r) w.
Proof.
  destruct r; intros H; apply drop_answer.
  - by apply register_device_safe.
  - apply safe_then; [apply enabled_safe|]. intros _ w1 _. apply safe_then; [apply safe_service, list_safe|done].
  - apply safe_then; [apply enabled_safe|]. intros _ w1 _. apply safe_then; [apply uuid_param_safe|].
    intros u w2 _. by apply safe_service, device_revoke_safe.
  - destruct H. by apply create_session_safe.
  - apply safe_then; [apply enabled_safe|]. intros _ w1 _. apply safe_then; [apply safe_service, list_safe|].
    intros l w2 _. apply sessions_of_safe.
  - apply terminate_session_safe.
  - destruct H. by apply register_weaver_safe.
  - eapply safe_then; [eapply safe_any, authorized_safe|]. intros u w1 _.
    apply safe_then; [apply safe_senders|]. intros _ w2 _. apply safe_map_err; [exact _|]. apply weaver_unregister_safe.
  - eapply safe_then; [eapply safe_any, authorized_safe|]. intros u w1 _. apply safe_senders.
  - eapply safe_then; [eapply safe_any, authorized_safe|]. intros u w1 _.
    apply safe_then; [apply safe_map_err; [exact _|]; apply get_safe|]. by intros [v|] w2 _.
Qed.
End Services.

(** * All the server does *)

Section System.
Context `{WB : WgBackend} (W : Uuid -> Prop).

(** The state and the requests that are being handled. A request may find the tunnel
    configured or not. *)
Inductive wg_step : WgWorld * list (Async WgWorld unit) -> WgWorld * list (Async WgWorld unit) -> Prop :=
| G_Arrive w ms app r : wg_request_ok W r -> wg_step (w, ms) (w, serve_wg app r :: ms)
| G_Run c c' : interleave c c' -> wg_step c c'
| G_Faults w ms fs : wg_step (w, ms) (put_wg_conn (mkConn (wtab w) fs) w, ms)
| G_AddUser w ms u : wg_step (w, ms) (put_wg_tables (add_wg_user u (wtab w)) w, ms)
| G_DeleteUser w ms u : wg_step (w, ms) (put_wg_tables (delete_wg_user u (wtab w)) w, ms)
| G_Disconnect w ms id : wg_step (w, ms) (put_senders (peer_disconnect id (ww_senders w)) w, ms)
| G_Restart w ms oc : wg_step (w, ms) (restart_wg oc w, []).

Definition wg_start : WgWorld := mkWgWorld (mkConn (mkWgTables [] [] [] [] []) []) 1 1 ∅.

Lemma add_user_kept t u : wg_inv W t -> wg_kept W t (add_wg_user u t).
Proof.
  intros []. split; [|by apply grows_same]. split; try done; cbn.
  eapply Forall_impl; [done|]. intros r (H1 & H2 & H3). split_and!; [done|by apply snoc_subset|done].
Qed.

Lemma delete_user_kept t u : wg_inv W t -> wg_kept W t (delete_wg_user u t).
Proof.
  intros []. split; [|by apply grows_same]. split; try done; cbn.
  - by apply delete_where_NoDup.
  - by apply delete_where_NoDup.
  - apply Forall_forall. intros r [Hr Hu]%elem_of_delete_where.
    destruct (proj1 (Forall_forall _ _) wi_devices0 r Hr) as (H1 & H2 & H3). split_and!; [done| |done].
    apply elem_of_delete_where. split; [done|]. by rewrite String.eqb_sym.
  - by apply delete_where_NoDup.
  - by apply delete_where_NoDup.
  - apply Forall_forall. intros s [Hs Hg]%elem_of_delete_where.
    destruct (proj1 (Forall_forall _ _) wi_sessions0 s Hs) as (H1 & H2 & H3 & H4). split_and!; [done| |done..].
    apply list_elem_of_fmap in H2 as (d & E & Hd). cbn. apply list_elem_of_fmap. exists d. split; [done|].
    apply elem_of_delete_where. split; [done|]. assert (Hf := existsb_false _ _ _ Hg Hd). cbn in Hf.
    rewrite E, String.eqb_refl, andb_true_r in Hf. done.
Qed.

Lemma arith_u64 oc z v : arith oc wrap_u64 z = Done v -> u64_ok v.
Proof.
  unfold arith. intros H. assert (Hw : u64_ok (wrap_u64 z)) by (unfold u64_ok, wrap_u64; by apply Z.mod_pos_bound).
  destruct (Z.eqb_spec (wrap_u64 z) z) as [E|_]; [rewrite E in Hw|destruct oc; [done|]]; by injection H as <-.
Qed.

Lemma store_safe {E} n v w : u64_ok v ->
  safe (wg_ok W) wg_ext (on_ok (fun _ _ => True)) (store_counter (E := E) n v) w.
Proof.
  intros Hv. apply safe_atomic. intros w1 He (Hi & Hw & Hc).
  destruct n; cbn; (split_and!; [split_and!; done|by intros ip m e|done]).
Qed.

Lemma initialize_safe oc w : safe (wg_ok W) wg_ext (on_ok (fun _ _ => True)) (initialize_counters oc) w.
Proof.
  assert (Hm : forall n w, safe (wg_ok W) wg_ext (on_ok (fun _ _ => True))
    (amap_err (Failed (E := WgError)) (get_max_host_number n)) w).
  { intros n v. apply safe_map_err; [exact _|]. apply safe_then; [apply safe_read|done]. }
  apply safe_then; [apply Hm|]. intros a w1 _. apply safe_then; [apply Hm|]. intros b w2 _.
  destruct (add_u64 oc a 1) as [x|] eqn:Ea; [|done]. apply safe_then; [by eapply store_safe, arith_u64|].
  intros _ w3 _. destruct (add_u64 oc b 1) as [y|] eqn:Eb; [|done]. by eapply store_safe, arith_u64.
Qed.

Lemma restart_ok oc w : wg_ok W w -> wg_ok W (restart_wg oc w) /\ wg_ext w (restart_wg oc w).
Proof.
  intros (Hi & _ & _). destruct (safe_run (wg_ok W) wg_ext _ (initialize_counters oc) (mkWgWorld (ww_conn w) 1 1 ∅)
    ltac:(done) (initialize_safe oc _)) as (H1 & H2 & _). done.
Qed.

(** A step from outside keeps what the requests rely on. *)
Lemma later_all_safe w w' (ms : list (Async WgWorld unit)) : all_safe (wg_ok W) wg_ext (w, ms) ->
  wg_ok W w' -> wg_ext w w' -> all_safe (wg_ok W) wg_ext (w', ms).
Proof.
  intros [_ H] Hw He. split; [done|]. eapply Forall_impl; [exact H|]. cbn. intros m (v & Hv & Hm).
  exists v. split; [by etrans|done].
Qed.

Lemma kept_ok w t : wg_ok W w -> wg_kept W (wtab w) t -> wg_ok W (put_wg_tables t w) /\ wg_ext w (put_wg_tables t w).
Proof. by intros (_ & Hc) [H1 H2]. Qed.

Lemma wg_step_safe c c' : wg_step c c' -> all_safe (wg_ok W) wg_ext c -> all_safe (wg_ok W) wg_ext c'.
Proof.
  destruct 1 as [w ms app r Hr|c c' Hs|w ms fs|w ms u|w ms u|w ms id|w ms oc]; intros H; assert (H' := H);
    destruct H' as [Hi Hm]; cbn in Hi, Hm.
  - split; [done|]. apply Forall_cons. split; [|done]. exists w. split; [done|]. by apply serve_wg_safe.
  - eapply interleave_safe; [exact _|exact Hs|done].
  - apply (later_all_safe w); [done|exact Hi|by intros ip n e].
  - destruct (kept_ok w _ Hi (add_user_kept _ u (proj1 Hi))). by apply (later_all_safe w).
  - destruct (kept_ok w _ Hi (delete_user_kept _ u (proj1 Hi))). by apply (later_all_safe w).
  - apply (later_all_safe w); [done|exact Hi|by intros ip n e].
  - destruct (restart_ok oc w Hi). split; [done|]. constructor.
Qed.

Lemma wg_start_ok : wg_ok W wg_start.
Proof. split; [|done]. split; cbn; constructor. Qed.

Lemma wg_reachable c : rtc wg_step (wg_start, []) c -> wg_ok W c.1.
Proof.
  intros H. assert (Hs : all_safe (wg_ok W) wg_ext c); [|apply Hs].
  remember (wg_start, []) as c0 eqn:E. assert (H0 : all_safe (wg_ok W) wg_ext c0)
    by (subst c0; split; [apply wg_start_ok|constructor]).
  clear E. induction H as [|x y z Hxy _ IH]; [done|]. by apply IH, (wg_step_safe x).
Qed.

(** Requests one after the other. *)
Definition serve_all (app : WgApp) (rs : list WgRequest) (w : WgWorld) : WgWorld :=
  foldl (fun w r => (run_async (serve_wg app r) w).2) w rs.

Lemma serve_all_steps app rs w ms : Forall (wg_request_ok W) rs -> rtc wg_step (w, ms) (serve_all app rs w, ms).
Proof.
  intros H. revert w. induction H as [|r rs Hr _ IH]; intros w; [done|]. cbn.
  eapply rtc_l; [by apply (G_Arrive w ms app r)|]. etrans; [|apply IH].
  eapply (rtc_subrel interleave); [intros c c'; apply G_Run|]. apply run_interleave.
Qed.

(** ** Addresses *)

Definition in_subnet (n : Subnet) (a : Ipv6Addr) : Prop := exists h, u64_ok h /\ a = subnet_addr n h.

Lemma parsed_addresses {R} (g : R -> string) n t (l : list R) : wg_inv W t ->
  Forall (fun r => exists e, allocated t (g r) n e) l ->
  exists addrs, ipv6_parse <$> (g <$> l) = Some <$> addrs /\ g <$> l = ipv6_to_string <$> addrs
    /\ Forall (in_subnet n) addrs.
Proof.
  intros Hi. induction 1 as [|r l [e Hr] _ (addrs & E1 & E2 & H)]; [by exists []|].
  destruct (allocated_text _ _ _ _ _ Hi Hr) as (h & Hh & Et & Ep). exists (subnet_addr n h :: addrs).
  cbn. rewrite Ep, E1, E2, Et. split_and!; [done..|]. constructor; [by exists h|done].
Qed.

Lemma NoDup_text (l : list Ipv6Addr) : NoDup (ipv6_to_string <$> l) -> NoDup l.
Proof. apply NoDup_fmap_1. Qed.

(** C39. The addresses of the overlay network are unique: in every state that the server reaches
    with any number of requests in flight, each interrupted between any two of its
    statements, with failing statements, dropped connections, deleted users and restarts,
    the stored addresses are read back, those of sessions have the prefix of
    clients, those of weavers theirs, no two of them are the same, a device has at most one
    session with a weaver, and the device and the weaver of a session are registered. *)
Theorem overlay_addresses_unique c : rtc wg_step (wg_start, []) c ->
  let t := wtab c.1 in
  exists clients weavers,
    ipv6_parse <$> (tr_client_ip <$> wt_sessions t) = Some <$> clients
    /\ ipv6_parse <$> (wr_assigned_ip <$> wt_weavers t) = Some <$> weavers
    /\ Forall (fun a => is_client_ip a = true) clients /\ Forall (fun a => is_weaver_ip a = true) weavers
    /\ NoDup (clients ++ weavers)
    /\ NoDup ((fun s => (tr_device_id s, tr_weaver_id s)) <$> wt_sessions t)
    /\ forall s, s ∈ wt_sessions t ->
         tr_device_id s ∈ dr_id <$> wt_devices t /\ tr_weaver_id s ∈ wr_weaver_id <$> wt_weavers t.
Proof.
  intros [Hi _]%wg_reachable t. fold t in Hi.
  destruct (parsed_addresses tr_client_ip Sub_Client t (wt_sessions t) Hi) as (cs & E1 & E2 & H1).
  { eapply Forall_impl; [apply Hi|]. intros s (_ & _ & _ & u & _ & _ & Ha). by eexists. }
  destruct (parsed_addresses wr_assigned_ip Sub_Weaver t (wt_weavers t) Hi) as (ws & E3 & E4 & H2).
  { eapply Forall_impl; [apply Hi|]. intros s (_ & u & _ & _ & Ha). by eexists. }
  exists cs, ws. split_and!; [done..| | | |apply Hi|].
  - eapply Forall_impl; [exact H1|]. intros a (h & Hh & ->). by apply client_subnet.
  - eapply Forall_impl; [exact H2|]. intros a (h & Hh & ->). by apply weaver_subnet.
  - apply NoDup_text. rewrite fmap_app, <- E2, <- E4. by eapply addresses_NoDup.
  - intros s Hs. by destruct (proj1 (Forall_forall _ _) (wi_sessions _ _ Hi) s Hs) as (_ & ? & ? & _).
Qed.
End System.

(** * A tunnel *)

Section Tunnel.
Context `{WB : WgBackend} (W : Uuid -> Prop).

Lemma select_one_key {R} (g : R -> string) (l : list R) r : NoDup (g <$> l) -> r ∈ l ->
  select_one (fun x => String.eqb (g x) (g r)) l = Some r.
Proof.
  intros Hn Hr. destruct (select_one _ l) as [x|] eqn:E.
  - apply select_one_Some in E as [Hx Ex]. apply String.eqb_eq in Ex. f_equal. by apply (NoDup_key g l).
  - rewrite select_one_None, Forall_forall in E. specialize (E r Hr). cbn in E. by rewrite String.eqb_refl in E.
Qed.

Lemma collect_reads {R A} (f : R -> result WgError A) l : Forall (reads f) l -> exists bs, collect f l = Ok bs.
Proof.
  induction 1 as [|r l [a Ha] _ [bs IH]]; [by exists []|]. exists (a :: bs). cbn. rewrite Ha. cbn. by rewrite IH.
Qed.

(** What the columns of a row say. *)
Lemma device_columns r d u : Device_try_from r = Ok d -> dr_id r = uuid_text u -> dr_revoked_at r = None ->
  dv_id d = u /\ dv_public_key d = dr_public_key r /\ dv_revoked_at d = None.
Proof.
  intros H Eu Er. unfold Device_try_from in H. rewrite Eu, Er, wg_id_text in H. unfold wg_key in H.
  destruct (_ =? _)%nat; [|done]. cbn in H.
  repeat (let E := fresh in apply bind_Ok in H as (? & E & H); clear E). injection H as <-. done.
Qed.

Lemma weaver_columns t r v : wg_inv W t -> weaver_ok W t r -> WeaverWg_try_from r = Ok v ->
  wv_public_key v = wr_public_key r /\ ipv6_to_string (wv_assigned_ip v) = wr_assigned_ip r.
Proof.
  intros Hi (_ & u & _ & _ & Ha) H. destruct (allocated_text _ _ _ _ _ Hi Ha) as (h & _ & E & Ep).
  unfold WeaverWg_try_from, wg_key, wg_ip in H. rewrite Ep in H.
  destruct (_ =? _)%nat; [|done]. cbn in H.
  repeat (let E := fresh in apply bind_Ok in H as (? & E & H); clear E). injection H as <-. by rewrite E.
Qed.

(** A server whose statements do not fail. *)
Definition calm (t : WgTables) (cw cc : Z) (s : PeerNotifier) : WgWorld := mkWgWorld (mkConn t []) cw cc s.

Lemma run_sql {A} (f : WgTables -> option (A * WgTables)) t a t' cw cc s : f t = Some (a, t') ->
  run_async (wgdb (sql DE_Sqlx f)) (calm t cw cc s) = (Ok a, calm t' cw cc s).
Proof. intros H. cbn. unfold map_err, on_part, sql. cbn. by rewrite H. Qed.

Lemma run_get {R A} (try_from : R -> result WgError A) f t cw cc s :
  run_async (await* row := wgdb (wg_query f) in read_row try_from row) (calm t cw cc s)
  = (transpose try_from (f t), calm t cw cc s).
Proof. reflexivity. Qed.

Lemma run_list {R A} (try_from : R -> result WgError A) f t cw cc s :
  run_async (await* rows := wgdb (wg_query f) in A_Done (collect try_from rows)) (calm t cw cc s)
  = (collect try_from (f t), calm t cw cc s).
Proof. reflexivity. Qed.

Lemma run_service {A} (m : WgM WgError A) w :
  run_async (service m) w = match run_async m w with
                            | (Ok a, w) => (Ok a, w)
                            | (Err e, w) => (Err (wg_error_to_response e), w)
                            end.
Proof. unfold service, amap_err. rewrite run_async_map. by destruct (run_async m w) as [[a|e] w']. Qed.

(** The rows that [tunnel_create] adds. *)
Definition with_tunnel (env : Env) (device weaver : string) (host : Z) (t : WgTables) : WgTables :=
  let ip := ipv6_to_string (subnet_addr Sub_Client host) in
  let id := uuid_text (env_uuid env 0) in
  put_tunnels (wt_sessions t ++ [mkTunnelRow id device weaver ip (sqlite_now (env_now env 1)) None])
    (put_ips (wt_ips t ++ [mkIpRow ip "client" id (sqlite_now (env_now env 0)) None]) t).

(** Neither the identifier nor the address is in use. *)
Definition fresh_tunnel (env : Env) (host : Z) (t : WgTables) : Prop :=
  uuid_text (env_uuid env 0) ∉ tr_id <$> wt_sessions t
  /\ uuid_text (env_uuid env 0) ∉ ir_entity_id <$> wt_ips t
  /\ ipv6_to_string (subnet_addr Sub_Client host) ∉ ir_ip <$> wt_ips t.

Lemma existsb_fresh {R} (g : R -> string) k (l : list R) :
  k ∉ g <$> l -> existsb (fun r => String.eqb (g r) k) l = false.
Proof. intros H. apply not_true_iff_false. intros E. by apply H, existsb_key. Qed.

Lemma existsb_in {R} (g : R -> string) r (l : list R) : r ∈ l -> existsb (fun x => String.eqb (g x) (g r)) l = true.
Proof.
  intros H. apply List.existsb_exists. exists r. split; [by apply list_elem_of_In|]. apply String.eqb_refl.
Qed.

Lemma run_allocate env t cw cc s : u64_ok cc -> fresh_tunnel env cc t ->
  run_async (allocate_client_ip env 0 (env_uuid env 0)) (calm t cw cc s)
  = (Ok (subnet_addr Sub_Client cc),
     calm (put_ips (wt_ips t ++ [mkIpRow (ipv6_to_string (subnet_addr Sub_Client cc)) "client"
            (uuid_text (env_uuid env 0)) (sqlite_now (env_now env 0)) None]) t) cw (wrap_u64 (cc + 1)) s).
Proof.
  intros Hc (_ & He & Hp). unfold allocate_client_ip, allocate_ip. rewrite run_abind. cbn [run_async wgdb atomic].
  unfold map_err, on_part, wg_get_allocation_for_entity, wg_query, sql_read, sql. cbn [calm ww_conn cn_faults cn_tables].
  assert (E : select_one (fun r => String.eqb (ir_entity_id r) (uuid_text (env_uuid env 0))
    && bool_decide (ir_released_at r = None)) (wt_ips t) = None).
  { apply select_one_None, Forall_forall. intros r Hr. destruct (String.eqb_spec (ir_entity_id r) (uuid_text (env_uuid env 0)))
      as [Er|]; [|done]. exfalso. apply He. rewrite <- Er. by apply list_elem_of_fmap_2. }
  rewrite E. cbn [fmap option_fmap option_map]. rewrite run_abind. cbn [run_async fetch_add atomic counter].
  change (ww_client_counter (put_wg_conn _ (calm t cw cc s))) with cc. rewrite (proj2 (Z.ltb_ge SUBNET_HOST_MASK cc))
    by (unfold u64_ok in Hc; unfold SUBNET_HOST_MASK; lia).
  change (put_counter _ _ _) with (calm t cw (wrap_u64 (cc + 1)) s).
  rewrite run_abind. unfold wg_insert_ip_allocation, ip_is.
  by erewrite run_sql by (cbn beta; by rewrite (existsb_fresh ir_ip)).
Qed.

Lemma run_insert_session now id t cw cc s u uw addr d v : uuid_text id ∉ tr_id <$> wt_sessions t ->
  d ∈ wt_devices t -> dr_id d = uuid_text u -> v ∈ wt_weavers t -> wr_weaver_id v = uuid_text uw ->
  Forall (fun x => tunnel_between (dr_id d) (wr_weaver_id v) x = false) (wt_sessions t) ->
  run_async (wgdb (wg_insert_session now id u uw addr)) (calm t cw cc s)
  = (Ok tt, calm (put_tunnels (wt_sessions t ++ [mkTunnelRow (uuid_text id) (dr_id d) (wr_weaver_id v)
       (ipv6_to_string addr) (sqlite_now now) None]) t) cw cc s).
Proof.
  intros Hid Hd Ed Hv Ev Hs. apply run_sql. unfold tunnel_is, device_is, weaver_is.
  rewrite <- Ed, <- Ev, (existsb_fresh tr_id), (existsb_in dr_id), (existsb_in wr_weaver_id) by done.
  assert (E : existsb (tunnel_between (dr_id d) (wr_weaver_id v)) (wt_sessions t) = false).
  { apply not_true_iff_false. intros (x & Hx & E)%existsb_true. by rewrite (proj1 (Forall_forall _ _) Hs x Hx) in E. }
  by rewrite E.
Qed.

Lemma run_create config env d v t cw cc s u uw : wg_inv W t -> u64_ok cc -> fresh_tunnel env cc t ->
  d ∈ wt_devices t -> dr_id d = uuid_text u -> dr_revoked_at d = None ->
  v ∈ wt_weavers t -> wr_weaver_id v = uuid_text uw ->
  Forall (fun x => tunnel_between (dr_id d) (wr_weaver_id v) x = false) (wt_sessions t) ->
  let ip := subnet_addr Sub_Client cc in
  let id := env_uuid env 0 in
  exists weaver_ip, ipv6_to_string weaver_ip = wr_assigned_ip v
  /\ run_async (tunnel_create config env u uw) (calm t cw cc s)
     = (Ok (mkCreateSessionResponse id ip weaver_ip (base64_encode (wr_public_key v))
              (default DerpMap_default (wc_derp_map config))),
        calm (with_tunnel env (dr_id d) (wr_weaver_id v) cc t) cw (wrap_u64 (cc + 1))
          (notify_peer uw (PE_PeerAdded (base64_encode (dr_public_key d)) (ipv6_to_string ip +:+ "/128") (uuid_text id)) s)).
Proof.
  intros Hi Hc Hf Hd Ed Er Hv Ev Hs ip id.
  destruct (proj1 (Forall_forall _ _) (wi_devices _ _ Hi) d Hd) as ([dev Edev] & _).
  assert (Hok := proj1 (Forall_forall _ _) (wi_weavers _ _ Hi) v Hv). assert (Hok' := Hok). destruct Hok' as ([wv Ewv] & _).
  destruct (device_columns _ _ _ Edev Ed Er) as (Ei & Ek & Ern). destruct (weaver_columns t _ _ Hi Hok Ewv) as (Ewk & Ewi).
  exists (wv_assigned_ip wv). split; [done|]. unfold tunnel_create, device_get, weaver_get, tunnel_get_by_device_weaver.
  rewrite run_abind. unfold wg_get_device. rewrite run_get. unfold device_is. rewrite <- Ed, select_one_key by (apply Hi || done).
  cbn [transpose]. rewrite Edev. cbn iota. rewrite Ern. rewrite bool_decide_eq_false_2 by (by intros [x Hx]).
  rewrite run_abind. unfold wg_get_weaver. rewrite run_get. unfold weaver_is. rewrite <- Ev, select_one_key by (apply Hi || done).
  cbn [transpose]. rewrite Ewv. cbn iota.
  rewrite run_abind. unfold wg_get_session_by_device_weaver. rewrite run_get. rewrite <- Ed, <- Ev, (proj2 (select_one_None _ _) Hs).
  cbn [transpose]. rewrite run_abind, run_allocate by done. cbn iota.
  rewrite run_abind, (run_insert_session _ _ _ _ _ _ _ _ _ d v) by (apply Hf || done).
  cbn iota. rewrite Ek, Ewk. reflexivity.
Qed.

(** The device that a session is made for: the newest that is not revoked. *)
Lemma newest_device t user : wg_inv W t -> Exists (fun d => live_device_of user d = true) (wt_devices t) ->
  exists d dev rest u, collect Device_try_from (order_by true dr_created_at (select_where (live_device_of user) (wt_devices t)))
      = Ok (dev :: rest)
    /\ d ∈ wt_devices t /\ live_device_of user d = true /\ dr_id d = uuid_text u /\ dv_id dev = u
    /\ forall x, x ∈ wt_devices t -> live_device_of user x = true -> String.leb (dr_created_at x) (dr_created_at d) = true.
Proof.
  intros Hi (x & Hx & Lx)%Exists_exists. set (l := order_by _ _ _).
  assert (Hl : forall r, r ∈ l <-> r ∈ wt_devices t /\ live_device_of user r = true).
  { intros r. unfold l. rewrite order_by_perm. apply elem_of_select_where. }
  assert (Hr : Forall (reads Device_try_from) l).
  { apply Forall_forall. intros r [Hr _]%Hl. apply (proj1 (Forall_forall _ _) (wi_devices _ _ Hi) r Hr). }
  destruct (collect_reads _ _ Hr) as [bs Ebs]. assert (Hs := order_by_sorted true dr_created_at
    (select_where (live_device_of user) (wt_devices t))). fold l in Hs. rewrite Ebs. apply collect_Ok in Ebs.
  destruct Ebs as [|d dev rows rest Ed _]; [by assert (Hn := proj2 (Hl x) (conj Hx Lx)); apply elem_of_nil in Hn|].
  destruct (proj1 (Hl d) ltac:(left)) as [Hd Ld].
  destruct (proj1 (Forall_forall _ _) (wi_devices _ _ Hi) d Hd) as (_ & _ & u & Eu).
  exists d, dev, rest, u. split_and!; [done..| |].
  - apply (device_columns d dev u Ed Eu). unfold live_device_of in Ld. apply andb_true_iff in Ld as [_ Ld].
    by apply bool_decide_eq_true_1 in Ld.
  - intros y Hy Ly. assert (Hy' := proj2 (Hl y) (conj Hy Ly)). apply elem_of_cons in Hy' as [->|Hy'].
    + assert (E := String.compare_antisym (dr_created_at d) (dr_created_at d)). unfold String.leb.
      by destruct (String.compare _ _).
    + apply Sorted.StronglySorted_inv in Hs as [_ Hs]. exact (proj1 (Forall_forall _ _) Hs y Hy').
Qed.

(** The receivers of a weaver's channel, if there are any, get an event last, and other
    channels stay as they are. *)
Definition told (weaver : Uuid) (event : PeerEvent) (s s' : PeerNotifier) : Prop :=
  (forall w, w <> weaver -> s' !! w = s !! w)
  /\ match s !! weaver with
     | Some c => exists c', s' !! weaver = Some c' /\ pc_receivers c' = pc_receivers c
         /\ (pc_receivers c <> 0%nat -> last (pc_sent c') = Some event)
     | None => s' !! weaver = None
     end.

Lemma notify_told weaver event s : told weaver event s (notify_peer weaver event s).
Proof.
  split; [intros w Hw; by apply lookup_alter_ne|].
  assert (E : notify_peer weaver event s !! weaver = peer_send event <$> s !! weaver)
    by apply lookup_alter_eq.
  destruct (s !! weaver) as [c|]; [|exact E]. exists (peer_send event c). split; [exact E|]. clear E.
  unfold peer_send. destruct (pc_receivers c) eqn:E; [done|]. cbn. split; [done|]. intros _.
  by rewrite last_snoc.
Qed.

(** C40. The owner of a weaver gets a tunnel to it, and both ends are told the same.  In a
    reachable state with working statements, a device that is not revoked, no session
    between the owner's devices and the weaver, and neither the new session's id nor the
    next address taken by a row (after a restart it may be, and then the request fails,
    [WgCases.restart_collides]), a request for a session is answered with the address of
    the session and the address and key of the weaver, a row is stored for the newest device
    of the owner, the address is marked as given to the session, and the subscribers of the
    weaver, if there are any, learn the key of the device and the address.  Nothing else of
    the tables or the channels changes. *)
Theorem tunnel_established app env user id config owner_of uw v t cw cc s ms :
  rtc (wg_step W) (wg_start, []) (calm t cw cc s, ms) ->
  wa_config app = Some config -> wa_weaver_id_parses app id = true ->
  wa_provisioner app = Some owner_of -> owner_of id = Ok (uuid_text (wu_id user)) ->
  uuid_parse id = Ok uw -> v ∈ wt_weavers t -> wr_weaver_id v = uuid_text uw ->
  Exists (fun d => live_device_of (uuid_text (wu_id user)) d = true) (wt_devices t) ->
  (forall d x, d ∈ wt_devices t -> live_device_of (uuid_text (wu_id user)) d = true -> x ∈ wt_sessions t ->
    tunnel_between (dr_id d) (wr_weaver_id v) x = false) ->
  fresh_tunnel env cc t ->
  let ip := ipv6_to_string (subnet_addr Sub_Client cc) in
  let sid := uuid_text (env_uuid env 0) in
  exists d s', d ∈ wt_devices t /\ live_device_of (uuid_text (wu_id user)) d = true
    /\ (forall x, x ∈ wt_devices t -> live_device_of (uuid_text (wu_id user)) x = true ->
          String.leb (dr_created_at x) (dr_created_at d) = true)
    /\ told uw (PE_PeerAdded (base64_encode (dr_public_key d)) (ip +:+ "/128") sid) s s'
    /\ run_async (create_session app env user id) (calm t cw cc s)
       = (Ok (mkTunnelResponse sid ip (wr_assigned_ip v) (base64_encode (wr_public_key v))
                (default DerpMap_default (wc_derp_map config))),
          calm (with_tunnel env (dr_id d) (wr_weaver_id v) cc t) cw (wrap_u64 (cc + 1)) s').
Proof.
  intros (Hi & _ & Hc)%wg_reachable Ec Ep Eo Ew Eu Hv Ev Hd Hs Hf ip sid. cbn in Hi, Hc.
  destruct (newest_device t _ Hi Hd) as (d & dev & rest & u & El & Hd' & Ld & Ed & Edv & Hnew).
  exists d. eexists. split_and!; [done..|apply notify_told|].
  assert (Hs' : Forall (fun x => tunnel_between (dr_id d) (wr_weaver_id v) x = false) (wt_sessions t)).
  { apply Forall_forall. intros x Hx. by apply Hs. }
  assert (Er : dr_revoked_at d = None).
  { unfold live_device_of in Ld. apply andb_true_iff in Ld as [_ Ld]. by apply bool_decide_eq_true_1 in Ld. }
  destruct (run_create config env d v t cw cc s u uw Hi Hc Hf Hd' Ed Er Hv Ev Hs') as (wip & Ewip & Hrun).
  unfold create_session, tunnel_enabled, owned_weaver, uuid_param. rewrite Ec, Ep, Eo, Ew, Eu, String.eqb_refl.
  cbn [negb abind aret async_map]. rewrite run_abind, run_service. unfold device_list, wg_list_devices_for_user.
  rewrite run_list, El. cbn iota. rewrite run_abind, run_service, Edv, Hrun. cbn iota. unfold aret, TunnelResponse_from.
  cbn [run_async cs_session_id cs_client_ip cs_weaver_ip cs_weaver_public_key cs_derp_map]. by rewrite Ewip.
Qed.
End Tunnel.
