(* ===== verification/WgCases.v ===== *)
(** The overlay network on a concrete day. *)
From stdpp Require Import base gmap list strings relations.
From Stdlib Require Import ZArith Lia Ascii.
From S2P Require Import Prelude Text FlagCore CoreTypes Effects Sql Columns Samples WgModel WgServer WgProofs.
Local Open Scope Z_scope.

(** * A backend *)

(** Times of statements are cut to seconds and marked; keys are their own text. *)
Definition marked_time (t : Z) : string := String "s" (time_text (t - t mod 10 ^ 9)).
Definition marked_time_of (s : string) : option Z :=
  match s with String "s" s => time_of s | _ => None end.

Lemma whole_second t : calendar t -> calendar (t - t mod 10 ^ 9).
Proof.
  unfold calendar. intros H. assert (E := Z.div_mod t (10 ^ 9) ltac:(done)).
  assert (Hm := Z.mod_pos_bound t (10 ^ 9) ltac:(done)). lia.
Qed.

#[refine] Definition sample_wg : WgBackend := {|
  wb_stamps := sample_stamps;
  sqlite_now := marked_time;
  parse_naive := marked_time_of;
  base64_encode k := k;
  base64_decode s := Some s;
  base64_decode_no_pad _ := None;
|}.
Proof.
  - intros t H. split.
    + change (parse_from_rfc3339 ?s) with (time_of s). unfold marked_time, time_of. cbn [String.length].
      unfold time_text. by rewrite bits_length.
    + unfold marked_time_of, marked_time. by rewrite time_text_inv by by apply whole_second.
  - done.
Defined.

Section Cases.
#[local] Existing Instance sample_wg.

(** * A day *)

(** Weavers have numbers below 100; user 10 owns them all. *)
Definition is_weaver (u : Uuid) : Prop := (u < 100)%N.
Definition alice : WgUser := mkWgUser 10%N false.
Definition laptop_key : string := "abcdefghijklmnopqrstuvwxyz012345".
Definition pod_key : string := "ABCDEFGHIJKLMNOPQRSTUVWXYZ012345".

(** A token is the text of the weaver's id. *)
Definition office : WgApp :=
  mkWgApp (Some (mkWgTunnelConfig true false None)) (Some Some) (Some (fun _ => Ok (uuid_text 10%N)))
    (fun _ => true) "https://loom".
Definition token (u : Uuid) : option (option string) := Some (Some ("Bearer " +:+ uuid_text u)).

(** Identifiers start at [u]; the clock stands at second [u]. *)
Definition ids (u : N) : Env := mkEnv (fun _ => Z.of_N u * 10 ^ 9) (fun i => (u + N.of_nat i)%N).

Lemma ids_clocks u : (u < 1000000)%N -> clocks_ok (ids u).
Proof. intros H k. unfold calendar, ids, env_now. lia. Qed.

Definition setup : list WgRequest :=
  [WQ_RegisterDevice (ids 1000%N) alice laptop_key (Some "laptop");
   WQ_RegisterWeaver (ids 1001%N) (token 7%N) (uuid_text 7%N) pod_key None;
   WQ_StreamPeers (token 7%N) (uuid_text 7%N)].
Definition connect (u : N) : WgRequest := WQ_CreateSession (ids u) alice (uuid_text 7%N).
Definition hang_up (u : N) : WgRequest := WQ_TerminateSession (ids 3000%N) alice (uuid_text u).

Definition morning_wg : WgWorld := put_wg_tables (add_wg_user (uuid_text 10%N) (wtab wg_start)) wg_start.
Definition noon : WgWorld := serve_all office setup morning_wg.
Definition evening : WgWorld := restart_wg true (serve_all office [connect 2000%N; hang_up 2000%N; connect 2001%N] noon).

Lemma setup_ok : Forall (wg_request_ok is_weaver) setup.
Proof.
  apply Forall_cons. split; [by apply ids_clocks|]. apply Forall_cons. split; [|by apply Forall_singleton].
  split; [by apply ids_clocks|]. intros u. rewrite uuid_roundtrip. by intros [= <-].
Qed.

Lemma noon_reached : rtc (wg_step is_weaver) (wg_start, []) (noon, []).
Proof. eapply rtc_l; [apply (G_AddUser _ wg_start [])|]. apply serve_all_steps, setup_ok. Qed.

Definition at_evening : WgWorld * list (Async WgWorld unit) := (evening, []).

Lemma evening_reached : rtc (wg_step is_weaver) (wg_start, []) at_evening.
Proof.
  etrans; [apply noon_reached|]. etrans; [apply (serve_all_steps is_weaver office [connect 2000%N; hang_up 2000%N; connect 2001%N])|].
  - apply Forall_cons. split; [split; [by apply ids_clocks|unfold is_weaver; cbn; lia]|].
    apply Forall_cons. split; [done|]. apply Forall_singleton. split; [by apply ids_clocks|unfold is_weaver; cbn; lia].
  - apply rtc_once. apply G_Restart.
Qed.

Lemma overlay_addresses_unique_witness :
  let t := wtab at_evening.1 in
  length (wt_sessions t) = 1%nat /\ length (wt_weavers t) = 1%nat
  /\ exists clients weavers,
    ipv6_parse <$> (tr_client_ip <$> wt_sessions t) = Some <$> clients
    /\ ipv6_parse <$> (wr_assigned_ip <$> wt_weavers t) = Some <$> weavers
    /\ Forall (fun a => is_client_ip a = true) clients /\ Forall (fun a => is_weaver_ip a = true) weavers
    /\ NoDup (clients ++ weavers)
    /\ NoDup ((fun s => (tr_device_id s, tr_weaver_id s)) <$> wt_sessions t)
    /\ forall s, s ∈ wt_sessions t ->
         tr_device_id s ∈ dr_id <$> wt_devices t /\ tr_weaver_id s ∈ wr_weaver_id <$> wt_weavers t.
Proof.
  split; [vm_compute; reflexivity|]. split; [vm_compute; reflexivity|].
  exact (overlay_addresses_unique is_weaver at_evening evening_reached).
Defined.

(** ** A tunnel *)

Definition pod_row : WeaverRow :=
  mkWeaverRow (uuid_text 7%N) pod_key "fd7a:115c:a1e0:1::1" None None (sqlite_now (1001 * 10 ^ 9)) None.
Definition laptop_row : DeviceRow :=
  mkDeviceRow (uuid_text 1000%N) (uuid_text 10%N) laptop_key (Some "laptop"%string) (sqlite_now (1000 * 10 ^ 9)) None None.
Definition pod_ip_row : IpRow :=
  mkIpRow "fd7a:115c:a1e0:1::1" "weaver" (uuid_text 7%N) (sqlite_now (1001 * 10 ^ 9)) None.
Definition noon_tables : WgTables := mkWgTables [uuid_text 10%N] [laptop_row] [pod_row] [] [pod_ip_row].
Definition noon_senders : PeerNotifier := {[7%N := mkPeerChannel 1 []]}.

Lemma noon_calm : noon = calm noon_tables 2 1 noon_senders.
Proof. vm_compute. reflexivity. Qed.

Lemma noon_tunnel_fresh : fresh_tunnel (ids 2000%N) 1 noon_tables.
Proof.
  split_and!; [apply not_elem_of_nil|..].
  - apply (bool_decide_unpack (uuid_text 2000%N ∉ ir_entity_id <$> wt_ips noon_tables)). vm_compute. exact I.
  - apply (bool_decide_unpack (_ ∉ ir_ip <$> wt_ips noon_tables)). vm_compute. exact I.
Qed.

Lemma tunnel_established_witness :
  let ip := ipv6_to_string (subnet_addr Sub_Client 1) in
  let sid := uuid_text 2000%N in
  exists d s', d ∈ wt_devices noon_tables /\ live_device_of (uuid_text (wu_id alice)) d = true
    /\ (forall x, x ∈ wt_devices noon_tables -> live_device_of (uuid_text (wu_id alice)) x = true ->
          String.leb (dr_created_at x) (dr_created_at d) = true)
    /\ told 7%N (PE_PeerAdded (base64_encode (dr_public_key d)) (ip +:+ "/128") sid) noon_senders s'
    /\ run_async (create_session office (ids 2000%N) alice (uuid_text 7%N)) (calm noon_tables 2 1 noon_senders)
       = (Ok (mkTunnelResponse sid ip (wr_assigned_ip pod_row) (base64_encode (wr_public_key pod_row)) DerpMap_default),
          calm (with_tunnel (ids 2000%N) (dr_id d) (wr_weaver_id pod_row) 1 noon_tables) 2 (wrap_u64 (1 + 1)) s').
Proof.
  refine (tunnel_established is_weaver office (ids 2000%N) alice (uuid_text 7%N) (mkWgTunnelConfig true false None)
    (fun _ => Ok (uuid_text 10%N)) 7%N pod_row noon_tables 2 1 noon_senders [] _ eq_refl eq_refl eq_refl eq_refl
    (uuid_roundtrip 7%N) _ eq_refl _ _ noon_tunnel_fresh).
  - rewrite <- noon_calm. exact noon_reached.
  - left.
  - constructor. vm_compute. reflexivity.
  - intros d x _ _ Hx. by apply elem_of_nil in Hx.
Defined.

(** ** Addresses that are lost *)

Definition client_rows (w : WgWorld) : list (string * bool) :=
  (fun r => (ir_ip r, bool_decide (ir_released_at r = None)))
    <$> select_where (fun r => String.eqb (ir_allocation_type r) "client") (wt_ips (wtab w)).
Definition reconnect (w : WgWorld) : result WgServerError string :=
  match (run_async (create_session office (ids 2001%N) alice (uuid_text 7%N)) w).1 with
  | Ok r => Ok (ts_client_ip r)
  | Err e => Err e
  end.

(** A released address is not given again. *)
Lemma released_not_reused :
  reconnect (serve_all office [connect 2000%N; hang_up 2000%N] noon) = Ok "fd7a:115c:a1e0:2::2"%string.
Proof. vm_compute. reflexivity. Qed.

(** The counter after a restart does not see released addresses, whose rows are still there. *)
Lemma restart_collides :
  reconnect (restart_wg true (serve_all office [connect 2000%N; hang_up 2000%N] noon)) = Err VE_Db.
Proof. vm_compute. reflexivity. Qed.

(** The sessions of a weaver go with it and keep their addresses. *)
Lemma unregister_leaks :
  let w := serve_all office [connect 2000%N; WQ_UnregisterWeaver (ids 3000%N) (token 7%N) (uuid_text 7%N)] noon in
  wt_sessions (wtab w) = [] /\ client_rows w = [("fd7a:115c:a1e0:2::1"%string, true)].
Proof. vm_compute. split; reflexivity. Qed.

(** A session that is not stored keeps its address. *)
Lemma failed_session_leaks :
  let w := put_wg_conn (mkConn (wtab noon) (replicate 6 false ++ [true])) noon in
  let w := serve_all office [connect 2000%N] w in
  wt_sessions (wtab w) = [] /\ client_rows w = [("fd7a:115c:a1e0:2::1"%string, true)].
Proof. vm_compute. split; reflexivity. Qed.

(** The check for an exhausted pool is never true. *)
Lemma pool_never_exhausted host : u64_ok host -> (SUBNET_HOST_MASK <? host) = false.
Proof. unfold u64_ok, SUBNET_HOST_MASK. lia. Qed.

(** ** Revoked devices *)

(** A revoked device keeps its session, and the weaver is not told. *)
Lemma revoked_keeps_tunnel :
  let w := serve_all office [connect 2000%N; WQ_RevokeDevice (ids 3000%N) alice (uuid_text 1000%N)] noon in
  length (wt_sessions (wtab w)) = 1%nat
  /\ (fun d => bool_decide (is_Some (dr_revoked_at d))) <$> wt_devices (wtab w) = [true]
  /\ pc_sent <$> ww_senders w !! 7%N
      = Some [PE_PeerAdded laptop_key "fd7a:115c:a1e0:2::1/128" (uuid_text 2000%N)].
Proof. vm_compute. split_and!; reflexivity. Qed.

(** ** Answers *)

Lemma not_found_names_thread :
  WgServerError_response (wg_error_to_response WE_DeviceNotFound)
  = http 404 "not_found" "Thread not found: Device not found".
Proof. reflexivity. Qed.
End Cases.
